(* ===== verification/_CoqProject ===== *)
-Q . S2P
Prelude.v
CLib.v
Varint.v
Streams.v
Stem.v
StemFacts.v
Backup.v
BackupChannel.v
BackupFacts.v
BackupProps.v
Recover.v
RecoverStream.v
RecoverFacts.v
RecoverProps.v
Values.v
ValuesFacts.v
Pager.v
PagerFacts.v
Btree.v
BtreeFacts.v
RkProps.v
RkSmall.v
StdMap.v
SqliteColumn.v
LeafFile.v
LeafProps.v
MasterFile.v
MasterFacts.v
MasterProps.v
MasterSafe.v
Output.v
OutputAffinity.v
OutputFacts.v
OutputSchema.v
OutputSafe.v
OutputProps.v
OutputAll.v
OutputSmall.v
Vfslog.v
VfslogFacts.v
VfslogProps.v
VfslogSmall.v
Tokenizer.v
TokenizerFacts.v
TokenizerProps.v
TokenizerSmall.v
Cipher.v
CipherProps.v
Serial.v
SerialVarint.v
SerialFacts.v
SerialSafe.v
Material.v
MaterialFacts.v
MaterialProps.v
MaterialSafe.v
IncMaterial.v
IncProps.v
Encrypted.v
EncryptedProps.v
MaterialSmall.v
MappedFile.v
WalLog.v
WalProps.v
WalSafe.v
WalSmall.v
PageParse.v
PageFacts.v
Crawl.v
CrawlTree.v
FullBackup.v
FullProps.v
IncBackup.v
IncBackupProps.v
PageCache.v
RepairPager.v
RepairPagerProps.v
BackupFile.v
BackupSmall.v
