(* ===== verification/Prelude.v ===== *)
(** * A verification library for the C code of WCDB

    WCDB is a database framework on top of SQLite.  This library models its own C code: the
    add-ons of the Android version under src/deprecated/android/addons (backup and recovery,
    the repair kit, the logging VFS, the full-text tokenizer, the text cipher), the
    Porter stemmer of the current version under src/src/common/core/fts/tokenizer, and of its C++
    code the backup under src/src/common/base and src/src/common/repair: serialization, materials, and the
    reader of databases and write-ahead logs with the crawlers and the backup on top of it.  The models
    are executable functions translated from the sources, and the theorems say what the
    functions do, on every input of the stated kind, errors and undefined behaviour included.

    ** How C is modelled

    A C function is a computation [cm S A] from a state [S], a record with a field for each
    field of the C structures and statics it works on, to a value and a new state, or to a
    [fault]: an access outside an object, use of released or unwritten memory, signed
    overflow, a wait that never ends.  Integers are in [Z] and are cut to their width where
    the code does it ([u8] to [u64], [s32], [s64] of CLib); signed arithmetic that can leave its range
    is checked ([chk_int]).  Bytes and UTF-16 units are in [Z], memory is a list, a string is
    the list of its bytes without the terminator.  A loop runs on fuel, and running out of it
    is the fault [OutOfFuel]; the fuel a model passes is a bound that the theorems prove to be
    enough, or is universally quantified.  [wp c Q s] is total correctness: from [s] the
    computation meets no fault and ends with [Q].  [pwp] tolerates chosen faults, and is used
    to show that a loop does not end.

    Code that is not in the repository (SQLite as a library, zlib, OpenSSL, ICU, the operating
    system, and the sources of the repair kit that are missing) is a class of operations that
    the models take as a parameter, and a class of laws stating its documented behaviour, which
    the theorems take as hypotheses.  For each class there is a concrete instance (modules
    [Toy], [RkToy], [OutToy], [VlogToy], [TokToy], [CipherToy], [WalToy], [BackupToy]), on which every theorem with a
    hypothesis is applied to a concrete input.

    ** The parts

    - Prelude, CLib, Varint: faults, the monad, [wp], buffers and their tactics; integers, C
      strings, formatted output, sorting and searching, stdio streams; the variable-length
      integers of SQLite.
    - Stem, StemFacts (PorterStemming.c): the stemmer works in place on a word inside a larger
      buffer through four statics.  It computes a specification of the algorithm on words; the
      measure m() counts vowel-consonant sequences; it stays inside the word and ends.
    - Streams: zlib and RC4 as interfaces with laws.
    - Backup, BackupChannel, BackupFacts, BackupProps (mm_backup.c, mm_backup.h):
      a producer walks the schema and the rows of a database and writes tagged items into
      two buffers, a second thread compresses, encrypts and writes them.  Interleavings are
      explicit schedules.  Under every schedule without cancellation the file holds exactly
      the encoding of what the database asks for; the channel keeps the order of bytes; the
      descriptors select the tables they name.  Also proved: an error of the writing thread
      that is not reported, a loop that cancellation makes endless, and a statement buffer
      that runs over.
    - Recover, RecoverStream, RecoverFacts, RecoverProps (mm_recover.c): reading the sections,
      decrypting, inflating, interpreting the tags and running the statements.  The tag
      interpreter is proved against the interface [StreamReader], which the decrypting reader
      implements.  The reader makes the calls to SQLite a plain interpreter of items makes;
      with the backup theorems this gives the round trip from one database to another for
      data below 64 KiB.  Also proved: larger data is lost, a damaged file can make the reader
      use a finalized statement or shift too far.
    - Values, ValuesFacts (sqliterk_values.c), Pager, PagerFacts (sqliterk_pager.c, .h), Btree,
      BtreeFacts (sqliterk_btree.c, sqliterk.c, SQLiteRepairKit.h), RkProps, RkSmall: the repair
      kit reads a database file without SQLite.  The array of values implements a list; the
      pager finds the geometry and reads pages and keeps their status; walking a stored
      table, over inner pages, leaves and overflow pages, hands over every row in order and
      marks its pages.  The depth of the recursion is a parameter, and a tree of some depth
      needs that much.  Also proved: a damaged file on which the recursion exceeds every
      depth, reads behind a record, misread page sizes, offsets beyond 2 GiB, rows that are
      missed or filled with zeros.
    - The output of the repair kit (sqliterk_output.cpp, with parts of sqliterk_api.c): the rows of
      a damaged file go into a new database.  StdMap and SqliteColumn: std::map with string
      keys, the columns of a row of SQLite.
      LeafFile, LeafProps: the list of leaf pages, scanned with SQLite, saved and loaded.
      MasterFile, MasterFacts, MasterProps, MasterSafe: the table of tables, saved compressed and
      encrypted beside a healthy database; saving and loading is a round trip, and loading any
      file stays inside its buffers.
      Output: the two sets of callbacks, preparing a table, binding rows, the loops over
      tables and indices, cancellation.  The walk of Btree takes a user who answers from what
      he has heard; here the user is the context with the callbacks, run on these events.
      OutputAffinity: the affinity of a column is the documented one, but for types with a name of text
      behind INT.  OutputSafe: whatever
      SQLite answers the context stays sound.  OutputFacts: what a row does, exactly,
      and the calls on a statement as an abstract insertion.  OutputSchema: preparing a table on
      a database that describes it.  OutputProps: the output of a table and the walk of the
      table of tables.  OutputAll: the output of a whole database whose pages are intact.
      OutputSmall: concrete databases.  Also proved: a default bound to the wrong column, rows
      lost when the rowid is NOT NULL, a cancelled output that is committed, a buffer that runs
      over, errors that are not reported.
    - Vfslog, VfslogFacts, VfslogProps, VfslogSmall (vfslog.c, vfslog.h): a VFS that logs calls.
      The methods are transparent, but for two file controls; the doubly linked list of logs implements a registry; lines
      are not lost between the two log files.  Also proved: what an earlier process left is
      lost, a journal can outlive its log, files without a log crash.
    - Tokenizer, TokenizerFacts, TokenizerProps, TokenizerSmall (mm_tokenizer.c,
      mm_utils.c, and the macros U8_NEXT and U16_APPEND of ICU's headers): a cursor holds the
      text in UTF-16 with byte offsets.  Opening decodes the text and builds the offsets;
      the calls for the next token together give exactly the tokens that ICU's words
      determine, if none is longer than 256 units.  The fuel of the two loops is the number of units, which bounds the number of
      words.  Also proved: the size computation wraps around for very long texts.
    - Cipher, CipherProps (mm_cipher.c): SQL functions that hide text; the round trip, and the
      buffer they overflow, and a context that is released too early.

    - Backups of the current version.  Serial (base/Serialization.cpp, Data::resize): a growing
      buffer and a cursor over bytes.  SerialVarint: the unrolled decoder of varints against one
      that takes a byte at a time, by normalising both to lists of bit fields, and the
      encoder.  SerialFacts: each put appends an encoding, each advance reads one.  SerialSafe: what
      the readers do with arbitrary bytes.
      Material, MaterialFacts, MaterialProps, MaterialSafe (repair/mechanic/Material.cpp, .hpp): the
      material of a backup, that is, the tables with their leaf pages and checksums.  What is
      written is read back; reading arbitrary bytes ends, and the faults it can meet are
      characterised.  The fuel of the loop over contents is the size of the data, since each
      takes a byte at least.
      IncMaterial, IncProps (repair/mechanic/IncrementalMaterial.cpp, .hpp): the pages changed since;
      the round trip, and a truncated file that is read beyond its end.
      Encrypted, EncryptedProps (repair/basic/EncryptedSerialization.cpp): the layout of a material
      in encrypted pages, and the round trip of a material through it.
      MaterialSmall: concrete library code and materials.  Also proved: sizes that wrap around,
      a number of pages that makes an exception, fields that are lost without memory, a
      statement that is written and then refused.

    - The reader of databases of the current version.  MappedFile (base/FileHandle.cpp): files that are read and
      mapped; the answer of the system to each request is part of the file, so that requests can be
      refused in any order.
      WalLog, WalProps, WalSafe, WalSmall (repair/parse/Wal.cpp, Shm.cpp, Frame.cpp): the
      write-ahead log.  A log that SQLite has written presents exactly the committed pages that no checkpoint has
      copied; without the -shm file it ends at the first frame of its generation that does not match; any files are
      read without a fault, if the number of copied frames is not negative as an int.  Also proved: old frames behind the valid ones drop the whole log, a
      missing -shm file makes uninitialized memory decide, a log of 2 GiB is ignored.
      PageParse, PageFacts (Page.cpp, Cell.cpp): pages and cells, against the class [PagerOps] of what they
      ask of a pager and the class [PagerView] of what it promises: that it shows a [Database].  A stored page or
      cell, with overflow pages, is parsed to what was stored.
      PageCache (PageBasedFileHandle.cpp, LRUCache.hpp, Range.cpp): pages through mapped ranges, which
      never overlap.  The loop that maps ends: each turn halves the range or gives one back.
      RepairPager, RepairPagerProps (Pager.cpp): the pager over the log, the cache and the file; it implements
      [PagerView].  A database that SQLite has written is opened and each page has its current content; any
      files are opened or refused without a fault.
      Crawl, CrawlTree (basic/Crawlable.cpp, crawl/MasterCrawler.cpp, SequenceCrawler.cpp): the walk over a B-tree,
      with what a client overrides as the class [Crawlable].  It ends on any database, since no page is entered twice,
      so that the number of pages and one more is enough fuel; on a stored tree it tells the client (class
      [Client]) each page and cell in order.
      FullBackup, FullProps (mechanic/Backup.cpp): the full backup; its material is what the rows of the master
      table say, for tables with rowids and rows with a root page.
      IncBackup, IncBackupProps (mechanic/Backup.cpp): the incremental backup, and the choice of it.  Its crawl is shown to do
      what a plain function over trees does ([visit]); from that, every table ends with the leaves of its tree.  This is proved for a schema that has not changed; for a changed one the definitions are evaluated.
      BackupFile, BackupSmall: the pager under the backups, from the bytes of the files to the material, and a small
      database with its log on which the theorems are applied.  Also shown there: a file that is cut within a page is backed up
      without an error, a leaf behind the end of a file that has become shorter keeps its entry, a view makes the backup
      fail, and of a table WITHOUT ROWID no leaf is kept.

    ** What is not modelled

    Log messages, and functions that only release memory, pass their arguments on, or register
    callbacks with SQLite; assertions ([WCTAssert]), which release builds leave out, with what only they
    read; closing resources is modelled where it has an effect on files or
    on shared state.  Memory allocation is modelled where the code tests its result.  Threads
    are modelled in the backup writer; the repair kit, the VFS and the tokenizer are modelled
    for one thread, with the flag that cancels the output given by what each look at it finds.
    Of the public interface of the repair kit (sqliterk_api.c) the functions that the output
    calls are modelled, the others hand their arguments on.  The loader of ICU, the command
    line tools, the JNI layer, the C++ core (handles, queries, migration) and the language
    bindings are not modelled.  Of the repair of the current version the recovery is not modelled (FullCrawler, Mechanic,
    Repairman, the factory of directories and the assembler): it executes statements on a new SQLite
    database and moves files.  Where the materials of a backup are on disk is a parameter.  Of
    the serialization the variants that take a path are left out, and memory for strings and
    vectors is taken as given, while memory for buffers may be refused.  The
    vendored SQLite, OpenSSL, ICU and zstd are not part of the program. *)

From Stdlib Require Export ZArith Lia Ascii.
From stdpp Require Export base tactics list numbers strings.

#[global] Open Scope Z_scope.

(** ** Faults, results and the state monad

    A C function is modelled as a function from a state to a result.  A
    result is a value with the new state, or the reason why the C program
    has no defined behaviour there.  Running out of the fuel that bounds a
    loop is a fault of its own, so that termination is a theorem and never
    a side effect of the encoding. *)

Inductive fault :=
| OutOfBounds   (* access outside an object *)
| OutOfFuel     (* the loop did not end within the given number of turns *)
| NullDeref     (* access through a null pointer *)
| BadUnion      (* union read through a member that was not written *)
| UseAfterFree  (* use of an object that has been released *)
| IntOverflow   (* signed arithmetic outside the range of int *)
| DivByZero     (* division by zero *)
| Uninit        (* read of memory that was not written *)
| BadFree       (* release of memory that was not allocated *)
| Blocked       (* the thread waits and nothing will wake it *)
| Uncaught.     (* an exception that nothing catches *)

Inductive res (A : Type) :=
| Done (a : A)
| Stuck (f : fault).
Arguments Done {A} a.
Arguments Stuck {A} f.

Definition cm (S A : Type) := S -> res (A * S).

Definition ret {S A} (a : A) : cm S A := fun s => Done (a, s).
Definition fail {S A} (f : fault) : cm S A := fun _ => Stuck f.
Definition bind {S A B} (c : cm S A) (k : A -> cm S B) : cm S B :=
  fun s => match c s with
           | Done (a, s') => k a s'
           | Stuck f => Stuck f
           end.
Definition gets {S A} (f : S -> A) : cm S A := fun s => Done (f s, s).
Definition modify {S} (f : S -> S) : cm S unit := fun s => Done (tt, f s).
Definition lift_res {S A} (r : res A) : cm S A :=
  fun s => match r with Done a => Done (a, s) | Stuck f => Stuck f end.

(** Running a computation on a part of the state. *)
Definition zoom {S T A} (part : S -> T) (put : T -> S -> S) (c : cm T A) : cm S A :=
  fun s => match c (part s) with
           | Done (a, t) => Done (a, put t s)
           | Stuck f => Stuck f
           end.

Declare Scope cm_scope.
Delimit Scope cm_scope with cm.
Notation "'let!' x ':=' c 'in' k" := (bind c (fun x => k))
  (at level 10, x pattern, c at level 100, k at level 200,
   format "'[v' 'let!'  x  ':='  c  'in' '//' k ']'") : cm_scope.
Notation "c ;;; k" := (bind c (fun _ => k))
  (at level 199, right associativity, format "'[v' c ;;; '//' k ']'") : cm_scope.
#[global] Open Scope cm_scope.

Definition res_bind {A B} (r : res A) (k : A -> res B) : res B :=
  match r with Done a => k a | Stuck f => Stuck f end.
Notation "'let?' x ':=' c 'in' k" := (res_bind c (fun x => k))
  (at level 10, x pattern, c at level 100, k at level 200,
   format "'[v' 'let?'  x  ':='  c  'in' '//' k ']'") : cm_scope.

(** ** Total correctness of a computation

    [wp c Q s]: from [s], [c] meets no fault and its value and final state
    satisfy [Q]. *)

Definition wp {S A} (c : cm S A) (Q : A -> S -> Prop) (s : S) : Prop :=
  match c s with
  | Done (a, s') => Q a s'
  | Stuck _ => False
  end.

Section wp.
Context {S A B : Type}.

Lemma wp_ret (a : A) (Q : A -> S -> Prop) s : Q a s -> wp (ret a) Q s.
Proof. done. Qed.

Lemma wp_bind (c : cm S A) (k : A -> cm S B) Q s :
  wp c (fun a => wp (k a) Q) s -> wp (bind c k) Q s.
Proof. unfold wp, bind. by destruct (c s) as [[a s']|f]. Qed.

Lemma wp_mono (c : cm S A) (P Q : A -> S -> Prop) s :
  wp c P s -> (forall a s', P a s' -> Q a s') -> wp c Q s.
Proof. unfold wp. destruct (c s) as [[a s']|f]; auto. Qed.

Lemma wp_gets (f : S -> A) (Q : A -> S -> Prop) s : Q (f s) s -> wp (gets f) Q s.
Proof. done. Qed.

Lemma wp_modify (f : S -> S) (Q : unit -> S -> Prop) s : Q tt (f s) -> wp (modify f) Q s.
Proof. done. Qed.

Lemma wp_lift_res (r : res A) (a : A) (Q : A -> S -> Prop) s :
  r = Done a -> Q a s -> wp (lift_res r) Q s.
Proof. by intros ->. Qed.

Lemma wp_run (c : cm S A) (Q : A -> S -> Prop) s :
  wp c Q s -> exists a s', c s = Done (a, s') /\ Q a s'.
Proof. unfold wp. destruct (c s) as [[a s']|f]; [eauto|done]. Qed.

Lemma wp_bind_gets (f : S -> A) (k : A -> cm S B) Q s :
  wp (k (f s)) Q s -> wp (bind (gets f) k) Q s.
Proof. done. Qed.

Lemma wp_bind_modify (f : S -> S) (k : unit -> cm S B) Q s :
  wp (k tt) Q (f s) -> wp (bind (modify f) k) Q s.
Proof. done. Qed.

Lemma wp_bind_ret (a : A) (k : A -> cm S B) Q s :
  wp (k a) Q s -> wp (bind (ret a) k) Q s.
Proof. done. Qed.

Lemma wp_bind_lift_res (r : res A) (a : A) (k : A -> cm S B) Q s :
  r = Done a -> wp (k a) Q s -> wp (bind (lift_res r) k) Q s.
Proof. by intros ->. Qed.

Lemma wp_zoom {T} (part : S -> T) (put : T -> S -> S) (c : cm T A) Q s :
  wp c (fun a t => Q a (put t s)) (part s) -> wp (zoom part put c) Q s.
Proof. unfold wp, zoom. by destruct (c (part s)) as [[a t]|f]. Qed.

Lemma wp_bind_bind {C} (c : cm S A) (k : A -> cm S B) (h : B -> cm S C) Q s :
  wp (bind c (fun a => bind (k a) h)) Q s -> wp (bind (bind c k) h) Q s.
Proof. unfold wp, bind. by destruct (c s) as [[a s']|f]. Qed.

Lemma wp_bind_assoc {C} (c : cm S A) (k : A -> cm S B) (h : B -> cm S C) Q s :
  wp (bind (bind c k) h) Q s -> wp (bind c (fun a => bind (k a) h)) Q s.
Proof. unfold wp, bind. by destruct (c s) as [[a s']|f]. Qed.
End wp.

(** [pwp E c Q s]: the same, except that the faults in [E] are tolerated. *)
Definition pwp {S A} (E : fault -> Prop) (c : cm S A) (Q : A -> S -> Prop) (s : S) : Prop :=
  match c s with
  | Done (a, s') => Q a s'
  | Stuck f => E f
  end.

Section pwp.
Context {S A B : Type} (E : fault -> Prop).

Lemma pwp_ret (a : A) (Q : A -> S -> Prop) s : Q a s -> pwp E (ret a) Q s.
Proof. done. Qed.

Lemma pwp_fail f (Q : A -> S -> Prop) s : E f -> pwp E (fail f) Q s.
Proof. done. Qed.

Lemma pwp_bind (c : cm S A) (k : A -> cm S B) Q s :
  pwp E c (fun a => pwp E (k a) Q) s -> pwp E (bind c k) Q s.
Proof. unfold pwp, bind. by destruct (c s) as [[a s']|f]. Qed.

Lemma pwp_mono (c : cm S A) (P Q : A -> S -> Prop) s :
  pwp E c P s -> (forall a s', P a s' -> Q a s') -> pwp E c Q s.
Proof. unfold pwp. destruct (c s) as [[a s']|f]; auto. Qed.

Lemma pwp_gets (f : S -> A) (Q : A -> S -> Prop) s : Q (f s) s -> pwp E (gets f) Q s.
Proof. done. Qed.

Lemma pwp_modify (f : S -> S) (Q : unit -> S -> Prop) s :
  Q tt (f s) -> pwp E (modify f) Q s.
Proof. done. Qed.

Lemma pwp_lift_res (r : res A) (a : A) (Q : A -> S -> Prop) s :
  r = Done a -> Q a s -> pwp E (lift_res r) Q s.
Proof. by intros ->. Qed.

Lemma wp_pwp (c : cm S A) (Q : A -> S -> Prop) s : wp c Q s -> pwp E c Q s.
Proof. unfold wp, pwp. by destruct (c s) as [[a s']|f]. Qed.

Lemma pwp_wp (c : cm S A) (Q : A -> S -> Prop) s : pwp (fun _ => False) c Q s -> wp c Q s.
Proof. done. Qed.

Lemma pwp_bind_gets (f : S -> A) (k : A -> cm S B) Q s :
  pwp E (k (f s)) Q s -> pwp E (bind (gets f) k) Q s.
Proof. done. Qed.

Lemma pwp_bind_modify (f : S -> S) (k : unit -> cm S B) Q s :
  pwp E (k tt) Q (f s) -> pwp E (bind (modify f) k) Q s.
Proof. done. Qed.

Lemma pwp_bind_ret (a : A) (k : A -> cm S B) Q s :
  pwp E (k a) Q s -> pwp E (bind (ret a) k) Q s.
Proof. done. Qed.

Lemma pwp_bind_lift_res (r : res A) (a : A) (k : A -> cm S B) Q s :
  r = Done a -> pwp E (k a) Q s -> pwp E (bind (lift_res r) k) Q s.
Proof. by intros ->. Qed.

Lemma pwp_zoom {T} (part : S -> T) (put : T -> S -> S) (c : cm T A) Q s :
  pwp E c (fun a t => Q a (put t s)) (part s) -> pwp E (zoom part put c) Q s.
Proof. unfold pwp, zoom. by destruct (c (part s)) as [[a t]|f]. Qed.

Lemma pwp_bind_bind {C} (c : cm S A) (k : A -> cm S B) (h : B -> cm S C) Q s :
  pwp E (bind c (fun a => bind (k a) h)) Q s -> pwp E (bind (bind c k) h) Q s.
Proof. unfold pwp, bind. by destruct (c s) as [[a s']|f]. Qed.
End pwp.

Section run.
Context {S A B : Type}.

Lemma bind_gets (f : S -> A) (k : A -> cm S B) s : bind (gets f) k s = k (f s) s.
Proof. done. Qed.

Lemma bind_modify (f : S -> S) (k : unit -> cm S B) s : bind (modify f) k s = k tt (f s).
Proof. done. Qed.

Lemma bind_ret (a : A) (k : A -> cm S B) s : bind (ret a) k s = k a s.
Proof. done. Qed.

Lemma bind_Done (c : cm S A) (k : A -> cm S B) s a s' :
  c s = Done (a, s') -> bind c k s = k a s'.
Proof. unfold bind. by intros ->. Qed.

Lemma bind_lift_res (r : res A) (k : A -> cm S B) s a :
  r = Done a -> bind (lift_res r) k s = k a s.
Proof. by intros ->. Qed.
End run.

(** ** Characters and byte strings

    A byte is a [Z] between 0 and 255; [str] gives the bytes of a literal and
    [chr] the code of one character. *)

Definition chr (c : ascii) : Z := Z.of_nat (nat_of_ascii c).
Definition str (s : string) : list Z := map chr (String.list_ascii_of_string s).

Definition is_byte (b : Z) : Prop := 0 <= b < 256.

(** ** Byte buffers addressed by C integers *)

Definition zlen {A} (l : list A) : Z := Z.of_nat (length l).

(** [slice i n l]: the [n] elements of [l] from offset [i]. *)
Definition slice {A} (i n : Z) (l : list A) : list A :=
  take (Z.to_nat n) (drop (Z.to_nat i) l).

Definition in_range (i n len : Z) : bool :=
  (0 <=? i) && (0 <=? n) && (i + n <=? len).

(** [l[i]] *)
Definition zread {A} (l : list A) (i : Z) : res A :=
  if 0 <=? i then match l !! Z.to_nat i with
                  | Some x => Done x
                  | None => Stuck OutOfBounds
                  end
  else Stuck OutOfBounds.

(** Reading [n] elements from [l + i], as [memcpy] and [memcmp] do. *)
Definition zread_n {A} (l : list A) (i n : Z) : res (list A) :=
  if in_range i n (zlen l) then Done (slice i n l) else Stuck OutOfBounds.

(** Writing [xs] at [l + i], as [memcpy] and [memmove] do. *)
Definition zwrite_n {A} (l : list A) (i : Z) (xs : list A) : res (list A) :=
  if in_range i (zlen xs) (zlen l)
  then Done (take (Z.to_nat i) l ++ xs ++ drop (Z.to_nat i + length xs) l)
  else Stuck OutOfBounds.

Section buffers.
Context {A : Type}.
Implicit Types l xs : list A.

Lemma zlen_nonneg l : 0 <= zlen l.
Proof. unfold zlen. lia. Qed.

Lemma zlen_app l1 l2 : zlen (l1 ++ l2) = zlen l1 + zlen l2.
Proof. unfold zlen. rewrite length_app. lia. Qed.

Lemma zlen_cons x l : zlen (x :: l) = zlen l + 1.
Proof. unfold zlen. simpl length. lia. Qed.

Lemma zlen_nil : zlen (@nil A) = 0.
Proof. done. Qed.

Lemma zlen_take_le l n : 0 <= n <= zlen l -> zlen (take (Z.to_nat n) l) = n.
Proof. unfold zlen. rewrite length_take. lia. Qed.

Lemma zlen_drop l n : 0 <= n <= zlen l -> zlen (drop (Z.to_nat n) l) = zlen l - n.
Proof. unfold zlen. rewrite length_drop. lia. Qed.

Lemma zlen_slice l i n : 0 <= i -> 0 <= n -> i + n <= zlen l -> zlen (slice i n l) = n.
Proof. unfold zlen, slice. rewrite length_take, length_drop. lia. Qed.

Lemma zlen_0_inv l : zlen l = 0 -> l = [].
Proof. destruct l; [done|]. rewrite zlen_cons. pose proof (zlen_nonneg l). lia. Qed.

Lemma to_nat_zlen l : Z.to_nat (zlen l) = length l.
Proof. unfold zlen. lia. Qed.

Lemma zread_app l1 x l2 i : i = zlen l1 -> zread (l1 ++ x :: l2) i = Done x.
Proof.
  intros ->. unfold zread. pose proof (zlen_nonneg l1).
  rewrite (proj2 (Z.leb_le _ _)) by lia.
  rewrite to_nat_zlen, lookup_app_r by done.
  by rewrite Nat.sub_diag.
Qed.

Lemma zread_n_app l1 l2 l3 i n :
  i = zlen l1 -> n = zlen l2 -> zread_n (l1 ++ l2 ++ l3) i n = Done l2.
Proof.
  intros -> ->. unfold zread_n, in_range, slice.
  rewrite !zlen_app, !to_nat_zlen.
  pose proof (zlen_nonneg l1); pose proof (zlen_nonneg l2); pose proof (zlen_nonneg l3).
  replace ((0 <=? zlen l1) && (0 <=? zlen l2) &&
           (zlen l1 + zlen l2 <=? zlen l1 + (zlen l2 + zlen l3))) with true by lia.
  by rewrite drop_app_length, take_app_length.
Qed.

Lemma zread_n_slice l i n :
  0 <= i -> 0 <= n -> i + n <= zlen l -> zread_n l i n = Done (slice i n l).
Proof. intros. unfold zread_n, in_range. by replace (_ && _) with true by lia. Qed.

Lemma zread_n_tail l1 l2 i n :
  i = zlen l1 -> n = zlen l2 -> zread_n (l1 ++ l2) i n = Done l2.
Proof. rewrite <- (app_nil_r l2) at 2. apply zread_n_app. Qed.

Lemma zwrite_n_app l1 l2 l3 xs i :
  i = zlen l1 -> zlen xs = zlen l2 ->
  zwrite_n (l1 ++ l2 ++ l3) i xs = Done (l1 ++ xs ++ l3).
Proof.
  intros -> Hx. unfold zwrite_n, in_range.
  rewrite !zlen_app, to_nat_zlen.
  pose proof (zlen_nonneg l1); pose proof (zlen_nonneg l2); pose proof (zlen_nonneg l3).
  replace ((0 <=? zlen l1) && (0 <=? zlen xs) &&
           (zlen l1 + zlen xs <=? zlen l1 + (zlen l2 + zlen l3))) with true by lia.
  rewrite take_app_length.
  replace (length l1 + length xs)%nat with (length (l1 ++ l2))
    by (rewrite length_app; unfold zlen in Hx; lia).
  by rewrite (assoc_L (++) l1 l2 l3), drop_app_length.
Qed.
(** Writing behind what is there already. *)
Lemma zwrite_n_behind l1 l2 xs i :
  i = zlen l1 -> zlen xs <= zlen l2 -> zwrite_n (l1 ++ l2) i xs = Done (l1 ++ xs ++ drop (length xs) l2).
Proof.
  intros Hi Hx. rewrite <- (take_drop (length xs) l2) at 1. apply zwrite_n_app; [done|].
  unfold zlen in *. rewrite length_take. lia.
Qed.
End buffers.

(** ** Automation *)

(** Rewriting lengths to linear arithmetic. *)
Create Rewrite HintDb zlen.
#[export] Hint Rewrite @zlen_app @zlen_cons @zlen_nil @to_nat_zlen : zlen.

Ltac zlen_pos :=
  repeat match goal with
         | |- context [zlen ?l] => lazymatch goal with
                                   | _ : 0 <= zlen l |- _ => fail
                                   | _ => pose proof (zlen_nonneg l)
                                   end
         | H : context [zlen ?l] |- _ => lazymatch goal with
                                   | _ : 0 <= zlen l |- _ => fail
                                   | _ => pose proof (zlen_nonneg l)
                                   end
         end.

(** Lengths of literals. *)
Ltac zstr :=
  repeat match goal with
         | |- context [zlen (str ?s)] =>
           let n := eval vm_compute in (zlen (str s)) in
           match n with Z0 => idtac | Zpos _ => idtac end;
           change (zlen (str s)) with n in *
         | H : context [zlen (str ?s)] |- _ =>
           let n := eval vm_compute in (zlen (str s)) in
           match n with Z0 => idtac | Zpos _ => idtac end;
           change (zlen (str s)) with n in *
         end.

Ltac zl := autorewrite with zlen in *; zstr; zlen_pos; try lia.

(** Normal form of appended lists, to the right. *)
Ltac lapp := repeat (progress (rewrite <- ?app_assoc; cbn [app])).

(** One step of a [wp] proof through the structure of the program. *)
Ltac wp_step :=
  lazymatch goal with
  | |- wp (bind _ _) _ _ => apply wp_bind
  | |- wp (ret _) _ _ => apply wp_ret
  | |- wp (gets _) _ _ => apply wp_gets
  | |- wp (modify _) _ _ => apply wp_modify
  | |- wp (if ?b then _ else _) _ _ => destruct b eqn:?
  end.
Ltac wp_steps := repeat (wp_step; simpl).

Ltac pwp_step :=
  lazymatch goal with
  | |- pwp _ (bind (gets _) _) _ _ => apply pwp_bind_gets
  | |- pwp _ (bind (modify _) _) _ _ => apply pwp_bind_modify
  | |- pwp _ (bind (ret _) _) _ _ => apply pwp_bind_ret
  | |- pwp _ (bind (bind _ _) _) _ _ => apply pwp_bind_bind
  | |- pwp _ (bind _ _) _ _ => apply pwp_bind
  | |- pwp _ (ret _) _ _ => apply pwp_ret
  | |- pwp _ (gets _) _ _ => apply pwp_gets
  | |- pwp _ (modify _) _ _ => apply pwp_modify
  end.
