(* ===== verification/CLib.v ===== *)
(** * The parts of the C library the program uses

    Integers at their width, little-endian layout, C strings, formatted output into
    a fixed buffer, formatted numbers, sorting and binary search, and stdio streams.  A stream is its
    contents with a position, an error flag and a list of limits: the n-th transfer
    moves at most the n-th limit, which is how a full disk or a failing device is
    given to a model; without limits every transfer is complete. *)

From stdpp Require Import sorting.
From S2P Require Import Prelude.

(** ** Integers at their width *)

Definition u8 (z : Z) : Z := z mod 2 ^ 8.
Definition u16 (z : Z) : Z := z mod 2 ^ 16.
Definition u32 (z : Z) : Z := z mod 2 ^ 32.
Definition u64 (z : Z) : Z := z mod 2 ^ 64.
Definition wrap_s (w z : Z) : Z := (z + 2 ^ (w - 1)) mod 2 ^ w - 2 ^ (w - 1).
Definition s32 (z : Z) : Z := wrap_s 32 z.
Definition s64 (z : Z) : Z := wrap_s 64 z.

(** Signed arithmetic on [int], which has no defined result outside its range. *)
Definition chk_int (z : Z) : res Z :=
  if (- 2 ^ 31 <=? z) && (z <? 2 ^ 31) then Done z else Stuck IntOverflow.

(** A fresh object of [n] zero bytes. *)
Definition zeros (n : Z) : list Z := replicate (Z.to_nat n) 0.

(** ** Little-endian layout *)

Fixpoint le_bytes (n : nat) (v : Z) : list Z :=
  match n with O => [] | S n => v mod 256 :: le_bytes n (v / 256) end.

Fixpoint le_val (l : list Z) : Z :=
  match l with [] => 0 | b :: l => b + 256 * le_val l end.

(** ** C strings: the bytes before the terminator *)

Fixpoint cstr (l : list Z) : list Z :=
  match l with
  | [] => []
  | b :: l => if b =? 0 then [] else b :: cstr l
  end.

Definition strlen (obj : list Z) : res Z :=
  if existsb (Z.eqb 0) obj then Done (zlen (cstr obj)) else Stuck OutOfBounds.

(** [strcmp] and [strncmp] on strings given without their terminator. *)
Fixpoint strcmp (a b : list Z) : Z :=
  match a, b with
  | [], [] => 0
  | [], _ :: _ => -1
  | _ :: _, [] => 1
  | x :: a, y :: b => if x <? y then -1 else if y <? x then 1 else strcmp a b
  end.

Definition strncmp (a b : list Z) (n : nat) : Z := strcmp (take n a) (take n b).

(** [snprintf(buf, sizeof(buf), "%s", text)]: the buffer and the length [text] needs. *)
Definition snprintf (buf : list Z) (text : list Z) : res (list Z * Z) :=
  let shown := take (length buf - 1) text in
  let? buf' := zwrite_n buf 0 (shown ++ [0]) in
  Done (buf', zlen text).

(** [strlcpy(buf + off, text, sizeof(buf) - off)]; an offset beyond the buffer makes the
    size wrap around, and the copy leaves the buffer. *)
Definition strlcpy (buf : list Z) (off : Z) (text : list Z) : res (list Z * Z) :=
  let size := zlen buf - off in
  if (off <? 0) || (size <? 0) then Stuck OutOfBounds
  else if size =? 0 then Done (buf, zlen text)
  else let? buf' := zwrite_n buf off (take (Z.to_nat size - 1) text ++ [0]) in
       Done (buf', zlen text).

(** ** Formatted numbers *)

(** [%lld] and [%d]; twenty digits are enough for 64 bits. *)
Fixpoint dec_digits (n : nat) (v : Z) : list Z :=
  match n with
  | O => []
  | S n => (if v <? 10 then [] else dec_digits n (v / 10)) ++ [48 + v mod 10]
  end.
Definition dec (v : Z) : list Z := if v <? 0 then 45 :: dec_digits 20 (- v) else dec_digits 20 v.

(** [%02x] of a byte and [%08x] of 32 bits; [HEX] is the same with [X]. *)
Definition hex_digit (d : Z) : Z := if d <? 10 then 48 + d else 87 + d.
Definition HEX_digit (d : Z) : Z := if d <? 10 then 48 + d else 55 + d.
Fixpoint hex (n : nat) (v : Z) : list Z :=
  match n with
  | O => []
  | S n => hex n (v / 16) ++ [hex_digit (v mod 16)]
  end.
Fixpoint HEX (n : nat) (v : Z) : list Z :=
  match n with
  | O => []
  | S n => HEX n (v / 16) ++ [HEX_digit (v mod 16)]
  end.

(** [%x] without a width; eight digits are enough for 32 bits. *)
Fixpoint hex_short (n : nat) (v : Z) : list Z :=
  match n with
  | O => []
  | S n => (if v <? 16 then [] else hex_short n (v / 16)) ++ [hex_digit (v mod 16)]
  end.

(** ** [qsort] and [bsearch] by a string key *)

Section by_key.
Context {A : Type} (key : A -> list Z).

Definition key_le (a b : A) : Prop := strcmp (key a) (key b) <= 0.

#[export] Instance key_le_dec a b : Decision (key_le a b).
Proof. unfold key_le. apply _. Defined.

Definition qsort (l : list A) : list A := merge_sort key_le l.

Fixpoint bsearch_rec (fuel : nat) (k : list Z) (l : list A) (lo hi : nat) : option A :=
  match fuel with
  | O => None
  | S fuel =>
    if (hi <=? lo)%nat then None
    else let mid := ((lo + hi) / 2)%nat in
         match l !! mid with
         | None => None
         | Some a =>
           let c := strcmp k (key a) in
           if c =? 0 then Some a
           else if c <? 0 then bsearch_rec fuel k l lo mid
           else bsearch_rec fuel k l (S mid) hi
         end
  end.

Definition bsearch (k : list Z) (l : list A) : option A :=
  bsearch_rec (S (length l)) k l 0 (length l).
End by_key.

(** ** stdio *)

Record FILE := File {
  f_data : list Z;
  f_pos : Z;
  f_err : bool;
  f_lim : list Z
}.

(** How many of [n] bytes the next transfer moves. *)
Definition f_grant (f : FILE) (n : Z) : Z :=
  match f_lim f with [] => n | m :: _ => Z.max 0 (Z.min n m) end.

(** [fwrite(bytes, 1, n, f)]: the count; a short count sets the error flag. *)
Definition fwrite (f : FILE) (bytes : list Z) : Z * FILE :=
  let n := f_grant f (zlen bytes) in
  let done := take (Z.to_nat n) bytes in
  let at_ := Z.to_nat (f_pos f) in
  (n, File (take at_ (f_data f) ++ done ++ drop (at_ + length done) (f_data f))
           (f_pos f + n) (f_err f || (n <? zlen bytes)) (tail (f_lim f))).

(** [fwrite(bytes, n, 1, f)]: 1, or 0 when not all of it was written or there was nothing to write. *)
Definition fwrite1 (f : FILE) (bytes : list Z) : Z * FILE :=
  let '(n, f') := fwrite f bytes in (if (n =? zlen bytes) && (0 <? n) then 1 else 0, f').

(** [fread(buf, 1, n, f)]: the bytes; the end of the file is not an error. *)
Definition fread (f : FILE) (n : Z) : list Z * FILE :=
  let avail := slice (f_pos f) n (f_data f) in
  let m := f_grant f (zlen avail) in
  let got := take (Z.to_nat m) avail in
  (got, File (f_data f) (f_pos f + zlen got) (f_err f || (m <? zlen avail)) (tail (f_lim f))).

(** [fread(buf, n, 1, f)]: the object, or [None] for the count 0. *)
Definition fread1 (f : FILE) (n : Z) : option (list Z) * FILE :=
  let '(got, f') := fread f n in (if (zlen got =? n) && (0 <? n) then Some got else None, f').

Definition fseek_to (f : FILE) (pos : Z) : FILE := File (f_data f) pos (f_err f) (f_lim f).
Definition ftell (f : FILE) : Z := f_pos f.

#[global] Arguments fwrite : simpl never.
#[global] Arguments fwrite1 : simpl never.
#[global] Arguments fread : simpl never.
#[global] Arguments fread1 : simpl never.
#[global] Arguments u8 : simpl never.
#[global] Arguments u16 : simpl never.
#[global] Arguments u32 : simpl never.
#[global] Arguments u64 : simpl never.
#[global] Arguments snprintf : simpl never.
#[global] Arguments strlcpy : simpl never.

(** ** Lemmas *)

Lemma u8_byte z : is_byte (u8 z).
Proof. unfold is_byte, u8. apply Z.mod_pos_bound. lia. Qed.

Lemma u_small w z : 0 <= z < 2 ^ w -> z mod 2 ^ w = z.
Proof. apply Z.mod_small. Qed.

Lemma u8_small z : 0 <= z < 256 -> u8 z = z.
Proof. apply Z.mod_small. Qed.

Lemma u16_small z : 0 <= z < 65536 -> u16 z = z.
Proof. apply Z.mod_small. Qed.

Lemma u32_small z : 0 <= z < 4294967296 -> u32 z = z.
Proof. apply Z.mod_small. Qed.

Lemma u32_range z : 0 <= u32 z < 4294967296.
Proof. apply Z.mod_pos_bound. lia. Qed.

Lemma wrap_s_small w z : 0 < w -> - 2 ^ (w - 1) <= z < 2 ^ (w - 1) -> wrap_s w z = z.
Proof.
  intros Hw Hz. unfold wrap_s.
  assert (2 ^ w = 2 * 2 ^ (w - 1)) by (rewrite <- Z.pow_succ_r by lia; f_equal; lia).
  rewrite Z.mod_small by lia. lia.
Qed.

Lemma chk_int_ok z : - 2 ^ 31 <= z < 2 ^ 31 -> chk_int z = Done z.
Proof. intros. unfold chk_int. by rewrite (proj2 (Z.leb_le _ _)), (proj2 (Z.ltb_lt _ _)) by lia. Qed.

(** Bits that do not overlap are added. *)
Lemma lor_shift acc b shift :
  0 <= shift -> 0 <= acc < 2 ^ shift -> 0 <= b -> Z.lor acc (Z.shiftl b shift) = acc + b * 2 ^ shift.
Proof.
  intros Hs Ha Hb. rewrite Z.shiftl_mul_pow2 by lia.
  assert (Hl : Z.land acc (b * 2 ^ shift) = 0).
  { apply Z.bits_inj'. intros k Hk. rewrite Z.land_spec, Z.bits_0.
    destruct (Z_lt_dec k shift).
    - rewrite Z.mul_pow2_bits_low by lia. by rewrite andb_false_r.
    - destruct (Z.eq_dec acc 0) as [->|]; [by rewrite Z.bits_0|].
      rewrite (Z.bits_above_log2 acc k); [done|lia|].
      assert (Z.log2 acc < shift) by (apply Z.log2_lt_pow2; lia). lia. }
  by rewrite Z.add_nocarry_lxor, Z.lxor_lor.
Qed.

Lemma length_le_bytes n v : length (le_bytes n v) = n.
Proof. revert v. induction n as [|n IH]; intros v; simpl; [done|by rewrite IH]. Qed.

Lemma zlen_le_bytes n v : zlen (le_bytes n v) = Z.of_nat n.
Proof. unfold zlen. by rewrite length_le_bytes. Qed.

Lemma le_bytes_is_byte n v : Forall is_byte (le_bytes n v).
Proof.
  revert v. induction n as [|n IH]; intros v; simpl; constructor; auto.
  apply Z.mod_pos_bound. lia.
Qed.

(** Reading back what was laid out. *)
Lemma le_val_bytes n v : 0 <= v < 256 ^ Z.of_nat n -> le_val (le_bytes n v) = v.
Proof.
  revert v. induction n as [|n IH]; intros v Hv; simpl.
  - change (256 ^ Z.of_nat 0) with 1 in Hv. lia.
  - rewrite Nat2Z.inj_succ, Z.pow_succ_r in Hv by lia.
    rewrite IH; [pose proof (Z.div_mod v 256); lia|].
    split; [apply Z.div_pos; lia|apply Z.div_lt_upper_bound; lia].
Qed.

Lemma zlen_zeros n : 0 <= n -> zlen (zeros n) = n.
Proof. intros. unfold zlen, zeros. rewrite length_replicate. lia. Qed.

Lemma strcmp_eq a b : strcmp a b = 0 <-> a = b.
Proof.
  revert b. induction a as [|x a IH]; intros [|y b]; simpl; try (split; [lia|done]); [done|].
  destruct (x <? y) eqn:E1; [split; [lia|intros [= -> ->]; lia]|].
  destruct (y <? x) eqn:E2; [split; [lia|intros [= -> ->]; lia]|].
  rewrite IH. split; [intros ->; f_equal; lia|by intros [= -> ->]].
Qed.

Lemma strcmp_opp a b : strcmp b a = - strcmp a b.
Proof.
  revert b. induction a as [|x a IH]; intros [|y b]; simpl; try done.
  destruct (x <? y) eqn:E1, (y <? x) eqn:E2; try lia. apply IH.
Qed.

Lemma strcmp_lt_trans a b c : strcmp a b <= 0 -> strcmp b c <= 0 -> strcmp a c <= 0.
Proof.
  revert b c. induction a as [|x a IH]; intros [|y b] [|z c]; simpl; try lia.
  destruct (x <? y) eqn:E1, (y <? x) eqn:E2, (y <? z) eqn:E3, (z <? y) eqn:E4,
    (x <? z) eqn:E5, (z <? x) eqn:E6; try lia. apply IH.
Qed.

Lemma cstr_app_nul l r : 0 ∉ l -> cstr (l ++ 0 :: r) = l.
Proof.
  induction l as [|b l IH]; simpl; [done|]. rewrite not_elem_of_cons. intros [Hb Hl].
  destruct (b =? 0) eqn:E; [lia|]. by rewrite IH.
Qed.

Lemma strlen_app_nul l r : 0 ∉ l -> strlen (l ++ 0 :: r) = Done (zlen l).
Proof.
  intros Hl. unfold strlen. rewrite existsb_app. simpl. rewrite orb_true_r.
  by rewrite cstr_app_nul.
Qed.

#[export] Hint Rewrite zlen_le_bytes : zlen.

(** The two ways [fwrite] of one object ends. *)
Lemma fwrite1_cases f bytes n f' :
  fwrite1 f bytes = (n, f') -> bytes <> [] ->
  (n = 1 /\ f_data f' = take (Z.to_nat (f_pos f)) (f_data f) ++ bytes ++
                        drop (Z.to_nat (f_pos f) + length bytes) (f_data f) /\
   f_pos f' = f_pos f + zlen bytes) \/
  (n = 0 /\ f_err f' = true).
Proof.
  unfold fwrite1, fwrite. intros H Hb.
  assert (Hg : f_grant f (zlen bytes) <= zlen bytes)
    by (unfold f_grant; destruct (f_lim f); zlen_pos; lia).
  assert (0 < zlen bytes) by (destruct bytes; [done|rewrite zlen_cons; zlen_pos; lia]).
  destruct ((f_grant f (zlen bytes) =? zlen bytes) && _) eqn:E; injection H as <- <-; [left|right]; simpl.
  - split; [done|]. assert (Heq : f_grant f (zlen bytes) = zlen bytes) by lia.
    rewrite Heq, to_nat_zlen, firstn_all. done.
  - split; [done|]. apply orb_true_iff. right. lia.
Qed.

(** Reading an object where it is. *)
Lemma fread1_at f pre x post :
  f_data f = pre ++ x ++ post -> f_pos f = zlen pre -> f_lim f = [] -> x <> [] ->
  fread1 f (zlen x) = (Some x, File (f_data f) (zlen pre + zlen x) (f_err f) []).
Proof.
  intros Hd Hp Hl Hx. unfold fread1, fread, f_grant. rewrite Hl, Hp, Hd.
  assert (Hs : slice (zlen pre) (zlen x) (pre ++ x ++ post) = x)
    by (unfold slice; by rewrite !to_nat_zlen, drop_app_length, take_app_length).
  rewrite Hs, to_nat_zlen, firstn_all, Z.eqb_refl, Z.ltb_irrefl, orb_false_r.
  by rewrite (proj2 (Z.ltb_lt _ _)) by (destruct x; [done|rewrite zlen_cons; zlen_pos; lia]).
Qed.

Lemma fread1_eof f n : f_pos f = zlen (f_data f) -> 0 < n -> (fread1 f n).1 = None.
Proof.
  intros Hp Hn. unfold fread1.
  assert (Hf : (fread f n).1 = []).
  { unfold fread, slice. cbn [fst]. by rewrite Hp, to_nat_zlen, drop_all, !take_nil. }
  destruct (fread f n) as [got f']. cbn [fst] in Hf. subst got. cbn [fst].
  change (zlen []) with 0. by replace (0 =? n) with false by lia.
Qed.

(** ** Files in sequence *)

(** A file that is written to at its end, with or without limits. *)
Definition at_end (unlimited : bool) (f : FILE) : Prop :=
  f_pos f = zlen (f_data f) /\ (unlimited = true -> f_lim f = []).

(** A write at the end: the bytes are there, or the count is 0. *)
Lemma fwrite1_end u f x :
  at_end u f -> x <> [] ->
  match fwrite1 f x with
  | (n, f') => at_end u f' /\ n = 1 /\ f_data f' = f_data f ++ x \/ u = false /\ n = 0
  end.
Proof.
  intros [Hp Hl] Hx. destruct (fwrite1 f x) as [n f'] eqn:E.
  assert (Hlim : f_lim f' = tail (f_lim f)) by (unfold fwrite1, fwrite in E; by injection E as _ <-).
  assert (Hn : u = true -> n = 1).
  { intros Hu. unfold fwrite1, fwrite, f_grant in E. rewrite (Hl Hu) in E. injection E as <- _.
    rewrite Z.eqb_refl. rewrite (proj2 (Z.ltb_lt _ _)); [done|]. destruct x; [done|]. rewrite zlen_cons. zlen_pos. lia. }
  destruct (fwrite1_cases f x n f' E Hx) as [(-> & Hd & Hf)|(-> & _)].
  - left. rewrite Hp, to_nat_zlen, firstn_all, drop_ge in Hd by (unfold zlen; lia).
    rewrite app_nil_r in Hd. split; [|done]. split; [by rewrite Hf, Hd, Hp, zlen_app|].
    intros Hu. by rewrite Hlim, (Hl Hu).
  - right. destruct u; [by specialize (Hn eq_refl)|done].
Qed.

(** Writing bytes at the end of a file without limits. *)
Lemma fwrite_end f x :
  at_end true f ->
  exists f', fwrite f x = (zlen x, f') /\ at_end true f' /\ f_data f' = f_data f ++ x /\ f_err f' = f_err f.
Proof.
  intros [Hp Hl]. specialize (Hl eq_refl). unfold fwrite, f_grant. rewrite Hl, Hp. eexists. split; [done|].
  cbn [f_data f_pos f_lim f_err]. rewrite !to_nat_zlen, !firstn_all, drop_ge by lia. rewrite app_nil_r.
  split; [|split; [done|by rewrite Z.ltb_irrefl, orb_false_r]].
  split; [cbn [f_pos f_data]; by rewrite zlen_app|done].
Qed.

(** A file that is read from, without errors: [done] is behind and [rest] ahead. *)
Definition reading (f : FILE) (done rest : list Z) : Prop :=
  f_data f = done ++ rest /\ f_pos f = zlen done /\ f_lim f = [].

Lemma fread1_next f done x rest n :
  reading f done (x ++ rest) -> x <> [] -> n = zlen x ->
  exists f', fread1 f n = (Some x, f') /\ reading f' (done ++ x) rest.
Proof.
  intros (Hd & Hp & Hl) Hx ->. rewrite (fread1_at f done x rest) by done. eexists. split; [done|].
  split; [by rewrite Hd, <- app_assoc|]. split; [by rewrite zlen_app|done].
Qed.

(** ** Sorting and searching *)

Section by_key_facts.
Context {A : Type} (key : A -> list Z).

Lemma key_le_total a b : key_le key a b \/ key_le key b a.
Proof. unfold key_le. rewrite (strcmp_opp (key a)). lia. Qed.

#[export] Instance key_le_trans : Transitive (key_le key).
Proof. intros a b c. unfold key_le. apply strcmp_lt_trans. Qed.

Lemma qsort_sorted (l : list A) : StronglySorted (key_le key) (qsort key l).
Proof. apply StronglySorted_merge_sort; [apply _|]. intros a b. apply key_le_total. Qed.

Lemma qsort_perm (l : list A) : qsort key l ≡ₚ l.
Proof. apply merge_sort_Permutation. Qed.

Lemma sorted_lookup_lt (l : list A) i j a b :
  StronglySorted (key_le key) l -> l !! i = Some a -> l !! j = Some b -> (i < j)%nat ->
  key_le key a b.
Proof.
  intros Hs Ha Hb Hij. rewrite <- (take_drop j l) in Hs.
  apply (StronglySorted_app_1_elem_of _ _ _ _ _ Hs).
  - apply list_elem_of_lookup. exists i. by rewrite lookup_take_lt.
  - apply list_elem_of_lookup. exists 0%nat. rewrite lookup_drop. by rewrite Nat.add_0_r.
Qed.

(** Everything left of the window is below the key and everything right of it above. *)
Lemma bsearch_rec_spec fuel k (l : list A) lo hi :
  StronglySorted (key_le key) l ->
  (hi <= length l)%nat -> (hi - lo < fuel)%nat ->
  (forall i a, l !! i = Some a -> (i < lo)%nat -> strcmp k (key a) > 0) ->
  (forall i a, l !! i = Some a -> (hi <= i)%nat -> strcmp k (key a) < 0) ->
  match bsearch_rec key fuel k l lo hi with
  | Some a => a ∈ l /\ key a = k
  | None => forall a, a ∈ l -> key a <> k
  end.
Proof.
  intros Hs. revert lo hi. induction fuel as [|fuel IH]; intros lo hi Hhi Hf Hlo Hup; [lia|].
  cbn [bsearch_rec].
  destruct (hi <=? lo)%nat eqn:E.
  { intros a (i & Hi)%list_elem_of_lookup Hk. apply Nat.leb_le in E.
    destruct (decide (i < lo)%nat) as [Hl|Hl].
    - pose proof (Hlo i a Hi Hl). rewrite (proj2 (strcmp_eq k (key a))) in H; [lia|done].
    - pose proof (Hup i a Hi ltac:(lia)). rewrite (proj2 (strcmp_eq k (key a))) in H; [lia|done]. }
  apply Nat.leb_gt in E.
  assert (Hmid : (lo <= (lo + hi) / 2 < hi)%nat).
  { split; [apply Nat.div_le_lower_bound; lia|apply Nat.Div0.div_lt_upper_bound; lia]. }
  set (mid := ((lo + hi) / 2)%nat) in *.
  destruct (l !! mid) as [x|] eqn:Ex.
  2: { apply lookup_ge_None in Ex. lia. }
  assert (Hord : forall i j a b, l !! i = Some a -> l !! j = Some b -> (i < j)%nat -> key_le key a b)
    by (intros i j a b Ha Hb Hij; exact (sorted_lookup_lt l i j a b Hs Ha Hb Hij)).
  destruct (strcmp k (key x) =? 0) eqn:Ec.
  { cbn match. split; [by eapply list_elem_of_lookup_2|]. symmetry. apply strcmp_eq. lia. }
  destruct (strcmp k (key x) <? 0) eqn:El; cbn match; apply IH; try lia.
  - auto.
  - intros i a Ha Hi. destruct (decide (i = mid)) as [->|]; [by replace a with x by congruence; lia|].
    pose proof (Hord mid i x a Ex Ha ltac:(lia)) as Hxa. unfold key_le in Hxa.
    destruct (Z_lt_dec (strcmp k (key a)) 0); [done|exfalso].
    pose proof (strcmp_opp k (key a)). pose proof (strcmp_lt_trans (key x) (key a) k Hxa ltac:(lia)).
    rewrite strcmp_opp in H0. lia.
  - intros i a Ha Hi. destruct (decide (i = mid)) as [->|]; [by replace a with x by congruence; lia|].
    pose proof (Hord i mid a x Ha Ex ltac:(lia)) as Hax. unfold key_le in Hax.
    destruct (Z_lt_dec 0 (strcmp k (key a))); [lia|exfalso].
    pose proof (strcmp_lt_trans k (key a) (key x) ltac:(lia) Hax). lia.
  - auto.
Qed.

Lemma bsearch_spec k (l : list A) :
  StronglySorted (key_le key) l ->
  match bsearch key k l with
  | Some a => a ∈ l /\ key a = k
  | None => forall a, a ∈ l -> key a <> k
  end.
Proof.
  intros Hs. apply bsearch_rec_spec; try done; [lia| |].
  - intros; lia.
  - intros i a Ha Hi. apply lookup_lt_Some in Ha. lia.
Qed.
End by_key_facts.
