(* ===== verification/Varint.v ===== *)
(** * Variable-length integers of SQLite

    The encoding of unsigned 64-bit integers in one to nine bytes that SQLite uses in its
    files, and a decoder that reads it byte by byte. *)

From S2P Require Import Prelude CLib.

(** Bytes of seven bits with bit 7 set, high bits first. *)
Fixpoint cont_bytes (n : nat) (v : Z) : list Z :=
  match n with
  | O => []
  | S n => cont_bytes n (v / 128) ++ [128 + v mod 128]
  end.

(** The variable-length integer of the file format, of one to nine bytes; the ninth holds eight
    bits. *)
Definition sqlite_varint (v : Z) : list Z :=
  if v <? 2 ^ 56 then cont_bytes (Z.to_nat (Z.log2 v / 7)) (v / 128) ++ [v mod 128]
  else cont_bytes 8 (v / 256) ++ [v mod 256].

(** Decoding: [n] more bytes may continue the number; the value and its length so far. *)
Fixpoint dec_varint (n : nat) (l : list Z) (acc len : Z) : option (Z * Z) :=
  match l with
  | [] => None
  | b :: l =>
    match n with
    | O => Some (acc * 256 + b, len + 1)
    | S n => if b <? 128 then Some (acc * 128 + b, len + 1) else dec_varint n l (acc * 128 + (b - 128)) (len + 1)
    end
  end.

Lemma varint_length v : 1 <= zlen (sqlite_varint v).
Proof.
  unfold sqlite_varint. case_match; rewrite zlen_app, zlen_cons, zlen_nil; zlen_pos; lia.
Qed.

Lemma cont_bytes_bytes n v : Forall is_byte (cont_bytes n v).
Proof.
  revert v. induction n as [|n IH]; intros v; cbn [cont_bytes]; [constructor|].
  apply Forall_app. split; [apply IH|]. constructor; [|constructor].
  pose proof (Z.mod_pos_bound v 128 ltac:(lia)). unfold is_byte. lia.
Qed.

Lemma varint_bytes v : Forall is_byte (sqlite_varint v).
Proof.
  unfold sqlite_varint. pose proof (Z.mod_pos_bound v 128 ltac:(lia)). pose proof (Z.mod_pos_bound v 256 ltac:(lia)).
  case_match; apply Forall_app; (split; [apply cont_bytes_bytes|]); constructor; try constructor; unfold is_byte; lia.
Qed.

Lemma dec_cont m : forall n u rest acc len,
  (m <= n)%nat -> 0 <= u < 128 ^ Z.of_nat m ->
  dec_varint n (cont_bytes m u ++ rest) acc len = dec_varint (n - m) rest (acc * 128 ^ Z.of_nat m + u) (len + Z.of_nat m).
Proof.
  induction m as [|m IH]; intros n u rest acc len Hn Hu.
  - rewrite Nat.sub_0_r. cbn [cont_bytes app]. change (128 ^ Z.of_nat 0) with 1 in *.
    f_equal; lia.
  - cbn [cont_bytes]. rewrite <- app_assoc.
    assert (Hp : 128 ^ Z.of_nat (S m) = 128 * 128 ^ Z.of_nat m)
      by (rewrite Nat2Z.inj_succ, Z.pow_succ_r; lia).
    pose proof (Z.div_mod u 128 ltac:(lia)). pose proof (Z.mod_pos_bound u 128 ltac:(lia)).
    rewrite IH; [|lia|split; [apply Z.div_pos; lia|apply Z.div_lt_upper_bound; lia]].
    replace (n - m)%nat with (S (n - S m)) by lia. cbn [app dec_varint].
    rewrite (proj2 (Z.ltb_ge _ _)) by lia. f_equal; [rewrite Hp; lia|lia].
Qed.

Lemma zlen_cont m u : zlen (cont_bytes m u) = Z.of_nat m.
Proof.
  revert u. induction m as [|m IH]; intros u; [done|]. cbn [cont_bytes].
  rewrite zlen_app, IH, zlen_cons, (zlen_nil (A := Z)). lia.
Qed.

Lemma dec_varint_sqlite v rest : 0 <= v < 2 ^ 64 -> dec_varint 8 (sqlite_varint v ++ rest) 0 0 = Some (v, zlen (sqlite_varint v)).
Proof.
  intros Hv. unfold sqlite_varint. destruct (v <? 2 ^ 56) eqn:E.
  - set (m := Z.to_nat (Z.log2 v / 7)).
    assert (Hlog : 0 <= Z.log2 v / 7 <= 7).
    { split; [apply Z.div_pos; [apply Z.log2_nonneg|lia]|].
      assert (Z.log2 v < 56); [|pose proof (Z.div_lt_upper_bound (Z.log2 v) 7 8); lia].
      destruct (Z.eq_dec v 0) as [->|]; [done|]. apply Z.log2_lt_pow2; lia. }
    assert (Hm : 0 <= v / 128 < 128 ^ Z.of_nat m).
    { split; [apply Z.div_pos; lia|]. apply Z.div_lt_upper_bound; [lia|].
      rewrite <- Z.pow_succ_r by lia. change 128 with (2 ^ 7). rewrite <- Z.pow_mul_r by lia.
      destruct (Z.eq_dec v 0) as [->|]; [apply Z.pow_pos_nonneg; lia|].
      pose proof (Z.log2_spec v ltac:(lia)) as [_ Hl]. eapply Z.lt_le_trans; [exact Hl|].
      apply Z.pow_le_mono_r; [lia|]. unfold m. rewrite Z2Nat.id by lia.
      pose proof (Z.div_mod (Z.log2 v) 7 ltac:(lia)). pose proof (Z.mod_pos_bound (Z.log2 v) 7 ltac:(lia)). lia. }
    rewrite <- app_assoc, dec_cont by (done || lia).
    replace (8 - m)%nat with (S (7 - m)) by lia. cbn [app dec_varint].
    pose proof (Z.mod_pos_bound v 128 ltac:(lia)). rewrite (proj2 (Z.ltb_lt _ _)) by lia.
    rewrite zlen_app, zlen_cont, zlen_cons, (zlen_nil (A := Z)). apply f_equal, f_equal2; [|lia].
    pose proof (Z.div_mod v 128 ltac:(lia)). lia.
  - assert (Hm : 0 <= v / 256 < 128 ^ Z.of_nat 8).
    { split; [apply Z.div_pos; lia|]. apply Z.div_lt_upper_bound; [lia|]. change (256 * 128 ^ Z.of_nat 8) with (2 ^ 64). lia. }
    rewrite <- app_assoc, dec_cont by (done || lia). cbn [Nat.sub app dec_varint].
    rewrite zlen_app, zlen_cont, zlen_cons, (zlen_nil (A := Z)). apply f_equal, f_equal2; [|lia].
    pose proof (Z.div_mod v 256 ltac:(lia)). lia.
Qed.

Lemma varint_short v : 0 <= v < 2 ^ 64 -> zlen (sqlite_varint v) <= 9.
Proof.
  intros Hv. unfold sqlite_varint. destruct (v <? 2 ^ 56) eqn:E; rewrite zlen_app, zlen_cont, zlen_cons, (zlen_nil (A := Z)); [|lia].
  assert (Z.log2 v / 7 < 8); [|lia]. apply Z.div_lt_upper_bound; [lia|].
  destruct (Z.le_gt_cases v 0); [rewrite Z.log2_nonpos; lia|]. apply Z.log2_lt_pow2; lia.
Qed.

(** A decoder reads at most nine bytes, and a number of 64 bits. *)
Lemma dec_varint_bounds n : forall l acc len v k, Forall is_byte l ->
  0 <= acc -> dec_varint n l acc len = Some (v, k) ->
  len + 1 <= k <= len + zlen l /\ k <= len + Z.of_nat n + 1 /\ 0 <= v < (acc + 1) * 128 ^ Z.of_nat n * 256.
Proof.
  induction n as [|n IH]; intros l acc len v k Hb Ha; (destruct l as [|b l]; [done|]); cbn [dec_varint];
    apply Forall_cons in Hb as [Hb0 Hb]; unfold is_byte in Hb0; rewrite zlen_cons; zlen_pos.
  - intros [= <- <-]. change (128 ^ Z.of_nat 0) with 1. lia.
  - rewrite Nat2Z.inj_succ, Z.pow_succ_r by lia. pose proof (Z.pow_pos_nonneg 128 (Z.of_nat n) ltac:(lia) ltac:(lia)).
    destruct (b <? 128) eqn:E.
    + intros [= <- <-]. repeat split; try lia. nia.
    + intros H1. apply IH in H1; [|done|lia]. repeat split; try lia. nia.
Qed.
