(* ===== verification/Streams.v ===== *)
(** * The libraries under the backup format, as interfaces

    The backup writer and reader call zlib and the RC4 of OpenSSL, which are
    not part of this repository.  Each is a class of operations, which the
    models of [mm_backup.c] and [mm_recover.c] take as a parameter, and a class
    of laws, which state what the documentation of the library promises and
    which the theorems take as hypotheses.  The module [Toy] at the end gives
    one concrete instance of everything, so that the laws are known to be
    satisfiable and the models can be run. *)

From S2P Require Import Prelude.

(** ** Stream cipher (openssl/rc4.h) *)

Class Rc4 := {
  rc4_key : Type;
  rc4_set_key : list Z -> rc4_key;
  rc4 : rc4_key -> list Z -> list Z * rc4_key
}.

(** A stream cipher: the key stream does not depend on how the data is cut, and
    running it again from the same key state undoes it. *)
Class Rc4Laws (R : Rc4) := {
  rc4_nil : forall k, rc4 k [] = ([], k);
  rc4_app : forall k a b,
    rc4 k (a ++ b) = ((rc4 k a).1 ++ (rc4 (rc4 k a).2 b).1, (rc4 (rc4 k a).2 b).2);
  rc4_length : forall k a, length (rc4 k a).1 = length a;
  rc4_undo : forall k a, rc4 k (rc4 k a).1 = (a, (rc4 k a).2)
}.

(** ** Deflate and inflate (zlib.h) *)

Definition Z_OK : Z := 0.
Definition Z_STREAM_END : Z := 1.
Definition Z_DATA_ERROR : Z := -3.
Definition Z_BUF_ERROR : Z := -5.

(** What one call of [deflate] or [inflate] returns: the return code, the number of
    bytes taken from [next_in], the bytes put at [next_out], the new stream state. *)
Record zcall (S : Type) := ZCall {
  zc_ret : Z;
  zc_used : Z;
  zc_out : list Z;
  zc_state : S
}.
Arguments ZCall {S} zc_ret zc_used zc_out zc_state.
Arguments zc_ret {S} z.
Arguments zc_used {S} z.
Arguments zc_out {S} z.
Arguments zc_state {S} z.

Class Zlib := {
  dstate : Type;
  deflateInit : Z -> option dstate;
  (** state, input, room for output, [true] for [Z_FINISH] *)
  deflate : dstate -> list Z -> Z -> bool -> zcall dstate;
  istate : Type;
  inflateInit : option istate;
  inflate : istate -> list Z -> Z -> zcall istate
}.

(** [drep s i o]: the calls so far took the input [i] and gave the output [o].
    [inflates c p]: [c] is one complete stream whose contents are [p].
    [irep s c p]: [c] is what is left to read of a complete stream and [p] what is
    left to give of its contents. *)
Class ZlibLaws (Zl : Zlib) := {
  drep : dstate -> list Z -> list Z -> Prop;
  inflates : list Z -> list Z -> Prop;
  irep : istate -> list Z -> list Z -> Prop;

  deflateInit_rep : forall level s, deflateInit level = Some s -> drep s [] [];
  deflate_rep : forall s i o inp room fin, drep s i o -> 0 < room ->
    let r := deflate s inp room fin in
    0 <= zc_used r <= zlen inp /\ zlen (zc_out r) <= room /\
    (zc_ret r = Z_OK \/ zc_ret r = Z_STREAM_END ->
     drep (zc_state r) (i ++ take (Z.to_nat (zc_used r)) inp) (o ++ zc_out r));
  (* Z_BUF_ERROR: no progress was possible, nothing changed *)
  deflate_buf_error : forall s i o inp room fin, drep s i o -> 0 < room ->
    let r := deflate s inp room fin in
    zc_ret r = Z_BUF_ERROR ->
    inp = [] /\ zc_used r = 0 /\ zc_out r = [] /\ drep (zc_state r) i o;
  (* Z_STREAM_END: only for Z_FINISH, all input taken, the stream is complete *)
  deflate_end : forall s i o inp room fin, drep s i o -> 0 < room ->
    let r := deflate s inp room fin in
    zc_ret r = Z_STREAM_END ->
    fin = true /\ zc_used r = zlen inp /\ inflates (o ++ zc_out r) (i ++ inp);

  inflates_rep : forall c p s, inflates c p -> inflateInit = Some s -> irep s c p;
  inflate_rep : forall s inp c p room,
    irep s (inp ++ c) p -> 0 < room -> (inp = [] -> c = []) ->
    let r := inflate s inp room in
    exists left p',
      inp = take (Z.to_nat (zc_used r)) inp ++ left /\ 0 <= zc_used r <= zlen inp /\
      p = zc_out r ++ p' /\ zlen (zc_out r) <= room /\
      irep (zc_state r) (left ++ c) p' /\
      ((zc_ret r = Z_OK /\ (zlen (zc_out r) = room \/ left = [] /\ inp <> []))
       \/ (zc_ret r = Z_STREAM_END /\ p' = [] /\ left ++ c = []))
}.

(** What a caller that stops as soon as [deflate] leaves room relies on.  [dopen s]: no call has
    asked to finish.  A call that leaves room has taken all its input and, asked to finish,
    has finished; there is a bound on the output ([deflateBound] of zlib). *)
Class ZlibDrain (Zl : Zlib) (L : ZlibLaws Zl) := {
  dopen : dstate -> Prop;
  deflateBound : Z -> Z;
  dopen_init : forall level s, deflateInit level = Some s -> dopen s;
  dopen_step : forall s inp room, dopen s -> dopen (zc_state (deflate s inp room false));
  deflate_drains : forall s i o inp room fin, drep s i o -> 0 < room ->
    (fin = false -> dopen s) -> (fin = true -> inp = []) ->
    let r := deflate s inp room fin in
    (zc_ret r = Z_OK \/ zc_ret r = Z_STREAM_END \/ zc_ret r = Z_BUF_ERROR) /\
    (zlen (zc_out r) < room -> zc_used r = zlen inp /\ (fin = true -> zc_ret r = Z_STREAM_END));
  deflate_bound : forall s i o, drep s i o -> zlen o <= deflateBound (zlen i)
}.

(** What holds of [inflate] on input of any kind: it stays within its buffers, gives bytes, and
    [Z_OK] means that there was progress. *)
Class ZlibSafe (Zl : Zlib) := {
  inflate_safe : forall s inp room, 0 < room ->
    let r := inflate s inp room in
    0 <= zc_used r <= zlen inp /\ zlen (zc_out r) <= room /\
    (Forall is_byte inp -> Forall is_byte (zc_out r)) /\
    (zc_ret r = Z_OK -> 0 < zc_used r \/ zc_out r <> [])
}.

(** A cipher of bytes gives bytes. *)
Class Rc4Bytes (R : Rc4) := { rc4_bytes : forall k a, Forall is_byte a -> Forall is_byte (rc4 k a).1 }.

(** ** An instance

    The cipher adds a counter; a compressed stream is a byte 1 before each byte of
    contents and a byte 0 at the end. *)
Module Toy.

Fixpoint add_from (k : Z) (l : list Z) : list Z :=
  match l with [] => [] | b :: l => Z.lxor b (k mod 256) :: add_from (k + 1) l end.

#[export] Instance cipher : Rc4 := {|
  rc4_key := Z;
  rc4_set_key := fun key => foldr Z.add 0 key;
  rc4 := fun k l => (add_from k l, k + zlen l)
|}.

Lemma add_from_app k a b : add_from k (a ++ b) = add_from k a ++ add_from (k + zlen a) b.
Proof.
  revert k. induction a as [|x a IH]; intros k; simpl.
  - zl. by rewrite Z.add_0_r.
  - rewrite IH. do 3 f_equal. zl.
Qed.

Lemma length_add_from k a : length (add_from k a) = length a.
Proof. revert k. induction a as [|x a IH]; intros k; simpl; [done|by rewrite IH]. Qed.

Lemma add_from_undo k a : add_from k (add_from k a) = a.
Proof.
  revert k. induction a as [|x a IH]; intros k; simpl; [done|]. rewrite IH. f_equal.
  by rewrite Z.lxor_assoc, Z.lxor_nilpotent, Z.lxor_0_r.
Qed.

#[export] Instance cipher_laws : Rc4Laws cipher.
Proof.
  split; simpl.
  - intros k. f_equal. rewrite zlen_nil. apply Z.add_0_r.
  - intros. rewrite add_from_app. f_equal. zl.
  - apply length_add_from.
  - intros. rewrite add_from_undo. f_equal. unfold zlen. by rewrite length_add_from.
Qed.

(** The compressor keeps the bytes it has not been able to give yet. *)
Definition mark (l : list Z) : list Z := l ≫= (fun b => [1; b]).

Record comp := Comp { c_pending : list Z; c_in : list Z; c_out : list Z; c_fin : bool }.

Definition comp_step (s : comp) (inp : list Z) (room : Z) (fin : bool) : zcall comp :=
  let pend := c_pending s ++ mark inp ++
              (if fin && negb (c_fin s) then [0] else []) in
  let out := take (Z.to_nat room) pend in
  let rest := drop (Z.to_nat room) pend in
  let fin' := c_fin s || fin in
  let s' := Comp rest (c_in s ++ inp) (c_out s ++ out) fin' in
  if bool_decide (inp = []) && bool_decide (pend = []) && negb fin then ZCall Z_BUF_ERROR 0 [] s
  else if c_fin s && negb (bool_decide (inp = [])) then ZCall (-2) 0 [] s
  else if fin && bool_decide (rest = []) then ZCall Z_STREAM_END (zlen inp) out s'
  else ZCall Z_OK (zlen inp) out s'.

(** The decompressor: what it has read and not given yet is one marked byte at most. *)
Inductive dmode := DMark | DByte | DEnd.

Fixpoint decomp_run (m : dmode) (inp : list Z) (room : nat) (used : Z) (out : list Z)
  : zcall dmode :=
  match m with
  | DEnd => ZCall Z_STREAM_END used out DEnd
  | _ =>
    match inp with
    | [] => ZCall (if bool_decide (used = 0) then Z_BUF_ERROR else Z_OK) used out m
    | b :: inp =>
      match m with
      | DMark => if b =? 1 then decomp_run DByte inp room (used + 1) out
                 else if b =? 0 then ZCall Z_STREAM_END (used + 1) out DEnd
                 else ZCall Z_DATA_ERROR used out DMark
      | _ => match room with
             | O => ZCall Z_OK used out m
             | S room => decomp_run DMark inp room (used + 1) (out ++ [b])
             end
      end
    end
  end.

#[export] Instance zlib : Zlib := {|
  dstate := comp;
  deflateInit := fun _ => Some (Comp [] [] [] false);
  deflate := comp_step;
  istate := dmode;
  inflateInit := Some DMark;
  inflate := fun s inp room => decomp_run s inp (Z.to_nat room) 0 []
|}.

Definition comp_ok (s : comp) (i o : list Z) : Prop :=
  c_in s = i /\ c_out s = o /\
  o ++ c_pending s = mark i ++ (if c_fin s then [0] else []).

Definition decomp_ok (m : dmode) (c p : list Z) : Prop :=
  match m with
  | DMark => c = mark p ++ [0]
  | DByte => exists b p', p = b :: p' /\ c = b :: mark p' ++ [0]
  | DEnd => c = [] /\ p = []
  end.

Lemma mark_app a b : mark (a ++ b) = mark a ++ mark b.
Proof. unfold mark. apply bind_app. Qed.

Lemma comp_step_ok s i o inp room fin :
  comp_ok s i o -> 0 < room ->
  let r := comp_step s inp room fin in
  (zc_ret r = Z_OK \/ zc_ret r = Z_STREAM_END) ->
  zc_used r = zlen inp /\ zlen (zc_out r) <= room /\
  comp_ok (zc_state r) (i ++ inp) (o ++ zc_out r) /\
  (zc_ret r = Z_STREAM_END -> fin = true /\ c_pending (zc_state r) = []).
Proof.
  intros (Hi & Ho & Hp) Hroom r. subst r. unfold comp_step.
  set (pend := c_pending s ++ mark inp ++ (if fin && negb (c_fin s) then [0] else [])).
  destruct (bool_decide (inp = []) && bool_decide (pend = []) && negb fin) eqn:E1;
    [simpl; unfold Z_BUF_ERROR, Z_OK, Z_STREAM_END; lia|].
  destruct (c_fin s && negb (bool_decide (inp = []))) eqn:E2;
    [simpl; unfold Z_OK, Z_STREAM_END; lia|].
  assert (Hok : comp_ok (Comp (drop (Z.to_nat room) pend) (c_in s ++ inp)
                   (c_out s ++ take (Z.to_nat room) pend) (c_fin s || fin))
                  (i ++ inp) (o ++ take (Z.to_nat room) pend)).
  { split; [simpl; congruence|split; [simpl; congruence|]]. simpl.
    rewrite <- (assoc_L (++)), take_drop. subst pend.
    rewrite (assoc_L (++)), Hp, mark_app, <- !(assoc_L (++)). f_equal.
    destruct (c_fin s) eqn:Ef, fin; simpl in *; try done; rewrite ?app_nil_r; try done.
    all: case_bool_decide; [subst inp|discriminate]; done. }
  assert (zlen (take (Z.to_nat room) pend) <= room)
    by (unfold zlen; rewrite length_take; lia).
  destruct (fin && bool_decide (drop (Z.to_nat room) pend = [])) eqn:E3; simpl; intros _.
  - repeat split; auto; try apply Hok.
    all: apply andb_prop in E3 as [E3 E4]; apply bool_decide_eq_true in E4; auto.
  - repeat split; auto; try apply Hok; unfold Z_OK, Z_STREAM_END in *; lia.
Qed.

Lemma decomp_run_ok m inp room used out c p :
  decomp_ok m (inp ++ c) p -> (0 < room)%nat \/ 0 < used -> 0 <= used ->
  (inp = [] -> c = [] \/ 0 < used) ->
  let r := decomp_run m inp room used out in
  exists u gave p',
    inp = take u inp ++ drop u inp /\ (u <= length inp)%nat /\
    zc_used r = used + Z.of_nat u /\ zc_out r = out ++ gave /\
    p = gave ++ p' /\ (length gave <= room)%nat /\
    decomp_ok (zc_state r) (drop u inp ++ c) p' /\
    ((zc_ret r = Z_OK /\ ((length gave = room) \/ drop u inp = []))
     \/ (zc_ret r = Z_STREAM_END /\ p' = [] /\ drop u inp ++ c = [])).
Proof.
  revert m room used out p.
  induction inp as [|b inp IH]; intros m room used out p Hok Hroom Hu Hnil.
  - destruct m; simpl in *; exists 0%nat, [], p; simpl.
    + destruct (Hnil eq_refl) as [->|]; [by destruct p|].
      rewrite bool_decide_eq_false_2 by lia. rewrite app_nil_r. split_and!; auto with lia.
    + destruct (Hnil eq_refl) as [->|]; [by destruct Hok as (?&?&?&?)|].
      rewrite bool_decide_eq_false_2 by lia. rewrite app_nil_r. split_and!; auto with lia.
    + destruct Hok as [-> ->]. rewrite app_nil_r. split_and!; auto with lia.
  - destruct m; simpl in *.
    + destruct p as [|x p]; simpl in Hok.
      * injection Hok as -> Hc. apply app_eq_nil in Hc as [-> ->]. simpl.
        exists 1%nat, [], []. simpl. rewrite app_nil_r. split_and!; auto with lia.
      * injection Hok as -> Hc. simpl.
        destruct (IH DByte room (used + 1) out (x :: p)) as (u & gave & p' & H);
          [by exists x, p|lia|lia|intros ->; right; lia|].
        exists (S u), gave, p'. simpl. cbn zeta in H.
        destruct H as (E & ? & -> & ? & ? & ? & ? & ?).
        repeat split; auto; try lia; congruence.
    + destruct Hok as (x & q & -> & Hc). injection Hc as -> Hc.
      destruct room as [|room].
      * exists 0%nat, [], (x :: q). simpl. rewrite app_nil_r.
        repeat split; auto; try lia. exists x, q. split; [done|]. by rewrite Hc.
      * destruct (IH DMark room (used + 1) (out ++ [x]) q) as (u & gave & p' & H);
          [done|lia|lia|intros ->; right; lia|].
        exists (S u), (x :: gave), p'. simpl. cbn zeta in H.
        destruct H as (E & ? & -> & -> & -> & ? & ? & ?).
        rewrite <- (assoc_L (++)). simpl.
        repeat split; auto; try lia; try congruence.
        destruct H2 as [[? [?|?]]|?]; auto; left; split; auto with lia.
    + destruct Hok as [Hc ->]. discriminate.
Qed.

#[export] Instance zlib_laws : ZlibLaws zlib.
Proof.
  refine {| drep := comp_ok; inflates := fun c p => c = mark p ++ [0];
            irep := decomp_ok |}; simpl.
  - by intros level s [= <-].
  - intros s i o inp room fin Hs Hr.
    pose proof (comp_step_ok s i o inp room fin Hs Hr) as H. cbn zeta in H.
    assert (Hc : (zc_used (comp_step s inp room fin) = 0 /\
                  zc_out (comp_step s inp room fin) = []) \/
                 zc_used (comp_step s inp room fin) = zlen inp /\
                 zlen (zc_out (comp_step s inp room fin)) <= room).
    { clear H. unfold comp_step. repeat case_match; simpl; auto; right; split; auto;
        unfold zlen; rewrite length_take; lia. }
    split; [destruct Hc as [[-> _]|[-> _]]; zl|].
    split; [destruct Hc as [[_ ->]|[_ ?]]; zl|].
    intros Hret. destruct (H Hret) as (-> & _ & Hs' & _).
    by rewrite to_nat_zlen, firstn_all.
  - intros s i o inp room fin Hs Hr. unfold comp_step.
    destruct (bool_decide _ && _ && _) eqn:E.
    + simpl. intros _. apply andb_prop in E as [E _]. apply andb_prop in E as [E _].
      apply bool_decide_eq_true in E. auto.
    + repeat case_match; simpl; unfold Z_BUF_ERROR, Z_OK, Z_STREAM_END; lia.
  - intros s i o inp room fin Hs Hr Hret.
    destruct (comp_step_ok s i o inp room fin Hs Hr) as (Hu & _ & Hok & He); [by right|].
    destruct (He Hret) as [-> Hp]. split; [done|]. split; [done|].
    destruct Hok as (Hi & Ho & Hm). rewrite Hp, app_nil_r in Hm.
    rewrite Hm. f_equal.
    revert Hret. unfold comp_step.
    destruct (bool_decide _ && _ && _); [done|]. destruct (c_fin s && _); [done|].
    destruct (true && _); simpl; [|done]. intros _. by rewrite orb_true_r.
  - by intros c p s -> [= <-].
  - intros s inp c p room Hs Hr Hnil.
    destruct (decomp_run_ok s inp (Z.to_nat room) 0 [] c p Hs) as (u & gave & p' & H);
      [lia|lia|intros E; left; auto|]. cbn zeta in H.
    destruct H as (E & ? & Hu & Hg & -> & ? & Hok & Hret).
    exists (drop u inp), p'. rewrite Z.add_0_l in Hu. rewrite Hu, Hg, Nat2Z.id. simpl.
    split; [done|]. unfold zlen. split; [lia|]. split; [done|]. split; [lia|].
    split; [done|]. destruct Hret as [[? [?|?]]|?]; [left; split; [done|]; left; lia| |by right].
    left. split; [done|].
    destruct inp as [|b inp]; [|by right].
    left. rewrite (Hnil eq_refl) in *. exfalso.
    destruct s; simpl in *.
    + by destruct p' as [|]; destruct gave.
    + by destruct Hs as (?&?&?&?).
    + done.
Defined.

#[export] Instance cipher_bytes : Rc4Bytes cipher.
Proof.
  split. cbn. intros k a Ha. revert k. induction Ha as [|b a Hb Ha IH]; intros k; cbn [add_from]; constructor; [|apply IH].
  unfold is_byte in *. pose proof (Z.mod_pos_bound k 256). split; [apply Z.lxor_nonneg; lia|].
  destruct (Z.eq_dec (Z.lxor b (k mod 256)) 0) as [->|Hn]; [lia|].
  assert (0 < Z.lxor b (k mod 256)) by (assert (0 <= Z.lxor b (k mod 256)) by (apply Z.lxor_nonneg; lia); lia).
  apply (Z.log2_lt_pow2 _ 8); [done|]. eapply Z.le_lt_trans; [apply Z.log2_lxor; lia|].
  apply Z.max_lub_lt.
  - destruct (Z.eq_dec b 0) as [->|]; [done|]. apply Z.log2_lt_pow2; lia.
  - destruct (Z.eq_dec (k mod 256) 0) as [->|]; [done|]. apply Z.log2_lt_pow2; lia.
Qed.

(** The state of the decompressor says what it does with the first byte. *)
Lemma decomp_run_safe m inp room used out :
  0 <= used ->
  let r := decomp_run m inp room used out in
  used <= zc_used r <= used + zlen inp /\ zlen out <= zlen (zc_out r) <= zlen out + Z.of_nat room /\
  (Forall is_byte out -> Forall is_byte inp -> Forall is_byte (zc_out r)) /\
  (zc_ret r = Z_OK -> 0 < zc_used r \/ (room = 0)%nat).
Proof.
  revert m room used out. induction inp as [|b inp IH]; intros m room used out Hu; cbn zeta.
  { assert (forall k : zcall dmode, zc_used k = used -> zc_out k = out ->
      (zc_ret k = Z_OK -> 0 < used) ->
      used <= zc_used k <= used + zlen (@nil Z) /\ zlen out <= zlen (zc_out k) <= zlen out + Z.of_nat room /\
      (Forall is_byte out -> Forall is_byte [] -> Forall is_byte (zc_out k)) /\ (zc_ret k = Z_OK -> 0 < zc_used k \/ (room = 0)%nat)) as Hk.
    { intros k -> -> Hr. rewrite zlen_nil. split; [lia|]. split; [lia|]. split; [done|]. auto. }
    destruct m; cbn [decomp_run]; apply Hk; try done; cbn [zc_ret]; case_bool_decide; try done; lia. }
  rewrite zlen_cons. zlen_pos. destruct m; cbn [decomp_run].
  - destruct (b =? 1) eqn:E1; [|destruct (b =? 0) eqn:E2].
    + destruct (IH DByte room (used + 1) out ltac:(lia)) as (D1 & D2 & D3 & D4).
      split; [lia|]. split; [lia|]. split; [|intros _; left; lia].
      intros Ho Hb. apply Forall_cons in Hb as [_ Hb]. by apply D3.
    + cbn [zc_used zc_out zc_ret]. split; [lia|]. split; [lia|]. done.
    + cbn [zc_used zc_out zc_ret]. split; [lia|]. split; [lia|]. done.
  - destruct room as [|room].
    + cbn [zc_used zc_out zc_ret]. split; [lia|]. split; [lia|]. split; [done|]. by right.
    + destruct (IH DMark room (used + 1) (out ++ [b]) ltac:(lia)) as (D1 & D2 & D3 & D4).
      rewrite zlen_app in D2. change (zlen [b]) with 1 in D2.
      split; [lia|]. split; [lia|]. split; [|intros _; left; lia].
      intros Ho Hb. apply Forall_cons in Hb as [Hb1 Hb]. apply D3; [|done]. apply Forall_app. split; [done|]. by constructor.
  - cbn [zc_used zc_out zc_ret]. split; [lia|]. split; [lia|]. done.
Qed.

#[export] Instance zlib_safe : ZlibSafe zlib.
Proof.
  split. intros s inp room Hr. destruct (decomp_run_safe s inp (Z.to_nat room) 0 [] ltac:(lia)) as (D1 & D2 & D3 & D4).
  rewrite zlen_nil, Z2Nat.id, Z.add_0_l in D2 by lia. rewrite Z.add_0_l in D1.
  split; [exact D1|]. split; [exact (proj2 D2)|]. split; [by apply D3|].
  intros Hret. destruct (D4 Hret); [by left|lia].
Qed.

Lemma zlen_mark l : zlen (mark l) = 2 * zlen l.
Proof.
  induction l as [|b l IH]; [done|]. unfold mark in *. rewrite bind_cons, zlen_app, IH, (zlen_cons b l).
  change (zlen [1; b]) with 2. lia.
Qed.

#[export] Instance zlib_drain : ZlibDrain zlib zlib_laws.
Proof.
  refine {| dopen := fun s : @dstate zlib => c_fin s = false; deflateBound := fun n => 2 * n + 1 |}.
  - by intros level s [= <-].
  - intros s inp room Hs. cbn [deflate zlib]. unfold comp_step. rewrite Hs. cbn [andb orb negb].
    by destruct (bool_decide _ && _ && _).
  - intros s i o inp room fin (_ & _ & _) Hr Hopen Hfin. cbn [deflate zlib]. unfold comp_step.
    set (pend := c_pending s ++ _).
    destruct (bool_decide (inp = []) && bool_decide (pend = []) && negb fin) eqn:E1.
    { apply andb_prop in E1 as [E1 E2]. apply andb_prop in E1 as [E1 _]. apply bool_decide_eq_true in E1. subst inp.
      split; [by right; right|]. intros _. split; [done|]. intros ->. done. }
    assert (E2 : c_fin s && negb (bool_decide (inp = [])) = false).
    { destruct fin; [rewrite (Hfin eq_refl); by rewrite bool_decide_eq_true_2, andb_false_r|by rewrite Hopen]. }
    rewrite E2.
    assert (Hdrop : zlen (take (Z.to_nat room) pend) < room -> drop (Z.to_nat room) pend = []).
    { unfold zlen. rewrite length_take. intros. apply drop_ge. lia. }
    destruct (fin && bool_decide (drop (Z.to_nat room) pend = [])) eqn:E3; cbn [zc_ret zc_out zc_used].
    + split; [by right; left|done].
    + split; [by left|]. intros Hlt. split; [done|]. intros ->. rewrite bool_decide_eq_true_2 in E3 by auto. done.
  - intros s i o (_ & _ & H). assert (Hl : zlen (o ++ c_pending s) <= 2 * zlen i + 1).
    { rewrite H, zlen_app, zlen_mark. destruct (c_fin s); [change (zlen [0]) with 1|rewrite zlen_nil]; lia. }
    rewrite zlen_app in Hl. pose proof (zlen_nonneg (c_pending s)). lia.
Defined.
End Toy.
