(* ===== verification/Stem.v ===== *)
(** * The Porter stemmer of the full-text-search tokenizer

    Model of [src/common/core/fts/tokenizer/PorterStemming.c].  The file's
    static variables are the fields of [stem_state]; each C function is a
    computation in [cm stem_state].  Every access to the word buffer is
    checked, and every loop and the recursion of [cons] run on fuel, so that
    memory safety and termination are part of what is proved in StemFacts. *)

From S2P Require Import Prelude.

Module Stem.

(** The statics [s_b], [s_k], [s_k0] and [s_j]. *)
Record stem_state := mkStem {
  s_b : list Z;     (* buffer for the word to be stemmed *)
  s_k : Z;          (* offset of the last letter *)
  s_k0 : Z;         (* offset of the first letter *)
  s_j : Z           (* general offset into the string *)
}.

Definition set_b (b : list Z) (s : stem_state) :=
  mkStem b (s_k s) (s_k0 s) (s_j s).
Definition set_k (k : Z) (s : stem_state) :=
  mkStem (s_b s) k (s_k0 s) (s_j s).
Definition set_j (j : Z) (s : stem_state) :=
  mkStem (s_b s) (s_k s) (s_k0 s) j.

Abbreviation stem := (cm stem_state).

(** [s_b[i]] *)
Definition getb (i : Z) : stem Z :=
  let! b := gets s_b in
  lift_res (zread b i).

(** A string literal with its length in the first byte, as in [ends("\04" "sses")]. *)
Definition pstr (n : Z) (s : string) : list Z := n :: str s.

Definition is_aeiou (c : Z) : bool :=
  (c =? chr "a") || (c =? chr "e") || (c =? chr "i") || (c =? chr "o") || (c =? chr "u").

(** [cons(i)]: the recursion on [i - 1] in the case of ['y'] runs on fuel. *)
Fixpoint cons_rec (n : nat) (i : Z) : stem bool :=
  match n with
  | O => fail OutOfFuel
  | S n =>
    let! c := getb i in
    if is_aeiou c then ret false
    else if c =? chr "y" then
      let! k0 := gets s_k0 in
      if i =? k0 then ret true
      else let! t := cons_rec n (i - 1) in ret (negb t)
    else ret true
  end.

Definition is_cons (i : Z) : stem bool :=
  let! k0 := gets s_k0 in
  cons_rec (S (Z.to_nat (i - k0))) i.

(** The inner loops of [m()]: from [i], the first position whose [cons] is
    [stop]; [None] when [i] runs past [s_j], where [m()] returns. *)
Fixpoint m_scan (n : nat) (stop : bool) (i : Z) : stem (option Z) :=
  match n with
  | O => fail OutOfFuel
  | S n =>
    let! j := gets s_j in
    if i >? j then ret None
    else let! c := is_cons i in
         if Bool.eqb c stop then ret (Some i) else m_scan n stop (i + 1)
  end.

(** The outer loop of [m()]; [fuel] bounds the inner loops. *)
Fixpoint m_loop (n fuel : nat) (cnt i : Z) : stem Z :=
  match n with
  | O => fail OutOfFuel
  | S n =>
    let! r := m_scan fuel true i in
    match r with
    | None => ret cnt
    | Some i =>
      let! r := m_scan fuel false (i + 1) in
      match r with
      | None => ret (cnt + 1)
      | Some i => m_loop n fuel (cnt + 1) (i + 1)
      end
    end
  end.

(** [m()] *)
Definition m : stem Z :=
  let! k0 := gets s_k0 in
  let! j := gets s_j in
  let fuel := Z.to_nat (j - k0 + 3) in
  let! r := m_scan fuel false k0 in
  match r with
  | None => ret 0
  | Some i => m_loop fuel fuel 0 (i + 1)
  end.

(** [vowelinstem()] *)
Fixpoint vowel_loop (n : nat) (i : Z) : stem bool :=
  match n with
  | O => fail OutOfFuel
  | S n =>
    let! j := gets s_j in
    if i <=? j then
      let! c := is_cons i in
      if negb c then ret true else vowel_loop n (i + 1)
    else ret false
  end.

Definition vowelinstem : stem bool :=
  let! k0 := gets s_k0 in
  let! j := gets s_j in
  vowel_loop (Z.to_nat (j - k0 + 2)) k0.

(** [doublec(j)] *)
Definition doublec (j : Z) : stem bool :=
  let! k0 := gets s_k0 in
  if j <? k0 + 1 then ret false
  else
    let! c := getb j in
    let! d := getb (j - 1) in
    if negb (c =? d) then ret false else is_cons j.

(** [cvc(i)]: the [||] of the source evaluates left to right and stops at the
    first true operand. *)
Definition cvc (i : Z) : stem bool :=
  let! k0 := gets s_k0 in
  if i <? k0 + 2 then ret false
  else
    let! c2 := is_cons i in
    if negb c2 then ret false
    else
      let! c1 := is_cons (i - 1) in
      if c1 then ret false
      else
        let! c0 := is_cons (i - 2) in
        if negb c0 then ret false
        else
          let! ch := getb i in
          if (ch =? chr "w") || (ch =? chr "x") || (ch =? chr "y") then ret false
          else ret true.

(** [ends(s)] *)
Definition ends (s : list Z) : stem bool :=
  let! length := lift_res (zread s 0) in
  let! c := lift_res (zread s length) in
  let! k := gets s_k in
  let! k0 := gets s_k0 in
  let! d := getb k in
  if negb (c =? d) then ret false
  else if length >? k - k0 + 1 then ret false
  else
    let! b := gets s_b in
    let! x := lift_res (zread_n b (k - length + 1) length) in
    let! y := lift_res (zread_n s 1 length) in
    if negb (bool_decide (x = y)) then ret false
    else modify (set_j (k - length)) ;;; ret true.

(** [setto(s)] *)
Definition setto (s : list Z) : stem unit :=
  let! length := lift_res (zread s 0) in
  let! b := gets s_b in
  let! j := gets s_j in
  let! y := lift_res (zread_n s 1 length) in
  let! b' := lift_res (zwrite_n b (j + 1) y) in
  modify (set_b b') ;;;
  modify (set_k (j + length)).

(** [r(s)] *)
Definition r (s : list Z) : stem unit :=
  let! n := m in
  if n >? 0 then setto s else ret tt.

(** [step1ab()], the part that removes a plural *)
Definition step1a : stem unit :=
  let! k := gets s_k in
  let! c := getb k in
  if c =? chr "s" then
    let! e := ends (pstr 4 "sses") in
    if e then modify (set_k (k - 2))
    else
      let! e := ends (pstr 3 "ies") in
      if e then setto (pstr 1 "i")
      else
        let! d := getb (k - 1) in
        if negb (d =? chr "s") then modify (set_k (k - 1)) else ret tt
  else ret tt.

(** [step1ab()], what follows the removal of -ed or -ing *)
Definition step1b_tail : stem unit :=
  let! e := ends (pstr 2 "at") in
  if e then setto (pstr 3 "ate")
  else
    let! e := ends (pstr 2 "bl") in
    if e then setto (pstr 3 "ble")
    else
      let! e := ends (pstr 2 "iz") in
      if e then setto (pstr 3 "ize")
      else
        let! k := gets s_k in
        let! dc := doublec k in
        if dc then
          modify (set_k (k - 1)) ;;;
          let! ch := getb (k - 1) in
          if (ch =? chr "l") || (ch =? chr "s") || (ch =? chr "z")
          then modify (set_k k) else ret tt
        else
          let! n := m in
          if n =? 1 then
            let! c := cvc k in
            if c then setto (pstr 1 "e") else ret tt
          else ret tt.

(** [step1ab()], the part that removes -eed, -ed or -ing *)
Definition step1b : stem unit :=
  let! e := ends (pstr 3 "eed") in
  if e then
    let! n := m in
    if n >? 0 then
      let! k := gets s_k in modify (set_k (k - 1))
    else ret tt
  else
    let! e := (let! e1 := ends (pstr 2 "ed") in
               if e1 then ret true else ends (pstr 3 "ing")) in
    let! v := (if e : bool then vowelinstem else ret false) in
    if v : bool then
      let! j := gets s_j in
      modify (set_k j) ;;;
      step1b_tail
    else ret tt.

(** [step1ab()] *)
Definition step1ab : stem unit := step1a ;;; step1b.

(** [step1c()] *)
Definition step1c : stem unit :=
  let! e := ends (pstr 1 "y") in
  if e then
    let! v := vowelinstem in
    if v then
      let! k := gets s_k in
      let! b := gets s_b in
      let! b' := lift_res (zwrite_n b k [chr "i"]) in
      modify (set_b b')
    else ret tt
  else ret tt.

(** A run of [if (ends(suffix)) { r(replacement); break; }] lines. *)
Fixpoint try_r (rules : list (list Z * list Z)) : stem unit :=
  match rules with
  | [] => ret tt
  | (suf, rep) :: rules =>
    let! e := ends suf in
    if e then r rep else try_r rules
  end.

(** The lines under each [case] label of [step2()] *)
Definition step2_case (c : Z) : list (list Z * list Z) :=
  if c =? chr "a" then
    [(pstr 7 "ational", pstr 3 "ate"); (pstr 6 "tional", pstr 4 "tion")]
  else if c =? chr "c" then
    [(pstr 4 "enci", pstr 4 "ence"); (pstr 4 "anci", pstr 4 "ance")]
  else if c =? chr "e" then [(pstr 4 "izer", pstr 3 "ize")]
  else if c =? chr "l" then
    [(pstr 3 "bli", pstr 3 "ble"); (pstr 4 "alli", pstr 2 "al");
     (pstr 5 "entli", pstr 3 "ent"); (pstr 3 "eli", pstr 1 "e");
     (pstr 5 "ousli", pstr 3 "ous")]
  else if c =? chr "o" then
    [(pstr 7 "ization", pstr 3 "ize"); (pstr 5 "ation", pstr 3 "ate");
     (pstr 4 "ator", pstr 3 "ate")]
  else if c =? chr "s" then
    [(pstr 5 "alism", pstr 2 "al"); (pstr 7 "iveness", pstr 3 "ive");
     (pstr 7 "fulness", pstr 3 "ful"); (pstr 7 "ousness", pstr 3 "ous")]
  else if c =? chr "t" then
    [(pstr 5 "aliti", pstr 2 "al"); (pstr 5 "iviti", pstr 3 "ive");
     (pstr 6 "biliti", pstr 3 "ble")]
  else if c =? chr "g" then [(pstr 4 "logi", pstr 3 "log")]
  else [].

(** [step2()] *)
Definition step2 : stem unit :=
  let! k := gets s_k in
  let! c := getb (k - 1) in
  try_r (step2_case c).

(** The lines under each [case] label of [step3()] *)
Definition step3_case (c : Z) : list (list Z * list Z) :=
  if c =? chr "e" then
    [(pstr 5 "icate", pstr 2 "ic"); (pstr 5 "ative", pstr 0 "");
     (pstr 5 "alize", pstr 2 "al")]
  else if c =? chr "i" then [(pstr 5 "iciti", pstr 2 "ic")]
  else if c =? chr "l" then [(pstr 4 "ical", pstr 2 "ic"); (pstr 3 "ful", pstr 0 "")]
  else if c =? chr "s" then [(pstr 4 "ness", pstr 0 "")]
  else [].

(** [step3()] *)
Definition step3 : stem unit :=
  let! k := gets s_k in
  let! c := getb k in
  try_r (step3_case c).

(** A run of [if (ends(suffix)) break;] lines of [step4()]: true when one of
    them leaves the [switch] with [break], false at the [return]. *)
Fixpoint try_break (sufs : list (list Z)) : stem bool :=
  match sufs with
  | [] => ret false
  | suf :: sufs => let! e := ends suf in if e then ret true else try_break sufs
  end.

(** The lines under [case 'o'] of [step4()] *)
Definition step4_case_o : stem bool :=
  let! e := ends (pstr 3 "ion") in
  let! t := (if e : bool then
               let! j := gets s_j in
               let! k0 := gets s_k0 in
               if j >=? k0 then
                 let! c := getb j in
                 ret ((c =? chr "s") || (c =? chr "t"))
               else ret false
             else ret false) in
  if t : bool then ret true else try_break [pstr 2 "ou"].

(** The [switch] of [step4()] *)
Definition step4_case (c : Z) : stem bool :=
  if c =? chr "a" then try_break [pstr 2 "al"]
  else if c =? chr "c" then try_break [pstr 4 "ance"; pstr 4 "ence"]
  else if c =? chr "e" then try_break [pstr 2 "er"]
  else if c =? chr "i" then try_break [pstr 2 "ic"]
  else if c =? chr "l" then try_break [pstr 4 "able"; pstr 4 "ible"]
  else if c =? chr "n" then
    try_break [pstr 3 "ant"; pstr 5 "ement"; pstr 4 "ment"; pstr 3 "ent"]
  else if c =? chr "o" then step4_case_o
  else if c =? chr "s" then try_break [pstr 3 "ism"]
  else if c =? chr "t" then try_break [pstr 3 "ate"; pstr 3 "iti"]
  else if c =? chr "u" then try_break [pstr 3 "ous"]
  else if c =? chr "v" then try_break [pstr 3 "ive"]
  else if c =? chr "z" then try_break [pstr 3 "ize"]
  else ret false.

(** What follows the [switch] of [step4()], [t] telling whether it was left
    with [break] *)
Definition step4_end (t : bool) : stem unit :=
  if t then
    let! n := m in
    if n >? 1 then
      let! j := gets s_j in modify (set_k j)
    else ret tt
  else ret tt.

(** [step4()] *)
Definition step4 : stem unit :=
  let! k := gets s_k in
  let! c := getb (k - 1) in
  let! t := step4_case c in
  step4_end t.

(** [step5()], the removal of a final -e *)
Definition step5_e : stem unit :=
  let! k := gets s_k in
  let! c := getb k in
  if c =? chr "e" then
    let! a := m in
    if a >? 1 then modify (set_k (k - 1))
    else if a =? 1 then
      let! t := cvc (k - 1) in
      if negb t then modify (set_k (k - 1)) else ret tt
    else ret tt
  else ret tt.

(** [step5()], the change of -ll to -l *)
Definition step5_l : stem unit :=
  let! k := gets s_k in
  let! c := getb k in
  if c =? chr "l" then
    let! dc := doublec k in
    if dc then
      let! n := m in
      if n >? 1 then modify (set_k (k - 1)) else ret tt
    else ret tt
  else ret tt.

(** [step5()] *)
Definition step5 : stem unit :=
  let! k := gets s_k in
  modify (set_j k) ;;;
  step5_e ;;; step5_l.

(** [porterStem(p, i, j)], run from any values [s] of the statics; the final
    state holds the changed buffer. *)
Definition porterStem (p : list Z) (i j : Z) : stem Z :=
  modify (fun s => mkStem p j i (s_j s)) ;;;
  let! k := gets s_k in
  let! k0 := gets s_k0 in
  if k <=? k0 + 1 then ret k
  else
    step1ab ;;;
    let! k := gets s_k in
    (if k >? k0 then
       step1c ;;; step2 ;;; step3 ;;; step4 ;;; step5
     else ret tt) ;;;
    gets s_k.

End Stem.
