(* ===== verification/StemFacts.v ===== *)
(** * Correctness of the Porter stemmer

    A specification of the algorithm on words ([stem_spec] and the functions
    under it) and the proof that [Stem.porterStem], which works in place on a
    buffer with four statics, computes it: without an access outside the
    word, without running out of fuel, and without touching the bytes around
    the word. *)

From S2P Require Import Prelude Stem.
Import Stem.

Module StemSpec.

(** ** Letters *)

(** Whether a letter is a consonant, given whether the letter before it is. *)
Definition letter_is_cons (prev : bool) (c : Z) : bool :=
  if is_aeiou c then false else if c =? chr "y" then negb prev else true.

Fixpoint ctypes (prev : bool) (w : list Z) : list bool :=
  match w with
  | [] => []
  | c :: w => let t := letter_is_cons prev c in t :: ctypes t w
  end.

(** Before the first letter the context counts as a vowel: an initial [y] is a
    consonant. *)
Definition last_type (w : list Z) : bool := default false (last (ctypes false w)).

(** Number of steps from a vowel to a consonant. *)
Fixpoint vc_count (prev : bool) (l : list bool) : Z :=
  match l with
  | [] => 0
  | c :: l => (if negb prev && c then 1 else 0) + vc_count c l
  end.

(** [m]: the number of vowel-consonant sequences. *)
Definition measure (w : list Z) : Z := vc_count true (ctypes false w).

Definition has_vowel (w : list Z) : bool := existsb negb (ctypes false w).

(** ** Word endings *)

Definition double_cons (w : list Z) : bool :=
  match rev w with
  | c :: d :: _ => (c =? d) && last_type w
  | _ => false
  end.

Definition is_wxy (c : Z) : bool := (c =? chr "w") || (c =? chr "x") || (c =? chr "y").

Definition ends_cvc (w : list Z) : bool :=
  match rev w, rev (ctypes false w) with
  | ch :: _, true :: false :: true :: _ => negb (is_wxy ch)
  | _, _ => false
  end.

(** [strip x w]: the word [w] without its ending [x]. *)
Definition strip (x w : list Z) : option (list Z) :=
  let n := (length w - length x)%nat in
  if bool_decide (length x <= length w)%nat && bool_decide (drop n w = x)
  then Some (take n w) else None.

Definition last_is (c : Z) (w : list Z) : bool :=
  match last w with Some d => d =? c | None => false end.

Definition chop (w : list Z) : list Z := take (length w - 1) w.

(** ** The steps of the algorithm *)

Definition step1a_spec (w : list Z) : list Z :=
  if last_is (chr "s") w then
    match strip (str "sses") w with
    | Some v => v ++ str "ss"
    | None =>
      match strip (str "ies") w with
      | Some v => v ++ str "i"
      | None => if last_is (chr "s") (chop w) then w else chop w
      end
    end
  else w.

Definition step1b_tail_spec (v : list Z) : list Z :=
  match strip (str "at") v with
  | Some u => u ++ str "ate"
  | None =>
    match strip (str "bl") v with
    | Some u => u ++ str "ble"
    | None =>
      match strip (str "iz") v with
      | Some u => u ++ str "ize"
      | None =>
        if double_cons v then
          if last_is (chr "l") v || last_is (chr "s") v || last_is (chr "z") v
          then v else chop v
        else if (measure v =? 1) && ends_cvc v then v ++ str "e"
        else v
      end
    end
  end.

Definition step1b_spec (w : list Z) : list Z :=
  match strip (str "eed") w with
  | Some v => if measure v >? 0 then v ++ str "ee" else w
  | None =>
    match strip (str "ed") w with
    | Some v => if has_vowel v then step1b_tail_spec v else w
    | None =>
      match strip (str "ing") w with
      | Some v => if has_vowel v then step1b_tail_spec v else w
      | None => w
      end
    end
  end.

Definition step1c_spec (w : list Z) : list Z :=
  match strip (str "y") w with
  | Some v => if has_vowel v then v ++ str "i" else w
  | None => w
  end.

(** The first rule whose ending matches decides; it applies when the measure
    of the stem is positive. *)
Fixpoint rewrite_first (rules : list (string * string)) (w : list Z) : list Z :=
  match rules with
  | [] => w
  | (x, y) :: rules =>
    match strip (str x) w with
    | Some v => if measure v >? 0 then v ++ str y else w
    | None => rewrite_first rules w
    end
  end.

(** All the rules of step 2, with no dispatch on the letter before the last. *)
Definition step2_rules : list (string * string) :=
  [("ational", "ate"); ("tional", "tion"); ("enci", "ence"); ("anci", "ance");
   ("izer", "ize"); ("bli", "ble"); ("alli", "al"); ("entli", "ent");
   ("eli", "e"); ("ousli", "ous"); ("ization", "ize"); ("ation", "ate");
   ("ator", "ate"); ("alism", "al"); ("iveness", "ive"); ("fulness", "ful");
   ("ousness", "ous"); ("aliti", "al"); ("iviti", "ive"); ("biliti", "ble");
   ("logi", "log")]%string.

Definition step3_rules : list (string * string) :=
  [("icate", "ic"); ("ative", ""); ("alize", "al"); ("iciti", "ic");
   ("ical", "ic"); ("ful", ""); ("ness", "")]%string.

(** The endings of step 4; -ion only after an s or a t. *)
Definition step4_endings : list string :=
  ["al"; "ance"; "ence"; "er"; "ic"; "able"; "ible"; "ant"; "ement"; "ment";
   "ent"; "ion"; "ou"; "ism"; "ate"; "iti"; "ous"; "ive"; "ize"]%string.

Definition ending_ok (x : string) (v : list Z) : bool :=
  if String.eqb x "ion" then last_is (chr "s") v || last_is (chr "t") v else true.

Fixpoint cut_first (sufs : list string) (w : list Z) : list Z :=
  match sufs with
  | [] => w
  | x :: sufs =>
    match strip (str x) w with
    | Some v => if ending_ok x v
                then if measure v >? 1 then v else w
                else cut_first sufs w
    | None => cut_first sufs w
    end
  end.

Definition step5_spec (w : list Z) : list Z :=
  let a := measure w in
  let w' := if last_is (chr "e") w && ((a >? 1) || ((a =? 1) && negb (ends_cvc (chop w))))
            then chop w else w in
  if last_is (chr "l") w' && double_cons w' && (a >? 1) then chop w' else w'.

(** The whole algorithm. *)
Definition stem_spec (w : list Z) : list Z :=
  if zlen w <=? 2 then w
  else
    let w1 := step1b_spec (step1a_spec w) in
    if zlen w1 <=? 1 then w1
    else step5_spec (cut_first step4_endings
           (rewrite_first step3_rules (rewrite_first step2_rules (step1c_spec w1)))).

End StemSpec.
Import StemSpec.

(** ** Facts about the specification *)

Section spec_facts.
Implicit Types v w x : list Z.

Lemma strip_Some x w v : strip x w = Some v <-> w = v ++ x.
Proof.
  unfold strip. split.
  - destruct (bool_decide _) eqn:H1; [|done]. destruct (bool_decide (drop _ _ = _)) eqn:H2; [|done].
    apply bool_decide_eq_true in H1, H2. simpl. intros [= <-].
    rewrite <- H2 at 2. by rewrite take_drop.
  - intros ->. rewrite length_app.
    replace (length v + length x - length x)%nat with (length v) by lia.
    rewrite drop_app_length, take_app_length.
    by rewrite !bool_decide_eq_true_2 by (done || lia).
Qed.

Lemma strip_None x w : strip x w = None <-> forall v, w <> v ++ x.
Proof.
  destruct (strip x w) as [v|] eqn:E.
  - apply strip_Some in E. split; [done|]. intros H. by destruct (H v).
  - split; [|done]. intros _ v ->.
    assert (strip x (v ++ x) = Some v) by (by apply strip_Some). congruence.
Qed.

Lemma ctypes_app p v w :
  ctypes p (v ++ w) = ctypes p v ++ ctypes (default p (last (ctypes p v))) w.
Proof.
  revert p. induction v as [|c v IH]; intros p; simpl; [done|].
  rewrite IH, last_cons. by destruct (last (ctypes (letter_is_cons p c) v)).
Qed.

Lemma length_ctypes p w : length (ctypes p w) = length w.
Proof. revert p. induction w; intros p; simpl; auto. Qed.

Lemma last_type_snoc v c : last_type (v ++ [c]) = letter_is_cons (last_type v) c.
Proof. unfold last_type. by rewrite ctypes_app, last_app. Qed.

Lemma ctypes_split v w :
  ctypes false (v ++ w) = ctypes false v ++ ctypes (last_type v) w.
Proof. apply ctypes_app. Qed.

Lemma ctypes_last_type v w1 w2 :
  ctypes (last_type v) (w1 ++ w2) = ctypes (last_type v) w1 ++ ctypes (last_type (v ++ w1)) w2.
Proof.
  rewrite ctypes_app. f_equal. f_equal. unfold last_type.
  rewrite ctypes_app, last_app. fold (last_type v).
  by destruct (last (ctypes (last_type v) w1)).
Qed.

Lemma vc_count_true_run l l' :
  Forall (eq true) l -> vc_count true (l ++ l') = vc_count true l'.
Proof. induction 1 as [|b l <- _ IH]; simpl; [done|]. by rewrite IH. Qed.

Lemma vc_count_false_run l l' :
  Forall (eq false) l -> vc_count false (l ++ l') = vc_count false l'.
Proof. induction 1 as [|b l <- _ IH]; simpl; [done|]. by rewrite IH. Qed.

Lemma vc_count_pos b l : 0 <= vc_count b l.
Proof. revert b. induction l as [|c l IH]; intros b; simpl; [lia|]. specialize (IH c). case_match; lia. Qed.

Lemma vc_count_le b l : vc_count b l <= zlen l.
Proof.
  revert b. induction l as [|c l IH]; intros b; simpl; [unfold zlen; simpl; lia|].
  rewrite zlen_cons. specialize (IH c). case_match; lia.
Qed.

Lemma measure_pos w : 0 <= measure w.
Proof. apply vc_count_pos. Qed.

(** A stem with a vowel-consonant sequence has at least two letters. *)
Lemma measure_length w : 0 < measure w -> 2 <= zlen w.
Proof.
  destruct w as [|c [|d w]].
  - by vm_compute.
  - unfold measure. simpl. destruct (letter_is_cons false c); simpl; lia.
  - intros _. rewrite !zlen_cons. zl.
Qed.

Lemma has_vowel_length w : has_vowel w = true -> 1 <= zlen w.
Proof. destruct w; [done|]. intros _. zl. Qed.

Lemma last_is_snoc c v d : last_is c (v ++ [d]) = (d =? c).
Proof. unfold last_is. by rewrite last_snoc. Qed.

Lemma chop_snoc v d : chop (v ++ [d]) = v.
Proof.
  unfold chop. rewrite length_app. simpl.
  replace (length v + 1 - 1)%nat with (length v) by lia. apply take_app_length.
Qed.

Lemma snoc_inv w : 1 <= zlen w -> exists v d, w = v ++ [d].
Proof.
  destruct w as [|d v _] using rev_ind; [rewrite zlen_nil; lia|]. eauto.
Qed.
End spec_facts.

(** ** The read-only operations on the buffer *)

Section reads.
Implicit Types v w u tail pre : list Z.
Implicit Types st : stem_state.

Lemma getb_eq st pre w c tail i :
  s_b st = pre ++ w ++ c :: tail -> i = zlen pre + zlen w -> getb i st = Done (c, st).
Proof.
  intros Hb ->. unfold getb, bind, gets, lift_res. rewrite Hb, app_assoc.
  by rewrite zread_app by zl.
Qed.

Lemma cons_rec_eq st pre v c tail n :
  s_b st = pre ++ v ++ c :: tail -> s_k0 st = zlen pre -> (length v < n)%nat ->
  cons_rec n (zlen pre + zlen v) st = Done (letter_is_cons (last_type v) c, st).
Proof.
  revert v c tail. induction n as [|n IH]; intros v c tail Hb Hk Hn; [lia|].
  unfold letter_is_cons. simpl. unfold bind at 1. rewrite (getb_eq st pre v c tail) by done.
  destruct (is_aeiou c); [done|]. destruct (c =? chr "y"); [|done].
  unfold bind at 1, gets at 1. simpl. rewrite Hk.
  destruct v as [|d v _] using rev_ind.
  - by rewrite (proj2 (Z.eqb_eq _ _)) by zl.
  - rewrite (proj2 (Z.eqb_neq _ _)) by zl.
    replace (zlen pre + zlen (v ++ [d]) - 1) with (zlen pre + zlen v) by zl.
    rewrite length_app in Hn. simpl in Hn.
    unfold bind. rewrite (IH v d (c :: tail)); [|by rewrite Hb, <- app_assoc|done|lia].
    by rewrite last_type_snoc.
Qed.

Lemma is_cons_eq st pre v c tail i :
  s_b st = pre ++ v ++ c :: tail -> s_k0 st = zlen pre -> i = zlen pre + zlen v ->
  is_cons i st = Done (letter_is_cons (last_type v) c, st).
Proof.
  intros Hb Hk ->. unfold is_cons. rewrite bind_gets, Hk.
  apply (cons_rec_eq st pre v c tail); [done..|]. unfold zlen. lia.
Qed.

(** A scan of [m()] stops at the first letter of the wanted kind, or past the
    end of the stem [u1 ++ u2]. *)
Lemma m_scan_eq st pre u1 u2 tail stop n i :
  s_b st = pre ++ (u1 ++ u2) ++ tail -> s_k0 st = zlen pre ->
  s_j st = zlen pre + zlen (u1 ++ u2) - 1 -> i = zlen pre + zlen u1 ->
  (length u2 < n)%nat ->
  (m_scan n stop i st = Done (None, st) /\
     Forall (eq (negb stop)) (ctypes (last_type u1) u2)) \/
  (exists v c v', u2 = v ++ c :: v' /\
     Forall (eq (negb stop)) (ctypes (last_type u1) v) /\
     letter_is_cons (last_type (u1 ++ v)) c = stop /\
     m_scan n stop i st = Done (Some (i + zlen v), st)).
Proof.
  revert u1 u2 i. induction n as [|n IH]; intros u1 u2 i Hb Hk Hj Hi Hn; [lia|].
  cbn [m_scan]. rewrite bind_gets, Hj.
  destruct u2 as [|c u2].
  - left. rewrite app_nil_r. rewrite (proj2 (Z.gtb_lt _ _)) by zl. split; [done|constructor].
  - replace (i >? zlen pre + zlen (u1 ++ c :: u2) - 1) with false by zl.
    rewrite (bind_Done _ _ st (letter_is_cons (last_type u1) c) st)
      by (apply (is_cons_eq st pre u1 c (u2 ++ tail)); [by rewrite Hb, <- app_assoc|done..]).
    destruct (Bool.eqb (letter_is_cons (last_type u1) c) stop) eqn:E.
    + right. exists [], c, u2. apply Bool.eqb_prop in E. rewrite app_nil_r, zlen_nil, Z.add_0_r.
      repeat split; [constructor|done].
    + assert (letter_is_cons (last_type u1) c = negb stop) as Ec
        by (destruct (letter_is_cons (last_type u1) c), stop; done).
      assert (forall u, ctypes (last_type u1) (c :: u) = negb stop :: ctypes (last_type (u1 ++ [c])) u) as Ect
        by (intros u; simpl; by rewrite last_type_snoc, Ec).
      destruct (IH (u1 ++ [c]) u2 (i + 1)) as [[H1 H2]|(v & d & v' & -> & H1 & H2 & H3)];
        [by rewrite <- (app_assoc u1)|done|by rewrite <- (app_assoc u1)|subst i; zl|simpl in Hn; lia|..].
      * left. rewrite Ect. auto.
      * right. exists (c :: v), d, v'. rewrite Ect, H3, zlen_cons.
        rewrite <- app_assoc in H2. repeat split; [auto|done|].
        do 3 f_equal. lia.
Qed.

Lemma ctypes_snoc_split u v c v' :
  ctypes (last_type u) (v ++ c :: v') =
  ctypes (last_type u) v ++ letter_is_cons (last_type (u ++ v)) c ::
  ctypes (last_type (u ++ v ++ [c])) v'.
Proof. rewrite ctypes_last_type. simpl. by rewrite (app_assoc u v), last_type_snoc. Qed.

Lemma m_loop_eq st pre u1 u2 tail fuel n cnt i :
  s_b st = pre ++ (u1 ++ u2) ++ tail -> s_k0 st = zlen pre ->
  s_j st = zlen pre + zlen (u1 ++ u2) - 1 -> i = zlen pre + zlen u1 ->
  (length u2 < n)%nat -> (length u2 < fuel)%nat ->
  m_loop n fuel cnt i st = Done (cnt + vc_count false (ctypes (last_type u1) u2), st).
Proof.
  revert u1 u2 cnt i. induction n as [|n IH]; intros u1 u2 cnt i Hb Hk Hj Hi Hn Hf; [lia|].
  cbn [m_loop]. unfold bind at 1.
  destruct (m_scan_eq st pre u1 u2 tail true fuel i) as [[-> H]|(v & c & u3 & -> & H & Hc & ->)]; [done..| |].
  { rewrite <- (app_nil_r (ctypes _ _)), vc_count_false_run by done.
    simpl. by rewrite Z.add_0_r. }
  rewrite ctypes_snoc_split, Hc, vc_count_false_run by done. simpl.
  rewrite length_app in Hn, Hf. simpl in Hn, Hf.
  unfold bind at 1.
  destruct (m_scan_eq st pre (u1 ++ v ++ [c]) u3 tail false fuel (i + zlen v + 1))
    as [[-> H1]|(v1 & c1 & u4 & -> & H1 & Hc1 & ->)];
    [rewrite Hb; by lapp|done|rewrite Hj; by lapp|subst i; zl|lia| |].
  { rewrite <- (app_nil_r (ctypes (last_type (u1 ++ v ++ [c])) u3)), vc_count_true_run by done.
    simpl. by rewrite Z.add_0_r. }
  rewrite ctypes_snoc_split, Hc1, vc_count_true_run by done. simpl.
  rewrite length_app in Hn, Hf. simpl in Hn, Hf.
  rewrite (IH ((u1 ++ v ++ [c]) ++ v1 ++ [c1]) u4).
  - f_equal. f_equal. lia.
  - rewrite Hb. by lapp.
  - done.
  - rewrite Hj. by lapp.
  - subst i. zl.
  - lia.
  - lia.
Qed.

(** [m()] computes the measure of the stem that ends at [s_j]. *)
Lemma m_eq st pre v tail :
  s_b st = pre ++ v ++ tail -> s_k0 st = zlen pre -> s_j st = zlen pre + zlen v - 1 ->
  m st = Done (measure v, st).
Proof.
  intros Hb Hk Hj. unfold m. rewrite !bind_gets, Hk, Hj. cbv zeta.
  set (fuel := Z.to_nat (zlen pre + zlen v - 1 - zlen pre + 3)).
  assert (length v + 2 <= fuel)%nat as Hf by (unfold fuel, zlen; lia).
  unfold bind at 1, measure.
  destruct (m_scan_eq st pre [] v tail false fuel (zlen pre)) as [[-> H]|(u & c & u' & -> & H & Hc & ->)];
    [done|done|done|zl|lia| |].
  { change false with (last_type []) at 1.
    by rewrite <- (app_nil_r (ctypes _ _)), vc_count_true_run by done. }
  change (ctypes false) with (ctypes (last_type [])).
  rewrite ctypes_snoc_split, Hc, vc_count_true_run by done. simpl.
  rewrite length_app in Hf. simpl in Hf.
  rewrite (m_loop_eq st pre (u ++ [c]) u' tail)
    by (try (rewrite ?Hb, ?Hj; lapp; done); first [done|lia|zl]).
  done.
Qed.

Lemma vowel_loop_eq st pre u1 u2 tail n i :
  s_b st = pre ++ (u1 ++ u2) ++ tail -> s_k0 st = zlen pre ->
  s_j st = zlen pre + zlen (u1 ++ u2) - 1 -> i = zlen pre + zlen u1 ->
  (length u2 < n)%nat ->
  vowel_loop n i st = Done (existsb negb (ctypes (last_type u1) u2), st).
Proof.
  revert u1 u2 i. induction n as [|n IH]; intros u1 u2 i Hb Hk Hj Hi Hn; [lia|].
  cbn [vowel_loop]. rewrite bind_gets, Hj.
  destruct u2 as [|c u2].
  - rewrite app_nil_r. by rewrite (proj2 (Z.leb_gt _ _)) by zl.
  - rewrite (proj2 (Z.leb_le _ _)) by zl.
    unfold bind. rewrite (is_cons_eq st pre u1 c (u2 ++ tail)); [|by rewrite Hb, <- app_assoc|done..].
    simpl. destruct (letter_is_cons (last_type u1) c) eqn:E; simpl; [|done].
    simpl in Hn. rewrite (IH (u1 ++ [c]) u2)
      by (try (rewrite ?Hb, ?Hj; lapp; done); first [done|lia|subst i; zl]).
    by rewrite last_type_snoc, E.
Qed.

Lemma vowelinstem_eq st pre v tail :
  s_b st = pre ++ v ++ tail -> s_k0 st = zlen pre -> s_j st = zlen pre + zlen v - 1 ->
  vowelinstem st = Done (has_vowel v, st).
Proof.
  intros Hb Hk Hj. unfold vowelinstem. rewrite !bind_gets, Hk, Hj.
  apply (vowel_loop_eq st pre [] v tail); try done; [zl|]. unfold zlen. lia.
Qed.
End reads.

(** ** Endings *)

(** The state in which the word is [w], with the bytes [pre] before it, [junk]
    between its end and the end of the original word, and [suf] after that. *)
Definition word_state (pre w junk suf : list Z) (j : Z) : stem_state :=
  mkStem (pre ++ w ++ junk ++ suf) (zlen pre + zlen w - 1) (zlen pre) j.

Section endings.
Implicit Types v w u tail pre junk suf x : list Z.
Implicit Types st : stem_state.

Lemma doublec_eq st pre w tail j :
  s_b st = pre ++ w ++ tail -> s_k0 st = zlen pre -> j = zlen pre + zlen w - 1 ->
  doublec j st = Done (double_cons w, st).
Proof.
  intros Hb Hk ->. unfold doublec. rewrite bind_gets, Hk.
  destruct w as [|c w _] using rev_ind; [by rewrite (proj2 (Z.ltb_lt _ _)) by zl|].
  destruct w as [|d w _] using rev_ind; [by rewrite (proj2 (Z.ltb_lt _ _)) by zl|].
  rewrite (proj2 (Z.ltb_ge _ _)) by zl.
  rewrite (bind_Done _ _ st c st)
    by (apply (getb_eq st pre (w ++ [d]) c tail); [rewrite Hb; by lapp|zl]).
  rewrite (bind_Done _ _ st d st)
    by (apply (getb_eq st pre w d (c :: tail)); [rewrite Hb; by lapp|zl]).
  unfold double_cons. rewrite last_type_snoc, rev_app_distr, rev_app_distr. simpl.
  destruct (c =? d); simpl; [|done].
  apply (is_cons_eq st pre (w ++ [d]) c tail); [rewrite Hb; by lapp|done|zl].
Qed.

Lemma cvc_eq st pre w tail i :
  s_b st = pre ++ w ++ tail -> s_k0 st = zlen pre -> i = zlen pre + zlen w - 1 ->
  cvc i st = Done (ends_cvc w, st).
Proof.
  intros Hb Hk ->. unfold cvc. rewrite bind_gets, Hk.
  destruct w as [|c w _] using rev_ind; [by rewrite (proj2 (Z.ltb_lt _ _)) by zl|].
  destruct w as [|d w _] using rev_ind;
    [rewrite (proj2 (Z.ltb_lt _ _)) by zl; unfold ends_cvc; simpl; by case_match|].
  destruct w as [|e w _] using rev_ind;
    [rewrite (proj2 (Z.ltb_lt _ _)) by zl; unfold ends_cvc; simpl; by repeat case_match|].
  rewrite (proj2 (Z.ltb_ge _ _)) by zl.
  set (te := letter_is_cons (last_type w) e). set (td := letter_is_cons te d).
  set (tc := letter_is_cons td c).
  unfold ends_cvc. replace (ctypes false _) with (ctypes false w ++ [te; td; tc])
    by (rewrite !ctypes_split; simpl; rewrite !last_type_snoc; by lapp).
  rewrite !rev_app_distr. simpl.
  rewrite (bind_Done _ _ st tc st)
    by (unfold tc, td, te; rewrite <- (last_type_snoc w), <- (last_type_snoc (w ++ [e]));
        apply (is_cons_eq st pre ((w ++ [e]) ++ [d]) c tail); [rewrite Hb; by lapp|done|zl]).
  destruct tc; simpl; [|done].
  rewrite (bind_Done _ _ st td st)
    by (unfold td, te; rewrite <- (last_type_snoc w);
        apply (is_cons_eq st pre (w ++ [e]) d (c :: tail)); [rewrite Hb; by lapp|done|zl]).
  destruct td; simpl; [done|].
  rewrite (bind_Done _ _ st te st)
    by (apply (is_cons_eq st pre w e (d :: c :: tail)); [rewrite Hb; by lapp|done|zl]).
  destruct te; simpl; [|done].
  rewrite (bind_Done _ _ st c st)
    by (apply (getb_eq st pre ((w ++ [e]) ++ [d]) c tail); [rewrite Hb; by lapp|zl]).
  unfold is_wxy. by destruct (_ || _).
Qed.

Lemma ends_eq pre w junk suf j x :
  1 <= zlen w -> 1 <= zlen x ->
  ends (zlen x :: x) (word_state pre w junk suf j) =
  match strip x w with
  | Some v => Done (true, word_state pre w junk suf (zlen pre + zlen v - 1))
  | None => Done (false, word_state pre w junk suf j)
  end.
Proof.
  intros (w' & d & ->)%snoc_inv Hx. destruct (snoc_inv x Hx) as (x' & c & ->).
  set (st := word_state _ _ _ _ _). unfold ends.
  rewrite (bind_lift_res _ _ _ (zlen (x' ++ [c]))) by done.
  rewrite (bind_lift_res _ _ _ c)
    by (apply (zread_app (zlen (x' ++ [c]) :: x') c []); zl).
  rewrite !bind_gets.
  rewrite (bind_Done _ _ _ d st) by (apply (getb_eq st pre w' d (junk ++ suf)); [simpl; by lapp|simpl; zl]).
  destruct (c =? d) eqn:Ecd; simpl.
  2: { destruct (strip _ _) as [v|] eqn:E; [|done]. apply strip_Some in E.
       rewrite app_assoc in E. apply app_inj_2 in E as [_ [= ->]]; [|done]. lia. }
  apply Z.eqb_eq in Ecd as ->.
  destruct (zlen (x' ++ [d]) >? _) eqn:Elen.
  { destruct (strip _ _) as [v|] eqn:E; [|done]. apply strip_Some in E.
    apply (f_equal zlen) in E. zl. }
  set (n := zlen (x' ++ [d])) in *.
  assert (0 <= zlen (w' ++ [d]) - n <= zlen (w' ++ [d])) as Hn by (unfold n in *; zl).
  rewrite bind_gets.
  pose proof (take_drop (Z.to_nat (zlen (w' ++ [d]) - n)) (w' ++ [d])) as Hw.
  set (w1 := take _ _) in Hw. set (w2 := drop _ _) in Hw.
  assert (zlen w1 = zlen (w' ++ [d]) - n) as Hw1 by (by apply zlen_take_le).
  assert (zlen w2 = n) as Hw2 by (rewrite <- Hw, zlen_app in Hw1; lia).
  rewrite (bind_lift_res _ _ _ w2).
  2: { simpl. rewrite <- Hw. replace ((w1 ++ w2) ++ junk ++ suf) with (w1 ++ w2 ++ junk ++ suf) by by lapp.
       rewrite (app_assoc pre). apply zread_n_app; rewrite <- Hw in *; zl. }
  rewrite (bind_lift_res _ _ _ (x' ++ [d])).
  2: { by apply (zread_n_tail [n]). }
  case_bool_decide as E; simpl.
  - rewrite E in Hw. rewrite (proj2 (strip_Some _ _ w1)) by done.
    unfold bind, modify, ret, set_j, word_state, st. simpl. do 3 f_equal. zl.
  - destruct (strip _ _) as [v|] eqn:E2; [|done]. apply strip_Some in E2.
    rewrite <- Hw in E2. apply app_inj_2 in E2 as [_ ?]; [done|].
    unfold n, zlen in Hw2. lia.
Qed.

Lemma setto_eq pre v rest suf k y :
  zlen y <= zlen rest ->
  setto (zlen y :: y) (mkStem (pre ++ v ++ rest ++ suf) k (zlen pre) (zlen pre + zlen v - 1)) =
  Done (tt, word_state pre (v ++ y) (drop (length y) rest) suf (zlen pre + zlen v - 1)).
Proof.
  intros Hy. unfold setto.
  rewrite (bind_lift_res _ _ _ (zlen y)) by done. rewrite !bind_gets.
  rewrite (bind_lift_res _ _ _ y)
    by (apply (zread_n_tail [zlen y]); zl).
  rewrite (bind_lift_res _ _ _ (pre ++ v ++ y ++ drop (length y) rest ++ suf)).
  2: { simpl. rewrite !(app_assoc pre), <- (take_drop (length y) rest) at 1. lapp.
       rewrite !(app_assoc pre). apply zwrite_n_app; [zl|].
       rewrite <- to_nat_zlen, zlen_take_le; zl. }
  unfold bind, modify, set_b, set_k, word_state. simpl. do 3 f_equal; [by lapp|zl].
Qed.
End endings.

(** ** The steps *)

(** The word is now [w]; together with the free bytes after it, it still has
    [n] bytes, and the bytes around are [pre] and [suf]. *)
Definition word_is (pre suf : list Z) (n : Z) (w : list Z) (s : stem_state) : Prop :=
  exists junk j, s = word_state pre w junk suf j /\ zlen w + zlen junk = n.

Section steps.
Context (pre suf : list Z).
Implicit Types v w u junk x y : list Z.

Lemma word_is_intro w junk n j :
  zlen w + zlen junk = n -> word_is pre suf n w (word_state pre w junk suf j).
Proof. intros ?. by exists junk, j. Qed.

Lemma wp_ends w junk j x (Q : bool -> stem_state -> Prop) :
  1 <= zlen w -> 1 <= zlen x ->
  (forall v, w = v ++ x -> strip x w = Some v ->
             Q true (word_state pre (v ++ x) junk suf (zlen pre + zlen v - 1))) ->
  (strip x w = None -> Q false (word_state pre w junk suf j)) ->
  wp (ends (zlen x :: x)) Q (word_state pre w junk suf j).
Proof.
  intros Hw Hx H1 H2. unfold wp. rewrite ends_eq by done.
  destruct (strip x w) as [v|] eqn:E; [|by apply H2].
  pose proof (proj1 (strip_Some _ _ _) E) as ->. by apply H1.
Qed.

Lemma wp_m v x junk (Q : Z -> stem_state -> Prop) :
  Q (measure v) (word_state pre (v ++ x) junk suf (zlen pre + zlen v - 1)) ->
  wp m Q (word_state pre (v ++ x) junk suf (zlen pre + zlen v - 1)).
Proof.
  intros H. unfold wp. by rewrite (m_eq _ pre v (x ++ junk ++ suf)) by (simpl; by lapp).
Qed.

Lemma wp_m_word v junk (Q : Z -> stem_state -> Prop) :
  Q (measure v) (word_state pre v junk suf (zlen pre + zlen v - 1)) ->
  wp m Q (word_state pre v junk suf (zlen pre + zlen v - 1)).
Proof. pose proof (wp_m v [] junk Q) as H. by rewrite app_nil_r in H. Qed.

Lemma wp_vowelinstem v x junk (Q : bool -> stem_state -> Prop) :
  Q (has_vowel v) (word_state pre (v ++ x) junk suf (zlen pre + zlen v - 1)) ->
  wp vowelinstem Q (word_state pre (v ++ x) junk suf (zlen pre + zlen v - 1)).
Proof.
  intros H. unfold wp. by rewrite (vowelinstem_eq _ pre v (x ++ junk ++ suf)) by (simpl; by lapp).
Qed.

Lemma wp_setto v x junk y n :
  zlen y <= zlen x + zlen junk -> zlen v + zlen x + zlen junk = n ->
  wp (setto (zlen y :: y)) (fun _ => word_is pre suf n (v ++ y))
    (word_state pre (v ++ x) junk suf (zlen pre + zlen v - 1)).
Proof.
  intros Hy Hn. unfold wp, word_state. lapp. rewrite (app_assoc x).
  rewrite setto_eq by zl. apply word_is_intro.
  rewrite <- (to_nat_zlen y), zlen_drop by zl. zl.
Qed.

Lemma wp_r v x junk y n :
  zlen y <= zlen x + zlen junk -> zlen v + zlen x + zlen junk = n ->
  wp (r (zlen y :: y))
    (fun _ => word_is pre suf n (if measure v >? 0 then v ++ y else v ++ x))
    (word_state pre (v ++ x) junk suf (zlen pre + zlen v - 1)).
Proof.
  intros Hy Hn. unfold r. wp_step. apply wp_m. destruct (measure v >? 0).
  - by apply wp_setto.
  - wp_step. apply word_is_intro. zl.
Qed.

Lemma wp_getb w v c x junk j i (Q : Z -> stem_state -> Prop) :
  w = v ++ c :: x -> i = zlen pre + zlen v -> Q c (word_state pre w junk suf j) ->
  wp (getb i) Q (word_state pre w junk suf j).
Proof.
  intros -> -> H. unfold wp. rewrite (getb_eq _ pre v c (x ++ junk ++ suf)); [done|simpl; by lapp|done].
Qed.

Lemma set_k_word v x junk j k :
  k = zlen pre + zlen v - 1 ->
  set_k k (word_state pre (v ++ x) junk suf j) = word_state pre v (x ++ junk) suf j.
Proof. intros ->. unfold set_k, word_state. simpl. by lapp. Qed.

Lemma wp_doublec w junk j i (Q : bool -> stem_state -> Prop) :
  i = zlen pre + zlen w - 1 -> Q (double_cons w) (word_state pre w junk suf j) ->
  wp (doublec i) Q (word_state pre w junk suf j).
Proof. intros -> H. unfold wp. by rewrite (doublec_eq _ pre w (junk ++ suf)). Qed.

Lemma wp_cvc w junk j i (Q : bool -> stem_state -> Prop) :
  i = zlen pre + zlen w - 1 -> Q (ends_cvc w) (word_state pre w junk suf j) ->
  wp (cvc i) Q (word_state pre w junk suf j).
Proof. intros -> H. unfold wp. by rewrite (cvc_eq _ pre w (junk ++ suf)). Qed.

Lemma step1a_ok w junk j n :
  2 <= zlen w -> zlen w + zlen junk = n ->
  wp step1a (fun _ => word_is pre suf n (step1a_spec w)) (word_state pre w junk suf j).
Proof.
  intros Hw Hn. destruct (snoc_inv w) as (w' & c & ->); [lia|].
  destruct (snoc_inv w') as (w'' & d & ->); [zl|].
  unfold step1a, step1a_spec. rewrite last_is_snoc.
  wp_steps. apply (wp_getb _ (w'' ++ [d]) c []); [done|zl|].
  destruct (c =? chr "s"); [|wp_step; by apply word_is_intro].
  wp_step. apply (wp_ends _ _ _ (str "sses")); [zl|done|..].
  { intros v Hv ->. wp_step. change (str "sses") with (str "ss" ++ str "es"). rewrite app_assoc.
    apply (f_equal zlen) in Hv. rewrite set_k_word by zl. apply word_is_intro. zl. }
  intros ->. wp_step. apply (wp_ends _ _ _ (str "ies")); [zl|done|..].
  { intros v Hv ->. apply (wp_setto v (str "ies") _ (str "i")); apply (f_equal zlen) in Hv; zl. }
  intros ->. wp_step. apply (wp_getb _ w'' d [c]); [by lapp|zl|].
  rewrite !chop_snoc, last_is_snoc.
  destruct (d =? chr "s"); simpl.
  - wp_step. by apply word_is_intro.
  - wp_step. rewrite set_k_word by zl. apply word_is_intro. zl.
Qed.

Lemma step1b_tail_ok v junk n :
  1 <= zlen v -> 1 <= zlen junk -> zlen v + zlen junk = n ->
  wp step1b_tail (fun _ => word_is pre suf n (step1b_tail_spec v))
    (word_state pre v junk suf (zlen pre + zlen v - 1)).
Proof.
  intros Hv Hj Hn. unfold step1b_tail, step1b_tail_spec.
  wp_step. apply (wp_ends _ _ _ (str "at")); [done|done|..].
  { intros u Hu ->. apply (f_equal zlen) in Hu. apply (wp_setto u (str "at") _ (str "ate")); zl. }
  intros ->. wp_step. apply (wp_ends _ _ _ (str "bl")); [done|done|..].
  { intros u Hu ->. apply (f_equal zlen) in Hu. apply (wp_setto u (str "bl") _ (str "ble")); zl. }
  intros ->. wp_step. apply (wp_ends _ _ _ (str "iz")); [done|done|..].
  { intros u Hu ->. apply (f_equal zlen) in Hu. apply (wp_setto u (str "iz") _ (str "ize")); zl. }
  intros ->. wp_steps. apply wp_doublec; [done|].
  destruct (double_cons v) eqn:Edc.
  { destruct (snoc_inv v Hv) as (v' & c & ->). rewrite !last_is_snoc, chop_snoc.
    wp_steps. rewrite set_k_word by zl.
    assert (exists v'', v' = v'' ++ [c]) as (v'' & ->).
    { unfold double_cons in Edc. rewrite rev_app_distr in Edc. simpl in Edc.
      destruct (rev v') as [|d l] eqn:E; [done|]. exists (rev l).
      apply andb_prop in Edc as [->%Z.eqb_eq _].
      rewrite <- (rev_involutive v'), E. done. }
    apply (wp_getb _ v'' c []); [done|zl|].
    destruct (_ || _).
    - wp_step. exists junk, (zlen pre + zlen ((v'' ++ [c]) ++ [c]) - 1).
      split; [|zl]. unfold set_k, word_state. simpl. f_equal. by lapp.
    - wp_step. apply word_is_intro. zl. }
  wp_step. apply wp_m_word.
  destruct (measure v =? 1); simpl; [|wp_step; by apply word_is_intro].
  wp_step. apply wp_cvc; [done|]. destruct (ends_cvc v); [|wp_step; by apply word_is_intro].
  pose proof (wp_setto v [] junk (str "e") n) as H. rewrite app_nil_r in H. apply H; zl.
Qed.

Lemma step1b_ok w junk j n :
  1 <= zlen w -> zlen w + zlen junk = n ->
  wp step1b
    (fun _ => word_is pre suf n (step1b_spec w)) (word_state pre w junk suf j).
Proof.
  intros Hw Hn. unfold step1b, step1b_spec.
  wp_step. apply (wp_ends _ _ _ (str "eed")); [done|done|..].
  { intros v -> ->. wp_step. apply wp_m.
    destruct (measure v >? 0); wp_steps.
    - change (str "eed") with (str "ee" ++ str "d"). rewrite app_assoc, set_k_word by zl.
      apply word_is_intro. zl.
    - apply word_is_intro. zl. }
  intros ->. wp_step. wp_step.
  assert (forall x v, w = v ++ x -> 1 <= zlen x ->
    wp (let! t := vowelinstem in
        if t : bool then let! j := gets s_j in modify (set_k j) ;;; step1b_tail else ret tt)
      (fun _ => word_is pre suf n (if has_vowel v then step1b_tail_spec v else w))
      (word_state pre (v ++ x) junk suf (zlen pre + zlen v - 1))) as Htail.
  { intros x v -> Hx. wp_step. apply wp_vowelinstem. destruct (has_vowel v) eqn:Ev.
    - wp_steps. rewrite set_k_word by done. apply has_vowel_length in Ev.
      apply step1b_tail_ok; zl.
    - wp_step. apply word_is_intro. zl. }
  apply (wp_ends _ _ _ (str "ed")); [done|done|..].
  { intros v Hv ->. wp_step. apply Htail; done. }
  intros ->. apply (wp_ends _ _ _ (str "ing")); [done|done|..].
  { intros v Hv ->. apply Htail; done. }
  intros ->. wp_steps. by apply word_is_intro.
Qed.

Lemma step1c_ok w junk j n :
  1 <= zlen w -> zlen w + zlen junk = n ->
  wp step1c (fun _ => word_is pre suf n (step1c_spec w)) (word_state pre w junk suf j).
Proof.
  intros Hw Hn. unfold step1c, step1c_spec.
  wp_step. apply (wp_ends _ _ _ (str "y")); [done|done|..].
  - intros v -> ->. wp_step. apply wp_vowelinstem.
    destruct (has_vowel v); [|wp_step; apply word_is_intro; zl].
    wp_steps. apply (wp_lift_res _ (pre ++ (v ++ str "i") ++ junk ++ suf)).
    { lapp. rewrite !(app_assoc pre). apply (zwrite_n_app _ (str "y")); [zl|done]. }
    wp_step. exists junk, (zlen pre + zlen v - 1). split; [|zl].
    unfold set_b, word_state. simpl. f_equal. zl.
  - intros ->. wp_step. by apply word_is_intro.
Qed.

(** A literal as the C code writes it: its length, then its bytes. *)
Definition lit (x : string) : list Z := zlen (str x) :: str x.

Lemma try_r_ok rules w junk j n :
  1 <= zlen w -> zlen w + zlen junk = n ->
  Forall (fun '(x, y) => 1 <= zlen (str x) /\ zlen (str y) <= zlen (str x)) rules ->
  wp (try_r (map (fun '(x, y) => (lit x, lit y)) rules))
    (fun _ => word_is pre suf n (rewrite_first rules w)) (word_state pre w junk suf j).
Proof.
  intros Hw Hn HF. induction HF as [|[x y] rules [Hx Hy] _ IH]; cbn [map try_r rewrite_first].
  - wp_step. by apply word_is_intro.
  - wp_step. apply (wp_ends _ _ _ (str x)); [done|done|..].
    + intros v -> ->. apply (wp_r v (str x) junk (str y)); zl.
    + intros ->. apply IH.
Qed.

Lemma cut_ok v x junk n :
  zlen v + zlen x + zlen junk = n ->
  wp (step4_end true)
    (fun _ => word_is pre suf n (if measure v >? 1 then v else v ++ x))
    (word_state pre (v ++ x) junk suf (zlen pre + zlen v - 1)).
Proof.
  intros Hn. unfold step4_end. wp_step. apply wp_m. destruct (measure v >? 1); wp_steps.
  - rewrite set_k_word by done. apply word_is_intro. zl.
  - apply word_is_intro. zl.
Qed.

Lemma try_break_ok sufs w junk j n :
  1 <= zlen w -> zlen w + zlen junk = n ->
  Forall (fun x : string => 1 <= zlen (str x) /\ String.eqb x "ion" = false) sufs ->
  wp (try_break (map lit sufs))
    (fun t => wp (step4_end t) (fun _ => word_is pre suf n (cut_first sufs w)))
    (word_state pre w junk suf j).
Proof.
  intros Hw Hn HF.
  induction HF as [|x sufs [Hx Hion] _ IH]; cbn [map try_break cut_first].
  - wp_steps. by apply word_is_intro.
  - wp_step. apply (wp_ends _ _ _ (str x)); [done|done|..].
    + intros v -> ->. unfold ending_ok. rewrite Hion. wp_step. apply cut_ok. zl.
    + intros ->. apply IH.
Qed.

Lemma step4_case_o_ok w junk j n :
  1 <= zlen w -> zlen w + zlen junk = n ->
  wp step4_case_o
    (fun t => wp (step4_end t) (fun _ => word_is pre suf n (cut_first ["ion"; "ou"]%string w)))
    (word_state pre w junk suf j).
Proof.
  intros Hw Hn. cbn [cut_first]. unfold ending_ok. cbn [String.eqb Ascii.eqb Bool.eqb].
  assert (forall j, wp (try_break [pstr 2 "ou"])
    (fun t => wp (step4_end t) (fun _ => word_is pre suf n (cut_first ["ou"]%string w)))
    (word_state pre w junk suf j)) as Hou.
  { intros j'. apply (try_break_ok ["ou"]%string); [done|done|by repeat constructor]. }
  unfold step4_case_o. wp_step. apply (wp_ends _ _ _ (str "ion")); [done|done|..].
  - intros v -> ->. do 5 wp_step. cbn [s_j s_k0 word_state].
    destruct (decide (v = [])) as [->|Hv].
    { replace (_ >=? _) with false by zl. wp_step. apply Hou. }
    destruct (snoc_inv v) as (v' & c & ->); [destruct v; [done|zl]|].
    replace (_ >=? _) with true by zl. rewrite !last_is_snoc.
    wp_step. apply (wp_getb _ v' c (str "ion")); [by lapp|zl|]. wp_step.
    destruct (_ || _); [|apply Hou].
    wp_step. apply cut_ok. zl.
  - intros ->. do 2 wp_step. apply Hou.
Qed.

(** After [step5_e] the static [s_j] still marks the end of the word [w0] that
    step 5 started from: the measure that [step5_l] tests is that of [w0]. *)
Lemma step5_e_ok w0 junk0 :
  1 <= zlen w0 ->
  wp step5_e (fun _ s => exists w junk,
      s = word_state pre w junk suf (zlen pre + zlen w0 - 1) /\ w ++ junk = w0 ++ junk0 /\
      w = if last_is (chr "e") w0 &&
             ((measure w0 >? 1) || ((measure w0 =? 1) && negb (ends_cvc (chop w0))))
          then chop w0 else w0)
    (word_state pre w0 junk0 suf (zlen pre + zlen w0 - 1)).
Proof.
  intros (w & c & ->)%snoc_inv. unfold step5_e. rewrite last_is_snoc, chop_snoc.
  set (j := zlen pre + zlen (w ++ [c]) - 1). set (a := measure (w ++ [c])).
  assert (set_k (j - 1) (word_state pre (w ++ [c]) junk0 suf j) = word_state pre w (c :: junk0) suf j) as Hset
    by (rewrite set_k_word; [done|unfold j; zl]).
  do 3 wp_step. apply (wp_getb _ w c []); [done|unfold j; simpl; zl|].
  destruct (c =? chr "e"); simpl; [|wp_step; by eauto 10].
  wp_step. apply wp_m_word. fold a j.
  assert (exists w1 junk1, word_state pre w (c :: junk0) suf j = word_state pre w1 junk1 suf j /\
            w1 ++ junk1 = (w ++ [c]) ++ junk0 /\ w1 = w) as Hcut
    by (exists w, (c :: junk0); split_and!; [done|by lapp|done]).
  destruct (a >? 1); simpl; [wp_step; by rewrite Hset|].
  destruct (a =? 1); simpl; [|wp_step; by eauto 10].
  wp_step. unfold wp at 1.
  rewrite (cvc_eq _ pre w (c :: junk0 ++ suf)); [|simpl; by lapp|done|unfold j; simpl; zl].
  destruct (ends_cvc w); simpl; wp_step; [by eauto 10|by rewrite Hset].
Qed.

Lemma step5_l_ok w0 junk0 w junk n :
  1 <= zlen w -> w ++ junk = w0 ++ junk0 -> zlen w + zlen junk = n ->
  wp step5_l (fun _ => word_is pre suf n
       (if last_is (chr "l") w && double_cons w && (measure w0 >? 1) then chop w else w))
    (word_state pre w junk suf (zlen pre + zlen w0 - 1)).
Proof.
  intros (v & c & ->)%snoc_inv Happ Hn. unfold step5_l. rewrite last_is_snoc, chop_snoc.
  do 3 wp_step. apply (wp_getb _ v c []); [done|simpl; zl|].
  destruct (c =? chr "l"); simpl; [|wp_step; by apply word_is_intro].
  wp_step. apply wp_doublec; [done|].
  destruct (double_cons _); simpl; [|wp_step; by apply word_is_intro].
  wp_step. unfold wp. rewrite (m_eq _ pre w0 (junk0 ++ suf)); [|simpl|done..].
  2: { rewrite (app_assoc (v ++ [c])), Happ. by lapp. }
  destruct (_ >? 1); simpl.
  - rewrite set_k_word by zl. apply word_is_intro. zl.
  - by apply word_is_intro.
Qed.

Lemma double_cons_length w : double_cons w = true -> 2 <= zlen w.
Proof.
  unfold double_cons. rewrite <- (rev_involutive w) at 2.
  destruct (rev w) as [|c [|d l]]; [done..|]. intros _. simpl. zl.
Qed.

Lemma step5_ok w junk j n :
  2 <= zlen w -> zlen w + zlen junk = n ->
  wp step5 (fun _ => word_is pre suf n (step5_spec w)) (word_state pre w junk suf j).
Proof.
  intros Hw Hn. unfold step5, step5_spec. do 3 wp_step. wp_step. wp_step.
  eapply wp_mono; [apply step5_e_ok; lia|].
  intros _ s (w1 & junk1 & -> & Happ & Hw1). rewrite <- Hw1.
  apply (step5_l_ok w junk); [|done|].
  - rewrite Hw1. destruct (snoc_inv w) as (v & c & ->); [lia|].
    rewrite chop_snoc. clear Hw1 Happ. destruct (last_is _ _ && _); zl.
  - rewrite <- zlen_app, Happ. zl.
Qed.
End steps.

(** ** The dispatch on one letter

    Steps 2, 3 and 4 look at one letter of the word and then try only the
    endings that have this letter in the same place.  The specification tries
    all endings. *)

Definition penult (x : list Z) : Z := default (-1) (last (chop x)).
Definition ultima (x : list Z) : Z := default (-1) (last x).

Section dispatch.
Implicit Types v w : list Z.

Lemma strip_penult x w v : strip x w = Some v -> 2 <= zlen x -> penult w = penult x.
Proof.
  intros ->%strip_Some Hx. destruct (snoc_inv x) as (x' & d & ->); [lia|].
  destruct (snoc_inv x') as (x'' & c & ->); [zl|].
  unfold penult. rewrite !(app_assoc v), !chop_snoc. by rewrite !last_snoc.
Qed.

Lemma strip_ultima x w v : strip x w = Some v -> 1 <= zlen x -> ultima w = ultima x.
Proof.
  intros ->%strip_Some Hx. destruct (snoc_inv x Hx) as (x' & d & ->).
  unfold ultima. by rewrite (app_assoc v), !last_snoc.
Qed.

Lemma rewrite_first_filter (f : string * string -> bool) rules w :
  Forall (fun p => f p = false -> strip (str p.1) w = None) rules ->
  rewrite_first rules w = rewrite_first (List.filter f rules) w.
Proof.
  induction 1 as [|[x y] rules H _ IH]; [done|]. cbn [rewrite_first List.filter].
  destruct (f (x, y)) eqn:E; cbn [rewrite_first]; rewrite IH; [done|].
  simpl in H. by rewrite H.
Qed.

Lemma cut_first_filter (f : string -> bool) sufs w :
  Forall (fun x => f x = false -> strip (str x) w = None) sufs ->
  cut_first sufs w = cut_first (List.filter f sufs) w.
Proof.
  induction 1 as [|x sufs H _ IH]; [done|]. cbn [cut_first List.filter].
  destruct (f x) eqn:E; cbn [cut_first]; rewrite IH; [done|]. by rewrite H.
Qed.

Lemma Forall_forallb {A} (f : A -> bool) (P : A -> Prop) l :
  (forall x, f x = true -> P x) -> forallb f l = true -> Forall P l.
Proof.
  intros Hf. induction l as [|x l IH]; simpl; [by constructor|].
  intros [??]%andb_prop. auto.
Qed.

Lemma penult_no_match c x w :
  2 <= zlen x -> penult w = c -> (c =? penult x) = false -> strip x w = None.
Proof.
  intros Hx Hc Hne. destruct (strip x w) eqn:E; [|done]. apply strip_penult in E; [lia|done].
Qed.

Lemma ultima_no_match c x w :
  1 <= zlen x -> ultima w = c -> (c =? ultima x) = false -> strip x w = None.
Proof.
  intros Hx Hc Hne. destruct (strip x w) eqn:E; [|done]. apply strip_ultima in E; [lia|done].
Qed.

Lemma rules_ok rules :
  forallb (fun '(x, y) => (2 <=? zlen (str x)) && (zlen (str y) <=? zlen (str x))) rules = true ->
  Forall (fun '(x, y) => 1 <= zlen (str x) /\ zlen (str y) <= zlen (str x)) rules.
Proof. apply Forall_forallb. intros [x y]. lia. Qed.

Lemma sufs_ok sufs :
  forallb (fun x => (1 <=? zlen (str x)) && negb (String.eqb x "ion")) sufs = true ->
  Forall (fun x : string => 1 <= zlen (str x) /\ String.eqb x "ion" = false) sufs.
Proof. apply Forall_forallb. intros x. destruct (String.eqb x "ion"); lia. Qed.

Lemma filter_none {A} (f : A -> bool) l : Forall (fun x => f x = false) l -> List.filter f l = [].
Proof. induction 1 as [|x l H _ IH]; simpl; [done|]. by rewrite H. Qed.

(** A chain of [case] labels, each equal to the filter of the table. *)
Ltac by_cases :=
  repeat match goal with
         | |- (if ?c =? ?d then _ else _) = _ =>
           destruct (c =? d) eqn:?;
           [match goal with H : (c =? d) = true |- _ => apply Z.eqb_eq in H as ->; reflexivity end|]
         end;
  rewrite filter_none; [reflexivity|repeat (constructor; [assumption|]); constructor].

Lemma step2_case_eq c :
  step2_case c = map (fun '(x, y) => (lit x, lit y))
                     (List.filter (fun p => c =? penult (str p.1)) step2_rules).
Proof. unfold step2_case. by_cases. Qed.

Lemma step3_case_eq c :
  step3_case c = map (fun '(x, y) => (lit x, lit y))
                     (List.filter (fun p => c =? ultima (str p.1)) step3_rules).
Proof. unfold step3_case. by_cases. Qed.
End dispatch.

Section later_steps.
Context (pre suf : list Z).
Implicit Types v w junk : list Z.

Lemma Forall_filter_sub {A} (P : A -> Prop) f l : Forall P l -> Forall P (List.filter f l).
Proof. induction 1; simpl; [constructor|]. case_match; auto. Qed.

Lemma step2_ok w junk j n :
  2 <= zlen w -> zlen w + zlen junk = n ->
  wp step2 (fun _ => word_is pre suf n (rewrite_first step2_rules w)) (word_state pre w junk suf j).
Proof.
  intros Hw Hn. destruct (snoc_inv w) as (w' & d & ->); [lia|].
  destruct (snoc_inv w') as (v & c & ->); [zl|].
  unfold step2. do 3 wp_step. apply (wp_getb _ _ _ v c [d]); [by lapp|simpl; zl|].
  rewrite step2_case_eq, (rewrite_first_filter (fun p => c =? penult (str p.1))).
  - apply try_r_ok; [lia|done|]. by apply Forall_filter_sub, rules_ok.
  - assert (penult ((v ++ [c]) ++ [d]) = c) as Hp by (unfold penult; by rewrite chop_snoc, last_snoc).
    apply (Forall_forallb (fun p => 2 <=? zlen (str p.1))); [|done].
    intros p Hlen. apply penult_no_match; [lia|done].
Qed.

Lemma step3_ok w junk j n :
  1 <= zlen w -> zlen w + zlen junk = n ->
  wp step3 (fun _ => word_is pre suf n (rewrite_first step3_rules w)) (word_state pre w junk suf j).
Proof.
  intros Hw Hn. destruct (snoc_inv w) as (v & c & ->); [lia|].
  unfold step3. do 3 wp_step. apply (wp_getb _ _ _ v c []); [by lapp|simpl; zl|].
  rewrite step3_case_eq, (rewrite_first_filter (fun p => c =? ultima (str p.1))).
  - apply try_r_ok; [lia|done|]. by apply Forall_filter_sub, rules_ok.
  - assert (ultima (v ++ [c]) = c) as Hp by (unfold ultima; by rewrite last_snoc).
    apply (Forall_forallb (fun p => 1 <=? zlen (str p.1))); [|done].
    intros p Hlen. apply ultima_no_match; [lia|done].
Qed.

Lemma step4_case_ok c w junk j n :
  1 <= zlen w -> zlen w + zlen junk = n ->
  wp (step4_case c) (fun t => wp (step4_end t) (fun _ => word_is pre suf n
        (cut_first (List.filter (fun x => c =? penult (str x)) step4_endings) w)))
    (word_state pre w junk suf j).
Proof.
  intros Hw Hn. unfold step4_case.
  repeat match goal with
         | |- wp (if ?b then _ else _) _ _ =>
           destruct b eqn:?;
           [match goal with H : b = true |- _ => apply Z.eqb_eq in H as -> end;
            lazymatch goal with
            | |- wp step4_case_o _ _ => by apply step4_case_o_ok
            | |- _ => match goal with
                      | |- wp _ (fun t => wp _ (fun _ => word_is _ _ _ (cut_first ?l _))) _ =>
                        apply (try_break_ok _ _ l); [done|done|by apply sufs_ok]
                      end
            end|]
         end.
  wp_step. rewrite filter_none; [by apply word_is_intro|].
  repeat (constructor; [assumption|]). constructor.
Qed.

Lemma step4_ok w junk j n :
  2 <= zlen w -> zlen w + zlen junk = n ->
  wp step4 (fun _ => word_is pre suf n (cut_first step4_endings w)) (word_state pre w junk suf j).
Proof.
  intros Hw Hn. destruct (snoc_inv w) as (w' & d & ->); [lia|].
  destruct (snoc_inv w') as (v & c & ->); [zl|].
  unfold step4. do 3 wp_step. apply (wp_getb _ _ _ v c [d]); [by lapp|simpl; zl|]. wp_step.
  rewrite (cut_first_filter (fun x => c =? penult (str x))).
  - apply step4_case_ok; [lia|done].
  - assert (penult ((v ++ [c]) ++ [d]) = c) as Hp by (unfold penult; by rewrite chop_snoc, last_snoc).
    apply (Forall_forallb (fun x => 2 <=? zlen (str x))); [|done].
    intros x Hlen. apply penult_no_match; [lia|done].
Qed.

(** ** Word lengths through the steps *)

Lemma step1a_length w : 3 <= zlen w -> 1 <= zlen (step1a_spec w).
Proof.
  intros Hw. unfold step1a_spec. destruct (last_is _ w); [|lia].
  destruct (strip _ w); [zl|]. destruct (strip _ w); [zl|].
  destruct (snoc_inv w) as (v & c & ->); [lia|]. rewrite chop_snoc.
  destruct (last_is _ v); zl.
Qed.

Lemma step1b_tail_length v : 1 <= zlen v -> 1 <= zlen (step1b_tail_spec v).
Proof.
  intros Hv. unfold step1b_tail_spec. do 3 (destruct (strip _ v); [zl|]).
  destruct (double_cons v) eqn:E.
  - apply double_cons_length in E. destruct (_ || _); [done|].
    destruct (snoc_inv v Hv) as (u & c & ->). rewrite chop_snoc. zl.
  - destruct (_ && _); zl.
Qed.

Lemma step1b_length w : 1 <= zlen w -> 1 <= zlen (step1b_spec w).
Proof.
  intros Hw. unfold step1b_spec.
  destruct (strip (str "eed") w); [case_match; zl|].
  destruct (strip (str "ed") w) as [v|];
    [|destruct (strip (str "ing") w) as [v|]; [|done]];
    destruct (has_vowel v) eqn:E; try done; apply step1b_tail_length, has_vowel_length, E.
Qed.

Lemma step1c_length w : zlen (step1c_spec w) = zlen w.
Proof.
  unfold step1c_spec. destruct (strip _ w) as [v|] eqn:E; [|done].
  apply strip_Some in E as ->. case_match; [|done]. zl.
Qed.

Lemma rewrite_first_length rules w : 2 <= zlen w -> 2 <= zlen (rewrite_first rules w).
Proof.
  intros Hw. induction rules as [|[x y] rules IH]; simpl; [done|].
  destruct (strip _ w) as [v|]; [|done]. destruct (measure v >? 0) eqn:E; [|done].
  pose proof (measure_length v ltac:(lia)). zl.
Qed.

Lemma cut_first_length sufs w : 2 <= zlen w -> 2 <= zlen (cut_first sufs w).
Proof.
  intros Hw. induction sufs as [|x sufs IH]; simpl; [done|].
  destruct (strip _ w) as [v|]; [|done]. destruct (ending_ok x v); [|done].
  destruct (measure v >? 1) eqn:E; [|done]. apply measure_length. lia.
Qed.

Lemma step5_length w : 2 <= zlen w -> 1 <= zlen (step5_spec w).
Proof.
  intros Hw. destruct (snoc_inv w) as (v & c & ->); [lia|].
  unfold step5_spec. rewrite chop_snoc. destruct (last_is (chr "e") _ && _).
  - destruct (_ && _ && _) eqn:E; [|zl]. apply andb_prop in E as [[_ E]%andb_prop _].
    apply double_cons_length in E. destruct (snoc_inv v) as (u & d & ->); [lia|].
    rewrite chop_snoc. zl.
  - destruct (_ && _ && _); rewrite ?chop_snoc; zl.
Qed.

Lemma step1ab_ok w junk j n :
  3 <= zlen w -> zlen w + zlen junk = n ->
  wp step1ab (fun _ => word_is pre suf n (step1b_spec (step1a_spec w))) (word_state pre w junk suf j).
Proof.
  intros Hw Hn. unfold step1ab. wp_step.
  eapply wp_mono; [apply step1a_ok; [lia|done]|].
  intros _ s (junk' & j' & -> & Hn'). apply step1b_ok; [by apply step1a_length|done].
Qed.

Lemma late_steps_ok w junk j n :
  2 <= zlen w -> zlen w + zlen junk = n ->
  wp (step1c ;;; step2 ;;; step3 ;;; step4 ;;; step5)
    (fun _ => word_is pre suf n (step5_spec (cut_first step4_endings
       (rewrite_first step3_rules (rewrite_first step2_rules (step1c_spec w))))))
    (word_state pre w junk suf j).
Proof.
  intros Hw Hn.
  assert (2 <= zlen (step1c_spec w)) as H1 by (by rewrite step1c_length).
  pose proof (rewrite_first_length step2_rules _ H1) as H2.
  pose proof (rewrite_first_length step3_rules _ H2) as H3.
  pose proof (cut_first_length step4_endings _ H3) as H4.
  wp_step. eapply wp_mono; [apply step1c_ok; [lia|done]|]. intros _ ? (junk1 & j1 & -> & E1).
  wp_step. eapply wp_mono; [apply step2_ok; [done|done]|]. intros _ ? (junk2 & j2 & -> & E2).
  wp_step. eapply wp_mono; [apply step3_ok; [lia|done]|]. intros _ ? (junk3 & j3 & -> & E3).
  wp_step. eapply wp_mono; [apply step4_ok; [done|done]|]. intros _ ? (junk4 & j4 & -> & E4).
  by apply step5_ok.
Qed.

Lemma porterStem_eq w s0 :
  1 <= zlen w ->
  exists junk j,
    porterStem (pre ++ w ++ suf) (zlen pre) (zlen pre + zlen w - 1) s0 =
      Done (zlen pre + zlen (stem_spec w) - 1, word_state pre (stem_spec w) junk suf j) /\
    1 <= zlen (stem_spec w) /\ zlen (stem_spec w) + zlen junk = zlen w.
Proof.
  intros Hw. unfold porterStem. rewrite bind_modify, !bind_gets. cbn [s_k s_k0 s_j].
  change (mkStem _ _ _ _) with (word_state pre w [] suf (s_j s0)).
  unfold stem_spec. destruct (zlen w <=? 2) eqn:E.
  { replace (_ <=? _) with true by zl. exists [], (s_j s0). split; [done|]. zl. }
  replace (_ <=? _) with false by zl. apply Z.leb_gt in E.
  assert (1 <= zlen (step1a_spec w)) as H1 by (apply step1a_length; lia).
  assert (1 <= zlen (step1b_spec (step1a_spec w))) as H2 by (by apply step1b_length).
  destruct (wp_run _ _ _ (step1ab_ok w [] (s_j s0) (zlen w) ltac:(lia) ltac:(zl)))
    as ([] & s & Hrun & junk1 & j1 & -> & Hn1).
  rewrite (bind_Done _ _ _ _ _ Hrun), bind_gets. cbn [s_k word_state].
  set (w1 := step1b_spec (step1a_spec w)) in *.
  destruct (zlen w1 <=? 1) eqn:E1.
  { replace (_ >? _) with false by lia. by exists junk1, j1. }
  replace (_ >? _) with true by lia. apply Z.leb_gt in E1.
  destruct (wp_run _ _ _ (late_steps_ok w1 junk1 j1 (zlen w) ltac:(lia) Hn1))
    as ([] & s & Hrun2 & junk2 & j2 & -> & Hn2).
  rewrite (bind_Done _ _ _ _ _ Hrun2). exists junk2, j2. split_and!; [done| |done].
  repeat first [apply step5_length|apply cut_first_length|apply rewrite_first_length|rewrite step1c_length].
  lia.
Qed.
End later_steps.

(** ** Theorems *)

Definition lower (c : Z) : Prop := chr "a" <= c <= chr "z".

Section lower.
Implicit Types v w x : list Z.

Lemma lower_str (x : string) : forallb (fun c => (chr "a" <=? c) && (c <=? chr "z")) (str x) = true -> Forall lower (str x).
Proof. apply Forall_forallb. unfold lower. intros c. lia. Qed.

Lemma lower_strip x w v : strip x w = Some v -> Forall lower w -> Forall lower v.
Proof. intros ->%strip_Some. by intros [? _]%Forall_app. Qed.

Lemma lower_chop w : Forall lower w -> Forall lower (chop w).
Proof. intros H. unfold chop. by apply Forall_take. Qed.

Lemma lower_rewrite_first rules w :
  forallb (fun '(_, y) => forallb (fun c => (chr "a" <=? c) && (c <=? chr "z")) (str y)) rules = true ->
  Forall lower w -> Forall lower (rewrite_first rules w).
Proof.
  intros H Hw. induction rules as [|[x y] rules IH]; simpl in *; [done|].
  apply andb_prop in H as [Hy H]. destruct (strip _ w) eqn:E; [|auto].
  case_match; [|done]. apply Forall_app. split; [by eapply lower_strip|by apply lower_str].
Qed.

Lemma lower_cut_first sufs w : Forall lower w -> Forall lower (cut_first sufs w).
Proof.
  intros Hw. induction sufs as [|x sufs IH]; simpl; [done|].
  destruct (strip _ w) eqn:E; [|done]. destruct (ending_ok _ _); [|done].
  case_match; [by eapply lower_strip|done].
Qed.

#[local] Hint Resolve lower_chop lower_strip lower_cut_first : core.

(** A literal ending put on a stem of the word. *)
Ltac lower_tac :=
  repeat match goal with
         | |- Forall lower (match strip ?x ?w with _ => _ end) => destruct (strip x w) eqn:?
         | |- Forall lower (if ?b then _ else _) => destruct b
         | |- Forall lower (chop _) => apply lower_chop
         | |- Forall lower (let _ := _ in _) => cbv zeta
         | |- Forall lower (_ ++ _) => apply Forall_app; split
         | |- Forall lower (str _) => by apply lower_str
         end; eauto.

Lemma lower_step1b_tail v : Forall lower v -> Forall lower (step1b_tail_spec v).
Proof. intros Hv. unfold step1b_tail_spec. lower_tac. Qed.
#[local] Hint Resolve lower_step1b_tail : core.

Lemma lower_stem_spec w : Forall lower w -> Forall lower (stem_spec w).
Proof.
  intros Hw. unfold stem_spec. destruct (_ <=? _); [done|].
  assert (Forall lower (step1a_spec w)) as H1 by (unfold step1a_spec; lower_tac).
  assert (Forall lower (step1b_spec (step1a_spec w))) as H2 by (unfold step1b_spec; lower_tac).
  destruct (_ <=? _); [done|].
  assert (forall u, Forall lower u -> Forall lower (step1c_spec u)) as H3 by (intros u Hu; unfold step1c_spec; lower_tac).
  assert (forall u, Forall lower u -> Forall lower (step5_spec u)) as H5 by (intros u Hu; unfold step5_spec; lower_tac).
  by apply H5, lower_cut_first, lower_rewrite_first, lower_rewrite_first, H3.
Qed.
End lower.

(** Splitting a buffer around the range [i..j]. *)
Lemma buffer_split (p : list Z) i j :
  0 <= i -> i <= j + 1 -> j < zlen p ->
  exists pre w suf, p = pre ++ w ++ suf /\ i = zlen pre /\ j = zlen pre + zlen w - 1 /\
    w = slice i (j - i + 1) p /\ pre = take (Z.to_nat i) p /\ suf = drop (Z.to_nat (j + 1)) p.
Proof.
  intros Hi Hij Hj.
  exists (take (Z.to_nat i) p), (slice i (j - i + 1) p), (drop (Z.to_nat (j + 1)) p).
  rewrite zlen_take_le by lia. rewrite zlen_slice by lia.
  split_and!; [|lia|lia|done..].
  unfold slice. replace (Z.to_nat (j + 1)) with (Z.to_nat i + Z.to_nat (j - i + 1))%nat by lia.
  rewrite <- drop_drop. by rewrite !take_drop.
Qed.

Lemma slice_app {A} (l1 l2 l3 : list A) i n :
  i = zlen l1 -> n = zlen l2 -> slice i n (l1 ++ l2 ++ l3) = l2.
Proof.
  intros -> ->. unfold slice. rewrite !to_nat_zlen.
  by rewrite drop_app_length, take_app_length.
Qed.

(** C28: [porterStem(p, i, j)] on any buffer with [i <= j] inside it and with
    any values left in the statics by an earlier call returns: it makes no
    access outside the word, its loops end, the word from [i] to the returned
    offset [k] is the one the algorithm's specification gives, [i <= k <= j],
    and no byte before [i] or after [j] changes. *)
Theorem porterStem_correct (p : list Z) (i j : Z) (s0 : stem_state) :
  0 <= i -> i <= j -> j < zlen p ->
  exists k s, porterStem p i j s0 = Done (k, s) /\
    slice i (k - i + 1) (s_b s) = stem_spec (slice i (j - i + 1) p) /\
    i <= k <= j /\
    zlen (s_b s) = zlen p /\
    take (Z.to_nat i) (s_b s) = take (Z.to_nat i) p /\
    drop (Z.to_nat (j + 1)) (s_b s) = drop (Z.to_nat (j + 1)) p.
Proof.
  intros Hi Hij Hj.
  destruct (buffer_split p i j) as (pre & w & suf & -> & -> & -> & Hw & _ & _); [lia..|].
  rewrite <- Hw. clear Hw.
  destruct (porterStem_eq pre suf w s0) as (junk & j' & -> & H1 & Hn); [lia|].
  do 2 eexists. split; [done|]. cbn [s_b word_state].
  rewrite slice_app by (done || lia).
  replace (Z.to_nat (zlen pre + zlen w - 1 + 1)) with (length (pre ++ w)) by (unfold zlen; rewrite length_app; lia).
  split_and!; [done|lia|zl|zl| |].
  - by rewrite to_nat_zlen, !take_app_length.
  - rewrite (app_assoc pre w), drop_app_length, !app_assoc.
    replace (length (pre ++ w)) with (length ((pre ++ stem_spec w) ++ junk)); [apply drop_app_length|].
    rewrite !length_app. unfold zlen in Hn. lia.
Qed.

Lemma porterStem_correct_witness :
  exists k s, porterStem (str "..relational..") 2 11 (mkStem [] 0 0 0) = Done (k, s) /\
    slice 2 (k - 2 + 1) (s_b s) = stem_spec (slice 2 (11 - 2 + 1) (str "..relational..")) /\
    2 <= k <= 11 /\
    zlen (s_b s) = zlen (str "..relational..") /\
    take (Z.to_nat 2) (s_b s) = take (Z.to_nat 2) (str "..relational..") /\
    drop (Z.to_nat (11 + 1)) (s_b s) = drop (Z.to_nat (11 + 1)) (str "..relational..").
Proof. apply (porterStem_correct (str "..relational..") 2 11 (mkStem [] 0 0 0)); vm_compute; congruence. Defined.

(** C34: [m()] returns the number of vowel-consonant sequences of the letters
    from [s_k0] to [s_j], where y counts as a vowel after a consonant, and
    changes no static. *)
Theorem m_measure (s : stem_state) :
  0 <= s_k0 s -> s_k0 s <= s_j s + 1 -> s_j s < zlen (s_b s) ->
  m s = Done (measure (slice (s_k0 s) (s_j s - s_k0 s + 1) (s_b s)), s).
Proof.
  intros H1 H2 H3.
  destruct (buffer_split (s_b s) (s_k0 s) (s_j s)) as (pre & w & suf & Hb & Hk & Hj & Hw & _ & _); [done..|].
  rewrite <- Hw. by apply (m_eq s pre w suf).
Qed.

Lemma m_measure_witness :
  m (mkStem (str "oaten") 4 0 4) = Done (2, mkStem (str "oaten") 4 0 4).
Proof. apply (m_measure (mkStem (str "oaten") 4 0 4)); vm_compute; congruence. Defined.

(** A word of lower-case letters is stemmed to a word of lower-case letters. *)
Theorem porterStem_lower (p : list Z) (i j k : Z) (s0 s : stem_state) :
  0 <= i -> i <= j -> j < zlen p -> Forall lower (slice i (j - i + 1) p) ->
  porterStem p i j s0 = Done (k, s) -> Forall lower (slice i (k - i + 1) (s_b s)).
Proof.
  intros Hi Hij Hj Hl Hrun.
  destruct (buffer_split p i j) as (pre & w & suf & -> & -> & -> & Hw & _ & _); [lia..|].
  rewrite <- Hw in Hl.
  destruct (porterStem_eq pre suf w s0) as (junk & j' & E & H1 & Hn); [lia|].
  rewrite E in Hrun. injection Hrun as <- <-. cbn [s_b word_state].
  rewrite slice_app by (done || lia). by apply lower_stem_spec.
Qed.

Lemma porterStem_lower_witness : Forall lower (slice 0 (6 - 0 + 1) (str "happili")).
Proof.
  apply (porterStem_lower (str "happily") 0 6 6 (mkStem [] 0 0 0) (mkStem (str "happili") 6 0 6)).
  - vm_compute; congruence.
  - vm_compute; congruence.
  - vm_compute; congruence.
  - vm_compute. repeat constructor; congruence.
  - vm_compute. reflexivity.
Defined.

(** The word left by [step1ab] when it is run on the word [x] alone. *)
Definition run_step1ab (x : string) : option (list Z) :=
  match step1ab (mkStem (str x) (zlen (str x) - 1) 0 0) with
  | Done (_, s) => Some (slice (s_k0 s) (s_k s - s_k0 s + 1) (s_b s))
  | Stuck _ => None
  end.

(** [step1ab] turns each word of its comment into the word the comment
    gives for it. *)
Theorem step1ab_documented :
  map run_step1ab
    ["caresses"; "ponies"; "ties"; "caress"; "cats"; "feed"; "agreed"; "disabled";
     "matting"; "mating"; "meeting"; "milling"; "messing"; "meetings"]%string =
  map (Some ∘ str)
    ["caress"; "poni"; "ti"; "caress"; "cat"; "feed"; "agree"; "disable";
     "mat"; "mate"; "meet"; "mill"; "mess"; "meet"]%string.
Proof. vm_compute. reflexivity. Qed.
