(* ===== verification/Backup.v ===== *)
(** * The backup writer: mm_backup.c

    [mm_backup_run] reads the tables of a database and writes them as a stream of
    tagged items, which a second thread compresses, encrypts and writes to the file.
    The two threads share [mm_backup_ctx]: the producer fills the buffer [p_buf] points
    to, the writing thread takes it, makes the other one current and works on the first
    without the lock.

    A state holds the shared context, where the writing thread is, and a schedule.  At
    each point where the producer can be overtaken (taking the lock, waiting on the
    condition, reading the [canceled] flag) it takes the next entry of the schedule and
    runs the events in it: steps of the writing thread and cancellations by the user.
    Every interleaving at that granularity is some schedule.  Signals wake a waiting
    thread at some later point of the schedule and are not steps of their own; a wait
    the schedule never ends is the fault [Blocked].

    SQLite is a parameter ([SqliteRead]): what each query yields.  Log messages are not
    modelled. *)

From S2P Require Import Prelude CLib Streams.

(** ** Constants (mm_backup.h) *)

Definition MMBAK_RET_FAILED : Z := -1.
Definition MMBAK_RET_OK : Z := 0.
Definition MMBAK_RET_CANCELED : Z := 1.

Definition MMBAK_FLAG_NO_CIPHER : Z := 1.
Definition MMBAK_FLAG_NO_COMPRESS : Z := 2.
Definition MMBAK_FLAG_FIX_CORRUPTION : Z := 4.
Definition MMBAK_FLAG_NO_CREATE_TABLE : Z := 8.
Definition MMBAK_FLAG_INCREMENTAL : Z := 16.

Definition MMBAK_TAG_LARGE_DATA : Z := 128.
Definition MMBAK_TAG_SQL_ONESHOT : Z := 129.
Definition MMBAK_TAG_SQL_REPEATED : Z := 130.
Definition MMBAK_TAG_END_ROW : Z := 131.
Definition MMBAK_TAG_END_SQL : Z := 132.

Definition MMBAK_TAG_BIND_NULL : Z := 0.
Definition MMBAK_TAG_BIND_VARINT : Z := 1.
Definition MMBAK_TAG_BIND_VARINT_MINUS : Z := 2.
Definition MMBAK_TAG_BIND_FLOAT : Z := 3.
Definition MMBAK_TAG_BIND_TEXT : Z := 4.
Definition MMBAK_TAG_BIND_TEXT_SHORT : Z := 5.
Definition MMBAK_TAG_BIND_BLOB : Z := 6.
Definition MMBAK_TAG_BIND_BLOB_SHORT : Z := 7.

Definition MMBAK_MAGIC : list Z := 0 :: str "dBbAk".
Definition MMBAK_VERSION : Z := 2.

Definition INPUT_BUFFER_SIZE : Z := 8192.
Definition OUTPUT_BUFFER_SIZE : Z := 8192.

(** Return codes of SQLite the file tests or returns. *)
Definition SQLITE_OK : Z := 0.
Definition SQLITE_ERROR : Z := 1.
Definition SQLITE_INTERNAL : Z := 2.
Definition SQLITE_ABORT : Z := 4.
Definition SQLITE_CORRUPT : Z := 11.
Definition SQLITE_ROW : Z := 100.

Definition has_flag (flags f : Z) : bool := negb (Z.land flags f =? 0).

(** ** SQLite, read side *)

(** A column of a result row: its type and the value read through the accessor of the type;
    a [double] is its eight bytes.  [SV_Other] is a type code the program does not know. *)
Inductive sqlite_value :=
| SV_Integer (v : Z)
| SV_Float (bits : list Z)
| SV_Text (bytes : list Z)
| SV_Blob (bytes : list Z)
| SV_Null
| SV_Other (type : Z).

(** A statement from [sqlite3_prepare_v2] to [sqlite3_finalize]: the code of the first, the
    rows [sqlite3_step] gives, the code of the last, which reports how stepping ended. *)
Record stmt_result := StmtResult {
  prepare_rc : Z;
  stmt_rows : list (list sqlite_value);
  finalize_rc : Z
}.

Class SqliteRead := {
  sqlite3_query : list Z -> stmt_result;
  (** [sqlite3_exec] with a callback: the rows as text, and the code when all were taken *)
  sqlite3_exec_rows : list Z -> list (list (option (list Z))) * Z;
  sqlite3_exec_rc : list Z -> Z;
  sqlite3_strglob : list Z -> list Z -> Z;
  (** the [%q] of [sqlite3_mprintf] *)
  mprintf_q : list Z -> list Z
}.

(** ** The context *)

Record mm_backup_tabdesc := Tabdesc { td_table : list Z; td_condition : option (list Z) }.

Record mm_backup_buffer := Buffer { avail : Z; data : list Z }.

Section backup.
Context `{Zl : Zlib} `{Rc : Rc4} `{Sq : SqliteRead}.

Record mm_backup_ctx := Ctx {
  zst : dstate;  (* deflate state inside zstrm *)
  next_in : bool * Z;  (* zstrm.next_in: which buffer, and the offset in it *)
  avail_in : Z;  (* zstrm.avail_in *)
  avail_out : Z;  (* zstrm.avail_out *)
  key : rc4_key;  (* rc4_key *)
  fp : FILE;
  flags : Z;
  stmt_count : Z;
  sec_size : Z;
  sec_pos : Z;
  tabdesc : option (list mm_backup_tabdesc);  (* with num_tabdesc *)
  canceled : bool;
  writable_schema : bool;
  in_finish : bool;
  in_avail : bool;
  in_full : bool;
  write_error : bool;
  p_buf : bool;  (* false: &buffer[0], true: &buffer[1] *)
  buffer0 : mm_backup_buffer;
  buffer1 : mm_backup_buffer
}.

Definition set_zst (v : dstate) (c : mm_backup_ctx) : mm_backup_ctx :=
  Ctx v (next_in c) (avail_in c) (avail_out c) (key c) (fp c) (flags c) (stmt_count c)
    (sec_size c) (sec_pos c) (tabdesc c) (canceled c) (writable_schema c) (in_finish c)
    (in_avail c) (in_full c) (write_error c) (p_buf c) (buffer0 c) (buffer1 c).
Definition set_next_in (v : bool * Z) (c : mm_backup_ctx) : mm_backup_ctx :=
  Ctx (zst c) v (avail_in c) (avail_out c) (key c) (fp c) (flags c) (stmt_count c)
    (sec_size c) (sec_pos c) (tabdesc c) (canceled c) (writable_schema c) (in_finish c)
    (in_avail c) (in_full c) (write_error c) (p_buf c) (buffer0 c) (buffer1 c).
Definition set_avail_in (v : Z) (c : mm_backup_ctx) : mm_backup_ctx :=
  Ctx (zst c) (next_in c) v (avail_out c) (key c) (fp c) (flags c) (stmt_count c)
    (sec_size c) (sec_pos c) (tabdesc c) (canceled c) (writable_schema c) (in_finish c)
    (in_avail c) (in_full c) (write_error c) (p_buf c) (buffer0 c) (buffer1 c).
Definition set_avail_out (v : Z) (c : mm_backup_ctx) : mm_backup_ctx :=
  Ctx (zst c) (next_in c) (avail_in c) v (key c) (fp c) (flags c) (stmt_count c)
    (sec_size c) (sec_pos c) (tabdesc c) (canceled c) (writable_schema c) (in_finish c)
    (in_avail c) (in_full c) (write_error c) (p_buf c) (buffer0 c) (buffer1 c).
Definition set_key (v : rc4_key) (c : mm_backup_ctx) : mm_backup_ctx :=
  Ctx (zst c) (next_in c) (avail_in c) (avail_out c) v (fp c) (flags c) (stmt_count c)
    (sec_size c) (sec_pos c) (tabdesc c) (canceled c) (writable_schema c) (in_finish c)
    (in_avail c) (in_full c) (write_error c) (p_buf c) (buffer0 c) (buffer1 c).
Definition set_fp (v : FILE) (c : mm_backup_ctx) : mm_backup_ctx :=
  Ctx (zst c) (next_in c) (avail_in c) (avail_out c) (key c) v (flags c) (stmt_count c)
    (sec_size c) (sec_pos c) (tabdesc c) (canceled c) (writable_schema c) (in_finish c)
    (in_avail c) (in_full c) (write_error c) (p_buf c) (buffer0 c) (buffer1 c).
Definition set_stmt_count (v : Z) (c : mm_backup_ctx) : mm_backup_ctx :=
  Ctx (zst c) (next_in c) (avail_in c) (avail_out c) (key c) (fp c) (flags c) v
    (sec_size c) (sec_pos c) (tabdesc c) (canceled c) (writable_schema c) (in_finish c)
    (in_avail c) (in_full c) (write_error c) (p_buf c) (buffer0 c) (buffer1 c).
Definition set_sec_size (v : Z) (c : mm_backup_ctx) : mm_backup_ctx :=
  Ctx (zst c) (next_in c) (avail_in c) (avail_out c) (key c) (fp c) (flags c)
    (stmt_count c) v (sec_pos c) (tabdesc c) (canceled c) (writable_schema c) (in_finish
    c) (in_avail c) (in_full c) (write_error c) (p_buf c) (buffer0 c) (buffer1 c).
Definition set_tabdesc (v : option (list mm_backup_tabdesc)) (c : mm_backup_ctx) : mm_backup_ctx :=
  Ctx (zst c) (next_in c) (avail_in c) (avail_out c) (key c) (fp c) (flags c)
    (stmt_count c) (sec_size c) (sec_pos c) v (canceled c) (writable_schema c)
    (in_finish c) (in_avail c) (in_full c) (write_error c) (p_buf c) (buffer0 c)
    (buffer1 c).
Definition set_canceled (v : bool) (c : mm_backup_ctx) : mm_backup_ctx :=
  Ctx (zst c) (next_in c) (avail_in c) (avail_out c) (key c) (fp c) (flags c)
    (stmt_count c) (sec_size c) (sec_pos c) (tabdesc c) v (writable_schema c) (in_finish
    c) (in_avail c) (in_full c) (write_error c) (p_buf c) (buffer0 c) (buffer1 c).
Definition set_writable_schema (v : bool) (c : mm_backup_ctx) : mm_backup_ctx :=
  Ctx (zst c) (next_in c) (avail_in c) (avail_out c) (key c) (fp c) (flags c)
    (stmt_count c) (sec_size c) (sec_pos c) (tabdesc c) (canceled c) v (in_finish c)
    (in_avail c) (in_full c) (write_error c) (p_buf c) (buffer0 c) (buffer1 c).
Definition set_in_finish (v : bool) (c : mm_backup_ctx) : mm_backup_ctx :=
  Ctx (zst c) (next_in c) (avail_in c) (avail_out c) (key c) (fp c) (flags c)
    (stmt_count c) (sec_size c) (sec_pos c) (tabdesc c) (canceled c) (writable_schema c)
    v (in_avail c) (in_full c) (write_error c) (p_buf c) (buffer0 c) (buffer1 c).
Definition set_in_avail (v : bool) (c : mm_backup_ctx) : mm_backup_ctx :=
  Ctx (zst c) (next_in c) (avail_in c) (avail_out c) (key c) (fp c) (flags c)
    (stmt_count c) (sec_size c) (sec_pos c) (tabdesc c) (canceled c) (writable_schema c)
    (in_finish c) v (in_full c) (write_error c) (p_buf c) (buffer0 c) (buffer1 c).
Definition set_in_full (v : bool) (c : mm_backup_ctx) : mm_backup_ctx :=
  Ctx (zst c) (next_in c) (avail_in c) (avail_out c) (key c) (fp c) (flags c)
    (stmt_count c) (sec_size c) (sec_pos c) (tabdesc c) (canceled c) (writable_schema c)
    (in_finish c) (in_avail c) v (write_error c) (p_buf c) (buffer0 c) (buffer1 c).
Definition set_write_error (v : bool) (c : mm_backup_ctx) : mm_backup_ctx :=
  Ctx (zst c) (next_in c) (avail_in c) (avail_out c) (key c) (fp c) (flags c)
    (stmt_count c) (sec_size c) (sec_pos c) (tabdesc c) (canceled c) (writable_schema c)
    (in_finish c) (in_avail c) (in_full c) v (p_buf c) (buffer0 c) (buffer1 c).
Definition set_p_buf (v : bool) (c : mm_backup_ctx) : mm_backup_ctx :=
  Ctx (zst c) (next_in c) (avail_in c) (avail_out c) (key c) (fp c) (flags c)
    (stmt_count c) (sec_size c) (sec_pos c) (tabdesc c) (canceled c) (writable_schema c)
    (in_finish c) (in_avail c) (in_full c) (write_error c) v (buffer0 c) (buffer1 c).
Definition set_buffer0 (v : mm_backup_buffer) (c : mm_backup_ctx) : mm_backup_ctx :=
  Ctx (zst c) (next_in c) (avail_in c) (avail_out c) (key c) (fp c) (flags c)
    (stmt_count c) (sec_size c) (sec_pos c) (tabdesc c) (canceled c) (writable_schema c)
    (in_finish c) (in_avail c) (in_full c) (write_error c) (p_buf c) v (buffer1 c).
Definition set_buffer1 (v : mm_backup_buffer) (c : mm_backup_ctx) : mm_backup_ctx :=
  Ctx (zst c) (next_in c) (avail_in c) (avail_out c) (key c) (fp c) (flags c)
    (stmt_count c) (sec_size c) (sec_pos c) (tabdesc c) (canceled c) (writable_schema c)
    (in_finish c) (in_avail c) (in_full c) (write_error c) (p_buf c) (buffer0 c) v.

(** The current buffer, and the one zlib reads from. *)
Definition buf_at (i : bool) (c : mm_backup_ctx) : mm_backup_buffer :=
  if i then buffer1 c else buffer0 c.
Definition set_buf_at (i : bool) (b : mm_backup_buffer) (c : mm_backup_ctx) : mm_backup_ctx :=
  if i then set_buffer1 b c else set_buffer0 b c.

(** Where the writing thread is: before the lock, after it, in the loop around [deflate],
    on the way to report an error, gone. *)
Inductive writer_pc :=
| WLock
| WUnlocked (finish : bool)
| WDeflate (finish : bool)
| WBail
| WExit.

Inductive event := EvWriter | EvCancel.

Record bstate := BState {
  ctx : mm_backup_ctx;
  thr : writer_pc;
  sched : list (list event)
}.

Definition upd (f : mm_backup_ctx -> mm_backup_ctx) : cm bstate unit :=
  modify (fun s => BState (f (ctx s)) (thr s) (sched s)).
Definition get {A} (f : mm_backup_ctx -> A) : cm bstate A := gets (fun s => f (ctx s)).
Definition set_thr (p : writer_pc) : cm bstate unit :=
  modify (fun s => BState (ctx s) p (sched s)).

(** ** The writing thread *)

(** The block under the lock; when the condition of the wait does not hold the thread waits,
    and is still before the lock. *)
Definition write_thread_take : cm bstate unit :=
  let! c := get (fun c => c) in
  if negb (in_avail c) && negb (in_finish c) && negb (canceled c) then ret tt
  else
    upd (set_next_in (p_buf c, 0)) ;;;
    upd (set_avail_in (avail (buf_at (p_buf c) c))) ;;;
    let finish := in_finish c in
    let other := negb (p_buf c) in
    upd (set_p_buf other) ;;;
    upd (set_buf_at other (Buffer 0 (data (buf_at other c)))) ;;;
    upd (set_in_avail false) ;;;
    upd (set_in_full false) ;;;
    set_thr (WUnlocked finish).

(** The loop around [fwrite]; [false] is the jump to [bail]. *)
Fixpoint write_out (fuel : nat) (p : list Z) : cm bstate bool :=
  match p with
  | [] => ret true
  | _ :: _ =>
    match fuel with
    | O => fail OutOfFuel
    | S fuel =>
      let! f := get fp in
      let '(n, f') := fwrite f p in
      upd (set_fp f') ;;;
      if (n =? 0) && f_err f' then ret false
      else
        let! sz := get sec_size in
        upd (set_sec_size (u32 (sz + n))) ;;;
        write_out fuel (drop (Z.to_nat n) p)
    end
  end.

(** After the loop around [deflate]. *)
Definition write_thread_after (rc : Z) : cm bstate unit :=
  let! rest_in := get avail_in in
  if negb (rest_in =? 0) then set_thr WBail
  else if rc =? Z_STREAM_END then set_thr WExit
  else set_thr WLock.

(** One turn of the loop around [deflate].  The input is read from the buffer it lies in at
    the time of the call. *)
Definition write_thread_deflate (finish : bool) : cm bstate unit :=
  let! c := get (fun c => c) in
  let '(b, off) := next_in c in
  let! inp := lift_res (zread_n (data (buf_at b c)) off (avail_in c)) in
  let r := deflate (zst c) inp OUTPUT_BUFFER_SIZE finish in
  upd (set_zst (zc_state r)) ;;;
  upd (set_next_in (b, off + zc_used r)) ;;;
  upd (set_avail_in (avail_in c - zc_used r)) ;;;
  upd (set_avail_out (OUTPUT_BUFFER_SIZE - zlen (zc_out r))) ;;;
  if zc_ret r =? Z_BUF_ERROR then write_thread_after (zc_ret r)
  else if negb (zc_ret r =? Z_OK) && negb (zc_ret r =? Z_STREAM_END) then set_thr WBail
  else
    let! out_buf :=
      (if Z.land (flags c) MMBAK_FLAG_NO_CIPHER =? 0 then
         let! k := get key in
         let '(o, k') := rc4 k (zc_out r) in
         upd (set_key k') ;;; ret o
       else ret (zc_out r)) in
    let! ok := write_out (length out_buf) out_buf in
    if negb ok then set_thr WBail
    else
      let! room := get avail_out in
      if (room =? 0) && negb (zc_ret r =? Z_STREAM_END) then set_thr (WDeflate finish)
      else write_thread_after (zc_ret r).

(** The next atomic block of the thread. *)
Definition write_thread_entry : cm bstate unit :=
  let! p := gets thr in
  match p with
  | WLock => write_thread_take
  | WUnlocked finish =>
    let! c := get canceled in
    if c then set_thr WExit else set_thr (WDeflate finish)
  | WDeflate finish => write_thread_deflate finish
  | WBail => upd (set_write_error true) ;;; set_thr WExit
  | WExit => ret tt
  end.

(** ** Interleaving *)

Definition mm_backup_cancel : cm bstate unit := upd (set_canceled true).

Definition do_event (e : event) : cm bstate unit :=
  match e with EvWriter => write_thread_entry | EvCancel => mm_backup_cancel end.

Fixpoint do_events (es : list event) : cm bstate unit :=
  match es with [] => ret tt | e :: es => do_event e ;;; do_events es end.

(** The other threads run before the producer goes on. *)
Definition preempt : cm bstate unit :=
  let! sc := gets sched in
  match sc with
  | [] => ret tt
  | es :: rest =>
    modify (fun s => BState (ctx s) (thr s) rest) ;;; do_events es
  end.

(** [pthread_cond_wait]: the same, but the producer cannot go on by itself. *)
Definition cond_wait : cm bstate unit :=
  let! sc := gets sched in
  match sc with
  | [] => fail Blocked
  | es :: rest =>
    modify (fun s => BState (ctx s) (thr s) rest) ;;; do_events es
  end.

Definition pthread_mutex_lock : cm bstate unit := preempt.

(** ** The producer *)

Fixpoint wait_not_full (n : nat) : cm bstate unit :=
  let! c := get (fun c => c) in
  if in_full c && negb (canceled c) && negb (write_error c) then
    match n with
    | O => fail Blocked
    | S n => cond_wait ;;; wait_not_full n
    end
  else ret tt.

Fixpoint write_stream_loop (fuel : nat) (p_data : list Z) : cm bstate Z :=
  match p_data with
  | [] => ret 0
  | _ :: _ =>
    match fuel with
    | O => fail OutOfFuel
    | S fuel =>
      let! sc := gets sched in
      wait_not_full (length sc) ;;;
      let! c := get (fun c => c) in
      if write_error c then ret (-1)
      else
        let i := p_buf c in
        let b := buf_at i c in
        let size := zlen p_data in
        let size_to_write :=
          if INPUT_BUFFER_SIZE <? u32 (avail b + size)
          then u32 (INPUT_BUFFER_SIZE - avail b) else size in
        let! d := lift_res (zwrite_n (data b) (avail b) (take (Z.to_nat size_to_write) p_data)) in
        let avail' := u32 (avail b + size_to_write) in
        upd (set_buf_at i (Buffer avail' d)) ;;;
        upd (set_in_avail (INPUT_BUFFER_SIZE / 4 <? avail')) ;;;
        upd (set_in_full (avail' =? INPUT_BUFFER_SIZE)) ;;;
        write_stream_loop fuel (drop (Z.to_nat size_to_write) p_data)
    end
  end.

(** Each turn of the loop that does not return moves a byte unless the backup is canceled
    while the buffer is full; [length data] turns are enough otherwise. *)
Definition dump_write_stream (data : list Z) : cm bstate Z :=
  pthread_mutex_lock ;;;
  write_stream_loop (length data) data.

Definition dump_write_end : cm bstate Z :=
  pthread_mutex_lock ;;;
  upd (set_in_finish true) ;;;
  let! e := get write_error in
  if e then ret (-1) else ret 0.

(** ** Items *)

Definition dump_write_byte (v : Z) : cm bstate Z := dump_write_stream [u8 v].
Definition dump_write_short (v : Z) : cm bstate Z := dump_write_stream (le_bytes 2 (u16 v)).
Definition dump_write_byte_byte (b1 b2 : Z) : cm bstate Z := dump_write_stream [u8 b1; u8 b2].
Definition dump_write_byte_short (b s : Z) : cm bstate Z :=
  let s1 := u16 s in
  dump_write_stream [u8 b; u8 (Z.land s1 255); u8 (Z.land (Z.shiftr s1 8) 255)].

(** The loop of [dump_write_varint]; [buf] is the part of [buf[12]] written so far. *)
Fixpoint varint_loop (fuel : nat) (val : Z) (buf : list Z) : res (list Z) :=
  match fuel with
  | O => Stuck OutOfFuel
  | S fuel =>
    let b := u8 (Z.land val 127) in
    let val := Z.shiftr val 7 in
    let b := if negb (val =? 0) then Z.lor b 128 else b in
    if zlen buf <? 12 then
      let buf := buf ++ [b] in
      if negb (val =? 0) then varint_loop fuel val buf else Done buf
    else Stuck OutOfBounds
  end.

Definition dump_write_varint (val : Z) : cm bstate Z :=
  let '(tag, val) :=
    if val <? 0 then (MMBAK_TAG_BIND_VARINT_MINUS, Z.lnot val)
    else (MMBAK_TAG_BIND_VARINT, val) in
  let! buf := lift_res (varint_loop 12 val [tag]) in
  dump_write_stream buf.

(** [data] is the object [data] points to; a negative [size] asks for its [strlen]. *)
Definition dump_write_blob (tag : Z) (data : list Z) (size : Z) : cm bstate Z :=
  let! size := lift_res (if size <? 0 then strlen data else Done size) in
  let! (ret1, off, size) :=
    (if 65536 <=? size then
       let ext_size := Z.land size 4294901760 in
       let blocks := u16 (Z.shiftr ext_size 16) in
       let! r1 := dump_write_byte MMBAK_TAG_LARGE_DATA in
       let! r2 := dump_write_short blocks in
       let! p := lift_res (zread_n data 0 ext_size) in
       let! r3 := dump_write_stream p in
       ret (Z.lor (Z.lor r1 r2) r3, ext_size, size - ext_size)
     else ret (0, 0, size)) in
  if negb (ret1 =? 0) then ret (-1)
  else
    let! r4 :=
      (if (size <? 256) && ((tag =? MMBAK_TAG_BIND_TEXT) || (tag =? MMBAK_TAG_BIND_BLOB))
       then dump_write_byte_byte (tag + 1) (u8 size)
       else dump_write_byte_short tag (u16 size)) in
    let! p := lift_res (zread_n data off size) in
    let! r5 := dump_write_stream p in
    if negb (Z.lor r4 r5 =? 0) then ret (-1) else ret 0.

(** ** Tables *)

Definition dq : list Z := [34].

(** One column of a row. [None]: the type is unknown. *)
Definition dump_column (v : sqlite_value) : option (cm bstate Z) :=
  match v with
  | SV_Integer z => Some (dump_write_varint z)
  | SV_Float bits =>
    Some (let! r1 := dump_write_byte MMBAK_TAG_BIND_FLOAT in
          let! r2 := dump_write_stream bits in
          ret (Z.lor r1 r2))
  | SV_Text bytes => Some (dump_write_blob MMBAK_TAG_BIND_TEXT bytes (zlen bytes))
  | SV_Blob bytes => Some (dump_write_blob MMBAK_TAG_BIND_BLOB bytes (zlen bytes))
  | SV_Null => Some (dump_write_byte MMBAK_TAG_BIND_NULL)
  | SV_Other _ => None
  end.

(** The loop over the columns [i .. i + n - 1]; a column outside the row is NULL.  The result
    is the code to leave with, or nothing, and the number of columns written.  The counter
    [row_count] is an int in C, which 2^31 columns would take out of its range; here it is not
    bounded.  It is only used for the log message and to see whether a row was written. *)
Fixpoint dump_columns (n i : nat) (row : list sqlite_value) (row_count : Z)
  : cm bstate (option Z * Z) :=
  match n with
  | O => ret (None, row_count)
  | S n =>
    match dump_column (default SV_Null (row !! i)) with
    | None => ret (Some SQLITE_INTERNAL, row_count)
    | Some c =>
      let! r := c in
      if negb (r =? 0) then ret (Some SQLITE_ERROR, row_count)
      else dump_columns n (S i) row (row_count + 1)
    end
  end.

Fixpoint dump_row_loop (num_columns : nat) (rows : list (list sqlite_value)) (row_count : Z)
  : cm bstate (option Z * Z) :=
  match rows with
  | [] => ret (None, row_count)
  | row :: rows =>
    preempt ;;;
    let! c := get canceled in
    if c then ret (Some SQLITE_ABORT, row_count)
    else
      let! (e, row_count) := dump_columns num_columns 0 row row_count in
      match e with
      | Some rc => ret (Some rc, row_count)
      | None =>
        let! r := dump_write_byte MMBAK_TAG_END_ROW in
        if negb (r =? 0) then ret (Some SQLITE_ERROR, row_count)
        else
          let! n := get stmt_count in
          upd (set_stmt_count (u32 (n + 1))) ;;;
          dump_row_loop num_columns rows row_count
      end
  end.

(** The text of the INSERT statement, built in [sql_buf]. *)
Fixpoint add_marks (n : nat) (sql_buf : list Z) (sql_len : Z) : res (list Z * Z) :=
  match n with
  | O => Done (sql_buf, sql_len)
  | S n =>
    let? (sql_buf, k) := strlcpy sql_buf sql_len (str "?,") in
    add_marks n sql_buf (sql_len + k)
  end.

Definition insert_sql (sql_buf : list Z) (table : list Z) (num_columns : nat)
  : res (list Z * Z) :=
  let? (sql_buf, sql_len) :=
    snprintf sql_buf (str "REPLACE INTO " ++ dq ++ table ++ dq ++ str " VALUES(") in
  let? (sql_buf, sql_len) := add_marks num_columns sql_buf sql_len in
  let sql_len := sql_len - 1 in
  let? (sql_buf, k) := strlcpy sql_buf sql_len (str ");") in
  Done (sql_buf, sql_len + k).

(** The SQL [sqlite3_prepare_v2] sees in [sql_buf]. *)
Definition select_sql (table : list Z) (condition : option (list Z)) (reverse : bool) : list Z :=
  match condition with
  | Some cond => str "SELECT * FROM " ++ dq ++ table ++ dq ++ str " WHERE " ++ cond ++ str ";"
  | None => str "SELECT * FROM " ++ dq ++ table ++ dq ++
            (if reverse then str " ORDER BY rowid DESC" else []) ++ str ";"
  end.

Definition dump_rows (table : list Z) (condition : option (list Z)) (reverse : bool)
  : cm bstate Z :=
  let sql_buf := zeros 8192 in
  let! (sql_buf, _) :=
    lift_res (snprintf sql_buf (str "PRAGMA table_info(" ++ dq ++ table ++ dq ++ str ")")) in
  let info := sqlite3_query (cstr sql_buf) in
  if negb (prepare_rc info =? SQLITE_OK) then ret (prepare_rc info)
  else
    let num_columns := length (stmt_rows info) in
    if negb (finalize_rc info =? SQLITE_OK) then ret (finalize_rc info)
    else if (num_columns =? 0)%nat then ret SQLITE_OK
    else
      let! (sql_buf, _) := lift_res (snprintf sql_buf (select_sql table condition reverse)) in
      let stmt := sqlite3_query (cstr sql_buf) in
      if negb (prepare_rc stmt =? SQLITE_OK) then ret (prepare_rc stmt)
      else
        let! r :=
          match stmt_rows stmt with
          | [] => ret 0
          | _ :: _ =>
            let! (sql_buf, sql_len) := lift_res (insert_sql sql_buf table num_columns) in
            dump_write_blob MMBAK_TAG_SQL_REPEATED sql_buf sql_len
          end in
        if negb (r =? 0) then ret SQLITE_ERROR
        else
          let! (e, row_count) := dump_row_loop num_columns (stmt_rows stmt) 0 in
          match e with
          | Some rc => ret rc
          | None =>
            let! r :=
              (if 0 <? row_count then dump_write_byte MMBAK_TAG_END_SQL else ret 0) in
            if negb (r =? 0) then ret SQLITE_ERROR else ret (finalize_rc stmt)
          end.

(** ** The schema *)

Definition compar_table_tabdesc (key : list Z) (value : mm_backup_tabdesc) : Z :=
  strcmp key (td_table value).

Definition string_literal (s : string) : list Z := str s.

Definition values_at (values : list (option (list Z))) (i : nat) : res (list Z) :=
  match values !! i with Some (Some v) => Done v | _ => Stuck NullDeref end.

(** [INSERT INTO sqlite_master ...] for a virtual table. *)
Definition vt_sql (table sql : list Z) : list Z :=
  str "INSERT INTO sqlite_master(type,name,tbl_name,rootpage,sql)VALUES('table','" ++
  mprintf_q table ++ str "','" ++ mprintf_q table ++ str "',0,'" ++ mprintf_q sql ++ str "');".

Definition literal_oneshot (s : string) : cm bstate Z :=
  dump_write_blob MMBAK_TAG_SQL_ONESHOT (string_literal s) (zlen (string_literal s)).

(** System tables: [Some r] is an early return. *)
Definition dump_system_table (table : list Z) : cm bstate (option Z) :=
  if strcmp table (str "sqlite_sequence") =? 0 then
    let! r := literal_oneshot "DELETE FROM sqlite_sequence;" in
    ret (if negb (r =? 0) then Some (-1) else None)
  else if sqlite3_strglob (str "sqlite_stat?") table =? 0 then
    let! r := literal_oneshot "ANALYZE sqlite_master;" in
    ret (if negb (r =? 0) then Some (-1) else None)
  else if strncmp table (str "sqlite_") 7 =? 0 then ret (Some 0)
  else ret None.

Definition dump_virtual_table (table sql : list Z) : cm bstate Z :=
  let! c := get (fun c => c) in
  if has_flag (flags c) MMBAK_FLAG_NO_CREATE_TABLE then ret 0
  else
    let! r :=
      (if writable_schema c then ret 0
       else
         let! r := literal_oneshot "PRAGMA writable_schema=ON;" in
         if negb (r =? 0) then ret (-1)
         else upd (set_writable_schema true) ;;; ret 0) in
    if negb (r =? 0) then ret (-1)
    else
      let! r := dump_write_blob MMBAK_TAG_SQL_ONESHOT (vt_sql table sql ++ [0]) (-1) in
      if negb (r =? 0) then ret (-1) else ret 0.

Definition dump_table_rows (table : list Z) (condition : option (list Z)) : cm bstate Z :=
  let! f := get flags in
  let! r := dump_rows table condition false in
  let! r :=
    (if (r =? SQLITE_CORRUPT) && bool_decide (condition = None) &&
        has_flag f MMBAK_FLAG_FIX_CORRUPTION then
       let! r := dump_rows table condition true in
       ret (if r =? SQLITE_CORRUPT then SQLITE_OK else r)
     else ret r) in
  if negb (r =? SQLITE_OK) then ret (-1) else ret 0.

Definition dump_callback (values : list (option (list Z))) : cm bstate Z :=
  let! table := lift_res (values_at values 0) in
  let! type := lift_res (values_at values 1) in
  let! sql := lift_res (values_at values 2) in
  preempt ;;;
  let! c := get canceled in
  if c then ret (-1)
  else
    let! early := dump_system_table table in
    match early with
    | Some r => ret r
    | None =>
      let! td := get tabdesc in
      match (match td with
             | None => Some None
             | Some descs =>
               match bsearch td_table table descs with
               | None => None
               | Some desc => Some (td_condition desc)
               end
             end) with
      | None => ret 0
      | Some table_condition =>
        if strncmp sql (str "CREATE VIRTUAL TABLE") 20 =? 0 then dump_virtual_table table sql
        else
          let! f := get flags in
          let! r :=
            (if has_flag f MMBAK_FLAG_NO_CREATE_TABLE then ret 0
             else dump_write_blob MMBAK_TAG_SQL_ONESHOT (sql ++ [0]) (-1)) in
          if negb (r =? 0) then ret (-1)
          else if strcmp type (str "table") =? 0 then dump_table_rows table table_condition
          else ret 0
      end
    end.

(** [sqlite3_exec] with [dump_callback]: a callback that returns non-zero ends it with
    [SQLITE_ABORT]. *)
Fixpoint exec_callbacks (rows : list (list (option (list Z)))) (rc : Z) : cm bstate Z :=
  match rows with
  | [] => ret rc
  | row :: rows =>
    let! r := dump_callback row in
    if negb (r =? 0) then ret SQLITE_ABORT else exec_callbacks rows rc
  end.

Definition sqlite3_exec_dump (sql : list Z) : cm bstate Z :=
  let '(rows, rc) := sqlite3_exec_rows sql in exec_callbacks rows rc.

(** [malloc_ok]: whether the buffer for the reversed query could be allocated. *)
Definition run_schema_dump_query (malloc_ok : bool) (query_sql : list Z) : cm bstate Z :=
  preempt ;;;
  let! c := get canceled in
  if c then ret MMBAK_RET_CANCELED
  else
    let! rc := sqlite3_exec_dump query_sql in
    if rc =? SQLITE_ABORT then
      preempt ;;;
      let! c := get canceled in
      ret (if c then MMBAK_RET_CANCELED else MMBAK_RET_FAILED)
    else
      let! f := get flags in
      if (rc =? SQLITE_CORRUPT) && has_flag f MMBAK_FLAG_FIX_CORRUPTION then
        if negb malloc_ok then ret rc
        else
          let! rc := sqlite3_exec_dump (query_sql ++ str " ORDER BY rowid DESC") in
          ret (if rc =? SQLITE_OK then MMBAK_RET_OK else MMBAK_RET_FAILED)
      else ret (if rc =? SQLITE_OK then MMBAK_RET_OK else MMBAK_RET_FAILED).

(** ** Entry points *)

Definition compar_tabdesc (a b : mm_backup_tabdesc) : Z := strcmp (td_table a) (td_table b).

Definition header_bytes (version : Z) : list Z := MMBAK_MAGIC ++ le_bytes 2 version.
Definition section_bytes (flags sec_size : Z) : list Z := le_bytes 4 flags ++ le_bytes 4 sec_size.

(** What the operating system answers to the calls of the entry points. *)
Record os_answers := OsAnswers {
  malloc_ctx : bool;
  malloc_desc : bool;
  malloc_query : bool;
  fopen_result : option FILE;
  fseek_rc : Z;
  pthread_create_rc : Z
}.

Definition init_ctx (z : dstate) (k : rc4_key) (f : FILE) (flags : Z) : mm_backup_ctx :=
  Ctx z (false, 0) 0 0 k f flags 0 0 (u32 (ftell f)) None true false false false false false
      false (Buffer 0 (zeros 8192)) (Buffer 0 (zeros 8192)).

(** The key schedule of a context whose key was never set. *)
Definition no_key : rc4_key := rc4_set_key [].

(** Opening the output file: checking and passing the header of an existing file, or writing
    the header of a new one. *)
Definition open_output (os : os_answers) (flags : Z) : option FILE :=
  match fopen_result os with
  | None => None
  | Some f =>
    if has_flag flags MMBAK_FLAG_INCREMENTAL then
      let '(h, f) := fread1 f 8 in
      match h with
      | None => None
      | Some h =>
        if negb (bool_decide (take 6 h = MMBAK_MAGIC)) ||
           negb (le_val (drop 6 h) =? MMBAK_VERSION) then None
        else if negb (fseek_rc os =? 0) then None
        else Some (fseek_to f (zlen (f_data f)))
      end
    else
      let '(n, f) := fwrite1 f (header_bytes MMBAK_VERSION) in
      if n <? 1 then None else Some f
  end.

Definition mm_backup_init (os : os_answers) (k : option (list Z)) (flags : Z)
  : option mm_backup_ctx :=
  if negb (malloc_ctx os) then None
  else
    let compress_level := if has_flag flags MMBAK_FLAG_NO_COMPRESS then 0 else -1 in
    match deflateInit compress_level with
    | None => None
    | Some z =>
      let '(rk, flags) :=
        match k with
        | Some (b :: bs) => (rc4_set_key (b :: bs), flags)
        | _ => (no_key, Z.lor flags MMBAK_FLAG_NO_CIPHER)
        end in
      match open_output os flags with
      | None => None
      | Some f => Some (init_ctx z rk f flags)
      end
    end.

(** The sorted copy of the table descriptors, an empty condition meaning none. *)
Definition adjust_desc (d : mm_backup_tabdesc) : mm_backup_tabdesc :=
  match td_condition d with
  | Some [] => Tabdesc (td_table d) None
  | _ => d
  end.

Definition sorted_tabdesc (desc : list mm_backup_tabdesc) : option (list mm_backup_tabdesc) :=
  match desc with
  | [] => None
  | _ :: _ => Some (map adjust_desc (qsort td_table desc))
  end.

(** [pthread_join]: the schedule runs until the thread is gone. *)
Fixpoint join_loop (n : nat) : cm bstate unit :=
  let! p := gets thr in
  match p with
  | WExit => ret tt
  | _ => match n with
         | O => fail Blocked
         | S n => cond_wait ;;; join_loop n
         end
  end.

Definition pthread_join : cm bstate unit :=
  let! sc := gets sched in join_loop (length sc).

Definition query_tables : list Z :=
  str "SELECT name, type, sql FROM sqlite_master WHERE sql NOT NULL AND type=='table' AND name!='sqlite_sequence'".
Definition query_sequence : list Z :=
  str "SELECT name, type, sql FROM sqlite_master WHERE name=='sqlite_sequence'".
Definition query_others : list Z :=
  str "SELECT name, type, sql FROM sqlite_master WHERE sql NOT NULL AND type IN ('index','trigger','view')".

(** The three passes over the schema; the first code that is not [MMBAK_RET_OK] ends them. *)
Fixpoint run_queries (malloc_ok : bool) (qs : list (list Z)) : cm bstate Z :=
  match qs with
  | [] => ret MMBAK_RET_OK
  | q :: qs =>
    let! r := run_schema_dump_query malloc_ok q in
    if negb (r =? MMBAK_RET_OK) then ret r else run_queries malloc_ok qs
  end.

(** The label [bail] of [mm_backup_run]: the thread is left to itself. *)
Definition run_bail (rc : Z) : cm bstate Z :=
  let! c := get canceled in
  (if c then ret tt else upd (set_canceled true)) ;;; ret rc.

(** From the end of the dump to the section header. *)
Definition run_finish (os : os_answers) (rc : Z) : cm bstate Z :=
  let! w := get writable_schema in
  let! r := (if w then literal_oneshot "PRAGMA writable_schema=OFF;" else ret 0) in
  if negb (r =? 0) then run_bail rc
  else
    let! r := dump_write_end in
    if negb (r =? 0) then run_bail rc
    else
      pthread_join ;;;
      let! c := get (fun c => c) in
      if negb (fseek_rc os =? 0) then run_bail (fseek_rc os)
      else
        let '(n, f) := fwrite1 (fseek_to (fp c) (sec_pos c)) (section_bytes (flags c) (sec_size c)) in
        upd (set_fp f) ;;;
        if n <? 1 then run_bail n
        else upd (set_canceled true) ;;; ret 0.

Definition run_start (desc : list mm_backup_tabdesc) : cm bstate unit :=
  upd (set_tabdesc (sorted_tabdesc desc)) ;;;
  upd (set_canceled false) ;;;
  upd (set_stmt_count 0) ;;;
  upd (set_sec_size 0).

Definition mm_backup_run (os : os_answers) (desc : list mm_backup_tabdesc) : cm bstate Z :=
  if negb (bool_decide (desc = [])) && negb (malloc_desc os) then run_bail MMBAK_RET_FAILED
  else
    run_start desc ;;;
    if negb (pthread_create_rc os =? 0) then run_bail MMBAK_RET_FAILED
    else
      set_thr WLock ;;;
      if negb (sqlite3_exec_rc (str "SAVEPOINT dump; PRAGMA writable_schema=ON;") =? SQLITE_OK)
      then run_bail MMBAK_RET_FAILED
      else
        let! c := get (fun c => c) in
        let '(n, f) := fwrite1 (fp c) (section_bytes (flags c) 0) in
        upd (set_fp f) ;;;
        if n <? 1 then run_bail MMBAK_RET_FAILED
        else
          let! r := run_queries (malloc_query os) [query_tables; query_sequence; query_others] in
          if negb (r =? MMBAK_RET_OK) then run_bail r else run_finish os r.

(** A thread that still runs is told to stop and left to itself, the rest of the context is
    released; what is left is the file. *)
Definition mm_backup_finish (c : mm_backup_ctx) : FILE :=
  let c := if negb (canceled c) then set_canceled true c else c in
  fp c.

Definition mm_backup_statistics (c : mm_backup_ctx) : Z := stmt_count c.
End backup.
