(* ===== verification/BackupChannel.v ===== *)
(** * The two threads of the backup writer

    What the buffers, the flags and the writing thread keep true under every
    interleaving: the thread never reads the buffer the producer fills, and the bytes
    that went into [deflate], those the thread holds and those in the current buffer
    are, in this order, the bytes the producer wrote. *)

From S2P Require Import Prelude CLib Streams Backup.

(** Cases on which buffer is current, with the context taken apart. *)
Ltac by_p_buf c := destruct c as [? ? ? ? ? ? ? ? ? ? ? ? ? ? ? ? ? [] ? ?].

Section channel.
Context `{Zl : Zlib} `{ZL : !ZlibLaws Zl} `{Rc : Rc4} `{RL : !Rc4Laws Rc}.

Abbreviation ctxt := (@mm_backup_ctx Zl Rc).
Abbreviation state := (@bstate Zl Rc).

(** ** The invariant *)

Definition working (p : writer_pc) : bool :=
  match p with WUnlocked _ | WDeflate _ => true | _ => false end.

Definition held (s : state) : list Z :=
  if working (thr s)
  then slice (next_in (ctx s)).2 (avail_in (ctx s)) (data (buf_at (next_in (ctx s)).1 (ctx s)))
  else [].

Definition current (c : ctxt) : mm_backup_buffer := buf_at (p_buf c) c.
Definition pending (c : ctxt) : list Z := take (Z.to_nat (avail (current c))) (data (current c)).

Definition buf_ok (b : mm_backup_buffer) : Prop :=
  zlen (data b) = INPUT_BUFFER_SIZE /\ 0 <= avail b <= INPUT_BUFFER_SIZE.

Definition live (p : writer_pc) : bool := match p with WBail | WExit => false | _ => true end.

(** Buffers, flags, and what the thread needs to go on. *)
Record chan_ok (s : state) : Prop := ChanOk {
  co_buf0 : buf_ok (buffer0 (ctx s));
  co_buf1 : buf_ok (buffer1 (ctx s));
  co_full : in_full (ctx s) = (avail (current (ctx s)) =? INPUT_BUFFER_SIZE);
  co_avail : in_avail (ctx s) = (INPUT_BUFFER_SIZE / 4 <? avail (current (ctx s)));
  co_held : working (thr s) = true ->
            (next_in (ctx s)).1 = negb (p_buf (ctx s)) /\ 0 <= (next_in (ctx s)).2 /\
            0 <= avail_in (ctx s) /\ (next_in (ctx s)).2 + avail_in (ctx s) <= INPUT_BUFFER_SIZE;
  co_live : live (thr s) = true ->
            (exists i o, drep (zst (ctx s)) i o) /\
            f_pos (fp (ctx s)) = zlen (f_data (fp (ctx s))) /\
            exists n, sec_size (ctx s) = u32 n
}.

(** The bytes of the section in the file are the output of [deflate], encrypted from the key
    state [k0]; [base] is what the file held before. *)
Definition encrypted (flags : Z) (k0 : rc4_key) (o : list Z) : list Z * rc4_key :=
  if Z.land flags MMBAK_FLAG_NO_CIPHER =? 0 then rc4 k0 o else (o, k0).

Definition file_ok (base : list Z) (k0 : rc4_key) (c : ctxt) (o : list Z) : Prop :=
  f_data (fp c) = base ++ (encrypted (flags c) k0 o).1 /\
  f_pos (fp c) = zlen (f_data (fp c)) /\
  key c = (encrypted (flags c) k0 o).2 /\
  sec_size c = u32 (zlen o).

(** The section will not be complete. *)
Definition broken (s : state) : Prop :=
  thr s = WBail \/ write_error (ctx s) = true \/ canceled (ctx s) = true.

Definition finishing (p : writer_pc) : bool :=
  match p with WUnlocked f | WDeflate f => f | WExit => true | _ => false end.

(** [p]: all the bytes the producer wrote. *)
Record fifo_ok (base : list Z) (k0 : rc4_key) (s : state) (p i o : list Z) : Prop := FifoOk {
  fo_rep : drep (zst (ctx s)) i o;
  fo_bytes : p = i ++ held s ++ pending (ctx s);
  fo_file : file_ok base k0 (ctx s) o;
  fo_finish : finishing (thr s) = true -> in_finish (ctx s) = true /\ pending (ctx s) = [];
  fo_exit : thr s = WExit -> inflates o p
}.

(** The fields neither [dump_write_stream] nor the writing thread changes. *)
Definition statics (c : ctxt) :=
  (flags c, sec_pos c, tabdesc c, writable_schema c, in_finish c, stmt_count c).

Definition cancel_free (s : state) : Prop :=
  canceled (ctx s) = false /\ Forall (Forall (fun e => e <> EvCancel)) (sched s).

Record inv (nc we : bool) (base : list Z) (k0 : rc4_key) st (p : list Z) (s : state) : Prop := Inv {
  inv_chan : chan_ok s;
  inv_fifo : broken s \/ exists i o, fifo_ok base k0 s p i o;
  inv_statics : statics (ctx s) = st;
  inv_nocancel : nc = true -> cancel_free s;
  inv_error : we = true -> write_error (ctx s) = true
}.

(** The faults left: waiting for a turn the schedule does not give, and, when the user may
    cancel, the loop of [dump_write_stream] that no longer ends. *)
Definition tolerated (nc : bool) (f : fault) : Prop :=
  f = Blocked \/ (nc = false /\ f = OutOfFuel).

(** ** Writing to the file *)

Lemma fwrite_cut f bytes n f' :
  fwrite f bytes = (n, f') -> f_pos f = zlen (f_data f) ->
  0 <= n <= zlen bytes /\
  f_data f' = f_data f ++ take (Z.to_nat n) bytes /\ f_pos f' = zlen (f_data f') /\
  (n < zlen bytes -> f_err f' = true).
Proof.
  unfold fwrite. intros [= <- <-] Hp. simpl.
  assert (Hn : 0 <= f_grant f (zlen bytes) <= zlen bytes)
    by (unfold f_grant; destruct (f_lim f); zlen_pos; lia).
  set (n := f_grant f (zlen bytes)) in *. rewrite Hp, to_nat_zlen.
  rewrite firstn_all, skipn_all2, app_nil_r by lia.
  split; [lia|]. split; [done|]. split.
  - rewrite zlen_app, zlen_take_le by lia. lia.
  - intros. apply orb_true_iff. right. lia.
Qed.

Lemma u32_add a b : u32 (u32 a + b) = u32 (a + b).
Proof. unfold u32. by rewrite Zplus_mod_idemp_l. Qed.

Lemma ctx_eta (s : state) f z :
  f = fp (ctx s) -> z = sec_size (ctx s) ->
  s = BState (set_fp f (set_sec_size z (ctx s))) (thr s) (sched s).
Proof. intros -> ->. by destruct s as [[] ? ?]. Qed.

Lemma write_out_spec fuel p (s : state) n :
  (length p <= fuel)%nat -> f_pos (fp (ctx s)) = zlen (f_data (fp (ctx s))) ->
  sec_size (ctx s) = u32 n ->
  wp (write_out fuel p)
     (fun ok s' => exists f z,
        s' = BState (set_fp f (set_sec_size z (ctx s))) (thr s) (sched s) /\
        (ok = true -> f_data f = f_data (fp (ctx s)) ++ p /\ f_pos f = zlen (f_data f) /\
                      z = u32 (n + zlen p))) s.
Proof.
  revert p s n. induction fuel as [|fuel IH]; intros [|b p] s n Hf Hp Hz; simpl in Hf.
  2: lia.
  1,2: apply wp_ret; exists (fp (ctx s)), (sec_size (ctx s)); split;
       [by apply ctx_eta|]; intros _; rewrite app_nil_r, zlen_nil, Z.add_0_r; auto.
  cbn [write_out]. apply wp_bind_gets. cbn beta.
  destruct (fwrite (fp (ctx s)) (b :: p)) as [m f'] eqn:Ew.
  destruct (fwrite_cut _ _ _ _ Ew Hp) as (Hm & Hd & Hp' & He).
  apply wp_bind_modify. case_match eqn:E.
  - apply wp_ret. exists f', (sec_size (ctx s)). split; [by apply (f_equal (fun c => BState c _ _)); destruct (ctx s)|done].
  - assert (0 < m).
    { destruct (Z.eq_dec m 0) as [->|]; [|lia]. rewrite He in E; [done|]. zl. }
    apply wp_bind_gets, wp_bind_modify.
    eapply wp_mono; [apply (IH _ _ (n + m))|].
    + assert (length (drop (Z.to_nat m) (b :: p)) < S (length p))%nat
        by (rewrite length_drop; simpl; lia). lia.
    + done.
    + simpl. rewrite Hz. apply u32_add.
    + simpl. intros ok s' (f & z & -> & Hok). exists f, z.
      split; [by apply (f_equal (fun c => BState c _ _)); destruct (ctx s)|]. intros ->. destruct Hok as (H1 & H2 & ->); [done|].
      rewrite H1, Hd, <- app_assoc, take_drop. split; [done|]. split; [rewrite H2, H1, Hd, <- app_assoc, take_drop; done|].
      rewrite zlen_drop by lia. f_equal. lia.
Qed.

(** ** Steps of the writing thread *)

Lemma buf_at_ok (s : state) i : chan_ok s -> buf_ok (buf_at i (ctx s)).
Proof. intros [? ? _ _ _ _]. by destruct i. Qed.

(** Moving the thread without touching the context. *)
Lemma chan_move (s : state) p :
  chan_ok s -> (working p = true -> working (thr s) = true) ->
  (live p = true -> live (thr s) = true) ->
  chan_ok (BState (ctx s) p (sched s)).
Proof. intros [] Hw Hl. split; simpl; auto. Qed.

Lemma slice_slice {A} (l : list A) i n k :
  0 <= k <= n -> 0 <= i -> drop (Z.to_nat k) (slice i n l) = slice (i + k) (n - k) l.
Proof.
  intros. unfold slice. rewrite skipn_firstn_comm, drop_drop.
  f_equal; [lia|]. f_equal. lia.
Qed.

Lemma take_inv nc we base k0 st p (s : state) :
  inv nc we base k0 st p s -> thr s = WLock ->
  wp write_thread_take (fun _ s' => inv nc we base k0 st p s' /\ sched s' = sched s) s.
Proof.
  intros [Hc Hf Hs Hn Hwe] Ht. unfold write_thread_take.
  apply wp_bind_gets. case_match eqn:E; [by apply wp_ret; split; [apply (Inv _ _ _ _ _ _ _ Hc Hf Hs Hn Hwe)|]|].
  repeat apply wp_bind_modify. apply wp_modify.
  pose proof (buf_at_ok s (p_buf (ctx s)) Hc) as Hb.
  destruct Hc as [H0 H1 Hfull Hav Hheld Hlive].
  destruct s as [c t sc]; simpl in *. subst t.
  assert (Hcur : current c = buf_at (p_buf c) c) by done.
  set (c' := set_in_full false _).
  assert (Hp' : pending c' = [] /\ current c' = Buffer 0 (data (buf_at (negb (p_buf c)) c)))
    by (subst c'; by_p_buf c; done).
  destruct Hp' as [Hp' Hcur'].
  assert (Hheld' : held (BState c' (WUnlocked (in_finish c)) sc) = pending c).
  { unfold held, pending, current; subst c'. destruct Hb as [Hb1 Hb2].
    by_p_buf c; done. }
  split; [split|done].
  - split; simpl.
    1,2: subst c'; by_p_buf c; simpl in *;
         auto; by split; [apply H0 || apply H1|].
    1,2: rewrite Hcur'; subst c'; by_p_buf c; done.
    + intros _. destruct Hb as [Hb1 Hb2]. subst c'.
      by_p_buf c; simpl in *; auto with lia.
    + intros _. subst c'.
      by_p_buf c; simpl in *; auto.
  - destruct Hf as [[Hbr|[Hbr|Hbr]]|(i & o & [Hrep Hby Hfi Hfin Hex])].
    + done.
    + left. right. left. subst c'; by_p_buf c; done.
    + left. right. right. subst c'; by_p_buf c; done.
    + right. exists i, o. simpl in *. split; simpl.
      * subst c'; by_p_buf c; done.
      * by rewrite Hheld', Hp', app_nil_r.
      * subst c'; by_p_buf c; done.
      * intros Hfi'. split; [|done].
        subst c'; by_p_buf c; done.
      * done.
  - subst st. subst c'; by_p_buf c; done.
  - intros Hnc. destruct (Hn Hnc) as [? ?]. split; simpl in *; [|done].
    subst c'; by_p_buf c; done.
  - intros Hw. specialize (Hwe Hw). subst c'; by_p_buf c; done.
Qed.

Lemma encrypted_app fl k0 o out :
  encrypted fl k0 (o ++ out) =
  ((encrypted fl k0 o).1 ++ (encrypted fl (encrypted fl k0 o).2 out).1,
   (encrypted fl (encrypted fl k0 o).2 out).2).
Proof. unfold encrypted. case_match; [apply rc4_app|done]. Qed.

Lemma length_encrypted fl k0 o : length (encrypted fl k0 o).1 = length o.
Proof. unfold encrypted. case_match; [apply rc4_length|done]. Qed.

(** The context after a call of [deflate], before anything is written. *)
Definition after_deflate (c : ctxt) (r : zcall dstate) : ctxt :=
  set_avail_out (OUTPUT_BUFFER_SIZE - zlen (zc_out r))
    (set_avail_in (avail_in c - zc_used r)
       (set_next_in ((next_in c).1, (next_in c).2 + zc_used r)
          (set_zst (zc_state r) c))).

(** After the call and after writing [out]. *)
Definition after_write (c : ctxt) (r : zcall dstate) k f z : ctxt :=
  set_fp f (set_sec_size z (set_key k (after_deflate c r))).

Lemma chan_after_write (s : state) r k f z fin t :
  chan_ok s -> thr s = WDeflate fin ->
  0 <= zc_used r <= avail_in (ctx s) ->
  (live t = true -> (exists i o, drep (zc_state r) i o) /\ f_pos f = zlen (f_data f) /\
                    exists n, z = u32 n) ->
  chan_ok (BState (after_write (ctx s) r k f z) t (sched s)).
Proof.
  intros [H0 H1 H2 H3 H4 H5] Ht Hu Hlive. destruct H4 as (Hb & Ho & Ha & Hs); [by rewrite Ht|].
  split; simpl; auto. intros _. split; [done|]. lia.
Qed.

(** What is true after one call, for each outcome. *)
Lemma deflate_call nc we base k0 st p (s : state) fin :
  inv nc we base k0 st p s -> thr s = WDeflate fin ->
  let c := ctx s in
  let inp := held s in
  let r := deflate (zst c) inp OUTPUT_BUFFER_SIZE fin in
  zread_n (data (buf_at (next_in c).1 c)) (next_in c).2 (avail_in c) = Done inp /\
  zlen inp = avail_in c /\ 0 <= zc_used r <= avail_in c.
Proof.
  intros [Hc Hf Hs Hn Hwe] Ht c inp r. pose proof Hc as [H0 H1 H2 H3 H4 H5].
  destruct H4 as (Hb & Ho & Ha & Hsz); [by rewrite Ht|].
  destruct H5 as ((i & o & Hrep) & _ & _); [by rewrite Ht|].
  pose proof (buf_at_ok s (next_in c).1 Hc) as [Hl _].
  assert (Hinp : inp = slice (next_in c).2 (avail_in c) (data (buf_at (next_in c).1 c)))
    by (unfold inp, held; by rewrite Ht).
  assert (Hlen : zlen inp = avail_in c) by (rewrite Hinp; apply zlen_slice; subst c; lia).
  split; [|split; [done|]].
  - rewrite Hinp. apply zread_n_slice; subst c; lia.
  - destruct (deflate_rep _ _ _ inp OUTPUT_BUFFER_SIZE fin Hrep) as (Hu & _); [done|].
    rewrite <- Hlen. exact Hu.
Qed.

(** The call succeeded and its output is in the file. *)
Lemma fifo_after_write base k0 (s : state) p i o fin k f z :
  fifo_ok base k0 s p i o -> chan_ok s -> thr s = WDeflate fin ->
  let r := deflate (zst (ctx s)) (held s) OUTPUT_BUFFER_SIZE fin in
  zc_ret r = Z_OK \/ zc_ret r = Z_STREAM_END ->
  zlen (held s) = avail_in (ctx s) ->
  (f_data f = f_data (fp (ctx s)) ++ (encrypted (flags (ctx s)) (key (ctx s)) (zc_out r)).1 /\
   f_pos f = zlen (f_data f)) ->
  k = (encrypted (flags (ctx s)) (key (ctx s)) (zc_out r)).2 ->
  z = u32 (zlen (o ++ zc_out r)) ->
  fifo_ok base k0 (BState (after_write (ctx s) r k f z) (WDeflate fin) (sched s)) p
    (i ++ take (Z.to_nat (zc_used r)) (held s)) (o ++ zc_out r) /\
  (zc_ret r = Z_STREAM_END ->
   fin = true /\ zc_used r = avail_in (ctx s) /\ inflates (o ++ zc_out r) p).
Proof.
  intros [Hrep Hby (Hd & Hp & Hk & Hz) Hfin _] Hc Ht r Hret Hlen [Hfd Hfp] -> ->.
  pose proof Hc as [_ _ _ _ H4 _]. destruct H4 as (Hb & Ho & Ha & Hsz); [by rewrite Ht|].
  destruct (deflate_rep _ _ _ (held s) OUTPUT_BUFFER_SIZE fin Hrep) as (Hu & _ & Hrep');
    [done|]. fold r in Hu, Hrep'.
  split.
  - split; simpl; auto.
    + rewrite Hby, <- app_assoc. f_equal. rewrite (app_assoc _ _ (pending _)). f_equal.
      rewrite <- (take_drop (Z.to_nat (zc_used r)) (held s)) at 1. f_equal.
      unfold held at 1. rewrite Ht. simpl. rewrite slice_slice by lia. done.
    + repeat split; simpl; auto.
      * rewrite Hfd, Hd, Hk, encrypted_app. simpl. by rewrite app_assoc.
      * by rewrite Hk, encrypted_app.
    + rewrite Ht in Hfin. intros Hf'. by apply Hfin.
    + done.
  - intros He. destruct (deflate_end _ _ _ (held s) OUTPUT_BUFFER_SIZE fin Hrep)
      as (-> & He1 & He2); [done|done|].
    split; [done|]. split; [by rewrite <- Hlen|].
    destruct Hfin as [_ Hpe]; [by rewrite Ht|].
    by rewrite Hby, Hpe, app_nil_r.
Qed.

(** A thread that stops working leaves the context as it is. *)
Lemma inv_bail nc we base k0 st p (s : state) :
  chan_ok s -> statics (ctx s) = st -> (nc = true -> cancel_free s) ->
  (we = true -> write_error (ctx s) = true) ->
  inv nc we base k0 st p (BState (ctx s) WBail (sched s)).
Proof. intros Hc Hs Hn Hwe. split; auto; [by apply chan_move|]. by left; left. Qed.

Lemma broken_move (s : state) p fin :
  broken s -> thr s = WDeflate fin -> broken (BState (ctx s) p (sched s)).
Proof. intros [H|[H|H]] Ht; [congruence|by right; left|by right; right]. Qed.

Lemma held_nil (s : state) : avail_in (ctx s) = 0 -> held s = [].
Proof. unfold held, slice. intros ->. by case_match. Qed.

Lemma write_thread_after_inv nc we base k0 st p (s : state) fin rc :
  inv nc we base k0 st p s -> thr s = WDeflate fin ->
  (rc = Z_STREAM_END -> broken s \/
     exists i o, fifo_ok base k0 s p i o /\ inflates o p /\ fin = true) ->
  forall sc, sched s = sc ->
  wp (write_thread_after rc) (fun _ s' => inv nc we base k0 st p s' /\ sched s' = sc) s.
Proof.
  intros [Hc Hf Hs Hn Hwe] Ht He sc <-. unfold write_thread_after. apply wp_bind_gets.
  case_match eqn:Ha; [apply wp_modify; split; [by apply inv_bail|done]|].
  assert (Hin : avail_in (ctx s) = 0) by lia. pose proof (held_nil s Hin) as Hh.
  case_match eqn:Hrc; apply wp_modify; (split; [|done]); (split; [|  |done|done|done]).
  - by apply chan_move.
  - destruct He as [Hb|(i & o & [? Hby ? Hfin ?] & Hi & ->)]; [lia| |].
    + left. by apply (broken_move _ _ fin).
    + right. exists i, o. rewrite Hh in Hby. split; auto. simpl. intros _. by apply Hfin; rewrite Ht.
  - apply chan_move; [done|done|]. by rewrite Ht.
  - destruct Hf as [Hb|(i & o & [? Hby ? Hfin ?])].
    + left. by apply (broken_move _ _ fin).
    + right. exists i, o. rewrite Hh in Hby. by split; auto.
Qed.

Lemma statics_after_write c r k f z : statics (after_write c r k f z) = statics c.
Proof. done. Qed.

(** The three ways a call can go on: nothing to do, an error, output to write. *)
Section one_call.
Context (nc we : bool) (base : list Z) (k0 : rc4_key) (st : Z * Z * option (list mm_backup_tabdesc) * bool * bool * Z).
Context (p : list Z) (s : state) (fin : bool).
Context (Hinv : inv nc we base k0 st p s) (Ht : thr s = WDeflate fin).

Let r := deflate (zst (ctx s)) (held s) OUTPUT_BUFFER_SIZE fin.

Lemma broken_after k f z t :
  broken s -> broken (BState (after_write (ctx s) r k f z) t (sched s)).
Proof. intros [?|[?|?]]; [congruence|by right; left|by right; right]. Qed.

Lemma nocancel_after k f z t :
  nc = true -> cancel_free (BState (after_write (ctx s) r k f z) t (sched s)).
Proof. intros Hnc. by destruct (inv_nocancel _ _ _ _ _ _ _ Hinv Hnc). Qed.

Lemma after_buf_error :
  zc_ret r = Z_BUF_ERROR ->
  inv nc we base k0 st p
    (BState (after_write (ctx s) r (key (ctx s)) (fp (ctx s)) (sec_size (ctx s)))
            (WDeflate fin) (sched s)).
Proof.
  intros Hret. destruct (deflate_call _ _ _ _ _ _ _ _ Hinv Ht) as (_ & Hlen & Hu).
  pose proof Hinv as [Hc Hf Hs Hn Hwe].
  destruct (co_live s Hc) as ((i0 & o0 & Hrep0) & Hpos & n0 & Hsz0); [by rewrite Ht|].
  destruct (deflate_buf_error _ _ _ (held s) OUTPUT_BUFFER_SIZE fin Hrep0 eq_refl Hret)
    as (Hnil & Hu0 & Ho0 & Hd0).
  split; [|  |done|apply nocancel_after|exact (inv_error _ _ _ _ _ _ _ Hinv)].
  - apply (chan_after_write s r _ _ _ fin); auto. intros _. split; [by exists i0, o0|eauto].
  - destruct Hf as [Hb|(i & o & [Hr Hby Hfi Hfin Hex])]; [left; by apply broken_after|].
    right. exists i, o. split; simpl.
    + by destruct (deflate_buf_error _ _ _ (held s) OUTPUT_BUFFER_SIZE fin Hr eq_refl Hret)
        as (_ & _ & _ & ?).
    + rewrite held_nil; [by rewrite Hnil in Hby|].
      simpl. unfold r. rewrite Hu0, <- Hlen, Hnil. done.
    + done.
    + intros Hfi'. by apply Hfin; rewrite Ht.
    + done.
Qed.

Lemma after_error k f z :
  inv nc we base k0 st p (BState (after_write (ctx s) r k f z) WBail (sched s)).
Proof.
  destruct (deflate_call _ _ _ _ _ _ _ _ Hinv Ht) as (_ & Hlen & Hu).
  pose proof Hinv as [Hc Hf Hs Hn Hwe].
  split; [|by left; left|done|apply nocancel_after|exact (inv_error _ _ _ _ _ _ _ Hinv)].
  by apply (chan_after_write s r _ _ _ fin).
Qed.

Lemma after_output f z n :
  zc_ret r = Z_OK \/ zc_ret r = Z_STREAM_END ->
  sec_size (ctx s) = u32 n ->
  f_data f = f_data (fp (ctx s)) ++ (encrypted (flags (ctx s)) (key (ctx s)) (zc_out r)).1 ->
  f_pos f = zlen (f_data f) ->
  z = u32 (n + zlen (zc_out r)) ->
  let s' := BState (after_write (ctx s) r (encrypted (flags (ctx s)) (key (ctx s)) (zc_out r)).2 f z)
                   (WDeflate fin) (sched s) in
  inv nc we base k0 st p s' /\
  (zc_ret r = Z_STREAM_END ->
   broken s' \/ exists i o, fifo_ok base k0 s' p i o /\ inflates o p /\ fin = true).
Proof.
  intros Hret Hn0 Hfd Hfp -> s'.
  destruct (deflate_call _ _ _ _ _ _ _ _ Hinv Ht) as (_ & Hlen & Hu).
  pose proof Hinv as [Hc Hf Hs Hn Hwe].
  destruct (co_live s Hc) as ((i0 & o0 & Hrep0) & Hpos & _); [by rewrite Ht|].
  destruct (deflate_rep _ _ _ (held s) OUTPUT_BUFFER_SIZE fin Hrep0) as (_ & _ & Hrep'); [done|].
  assert (Hfo : broken s' \/ exists i o, fifo_ok base k0 s' p i o /\
                 (zc_ret r = Z_STREAM_END -> inflates o p /\ fin = true)).
  { destruct Hf as [Hb|(i & o & Hfo)]; [left; by apply broken_after|].
    right. eexists _, _.
    destruct (fifo_after_write base k0 s p i o fin
                (encrypted (flags (ctx s)) (key (ctx s)) (zc_out r)).2 f
                (u32 (n + zlen (zc_out r))) Hfo Hc Ht Hret Hlen) as [Hfo' Hend]; auto.
    { rewrite zlen_app. destruct (fo_file _ _ _ _ _ _ Hfo) as (_ & _ & _ & Hz).
      by rewrite <- (u32_add (zlen o)), <- Hz, Hn0, u32_add. }
    split; [exact Hfo'|]. intros He. by destruct (Hend He) as (? & _ & ?). }
  split.
  - split; [| |done|apply nocancel_after|exact (inv_error _ _ _ _ _ _ _ Hinv)].
    + apply (chan_after_write s r _ _ _ fin); auto. intros _. split; [eexists _, _; by apply Hrep'|eauto].
    + destruct Hfo as [?|(i & o & ? & _)]; eauto.
  - intros He. destruct Hfo as [?|(i & o & ? & Hx)]; [by left|right].
    destruct (Hx He). eauto 6.
Qed.
End one_call.

Lemma deflate_inv nc we base k0 st p (s : state) fin :
  inv nc we base k0 st p s -> thr s = WDeflate fin ->
  wp (write_thread_deflate fin) (fun _ s' => inv nc we base k0 st p s' /\ sched s' = sched s) s.
Proof.
  intros Hinv Ht. pose proof Hinv as [Hc Hf Hs Hn Hwe].
  destruct (deflate_call _ _ _ _ _ _ _ _ Hinv Ht) as (Hrd & Hlen & Hu).
  unfold write_thread_deflate. apply wp_bind_gets.
  destruct (next_in (ctx s)) as [b off] eqn:Hni. simpl in Hrd.
  eapply wp_bind_lift_res; [exact Hrd|].
  destruct (co_live s Hc) as (_ & Hpos & n0 & Hsz0); [by rewrite Ht|].
  pose proof (after_output nc we base k0 st p s fin Hinv Ht) as Hout.
  pose proof (after_error nc we base k0 st p s fin Hinv Ht) as Herr.
  pose proof (after_buf_error nc we base k0 st p s fin Hinv Ht) as Hbe.
  cbn zeta in *. set (r := deflate (zst (ctx s)) (held s) OUTPUT_BUFFER_SIZE fin) in *.
  apply wp_bind_modify, wp_bind_modify, wp_bind_modify, wp_bind_modify.
  cbn [ctx thr sched]. rewrite Ht.
  assert (Hself : set_avail_out (OUTPUT_BUFFER_SIZE - zlen (zc_out r))
       (set_avail_in (avail_in (ctx s) - zc_used r)
          (set_next_in (b, off + zc_used r) (set_zst (zc_state r) (ctx s))))
     = after_write (ctx s) r (key (ctx s)) (fp (ctx s)) (sec_size (ctx s)))
    by (unfold after_write, after_deflate; rewrite Hni; by destruct (ctx s)).
  rewrite Hself. clear Hself Hni Hrd b off.
  destruct (zc_ret r =? Z_BUF_ERROR) eqn:Ebe.
  { apply (write_thread_after_inv nc we base k0 st p _ fin); [apply Hbe; lia|done| |done].
    unfold Z_STREAM_END, Z_BUF_ERROR in *. lia. }
  destruct (negb (zc_ret r =? Z_OK) && negb (zc_ret r =? Z_STREAM_END)) eqn:Eerr.
  { apply wp_modify. split; [apply Herr|done]. }
  assert (Hok : zc_ret r = Z_OK \/ zc_ret r = Z_STREAM_END) by lia.
  apply wp_bind.
  set (enc := encrypted (flags (ctx s)) (key (ctx s)) (zc_out r)) in *.
  assert (Henc : forall (Q : list Z -> state -> Prop),
    Q enc.1 (BState (after_write (ctx s) r enc.2 (fp (ctx s)) (sec_size (ctx s))) (WDeflate fin) (sched s)) ->
    wp (if Z.land (flags (ctx s)) MMBAK_FLAG_NO_CIPHER =? 0 then
          let! k := get key in
          let '(o, k') := rc4 k (zc_out r) in
          upd (set_key k') ;;; ret o
        else ret (zc_out r)) Q
       (BState (after_write (ctx s) r (key (ctx s)) (fp (ctx s)) (sec_size (ctx s))) (WDeflate fin) (sched s))).
  { intros Q. unfold enc, encrypted. case_match; [|done].
    intros HQ. apply wp_bind_gets. simpl. destruct (rc4 (key (ctx s)) (zc_out r)) as [o k'].
    apply wp_bind_modify, wp_ret. done. }
  apply Henc. clear Henc. apply wp_bind.
  eapply wp_mono; [apply (write_out_spec _ _ _ n0)|]; [lia|done|done|].
  intros ok s' (f & z & -> & Hwr). cbn [ctx thr sched] in *. simpl in Hwr.
  destruct ok; simpl negb; cbn match; [|apply wp_modify; split; [apply Herr|done]].
  destruct Hwr as (Hfd & Hfp & Hz); [done|]. unfold enc in Hz.
  assert (Hlenc : zlen enc.1 = zlen (zc_out r)) by (unfold zlen, enc; by rewrite length_encrypted).
  destruct (Hout f z n0) as [Hi He]; auto; [by rewrite Hz, <- Hlenc|].
  change (set_fp f (set_sec_size z _)) with (after_write (ctx s) r enc.2 f z).
  apply wp_bind_gets. case_match.
  - apply wp_modify. split; [exact Hi|done].
  - by apply (write_thread_after_inv nc we base k0 st p _ fin).
Qed.

Lemma unlocked_inv nc we base k0 st p (s : state) fin :
  inv nc we base k0 st p s -> thr s = WUnlocked fin ->
  inv nc we base k0 st p
    (BState (ctx s) (if canceled (ctx s) then WExit else WDeflate fin) (sched s)).
Proof.
  intros [Hc Hf Hs Hn Hwe] Ht. destruct (canceled (ctx s)) eqn:Hca.
  - split; auto; [by apply chan_move|]. left. by right; right.
  - split; auto; [apply chan_move; rewrite ?Ht; done|].
    destruct Hf as [[?|[?|?]]|(i & o & [? Hby ? Hfin ?])]; [congruence|by left; right; left|congruence|].
    right. exists i, o. split; auto; [|by rewrite Ht in Hfin|done].
    unfold held in *. by rewrite Ht in Hby.
Qed.

Lemma writer_inv nc we base k0 st p (s : state) :
  inv nc we base k0 st p s ->
  wp write_thread_entry (fun _ s' => inv nc we base k0 st p s' /\ sched s' = sched s) s.
Proof.
  intros Hinv. unfold write_thread_entry. apply wp_bind_gets. destruct (thr s) eqn:Ht.
  - by apply take_inv.
  - apply wp_bind_gets. pose proof (unlocked_inv _ _ _ _ _ _ _ _ Hinv Ht) as H.
    by destruct (canceled (ctx s)); apply wp_modify.
  - by apply deflate_inv.
  - apply wp_bind_modify, wp_modify. split; [|done]. destruct Hinv as [Hc Hf Hs Hn Hwe].
    split; auto; [|by left; right; left]. by destruct Hc; split.
  - by apply wp_ret.
Qed.

Lemma cancel_inv we base k0 st p (s : state) :
  inv false we base k0 st p s -> inv false we base k0 st p (BState (set_canceled true (ctx s)) (thr s) (sched s)).
Proof.
  intros [Hc Hf Hs Hn Hwe]. split; [|by left; right; right|done|done|done].
  by destruct Hc; split.
Qed.

Definition may_happen (nc : bool) (e : event) : Prop := nc = true -> e <> EvCancel.

Lemma do_event_inv nc we base k0 st p e (s : state) :
  may_happen nc e -> inv nc we base k0 st p s ->
  wp (do_event e) (fun _ s' => inv nc we base k0 st p s' /\ sched s' = sched s) s.
Proof.
  intros He Hinv. destruct e; [by apply writer_inv|].
  destruct nc; [by destruct (He eq_refl)|].
  apply wp_modify. split; [by apply cancel_inv|done].
Qed.

Lemma do_events_inv nc we base k0 st p es (s : state) :
  Forall (may_happen nc) es -> inv nc we base k0 st p s ->
  wp (do_events es) (fun _ s' => inv nc we base k0 st p s' /\ sched s' = sched s) s.
Proof.
  intros Hes. revert s. induction Hes as [|e es He Hes IH]; intros s Hinv; [by apply wp_ret|].
  simpl. apply wp_bind. eapply wp_mono; [by apply do_event_inv|]. simpl.
  intros _ s' [Hi Hsc]. eapply wp_mono; [by apply IH|]. simpl. intros _ s'' [? ?].
  split; [done|congruence].
Qed.

(** Taking the next entry of the schedule. *)
Lemma pop_inv nc we base k0 st p (s : state) es rest :
  inv nc we base k0 st p s -> sched s = es :: rest ->
  wp (do_events es) (fun _ s' => inv nc we base k0 st p s' /\ sched s' = rest)
     (BState (ctx s) (thr s) rest).
Proof.
  intros [Hc Hf Hs Hn Hwe] Hsc.
  assert (Hall : nc = true -> Forall (fun e => e <> EvCancel) es /\
                 Forall (Forall (fun e => e <> EvCancel)) rest).
  { intros Hnc. destruct (Hn Hnc) as [_ H]. rewrite Hsc in H. by apply Forall_cons in H. }
  apply (do_events_inv nc we base k0 st p es (BState (ctx s) (thr s) rest)).
  - apply Forall_forall. intros e He Hnc. destruct (Hall Hnc) as [H _].
    rewrite Forall_forall in H. by apply H.
  - split; auto.
    + by destruct Hc; split.
    + destruct Hf as [Hb|(i & o & Hfo)]; [by left|]. right. exists i, o. by destruct Hfo; split.
    + intros Hnc. destruct (Hn Hnc). split; [done|by apply Hall].
Qed.

Lemma preempt_inv nc we base k0 st p (s : state) :
  inv nc we base k0 st p s -> wp preempt (fun _ => inv nc we base k0 st p) s.
Proof.
  intros Hinv. unfold preempt. apply wp_bind_gets. case_match eqn:Hsc; [by apply wp_ret|].
  apply wp_bind_modify. eapply wp_mono; [by apply (pop_inv nc we base k0 st p)|]. by intros ? ? [? _].
Qed.

Lemma wait_inv nc we base k0 st p (s : state) :
  inv nc we base k0 st p s ->
  pwp (tolerated nc) cond_wait (fun _ => inv nc we base k0 st p) s.
Proof.
  intros Hinv. unfold cond_wait. apply pwp_bind_gets. case_match eqn:Hsc.
  - by apply pwp_fail; left.
  - apply pwp_bind_modify, wp_pwp.
    eapply wp_mono; [by apply (pop_inv nc we base k0 st p)|]. by intros ? ? [? _].
Qed.

Lemma wait_not_full_inv nc we base k0 st p n (s : state) :
  inv nc we base k0 st p s ->
  pwp (tolerated nc) (wait_not_full n)
    (fun _ s' => inv nc we base k0 st p s' /\
       (in_full (ctx s') = false \/ canceled (ctx s') = true \/ write_error (ctx s') = true)) s.
Proof.
  revert s. induction n as [|n IH]; intros s Hinv; simpl.
  all: apply pwp_bind_gets; cbn beta; case_match eqn:E.
  1: by apply pwp_fail; left.
  2: { apply pwp_bind. eapply pwp_mono; [by apply wait_inv|]. simpl. intros _ s'. apply IH. }
  all: apply pwp_ret; split; [done|].
  all: destruct (in_full (ctx s)), (canceled (ctx s)), (write_error (ctx s)); auto; done.
Qed.

(** ** The producer *)

(** Copying [chunk] behind the contents of the current buffer. *)
Definition append (c : ctxt) (chunk d : list Z) : ctxt :=
  let a := avail (current c) + zlen chunk in
  set_in_full (a =? INPUT_BUFFER_SIZE)
    (set_in_avail (INPUT_BUFFER_SIZE / 4 <? a) (set_buf_at (p_buf c) (Buffer a d) c)).

Lemma pending_write (l chunk : list Z) a d :
  zwrite_n l a chunk = Done d -> take (Z.to_nat (a + zlen chunk)) d = take (Z.to_nat a) l ++ chunk.
Proof.
  unfold zwrite_n. case_match eqn:E; [|done]. unfold in_range in E. intros [= <-]. zlen_pos.
  replace (Z.to_nat (a + zlen chunk)) with (length (take (Z.to_nat a) l ++ chunk)).
  - by rewrite app_assoc, take_app_length.
  - rewrite length_app, length_take. unfold zlen in *. lia.
Qed.

Lemma zlen_zwrite_n {A} (l xs d : list A) a : zwrite_n l a xs = Done d -> zlen d = zlen l.
Proof.
  unfold zwrite_n. case_match eqn:E; [|done]. unfold in_range in E. intros [= <-].
  unfold zlen in *. rewrite !length_app, length_take, length_drop. lia.
Qed.

Lemma append_inv nc we base k0 st p (s : state) chunk d :
  inv nc we base k0 st p s -> in_finish (ctx s) = false ->
  zwrite_n (data (current (ctx s))) (avail (current (ctx s))) chunk = Done d ->
  inv nc we base k0 st (p ++ chunk) (BState (append (ctx s) chunk d) (thr s) (sched s)).
Proof.
  intros [Hc Hf Hs Hn Hwe] Hfin Hw.
  pose proof (pending_write _ _ _ _ Hw) as Hpw. pose proof (zlen_zwrite_n _ _ _ _ Hw) as Hld.
  assert (Hfit : avail (current (ctx s)) + zlen chunk <= INPUT_BUFFER_SIZE).
  { unfold zwrite_n in Hw. case_match eqn:E; [|done]. unfold in_range in E.
    destruct (buf_at_ok s (p_buf (ctx s)) Hc) as [Hl _]. unfold current in *. lia. }
  pose proof (zlen_nonneg chunk).
  destruct s as [c t sc]; simpl in *. unfold append, current, pending in *.
  destruct Hc as [H0 H1 H2 H3 H4 H5]; simpl in *. unfold buf_ok in *.
  split; simpl.
  - split; simpl; unfold buf_ok, current; by_p_buf c; simpl in *; auto; try done; lia.
  - destruct Hf as [[Hb|[Hb|Hb]]|(i & o & [? Hby ? Hfi Hex])]; simpl in *.
    + left. by left.
    + left. right. left. by by_p_buf c.
    + left. right. right. by by_p_buf c.
    + right. exists i, o. assert (Hnf : finishing t = false).
      { destruct (finishing t); [|done]. destruct Hfi; [done|congruence]. }
      split; simpl.
      * by by_p_buf c.
      * rewrite Hby, <- !app_assoc. f_equal.
        unfold held, pending, current in *; simpl in *.
        destruct (working t).
        -- destruct H4 as [Hni _]; [done|].
           by_p_buf c; simpl in *; rewrite Hni; simpl; by rewrite Hpw.
        -- by_p_buf c; simpl in *; by rewrite Hpw.
      * by by_p_buf c.
      * congruence.
      * intros ->. done.
  - subst st. by by_p_buf c.
  - intros Hnc. destruct (Hn Hnc) as [? ?]. split; simpl in *; [|done]. by by_p_buf c.
  - intros Hw'. specialize (Hwe Hw'). by by_p_buf c.
Qed.

Lemma in_finish_statics (c : ctxt) : in_finish c = (statics c).1.2.
Proof. done. Qed.

(** What a caller of [dump_write_stream] may rely on: the bytes are in the stream, or the
    writing thread has failed. *)
Definition written (nc we : bool) (base : list Z) (k0 : rc4_key) st (p : list Z) (r : Z) (s : state) : Prop :=
  (r = 0 /\ inv nc we base k0 st p s) \/ (r = -1 /\ exists p', inv nc true base k0 st p' s).

Lemma write_stream_loop_spec nc we base k0 st p d fuel (s : state) :
  inv nc we base k0 st p s -> st.1.2 = false -> zlen d < 2 ^ 31 ->
  (nc = true -> (length d <= fuel)%nat) ->
  pwp (tolerated nc) (write_stream_loop fuel d) (written nc we base k0 st (p ++ d)) s.
Proof.
  revert d p s. induction fuel as [|fuel IH]; intros [|x d] p s Hinv Hfin Hd Hfuel; simpl in Hfuel.
  1,3: apply pwp_ret; left; by rewrite app_nil_r.
  - apply pwp_fail. right. destruct nc; [specialize (Hfuel eq_refl); lia|done].
  - cbn [write_stream_loop]. apply pwp_bind_gets, pwp_bind.
    eapply pwp_mono; [by apply wait_not_full_inv|]. clear s Hinv. intros _ s [Hinv Hw].
    apply pwp_bind_gets. cbn beta.
    destruct (write_error (ctx s)) eqn:He; [apply pwp_ret; right; split; [done|]; exists p; by destruct Hinv|].
    pose proof (inv_chan _ _ _ _ _ _ _ Hinv) as Hc.
    destruct (buf_at_ok s (p_buf (ctx s)) Hc) as [Hl Ha].
    set (b := buf_at (p_buf (ctx s)) (ctx s)) in *.
    assert (Hu : u32 (avail b + zlen (x :: d)) = avail b + zlen (x :: d)).
    { apply u32_small. unfold INPUT_BUFFER_SIZE in *. zlen_pos. lia. }
    set (n := if INPUT_BUFFER_SIZE <? u32 (avail b + zlen (x :: d))
              then u32 (INPUT_BUFFER_SIZE - avail b) else zlen (x :: d)).
    assert (Hn : 0 <= n <= zlen (x :: d) /\ avail b + n <= INPUT_BUFFER_SIZE /\
                 (nc = true -> 1 <= n)).
    { subst n. rewrite Hu. pose proof (zlen_nonneg (x :: d)). case_match eqn:En.
      - rewrite u32_small by (unfold INPUT_BUFFER_SIZE in *; lia).
        split; [lia|]. split; [lia|]. intros Hnc.
        destruct (inv_nocancel _ _ _ _ _ _ _ Hinv Hnc) as [Hca _].
        destruct Hw as [Hw|[Hw|Hw]]; [|congruence|congruence].
        pose proof (co_full s Hc) as Hfull. rewrite Hw in Hfull. unfold current in Hfull.
        fold b in Hfull. lia.
      - split; [lia|]. split; [lia|]. intros _. zl. }
    destruct Hn as (Hn1 & Hn2 & Hn3).
    destruct (zwrite_n (data b) (avail b) (take (Z.to_nat n) (x :: d))) as [d'|] eqn:Ew.
    2: { unfold zwrite_n in Ew. rewrite zlen_take_le in Ew by lia.
         case_match eqn:E; [done|]. unfold in_range in E. lia. }
    eapply pwp_bind_lift_res; [done|].
    pose proof (append_inv nc we base k0 st p s (take (Z.to_nat n) (x :: d)) d' Hinv) as Happ.
    rewrite in_finish_statics, (inv_statics _ _ _ _ _ _ _ Hinv) in Happ.
    specialize (Happ Hfin Ew). unfold append in Happ. rewrite zlen_take_le in Happ by lia.
    assert (Hua : u32 (avail b + n) = avail b + n)
      by (apply u32_small; unfold INPUT_BUFFER_SIZE in *; lia).
    apply pwp_bind_modify, pwp_bind_modify, pwp_bind_modify. cbn [ctx thr sched].
    rewrite Hua.
    eapply pwp_mono; [apply (IH _ (p ++ take (Z.to_nat n) (x :: d)))|].
    + exact Happ.
    + done.
    + rewrite zlen_drop by lia. lia.
    + intros Hnc. specialize (Hfuel Hnc). specialize (Hn3 Hnc).
      rewrite length_drop. simpl. lia.
    + intros r s'. by rewrite <- app_assoc, take_drop.
Qed.

Lemma dump_write_stream_spec nc we base k0 st p d (s : state) :
  inv nc we base k0 st p s -> st.1.2 = false -> zlen d < 2 ^ 31 ->
  pwp (tolerated nc) (dump_write_stream d) (written nc we base k0 st (p ++ d)) s.
Proof.
  intros. unfold dump_write_stream. apply pwp_bind, wp_pwp.
  eapply wp_mono; [by apply preempt_inv|]. intros [] s' Hinv'.
  by apply write_stream_loop_spec.
Qed.
End channel.
