(* ===== verification/BackupFacts.v ===== *)
(** * What the backup writer writes

    The format of the stream as functions on items, and the proof that the operations of
    [mm_backup.c] put exactly these bytes into the stream, whatever the other thread does. *)

From S2P Require Import Prelude CLib Streams Backup BackupChannel.

(** ** The format *)

(** An item of the stream: a statement to run once, or a statement to run for each row. *)
Inductive item :=
| Oneshot (sql : list Z)
| Repeated (sql : list Z) (rows : list (list sqlite_value)).

(** Seven bits a byte, low bits first, bit 7 set on all bytes but the last.  Nine turns cover
    the 63 bits of a non-negative [int64_t]. *)
Fixpoint base128 (n : nat) (v : Z) : list Z :=
  match n with
  | O => [v]
  | S n => if v <? 128 then [v] else (v mod 128 + 128) :: base128 n (v / 128)
  end.

Definition varint_bytes (v : Z) : list Z :=
  if v <? 0 then MMBAK_TAG_BIND_VARINT_MINUS :: base128 8 (-1 - v)
  else MMBAK_TAG_BIND_VARINT :: base128 8 v.

(** The part of the data beyond the last multiple of 65536 has its own tag and length. *)
Definition tail_bytes (tag : Z) (d : list Z) : list Z :=
  (if (zlen d <? 256) && ((tag =? MMBAK_TAG_BIND_TEXT) || (tag =? MMBAK_TAG_BIND_BLOB))
   then [tag + 1; zlen d] else tag :: le_bytes 2 (zlen d)) ++ d.

Definition blob_bytes (tag : Z) (d : list Z) : list Z :=
  let ext := zlen d / 65536 * 65536 in
  (if 65536 <=? zlen d
   then MMBAK_TAG_LARGE_DATA :: le_bytes 2 (zlen d / 65536) ++ take (Z.to_nat ext) d else []) ++
  tail_bytes tag (drop (Z.to_nat ext) d).

Definition value_bytes (v : sqlite_value) : list Z :=
  match v with
  | SV_Integer z => varint_bytes z
  | SV_Float bits => MMBAK_TAG_BIND_FLOAT :: bits
  | SV_Text b => blob_bytes MMBAK_TAG_BIND_TEXT b
  | SV_Blob b => blob_bytes MMBAK_TAG_BIND_BLOB b
  | SV_Null => [MMBAK_TAG_BIND_NULL]
  | SV_Other _ => []
  end.

Definition row_bytes (row : list sqlite_value) : list Z :=
  (row ≫= value_bytes) ++ [MMBAK_TAG_END_ROW].

Definition item_bytes (i : item) : list Z :=
  match i with
  | Oneshot sql => blob_bytes MMBAK_TAG_SQL_ONESHOT sql
  | Repeated sql rows =>
    blob_bytes MMBAK_TAG_SQL_REPEATED sql ++ (rows ≫= row_bytes) ++ [MMBAK_TAG_END_SQL]
  end.

Definition items_bytes (l : list item) : list Z := l ≫= item_bytes.

(** Values as SQLite gives them. *)
Definition value_ok (v : sqlite_value) : Prop :=
  match v with
  | SV_Integer z => - 2 ^ 63 <= z < 2 ^ 63
  | SV_Float bits => zlen bits = 8
  | SV_Text b | SV_Blob b => zlen b < 2 ^ 31
  | SV_Null => True
  | SV_Other _ => False
  end.

(** ** Machine arithmetic *)

Lemma base128_S n v : 128 <= v -> base128 (S n) v = (v mod 128 + 128) :: base128 n (v / 128).
Proof. intros. simpl. by case_match; [lia|]. Qed.

Lemma base128_small n v : v < 128 -> base128 n v = [v].
Proof. intros. destruct n; simpl; [done|]. by case_match; [|lia]. Qed.

Lemma shiftr7 v : Z.shiftr v 7 = v / 128.
Proof. by rewrite Z.shiftr_div_pow2. Qed.

Lemma land127 v : Z.land v 127 = v mod 128.
Proof. change 127 with (Z.ones 7). by rewrite Z.land_ones. Qed.

Lemma lor128 b : 0 <= b < 128 -> Z.lor b 128 = b + 128.
Proof. intros. change 128 with (Z.shiftl 1 7) at 1. by rewrite lor_shift by lia. Qed.

Lemma lnot_opp v : Z.lnot v = -1 - v.
Proof. unfold Z.lnot. lia. Qed.

Lemma base128_length n v : (length (base128 n v) <= S n)%nat.
Proof. revert v. induction n as [|n IH]; intros v; simpl; [lia|]. case_match; simpl; [lia|]. specialize (IH (v / 128)). lia. Qed.

Lemma base128_bytes n v : 0 <= v < 128 ^ Z.of_nat (S n) -> Forall is_byte (base128 n v).
Proof.
  revert v. induction n as [|n IH]; intros v Hv; simpl.
  - constructor; [unfold is_byte; change (128 ^ Z.of_nat 1) with 128 in Hv; lia|done].
  - case_match eqn:E; [constructor; [unfold is_byte; lia|done]|].
    constructor; [unfold is_byte; pose proof (Z.mod_pos_bound v 128); lia|].
    apply IH. rewrite (Nat2Z.inj_succ (S n)), Z.pow_succ_r in Hv by lia.
    split; [apply Z.div_pos; lia|apply Z.div_lt_upper_bound; lia].
Qed.

(** The loop of [dump_write_varint] stays in its buffer. *)
Lemma varint_loop_spec n fuel v buf :
  0 <= v < 128 ^ Z.of_nat (S n) -> (n < fuel)%nat -> zlen buf + Z.of_nat n < 12 ->
  varint_loop fuel v buf = Done (buf ++ base128 n v).
Proof.
  revert fuel v buf. induction n as [|n IH]; intros [|fuel] v buf Hv Hf Hb; try lia; simpl.
  all: rewrite shiftr7, land127; pose proof (Z.mod_pos_bound v 128 ltac:(lia)).
  all: rewrite u8_small by lia.
  - change (128 ^ Z.of_nat 1) with 128 in Hv.
    rewrite Z.div_small, Z.mod_small by lia. simpl. by case_match; [|lia].
  - destruct (zlen buf <? 12) eqn:Elt; [|lia].
    destruct (v <? 128) eqn:Ev.
    + rewrite Z.div_small, Z.mod_small by lia. done.
    + assert (Hd : 1 <= v / 128) by (apply Z.div_le_lower_bound; lia).
      replace (v / 128 =? 0) with false by lia. simpl. rewrite lor128 by lia.
      rewrite IH.
      * by rewrite <- app_assoc.
      * rewrite (Nat2Z.inj_succ (S n)), Z.pow_succ_r in Hv by lia.
        split; [apply Z.div_pos; lia|apply Z.div_lt_upper_bound; lia].
      * lia.
      * zl.
Qed.

(** Lengths cut at 65536. *)
Lemma land_high v : 0 <= v < 2 ^ 31 -> Z.land v 4294901760 = v / 65536 * 65536.
Proof.
  intros Hv. change 4294901760 with (Z.shiftl (Z.ones 16) 16).
  rewrite <- (Z.shiftl_mul_pow2 _ 16), <- (Z.shiftr_div_pow2 _ 16) by lia.
  apply Z.bits_inj'. intros k Hk. rewrite Z.land_spec.
  destruct (Z_lt_dec k 16).
  - by rewrite !Z.shiftl_spec_low, andb_false_r by lia.
  - rewrite !Z.shiftl_spec by lia. rewrite Z.shiftr_spec by lia.
    replace (k - 16 + 16) with k by lia.
    destruct (Z_lt_dec (k - 16) 16).
    + by rewrite Z.ones_spec_low, andb_true_r by lia.
    + rewrite Z.ones_spec_high, andb_false_r by lia. symmetry.
      destruct (Z.eq_dec v 0) as [->|]; [by rewrite Z.bits_0|].
      apply Z.bits_above_log2; [lia|]. apply Z.log2_lt_pow2; [lia|].
      eapply Z.lt_le_trans; [apply Hv|]. apply Z.pow_le_mono_r; lia.
Qed.

Lemma le_bytes_2 v : le_bytes 2 v = [u8 (Z.land v 255); u8 (Z.land (Z.shiftr v 8) 255)].
Proof.
  change 255 with (Z.ones 8). rewrite !Z.land_ones, Z.shiftr_div_pow2 by lia. simpl.
  unfold u8. by rewrite !Z.mod_mod.
Qed.

(** ** Operations on the stream *)

Lemma bind_or {S} (c1 c2 : cm S Z) (k : Z -> cm S Z) s :
  bind (let! r1 := c1 in let! r2 := c2 in ret (Z.lor r1 r2)) k s =
  (let! r1 := c1 in let! r2 := c2 in k (Z.lor r1 r2)) s.
Proof. unfold bind. destruct (c1 s) as [[r1 s1]|]; [by destruct (c2 s1) as [[]|]|done]. Qed.

Section writes.
Context `{Zl : Zlib} `{ZL : !ZlibLaws Zl} `{Rc : Rc4} `{RL : !Rc4Laws Rc} `{Sq : SqliteRead}.
Context (nc : bool) (base : list Z) (k0 : rc4_key).

Abbreviation state := (@bstate Zl Rc).

(** [c] appends [bytes] to the stream, or the writing thread has failed. *)
Definition writes (c : cm state Z) (bytes : list Z) : Prop :=
  forall we st p s, inv nc we base k0 st p s -> st.1.2 = false ->
  pwp (tolerated nc) c (written nc we base k0 st (p ++ bytes)) s.

Lemma writes_ret0 : writes (ret 0) [].
Proof. intros we st p s Hi _. apply pwp_ret. left. by rewrite app_nil_r. Qed.

Lemma writes_stream d : zlen d < 2 ^ 31 -> writes (dump_write_stream d) d.
Proof.
  intros Hd we st p s Hi Hf. by apply dump_write_stream_spec.
Qed.

(** [r = a; r |= b]: the second is called even if the first failed. *)
Lemma writes_or c1 c2 b1 b2 :
  writes c1 b1 -> writes c2 b2 ->
  writes (let! r1 := c1 in let! r2 := c2 in ret (Z.lor r1 r2)) (b1 ++ b2).
Proof.
  intros H1 H2 we st p s Hi Hf. apply pwp_bind. eapply pwp_mono; [by apply H1|]. simpl.
  intros r1 s1 [[-> Hi1]|[-> (p1 & Hi1)]]; apply pwp_bind; (eapply pwp_mono; [by eapply H2|]);
    intros r2 s2 Hw; apply pwp_ret.
  - rewrite app_assoc. simpl. destruct Hw as [[-> ?]|[-> ?]]; [by left|by right].
  - right. destruct Hw as [[-> ?]|[-> ?]]; (split; [done|]); eauto.
Qed.

(** [if (a != 0) return e; b] *)
Lemma writes_then c1 c2 b1 b2 :
  writes c1 b1 -> writes c2 b2 ->
  writes (let! r := c1 in if negb (r =? 0) then ret (-1) else c2) (b1 ++ b2).
Proof.
  intros H1 H2 we st p s Hi Hf. apply pwp_bind. eapply pwp_mono; [by apply H1|]. simpl.
  intros r1 s1 [[-> Hi1]|[-> (p1 & Hi1)]]; simpl.
  - rewrite app_assoc. by apply H2.
  - apply pwp_ret. right. eauto.
Qed.

(** The last result of a function that returns 0 or -1. *)
Lemma writes_norm c b :
  writes c b -> writes (let! r := c in if negb (r =? 0) then ret (-1) else ret 0) b.
Proof.
  intros H. rewrite <- (app_nil_r b). apply writes_then; [done|]. apply writes_ret0.
Qed.

Lemma writes_ext c c' b : (forall s, c s = c' s) -> writes c b -> writes c' b.
Proof. intros He H we st p s Hi Hf. unfold pwp. rewrite <- He. by apply H. Qed.

Lemma writes_byte v : 0 <= v < 256 -> writes (dump_write_byte v) [v].
Proof. intros. unfold dump_write_byte. rewrite (u8_small v) by lia. apply writes_stream; zl. Qed.

Lemma writes_short v : 0 <= v < 65536 -> writes (dump_write_short v) (le_bytes 2 v).
Proof. intros. unfold dump_write_short. rewrite u16_small by lia. apply writes_stream; zl. Qed.

Lemma writes_byte_byte a b :
  0 <= a < 256 -> 0 <= b < 256 -> writes (dump_write_byte_byte a b) [a; b].
Proof. intros. unfold dump_write_byte_byte. rewrite !u8_small by lia. apply writes_stream; zl. Qed.

Lemma writes_byte_short b v :
  0 <= b < 256 -> 0 <= v < 65536 -> writes (dump_write_byte_short b v) (b :: le_bytes 2 v).
Proof.
  intros. unfold dump_write_byte_short. cbn zeta. rewrite (u16_small v), (u8_small b) by lia.
  rewrite <- (le_bytes_2 v). apply writes_stream. zl.
Qed.

Lemma writes_varint v : - 2 ^ 63 <= v < 2 ^ 63 -> writes (dump_write_varint v) (varint_bytes v).
Proof.
  intros Hv. unfold dump_write_varint, varint_bytes.
  assert (H : forall tag w, 0 <= w < 2 ^ 63 ->
    writes (let! buf := lift_res (varint_loop 12 w [tag]) in dump_write_stream buf) (tag :: base128 8 w)).
  { intros tag w Hw we st p s Hi Hf. eapply pwp_bind_lift_res.
    - apply (varint_loop_spec 8); [exact Hw|lia|]. unfold zlen. simpl. lia.
    - cbn [app]. apply writes_stream; auto. rewrite zlen_cons. unfold zlen.
      pose proof (base128_length 8 w). lia. }
  rewrite lnot_opp. destruct (v <? 0) eqn:E; apply H; lia.
Qed.

Lemma tail_writes tag d :
  0 <= tag < 255 -> zlen d < 65536 ->
  writes (let! r4 :=
      (if (zlen d <? 256) && ((tag =? MMBAK_TAG_BIND_TEXT) || (tag =? MMBAK_TAG_BIND_BLOB))
       then dump_write_byte_byte (tag + 1) (u8 (zlen d))
       else dump_write_byte_short tag (u16 (zlen d))) in
    let! r5 := dump_write_stream d in
    if negb (Z.lor r4 r5 =? 0) then ret (-1) else ret 0) (tail_bytes tag d).
Proof.
  intros Ht Hd. zlen_pos. unfold tail_bytes.
  eapply writes_ext; [|apply writes_norm, writes_or; [|apply writes_stream; lia]].
  { intros s. apply bind_or. }
  case_match eqn:E.
  - rewrite u8_small by lia. apply writes_byte_byte; lia.
  - rewrite u16_small by lia. apply writes_byte_short; lia.
Qed.

Lemma writes_blob tag d size :
  0 <= tag < 255 -> zlen d < 2 ^ 31 -> size = zlen d ->
  writes (dump_write_blob tag d size) (blob_bytes tag d).
Proof.
  intros Ht Hd -> we st p s Hi Hf. unfold dump_write_blob. zlen_pos.
  replace (zlen d <? 0) with false by lia. eapply pwp_bind_lift_res; [done|].
  set (ext := zlen d / 65536 * 65536).
  pose proof (Z.div_mod (zlen d) 65536 ltac:(lia)) as Hdm.
  pose proof (Z.mod_pos_bound (zlen d) 65536 ltac:(lia)) as Hm.
  assert (He : 0 <= ext <= zlen d) by lia.
  assert (Htail : zread_n d ext (zlen d - ext) = Done (drop (Z.to_nat ext) d)).
  { rewrite zread_n_slice by lia. unfold slice. by rewrite take_ge by (rewrite length_drop; unfold zlen; lia). }
  assert (Hlt : zlen (drop (Z.to_nat ext) d) = zlen d - ext) by (apply zlen_drop; lia).
  assert (Hw : writes (let! r4 :=
      (if (zlen d - ext <? 256) && ((tag =? MMBAK_TAG_BIND_TEXT) || (tag =? MMBAK_TAG_BIND_BLOB))
       then dump_write_byte_byte (tag + 1) (u8 (zlen d - ext))
       else dump_write_byte_short tag (u16 (zlen d - ext))) in
    let! p0 := lift_res (zread_n d ext (zlen d - ext)) in
    let! r5 := dump_write_stream p0 in
    if negb (Z.lor r4 r5 =? 0) then ret (-1) else ret 0) (tail_bytes tag (drop (Z.to_nat ext) d))).
  { rewrite Htail, <- Hlt. apply tail_writes; lia. }
  unfold blob_bytes. cbn zeta. fold ext. apply pwp_bind.
  destruct (65536 <=? zlen d) eqn:Eb.
  - rewrite land_high by lia. fold ext.
    assert (Hbl : u16 (Z.shiftr ext 16) = zlen d / 65536).
    { rewrite Z.shiftr_div_pow2 by lia. unfold ext. change (2 ^ 16) with 65536.
      rewrite Z.div_mul by lia. apply u16_small. lia. }
    rewrite Hbl.
    assert (Hh : writes (let! r1 := dump_write_byte MMBAK_TAG_LARGE_DATA in
        let! r2 := (let! r2 := dump_write_short (zlen d / 65536) in
                    let! r3 := dump_write_stream (take (Z.to_nat ext) d) in ret (Z.lor r2 r3)) in
        ret (Z.lor r1 r2))
        (MMBAK_TAG_LARGE_DATA :: le_bytes 2 (zlen d / 65536) ++ take (Z.to_nat ext) d)).
    { apply (writes_or _ _ [MMBAK_TAG_LARGE_DATA]); [by apply writes_byte|].
      apply writes_or; [apply writes_short|apply writes_stream]; [lia|].
      rewrite zlen_take_le by lia. lia. }
    specialize (Hh we st p s Hi Hf).
    assert (Hrd : zread_n d 0 ext = Done (take (Z.to_nat ext) d)) by (by rewrite zread_n_slice by lia).
    rewrite Hrd. unfold pwp, bind in Hh |- *. simpl in Hh |- *.
    destruct (dump_write_byte _ s) as [[r1 s1]|]; [|done].
    destruct (dump_write_short _ s1) as [[r2 s2]|]; [|done].
    destruct (dump_write_stream _ s2) as [[r3 s3]|]; [|done].
    rewrite <- Z.lor_assoc. simpl in Hh |- *.
    destruct Hh as [[-> Hi']|[-> (p' & Hi')]].
    + apply (pwp_mono _ _ _ _ _ (Hw we st _ s3 Hi' Hf)).
      intros r s'. by rewrite <- app_assoc.
    + right. eauto.
  - assert (Hz : ext = 0) by (unfold ext; rewrite Z.div_small by lia; done).
    apply pwp_ret. rewrite Hz in *. rewrite Z.sub_0_r in *. cbn [negb Z.eqb].
    by apply Hw.
Qed.

(** The data may be the beginning of a longer object. *)
Lemma writes_prefix tag d rest :
  0 <= tag < 255 -> zlen d < 2 ^ 31 ->
  writes (dump_write_blob tag (d ++ rest) (zlen d)) (blob_bytes tag d).
Proof.
  intros Ht Hd. eapply (writes_ext (dump_write_blob tag d (zlen d))); [|by apply writes_blob].
  intros s. unfold dump_write_blob. zlen_pos. replace (zlen d <? 0) with false by lia.
  rewrite !(bind_lift_res _ _ _ (zlen d)) by done.
  pose proof (Z.div_mod (zlen d) 65536 ltac:(lia)) as Hdm.
  pose proof (Z.mod_pos_bound (zlen d) 65536 ltac:(lia)) as Hm.
  assert (Hrd : forall i n, 0 <= i -> 0 <= n -> i + n <= zlen d ->
                zread_n (d ++ rest) i n = zread_n d i n).
  { intros i n Hi0 Hn0 Hl. rewrite !zread_n_slice by (zl). unfold slice. f_equal.
    rewrite drop_app_le by (unfold zlen in *; lia).
    rewrite take_app_le; [done|]. rewrite length_drop. unfold zlen in *. lia. }
  rewrite (Hrd 0) by (rewrite ?land_high; lia).
  unfold bind at 1. unfold bind at 8.
  match goal with |- match ?X with _ => _ end = _ => destruct X as [[[[r off] sz] s1]|] eqn:E end; [|done].
  assert (Hos : off + sz = zlen d /\ 0 <= off /\ 0 <= sz).
  { revert E. case_match eqn:Eb; unfold ret.
    - unfold bind. repeat case_match; intros; simplify_eq. rewrite land_high by lia. lia.
    - intros [= <- <- <- <-]. lia. }
  rewrite Hrd by lia. done.
Qed.

(** With a negative size the data is a C string. *)
Lemma writes_cstring tag d :
  0 <= tag < 255 -> zlen d < 2 ^ 31 -> 0 ∉ d ->
  writes (dump_write_blob tag (d ++ [0]) (-1)) (blob_bytes tag d).
Proof.
  intros Ht Hd Hn. eapply writes_ext; [|by apply (writes_prefix tag d [0])].
  intros s. unfold dump_write_blob. change (-1 <? 0) with true. cbn match.
  rewrite strlen_app_nul by done. zlen_pos. by replace (zlen d <? 0) with false by lia.
Qed.
End writes.

(** ** Tables *)

(** The row as the writer sees it: as many columns as the table has. *)
Definition padded (n : nat) (row : list sqlite_value) : list sqlite_value :=
  (fun i => default SV_Null (row !! i)) <$> seq 0 n.

Definition marks (n : nat) : list Z := replicate n tt ≫= (fun _ => str "?,").

Definition insert_head (table : list Z) : list Z :=
  str "REPLACE INTO " ++ dq ++ table ++ dq ++ str " VALUES(".

(** [REPLACE INTO "table" VALUES(?,...,?);] for [n + 1] columns. *)
Definition insert_text (table : list Z) (n : nat) : list Z :=
  insert_head table ++ marks n ++ str "?);".

(** A statement text as [sqlite3_prepare_v2] sees it after [snprintf] into 8192 bytes. *)
Definition sql_seen (text : list Z) : list Z := cstr (take (Z.to_nat 8191) text).

Definition info_sql (table : list Z) : list Z :=
  str "PRAGMA table_info(" ++ dq ++ table ++ dq ++ str ")".

#[export] Instance value_ok_dec v : Decision (value_ok v).
Proof. destruct v; simpl; apply _. Defined.

(** The INSERT statement, with its terminator, fits [sql_buf]. *)
Definition fits (table : list Z) (n : nat) : bool :=
  zlen (insert_head table) + 2 * Z.of_nat n + 2 <? 8192.

Section tables.
Context `{Sq : SqliteRead}.

(** What [dump_rows] returns, the items it writes and the rows it counts.  [None]: the name of
    the table is too long for the buffer, or a value is not one SQLite can give. *)
Definition rows_dump (table : list Z) (condition : option (list Z)) (reverse : bool)
  : option (Z * list item * Z) :=
  let info := sqlite3_query (sql_seen (info_sql table)) in
  let n := length (stmt_rows info) in
  if negb (prepare_rc info =? SQLITE_OK) then Some (prepare_rc info, [], 0)
  else if negb (finalize_rc info =? SQLITE_OK) then Some (finalize_rc info, [], 0)
  else if (n =? 0)%nat then Some (SQLITE_OK, [], 0)
  else
    let stmt := sqlite3_query (sql_seen (select_sql table condition reverse)) in
    if negb (prepare_rc stmt =? SQLITE_OK) then Some (prepare_rc stmt, [], 0)
    else match stmt_rows stmt with
         | [] => Some (finalize_rc stmt, [], 0)
         | rows =>
           if fits table n && bool_decide (Forall (Forall value_ok) (map (padded n) rows))
           then Some (finalize_rc stmt, [Repeated (insert_text table (n - 1)) (map (padded n) rows)],
                      zlen rows)
           else None
         end.
End tables.

(** *** The statement buffer *)

Lemma cstr_app0 l r : cstr (l ++ 0 :: r) = cstr l.
Proof. induction l as [|b l IH]; simpl; [done|]. by rewrite IH. Qed.

Lemma snprintf_seen buf text :
  zlen buf = 8192 ->
  exists buf', snprintf buf text = Done (buf', zlen text) /\ zlen buf' = 8192 /\
               cstr buf' = sql_seen text.
Proof.
  intros Hb. unfold snprintf.
  replace (length buf - 1)%nat with (Z.to_nat 8191) by (unfold zlen in Hb; lia).
  assert (Hs : zlen (take (Z.to_nat 8191) text ++ [0]) <= zlen buf)
    by (rewrite zlen_app, zlen_cons, zlen_nil; unfold zlen in *; rewrite length_take; lia).
  destruct (zwrite_n buf 0 (take (Z.to_nat 8191) text ++ [0])) as [d|] eqn:E.
  - exists d. split; [done|]. split; [by rewrite (zlen_zwrite_n _ _ _ _ E)|].
    unfold zwrite_n in E. case_match; [|done]. injection E as <-. simpl.
    rewrite <- app_assoc. simpl. apply cstr_app0.
  - unfold zwrite_n, in_range in E. case_match eqn:Er; [done|]. zlen_pos. lia.
Qed.

Lemma strlcpy_after t rest x :
  zlen x < zlen rest ->
  exists rest', strlcpy (t ++ rest) (zlen t) x = Done (t ++ x ++ rest', zlen x) /\
                zlen rest' = zlen rest - zlen x.
Proof.
  intros Hx. zlen_pos. unfold strlcpy. rewrite zlen_app.
  replace ((zlen t <? 0) || (zlen t + zlen rest - zlen t <? 0)) with false by lia.
  replace (zlen t + zlen rest - zlen t =? 0) with false by lia.
  rewrite take_ge by (unfold zlen in *; lia).
  exists (0 :: drop (S (length x)) rest).
  assert (Hsplit : rest = take (S (length x)) rest ++ drop (S (length x)) rest) by (by rewrite take_drop).
  rewrite Hsplit at 1.
  rewrite (zwrite_n_app t (take (S (length x)) rest)); [|done|].
  - split; [simpl; by rewrite <- app_assoc|].
    rewrite zlen_cons. unfold zlen in *. rewrite length_drop. lia.
  - rewrite zlen_app, zlen_cons, zlen_nil. unfold zlen in *. rewrite length_take. lia.
Qed.

Lemma snprintf_after buf text :
  zlen buf = 8192 -> zlen text < 8192 ->
  exists rest, snprintf buf text = Done (text ++ rest, zlen text) /\ zlen rest = 8192 - zlen text.
Proof.
  intros Hb Ht. unfold snprintf. rewrite take_ge by (unfold zlen in *; lia).
  exists (0 :: drop (S (length text)) buf).
  rewrite <- (take_drop (S (length text)) buf) at 1.
  rewrite <- (app_nil_l (take _ buf ++ _)).
  rewrite (zwrite_n_app [] (take (S (length text)) buf)); [|done|].
  - split; [simpl; by rewrite <- app_assoc|].
    rewrite zlen_cons. unfold zlen in *. rewrite length_drop. lia.
  - rewrite zlen_app, zlen_cons, zlen_nil. unfold zlen in *. rewrite length_take. lia.
Qed.

Lemma zlen_marks n : zlen (marks n) = 2 * Z.of_nat n.
Proof.
  induction n as [|n IH]; [done|]. unfold marks in *. cbn [replicate mbind list_bind].
  rewrite zlen_app, IH. zstr. lia.
Qed.

Lemma marks_S n : marks (S n) = marks n ++ str "?,".
Proof.
  unfold marks. replace (S n) with (n + 1)%nat by lia.
  by rewrite replicate_add, bind_app.
Qed.

Lemma add_marks_after n t rest :
  2 * Z.of_nat n < zlen rest ->
  exists rest', add_marks n (t ++ rest) (zlen t) = Done (t ++ marks n ++ rest', zlen t + 2 * Z.of_nat n)
                /\ zlen rest' = zlen rest - 2 * Z.of_nat n.
Proof.
  revert t rest. induction n as [|n IH]; intros t rest Hr.
  - exists rest. simpl. rewrite Z.add_0_r. split; [done|lia].
  - cbn [add_marks].
    destruct (strlcpy_after t rest (str "?,")) as (r1 & -> & Hr1); [zstr; lia|]. cbn [res_bind].
    rewrite (app_assoc t). replace (zlen t + zlen (str "?,")) with (zlen (t ++ str "?,")) by (zl).
    destruct (IH (t ++ str "?,") r1) as (r2 & -> & Hr2); [zstr; lia|].
    exists r2. zstr. split; [|lia]. rewrite <- !app_assoc. f_equal. f_equal. zl.
Qed.

Lemma insert_sql_fits buf table n :
  zlen buf = 8192 -> fits table (S n) = true ->
  exists rest, insert_sql buf table (S n) =
    Done (insert_text table n ++ rest, zlen (insert_text table n)).
Proof.
  intros Hb Hf%Z.ltb_lt. unfold insert_sql. fold (insert_head table).
  destruct (snprintf_after buf (insert_head table)) as (r1 & -> & Hr1); [done|lia|]. cbn [res_bind].
  destruct (add_marks_after (S n) (insert_head table) r1) as (r2 & -> & Hr2); [lia|]. cbn [res_bind].
  rewrite marks_S.
  change (str "?,") with (str "?" ++ str ",").
  replace (insert_head table ++ (marks n ++ str "?" ++ str ",") ++ r2)
    with ((insert_head table ++ marks n ++ str "?") ++ str "," ++ r2) by (by rewrite <- !app_assoc).
  replace (zlen (insert_head table) + 2 * Z.of_nat (S n) - 1)
    with (zlen (insert_head table ++ marks n ++ str "?"))
    by (rewrite !zlen_app, zlen_marks; zstr; lia).
  destruct (strlcpy_after (insert_head table ++ marks n ++ str "?") (str "," ++ r2) (str ");"))
    as (r3 & -> & Hr3); [rewrite zlen_app; zstr; lia|]. cbn [res_bind].
  exists r3. unfold insert_text. rewrite <- !app_assoc. f_equal. f_equal.
  rewrite !zlen_app. zstr. lia.
Qed.

Section dump.
Context `{Zl : Zlib} `{ZL : !ZlibLaws Zl} `{Rc : Rc4} `{RL : !Rc4Laws Rc} `{Sq : SqliteRead}.
Context (nc we : bool) (base : list Z) (k0 : rc4_key).

Abbreviation state := (@bstate Zl Rc).
Abbreviation inv := (inv nc we base k0).
Abbreviation writes := (writes nc base k0).

Abbreviation env := (Z * Z * option (list mm_backup_tabdesc) * bool * bool)%type.

(** The stream is lost: the state is sound for some stream, and without a cancellation the
    writing thread has reported an error. *)
Definition lost (a : env) (s : state) : Prop :=
  exists k p, BackupChannel.inv nc nc base k0 (a, u32 k) p s.

(** The codes [dump_rows] leaves with when the stream is lost or the user has canceled. *)
Definition interrupted (r : Z) : Prop := r = SQLITE_ERROR \/ (r = SQLITE_ABORT /\ nc = false).

Lemma writes_lost c b a k p (s : state) :
  writes c b -> inv (a, u32 k) p s -> a.2 = false ->
  pwp (tolerated nc) c (fun r s' => (r = 0 /\ inv (a, u32 k) (p ++ b) s') \/ (r = -1 /\ lost a s')) s.
Proof.
  intros Hw Hi Hf. eapply pwp_mono; [by apply Hw|].
  intros r s' [?|[-> (p' & [])]]; [by left|right]. split; [done|]. exists k, p'. by split; auto.
Qed.

(** One column, and the columns of a row. *)
Lemma dump_column_spec v :
  value_ok v -> exists c, dump_column v = Some c /\ writes c (value_bytes v).
Proof.
  destruct v as [z|bits|b|b| |t]; simpl; intros Hv; (try done); eexists; (split; [done|]).
  - by apply writes_varint.
  - apply (writes_or _ _ _ _ _ [MMBAK_TAG_BIND_FLOAT]); [by apply writes_byte|].
    apply writes_stream. lia.
  - by apply writes_blob.
  - by apply writes_blob.
  - by apply writes_byte.
Qed.

Lemma dump_columns_spec n i row rcount a k p (s : state) :
  inv (a, u32 k) p s -> a.2 = false ->
  Forall value_ok ((fun j => default SV_Null (row !! j)) <$> seq i n) ->
  pwp (tolerated nc) (dump_columns n i row rcount)
    (fun '(e, rc') s' =>
       (e = None /\ rc' = rcount + Z.of_nat n /\
        inv (a, u32 k) (p ++ (((fun j => default SV_Null (row !! j)) <$> seq i n) ≫= value_bytes)) s') \/
       (e = Some SQLITE_ERROR /\ lost a s')) s.
Proof.
  revert i rcount p s. induction n as [|n IH]; intros i rcount p s Hi Hf Hv; simpl.
  - apply pwp_ret. left. rewrite app_nil_r. split; [done|]. split; [lia|done].
  - simpl in Hv. apply Forall_cons in Hv as [Hv1 Hv2].
    destruct (dump_column_spec _ Hv1) as (c & -> & Hw).
    apply pwp_bind. eapply pwp_mono; [by eapply writes_lost|]. simpl.
    intros r s' [[-> Hi']|[-> Hl]]; simpl.
    + eapply pwp_mono; [by apply IH|]. intros [e rc'] s2 [(-> & -> & H)|H]; [|by right].
      left. split; [done|]. split; [lia|]. by rewrite <- app_assoc in H.
    + apply pwp_ret. by right.
Qed.

Lemma set_stmt_count_inv (a : env) m p (s : state) n :
  inv (a, m) p s -> inv (a, n) p (BState (set_stmt_count n (ctx s)) (thr s) (sched s)).
Proof.
  intros [Hc Hf Hs Hn Hwe]. split; auto.
  - by destruct Hc; split.
  - destruct Hf as [Hb|(i & o & Hfo)]; [by left|]. right. exists i, o. by destruct Hfo; split.
  - unfold statics in *. simpl. congruence.
Qed.

Lemma stmt_count_inv (a : env) m p (s : state) : inv (a, m) p s -> stmt_count (ctx s) = m.
Proof. intros [_ _ Hs _ _]. unfold statics in Hs. congruence. Qed.

Lemma dump_row_loop_spec n rows rcount a k p (s : state) :
  inv (a, u32 k) p s -> a.2 = false -> Forall (Forall value_ok) (map (padded n) rows) ->
  pwp (tolerated nc) (dump_row_loop n rows rcount)
    (fun '(e, rc') s' =>
       (e = None /\ rc' = rcount + Z.of_nat n * zlen rows /\
        inv (a, u32 (k + zlen rows)) (p ++ (map (padded n) rows ≫= row_bytes)) s') \/
       (exists c, e = Some c /\ interrupted c /\ lost a s')) s.
Proof.
  revert rcount k p s. induction rows as [|row rows IH]; intros rcount k p s Hi Hf Hv; simpl.
  { apply pwp_ret. left. rewrite app_nil_r, zlen_nil, Z.add_0_r. split; [done|]. split; [lia|done]. }
  apply Forall_cons in Hv as [Hv1 Hv2].
  apply pwp_bind, wp_pwp. eapply wp_mono; [by apply preempt_inv|]. clear s Hi. intros [] s Hi.
  apply pwp_bind_gets. cbn beta. destruct (canceled (ctx s)) eqn:Hca.
  { assert (Hnc : nc = false).
    { destruct nc; [|done]. destruct (inv_nocancel _ _ _ _ _ _ _ Hi eq_refl). congruence. }
    apply pwp_ret. right. eexists. split; [done|]. split; [by right|]. exists k, p.
    destruct Hi. split; auto. congruence. }
  apply pwp_bind. eapply pwp_mono; [by eapply dump_columns_spec|].
  intros [e rc'] s1 [(-> & -> & Hi1)|(-> & Hl)].
  2: { apply pwp_ret. right. eexists. split; [done|]. split; [by left|done]. }
  apply pwp_bind. eapply pwp_mono; [by eapply writes_lost; [by apply writes_byte|..]|]. simpl.
  intros r s2 [[-> Hi2]|[-> Hl]]; simpl.
  2: { apply pwp_ret. right. eexists. split; [done|]. split; [by left|done]. }
  apply pwp_bind_gets, pwp_bind_modify.
  pose proof (set_stmt_count_inv a (u32 k) _ s2 (u32 (k + 1)) Hi2) as Hi3.
  cbn beta. rewrite (stmt_count_inv _ _ _ _ Hi2), u32_add.
  eapply pwp_mono; [by eapply IH|]. intros [e rc'] s3 [(-> & -> & H)|H]; [|by right].
  left. split; [done|]. split; [rewrite zlen_cons; lia|].
  replace (k + zlen (row :: rows)) with (k + 1 + zlen rows) by (rewrite zlen_cons; lia).
  unfold row_bytes at 1. by rewrite <- !app_assoc in *.
Qed.

Definition dumped a k p rc its n (r : Z) (s : state) : Prop :=
  (r = rc /\ inv (a, u32 (k + n)) (p ++ items_bytes its) s) \/ (interrupted r /\ lost a s).

Lemma padded_length n row : length (padded n row) = n.
Proof. unfold padded. by rewrite length_fmap, length_seq. Qed.

Lemma zlen_insert_text table n : fits table (S n) = true -> zlen (insert_text table n) < 65536.
Proof.
  intros Hf%Z.ltb_lt. unfold insert_text. rewrite !zlen_app, zlen_marks. zstr. lia.
Qed.

Lemma dump_rows_spec table condition reverse rc its n a k p (s : state) :
  rows_dump table condition reverse = Some (rc, its, n) ->
  inv (a, u32 k) p s -> a.2 = false ->
  pwp (tolerated nc) (dump_rows table condition reverse) (dumped a k p rc its n) s.
Proof.
  intros Hsp Hi Hf. unfold dump_rows. fold (info_sql table).
  destruct (snprintf_seen (zeros 8192) (info_sql table)) as (b1 & E1 & Hb1 & Hc1); [done|].
  eapply pwp_bind_lift_res; [exact E1|]. cbv beta iota zeta. rewrite Hc1.
  unfold rows_dump in Hsp. set (info := sqlite3_query (sql_seen (info_sql table))) in *.
  assert (Hdone : forall c, Some (c, [], 0) = Some (rc, its, n) ->
            pwp (tolerated nc) (ret c) (dumped a k p rc its n) s).
  { intros c [= <- <- <-]. apply pwp_ret. left. by rewrite Z.add_0_r, app_nil_r. }
  destruct (negb (prepare_rc info =? SQLITE_OK)); [by apply Hdone|].
  destruct (negb (finalize_rc info =? SQLITE_OK)); [by apply Hdone|].
  destruct (length (stmt_rows info) =? 0)%nat eqn:En; [by apply Hdone|].
  destruct (snprintf_seen b1 (select_sql table condition reverse)) as (b2 & E2 & Hb2 & Hc2); [done|].
  eapply pwp_bind_lift_res; [exact E2|]. cbv beta iota zeta. rewrite Hc2.
  set (stmt := sqlite3_query (sql_seen (select_sql table condition reverse))) in *.
  destruct (negb (prepare_rc stmt =? SQLITE_OK)); [by apply Hdone|].
  destruct (stmt_rows stmt) as [|row0 rows] eqn:Er.
  { apply pwp_bind_ret. simpl. apply pwp_bind_ret. simpl. by apply Hdone. }
  destruct (length (stmt_rows info)) as [|m]; [done|].
  destruct (fits table (S m) && _) eqn:Efit; [|done].
  apply andb_prop in Efit as [Efit Eval]. apply bool_decide_eq_true in Eval.
  injection Hsp as <- <- <-. replace (S m - 1)%nat with m by lia.
  destruct (insert_sql_fits b2 table m Hb2 Efit) as (rest & E3).
  apply pwp_bind. eapply pwp_bind_lift_res; [exact E3|]. cbv beta iota.
  set (text := insert_text table m) in *.
  assert (Hw : writes (dump_write_blob MMBAK_TAG_SQL_REPEATED (text ++ rest) (zlen text))
                 (blob_bytes MMBAK_TAG_SQL_REPEATED text)).
  { apply writes_prefix; [done|]. pose proof (zlen_insert_text table m Efit). fold text in H. lia. }
  eapply pwp_mono; [by eapply writes_lost|]. intros r1 s1 [[-> Hi1]|[-> Hl]]; cbn [negb Z.eqb].
  2: { apply pwp_ret. right. split; [by left|done]. }
  apply pwp_bind. eapply pwp_mono; [by eapply dump_row_loop_spec|].
  intros [e rcount] s2 [(-> & -> & Hi2)|(c & -> & Hint & Hl)].
  2: { apply pwp_ret. by right. }
  rewrite zlen_cons. zlen_pos. replace (0 <? 0 + Z.of_nat (S m) * (zlen rows + 1)) with true
    by (symmetry; apply Z.ltb_lt; nia).
  apply pwp_bind. eapply pwp_mono; [by eapply writes_lost; [by apply writes_byte|..]|].
  intros r3 s3 [[-> Hi3]|[-> Hl]]; cbn [negb Z.eqb]; apply pwp_ret; [left|right; split; [by left|done]].
  split; [done|]. rewrite zlen_cons in Hi3. cbn [items_bytes mbind list_bind item_bytes].
  rewrite app_nil_r, Nat.sub_0_r. fold text. cbn [map mbind list_bind] in Hi3.
  rewrite <- !app_assoc in Hi3. rewrite <- !app_assoc. exact Hi3.
Qed.
End dump.

(** * Which items a backup holds

    The schema walk of [mm_backup.c] ([dump_callback], [run_schema_dump_query],
    [mm_backup_run]) as a function from what SQLite answers to the list of items, and the
    proof that the program writes these items and nothing else. *)

(** ** The schema *)

(** Text SQLite hands over as a C string. *)
Definition text_ok (t : list Z) : Prop := (0 ∉ t) /\ zlen t < 2 ^ 31.

#[export] Instance text_ok_dec t : Decision (text_ok t).
Proof. unfold text_ok. apply _. Defined.

(** A result of the reference functions: return code, items written, rows counted, and whether
    the statement [PRAGMA writable_schema=ON] is among the items so far. *)
Definition dump_result : Type := Z * list item * Z * bool.

Section schema.
Context `{Sq : SqliteRead}.
Context (fl : Z) (td : option (list mm_backup_tabdesc)).

Definition table_dump (table : list Z) (cond : option (list Z)) : option (Z * list item * Z) :=
  rd ← rows_dump table cond false;
  let '(rc, its, n) := rd in
  if (rc =? SQLITE_CORRUPT) && bool_decide (cond = None) && has_flag fl MMBAK_FLAG_FIX_CORRUPTION
  then rd2 ← rows_dump table cond true;
       let '(rc2, its2, n2) := rd2 in
       let rc2 := if rc2 =? SQLITE_CORRUPT then SQLITE_OK else rc2 in
       Some (if rc2 =? SQLITE_OK then 0 else -1, its ++ its2, n + n2)
  else Some (if rc =? SQLITE_OK then 0 else -1, its, n).

(** The items for a system table; [None]: the table is passed over. *)
Definition system_items (table : list Z) : option (list item) :=
  if strcmp table (str "sqlite_sequence") =? 0 then Some [Oneshot (str "DELETE FROM sqlite_sequence;")]
  else if sqlite3_strglob (str "sqlite_stat?") table =? 0 then Some [Oneshot (str "ANALYZE sqlite_master;")]
  else if strncmp table (str "sqlite_") 7 =? 0 then None
  else Some [].

(** The condition to dump a table with; [None]: the table is not asked for. *)
Definition asked_for (table : list Z) : option (option (list Z)) :=
  match td with
  | None => Some None
  | Some descs => td_condition <$> bsearch td_table table descs
  end.

Definition create_items (sql : list Z) : list item :=
  if has_flag fl MMBAK_FLAG_NO_CREATE_TABLE then [] else [Oneshot sql].

Definition virtual_items (ws : bool) (table sql : list Z) : list item :=
  if has_flag fl MMBAK_FLAG_NO_CREATE_TABLE then []
  else (if ws then [] else [Oneshot (str "PRAGMA writable_schema=ON;")]) ++ [Oneshot (vt_sql table sql)].

Definition callback_dump (ws : bool) (values : list (option (list Z))) : option dump_result :=
  match values with
  | [Some table; Some type; Some sql] =>
    match system_items table with
    | None => Some (0, [], 0, ws)
    | Some sys =>
      match asked_for table with
      | None => Some (0, sys, 0, ws)
      | Some cond =>
        if strncmp sql (str "CREATE VIRTUAL TABLE") 20 =? 0 then
          if bool_decide (text_ok (vt_sql table sql))
          then Some (0, sys ++ virtual_items ws table sql, 0,
                     ws || negb (has_flag fl MMBAK_FLAG_NO_CREATE_TABLE))
          else None
        else if bool_decide (text_ok sql) then
          if strcmp type (str "table") =? 0 then
            tdp ← table_dump table cond;
            let '(rc, its, n) := tdp in Some (rc, sys ++ create_items sql ++ its, n, ws)
          else Some (0, sys ++ create_items sql, 0, ws)
        else None
      end
    end
  | _ => None
  end.

(** The callbacks of one [sqlite3_exec]; [rc] is what it returns when none of them fails. *)
Fixpoint exec_dump (ws : bool) (rows : list (list (option (list Z)))) (rc : Z) : option dump_result :=
  match rows with
  | [] => Some (rc, [], 0, ws)
  | row :: rows =>
    cd ← callback_dump ws row;
    let '(r, its, n, ws) := cd in
    if r =? 0 then
      ed ← exec_dump ws rows rc;
      let '(r2, its2, n2, ws2) := ed in Some (r2, its ++ its2, n + n2, ws2)
    else Some (SQLITE_ABORT, its, n, ws)
  end.

Definition query_dump (malloc_ok ws : bool) (sql : list Z) : option dump_result :=
  let '(rows, rc) := sqlite3_exec_rows sql in
  ed ← exec_dump ws rows rc;
  let '(r, its, n, ws) := ed in
  if r =? SQLITE_ABORT then Some (MMBAK_RET_FAILED, its, n, ws)
  else if (r =? SQLITE_CORRUPT) && has_flag fl MMBAK_FLAG_FIX_CORRUPTION then
    if negb malloc_ok then Some (r, its, n, ws)
    else
      let '(rows2, rc2) := sqlite3_exec_rows (sql ++ str " ORDER BY rowid DESC") in
      ed2 ← exec_dump ws rows2 rc2;
      let '(r2, its2, n2, ws2) := ed2 in
      Some (if r2 =? SQLITE_OK then MMBAK_RET_OK else MMBAK_RET_FAILED, its ++ its2, n + n2, ws2)
  else Some (if r =? SQLITE_OK then MMBAK_RET_OK else MMBAK_RET_FAILED, its, n, ws).

Fixpoint queries_dump (malloc_ok ws : bool) (qs : list (list Z)) : option dump_result :=
  match qs with
  | [] => Some (MMBAK_RET_OK, [], 0, ws)
  | q :: qs =>
    qd ← query_dump malloc_ok ws q;
    let '(r, its, n, ws) := qd in
    if r =? MMBAK_RET_OK then
      qd2 ← queries_dump malloc_ok ws qs;
      let '(r2, its2, n2, ws2) := qd2 in Some (r2, its ++ its2, n + n2, ws2)
    else Some (r, its, n, ws)
  end.

(** All the items of a backup. *)
Definition db_dump (malloc_ok : bool) : option dump_result :=
  qd ← queries_dump malloc_ok false [query_tables; query_sequence; query_others];
  let '(r, its, n, ws) := qd in
  Some (r, its ++ (if (r =? MMBAK_RET_OK) && ws
                   then [Oneshot (str "PRAGMA writable_schema=OFF;")] else []), n, ws).
End schema.

Lemma items_bytes_app a b : items_bytes (a ++ b) = items_bytes a ++ items_bytes b.
Proof. unfold items_bytes. apply bind_app. Qed.

#[local] Opaque dump_rows dump_write_blob.

Section schema_facts.
Context `{Zl : Zlib} `{ZL : !ZlibLaws Zl} `{Rc : Rc4} `{RL : !Rc4Laws Rc} `{Sq : SqliteRead}.
Context (nc we : bool) (base : list Z) (k0 : rc4_key).
Context (fl sp : Z) (td : option (list mm_backup_tabdesc)).

Abbreviation state := (@bstate Zl Rc).
Abbreviation I ws k := (inv nc we base k0 (fl, sp, td, ws, false, u32 k)).

Definition stream_lost (s : state) : Prop :=
  exists ws k p, inv nc nc base k0 (fl, sp, td, ws, false, u32 k) p s.

(** Giving up because of the user. *)
Lemma canceled_lost ws k p (s : state) :
  I ws k p s -> canceled (ctx s) = true -> nc = false /\ stream_lost s.
Proof.
  intros Hi Hca. assert (Hnc : nc = false).
  { destruct nc; [|done]. destruct (inv_nocancel _ _ _ _ _ _ _ Hi eq_refl). congruence. }
  split; [done|]. exists ws, k, p. destruct Hi. split; auto. congruence.
Qed.

(** A function of the schema dump did what the reference says, or left with one of the codes in
    [bad] because the stream is lost or the user has canceled. *)
Definition outcome (bad : Z -> Prop) k p (res : dump_result) (r : Z) (s : state) : Prop :=
  let '(rc, its, n, ws) := res in
  (r = rc /\ I ws (k + n) (p ++ items_bytes its) s) \/
  (bad r /\ stream_lost s).

Lemma inv_fields ws k p (s : state) :
  I ws k p s -> flags (ctx s) = fl /\ tabdesc (ctx s) = td /\ writable_schema (ctx s) = ws.
Proof. intros [_ _ Hs _ _]. unfold statics in Hs. by injection Hs. Qed.

Definition failed (r : Z) : Prop := r = -1.

Lemma oneshot_spec c sql ws k p (s : state) :
  writes nc base k0 c (blob_bytes MMBAK_TAG_SQL_ONESHOT sql) -> I ws k p s ->
  pwp (tolerated nc) c (outcome failed k p (0, [Oneshot sql], 0, ws)) s.
Proof.
  intros Hw Hi. eapply pwp_mono; [by eapply writes_lost|]. simpl.
  intros r s' [[-> H]|[-> (k' & p' & H)]]; [left|right].
  - unfold items_bytes. simpl. by rewrite app_nil_r, Z.add_0_r.
  - split; [done|]. by exists ws, k', p'.
Qed.

Lemma literal_spec l ws k p (s : state) :
  zlen (str l) < 2 ^ 31 -> I ws k p s ->
  pwp (tolerated nc) (literal_oneshot l) (outcome failed k p (0, [Oneshot (str l)], 0, ws)) s.
Proof. intros Hl Hi. apply oneshot_spec; [|done]. unfold literal_oneshot. by apply writes_blob. Qed.

Lemma set_ws_inv ws ws' k p (s : state) :
  I ws k p s -> I ws' k p (BState (set_writable_schema ws' (ctx s)) (thr s) (sched s)).
Proof.
  intros [Hc Hf Hs Hn Hwe]. split; auto.
  - by destruct Hc; split.
  - destruct Hf as [Hb|(i & o & Hfo)]; [by left|]. right. exists i, o. by destruct Hfo; split.
  - unfold statics in *. simpl. congruence.
Qed.

Lemma dump_system_table_spec table ws k p (s : state) :
  I ws k p s ->
  pwp (tolerated nc) (dump_system_table table)
    (fun early s' =>
       (early = match system_items table with None => Some 0 | Some _ => None end /\
        I ws k (p ++ items_bytes (default [] (system_items table))) s') \/
       (early = Some (-1) /\ stream_lost s')) s.
Proof.
  intros Hi. unfold dump_system_table, system_items.
  assert (Hlit : forall l, zlen (str l) < 2 ^ 31 ->
    pwp (tolerated nc) (let! r := literal_oneshot l in ret (if negb (r =? 0) then Some (-1) else None))
      (fun early s' => (early = None /\ I ws k (p ++ items_bytes [Oneshot (str l)]) s') \/
                       (early = Some (-1) /\ stream_lost s')) s).
  { intros l Hl. apply pwp_bind. eapply pwp_mono; [by eapply literal_spec|].
    intros r s' [[-> H]|[-> H]]; apply pwp_ret; [left|by right].
    rewrite Z.add_0_r in H. done. }
  repeat case_match; try discriminate.
  1,2: by apply Hlit.
  all: apply pwp_ret; left; simpl; by rewrite app_nil_r.
Qed.

Lemma dump_virtual_table_spec table sql ws k p (s : state) :
  text_ok (vt_sql table sql) -> I ws k p s ->
  pwp (tolerated nc) (dump_virtual_table table sql)
    (outcome failed k p (0, virtual_items fl ws table sql, 0,
                         ws || negb (has_flag fl MMBAK_FLAG_NO_CREATE_TABLE))) s.
Proof.
  intros [Hn Hl] Hi. destruct (inv_fields _ _ _ _ Hi) as (Hfl & Htd & Hws).
  unfold dump_virtual_table, virtual_items. apply pwp_bind_gets. cbn beta. rewrite Hfl, Hws.
  destruct (has_flag fl MMBAK_FLAG_NO_CREATE_TABLE).
  { apply pwp_ret. left. by rewrite orb_false_r, app_nil_r, Z.add_0_r. }
  rewrite orb_true_r.
  assert (Hvt : forall q t, I true k q t ->
    pwp (tolerated nc)
      (let! r := dump_write_blob MMBAK_TAG_SQL_ONESHOT (vt_sql table sql ++ [0]) (-1) in
       if negb (r =? 0) then ret (-1) else ret 0)
      (outcome failed k q (0, [Oneshot (vt_sql table sql)], 0, true)) t).
  { intros q t Ht. apply pwp_bind. eapply pwp_mono;
      [apply (oneshot_spec _ (vt_sql table sql) true); [by apply writes_cstring|exact Ht]|].
    intros r s' [[-> H]|[-> H]]; cbn [negb Z.eqb]; apply pwp_ret;
      [left; split; [reflexivity|exact H]|right; split; [reflexivity|exact H]]. }
  destruct ws.
  - apply pwp_bind_ret. cbn [negb Z.eqb app]. by apply Hvt.
  - apply pwp_bind. apply pwp_bind. eapply pwp_mono; [by eapply literal_spec|].
    intros r s' [[-> H]|[-> H]]; cbn [negb Z.eqb].
    + apply pwp_bind_modify, pwp_ret. cbn [negb Z.eqb].
      rewrite Z.add_0_r in H.
      eapply pwp_mono; [apply Hvt; by apply (set_ws_inv false)|].
      intros r2 s2 [[-> H2]|H2]; [left|by right].
      rewrite items_bytes_app, app_assoc. done.
    + apply pwp_ret. cbn [negb Z.eqb]. apply pwp_ret. by right.
Qed.

Lemma dump_table_rows_spec table cond rc its n ws k p (s : state) :
  table_dump fl table cond = Some (rc, its, n) -> I ws k p s ->
  pwp (tolerated nc) (dump_table_rows table cond) (outcome failed k p (rc, its, n, ws)) s.
Proof.
  intros Hd Hi. destruct (inv_fields _ _ _ _ Hi) as (Hfl & _ & _).
  unfold dump_table_rows. apply pwp_bind_gets. cbn beta. rewrite Hfl.
  unfold table_dump in Hd. destruct (rows_dump table cond false) as [[[rc1 its1] n1]|] eqn:E1; [|discriminate Hd].
  simpl in Hd. apply pwp_bind. eapply pwp_mono; [by eapply dump_rows_spec|].
  assert (Hint : forall r, interrupted nc r -> (r =? SQLITE_CORRUPT) = false /\ (r =? SQLITE_OK) = false).
  { intros r [->|[-> _]]; done. }
  intros r s' [[-> H]|[Hr (k' & p' & H)]].
  2: { destruct (Hint r Hr) as [-> Hok]. cbn [andb]. apply pwp_bind_ret. rewrite Hok. cbn [negb].
       apply pwp_ret. right. split; [done|]. by exists ws, k', p'. }
  case_match eqn:Ec.
  - destruct (rows_dump table cond true) as [[[rc2 its2] n2]|] eqn:E2; [|discriminate Hd].
    simpl in Hd. injection Hd as <- <- <-.
    apply pwp_bind, pwp_bind. eapply pwp_mono; [by eapply dump_rows_spec|].
    intros r s2 [[-> H2]|[Hr (k' & p' & H2)]]; apply pwp_ret.
    + destruct (_ =? SQLITE_OK) eqn:Eok; cbn [negb]; apply pwp_ret; left; (split; [done|]).
      all: rewrite items_bytes_app, app_assoc.
      all: by replace (k + (n1 + n2)) with (k + n1 + n2) by lia.
    + destruct (Hint r Hr) as [-> Hok]. rewrite Hok. cbn [negb]. apply pwp_ret.
      right. split; [done|]. by exists ws, k', p'.
  - injection Hd as <- <- <-. apply pwp_bind_ret.
    destruct (rc1 =? SQLITE_OK) eqn:Eok; cbn [negb]; apply pwp_ret; by left.
Qed.

Lemma outcome_prefix bad k p its0 n0 its n rc ws (r : Z) (s : state) :
  outcome bad (k + n0) (p ++ items_bytes its0) (rc, its, n, ws) r s ->
  outcome bad k p (rc, its0 ++ its, n0 + n, ws) r s.
Proof.
  intros [[-> H]|H]; [left|by right]. split; [done|].
  rewrite items_bytes_app, app_assoc. by replace (k + (n0 + n)) with (k + n0 + n) by lia.
Qed.

Lemma dump_callback_spec ws values res k p (s : state) :
  callback_dump fl td ws values = Some res -> I ws k p s ->
  pwp (tolerated nc) (dump_callback values) (outcome failed k p res) s.
Proof.
  intros Hd Hi. unfold callback_dump in Hd.
  destruct values as [|[table|] [|[type|] [|[sql|] [|]]]]; try done.
  unfold dump_callback. eapply pwp_bind_lift_res; [done|]. eapply pwp_bind_lift_res; [done|].
  eapply pwp_bind_lift_res; [done|]. cbv beta.
  apply pwp_bind, wp_pwp. eapply wp_mono; [by apply preempt_inv|]. clear s Hi. intros [] s Hi.
  apply pwp_bind_gets. cbn beta. destruct (canceled (ctx s)) eqn:Hca.
  { apply pwp_ret. destruct res as [[[rc its] n] ws']. right. split; [done|].
    by destruct (canceled_lost _ _ _ _ Hi Hca). }
  apply pwp_bind. eapply pwp_mono; [by apply dump_system_table_spec|].
  intros early s1 [[-> H1]|[-> H1]].
  2: { apply pwp_ret. destruct res as [[[rc its] n] ws']. by right. }
  destruct (system_items table) as [sys|]; cbn [default] in *.
  2: { injection Hd as <-. apply pwp_ret. left. rewrite Z.add_0_r. by split. }
  apply pwp_bind_gets. cbn beta. destruct (inv_fields _ _ _ _ H1) as (Hfl & Htd & _). rewrite Htd.
  set (ask := match td with None => _ | Some _ => _ end).
  assert (Hask : ask = asked_for td table).
  { unfold ask, asked_for. destruct td as [descs|]; [|done]. by destruct (bsearch td_table table descs). }
  rewrite Hask. destruct (asked_for td table) as [cond|].
  2: { injection Hd as <-. apply pwp_ret. left. by rewrite Z.add_0_r. }
  destruct (strncmp sql (str "CREATE VIRTUAL TABLE") 20 =? 0).
  { case_bool_decide as Ht; [|done]. injection Hd as <-.
    eapply pwp_mono; [by apply dump_virtual_table_spec|].
    intros r s2 H2. apply (outcome_prefix _ _ _ _ 0). by rewrite Z.add_0_r. }
  case_bool_decide as Ht; [|done]. destruct Ht as [Hnul Hlen].
  apply pwp_bind_gets. cbn beta. rewrite Hfl.
  assert (Hcr : pwp (tolerated nc)
     (if has_flag fl MMBAK_FLAG_NO_CREATE_TABLE then ret 0
      else dump_write_blob MMBAK_TAG_SQL_ONESHOT (sql ++ [0]) (-1))
     (outcome failed k (p ++ items_bytes sys) (0, create_items fl sql, 0, ws)) s1).
  { unfold create_items. destruct (has_flag fl MMBAK_FLAG_NO_CREATE_TABLE).
    - apply pwp_ret. left. by rewrite Z.add_0_r, app_nil_r.
    - apply (oneshot_spec _ sql ws); [by apply writes_cstring|exact H1]. }
  apply pwp_bind. eapply pwp_mono; [exact Hcr|]. intros r s2 [[-> H2]|[-> H2]]; cbn [negb Z.eqb].
  2: { apply pwp_ret. destruct res as [[[rc its] n] ws']. by right. }
  rewrite Z.add_0_r, <- app_assoc, <- items_bytes_app in H2.
  destruct (strcmp type (str "table") =? 0).
  - destruct (table_dump fl table cond) as [[[rc its] n]|] eqn:Etd; [|done]. simpl in Hd.
    injection Hd as <-. eapply pwp_mono; [by eapply dump_table_rows_spec|].
    intros r s3 H3. rewrite app_assoc. apply (outcome_prefix _ _ _ _ 0). by rewrite Z.add_0_r.
  - injection Hd as <-. apply pwp_ret. left. by rewrite Z.add_0_r.
Qed.

Definition aborted (r : Z) : Prop := r = SQLITE_ABORT.

(** The code when the stream is lost: a failure, or the cancellation if there was one. *)
Definition given_up (r : Z) : Prop :=
  r = MMBAK_RET_FAILED \/ (nc = false /\ r = MMBAK_RET_CANCELED).

Lemma exec_callbacks_spec rows rc ws res k p (s : state) :
  exec_dump fl td ws rows rc = Some res -> I ws k p s ->
  pwp (tolerated nc) (exec_callbacks rows rc) (outcome aborted k p res) s.
Proof.
  revert ws res k p s. induction rows as [|row rows IH]; intros ws res k p s Hd Hi; simpl in Hd.
  { injection Hd as <-. apply pwp_ret. left. by rewrite app_nil_r, Z.add_0_r. }
  destruct (callback_dump fl td ws row) as [[[[r its] n] ws1]|] eqn:Ec; [|discriminate Hd].
  simpl in Hd. cbn [exec_callbacks]. apply pwp_bind.
  eapply pwp_mono; [by eapply dump_callback_spec|].
  intros r' s1 [[-> H]|[-> H]].
  2: { cbn [negb Z.eqb]. apply pwp_ret. destruct res as [[[? ?] ?] ?]. by right. }
  destruct (r =? 0) eqn:Er; cbn [negb].
  - destruct (exec_dump fl td ws1 rows rc) as [[[[r2 its2] n2] ws2]|] eqn:Ee; [|discriminate Hd].
    injection Hd as <-. eapply pwp_mono; [by eapply IH|]. intros r3 s3. apply outcome_prefix.
  - injection Hd as <-. apply pwp_ret. by left.
Qed.

Lemma run_schema_dump_query_spec malloc_ok sql ws res k p (s : state) :
  query_dump fl td malloc_ok ws sql = Some res -> I ws k p s ->
  pwp (tolerated nc) (run_schema_dump_query malloc_ok sql) (outcome given_up k p res) s.
Proof.
  intros Hd Hi. unfold run_schema_dump_query, query_dump, sqlite3_exec_dump in *.
  assert (Hpre : forall q ws' k' (t : state) (c : cm state Z) res',
    I ws' k' q t ->
    (forall t', I ws' k' q t' -> canceled (ctx t') = false -> pwp (tolerated nc) c (outcome given_up k p res') t') ->
    pwp (tolerated nc) (preempt ;;; let! b := get canceled in
      if b then ret MMBAK_RET_CANCELED else c) (outcome given_up k p res') t).
  { intros q ws' k' t c res' Ht Hc. apply pwp_bind, wp_pwp.
    eapply wp_mono; [by apply preempt_inv|]. intros [] t' Ht'. apply pwp_bind_gets. cbn beta.
    destruct (canceled (ctx t')) eqn:Hca; [|by apply Hc].
    destruct (canceled_lost _ _ _ _ Ht' Hca).
    apply pwp_ret. destruct res' as [[[? ?] ?] ?]. right. split; [by right|done]. }
  eapply Hpre; [exact Hi|]. clear s Hi. intros s Hi _.
  destruct (sqlite3_exec_rows sql) as [rows rc].
  destruct (exec_dump fl td ws rows rc) as [[[[r its] n] ws1]|] eqn:Ee; [|discriminate Hd].
  simpl in Hd. apply pwp_bind. eapply pwp_mono; [by eapply exec_callbacks_spec|].
  assert (Hab : forall t, stream_lost t -> pwp (tolerated nc)
     (preempt ;;; let! c := get canceled in ret (if c then MMBAK_RET_CANCELED else MMBAK_RET_FAILED))
     (fun r t' => given_up r /\ stream_lost t') t).
  { intros t (ws' & k' & p' & Ht). apply pwp_bind, wp_pwp.
    eapply wp_mono; [by apply preempt_inv|]. intros [] t' Ht'. apply pwp_bind_gets, pwp_ret. cbn beta.
    split; [|by exists ws', k', p']. destruct (canceled (ctx t')) eqn:Hca; [|by left].
    right. split; [|done]. destruct nc; [|done].
    destruct (inv_nocancel _ _ _ _ _ _ _ Ht' eq_refl). congruence. }
  intros r' s1 [[-> H]|[-> H]].
  2: { change (SQLITE_ABORT =? SQLITE_ABORT) with true. cbn match. eapply pwp_mono; [by apply Hab|].
       intros r2 s2 H2. destruct res as [[[? ?] ?] ?]. by right. }
  destruct (r =? SQLITE_ABORT) eqn:Eab.
  { injection Hd as <-. apply pwp_bind, wp_pwp.
    eapply wp_mono; [by apply preempt_inv|]. intros [] t' Ht'. apply pwp_bind_gets, pwp_ret. cbn beta.
    destruct (canceled (ctx t')) eqn:Hca; [right|by left].
    destruct (canceled_lost _ _ _ _ Ht' Hca). split; [by right|done]. }
  apply pwp_bind_gets. cbn beta. destruct (inv_fields _ _ _ _ H) as (Hfl & _ & _). rewrite Hfl.
  destruct ((r =? SQLITE_CORRUPT) && has_flag fl MMBAK_FLAG_FIX_CORRUPTION).
  2: { injection Hd as <-. apply pwp_ret. by left. }
  destruct (negb malloc_ok); [injection Hd as <-; apply pwp_ret; by left|].
  destruct (sqlite3_exec_rows (sql ++ str " ORDER BY rowid DESC")) as [rows2 rc2].
  destruct (exec_dump fl td ws1 rows2 rc2) as [[[[r2 its2] n2] ws2]|] eqn:Ee2; [|discriminate Hd].
  injection Hd as <-. apply pwp_bind. eapply pwp_mono; [by eapply exec_callbacks_spec|].
  intros r3 s3 [[-> H3]|[-> H3]]; apply pwp_ret.
  - left. split; [done|]. rewrite items_bytes_app, app_assoc.
    by replace (k + (n + n2)) with (k + n + n2) by lia.
  - right. split; [by left|done].
Qed.

Lemma run_queries_spec malloc_ok qs ws res k p (s : state) :
  queries_dump fl td malloc_ok ws qs = Some res -> I ws k p s ->
  pwp (tolerated nc) (run_queries malloc_ok qs) (outcome given_up k p res) s.
Proof.
  revert ws res k p s. induction qs as [|q qs IH]; intros ws res k p s Hd Hi; simpl in Hd.
  { injection Hd as <-. apply pwp_ret. left. by rewrite app_nil_r, Z.add_0_r. }
  destruct (query_dump fl td malloc_ok ws q) as [[[[r its] n] ws1]|] eqn:Ec; [|discriminate Hd].
  simpl in Hd. cbn [run_queries]. apply pwp_bind.
  eapply pwp_mono; [by eapply run_schema_dump_query_spec|].
  intros r' s1 [[-> H]|[Hg H]].
  2: { assert (Hne : (r' =? MMBAK_RET_OK) = false) by (destruct Hg as [->|[_ ->]]; done).
       rewrite Hne. cbn [negb]. apply pwp_ret. destruct res as [[[? ?] ?] ?]. by right. }
  destruct (r =? MMBAK_RET_OK) eqn:Er; cbn [negb].
  - destruct (queries_dump fl td malloc_ok ws1 qs) as [[[[r2 its2] n2] ws2]|] eqn:Ee; [|discriminate Hd].
    injection Hd as <-. eapply pwp_mono; [by eapply IH|]. intros r3 s3. apply outcome_prefix.
  - injection Hd as <-. apply pwp_ret. by left.
Qed.
End schema_facts.

(** ** A whole run *)

Section whole_run.
Context `{Zl : Zlib} `{ZL : !ZlibLaws Zl} `{Rc : Rc4} `{RL : !Rc4Laws Rc} `{Sq : SqliteRead}.

Abbreviation state := (@bstate Zl Rc).

Lemma encrypted_nil fl k0 : encrypted fl k0 [] = ([], k0).
Proof. unfold encrypted. case_match; [apply rc4_nil|done]. Qed.

(** The state in which the dump starts: the thread has just been created, and [f] holds the
    placeholder of the section. *)
Lemma start_inv z k f f' fl td sc :
  drep z [] [] -> f_pos f' = zlen (f_data f') ->
  Forall (Forall (fun e => e <> EvCancel)) sc ->
  inv true false (f_data f') k (fl, u32 (ftell f), td, false, false, u32 0) []
    (BState (set_fp f' (set_sec_size 0 (set_stmt_count 0 (set_canceled false
       (set_tabdesc td (init_ctx z k f fl)))))) WLock sc).
Proof.
  intros Hz Hf Hsc. split; [| |done|done|done].
  - split; simpl; try done. intros _. split; [by exists [], []|]. split; [done|by exists 0].
  - right. exists [], []. split; simpl; try done.
    unfold file_ok. rewrite encrypted_nil, app_nil_r. by simpl.
Qed.

Lemma finish_inv nc we base k0 fl sp td ws n p (s : state) :
  inv nc we base k0 (fl, sp, td, ws, false, n) p s ->
  inv nc we base k0 (fl, sp, td, ws, true, n) p (BState (set_in_finish true (ctx s)) (thr s) (sched s)).
Proof.
  intros [Hc Hf Hs Hn Hwe]. split; auto.
  - by destruct Hc; split.
  - destruct Hf as [Hb|(i & o & [? ? ? Hfi ?])]; [by left|]. right. exists i, o. split; auto.
    intros Hfin. split; [done|]. by destruct (Hfi Hfin).
  - unfold statics in *. simpl. congruence.
Qed.

Lemma dump_write_end_spec nc we base k0 fl sp td ws n p (s : state) :
  inv nc we base k0 (fl, sp, td, ws, false, n) p s ->
  wp dump_write_end
    (fun r s' => inv nc we base k0 (fl, sp, td, ws, true, n) p s' /\
                 r = if write_error (ctx s') then -1 else 0) s.
Proof.
  intros Hi. unfold dump_write_end, pthread_mutex_lock. apply wp_bind.
  eapply wp_mono; [by apply preempt_inv|]. intros [] s1 H1.
  apply wp_bind_modify, wp_bind_gets. cbn beta. pose proof (finish_inv _ _ _ _ _ _ _ _ _ _ _ H1).
  by destruct (write_error _) eqn:E; apply wp_ret; rewrite E.
Qed.

Lemma join_spec nc we base k0 st p n (s : state) :
  inv nc we base k0 st p s ->
  pwp (tolerated nc) (join_loop n) (fun _ s' => inv nc we base k0 st p s' /\ thr s' = WExit) s.
Proof.
  revert s. induction n as [|n IH]; intros s Hi; simpl; apply pwp_bind_gets; destruct (thr s) eqn:Ht.
  all: try (by apply pwp_ret).
  all: try (by apply pwp_fail; left).
  all: apply pwp_bind; eapply pwp_mono; [by apply wait_inv|]; intros [] s'; apply IH.
Qed.

Lemma section_bytes_length fl n : length (section_bytes fl n) = 8%nat.
Proof. done. Qed.

(** What a complete run leaves in the file behind [old]: the header of the section, and its
    contents [o], which is what [deflate] made of [p]. *)
Definition section_written (old : list Z) (fl : Z) (k0 : rc4_key) (p : list Z) (s : state) : Prop :=
  exists o, inflates o p /\
            f_data (fp (ctx s)) = old ++ section_bytes fl (u32 (zlen o)) ++ (encrypted fl k0 o).1.

Definition off_items (ws : bool) : list item :=
  if ws then [Oneshot (str "PRAGMA writable_schema=OFF;")] else [].

Lemma run_bail_spec E rc (Q : Z -> state -> Prop) s :
  Q rc (BState (set_canceled true (ctx s)) (thr s) (sched s)) -> pwp E (run_bail rc) Q s.
Proof.
  intros HQ. unfold run_bail. apply pwp_bind_gets. cbn beta. destruct (canceled (ctx s)) eqn:Hca.
  - apply pwp_bind_ret, pwp_ret. destruct s as [[] ? ?]. simpl in *. by rewrite Hca.
  - by apply pwp_bind_modify, pwp_ret.
Qed.

Lemma run_finish_spec os rc old fl td ws k k0 p (s : state) :
  fseek_rc os = 0 -> zlen old < 2 ^ 32 ->
  inv true false (old ++ section_bytes fl 0) k0 (fl, u32 (zlen old), td, ws, false, u32 k) p s ->
  pwp (tolerated true) (run_finish os rc)
    (fun r s' => write_error (ctx s') = false -> f_err (fp (ctx s')) = false ->
       r = 0 /\ stmt_count (ctx s') = u32 k /\
       section_written old fl k0 (p ++ items_bytes (off_items ws)) s') s.
Proof.
  intros Hos Hold Hi. unfold run_finish. apply pwp_bind_gets. cbn beta.
  destruct (inv_fields _ _ _ _ _ _ _ _ _ _ _ Hi) as (_ & _ & Hws). rewrite Hws.
  assert (Hoff : pwp (tolerated true)
    (if ws then literal_oneshot "PRAGMA writable_schema=OFF;" else ret 0)
    (outcome true false (old ++ section_bytes fl 0) k0 fl (u32 (zlen old)) td failed k p (0, off_items ws, 0, ws)) s).
  { unfold off_items. destruct ws; [by apply literal_spec|].
    apply pwp_ret. left. by rewrite Z.add_0_r, app_nil_r. }
  apply pwp_bind. eapply pwp_mono; [exact Hoff|]. clear s Hi Hws Hoff.
  intros r s [[-> Hi]|[-> (ws' & k' & p' & Hi)]]; cbn [negb Z.eqb].
  2: { apply run_bail_spec. simpl. pose proof (inv_error _ _ _ _ _ _ _ Hi eq_refl). congruence. }
  rewrite Z.add_0_r in Hi.
  apply pwp_bind, wp_pwp. eapply wp_mono; [by apply dump_write_end_spec|]. clear s Hi.
  intros r s [Hi ->]. destruct (write_error (ctx s)) eqn:He; cbn [negb Z.eqb].
  { apply run_bail_spec. simpl. congruence. }
  apply pwp_bind. unfold pthread_join. apply pwp_bind_gets.
  eapply pwp_mono; [by apply join_spec|]. clear s Hi He. intros [] s [Hi Ht].
  apply pwp_bind_gets. cbn beta. rewrite Hos. cbn [negb Z.eqb].
  pose proof (inv_statics _ _ _ _ _ _ _ Hi) as Hst. unfold statics in Hst.
  injection Hst as Hfl Hsp _ _ _ Hsc. rewrite Hfl, Hsp.
  destruct (fwrite1 (fseek_to (fp (ctx s)) (u32 (zlen old))) (section_bytes fl (sec_size (ctx s))))
    as [n f'] eqn:Ew.
  apply pwp_bind_modify.
  destruct (fwrite1_cases _ _ _ _ Ew ltac:(done)) as [(-> & Hd & _)|(-> & Herr)].
  2: { apply run_bail_spec. simpl. congruence. }
  cbn [Z.ltb Z.compare]. apply pwp_bind_modify, pwp_ret. simpl. intros Hwe _.
  split; [done|]. split; [done|].
  destruct (inv_fifo _ _ _ _ _ _ _ Hi) as [[Hb|[Hb|Hb]]|(i & o & Hfo)]; [congruence|congruence| |].
  { destruct (inv_nocancel _ _ _ _ _ _ _ Hi eq_refl). congruence. }
  exists o. destruct Hfo as [_ _ (Hfd & _ & _ & Hsz) _ Hex]. split; [by apply Hex|].
  rewrite Hfl in Hfd. cbn [ctx fp set_canceled set_fp]. rewrite Hd. cbn [fseek_to f_pos f_data].
  rewrite Hfd, Hsz, u32_small, to_nat_zlen by (zlen_pos; lia).
  rewrite <- app_assoc, take_app_length. f_equal. f_equal.
  rewrite <- drop_drop, drop_app_length.
  by rewrite (drop_app_length' (section_bytes fl 0)).
Qed.

Lemma db_dump_inv fl td m r its n ws :
  db_dump fl td m = Some (r, its, n, ws) ->
  exists its0, queries_dump fl td m false [query_tables; query_sequence; query_others]
                 = Some (r, its0, n, ws) /\
               (r = MMBAK_RET_OK -> its = its0 ++ off_items ws).
Proof.
  unfold db_dump. destruct (queries_dump _ _ _ _ _) as [[[[r0 its0] n0] ws0]|]; [|done].
  simpl. intros [= <- <- <- <-]. exists its0. split; [done|]. intros ->. by destruct ws0.
Qed.

Lemma mm_backup_run_spec os desc z k f fl sc t its n ws :
  pthread_create_rc os = 0 -> fseek_rc os = 0 ->
  sqlite3_exec_rc (str "SAVEPOINT dump; PRAGMA writable_schema=ON;") = SQLITE_OK ->
  drep z [] [] -> f_pos f = zlen (f_data f) -> zlen (f_data f) < 2 ^ 32 ->
  Forall (Forall (fun e => e <> EvCancel)) sc ->
  db_dump fl (sorted_tabdesc desc) (malloc_query os) = Some (MMBAK_RET_OK, its, n, ws) ->
  (desc = [] \/ malloc_desc os = true) ->
  pwp (tolerated true) (mm_backup_run os desc)
    (fun r s' => write_error (ctx s') = false -> f_err (fp (ctx s')) = false ->
       r = 0 /\ stmt_count (ctx s') = u32 n /\
       section_written (f_data f) fl k (items_bytes its) s')
    (BState (init_ctx z k f fl) t sc).
Proof.
  intros Hpt Hfs Hsp Hz Hf Hlen Hsc Hd Hdesc. unfold mm_backup_run.
  replace (negb (bool_decide (desc = [])) && negb (malloc_desc os)) with false
    by (destruct Hdesc as [->| ->]; [done|by rewrite andb_false_r]).
  unfold run_start. apply pwp_bind_bind, pwp_bind_modify, pwp_bind_bind, pwp_bind_modify,
    pwp_bind_bind, pwp_bind_modify, pwp_bind_modify.
  rewrite Hpt. cbn [negb Z.eqb]. apply pwp_bind_modify. rewrite Hsp. cbn [negb Z.eqb SQLITE_OK].
  apply pwp_bind_gets. cbn [ctx thr sched fp flags set_tabdesc set_canceled set_stmt_count set_sec_size init_ctx].
  destruct (fwrite1 f (section_bytes fl 0)) as [m f'] eqn:Ew. apply pwp_bind_modify.
  destruct (fwrite1_cases _ _ _ _ Ew ltac:(done)) as [(-> & Hfd & Hfp)|(-> & Herr)].
  2: { cbn [Z.ltb Z.compare]. apply run_bail_spec. simpl. congruence. }
  cbn [Z.ltb Z.compare].
  rewrite Hf, to_nat_zlen, firstn_all, drop_ge, app_nil_r in Hfd by lia.
  assert (Hfp' : f_pos f' = zlen (f_data f')) by (rewrite Hfp, Hf, Hfd; zl).
  destruct (db_dump_inv _ _ _ _ _ _ _ Hd) as (its0 & Hq & Hits).
  pose proof (start_inv z k f f' fl (sorted_tabdesc desc) sc Hz Hfp' Hsc) as Hi.
  apply pwp_bind. eapply pwp_mono; [eapply run_queries_spec; [exact Hq|exact Hi]|].
  intros r s [[-> H]|[Hg (ws' & k' & p' & H)]].
  2: { assert (Hne : (r =? MMBAK_RET_OK) = false) by (destruct Hg as [->|[_ ->]]; done).
       rewrite Hne. cbn [negb]. apply run_bail_spec. simpl.
       pose proof (inv_error _ _ _ _ _ _ _ H eq_refl). congruence. }
  change (MMBAK_RET_OK =? MMBAK_RET_OK) with true. cbn [negb].
  rewrite (Hits eq_refl), items_bytes_app. rewrite Hfd in H.
  unfold ftell in H. rewrite Hf in H.
  eapply pwp_mono; [by apply (run_finish_spec os _ (f_data f) fl (sorted_tabdesc desc) ws n k)|].
  done.
Qed.
End whole_run.
