(* ===== verification/BackupProps.v ===== *)
(** * The backup writer: theorems

    What [mm_backup_init] and [mm_backup_run] together leave in the file, which tables a list
    of descriptors selects, and three behaviours of the code that a caller does not expect:
    an error of the writing thread that the caller never sees, a loop that cancellation makes
    endless, and the statement buffer of [dump_rows] running over. *)

From stdpp Require Import sorting.
From S2P Require Import Prelude CLib Streams Backup BackupChannel BackupFacts.

(** ** Opening the output *)

Section init.
Context `{Zl : Zlib} `{ZL : !ZlibLaws Zl} `{Rc : Rc4} `{RL : !Rc4Laws Rc}.

(** [fopen(path, "wb")] gives an empty file, [fopen(path, "rb+")] the old one at its start. *)
Definition fopen_ok (os : os_answers) (flags : Z) : Prop :=
  match fopen_result os with
  | None => True
  | Some f => f_pos f = 0 /\ (has_flag flags MMBAK_FLAG_INCREMENTAL = false -> f_data f = [])
  end.

Lemma open_output_end os flags f :
  fopen_ok os flags -> open_output os flags = Some f -> f_pos f = zlen (f_data f).
Proof.
  unfold fopen_ok, open_output. destruct (fopen_result os) as [f0|]; [|done]. intros [Hp Hd].
  destruct (has_flag flags MMBAK_FLAG_INCREMENTAL).
  - destruct (fread1 f0 8) as [[h|] f1]; [|done]. case_match; [done|]. case_match; [done|].
    by intros [= <-].
  - destruct (fwrite1 f0 (header_bytes MMBAK_VERSION)) as [n f1] eqn:Ew.
    destruct (fwrite1_cases _ _ _ _ Ew ltac:(done)) as [(-> & Hfd & Hfp)|(-> & _)]; [|done].
    intros [= <-]. rewrite Hfp, Hfd, Hp, Hd by done. done.
Qed.

Lemma has_flag_lor_no_cipher flags :
  has_flag (Z.lor flags MMBAK_FLAG_NO_CIPHER) MMBAK_FLAG_INCREMENTAL
  = has_flag flags MMBAK_FLAG_INCREMENTAL.
Proof. unfold has_flag. rewrite Z.land_lor_distr_l. by rewrite Z.lor_0_r. Qed.

Lemma mm_backup_init_inv os k flags c :
  fopen_ok os flags -> mm_backup_init os k flags = Some c ->
  exists z, drep z [] [] /\ c = init_ctx z (key c) (fp c) (Backup.flags c) /\
            f_pos (fp c) = zlen (f_data (fp c)).
Proof.
  intros Hos. unfold mm_backup_init. case_match; [done|].
  destruct (deflateInit _) as [z|] eqn:Ez; [|done]. apply deflateInit_rep in Ez.
  assert (Hfin : forall rk fl, fopen_ok os fl ->
    match open_output os fl with None => None | Some f => Some (init_ctx z rk f fl) end = Some c ->
    exists z, drep z [] [] /\ c = init_ctx z (key c) (fp c) (Backup.flags c) /\
              f_pos (fp c) = zlen (f_data (fp c))).
  { intros rk fl Hfl. destruct (open_output os fl) as [f|] eqn:Eo; [|done]. intros [= <-].
    exists z. split; [done|]. split; [done|]. by apply (open_output_end os fl). }
  destruct k as [[|b bs]|]; apply Hfin; try done.
  all: unfold fopen_ok in *; by rewrite has_flag_lor_no_cipher.
Qed.
End init.

Section correct.
Context `{Zl : Zlib} `{ZL : !ZlibLaws Zl} `{Rc : Rc4} `{RL : !Rc4Laws Rc} `{Sq : SqliteRead}.

Lemma mm_backup_finish_fp (c : @mm_backup_ctx Zl Rc) : mm_backup_finish c = fp c.
Proof. unfold mm_backup_finish. by destruct (canceled c). Qed.

(** C2: a backup of a database, whatever the scheduling of the two threads: if the user does
    not cancel, no error is reported by the writing thread or by stdio, [mm_backup_run]
    returns 0, counts the rows, and the file ends in a section whose header holds the flags
    and the size of the compressed data, and whose data, once decrypted and inflated, is
    the encoding of the items the database asks for; the one thing that can keep it from
    returning is that the writing thread gets no turn. *)
Theorem mm_backup_run_correct os k flags c desc t sc its n ws :
  fopen_ok os flags -> mm_backup_init os k flags = Some c ->
  pthread_create_rc os = 0 -> fseek_rc os = 0 -> (desc = [] \/ malloc_desc os = true) ->
  sqlite3_exec_rc (str "SAVEPOINT dump; PRAGMA writable_schema=ON;") = SQLITE_OK ->
  zlen (f_data (fp c)) < 2 ^ 32 ->
  Forall (Forall (fun e => e <> EvCancel)) sc ->
  db_dump (Backup.flags c) (sorted_tabdesc desc) (malloc_query os) = Some (MMBAK_RET_OK, its, n, ws) ->
  match mm_backup_run os desc (BState c t sc) with
  | Done (r, s') =>
    write_error (ctx s') = false -> f_err (fp (ctx s')) = false ->
    r = 0 /\ mm_backup_statistics (ctx s') = u32 n /\
    exists o, inflates o (items_bytes its) /\
      f_data (mm_backup_finish (ctx s')) =
        f_data (fp c) ++ section_bytes (Backup.flags c) (u32 (zlen o)) ++
        (encrypted (Backup.flags c) (key c) o).1
  | Stuck f => f = Blocked
  end.
Proof.
  intros Hfo Hin Hpt Hfs Hdesc Hsp Hlen Hsc Hd.
  destruct (mm_backup_init_inv os k flags c Hfo Hin) as (z & Hz & Hc & Hpos).
  pose proof (mm_backup_run_spec os desc z (key c) (fp c) (Backup.flags c) sc t its n ws
                Hpt Hfs Hsp Hz Hpos Hlen Hsc Hd Hdesc) as H.
  rewrite <- Hc in H. unfold pwp in H.
  destruct (mm_backup_run os desc (BState c t sc)) as [[r s']|f]; [|by destruct H as [|[]]].
  intros Hwe Hfe. destruct (H Hwe Hfe) as (-> & Hst & o & Ho & Hfd). split; [done|].
  split; [done|]. exists o. by rewrite mm_backup_finish_fp.
Qed.

(** C27: the producer's side of the buffer: for any schedule without cancellation, from a sound
    state, [dump_write_stream] either appends exactly its bytes to the stream of bytes the
    writing thread will compress, in order, or reports that the thread has failed; it never
    writes outside a buffer, never touches the buffer the thread is reading, and its loop
    ends. *)
Theorem dump_write_stream_in_order base k0 st p d s :
  BackupChannel.inv true false base k0 st p s -> st.1.2 = false -> zlen d < 2 ^ 31 ->
  match dump_write_stream d s with
  | Done (r, s') =>
    (r = 0 /\ BackupChannel.inv true false base k0 st (p ++ d) s') \/
    (r = -1 /\ write_error (ctx s') = true)
  | Stuck f => f = Blocked
  end.
Proof.
  intros Hi Hf Hd. pose proof (dump_write_stream_spec true false base k0 st p d s Hi Hf Hd) as H.
  unfold pwp in H. destruct (dump_write_stream d s) as [[r s']|f]; [|by destruct H as [|[]]].
  destruct H as [H|(-> & p' & H)]; [by left|right]. split; [done|].
  by apply (inv_error _ _ _ _ _ _ _ H).
Qed.

(** a list of table descriptors selects exactly the tables it names: the binary search of
    [dump_callback] in the sorted copy [mm_backup_run] makes finds a descriptor for a table
    exactly when the caller gave one for it, and what it finds is one of those given, an
    empty condition replaced by none. *)
Theorem tabdesc_selects desc table :
  desc <> [] ->
  match asked_for (sorted_tabdesc desc) table with
  | Some cond => exists d, d ∈ desc /\ td_table d = table /\
                           cond = (if bool_decide (td_condition d = Some []) then None
                                   else td_condition d)
  | None => forall d, d ∈ desc -> td_table d <> table
  end.
Proof.
  intros Hne. unfold asked_for, sorted_tabdesc. destruct desc as [|d0 desc0]; [done|].
  set (desc := d0 :: desc0) in *. clearbody desc.
  assert (Hk : forall d, td_table (adjust_desc d) = td_table d)
    by (intros [t [[|]|]]; done).
  assert (Hs : StronglySorted (key_le td_table) (map adjust_desc (qsort td_table desc))).
  { pose proof (qsort_sorted td_table desc) as Hs. induction Hs as [|d l Hs IH Hd]; simpl; constructor; auto.
    apply Forall_map. eapply Forall_impl; [exact Hd|]. unfold key_le. intros x Hx. simpl.
    by rewrite !Hk. }
  pose proof (bsearch_spec td_table table _ Hs) as H.
  destruct (bsearch td_table table _) as [a|]; simpl.
  - destruct H as [Ha Ht]. apply list_elem_of_fmap in Ha as (d & -> & Hd).
    rewrite qsort_perm in Hd. exists d. rewrite Hk in Ht. split; [done|]. split; [done|].
    by destruct d as [t [[|]|]].
  - intros d Hd Ht. apply (H (adjust_desc d)); [|by rewrite Hk].
    apply list_elem_of_fmap_2. by rewrite qsort_perm.
Qed.

(** C38: cancelling while the buffer is full makes [dump_write_stream] loop without end: with
    [in_full] and [canceled] set it no longer waits, it copies nothing, and no number of turns
    is enough; the lock is held meanwhile, so the writing thread cannot empty the buffer. *)
Theorem dump_write_stream_cancel_spins fuel d (s : bstate) :
  canceled (ctx s) = true -> in_full (ctx s) = true -> write_error (ctx s) = false ->
  avail (current (ctx s)) = INPUT_BUFFER_SIZE -> zlen (data (current (ctx s))) = INPUT_BUFFER_SIZE ->
  d <> [] -> zlen d < 2 ^ 31 ->
  write_stream_loop fuel d s = Stuck OutOfFuel.
Proof.
  intros Hca Hfu Hwe Hav Hda Hd Hlen.
  assert (H : pwp (eq OutOfFuel) (write_stream_loop fuel d) (fun _ _ => False) s).
  2: { unfold pwp in H. by destruct (write_stream_loop fuel d s) as [[]|]; [|rewrite <- H]. }
  revert s Hca Hfu Hwe Hav Hda.
  induction fuel as [|fuel IH]; intros s Hca Hfu Hwe Hav Hda; destruct d as [|x d]; try done.
  cbn [write_stream_loop]. apply pwp_bind_gets, pwp_bind.
  assert (Hw : forall n Q, Q tt s -> pwp (eq OutOfFuel) (wait_not_full n) Q s).
  { intros n Q HQ. destruct n; cbn [wait_not_full]; apply pwp_bind_gets; cbn beta;
      rewrite Hfu, Hca; by apply pwp_ret. }
  apply Hw. apply pwp_bind_gets. cbn beta zeta. rewrite Hwe.
  fold (current (ctx s)). rewrite Hav.
  set (n := if _ <? _ then _ else _).
  assert (Hn : n = 0).
  { unfold n, INPUT_BUFFER_SIZE in *. zlen_pos. rewrite u32_small by lia.
    rewrite (proj2 (Z.ltb_lt _ _)); [done|]. rewrite zlen_cons. zlen_pos. lia. }
  rewrite Hn. change (take (Z.to_nat 0) (x :: d)) with (@nil Z).
  assert (Hz : zwrite_n (data (current (ctx s))) INPUT_BUFFER_SIZE [] = Done (data (current (ctx s)))).
  { unfold zwrite_n, in_range. rewrite Hda.
    change ((0 <=? INPUT_BUFFER_SIZE) && _ && _) with true. cbn match.
    rewrite <- Hda, to_nat_zlen, firstn_all, drop_ge by (simpl; lia). by rewrite app_nil_r. }
  eapply pwp_bind_lift_res; [exact Hz|].
  apply pwp_bind_modify, pwp_bind_modify, pwp_bind_modify. cbn [ctx thr sched].
  change (drop (Z.to_nat 0) (x :: d)) with (x :: d).
  assert (Hu : u32 (INPUT_BUFFER_SIZE + 0) = INPUT_BUFFER_SIZE) by done.
  rewrite Hu. destruct s as [c tt' sc]. unfold current in *. simpl in *.
  apply IH; simpl; by by_p_buf c.
Qed.
End correct.

(** ** A small database, to run the program on *)

Module Small.
#[export] Existing Instances Toy.cipher Toy.cipher_laws Toy.zlib Toy.zlib_laws.

Definition table : list Z := str "t".
Definition rows : list (list sqlite_value) :=
  [[SV_Integer 300; SV_Text (str "hi")]; [SV_Null; SV_Integer (-2)]].

(** One table [t] with two columns and two rows. *)
#[export] Instance db : SqliteRead := {|
  sqlite3_query := fun sql =>
    if bool_decide (sql = info_sql table) then StmtResult 0 [[]; []] 0
    else if bool_decide (sql = select_sql table None false) then StmtResult 0 rows 0
    else StmtResult SQLITE_ERROR [] 0;
  sqlite3_exec_rows := fun sql =>
    if bool_decide (sql = query_tables)
    then ([[Some table; Some (str "table"); Some (str "CREATE TABLE t(a,b)")]], 0)
    else ([], 0);
  sqlite3_exec_rc := fun _ => SQLITE_OK;
  sqlite3_strglob := fun _ _ => 1;
  mprintf_q := fun s => s
|}.

Definition items : list item :=
  [Oneshot (str "CREATE TABLE t(a,b)"); Repeated (insert_text table 1) rows].

(** [lim]: what the disk takes of each write. *)
Definition os (lim : list Z) : os_answers := OsAnswers true true true (Some (File [] 0 false lim)) 0 0.

Definition sched : list (list event) := replicate 60 [EvWriter].

Definition opened (lim : list Z) : mm_backup_ctx :=
  init_ctx (Toy.Comp [] [] [] false) (rc4_set_key [7; 9])
           (File (header_bytes MMBAK_VERSION) 8 false lim) 0.

(** Return code, error flag of the thread, and file of a run. *)
Definition observe (lim : list Z) : option (Z * bool * list Z) :=
  match mm_backup_run (os lim) [] (BState (opened lim) WExit sched) with
  | Done (r, s) => Some (r, write_error (ctx s), f_data (fp (ctx s)))
  | Stuck _ => None
  end.
End Small.

#[local] Existing Instances Toy.cipher Toy.cipher_laws Toy.zlib Toy.zlib_laws Small.db.

Lemma mm_backup_run_correct_witness :
  match mm_backup_run (Small.os []) [] (BState (Small.opened []) WExit Small.sched) with
  | Done (r, s') =>
    write_error (ctx s') = false -> f_err (fp (ctx s')) = false ->
    r = 0 /\ mm_backup_statistics (ctx s') = u32 2 /\
    exists o, inflates o (items_bytes Small.items) /\
      f_data (mm_backup_finish (ctx s')) =
        header_bytes MMBAK_VERSION ++ section_bytes 0 (u32 (zlen o)) ++
        (encrypted 0 (rc4_set_key [7; 9]) o).1
  | Stuck f => f = Blocked
  end.
Proof.
  apply (mm_backup_run_correct (Small.os []) (Some [7; 9]) 0 (Small.opened []) [] WExit Small.sched
           Small.items 2 false); try reflexivity.
  - by vm_compute.
  - by left.
  - unfold Small.sched. apply Forall_replicate. repeat constructor; discriminate.
Defined.

(** The run of the witness does return, without an error, and its file has the section. *)
Example small_run :
  exists d, Small.observe [] =
    Some (0, false, header_bytes MMBAK_VERSION ++ section_bytes 0 (zlen d) ++ d).
Proof.
  exists (Toy.add_from 16 (Toy.mark (items_bytes Small.items) ++ [0])). vm_compute. reflexivity.
Qed.

Lemma observe_run lim r e d :
  Small.observe lim = Some (r, e, d) ->
  exists s, mm_backup_run (Small.os lim) [] (BState (Small.opened lim) WExit Small.sched) = Done (r, s) /\
            write_error (ctx s) = e /\ f_data (fp (ctx s)) = d.
Proof.
  unfold Small.observe. destruct (mm_backup_run _ _ _) as [[r' s]|f]; [|discriminate].
  intros [= -> <- <-]. by exists s.
Qed.

(** An error of the writing thread after the last call of the producer is not seen: here the
    disk takes the headers and nothing else, the thread reports the error, the section is
    empty, and [mm_backup_run] returns 0. *)
Theorem mm_backup_run_hides_write_error :
  exists s, mm_backup_run (Small.os [8; 0]) [] (BState (Small.opened [8; 0]) WExit Small.sched)
              = Done (0, s) /\
            write_error (ctx s) = true /\
            f_data (fp (ctx s)) = header_bytes MMBAK_VERSION ++ section_bytes 0 0.
Proof.
  apply observe_run. vm_compute. reflexivity.
Qed.

Lemma dump_write_stream_in_order_witness :
  let s := BState (set_fp (File [] 0 false []) (set_sec_size 0 (set_stmt_count 0 (set_canceled false
             (set_tabdesc None (init_ctx (Toy.Comp [] [] [] false) (rc4_set_key [])
                (File [] 0 false []) 1)))))) WLock [[EvWriter]; [EvWriter]] in
  match dump_write_stream [1; 2; 3] s with
  | Done (r, s') =>
    (r = 0 /\ BackupChannel.inv true false [] (rc4_set_key [])
                (1, u32 0, None, false, false, u32 0) [1; 2; 3] s') \/
    (r = -1 /\ write_error (ctx s') = true)
  | Stuck f => f = Blocked
  end.
Proof.
  apply (dump_write_stream_in_order [] (rc4_set_key []) (1, u32 0, None, false, false, u32 0) [] [1; 2; 3]).
  - apply (start_inv (Zl := Toy.zlib) (Rc := Toy.cipher) (Toy.Comp [] [] [] false) (rc4_set_key []) (File [] 0 false []) (File [] 0 false [])
             1 None [[EvWriter]; [EvWriter]]); [by apply (deflateInit_rep 0)|done|].
    repeat constructor; discriminate.
  - reflexivity.
  - by vm_compute.
Defined.

Lemma tabdesc_selects_witness :
  match asked_for (sorted_tabdesc [Tabdesc (str "u") (Some (str "id>3")); Tabdesc (str "t") (Some [])])
                  (str "t") with
  | Some cond => exists d, d ∈ [Tabdesc (str "u") (Some (str "id>3")); Tabdesc (str "t") (Some [])] /\
      td_table d = str "t" /\
      cond = (if bool_decide (td_condition d = Some []) then None else td_condition d)
  | None => forall d, d ∈ [Tabdesc (str "u") (Some (str "id>3")); Tabdesc (str "t") (Some [])] ->
      td_table d <> str "t"
  end.
Proof. apply tabdesc_selects. discriminate. Defined.

(** A context whose current buffer is full. *)
Definition full_ctx : mm_backup_ctx :=
  set_canceled true (set_in_full true (set_buffer0 (Buffer 8192 (zeros 8192)) (Small.opened []))).

Lemma dump_write_stream_cancel_spins_witness :
  write_stream_loop 50 [1] (BState full_ctx WLock []) = Stuck OutOfFuel.
Proof.
  apply dump_write_stream_cancel_spins; try reflexivity. discriminate.
Defined.

(** ** The statement buffer of [dump_rows] *)

Lemma strlcpy_two buf off :
  zlen buf = 8192 -> 0 <= off ->
  strlcpy buf off (str "?,") = Stuck OutOfBounds \/
  (off <= 8192 /\ exists buf', strlcpy buf off (str "?,") = Done (buf', 2) /\ zlen buf' = 8192).
Proof.
  intros Hb Ho. unfold strlcpy. rewrite Hb.
  destruct ((off <? 0) || (8192 - off <? 0)) eqn:E; [by left|right]. split; [lia|].
  destruct (8192 - off =? 0) eqn:E0; [by exists buf|].
  destruct (zwrite_n buf off (take (Z.to_nat (8192 - off) - 1) (str "?,") ++ [0])) as [d|f] eqn:Ew.
  - exists d. split; [done|]. by rewrite (zlen_zwrite_n _ _ _ _ Ew).
  - exfalso. unfold zwrite_n, in_range in Ew. case_match eqn:Er; [done|].
    assert (Hl : zlen (take (Z.to_nat (8192 - off) - 1) (str "?,") ++ [0]) <= 8192 - off).
    { rewrite zlen_app. unfold zlen. rewrite length_take. simpl. lia. }
    zlen_pos. lia.
Qed.

Lemma add_marks_overflow n buf off :
  zlen buf = 8192 -> 0 <= off -> (1 <= n)%nat -> 8192 < off + 2 * Z.of_nat n - 2 ->
  add_marks n buf off = Stuck OutOfBounds.
Proof.
  revert buf off. induction n as [|n IH]; intros buf off Hb Ho Hn Hl; [lia|]. cbn [add_marks].
  destruct (strlcpy_two buf off Hb Ho) as [->|(Hle & buf' & -> & Hb')]; [done|].
  cbn [res_bind]. apply IH; [done|lia|lia|lia].
Qed.

Section overflow.
Context `{Zl : Zlib} `{Rc : Rc4} `{Sq : SqliteRead}.

(** the INSERT statement [dump_rows] builds can leave [sql_buf]: when the name of the table
    and two bytes a column need more than the 8192 bytes of the buffer, and SQLite has accepted
    the two shorter statements before it, the function writes outside the buffer instead of
    returning an error. *)
Theorem dump_rows_sql_overflow table condition reverse (s : bstate) :
  let info := sqlite3_query (sql_seen (info_sql table)) in
  let stmt := sqlite3_query (sql_seen (select_sql table condition reverse)) in
  prepare_rc info = SQLITE_OK -> finalize_rc info = SQLITE_OK -> stmt_rows info <> [] ->
  prepare_rc stmt = SQLITE_OK -> stmt_rows stmt <> [] ->
  8192 < zlen (insert_head table) + 2 * zlen (stmt_rows info) - 2 ->
  dump_rows table condition reverse s = Stuck OutOfBounds.
Proof.
  intros info stmt Hp1 Hf1 Hr1 Hp2 Hr2 Hlen.
  assert (H : pwp (eq OutOfBounds) (dump_rows table condition reverse) (fun _ _ => False) s).
  2: { unfold pwp in H. by destruct (dump_rows table condition reverse s) as [[]|]; [|rewrite <- H]. }
  unfold dump_rows. fold (info_sql table).
  destruct (snprintf_seen (zeros 8192) (info_sql table)) as (b1 & E1 & Hb1 & Hc1); [done|].
  eapply pwp_bind_lift_res; [exact E1|]. cbv beta iota zeta. rewrite Hc1. fold info.
  rewrite Hp1, Hf1. cbn [negb Z.eqb SQLITE_OK].
  destruct (length (stmt_rows info)) as [|m] eqn:En; [by destruct (stmt_rows info)|].
  cbn [Nat.eqb].
  destruct (snprintf_seen b1 (select_sql table condition reverse)) as (b2 & E2 & Hb2 & Hc2); [done|].
  eapply pwp_bind_lift_res; [exact E2|]. cbv beta iota zeta. rewrite Hc2. fold stmt.
  rewrite Hp2. cbn [negb Z.eqb SQLITE_OK].
  destruct (stmt_rows stmt); [done|].
  apply pwp_bind_bind, pwp_bind. unfold insert_sql. fold (insert_head table).
  destruct (snprintf_seen b2 (insert_head table)) as (b3 & E3 & Hb3 & _); [done|].
  rewrite E3. cbn [res_bind].
  rewrite add_marks_overflow; [done|done|apply zlen_nonneg|lia|]. unfold zlen in *. lia.
Qed.
End overflow.

(** A table whose name is 4200 bytes long, with 2000 columns, which is within the limits of SQLite. *)
Definition wide_db : SqliteRead := {|
  sqlite3_query := fun sql =>
    if bool_decide (take 6 sql = str "PRAGMA") then StmtResult 0 (replicate 2000 []) 0
    else StmtResult 0 [[SV_Null]] 0;
  sqlite3_exec_rows := fun _ => ([], 0);
  sqlite3_exec_rc := fun _ => 0;
  sqlite3_strglob := fun _ _ => 1;
  mprintf_q := fun s => s
|}.

Lemma dump_rows_sql_overflow_witness :
  dump_rows (Sq := wide_db) (replicate 4200 97) None false (BState (Small.opened []) WLock [])
  = Stuck OutOfBounds.
Proof.
  apply (dump_rows_sql_overflow (Sq := wide_db)); try (vm_compute; reflexivity).
  all: vm_compute; discriminate.
Defined.
