(* ===== verification/Recover.v ===== *)
(** * The backup reader: mm_recover.c

    [mm_recover_run] reads the sections of a backup file, decrypts and inflates them and runs
    the items on a database.  The state holds the context, the calls made to SQLite so far
    and what other threads will do to the [canceled] flag.

    SQLite is given by its answers: the return code of a call may depend on all the calls up
    to it ([SqliteWrite]).  A prepared statement is a pointer that may be null, live, or the
    address of a statement already finalized; using the last is the fault [UseAfterFree].
    [malloc] is given by the sizes it grants.  Log messages are not modelled. *)

From S2P Require Import Prelude CLib Streams Backup.

(** ** SQLite, write side *)

Inductive sql_call :=
| CExec (sql : list Z)
| CPrepare (sql : list Z)
| CBindNull (i : Z)
| CBindInt (i v : Z)
| CBindDouble (i : Z) (bits : list Z)
| CBindText (i : Z) (bytes : list Z)
| CBindBlob (i : Z) (bytes : list Z)
| CStep
| CReset
| CFinalize.

Class SqliteWrite := {
  (** the code of the last call of the history, the latest call first *)
  sqlite3_rc : list sql_call -> Z;
  (** a prepare that succeeds gives no statement for an empty text *)
  prepare_null : list sql_call -> bool;
  malloc_ok : Z -> bool;
  (** how many rows a statement may give before this model stops *)
  max_steps : nat
}.

Section recover.
Context `{Zl : Zlib} `{Rc : Rc4} `{Sw : SqliteWrite}.

Record mm_recover_ctx := RCtx {
  r_flags : Z;  (* flags of the section *)
  r_ist : option istate;  (* inflate state inside zstrm; None: not initialised *)
  r_in : list Z;  (* the avail_in bytes at zstrm.next_in *)
  rc4_template : rc4_key;
  r_key : rc4_key;  (* rc4_key *)
  r_fp : FILE;  (* fp *)
  r_sec_size : Z;  (* sec_size *)
  succ_count : Z;
  fail_count : Z;
  section_count : Z;
  version : Z;
  r_canceled : bool  (* canceled *)
}.

Definition set_r_flags (v : Z) (c : mm_recover_ctx) : mm_recover_ctx :=
  RCtx v (r_ist c) (r_in c) (rc4_template c) (r_key c) (r_fp c) (r_sec_size c)
    (succ_count c) (fail_count c) (section_count c) (version c) (r_canceled c).
Definition set_r_ist (v : option istate) (c : mm_recover_ctx) : mm_recover_ctx :=
  RCtx (r_flags c) v (r_in c) (rc4_template c) (r_key c) (r_fp c) (r_sec_size c)
    (succ_count c) (fail_count c) (section_count c) (version c) (r_canceled c).
Definition set_r_in (v : list Z) (c : mm_recover_ctx) : mm_recover_ctx :=
  RCtx (r_flags c) (r_ist c) v (rc4_template c) (r_key c) (r_fp c) (r_sec_size c)
    (succ_count c) (fail_count c) (section_count c) (version c) (r_canceled c).
Definition set_r_key (v : rc4_key) (c : mm_recover_ctx) : mm_recover_ctx :=
  RCtx (r_flags c) (r_ist c) (r_in c) (rc4_template c) v (r_fp c) (r_sec_size c)
    (succ_count c) (fail_count c) (section_count c) (version c) (r_canceled c).
Definition set_r_fp (v : FILE) (c : mm_recover_ctx) : mm_recover_ctx :=
  RCtx (r_flags c) (r_ist c) (r_in c) (rc4_template c) (r_key c) v (r_sec_size c)
    (succ_count c) (fail_count c) (section_count c) (version c) (r_canceled c).
Definition set_r_sec_size (v : Z) (c : mm_recover_ctx) : mm_recover_ctx :=
  RCtx (r_flags c) (r_ist c) (r_in c) (rc4_template c) (r_key c) (r_fp c) v (succ_count
    c) (fail_count c) (section_count c) (version c) (r_canceled c).
Definition set_succ_count (v : Z) (c : mm_recover_ctx) : mm_recover_ctx :=
  RCtx (r_flags c) (r_ist c) (r_in c) (rc4_template c) (r_key c) (r_fp c) (r_sec_size c)
    v (fail_count c) (section_count c) (version c) (r_canceled c).
Definition set_fail_count (v : Z) (c : mm_recover_ctx) : mm_recover_ctx :=
  RCtx (r_flags c) (r_ist c) (r_in c) (rc4_template c) (r_key c) (r_fp c) (r_sec_size c)
    (succ_count c) v (section_count c) (version c) (r_canceled c).
Definition set_section_count (v : Z) (c : mm_recover_ctx) : mm_recover_ctx :=
  RCtx (r_flags c) (r_ist c) (r_in c) (rc4_template c) (r_key c) (r_fp c) (r_sec_size c)
    (succ_count c) (fail_count c) v (version c) (r_canceled c).
Definition set_version (v : Z) (c : mm_recover_ctx) : mm_recover_ctx :=
  RCtx (r_flags c) (r_ist c) (r_in c) (rc4_template c) (r_key c) (r_fp c) (r_sec_size c)
    (succ_count c) (fail_count c) (section_count c) v (r_canceled c).
Definition set_r_canceled (v : bool) (c : mm_recover_ctx) : mm_recover_ctx :=
  RCtx (r_flags c) (r_ist c) (r_in c) (rc4_template c) (r_key c) (r_fp c) (r_sec_size c)
    (succ_count c) (fail_count c) (section_count c) (version c) v.

Record rstate := RState {
  rctx : mm_recover_ctx;
  calls : list sql_call;     (* latest first *)
  polls : list bool          (* whether the n-th look at canceled finds it set by then *)
}.

Definition rupd (f : mm_recover_ctx -> mm_recover_ctx) : cm rstate unit :=
  modify (fun s => RState (f (rctx s)) (calls s) (polls s)).
Definition rget {A} (f : mm_recover_ctx -> A) : cm rstate A := gets (fun s => f (rctx s)).

(** A call of SQLite and its return code. *)
Definition sqlite (c : sql_call) : cm rstate Z :=
  modify (fun s => RState (rctx s) (c :: calls s) (polls s)) ;;;
  gets (fun s => sqlite3_rc (calls s)).

Definition mm_recover_cancel : cm rstate unit := rupd (set_r_canceled true).

(** Reading [ctx->canceled]. *)
Definition poll_canceled : cm rstate bool :=
  let! ps := gets polls in
  match ps with
  | [] => rget r_canceled
  | b :: rest =>
    modify (fun s => RState (rctx s) (calls s) rest) ;;;
    (if b then mm_recover_cancel else ret tt) ;;;
    rget r_canceled
  end.

(** ** The stream *)

Definition read_header : cm rstate Z :=
  let! f := rget r_fp in
  let '(h, f) := fread1 f 8 in
  rupd (set_r_fp f) ;;;
  match h with
  | None => ret MMBAK_RET_FAILED
  | Some h =>
    if negb (bool_decide (take 6 h = MMBAK_MAGIC)) then ret MMBAK_RET_FAILED
    else
      let v := le_val (drop 6 h) in
      if negb (v =? 1) && negb (v =? 2) then ret MMBAK_RET_FAILED
      else rupd (set_version v) ;;; ret 0
  end.

(** Refilling [in_buf]; [false] is a read error. *)
Definition refill : cm rstate bool :=
  let! c := rget (fun c => c) in
  if bool_decide (r_in c = []) && (0 <? r_sec_size c) then
    let n := if 4096 <? r_sec_size c then 4096 else r_sec_size c in
    let '(got, f) := fread (r_fp c) n in
    rupd (set_r_fp f) ;;;
    if bool_decide (got = []) && f_err f then ret false
    else if bool_decide (got = []) then ret true
    else
      let! plain :=
        (if Z.land (r_flags c) MMBAK_FLAG_NO_CIPHER =? 0 then
           let '(d, k) := rc4 (r_key c) got in rupd (set_r_key k) ;;; ret d
         else ret got) in
      rupd (set_r_in plain) ;;;
      rupd (set_r_sec_size (u32 (r_sec_size c - zlen got))) ;;;
      ret true
  else ret true.

(** The loop around [inflate]: [out] is what is in the caller's buffer so far and [room] the
    rest of it.  [None] is the jump to [bail]. *)
Fixpoint read_loop (fuel : nat) (out : list Z) (room : Z) : cm rstate (option (list Z)) :=
  match fuel with
  | O => fail OutOfFuel
  | S fuel =>
    let! ok := refill in
    if negb ok then ret None
    else
      let! c := rget (fun c => c) in
      match r_ist c with
      | None => fail NullDeref
      | Some st =>
        let r := inflate st (r_in c) room in
        rupd (set_r_ist (Some (zc_state r))) ;;;
        rupd (set_r_in (drop (Z.to_nat (zc_used r)) (r_in c))) ;;;
        let out := out ++ zc_out r in
        let room := room - zlen (zc_out r) in
        if negb (zc_ret r =? Z_OK) && negb (zc_ret r =? Z_STREAM_END) then ret None
        else if (0 <? room) && negb (zc_ret r =? Z_STREAM_END) then read_loop fuel out room
        else ret (Some out)
      end
  end.

(** The return value and the bytes put into the buffer.  Each turn that asks for another one
    uses up input, so the rest of the section bounds the turns. *)
Definition dump_read_stream (size : Z) : cm rstate (Z * list Z) :=
  if size =? 0 then ret (0, [])
  else
    let! c := rget (fun c => c) in
    let! r := read_loop (Z.to_nat (zlen (r_in c) + r_sec_size c + 2)) [] size in
    match r with
    | None => ret (MMBAK_RET_FAILED, [])
    | Some out => ret (zlen out, out)
    end.

(** [None]: the stream ended or failed.  A shift by 64 or more, or beyond the sign bit, has no
    defined value. *)
Fixpoint read_varint_loop (fuel : nat) (v shift : Z) : cm rstate (option Z) :=
  match fuel with
  | O => fail OutOfFuel
  | S fuel =>
    let! (n, bs) := dump_read_stream 1 in
    match bs with
    | [b] =>
      if negb (n =? 1) then ret None
      else
        let part := Z.shiftl (Z.land b 127) shift in
        if (64 <=? shift) || (2 ^ 63 <=? part) then fail IntOverflow
        else
          let v := Z.lor v part in
          if negb (Z.land b 128 =? 0) then read_varint_loop fuel v (shift + 7) else ret (Some v)
    | _ => ret None
    end
  end.

Definition dump_read_varint (minus : bool) : cm rstate (option Z) :=
  let! r := read_varint_loop 12 0 0 in
  match r with
  | None => ret None
  | Some v => ret (Some (if minus then Z.lnot v else v))
  end.

(** ** Items *)

Inductive stmt_ptr := SNull | SLive | SDangling.

Definition sqlite_stmt (p : stmt_ptr) (c : sql_call) : cm rstate Z :=
  match p with
  | SNull => fail NullDeref
  | SLive => sqlite c
  | SDangling => fail UseAfterFree
  end.

(** The buffer [data] points to: on the heap or [databuf], its size, its first bytes. *)
Record dbuf := DBuf { b_heap : bool; b_size : Z; b_bytes : list Z }.

(** The local variables that live across tags; [p_data] is null or equal to [data]. *)
Record locals := Locals {
  l_data : option dbuf;
  l_pdata : bool;
  l_stmt : stmt_ptr;
  l_bind : Z
}.

Definition set_l_data d p (l : locals) : locals := Locals d p (l_stmt l) (l_bind l).
Definition set_l_stmt st (l : locals) : locals := Locals (l_data l) (l_pdata l) st (l_bind l).
Definition set_l_bind i (l : locals) : locals := Locals (l_data l) (l_pdata l) (l_stmt l) i.

(** How a piece of the function ends: with new locals, by [goto bail], by [return]. *)
Inductive flow :=
| Next (l : locals)
| Bail (l : locals)
| Leave (r : Z).

(** Copying [bytes] to [p_data]. *)
Definition buf_store (b : dbuf) (bytes : list Z) : res dbuf :=
  if zlen bytes <=? b_size b
  then Done (DBuf (b_heap b) (b_size b) (bytes ++ drop (length bytes) (b_bytes b)))
  else Stuck OutOfBounds.

(** [p_data[i] = '\0'] *)
Definition buf_terminate (b : dbuf) (i : Z) : res dbuf :=
  if i <? b_size b
  then Done (DBuf (b_heap b) (b_size b)
               (take (Z.to_nat i) (b_bytes b) ++ 0 :: drop (S (Z.to_nat i)) (b_bytes b)))
  else Stuck OutOfBounds.

Definition read_length : cm rstate (option Z) :=
  let! (n, bs) := dump_read_stream 2 in
  if negb (n =? 2) then ret None else ret (Some (le_val bs)).

Definition tag_large_data (l : locals) : cm rstate flow :=
  match l_data l with
  | Some _ => ret (Bail l)
  | None =>
    let! len := read_length in
    match len with
    | None => ret (Bail l)
    | Some length =>
      let! size := lift_res (chk_int ((length + 1) * 65536)) in
      if negb (malloc_ok size) then ret (Bail l)
      else
        let b := DBuf true size [] in
        let! want := lift_res (chk_int (length * 65536)) in
        let! (n, bs) := dump_read_stream want in
        let! b := lift_res (buf_store b bs) in
        if negb (n =? want) then ret (Bail (set_l_data (Some b) (l_pdata l) l))
        else ret (Next (set_l_data (Some b) true l))
    end
  end.

(** Reading the text of a statement after its tag, with a terminator: the buffer, or [goto bail]. *)
Definition read_sql (l : locals) : cm rstate (dbuf * Z + locals) :=
  let! len := read_length in
  match len with
  | None => ret (inr l)
  | Some length =>
    let alloc : option dbuf :=
      if l_pdata l then l_data l
      else if length <? 8192 then Some (DBuf false 8192 [])
      else if malloc_ok (length + 1) then Some (DBuf true (length + 1) [])
      else None in
    match alloc with
    | None => ret (inr l)
    | Some b =>
      let! (n, bs) := dump_read_stream length in
      let! b := lift_res (buf_store b bs) in
      if negb (n =? length) then ret (inr (set_l_data (Some b) true l))
      else
        let! b := lift_res (buf_terminate b length) in
        ret (inl (b, length))
    end
  end.

Definition tag_sql_oneshot (fatal : bool) (l : locals) : cm rstate flow :=
  let! r := read_sql l in
  match r with
  | inr l => ret (Bail l)
  | inl (b, _) =>
    let! rc := sqlite (CExec (cstr (b_bytes b))) in
    if negb (rc =? SQLITE_OK) then
      if fatal then ret (Bail (set_l_data (Some b) true l))
      else
        let! n := rget fail_count in
        rupd (set_fail_count (u32 (n + 1))) ;;;
        ret (Next (set_l_data None false l))
    else
      let! n := rget succ_count in
      rupd (set_succ_count (u32 (n + 1))) ;;;
      ret (Next (set_l_data None false l))
  end.

(** The loop [while (sqlite3_step(stmt) == SQLITE_ROW)] *)
Fixpoint step_loop (fuel : nat) (p : stmt_ptr) : cm rstate unit :=
  match fuel with
  | O => fail OutOfFuel
  | S fuel =>
    let! rc := sqlite_stmt p CStep in
    if rc =? SQLITE_ROW then step_loop fuel p else ret tt
  end.

(** [COMMIT; BEGIN;] after each 256 statements; [false] is [goto bail]. *)
Definition commit_every_256 (fatal : bool) : cm rstate bool :=
  let! n := rget succ_count in
  if n mod 256 =? 0 then
    let! rc := sqlite (CExec (str "COMMIT; BEGIN;")) in
    if negb (rc =? SQLITE_OK) then
      if fatal then ret false
      else
        let! m := rget fail_count in
        rupd (set_fail_count (u32 (m + 1))) ;;; ret true
    else ret true
  else ret true.

Definition tag_end_row (fatal : bool) (l : locals) : cm rstate flow :=
  match l_stmt l with
  | SNull =>
    let! n := rget fail_count in
    rupd (set_fail_count (u32 (n + 1))) ;;;
    ret (Next (set_l_bind 0 l))
  | st =>
    step_loop max_steps st ;;;
    let! rc := sqlite_stmt st CReset in
    if negb (rc =? SQLITE_OK) then
      if fatal then ret (Bail l)
      else
        let! n := rget fail_count in
        rupd (set_fail_count (u32 (n + 1))) ;;;
        ret (Next (set_l_bind 0 l))
    else
      let! n := rget succ_count in
      rupd (set_succ_count (u32 (n + 1))) ;;;
      let! ok := commit_every_256 fatal in
      if negb ok then ret (Bail l) else ret (Next (set_l_bind 0 l))
  end.

(** [if (stmt) sqlite3_bind_...(stmt, ++bind_idx, ...)] *)
Definition bind_value (l : locals) (c : Z -> sql_call) : cm rstate locals :=
  match l_stmt l with
  | SNull => ret l
  | st =>
    let! _rc := sqlite_stmt st (c (l_bind l + 1)) in
    ret (set_l_bind (l_bind l + 1) l)
  end.

Definition tag_bind_varint (tag : Z) (l : locals) : cm rstate flow :=
  let! v := dump_read_varint (tag =? MMBAK_TAG_BIND_VARINT_MINUS) in
  match v with
  | None => ret (Bail l)
  | Some v => let! l := bind_value l (fun i => CBindInt i v) in ret (Next l)
  end.

Definition tag_bind_float (l : locals) : cm rstate flow :=
  let! (n, bits) := dump_read_stream 8 in
  if negb (n =? 8) then ret (Bail l)
  else let! l := bind_value l (fun i => CBindDouble i bits) in ret (Next l).

(** A text or a blob of [length] bytes, after its length was read. *)
Definition bind_data (text : bool) (length : Z) (l : locals) : cm rstate flow :=
  let alloc : option dbuf :=
    if l_pdata l then l_data l
    else if malloc_ok length then Some (DBuf true length []) else None in
  match alloc with
  | None => ret (Bail l)
  | Some b =>
    let! (n, bs) := dump_read_stream length in
    let! b := lift_res (buf_store b bs) in
    if negb (n =? length) then ret (Bail (set_l_data (Some b) true l))
    else
      let! value := lift_res (zread_n (b_bytes b) 0 length) in
      let! l := bind_value l (fun i => if text then CBindText i value else CBindBlob i value) in
      ret (Next (set_l_data None false l))
  end.

Definition tag_bind_data (tag : Z) (l : locals) : cm rstate flow :=
  let! len := read_length in
  match len with
  | None => ret (Bail l)
  | Some length => bind_data (tag =? MMBAK_TAG_BIND_TEXT) length l
  end.

Definition tag_bind_data_short (tag : Z) (l : locals) : cm rstate flow :=
  let! (n, bs) := dump_read_stream 1 in
  match bs with
  | [length_short] =>
    if negb (n =? 1) then ret (Bail l)
    else bind_data (tag =? MMBAK_TAG_BIND_TEXT_SHORT) length_short l
  | _ => ret (Bail l)
  end.

(** The inner switch, for every tag but [END_SQL]. *)
Definition run_row_tag (fatal : bool) (tag : Z) (l : locals) : cm rstate flow :=
  if tag =? MMBAK_TAG_LARGE_DATA then tag_large_data l
  else if tag =? MMBAK_TAG_END_ROW then tag_end_row fatal l
  else if tag =? MMBAK_TAG_BIND_NULL then
    let! l := bind_value l CBindNull in ret (Next l)
  else if (tag =? MMBAK_TAG_BIND_VARINT) || (tag =? MMBAK_TAG_BIND_VARINT_MINUS)
  then tag_bind_varint tag l
  else if tag =? MMBAK_TAG_BIND_FLOAT then tag_bind_float l
  else if (tag =? MMBAK_TAG_BIND_TEXT) || (tag =? MMBAK_TAG_BIND_BLOB) then tag_bind_data tag l
  else if (tag =? MMBAK_TAG_BIND_TEXT_SHORT) || (tag =? MMBAK_TAG_BIND_BLOB_SHORT)
  then tag_bind_data_short tag l
  else ret (Bail l).

(** The loop over the rows of a repeated statement. *)
Fixpoint rows_loop (fuel : nat) (fatal : bool) (l : locals) : cm rstate flow :=
  match fuel with
  | O => fail OutOfFuel
  | S fuel =>
    let! c := poll_canceled in
    if c then
      match l_stmt l with
      | SNull => ret (Leave MMBAK_RET_CANCELED)
      | st => let! _rc := sqlite_stmt st CFinalize in ret (Leave MMBAK_RET_CANCELED)
      end
    else
      let! (n, bs) := dump_read_stream 1 in
      match bs with
      | [tag] =>
        if negb (n =? 1) then ret (Bail l)
        else if tag =? MMBAK_TAG_END_SQL then ret (Next l)
        else
          let! r := run_row_tag fatal tag l in
          match r with
          | Next l => rows_loop fuel fatal l
          | _ => ret r
          end
      | _ => ret (Bail l)
      end
  end.

(** After the loop: the pointer keeps the address of the finalized statement. *)
Definition finalize_repeated (l : locals) : cm rstate flow :=
  match l_stmt l with
  | SNull => ret (Next l)
  | st =>
    let! rc := sqlite_stmt st CFinalize in
    let l := set_l_stmt SDangling l in
    if negb (rc =? SQLITE_OK) then ret (Bail l) else ret (Next l)
  end.

Definition tag_sql_repeated (fuel : nat) (fatal : bool) (l : locals) : cm rstate flow :=
  let! r := read_sql l in
  match r with
  | inr l => ret (Bail l)
  | inl (b, length) =>
    let! rc := sqlite (CPrepare (cstr (take (Z.to_nat length) (b_bytes b)))) in
    let! null := gets (fun s => prepare_null (calls s)) in
    if negb (rc =? SQLITE_OK) && fatal then
      ret (Bail (set_l_stmt SNull (set_l_data (Some b) true l)))
    else
      let st := if negb (rc =? SQLITE_OK) || null then SNull else SLive in
      let! r := rows_loop fuel fatal (Locals None false st 0) in
      match r with
      | Next l => finalize_repeated l
      | _ => ret r
      end
  end.

(** The label [bail]. *)
Definition run_tag_bail (l : locals) : cm rstate Z :=
  match l_stmt l with
  | SNull => ret MMBAK_RET_FAILED
  | st => let! _rc := sqlite_stmt st CFinalize in ret MMBAK_RET_FAILED
  end.

Fixpoint run_tag_loop (fuel : nat) (fatal : bool) (l : locals) : cm rstate Z :=
  match fuel with
  | O => fail OutOfFuel
  | S fuel' =>
    let! c := poll_canceled in
    if c then ret MMBAK_RET_CANCELED
    else
      let! (n, bs) := dump_read_stream 1 in
      if n =? 0 then ret MMBAK_RET_OK
      else
        match bs with
        | [tag] =>
          if negb (n =? 1) then ret MMBAK_RET_FAILED
          else
            let! r :=
              (if tag =? MMBAK_TAG_LARGE_DATA then tag_large_data l
               else if tag =? MMBAK_TAG_SQL_ONESHOT then tag_sql_oneshot fatal l
               else if tag =? MMBAK_TAG_SQL_REPEATED then tag_sql_repeated fuel fatal l
               else ret (Bail l)) in
            match r with
            | Next l => run_tag_loop fuel' fatal l
            | Bail l => run_tag_bail l
            | Leave rc => ret rc
            end
        | _ => ret MMBAK_RET_FAILED
        end
  end.

Definition no_locals : locals := Locals None false SNull 0.

(** [fuel] bounds the tags read in a row; one more than the bytes of the stream is enough. *)
Definition dump_read_and_run_tag (fuel : nat) (fatal : bool) : cm rstate Z :=
  run_tag_loop fuel fatal no_locals.

(** ** Entry points *)

Definition mm_recover_init (malloc_ctx : bool) (fopen_result : option FILE) (k : option (list Z))
  : option mm_recover_ctx :=
  if negb malloc_ctx then None
  else
    let '(tmpl, fl) :=
      match k with
      | Some (b :: bs) => (rc4_set_key (b :: bs), 0)
      | _ => (rc4_set_key [], MMBAK_FLAG_NO_CIPHER)
      end in
    match fopen_result with
    | None => None
    | Some f =>
      let c := RCtx fl None [] tmpl (rc4_set_key []) f 0 0 0 0 0 false in
      match read_header (RState c [] []) with
      | Done (0, s) => Some (rctx s)
      | _ => None
      end
    end.

(** The loop over the sections: what it leaves in [ret]; [None] is the jump to [bail]. *)
Fixpoint section_loop (sections fuel : nat) (fatal : bool) : cm rstate (option Z) :=
  match sections with
  | O => fail OutOfFuel
  | S sections =>
    let! f := rget r_fp in
    let '(sec, f) := fread1 f 8 in
    rupd (set_r_fp f) ;;;
    match sec with
    | None => ret (Some 0)
    | Some sec =>
      rupd (set_r_flags (le_val (take 4 sec))) ;;;
      rupd (set_r_sec_size (le_val (drop 4 sec))) ;;;
      let! n := rget section_count in
      rupd (set_section_count (u32 (n + 1))) ;;;
      match inflateInit with
      | None => ret None
      | Some st =>
        rupd (set_r_ist (Some st)) ;;;
        rupd (set_r_in []) ;;;
        let! c := rget (fun c => c) in
        (if Z.land (r_flags c) MMBAK_FLAG_NO_CIPHER =? 0
         then rupd (set_r_key (rc4_template c)) else ret tt) ;;;
        let! rc := dump_read_and_run_tag fuel fatal in
        if negb (rc =? MMBAK_RET_OK) then ret (Some rc)
        else section_loop sections fuel fatal
      end
    end
  end.

Definition mm_recover_run (sections fuel : nat) (fatal : bool) : cm rstate Z :=
  let! rc := sqlite (CExec (str "PRAGMA foreign_keys=OFF; BEGIN TRANSACTION;")) in
  if negb (rc =? SQLITE_OK) then ret MMBAK_RET_FAILED
  else
    rupd (set_succ_count 0) ;;;
    rupd (set_fail_count 0) ;;;
    rupd (set_section_count 0) ;;;
    let! r := section_loop sections fuel fatal in
    match r with
    | None => ret MMBAK_RET_FAILED
    | Some r =>
      let! rc := sqlite (CExec (str "COMMIT;")) in
      if negb (rc =? SQLITE_OK) then ret MMBAK_RET_FAILED else ret r
    end.

Definition mm_recover_statistics (c : mm_recover_ctx) : Z * Z := (succ_count c, fail_count c).
End recover.
