(* ===== verification/RecoverStream.v ===== *)
(** * Reading back the bytes of a section

    [StreamReader] is what the part of [mm_recover.c] that interprets tags needs from
    [dump_read_stream]: successive reads give successive bytes, and nothing else of the
    context changes.  The instance at the end shows that the decrypting and inflating
    reader keeps this promise for a section whose bytes are in the file. *)

From S2P Require Import Prelude CLib Streams Backup BackupChannel Recover.

Section interface.
Context `{Zl : Zlib} `{Rc : Rc4} `{Sw : SqliteWrite}.

Abbreviation rctxt := (@mm_recover_ctx Zl Rc).
Abbreviation rst := (@rstate Zl Rc).

(** The fields the reading of the stream leaves alone. *)
Definition others (c : rctxt) :=
  (rc4_template c, succ_count c, fail_count c, section_count c, version c, r_canceled c).

(** [R c p]: the bytes still to be read are [p].  [D c]: the end has been seen, and the file is
    behind the section. *)
Class StreamReader (R : rctxt -> list Z -> Prop) (D : rctxt -> Prop) : Prop := {
  sr_read : forall n c cs ps p, R c p -> 0 < n ->
    wp (dump_read_stream n)
       (fun '(k, bs) s' => k = zlen bs /\ bs = take (Z.to_nat n) p /\
          R (rctx s') (drop (Z.to_nat n) p) /\ (p = [] -> D (rctx s')) /\
          others (rctx s') = others c /\ calls s' = cs /\ polls s' = ps)
       (RState c cs ps);
  sr_succ : forall n c p, R c p -> R (set_succ_count n c) p;
  sr_fail : forall n c p, R c p -> R (set_fail_count n c) p
}.
End interface.

(** ** The section in the file *)

Section reader.
Context `{Zl : Zlib} `{ZL : !ZlibLaws Zl} `{Rc : Rc4} `{RL : !Rc4Laws Rc} `{Sw : SqliteWrite}.

Abbreviation rctxt := (@mm_recover_ctx Zl Rc).

(** The bytes of the section not read from the file yet. *)
Definition unread (c : rctxt) : list Z :=
  slice (f_pos (r_fp c)) (r_sec_size c) (f_data (r_fp c)).

(** The section ends at offset [fin] of the file [d], its flags are [fl], and the bytes left in
    it, decrypted and inflated, are [p]. *)
Record section_at (d : list Z) (fin fl : Z) (c : rctxt) (p : list Z) : Prop := SectionAt {
  sa_file : f_data (r_fp c) = d /\ f_lim (r_fp c) = [];
  sa_end : f_pos (r_fp c) + r_sec_size c = fin /\ fin <= zlen d;
  sa_pos : 0 <= f_pos (r_fp c) /\ 0 <= r_sec_size c < 2 ^ 32;
  sa_flags : r_flags c = fl;
  sa_rep : exists st, r_ist c = Some st /\
           irep st (r_in c ++ (encrypted fl (r_key c) (unread c)).1) p
}.

Lemma slice_split {A} (l : list A) i n m :
  0 <= i -> 0 <= m <= n -> slice i n l = slice i m l ++ slice (i + m) (n - m) l.
Proof.
  intros. rewrite <- (take_drop (Z.to_nat m) (slice i n l)) at 1. f_equal.
  - unfold slice. rewrite take_take. f_equal. lia.
  - by apply slice_slice.
Qed.

(** Refilling moves bytes from the file to the input of [inflate]; afterwards there is input
    unless the section is used up. *)
Lemma refill_spec d fin fl c cs ps p :
  section_at d fin fl c p ->
  wp refill
     (fun ok s' => ok = true /\ section_at d fin fl (rctx s') p /\ others (rctx s') = others c /\
        r_ist (rctx s') = r_ist c /\
        (r_in (rctx s') = [] -> unread (rctx s') = []) /\
        zlen (r_in (rctx s')) + r_sec_size (rctx s') = zlen (r_in c) + r_sec_size c /\
        calls s' = cs /\ polls s' = ps)
     (RState c cs ps).
Proof.
  intros Hs. pose proof Hs as [[Hd Hl] [He Hz] [Hp Hn] Hfl (st & Hi & Hr)].
  unfold refill. apply wp_bind_gets. cbn [rctx].
  destruct (bool_decide (r_in c = []) && (0 <? r_sec_size c)) eqn:E.
  - apply andb_prop in E as [E1 E2]. apply bool_decide_eq_true in E1.
    set (n := if 4096 <? r_sec_size c then 4096 else r_sec_size c).
    assert (Hn' : 0 < n <= r_sec_size c) by (unfold n; case_match; lia).
    assert (Hrd : fread (r_fp c) n =
             (slice (f_pos (r_fp c)) n d, File d (f_pos (r_fp c) + n) (f_err (r_fp c)) [])).
    { unfold fread, f_grant. rewrite Hl, Hd, to_nat_zlen, firstn_all.
      rewrite zlen_slice by lia. simpl. rewrite Z.ltb_irrefl, orb_false_r. done. }
    rewrite Hrd. apply wp_bind_modify. cbn [rctx calls polls].
    set (got := slice (f_pos (r_fp c)) n d) in *.
    assert (Hgl : zlen got = n) by (apply zlen_slice; lia).
    assert (Hgne : bool_decide (got = []) = false).
    { apply bool_decide_eq_false. intros Hg. rewrite Hg, zlen_nil in Hgl. lia. }
    rewrite Hgne. cbn [andb].
    assert (Hun : unread c = got ++ slice (f_pos (r_fp c) + n) (r_sec_size c - n) d).
    { unfold unread. rewrite Hd. apply slice_split; lia. }
    assert (Hu : u32 (r_sec_size c - zlen got) = r_sec_size c - n)
      by (rewrite Hgl; apply u32_small; lia).
    assert (Henc : encrypted fl (r_key c) (unread c) =
      ((encrypted fl (r_key c) got).1 ++
       (encrypted fl (encrypted fl (r_key c) got).2 (slice (f_pos (r_fp c) + n) (r_sec_size c - n) d)).1,
       (encrypted fl (encrypted fl (r_key c) got).2 (slice (f_pos (r_fp c) + n) (r_sec_size c - n) d)).2))
      by (rewrite Hun; apply encrypted_app).
    assert (Hplen : zlen (encrypted fl (r_key c) got).1 = n)
      by (rewrite <- Hgl; unfold zlen; by rewrite length_encrypted).
    rewrite E1, Henc in Hr. simpl in Hr.
    assert (Hgoal : forall plain k, plain = (encrypted fl (r_key c) got).1 ->
      k = (encrypted fl (r_key c) got).2 ->
      let c' := set_r_sec_size (u32 (r_sec_size c - zlen got)) (set_r_in plain
                  (set_r_key k (set_r_fp (File d (f_pos (r_fp c) + n) (f_err (r_fp c)) []) c))) in
      section_at d fin fl c' p /\ others c' = others c /\ r_ist c' = r_ist c /\
      (r_in c' = [] -> unread c' = []) /\
      zlen (r_in c') + r_sec_size c' = zlen (r_in c) + r_sec_size c).
    { intros plain k -> -> c'. subst c'. rewrite Hu. split; [|split; [done|split; [done|split]]].
      - split; simpl; [done|lia|lia|done|]. exists st. split; [done|].
        unfold unread. simpl. exact Hr.
      - simpl. intros Hnil. rewrite Hnil, zlen_nil in Hplen. lia.
      - simpl. rewrite Hplen, E1, zlen_nil. lia. }
    unfold encrypted in Hgoal. rewrite Hfl.
    destruct (Z.land fl MMBAK_FLAG_NO_CIPHER =? 0).
    + destruct (rc4 (r_key c) got) as [o k]. apply wp_bind_bind, wp_bind_modify, wp_bind_ret,
        wp_bind_modify, wp_bind_modify, wp_ret. simpl. split; [done|].
      destruct (Hgoal o k eq_refl eq_refl) as (? & ? & ? & ? & ?). repeat split; auto; apply H.
    + apply wp_bind_ret, wp_bind_modify, wp_bind_modify, wp_ret. simpl. split; [done|].
      destruct (Hgoal got (r_key c) eq_refl eq_refl) as (? & ? & ? & ? & ?). repeat split; auto; apply H.
  - apply wp_ret. simpl. repeat split; auto; try (by apply Hs).
    intros Hnil. apply andb_false_iff in E as [E|E].
    + by apply bool_decide_eq_false in E.
    + unfold unread. assert (r_sec_size c = 0) as -> by lia. done.
Qed.

Lemma take_split {A} (l used rest : list A) k :
  l = take (Z.to_nat k) l ++ rest -> 0 <= k <= zlen l -> drop (Z.to_nat k) l = rest.
Proof.
  intros Hl Hk. rewrite <- (take_drop (Z.to_nat k) l) in Hl at 1. by apply app_inv_head in Hl.
Qed.

Lemma section_used_up d fin fl c p : section_at d fin fl c p -> (encrypted fl (r_key c) (unread c)).1 = [] -> r_sec_size c = 0.
Proof.
  intros [[Hd _] [He Hz] [Hp Hn] _ _] Hnil.
  assert (Hul : length (unread c) = 0%nat) by (rewrite <- (length_encrypted fl (r_key c)); by rewrite Hnil).
  unfold unread in Hul. pose proof (zlen_slice (f_data (r_fp c)) (f_pos (r_fp c)) (r_sec_size c) ltac:(lia) ltac:(lia)) as Hl.
  rewrite Hd in Hl, Hul. unfold zlen in Hl at 2. rewrite Hul in Hl. lia.
Qed.

Lemma read_loop_spec d fin fl fuel c cs ps p out room :
  section_at d fin fl c p -> 0 < room -> zlen (r_in c) + r_sec_size c + 1 < Z.of_nat fuel ->
  wp (read_loop fuel out room)
     (fun r s' => r = Some (out ++ take (Z.to_nat room) p) /\
        section_at d fin fl (rctx s') (drop (Z.to_nat room) p) /\
        (p = [] -> r_sec_size (rctx s') = 0) /\
        others (rctx s') = others c /\ calls s' = cs /\ polls s' = ps)
     (RState c cs ps).
Proof.
  revert c out room p. induction fuel as [|fuel IH]; intros c out room p Hs Hroom Hfuel.
  { destruct Hs as [_ _ [_ ?] _ _]. zlen_pos. lia. }
  cbn [read_loop]. apply wp_bind. eapply wp_mono; [by apply (refill_spec d fin fl)|].
  intros ok s1 (-> & Hs1 & Ho & Hist & Hne & Hsz & Hcs & Hps). cbn [negb].
  destruct s1 as [c1 cs1 ps1]. cbn [rctx calls polls] in *. subst cs1 ps1.
  apply wp_bind_gets. cbn [rctx].
  pose proof Hs1 as [[Hd Hl] [He Hz] [Hp Hn] Hfl (st & Hi & Hr)].
  rewrite Hi. cbn zeta.
  destruct (inflate_rep st (r_in c1) _ p room Hr Hroom) as (rest & p' & Hin & Hu & Hpp & Hlo & Hr' & Hret).
  { intros Hnil. rewrite (Hne Hnil). unfold encrypted. by case_match; [rewrite rc4_nil|]. }
  set (r := inflate st (r_in c1) room) in *.
  pose proof (take_split _ [] _ _ Hin Hu) as Hdrop. rewrite Hdrop.
  apply wp_bind_modify, wp_bind_modify. cbn [rctx calls polls].
  set (c2 := set_r_in rest (set_r_ist (Some (zc_state r)) c1)).
  assert (Hs2 : section_at d fin fl c2 p').
  { split; simpl; auto. exists (zc_state r). split; [done|]. exact Hr'. }
  assert (Hlen : zlen (r_in c1) = zc_used r + zlen rest).
  { rewrite Hin at 1. rewrite zlen_app, zlen_take_le by lia. done. }
  replace (negb (zc_ret r =? Z_OK) && negb (zc_ret r =? Z_STREAM_END)) with false
    by (destruct Hret as [[-> _]|[-> _]]; done).
  destruct (decide (zlen (zc_out r) = room)) as [Hfu|Hfu].
  { assert (Hnat : Z.to_nat room = length (zc_out r)) by (unfold zlen in Hfu; lia).
    replace ((0 <? room - zlen (zc_out r)) && negb (zc_ret r =? Z_STREAM_END)) with false by lia.
    apply wp_ret. cbn [rctx calls polls]. rewrite Hpp, Hnat, take_app_length, drop_app_length. repeat split; auto; try apply Hs2.
    intros Hnil. apply app_eq_nil in Hnil as [Hz0 _]. rewrite Hz0, zlen_nil in Hfu. lia. }
  destruct Hret as [(Hok & [?|[-> Hinp]])|(Hok & -> & Hnil)]; [done| |].
  - replace ((0 <? room - zlen (zc_out r)) && negb (zc_ret r =? Z_STREAM_END)) with true
      by (rewrite Hok; unfold Z_STREAM_END, Z_OK; lia).
    eapply wp_mono; [apply (IH c2 _ _ p' Hs2)|].
    + lia.
    + simpl. rewrite zlen_nil. assert (1 <= zlen (r_in c1)); [|zl].
      destruct (r_in c1); [done|]. rewrite zlen_cons. zlen_pos. lia.
    + intros r2 s2 (-> & Hs3 & Hend & Ho3 & Hc3 & Hp3).
      rewrite Hpp, take_app_ge, drop_app_ge by (unfold zlen in *; lia).
      replace (Z.to_nat room - length (zc_out r))%nat with (Z.to_nat (room - zlen (zc_out r))) by (unfold zlen; lia).
      rewrite app_assoc. repeat split; auto; try apply Hs3; [|by rewrite Ho3].
      intros Hnil. apply app_eq_nil in Hnil as [_ ->]. by apply Hend.
  - rewrite Hok. change (Z_STREAM_END =? Z_STREAM_END) with true. cbn [negb]. rewrite andb_false_r.
    apply wp_ret. cbn [rctx calls polls]. rewrite app_nil_r in Hpp.
    rewrite take_ge, drop_ge by (rewrite Hpp; unfold zlen in *; lia). rewrite <- Hpp.
    repeat split; auto; try apply Hs2.
    intros _. apply app_eq_nil in Hnil as [_ Hnil]. by apply (section_used_up d fin fl c1 p).
Qed.

#[export] Instance section_reader d fin fl :
  StreamReader (section_at d fin fl) (fun c => r_sec_size c = 0).
Proof.
  split.
  - intros n c cs ps p Hs Hn. unfold dump_read_stream.
    replace (n =? 0) with false by lia. apply wp_bind_gets. cbn [rctx].
    pose proof Hs as [_ _ [_ ?] _ _]. zlen_pos.
    apply wp_bind. eapply wp_mono; [apply (read_loop_spec d fin fl _ c cs ps p [] n Hs Hn); lia|].
    intros r s' (-> & Hs' & Hend & Ho & Hc & Hp). apply wp_ret. simpl. auto 8.
  - intros n c p []. by split.
  - intros n c p []. by split.
Qed.
End reader.
