(* ===== verification/RecoverFacts.v ===== *)
(** * What the backup reader does with a stream of items

    The interpretation of tags in [mm_recover.c], proved against the interface
    [StreamReader]: for the encoding of a list of items the program makes the calls to
    SQLite that a plain interpreter of items makes, and counts what it counts. *)

From S2P Require Import Prelude CLib Streams Backup BackupChannel BackupFacts Recover RecoverStream.

(** ** The interpreter of items *)

(** What [mm_recover.c] gets back of data that was written with [dump_write_blob]. *)
Definition restored (d : list Z) : list Z := drop (Z.to_nat (zlen d / 65536 * 65536)) d.

Lemma restored_small d : zlen d < 65536 -> restored d = d.
Proof. intros. zlen_pos. unfold restored. by rewrite Z.div_small by lia. Qed.

Lemma restored_large d : 65536 <= zlen d -> restored d <> d.
Proof.
  intros Hd Heq. apply (f_equal zlen) in Heq. unfold restored in Heq.
  pose proof (Z.div_mod (zlen d) 65536 ltac:(lia)). pose proof (Z.mod_pos_bound (zlen d) 65536 ltac:(lia)).
  assert (1 <= zlen d / 65536) by (apply Z.div_le_lower_bound; lia).
  rewrite zlen_drop in Heq by lia. lia.
Qed.

Section interpreter.
Context `{Sw : SqliteWrite}.

(** What data becomes on its way. *)
Context (rs : list Z -> list Z).

(** The calls so far, the successes and the failures counted. *)
Definition db_view : Type := list sql_call * Z * Z.

Definition bind_call_by (v : sqlite_value) (i : Z) : sql_call :=
  match v with
  | SV_Integer z => CBindInt i z
  | SV_Float bits => CBindDouble i bits
  | SV_Text b => CBindText i (rs b)
  | SV_Blob b => CBindBlob i (rs b)
  | SV_Null | SV_Other _ => CBindNull i
  end.

Definition do_bind_by (live : bool) (v : sqlite_value) (i : Z) (w : db_view) : db_view :=
  if live then (bind_call_by v i :: w.1.1, w.1.2, w.2) else w.

Fixpoint do_binds_by (live : bool) (vs : list sqlite_value) (i : Z) (w : db_view) : db_view :=
  match vs with
  | [] => w
  | v :: vs => do_binds_by live vs (if live then i + 1 else i) (do_bind_by live v (i + 1) w)
  end.

Definition count_fail (w : db_view) : db_view := (w.1.1, w.1.2, u32 (w.2 + 1)).
Definition count_succ (w : db_view) : db_view := (w.1.1, u32 (w.1.2 + 1), w.2).

Definition do_exec (sql : list Z) (w : db_view) : db_view :=
  let w := (CExec sql :: w.1.1, w.1.2, w.2) in
  if sqlite3_rc w.1.1 =? SQLITE_OK then count_succ w else count_fail w.

(** A transaction is closed and a new one opened after each 256 successes. *)
Definition do_commit (w : db_view) : db_view :=
  if w.1.2 mod 256 =? 0 then
    let w := (CExec (str "COMMIT; BEGIN;") :: w.1.1, w.1.2, w.2) in
    if sqlite3_rc w.1.1 =? SQLITE_OK then w else count_fail w
  else w.

Definition do_row_end (live : bool) (w : db_view) : db_view :=
  if live then
    let w := (CReset :: CStep :: w.1.1, w.1.2, w.2) in
    if sqlite3_rc w.1.1 =? SQLITE_OK then do_commit (count_succ w) else count_fail w
  else count_fail w.

Definition do_row_by (live : bool) (w : db_view) (row : list sqlite_value) : db_view :=
  do_row_end live (do_binds_by live row 0 w).

Definition prepared_live (h : list sql_call) : bool :=
  (sqlite3_rc h =? SQLITE_OK) && negb (prepare_null h).

Definition do_item_by (w : db_view) (it : item) : db_view :=
  match it with
  | Oneshot sql => do_exec (cstr (rs sql)) w
  | Repeated sql rows =>
    let w := (CPrepare (cstr (rs sql)) :: w.1.1, w.1.2, w.2) in
    let live := prepared_live w.1.1 in
    let w := foldl (do_row_by live) w rows in
    if live then (CFinalize :: w.1.1, w.1.2, w.2) else w
  end.

Definition do_items_by (its : list item) (w : db_view) : db_view := foldl do_item_by w its.
End interpreter.

(** What the reader really does with items: data of 64 KiB and more loses its full blocks. For
    shorter data this is the plain interpreter, in which nothing changes on the way. *)
Abbreviation lossy_bind_call := (bind_call_by restored).
Abbreviation lossy_bind := (do_bind_by restored).
Abbreviation lossy_binds := (do_binds_by restored).
Abbreviation lossy_row := (do_row_by restored).
Abbreviation lossy_item := (do_item_by restored).
Abbreviation lossy_items := (do_items_by restored).

(** How many tags an encoding has. *)
Definition data_tags (d : list Z) : nat := if 65536 <=? zlen d then 2 else 1.

Definition value_tags (v : sqlite_value) : nat :=
  match v with SV_Text b | SV_Blob b => data_tags b | _ => 1 end.

(** Values the reader can take: the largest buffer it can ask for is below 2^31 bytes. *)
Definition readable (v : sqlite_value) : Prop :=
  value_ok v /\
  match v with SV_Text b | SV_Blob b => zlen b < 2 ^ 31 - 65536 | _ => True end.

Section tags.
Context `{Zl : Zlib} `{Rc : Rc4} `{Sw : SqliteWrite}.
Context (R : mm_recover_ctx -> list Z -> Prop) (D : mm_recover_ctx -> Prop) `{SR : !StreamReader R D}.
Context (fatal : bool).
Context (step_no_row : forall h, sqlite3_rc (CStep :: h) <> SQLITE_ROW).
Context (finalize_ok : forall h, sqlite3_rc (CFinalize :: h) = SQLITE_OK).
Context (malloc_all : forall n, malloc_ok n = true).
Context (steps_pos : max_steps <> 0%nat).
Context (fatal_ok : fatal = true -> forall h, (forall h', h <> CStep :: h') -> sqlite3_rc h = SQLITE_OK).

Abbreviation rst := (@rstate Zl Rc).

Definition view (s : rst) : db_view := (calls s, succ_count (rctx s), fail_count (rctx s)).

(** Ready to read [p]; nobody cancels. *)
Definition ready (p : list Z) (s : rst) : Prop :=
  R (rctx s) p /\ r_canceled (rctx s) = false /\ Forall (eq false) (polls s).

(** The database is at [w] now; the counter of sections and the key are as they were. *)
Definition moved (w : db_view) (s s' : rst) : Prop :=
  view s' = w /\ section_count (rctx s') = section_count (rctx s) /\
  rc4_template (rctx s') = rc4_template (rctx s).

Definition same (s s' : rst) : Prop := moved (view s) s s'.

Lemma same_trans (s s' s'' : rst) : same s s' -> same s' s'' -> same s s''.
Proof. intros (H1 & H2 & H3) (H4 & H5 & H6). repeat split; congruence. Qed.

Lemma same_moved w (s s' s'' : rst) : same s s' -> moved w s' s'' -> moved w s s''.
Proof. intros (H1 & H2 & H3) (H4 & H5 & H6). repeat split; congruence. Qed.

Lemma moved_moved w w' (s s' s'' : rst) : moved w s s' -> moved w' s' s'' -> moved w' s s''.
Proof. intros (H1 & H2 & H3) (H4 & H5 & H6). repeat split; congruence. Qed.

Lemma read_spec n p (s : rst) (Q : Z * list Z -> rst -> Prop) :
  ready p s -> 0 <= n ->
  (forall s', ready (drop (Z.to_nat n) p) s' -> same s s' ->
     (0 < n -> p = [] -> D (rctx s')) ->
     Q (zlen (take (Z.to_nat n) p), take (Z.to_nat n) p) s') ->
  wp (dump_read_stream n) Q s.
Proof.
  intros (HR & Hca & Hpo) Hn HQ. destruct (decide (n = 0)) as [->|Hn0].
  { unfold dump_read_stream. simpl. by apply wp_ret, HQ. }
  destruct s as [c cs ps]. eapply wp_mono; [apply (sr_read n c cs ps p HR); lia|].
  intros [k bs] s' (-> & -> & HR' & HD & Ho & Hc & Hp). simpl in *.
  unfold others in Ho. injection Ho as H1 H2 H3 H4 H5 H6. subst ps cs.
  apply HQ; [|unfold same, moved, view; simpl; repeat split; congruence|auto].
  split; [done|]. split; [congruence|done].
Qed.

Lemma poll_spec p (s : rst) (Q : bool -> rst -> Prop) :
  ready p s ->
  (forall s', ready p s' -> same s s' -> Q false s') ->
  wp poll_canceled Q s.
Proof.
  intros (HR & Hca & Hpo) HQ. unfold poll_canceled. apply wp_bind_gets.
  destruct (polls s) as [|b rest] eqn:Hps.
  - apply wp_gets. rewrite Hca. apply HQ; [|done]. split; [done|]. split; [done|]. by rewrite Hps.
  - apply Forall_cons in Hpo as [<- Hrest]. apply wp_bind_modify, wp_bind_ret, wp_gets. simpl.
    rewrite Hca. apply HQ; done.
Qed.

(** *** Integers *)

Lemma land128_low b : 0 <= b < 128 -> Z.land b 128 = 0 /\ Z.land b 127 = b.
Proof.
  intros. rewrite land127, Z.mod_small by lia. split; [|done].
  apply Z.bits_inj'. intros k Hk. rewrite Z.land_spec, Z.bits_0.
  destruct (Z.testbit 128 k) eqn:E; [|by rewrite andb_false_r].
  change 128 with (2 ^ 7) in E. rewrite Z.pow2_bits_eqb in E by lia.
  assert (k = 7) as -> by lia. rewrite Z.bits_above_log2; [done|lia|].
  destruct (Z.eq_dec b 0) as [->|]; [done|]. apply Z.log2_lt_pow2; simpl; lia.
Qed.

Lemma land128_high b : 0 <= b < 128 -> Z.land (b + 128) 128 <> 0 /\ Z.land (b + 128) 127 = b.
Proof.
  intros Hb. rewrite land127. split.
  - rewrite <- lor128 by lia. rewrite Z.land_lor_distr_l.
    destruct (land128_low b Hb) as [-> _]. done.
  - rewrite <- (Z.mod_small b 128) at 2 by lia. by rewrite <- (Z.mod_add b 1 128) by lia.
Qed.

(** Reading one byte, or two, or a block, of a stream that has them. *)
Lemma read_app bs p (s : rst) (Q : Z * list Z -> rst -> Prop) n :
  ready (bs ++ p) s -> n = zlen bs ->
  (forall s', ready p s' -> same s s' -> Q (n, bs) s') ->
  wp (dump_read_stream n) Q s.
Proof.
  intros Hr -> HQ. apply (read_spec _ _ _ _ Hr); [apply zlen_nonneg|].
  intros s' Hr' Hs _. rewrite to_nat_zlen, take_app_length. rewrite to_nat_zlen, drop_app_length in Hr'.
  by apply HQ.
Qed.

Lemma read_varint_loop_spec n fuel v acc shift p (s : rst) (Q : option Z -> rst -> Prop) :
  (n < fuel)%nat -> 0 <= v < 128 ^ Z.of_nat (S n) -> 0 <= shift -> 0 <= acc < 2 ^ shift ->
  shift + 7 * Z.of_nat (S n) <= 63 ->
  ready (base128 n v ++ p) s ->
  (forall s', ready p s' -> same s s' -> Q (Some (acc + v * 2 ^ shift)) s') ->
  wp (read_varint_loop fuel acc shift) Q s.
Proof.
  revert fuel v acc shift s. induction n as [|n IH]; intros [|fuel] v acc shift s Hf Hv Hs Ha Hsh Hr HQ;
    try lia.
  all: assert (Hpart : forall b, 0 <= b < 128 -> Z.shiftl b shift < 2 ^ 63) by
    (intros b Hb; rewrite Z.shiftl_mul_pow2 by lia; apply Z.lt_le_trans with (2 ^ 7 * 2 ^ shift);
     [apply Z.mul_lt_mono_pos_r; lia|rewrite <- Z.pow_add_r by lia; apply Z.pow_le_mono_r; lia]).
  all: cbn [read_varint_loop]; apply wp_bind.
  - change (128 ^ Z.of_nat 1) with 128 in Hv. simpl in Hr.
    apply (read_app [v] p s _ 1 Hr eq_refl). intros s' Hr' Hsm. cbn [negb Z.eqb].
    change (negb (1 =? 1)) with false. cbn match.
    destruct (land128_low v ltac:(lia)) as [-> ->].
    replace ((64 <=? shift) || (2 ^ 63 <=? Z.shiftl v shift)) with false
      by (specialize (Hpart v ltac:(lia)); lia).
    cbn [negb Z.eqb]. apply wp_ret. rewrite lor_shift by lia. by apply HQ.
  - rewrite (Nat2Z.inj_succ (S n)), Z.pow_succ_r in Hv by lia.
    destruct (Z_lt_dec v 128) as [Hlt|Hge].
    + rewrite base128_small in Hr by lia.
      apply (read_app [v] p s _ 1 Hr eq_refl). intros s' Hr' Hsm.
      change (negb (1 =? 1)) with false. cbn match.
      destruct (land128_low v ltac:(lia)) as [-> ->].
      replace ((64 <=? shift) || (2 ^ 63 <=? Z.shiftl v shift)) with false
        by (specialize (Hpart v ltac:(lia)); lia).
      cbn [negb Z.eqb]. apply wp_ret. rewrite lor_shift by lia. by apply HQ.
    + rewrite base128_S in Hr by lia. cbn [app] in Hr.
      pose proof (Z.mod_pos_bound v 128 ltac:(lia)) as Hm.
      apply (read_app [v mod 128 + 128] _ s _ 1 Hr eq_refl). intros s' Hr' Hsm.
      change (negb (1 =? 1)) with false. cbn match.
      destruct (land128_high (v mod 128) Hm) as [Hne ->].
      replace ((64 <=? shift) || (2 ^ 63 <=? Z.shiftl (v mod 128) shift)) with false
        by (specialize (Hpart (v mod 128) Hm); lia).
      replace (Z.land (v mod 128 + 128) 128 =? 0) with false by lia. cbn [negb].
      rewrite lor_shift by lia.
      eapply (IH fuel (v / 128)); [lia| |lia| |lia|exact Hr'|].
      * split; [apply Z.div_pos; lia|apply Z.div_lt_upper_bound; lia].
      * rewrite Z.pow_add_r by lia. change (2 ^ 7) with 128. nia.
      * intros s2 Hr2 Hs2. rewrite Z.pow_add_r by lia. change (2 ^ 7) with 128.
        replace (acc + v mod 128 * 2 ^ shift + v / 128 * (2 ^ shift * 128)) with (acc + v * 2 ^ shift).
        -- apply HQ; [done|]. by apply (same_trans _ s').
        -- rewrite (Z.div_mod v 128) at 1 by lia. ring.
Qed.

(** *** Calls of SQLite *)

Lemma sqlite_spec c p (s : rst) (Q : Z -> rst -> Prop) :
  ready p s ->
  (forall s', ready p s' -> moved (c :: calls s, succ_count (rctx s), fail_count (rctx s)) s s' ->
     Q (sqlite3_rc (c :: calls s)) s') ->
  wp (sqlite c) Q s.
Proof. intros Hr HQ. unfold sqlite. apply wp_bind_modify, wp_gets. by apply HQ. Qed.

Lemma count_fail_spec p (s : rst) {A} (k : cm rst A) Q :
  ready p s ->
  (forall s', ready p s' -> moved (count_fail (view s)) s s' -> wp k Q s') ->
  wp (let! n := rget fail_count in rupd (set_fail_count (u32 (n + 1))) ;;; k) Q s.
Proof.
  intros (HR & Hc & Hp) HQ. apply wp_bind_gets, wp_bind_modify. apply HQ; [|done].
  split; [by apply sr_fail|done].
Qed.

Lemma count_succ_spec p (s : rst) {A} (k : cm rst A) Q :
  ready p s ->
  (forall s', ready p s' -> moved (count_succ (view s)) s s' -> wp k Q s') ->
  wp (let! n := rget succ_count in rupd (set_succ_count (u32 (n + 1))) ;;; k) Q s.
Proof.
  intros (HR & Hc & Hp) HQ. apply wp_bind_gets, wp_bind_modify. apply HQ; [|done].
  split; [by apply sr_succ|done].
Qed.

(** The locals inside the rows of a statement, between values. *)
Definition at_value (live : bool) (i : Z) : locals :=
  Locals None false (if live then SLive else SNull) i.

Lemma bind_value_spec d pd (live : bool) i (c : Z -> sql_call) p (s : rst) (Q : locals -> rst -> Prop) :
  ready p s ->
  (forall s', ready p s' ->
     moved (if live then (c (i + 1) :: calls s, succ_count (rctx s), fail_count (rctx s)) else view s) s s' ->
     Q (Locals d pd (if live then SLive else SNull) (if live then i + 1 else i)) s') ->
  wp (bind_value (Locals d pd (if live then SLive else SNull) i) c) Q s.
Proof.
  intros Hr HQ. unfold bind_value. destruct live; cbn [l_stmt l_bind].
  - apply wp_bind. apply (sqlite_spec _ _ _ _ Hr). intros s' Hr' Hm. apply wp_ret. by apply HQ.
  - apply wp_ret. by apply HQ.
Qed.

Lemma dump_read_varint_spec v p (s : rst) (Q : option Z -> rst -> Prop) :
  - 2 ^ 63 <= v < 2 ^ 63 ->
  ready (tail (varint_bytes v) ++ p) s ->
  (forall s', ready p s' -> same s s' -> Q (Some v) s') ->
  wp (dump_read_varint (v <? 0)) Q s.
Proof.
  intros Hv Hr HQ. unfold dump_read_varint. apply wp_bind.
  assert (Hb : tail (varint_bytes v) = base128 8 (if v <? 0 then -1 - v else v))
    by (unfold varint_bytes; by destruct (v <? 0)).
  rewrite Hb in Hr.
  eapply (read_varint_loop_spec 8 12 _ 0 0); [lia| |lia|simpl; lia|lia|exact Hr|].
  - change (128 ^ Z.of_nat 9) with (2 ^ 63). destruct (v <? 0) eqn:E; lia.
  - intros s1 Hr1 Hs1. apply wp_ret. rewrite Z.add_0_l, Z.mul_1_r.
    destruct (v <? 0); rewrite ?lnot_opp; [replace (-1 - (-1 - v)) with v by lia|]; by apply HQ.
Qed.

Lemma moved_bind v i (live : bool) (s s1 s2 : rst) (c : Z -> sql_call) :
  same s s1 -> c (i + 1) = lossy_bind_call v (i + 1) ->
  moved (if live then (c (i + 1) :: calls s1, succ_count (rctx s1), fail_count (rctx s1)) else view s1) s1 s2 ->
  moved (lossy_bind live v (i + 1) (view s)) s s2.
Proof.
  intros Hs Hc Hm. apply (same_moved _ _ _ _ Hs). destruct Hs as (Hv & _). unfold do_bind_by, view in *.
  injection Hv as Hv1 Hv2 Hv3. rewrite Hc, Hv1, Hv2, Hv3 in Hm. by destruct live.
Qed.

Lemma tag_bind_varint_spec v live i p (s : rst) (Q : flow -> rst -> Prop) :
  - 2 ^ 63 <= v < 2 ^ 63 ->
  ready (tail (varint_bytes v) ++ p) s ->
  (forall s', ready p s' -> moved (lossy_bind live (SV_Integer v) (i + 1) (view s)) s s' ->
     Q (Next (at_value live (if live then i + 1 else i))) s') ->
  wp (tag_bind_varint (if v <? 0 then MMBAK_TAG_BIND_VARINT_MINUS else MMBAK_TAG_BIND_VARINT)
        (at_value live i)) Q s.
Proof.
  intros Hv Hr HQ. unfold tag_bind_varint.
  replace ((if v <? 0 then MMBAK_TAG_BIND_VARINT_MINUS else MMBAK_TAG_BIND_VARINT)
           =? MMBAK_TAG_BIND_VARINT_MINUS) with (v <? 0) by (by destruct (v <? 0)).
  apply wp_bind. apply (dump_read_varint_spec v p s _ Hv Hr). intros s1 Hr1 Hs1.
  apply wp_bind. apply (bind_value_spec _ _ _ _ _ _ _ _ Hr1). intros s2 Hr2 Hm2. apply wp_ret.
  apply HQ; [done|]. by apply (moved_bind (SV_Integer v) i live s s1 s2 (fun i => CBindInt i v)).
Qed.

Lemma tag_bind_float_spec bits live i p (s : rst) (Q : flow -> rst -> Prop) :
  zlen bits = 8 -> ready (bits ++ p) s ->
  (forall s', ready p s' -> moved (lossy_bind live (SV_Float bits) (i + 1) (view s)) s s' ->
     Q (Next (at_value live (if live then i + 1 else i))) s') ->
  wp (tag_bind_float (at_value live i)) Q s.
Proof.
  intros Hb Hr HQ. unfold tag_bind_float. apply wp_bind. apply (read_app bits p s _ 8 Hr); [done|].
  intros s1 Hr1 Hs1. cbv beta iota. change (negb (8 =? 8)) with false. cbn match.
  apply wp_bind. apply (bind_value_spec _ _ _ _ _ _ _ _ Hr1). intros s2 Hr2 Hm2. apply wp_ret.
  apply HQ; [done|]. by apply (moved_bind (SV_Float bits) i live s s1 s2 (fun i => CBindDouble i bits)).
Qed.

Lemma read_length_spec n p (s : rst) (Q : option Z -> rst -> Prop) :
  0 <= n < 65536 -> ready (le_bytes 2 n ++ p) s ->
  (forall s', ready p s' -> same s s' -> Q (Some n) s') ->
  wp read_length Q s.
Proof.
  intros Hn Hr HQ. unfold read_length. apply wp_bind. apply (read_app _ p s _ 2 Hr); [done|].
  intros s1 Hr1 Hs1. cbv beta iota. change (negb (2 =? 2)) with false. cbn match.
  apply wp_ret. rewrite le_val_bytes by (change (256 ^ Z.of_nat 2) with 65536; lia). by apply HQ.
Qed.

(** The buffer a value or a statement is read into: none yet, or what [LARGE_DATA] left. *)
Definition with_large (ext : list Z) (blocks : Z) (st : stmt_ptr) (i : Z) : locals :=
  if blocks =? 0 then Locals None false st i
  else Locals (Some (DBuf true ((blocks + 1) * 65536) ext)) true st i.

Lemma tag_large_data_spec ext blocks st i p (s : rst) (Q : flow -> rst -> Prop) :
  1 <= blocks -> (blocks + 1) * 65536 < 2 ^ 31 -> zlen ext = blocks * 65536 ->
  ready (le_bytes 2 blocks ++ ext ++ p) s ->
  (forall s', ready p s' -> same s s' -> Q (Next (with_large ext blocks st i)) s') ->
  wp (tag_large_data (Locals None false st i)) Q s.
Proof.
  intros Hb1 Hb2 He Hr HQ. unfold tag_large_data. cbn [l_data]. apply wp_bind.
  apply (read_length_spec blocks _ s _ ltac:(lia) Hr). intros s1 Hr1 Hs1.
  eapply wp_bind_lift_res; [apply chk_int_ok; lia|]. rewrite malloc_all. cbn [negb].
  eapply wp_bind_lift_res; [apply chk_int_ok; lia|].
  apply wp_bind. apply (read_app ext p s1 _ _ Hr1); [done|]. intros s2 Hr2 Hs2. cbv beta iota.
  eapply wp_bind_lift_res.
  { unfold buf_store. cbn [b_size b_heap b_bytes].
    replace (zlen ext <=? (blocks + 1) * 65536) with true by lia. reflexivity. }
  rewrite Z.eqb_refl. cbn [negb]. apply wp_ret. unfold set_l_data. cbn [l_stmt l_bind].
  replace (drop (length ext) []) with (@nil Z) by (by rewrite drop_nil). rewrite app_nil_r.
  unfold with_large in HQ. replace (blocks =? 0) with false in HQ by lia.
  apply HQ; [done|]. by apply (same_trans _ s1).
Qed.

Lemma bind_data_spec (text : bool) t ext blocks (live : bool) i v p (s : rst) (Q : flow -> rst -> Prop) :
  0 <= blocks -> zlen t < 65536 -> ready (t ++ p) s ->
  (forall j, (if text then CBindText j t else CBindBlob j t) = lossy_bind_call v j) ->
  (forall s', ready p s' -> moved (lossy_bind live v (i + 1) (view s)) s s' ->
     Q (Next (at_value live (if live then i + 1 else i))) s') ->
  wp (bind_data text (zlen t) (with_large ext blocks (if live then SLive else SNull) i)) Q s.
Proof.
  intros Hb Ht Hr Hc HQ. zlen_pos. unfold bind_data.
  set (l := with_large ext blocks (if live then SLive else SNull) i).
  assert (Hal : exists b, (if l_pdata l then l_data l
            else if malloc_ok (zlen t) then Some (DBuf true (zlen t) []) else None) = Some b /\
            zlen t <= b_size b).
  { unfold l, with_large. destruct (blocks =? 0) eqn:E; cbn [l_pdata l_data].
    - rewrite malloc_all. eexists. split; [reflexivity|]. simpl. lia.
    - eexists. split; [reflexivity|]. cbn [b_size]. lia. }
  destruct Hal as (b & -> & Hsz). apply wp_bind. apply (read_app t p s _ _ Hr); [done|].
  intros s1 Hr1 Hs1. cbv beta iota. eapply wp_bind_lift_res.
  { unfold buf_store. rewrite (proj2 (Z.leb_le _ _) Hsz). reflexivity. }
  rewrite Z.eqb_refl. cbn [negb b_bytes]. eapply wp_bind_lift_res.
  { apply (zread_n_app [] t); [done|done]. }
  assert (Hl : exists d pd, l = Locals d pd (if live then SLive else SNull) i)
    by (unfold l, with_large; destruct (blocks =? 0); eexists _, _; reflexivity).
  destruct Hl as (d & pd & ->). apply wp_bind.
  apply (bind_value_spec _ _ _ _ _ _ _ _ Hr1). intros s2 Hr2 Hm2. apply wp_ret.
  apply HQ; [done|].
  by apply (moved_bind v i live s s1 s2 (fun j => if text then CBindText j t else CBindBlob j t)).
Qed.

(** The tag and the body of the last part of a text or a blob. *)
Lemma data_tail_spec (text : bool) t ext blocks (live : bool) i v p (s : rst) (Q : flow -> rst -> Prop) :
  0 <= blocks -> zlen t < 65536 ->
  let tag := if text then MMBAK_TAG_BIND_TEXT else MMBAK_TAG_BIND_BLOB in
  (forall j, (if text then CBindText j t else CBindBlob j t) = lossy_bind_call v j) ->
  ready (tail (tail_bytes tag t) ++ p) s ->
  (forall s', ready p s' -> moved (lossy_bind live v (i + 1) (view s)) s s' ->
     Q (Next (at_value live (if live then i + 1 else i))) s') ->
  wp (run_row_tag fatal (if zlen t <? 256 then tag + 1 else tag)
        (with_large ext blocks (if live then SLive else SNull) i)) Q s.
Proof.
  intros Hb Ht tag Hc Hr HQ. zlen_pos. unfold tail_bytes in Hr.
  assert (Htag : (tag =? MMBAK_TAG_BIND_TEXT) || (tag =? MMBAK_TAG_BIND_BLOB) = true)
    by (unfold tag; by destruct text).
  rewrite Htag, andb_true_r in Hr. destruct (zlen t <? 256) eqn:E; cbn [tail app] in Hr.
  - assert (Hrun : forall l, run_row_tag fatal (tag + 1) l = tag_bind_data_short (tag + 1) l)
      by (unfold tag; by destruct text).
    rewrite Hrun. unfold tag_bind_data_short. apply wp_bind.
    apply (read_app [zlen t] _ s _ 1 Hr eq_refl). intros s1 Hr1 Hs1. cbv beta iota.
    change (negb (1 =? 1)) with false. cbn match.
    replace (tag + 1 =? MMBAK_TAG_BIND_TEXT_SHORT) with text by (unfold tag; by destruct text).
    apply (bind_data_spec text t ext blocks live i v p s1 Q Hb Ht Hr1 Hc).
    intros s2 Hr2 Hm2. apply HQ; [done|]. apply (same_moved _ _ _ _ Hs1).
    destruct Hs1 as (<- & _). done.
  - assert (Hrun : forall l, run_row_tag fatal tag l = tag_bind_data tag l)
      by (unfold tag; by destruct text).
    rewrite Hrun. unfold tag_bind_data. apply wp_bind. rewrite <- app_assoc in Hr.
    apply (read_length_spec (zlen t) _ s _ ltac:(lia) Hr). intros s1 Hr1 Hs1.
    replace (tag =? MMBAK_TAG_BIND_TEXT) with text by (unfold tag; by destruct text).
    apply (bind_data_spec text t ext blocks live i v p s1 Q Hb Ht Hr1 Hc).
    intros s2 Hr2 Hm2. apply HQ; [done|]. apply (same_moved _ _ _ _ Hs1).
    destruct Hs1 as (<- & _). done.
Qed.

(** One turn of the loop over the rows. *)
Lemma rows_step fuel tag body l (s : rst) (Q : flow -> rst -> Prop) :
  ready (tag :: body) s -> tag <> MMBAK_TAG_END_SQL ->
  (forall s', ready body s' -> same s s' ->
     wp (run_row_tag fatal tag l)
        (fun r => match r with Next l => wp (rows_loop fuel fatal l) Q | _ => Q r end) s') ->
  wp (rows_loop (S fuel) fatal l) Q s.
Proof.
  intros Hr Htag HQ. cbn [rows_loop]. apply wp_bind. apply (poll_spec _ _ _ Hr).
  intros s1 Hr1 Hs1. cbn match. apply wp_bind.
  apply (read_app [tag] body s1 _ 1 Hr1 eq_refl). intros s2 Hr2 Hs2. cbv beta iota.
  change (negb (1 =? 1)) with false. cbn match.
  replace (tag =? MMBAK_TAG_END_SQL) with false by lia. apply wp_bind.
  eapply wp_mono; [apply HQ; [done|by apply (same_trans _ s1)]|].
  intros [l'|l'|rc] s3 H3; [done|by apply wp_ret|by apply wp_ret].
Qed.

Lemma blob_bytes_split d :
  zlen d < 2 ^ 31 ->
  let blocks := zlen d / 65536 in
  let ext := take (Z.to_nat (blocks * 65536)) d in
  0 <= blocks /\ zlen ext = blocks * 65536 /\ zlen (restored d) < 65536 /\
  forall tag, blob_bytes tag d =
    (if blocks =? 0 then [] else MMBAK_TAG_LARGE_DATA :: le_bytes 2 blocks ++ ext) ++
    tail_bytes tag (restored d).
Proof.
  intros Hd blocks ext. zlen_pos.
  pose proof (Z.div_mod (zlen d) 65536 ltac:(lia)). pose proof (Z.mod_pos_bound (zlen d) 65536 ltac:(lia)).
  assert (0 <= blocks) by (apply Z.div_pos; lia). unfold blocks in *.
  split; [done|]. split; [apply zlen_take_le; lia|].
  split; [unfold restored; rewrite zlen_drop by lia; lia|].
  intros tag. unfold blob_bytes, restored. cbn zeta. f_equal.
  destruct (65536 <=? zlen d) eqn:E.
  - replace (zlen d / 65536 =? 0) with false by lia. done.
  - replace (zlen d / 65536 =? 0) with true by lia. done.
Qed.

Lemma data_tags_split d : zlen d < 2 ^ 31 -> data_tags d = (if (zlen d / 65536 =? 0)%Z then 1 else 2)%nat.
Proof.
  intros. zlen_pos. unfold data_tags.
  pose proof (Z.div_mod (zlen d) 65536 ltac:(lia)). pose proof (Z.mod_pos_bound (zlen d) 65536 ltac:(lia)).
  destruct (65536 <=? zlen d) eqn:E; case_match eqn:E2; lia.
Qed.

Lemma tail_bytes_cons (text : bool) t :
  let tag := if text then MMBAK_TAG_BIND_TEXT else MMBAK_TAG_BIND_BLOB in
  tail_bytes tag t = (if zlen t <? 256 then tag + 1 else tag) :: tail (tail_bytes tag t).
Proof.
  intros tag. unfold tail_bytes.
  assert ((tag =? MMBAK_TAG_BIND_TEXT) || (tag =? MMBAK_TAG_BIND_BLOB) = true) as ->
    by (unfold tag; by destruct text).
  rewrite andb_true_r. by destruct (zlen t <? 256).
Qed.

Lemma with_large_0 st i ext : with_large ext 0 st i = Locals None false st i.
Proof. done. Qed.

(** One value of a row: one tag, or two. *)
Lemma rows_data (text : bool) d fuel (live : bool) i v p (s : rst) (Q : flow -> rst -> Prop) :
  zlen d < 2 ^ 31 - 65536 ->
  (forall j, (if text then CBindText j (restored d) else CBindBlob j (restored d)) = lossy_bind_call v j) ->
  ready (blob_bytes (if text then MMBAK_TAG_BIND_TEXT else MMBAK_TAG_BIND_BLOB) d ++ p) s ->
  (forall s', ready p s' -> moved (lossy_bind live v (i + 1) (view s)) s s' ->
     wp (rows_loop fuel fatal (at_value live (if live then i + 1 else i))) Q s') ->
  wp (rows_loop (data_tags d + fuel) fatal (at_value live i)) Q s.
Proof.
  intros Hd Hc Hr HQ. destruct (blob_bytes_split d ltac:(lia)) as (Hb & He & Ht & Hbb).
  cbn zeta in *. set (blocks := zlen d / 65536) in *.
  set (ext := take (Z.to_nat (blocks * 65536)) d) in *.
  rewrite Hbb, tail_bytes_cons in Hr. rewrite data_tags_split by lia. fold blocks.
  set (tag := if text then MMBAK_TAG_BIND_TEXT else MMBAK_TAG_BIND_BLOB) in *.
  assert (Htag : (if zlen (restored d) <? 256 then tag + 1 else tag) <> MMBAK_TAG_END_SQL)
    by (unfold tag; destruct text, (zlen (restored d) <? 256); done).
  assert (Hlast : forall s1, ready (((if zlen (restored d) <? 256 then tag + 1 else tag)
                     :: tail (tail_bytes tag (restored d))) ++ p) s1 -> same s s1 ->
    wp (rows_loop (S fuel) fatal (with_large ext blocks (if live then SLive else SNull) i)) Q s1).
  { intros s1 Hr1 Hs1. apply (rows_step _ _ _ _ _ _ Hr1 Htag). intros s2 Hr2 Hs2.
    apply (data_tail_spec text (restored d) ext blocks live i v p s2); auto.
    intros s3 Hr3 Hm3. apply HQ; [done|].
    pose proof (same_trans _ _ _ Hs1 Hs2) as Hs. apply (same_moved _ _ _ _ Hs).
    destruct Hs as (<- & _). done. }
  destruct (blocks =? 0) eqn:E0.
  - assert (blocks = 0) as Hz by lia. rewrite Hz in *. rewrite with_large_0 in Hlast.
    by apply (Hlast s).
  - cbn [Nat.add app] in Hr |- *.
    apply (rows_step _ _ _ _ _ _ Hr ltac:(done)). intros s1 Hr1 Hs1. rewrite <- !app_assoc in Hr1.
    change (run_row_tag fatal MMBAK_TAG_LARGE_DATA (at_value live i))
      with (tag_large_data (Locals None false (if live then SLive else SNull) i)).
    assert (Hbd : blocks * 65536 <= zlen d)
      by (unfold blocks; pose proof (Z.div_mod (zlen d) 65536 ltac:(lia));
          pose proof (Z.mod_pos_bound (zlen d) 65536 ltac:(lia)); lia).
    apply (tag_large_data_spec ext blocks _ _ _ _ _ ltac:(lia) ltac:(lia) He Hr1).
    intros s2 Hr2 Hs2. apply Hlast; [done|]. by apply (same_trans _ s1).
Qed.

Lemma rows_value v fuel (live : bool) i p (s : rst) (Q : flow -> rst -> Prop) :
  readable v -> ready (value_bytes v ++ p) s ->
  (forall s', ready p s' -> moved (lossy_bind live v (i + 1) (view s)) s s' ->
     wp (rows_loop fuel fatal (at_value live (if live then i + 1 else i))) Q s') ->
  wp (rows_loop (value_tags v + fuel) fatal (at_value live i)) Q s.
Proof.
  intros [Hv Hsz] Hr HQ.
  assert (Hafter : forall s1, same s s1 -> forall s2, ready p s2 ->
    moved (lossy_bind live v (i + 1) (view s1)) s1 s2 ->
    wp (rows_loop fuel fatal (at_value live (if live then i + 1 else i))) Q s2).
  { intros s1 Hs1 s2 Hr2 Hm2. apply HQ; [done|]. apply (same_moved _ _ _ _ Hs1).
    destruct Hs1 as (<- & _). done. }
  destruct v as [z|bits|b|b| |t]; cbn [value_bytes value_tags Nat.add] in *; simpl in Hv; try done.
  - assert (Hcons : varint_bytes z = (if z <? 0 then MMBAK_TAG_BIND_VARINT_MINUS else MMBAK_TAG_BIND_VARINT)
               :: tail (varint_bytes z)) by (unfold varint_bytes; by destruct (z <? 0)).
    rewrite Hcons in Hr.
    apply (rows_step _ _ _ _ _ _ Hr ltac:(by destruct (z <? 0))). intros s1 Hr1 Hs1.
    assert (Hrun : forall l, run_row_tag fatal (if z <? 0 then MMBAK_TAG_BIND_VARINT_MINUS else MMBAK_TAG_BIND_VARINT) l
       = tag_bind_varint (if z <? 0 then MMBAK_TAG_BIND_VARINT_MINUS else MMBAK_TAG_BIND_VARINT) l)
      by (by destruct (z <? 0)).
    rewrite Hrun. apply (tag_bind_varint_spec z live i p s1 _ Hv Hr1). by apply Hafter.
  - apply (rows_step _ _ _ _ _ _ Hr ltac:(done)). intros s1 Hr1 Hs1.
    change (run_row_tag fatal MMBAK_TAG_BIND_FLOAT (at_value live i)) with (tag_bind_float (at_value live i)).
    apply (tag_bind_float_spec bits live i p s1 _ Hv Hr1). by apply Hafter.
  - by apply (rows_data true b fuel live i (SV_Text b) p s).
  - by apply (rows_data false b fuel live i (SV_Blob b) p s).
  - apply (rows_step _ _ _ _ _ _ Hr ltac:(done)). intros s1 Hr1 Hs1.
    change (run_row_tag fatal MMBAK_TAG_BIND_NULL (at_value live i))
      with (let! l := bind_value (at_value live i) CBindNull in ret (Next l)).
    apply wp_bind. apply (bind_value_spec _ _ _ _ _ _ _ _ Hr1). intros s2 Hr2 Hm2. apply wp_ret.
    apply (Hafter s1 Hs1 s2 Hr2). by apply (moved_bind SV_Null i live s1 s1 s2 CBindNull).
Qed.

Definition row_tags (row : list sqlite_value) : nat := S (sum_list_with value_tags row).

(** The values of a row. *)
Lemma rows_values vs fuel (live : bool) i p (s : rst) (Q : flow -> rst -> Prop) :
  Forall readable vs -> ready ((vs ≫= value_bytes) ++ p) s ->
  (forall s', ready p s' -> moved (lossy_binds live vs i (view s)) s s' ->
     forall j, wp (rows_loop fuel fatal (at_value live j)) Q s') ->
  wp (rows_loop (sum_list_with value_tags vs + fuel) fatal (at_value live i)) Q s.
Proof.
  intros Hv. revert i s. induction Hv as [|v vs Hv Hvs IH]; intros i s Hr HQ; simpl in *.
  { by apply HQ. }
  rewrite <- app_assoc in Hr. rewrite <- Nat.add_assoc.
  apply (rows_value v _ live i _ s Q Hv Hr). intros s1 Hr1 Hm1.
  apply IH; [done|]. intros s2 Hr2 Hm2 j. apply HQ; [done|].
  apply (moved_moved _ _ _ _ _ Hm1). destruct Hm1 as (<- & _). done.
Qed.

(** *** The end of a row *)

(** An error that would stop the run cannot happen in [fatal] mode. *)
Lemma not_fatal h : sqlite3_rc h <> SQLITE_OK -> (forall h', h <> CStep :: h') -> fatal = false.
Proof. intros Hrc Hh. destruct fatal; [|done]. by rewrite fatal_ok in Hrc. Qed.

Lemma commit_spec p (s : rst) (Q : bool -> rst -> Prop) :
  ready p s ->
  (forall s', ready p s' -> moved (do_commit (view s)) s s' -> Q true s') ->
  wp (commit_every_256 fatal) Q s.
Proof.
  intros Hr HQ. unfold commit_every_256. apply wp_bind_gets. unfold do_commit in HQ. simpl in HQ.
  destruct (succ_count (rctx s) mod 256 =? 0); [|by apply wp_ret, HQ].
  apply wp_bind. apply (sqlite_spec _ _ _ _ Hr). intros s1 Hr1 Hm1.
  destruct (sqlite3_rc _ =? SQLITE_OK) eqn:E; cbn [negb]; [by apply wp_ret, HQ|].
  rewrite (not_fatal (CExec (str "COMMIT; BEGIN;") :: calls s)) by (done || lia).
  apply (count_fail_spec _ _ _ _ Hr1). intros s2 Hr2 Hm2. apply wp_ret. apply HQ; [done|].
  apply (moved_moved _ _ _ _ _ Hm1). destruct Hm1 as (Hv & _). by rewrite Hv in Hm2.
Qed.

Lemma step_loop_spec p (s : rst) (Q : unit -> rst -> Prop) :
  ready p s ->
  (forall s', ready p s' -> moved (CStep :: calls s, succ_count (rctx s), fail_count (rctx s)) s s' -> Q tt s') ->
  wp (step_loop max_steps SLive) Q s.
Proof.
  intros Hr HQ. destruct max_steps as [|m]; [done|]. cbn [step_loop sqlite_stmt]. apply wp_bind.
  apply (sqlite_spec _ _ _ _ Hr). intros s1 Hr1 Hm1.
  replace (sqlite3_rc (CStep :: calls s) =? SQLITE_ROW) with false by (specialize (step_no_row (calls s)); lia).
  by apply wp_ret, HQ.
Qed.

Lemma tag_end_row_spec (live : bool) i p (s : rst) (Q : flow -> rst -> Prop) :
  ready p s ->
  (forall s', ready p s' -> moved (do_row_end live (view s)) s s' -> Q (Next (at_value live 0)) s') ->
  wp (tag_end_row fatal (at_value live i)) Q s.
Proof.
  intros Hr HQ. unfold tag_end_row. destruct live; cbn [at_value l_stmt]; unfold do_row_end in HQ.
  2: { apply (count_fail_spec _ _ _ _ Hr). intros s1 Hr1 Hm1. by apply wp_ret, HQ. }
  apply wp_bind. apply (step_loop_spec _ _ _ Hr). intros s1 Hr1 Hm1.
  cbn [sqlite_stmt]. apply wp_bind. apply (sqlite_spec _ _ _ _ Hr1). intros s2 Hr2 Hm2.
  destruct Hm1 as (Hv1 & Hrest1). unfold view in Hv1. injection Hv1 as Hc1 Hs1 Hf1.
  rewrite Hc1, Hs1, Hf1 in Hm2. rewrite Hc1.
  assert (Hm : moved (CReset :: CStep :: calls s, succ_count (rctx s), fail_count (rctx s)) s s2).
  { destruct Hm2 as (H1 & H2 & H3), Hrest1. repeat split; [done|congruence|congruence]. }
  cbn [view fst snd] in HQ.
  destruct (sqlite3_rc (CReset :: CStep :: calls s) =? SQLITE_OK) eqn:E; cbn [negb].
  - apply (count_succ_spec _ _ _ _ Hr2). intros s3 Hr3 Hm3. apply wp_bind.
    apply (commit_spec _ _ _ Hr3). intros s4 Hr4 Hm4. cbn [negb]. apply wp_ret. apply HQ; [done|].
    apply (moved_moved _ _ _ _ _ Hm). apply (moved_moved _ _ _ _ _ Hm3).
    destruct Hm3 as (Hv3 & _), Hm as (Hv & _). by rewrite Hv3, Hv in Hm4.
  - rewrite (not_fatal (CReset :: CStep :: calls s)) by (done || lia).
    apply (count_fail_spec _ _ _ _ Hr2). intros s3 Hr3 Hm3. apply wp_ret. apply HQ; [done|].
    apply (moved_moved _ _ _ _ _ Hm). destruct Hm as (Hv & _). by rewrite Hv in Hm3.
Qed.

(** All the rows of a statement and the end of it. *)
Lemma rows_all rows fuel (live : bool) i p (s : rst) (Q : flow -> rst -> Prop) :
  Forall (Forall readable) rows ->
  ready ((rows ≫= row_bytes) ++ MMBAK_TAG_END_SQL :: p) s ->
  (forall s' j, ready p s' -> moved (foldl (lossy_row live) (view s) rows) s s' -> Q (Next (at_value live j)) s') ->
  i = 0 ->
  wp (rows_loop (sum_list_with row_tags rows + S fuel) fatal (at_value live i)) Q s.
Proof.
  intros Hrows. revert i s. induction Hrows as [|row rows Hrow Hrows IH]; intros i s Hr HQ Hi.
  - simpl in *. apply wp_bind. apply (poll_spec _ _ _ Hr). intros s1 Hr1 Hs1. cbn match.
    apply wp_bind. apply (read_app [MMBAK_TAG_END_SQL] p s1 _ 1 Hr1 eq_refl). intros s2 Hr2 Hs2.
    cbv beta iota. apply wp_ret. apply HQ; [done|]. by apply (same_trans _ s1).
  - cbn [sum_list_with mbind list_bind foldl] in *. unfold row_bytes at 1 in Hr.
    rewrite <- !app_assoc in Hr. unfold row_tags at 1.
    replace (S (sum_list_with value_tags row) + sum_list_with row_tags rows + S fuel)%nat
      with (sum_list_with value_tags row + S (sum_list_with row_tags rows + S fuel))%nat by lia.
    apply (rows_values row _ live i _ s Q Hrow Hr). intros s1 Hr1 Hm1 j.
    cbn [app] in Hr1. apply (rows_step _ _ _ _ _ _ Hr1 ltac:(done)). intros s2 Hr2 Hs2.
    change (run_row_tag fatal MMBAK_TAG_END_ROW (at_value live j)) with (tag_end_row fatal (at_value live j)).
    apply (tag_end_row_spec live j _ _ _ Hr2). intros s3 Hr3 Hm3.
    assert (Hm : moved (lossy_row live (view s) row) s s3).
    { apply (moved_moved _ _ _ _ _ Hm1). apply (same_moved _ _ _ _ Hs2). unfold do_row_by.
      destruct Hs2 as (Hv2 & _), Hm1 as (Hv1 & _). subst i. by rewrite Hv2, Hv1 in Hm3. }
    apply IH; [done| |done]. intros s4 k Hr4 Hm4. apply HQ; [done|].
    apply (moved_moved _ _ _ _ _ Hm). destruct Hm as (Hv & _). by rewrite Hv in Hm4.
Qed.

(** *** Statements *)

Lemma read_sql_spec t ext blocks st i p (s : rst) (Q : dbuf * Z + locals -> rst -> Prop) :
  0 <= blocks -> zlen t < 65536 -> ready (le_bytes 2 (zlen t) ++ t ++ p) s ->
  (forall s' b, ready p s' -> same s s' -> cstr (b_bytes b) = cstr t ->
     take (Z.to_nat (zlen t)) (b_bytes b) = t -> Q (inl (b, zlen t)) s') ->
  wp (read_sql (with_large ext blocks st i)) Q s.
Proof.
  intros Hb Ht Hr HQ. zlen_pos. unfold read_sql. apply wp_bind.
  apply (read_length_spec (zlen t) _ s _ ltac:(lia) Hr). intros s1 Hr1 Hs1.
  set (l := with_large ext blocks st i).
  assert (Hal : exists b, (if l_pdata l then l_data l
            else if zlen t <? 8192 then Some (DBuf false 8192 [])
            else if malloc_ok (zlen t + 1) then Some (DBuf true (zlen t + 1) []) else None) = Some b /\
            zlen t < b_size b).
  { unfold l, with_large. destruct (blocks =? 0) eqn:E; cbn [l_pdata l_data].
    - destruct (zlen t <? 8192) eqn:E8; [|rewrite malloc_all]; (eexists; split; [reflexivity|]); simpl; lia.
    - eexists. split; [reflexivity|]. cbn [b_size]. lia. }
  destruct Hal as (b & Eb & Hsz). cbv zeta. rewrite Eb. apply wp_bind.
  apply (read_app t p s1 _ _ Hr1); [done|]. intros s2 Hr2 Hs2. cbv beta iota.
  eapply wp_bind_lift_res.
  { unfold buf_store. rewrite (proj2 (Z.leb_le (zlen t) (b_size b))) by lia. reflexivity. }
  rewrite Z.eqb_refl. cbn [negb]. eapply wp_bind_lift_res.
  { unfold buf_terminate. cbn [b_size]. rewrite (proj2 (Z.ltb_lt _ _) Hsz). reflexivity. }
  apply wp_ret. cbn [b_bytes]. apply HQ; [done|by apply (same_trans _ s1)|..]; cbn [b_bytes].
  - rewrite to_nat_zlen, take_app_length. apply cstr_app0.
  - rewrite to_nat_zlen, take_app_length. by rewrite take_app_length.
Qed.

Lemma sql_tail_cons tag t :
  tag = MMBAK_TAG_SQL_ONESHOT \/ tag = MMBAK_TAG_SQL_REPEATED ->
  tail_bytes tag t = tag :: le_bytes 2 (zlen t) ++ t.
Proof. intros [->| ->]; unfold tail_bytes; by rewrite andb_false_r. Qed.

Lemma oneshot_run t ext blocks st i p (s : rst) (Q : flow -> rst -> Prop) :
  0 <= blocks -> zlen t < 65536 -> ready (le_bytes 2 (zlen t) ++ t ++ p) s ->
  (forall s', ready p s' -> moved (do_exec (cstr t) (view s)) s s' -> Q (Next (Locals None false st i)) s') ->
  wp (tag_sql_oneshot fatal (with_large ext blocks st i)) Q s.
Proof.
  intros Hb Ht Hr HQ. unfold tag_sql_oneshot. apply wp_bind.
  apply (read_sql_spec t ext blocks st i p s _ Hb Ht Hr). intros s1 b Hr1 Hs1 Hcs _. rewrite Hcs.
  assert (Hl : set_l_data None false (with_large ext blocks st i) = Locals None false st i)
    by (unfold with_large; by destruct (blocks =? 0)).
  rewrite Hl. apply wp_bind. apply (sqlite_spec _ _ _ _ Hr1). intros s2 Hr2 Hm2.
  pose proof Hs1 as (Hv1 & _). unfold view in Hv1. injection Hv1 as Hc1 Hsu1 Hf1.
  rewrite Hc1, Hsu1, Hf1 in Hm2. rewrite Hc1.
  pose proof (same_moved _ _ _ _ Hs1 Hm2) as Hm. unfold do_exec in HQ. cbn [view fst snd] in HQ.
  destruct (sqlite3_rc (CExec (cstr t) :: calls s) =? SQLITE_OK) eqn:E; cbn [negb].
  - apply (count_succ_spec _ _ _ _ Hr2). intros s3 Hr3 Hm3. apply wp_ret. apply HQ; [done|].
    apply (moved_moved _ _ _ _ _ Hm). destruct Hm as (Hv & _). by rewrite Hv in Hm3.
  - rewrite (not_fatal (CExec (cstr t) :: calls s)) by (done || lia).
    apply (count_fail_spec _ _ _ _ Hr2). intros s3 Hr3 Hm3. apply wp_ret. apply HQ; [done|].
    apply (moved_moved _ _ _ _ _ Hm). destruct Hm as (Hv & _). by rewrite Hv in Hm3.
Qed.

Lemma repeated_run sql t ext blocks st i rows fuel p (s : rst) (Q : flow -> rst -> Prop) :
  0 <= blocks -> zlen t < 65536 -> t = restored sql ->
  Forall (Forall readable) rows -> (sum_list_with row_tags rows < fuel)%nat ->
  ready (le_bytes 2 (zlen t) ++ t ++ (rows ≫= row_bytes) ++ MMBAK_TAG_END_SQL :: p) s ->
  (forall s' st' j, ready p s' -> moved (lossy_item (view s) (Repeated sql rows)) s s' ->
     Q (Next (Locals None false st' j)) s') ->
  wp (tag_sql_repeated fuel fatal (with_large ext blocks st i)) Q s.
Proof.
  intros Hb Ht Hsql Hrows Hfuel Hr HQ. unfold tag_sql_repeated. apply wp_bind.
  apply (read_sql_spec t ext blocks st i _ s _ Hb Ht Hr). intros s1 b Hr1 Hs1 _ Htk. rewrite Htk.
  apply wp_bind. apply (sqlite_spec _ _ _ _ Hr1). intros s2 Hr2 Hm2.
  pose proof Hs1 as (Hv1 & _). unfold view in Hv1. injection Hv1 as Hc1 Hsu1 Hf1.
  rewrite Hc1, Hsu1, Hf1 in Hm2. rewrite Hc1.
  pose proof (same_moved _ _ _ _ Hs1 Hm2) as Hm. apply wp_bind_gets.
  assert (Hcalls : calls s2 = CPrepare (cstr t) :: calls s)
    by (destruct Hm as (Hv & _); unfold view in Hv; congruence).
  rewrite Hcalls. set (h := CPrepare (cstr t) :: calls s) in *.
  replace (negb (sqlite3_rc h =? SQLITE_OK) && fatal) with false.
  2: { destruct (sqlite3_rc h =? SQLITE_OK) eqn:E; [done|]. by rewrite (not_fatal h) by (done || lia). }
  assert (Hst : (if negb (sqlite3_rc h =? SQLITE_OK) || prepare_null h then SNull else SLive)
                = if prepared_live h then SLive else SNull).
  { unfold prepared_live. by destruct (sqlite3_rc h =? SQLITE_OK), (prepare_null h). }
  cbv zeta. rewrite Hst. set (live := prepared_live h) in *.
  change (Locals None false (if live then SLive else SNull) 0) with (at_value live 0).
  apply wp_bind.
  replace fuel with (sum_list_with row_tags rows + S (fuel - sum_list_with row_tags rows - 1))%nat by lia.
  apply (rows_all rows _ live 0 p s2 _ Hrows Hr2); [|done]. intros s3 j Hr3 Hm3.
  unfold do_item_by in HQ. rewrite <- Hsql in HQ. cbn [view fst snd] in HQ. fold h live in HQ.
  destruct Hm as (Hv & Hrest). rewrite Hv in Hm3.
  set (w := foldl (lossy_row live) _ rows) in *.
  assert (Hm3' : moved w s s3).
  { destruct Hm3 as (? & ? & ?), Hrest. repeat split; congruence. }
  unfold finalize_repeated. cbn [at_value l_stmt]. destruct live; [|by apply wp_ret, HQ].
  cbn [sqlite_stmt]. apply wp_bind. apply (sqlite_spec _ _ _ _ Hr3). intros s4 Hr4 Hm4.
  rewrite finalize_ok. change (negb (SQLITE_OK =? SQLITE_OK)) with false. cbv zeta. cbn match.
  apply wp_ret. apply HQ; [done|]. apply (moved_moved _ _ _ _ _ Hm3').
  destruct Hm3' as (Hv3 & _). rewrite <- Hv3. exact Hm4.
Qed.

Definition item_sql (it : item) : list Z := match it with Oneshot sql | Repeated sql _ => sql end.

Definition item_tags (it : item) : nat :=
  match it with
  | Oneshot sql => data_tags sql
  | Repeated sql rows => data_tags sql + sum_list_with row_tags rows
  end.

Definition item_readable (it : item) : Prop :=
  zlen (item_sql it) < 2 ^ 31 - 65536 /\
  match it with Oneshot _ => True | Repeated _ rows => Forall (Forall readable) rows end.

(** One turn of the outer loop. *)
Lemma tag_step fuel tag body l (s : rst) (Q : Z -> rst -> Prop) :
  ready (tag :: body) s ->
  (forall s', ready body s' -> same s s' ->
     wp (if tag =? MMBAK_TAG_LARGE_DATA then tag_large_data l
         else if tag =? MMBAK_TAG_SQL_ONESHOT then tag_sql_oneshot fatal l
         else if tag =? MMBAK_TAG_SQL_REPEATED then tag_sql_repeated (S fuel) fatal l
         else ret (Bail l))
        (fun r => match r with
                  | Next l => wp (run_tag_loop fuel fatal l) Q
                  | Bail l => wp (run_tag_bail l) Q
                  | Leave rc => Q rc
                  end) s') ->
  wp (run_tag_loop (S fuel) fatal l) Q s.
Proof.
  intros Hr HQ. cbn [run_tag_loop]. apply wp_bind. apply (poll_spec _ _ _ Hr).
  intros s1 Hr1 Hs1. cbn match. apply wp_bind.
  apply (read_app [tag] body s1 _ 1 Hr1 eq_refl). intros s2 Hr2 Hs2. cbv beta iota.
  change (1 =? 0) with false. change (negb (1 =? 1)) with false. cbn match.
  apply wp_bind. eapply wp_mono; [apply HQ; [done|by apply (same_trans _ s1)]|].
  intros [l'|l'|rc] s3 H3; [done|done|by apply wp_ret].
Qed.

Lemma item_run it fuel st i p (s : rst) (Q : Z -> rst -> Prop) :
  item_readable it -> (item_tags it <= fuel)%nat ->
  ready (item_bytes it ++ p) s ->
  (forall s' st' j, ready p s' -> moved (lossy_item (view s) it) s s' ->
     wp (run_tag_loop (fuel - data_tags (item_sql it)) fatal (Locals None false st' j)) Q s') ->
  (sum_list_with row_tags (match it with Oneshot _ => [] | Repeated _ rows => rows end)
     <= fuel - data_tags (item_sql it))%nat ->
  wp (run_tag_loop fuel fatal (Locals None false st i)) Q s.
Proof.
  intros [Hsz Hrd] Hfuel Hr HQ Hrf. set (sql := item_sql it) in *.
  destruct (blob_bytes_split sql ltac:(lia)) as (Hb & He & Ht & Hbb).
  cbn zeta in *. set (blocks := zlen sql / 65536) in *.
  set (ext := take (Z.to_nat (blocks * 65536)) sql) in *.
  pose proof (data_tags_split sql ltac:(lia)) as Hdt. fold blocks in Hdt.
  assert (Hge : (data_tags sql <= fuel)%nat) by (destruct it; simpl in *; unfold sql; simpl; lia).
  set (n := (fuel - data_tags sql)%nat) in *.
  (* the statement itself, from its own tag on *)
  assert (Hlast : forall s1 rest tag, same s s1 ->
    tag = match it with Oneshot _ => MMBAK_TAG_SQL_ONESHOT | _ => MMBAK_TAG_SQL_REPEATED end ->
    rest = match it with Oneshot _ => p | Repeated _ rows => (rows ≫= row_bytes) ++ MMBAK_TAG_END_SQL :: p end ->
    ready (tail_bytes tag (restored sql) ++ rest) s1 ->
    wp (run_tag_loop (S n) fatal (with_large ext blocks st i)) Q s1).
  { intros s1 rest tag Hs1 Htag Hrest Hr1.
    rewrite sql_tail_cons in Hr1 by (subst tag; destruct it; auto).
    cbn [app] in Hr1. rewrite <- app_assoc in Hr1.
    apply (tag_step _ _ _ _ _ _ Hr1). intros s2 Hr2 Hs2.
    pose proof (same_trans _ _ _ Hs1 Hs2) as Hs. subst tag rest.
    assert (Hgo : forall s3 st' j, ready p s3 -> moved (lossy_item (view s2) it) s2 s3 ->
              wp (run_tag_loop n fatal (Locals None false st' j)) Q s3).
    { intros s3 st' j Hr3 Hm3. apply HQ; [done|]. apply (same_moved _ _ _ _ Hs).
      destruct Hs as (<- & _). done. }
    destruct it as [q|q rows]; cbn [item_sql] in sql; subst sql.
    - change (MMBAK_TAG_SQL_ONESHOT =? MMBAK_TAG_LARGE_DATA) with false.
      change (MMBAK_TAG_SQL_ONESHOT =? MMBAK_TAG_SQL_ONESHOT) with true. cbn match.
      apply (oneshot_run (restored q) ext blocks st i p s2 _ Hb Ht Hr2).
      intros s3 Hr3 Hm3. by apply Hgo.
    - change (MMBAK_TAG_SQL_REPEATED =? MMBAK_TAG_LARGE_DATA) with false.
      change (MMBAK_TAG_SQL_REPEATED =? MMBAK_TAG_SQL_ONESHOT) with false.
      change (MMBAK_TAG_SQL_REPEATED =? MMBAK_TAG_SQL_REPEATED) with true. cbn match.
      apply (repeated_run q (restored q) ext blocks st i rows (S n) p s2 _ Hb Ht eq_refl Hrd); [|done|done].
      simpl in Hrf. lia. }
  assert (Hbytes : item_bytes it ++ p =
     (if blocks =? 0 then [] else MMBAK_TAG_LARGE_DATA :: le_bytes 2 blocks ++ ext) ++
     tail_bytes (match it with Oneshot _ => MMBAK_TAG_SQL_ONESHOT | _ => MMBAK_TAG_SQL_REPEATED end) (restored sql) ++
     match it with Oneshot _ => p | Repeated _ rows => (rows ≫= row_bytes) ++ MMBAK_TAG_END_SQL :: p end).
  { destruct it as [q|q rows]; cbn [item_bytes item_sql] in *; subst sql;
      rewrite Hbb, <- !app_assoc; done. }
  rewrite Hbytes in Hr. destruct (blocks =? 0) eqn:E0.
  - replace fuel with (S n) by lia. assert (Hz : blocks = 0) by lia. rewrite Hz in Hlast.
    rewrite with_large_0 in Hlast. by eapply (Hlast s).
  - replace fuel with (S (S n)) by lia. cbn [app] in Hr.
    apply (tag_step _ _ _ _ _ _ Hr). intros s1 Hr1 Hs1.
    change (MMBAK_TAG_LARGE_DATA =? MMBAK_TAG_LARGE_DATA) with true. cbn match.
    rewrite <- !app_assoc in Hr1.
    assert (Hbd : blocks * 65536 <= zlen sql)
      by (unfold blocks; pose proof (Z.div_mod (zlen sql) 65536 ltac:(lia));
          pose proof (Z.mod_pos_bound (zlen sql) 65536 ltac:(lia)); lia).
    apply (tag_large_data_spec ext blocks _ _ _ _ _ ltac:(lia) ltac:(lia) He Hr1).
    intros s2 Hr2 Hs2. eapply Hlast; [by apply (same_trans _ s1)|reflexivity|reflexivity|exact Hr2].
Qed.

Lemma items_run its fuel st i (s : rst) (Q : Z -> rst -> Prop) :
  Forall item_readable its -> (sum_list_with item_tags its < fuel)%nat ->
  ready (items_bytes its) s ->
  (forall s', ready [] s' -> D (rctx s') -> moved (lossy_items its (view s)) s s' -> Q MMBAK_RET_OK s') ->
  wp (run_tag_loop fuel fatal (Locals None false st i)) Q s.
Proof.
  intros Hits. revert fuel st i s. induction Hits as [|it its Hit Hits IH]; intros fuel st i s Hf Hr HQ.
  - destruct fuel as [|fuel]; [simpl in Hf; lia|]. cbn [run_tag_loop].
    apply wp_bind. apply (poll_spec _ _ _ Hr). intros s1 Hr1 Hs1. cbn match. apply wp_bind.
    apply (read_spec 1 [] s1 _ Hr1); [lia|]. intros s2 Hr2 Hs2 HD. cbv beta iota.
    apply wp_ret. apply HQ; [done|by apply HD|]. by apply (same_trans _ s1).
  - cbn [sum_list_with] in Hf. cbn [items_bytes mbind list_bind] in Hr.
    assert (Hle : (sum_list_with row_tags (match it with Oneshot _ => [] | Repeated _ rows => rows end)
                   + data_tags (item_sql it) = item_tags it)%nat) by (destruct it; simpl; lia).
    apply (item_run it fuel st i (items_bytes its) s Q Hit); [lia|done| |lia].
    intros s1 st' j Hr1 Hm1. apply IH; [lia|done|]. intros s2 Hr2 HD Hm2. apply HQ; [done|done|].
    apply (moved_moved _ _ _ _ _ Hm1). destruct Hm1 as (Hv & _). by rewrite Hv in Hm2.
Qed.
End tags.
