(* ===== verification/RecoverProps.v ===== *)
(** * Backup and recovery: theorems

    What [mm_recover_run] does with a file that [mm_backup_run] wrote, data of 64 KiB and more
    that does not survive, the header checks, and what a damaged file can do. *)

From S2P Require Import Prelude CLib Streams Backup BackupChannel BackupFacts BackupProps.
From S2P Require Import Recover RecoverStream RecoverFacts.

(** A section of a backup file: its flags, its compressed contents and its items. *)
Record section := Section_ { sec_flags : Z; sec_data : list Z; sec_items : list item }.

(** Items whose statement and values are all shorter than 64 KiB. *)
Definition value_short (v : sqlite_value) : Prop :=
  match v with SV_Text b | SV_Blob b => zlen b < 65536 | _ => True end.

Definition item_short (it : item) : Prop :=
  zlen (item_sql it) < 65536 /\
  match it with Oneshot _ => True | Repeated _ rows => Forall (Forall value_short) rows end.

Section short.
Context `{Sw : SqliteWrite}.

Lemma do_binds_short live vs i w :
  Forall value_short vs -> lossy_binds live vs i w = do_binds_by (fun d => d) live vs i w.
Proof.
  intros Hv. revert i w. induction Hv as [|v vs Hv Hvs IH]; intros i w; [done|]. cbn [do_binds_by].
  rewrite IH. f_equal. unfold do_bind_by. destruct live; [|done].
  destruct v; simpl in *; rewrite ?restored_small by done; done.
Qed.

(** For short items nothing is lost. *)
Lemma do_items_short its w :
  Forall item_short its -> lossy_items its w = do_items_by (fun d => d) its w.
Proof.
  intros Hits. revert w. unfold do_items_by. induction Hits as [|it its [Hsql Hrows] Hits IH]; intros w; [done|].
  cbn [foldl]. rewrite IH. f_equal. destruct it as [sql|sql rows]; cbn [do_item_by item_sql] in *;
    rewrite restored_small by done; [done|]. cbv zeta.
  set (w0 := (_, _, _)). set (live := prepared_live _).
  assert (Hr : foldl (lossy_row live) w0 rows = foldl (do_row_by (fun d => d) live) w0 rows).
  { clearbody w0 live. revert w0. induction Hrows as [|row rows Hrow Hrows IHr]; intros w0; [done|].
    cbn [foldl]. rewrite IHr. f_equal. unfold do_row_by. by rewrite do_binds_short. }
  by rewrite Hr.
Qed.
End short.

Section files.
Context `{Zl : Zlib} `{ZL : !ZlibLaws Zl} `{Rc : Rc4} `{RL : !Rc4Laws Rc}.

Definition section_file (k : rc4_key) (x : section) : list Z :=
  section_bytes (sec_flags x) (zlen (sec_data x)) ++ (encrypted (sec_flags x) k (sec_data x)).1.

Definition section_ok (x : section) : Prop :=
  0 <= sec_flags x < 2 ^ 32 /\ zlen (sec_data x) < 2 ^ 32 /\
  inflates (sec_data x) (items_bytes (sec_items x)) /\ Forall item_readable (sec_items x).

Lemma encrypted_undo fl k o : (encrypted fl k (encrypted fl k o).1).1 = o.
Proof. unfold encrypted. case_match; [by rewrite rc4_undo|done]. Qed.

Lemma encrypted_key fl k k' o :
  (Z.land fl MMBAK_FLAG_NO_CIPHER = 0 -> k = k') -> (encrypted fl k o).1 = (encrypted fl k' o).1.
Proof. intros H. unfold encrypted. case_match eqn:E; [|done]. rewrite H by lia. done. Qed.
End files.

Section runs.
Context `{Zl : Zlib} `{ZL : !ZlibLaws Zl} `{Rc : Rc4} `{RL : !Rc4Laws Rc} `{Sw : SqliteWrite}.
Context (fatal : bool) (st0 : istate) (inflate_init : inflateInit = Some st0).
Context (step_no_row : forall h, sqlite3_rc (CStep :: h) <> SQLITE_ROW).
Context (finalize_ok : forall h, sqlite3_rc (CFinalize :: h) = SQLITE_OK).
Context (malloc_all : forall n, malloc_ok n = true).
Context (steps_pos : max_steps <> 0%nat).
Context (fatal_ok : fatal = true -> forall h, (forall h', h <> CStep :: h') -> sqlite3_rc h = SQLITE_OK).

Abbreviation rst := (@rstate Zl Rc).

(** Between two sections: the file is at its offset [pos], nobody cancels. *)
Definition between (d : list Z) (pos : Z) (s : rst) : Prop :=
  f_data (r_fp (rctx s)) = d /\ f_lim (r_fp (rctx s)) = [] /\ f_pos (r_fp (rctx s)) = pos /\
  r_canceled (rctx s) = false /\ Forall (eq false) (polls s).

Lemma zlen_encrypted fl k o : zlen (encrypted fl k o).1 = zlen o.
Proof. unfold zlen. by rewrite length_encrypted. Qed.

Lemma section_bytes_fields fl n : 0 <= fl < 2 ^ 32 -> 0 <= n < 2 ^ 32 ->
  le_val (take 4 (section_bytes fl n)) = fl /\ le_val (drop 4 (section_bytes fl n)) = n.
Proof.
  intros Hf Hn. unfold section_bytes. rewrite take_app_length', drop_app_length' by done.
  split; apply le_val_bytes; change (256 ^ Z.of_nat 4) with (2 ^ 32); lia.
Qed.

(** Behind the header of a section the context is at its start. *)
Lemma section_start pre k x post c e : section_ok x ->
  let d := pre ++ section_file k x ++ post in
  r_fp c = File d (zlen pre + 8) e [] -> r_sec_size c = zlen (sec_data x) -> r_flags c = sec_flags x -> r_in c = [] ->
  r_ist c = Some st0 -> (Z.land (sec_flags x) MMBAK_FLAG_NO_CIPHER = 0 -> r_key c = k) ->
  section_at d (zlen pre + 8 + zlen (sec_data x)) (sec_flags x) c (items_bytes (sec_items x)).
Proof.
  intros (Hfl & Hsz & Hinf & Hrd) d H1 H2 H3 H4 H5 H6. zlen_pos.
  set (fl := sec_flags x) in *. set (o := sec_data x) in *. set (sec := section_bytes fl (zlen o)). set (enc := (encrypted fl k o).1).
  assert (Hlenc : zlen enc = zlen o) by apply zlen_encrypted.
  assert (Hdl : zlen pre + 8 + zlen o <= zlen d).
  { unfold d, section_file. rewrite !zlen_app. fold fl o sec enc. rewrite Hlenc. change (zlen sec) with 8. zlen_pos. lia. }
  split; rewrite ?H1, ?H2; simpl; [done|lia|lia|done|].
  exists st0. split; [done|]. rewrite H4. cbn [app].
  assert (Hun : unread c = enc).
  { unfold unread. rewrite H1, H2. simpl. unfold slice, d, section_file. fold fl o sec enc.
    rewrite <- Hlenc, to_nat_zlen, <- app_assoc, (app_assoc pre).
    rewrite drop_app_length' by (rewrite length_app; unfold zlen; change (length sec) with 8%nat; lia).
    by rewrite take_app_length. }
  rewrite Hun, (encrypted_key fl (r_key c) k) by auto. unfold enc. rewrite encrypted_undo. by apply inflates_rep.
Qed.

(** One section. *)
Lemma one_section pre k x post fuel n (s : rst) (Q : option Z -> rst -> Prop) :
  section_ok x -> (sum_list_with item_tags (sec_items x) < fuel)%nat ->
  (Z.land (sec_flags x) MMBAK_FLAG_NO_CIPHER = 0 -> k = rc4_template (rctx s)) ->
  between (pre ++ section_file k x ++ post) (zlen pre) s ->
  (forall s', between (pre ++ section_file k x ++ post) (zlen (pre ++ section_file k x)) s' ->
     view s' = lossy_items (sec_items x) (view s) ->
     section_count (rctx s') = u32 (section_count (rctx s) + 1) ->
     rc4_template (rctx s') = rc4_template (rctx s) ->
     wp (section_loop n fuel fatal) Q s') ->
  wp (section_loop (S n) fuel fatal) Q s.
Proof.
  intros Hok Hfuel Hk (Hd & Hl & Hp & Hca & Hpo) HQ. pose proof Hok as (Hfl & Hsz & Hinf & Hrd).
  cbn [section_loop]. apply wp_bind_gets.
  set (fl := sec_flags x) in *. set (o := sec_data x) in *. set (sec := section_bytes fl (zlen o)).
  assert (Hrd8 : fread1 (r_fp (rctx s)) 8 =
    (Some sec, File (f_data (r_fp (rctx s))) (zlen pre + 8) (f_err (r_fp (rctx s))) [])).
  { apply (fread1_at (r_fp (rctx s)) pre sec ((encrypted fl k o).1 ++ post)); [|done|done|done].
    rewrite Hd. unfold section_file. by rewrite <- app_assoc. }
  rewrite Hrd8. apply wp_bind_modify. cbn [rctx calls polls].
  apply wp_bind_modify, wp_bind_modify, wp_bind_gets, wp_bind_modify. cbn [rctx calls polls].
  rewrite inflate_init. apply wp_bind_modify, wp_bind_modify, wp_bind_gets. cbn [rctx calls polls].
  zlen_pos. destruct (section_bytes_fields fl (zlen o)) as [Hfv Hsv]; [done|lia|]. fold sec in Hfv, Hsv. rewrite Hfv, Hsv.
  set (c1 := set_r_in [] _). change (r_flags c1) with fl.
  set (c2 := if Z.land fl MMBAK_FLAG_NO_CIPHER =? 0 then set_r_key (rc4_template c1) c1 else c1).
  assert (Hc2 : section_at (pre ++ section_file k x ++ post) (zlen pre + 8 + zlen o) fl c2 (items_bytes (sec_items x)) /\
    r_canceled c2 = false /\ view (RState c2 (calls s) (polls s)) = view s /\
    section_count c2 = u32 (section_count (rctx s) + 1) /\ rc4_template c2 = rc4_template (rctx s)).
  { split; [|subst c2; by destruct (Z.land fl MMBAK_FLAG_NO_CIPHER =? 0)].
    apply (section_start pre k x post c2 (f_err (r_fp (rctx s))) Hok); subst c2 c1;
      destruct (Z.land fl MMBAK_FLAG_NO_CIPHER =? 0) eqn:E; simpl; try (by rewrite ?Hd); try (unfold fl in E; lia).
    intros _. symmetry. apply Hk. lia. }
  pose proof (eq_refl : c2 = if Z.land fl MMBAK_FLAG_NO_CIPHER =? 0 then set_r_key (rc4_template c1) c1 else c1) as Ec2.
  clearbody c2. destruct Hc2 as (Hsa & Hc2c & Hw1 & Hw2 & Hw3).
  assert (Hmain : wp (let! rc := dump_read_and_run_tag fuel fatal in
        if negb (rc =? MMBAK_RET_OK) then ret (Some rc) else section_loop n fuel fatal) Q (RState c2 (calls s) (polls s))).
  { apply wp_bind. unfold dump_read_and_run_tag, no_locals.
    eapply (items_run (section_at (pre ++ section_file k x ++ post) (zlen pre + 8 + zlen o) fl) (fun c => r_sec_size c = 0) fatal);
      try done.
    intros s' (Hsa' & Hca' & Hpo') HD (Hv & Hsc & Htm). change (negb (MMBAK_RET_OK =? MMBAK_RET_OK)) with false. cbn match.
    apply HQ; [|by rewrite Hv, Hw1|by rewrite Hsc|by rewrite Htm].
    destruct Hsa' as [[Hd' Hl'] [He' _] _ _ _]. repeat split; auto.
    rewrite HD in He'. unfold section_file. fold fl o sec. rewrite !zlen_app, zlen_encrypted. change (zlen sec) with 8. lia. }
  destruct (Z.land fl MMBAK_FLAG_NO_CIPHER =? 0); rewrite Ec2 in Hmain.
  - apply wp_bind_modify. exact Hmain.
  - apply wp_bind_ret. exact Hmain.
Qed.

Definition sections_file (k : rc4_key) (xs : list section) : list Z := xs ≫= section_file k.

Lemma all_sections xs pre k fuel n m (s : rst) (Q : option Z -> rst -> Prop) :
  Forall section_ok xs -> Forall (fun x => (sum_list_with item_tags (sec_items x) < fuel)%nat) xs ->
  Forall (fun x => Z.land (sec_flags x) MMBAK_FLAG_NO_CIPHER = 0 -> k = rc4_template (rctx s)) xs ->
  (length xs < n)%nat -> section_count (rctx s) = u32 m ->
  between (pre ++ sections_file k xs) (zlen pre) s ->
  (forall s', view s' = lossy_items (xs ≫= sec_items) (view s) ->
     section_count (rctx s') = u32 (m + zlen xs) -> Q (Some 0) s') ->
  wp (section_loop n fuel fatal) Q s.
Proof.
  intros Hxs. revert pre n m s. induction Hxs as [|x xs Hx Hxs IH]; intros pre n m s Hfu Hk Hn Hm Hb HQ;
    destruct n as [|n]; simpl in Hn; try lia.
  - cbn [section_loop]. apply wp_bind_gets. destruct Hb as (Hd & Hl & Hp & _).
    pose proof (fread1_eof (r_fp (rctx s)) 8) as He. rewrite Hd, Hp in He.
    destruct (fread1 (r_fp (rctx s)) 8) as [h f]. simpl in He.
    rewrite He; [|by rewrite app_nil_r|lia]. apply wp_bind_modify, wp_ret. apply HQ; [done|]. simpl. by rewrite zlen_nil, Z.add_0_r.
  - apply Forall_cons in Hfu as [Hf1 Hf2]. apply Forall_cons in Hk as [Hk1 Hk2].
    cbn [sections_file mbind list_bind] in Hb.
    apply (one_section pre k x (sections_file k xs) fuel n s Q Hx Hf1 Hk1 Hb).
    intros s1 Hb1 Hv1 Hc1 Ht1. rewrite app_assoc in Hb1.
    rewrite Hm, u32_add in Hc1.
    apply (IH (pre ++ section_file k x) n (m + 1)); [done|by rewrite Ht1|lia|done|done|].
    intros s2 Hv2 Hc2. apply HQ.
    + cbn [mbind list_bind]. unfold do_items_by in *. by rewrite foldl_app, <- Hv1.
    + rewrite Hc2, zlen_cons. f_equal. lia.
Qed.
End runs.

(** ** Whole runs *)

(** What the reader relies on: a statement that inserts gives no rows, finalizing a statement
    that was reset reports no error, opening and committing a transaction works, memory is
    not exhausted; and in [fatal] mode, in which the first error ends the run, no call fails. *)
Record sqlite_good `{Sw : SqliteWrite} (fatal : bool) : Prop := SqliteGood {
  sg_step : forall h, sqlite3_rc (CStep :: h) <> SQLITE_ROW;
  sg_finalize : forall h, sqlite3_rc (CFinalize :: h) = SQLITE_OK;
  sg_begin : sqlite3_rc [CExec (str "PRAGMA foreign_keys=OFF; BEGIN TRANSACTION;")] = SQLITE_OK;
  sg_commit : forall h, sqlite3_rc (CExec (str "COMMIT;") :: h) = SQLITE_OK;
  sg_malloc : forall n, malloc_ok n = true;
  sg_steps : max_steps <> 0%nat;
  sg_fatal : fatal = true -> forall h, (forall h', h <> CStep :: h') -> sqlite3_rc h = SQLITE_OK
}.

Section whole.
Context `{Zl : Zlib} `{ZL : !ZlibLaws Zl} `{Rc : Rc4} `{RL : !Rc4Laws Rc} `{Sw : SqliteWrite}.

(** The key schedule of a key given to either side. *)
Definition key_of (k : option (list Z)) : rc4_key :=
  match k with Some (b :: bs) => rc4_set_key (b :: bs) | _ => rc4_set_key [] end.

Lemma read_header_ok v d err (c : mm_recover_ctx) :
  r_fp c = File (header_bytes v ++ d) 0 err [] -> v = 1 \/ v = 2 ->
  read_header (RState c [] []) =
    Done (0, RState (set_version v (set_r_fp (File (header_bytes v ++ d) 8 err []) c)) [] []).
Proof.
  intros Hc Hv. unfold read_header, rget, bind, gets. cbn [rctx]. rewrite Hc.
  assert (Hr : fread1 (File (header_bytes v ++ d) 0 err []) 8 =
               (Some (header_bytes v), File (header_bytes v ++ d) 8 err []))
    by (by apply (fread1_at (File (header_bytes v ++ d) 0 err []) [] (header_bytes v) d)).
  rewrite Hr. by destruct Hv as [-> | ->].
Qed.

Lemma mm_recover_init_ok k v d c :
  v = 1 \/ v = 2 ->
  mm_recover_init true (Some (File (header_bytes v ++ d) 0 false [])) k = Some c ->
  r_fp c = File (header_bytes v ++ d) 8 false [] /\ r_canceled c = false /\
  rc4_template c = key_of k.
Proof.
  intros Hv. unfold mm_recover_init. cbn [negb].
  destruct k as [[|b bs]|]; (rewrite (read_header_ok v d false); [|done|done]);
    by intros [= <-].
Qed.

Lemma recover_run_spec fatal st0 k v xs c ps sections fuel :
  inflateInit = Some st0 -> sqlite_good fatal -> v = 1 \/ v = 2 ->
  mm_recover_init true (Some (File (header_bytes v ++ sections_file (key_of k) xs) 0 false [])) k = Some c ->
  Forall (eq false) ps ->
  Forall section_ok xs -> Forall (fun x => (sum_list_with item_tags (sec_items x) < fuel)%nat) xs ->
  (length xs < sections)%nat ->
  wp (mm_recover_run sections fuel fatal)
    (fun r s' => r = MMBAK_RET_OK /\ section_count (rctx s') = u32 (zlen xs) /\
       let w := lossy_items (xs ≫= sec_items)
                  ([CExec (str "PRAGMA foreign_keys=OFF; BEGIN TRANSACTION;")], 0, 0) in
       calls s' = CExec (str "COMMIT;") :: w.1.1 /\ mm_recover_statistics (rctx s') = (w.1.2, w.2))
    (RState c [] ps).
Proof.
  intros Hst Hg Hv Hin Hps Hxs Hfu Hn. destruct Hg as [H1 H2 H3 H4 H5 H6 H7].
  destruct (mm_recover_init_ok _ _ _ _ Hv Hin) as (Hfp & Hca & Htm).
  unfold mm_recover_run. apply wp_bind. unfold sqlite at 1. apply wp_bind_modify, wp_gets.
  cbn [calls rctx polls]. rewrite H3. change (negb (SQLITE_OK =? SQLITE_OK)) with false. cbn match.
  apply wp_bind_modify, wp_bind_modify, wp_bind_modify. cbn [rctx calls polls].
  apply wp_bind.
  eapply (all_sections fatal st0 Hst H1 H2 H5 H6 H7 xs (header_bytes v) (key_of k) fuel sections 0);
    [done|done| |done|done| |].
  - apply Forall_forall. intros x _ _. simpl. by rewrite Htm.
  - unfold between. simpl. by rewrite Hfp.
  - intros s1 Hv1 Hc1. apply wp_bind. unfold sqlite. apply wp_bind_modify, wp_gets.
    cbn [calls]. rewrite H4. change (negb (SQLITE_OK =? SQLITE_OK)) with false. cbn match.
    apply wp_ret. split; [done|]. split; [exact Hc1|]. cbv zeta. unfold view in Hv1. simpl in Hv1.
    rewrite <- Hv1. done.
Qed.

(** C3: recovering a backup file of any number of sections, each with its own flags, plain or
    encrypted with the key.  If the sections hold the compressed encodings of their items, and
    every statement, text and blob of them is shorter than 64 KiB, the run returns 0, executes
    every item of every section in order, exactly as the plain interpreter of items does, each
    value bound as it was stored, from the opening [BEGIN] to the closing [COMMIT], and reports
    the counts of that interpreter; errors of single statements do not stop it, unless the
    caller asked for that ([fatal], under which only steps may fail).  Memory is not refused,
    SQLite opens and commits the transaction, and the run is not cancelled.  Longer data loses its full blocks of 64 KiB
    ([recover_loses_large_text]), which is why it is excluded here. *)
Theorem mm_recover_run_correct fatal st0 k v xs c ps sections fuel :
  inflateInit = Some st0 -> sqlite_good fatal -> v = 1 \/ v = 2 ->
  mm_recover_init true (Some (File (header_bytes v ++ sections_file (key_of k) xs) 0 false [])) k = Some c ->
  Forall (eq false) ps ->
  Forall section_ok xs -> Forall (fun x => (sum_list_with item_tags (sec_items x) < fuel)%nat) xs ->
  (length xs < sections)%nat -> Forall item_short (xs ≫= sec_items) ->
  exists s', mm_recover_run sections fuel fatal (RState c [] ps) = Done (MMBAK_RET_OK, s') /\
    let w := do_items_by (fun d => d) (xs ≫= sec_items)
               ([CExec (str "PRAGMA foreign_keys=OFF; BEGIN TRANSACTION;")], 0, 0) in
    calls s' = CExec (str "COMMIT;") :: w.1.1 /\ mm_recover_statistics (rctx s') = (w.1.2, w.2).
Proof.
  intros Hst Hg Hv Hin Hps Hxs Hfu Hn Hsh.
  destruct (wp_run _ _ _ (recover_run_spec fatal st0 k v xs c ps sections fuel Hst Hg Hv Hin Hps Hxs Hfu Hn))
    as (r & s' & He & -> & _ & Hw).
  exists s'. rewrite do_items_short in Hw by done. by split.
Qed.

Lemma mm_backup_init_fields os k flags (c : @mm_backup_ctx Zl Rc) :
  fopen_ok os flags -> has_flag flags MMBAK_FLAG_INCREMENTAL = false -> 0 <= flags < 2 ^ 32 ->
  mm_backup_init os k flags = Some c ->
  f_data (fp c) = header_bytes MMBAK_VERSION /\ key c = key_of k /\ 0 <= Backup.flags c < 2 ^ 32.
Proof.
  intros Hos Hinc Hfl. unfold mm_backup_init. case_match; [done|].
  destruct (deflateInit _) as [z|]; [|done].
  assert (Hor : 0 <= Z.lor flags MMBAK_FLAG_NO_CIPHER < 2 ^ 32).
  { assert (Hn : 0 <= Z.lor flags MMBAK_FLAG_NO_CIPHER) by (apply Z.lor_nonneg; split; [lia|done]).
    split; [done|].
    destruct (Z.eq_dec (Z.lor flags MMBAK_FLAG_NO_CIPHER) 0) as [->|Hne]; [done|].
    apply Z.log2_lt_pow2; [lia|]. rewrite Z.log2_lor by (done || lia).
    destruct (Z.eq_dec flags 0) as [->|]; [done|].
    apply Z.max_lub_lt; [apply Z.log2_lt_pow2; lia|done]. }
  assert (Hfin : forall rk fl, has_flag fl MMBAK_FLAG_INCREMENTAL = false -> 0 <= fl < 2 ^ 32 -> rk = key_of k ->
    match open_output os fl with None => None | Some f => Some (init_ctx z rk f fl) end = Some c ->
    f_data (fp c) = header_bytes MMBAK_VERSION /\ key c = key_of k /\ 0 <= Backup.flags c < 2 ^ 32).
  { intros rk fl Hi Hr Hk. unfold open_output, fopen_ok in *. destruct (fopen_result os) as [f0|]; [|done].
    destruct Hos as [Hp Hd]. rewrite Hi.
    destruct (fwrite1 f0 (header_bytes MMBAK_VERSION)) as [m f1] eqn:Ew.
    destruct (fwrite1_cases _ _ _ _ Ew ltac:(done)) as [(-> & Hfd & _)|(-> & _)]; [|done].
    intros [= <-]. simpl. rewrite Hfd, Hp, Hd by done. done. }
  destruct k as [[|b bs]|]; apply Hfin; try done; by rewrite has_flag_lor_no_cipher.
Qed.

(** C1: round trip.  A backup of a database made with a key or without one, under any
    schedule of its two threads and without errors, recovered with the same key: every
    statement and every row the backup took from the database is run on the new one, each
    value bound as it was, provided statements and values are shorter than 64 KiB. *)
Theorem backup_recover_roundtrip `{Sq : SqliteRead} os k flags c desc t sc its n ws r s
  fatal st0 rc0 ps fuel :
  fopen_ok os flags -> has_flag flags MMBAK_FLAG_INCREMENTAL = false -> 0 <= flags < 2 ^ 32 ->
  mm_backup_init os k flags = Some c ->
  pthread_create_rc os = 0 -> fseek_rc os = 0 -> (desc = [] \/ malloc_desc os = true) ->
  sqlite3_exec_rc (str "SAVEPOINT dump; PRAGMA writable_schema=ON;") = SQLITE_OK ->
  Forall (Forall (fun e => e <> EvCancel)) sc ->
  db_dump (Backup.flags c) (sorted_tabdesc desc) (malloc_query os) = Some (MMBAK_RET_OK, its, n, ws) ->
  mm_backup_run os desc (BState c t sc) = Done (r, s) ->
  write_error (ctx s) = false -> f_err (fp (ctx s)) = false ->
  zlen (f_data (mm_backup_finish (ctx s))) < 2 ^ 32 ->
  inflateInit = Some st0 -> sqlite_good fatal -> Forall item_readable its -> Forall item_short its ->
  mm_recover_init true (Some (File (f_data (mm_backup_finish (ctx s))) 0 false [])) k = Some rc0 ->
  Forall (eq false) ps -> (sum_list_with item_tags its < fuel)%nat ->
  r = 0 /\
  exists s', mm_recover_run 2 fuel fatal (RState rc0 [] ps) = Done (MMBAK_RET_OK, s') /\
    calls s' = CExec (str "COMMIT;") ::
      (do_items_by (fun d => d) its
         ([CExec (str "PRAGMA foreign_keys=OFF; BEGIN TRANSACTION;")], 0, 0)).1.1.
Proof.
  intros Hfo Hinc Hflr Hin Hpt Hfs Hdesc Hsp Hsc Hd Hrun Hwe Hfe Hsz Hst Hg Hrd Hsh Hrin Hps Hfu.
  destruct (mm_backup_init_inv os k flags c Hfo Hin) as (z & Hz & Hc & Hpos).
  destruct (mm_backup_init_fields os k flags c Hfo Hinc Hflr Hin) as (Hhd & Hk & Hflc).
  assert (Hlen : zlen (f_data (fp c)) < 2 ^ 32) by (rewrite Hhd; done).
  pose proof (mm_backup_run_spec os desc z (key c) (fp c) (Backup.flags c) sc t its n ws
                Hpt Hfs Hsp Hz Hpos Hlen Hsc Hd Hdesc) as H.
  rewrite <- Hc in H. unfold pwp in H. rewrite Hrun in H.
  destruct (H Hwe Hfe) as (-> & _ & o & Ho & Hfd). split; [done|].
  rewrite mm_backup_finish_fp in *. rewrite Hhd, Hk in Hfd.
  assert (Hol : zlen o < 2 ^ 32).
  { rewrite Hfd, !zlen_app in Hsz.
    assert (zlen (encrypted (Backup.flags c) (key_of k) o).1 = zlen o)
      by (unfold zlen; by rewrite length_encrypted). zlen_pos. lia. }
  rewrite u32_small in Hfd by (zlen_pos; lia).
  set (x := Section_ (Backup.flags c) o its).
  assert (Hfile : f_data (fp (ctx s)) = header_bytes MMBAK_VERSION ++ sections_file (key_of k) [x]).
  { rewrite Hfd. unfold sections_file. cbn [mbind list_bind]. by rewrite app_nil_r. }
  rewrite Hfile in Hrin.
  assert (Hx1 : Forall section_ok [x]) by (constructor; [done|constructor]).
  assert (Hx2 : Forall (fun x => (sum_list_with item_tags (sec_items x) < fuel)%nat) [x])
    by (constructor; [done|constructor]).
  destruct (wp_run _ _ _ (recover_run_spec fatal st0 k MMBAK_VERSION [x] rc0 ps 2 fuel Hst Hg
             (or_intror eq_refl) Hrin Hps Hx1 Hx2 ltac:(simpl; lia))) as (r & s' & He & -> & _ & Hw & _).
  exists s'. split; [done|]. cbn [mbind list_bind] in Hw.
  by rewrite app_nil_r, do_items_short in Hw.
Qed.
End whole.

(** ** Counting *)

Section counts.
Context `{Sw : SqliteWrite}.

(** The statements of an item: one, or one a row. *)
Definition statements (it : item) : Z :=
  match it with Oneshot _ => 1 | Repeated _ rows => zlen rows end.

Definition total (w : db_view) : Z := u32 (w.1.2 + w.2).

Lemma total_succ w : total (count_succ w) = u32 (w.1.2 + w.2 + 1).
Proof. unfold total, count_succ. simpl. rewrite u32_add. f_equal. lia. Qed.

Lemma total_fail w : total (count_fail w) = u32 (w.1.2 + w.2 + 1).
Proof.
  unfold total, count_fail. simpl. rewrite Z.add_comm, u32_add. f_equal. lia.
Qed.

Lemma total_binds rs live vs i w : total (do_binds_by rs live vs i w) = total w.
Proof. revert i w. induction vs as [|v vs IH]; intros i w; simpl; [done|]. rewrite IH. by destruct live. Qed.

Lemma u32_total w n : u32 (w.1.2 + w.2 + n) = u32 (total w + n).
Proof. unfold total. by rewrite u32_add. Qed.

Lemma total_items its w :
  (forall h, sqlite3_rc (CExec (str "COMMIT; BEGIN;") :: h) = SQLITE_OK) ->
  total (lossy_items its w) = u32 (w.1.2 + w.2 + foldr Z.add 0 (map statements its)).
Proof.
  intros Hco.
  assert (Hcommit : forall w, total (do_commit w) = total w).
  { intros w0. unfold do_commit. cbv zeta. cbn [fst snd]. rewrite Hco.
    by destruct (w0.1.2 mod 256 =? 0). }
  assert (Hend : forall live w, total (do_row_end live w) = u32 (total w + 1)).
  { intros live w0. unfold do_row_end. cbv zeta. rewrite <- u32_total.
    destruct live; [|by rewrite total_fail]. cbn [fst snd].
    case_match; [rewrite Hcommit, total_succ|rewrite total_fail]; done. }
  assert (Hrows : forall live rows w, total (foldl (lossy_row live) w rows) = u32 (total w + zlen rows)).
  { intros live rows. induction rows as [|row rows IH]; intros w0; cbn [foldl].
    - rewrite zlen_nil, Z.add_0_r. symmetry. apply Zmod_mod.
    - rewrite IH. unfold do_row_by. rewrite Hend, total_binds, u32_add, zlen_cons. f_equal. lia. }
  assert (Hit : forall it w, total (lossy_item w it) = u32 (total w + statements it)).
  { intros [sql|sql rows] w0; cbn [do_item_by statements]; unfold do_exec; cbv zeta.
    - case_match; rewrite ?total_succ, ?total_fail; simpl; by rewrite <- u32_total.
    - pose proof (Hrows (prepared_live (CPrepare (cstr (restored sql)) :: w0.1.1)) rows
                   (CPrepare (cstr (restored sql)) :: w0.1.1, w0.1.2, w0.2)) as H.
      cbn [fst snd]. by case_match. }
  rewrite u32_total. unfold do_items_by. revert w.
  induction its as [|it its IH]; intros w; cbn [foldl map foldr].
  - rewrite Z.add_0_r. symmetry. apply Zmod_mod.
  - rewrite IH, Hit, u32_add. f_equal. lia.
Qed.
End counts.

Section counted.
Context `{Zl : Zlib} `{ZL : !ZlibLaws Zl} `{Rc : Rc4} `{RL : !Rc4Laws Rc} `{Sw : SqliteWrite}.

(** every statement is counted once: after a run over the sections of a file, whatever
    SQLite answered, the successes and the failures [mm_recover_statistics] reports are
    together the number of one-shot statements and of rows in the file, when the
    intermediate commits succeed. *)
Theorem recover_counts_statements fatal st0 k v xs c ps sections fuel :
  inflateInit = Some st0 -> sqlite_good fatal -> v = 1 \/ v = 2 ->
  mm_recover_init true (Some (File (header_bytes v ++ sections_file (key_of k) xs) 0 false [])) k = Some c ->
  Forall (eq false) ps ->
  Forall section_ok xs -> Forall (fun x => (sum_list_with item_tags (sec_items x) < fuel)%nat) xs ->
  (length xs < sections)%nat ->
  (forall h, sqlite3_rc (CExec (str "COMMIT; BEGIN;") :: h) = SQLITE_OK) ->
  exists s', mm_recover_run sections fuel fatal (RState c [] ps) = Done (MMBAK_RET_OK, s') /\
    let '(succeeded, failed) := mm_recover_statistics (rctx s') in
    u32 (succeeded + failed) = u32 (foldr Z.add 0 (map statements (xs ≫= sec_items))).
Proof.
  intros Hst Hg Hv Hin Hps Hxs Hfu Hn Hco.
  destruct (wp_run _ _ _ (recover_run_spec fatal st0 k v xs c ps sections fuel Hst Hg Hv Hin Hps Hxs Hfu Hn))
    as (r & s' & He & -> & _ & _ & Hw). exists s'. split; [done|]. rewrite Hw.
  exact (total_items (xs ≫= sec_items) _ Hco).
Qed.
End counted.

(** ** The header *)

(** C35: a file is accepted as a backup exactly when it starts with the six bytes of the magic and
    a version of 1 or 2, and then that version is recorded; anything else, a short file
    included, makes [mm_recover_init] return no context. *)
Theorem mm_recover_init_header `{Zl : Zlib} `{Rc : Rc4} d k :
  match mm_recover_init true (Some (File d 0 false [])) k with
  | Some c => take 6 d = MMBAK_MAGIC /\ 8 <= zlen d /\ version c = le_val (slice 6 2 d) /\
              (version c = 1 \/ version c = 2)
  | None => ~ (take 6 d = MMBAK_MAGIC /\ 8 <= zlen d /\
               (le_val (slice 6 2 d) = 1 \/ le_val (slice 6 2 d) = 2))
  end.
Proof.
  assert (Hrd : fread1 (File d 0 false []) 8 =
    (if 8 <=? zlen d then Some (take 8 d) else None, (fread1 (File d 0 false []) 8).2)).
  { unfold fread1.
    assert (Hf : (fread (File d 0 false []) 8).1 = take 8 d).
    { unfold fread, f_grant, slice. cbn [f_lim f_data f_pos f_err fst]. by rewrite to_nat_zlen, firstn_all. }
    destruct (fread (File d 0 false []) 8) as [got f]. cbn [fst snd] in *. subst got. f_equal.
    assert (Hl : zlen (take 8 d) = Z.min 8 (zlen d)) by (unfold zlen; rewrite length_take; lia).
    rewrite Hl. destruct (8 <=? zlen d) eqn:E.
    - by replace (Z.min 8 (zlen d) =? 8) with true by lia.
    - by replace (Z.min 8 (zlen d) =? 8) with false by lia. }
  assert (H6 : take 6 (take 8 d) = take 6 d) by (by rewrite take_take).
  assert (H2 : drop 6 (take 8 d) = slice 6 2 d) by (unfold slice; by rewrite skipn_firstn_comm).
  assert (Hh : forall c, r_fp c = File d 0 false [] ->
    match read_header (RState c [] []) with
    | Done (0, s) => take 6 d = MMBAK_MAGIC /\ 8 <= zlen d /\ version (rctx s) = le_val (slice 6 2 d) /\
                     (version (rctx s) = 1 \/ version (rctx s) = 2)
    | _ => ~ (take 6 d = MMBAK_MAGIC /\ 8 <= zlen d /\
               (le_val (slice 6 2 d) = 1 \/ le_val (slice 6 2 d) = 2))
    end).
  { intros c Hc. unfold read_header, rget, bind, gets. cbn [rctx]. rewrite Hc, Hrd. cbn [rupd modify].
    destruct (8 <=? zlen d) eqn:E; [|simpl; lia]. rewrite H6, H2.
    case_bool_decide as Hm; cbn [negb]; [|simpl; intros (? & _); done].
    destruct (negb (le_val (slice 6 2 d) =? 1) && negb (le_val (slice 6 2 d) =? 2)) eqn:Ev; simpl; [lia|].
    repeat split; auto; lia. }
  unfold mm_recover_init. cbn [negb].
  destruct k as [[|b bs]|]; simpl; match goal with |- context [read_header (RState ?c [] [])] =>
    specialize (Hh c eq_refl); by destruct (read_header (RState c [] [])) as [[[| |] s]|] end.
Qed.

(** ** Data of 64 KiB and more *)

Section large.
Context `{Zl : Zlib} `{ZL : !ZlibLaws Zl} `{Rc : Rc4} `{RL : !Rc4Laws Rc} `{Sw : SqliteWrite}.

(** A text of 64 KiB or more does not survive: [LARGE_DATA] puts the full blocks into the
    buffer, the tag that follows reads the rest to the start of the same buffer and binds
    only that rest.  The row is still inserted and counted as a success. *)
Theorem recover_loses_large_text st0 k x sql d c sections fuel :
  inflateInit = Some st0 -> sqlite_good false ->
  (forall h, sqlite3_rc (CReset :: h) = SQLITE_OK) ->
  (forall q h, prepared_live (CPrepare q :: h) = true) ->
  sec_items x = [Repeated sql [[SV_Text d]]] -> 65536 <= zlen d -> zlen sql < 65536 ->
  mm_recover_init true (Some (File (header_bytes 2 ++ sections_file (key_of k) [x]) 0 false [])) k = Some c ->
  section_ok x -> (sum_list_with item_tags (sec_items x) < fuel)%nat -> (1 < sections)%nat ->
  exists s', mm_recover_run sections fuel false (RState c [] []) = Done (MMBAK_RET_OK, s') /\
    calls s' = [CExec (str "COMMIT;"); CFinalize; CReset; CStep; CBindText 1 (restored d);
                CPrepare (cstr sql); CExec (str "PRAGMA foreign_keys=OFF; BEGIN TRANSACTION;")] /\
    restored d <> d /\ mm_recover_statistics (rctx s') = (1, 0).
Proof.
  intros Hst Hg Hre Hpr Hit Hd Hsql Hin Hx Hfu Hn.
  assert (Hx1 : Forall section_ok [x]) by (constructor; [done|constructor]).
  assert (Hx2 : Forall (fun x => (sum_list_with item_tags (sec_items x) < fuel)%nat) [x])
    by (constructor; [done|constructor]).
  destruct (wp_run _ _ _ (recover_run_spec false st0 k 2 [x] c [] sections fuel Hst Hg
             (or_intror eq_refl) Hin (Forall_nil_2 _) Hx1 Hx2 ltac:(simpl; lia)))
    as (r & s' & He & -> & _ & Hw & Hs).
  exists s'. split; [done|]. split; [|split; [by apply restored_large|]].
  - rewrite Hw. cbn [mbind list_bind]. rewrite Hit. cbn [app]. unfold do_items_by. cbn [foldl do_item_by].
    cbv zeta. cbn [fst snd]. rewrite restored_small by done.
    rewrite Hpr. cbn [foldl]. unfold do_row_by, do_row_end. cbn [do_binds_by]. cbv zeta.
    unfold do_bind_by. cbn [fst snd]. rewrite Hre. reflexivity.
  - rewrite Hs. cbn [mbind list_bind]. rewrite Hit. cbn [app]. unfold do_items_by. cbn [foldl do_item_by].
    cbv zeta. cbn [fst snd]. rewrite Hpr. cbn [foldl]. unfold do_row_by, do_row_end. cbn [do_binds_by].
    cbv zeta. unfold do_bind_by. cbn [fst snd]. rewrite Hre. reflexivity.
Qed.
End large.

(** ** Runs on small files *)

Module SmallFile.
#[export] Existing Instances Toy.cipher Toy.cipher_laws Toy.zlib Toy.zlib_laws.

(** A database on which every call succeeds. *)
#[export] Instance sink : SqliteWrite := {|
  sqlite3_rc := fun h => match h with CStep :: _ => 101 | _ => SQLITE_OK end;
  prepare_null := fun _ => false;
  malloc_ok := fun _ => true;
  max_steps := 1
|}.

Lemma sink_good fatal : sqlite_good fatal.
Proof. split; try done. intros _ [|[] h] H; try done. by destruct (H h). Qed.

(** A section without cipher with these bytes. *)
Definition compressed (bytes : list Z) : list Z := Toy.mark bytes ++ [0].
Definition small (its : list item) : section := Section_ 1 (compressed (items_bytes its)) its.

Definition file (bytes : list Z) : list Z :=
  header_bytes 2 ++ section_bytes 1 (zlen (compressed bytes)) ++ compressed bytes.

Definition opened (d : list Z) : mm_recover_ctx :=
  set_version 2 (RCtx 1 None [] (rc4_set_key []) (rc4_set_key []) (File d 8 false []) 0 0 0 0 0 false).

(** Outcome of a run over a file with one section: the code and the counts, or the fault. *)
Definition observe (bytes : list Z) : Z * Z * Z + fault :=
  match mm_recover_run 2 200 false (RState (opened (file bytes)) [] []) with
  | Done (r, s) => inl (r, succ_count (rctx s), fail_count (rctx s))
  | Stuck f => inr f
  end.

Lemma observe_stuck bytes f :
  observe bytes = inr f -> mm_recover_run 2 200 false (RState (opened (file bytes)) [] []) = Stuck f.
Proof. unfold observe. destruct (mm_recover_run _ _ _ _) as [[]|]; [discriminate|]. by intros [= ->]. Qed.

Lemma file_opened bytes :
  mm_recover_init true (Some (File (file bytes) 0 false [])) None = Some (opened (file bytes)).
Proof. reflexivity. Qed.
End SmallFile.

#[local] Existing Instances Toy.cipher Toy.cipher_laws Toy.zlib Toy.zlib_laws Small.db SmallFile.sink.

Example small_recovery : SmallFile.observe (items_bytes Small.items) = inl (0, 3, 0).
Proof. vm_compute. reflexivity. Qed.

(** A table whose rows are complete, then a byte that is no tag. *)
Definition bad_after_table : list Z := items_bytes [Repeated (insert_text Small.table 1) Small.rows] ++ [0].

(** A damaged file can make the reader use a statement after it was freed: the pointer is not
    cleared when the statement of a table is finalized at [END_SQL], and a bad tag right
    after it goes to the clean-up code that finalizes the same pointer again. *)
Theorem recover_use_after_free :
  mm_recover_run 2 200 false (RState (SmallFile.opened (SmallFile.file bad_after_table)) [] [])
  = Stuck UseAfterFree.
Proof. apply SmallFile.observe_stuck. vm_compute. reflexivity. Qed.

(** A row whose integer has eleven bytes. *)
Definition long_varint : list Z :=
  [MMBAK_TAG_SQL_REPEATED; 1; 0; 65; MMBAK_TAG_BIND_VARINT] ++ replicate 10 255 ++ [1].

(** A varint is read without a limit on its length, so a damaged file makes the reader shift a
    64-bit integer by 63 bits and more, which C does not define. *)
Theorem recover_varint_overflow :
  mm_recover_run 2 200 false (RState (SmallFile.opened (SmallFile.file long_varint)) [] [])
  = Stuck IntOverflow.
Proof. apply SmallFile.observe_stuck. vm_compute. reflexivity. Qed.

Lemma small_section_ok : Forall section_ok [SmallFile.small Small.items].
Proof.
  constructor; [|constructor]. split; [done|]. split; [by vm_compute|]. split; [reflexivity|].
  repeat constructor; vm_compute; done.
Qed.

Lemma small_items_short : Forall item_short ([SmallFile.small Small.items] ≫= sec_items).
Proof. repeat constructor. Qed.

Lemma mm_recover_run_correct_witness :
  let xs := [SmallFile.small Small.items] in
  exists s', mm_recover_run 2 20 true
      (RState (SmallFile.opened (header_bytes 2 ++ sections_file (key_of None) xs)) [] [false])
      = Done (MMBAK_RET_OK, s') /\
    let w := do_items_by (fun d => d) (xs ≫= sec_items)
               ([CExec (str "PRAGMA foreign_keys=OFF; BEGIN TRANSACTION;")], 0, 0) in
    calls s' = CExec (str "COMMIT;") :: w.1.1 /\ mm_recover_statistics (rctx s') = (w.1.2, w.2).
Proof.
  apply (mm_recover_run_correct (Zl := Toy.zlib) true Toy.DMark None 2).
  - reflexivity.
  - apply SmallFile.sink_good.
  - by right.
  - reflexivity.
  - repeat constructor.
  - apply small_section_ok.
  - repeat constructor.
  - simpl. lia.
  - apply small_items_short.
Defined.

(** The section of the run of [Small], encrypted. *)
Definition small_backup : list Z :=
  header_bytes 2 ++ sections_file (key_of (Some [7; 9]))
    [Section_ 0 (SmallFile.compressed (items_bytes Small.items)) Small.items].

Definition small_reader : mm_recover_ctx :=
  set_version 2 (RCtx 0 None [] (rc4_set_key [7; 9]) (rc4_set_key []) (File small_backup 8 false []) 0 0 0 0 0 false).

Lemma small_backup_run :
  exists s, mm_backup_run (Small.os []) [] (BState (Small.opened []) WExit Small.sched) = Done (0, s) /\
    write_error (ctx s) = false /\ f_err (fp (ctx s)) = false /\ f_data (fp (ctx s)) = small_backup.
Proof.
  assert (H : match mm_backup_run (Small.os []) [] (BState (Small.opened []) WExit Small.sched) with
              | Done (0, s) => write_error (ctx s) = false /\ f_err (fp (ctx s)) = false /\
                               f_data (fp (ctx s)) = small_backup
              | _ => False
              end) by (vm_compute; auto).
  destruct (mm_backup_run _ _ _) as [[[| |] s]|]; try done. by exists s.
Qed.

Lemma backup_recover_roundtrip_witness :
  exists s', mm_recover_run 2 20 true (RState small_reader [] [false; false]) = Done (MMBAK_RET_OK, s') /\
    calls s' = CExec (str "COMMIT;") ::
      (do_items_by (fun d => d) Small.items
         ([CExec (str "PRAGMA foreign_keys=OFF; BEGIN TRANSACTION;")], 0, 0)).1.1.
Proof.
  destruct small_backup_run as (s & Hrun & Hwe & Hfe & Hd).
  apply (backup_recover_roundtrip (Zl := Toy.zlib) (Small.os []) (Some [7; 9]) 0 (Small.opened []) [] WExit
           Small.sched Small.items 2 false 0 s true Toy.DMark).
  - by split.
  - reflexivity.
  - split; [apply Z.leb_le|apply Z.ltb_lt]; reflexivity.
  - vm_compute. reflexivity.
  - reflexivity.
  - reflexivity.
  - by left.
  - reflexivity.
  - apply Forall_replicate. repeat constructor; discriminate.
  - vm_compute. reflexivity.
  - exact Hrun.
  - exact Hwe.
  - exact Hfe.
  - rewrite mm_backup_finish_fp, Hd. apply Z.ltb_lt. vm_compute. reflexivity.
  - reflexivity.
  - apply SmallFile.sink_good.
  - repeat constructor; vm_compute; done.
  - repeat constructor; vm_compute; done.
  - rewrite mm_backup_finish_fp, Hd. reflexivity.
  - repeat constructor.
  - apply Nat.ltb_lt. reflexivity.
Defined.

Lemma recover_counts_statements_witness :
  exists s', mm_recover_run 2 20 false
      (RState (SmallFile.opened (header_bytes 2 ++ sections_file (key_of None)
                 [SmallFile.small Small.items])) [] [])
      = Done (MMBAK_RET_OK, s') /\
    let '(succeeded, failed) := mm_recover_statistics (rctx s') in
    u32 (succeeded + failed) = u32 3.
Proof.
  apply (recover_counts_statements (Zl := Toy.zlib) false Toy.DMark None 2 [SmallFile.small Small.items]).
  - reflexivity.
  - apply SmallFile.sink_good.
  - by right.
  - reflexivity.
  - constructor.
  - apply small_section_ok.
  - repeat constructor.
  - simpl. lia.
  - reflexivity.
Defined.

(** One row with a text of 65538 bytes. *)
Definition large_text : list Z := replicate (Z.to_nat 65536) 97 ++ [98; 99].
Definition large_items : list item := [Repeated (insert_text Small.table 0) [[SV_Text large_text]]].

Lemma recover_loses_large_text_witness :
  exists s', mm_recover_run 2 20 false
      (RState (SmallFile.opened (header_bytes 2 ++ sections_file (key_of None) [SmallFile.small large_items])) [] [])
      = Done (MMBAK_RET_OK, s') /\
    calls s' = [CExec (str "COMMIT;"); CFinalize; CReset; CStep; CBindText 1 (restored large_text);
                CPrepare (cstr (insert_text Small.table 0));
                CExec (str "PRAGMA foreign_keys=OFF; BEGIN TRANSACTION;")] /\
    restored large_text <> large_text /\ mm_recover_statistics (rctx s') = (1, 0).
Proof.
  apply (recover_loses_large_text (Zl := Toy.zlib) Toy.DMark None (SmallFile.small large_items)
           (insert_text Small.table 0) large_text).
  - reflexivity.
  - apply SmallFile.sink_good.
  - reflexivity.
  - reflexivity.
  - reflexivity.
  - apply Z.leb_le. vm_compute. reflexivity.
  - apply Z.ltb_lt. vm_compute. reflexivity.
  - reflexivity.
  - split; [done|]. split; [apply Z.ltb_lt; vm_compute; reflexivity|]. split; [reflexivity|].
    repeat constructor; try apply Z.ltb_lt; vm_compute; try reflexivity. all: done.
  - apply Nat.ltb_lt. vm_compute. reflexivity.
  - apply Nat.ltb_lt. vm_compute. reflexivity.
Defined.
