(* ===== verification/Values.v ===== *)
(** * The repair kit: memory and value arrays (sqliterk_values.c)

    A [sqliterk_values] is a growing array of tagged values.  [sqliterkOSMalloc] belongs to a
    file that is not part of the sources; it is given by the answer to each call in turn: no
    block, or a block with its initial bytes.  The state of the functions here is the number
    of calls made so far.

    A pointer is [None] when it is null; an object a pointer refers to is the list of its
    bytes or elements.  A union remembers the member written last, and reading another one
    is the fault [BadUnion]. *)

From S2P Require Import Prelude CLib.

(** ** Result codes *)

Definition SQLITERK_OK : Z := 0.
Definition SQLITERK_CANTOPEN : Z := 1.
Definition SQLITERK_MISUSE : Z := 2.
Definition SQLITERK_IOERR : Z := 3.
Definition SQLITERK_NOMEM : Z := 4.
Definition SQLITERK_SHORT_READ : Z := 5.
Definition SQLITERK_DAMAGED : Z := 6.
Definition SQLITERK_DISCARD : Z := 7.
Definition SQLITERK_CANCELLED : Z := 8.

(** ** The allocator *)

Class SqliterkAlloc := {
  (** the block the [k]-th call gives for a size, if any *)
  os_malloc : nat -> Z -> option (list Z)
}.

(** What every caller relies on: a block has the size asked for and is cleared. *)
Class SqliterkAllocLaws (A : SqliterkAlloc) : Prop := {
  os_malloc_zeroed : forall k n blk, os_malloc k n = Some blk -> 0 <= n -> blk = zeros n
}.

(** ** Numbers *)

(** [(int64_t) d] for a [double] given by its eight bytes: truncation, undefined outside the
    range of the integer type. *)
Definition double_to_int64 (bits : list Z) : res Z :=
  let n := le_val bits in
  let e := Z.shiftr n 52 mod 2048 in
  let m := n mod 2 ^ 52 + 2 ^ 52 in
  if e =? 2047 then Stuck IntOverflow
  else
    let mag := if e =? 0 then 0 else if 1075 <=? e then m * 2 ^ (e - 1075) else m / 2 ^ (1075 - e) in
    let v := if Z.testbit n 63 then - mag else mag in
    if (- 2 ^ 63 <=? v) && (v <? 2 ^ 63) then Done v else Stuck IntOverflow.

(** [(double) i]: the nearest double, ties to even. *)
Definition int64_to_double (i : Z) : list Z :=
  if i =? 0 then zeros 8
  else
    let a := Z.abs i in
    let k := Z.log2 a in
    let q :=
      if k <=? 52 then a * 2 ^ (52 - k)
      else
        let sh := k - 52 in
        let q := a / 2 ^ sh in
        let r := a mod 2 ^ sh in
        let half := 2 ^ (sh - 1) in
        if (half <? r) || ((r =? half) && Z.odd q) then q + 1 else q in
    le_bytes 8 ((if i <? 0 then 2 ^ 63 else 0) + (k + 1023) * 2 ^ 52 + (q - 2 ^ 52)).

Definition is_space (c : Z) : bool := (c =? 32) || ((9 <=? c) && (c <=? 13)).
Definition is_digit (c : Z) : bool := (48 <=? c) && (c <=? 57).

Fixpoint skip_spaces (l : list Z) : list Z :=
  match l with
  | c :: l' => if is_space c then skip_spaces l' else l
  | [] => []
  end.

Fixpoint digits (l : list Z) (acc : Z) : Z :=
  match l with
  | c :: l => if is_digit c then digits l (acc * 10 + (c - 48)) else acc
  | [] => acc
  end.

(** [atol] for a 64-bit [long]: spaces, a sign, digits; values outside the range are clamped. *)
Definition atol (s : list Z) : Z :=
  let l := skip_spaces s in
  let v := match l with
           | c :: l' => if c =? 45 then - digits l' 0 else if c =? 43 then digits l' 0 else digits l 0
           | [] => 0
           end in
  Z.max (- 2 ^ 63) (Z.min v (2 ^ 63 - 1)).

(** [atof] of the C library, as the eight bytes of its result. *)
Class CAtof := { atof : list Z -> list Z }.

(** ** Data *)

Definition sqliterk_value_type_null : Z := 0.
Definition sqliterk_value_type_integer : Z := 1.
Definition sqliterk_value_type_number : Z := 2.
Definition sqliterk_value_type_text : Z := 3.
Definition sqliterk_value_type_binary : Z := 4.

Inductive sqliterk_any :=
| AnyInteger (i : Z)
| AnyNumber (bits : list Z)
| AnyText (t : option (list Z)) (s : Z)
| AnyBinary (b : option (list Z)) (s : Z)
| AnyRaw (bytes : list Z).  (* as the allocator left it *)

Record sqliterk_value := Value { v_type : Z; v_any : sqliterk_any }.

Record sqliterk_values := Values_ {
  vs_count : Z;
  vs_capacity : Z;
  vs_values : option (list sqliterk_value)
}.

Definition sizeof_value : Z := 24.
Definition sizeof_values : Z := 16.

(** Structures in a fresh block; a pointer there is null if its bytes are zero, and otherwise
    refers to no object. *)
Definition fresh_value (blk : list Z) (i : Z) : sqliterk_value :=
  Value (s32 (le_val (slice (sizeof_value * i) 4 blk))) (AnyRaw (slice (sizeof_value * i + 8) 16 blk)).

Definition fresh_array (blk : list Z) (n : Z) : list sqliterk_value :=
  map (fun i => fresh_value blk (Z.of_nat i)) (seq 0 (Z.to_nat n)).

Definition fresh_values (blk : list Z) : sqliterk_values :=
  Values_ (s32 (le_val (slice 0 4 blk))) (s32 (le_val (slice 4 4 blk)))
          (if le_val (slice 8 8 blk) =? 0 then None else Some []).

Section values.
Context `{Al : SqliterkAlloc} `{Af : CAtof}.

Definition sqliterkOSMalloc (n : Z) : cm nat (option (list Z)) :=
  fun k => Done (os_malloc k (u64 n), S k).

(** ** Growing and clearing *)

Definition sqliterkValuesAutoGrow (v : sqliterk_values) : cm nat (Z * sqliterk_values) :=
  if vs_capacity v <=? vs_count v then
    let oldCapacity := vs_capacity v in
    let! newCapacity :=
      lift_res (if oldCapacity <=? 0 then Done 4
                else if 8 * 1024 * 1024 <? oldCapacity then chk_int (oldCapacity + 8 * 1024 * 1024)
                else chk_int (oldCapacity * 2)) in
    let! n := lift_res (chk_int (newCapacity + 1)) in
    let! blk := sqliterkOSMalloc (sizeof_value * n) in
    match blk with
    | None => ret (SQLITERK_NOMEM, v)
    | Some blk =>
      let! newValues :=
        lift_res (match vs_values v with
                  | None => Done (fresh_array blk n)
                  | Some old => let? xs := zread_n old 0 oldCapacity in zwrite_n (fresh_array blk n) 0 xs
                  end) in
      ret (SQLITERK_OK, Values_ (vs_count v) newCapacity (Some newValues))
    end
  else ret (SQLITERK_OK, v).

Definition sqliterkValueClear (value : sqliterk_value) : res sqliterk_value :=
  if v_type value =? sqliterk_value_type_text then
    match v_any value with
    | AnyText _ s => Done (Value sqliterk_value_type_null (AnyText None s))
    | _ => Stuck BadUnion
    end
  else if v_type value =? sqliterk_value_type_binary then
    match v_any value with
    | AnyBinary _ s => Done (Value sqliterk_value_type_null (AnyBinary None s))
    | _ => Stuck BadUnion
    end
  else Done (Value sqliterk_value_type_null (v_any value)).

(** [&values->values[i]] *)
Definition slot (v : sqliterk_values) (i : Z) : res sqliterk_value :=
  match vs_values v with None => Stuck NullDeref | Some l => zread l i end.

Definition set_slot (v : sqliterk_values) (i : Z) (x : sqliterk_value) : res sqliterk_values :=
  match vs_values v with
  | None => Stuck NullDeref
  | Some l => let? l := zwrite_n l i [x] in Done (Values_ (vs_count v) (vs_capacity v) (Some l))
  end.

Fixpoint clear_loop (n : nat) (i : Z) (v : sqliterk_values) : res sqliterk_values :=
  match n with
  | O => Done v
  | S n =>
    let? x := slot v i in
    let? x := sqliterkValueClear x in
    let? v := set_slot v i x in
    clear_loop n (i + 1) v
  end.

Definition sqliterkValuesClear (vs : option sqliterk_values) : res (Z * option sqliterk_values) :=
  match vs with
  | None => Done (SQLITERK_MISUSE, None)
  | Some v =>
    let? v := clear_loop (Z.to_nat (vs_count v)) 0 v in
    Done (SQLITERK_OK, Some (Values_ 0 (vs_capacity v) (vs_values v)))
  end.

(** Nothing is left of the object. *)
Definition sqliterkValuesFree (vs : option sqliterk_values) : res Z :=
  match vs with
  | None => Done SQLITERK_MISUSE
  | Some v => let? _v := clear_loop (Z.to_nat (vs_count v)) 0 v in Done SQLITERK_OK
  end.

Definition sqliterkValuesAlloc : cm nat (Z * option sqliterk_values) :=
  let! blk := sqliterkOSMalloc sizeof_values in
  match blk with
  | None => ret (SQLITERK_NOMEM, None)
  | Some blk =>
    let! (rc, v) := sqliterkValuesAutoGrow (fresh_values blk) in
    if negb (rc =? SQLITERK_OK) then
      let! _rc := lift_res (sqliterkValuesFree (Some v)) in ret (rc, None)
    else ret (SQLITERK_OK, Some v)
  end.

(** ** Reading *)

Definition sqliterkValuesGetCount (vs : option sqliterk_values) : Z :=
  match vs with None => 0 | Some v => vs_count v end.

Definition sqliterkValuesGetType (vs : option sqliterk_values) (index : Z) : res Z :=
  match vs with
  | Some v => if index <? vs_count v then let? x := slot v index in Done (v_type x)
              else Done sqliterk_value_type_null
  | None => Done sqliterk_value_type_null
  end.

(** A string a pointer refers to. *)
Definition string_at (p : option (list Z)) : res (list Z) :=
  match p with
  | None => Stuck NullDeref
  | Some obj => let? n := strlen obj in Done (take (Z.to_nat n) obj)
  end.

Definition sqliterkValuesGetInteger64 (vs : option sqliterk_values) (index : Z) : res Z :=
  match vs with
  | Some v =>
    if index <? vs_count v then
      let? x := slot v index in
      let? t := sqliterkValuesGetType vs index in
      if t =? sqliterk_value_type_integer then
        match v_any x with AnyInteger i => Done i | _ => Stuck BadUnion end
      else if t =? sqliterk_value_type_number then
        match v_any x with AnyNumber bits => double_to_int64 bits | _ => Stuck BadUnion end
      else if t =? sqliterk_value_type_text then
        match v_any x with
        | AnyText t _ => let? s := string_at t in Done (atol s)
        | _ => Stuck BadUnion
        end
      else Done 0
    else Done 0
  | None => Done 0
  end.

Definition sqliterkValuesGetInteger (vs : option sqliterk_values) (index : Z) : res Z :=
  let? i := sqliterkValuesGetInteger64 vs index in Done (s32 i).

Definition sqliterkValuesGetNumber (vs : option sqliterk_values) (index : Z) : res (list Z) :=
  match vs with
  | Some v =>
    if index <? vs_count v then
      let? x := slot v index in
      let? t := sqliterkValuesGetType vs index in
      if t =? sqliterk_value_type_integer then
        match v_any x with AnyInteger i => Done (int64_to_double i) | _ => Stuck BadUnion end
      else if t =? sqliterk_value_type_number then
        match v_any x with AnyNumber bits => Done bits | _ => Stuck BadUnion end
      else if t =? sqliterk_value_type_text then
        match v_any x with
        | AnyText t _ => let? s := string_at t in Done (atof s)
        | _ => Stuck BadUnion
        end
      else Done (zeros 8)
    else Done (zeros 8)
  | None => Done (zeros 8)
  end.

Definition sqliterkValuesGetText (vs : option sqliterk_values) (index : Z) : res (option (list Z)) :=
  match vs with
  | Some v =>
    if index <? vs_count v then
      let? x := slot v index in
      if v_type x =? sqliterk_value_type_text then
        match v_any x with AnyText t _ => Done t | _ => Stuck BadUnion end
      else Done None
    else Done None
  | None => Done None
  end.

Definition sqliterkValuesGetBinary (vs : option sqliterk_values) (index : Z) : res (option (list Z)) :=
  match vs with
  | Some v =>
    if index <? vs_count v then
      let? x := slot v index in
      if v_type x =? sqliterk_value_type_binary then
        match v_any x with AnyBinary b _ => Done b | _ => Stuck BadUnion end
      else Done None
    else Done None
  | None => Done None
  end.

Definition sqliterkValuesGetBytes (vs : option sqliterk_values) (index : Z) : res Z :=
  match vs with
  | Some v =>
    if index <? vs_count v then
      let? x := slot v index in
      if v_type x =? sqliterk_value_type_binary then
        match v_any x with AnyBinary _ s => Done s | _ => Stuck BadUnion end
      else if v_type x =? sqliterk_value_type_text then
        match v_any x with AnyText _ s => Done s | _ => Stuck BadUnion end
      else Done 0
    else Done 0
  | None => Done 0
  end.

(** ** Adding *)

(** Writing the element behind the last one and counting it. *)
Definition push (v : sqliterk_values) (x : sqliterk_value) : res sqliterk_values :=
  let? v := set_slot v (vs_count v) x in
  Done (Values_ (vs_count v + 1) (vs_capacity v) (vs_values v)).

Definition sqliterkValuesAddInteger64 (vs : option sqliterk_values) (i : Z)
  : cm nat (Z * option sqliterk_values) :=
  match vs with
  | None => ret (SQLITERK_MISUSE, None)
  | Some v =>
    let! (rc, v) := sqliterkValuesAutoGrow v in
    if negb (rc =? SQLITERK_OK) then ret (rc, Some v)
    else
      let! v := lift_res (push v (Value sqliterk_value_type_integer (AnyInteger i))) in
      ret (SQLITERK_OK, Some v)
  end.

Definition sqliterkValuesAddInteger (vs : option sqliterk_values) (i : Z)
  : cm nat (Z * option sqliterk_values) :=
  sqliterkValuesAddInteger64 vs i.

Definition sqliterkValuesAddNumber (vs : option sqliterk_values) (d : list Z)
  : cm nat (Z * option sqliterk_values) :=
  match vs with
  | None => ret (SQLITERK_MISUSE, None)
  | Some v =>
    let! (rc, v) := sqliterkValuesAutoGrow v in
    if negb (rc =? SQLITERK_OK) then ret (rc, Some v)
    else
      let! v := lift_res (push v (Value sqliterk_value_type_number (AnyNumber d))) in
      ret (SQLITERK_OK, Some v)
  end.

(** [t] is the object from the pointer to its end. *)
Definition sqliterkValuesAddNoTerminatorText (vs : option sqliterk_values) (t : option (list Z)) (s : Z)
  : cm nat (Z * option sqliterk_values) :=
  match vs, t with
  | Some v, Some t =>
    let! (rc, v) := sqliterkValuesAutoGrow v in
    if negb (rc =? SQLITERK_OK) then ret (rc, Some v)
    else
      let! n := lift_res (chk_int (s + 1)) in
      let! blk := sqliterkOSMalloc n in
      match blk with
      | None =>
        let! x := lift_res (sqliterkValueClear (Value sqliterk_value_type_text (AnyText None s))) in
        let! v := lift_res (set_slot v (vs_count v) x) in
        ret (SQLITERK_NOMEM, Some v)
      | Some blk =>
        let! bytes := lift_res (zread_n t 0 s) in
        let! blk := lift_res (zwrite_n blk 0 bytes) in
        let! blk := lift_res (zwrite_n blk s [0]) in
        let! v := lift_res (push v (Value sqliterk_value_type_text (AnyText (Some blk) s))) in
        ret (SQLITERK_OK, Some v)
      end
  | _, _ => ret (SQLITERK_MISUSE, vs)
  end.

Definition sqliterkValuesAddText (vs : option sqliterk_values) (t : option (list Z))
  : cm nat (Z * option sqliterk_values) :=
  match t with
  | None => fail NullDeref
  | Some obj => let! n := lift_res (strlen obj) in sqliterkValuesAddNoTerminatorText vs t (s32 n)
  end.

Definition sqliterkValuesAddBinary (vs : option sqliterk_values) (b : option (list Z)) (s : Z)
  : cm nat (Z * option sqliterk_values) :=
  match vs, b with
  | Some v, Some b =>
    let! (rc, v) := sqliterkValuesAutoGrow v in
    if negb (rc =? SQLITERK_OK) then ret (rc, Some v)
    else
      let! blk := sqliterkOSMalloc s in
      match blk with
      | None =>
        let! v := lift_res (set_slot v (vs_count v) (Value sqliterk_value_type_binary (AnyBinary None s))) in
        ret (SQLITERK_NOMEM, Some v)
      | Some blk =>
        let! bytes := lift_res (zread_n b 0 s) in
        let! blk := lift_res (zwrite_n blk 0 bytes) in
        let! v := lift_res (push v (Value sqliterk_value_type_binary (AnyBinary (Some blk) s))) in
        ret (SQLITERK_OK, Some v)
      end
  | _, _ => ret (SQLITERK_MISUSE, vs)
  end.

Definition sqliterkValuesAddNull (vs : option sqliterk_values) : cm nat (Z * option sqliterk_values) :=
  match vs with
  | None => ret (SQLITERK_MISUSE, None)
  | Some v =>
    let! (rc, v) := sqliterkValuesAutoGrow v in
    if negb (rc =? SQLITERK_OK) then ret (rc, Some v)
    else
      let! x := lift_res (slot v (vs_count v)) in
      let! v := lift_res (push v (Value sqliterk_value_type_null (v_any x))) in
      ret (SQLITERK_OK, Some v)
  end.
End values.
