(* ===== verification/ValuesFacts.v ===== *)
(** * Value arrays: what they promise

    The array implements a list: adding appends one value or, without memory, changes
    nothing; reading gives back what was added; clearing empties it. *)

From S2P Require Import Prelude CLib Values.

(** ** The abstract contents *)

Inductive rkval :=
| RNull
| RInteger (i : Z)
| RNumber (bits : list Z)
| RText (bytes : list Z)
| RBinary (bytes : list Z).

#[export] Instance rkval_eq_dec : EqDecision rkval.
Proof. solve_decision. Defined.

(** A slot that holds a value; a text has its terminator. *)
Definition holds (x : sqliterk_value) (r : rkval) : Prop :=
  match r with
  | RNull => v_type x = sqliterk_value_type_null
  | RInteger i => x = Value sqliterk_value_type_integer (AnyInteger i)
  | RNumber b => x = Value sqliterk_value_type_number (AnyNumber b)
  | RText b => x = Value sqliterk_value_type_text (AnyText (Some (b ++ [0])) (zlen b))
  | RBinary b => x = Value sqliterk_value_type_binary (AnyBinary (Some b) (zlen b))
  end.

(** The array [v] holds [l]. *)
Record vals_rep (v : sqliterk_values) (l : list rkval) : Prop := ValsRep {
  vr_array : exists arr, vs_values v = Some arr /\ zlen arr = vs_capacity v + 1 /\
             Forall2 holds (take (length l) arr) l;
  vr_count : vs_count v = zlen l;
  vr_capacity : zlen l <= vs_capacity v /\ 0 < vs_capacity v
}.

(** How many values an array may have before its capacity leaves [int]. *)
Definition VALUES_MAX : Z := 2 ^ 30.

Lemma zlen_fresh_array blk n : 0 <= n -> zlen (fresh_array blk n) = n.
Proof. intros. unfold fresh_array, zlen. rewrite length_map, length_seq. lia. Qed.

Lemma zwrite_n_at {A} (l xs : list A) i :
  0 <= i -> i + zlen xs <= zlen l ->
  zwrite_n l i xs = Done (take (Z.to_nat i) l ++ xs ++ drop (Z.to_nat i + length xs) l).
Proof. intros. zlen_pos. unfold zwrite_n, in_range. by replace (_ && _) with true by lia. Qed.

Lemma slice_0 {A} n (l : list A) : slice 0 n l = take (Z.to_nat n) l.
Proof. unfold slice. change (Z.to_nat 0) with 0%nat. by rewrite drop_0. Qed.

Lemma zwrite_n_0 {A} (l xs : list A) :
  zlen xs <= zlen l -> zwrite_n l 0 xs = Done (xs ++ drop (length xs) l).
Proof. intros. by rewrite zwrite_n_at by lia. Qed.

Lemma zeros_length n : 0 <= n -> zlen (zeros n) = n.
Proof. intros. unfold zeros, zlen. rewrite length_replicate. lia. Qed.

Section facts.
Context `{Al : SqliterkAlloc} `{AL : !SqliterkAllocLaws Al} `{Af : CAtof}.

(** The allocator has refused a request. *)
Definition refused : Prop := exists k n, os_malloc k n = None.
(** One of the requests from number [k0] to before [k1]. *)
Definition refused_in (k0 k1 : nat) : Prop := exists k n, (k0 <= k < k1)%nat /\ os_malloc k n = None.

Lemma refused_once k0 k1 : refused_in k0 k1 -> refused.
Proof. intros (k & n & _ & H). by exists k, n. Qed.

(** ** Growing *)

Lemma autogrow_spec v l k :
  vals_rep v l -> zlen l < VALUES_MAX ->
  wp (sqliterkValuesAutoGrow v)
    (fun '(rc, v') k' => (k <= k')%nat /\ ((rc = SQLITERK_OK /\ vals_rep v' l /\ vs_count v' < vs_capacity v') \/
                         (rc = SQLITERK_NOMEM /\ v' = v /\ refused_in k k'))) k.
Proof.
  intros [(arr & Ha & Hl & Hh) Hc [Hcap Hpos]] Hmax. unfold VALUES_MAX in Hmax.
  unfold sqliterkValuesAutoGrow.
  destruct (vs_capacity v <=? vs_count v) eqn:E.
  2: { apply wp_ret. split; [done|]. left. split; [done|]. split; [by split; [exists arr| |]|lia]. }
  assert (Hceq : vs_capacity v = zlen l) by lia.
  assert (Hnew : exists nc, (if vs_capacity v <=? 0 then Done 4
                else if 8 * 1024 * 1024 <? vs_capacity v then chk_int (vs_capacity v + 8 * 1024 * 1024)
                else chk_int (vs_capacity v * 2)) = Done nc /\ vs_capacity v < nc < 2 ^ 31 - 1).
  { replace (vs_capacity v <=? 0) with false by lia.
    destruct (8 * 1024 * 1024 <? vs_capacity v) eqn:E2; rewrite chk_int_ok by lia; eexists; split; auto; lia. }
  destruct Hnew as (nc & Hnc & Hrange).
  eapply wp_bind_lift_res; [exact Hnc|]. cbv beta.
  eapply wp_bind_lift_res; [apply chk_int_ok; lia|]. cbv beta.
  apply wp_bind. unfold sqliterkOSMalloc, wp.
  destruct (os_malloc k (u64 (sizeof_value * (nc + 1)))) as [blk|] eqn:Em; [|split; [lia|right; split; [done|split; [done|exists k; eexists; split; [lia|exact Em]]]]].
  rewrite Ha.
  rewrite zread_n_slice by (zlen_pos; lia). cbn [res_bind]. rewrite Hceq, slice_0, to_nat_zlen.
  assert (Htl : zlen (take (length l) arr) = zlen l).
  { unfold zlen in *. rewrite length_take. lia. }
  rewrite zwrite_n_0 by (rewrite ?zlen_fresh_array; zlen_pos; lia).
  split; [lia|]. left. split; [done|].
  set (rest := drop _ _). split; [split|]; simpl.
  - eexists. split; [done|]. rewrite zlen_app, Htl. split.
    + assert (zlen rest = nc + 1 - zlen l); [|lia].
      unfold rest, zlen in *. rewrite length_drop. rewrite length_take in *.
      pose proof (zlen_fresh_array blk (nc + 1)) as Hf. unfold zlen in Hf. lia.
    + rewrite take_app_length'; [done|]. unfold zlen in *. lia.
  - done.
  - lia.
  - lia.
Qed.

Lemma push_spec v l x r :
  vals_rep v l -> vs_count v < vs_capacity v -> holds x r ->
  exists v', push v x = Done v' /\ vals_rep v' (l ++ [r]).
Proof.
  intros [(arr & Ha & Hl & Hh) Hc [Hcap Hpos]] Hlt Hx. unfold push, set_slot. rewrite Ha.
  zlen_pos. rewrite zwrite_n_at by (rewrite ?zlen_cons, ?zlen_nil; lia).
  cbn [res_bind]. eexists. split; [done|]. rewrite Hc, to_nat_zlen.
  assert (Ht : length (take (length l) arr) = length l) by (rewrite length_take; unfold zlen in *; lia).
  split; simpl; [|rewrite zlen_app, zlen_cons, zlen_nil; lia|rewrite zlen_app, zlen_cons, zlen_nil; lia].
  eexists. split; [done|]. split.
  - unfold zlen in *. rewrite length_app. simpl. rewrite Ht, length_drop. lia.
  - rewrite (length_app l [r]). simpl length. rewrite cons_middle, app_assoc.
    rewrite firstn_app. rewrite take_ge by (rewrite length_app, Ht; simpl; lia).
    rewrite length_app, Ht. simpl. rewrite Nat.sub_diag, take_0, app_nil_r.
    apply Forall2_app; auto.
Qed.

(** A slot behind the values may be written. *)
Lemma set_slot_behind v l x :
  vals_rep v l -> exists v', set_slot v (vs_count v) x = Done v' /\ vals_rep v' l.
Proof.
  intros [(arr & Ha & Hl & Hh) Hc [Hcap Hpos]]. unfold set_slot. rewrite Ha.
  zlen_pos. rewrite zwrite_n_at by (rewrite ?zlen_cons, ?zlen_nil; lia).
  cbn [res_bind]. eexists. split; [done|]. rewrite Hc, to_nat_zlen.
  assert (Ht : length (take (length l) arr) = length l) by (rewrite length_take; unfold zlen in *; lia).
  split; simpl; [|done|done]. eexists. split; [done|]. split.
  - unfold zlen in *. rewrite length_app. simpl. rewrite Ht, length_drop. lia.
  - by rewrite take_app_length'.
Qed.

(** ** Adding *)

(** The operations that add a value, and the value. *)
Inductive add_op :=
| AddInteger64 (i : Z)
| AddInteger (i : Z)
| AddNumber (bits : list Z)
| AddText (obj : list Z)
| AddNoTerminatorText (obj : list Z) (s : Z)
| AddBinary (obj : list Z) (s : Z)
| AddNull.

Definition run_add (o : add_op) (vs : option sqliterk_values) : cm nat (Z * option sqliterk_values) :=
  match o with
  | AddInteger64 i => sqliterkValuesAddInteger64 vs i
  | AddInteger i => sqliterkValuesAddInteger vs i
  | AddNumber b => sqliterkValuesAddNumber vs b
  | AddText t => sqliterkValuesAddText vs (Some t)
  | AddNoTerminatorText t s => sqliterkValuesAddNoTerminatorText vs (Some t) s
  | AddBinary b s => sqliterkValuesAddBinary vs (Some b) s
  | AddNull => sqliterkValuesAddNull vs
  end.

Definition added (o : add_op) : rkval :=
  match o with
  | AddInteger64 i | AddInteger i => RInteger i
  | AddNumber b => RNumber b
  | AddText t => RText (cstr t)
  | AddNoTerminatorText t s => RText (take (Z.to_nat s) t)
  | AddBinary b s => RBinary (take (Z.to_nat s) b)
  | AddNull => RNull
  end.

(** What the caller owes: a terminated string, or a length inside the object. *)
Definition add_ok (o : add_op) : Prop :=
  match o with
  | AddText t => existsb (Z.eqb 0) t = true /\ zlen (cstr t) < 2 ^ 31 - 1
  | AddNoTerminatorText t s => 0 <= s <= zlen t /\ s < 2 ^ 31 - 1
  | AddBinary b s => 0 <= s <= zlen b /\ s < 2 ^ 31
  | _ => True
  end.

Definition add_post (k : nat) (l : list rkval) (r : rkval) : Z * option sqliterk_values -> nat -> Prop :=
  fun '(rc, vs) k' => exists v', vs = Some v' /\
    ((rc = SQLITERK_OK /\ vals_rep v' (l ++ [r])) \/ (rc = SQLITERK_NOMEM /\ vals_rep v' l /\ refused_in k k')).

(** The common shape: grow, then write a value into the next slot. *)
Lemma add_simple_spec v l r (x : sqliterk_values -> res sqliterk_value) k :
  vals_rep v l -> zlen l < VALUES_MAX ->
  (forall v', vals_rep v' l -> exists y, x v' = Done y /\ holds y r) ->
  wp (let! (rc, v) := sqliterkValuesAutoGrow v in
      if negb (rc =? SQLITERK_OK) then ret (rc, Some v)
      else let! y := lift_res (x v) in
           let! v := lift_res (push v y) in ret (SQLITERK_OK, Some v)) (add_post k l r) k.
Proof.
  intros Hv Hmax Hx. apply wp_bind. eapply wp_mono; [by apply autogrow_spec|].
  intros [rc v'] k' [Hk [(-> & Hv' & Hlt)|(-> & -> & Hrf)]].
  - cbn [negb Z.eqb SQLITERK_OK]. destruct (Hx v' Hv') as (y & Hy & Hh).
    eapply wp_bind_lift_res; [exact Hy|]. destruct (push_spec v' l y r Hv' Hlt Hh) as (v2 & Hp & Hv2).
    eapply wp_bind_lift_res; [exact Hp|]. apply wp_ret. exists v2. auto.
  - cbn [negb Z.eqb SQLITERK_OK SQLITERK_NOMEM]. apply wp_ret. exists v. auto.
Qed.

Lemma slot_behind v l : vals_rep v l -> exists x, slot v (vs_count v) = Done x.
Proof.
  intros [(arr & Ha & Hl & Hh) Hc [Hcap Hpos]]. unfold slot, zread. rewrite Ha, Hc.
  zlen_pos. replace (0 <=? zlen l) with true by lia.
  destruct (lookup_lt_is_Some_2 arr (Z.to_nat (zlen l))) as [x Hx]; [unfold zlen in *; lia|].
  rewrite Hx. by exists x.
Qed.

Lemma block_zeros k n blk : os_malloc k (u64 n) = Some blk -> 0 <= n < 2 ^ 64 -> blk = zeros n.
Proof.
  intros Hm Hn. unfold u64 in Hm. rewrite Z.mod_small in Hm by lia.
  eapply os_malloc_zeroed; [exact Hm|lia].
Qed.

Lemma add_text_spec v l t s k :
  vals_rep v l -> zlen l < VALUES_MAX -> 0 <= s <= zlen t -> s < 2 ^ 31 - 1 ->
  wp (sqliterkValuesAddNoTerminatorText (Some v) (Some t) s) (add_post k l (RText (take (Z.to_nat s) t))) k.
Proof.
  intros Hv Hmax Hs Hs2. unfold sqliterkValuesAddNoTerminatorText.
  apply wp_bind. eapply wp_mono; [by apply autogrow_spec|].
  intros [rc v'] k' [Hk [(-> & Hv' & Hlt)|(-> & -> & Hrf)]]; cbn [negb Z.eqb SQLITERK_OK SQLITERK_NOMEM].
  2: { apply wp_ret. exists v. auto. }
  eapply wp_bind_lift_res; [apply chk_int_ok; lia|]. cbv beta.
  apply wp_bind. unfold sqliterkOSMalloc at 1, wp at 1.
  destruct (os_malloc k' (u64 (s + 1))) as [blk|] eqn:Em; cbv beta iota.
  - apply block_zeros in Em; [|lia].
    eapply wp_bind_lift_res; [apply zread_n_slice; zlen_pos; lia|]. cbv beta.
    rewrite slice_0. assert (Hsl : zlen (take (Z.to_nat s) t) = s) by (apply zlen_take_le; lia).
    assert (Hbl : zlen blk = s + 1) by (rewrite Em; apply zeros_length; lia).
    eapply wp_bind_lift_res; [apply zwrite_n_0; lia|]. cbv beta.
    set (b1 := take (Z.to_nat s) t) in *. set (d1 := drop _ _).
    assert (Hd1 : zlen d1 = 1).
    { unfold d1, zlen in *. rewrite length_drop. lia. }
    destruct d1 as [|c d2]; [done|]. rewrite zlen_cons in Hd1.
    assert (d2 = []) as -> by (apply zlen_0_inv; lia).
    eapply wp_bind_lift_res; [apply (zwrite_n_app b1 [c] [] [0]); [lia|done]|]. cbv beta.
    rewrite app_nil_r.
    destruct (push_spec v' l (Value sqliterk_value_type_text (AnyText (Some (b1 ++ [0])) s)) (RText b1) Hv' Hlt)
      as (v2 & Hp & Hv2); [simpl; by rewrite Hsl|].
    eapply wp_bind_lift_res; [exact Hp|]. apply wp_ret. exists v2. auto.
  - eapply wp_bind_lift_res; [reflexivity|]. cbv beta.
    destruct (set_slot_behind v' l (Value sqliterk_value_type_null (AnyText None s)) Hv') as (v2 & Hp & Hv2).
    eapply wp_bind_lift_res; [exact Hp|]. apply wp_ret. exists v2. split; [done|]. right. split; [done|]. split; [done|]. exists k'. eexists. split; [lia|exact Em].
Qed.

Lemma add_binary_spec v l b s k :
  vals_rep v l -> zlen l < VALUES_MAX -> 0 <= s <= zlen b -> s < 2 ^ 31 ->
  wp (sqliterkValuesAddBinary (Some v) (Some b) s) (add_post k l (RBinary (take (Z.to_nat s) b))) k.
Proof.
  intros Hv Hmax Hs Hs2. unfold sqliterkValuesAddBinary.
  apply wp_bind. eapply wp_mono; [by apply autogrow_spec|].
  intros [rc v'] k' [Hk [(-> & Hv' & Hlt)|(-> & -> & Hrf)]]; cbn [negb Z.eqb SQLITERK_OK SQLITERK_NOMEM].
  2: { apply wp_ret. exists v. auto. }
  apply wp_bind. unfold sqliterkOSMalloc at 1, wp at 1.
  destruct (os_malloc k' (u64 s)) as [blk|] eqn:Em; cbv beta iota.
  - apply block_zeros in Em; [|lia].
    eapply wp_bind_lift_res; [apply zread_n_slice; zlen_pos; lia|]. cbv beta.
    rewrite slice_0. assert (Hsl : zlen (take (Z.to_nat s) b) = s) by (apply zlen_take_le; lia).
    assert (Hbl : zlen blk = s) by (rewrite Em; apply zeros_length; lia).
    eapply wp_bind_lift_res; [apply zwrite_n_0; lia|]. cbv beta.
    rewrite drop_ge, app_nil_r by (unfold zlen in *; lia).
    destruct (push_spec v' l (Value sqliterk_value_type_binary (AnyBinary (Some (take (Z.to_nat s) b)) s))
                (RBinary (take (Z.to_nat s) b)) Hv' Hlt) as (v2 & Hp & Hv2); [simpl; by rewrite Hsl|].
    eapply wp_bind_lift_res; [exact Hp|]. apply wp_ret. exists v2. auto.
  - destruct (set_slot_behind v' l (Value sqliterk_value_type_binary (AnyBinary None s)) Hv') as (v2 & Hp & Hv2).
    eapply wp_bind_lift_res; [exact Hp|]. apply wp_ret. exists v2. split; [done|]. right. split; [done|]. split; [done|]. exists k'. eexists. split; [lia|exact Em].
Qed.

Lemma add_null_spec v l k :
  vals_rep v l -> zlen l < VALUES_MAX -> wp (sqliterkValuesAddNull (Some v)) (add_post k l RNull) k.
Proof.
  intros Hv Hmax. unfold sqliterkValuesAddNull. apply wp_bind. eapply wp_mono; [by apply autogrow_spec|].
  intros [rc v'] k' [Hk [(-> & Hv' & Hlt)|(-> & -> & Hrf)]]; cbn [negb Z.eqb SQLITERK_OK SQLITERK_NOMEM].
  2: { apply wp_ret. exists v. auto. }
  destruct (slot_behind v' l Hv') as [x Hx]. eapply wp_bind_lift_res; [exact Hx|].
  destruct (push_spec v' l (Value sqliterk_value_type_null (v_any x)) RNull Hv' Hlt) as (v2 & Hp & Hv2); [done|].
  eapply wp_bind_lift_res; [exact Hp|]. apply wp_ret. exists v2. auto.
Qed.

Lemma strlen_cstr obj :
  existsb (Z.eqb 0) obj = true ->
  strlen obj = Done (zlen (cstr obj)) /\ take (length (cstr obj)) obj = cstr obj /\ zlen (cstr obj) < zlen obj.
Proof.
  intros H. unfold strlen. rewrite H. split; [done|].
  induction obj as [|b obj IH]; [done|]. cbn [existsb] in H. cbn [cstr].
  destruct (b =? 0) eqn:E; [rewrite zlen_cons, zlen_nil; zlen_pos; split; [done|lia]|].
  rewrite Z.eqb_sym, E in H. destruct (IH H) as [Ht Hl]. simpl. rewrite Ht, !zlen_cons. split; [done|lia].
Qed.

(** ** Making and clearing *)

Lemma values_alloc_spec k :
  wp sqliterkValuesAlloc
    (fun '(rc, vs) _ => (rc = SQLITERK_OK /\ exists v, vs = Some v /\ vals_rep v []) \/
                        (rc = SQLITERK_NOMEM /\ vs = None /\ refused)) k.
Proof.
  unfold sqliterkValuesAlloc. apply wp_bind. unfold sqliterkOSMalloc at 1, wp at 1.
  destruct (os_malloc k (u64 sizeof_values)) as [blk|] eqn:Em; [|by apply wp_ret; right; unfold refused; eauto].
  apply block_zeros in Em; [|done]. subst blk. cbv beta iota.
  change (fresh_values (zeros sizeof_values)) with (Values_ 0 0 None).
  apply wp_bind. unfold sqliterkValuesAutoGrow. cbn [vs_capacity vs_count vs_values Z.leb Z.compare].
  apply wp_bind_lift_res with (a := 4); [done|]. cbv beta.
  apply wp_bind_lift_res with (a := 5); [done|]. cbv beta.
  apply wp_bind. unfold sqliterkOSMalloc, wp at 1.
  destruct (os_malloc (S k) (u64 (sizeof_value * 5))) as [blk|] eqn:Em; cbv beta iota.
  - eapply wp_bind_lift_res; [done|]. apply wp_ret. cbn [negb Z.eqb SQLITERK_OK]. apply wp_ret.
    left. split; [done|]. eexists. split; [done|]. split; simpl; [|done|].
    + exists (fresh_array blk 5). split; [done|]. split; [by apply zlen_fresh_array|]. constructor.
    + rewrite zlen_nil. lia.
  - apply wp_ret. cbn [negb Z.eqb SQLITERK_OK SQLITERK_NOMEM].
    eapply wp_bind_lift_res; [reflexivity|]. apply wp_ret. right. unfold refused; eauto.
Qed.

Lemma value_clear_holds x r :
  holds x r -> exists y, sqliterkValueClear x = Done y /\ v_type y = sqliterk_value_type_null.
Proof.
  destruct r; simpl; intros Hx; try (subst x; eexists; by split).
  destruct x as [t a]. simpl in Hx. subst t. eexists. by split.
Qed.

Lemma clear_loop_spec n v l i :
  vals_rep v l -> 0 <= i -> i + Z.of_nat n <= zlen l ->
  exists v' l', clear_loop n i v = Done v' /\ vals_rep v' l' /\ zlen l' = zlen l.
Proof.
  revert v l i. induction n as [|n IH]; intros v l i Hv Hi Hn; [by exists v, l|].
  cbn [clear_loop]. pose proof Hv as [(arr & Ha & Hl & Hh) Hc [Hcap Hpos]].
  destruct (lookup_lt_is_Some_2 l (Z.to_nat i)) as [r Hr]; [unfold zlen in *; lia|].
  destruct (Forall2_lookup_r _ _ _ _ _ Hh Hr) as (x & Hx & Hhx).
  assert (Hax : arr !! Z.to_nat i = Some x).
  { rewrite lookup_take in Hx. by case_decide. }
  assert (Hsl : slot v i = Done x).
  { unfold slot, zread. rewrite Ha. replace (0 <=? i) with true by lia. by rewrite Hax. }
  rewrite Hsl. cbn [res_bind]. destruct (value_clear_holds x r Hhx) as (y & -> & Hy). cbn [res_bind].
  assert (Hs1 : set_slot v i y =
    Done (Values_ (vs_count v) (vs_capacity v) (Some (<[Z.to_nat i := y]> arr)))).
  { unfold set_slot. rewrite Ha, zwrite_n_at by (rewrite ?zlen_cons, ?zlen_nil; lia). cbn [res_bind].
    rewrite insert_take_drop by (apply lookup_lt_Some in Hax; done). simpl. by rewrite Nat.add_1_r. }
  rewrite Hs1. cbn [res_bind].
  destruct (IH (Values_ (vs_count v) (vs_capacity v) (Some (<[Z.to_nat i := y]> arr)))
              (<[Z.to_nat i := RNull]> l) (i + 1)) as (v' & l' & Hc' & Hv' & Hl').
  - assert (Hzl : zlen (<[Z.to_nat i := RNull]> l) = zlen l) by (unfold zlen; by rewrite length_insert).
    split; simpl; rewrite ?Hzl; [|done|done].
    eexists. split; [done|]. split; [unfold zlen in *; by rewrite length_insert|].
    rewrite length_insert, take_insert_lt by (apply lookup_lt_Some in Hr; done).
    by apply Forall2_insert.
  - lia.
  - unfold zlen in *. rewrite length_insert. lia.
  - exists v', l'. split; [done|]. split; [done|]. rewrite Hl'. unfold zlen. by rewrite length_insert.
Qed.

Lemma values_clear_spec v l :
  vals_rep v l -> exists v', sqliterkValuesClear (Some v) = Done (SQLITERK_OK, Some v') /\ vals_rep v' [].
Proof.
  intros Hv. destruct (clear_loop_spec (Z.to_nat (vs_count v)) v l 0 Hv) as (v' & l' & Hc & Hv' & Hl');
    [lia|rewrite (vr_count _ _ Hv); zlen_pos; lia|].
  unfold sqliterkValuesClear. rewrite Hc. cbn [res_bind]. eexists. split; [done|].
  destruct Hv' as [(arr & Ha & Hla & _) _ [Hcap Hpos]].
  split; simpl; [|done|rewrite zlen_nil; lia]. exists arr. split; [done|]. split; [done|constructor].
Qed.

(** ** Reading *)

Definition type_of (r : rkval) : Z :=
  match r with
  | RNull => sqliterk_value_type_null
  | RInteger _ => sqliterk_value_type_integer
  | RNumber _ => sqliterk_value_type_number
  | RText _ => sqliterk_value_type_text
  | RBinary _ => sqliterk_value_type_binary
  end.

Definition int64_of (r : rkval) : res Z :=
  match r with
  | RInteger i => Done i
  | RNumber b => double_to_int64 b
  | RText b => Done (atol (cstr b))
  | _ => Done 0
  end.

Definition number_of (r : rkval) : list Z :=
  match r with
  | RInteger i => int64_to_double i
  | RNumber b => b
  | RText b => atof (cstr b)
  | _ => zeros 8
  end.

Definition text_of (r : rkval) : option (list Z) := match r with RText b => Some (b ++ [0]) | _ => None end.
Definition binary_of (r : rkval) : option (list Z) := match r with RBinary b => Some b | _ => None end.
Definition bytes_of (r : rkval) : Z := match r with RText b | RBinary b => zlen b | _ => 0 end.

(** All the readers agree on one value. *)
Definition reads (vs : option sqliterk_values) (i : Z) (r : rkval) : Prop :=
  sqliterkValuesGetType vs i = Done (type_of r) /\
  sqliterkValuesGetInteger64 vs i = int64_of r /\
  sqliterkValuesGetNumber vs i = Done (number_of r) /\
  sqliterkValuesGetText vs i = Done (text_of r) /\
  sqliterkValuesGetBinary vs i = Done (binary_of r) /\
  sqliterkValuesGetBytes vs i = Done (bytes_of r).

Lemma string_at_text b : string_at (Some (b ++ [0])) = Done (cstr b).
Proof.
  unfold string_at. assert (He : existsb (Z.eqb 0) (b ++ [0]) = true) by (rewrite existsb_app; apply orb_true_r).
  assert (Hc : cstr (b ++ [0]) = cstr b).
  { clear. induction b as [|x b IH]; [done|]. simpl. by rewrite IH. }
  destruct (strlen_cstr _ He) as (-> & Ht & _). cbn [res_bind]. by rewrite to_nat_zlen, Ht, Hc.
Qed.

Lemma values_read v l i r :
  vals_rep v l -> l !! i = Some r -> reads (Some v) (Z.of_nat i) r.
Proof.
  intros [(arr & Ha & Hl & Hh) Hc [Hcap Hpos]] Hr.
  destruct (Forall2_lookup_r _ _ _ _ _ Hh Hr) as (x & Hx & Hhx).
  assert (Hax : arr !! i = Some x).
  { rewrite lookup_take in Hx. by case_decide. }
  assert (Hs : slot v (Z.of_nat i) = Done x).
  { unfold slot, zread. rewrite Ha. rewrite (proj2 (Z.leb_le _ _)) by lia. by rewrite Nat2Z.id, Hax. }
  assert (Hlt : (Z.of_nat i <? vs_count v) = true).
  { apply lookup_lt_Some in Hr. rewrite Hc. unfold zlen. lia. }
  unfold reads, sqliterkValuesGetInteger64, sqliterkValuesGetNumber, sqliterkValuesGetType,
    sqliterkValuesGetText, sqliterkValuesGetBinary, sqliterkValuesGetBytes.
  rewrite Hlt, Hs. cbn [res_bind].
  destruct r; simpl in Hhx; try (subst x; repeat split; done).
  - rewrite Hhx. repeat split.
  - subst x. cbn [v_type v_any Z.eqb Pos.eqb sqliterk_value_type_text sqliterk_value_type_integer
      sqliterk_value_type_number sqliterk_value_type_binary]. rewrite string_at_text. repeat split.
Qed.

(** Behind the last value, and without an array, the readers give nothing. *)
Lemma values_read_outside v i : vs_count v <= i -> reads (Some v) i RNull.
Proof.
  intros Hi. assert (Hlt : (i <? vs_count v) = false) by lia.
  unfold reads, sqliterkValuesGetInteger64, sqliterkValuesGetNumber, sqliterkValuesGetType,
    sqliterkValuesGetText, sqliterkValuesGetBinary, sqliterkValuesGetBytes.
  rewrite Hlt. repeat split.
Qed.

(** ** Building an array *)

(** Adding one after the other, as long as it works. *)
Fixpoint run_adds (os : list add_op) (vs : option sqliterk_values) : cm nat (Z * option sqliterk_values) :=
  match os with
  | [] => ret (SQLITERK_OK, vs)
  | o :: os =>
    let! (rc, vs) := run_add o vs in
    if negb (rc =? SQLITERK_OK) then ret (rc, vs) else run_adds os vs
  end.

Lemma run_add_spec o v l k :
  vals_rep v l -> zlen l < VALUES_MAX -> add_ok o -> wp (run_add o (Some v)) (add_post k l (added o)) k.
Proof.
  intros Hv Hmax Ho.
  destruct o as [i|i|b|t|t s|b s|]; cbn [run_add added add_ok] in *.
  - apply (add_simple_spec v l _ (fun _ => Done _)); auto. intros. eexists. by split.
  - apply (add_simple_spec v l _ (fun _ => Done _)); auto. intros. eexists. by split.
  - apply (add_simple_spec v l _ (fun _ => Done _)); auto. intros. eexists. by split.
  - destruct Ho as [Ho Hlen]. destruct (strlen_cstr t Ho) as (Hs & Ht & Hl).
    unfold sqliterkValuesAddText. eapply wp_bind_lift_res; [exact Hs|]. cbv beta.
    assert (Hs32 : s32 (zlen (cstr t)) = zlen (cstr t)).
    { unfold s32, wrap_s. zlen_pos. rewrite Z.mod_small by lia. lia. }
    rewrite Hs32. replace (RText (cstr t)) with (RText (take (Z.to_nat (zlen (cstr t))) t))
      by (by rewrite to_nat_zlen, Ht). zlen_pos. apply add_text_spec; auto; lia.
  - apply add_text_spec; auto; lia.
  - apply add_binary_spec; auto; lia.
  - apply add_null_spec; auto.
Qed.

Lemma run_adds_spec os v l k :
  vals_rep v l -> zlen l + zlen os <= VALUES_MAX -> Forall add_ok os ->
  wp (run_adds os (Some v))
    (fun '(rc, vs) _ => rc = SQLITERK_NOMEM \/
       (rc = SQLITERK_OK /\ exists v', vs = Some v' /\ vals_rep v' (l ++ map added os))) k.
Proof.
  intros Hv Hlen Hos. revert v l k Hv Hlen. induction Hos as [|o os Ho Hos IH]; intros v l k Hv Hlen.
  - apply wp_ret. right. split; [done|]. exists v. by rewrite app_nil_r.
  - rewrite zlen_cons in Hlen. zlen_pos. cbn [run_adds]. apply wp_bind.
    eapply wp_mono; [apply run_add_spec; [done|lia|done]|].
    intros [rc vs] k' (v' & -> & [(-> & Hv')|(-> & Hv' & _)]); [|by apply wp_ret; left].
    change (negb (SQLITERK_OK =? SQLITERK_OK)) with false. cbv beta iota.
    eapply wp_mono; [apply (IH v' (l ++ [added o])); [done|rewrite zlen_app, zlen_cons, zlen_nil; lia]|].
    intros [rc vs] k'' Hfin. cbn [map]. by rewrite <- app_assoc in Hfin.
Qed.

(** C36: a value array implements a list.  Each of the seven operations that add a value, from
    an array that holds [l], either returns OK and leaves an array that holds [l] with the
    value at its end, or returns NOMEM, and then the allocator has refused a request of this very call, and leaves
    one that holds [l]; in particular the
    capacity stays above the number of values, no slot outside the array is written and the
    computation of the new capacity does not overflow below 2^30 values. *)
Theorem values_add_refines o v l k :
  vals_rep v l -> zlen l < VALUES_MAX -> add_ok o ->
  match run_add o (Some v) k with
  | Done (rc, vs, k') =>
    exists v', vs = Some v' /\
      ((rc = SQLITERK_OK /\ vals_rep v' (l ++ [added o])) \/ (rc = SQLITERK_NOMEM /\ vals_rep v' l /\ refused_in k k'))
  | Stuck _ => False
  end.
Proof.
  intros Hv Hmax Ho. pose proof (run_add_spec o v l k Hv Hmax Ho) as H.
  unfold wp in H. by destruct (run_add o (Some v) k) as [[[rc vs] k']|].
Qed.

(** Reading gives back what was added: after a new array was made and any values were added to
    it one by one, the count is their number and at each index the type, the integer, the
    number, the text, the binary and the length are those of the value added there, behind
    them there is nothing; unless a call ran out of memory and said so. *)
Theorem values_roundtrip os k :
  Forall add_ok os -> zlen os <= VALUES_MAX ->
  match (let! (rc, vs) := sqliterkValuesAlloc in
         if negb (rc =? SQLITERK_OK) then ret (rc, vs) else run_adds os vs) k with
  | Done (rc, vs, _) =>
    rc = SQLITERK_NOMEM \/
    (rc = SQLITERK_OK /\ sqliterkValuesGetCount vs = zlen os /\
     (forall i o, os !! i = Some o -> reads vs (Z.of_nat i) (added o)) /\
     (forall i, zlen os <= i -> reads vs i RNull))
  | Stuck _ => False
  end.
Proof.
  intros Hos Hlen. set (c := bind _ _).
  assert (H : wp c (fun '(rc, vs) _ => rc = SQLITERK_NOMEM \/
    (rc = SQLITERK_OK /\ exists v, vs = Some v /\ vals_rep v (map added os))) k).
  { subst c. apply wp_bind. eapply wp_mono; [apply values_alloc_spec|].
    intros [rc vs] k' [(-> & v & -> & Hv)|(-> & -> & _)]; [|by apply wp_ret; left].
    change (negb (SQLITERK_OK =? SQLITERK_OK)) with false. cbv beta iota.
    by apply (run_adds_spec os v [] k'). }
  unfold wp in H. destruct (c k) as [[[rc vs] k']|]; [|done].
  destruct H as [H|(-> & v & -> & Hv)]; [by left|right]. split; [done|].
  assert (Hc : vs_count v = zlen os) by (rewrite (vr_count _ _ Hv); unfold zlen; by rewrite length_map).
  split; [done|]. split.
  - intros i o Ho. apply (values_read v (map added os)); [done|]. by rewrite list_lookup_fmap, Ho.
  - intros i Hi. apply values_read_outside. lia.
Qed.
End facts.

(** ** A small array *)

Module SmallHeap.
(** Every block up to 4096 bytes. *)
#[export] Instance heap : SqliterkAlloc := {|
  os_malloc := fun _ n => if n <=? 4096 then Some (zeros n) else None
|}.

#[export] Instance heap_laws : SqliterkAllocLaws heap.
Proof. split. simpl. intros k n blk. case_match; [|done]. by intros [= <-]. Qed.

#[export] Instance no_atof : CAtof := {| atof := fun _ => zeros 8 |}.

Definition ops : list add_op :=
  [AddInteger 7; AddNull; AddText (str "ab" ++ [0]); AddBinary [1; 2; 3] 2; AddNumber (int64_to_double 3);
   AddInteger64 (-1)].
End SmallHeap.

#[local] Existing Instances SmallHeap.heap SmallHeap.heap_laws SmallHeap.no_atof.

(** A text is added; the array of 200 values cannot grow on this heap, and is as it was. *)
Definition full_array : sqliterk_values := Values_ 200 200 (Some (repeat (Value sqliterk_value_type_null (AnyInteger 0)) 201)).

Lemma values_add_refines_witness :
  match run_add (AddText (str "ab" ++ [0])) (Some (Values_ 0 4 (Some (fresh_array (zeros 120) 5)))) 0%nat with
  | Done (rc, Some v', _) => rc = SQLITERK_OK /\ vals_rep v' ([] ++ [RText (str "ab")])
  | _ => False
  end /\
  match run_add AddNull (Some full_array) 3%nat with
  | Done (rc, Some v', k') => rc = SQLITERK_NOMEM /\ vals_rep v' (repeat RNull 200) /\ refused_in 3 k'
  | _ => False
  end.
Proof.
  split.
  - pose proof (values_add_refines (AddText (str "ab" ++ [0])) (Values_ 0 4 (Some (fresh_array (zeros 120) 5))) [] 0%nat) as H.
    destruct (run_add _ _ _) as [[[rc vs] k']|] eqn:E; [|apply H; [|done|by split]; split; simpl; [|done|by split]; exists (fresh_array (zeros 120) 5); split; [done|]; split; [done|constructor]].
    destruct H as (v' & -> & H); [split; simpl; [|done|by split]; exists (fresh_array (zeros 120) 5); split; [done|]; split; [done|constructor]|done|by split|].
    destruct H as [H|(-> & _)]; [exact H|]. vm_compute in E. discriminate E.
  - assert (Hfull : vals_rep full_array (repeat RNull 200)).
    { split; [|done|by split]. eexists. split; [reflexivity|]. split; [done|]. apply Forall2_same_length_lookup. split; [done|]. intros i x y Hx Hy.
      assert (E1 : x = Value sqliterk_value_type_null (AnyInteger 0)) by (rewrite lookup_take_Some in Hx; destruct Hx as [Hx _]; apply list_elem_of_lookup_2, list_elem_of_In, repeat_spec in Hx; done).
      assert (E2 : y = RNull) by (apply list_elem_of_lookup_2, list_elem_of_In, repeat_spec in Hy; done). by subst. }
    pose proof (values_add_refines AddNull full_array (repeat RNull 200) 3%nat Hfull ltac:(done) ltac:(done)) as H.
    destruct (run_add AddNull (Some full_array) 3%nat) as [[[rc vs] k']|] eqn:E; [|exact H].
    destruct H as (v' & -> & [(-> & _)|H]); [vm_compute in E; discriminate E|exact H].
Defined.

Lemma values_roundtrip_witness :
  match (let! (rc, vs) := sqliterkValuesAlloc in
         if negb (rc =? SQLITERK_OK) then ret (rc, vs) else run_adds SmallHeap.ops vs) 0%nat with
  | Done (rc, vs, _) =>
    rc = SQLITERK_NOMEM \/
    (rc = SQLITERK_OK /\ sqliterkValuesGetCount vs = zlen SmallHeap.ops /\
     (forall i o, SmallHeap.ops !! i = Some o -> reads vs (Z.of_nat i) (added o)) /\
     (forall i, zlen SmallHeap.ops <= i -> reads vs i RNull))
  | Stuck _ => False
  end.
Proof.
  apply values_roundtrip; [|by vm_compute].
  repeat constructor; try (apply Z.leb_le; reflexivity); try (apply Z.ltb_lt; reflexivity).
Defined.

(** It does not run out of memory there, and it has grown once. *)
Example small_array :
  match (let! (rc, vs) := sqliterkValuesAlloc in
         if negb (rc =? SQLITERK_OK) then ret (rc, vs) else run_adds SmallHeap.ops vs) 0%nat with
  | Done (rc, Some v, _) => rc = SQLITERK_OK /\ vs_count v = 6 /\ vs_capacity v = 8
  | _ => False
  end.
Proof. vm_compute. auto. Qed.
