(* ===== verification/Pager.v ===== *)
(** * The repair kit: reading pages (sqliterk_pager.c)

    A [sqliterk_pager] knows the geometry of a database file, reads its pages and keeps a
    status for each of them.  The file, the cipher and the parsing of integers live in
    sources that are not here; they are the classes below.  The state of the functions is
    the pager and the number of memory requests made so far. *)

From S2P Require Import Prelude CLib Values.

(** ** Code used from elsewhere *)

(** The file a pager has opened, read-only: the result of opening it, of reading some bytes at
    an offset, and its size. *)
Class SqliterkFile := {
  os_open : Z;
  os_read : Z -> Z -> Z * list Z;
  os_file_size : Z * Z
}.

(** A file with contents [d] behaves. *)
Class FileLaws (F : SqliterkFile) (d : list Z) : Prop := {
  os_open_ok : os_open = SQLITERK_OK;
  os_read_ok : forall off n, 0 <= off -> 0 <= n -> off + n <= zlen d ->
    os_read off n = (SQLITERK_OK, slice off n d);
  os_read_short : forall off n, 0 <= off -> 0 <= n -> zlen d < off + n ->
    os_read off n = (SQLITERK_SHORT_READ, drop (Z.to_nat off) d);
  os_file_size_ok : os_file_size = (SQLITERK_OK, zlen d)
}.

(** Decoding an encrypted page in place. *)
Class SqliterkCodec := {
  sqliterk_codec : Type;
  sqliterkCryptoDecode : sqliterk_codec -> Z -> list Z -> Z * list Z
}.

(** Parsing at an offset of an object.  A varint comes with a result code and its length. *)
Class SqliterkUtil := {
  sqliterkParseInt : list Z -> Z -> Z -> res Z;
  sqliterkParseInt64 : list Z -> Z -> Z -> res Z;
  sqliterkParseNumber : list Z -> Z -> res (list Z);
  sqliterkParseVarint : list Z -> Z -> res (Z * Z * Z);
  sqliterkParseVarint64 : list Z -> Z -> res (Z * Z * Z);
  (** logs, and gives a result code *)
  sqliterkOSWarning : Z -> Z
}.

(** ** Data *)

Definition sqliterk_status_invalid : Z := -1.
Definition sqliterk_status_unchecked : Z := 0.
Definition sqliterk_status_checking : Z := 1.
Definition sqliterk_status_damaged : Z := 2.
Definition sqliterk_status_discarded : Z := 3.
Definition sqliterk_status_checked : Z := 4.

Definition sqliterk_page_type_interior_index : Z := 2.
Definition sqliterk_page_type_interior_table : Z := 5.
Definition sqliterk_page_type_leaf_index : Z := 10.
Definition sqliterk_page_type_leaf_table : Z := 13.
Definition sqliterk_page_type_overflow : Z := 1.
Definition sqliterk_page_type_unknown : Z := -1.

Definition SQLITERK_INTEGRITY_HEADER : Z := 1.
Definition SQLITERK_INTEGRITY_DATA : Z := 2.
Definition SQLITERK_INTEGRITY_KDF_SALT : Z := 4.
Definition SQLITRK_CONFIG_DEFAULT_PAGESIZE : Z := 4096.

Record sqliterk_cipher_conf := CipherConf {
  cc_key : option (list Z);
  cc_key_len : Z;
  cc_page_size : Z;
  cc_kdf_iter : Z;
  cc_use_hmac : Z;
  cc_kdf_salt : option (list Z)
}.

Record sqliterk_page := Page { p_pageno : Z; p_data : option (list Z); p_type : Z }.

Section data.
Context `{Co : SqliterkCodec}.

(** [file] is set in the whole life of a pager, see [sqliterkPagerOpen]. *)
Record sqliterk_pager := Pager_ {
  pagesStatus : option (list Z);
  pagesize : Z;
  freepagecount : Z;
  reservedBytes : Z;
  pagecount : Z;
  usableSize : Z;
  integrity : Z;
  checkedPageCount : Z;
  damagedPageCount : Z;
  codec : option sqliterk_codec
}.

Definition set_pagesStatus v (p : sqliterk_pager) : sqliterk_pager :=
  Pager_ v (pagesize p) (freepagecount p) (reservedBytes p) (pagecount p) (usableSize p)
    (integrity p) (checkedPageCount p) (damagedPageCount p) (codec p).
Definition set_pagesize v (p : sqliterk_pager) : sqliterk_pager :=
  Pager_ (pagesStatus p) v (freepagecount p) (reservedBytes p) (pagecount p) (usableSize p)
    (integrity p) (checkedPageCount p) (damagedPageCount p) (codec p).
Definition set_freepagecount v (p : sqliterk_pager) : sqliterk_pager :=
  Pager_ (pagesStatus p) (pagesize p) v (reservedBytes p) (pagecount p) (usableSize p)
    (integrity p) (checkedPageCount p) (damagedPageCount p) (codec p).
Definition set_reservedBytes v (p : sqliterk_pager) : sqliterk_pager :=
  Pager_ (pagesStatus p) (pagesize p) (freepagecount p) v (pagecount p) (usableSize p)
    (integrity p) (checkedPageCount p) (damagedPageCount p) (codec p).
Definition set_pagecount v (p : sqliterk_pager) : sqliterk_pager :=
  Pager_ (pagesStatus p) (pagesize p) (freepagecount p) (reservedBytes p) v (usableSize p)
    (integrity p) (checkedPageCount p) (damagedPageCount p) (codec p).
Definition set_usableSize v (p : sqliterk_pager) : sqliterk_pager :=
  Pager_ (pagesStatus p) (pagesize p) (freepagecount p) (reservedBytes p) (pagecount p) v
    (integrity p) (checkedPageCount p) (damagedPageCount p) (codec p).
Definition set_integrity v (p : sqliterk_pager) : sqliterk_pager :=
  Pager_ (pagesStatus p) (pagesize p) (freepagecount p) (reservedBytes p) (pagecount p) (usableSize p)
    v (checkedPageCount p) (damagedPageCount p) (codec p).
Definition set_checkedPageCount v (p : sqliterk_pager) : sqliterk_pager :=
  Pager_ (pagesStatus p) (pagesize p) (freepagecount p) (reservedBytes p) (pagecount p) (usableSize p)
    (integrity p) v (damagedPageCount p) (codec p).
Definition set_damagedPageCount v (p : sqliterk_pager) : sqliterk_pager :=
  Pager_ (pagesStatus p) (pagesize p) (freepagecount p) (reservedBytes p) (pagecount p) (usableSize p)
    (integrity p) (checkedPageCount p) v (codec p).

(** [integrity |= f] and [integrity &= ~f] on an [unsigned int]. *)
Definition add_integrity (f : Z) (p : sqliterk_pager) : sqliterk_pager :=
  set_integrity (Z.lor (integrity p) f) p.
Definition drop_integrity (f : Z) (p : sqliterk_pager) : sqliterk_pager :=
  set_integrity (Z.land (integrity p) (2 ^ 32 - 1 - f)) p.
Definition has_integrity (f : Z) (p : sqliterk_pager) : bool := negb (Z.land (integrity p) f =? 0).

Definition sizeof_pager : Z := 56.

(** The structure in a fresh block; the pointers in it have to be null. *)
Definition fresh_pager (blk : list Z) : res sqliterk_pager :=
  let int o := s32 (le_val (slice o 4 blk)) in
  if (le_val (slice 0 16 blk) =? 0) && (le_val (slice 48 8 blk) =? 0) then
    Done (Pager_ None (int 16) (int 20) (int 24) (int 28) (int 32) (u32 (le_val (slice 36 4 blk)))
            (int 40) (int 44) None)
  else Stuck OutOfBounds.

Record pstate := PState { pg : sqliterk_pager; mem : nat }.
End data.

(** Attaching a cipher to a pager: sets the codec and the page geometry it needs. *)
Class SqliterkCrypto `{Co : SqliterkCodec} := {
  sqliterkCryptoSetCipher : sqliterk_pager -> sqliterk_cipher_conf -> Z * sqliterk_pager
}.

Section pager.
Context `{Al : SqliterkAlloc} `{Fi : SqliterkFile} `{Cr : SqliterkCrypto} `{Ut : SqliterkUtil}.

Definition pget {A} (f : sqliterk_pager -> A) : cm pstate A := gets (fun s => f (pg s)).
Definition pupd (f : sqliterk_pager -> sqliterk_pager) : cm pstate unit :=
  modify (fun s => PState (f (pg s)) (mem s)).
Definition pmalloc (n : Z) : cm pstate (option (list Z)) :=
  zoom mem (fun k s => PState (pg s) k) (sqliterkOSMalloc n).

(** ** The header *)

Definition MAGIC : list Z := str "SQLite format 3" ++ [0].

(** The page size of the header, against the one already known or on its own. *)
Definition check_pagesize (forcePageSize pagesize_field : Z) : cm pstate unit :=
  let! p := pget (fun p => p) in
  if bool_decide (codec p <> None) || negb (forcePageSize =? 0) then
    if negb (pagesize_field =? pagesize p)
    then pupd (drop_integrity SQLITERK_INTEGRITY_HEADER) else ret tt
  else if negb (Z.land (pagesize_field - 1) pagesize_field =? 0) || (pagesize_field <? 512) then
    pupd (set_pagesize SQLITRK_CONFIG_DEFAULT_PAGESIZE) ;;;
    pupd (drop_integrity SQLITERK_INTEGRITY_HEADER)
  else pupd (set_pagesize pagesize_field).

Definition check_reserved (reserved : Z) : cm pstate unit :=
  let! p := pget (fun p => p) in
  if bool_decide (codec p <> None) then
    if negb (reserved =? reservedBytes p)
    then pupd (drop_integrity SQLITERK_INTEGRITY_HEADER) else ret tt
  else if (reserved <? 0) || (255 <? reserved) then
    pupd (set_reservedBytes 0) ;;;
    pupd (drop_integrity SQLITERK_INTEGRITY_HEADER)
  else pupd (set_reservedBytes reserved).

Definition parse_fields (forcePageSize : Z) (buffer : list Z) : cm pstate unit :=
  let! magic := lift_res (zread_n buffer 0 16) in
  if bool_decide (magic = MAGIC) then
    let! ps := lift_res (sqliterkParseInt buffer 16 2) in
    check_pagesize forcePageSize ps ;;;
    let! free := lift_res (sqliterkParseInt buffer 36 4) in
    pupd (set_freepagecount free) ;;;
    let! reserved := lift_res (sqliterkParseInt buffer 20 1) in
    check_reserved reserved
  else
    let! p := pget (fun p => p) in
    (if bool_decide (codec p = None) then
       pupd (set_pagesize SQLITRK_CONFIG_DEFAULT_PAGESIZE) ;;; pupd (set_reservedBytes 0)
     else ret tt) ;;;
    pupd (set_freepagecount 0) ;;;
    pupd (drop_integrity SQLITERK_INTEGRITY_HEADER).

(** Page count, free pages and usable size, from the size of the file. *)
Definition parse_geometry : cm pstate Z :=
  let '(rc, filesize) := os_file_size in
  if negb (rc =? SQLITERK_OK) then ret rc
  else
    let! p := pget (fun p => p) in
    let ps := u64 (pagesize p) in
    let! n := lift_res (if ps =? 0 then Stuck DivByZero
                        else Done (s32 (u64 (filesize + ps - 1) / ps))) in
    pupd (set_pagecount n) ;;;
    if n <? 1 then ret SQLITERK_DAMAGED
    else
      (if (freepagecount p <? 0) || (n <? freepagecount p) then
         pupd (set_freepagecount 0) ;;; pupd (drop_integrity SQLITERK_INTEGRITY_HEADER)
       else ret tt) ;;;
      let! u := lift_res (chk_int (pagesize p - reservedBytes p)) in
      pupd (set_usableSize u) ;;;
      ret rc.

Definition sqliterkPagerParseHeader (forcePageSize : Z) : cm pstate Z :=
  (if negb (forcePageSize =? 0) then pupd (set_pagesize forcePageSize) else ret tt) ;;;
  let! p := pget (fun p => p) in
  let size := if bool_decide (codec p <> None) then u64 (pagesize p) else 100 in
  let! blk := pmalloc size in
  match blk with
  | None => ret SQLITERK_NOMEM
  | Some blk =>
    let '(rc, got) := os_read 0 size in
    let! buffer := lift_res (zwrite_n blk 0 got) in
    if negb (rc =? SQLITERK_OK) then
      pupd (drop_integrity SQLITERK_INTEGRITY_HEADER) ;;; ret rc
    else
      pupd (add_integrity SQLITERK_INTEGRITY_HEADER) ;;;
      let! buffer :=
        match codec p with
        | None => ret buffer
        | Some c =>
          let '(rc, plain) := sqliterkCryptoDecode c 1 buffer in
          (if negb (rc =? SQLITERK_OK) then pupd (drop_integrity SQLITERK_INTEGRITY_HEADER) else ret tt) ;;;
          ret plain
        end in
      let! ok := pget (has_integrity SQLITERK_INTEGRITY_HEADER) in
      (if ok then parse_fields forcePageSize buffer else ret tt) ;;;
      parse_geometry
  end.

(** ** Opening *)

Definition fresh_ints (blk : list Z) (n : Z) : list Z :=
  map (fun i => s32 (le_val (slice (4 * Z.of_nat i) 4 blk))) (seq 0 (Z.to_nat n)).

(** With a key: first with the salt in the file, then with the one given. *)
Definition open_encrypted (c : sqliterk_cipher_conf) : cm pstate Z :=
  let set_cipher (c : sqliterk_cipher_conf) : cm pstate Z :=
    let! p := pget (fun p => p) in
    let '(rc, p) := sqliterkCryptoSetCipher p c in
    pupd (fun _ => p) ;;; ret rc in
  let! rc := set_cipher (CipherConf (cc_key c) (cc_key_len c) (cc_page_size c) (cc_kdf_iter c)
                                    (cc_use_hmac c) None) in
  if negb (rc =? SQLITERK_OK) then ret rc
  else
    let! _rc := sqliterkPagerParseHeader 0 in
    let! ok := pget (has_integrity SQLITERK_INTEGRITY_HEADER) in
    if ok then pupd (add_integrity SQLITERK_INTEGRITY_KDF_SALT) ;;; ret SQLITERK_OK
    else
      match cc_kdf_salt c with
      | None => ret SQLITERK_OK
      | Some _ =>
        let! rc := set_cipher c in
        if negb (rc =? SQLITERK_OK) then ret rc else sqliterkPagerParseHeader 0
      end.

Definition open_plain (forcePageSize : Z) : cm pstate Z :=
  let! rc := sqliterkPagerParseHeader forcePageSize in
  if negb (rc =? SQLITERK_OK) then ret rc
  else
    let! ok := pget (has_integrity SQLITERK_INTEGRITY_HEADER) in
    (if ok then pupd (add_integrity SQLITERK_INTEGRITY_KDF_SALT) else ret tt) ;;;
    ret SQLITERK_OK.

(** The part of [sqliterkPagerOpen] after the pager was allocated and the file opened. *)
Definition open_parse (cipher : option sqliterk_cipher_conf) : cm pstate Z :=
  let forcePageSize :=
    match cipher with
    | Some c => if bool_decide (cc_key c = None) then cc_page_size c else 0
    | None => 0
    end in
  let! rc :=
    match cipher with
    | Some c => if bool_decide (cc_key c = None) then open_plain forcePageSize else open_encrypted c
    | None => open_plain forcePageSize
    end in
  if negb (rc =? SQLITERK_OK) then ret rc
  else
    let! n := pget pagecount in
    let! n1 := lift_res (chk_int (n + 1)) in
    let! blk := pmalloc (4 * n1) in
    match blk with
    | None => ret SQLITERK_NOMEM
    | Some blk =>
      pupd (set_pagesStatus (Some (fresh_ints blk n1))) ;;;
      ret SQLITERK_OK
    end.

Definition sqliterkPagerOpen (cipher : option sqliterk_cipher_conf) : cm nat (Z * option sqliterk_pager) :=
  let! blk := sqliterkOSMalloc sizeof_pager in
  match blk with
  | None => ret (SQLITERK_NOMEM, None)
  | Some blk =>
    let! p := lift_res (fresh_pager blk) in
    if negb (os_open =? SQLITERK_OK) then ret (os_open, None)
    else
      fun k =>
        match open_parse cipher (PState p k) with
        | Done (rc, s) => Done (if rc =? SQLITERK_OK then (rc, Some (pg s)) else (rc, None), mem s)
        | Stuck f => Stuck f
        end
  end.

(** ** Pages *)

Definition sqliterkPagerGetPageCount (p : sqliterk_pager) : Z := pagecount p.
Definition sqliterkPagerGetSize (p : sqliterk_pager) : Z := pagesize p.
Definition sqliterkPagerGetUsableSize (p : sqliterk_pager) : Z := usableSize p.

Definition sqliterkPagerIsPagenoValid (p : sqliterk_pager) (pageno : Z) : Z :=
  if (pageno <? 1) || (pagecount p <? pageno) then SQLITERK_MISUSE else SQLITERK_OK.

Definition sqliterkPagenoHeaderOffset (pageno : Z) : Z := if pageno =? 1 then 100 else 0.
Definition sqliterkPageHeaderOffset (page : option sqliterk_page) : Z :=
  match page with None => 0 | Some pa => sqliterkPagenoHeaderOffset (p_pageno pa) end.

Definition known_type (t : Z) : Z :=
  if (t =? sqliterk_page_type_interior_index) || (t =? sqliterk_page_type_interior_table)
     || (t =? sqliterk_page_type_leaf_index) || (t =? sqliterk_page_type_leaf_table)
  then t else sqliterk_page_type_unknown.

Definition sqliterkPageAcquireType (pageno : Z) : cm pstate (Z * Z) :=
  let! p := pget (fun p => p) in
  if negb (sqliterkPagerIsPagenoValid p pageno =? SQLITERK_OK) then ret (SQLITERK_MISUSE, sqliterk_page_type_unknown)
  else
    let! off := lift_res (chk_int ((pageno - 1) * pagesize p)) in
    let! off := lift_res (chk_int (sqliterkPagenoHeaderOffset pageno + off)) in
    let '(rc, got) := os_read off 1 in
    if negb (rc =? SQLITERK_OK) then ret (rc, sqliterk_page_type_unknown)
    else
      let! t := lift_res (sqliterkParseInt got 0 1) in
      ret (SQLITERK_OK, known_type t).

Definition sqliterkPageAcquireOne (pageno type : Z) : cm pstate (Z * option sqliterk_page) :=
  let! p := pget (fun p => p) in
  if negb (sqliterkPagerIsPagenoValid p pageno =? SQLITERK_OK) then ret (SQLITERK_MISUSE, None)
  else
    let! thePage := pmalloc 24 in
    match thePage with
    | None => ret (SQLITERK_NOMEM, None)
    | Some _ =>
      let! data := pmalloc (pagesize p) in
      match data with
      | None => ret (SQLITERK_NOMEM, None)
      | Some blk =>
        let! off := lift_res (chk_int ((pageno - 1) * pagesize p)) in
        let '(rc, got) := os_read off (u64 (pagesize p)) in
        let! data := lift_res (zwrite_n blk 0 got) in
        if negb (rc =? SQLITERK_OK) then ret (rc, None)
        else
          let '(rc, data) := match codec p with
                             | None => (SQLITERK_OK, data)
                             | Some c => sqliterkCryptoDecode c pageno data
                             end in
          if negb (rc =? SQLITERK_OK) then ret (rc, None)
          else if type =? sqliterk_page_type_unknown then
            let! t := lift_res (sqliterkParseInt data (sqliterkPagenoHeaderOffset pageno) 1) in
            ret (SQLITERK_OK, Some (Page pageno (Some data) (known_type t)))
          else ret (SQLITERK_OK, Some (Page pageno (Some data) type))
      end
    end.

Definition sqliterkPageAcquire (pageno : Z) : cm pstate (Z * option sqliterk_page) :=
  sqliterkPageAcquireOne pageno sqliterk_page_type_unknown.
Definition sqliterkPageAcquireOverflow (pageno : Z) : cm pstate (Z * option sqliterk_page) :=
  sqliterkPageAcquireOne pageno sqliterk_page_type_overflow.

Definition sqliterkPageClearData (page : sqliterk_page) : sqliterk_page :=
  Page (p_pageno page) None (p_type page).

Definition sqliterkPageGetData (page : option sqliterk_page) : option (list Z) := page ≫= p_data.
Definition sqliterkPageGetPageno (page : option sqliterk_page) : Z :=
  match page with None => 0 | Some pa => p_pageno pa end.
Definition sqliterkPageGetType (page : option sqliterk_page) : Z :=
  match page with None => sqliterk_page_type_unknown | Some pa => p_type pa end.

Definition sqliterkPageGetTypeName (type : Z) : list Z :=
  if type =? sqliterk_page_type_interior_index then str "interior-index btree"
  else if type =? sqliterk_page_type_interior_table then str "interior-table btree"
  else if type =? sqliterk_page_type_leaf_index then str "leaf-index btree"
  else if type =? sqliterk_page_type_leaf_table then str "leaf-table btree"
  else str "unknown page".

(** ** The status of pages *)

Definition sqliterkPagerSetStatus (pageno status : Z) : cm pstate unit :=
  let! p := pget (fun p => p) in
  match pagesStatus p with
  | None => ret tt
  | Some st =>
    if negb (sqliterkPagerIsPagenoValid p pageno =? SQLITERK_OK) then ret tt
    else
      let! st := lift_res (zwrite_n st (pageno - 1) [status]) in
      pupd (set_pagesStatus (Some st)) ;;;
      if status =? sqliterk_status_checked then
        pupd (add_integrity SQLITERK_INTEGRITY_DATA) ;;;
        let! n := lift_res (chk_int (checkedPageCount p + 1)) in
        pupd (set_checkedPageCount n)
      else if status =? sqliterk_status_damaged then
        let! n := lift_res (chk_int (damagedPageCount p + 1)) in
        pupd (set_damagedPageCount n)
      else ret tt
  end.

Definition sqliterkPagerGetStatus (p : sqliterk_pager) (pageno : Z) : res Z :=
  match pagesStatus p with
  | None => Done sqliterk_status_invalid
  | Some st =>
    if negb (sqliterkPagerIsPagenoValid p pageno =? SQLITERK_OK) then Done sqliterk_status_invalid
    else zread st (pageno - 1)
  end.

Definition sqliterkPagerGetParsedPageCount (p : sqliterk_pager) : Z := checkedPageCount p.
Definition sqliterkPagerGetDamagedPageCount (p : sqliterk_pager) : Z := damagedPageCount p.
Definition sqliterkPagerGetValidPageCount (p : sqliterk_pager) : Z := pagecount p - freepagecount p.
Definition sqliterkPagerGetIntegrity (p : sqliterk_pager) : Z := integrity p.
End pager.
