(* ===== verification/PagerFacts.v ===== *)
(** * The pager: what the header gives, pages and their status

    The documented format of integers in a SQLite file, as laws of the parsing functions;
    opening a database that is not encrypted; reading a page; the status of pages. *)

From S2P Require Import Prelude CLib Varint Values ValuesFacts Pager.

(** ** Integers in a SQLite file *)

(** Big-endian. *)
Definition be_val (l : list Z) : Z := foldl (fun acc b => acc * 256 + b) 0 l.

(** What the parsing functions do with bytes that are there and with bytes that are not.  The
    fixed-width integers are only assumed right when their top bit is clear, since the format
    uses them as unsigned and the functions store them in an [int]. *)
Class UtilLaws (U : SqliterkUtil) : Prop := {
  parse_int_be : forall d off n, (n = 1 \/ n = 2 \/ n = 4) -> 0 <= off -> off + n <= zlen d ->
    Forall is_byte d -> be_val (slice off n d) < 2 ^ (8 * n - 1) ->
    sqliterkParseInt d off n = Done (be_val (slice off n d));
  parse_int_out : forall d off n, 0 < n -> zlen d < off + n -> sqliterkParseInt d off n = Stuck OutOfBounds;
  parse_int64_be : forall d off n, In n [1; 2; 3; 4; 6; 8] -> 0 <= off -> off + n <= zlen d ->
    Forall is_byte d -> sqliterkParseInt64 d off n = Done (wrap_s (8 * n) (be_val (slice off n d)));
  parse_number_be : forall d off, 0 <= off -> off + 8 <= zlen d ->
    sqliterkParseNumber d off = Done (rev (slice off 8 d));
  parse_varint_ok : forall pre v post, 0 <= v < 2 ^ 31 ->
    sqliterkParseVarint (pre ++ sqlite_varint v ++ post) (zlen pre)
    = Done (SQLITERK_OK, zlen (sqlite_varint v), v);
  parse_varint64_ok : forall pre v post, - 2 ^ 63 <= v < 2 ^ 63 ->
    sqliterkParseVarint64 (pre ++ sqlite_varint (u64 v) ++ post) (zlen pre)
    = Done (SQLITERK_OK, zlen (sqlite_varint (u64 v)), v);
  parse_varint_out : forall d off, zlen d <= off -> sqliterkParseVarint d off = Stuck OutOfBounds;
  warning_rc : forall rc, sqliterkOSWarning rc = rc
}.

(** ** Opening *)

(** The page sizes a header can have, as far as the field is an [int] of two bytes with the top
    bit clear. *)
Definition page_sizes : list Z := [512; 1024; 2048; 4096; 8192; 16384].

(** [ps - 1] has the top bit of [ps] unless [ps] is a power of two. *)
Lemma land_pred_pow2 ps : 0 < ps -> ps <> 2 ^ Z.log2 ps -> Z.land (ps - 1) ps <> 0.
Proof.
  intros Hps Hne H0. pose proof (Z.log2_spec ps Hps) as [Hlo Hhi]. pose proof (Z.log2_nonneg ps).
  assert (Hlog : Z.log2 (ps - 1) = Z.log2 ps) by (apply Z.log2_unique; lia).
  assert (Hbit : Z.testbit (Z.land (ps - 1) ps) (Z.log2 ps) = true).
  { rewrite Z.land_spec, Z.bit_log2 by done. rewrite <- Hlog, Z.bit_log2; [done|].
    pose proof (Z.pow_pos_nonneg 2 (Z.log2 ps)). lia. }
  rewrite H0, Z.bits_0 in Hbit. discriminate Hbit.
Qed.

Lemma page_size_test ps :
  0 <= ps < 2 ^ 15 -> negb (Z.land (ps - 1) ps =? 0) || (ps <? 512) = negb (bool_decide (ps ∈ page_sizes)).
Proof.
  intros Hps. destruct (Z.eq_dec ps 0) as [->|H0]; [done|].
  destruct (Z.eq_dec ps (2 ^ Z.log2 ps)) as [Hp|Hp].
  - assert (Hk : 0 <= Z.log2 ps < 15) by (split; [apply Z.log2_nonneg|apply Z.log2_lt_pow2; lia]).
    remember (Z.to_nat (Z.log2 ps)) as k eqn:Ek.
    assert (Z.log2 ps = Z.of_nat k) as Hz by lia. rewrite Hp, Hz. assert (k < 15)%nat by lia. clear -H.
    do 15 (destruct k as [|k]; [vm_compute; reflexivity|]). lia.
  - pose proof (land_pred_pow2 ps ltac:(lia) Hp) as Hl. rewrite (proj2 (Z.eqb_neq _ _)) by done.
    cbn [negb orb]. rewrite bool_decide_eq_false_2; [done|]. unfold page_sizes. intros Hin. apply Hp.
    repeat (apply elem_of_cons in Hin as [->|Hin]; [reflexivity|]). by apply not_elem_of_nil in Hin.
Qed.

(** What a plain file says about itself. *)
Record geometry := Geometry {
  g_pagesize : Z;
  g_reserved : Z;
  g_free : Z;
  g_count : Z;
  g_header_ok : bool
}.

Definition pages_of (size ps : Z) : Z := (size + ps - 1) / ps.

Definition header_fields (d : list Z) : Z * Z * Z * bool :=
  if bool_decide (take 16 d = MAGIC) then
    let ps := be_val (slice 16 2 d) in
    if bool_decide (ps ∈ page_sizes) then (ps, be_val (slice 20 1 d), be_val (slice 36 4 d), true)
    else (SQLITRK_CONFIG_DEFAULT_PAGESIZE, be_val (slice 20 1 d), be_val (slice 36 4 d), false)
  else (SQLITRK_CONFIG_DEFAULT_PAGESIZE, 0, 0, false).

Definition plain_geometry (d : list Z) : geometry :=
  let '(ps, reserved, free, ok) := header_fields d in
  let n := pages_of (zlen d) ps in
  if n <? free then Geometry ps reserved 0 n false else Geometry ps reserved free n ok.

(** The fields of a header whose top bits are clear. *)
Definition header_small (d : list Z) : Prop :=
  100 <= zlen d /\ Forall is_byte d /\ be_val (slice 16 2 d) < 2 ^ 15 /\
  be_val (slice 20 1 d) < 2 ^ 7 /\ be_val (slice 36 4 d) < 2 ^ 31.

(** The pager of a file that has just been opened. *)
Definition opened_as `{Co : SqliterkCodec} (g : geometry) (p : sqliterk_pager) : Prop :=
  pagesize p = g_pagesize g /\ reservedBytes p = g_reserved g /\ freepagecount p = g_free g /\
  pagecount p = g_count g /\ usableSize p = g_pagesize g - g_reserved g /\
  integrity p = (if g_header_ok g then Z.lor SQLITERK_INTEGRITY_HEADER SQLITERK_INTEGRITY_KDF_SALT else 0) /\
  checkedPageCount p = 0 /\ damagedPageCount p = 0 /\ codec p = None /\
  pagesStatus p = Some (zeros (g_count g + 1)).

Lemma be_val_nonneg l : Forall is_byte l -> 0 <= be_val l.
Proof.
  unfold be_val. assert (H : forall acc, 0 <= acc -> Forall is_byte l ->
    0 <= foldl (fun acc b => acc * 256 + b) acc l).
  { induction l as [|b l IH]; intros acc Ha Hl; [done|]. simpl. inversion Hl as [|? ? Hb Hl']; subst.
    unfold is_byte in Hb. apply IH; [lia|done]. }
  apply H. lia.
Qed.

Lemma Forall_slice {A} (P : A -> Prop) i n l : Forall P l -> Forall P (slice i n l).
Proof. intros. unfold slice. by apply Forall_take, Forall_drop. Qed.

Lemma slice_slice_0 {A} i n m (l : list A) :
  0 <= i -> 0 <= n -> i + n <= m -> slice i n (slice 0 m l) = slice i n l.
Proof.
  intros. rewrite slice_0. unfold slice. rewrite skipn_firstn_comm, take_take. f_equal. lia.
Qed.

Section opening.
Context `{Al : SqliterkAlloc} `{AL : !SqliterkAllocLaws Al} `{Fi : SqliterkFile} `{Cr : SqliterkCrypto}.
Context `{Ut : SqliterkUtil} `{UL : !UtilLaws Ut}.
Context (d : list Z) `{FL : !FileLaws Fi d} (memory : ~ refused).

Lemma malloc_zeros k n : 0 <= n < 2 ^ 64 -> os_malloc k (u64 n) = Some (zeros n).
Proof.
  intros Hn. destruct (os_malloc k (u64 n)) as [blk|] eqn:E.
  - f_equal. by eapply block_zeros.
  - destruct memory. unfold refused. eauto.
Qed.

Lemma wp_osmalloc {B} n (f : option (list Z) -> cm nat B) Q k :
  0 <= n < 2 ^ 64 -> wp (f (Some (zeros n))) Q (S k) -> wp (bind (sqliterkOSMalloc n) f) Q k.
Proof. intros Hn H. unfold wp, bind, sqliterkOSMalloc. by rewrite malloc_zeros. Qed.

Lemma wp_pmalloc {B} n (f : option (list Z) -> cm pstate B) Q s :
  0 <= n < 2 ^ 64 -> wp (f (Some (zeros n))) Q (PState (pg s) (S (mem s))) -> wp (bind (pmalloc n) f) Q s.
Proof. intros Hn H. unfold wp, bind, pmalloc, zoom, sqliterkOSMalloc. by rewrite malloc_zeros. Qed.

Lemma pages_of_pos size ps : 0 < size -> 0 < ps -> 1 <= pages_of size ps <= size.
Proof.
  intros. unfold pages_of. split; [apply Z.div_le_lower_bound; lia|].
  apply Z.div_le_upper_bound; [lia|]. nia.
Qed.

Lemma parse_geometry_spec ps reserved free i k :
  100 <= zlen d < 2 ^ 31 - 1 -> 512 <= ps < 2 ^ 16 -> 0 <= reserved < 2 ^ 7 -> 0 <= free < 2 ^ 31 ->
  let n := pages_of (zlen d) ps in
  wp parse_geometry
    (fun rc s' => rc = SQLITERK_OK /\
       pg s' = Pager_ None ps (if n <? free then 0 else free) reserved n (ps - reserved)
                 (if n <? free then Z.land i (2 ^ 32 - 1 - 1) else i) 0 0 None)
    (PState (Pager_ None ps free reserved 0 0 i 0 0 None) k).
Proof.
  intros Hd Hps Hr Hf n. pose proof (pages_of_pos (zlen d) ps ltac:(lia) ltac:(lia)) as Hn. fold n in Hn.
  unfold parse_geometry. rewrite os_file_size_ok. cbn [negb Z.eqb SQLITERK_OK].
  apply wp_bind_gets. cbn [pg pagesize freepagecount reservedBytes]. cbv zeta.
  assert (Hu : u64 ps = ps) by (unfold u64; apply Z.mod_small; lia). rewrite Hu.
  assert (Hu2 : u64 (zlen d + ps - 1) = zlen d + ps - 1) by (unfold u64; apply Z.mod_small; lia).
  rewrite Hu2. change ((zlen d + ps - 1) / ps) with n.
  assert (Hs : s32 n = n) by (unfold s32, wrap_s; rewrite Z.mod_small by lia; lia). rewrite Hs.
  replace (ps =? 0) with false by lia. apply wp_bind_lift_res with (a := n); [done|].
  apply wp_bind_modify. cbn [pg mem].
  replace (n <? 1) with false by lia. replace (free <? 0) with false by lia. cbn [orb].
  assert (Hfin : forall p k', pg (PState p k') = Pager_ None ps (if n <? free then 0 else free) reserved n 0
                   (if n <? free then Z.land i (2 ^ 32 - 1 - 1) else i) 0 0 None ->
    wp (let! u := lift_res (chk_int (ps - reserved)) in pupd (set_usableSize u) ;;; ret SQLITERK_OK)
      (fun rc s' => rc = SQLITERK_OK /\
         pg s' = Pager_ None ps (if n <? free then 0 else free) reserved n (ps - reserved)
                 (if n <? free then Z.land i (2 ^ 32 - 1 - 1) else i) 0 0 None) (PState p k')).
  { intros p k' Hp. apply wp_bind_lift_res with (a := ps - reserved); [apply chk_int_ok; lia|].
    apply wp_bind_modify, wp_ret. cbn [pg mem] in *. by rewrite Hp. }
  destruct (n <? free).
  - apply wp_bind, wp_bind_modify, wp_modify. apply Hfin. reflexivity.
  - apply wp_bind_ret. apply Hfin. reflexivity.
Qed.

(** The pager while the header is parsed. *)
Definition parsing (ps free reserved : Z) (ok : bool) : sqliterk_pager :=
  Pager_ None ps free reserved 0 0 (if ok then 1 else 0) 0 0 None.

Lemma check_pagesize_spec ps (Q : unit -> pstate -> Prop) k :
  0 <= ps < 2 ^ 15 ->
  (let ok := bool_decide (ps ∈ page_sizes) in
   Q tt (PState (parsing (if ok then ps else SQLITRK_CONFIG_DEFAULT_PAGESIZE) 0 0 ok) k)) ->
  wp (check_pagesize 0 ps) Q (PState (parsing 0 0 0 true) k).
Proof.
  intros Hps HQ. unfold check_pagesize. apply wp_bind_gets. cbn [pg codec parsing].
  rewrite bool_decide_eq_false_2 by (intros H; by apply H). cbn [orb negb Z.eqb].
  rewrite page_size_test by done. destruct (bool_decide (ps ∈ page_sizes)); cbn [negb].
  - by apply wp_modify.
  - by apply wp_bind_modify, wp_modify.
Qed.

Lemma check_reserved_spec ps free reserved ok (Q : unit -> pstate -> Prop) k :
  0 <= reserved < 2 ^ 7 -> Q tt (PState (parsing ps free reserved ok) k) ->
  wp (check_reserved reserved) Q (PState (parsing ps free 0 ok) k).
Proof.
  intros Hr HQ. unfold check_reserved. apply wp_bind_gets. cbn [pg codec parsing].
  rewrite bool_decide_eq_false_2 by (intros H; by apply H).
  replace (reserved <? 0) with false by lia. replace (255 <? reserved) with false by lia.
  by apply wp_modify.
Qed.

Lemma parse_fields_spec k :
  header_small d ->
  let '(ps, reserved, free, ok) := header_fields d in
  wp (parse_fields 0 (slice 0 100 d)) (fun _ s' => s' = PState (parsing ps free reserved ok) k)
     (PState (parsing 0 0 0 true) k).
Proof.
  intros (Hlen & Hb & Hps & Hres & Hfree).
  assert (Hl : zlen (slice 0 100 d) = 100) by (apply zlen_slice; lia).
  assert (Hbs : Forall is_byte (slice 0 100 d)) by (by apply Forall_slice).
  assert (Hint : forall off n, (n = 1 \/ n = 2 \/ n = 4) -> 0 <= off -> off + n <= 100 ->
    be_val (slice off n d) < 2 ^ (8 * n - 1) ->
    sqliterkParseInt (slice 0 100 d) off n = Done (be_val (slice off n d))).
  { intros off n Hn Ho Hon Hv. rewrite parse_int_be; rewrite ?slice_slice_0; auto; lia. }
  assert (Hnn : forall off n, 0 <= be_val (slice off n d))
    by (intros; by apply be_val_nonneg, Forall_slice).
  unfold header_fields, parse_fields.
  assert (Hmag : zread_n (slice 0 100 d) 0 16 = Done (take 16 d)).
  { rewrite zread_n_slice by lia. f_equal. rewrite slice_slice_0 by lia. apply slice_0. }
  pose proof (Hnn 16 2). pose proof (Hnn 20 1). set (ps := be_val (slice 16 2 d)) in *.
  destruct (bool_decide (take 16 d = MAGIC)) eqn:Em.
  - assert (Hmain : let ok := bool_decide (ps ∈ page_sizes) in
      wp (let! ps := lift_res (sqliterkParseInt (slice 0 100 d) 16 2) in
          check_pagesize 0 ps ;;;
          let! free := lift_res (sqliterkParseInt (slice 0 100 d) 36 4) in
          pupd (set_freepagecount free) ;;;
          let! reserved := lift_res (sqliterkParseInt (slice 0 100 d) 20 1) in check_reserved reserved)
        (fun _ s' => s' = PState (parsing (if ok then ps else SQLITRK_CONFIG_DEFAULT_PAGESIZE)
                            (be_val (slice 36 4 d)) (be_val (slice 20 1 d)) ok) k)
        (PState (parsing 0 0 0 true) k)).
    { cbv zeta. eapply wp_bind_lift_res; [apply Hint; auto; lia|]. fold ps. apply wp_bind, check_pagesize_spec; [lia|].
      cbv zeta. eapply wp_bind_lift_res; [apply Hint; auto; lia|]. apply wp_bind_modify.
      eapply wp_bind_lift_res; [apply Hint; auto; lia|]. apply check_reserved_spec; [lia|done]. }
    cbv zeta in *. destruct (bool_decide (ps ∈ page_sizes));
      (eapply wp_bind_lift_res; [exact Hmag|]; rewrite Em; exact Hmain).
  - eapply wp_bind_lift_res; [exact Hmag|]. rewrite Em. apply wp_bind_gets. cbn [pg codec parsing].
    rewrite bool_decide_eq_true_2 by done. apply wp_bind, wp_bind_modify, wp_modify.
    apply wp_bind_modify, wp_modify. reflexivity.
Qed.

Lemma header_fields_range :
  header_small d ->
  let '(ps, reserved, free, ok) := header_fields d in
  512 <= ps < 2 ^ 16 /\ 0 <= reserved < 2 ^ 7 /\ 0 <= free < 2 ^ 31.
Proof.
  intros (Hlen & Hb & Hps & Hres & Hfree). unfold header_fields, SQLITRK_CONFIG_DEFAULT_PAGESIZE.
  assert (Hnn : forall off n, 0 <= be_val (slice off n d))
    by (intros; by apply be_val_nonneg, Forall_slice).
  pose proof (Hnn 20 1). pose proof (Hnn 36 4).
  destruct (bool_decide (take 16 d = MAGIC)); [|lia].
  destruct (bool_decide (be_val (slice 16 2 d) ∈ page_sizes)) eqn:E; [|lia].
  apply bool_decide_eq_true in E. 
  assert (Hall : Forall (fun ps => 512 <= ps < 2 ^ 16) page_sizes) by (repeat constructor; lia).
  rewrite Forall_forall in Hall. apply Hall in E. lia.
Qed.

Lemma parse_header_spec k :
  header_small d -> zlen d < 2 ^ 31 - 1 ->
  let g := plain_geometry d in
  wp (sqliterkPagerParseHeader 0)
    (fun rc s' => rc = SQLITERK_OK /\
       pg s' = Pager_ None (g_pagesize g) (g_free g) (g_reserved g) (g_count g) (g_pagesize g - g_reserved g)
                 (if g_header_ok g then 1 else 0) 0 0 None)
    (PState (parsing 0 0 0 false) k).
Proof.
  intros Hh Hd. pose proof Hh as (Hlen & _). unfold sqliterkPagerParseHeader. cbv zeta.
  change (negb (0 =? 0)) with false. apply wp_bind_ret, wp_bind_gets. cbn [pg codec parsing].
  rewrite bool_decide_eq_false_2 by (intros H; by apply H).
  apply wp_pmalloc; [lia|]. cbn [pg mem].
  rewrite os_read_ok by lia. eapply wp_bind_lift_res.
  { apply zwrite_n_0. rewrite zlen_slice by lia. by rewrite zeros_length. }
  change (negb (SQLITERK_OK =? SQLITERK_OK)) with false. cbv beta iota.
  rewrite drop_ge, app_nil_r.
  2: { pose proof (zlen_slice d 0 100 ltac:(lia) ltac:(lia) ltac:(lia)) as Hs.
       unfold zlen in Hs. change (length (zeros 100)) with 100%nat. lia. }
  apply wp_bind_modify, wp_bind_ret, wp_bind_gets. cbn [pg mem].
  change (has_integrity SQLITERK_INTEGRITY_HEADER _) with true.
  change (add_integrity SQLITERK_INTEGRITY_HEADER (parsing 0 0 0 false)) with (parsing 0 0 0 true).
  cbv beta iota. apply wp_bind.
  pose proof (parse_fields_spec (S k) Hh) as Hpf. pose proof (header_fields_range Hh) as Hrg.
  unfold plain_geometry. destruct (header_fields d) as [[[ps reserved] free] ok].
  eapply wp_mono; [exact Hpf|]. intros _ s ->.
  eapply wp_mono; [apply parse_geometry_spec; lia|]. intros rc s' [-> ->]. split; [done|].
  destruct (pages_of (zlen d) ps <? free); [|done]. by destruct ok.
Qed.

Lemma fresh_ints_zeros n : 0 <= n -> fresh_ints (zeros (4 * n)) n = zeros n.
Proof.
  intros Hn. unfold fresh_ints. apply list_eq. intros i.
  rewrite list_lookup_fmap. destruct (decide (i < Z.to_nat n)%nat) as [Hi|Hi].
  - rewrite lookup_seq_lt by done. simpl.
    assert (Hz : zeros n !! i = Some 0) by (unfold zeros; apply lookup_replicate; split; [done|lia]).
    rewrite Hz. do 2 f_equal.
    assert (Hs : slice (4 * Z.of_nat i) 4 (zeros (4 * n)) = zeros 4).
    { unfold slice, zeros. rewrite drop_replicate, take_replicate. f_equal. lia. }
    unfold s32. by rewrite Hs.
  - rewrite lookup_seq_ge by lia. simpl. symmetry. unfold zeros. apply lookup_ge_None_2.
    rewrite length_replicate. lia.
Qed.

Lemma sqliterkPagerOpen_plain_lemma k :
  header_small d -> zlen d < 2 ^ 31 - 1 ->
  match sqliterkPagerOpen None k with
  | Done (rc, Some p, _) => rc = SQLITERK_OK /\ opened_as (plain_geometry d) p
  | _ => False
  end.
Proof.
  intros Hh Hd. pose proof Hh as (Hlen & _).
  assert (H : wp (sqliterkPagerOpen None) (fun '(rc, p) _ =>
    rc = SQLITERK_OK /\ exists p', p = Some p' /\ opened_as (plain_geometry d) p') k).
  2: { unfold wp in H. destruct (sqliterkPagerOpen None k) as [[[rc p] k']|]; [|done].
       by destruct H as (-> & p' & -> & H). }
  unfold sqliterkPagerOpen. apply wp_osmalloc; [done|].
  apply wp_bind_lift_res with (a := parsing 0 0 0 false); [vm_compute; reflexivity|].
  rewrite os_open_ok. change (negb (SQLITERK_OK =? SQLITERK_OK)) with false. cbv beta iota.
  assert (Ho : wp (open_parse None)
    (fun rc s' => rc = SQLITERK_OK /\ opened_as (plain_geometry d) (pg s')) (PState (parsing 0 0 0 false) (S k))).
  2: { unfold wp in *. destruct (open_parse None _) as [[rc s']|]; [|done]. destruct Ho as [-> Ho].
       split; [done|]. by exists (pg s'). }
  unfold open_parse, open_plain. apply wp_bind, wp_bind.
  eapply wp_mono; [by apply parse_header_spec|]. cbv zeta. intros rc [p k'] [-> Hp]. cbn [pg] in Hp. subst p.
  change (negb (SQLITERK_OK =? SQLITERK_OK)) with false. cbv beta iota.
  apply wp_bind_gets. cbn [pg].
  set (g := plain_geometry d). set (i := if g_header_ok g then 5 else 0).
  assert (Hcount : 1 <= g_count g < 2 ^ 31 - 1).
  { unfold g, plain_geometry. pose proof (header_fields_range Hh) as Hr.
    destruct (header_fields d) as [[[ps reserved] free] ok]. destruct Hr as (Hr & _).
    pose proof (pages_of_pos (zlen d) ps ltac:(lia) ltac:(lia)). case_match; simpl; lia. }
  assert (Hfin : forall k', wp (let! n := pget pagecount in
      let! n1 := lift_res (chk_int (n + 1)) in
      let! blk := pmalloc (4 * n1) in
      match blk with
      | None => ret SQLITERK_NOMEM
      | Some blk => pupd (set_pagesStatus (Some (fresh_ints blk n1))) ;;; ret SQLITERK_OK
      end) (fun rc s' => rc = SQLITERK_OK /\ opened_as g (pg s'))
      (PState (Pager_ None (g_pagesize g) (g_free g) (g_reserved g) (g_count g)
                 (g_pagesize g - g_reserved g) i 0 0 None) k')).
  { intros k2. apply wp_bind_gets. cbn [pg pagecount].
    apply wp_bind_lift_res with (a := g_count g + 1); [apply chk_int_ok; lia|].
    apply wp_pmalloc; [lia|]. apply wp_bind_modify, wp_ret. split; [done|].
    cbn [pg set_pagesStatus]. rewrite fresh_ints_zeros by lia. repeat split. }
  subst i. destruct (g_header_ok g).
  - change (has_integrity SQLITERK_INTEGRITY_HEADER _) with true.
    apply wp_bind_modify, wp_ret. apply Hfin.
  - change (has_integrity SQLITERK_INTEGRITY_HEADER _) with false.
    apply wp_bind_ret, wp_ret. apply Hfin.
Qed.

(** opening a database without a key: page size, reserved bytes, free pages, page count, usable
    size and integrity flags are those the header and the size of the file give, a header
    that is damaged gives the default page size of 4096 and no integrity flag, and every page
    is unchecked; opening never fails for a file of 100 bytes or more. *)
Theorem sqliterkPagerOpen_plain k :
  header_small d -> zlen d < 2 ^ 31 - 1 ->
  match sqliterkPagerOpen None k with
  | Done (rc, Some p, _) => rc = SQLITERK_OK /\ opened_as (plain_geometry d) p
  | _ => False
  end.
Proof. apply sqliterkPagerOpen_plain_lemma. Qed.

(** A database with pages of 65536 bytes, the largest size SQLite has, is not understood: its
    header holds 1 in the field of the page size, which the code takes for damage, so that
    the file is cut into pages of 4096 bytes and the header is reported as not intact. *)
Theorem page_size_65536_misread k :
  header_small d -> zlen d < 2 ^ 31 - 1 -> take 16 d = MAGIC -> slice 16 2 d = [0; 1] ->
  match sqliterkPagerOpen None k with
  | Done (rc, Some p, _) =>
    rc = SQLITERK_OK /\ sqliterkPagerGetSize p = 4096 /\
    Z.land (sqliterkPagerGetIntegrity p) SQLITERK_INTEGRITY_HEADER = 0
  | _ => False
  end.
Proof.
  intros Hh Hd Hm Hps.
  assert (Hg : plain_geometry d = Geometry 4096 (g_reserved (plain_geometry d)) (g_free (plain_geometry d))
                 (g_count (plain_geometry d)) false).
  { unfold plain_geometry, header_fields. rewrite bool_decide_eq_true_2 by done. rewrite Hps.
    change (bool_decide (be_val [0; 1] ∈ page_sizes)) with false. cbv iota. by case_match. }
  pose proof (sqliterkPagerOpen_plain_lemma k Hh Hd) as H.
  destruct (sqliterkPagerOpen None k) as [[[rc [p|]] k']|]; try done. destruct H as [-> H].
  rewrite Hg in H. destruct H as (H1 & _ & _ & _ & _ & H6 & _). split; [done|].
  unfold sqliterkPagerGetSize, sqliterkPagerGetIntegrity. by rewrite H1, H6.
Qed.
End opening.

(** ** Pages and their status *)

Section pages.
Context `{Co : SqliterkCodec}.

(** A pager in use on a file that is not encrypted. *)
Record good_pager (p : sqliterk_pager) : Prop := GoodPager {
  gp_codec : codec p = None;
  gp_size : 512 <= pagesize p < 2 ^ 16;
  gp_usable : 256 <= usableSize p <= pagesize p;
  gp_fits : 0 <= pagecount p /\ pagecount p * pagesize p < 2 ^ 31;
  gp_status : exists st, pagesStatus p = Some st /\ zlen st = pagecount p + 1
}.

Definition valid_page (p : sqliterk_pager) (pageno : Z) : Prop := 1 <= pageno <= pagecount p.

Lemma is_valid_ok p pageno : valid_page p pageno -> sqliterkPagerIsPagenoValid p pageno = SQLITERK_OK.
Proof. unfold valid_page, sqliterkPagerIsPagenoValid. intros. by replace (_ || _) with false by lia. Qed.

Lemma is_valid_no p pageno : ~ valid_page p pageno -> sqliterkPagerIsPagenoValid p pageno = SQLITERK_MISUSE.
Proof. unfold valid_page, sqliterkPagerIsPagenoValid. intros. by replace (_ || _) with true by lia. Qed.

(** The status of a page, as a total function. *)
Definition status_at (p : sqliterk_pager) (pageno : Z) : Z :=
  match pagesStatus p with
  | Some st => default sqliterk_status_invalid (st !! Z.to_nat (pageno - 1))
  | None => sqliterk_status_invalid
  end.

Lemma get_status_ok p pageno :
  good_pager p -> valid_page p pageno -> sqliterkPagerGetStatus p pageno = Done (status_at p pageno).
Proof.
  intros [_ _ _ _ (st & Hst & Hl)] Hv. unfold sqliterkPagerGetStatus, status_at.
  rewrite Hst, is_valid_ok by done. change (negb (SQLITERK_OK =? SQLITERK_OK)) with false. cbv iota.
  unfold valid_page, zread in *. rewrite (proj2 (Z.leb_le _ _)) by lia.
  destruct (lookup_lt_is_Some_2 st (Z.to_nat (pageno - 1))) as [x ->]; [unfold zlen in *; lia|done].
Qed.

(** What setting a status changes. *)
Definition with_status (pageno status : Z) (p : sqliterk_pager) : sqliterk_pager :=
  Pager_ (<[Z.to_nat (pageno - 1) := status]> <$> pagesStatus p) (pagesize p) (freepagecount p)
    (reservedBytes p) (pagecount p) (usableSize p)
    (if status =? sqliterk_status_checked then Z.lor (integrity p) SQLITERK_INTEGRITY_DATA else integrity p)
    (if status =? sqliterk_status_checked then checkedPageCount p + 1 else checkedPageCount p)
    (if (status =? sqliterk_status_damaged) then damagedPageCount p + 1 else damagedPageCount p)
    (codec p).

Lemma good_with_status pageno status p : good_pager p -> good_pager (with_status pageno status p).
Proof.
  intros [H1 H2 H3 H4 (st & Hst & Hl)]. split; simpl; auto. rewrite Hst. simpl.
  eexists. split; [done|]. unfold zlen in *. by rewrite length_insert.
Qed.

Lemma status_at_with pageno status p q :
  good_pager p -> valid_page p pageno -> valid_page p q ->
  status_at (with_status pageno status p) q = if q =? pageno then status else status_at p q.
Proof.
  intros [_ _ _ _ (st & Hst & Hl)] Hv Hq. unfold status_at, with_status, valid_page in *. simpl. rewrite Hst. simpl.
  destruct (q =? pageno) eqn:E.
  - assert (q = pageno) as -> by lia. rewrite list_lookup_insert_eq; [done|unfold zlen in *; lia].
  - rewrite list_lookup_insert_ne; [done|lia].
Qed.

(** Room in the two counters for one more page. *)
Definition counts_room (p : sqliterk_pager) (n : Z) : Prop :=
  0 <= checkedPageCount p /\ checkedPageCount p + n < 2 ^ 31 /\
  0 <= damagedPageCount p /\ damagedPageCount p + n < 2 ^ 31.

Lemma set_status_spec pageno status s (Q : unit -> pstate -> Prop) :
  good_pager (pg s) -> valid_page (pg s) pageno -> counts_room (pg s) 1 ->
  Q tt (PState (with_status pageno status (pg s)) (mem s)) ->
  wp (sqliterkPagerSetStatus pageno status) Q s.
Proof.
  intros Hg Hv (Hc1 & Hc2 & Hd1 & Hd2) HQ. pose proof Hg as [_ _ _ _ (st & Hst & Hl)].
  unfold sqliterkPagerSetStatus. apply wp_bind_gets. rewrite Hst, is_valid_ok by done.
  change (negb (SQLITERK_OK =? SQLITERK_OK)) with false. cbv iota. unfold valid_page in Hv.
  assert (Hw : zwrite_n st (pageno - 1) [status] = Done (<[Z.to_nat (pageno - 1) := status]> st)).
  { rewrite zwrite_n_at by (rewrite ?zlen_cons, ?zlen_nil; lia).
    rewrite insert_take_drop by (unfold zlen in *; lia). simpl. by rewrite Nat.add_1_r. }
  eapply wp_bind_lift_res; [exact Hw|]. apply wp_bind_modify. cbn [pg mem].
  destruct s as [p k]. cbn [pg mem] in *. destruct p. cbn in *. subst.
  unfold with_status in HQ. cbn in HQ.
  destruct (status =? sqliterk_status_checked) eqn:E1.
  - replace (status =? sqliterk_status_damaged) with false in HQ
      by (unfold sqliterk_status_checked, sqliterk_status_damaged in *; lia).
    apply wp_bind_modify. eapply wp_bind_lift_res; [apply chk_int_ok; lia|]. by apply wp_modify.
  - destruct (status =? sqliterk_status_damaged).
    + eapply wp_bind_lift_res; [apply chk_int_ok; lia|]. by apply wp_modify.
    + by apply wp_ret.
Qed.

(** Outside the file nothing is recorded. *)
Lemma set_status_outside pageno status s (Q : unit -> pstate -> Prop) :
  ~ valid_page (pg s) pageno -> Q tt s -> wp (sqliterkPagerSetStatus pageno status) Q s.
Proof.
  intros Hv HQ. unfold sqliterkPagerSetStatus. apply wp_bind_gets.
  destruct (pagesStatus (pg s)); [|by apply wp_ret]. rewrite is_valid_no by done. by apply wp_ret.
Qed.

(** the status of pages: setting it for a page of the file changes it there and nowhere else,
    counts the page when it becomes checked or damaged and sets the data flag when it
    becomes checked; for a number outside the file nothing changes. *)
Theorem set_status_correct pageno status s :
  good_pager (pg s) -> counts_room (pg s) 1 ->
  match sqliterkPagerSetStatus pageno status s with
  | Done (_, s') =>
    (forall q, valid_page (pg s) q ->
       sqliterkPagerGetStatus (pg s') q =
         if q =? pageno then Done status else sqliterkPagerGetStatus (pg s) q) /\
    sqliterkPagerGetParsedPageCount (pg s') = sqliterkPagerGetParsedPageCount (pg s) +
      (if bool_decide (valid_page (pg s) pageno /\ status = sqliterk_status_checked) then 1 else 0) /\
    sqliterkPagerGetDamagedPageCount (pg s') = sqliterkPagerGetDamagedPageCount (pg s) +
      (if bool_decide (valid_page (pg s) pageno /\ status = sqliterk_status_damaged) then 1 else 0)
  | Stuck _ => False
  end.
Proof.
  intros Hg Hc. assert (Hdec : valid_page (pg s) pageno \/ ~ valid_page (pg s) pageno)
    by (unfold valid_page; lia).
  assert (H : wp (sqliterkPagerSetStatus pageno status) (fun _ s' =>
    pg s' = (if decide (valid_page (pg s) pageno) then with_status pageno status (pg s) else pg s)) s).
  { destruct (decide (valid_page (pg s) pageno)).
    - by apply set_status_spec.
    - by apply set_status_outside. }
  unfold wp in H. destruct (sqliterkPagerSetStatus pageno status s) as [[[] s']|]; [|done].
  rewrite H. clear Hdec. destruct (decide (valid_page (pg s) pageno)) as [Hv|Hv].
  - split; [|split].
    + intros q Hq. rewrite !get_status_ok; try done; [|by apply good_with_status].
      rewrite status_at_with by done. by case_match.
    + unfold sqliterkPagerGetParsedPageCount. simpl.
      destruct (status =? sqliterk_status_checked) eqn:E;
        [rewrite bool_decide_eq_true_2 by (split; [done|lia])|rewrite bool_decide_eq_false_2 by lia]; lia.
    + unfold sqliterkPagerGetDamagedPageCount. simpl.
      destruct (status =? sqliterk_status_damaged) eqn:E;
        [rewrite bool_decide_eq_true_2 by (split; [done|lia])|rewrite bool_decide_eq_false_2 by lia]; lia.
  - split; [|split].
    + intros q Hq. replace (q =? pageno) with false; [done|]. unfold valid_page in *. lia.
    + rewrite bool_decide_eq_false_2 by tauto. lia.
    + rewrite bool_decide_eq_false_2 by tauto. lia.
Qed.
End pages.

Section acquire.
Context `{Al : SqliterkAlloc} `{AL : !SqliterkAllocLaws Al} `{Fi : SqliterkFile} `{Co : SqliterkCodec}.
Context `{Ut : SqliterkUtil} `{UL : !UtilLaws Ut}.
Context (d : list Z) `{FL : !FileLaws Fi d} (memory : ~ refused) (bytes : Forall is_byte d).

(** The bytes of a page in the file. *)
Definition page_of (p : sqliterk_pager) (pageno : Z) : list Z :=
  slice ((pageno - 1) * pagesize p) (pagesize p) d.

(** The page is in the file as a whole. *)
Definition whole_page (p : sqliterk_pager) (pageno : Z) : Prop :=
  valid_page p pageno /\ pageno * pagesize p <= zlen d.

Lemma zlen_page p pageno : good_pager p -> whole_page p pageno -> zlen (page_of p pageno) = pagesize p.
Proof.
  intros [_ Hs _ _ _] [Hv Hw]. unfold valid_page in Hv. unfold page_of. apply zlen_slice; nia.
Qed.

Lemma Forall_page p pageno : Forall is_byte (page_of p pageno).
Proof. by apply Forall_slice. Qed.

Definition page_type_byte (p : sqliterk_pager) (pageno : Z) : Z :=
  be_val (slice (sqliterkPagenoHeaderOffset pageno) 1 (page_of p pageno)).

Lemma acquire_one_spec pageno type s (Q : Z * option sqliterk_page -> pstate -> Prop) :
  good_pager (pg s) -> whole_page (pg s) pageno ->
  (type = sqliterk_page_type_unknown -> page_type_byte (pg s) pageno < 2 ^ 7) ->
  Q (SQLITERK_OK, Some (Page pageno (Some (page_of (pg s) pageno))
       (if type =? sqliterk_page_type_unknown then known_type (page_type_byte (pg s) pageno) else type)))
    (PState (pg s) (S (S (mem s)))) ->
  wp (sqliterkPageAcquireOne pageno type) Q s.
Proof.
  intros Hg Hw Ht HQ. pose proof Hg as [Hc Hs _ [Hn0 Hn] _]. pose proof Hw as [Hv Hd].
  pose proof (zlen_page _ _ Hg Hw) as Hl. unfold valid_page in Hv.
  unfold sqliterkPageAcquireOne. apply wp_bind_gets. rewrite is_valid_ok by done.
  change (negb (SQLITERK_OK =? SQLITERK_OK)) with false. cbv iota.
  apply wp_pmalloc; [done|lia|]. apply wp_pmalloc; [done|lia|]. cbn [pg mem].
  assert (Hoff : 0 <= (pageno - 1) * pagesize (pg s) /\ (pageno - 1) * pagesize (pg s) < 2 ^ 31 /\
                 (pageno - 1) * pagesize (pg s) + pagesize (pg s) <= zlen d) by nia.
  eapply wp_bind_lift_res; [apply chk_int_ok; lia|]. cbv beta.
  assert (Hu : u64 (pagesize (pg s)) = pagesize (pg s)) by (unfold u64; apply Z.mod_small; lia).
  rewrite Hu, os_read_ok by lia. fold (page_of (pg s) pageno).
  eapply wp_bind_lift_res; [apply zwrite_n_0; rewrite zeros_length; lia|]. cbv beta.
  change (negb (SQLITERK_OK =? SQLITERK_OK)) with false. cbv iota.
  rewrite drop_ge, app_nil_r.
  2: { pose proof (zeros_length (pagesize (pg s)) ltac:(lia)) as Hz. unfold zlen in *. lia. }
  rewrite Hc. cbv iota beta. change (negb (SQLITERK_OK =? SQLITERK_OK)) with false. cbv iota.
  destruct (type =? sqliterk_page_type_unknown) eqn:E; [|by apply wp_ret].
  eapply wp_bind_lift_res; [|apply wp_ret; exact HQ].
  apply parse_int_be.
  - by left.
  - unfold sqliterkPagenoHeaderOffset. case_match; lia.
  - rewrite Hl. unfold sqliterkPagenoHeaderOffset. case_match; lia.
  - apply Forall_page.
  - apply Ht. lia.
Qed.

(** Reading a page of a file that is not encrypted gives its bytes at the place the file format
    puts them, with the type its header names, and changes nothing else; a page that the
    file does not hold completely is refused as a short read. *)
Theorem sqliterkPageAcquire_correct pageno s :
  good_pager (pg s) -> valid_page (pg s) pageno -> page_type_byte (pg s) pageno < 2 ^ 7 ->
  match sqliterkPageAcquire pageno s with
  | Done (rc, page, s') =>
    pg s' = pg s /\
    if pageno * pagesize (pg s) <=? zlen d then
      rc = SQLITERK_OK /\ sqliterkPageGetPageno page = pageno /\
      sqliterkPageGetData page = Some (slice ((pageno - 1) * pagesize (pg s)) (pagesize (pg s)) d) /\
      sqliterkPageGetType page = known_type (page_type_byte (pg s) pageno)
    else rc = SQLITERK_SHORT_READ /\ page = None
  | Stuck _ => False
  end.
Proof.
  intros Hg Hv Ht. destruct (pageno * pagesize (pg s) <=? zlen d) eqn:E.
  - assert (H : wp (sqliterkPageAcquire pageno) (fun '(rc, page) s' => pg s' = pg s /\
      rc = SQLITERK_OK /\ page = Some (Page pageno (Some (page_of (pg s) pageno))
                                         (known_type (page_type_byte (pg s) pageno)))) s).
    { apply acquire_one_spec; [done|split; [done|lia]|done|done]. }
    unfold wp in H. destruct (sqliterkPageAcquire pageno s) as [[[rc page] s']|]; [|done].
    destruct H as (-> & -> & ->). done.
  - pose proof Hg as [Hc Hs _ [Hn0 Hn] _].
    assert (H : wp (sqliterkPageAcquire pageno) (fun '(rc, page) s' => pg s' = pg s /\
      rc = SQLITERK_SHORT_READ /\ page = None) s).
    2: { unfold wp in H. by destruct (sqliterkPageAcquire pageno s) as [[[rc page] s']|]. }
    unfold sqliterkPageAcquire, sqliterkPageAcquireOne. apply wp_bind_gets. rewrite is_valid_ok by done.
    change (negb (SQLITERK_OK =? SQLITERK_OK)) with false. cbv iota. unfold valid_page in Hv.
    apply wp_pmalloc; [done|lia|]. apply wp_pmalloc; [done|lia|]. cbn [pg mem].
    assert (Hoff : 0 <= (pageno - 1) * pagesize (pg s) /\ (pageno - 1) * pagesize (pg s) < 2 ^ 31 /\
                   zlen d < (pageno - 1) * pagesize (pg s) + pagesize (pg s)) by nia.
    eapply wp_bind_lift_res; [apply chk_int_ok; lia|]. cbv beta.
    assert (Hu : u64 (pagesize (pg s)) = pagesize (pg s)) by (unfold u64; apply Z.mod_small; lia).
    rewrite Hu, os_read_short by lia.
    eapply wp_bind_lift_res.
    { apply zwrite_n_0. rewrite zeros_length by lia. unfold zlen in *. rewrite length_drop. lia. }
    by apply wp_ret.
Qed.

(** A page at or beyond an offset of 2 GiB cannot be read: the offset is computed in an [int]
    and overflows, whatever the file holds there. *)
Theorem sqliterkPageAcquire_2GiB pageno s :
  0 < pagesize (pg s) < 2 ^ 16 -> valid_page (pg s) pageno ->
  2 ^ 31 <= (pageno - 1) * pagesize (pg s) ->
  sqliterkPageAcquire pageno s = Stuck IntOverflow.
Proof.
  intros Hs Hv Hbig.
  assert (H : pwp (eq IntOverflow) (sqliterkPageAcquire pageno) (fun _ _ => False) s).
  2: { unfold pwp in H. by destruct (sqliterkPageAcquire pageno s) as [[]|f]; [|rewrite <- H]. }
  unfold sqliterkPageAcquire, sqliterkPageAcquireOne. apply pwp_bind_gets. rewrite is_valid_ok by done.
  change (negb (SQLITERK_OK =? SQLITERK_OK)) with false. cbv iota.
  assert (Hm : forall n f s0, 0 <= n < 2 ^ 64 ->
    pwp (eq IntOverflow) (f (Some (zeros n))) (fun (_ : Z * option sqliterk_page) _ => False)
      (PState (pg s0) (S (mem s0))) ->
    pwp (eq IntOverflow) (bind (pmalloc n) f) (fun _ _ => False) s0).
  { intros n f s0 Hn H. unfold pwp, bind, pmalloc, zoom, sqliterkOSMalloc. by rewrite malloc_zeros. }
  apply Hm; [done|]. apply Hm; [lia|]. apply pwp_bind. unfold chk_int.
  replace (_ && _) with false by lia. done.
Qed.
End acquire.
