(* ===== verification/Btree.v ===== *)
(** * The repair kit: walking B-trees (sqliterk_btree.c, sqliterk.c)

    A tree is walked from its root page down to the leaves; each row found is handed to the
    callback of the user.  For the table of tables, page 1, a row names another tree, which
    is walked at once.  The functions call each other in a circle; the circle is closed by
    [sqliterkBtreeParsePage] with a bound on its depth.

    The state holds the pager, whether the walk follows the rows of page 1, and what the
    user was told.  The user is given by the answers to [onParseColumn], which may depend on
    everything heard so far.  The container of a row, [sqliterk_column], and a few constants
    live in sources that are not here. *)

From S2P Require Import Prelude CLib Values Pager.

(** ** Code used from elsewhere *)

(** A row: its rowid, its values and the overflow pages it was read from.  [put_values] and
    [put_overflow] are what happens to the row when the arrays it owns change. *)
Class SqliterkColumn := {
  sqliterk_column : Type;
  sqliterkColumnAlloc : cm nat (Z * option sqliterk_column);
  sqliterkColumnClear : sqliterk_column -> res sqliterk_column;
  sqliterkColumnGetValues : sqliterk_column -> option sqliterk_values;
  sqliterkColumnGetOverflowPages : sqliterk_column -> option sqliterk_values;
  sqliterkColumnGetRowId : sqliterk_column -> Z;
  sqliterkColumnSetRowId : Z -> sqliterk_column -> sqliterk_column;
  put_values : option sqliterk_values -> sqliterk_column -> sqliterk_column;
  put_overflow : option sqliterk_values -> sqliterk_column -> sqliterk_column
}.

(** The interval of the types of system tables. *)
Class SqliterkBtreeTypes := {
  sqliterk_btree_type_system_begin : Z;
  sqliterk_btree_type_system_end : Z
}.

(** The header of sqliterk_btree.c is not among the sources; the values are those of the public
    enumeration [sqliterk_type], which the interface hands out for them. *)
Definition sqliterk_btree_type_index : Z := -2.
Definition sqliterk_btree_type_table : Z := -1.
Definition sqliterk_btree_type_unknown : Z := 0.
Definition sqliterk_btree_type_sequence : Z := 1.
Definition sqliterk_btree_type_autoindex : Z := 2.
Definition sqliterk_btree_type_stat : Z := 3.
Definition sqliterk_btree_type_master : Z := 4.

(** ** Data *)

(** [b_notify]: whether the callbacks of [sqliterk.c] are installed. *)
Record sqliterk_btree := Btree_ {
  b_name : option (list Z);
  b_type : Z;
  b_rootpage : option sqliterk_page;
  b_maxLocal : Z;
  b_minLocal : Z;
  b_maxLeaf : Z;
  b_minLeaf : Z;
  b_notify : bool
}.

Definition set_b_name v (b : sqliterk_btree) : sqliterk_btree :=
  Btree_ v (b_type b) (b_rootpage b) (b_maxLocal b) (b_minLocal b) (b_maxLeaf b) (b_minLeaf b) (b_notify b).
Definition set_b_type v (b : sqliterk_btree) : sqliterk_btree :=
  Btree_ (b_name b) v (b_rootpage b) (b_maxLocal b) (b_minLocal b) (b_maxLeaf b) (b_minLeaf b) (b_notify b).
Definition set_b_rootpage v (b : sqliterk_btree) : sqliterk_btree :=
  Btree_ (b_name b) (b_type b) v (b_maxLocal b) (b_minLocal b) (b_maxLeaf b) (b_minLeaf b) (b_notify b).
Definition sqliterkBtreeSetNotify (b : sqliterk_btree) : sqliterk_btree :=
  Btree_ (b_name b) (b_type b) (b_rootpage b) (b_maxLocal b) (b_minLocal b) (b_maxLeaf b) (b_minLeaf b) true.

Definition sizeof_btree : Z := 104.

Definition fresh_btree (blk : list Z) : res sqliterk_btree :=
  let int o := s32 (le_val (slice o 4 blk)) in
  if (le_val (slice 8 8 blk) =? 0) && (le_val (slice 32 8 blk) =? 0) && (le_val (slice 56 40 blk) =? 0)
  then Done (Btree_ None (int 16) None (int 40) (int 44) (int 48) (int 52) false)
  else Stuck OutOfBounds.

(** What the user hears: the trees, the rows of each and the pages done. *)
Inductive rk_event `{Cl : SqliterkColumn} :=
| EvBeginTable (table : sqliterk_btree)
| EvColumn (table : sqliterk_btree) (column : sqliterk_column)
| EvEndTable (table : sqliterk_btree)
| EvPage (pageno : Z).

(** The callbacks the user has registered: each is given what was heard up to its call.
    [onBeginParseTable] may set the name and the type of the tree. *)
Record sqliterk_notify `{Cl : SqliterkColumn} := Notify {
  onBeginParseTable : option (list rk_event -> option (list Z * Z));
  onParseColumn : option (list rk_event -> Z);
  onEndParseTable : bool;
  didParsePage : bool
}.

Section btree.
Context `{Al : SqliterkAlloc} `{Fi : SqliterkFile} `{Co : SqliterkCodec} `{Ut : SqliterkUtil}.
Context `{Cl : SqliterkColumn} `{Bt : SqliterkBtreeTypes} `{Af : CAtof}.

Record rkstate := RkState {
  pst : pstate;
  recursive : bool;
  heard : list rk_event   (* latest first *)
}.

Definition in_pager {A} (c : cm pstate A) : cm rkstate A :=
  zoom pst (fun p s => RkState p (recursive s) (heard s)) c.
Definition rk_malloc (n : Z) : cm rkstate (option (list Z)) := in_pager (pmalloc n).
Definition rk_mem {A} (c : cm nat A) : cm rkstate A :=
  in_pager (zoom mem (fun k s => PState (pg s) k) c).
Definition the_pager : cm rkstate sqliterk_pager := gets (fun s => pg (pst s)).
Definition tell (e : rk_event) : cm rkstate unit :=
  modify (fun s => RkState (pst s) (recursive s) (e :: heard s)).

(** ** Names and types *)

Definition sqliterkBtreeGetTypeName (type : Z) : list Z :=
  if type =? sqliterk_btree_type_autoindex then str "sqlite_autoindex"
  else if type =? sqliterk_btree_type_sequence then str "sqlite_sequence"
  else if type =? sqliterk_btree_type_stat then str "sqlite_stat"
  else if type =? sqliterk_btree_type_master then str "sqlite_master"
  else if type =? sqliterk_btree_type_table then str "table"
  else if type =? sqliterk_btree_type_index then str "index"
  else str "unknown".

Definition sqliterkBtreeIsSystemType (type : Z) : bool :=
  (sqliterk_btree_type_system_begin <=? type) && (type <? sqliterk_btree_type_system_end).

(** The first system type from [i] on whose name starts the name of the tree. *)
Fixpoint system_type_of (n : nat) (i : Z) (name : list Z) : option Z :=
  match n with
  | O => None
  | S n =>
    let typename := sqliterkBtreeGetTypeName i in
    if strncmp name typename (length typename) =? 0 then Some i else system_type_of n (i + 1) name
  end.

Definition sqliterkBtreeSetMeta (bt : sqliterk_btree) (name : option (list Z)) (type : Z)
  : cm rkstate (Z * sqliterk_btree) :=
  let finish (bt : sqliterk_btree) : cm rkstate (Z * sqliterk_btree) :=
    if negb (sqliterkBtreeIsSystemType (b_type bt)) && negb (type =? sqliterk_btree_type_unknown)
    then ret (SQLITERK_OK, set_b_type type bt) else ret (SQLITERK_OK, bt) in
  match name with
  | None => finish (set_b_name None bt)
  | Some obj =>
    let! length := lift_res (strlen obj) in
    let! blk := rk_malloc (length + 1) in
    match blk with
    | None => ret (SQLITERK_NOMEM, set_b_name None bt)
    | Some blk =>
      let! copy := lift_res (zwrite_n blk 0 (cstr obj)) in
      let! seen := lift_res (string_at (Some copy)) in
      let bt := set_b_name (Some copy) bt in
      let n := Z.to_nat (sqliterk_btree_type_system_end - sqliterk_btree_type_system_begin) in
      match system_type_of n sqliterk_btree_type_system_begin seen with
      | Some i => finish (set_b_type i bt)
      | None => finish bt
      end
    end
  end.

Definition sqliterkBtreeSetType (bt : sqliterk_btree) (type : Z) : Z * sqliterk_btree :=
  if sqliterkBtreeIsSystemType (b_type bt) then (SQLITERK_MISUSE, bt) else (SQLITERK_OK, set_b_type type bt).

(** ** Opening a tree *)

(** C division rounds towards zero. *)
Definition local_limit (usable factor : Z) : res Z :=
  let? n := chk_int ((usable - 12) * factor) in Done (Z.quot n 255 - 23).

Definition sqliterkBtreeOpen (rootPageno : Z) : cm rkstate (Z * option sqliterk_btree) :=
  let! blk := rk_malloc sizeof_btree in
  match blk with
  | None => ret (SQLITERK_NOMEM, None)
  | Some blk =>
    let! bt := lift_res (fresh_btree blk) in
    let! (rc, root) := in_pager (sqliterkPageAcquire rootPageno) in
    let bt := set_b_rootpage root bt in
    if negb (rc =? SQLITERK_OK) then ret (rc, None)
    else
      let! (rc, bt) :=
        (if rootPageno =? 1 then
           sqliterkBtreeSetMeta bt (Some (str "sqlite_master" ++ [0])) sqliterk_btree_type_master
         else
           let t := sqliterkPageGetType root in
           if (t =? sqliterk_page_type_interior_index) || (t =? sqliterk_page_type_leaf_index)
           then ret (SQLITERK_OK, set_b_type sqliterk_btree_type_index bt)
           else if (t =? sqliterk_page_type_interior_table) || (t =? sqliterk_page_type_leaf_table)
           then ret (SQLITERK_OK, set_b_type sqliterk_btree_type_table bt)
           else ret (SQLITERK_DAMAGED, bt)) in
      if negb (rc =? SQLITERK_OK) then ret (rc, None)
      else
        let! p := the_pager in
        let usable := sqliterkPagerGetUsableSize p in
        let! maxLocal := lift_res (local_limit usable 64) in
        let! minLocal := lift_res (local_limit usable 32) in
        ret (SQLITERK_OK, Some (Btree_ (b_name bt) (b_type bt) (sqliterkPageClearData <$> b_rootpage bt)
                                  maxLocal minLocal (usable - 35) minLocal (b_notify bt)))
  end.

(** ** The callbacks of sqliterk.c *)

Context (notify : sqliterk_notify).

Definition sqliterkNotify_onBeginParseBtree (bt : sqliterk_btree) : cm rkstate sqliterk_btree :=
  match onBeginParseTable notify with
  | None => ret bt
  | Some begun =>
    tell (EvBeginTable bt) ;;;
    let! meta := gets (fun s => begun (heard s)) in
    match meta with
    | None => ret bt
    | Some (name, type) => let! (_rc, bt) := sqliterkBtreeSetMeta bt (Some name) type in ret bt
    end
  end.

Definition sqliterkNotify_onEndParseBtree (bt : sqliterk_btree) : cm rkstate unit :=
  if onEndParseTable notify then tell (EvEndTable bt) else ret tt.

Definition sqliterkNotify_onBeginParsePage (pageno : Z) : cm rkstate Z :=
  let! p := the_pager in
  let! st := lift_res (sqliterkPagerGetStatus p pageno) in
  if st =? sqliterk_status_checking then ret SQLITERK_MISUSE
  else in_pager (sqliterkPagerSetStatus pageno sqliterk_status_checking) ;;; ret SQLITERK_OK.

Definition sqliterkNotify_onEndParsePage (pageno result : Z) : cm rkstate unit :=
  (if result =? SQLITERK_OK then in_pager (sqliterkPagerSetStatus pageno sqliterk_status_checked)
   else if result =? SQLITERK_DAMAGED then in_pager (sqliterkPagerSetStatus pageno sqliterk_status_damaged)
   else if result =? SQLITERK_CANCELLED then ret tt
   else in_pager (sqliterkPagerSetStatus pageno sqliterk_status_invalid)) ;;;
  if didParsePage notify then tell (EvPage pageno) else ret tt.

Fixpoint discard_overflow (n : nat) (i : Z) (vs : option sqliterk_values) : cm rkstate unit :=
  match n with
  | O => ret tt
  | S n =>
    let! pageno := lift_res (sqliterkValuesGetInteger vs i) in
    in_pager (sqliterkPagerSetStatus pageno sqliterk_status_discarded) ;;;
    discard_overflow n (i + 1) vs
  end.

(** The answer of the user to a row; a row that is refused discards its pages. *)
Definition ask_user (bt : sqliterk_btree) (pageno : Z) (column : sqliterk_column) : cm rkstate Z :=
  match onParseColumn notify with
  | None => ret SQLITERK_OK
  | Some answer =>
    tell (EvColumn bt column) ;;;
    let! result := gets (fun s => answer (heard s)) in
    if result =? SQLITERK_CANCELLED then ret result
    else if negb (result =? SQLITERK_OK) then
      in_pager (sqliterkPagerSetStatus pageno sqliterk_status_discarded) ;;;
      let ov := sqliterkColumnGetOverflowPages column in
      discard_overflow (Z.to_nat (sqliterkValuesGetCount ov)) 0 ov ;;;
      ret result
    else ret result
  end.

(** [rec] parses the page of a tree: the way round the circle. *)
Section circle.
Context (rec : sqliterk_btree -> Z -> cm rkstate Z).

Definition sqliterkBtreeParse (bt : sqliterk_btree) : cm rkstate Z :=
  let! bt := (if b_notify bt then sqliterkNotify_onBeginParseBtree bt else ret bt) in
  let! rc := rec bt (sqliterkPageGetPageno (b_rootpage bt)) in
  (if b_notify bt then sqliterkNotify_onEndParseBtree bt else ret tt) ;;;
  ret rc.

Definition sqliterkParseBtree (bt : sqliterk_btree) : cm rkstate Z :=
  let pageno := sqliterkPageGetPageno (b_rootpage bt) in
  let! p := the_pager in
  if bool_decide (b_rootpage bt = None) || negb (sqliterkPagerIsPagenoValid p pageno =? SQLITERK_OK)
  then ret SQLITERK_MISUSE
  else sqliterkBtreeParse (sqliterkBtreeSetNotify bt).

(** A row of the table of tables: its tree is walked. *)
Definition parse_known_table (column : sqliterk_column) : cm rkstate unit :=
  let values := sqliterkColumnGetValues column in
  let! type := lift_res (sqliterkValuesGetText values 0) in
  let! name := lift_res (sqliterkValuesGetText values 1) in
  let! rootPageno := lift_res (sqliterkValuesGetInteger values 3) in
  match type, name with
  | Some type, Some name =>
    let! (rc, subbtree) := sqliterkBtreeOpen rootPageno in
    match subbtree with
    | Some bt =>
      let! five := lift_res (zread_n type 0 5) in
      let t := if bool_decide (five = str "table") then sqliterk_btree_type_table
               else if bool_decide (five = str "index") then sqliterk_btree_type_index
               else sqliterk_btree_type_unknown in
      let! (_rc, bt) := sqliterkBtreeSetMeta bt (Some name) t in
      let! _rc := sqliterkParseBtree bt in
      ret tt
    | None => ret tt
    end
  | _, _ => ret tt
  end.

Definition sqliterkNotify_onParseColumn (bt : sqliterk_btree) (pageno : Z) (column : sqliterk_column)
  : cm rkstate Z :=
  let! result := ask_user bt pageno column in
  if (match onParseColumn notify with None => false | Some _ => result =? SQLITERK_CANCELLED end)
  then ret result
  else
    let! r := gets recursive in
    (if (b_type bt =? sqliterk_btree_type_master) && r then parse_known_table column else ret tt) ;;;
    ret result.

(** ** The payload of a cell *)

Definition sqliterkBtreeGetLengthForSerialType (serialType : Z) : Z :=
  if serialType <? 0 then 0
  else if serialType <? 12 then default 0 ([0; 1; 2; 3; 4; 6; 8; 8; 0; 0; 0; 0] !! Z.to_nat serialType)
  else Z.quot (serialType - 12 - Z.rem serialType 2) 2.

(** How much of a payload is on the leaf itself. *)
Definition local_size (bt : sqliterk_btree) (usable payloadSize : Z) : res Z :=
  if payloadSize <=? b_maxLeaf bt then Done payloadSize
  else if usable - 4 =? 0 then Stuck DivByZero
  else
    let surplus := b_minLocal bt + Z.rem (payloadSize - b_minLocal bt) (usable - 4) in
    Done (if surplus <=? b_maxLeaf bt then surplus else b_minLocal bt).

(** The data of a page that is still in memory. *)
Definition page_bytes (page : option sqliterk_page) : res (list Z) :=
  match sqliterkPageGetData page with None => Stuck NullDeref | Some d => Done d end.

(** Following the chain of overflow pages; the payload so far, in its buffer. *)
Fixpoint overflow_loop (fuel : nat) (bt : sqliterk_btree) (overflowPageno payloadSize payloadPointer : Z)
    (payloadData : list Z) (column : sqliterk_column) : cm rkstate (list Z * sqliterk_column) :=
  match fuel with
  | O => fail OutOfFuel
  | S fuel =>
    let! p := the_pager in
    if negb (sqliterkPagerIsPagenoValid p overflowPageno =? SQLITERK_OK) then ret (payloadData, column)
    else
      let! (_rc, ov) := rk_mem (sqliterkValuesAddInteger (sqliterkColumnGetOverflowPages column) overflowPageno) in
      let column := put_overflow ov column in
      (if b_notify bt then let! _rc := sqliterkNotify_onBeginParsePage overflowPageno in ret tt else ret tt) ;;;
      let! (rc, page) := in_pager (sqliterkPageAcquireOverflow overflowPageno) in
      (if b_notify bt then sqliterkNotify_onEndParsePage overflowPageno rc else ret tt) ;;;
      if negb (rc =? SQLITERK_OK) then ret (payloadData, column)
      else
        let overflowSize := payloadSize - payloadPointer in
        if overflowSize <=? 0 then ret (payloadData, column)
        else
          let maxSize := sqliterkPagerGetUsableSize p - 4 in
          let overflowSize := if maxSize <? overflowSize then maxSize else overflowSize in
          let! pageData := lift_res (page_bytes page) in
          let! bytes := lift_res (zread_n pageData 4 overflowSize) in
          let! payloadData := lift_res (zwrite_n payloadData payloadPointer bytes) in
          let! next := lift_res (sqliterkParseInt pageData 0 4) in
          overflow_loop fuel bt next payloadSize (payloadPointer + overflowSize) payloadData column
  end.

(** One value of a record, added to the row: its result code. *)
Definition add_column_value (payloadData : list Z) (offsetValue serialType valueLength : Z)
    (column : sqliterk_column) : cm rkstate (Z * sqliterk_column) :=
  let values := sqliterkColumnGetValues column in
  let add (c : cm nat (Z * option sqliterk_values)) : cm rkstate (Z * sqliterk_column) :=
    let! (rc, vs) := rk_mem c in ret (rc, put_values vs column) in
  (** [payloadData + offsetValue] *)
  let at_value : res (list Z) :=
    if (0 <=? offsetValue) && (offsetValue <=? zlen payloadData)
    then Done (drop (Z.to_nat offsetValue) payloadData) else Stuck OutOfBounds in
  if serialType =? 0 then add (sqliterkValuesAddNull values)
  else if serialType <? 7 then
    let! v := lift_res (sqliterkParseInt64 payloadData offsetValue valueLength) in
    add (sqliterkValuesAddInteger64 values v)
  else if serialType =? 7 then
    let! v := lift_res (sqliterkParseNumber payloadData offsetValue) in
    add (sqliterkValuesAddNumber values v)
  else if serialType =? 8 then add (sqliterkValuesAddInteger values 0)
  else if serialType =? 9 then add (sqliterkValuesAddInteger values 1)
  else if 12 <=? serialType then
    let! obj := lift_res at_value in
    if Z.rem serialType 2 =? 0 then add (sqliterkValuesAddBinary values (Some obj) valueLength)
    else add (sqliterkValuesAddNoTerminatorText values (Some obj) valueLength)
  else ret (SQLITERK_DAMAGED, column).

(** The values of a record, from the two offsets on. *)
Fixpoint values_loop (fuel : nat) (payloadData : list Z) (offsetSerialType endSerialType offsetValue endValue : Z)
    (column : sqliterk_column) : cm rkstate (Z * sqliterk_column) :=
  match fuel with
  | O => fail OutOfFuel
  | S fuel =>
    if (offsetValue <? endValue) || (offsetSerialType <? endSerialType) then
      let! (rc, serialTypeLength, serialType) := lift_res (sqliterkParseVarint payloadData offsetSerialType) in
      if negb (rc =? SQLITERK_OK) then ret (rc, column)
      else
        let valueLength := sqliterkBtreeGetLengthForSerialType serialType in
        let! (rc, column) := add_column_value payloadData offsetValue serialType valueLength column in
        if negb (rc =? SQLITERK_OK) then ret (rc, column)
        else
          let! ov := lift_res (chk_int (offsetValue + valueLength)) in
          values_loop fuel payloadData (offsetSerialType + serialTypeLength) endSerialType ov endValue column
    else if negb (offsetSerialType =? endSerialType) || negb (offsetValue =? endValue)
    then ret (SQLITERK_DAMAGED, column)
    else ret (SQLITERK_OK, column)
  end.

(** A record, once its bytes are together. *)
Definition parse_record (payloadData : list Z) (payloadSize : Z) (column : sqliterk_column)
  : cm rkstate (Z * sqliterk_column) :=
  let! (rc, len, start) := lift_res (sqliterkParseVarint payloadData 0) in
  if negb (rc =? SQLITERK_OK) then ret (rc, column)
  else values_loop (Z.to_nat payloadSize + 2) payloadData len start start payloadSize column.

(** The bytes of a payload: [inl] is a result code that ends the function. *)
Definition gather_payload (bt : sqliterk_btree) (page : option sqliterk_page) (offset payloadSize : Z)
    (column : sqliterk_column) : cm rkstate (Z + list Z * sqliterk_column) :=
  let! blk := rk_malloc payloadSize in
  match blk with
  | None => ret (inl SQLITERK_NOMEM)
  | Some payloadData =>
    let! p := the_pager in
    let! local := lift_res (local_size bt (sqliterkPagerGetUsableSize p) payloadSize) in
    let! fin := lift_res (chk_int (offset + local)) in
    if sqliterkPagerGetSize p <? fin then ret (inl SQLITERK_DAMAGED)
    else
      let! pagedata := lift_res (page_bytes page) in
      let! bytes := lift_res (zread_n pagedata offset local) in
      let! payloadData := lift_res (zwrite_n payloadData 0 bytes) in
      if local <? payloadSize then
        let! first := lift_res (sqliterkParseInt pagedata fin 4) in
        let! r := overflow_loop (Z.to_nat payloadSize + 1) bt first payloadSize local payloadData column in
        ret (inr r)
      else ret (inr (payloadData, column))
  end.

Definition sqliterkBtreeParsePayload (bt : sqliterk_btree) (page : option sqliterk_page)
    (offset payloadSize : Z) (column : sqliterk_column) : cm rkstate (Z * sqliterk_column) :=
  if payloadSize <=? 0 then ret (SQLITERK_MISUSE, column)
  else
    let! g := gather_payload bt page offset payloadSize column in
    match g with
    | inl rc => ret (rc, column)
    | inr (payloadData, column) =>
      let! (rc, column) := parse_record payloadData payloadSize column in
      if (rc =? SQLITERK_OK) && b_notify bt then
        let! rc := sqliterkNotify_onParseColumn bt (sqliterkPageGetPageno page) column in
        ret (rc, column)
      else ret (rc, column)
    end.

(** ** Cells and pages *)

Definition MAX_PAYLOAD : Z := 64 * 1024 * 1024.

Fixpoint cells_loop (cells : list Z) (bt : sqliterk_btree) (page : option sqliterk_page)
    (column : sqliterk_column) : cm rkstate Z :=
  match cells with
  | [] => ret SQLITERK_OK
  | offset :: cells =>
    let! column := lift_res (sqliterkColumnClear column) in
    let! pagedata := lift_res (page_bytes page) in
    let! (rc, len, payloadSize) := lift_res (sqliterkParseVarint64 pagedata offset) in
    if negb (rc =? SQLITERK_OK) then ret rc
    else if MAX_PAYLOAD <? payloadSize then ret SQLITERK_DAMAGED
    else
      let offset := offset + len in
      let! (rc, len, rowid) := lift_res (sqliterkParseVarint64 pagedata offset) in
      if negb (rc =? SQLITERK_OK) then ret rc
      else
        let offset := offset + len in
        let column := sqliterkColumnSetRowId rowid column in
        let! (rc, column) := sqliterkBtreeParsePayload bt page offset (s32 payloadSize) column in
        if negb (rc =? SQLITERK_OK) then ret rc else cells_loop cells bt page column
  end.

Definition sqliterkBtreeParseCell (bt : sqliterk_btree) (page : option sqliterk_page) (cells : list Z)
  : cm rkstate Z :=
  let! (rc, column) := rk_mem sqliterkColumnAlloc in
  match column with
  | Some column => if negb (rc =? SQLITERK_OK) then ret rc else cells_loop cells bt page column
  | None => ret rc
  end.

(** [n] numbers of [width] bytes from [offset] on. *)
Fixpoint read_ints (n : nat) (data : list Z) (offset width : Z) : res (list Z) :=
  match n with
  | O => Done []
  | S n =>
    let? v := sqliterkParseInt data offset width in
    let? vs := read_ints n data (offset + width) width in
    Done (v :: vs)
  end.

Fixpoint children_of (cells : list Z) (data : list Z) : res (list Z) :=
  match cells with
  | [] => Done []
  | c :: cells =>
    let? v := sqliterkParseInt data c 4 in
    let? vs := children_of cells data in
    Done (v :: vs)
  end.

Fixpoint parse_children (pagenos : list Z) (bt : sqliterk_btree) : cm rkstate unit :=
  match pagenos with
  | [] => ret tt
  | p :: pagenos =>
    let! rc := rec bt p in
    if rc =? SQLITERK_CANCELLED then ret tt else parse_children pagenos bt
  end.

(** The work on a page between the two callbacks: the result code. *)
Definition parse_page_content (bt : sqliterk_btree) (pageno : Z) : cm rkstate Z :=
  let! (rc, page) := in_pager (sqliterkPageAcquire pageno) in
  if negb (rc =? SQLITERK_OK) then ret rc
  else
    let type := sqliterkPageGetType page in
    if negb (type =? sqliterk_page_type_interior_index) && negb (type =? sqliterk_page_type_interior_table) &&
       negb (type =? sqliterk_page_type_leaf_index) && negb (type =? sqliterk_page_type_leaf_table)
    then ret (sqliterkOSWarning SQLITERK_DAMAGED)
    else
      let! pagedata := lift_res (page_bytes page) in
      let offsetCellPointerArray := if type =? sqliterk_page_type_interior_table then 12 else 8 in
      let! cellsCount := lift_res (sqliterkParseInt pagedata (3 + sqliterkPageHeaderOffset page) 2) in
      let! p := the_pager in
      if (cellsCount <? 0) || (sqliterkPagerGetSize p <? cellsCount * 2 + offsetCellPointerArray)
      then ret SQLITERK_DAMAGED
      else
        let! blk := rk_malloc (4 * (cellsCount + 1)) in
        match blk with
        | None => ret SQLITERK_NOMEM
        | Some _ =>
          let! cells := lift_res (read_ints (Z.to_nat cellsCount) pagedata
                                    (sqliterkPageHeaderOffset page + offsetCellPointerArray) 2) in
          if (type =? sqliterk_page_type_interior_table) || (type =? sqliterk_page_type_interior_index) then
            let hasRightMost := type =? sqliterk_page_type_interior_table in
            let! blk := rk_malloc (4 * (cellsCount + (if hasRightMost then 1 else 0) + 1)) in
            match blk with
            | None => ret SQLITERK_NOMEM
            | Some _ =>
              let! pagenos := lift_res (children_of cells pagedata) in
              let! rightmost := lift_res (if hasRightMost then let? v := sqliterkParseInt pagedata 8 4 in Done [v]
                                      else Done []) in
              parse_children (pagenos ++ rightmost) bt ;;;
              ret SQLITERK_OK
            end
          else if type =? sqliterk_page_type_leaf_table then
            if sqliterkBtreeIsSystemType (b_type bt) && negb (b_type bt =? sqliterk_btree_type_master)
            then ret SQLITERK_OK
            else sqliterkBtreeParseCell bt page cells
          else ret SQLITERK_OK
        end.

Definition parse_page (bt : sqliterk_btree) (pageno : Z) : cm rkstate Z :=
  let! p := the_pager in
  if sqliterkPagerGetPageCount p <? pageno then ret SQLITERK_MISUSE
  else
    let! rc := (if b_notify bt then sqliterkNotify_onBeginParsePage pageno else ret SQLITERK_OK) in
    if negb (rc =? SQLITERK_OK) then ret rc
    else
      let! rc := parse_page_content bt pageno in
      (if b_notify bt then sqliterkNotify_onEndParsePage pageno rc else ret tt) ;;;
      ret rc.
End circle.

(** [depth] bounds the pages that are open at the same time. *)
Fixpoint sqliterkBtreeParsePage (depth : nat) (bt : sqliterk_btree) (pageno : Z) : cm rkstate Z :=
  match depth with
  | O => fail OutOfFuel
  | S depth => parse_page (sqliterkBtreeParsePage depth) bt pageno
  end.

(** ** The driver *)

Definition sqliterkParsePage (depth : nat) (pageno : Z) : cm rkstate Z :=
  let! p := the_pager in
  let! st := lift_res (sqliterkPagerGetStatus p pageno) in
  if negb (st =? sqliterk_status_unchecked) then ret SQLITERK_OK
  else
    let! (rc, bt) := sqliterkBtreeOpen pageno in
    match bt with
    | None => ret rc
    | Some bt => if negb (rc =? SQLITERK_OK) then ret rc
                 else sqliterkParseBtree (sqliterkBtreeParsePage depth) bt
    end.

(** The bound of the loop is read again each turn, but the walk does not change it. *)
Fixpoint parse_loop (n : nat) (depth : nat) (i : Z) : cm rkstate unit :=
  match n with
  | O => ret tt
  | S n =>
    let! p := the_pager in
    if i <? sqliterkPagerGetPageCount p then
      let! _rc := sqliterkParsePage depth (i + 1) in
      parse_loop n depth (i + 1)
    else ret tt
  end.

Definition sqliterkParse (depth : nat) : cm rkstate Z :=
  let! p := the_pager in
  parse_loop (Z.to_nat (sqliterkPagerGetPageCount p)) depth 0 ;;; ret SQLITERK_OK.

Definition sqliterkParseMaster (depth : nat) : cm rkstate Z := sqliterkParsePage depth 1.

Definition sqliterk_set_recursive (r : Z) : cm rkstate unit :=
  modify (fun s => RkState (pst s) (negb (wrap_s 8 r =? 0)) (heard s)).
End btree.

(** Opening the kit: the pager, and the walk follows the rows of page 1. *)
Definition sqliterkOpen `{Al : SqliterkAlloc} `{Fi : SqliterkFile} `{Cr : SqliterkCrypto} `{Ut : SqliterkUtil}
    `{Cl : SqliterkColumn} (cipher : option sqliterk_cipher_conf) : cm nat (Z * option rkstate) :=
  let! blk := sqliterkOSMalloc 96 in
  match blk with
  | None => ret (SQLITERK_NOMEM, None)
  | Some _ =>
    let! (rc, p) := sqliterkPagerOpen cipher in
    match p with
    | None => ret (rc, None)
    | Some p => fun k => Done (rc, Some (RkState (PState p k) true []), k)
    end
  end.
