(* ===== verification/BtreeFacts.v ===== *)
(** * Walking B-trees: records, cells, pages

    The record format as functions on fields, and the proofs that the parsing of payloads,
    cells and pages gives back what is stored. *)

From stdpp Require Import sets.
From S2P Require Import Prelude CLib Varint Values ValuesFacts Pager PagerFacts Btree.

(** ** The container of a row *)

Section column.
Context `{Al : SqliterkAlloc}.

(** The parts of a row do not disturb each other; a new or cleared row has no values. *)
Class ColumnLaws (C : SqliterkColumn) : Prop := {
  get_put_values : forall v c, sqliterkColumnGetValues (put_values v c) = v;
  get_put_overflow : forall v c, sqliterkColumnGetOverflowPages (put_overflow v c) = v;
  values_put_overflow : forall v c, sqliterkColumnGetValues (put_overflow v c) = sqliterkColumnGetValues c;
  overflow_put_values : forall v c,
    sqliterkColumnGetOverflowPages (put_values v c) = sqliterkColumnGetOverflowPages c;
  rowid_put_values : forall v c, sqliterkColumnGetRowId (put_values v c) = sqliterkColumnGetRowId c;
  rowid_put_overflow : forall v c, sqliterkColumnGetRowId (put_overflow v c) = sqliterkColumnGetRowId c;
  get_set_rowid : forall r c, sqliterkColumnGetRowId (sqliterkColumnSetRowId r c) = r;
  values_set_rowid : forall r c, sqliterkColumnGetValues (sqliterkColumnSetRowId r c) = sqliterkColumnGetValues c;
  overflow_set_rowid : forall r c,
    sqliterkColumnGetOverflowPages (sqliterkColumnSetRowId r c) = sqliterkColumnGetOverflowPages c;
  column_alloc : forall k, ~ refused ->
    wp sqliterkColumnAlloc (fun '(rc, c) _ => rc = SQLITERK_OK /\ exists c' v o, c = Some c' /\
      sqliterkColumnGetValues c' = Some v /\ vals_rep v [] /\
      sqliterkColumnGetOverflowPages c' = Some o /\ vals_rep o []) k;
  column_clear : forall c v o l lo,
    sqliterkColumnGetValues c = Some v -> vals_rep v l ->
    sqliterkColumnGetOverflowPages c = Some o -> vals_rep o lo ->
    exists c' v' o', sqliterkColumnClear c = Done c' /\
      sqliterkColumnGetValues c' = Some v' /\ vals_rep v' [] /\
      sqliterkColumnGetOverflowPages c' = Some o' /\ vals_rep o' []
}.
End column.

(** ** The record format *)

(** The bytes of a value of each serial type. *)
Definition serial_width (s : Z) : Z :=
  if s =? 5 then 6 else if (s =? 6) || (s =? 7) then 8 else if s <=? 4 then s
  else if s <? 12 then 0 else if Z.even s then (s - 12) / 2 else (s - 13) / 2.

Definition serial_ok (s : Z) : Prop := (0 <= s <= 9 \/ 12 <= s) /\ s < 2 ^ 31.

(** A field of a record: its serial type and its bytes. *)
Definition field : Type := Z * list Z.

Definition field_ok (f : field) : Prop :=
  serial_ok f.1 /\ zlen f.2 = serial_width f.1 /\ Forall is_byte f.2.

Definition field_value (f : field) : rkval :=
  let '(s, b) := f in
  if s =? 0 then RNull
  else if s <=? 6 then RInteger (wrap_s (8 * serial_width s) (be_val b))
  else if s =? 7 then RNumber (rev b)
  else if s =? 8 then RInteger 0
  else if s =? 9 then RInteger 1
  else if Z.even s then RBinary b else RText b.

Definition serials (r : list field) : list Z := r ≫= (fun f => sqlite_varint f.1).
Definition bodies (r : list field) : list Z := r ≫= (fun f => f.2).

(** A record: the length of its header, its serial types, its values. *)
Definition record_bytes (h : Z) (r : list field) : list Z := sqlite_varint h ++ serials r ++ bodies r.

Definition record_ok (h : Z) (r : list field) : Prop :=
  h = zlen (sqlite_varint h) + zlen (serials r) /\ h < 2 ^ 31 /\ Forall field_ok r /\
  zlen (record_bytes h r) < 2 ^ 31 /\ zlen r < VALUES_MAX.

Lemma serial_width_ok s :
  serial_ok s -> sqliterkBtreeGetLengthForSerialType s = serial_width s.
Proof.
  intros [Hs Hmax]. unfold sqliterkBtreeGetLengthForSerialType, serial_width.
  replace (s <? 0) with false by lia. destruct (s <? 12) eqn:E.
  - assert (Hc : s = 0 \/ s = 1 \/ s = 2 \/ s = 3 \/ s = 4 \/ s = 5 \/ s = 6 \/ s = 7 \/ s = 8 \/ s = 9) by lia.
    repeat destruct Hc as [->|Hc]; try reflexivity. by subst s.
  - assert (H12 : 12 <= s) by lia.
    rewrite (proj2 (Z.eqb_neq s 5)), (proj2 (Z.eqb_neq s 6)), (proj2 (Z.eqb_neq s 7)), (proj2 (Z.leb_gt s 4)) by lia.
    cbn [orb]. rewrite Z.rem_mod_nonneg, Zmod_even by lia. destruct (Z.even s) eqn:Ev.
    + rewrite Z.quot_div_nonneg by lia. f_equal. lia.
    + assert (s <> 12) by (intros ->; discriminate Ev). rewrite Z.quot_div_nonneg by lia. f_equal. lia.
Qed.

Lemma serial_width_range s : serial_ok s -> 0 <= serial_width s < 2 ^ 31.
Proof.
  intros [Hs Hmax]. unfold serial_width. destruct (s =? 5); [lia|].
  destruct ((s =? 6) || (s =? 7)); [lia|]. destruct (s <=? 4) eqn:E1; [lia|].
  destruct (s <? 12) eqn:E2; [lia|]. destruct (Z.even s) eqn:E3.
  - pose proof (Z.div_pos (s - 12) 2 ltac:(lia) ltac:(lia)).
    pose proof (Z.div_le_upper_bound (s - 12) 2 s ltac:(lia) ltac:(lia)). lia.
  - assert (s <> 12) by (intros ->; discriminate E3).
    pose proof (Z.div_pos (s - 13) 2 ltac:(lia) ltac:(lia)).
    pose proof (Z.div_le_upper_bound (s - 13) 2 s ltac:(lia) ltac:(lia)). lia.
Qed.

Section records.
Context `{Al : SqliterkAlloc} `{AL : !SqliterkAllocLaws Al} `{Fi : SqliterkFile} `{Co : SqliterkCodec}.
Context `{Ut : SqliterkUtil} `{UL : !UtilLaws Ut} `{Cl : SqliterkColumn} `{CL : !ColumnLaws Cl}.
Context `{Bt : SqliterkBtreeTypes} `{Af : CAtof} (memory : ~ refused).

Abbreviation rkst := (@rkstate Co Cl).

(** Only memory was asked for. *)
Definition quiet (s s' : rkst) : Prop :=
  pg (pst s') = pg (pst s) /\ recursive s' = recursive s /\ heard s' = heard s.

Lemma quiet_refl s : quiet s s.
Proof. done. Qed.

Lemma quiet_trans s1 s2 s3 : quiet s1 s2 -> quiet s2 s3 -> quiet s1 s3.
Proof. intros (?&?&?) (?&?&?). repeat split; congruence. Qed.

(** A row that holds values and overflow pages. *)
Definition col_rep (c : sqliterk_column) (rowid : Z) (l lo : list rkval) : Prop :=
  sqliterkColumnGetRowId c = rowid /\
  (exists v, sqliterkColumnGetValues c = Some v /\ vals_rep v l) /\
  (exists o, sqliterkColumnGetOverflowPages c = Some o /\ vals_rep o lo).

Lemma rk_add_spec c rowid l lo o (s : rkst) :
  col_rep c rowid l lo -> zlen l < VALUES_MAX -> add_ok o ->
  wp (let! (rc, vs) := rk_mem (run_add o (sqliterkColumnGetValues c)) in ret (rc, put_values vs c))
    (fun '(rc, c') s' => rc = SQLITERK_OK /\ col_rep c' rowid (l ++ [added o]) lo /\ quiet s s') s.
Proof.
  intros (Hr & (v & Hv & Hvl) & (ov & Ho & Hol)) Hmax Hok. rewrite Hv.
  apply wp_bind. unfold rk_mem, in_pager. apply wp_zoom, wp_zoom.
  eapply wp_mono; [by apply run_add_spec|]. intros [rc vs] k (v' & -> & [(-> & Hv')|(_ & _ & H%refused_once)]); [|done].
  apply wp_ret. split; [done|]. split; [|done].
  split; [by rewrite rowid_put_values|]. split; [exists v'; by rewrite get_put_values|].
  exists ov. by rewrite overflow_put_values.
Qed.

(** One value of a record. *)
Lemma add_column_value_spec pre body post sr c rowid l lo (s : rkst) :
  field_ok (sr, body) -> col_rep c rowid l lo -> zlen l < VALUES_MAX ->
  Forall is_byte (pre ++ body ++ post) -> zlen (pre ++ body ++ post) < 2 ^ 31 - 1 ->
  wp (add_column_value (pre ++ body ++ post) (zlen pre) sr (serial_width sr) c)
    (fun '(rc, c') s' => rc = SQLITERK_OK /\ col_rep c' rowid (l ++ [field_value (sr, body)]) lo /\ quiet s s') s.
Proof.
  intros ([Hs Hsm] & Hlen & Hb) Hc Hmax Hbytes Hplen. cbn [fst snd] in *.
  assert (Hlens : zlen pre + zlen body + zlen post = zlen (pre ++ body ++ post))
    by (rewrite !zlen_app; lia).
  assert (Hsl : slice (zlen pre) (serial_width sr) (pre ++ body ++ post) = body).
  { rewrite <- Hlen. unfold slice. by rewrite !to_nat_zlen, drop_app_length, take_app_length. }
  zlen_pos. unfold add_column_value, field_value. cbv zeta.
  destruct (sr =? 0) eqn:E0.
  { exact (rk_add_spec c rowid l lo AddNull s Hc Hmax I). }
  destruct (sr <? 7) eqn:E7.
  { replace (sr <=? 6) with true by lia.
    eapply wp_bind_lift_res.
    - apply parse_int64_be; [|lia|lia|done].
      assert (Hcs : sr = 1 \/ sr = 2 \/ sr = 3 \/ sr = 4 \/ sr = 5 \/ sr = 6) by lia.
      repeat destruct Hcs as [->|Hcs]; try (vm_compute; auto 10). subst sr. vm_compute. auto 10.
    - rewrite Hsl.
      exact (rk_add_spec c rowid l lo (AddInteger64 (wrap_s (8 * serial_width sr) (be_val body))) s Hc Hmax I). }
  replace (sr <=? 6) with false by lia.
  destruct (sr =? 7) eqn:E8.
  { assert (sr = 7) as -> by lia. change (serial_width 7) with 8 in *.
    eapply wp_bind_lift_res; [apply parse_number_be; lia|]. rewrite Hsl.
    exact (rk_add_spec c rowid l lo (AddNumber (rev body)) s Hc Hmax I). }
  destruct (sr =? 8) eqn:E9; [exact (rk_add_spec c rowid l lo (AddInteger 0) s Hc Hmax I)|].
  destruct (sr =? 9) eqn:E10; [exact (rk_add_spec c rowid l lo (AddInteger 1) s Hc Hmax I)|].
  replace (12 <=? sr) with true by lia.
  replace ((0 <=? zlen pre) && (zlen pre <=? zlen (pre ++ body ++ post))) with true by lia.
  eapply wp_bind_lift_res; [reflexivity|]. rewrite to_nat_zlen, drop_app_length.
  rewrite Z.rem_mod_nonneg, Zmod_even, <- Hlen by lia.
  assert (Htk : take (Z.to_nat (zlen body)) (body ++ post) = body) by (by rewrite to_nat_zlen, take_app_length).
  destruct (Z.even sr); cbn [Z.eqb].
  - pose proof (rk_add_spec c rowid l lo (AddBinary (body ++ post) (zlen body)) s Hc Hmax) as Hadd.
    cbn [added run_add add_ok] in Hadd. rewrite Htk in Hadd. apply Hadd. rewrite zlen_app. lia.
  - pose proof (rk_add_spec c rowid l lo (AddNoTerminatorText (body ++ post) (zlen body)) s Hc Hmax) as Hadd.
    cbn [added run_add add_ok] in Hadd. rewrite Htk in Hadd. apply Hadd. rewrite zlen_app. lia.
Qed.

Lemma serials_cons f r : serials (f :: r) = sqlite_varint f.1 ++ serials r.
Proof. done. Qed.
Lemma bodies_cons f r : bodies (f :: r) = f.2 ++ bodies r.
Proof. done. Qed.
Lemma serials_app r1 r2 : serials (r1 ++ r2) = serials r1 ++ serials r2.
Proof. apply bind_app. Qed.
Lemma bodies_app r1 r2 : bodies (r1 ++ r2) = bodies r1 ++ bodies r2.
Proof. apply bind_app. Qed.

(** The loop over the values, from the [r1] fields done to the end. *)
Lemma values_loop_spec h (r2 : list field) : forall (r1 : list field) c rowid lo fuel (s : rkst),
  record_ok h (r1 ++ r2) -> Forall is_byte (record_bytes h (r1 ++ r2)) ->
  zlen (record_bytes h (r1 ++ r2)) < 2 ^ 31 - 1 ->
  col_rep c rowid (map field_value r1) lo -> (length r2 < fuel)%nat ->
  wp (values_loop fuel (record_bytes h (r1 ++ r2)) (zlen (sqlite_varint h) + zlen (serials r1)) h
        (h + zlen (bodies r1)) (zlen (record_bytes h (r1 ++ r2))) c)
    (fun '(rc, c') s' => rc = SQLITERK_OK /\ col_rep c' rowid (map field_value (r1 ++ r2)) lo /\ quiet s s') s.
Proof.
  induction r2 as [|f r2 IH]; intros r1 c rowid lo fuel s Hok Hb Hlen Hc Hfu; destruct fuel as [|fuel];
    simpl in Hfu; try lia; cbn [values_loop].
  - rewrite app_nil_r in *. destruct Hok as (Hh & _ & _ & _ & _).
    unfold record_bytes. rewrite !zlen_app.
    rewrite (proj2 (Z.ltb_ge _ _)), (proj2 (Z.ltb_ge _ _)) by lia. cbn [orb].
    rewrite (proj2 (Z.eqb_eq _ _)), (proj2 (Z.eqb_eq _ _)) by lia. cbn [negb orb].
    apply wp_ret. split; [done|]. by split.
  - pose proof Hok as (Hh & Hhm & Hf & Hrl & Hvm). destruct f as [sr body]. unfold field in *.
    apply Forall_app in Hf as [_ Hf]. apply Forall_cons in Hf as [Hf _].
    pose proof (varint_length sr) as Hvl.
    set (P := record_bytes h (r1 ++ (sr, body) :: r2)) in *.
    assert (HP1 : P = (sqlite_varint h ++ serials r1) ++ sqlite_varint sr ++ serials r2 ++ bodies (r1 ++ (sr, body) :: r2)).
    { unfold P, record_bytes. rewrite serials_app, serials_cons. cbn [fst]. by rewrite <- !app_assoc. }
    assert (HP2 : P = (sqlite_varint h ++ serials (r1 ++ (sr, body) :: r2) ++ bodies r1) ++ body ++ bodies r2).
    { unfold P, record_bytes. rewrite (bodies_app r1), bodies_cons. cbn [snd]. by rewrite <- !app_assoc. }
    assert (Hcond : (h + zlen (bodies r1) <? zlen P) || (zlen (sqlite_varint h) + zlen (serials r1) <? h) = true).
    { apply orb_true_intro. right. apply Z.ltb_lt. rewrite Hh at 2.
      rewrite serials_app, serials_cons. cbn [fst]. rewrite !zlen_app. zlen_pos. lia. }
    rewrite Hcond. destruct Hf as ([Hs Hsm] & Hfl & Hfb). cbn [fst snd] in *.
    eapply wp_bind_lift_res.
    { rewrite HP1, <- zlen_app. apply parse_varint_ok. lia. }
    cbv beta iota. change (negb (SQLITERK_OK =? SQLITERK_OK)) with false. cbv iota.
    rewrite serial_width_ok by (by split).
    assert (Hov : h + zlen (bodies r1) = zlen (sqlite_varint h ++ serials (r1 ++ (sr, body) :: r2) ++ bodies r1)).
    { rewrite !zlen_app. lia. }
    apply wp_bind. rewrite Hov. rewrite HP2 at 1.
    eapply wp_mono.
    { apply add_column_value_spec; [by split; [split|split]|exact Hc| |by rewrite <- HP2|by rewrite <- HP2].
      unfold zlen in *. rewrite length_app in Hvm. rewrite length_map. simpl in Hvm. lia. }
    intros [rc c'] s1 (-> & Hc' & Hq). change (negb (SQLITERK_OK =? SQLITERK_OK)) with false. cbv iota.
    pose proof (serial_width_range sr ltac:(by split)) as Hwr.
    assert (Hpl : zlen P = zlen (sqlite_varint h ++ serials (r1 ++ (sr, body) :: r2) ++ bodies r1) +
                           zlen body + zlen (bodies r2)) by (rewrite HP2 at 1; rewrite !zlen_app; lia).
    eapply wp_bind_lift_res; [apply chk_int_ok; zlen_pos; lia|]. cbv beta.
    rewrite <- Hov.
    assert (Hr1 : r1 ++ (sr, body) :: r2 = (r1 ++ [(sr, body)]) ++ r2) by (by rewrite <- app_assoc).
    assert (He1 : zlen (sqlite_varint h) + zlen (serials r1) + zlen (sqlite_varint sr) =
                  zlen (sqlite_varint h) + zlen (serials (r1 ++ [(sr, body)]))).
    { rewrite serials_app, serials_cons. cbn [fst]. rewrite !zlen_app. change (zlen (serials [])) with 0. lia. }
    assert (He2 : h + zlen (bodies r1) + serial_width sr = h + zlen (bodies (r1 ++ [(sr, body)]))).
    { rewrite bodies_app, bodies_cons. cbn [snd]. rewrite !zlen_app. change (zlen (bodies [])) with 0. lia. }
    rewrite He1, He2. clear HP1 HP2 Hcond Hpl Hov. subst P. rewrite Hr1 in *.
    eapply wp_mono;
      [apply (IH (r1 ++ [(sr, body)]) c' rowid lo fuel s1); [exact Hok|exact Hb|exact Hlen|by rewrite map_app|lia]|].
    intros [rc c2] s2 (-> & Hc2 & Hq2). split; [done|]. split; [done|]. by eapply quiet_trans.
Qed.

(** A record, complete in its buffer. *)
Lemma parse_record_spec h r c rowid lo (s : rkst) :
  record_ok h r -> Forall is_byte (record_bytes h r) -> zlen (record_bytes h r) < 2 ^ 31 - 1 ->
  col_rep c rowid [] lo ->
  wp (parse_record (record_bytes h r) (zlen (record_bytes h r)) c)
    (fun '(rc, c') s' => rc = SQLITERK_OK /\ col_rep c' rowid (map field_value r) lo /\ quiet s s') s.
Proof.
  intros Hok Hb Hlen Hc. pose proof Hok as (Hh & Hhm & _). unfold parse_record.
  assert (H0 : 0 <= h) by (rewrite Hh; zlen_pos; lia).
  eapply wp_bind_lift_res; [apply (parse_varint_ok []); lia|]. cbv beta iota.
  change (negb (SQLITERK_OK =? SQLITERK_OK)) with false. cbv iota.
  pose proof (values_loop_spec h r [] c rowid lo (Z.to_nat (zlen (record_bytes h r)) + 2) s Hok Hb Hlen Hc) as H.
  cbn [serials bodies mbind list_bind app] in H.
  change (zlen (serials [])) with 0 in H. change (zlen (bodies [])) with 0 in H.
  change (zlen []) with 0 in H. rewrite !Z.add_0_r in H. apply H.
  assert (Hrl : (length r <= length (serials r))%nat).
  { clear. induction r as [|f r IH]; [done|]. rewrite serials_cons, length_app. pose proof (varint_length f.1).
    unfold zlen in *. simpl. lia. }
  unfold record_bytes, zlen. rewrite !length_app. lia.
Qed.
End records.

(** ** How much of a payload is on the leaf *)

(** The formulas of the file format, for usable size [u] and payload size [n]. *)
Definition min_local (u : Z) : Z := (u - 12) * 32 / 255 - 23.
Definition local_ref (u n : Z) : Z :=
  if n <=? u - 35 then n
  else let k := min_local u + (n - min_local u) mod (u - 4) in if k <=? u - 35 then k else min_local u.

Lemma min_local_range u : 256 <= u < 2 ^ 16 -> 7 <= min_local u <= u - 35.
Proof.
  intros Hu. unfold min_local. split.
  - assert (30 <= (u - 12) * 32 / 255) by (apply Z.div_le_lower_bound; lia). lia.
  - assert ((u - 12) * 32 / 255 <= u - 12) by (apply Z.div_le_upper_bound; lia). lia.
Qed.

Lemma local_ref_range u n :
  256 <= u < 2 ^ 16 -> 0 < n -> 0 < local_ref u n <= n /\ local_ref u n <= u - 35.
Proof.
  intros Hu Hn. pose proof (min_local_range u Hu). unfold local_ref. destruct (n <=? u - 35) eqn:E; [lia|].
  pose proof (Z.mod_pos_bound (n - min_local u) (u - 4) ltac:(lia)). cbv zeta.
  destruct (min_local u + (n - min_local u) mod (u - 4) <=? u - 35) eqn:E2; lia.
Qed.

(** A tree whose limits are those of the pager. *)
Definition limits_ok (bt : sqliterk_btree) (u : Z) : Prop := b_maxLeaf bt = u - 35 /\ b_minLocal bt = min_local u.

Lemma local_size_ok bt u n :
  limits_ok bt u -> 256 <= u < 2 ^ 16 -> 0 < n -> local_size bt u n = Done (local_ref u n).
Proof.
  intros [Hx Hm] Hu Hn. pose proof (min_local_range u Hu). unfold local_size, local_ref. rewrite Hx, Hm.
  destruct (n <=? u - 35) eqn:E; [done|].
  rewrite (proj2 (Z.eqb_neq (u - 4) 0)) by lia. cbv zeta.
  by rewrite Z.rem_mod_nonneg by lia.
Qed.

(** ** Walking *)

Section walk.
Context `{Al : SqliterkAlloc} `{AL : !SqliterkAllocLaws Al} `{Fi : SqliterkFile} `{Co : SqliterkCodec}.
Context `{Ut : SqliterkUtil} `{UL : !UtilLaws Ut} `{Cl : SqliterkColumn} `{CL : !ColumnLaws Cl}.
Context `{Bt : SqliterkBtreeTypes} `{Af : CAtof} (memory : ~ refused).
Context (d : list Z) `{FL : !FileLaws Fi d} (bytes : Forall is_byte d).
Context (notify : sqliterk_notify) (answer : list rk_event -> Z).
Context (asked : onParseColumn notify = Some answer).

Abbreviation rkst := (@rkstate Co Cl).
Abbreviation page_of := (page_of d).
Abbreviation whole_page := (whole_page d).

Definition pgr (s : rkst) : sqliterk_pager := pg (pst s).

(** The geometry of the file, which no walk changes. *)
Definition geo (p : sqliterk_pager) := (pagesize p, usableSize p, pagecount p, reservedBytes p, codec p).

Lemma page_of_geo p p' n : geo p = geo p' -> page_of p n = page_of p' n.
Proof. unfold geo, PagerFacts.page_of. by intros [= -> _ _ _ _]. Qed.

(** The rows among the things heard. *)
Definition rows_of (evs : list rk_event) : list (sqliterk_btree * sqliterk_column) :=
  omap (fun e => match e with EvColumn b c => Some (b, c) | _ => None end) evs.

(** A row as the user gets it: of which tree, its rowid, its values. *)
Definition row_is (bc : sqliterk_btree * sqliterk_column) (r : sqliterk_btree * Z * list rkval) : Prop :=
  bc.1 = r.1.1 /\ exists lo, col_rep bc.2 r.1.2 r.2 lo.

(** A part of a walk: the pages [ps] became checked, the user got the rows [rs] in this order. *)
Record moved (ps : list Z) (rs : list (sqliterk_btree * Z * list rkval)) (s s' : rkst) : Prop := Moved {
  mv_geo : geo (pgr s') = geo (pgr s);
  mv_good : good_pager (pgr s');
  mv_status : forall q, valid_page (pgr s) q ->
    status_at (pgr s') q = if bool_decide (q ∈ ps) then sqliterk_status_checked else status_at (pgr s) q;
  mv_counts : checkedPageCount (pgr s') = checkedPageCount (pgr s) + zlen ps /\
              damagedPageCount (pgr s') = damagedPageCount (pgr s);
  mv_recursive : recursive s' = recursive s;
  mv_heard : exists evs, heard s' = rev evs ++ heard s /\ Forall2 row_is (rows_of evs) rs
}.

Lemma valid_geo p p' q : geo p' = geo p -> valid_page p q -> valid_page p' q.
Proof. unfold geo, valid_page. by intros [= _ _ -> _ _]. Qed.

Lemma geo_pagesize p p' : geo p' = geo p -> pagesize p' = pagesize p.
Proof. unfold geo. by intros [= -> _ _ _ _]. Qed.
Lemma geo_usable p p' : geo p' = geo p -> usableSize p' = usableSize p.
Proof. unfold geo. by intros [= _ -> _ _ _]. Qed.
Lemma whole_geo p p' n : geo p' = geo p -> whole_page p n -> whole_page p' n.
Proof. intros Hg [Hv Hw]. split; [by eapply valid_geo|]. by rewrite (geo_pagesize p p'). Qed.

Lemma moved_trans ps1 ps2 rs1 rs2 s s1 s2 :
  moved ps1 rs1 s s1 -> moved ps2 rs2 s1 s2 -> moved (ps1 ++ ps2) (rs1 ++ rs2) s s2.
Proof.
  intros [Hg1 _ Hst1 [Hc1 Hd1] Hr1 (e1 & He1 & Hf1)] [Hg2 Hgd2 Hst2 [Hc2 Hd2] Hr2 (e2 & He2 & Hf2)].
  split; [congruence|done| |rewrite zlen_app; lia|congruence|].
  - intros q Hq. rewrite Hst2 by (by eapply valid_geo). rewrite Hst1 by done.
    rewrite (bool_decide_ext (q ∈ ps1 ++ ps2) (q ∈ ps1 \/ q ∈ ps2)) by (by rewrite elem_of_app).
    rewrite bool_decide_or. by destruct (bool_decide (q ∈ ps1)), (bool_decide (q ∈ ps2)).
  - exists (e1 ++ e2). rewrite He2, He1, rev_app_distr, app_assoc. split; [done|].
    unfold rows_of. rewrite omap_app. by apply Forall2_app.
Qed.

Lemma quiet_moved s s' : good_pager (pgr s) -> quiet s s' -> moved [] [] s s'.
Proof.
  unfold quiet, pgr. intros Hg (Hp & Hr & Hh). split; unfold pgr; rewrite ?Hp; auto.
  - rewrite zlen_nil. lia.
  - exists []. split; [by rewrite Hh|constructor].
Qed.

(** ** The callbacks on pages *)

Definition in_pages (p : sqliterk_pager) (s : rkst) : rkst := RkState (PState p (mem (pst s))) (recursive s) (heard s).

Lemma begin_page_spec n (s : rkst) (Q : Z -> rkst -> Prop) :
  good_pager (pgr s) -> valid_page (pgr s) n -> counts_room (pgr s) 1 ->
  (if status_at (pgr s) n =? sqliterk_status_checking then Q SQLITERK_MISUSE s
   else Q SQLITERK_OK (in_pages (with_status n sqliterk_status_checking (pgr s)) s)) ->
  wp (sqliterkNotify_onBeginParsePage n) Q s.
Proof.
  intros Hg Hv Hc HQ. unfold sqliterkNotify_onBeginParsePage, the_pager. apply wp_bind_gets.
  eapply wp_bind_lift_res; [by apply get_status_ok|]. fold (pgr s).
  destruct (status_at (pgr s) n =? sqliterk_status_checking); [by apply wp_ret|].
  apply wp_bind. unfold in_pager. apply wp_zoom, set_status_spec; [done..|]. by apply wp_ret.
Qed.

(** Telling the user about a page. *)
Definition page_told (n : Z) : list rk_event := if didParsePage notify then [EvPage n] else [].

Lemma end_page_spec n (s : rkst) (Q : unit -> rkst -> Prop) :
  good_pager (pgr s) -> valid_page (pgr s) n -> counts_room (pgr s) 1 ->
  Q tt (RkState (PState (with_status n sqliterk_status_checked (pgr s)) (mem (pst s))) (recursive s)
          (page_told n ++ heard s)) ->
  wp (sqliterkNotify_onEndParsePage notify n SQLITERK_OK) Q s.
Proof.
  intros Hg Hv Hc HQ. unfold sqliterkNotify_onEndParsePage.
  change (SQLITERK_OK =? SQLITERK_OK) with true. cbv iota. apply wp_bind. unfold in_pager.
  apply wp_zoom, set_status_spec; [done..|]. unfold page_told in HQ.
  destruct (didParsePage notify); [by apply wp_modify|by apply wp_ret].
Qed.

Lemma with_status_twice n a p :
  a <> sqliterk_status_checked -> a <> sqliterk_status_damaged ->
  with_status n sqliterk_status_checked (with_status n a p) = with_status n sqliterk_status_checked p.
Proof.
  intros H1 H2. unfold with_status. simpl. rewrite !(proj2 (Z.eqb_neq a _)) by done.
  f_equal. destruct (pagesStatus p) as [st|]; [|done]. simpl. by rewrite list_insert_insert_eq.
Qed.

Lemma moved_page n s s' :
  good_pager (pgr s) -> valid_page (pgr s) n ->
  pgr s' = with_status n sqliterk_status_checked (pgr s) -> recursive s' = recursive s ->
  heard s' = page_told n ++ heard s -> moved [n] [] s s'.
Proof.
  intros Hg Hv Hp Hr Hh. split; rewrite ?Hp; auto.
  - by apply good_with_status.
  - intros q Hq. rewrite status_at_with by done.
    rewrite (bool_decide_ext (q ∈ [n]) (q = n)) by (apply list_elem_of_singleton).
    destruct (q =? n) eqn:E; [rewrite bool_decide_eq_true_2 by lia|rewrite bool_decide_eq_false_2 by lia]; done.
  - exists (page_told n). unfold page_told in *. destruct (didParsePage notify); (split; [done|constructor]).
Qed.

(** ** Overflow pages *)

(** A chain of overflow pages, from its first page on, that holds some bytes; it ends in 0 or in
    another number that is not one of a page. *)
Inductive ov_chain (p : sqliterk_pager) : Z -> list Z -> list Z -> Prop :=
| ov_end n : ~ valid_page p n -> ov_chain p n [] []
| ov_page n next ps chunk rest :
  whole_page p n -> be_val (slice 0 4 (page_of p n)) = next -> next < 2 ^ 31 ->
  0 < zlen chunk -> zlen chunk = Z.min (usableSize p - 4) (zlen chunk + zlen rest) ->
  slice 4 (zlen chunk) (page_of p n) = chunk ->
  ov_chain p next ps rest -> ov_chain p n (n :: ps) (chunk ++ rest).

Lemma ov_chain_geo p p' n ps rest : geo p = geo p' -> ov_chain p n ps rest -> ov_chain p' n ps rest.
Proof.
  intros Hgeo Hc. induction Hc as [n Hv|n next ps chunk rest [Hv Hw] Hn Hm Hpos Hlen Hch Hc IH].
  { constructor. intros H. apply Hv. by apply (valid_geo p' p). }
  pose proof (page_of_geo p p' n Hgeo) as Hpo. rewrite Hpo in Hn, Hch.
  rewrite (geo_usable p' p Hgeo) in Hlen.
  apply ov_page with (next := next); auto. by apply (whole_geo p p').
Qed.

Definition ov_vals (ps : list Z) : list rkval := map RInteger ps.

Lemma counts_moved ps rs s s' n :
  moved ps rs s s' -> counts_room (pgr s) (zlen ps + n) -> 0 <= n -> counts_room (pgr s') n.
Proof. intros [_ _ _ [H1 H2] _ _] (?&?&?&?) ?. unfold counts_room. rewrite H1, H2. zlen_pos. lia. Qed.

Lemma counts_less p n m : counts_room p n -> m <= n -> counts_room p m.
Proof. unfold counts_room. lia. Qed.

(** An overflow page is announced, read and marked as checked, whatever its status was. *)
Lemma visit_overflow_spec bt n (s : rkst) {B} (k : Z -> option sqliterk_page -> cm rkst B) Q :
  b_notify bt = true -> good_pager (pgr s) -> whole_page (pgr s) n -> counts_room (pgr s) 1 ->
  (forall s', moved [n] [] s s' ->
     wp (k SQLITERK_OK (Some (Page n (Some (page_of (pgr s) n)) sqliterk_page_type_overflow))) Q s') ->
  wp ((if b_notify bt then let! _rc := sqliterkNotify_onBeginParsePage n in ret tt else ret tt) ;;;
      let! (rc, page) := in_pager (sqliterkPageAcquireOverflow n) in
      (if b_notify bt then sqliterkNotify_onEndParsePage notify n rc else ret tt) ;;;
      k rc page) Q s.
Proof.
  intros Hn Hg Hw Hc HQ. rewrite Hn. pose proof Hw as [Hv Hwd].
  assert (Hrest : forall s1, geo (pgr s1) = geo (pgr s) -> good_pager (pgr s1) -> counts_room (pgr s1) 1 ->
    with_status n sqliterk_status_checked (pgr s1) = with_status n sqliterk_status_checked (pgr s) ->
    recursive s1 = recursive s -> heard s1 = heard s ->
    wp (let! (rc, page) := in_pager (sqliterkPageAcquireOverflow n) in
        sqliterkNotify_onEndParsePage notify n rc ;;; k rc page) Q s1).
  { intros s1 Hgeo Hg1 Hc1 Hst Hr Hh. apply wp_bind. unfold in_pager at 1. apply wp_zoom.
    apply acquire_one_spec with (d := d); auto.
    - exact (whole_geo _ _ _ Hgeo Hw).
    - done.
    - cbv beta iota. fold (pgr s1). rewrite (page_of_geo (pgr s1) (pgr s)) by done.
      apply wp_bind, end_page_spec; [done|by eapply valid_geo|done|].
      apply HQ. apply moved_page; auto. cbn. by rewrite Hh. }
  apply wp_bind, wp_bind, begin_page_spec; auto.
  destruct (status_at (pgr s) n =? sqliterk_status_checking); apply wp_ret; apply Hrest; auto.
  - by apply good_with_status.
  - apply with_status_twice; done.
Qed.

Lemma rk_add_overflow c rowid l lo n (s : rkst) :
  col_rep c rowid l lo -> zlen lo < VALUES_MAX ->
  wp (rk_mem (sqliterkValuesAddInteger (sqliterkColumnGetOverflowPages c) n))
    (fun '(rc, ov) s' => col_rep (put_overflow ov c) rowid l (lo ++ [RInteger n]) /\ quiet s s') s.
Proof.
  intros (Hr & (v & Hv & Hvl) & (ov & Ho & Hol)) Hmax. rewrite Ho.
  unfold rk_mem, in_pager. apply wp_zoom, wp_zoom.
  eapply wp_mono; [by apply (run_add_spec (AddInteger n) ov lo)|].
  intros [rc vs] k (v' & -> & [(-> & Hv')|(_ & _ & H%refused_once)]); [|done].
  split; [|done]. split; [by rewrite rowid_put_overflow|]. split; [exists v; by rewrite values_put_overflow|].
  exists v'. by rewrite get_put_overflow.
Qed.

Lemma overflow_loop_spec bt first ps rest : forall p done junk c rowid l lo fuel (s : rkst),
  ov_chain p first ps rest -> geo (pgr s) = geo p -> b_notify bt = true ->
  good_pager (pgr s) -> counts_room (pgr s) (zlen ps) -> zlen junk = zlen rest ->
  col_rep c rowid l lo -> zlen lo + zlen ps < VALUES_MAX -> (length ps < fuel)%nat ->
  wp (overflow_loop notify fuel bt first (zlen done + zlen rest) (zlen done) (done ++ junk) c)
    (fun '(buf, c') s' => buf = done ++ rest /\ col_rep c' rowid l (lo ++ ov_vals ps) /\ moved ps [] s s') s.
Proof.
  intros p done junk c rowid l lo fuel s Hch. revert done junk c lo fuel s.
  induction Hch as [n Hv|n next ps chunk rest Hw Hn Hm Hpos Hlen Hck Hch IH];
    intros done junk c lo fuel s Hgeo Hnot Hg Hroom Hjunk Hc Hmax Hfu;
    destruct fuel as [|fuel]; simpl in Hfu; try lia; cbn [overflow_loop].
  - apply wp_bind_gets. rewrite is_valid_no by (intros H; apply Hv; by apply (valid_geo (pgr s) p)).
    change (negb (SQLITERK_MISUSE =? SQLITERK_OK)) with true. cbv iota. apply wp_ret.
    rewrite zlen_nil in Hjunk. apply zlen_0_inv in Hjunk as ->. split; [done|].
    unfold ov_vals. simpl. rewrite app_nil_r. split; [done|]. by apply quiet_moved, quiet_refl.
  - rewrite zlen_cons in Hroom, Hmax. zlen_pos.
    pose proof (whole_geo _ _ _ Hgeo Hw) as Hw'.
    apply wp_bind_gets. fold (pgr s). rewrite is_valid_ok by apply Hw'.
    change (negb (SQLITERK_OK =? SQLITERK_OK)) with false. cbv iota.
    apply wp_bind. eapply wp_mono; [apply rk_add_overflow; [exact Hc|lia]|].
    intros [rc ov] s1 [Hc1 Hq]. cbv beta iota zeta. pose proof Hq as (Hq1 & _ & _). fold (pgr s) (pgr s1) in Hq1.
    apply (visit_overflow_spec bt n s1); [done|by rewrite Hq1|by rewrite Hq1|rewrite Hq1; eapply counts_less; [done|lia]|].
    intros s2 Hmv. change (negb (SQLITERK_OK =? SQLITERK_OK)) with false. cbv beta iota zeta.
    assert (Hmv2 : moved [n] [] s s2) by (by apply (moved_trans [] [n] [] [] s s1 s2); [apply quiet_moved|]).
    pose proof (zlen_page d (pgr s) n Hg Hw') as Hpl. pose proof Hg as [_ _ Hus _ _].
    pose proof (geo_usable _ _ Hgeo) as Hus2.
    rewrite zlen_app. rewrite (proj2 (Z.leb_gt _ _)) by lia.
    unfold sqliterkPagerGetUsableSize. rewrite Hus2.
    replace (if usableSize p - 4 <? zlen done + (zlen chunk + zlen rest) - zlen done then usableSize p - 4
             else zlen done + (zlen chunk + zlen rest) - zlen done) with (zlen chunk).
    2: { rewrite Hlen at 1. destruct (usableSize p - 4 <? _) eqn:E; lia. }
    rewrite Hq1, (page_of_geo (pgr s) p n) in * by done.
    eapply wp_bind_lift_res; [reflexivity|].
    eapply wp_bind_lift_res; [apply zread_n_slice; lia|]. rewrite Hck.
    assert (Hj : junk = take (length chunk) junk ++ drop (length chunk) junk) by (by rewrite take_drop).
    rewrite zlen_app in Hjunk.
    assert (Hj1 : zlen (take (length chunk) junk) = zlen chunk).
    { unfold zlen in *. rewrite length_take. lia. }
    assert (Hwr : zwrite_n (done ++ junk) (zlen done) chunk = Done (done ++ chunk ++ drop (length chunk) junk))
      by (rewrite Hj at 1; by apply zwrite_n_app).
    eapply wp_bind_lift_res; [exact Hwr|].
    eapply wp_bind_lift_res.
    { rewrite parse_int_be; [reflexivity|auto|lia|lia|by apply Forall_slice|]. rewrite Hn. simpl. lia. }
    rewrite Hn, app_assoc.
    replace (zlen done + (zlen chunk + zlen rest)) with (zlen (done ++ chunk) + zlen rest)
      by (rewrite zlen_app; lia).
    rewrite <- (zlen_app done chunk).
    eapply wp_mono.
    { apply IH; [|done|apply Hmv2|eapply counts_moved; [exact Hmv2|rewrite zlen_cons, zlen_nil; eapply counts_less; [exact Hroom|lia]|lia]
                 | |exact Hc1| |lia].
      - rewrite (mv_geo _ _ _ _ Hmv2). done.
      - unfold zlen in *. rewrite length_drop. lia.
      - rewrite zlen_app, zlen_cons, zlen_nil. lia. }
    intros [buf c'] s3 (-> & Hc3 & Hmv3). rewrite <- app_assoc. split; [done|].
    split; [unfold ov_vals in *; cbn [map]; by rewrite <- app_assoc in Hc3|].
    exact (moved_trans [n] ps [] [] s s2 s3 Hmv2 Hmv3).
Qed.

(** ** Payloads *)

(** A payload stored from an offset of a leaf on, with its overflow pages. *)
Record payload_at (p : sqliterk_pager) (data : list Z) (off : Z) (payload : list Z) (ovs : list Z) : Prop := PayloadAt {
  pa_size : 0 < zlen payload <= MAX_PAYLOAD;
  pa_off : 0 <= off /\ off + local_ref (usableSize p) (zlen payload) <= zlen data;
  pa_local : slice off (local_ref (usableSize p) (zlen payload)) data
             = take (Z.to_nat (local_ref (usableSize p) (zlen payload))) payload;
  pa_rest : let L := local_ref (usableSize p) (zlen payload) in
            if L <? zlen payload then
              off + L + 4 <= zlen data /\
              exists first, be_val (slice (off + L) 4 data) = first /\ first < 2 ^ 31 /\
                            ov_chain p first ovs (drop (Z.to_nat L) payload)
            else ovs = []
}.

Lemma ov_chain_length p first ps rest : ov_chain p first ps rest -> zlen ps <= zlen rest.
Proof.
  induction 1 as [n Hv|n next ps chunk rest Hw Hn Hm Hpos Hlen Hck Hch IH]; [done|].
  rewrite zlen_cons, zlen_app. lia.
Qed.

Lemma wp_rk_malloc {B} n (f : option (list Z) -> cm rkst B) Q (s : rkst) :
  0 <= n < 2 ^ 64 ->
  (forall s', quiet s s' -> wp (f (Some (zeros n))) Q s') -> wp (bind (rk_malloc n) f) Q s.
Proof.
  intros Hn H. unfold wp, bind, rk_malloc, in_pager, pmalloc, zoom, sqliterkOSMalloc.
  rewrite malloc_zeros by done. by apply H.
Qed.

Lemma pwp_rk_malloc E {B} n (f : option (list Z) -> cm rkst B) Q (s : rkst) :
  0 <= n < 2 ^ 64 ->
  (forall s', quiet s s' -> pwp E (f (Some (zeros n))) Q s') -> pwp E (bind (rk_malloc n) f) Q s.
Proof.
  intros Hn H. unfold pwp, bind, rk_malloc, in_pager, pmalloc, zoom, sqliterkOSMalloc.
  rewrite malloc_zeros by done. by apply H.
Qed.

Lemma gather_payload_spec bt n t data off payload ovs c rowid l (s : rkst) :
  payload_at (pgr s) data off payload ovs -> good_pager (pgr s) -> zlen data = pagesize (pgr s) ->
  Forall is_byte data -> limits_ok bt (usableSize (pgr s)) -> b_notify bt = true ->
  counts_room (pgr s) (zlen ovs) -> col_rep c rowid l [] ->
  wp (gather_payload notify bt (Some (Page n (Some data) t)) off (zlen payload) c)
    (fun r s' => exists c', r = inr (payload, c') /\ col_rep c' rowid l (ov_vals ovs) /\ moved ovs [] s s') s.
Proof.
  intros [Hsz [Ho1 Ho2] Hloc Hrest] Hg Hdl Hdb Hlim Hnot Hroom Hc.
  pose proof Hg as [_ Hps Hus _ _]. unfold MAX_PAYLOAD in Hsz.
  set (L := local_ref (usableSize (pgr s)) (zlen payload)) in *.
  pose proof (local_ref_range (usableSize (pgr s)) (zlen payload) ltac:(lia) ltac:(lia)) as [HL1 HL2]. fold L in HL1, HL2.
  unfold gather_payload. apply wp_rk_malloc; [lia|]. intros s1 Hq. pose proof Hq as (Hq1 & _ & _).
  fold (pgr s) (pgr s1) in Hq1. apply wp_bind_gets. fold (pgr s1). rewrite Hq1.
  unfold sqliterkPagerGetUsableSize, sqliterkPagerGetSize.
  eapply wp_bind_lift_res; [apply local_size_ok; [done|lia|lia]|]. fold L.
  eapply wp_bind_lift_res; [apply chk_int_ok; lia|].
  rewrite (proj2 (Z.ltb_ge _ _)) by lia.
  eapply wp_bind_lift_res; [reflexivity|].
  eapply wp_bind_lift_res; [apply zread_n_slice; lia|]. rewrite Hloc.
  assert (Htk : zlen (take (Z.to_nat L) payload) = L) by (apply zlen_take_le; lia).
  eapply wp_bind_lift_res; [apply zwrite_n_0; rewrite zeros_length; lia|].
  assert (Hm0 : moved [] [] s s1) by (by apply quiet_moved).
  cbv zeta in Hrest. destruct (L <? zlen payload) eqn:EL.
  - destruct Hrest as (Hin & first & Hf & Hfm & Hch).
    eapply wp_bind_lift_res.
    { rewrite parse_int_be; [reflexivity|auto|lia|lia|done|]. rewrite Hf. simpl. lia. }
    rewrite Hf. apply wp_bind.
    pose proof (ov_chain_length _ _ _ _ Hch) as Hol.
    assert (Hrl : zlen (drop (Z.to_nat L) payload) = zlen payload - L) by (apply zlen_drop; lia).
    pose proof (overflow_loop_spec bt first ovs (drop (Z.to_nat L) payload) (pgr s) (take (Z.to_nat L) payload)
                  (drop (length (take (Z.to_nat L) payload)) (zeros (zlen payload))) c rowid l []
                  (Z.to_nat (zlen payload) + 1) s1 Hch) as Hov.
    rewrite Htk, Hrl in Hov. replace (L + (zlen payload - L)) with (zlen payload) in Hov by lia.
    eapply wp_mono.
    { apply Hov; [by rewrite Hq1|done|by rewrite Hq1|by rewrite Hq1| |exact Hc| |].
      - unfold zlen in *. rewrite length_drop. unfold zeros. rewrite length_replicate. lia.
      - rewrite zlen_nil. unfold VALUES_MAX. lia.
      - unfold zlen in *. lia. }
    intros [buf c'] s2 (-> & Hc' & Hmv). apply wp_ret. exists c'. rewrite take_drop. split; [done|].
    split; [done|]. exact (moved_trans [] ovs [] [] s s1 s2 Hm0 Hmv).
  - assert (HLeq : L = zlen payload) by lia. apply wp_ret. exists c.
    rewrite HLeq, to_nat_zlen, firstn_all.
    rewrite drop_ge, app_nil_r by (unfold zeros, zlen; rewrite length_replicate; lia).
    rewrite Hrest. split; [done|]. by split.
Qed.

(** ** Rows *)

(** The user accepts every row of the tree, and these rows name no other trees to walk. *)
Definition plain_tree (bt : sqliterk_btree) (s : rkst) : Prop :=
  b_notify bt = true /\ (b_type bt =? sqliterk_btree_type_master) && recursive s = false /\
  sqliterkBtreeIsSystemType (b_type bt) && negb (b_type bt =? sqliterk_btree_type_master) = false /\
  limits_ok bt (usableSize (pgr s)) /\ (forall c h, answer (EvColumn bt c :: h) = SQLITERK_OK).

Lemma plain_tree_moved bt ps rs s s' : plain_tree bt s -> moved ps rs s s' -> plain_tree bt s'.
Proof.
  intros (H1 & H2 & H3 & H4 & H5) [Hgeo _ _ _ Hr _]. split; [done|]. rewrite Hr. split; [done|]. split; [done|].
  split; [|done].
  by rewrite (geo_usable _ _ Hgeo).
Qed.

Lemma on_parse_column_spec rec bt n c rowid l lo (s : rkst) :
  plain_tree bt s -> good_pager (pgr s) -> col_rep c rowid l lo ->
  wp (sqliterkNotify_onParseColumn notify rec bt n c)
    (fun rc s' => rc = SQLITERK_OK /\ moved [] [(bt, rowid, l)] s s') s.
Proof.
  intros (Hn & Hf & _ & _ & accepts) Hg Hc. unfold sqliterkNotify_onParseColumn, ask_user. rewrite asked.
  apply wp_bind, wp_bind_modify, wp_bind_gets. cbn [heard]. rewrite accepts.
  change (SQLITERK_OK =? SQLITERK_CANCELLED) with false. change (negb (SQLITERK_OK =? SQLITERK_OK)) with false.
  cbv iota. apply wp_ret. change (SQLITERK_OK =? SQLITERK_CANCELLED) with false. cbv iota.
  apply wp_bind_gets. cbn [recursive]. rewrite Hf. apply wp_bind_ret, wp_ret. split; [done|].
  split; [done|done|done| |done|].
  - rewrite zlen_nil, Z.add_0_r. done.
  - exists [EvColumn bt c]. split; [done|]. constructor; [|constructor]. split; [done|]. by exists lo.
Qed.

(** A row stored in a leaf. *)
Record row := Row { rw_id : Z; rw_header : Z; rw_fields : list field; rw_overflow : list Z }.

Definition row_payload (r : row) : list Z := record_bytes (rw_header r) (rw_fields r).
Definition row_values (r : row) : list rkval := map field_value (rw_fields r).

Definition cell_at (p : sqliterk_pager) (data : list Z) (off : Z) (r : row) : Prop :=
  - 2 ^ 63 <= rw_id r < 2 ^ 63 /\ record_ok (rw_header r) (rw_fields r) /\
  (exists pre post, zlen pre = off /\
     data = pre ++ sqlite_varint (zlen (row_payload r)) ++ sqlite_varint (u64 (rw_id r)) ++ post) /\
  payload_at p data (off + zlen (sqlite_varint (zlen (row_payload r))) + zlen (sqlite_varint (u64 (rw_id r))))
    (row_payload r) (rw_overflow r).

Lemma record_bytes_bytes h r : Forall field_ok r -> Forall is_byte (record_bytes h r).
Proof.
  intros Hr. unfold record_bytes. apply Forall_app. split; [apply varint_bytes|].
  apply Forall_app. split.
  - clear Hr. unfold serials. induction r as [|f r IH]; [constructor|]. apply Forall_app. split; [apply varint_bytes|done].
  - unfold bodies. induction Hr as [|f r (_ & _ & Hf) Hr IH]; [constructor|]. apply Forall_app. by split.
Qed.

Lemma parse_payload_spec rec bt n t data r off c (s : rkst) :
  payload_at (pgr s) data off (row_payload r) (rw_overflow r) -> record_ok (rw_header r) (rw_fields r) ->
  good_pager (pgr s) -> zlen data = pagesize (pgr s) -> Forall is_byte data -> plain_tree bt s ->
  counts_room (pgr s) (zlen (rw_overflow r)) -> col_rep c (rw_id r) [] [] ->
  wp (sqliterkBtreeParsePayload notify rec bt (Some (Page n (Some data) t)) off (zlen (row_payload r)) c)
    (fun '(rc, c') s' => rc = SQLITERK_OK /\
       (exists l lo, col_rep c' (rw_id r) l lo) /\
       moved (rw_overflow r) [(bt, rw_id r, row_values r)] s s') s.
Proof.
  intros Hpa Hok Hg Hdl Hdb Hpt Hroom Hc. pose proof Hpt as (Hn & _ & _ & Hlim & _). pose proof Hpa as [Hsz _ _ _].
  unfold sqliterkBtreeParsePayload. rewrite (proj2 (Z.leb_gt _ _)) by lia.
  apply wp_bind. eapply wp_mono; [by apply gather_payload_spec|].
  intros g s1 (c1 & -> & Hc1 & Hm1). cbv beta iota. apply wp_bind.
  unfold MAX_PAYLOAD in Hsz.
  eapply wp_mono.
  { apply parse_record_spec with (lo := ov_vals (rw_overflow r)); [done|done|apply record_bytes_bytes; apply Hok| |exact Hc1].
    change (record_bytes (rw_header r) (rw_fields r)) with (row_payload r). lia. }
  intros [rc c2] s2 (-> & Hc2 & Hq2). cbv beta iota.
  assert (Hm2 : moved (rw_overflow r) [] s s2).
  { rewrite <- (app_nil_r (rw_overflow r)). apply (moved_trans _ [] [] [] s s1 s2 Hm1).
    apply quiet_moved; [apply Hm1|done]. }
  change (SQLITERK_OK =? SQLITERK_OK) with true. rewrite Hn. cbn [andb]. apply wp_bind.
  eapply wp_mono.
  { apply on_parse_column_spec with (lo := ov_vals (rw_overflow r)); [by eapply plain_tree_moved|apply Hm2|exact Hc2]. }
  intros rc s3 [-> Hm3]. apply wp_ret. split; [done|]. split; [by eexists _, _|].
  rewrite <- (app_nil_r (rw_overflow r)). exact (moved_trans _ [] [] _ s s2 s3 Hm2 Hm3).
Qed.

(** ** Cells *)

Lemma payload_at_geo p p' data off payload ovs :
  geo p = geo p' -> payload_at p data off payload ovs -> payload_at p' data off payload ovs.
Proof.
  intros Hgeo [H1 H2 H3 H4]. pose proof (geo_usable p' p Hgeo) as Hu. rewrite Hu in *.
  split; auto. cbv zeta in *. destruct (_ <? _); [|done].
  destruct H4 as (H5 & first & H6 & H7 & H8). split; [done|]. exists first. split; [done|]. split; [done|].
  by eapply ov_chain_geo.
Qed.

Definition overflow_of (rs : list row) : list Z := rs ≫= rw_overflow.
Definition rows_told (bt : sqliterk_btree) (rs : list row) : list (sqliterk_btree * Z * list rkval) :=
  map (fun r => (bt, rw_id r, row_values r)) rs.

Lemma cells_loop_spec rec bt n t data p offs rs : forall c rowid l lo (s : rkst),
  Forall2 (cell_at p data) offs rs -> geo p = geo (pgr s) ->
  good_pager (pgr s) -> zlen data = pagesize (pgr s) -> Forall is_byte data -> plain_tree bt s ->
  counts_room (pgr s) (zlen (overflow_of rs)) -> col_rep c rowid l lo ->
  wp (cells_loop notify rec offs bt (Some (Page n (Some data) t)) c)
    (fun rc s' => rc = SQLITERK_OK /\ moved (overflow_of rs) (rows_told bt rs) s s') s.
Proof.
  intros c rowid l lo s Hcells. revert c rowid l lo s.
  induction Hcells as [|off r offs rs (Hid & Hok & (pre & post & Hpre & Hdata) & Hpa) Hcells IH];
    intros c rowid l lo s Hgeo Hg Hdl Hdb Hpt Hroom Hc; cbn [cells_loop].
  - apply wp_ret. split; [done|]. by apply quiet_moved, quiet_refl.
  - destruct Hc as (_ & (v & Hv & Hvl) & (o & Ho & Hol)).
    destruct (column_clear c v o l lo Hv Hvl Ho Hol) as (c1 & v1 & o1 & Hcl & Hv1 & Hvl1 & Ho1 & Hol1).
    eapply wp_bind_lift_res; [exact Hcl|]. eapply wp_bind_lift_res; [reflexivity|].
    pose proof (pa_size _ _ _ _ _ Hpa) as Hsz. unfold MAX_PAYLOAD in *.
    assert (Hu64 : u64 (zlen (row_payload r)) = zlen (row_payload r)) by (unfold u64; apply Z.mod_small; lia).
    eapply wp_bind_lift_res.
    { rewrite Hdata, <- Hpre, <- Hu64 at 1. apply parse_varint64_ok. lia. }
    rewrite Hu64. change (negb (SQLITERK_OK =? SQLITERK_OK)) with false. cbv beta iota.
    unfold MAX_PAYLOAD. rewrite (proj2 (Z.ltb_ge _ _)) by lia. cbv zeta.
    eapply wp_bind_lift_res.
    { rewrite <- Hpre, <- zlen_app, Hdata, app_assoc at 1. by apply parse_varint64_ok. }
    change (negb (SQLITERK_OK =? SQLITERK_OK)) with false. cbv beta iota.
    assert (Hs32 : s32 (zlen (row_payload r)) = zlen (row_payload r)).
    { unfold s32, wrap_s. rewrite Z.mod_small by lia. lia. }
    rewrite Hs32. apply wp_bind.
    unfold overflow_of in Hroom. cbn [mbind list_bind] in Hroom. rewrite zlen_app in Hroom.
    eapply wp_mono.
    { apply parse_payload_spec; [by eapply payload_at_geo|done..|eapply counts_less; [exact Hroom|]|].
      - fold (overflow_of rs). zlen_pos. lia.
      - split; [by rewrite get_set_rowid|]. split; [exists v1; by rewrite values_set_rowid|].
        exists o1. by rewrite overflow_set_rowid. }
    intros [rc c2] s1 (-> & (l2 & lo2 & Hc2) & Hm1). change (negb (SQLITERK_OK =? SQLITERK_OK)) with false. cbv beta iota.
    eapply wp_mono.
    { eapply IH; [|apply Hm1| |done|by eapply plain_tree_moved|eapply counts_moved; [exact Hm1|exact Hroom|apply zlen_nonneg]|exact Hc2].
      - by rewrite (mv_geo _ _ _ _ Hm1).
      - by rewrite (geo_pagesize _ _ (mv_geo _ _ _ _ Hm1)). }
    intros rc s2 [-> Hm2]. split; [done|]. exact (moved_trans _ _ _ _ s s1 s2 Hm1 Hm2).
Qed.

(** ** Pages *)

(** [k] numbers of two bytes. *)
Lemma read_ints_spec data start xs :
  Forall is_byte data -> 0 <= start -> start + 2 * zlen xs <= zlen data ->
  (forall i x, xs !! i = Some x -> be_val (slice (start + 2 * Z.of_nat i) 2 data) = x /\ x < 2 ^ 15) ->
  read_ints (length xs) data start 2 = Done xs.
Proof.
  intros Hb. revert start. induction xs as [|x xs IH]; intros start Hs Hl Hx; [done|].
  cbn [length read_ints]. rewrite zlen_cons in Hl. zlen_pos.
  destruct (Hx 0%nat x eq_refl) as [H1 H2]. change (2 * Z.of_nat 0) with 0 in H1. rewrite Z.add_0_r in H1.
  rewrite parse_int_be; [|auto|lia|lia|done|rewrite H1; done]. rewrite H1. cbn [res_bind].
  rewrite IH; [done|lia|lia|].
  intros i y Hy. destruct (Hx (S i) y Hy) as [H3 H4]. split; [|done].
  rewrite <- H3. do 2 f_equal. lia.
Qed.

(** The cell pointers of a page, behind a header of [skip] bytes. *)
Definition cells_at (p : sqliterk_pager) (n skip : Z) (offs : list Z) : Prop :=
  let hdr := sqliterkPagenoHeaderOffset n in
  be_val (slice (3 + hdr) 2 (page_of p n)) = zlen offs /\ zlen offs < 2 ^ 15 /\
  hdr + skip + 2 * zlen offs <= pagesize p /\
  (forall i o, offs !! i = Some o ->
     be_val (slice (hdr + skip + 2 * Z.of_nat i) 2 (page_of p n)) = o /\ o < 2 ^ 15).

(** A leaf of a table, with its rows. *)
Definition leaf_at (p : sqliterk_pager) (n : Z) (rs : list row) : Prop :=
  whole_page p n /\ page_type_byte d p n = sqliterk_page_type_leaf_table /\
  exists offs, cells_at p n 8 offs /\ Forall2 (cell_at p (page_of p n)) offs rs.

(** An inner page of a table other than page 1, with its children, the right-most one last. *)
Definition interior_at (p : sqliterk_pager) (n : Z) (kids : list Z) : Prop :=
  n <> 1 /\ whole_page p n /\ page_type_byte d p n = sqliterk_page_type_interior_table /\
  exists offs ks right, cells_at p n 12 offs /\ kids = ks ++ [right] /\
    Forall2 (fun o k => 0 <= o /\ o + 4 <= pagesize p /\ be_val (slice o 4 (page_of p n)) = k /\ k < 2 ^ 31) offs ks /\
    be_val (slice 8 4 (page_of p n)) = right /\ right < 2 ^ 31.

Lemma children_of_spec data offs ks :
  Forall is_byte data ->
  Forall2 (fun o k => 0 <= o /\ o + 4 <= zlen data /\ be_val (slice o 4 data) = k /\ k < 2 ^ 31) offs ks ->
  children_of offs data = Done ks.
Proof.
  intros Hb. induction 1 as [|o k offs ks (H1 & H2 & H3 & H4) Hk IH]; [done|]. cbn [children_of].
  rewrite parse_int_be; [|auto|lia|lia|done|rewrite H3; done]. rewrite H3. cbn [res_bind]. by rewrite IH.
Qed.

(** Up to the cell pointers a page of a table is treated alike. *)
Lemma page_content_cells E rec bt n offs type (s : rkst) Q :
  (type = sqliterk_page_type_leaf_table \/ type = sqliterk_page_type_interior_table) ->
  good_pager (pgr s) -> whole_page (pgr s) n -> page_type_byte d (pgr s) n = type ->
  cells_at (pgr s) n (if type =? sqliterk_page_type_interior_table then 12 else 8) offs ->
  (forall s', quiet s s' ->
     pwp E (if (type =? sqliterk_page_type_interior_table) || (type =? sqliterk_page_type_interior_index) then
            let hasRightMost := type =? sqliterk_page_type_interior_table in
            let! blk := rk_malloc (4 * (zlen offs + (if hasRightMost then 1 else 0) + 1)) in
            match blk with
            | None => ret SQLITERK_NOMEM
            | Some _ =>
              let! pagenos := lift_res (children_of offs (page_of (pgr s) n)) in
              let! rightmost := lift_res (if hasRightMost
                                      then let? v := sqliterkParseInt (page_of (pgr s) n) 8 4 in Done [v]
                                      else Done []) in
              parse_children rec (pagenos ++ rightmost) bt ;;;
              ret SQLITERK_OK
            end
          else if type =? sqliterk_page_type_leaf_table then
            if sqliterkBtreeIsSystemType (b_type bt) && negb (b_type bt =? sqliterk_btree_type_master)
            then ret SQLITERK_OK
            else sqliterkBtreeParseCell notify rec bt (Some (Page n (Some (page_of (pgr s) n)) type)) offs
          else ret SQLITERK_OK) Q s') ->
  pwp E (parse_page_content notify rec bt n) Q s.
Proof.
  intros Ht Hg Hw Hty (Hcnt & Hmax & Hfit & Hptr) HQ.
  pose proof (zlen_page d _ _ Hg Hw) as Hpl. pose proof Hg as [_ Hps _ _ _].
  assert (Hh0 : 0 <= sqliterkPagenoHeaderOffset n) by (unfold sqliterkPagenoHeaderOffset; destruct (n =? 1); lia).
  assert (Hkt : known_type type = type) by (by destruct Ht as [-> | ->]).
  unfold parse_page_content. apply pwp_bind, wp_pwp. unfold in_pager at 1. apply wp_zoom.
  apply acquire_one_spec with (d := d); auto.
  { intros _. change (pg (pst s)) with (pgr s). rewrite Hty. by destruct Ht as [-> | ->]. }
  change (sqliterk_page_type_unknown =? sqliterk_page_type_unknown) with true. cbv beta iota.
  change (pg (pst s)) with (pgr s). rewrite Hty, Hkt.
  change (negb (SQLITERK_OK =? SQLITERK_OK)) with false. cbv beta iota zeta. cbn [sqliterkPageGetType p_type].
  set (s1 := RkState _ _ _). assert (Hq1 : quiet s s1) by done.
  replace (negb (type =? sqliterk_page_type_interior_index) && negb (type =? sqliterk_page_type_interior_table) &&
           negb (type =? sqliterk_page_type_leaf_index) && negb (type =? sqliterk_page_type_leaf_table))
    with false by (by destruct Ht as [-> | ->]).
  eapply pwp_bind_lift_res; [reflexivity|].
  zlen_pos. cbn [sqliterkPageHeaderOffset p_pageno].
  set (skip := if type =? sqliterk_page_type_interior_table then 12 else 8) in *.
  assert (Hskip : 8 <= skip <= 12) by (unfold skip; destruct (type =? _); lia).
  eapply pwp_bind_lift_res.
  { rewrite parse_int_be; [reflexivity|auto|lia|lia|by apply Forall_slice|rewrite Hcnt; exact Hmax]. }
  rewrite Hcnt. apply pwp_bind_gets. unfold sqliterkPagerGetSize.
  change (pagesize (pg (pst s1))) with (pagesize (pgr s)).
  rewrite (proj2 (Z.ltb_ge (zlen offs) 0)), (proj2 (Z.ltb_ge _ _)) by lia. cbn [orb].
  apply pwp_rk_malloc; [lia|]. intros s2 Hq2.
  eapply pwp_bind_lift_res.
  { rewrite to_nat_zlen. apply read_ints_spec; [by apply Forall_slice|lia|lia|done]. }
  apply HQ. by eapply quiet_trans.
Qed.

Lemma leaf_content_spec rec bt n rs (s : rkst) :
  leaf_at (pgr s) n rs -> good_pager (pgr s) -> plain_tree bt s ->
  counts_room (pgr s) (zlen (overflow_of rs)) ->
  wp (parse_page_content notify rec bt n)
    (fun rc s' => rc = SQLITERK_OK /\ moved (overflow_of rs) (rows_told bt rs) s s') s.
Proof.
  intros (Hw & Hty & offs & Hcells & Hrows) Hg Hpt Hroom.
  apply pwp_wp, (page_content_cells _ rec bt n offs sqliterk_page_type_leaf_table); [by left|done|done|exact Hty|exact Hcells|].
  intros s1 Hq. apply wp_pwp. pose proof Hq as (Hq1 & Hq2 & _). change (pg (pst s1) = pg (pst s)) with (pgr s1 = pgr s) in Hq1.
  cbn [Z.eqb Pos.eqb orb sqliterk_page_type_leaf_table sqliterk_page_type_interior_table sqliterk_page_type_interior_index].
  assert (Hm1 : moved [] [] s s1) by (by apply quiet_moved).
  pose proof (plain_tree_moved _ _ _ _ _ Hpt Hm1) as Hpt1. pose proof Hpt1 as (_ & _ & -> & _).
  unfold sqliterkBtreeParseCell. apply wp_bind. unfold rk_mem, in_pager. apply wp_zoom, wp_zoom.
  eapply wp_mono; [by apply column_alloc|]. intros [rc c] k (-> & c' & v & o & -> & Hv & Hvl & Ho & Hol).
  change (negb (SQLITERK_OK =? SQLITERK_OK)) with false. cbv beta iota.
  set (s2 := RkState _ _ _). assert (Hm2 : moved [] [] s s2).
  { apply quiet_moved; [done|]. eapply quiet_trans; [exact Hq|done]. }
  assert (Hp2 : pgr s2 = pgr s) by (unfold s2, pgr; simpl; exact Hq1).
  eapply wp_mono.
  { apply (cells_loop_spec rec bt n _ (page_of (pgr s) n) (pgr s) offs rs c' (sqliterkColumnGetRowId c') [] [] s2);
      rewrite ?Hp2; [done|done|done|by apply zlen_page|by apply Forall_slice| |done|].
    - exact (plain_tree_moved _ _ _ _ _ Hpt Hm2).
    - split; [done|]. split; eauto. }
  intros rc s3 [-> Hm3]. split; [done|]. exact (moved_trans [] _ [] _ s s2 s3 Hm2 Hm3).
Qed.

(** ** Trees *)

Lemma moved_perm ps ps' rs s s' : ps ≡ₚ ps' -> moved ps rs s s' -> moved ps' rs s s'.
Proof.
  intros Hp [H1 H2 H3 H4 H5 H6]. split; auto.
  - intros q Hq. rewrite H3 by done. by rewrite (bool_decide_ext (q ∈ ps) (q ∈ ps')) by (by rewrite Hp).
  - unfold zlen in *. by rewrite <- Hp.
Qed.

(** Not in the middle of being walked. *)
Definition idle (p : sqliterk_pager) (q : Z) : Prop := valid_page p q /\ status_at p q <> sqliterk_status_checking.

Lemma idle_moved ps rs s s' q : moved ps rs s s' -> idle (pgr s) q -> idle (pgr s') q.
Proof.
  intros Hm [Hv Hs]. split; [eapply valid_geo; [apply Hm|done]|]. rewrite (mv_status _ _ _ _ Hm) by done. by case_match.
Qed.

(** A page is marked while its contents are walked, and checked afterwards. *)
Lemma parse_page_spec rec bt n ps rs (s : rkst) :
  good_pager (pgr s) -> idle (pgr s) n -> b_notify bt = true -> counts_room (pgr s) (zlen ps + 1) ->
  wp (parse_page_content notify rec bt n) (fun rc s' => rc = SQLITERK_OK /\
        moved ps rs (in_pages (with_status n sqliterk_status_checking (pgr s)) s) s')
     (in_pages (with_status n sqliterk_status_checking (pgr s)) s) ->
  wp (parse_page notify rec bt n) (fun rc s' => rc = SQLITERK_OK /\ moved (n :: ps) rs s s') s.
Proof.
  intros Hg [Hv Hidle] Hn Hroom Hcontent. unfold parse_page. zlen_pos.
  apply wp_bind_gets. unfold sqliterkPagerGetPageCount.
  rewrite (proj2 (Z.ltb_ge _ _)) by (change (pg (pst s)) with (pgr s); unfold valid_page in Hv; lia).
  rewrite Hn. apply wp_bind, begin_page_spec; [done|done|eapply counts_less; [exact Hroom|lia]|].
  rewrite (proj2 (Z.eqb_neq _ _)) by done. change (negb (SQLITERK_OK =? SQLITERK_OK)) with false. cbv iota.
  apply wp_bind. eapply wp_mono; [exact Hcontent|]. intros rc s2 [-> Hm].
  pose proof Hm as [Hgeo Hg2 Hst [Hc2 Hd2] Hr2 (evs & Hh2 & Hrows)].
  set (s1 := in_pages _ s) in *.
  assert (Hgeo2 : geo (pgr s2) = geo (pgr s)) by (rewrite Hgeo; done).
  apply wp_bind, end_page_spec; [done|by eapply valid_geo| |].
  { unfold counts_room in *. rewrite Hc2, Hd2. cbn. lia. }
  apply wp_ret. split; [done|]. split.
  - done.
  - by apply good_with_status.
  - intros q Hq. cbn [pgr pst pg]. rewrite status_at_with by (done || by eapply valid_geo).
    rewrite Hst by done. unfold s1, in_pages. cbn [pgr pst pg]. rewrite status_at_with by done.
    rewrite (bool_decide_ext (q ∈ n :: ps) (q = n \/ q ∈ ps)) by (apply elem_of_cons).
    destruct (q =? n) eqn:E; [rewrite bool_decide_eq_true_2 by (left; lia); done|].
    rewrite (bool_decide_ext (q = n \/ q ∈ ps) (q ∈ ps)); [done|]. split; [intros [->|]; [lia|done]|by right].
  - cbn [pgr pst pg]. rewrite zlen_cons. unfold with_status. cbn [checkedPageCount damagedPageCount].
    rewrite Hc2, Hd2. cbn. split; [lia|done].
  - cbn [recursive]. by rewrite Hr2.
  - exists (evs ++ page_told n). cbn [heard]. rewrite Hh2, rev_app_distr. split.
    + unfold page_told. destruct (didParsePage notify); done.
    + unfold rows_of. rewrite omap_app. unfold page_told. destruct (didParsePage notify); simpl; by rewrite app_nil_r.
Qed.

(** What is stored below a page: the pages of the tree, the overflow pages, the rows in order.
    All leaves have the same depth. *)
Record subtree := Subtree { t_root : Z; t_pages : list Z; t_overflow : list Z; t_rows : list row }.

Fixpoint stored (h : nat) (p : sqliterk_pager) (t : subtree) : Prop :=
  match h with
  | O => leaf_at p (t_root t) (t_rows t) /\ t_pages t = [t_root t] /\ t_overflow t = overflow_of (t_rows t)
  | S h => exists kids : list subtree,
      interior_at p (t_root t) (map t_root kids) /\ Forall (stored h p) kids /\
      t_pages t = t_root t :: (kids ≫= t_pages) /\ t_overflow t = (kids ≫= t_overflow) /\
      t_rows t = (kids ≫= t_rows)
  end.

(** Ready to walk a tree. *)
Definition ready (p : sqliterk_pager) (bt : sqliterk_btree) (t : subtree) (s : rkst) : Prop :=
  geo p = geo (pgr s) /\ good_pager (pgr s) /\ plain_tree bt s /\ Forall (idle (pgr s)) (t_pages t) /\
  counts_room (pgr s) (zlen (t_pages t) + zlen (t_overflow t)).

(** The tree was walked. *)
Definition walked (bt : sqliterk_btree) (t : subtree) (s s' : rkst) : Prop :=
  moved (t_pages t ++ t_overflow t) (rows_told bt (t_rows t)) s s'.

Definition joined (kids : list subtree) : subtree :=
  Subtree 0 (kids ≫= t_pages) (kids ≫= t_overflow) (kids ≫= t_rows).

Lemma joined_perm (k : subtree) kids :
  (t_pages k ++ t_overflow k) ++ (t_pages (joined kids) ++ t_overflow (joined kids))
  ≡ₚ t_pages (joined (k :: kids)) ++ t_overflow (joined (k :: kids)).
Proof. simpl. solve_Permutation. Qed.

Lemma parse_children_spec rec bt p kids : forall s : rkst,
  Forall (fun k => forall s : rkst, ready p bt k s ->
            wp (rec bt (t_root k)) (fun rc s' => rc = SQLITERK_OK /\ walked bt k s s') s) kids ->
  ready p bt (joined kids) s ->
  wp (parse_children rec (map t_root kids) bt) (fun _ s' => walked bt (joined kids) s s') s.
Proof.
  induction kids as [|k kids IH]; intros s Hrec (Hgeo & Hg & Hpt & Hidle & Hroom); cbn [parse_children map].
  - apply wp_ret. by apply quiet_moved, quiet_refl.
  - apply Forall_cons in Hrec as [Hk Hrec]. cbn [joined t_pages t_overflow mbind list_bind] in *.
    apply Forall_app in Hidle as [Hid1 Hid2]. rewrite !zlen_app in Hroom.
    fold (kids ≫= t_pages) (kids ≫= t_overflow) in *. zlen_pos.
    apply wp_bind. eapply wp_mono.
    { apply Hk. split; [done|]. split; [done|]. split; [done|]. split; [done|].
      eapply counts_less; [exact Hroom|]. zlen_pos. lia. }
    intros rc s1 [-> Hw]. change (SQLITERK_OK =? SQLITERK_CANCELLED) with false. cbv iota.
    eapply wp_mono.
    { apply IH; [done|]. split; [by rewrite (mv_geo _ _ _ _ Hw)|]. split; [apply Hw|].
      split; [by eapply plain_tree_moved|]. split.
      - eapply Forall_impl; [exact Hid2|]. intros q. by apply (idle_moved _ _ _ _ _ Hw).
      - eapply counts_moved; [exact Hw|eapply counts_less; [exact Hroom|rewrite zlen_app; simpl; zlen_pos; lia]|simpl; zlen_pos; lia]. }
    intros [] s2 Hw2. unfold walked in *.
    eapply moved_perm; [apply joined_perm|].
    replace (rows_told bt (t_rows (joined (k :: kids)))) with (rows_told bt (t_rows k) ++ rows_told bt (t_rows (joined kids)))
      by (unfold rows_told; simpl; by rewrite map_app).
    exact (moved_trans _ _ _ _ s s1 s2 Hw Hw2).
Qed.

Section same_geometry.
Context (p p' : sqliterk_pager) (same : geo p = geo p').

Lemma cells_at_geo n skip offs : cells_at p n skip offs -> cells_at p' n skip offs.
Proof. unfold cells_at. by rewrite (page_of_geo p p' n same), (geo_pagesize p' p same). Qed.

Lemma type_byte_geo n : page_type_byte d p n = page_type_byte d p' n.
Proof. unfold page_type_byte. by rewrite (page_of_geo p p' n same). Qed.

Lemma leaf_at_geo n rs : leaf_at p n rs -> leaf_at p' n rs.
Proof.
  intros (Hw & Ht & offs & Hc & Hr). split; [by eapply whole_geo|]. split; [by rewrite <- type_byte_geo|].
  exists offs. split; [by apply cells_at_geo|]. rewrite <- (page_of_geo p p' n same).
  eapply Forall2_impl; [exact Hr|]. intros o r (H1 & H2 & H3 & H4). split; [done|]. split; [done|]. split; [done|].
  by eapply payload_at_geo.
Qed.

Lemma interior_at_geo n kids : interior_at p n kids -> interior_at p' n kids.
Proof.
  intros (Hn & Hw & Ht & offs & ks & right & Hc & Hk & Ho & Hr & Hm). split; [done|]. split; [by eapply whole_geo|].
  split; [by rewrite <- type_byte_geo|]. exists offs, ks, right. rewrite <- (page_of_geo p p' n same).
  split; [by apply cells_at_geo|]. rewrite <- (geo_pagesize p' p same). done.
Qed.
End same_geometry.

Lemma interior_content_spec rec bt n p kids (s : rkst) :
  interior_at (pgr s) n (map t_root kids) -> geo p = geo (pgr s) -> good_pager (pgr s) ->
  Forall (fun k => forall s : rkst, ready p bt k s ->
            wp (rec bt (t_root k)) (fun rc s' => rc = SQLITERK_OK /\ walked bt k s s') s) kids ->
  ready p bt (joined kids) s ->
  wp (parse_page_content notify rec bt n)
    (fun rc s' => rc = SQLITERK_OK /\ walked bt (joined kids) s s') s.
Proof.
  intros (Hn1 & Hw & Hty & offs & ks & right & Hcells & Hkids & Hptr & Hright & Hrm) Hgeo Hg Hrec Hready.
  apply pwp_wp, (page_content_cells _ rec bt n offs sqliterk_page_type_interior_table); [by right|done|done|exact Hty|exact Hcells|].
  intros s1 Hq1. apply wp_pwp. cbn [Z.eqb Pos.eqb orb sqliterk_page_type_interior_table]. cbv zeta. cbv iota.
  pose proof (zlen_page d _ _ Hg Hw) as Hpl. pose proof Hg as [_ Hps _ _ _].
  destruct Hcells as (_ & Hmax & _). zlen_pos.
  apply wp_rk_malloc; [lia|]. intros s2 Hq2.
  eapply wp_bind_lift_res.
  { apply children_of_spec; [by apply Forall_slice|]. rewrite Hpl. exact Hptr. }
  eapply wp_bind_lift_res.
  { rewrite parse_int_be; [|auto|lia|lia|by apply Forall_slice|rewrite Hright; exact Hrm]. reflexivity. }
  rewrite Hright, <- Hkids.
  assert (Hm : moved [] [] s s2) by (apply quiet_moved; [done|by eapply quiet_trans]).
  apply wp_bind. eapply wp_mono.
  { apply (parse_children_spec rec bt p); [done|]. destruct Hready as (H1 & H2 & H3 & H4 & H5).
    split; [by rewrite (mv_geo _ _ _ _ Hm)|]. split; [apply Hm|]. split; [by eapply plain_tree_moved|]. split.
    - eapply Forall_impl; [exact H4|]. intros q. by apply (idle_moved _ _ _ _ _ Hm).
    - eapply counts_moved; [exact Hm|exact H5|zlen_pos; lia]. }
  intros [] s3 Hw3. apply wp_ret. split; [done|]. exact (moved_trans [] _ [] _ s s2 s3 Hm Hw3).
Qed.

(** The state in which the contents of a page are walked. *)
Lemma ready_marked p bt t n (s : rkst) :
  ready p bt t s -> valid_page (pgr s) n -> (n ∉ t_pages t) ->
  ready p bt t (in_pages (with_status n sqliterk_status_checking (pgr s)) s).
Proof.
  intros (H1 & H2 & (P1 & P2 & P3 & P4) & H4 & H5) Hv Hn. split; [done|]. split; [by apply good_with_status|].
  split; [by split|]. split; [|done]. apply Forall_forall. intros q Hq. rewrite Forall_forall in H4.
  destruct (H4 q Hq) as [Hqv Hqs]. split; [done|]. cbn [in_pages pgr pst pg].
  rewrite status_at_with by done. destruct (q =? n) eqn:E; [|done].
  assert (q = n) as -> by lia. done.
Qed.

Lemma tree_spec h : forall p bt t (s : rkst) depth,
  stored h p t -> NoDup (t_pages t) -> ready p bt t s -> (h < depth)%nat ->
  wp (sqliterkBtreeParsePage notify depth bt (t_root t)) (fun rc s' => rc = SQLITERK_OK /\ walked bt t s s') s.
Proof.
  induction h as [|h IH]; intros p bt t s depth Hst Hnd Hready Hdep; destruct depth as [|depth]; try lia;
    cbn [sqliterkBtreeParsePage]; pose proof Hready as (Hgeo & Hg & Hpt & Hidle & Hroom); pose proof Hpt as (Hn & _).
  - destruct Hst as (Hleaf & Hpages & Hov). unfold walked. rewrite Hpages in *. cbn [app].
    apply Forall_cons in Hidle as [Hid _]. pose proof Hid as [Hv _]. rewrite zlen_cons, zlen_nil in Hroom.
    apply parse_page_spec; [done|done|done|eapply counts_less; [exact Hroom|lia]|].
    destruct Hpt as (P1 & P2 & P3 & P4). rewrite Hov in *.
    apply leaf_content_spec; [by apply (leaf_at_geo p)|by apply good_with_status|by split| ].
    eapply counts_less; [exact Hroom|lia].
  - destruct Hst as (kids & Hint & Hkids & Hpages & Hov & Hrows).
    unfold walked. rewrite Hpages, Hov, Hrows in *. cbn [app].
    apply Forall_cons in Hidle as [Hid Hidk]. pose proof Hid as [Hv _]. rewrite zlen_cons in Hroom.
    apply NoDup_cons in Hnd as [Hnin Hnd].
    assert (Hrk : ready p bt (joined kids) s).
    { split; [done|]. split; [done|]. split; [done|]. split; [done|]. eapply counts_less; [exact Hroom|simpl; lia]. }
    apply (parse_page_spec _ bt (t_root t) (t_pages (joined kids) ++ t_overflow (joined kids))); [done|done|done| |].
    { eapply counts_less; [exact Hroom|]. rewrite zlen_app. simpl. lia. }
    apply (interior_content_spec _ bt (t_root t) p kids); [by apply (interior_at_geo p)|done|by apply good_with_status| |by apply ready_marked].
    clear Hrk Hint Hidk Hroom Hnin Hready Hgeo Hg Hpt Hpages Hov Hrows Hid Hv. 
    induction Hkids as [|k kids Hk Hkids IHk]; [constructor|]. cbn [mbind list_bind] in Hnd.
    apply NoDup_app in Hnd as (Hnd1 & _ & Hnd2). constructor; [|by apply IHk].
    intros s0 Hr0. apply (IH p); [done|done|done|lia].
Qed.
End walk.
