(* ===== verification/RkProps.v ===== *)
(** * The repair kit: theorems on walks

    What a walk from the root of a table hands to the user, how the walk can fail to end,
    and, on a small file, rows that are missed or made up. *)

From stdpp Require Import sets.
From S2P Require Import Prelude CLib Varint Values ValuesFacts Pager PagerFacts Btree BtreeFacts.

(** The types of system tables are those from [sequence] to [master]. *)
Class BtreeTypesLaws (B : SqliterkBtreeTypes) : Prop := {
  system_begin : sqliterk_btree_type_system_begin = sqliterk_btree_type_sequence;
  system_end : sqliterk_btree_type_system_end = sqliterk_btree_type_master + 1
}.

Section driver.
Context `{Al : SqliterkAlloc} `{AL : !SqliterkAllocLaws Al} `{Fi : SqliterkFile} `{Co : SqliterkCodec}.
Context `{Ut : SqliterkUtil} `{UL : !UtilLaws Ut} `{Cl : SqliterkColumn} `{CL : !ColumnLaws Cl}.
Context `{Bt : SqliterkBtreeTypes} `{BL : !BtreeTypesLaws Bt} `{Af : CAtof} (memory : ~ refused).
Context (d : list Z) `{FL : !FileLaws Fi d} (bytes : Forall is_byte d).
Context (notify : sqliterk_notify) (answer : list rk_event -> Z).
Context (asked : onParseColumn notify = Some answer).

(** A tree that is to be taken for an ordinary table keeps its type. *)
Definition plain_meta (meta : list Z * Z) : Prop :=
  exists n, meta = (n ++ [0], sqliterk_btree_type_table) /\ (0 ∉ n) /\ zlen n < 2 ^ 31 /\
    system_type_of (Z.to_nat (sqliterk_btree_type_system_end - sqliterk_btree_type_system_begin))
      sqliterk_btree_type_system_begin n = None.

Context (begins : forall begun h meta, onBeginParseTable notify = Some begun -> begun h = Some meta -> plain_meta meta).

Abbreviation rkst := (@rkstate Co Cl).

Lemma local_limit_ok u f :
  256 <= u < 2 ^ 16 -> 0 < f <= 64 -> local_limit u f = Done ((u - 12) * f / 255 - 23).
Proof.
  intros Hu Hf. unfold local_limit. rewrite chk_int_ok by nia. cbn [res_bind].
  by rewrite Z.quot_div_nonneg by nia.
Qed.

(** The tree a root page gives. *)
Definition opened_tree (u n : Z) (bt : sqliterk_btree) : Prop :=
  b_type bt = (if n =? 1 then sqliterk_btree_type_master else sqliterk_btree_type_table) /\
  sqliterkPageGetPageno (b_rootpage bt) = n /\ b_rootpage bt <> None /\
  limits_ok bt u /\ b_notify bt = false.

Lemma set_meta_master bt (s : rkst) :
  wp (sqliterkBtreeSetMeta bt (Some (str "sqlite_master" ++ [0])) sqliterk_btree_type_master)
    (fun '(rc, bt') s' => rc = SQLITERK_OK /\ b_type bt' = sqliterk_btree_type_master /\
       b_rootpage bt' = b_rootpage bt /\ b_notify bt' = b_notify bt /\ quiet s s') s.
Proof.
  unfold sqliterkBtreeSetMeta. cbv zeta.
  eapply wp_bind_lift_res; [reflexivity|].
  apply wp_rk_malloc; [done|done|]. intros s1 Hq.
  eapply wp_bind_lift_res; [reflexivity|]. eapply wp_bind_lift_res; [reflexivity|].
  rewrite system_begin, system_end. unfold sqliterkBtreeIsSystemType. rewrite system_begin, system_end.
  by apply wp_ret.
Qed.

Lemma btree_open_spec n (s : rkst) :
  good_pager (pgr s) -> whole_page d (pgr s) n ->
  page_type_byte d (pgr s) n = sqliterk_page_type_leaf_table \/
  page_type_byte d (pgr s) n = sqliterk_page_type_interior_table ->
  wp (sqliterkBtreeOpen n)
    (fun '(rc, b) s' => rc = SQLITERK_OK /\ quiet s s' /\
       exists bt, b = Some bt /\ opened_tree (usableSize (pgr s)) n bt) s.
Proof.
  intros Hg Hw Ht. pose proof Hg as [_ Hps Hus _ _]. unfold sqliterkBtreeOpen.
  apply wp_rk_malloc; [done|done|]. intros s1 Hq1. pose proof Hq1 as (Hp1 & _ & _).
  change (pg (pst s1) = pg (pst s)) with (pgr s1 = pgr s) in Hp1.
  eapply wp_bind_lift_res; [vm_compute; reflexivity|].
  apply wp_bind. unfold in_pager at 1. apply wp_zoom.
  apply acquire_one_spec with (d := d); try done; change (pg (pst s1)) with (pgr s1); rewrite ?Hp1; try done.
  { intros _. by destruct Ht as [-> | ->]. }
  change (sqliterk_page_type_unknown =? sqliterk_page_type_unknown) with true.
  change (negb (SQLITERK_OK =? SQLITERK_OK)) with false. cbv beta iota zeta.
  set (s2 := RkState _ _ _).
  assert (Hq2 : quiet s s2) by (eapply quiet_trans; [exact Hq1|done]).
  set (bt0 := set_b_rootpage _ _).
  apply wp_bind.
  assert (Hty : wp (if n =? 1
      then sqliterkBtreeSetMeta bt0 (Some (str "sqlite_master" ++ [0])) sqliterk_btree_type_master
      else
        let t := sqliterkPageGetType (Some (Page n (Some (page_of d (pgr s) n)) (known_type (page_type_byte d (pgr s) n)))) in
        if (t =? sqliterk_page_type_interior_index) || (t =? sqliterk_page_type_leaf_index)
        then ret (SQLITERK_OK, set_b_type sqliterk_btree_type_index bt0)
        else if (t =? sqliterk_page_type_interior_table) || (t =? sqliterk_page_type_leaf_table)
        then ret (SQLITERK_OK, set_b_type sqliterk_btree_type_table bt0)
        else ret (SQLITERK_DAMAGED, bt0))
    (fun '(rc, bt) s' => rc = SQLITERK_OK /\
       b_type bt = (if n =? 1 then sqliterk_btree_type_master else sqliterk_btree_type_table) /\
       b_rootpage bt = b_rootpage bt0 /\ b_notify bt = b_notify bt0 /\ quiet s2 s') s2).
  { destruct (n =? 1); [apply set_meta_master|]. cbn [sqliterkPageGetType p_type].
    by destruct Ht as [-> | ->]; apply wp_ret. }
  eapply wp_mono; [exact Hty|]. intros [rc bt] s3 (-> & Hbt & Hroot & Hnot & Hq3).
  change (negb (SQLITERK_OK =? SQLITERK_OK)) with false. cbv iota.
  assert (Hq : quiet s s3) by (by eapply quiet_trans). pose proof Hq as (Hp3 & _ & _).
  apply wp_bind_gets. change (pg (pst s3)) with (pgr s3). change (pg (pst s3) = pg (pst s)) with (pgr s3 = pgr s) in Hp3.
  rewrite Hp3. unfold sqliterkPagerGetUsableSize.
  eapply wp_bind_lift_res; [apply local_limit_ok; lia|]. eapply wp_bind_lift_res; [apply local_limit_ok; lia|].
  apply wp_ret. split; [done|]. split; [done|]. eexists. split; [done|].
  split; [done|]. cbn [b_rootpage b_notify b_maxLeaf b_minLocal]. rewrite Hroot, Hnot. done.
Qed.

(** Hearing about a tree changes nothing else. *)
Lemma moved_tell e (s : rkst) :
  good_pager (pgr s) -> rows_of [e] = [] -> moved [] [] s (RkState (pst s) (recursive s) (e :: heard s)).
Proof.
  intros Hg He. split; [done|done|done| |done|].
  - rewrite zlen_nil, Z.add_0_r. done.
  - exists [e]. split; [done|]. rewrite He. constructor.
Qed.

Lemma set_meta_table bt n (s : rkst) :
  plain_meta (n, sqliterk_btree_type_table) ->
  b_type bt = sqliterk_btree_type_master \/ b_type bt = sqliterk_btree_type_table ->
  wp (sqliterkBtreeSetMeta bt (Some n) sqliterk_btree_type_table)
    (fun '(rc, bt') s' => quiet s s' /\ exists name, bt' = set_b_name name bt) s.
Proof.
  intros (n' & [= ->] & H0 & Hmax & Hsys) Hty. unfold sqliterkBtreeSetMeta. cbv zeta. zlen_pos.
  eapply wp_bind_lift_res; [by apply strlen_app_nul|].
  apply wp_rk_malloc; [done|lia|]. intros s1 Hq. rewrite cstr_app_nul by done.
  assert (Hz : zwrite_n (zeros (zlen n' + 1)) 0 n' = Done (n' ++ [0])).
  { unfold zwrite_n, in_range. rewrite zlen_zeros by lia.
    rewrite !(proj2 (Z.leb_le _ _)) by lia. cbn [andb]. f_equal. change (Z.to_nat 0) with 0%nat. rewrite take_0. cbn [app Nat.add]. f_equal. unfold zeros, zlen.
    replace (Z.to_nat (Z.of_nat (length n') + 1)) with (length n' + 1)%nat by lia.
    rewrite replicate_add. by rewrite drop_app_length' by (by rewrite length_replicate). }
  eapply wp_bind_lift_res; [exact Hz|]. eapply wp_bind_lift_res.
  { unfold string_at. rewrite strlen_app_nul by done. cbn [res_bind].
    instantiate (1 := n'). f_equal. apply take_app_length'. unfold zlen. lia. }
  rewrite Hsys. cbn [set_b_name b_type].
  destruct Hty as [Hty|Hty]; rewrite Hty; unfold sqliterkBtreeIsSystemType; rewrite system_begin, system_end; cbn -[Z.sub];
    apply wp_ret; (split; [done|]); eexists; [done|].
  by destruct bt; cbn in *; subst.
Qed.

(** Hearing of a tree changes nothing but its name. *)
Lemma begin_btree_spec bt (s : rkst) :
  good_pager (pgr s) ->
  b_type bt = sqliterk_btree_type_master \/ b_type bt = sqliterk_btree_type_table ->
  wp (sqliterkNotify_onBeginParseBtree notify bt)
    (fun bt' s' => moved [] [] s s' /\ (bt' = bt \/ exists name, bt' = set_b_name name bt)) s.
Proof.
  intros Hg Hty. unfold sqliterkNotify_onBeginParseBtree. destruct (onBeginParseTable notify) as [f|] eqn:E.
  2: { apply wp_ret. split; [by apply quiet_moved, quiet_refl|by left]. }
  apply wp_bind_modify, wp_bind_gets. cbn [heard]. pose proof (moved_tell (EvBeginTable bt) s Hg eq_refl) as Hm.
  destruct (f _) as [[name type]|] eqn:Ef.
  - pose proof (begins _ _ _ eq_refl Ef) as Hp. assert (type = sqliterk_btree_type_table) as ->.
    { by destruct Hp as (? & [= _ ->] & _). }
    apply wp_bind. eapply wp_mono; [by apply set_meta_table|]. intros [rc bt'] s' (Hq & Hn).
    apply wp_ret. split; [|by right]. eapply (moved_trans [] [] [] []); [exact Hm|].
    by apply quiet_moved; [apply Hm|].
  - apply wp_ret. split; [done|by left].
Qed.

Lemma parse_btree_spec h depth bt t p (s : rkst) :
  opened_tree (usableSize (pgr s)) (t_root t) bt -> (t_root t = 1 -> recursive s = false) ->
  stored d h p t -> NoDup (t_pages t) -> geo p = geo (pgr s) -> good_pager (pgr s) ->
  Forall (idle (pgr s)) (t_pages t) -> counts_room (pgr s) (zlen (t_pages t) + zlen (t_overflow t)) ->
  (h < depth)%nat ->
  (forall bt c h, b_type bt = (if t_root t =? 1 then sqliterk_btree_type_master else sqliterk_btree_type_table) ->
     answer (EvColumn bt c :: h) = SQLITERK_OK) ->
  wp (sqliterkParseBtree notify (sqliterkBtreeParsePage notify depth) bt)
    (fun rc s' => rc = SQLITERK_OK /\ exists bt', b_type bt' = b_type bt /\ b_rootpage bt' = b_rootpage bt /\
       moved (t_pages t ++ t_overflow t) (rows_told bt' (t_rows t)) s s') s.
Proof.
  intros (Hty & Hroot & Hne & Hlim & Hnot) Hrec Hst Hnd Hgeo Hg Hidle Hroom Hdep Hacc.
  assert (Hv : valid_page (pgr s) (t_root t)).
  { assert (Hin : t_root t ∈ t_pages t).
    { destruct h; [destruct Hst as (_ & -> & _)|destruct Hst as (kids & _ & _ & -> & _)]; apply elem_of_cons; by left. }
    rewrite Forall_forall in Hidle. by apply Hidle. }
  unfold sqliterkParseBtree. apply wp_bind_gets. rewrite Hroot. change (pg (pst s)) with (pgr s).
  rewrite is_valid_ok by done. rewrite bool_decide_eq_false_2 by done.
  change (false || negb (SQLITERK_OK =? SQLITERK_OK)) with false. cbv iota.
  unfold sqliterkBtreeParse. change (b_notify (sqliterkBtreeSetNotify bt)) with true. cbv iota.
  apply wp_bind. eapply wp_mono.
  { apply begin_btree_spec; [done|]. change (b_type (sqliterkBtreeSetNotify bt)) with (b_type bt). rewrite Hty.
    destruct (t_root t =? 1); auto. }
  intros bt' s1 [Hm1 Hbt'].
  assert (b_notify bt' = true /\ b_type bt' = b_type bt /\ b_rootpage bt' = b_rootpage bt /\ limits_ok bt' (usableSize (pgr s)))
    as (Hn' & Hty' & Hroot' & Hlim') by (by destruct Hbt' as [->|[name ->]]).
  rewrite Hroot', Hroot. apply wp_bind. eapply wp_mono.
  { apply (tree_spec memory d bytes notify answer asked h p bt' t s1); [done|done| |done].
    split; [by rewrite (mv_geo _ _ _ _ Hm1)|]. split; [apply Hm1|]. split; [|split].
    - split; [done|]. rewrite (mv_recursive _ _ _ _ Hm1), (geo_usable _ _ (mv_geo _ _ _ _ Hm1)).
      rewrite Hty', Hty. unfold sqliterkBtreeIsSystemType. rewrite system_begin, system_end.
      split; [|split; [by destruct (t_root t =? 1)|split; [done|]]].
      + destruct (t_root t =? 1) eqn:E; [|done]. rewrite Hrec by lia. done.
      + intros. apply Hacc. congruence.
    - eapply Forall_impl; [exact Hidle|]. intros q. by apply (idle_moved _ _ _ _ _ Hm1).
    - eapply counts_moved; [exact Hm1|exact Hroom|zlen_pos; lia]. }
  intros rc s2 [-> Hm2]. rewrite Hn'.
  assert (Hend : wp (sqliterkNotify_onEndParseBtree notify bt') (fun _ s' => moved [] [] s2 s') s2).
  { unfold sqliterkNotify_onEndParseBtree. destruct (onEndParseTable notify).
    - apply wp_modify. apply moved_tell; [apply Hm2|done].
    - apply wp_ret. apply quiet_moved; [apply Hm2|apply quiet_refl]. }
  apply wp_bind. eapply wp_mono; [exact Hend|]. intros [] s3 Hm3. apply wp_ret. split; [done|].
  exists bt'. split; [done|]. split; [done|].
  pose proof (moved_trans _ _ _ _ _ _ _ (moved_trans _ _ _ _ _ _ _ Hm1 Hm2) Hm3) as Hm. cbn [app] in Hm.
  by rewrite !app_nil_r in Hm.
Qed.

(** The walk from the root of a stored table, as it changes the state. *)
Lemma parse_page_walk h depth t (s : rkst) :
  stored d h (pgr s) t -> NoDup (t_pages t) -> good_pager (pgr s) ->
  Forall (fun q => valid_page (pgr s) q /\ status_at (pgr s) q = sqliterk_status_unchecked) (t_pages t) ->
  counts_room (pgr s) (zlen (t_pages t) + zlen (t_overflow t)) ->
  (t_root t = 1 -> recursive s = false) -> (h < depth)%nat ->
  (forall bt c h, b_type bt = (if t_root t =? 1 then sqliterk_btree_type_master else sqliterk_btree_type_table) ->
     answer (EvColumn bt c :: h) = SQLITERK_OK) ->
  wp (sqliterkParsePage notify depth (t_root t)) (fun rc s' => rc = SQLITERK_OK /\
    exists bt, sqliterkPageGetPageno (b_rootpage bt) = t_root t /\
      b_type bt = (if t_root t =? 1 then sqliterk_btree_type_master else sqliterk_btree_type_table) /\
      moved (t_pages t ++ t_overflow t) (rows_told bt (t_rows t)) s s') s.
Proof.
  intros Hst Hnd Hg Hun Hroom Hrec Hdep Hacc.
  assert (Hin : t_root t ∈ t_pages t).
  { destruct h; [destruct Hst as (_ & -> & _)|destruct Hst as (kids & _ & _ & -> & _)]; apply elem_of_cons; by left. }
  assert (Hroot : whole_page d (pgr s) (t_root t) /\
    (page_type_byte d (pgr s) (t_root t) = sqliterk_page_type_leaf_table \/
     page_type_byte d (pgr s) (t_root t) = sqliterk_page_type_interior_table)).
  { destruct h; [destruct Hst as ((Hw & Ht & _) & _)|destruct Hst as (kids & (_ & Hw & Ht & _) & _)]; auto. }
  destruct Hroot as [Hw Ht]. pose proof Hun as Hun'. rewrite Forall_forall in Hun'. destruct (Hun' _ Hin) as [Hv Hs0].
  unfold sqliterkParsePage. apply wp_bind_gets. change (pg (pst s)) with (pgr s).
  eapply wp_bind_lift_res; [by apply get_status_ok|]. rewrite Hs0.
  change (negb (sqliterk_status_unchecked =? sqliterk_status_unchecked)) with false. cbv iota.
  apply wp_bind. eapply wp_mono; [by apply btree_open_spec|].
  intros [rc b] s1 (-> & Hq & bt & -> & Hopen). cbv beta iota.
  change (negb (SQLITERK_OK =? SQLITERK_OK)) with false. cbv iota.
  pose proof (quiet_moved s s1 Hg Hq) as Hm1. pose proof Hq as (Hp1 & Hr1 & _).
  change (pg (pst s1) = pg (pst s)) with (pgr s1 = pgr s) in Hp1.
  eapply wp_mono.
  { apply (parse_btree_spec h depth bt t (pgr s) s1); rewrite ?Hp1, ?Hr1; auto.
    eapply Forall_impl; [exact Hun|]. intros q [H1 H2]. split; [done|]. rewrite H2. done. }
  intros rc s2 (-> & bt' & Hty & Hroot' & Hm2). split; [done|]. exists bt'. destruct Hopen as (Hb & Hn & _).
  split; [by rewrite Hroot'|]. split; [by rewrite Hty|]. exact (moved_trans [] _ [] _ s s1 s2 Hm1 Hm2).
Qed.

(** C4: walking a table.  From a page that is the root of a stored table (a B-tree whose inner
    pages and leaves are as the file format has them, rows with overflow pages included, no
    page used twice), all of whose pages are still unchecked, [sqliterkParsePage] returns OK
    and has handed every row to the user, with its rowid and all its values, in the order
    of the tree and no other row; every page of the tree and every overflow page is checked
    and counted, and the status of all other pages is as before. *)
Theorem sqliterkParsePage_table h depth t (s : rkst) :
  stored d h (pgr s) t -> NoDup (t_pages t) -> good_pager (pgr s) ->
  Forall (fun q => valid_page (pgr s) q /\ status_at (pgr s) q = sqliterk_status_unchecked) (t_pages t) ->
  counts_room (pgr s) (zlen (t_pages t) + zlen (t_overflow t)) ->
  (t_root t = 1 -> recursive s = false) -> (h < depth)%nat ->
  (forall bt c h, b_type bt = (if t_root t =? 1 then sqliterk_btree_type_master else sqliterk_btree_type_table) ->
     answer (EvColumn bt c :: h) = SQLITERK_OK) ->
  match sqliterkParsePage notify depth (t_root t) s with
  | Done (rc, s') =>
    rc = SQLITERK_OK /\
    (exists bt evs, heard s' = rev evs ++ heard s /\ Forall2 row_is (rows_of evs) (rows_told bt (t_rows t)) /\
                    sqliterkPageGetPageno (b_rootpage bt) = t_root t) /\
    (forall q, valid_page (pgr s) q -> status_at (pgr s') q =
       if bool_decide (q ∈ t_pages t ++ t_overflow t) then sqliterk_status_checked else status_at (pgr s) q) /\
    sqliterkPagerGetParsedPageCount (pgr s') =
      sqliterkPagerGetParsedPageCount (pgr s) + zlen (t_pages t) + zlen (t_overflow t)
  | Stuck _ => False
  end.
Proof.
  intros Hst Hnd Hg Hun Hroom Hrec Hdep Hacc.
  pose proof (parse_page_walk h depth t s Hst Hnd Hg Hun Hroom Hrec Hdep Hacc) as H.
  unfold wp in H. destruct (sqliterkParsePage notify depth (t_root t) s) as [[rc s']|]; [|done].
  destruct H as (-> & bt & Hbt & _ & [_ _ Hst' [Hc _] _ (evs & Hh & Hrows)]). split; [done|].
  split; [by exists bt, evs|]. split; [done|]. unfold sqliterkPagerGetParsedPageCount. rewrite Hc, zlen_app. lia.
Qed.

(** An inner page that is not being walked is marked and its children are walked. *)
Lemma interior_children depth bt a kids p (s : rkst) E :
  interior_at d p a kids -> geo p = geo (pgr s) -> good_pager (pgr s) -> plain_tree answer bt s -> idle (pgr s) a ->
  counts_room (pgr s) 1 ->
  (forall s', moved [] [] (in_pages (with_status a sqliterk_status_checking (pgr s)) s) s' ->
     pwp E (parse_children (sqliterkBtreeParsePage notify depth) kids bt) (fun _ _ => False) s') ->
  pwp E (sqliterkBtreeParsePage notify (S depth) bt a) (fun _ _ => False) s.
Proof.
  intros Hint Hgeo Hg Hpt [Hv Hna] Hr1 Hkids'. cbn [sqliterkBtreeParsePage]. pose proof Hpt as (Hn & P2 & P3 & P4 & P5). zlen_pos.
  unfold parse_page. apply pwp_bind_gets. unfold sqliterkPagerGetPageCount.
  rewrite (proj2 (Z.ltb_ge _ _)) by (change (pg (pst s)) with (pgr s); unfold valid_page in Hv; lia).
  rewrite Hn. apply pwp_bind, wp_pwp, begin_page_spec; [done|done|done|].
  rewrite (proj2 (Z.eqb_neq _ _)) by done. change (negb (SQLITERK_OK =? SQLITERK_OK)) with false. cbv iota.
  set (s1 := in_pages _ s) in *. apply pwp_bind. apply pwp_mono with (P := fun _ _ => False); [|done].
  assert (Hg1 : good_pager (pgr s1)) by (by apply good_with_status).
  pose proof (interior_at_geo d p (pgr s1) Hgeo a _ Hint)
    as (_ & Hw & Hty & offs & ks & right & Hcells & -> & Hptr & Hright & Hrm).
  apply (page_content_cells memory d bytes notify _ _ bt a offs sqliterk_page_type_interior_table);
    [by right|done|done|exact Hty|exact Hcells|].
  intros s2 Hq2. cbn [Z.eqb Pos.eqb orb sqliterk_page_type_interior_table]. cbv zeta. cbv iota.
  pose proof (zlen_page d _ _ Hg1 Hw) as Hpl. pose proof Hg1 as [_ Hps _ _ _].
  destruct Hcells as (_ & Hmax & _). zlen_pos.
  apply pwp_rk_malloc; [done|lia|]. intros s3 Hq3.
  eapply pwp_bind_lift_res.
  { apply children_of_spec; [by apply Forall_slice|]. rewrite Hpl. exact Hptr. }
  eapply pwp_bind_lift_res.
  { rewrite parse_int_be; [|auto|lia|lia|by apply Forall_slice|rewrite Hright; exact Hrm]. reflexivity. }
  rewrite Hright. apply pwp_bind, pwp_mono with (P := fun _ _ => False); [|done].
  apply Hkids', quiet_moved; [done|by eapply quiet_trans].
Qed.

(** C39: the walk need not end: the check against walking a page inside itself relies on the status
    of the page, which reading an overflow page overwrites.  In a damaged file with an inner
    page that lists a leaf and then itself, where a row of the leaf names the inner page as
    an overflow page, the recursion goes deeper than any depth, as far as the counter of
    checked pages reaches. *)
Theorem sqliterkBtreeParsePage_diverges depth bt a t (s : rkst) :
  interior_at d (pgr s) a [t_root t; a] -> stored d 0 (pgr s) t -> a ∈ t_overflow t -> a <> t_root t ->
  good_pager (pgr s) -> plain_tree answer bt s -> idle (pgr s) a -> idle (pgr s) (t_root t) ->
  counts_room (pgr s) (Z.of_nat depth * (zlen (t_overflow t) + 2)) ->
  sqliterkBtreeParsePage notify depth bt a s = Stuck OutOfFuel.
Proof.
  intros Hint Hst Hao Hne Hg Hpt Ha Ht Hroom.
  assert (H : pwp (eq OutOfFuel) (sqliterkBtreeParsePage notify depth bt a) (fun _ _ => False) s).
  2: { unfold pwp in H. by destruct (sqliterkBtreeParsePage notify depth bt a s) as [[]|f]; [|rewrite <- H]. }
  remember (pgr s) as p eqn:Hp. assert (Hgeo : geo p = geo (pgr s)) by (by rewrite Hp).
  rewrite Hp in Hg, Ha, Ht, Hroom. clear Hp.
  revert s Hgeo Hg Hpt Ha Ht Hroom. induction depth as [|depth IH]; intros s Hgeo Hg Hpt Ha Ht Hroom; [done|].
  zlen_pos. apply (interior_children depth bt a [t_root t; a] p); try done; [eapply counts_less; [exact Hroom|nia]|].
  set (s1 := in_pages _ s). intros s3 Hm13. cbn [parse_children]. apply pwp_bind.
  destruct depth as [|depth]; [done|].
  assert (Ht1 : idle (pgr s1) (t_root t)).
  { destruct Ht as [Htv Hts]. split; [done|]. unfold s1. cbn [in_pages pgr pst pg]. rewrite status_at_with by (done || apply Ha).
    by rewrite (proj2 (Z.eqb_neq _ _)). }
  destruct Hst as (Hleaf & Hpages & Hov).
  apply wp_pwp. eapply wp_mono.
  { apply (tree_spec memory d bytes notify answer asked 0 p bt t s3); [done|rewrite Hpages; apply NoDup_singleton| |lia].
    split; [by rewrite (mv_geo _ _ _ _ Hm13)|]. split; [apply Hm13|].
    split; [exact (plain_tree_moved answer bt [] [] s1 s3 Hpt Hm13)|].
    split; [rewrite Hpages; constructor; [by apply (idle_moved _ _ _ _ _ Hm13)|constructor]|].
    eapply counts_moved; [exact Hm13| |zlen_pos; lia]. rewrite Hpages, zlen_cons, zlen_nil.
    eapply counts_less; [exact Hroom|nia]. }
  intros rc s4 [-> Hm34]. change (SQLITERK_OK =? SQLITERK_CANCELLED) with false. cbv iota. apply pwp_bind.
  unfold walked in Hm34. rewrite Hpages in Hm34.
  pose proof (moved_trans _ _ _ _ _ _ _ Hm13 Hm34) as Hm14. cbn [app] in Hm14.
  apply pwp_mono with (P := fun _ _ => False); [|done]. apply (IH s4).
  - by rewrite (mv_geo _ _ _ _ Hm14).
  - apply Hm14.
  - exact (plain_tree_moved answer bt _ _ s1 s4 Hpt Hm14).
  - destruct Ha as [Hv _]. split; [eapply valid_geo; [apply Hm14|done]|]. rewrite (mv_status _ _ _ _ Hm14) by done.
    rewrite bool_decide_eq_true_2 by (apply elem_of_cons; by right). done.
  - by apply (idle_moved _ _ _ _ _ Hm14).
  - eapply counts_moved; [exact Hm14| |nia]. eapply counts_less; [exact Hroom|]. rewrite zlen_cons. lia.
Qed.

(** The length of a record header is not checked: a row whose record is one byte that claims a
    longer header makes the code read serial types behind the end of the payload. *)
Theorem record_header_unchecked rec bt n t data off h c rowid l (s : rkst) :
  good_pager (pgr s) -> zlen data = pagesize (pgr s) -> Forall is_byte data ->
  limits_ok bt (usableSize (pgr s)) -> b_notify bt = true -> col_rep c rowid l [] ->
  counts_room (pgr s) 0 -> 0 <= off < zlen data -> slice off 1 data = [h] -> 1 < h < 128 ->
  sqliterkBtreeParsePayload notify rec bt (Some (Page n (Some data) t)) off 1 c s = Stuck OutOfBounds.
Proof.
  intros Hg Hdl Hb Hlim Hn Hc Hroom Hoff Hsl Hh. pose proof Hg as [_ Hps Hus _ _].
  assert (H : pwp (eq OutOfBounds) (sqliterkBtreeParsePayload notify rec bt (Some (Page n (Some data) t)) off 1 c)
                (fun _ _ => False) s).
  2: { unfold pwp in H. by destruct (sqliterkBtreeParsePayload _ _ _ _ _ _ _ s) as [[]|f]; [|rewrite <- H]. }
  assert (HL : local_ref (usableSize (pgr s)) 1 = 1).
  { unfold local_ref. by rewrite (proj2 (Z.leb_le _ _)) by lia. }
  unfold sqliterkBtreeParsePayload. change (1 <=? 0) with false. cbv iota. apply pwp_bind, wp_pwp.
  eapply wp_mono.
  { apply (gather_payload_spec memory d bytes notify bt n t data off [h] [] c rowid l s); try done.
    split; change (zlen [h]) with 1; rewrite ?HL; [done|lia|exact Hsl|done]. }
  intros r s1 (c' & -> & _). cbv iota. apply pwp_bind. unfold parse_record.
  assert (Hv : sqlite_varint h = [h]).
  { unfold sqlite_varint. rewrite (proj2 (Z.ltb_lt _ _)) by lia.
    assert (Z.log2 h < 7) by (apply Z.log2_lt_pow2; lia). pose proof (Z.log2_nonneg h).
    rewrite (Z.div_small (Z.log2 h)) by lia. cbn. by rewrite Z.mod_small by lia. }
  pose proof (parse_varint_ok [] h [] ltac:(lia)) as Hp. rewrite Hv in Hp. cbn [app] in Hp.
  change (zlen (@nil Z)) with 0 in Hp.
  eapply pwp_bind_lift_res; [exact Hp|].
  change (negb (SQLITERK_OK =? SQLITERK_OK)) with false. cbv iota. change (zlen [h]) with 1.
  change (Z.to_nat 1 + 2)%nat with 3%nat. cbn [values_loop].
  rewrite (proj2 (Z.ltb_lt 1 h)) by lia. rewrite orb_true_r. apply pwp_bind.
  rewrite parse_varint_out by (change (zlen [h]) with 1; lia). done.
Qed.
End driver.
