(* ===== verification/RkSmall.v ===== *)
(** * The repair kit on small files

    Concrete instances of the code that is not part of the sources, with proofs that they have
    the assumed laws, and runs on files of a few pages: the theorems of the repair kit
    applied to them, and behaviours of the code that show on them. *)

From S2P Require Import Prelude CLib Varint Values ValuesFacts Pager PagerFacts Btree BtreeFacts RkProps.

Module RkToy.

(** ** Parsing *)

Definition varint (wrap : Z -> Z) (d : list Z) (off : Z) : res (Z * Z * Z) :=
  if off <? 0 then Stuck OutOfBounds
  else match dec_varint 8 (drop (Z.to_nat off) d) 0 0 with
       | Some (v, len) => Done (SQLITERK_OK, len, wrap v)
       | None => Stuck OutOfBounds
       end.

#[export] Instance util : SqliterkUtil := {|
  sqliterkParseInt := fun d off n =>
    if in_range off n (zlen d) then Done (s32 (be_val (slice off n d))) else Stuck OutOfBounds;
  sqliterkParseInt64 := fun d off n =>
    if in_range off n (zlen d) then Done (wrap_s (8 * n) (be_val (slice off n d))) else Stuck OutOfBounds;
  sqliterkParseNumber := fun d off =>
    if in_range off 8 (zlen d) then Done (rev (slice off 8 d)) else Stuck OutOfBounds;
  sqliterkParseVarint := varint s32;
  sqliterkParseVarint64 := varint s64;
  sqliterkOSWarning := fun rc => rc
|}.

Lemma varint_ok wrap pre v post :
  0 <= v < 2 ^ 64 ->
  varint wrap (pre ++ sqlite_varint v ++ post) (zlen pre) = Done (SQLITERK_OK, zlen (sqlite_varint v), wrap v).
Proof.
  intros Hv. unfold varint. zlen_pos. rewrite (proj2 (Z.ltb_ge _ _)) by lia.
  by rewrite to_nat_zlen, drop_app_length, dec_varint_sqlite.
Qed.

#[export] Instance util_laws : UtilLaws util.
Proof.
  assert (Hin : forall d off n, 0 <= n -> 0 <= off -> off + n <= zlen (A := Z) d -> in_range off n (zlen d) = true)
    by (intros; unfold in_range; lia).
  split; cbn [sqliterkParseInt sqliterkParseInt64 sqliterkParseNumber sqliterkParseVarint sqliterkParseVarint64
              sqliterkOSWarning util].
  - intros d off n Hn Ho Hl Hb Hv. rewrite Hin by lia. f_equal.
    pose proof (be_val_nonneg (slice off n d) (Forall_slice _ _ _ _ Hb)).
    assert (be_val (slice off n d) < 2 ^ 31).
    { eapply Z.lt_le_trans; [exact Hv|]. apply Z.pow_le_mono_r; lia. }
    unfold s32, wrap_s. rewrite Z.mod_small by lia. lia.
  - intros d off n Hn Hl. unfold in_range. by replace (_ && _) with false by lia.
  - intros d off n Hn Ho Hl Hb. rewrite Hin; [done| |done|done]. simpl in Hn. lia.
  - intros d off Ho Hl. by rewrite Hin by lia.
  - intros pre v post Hv. rewrite varint_ok by lia. do 2 f_equal. unfold s32, wrap_s. rewrite Z.mod_small by lia. lia.
  - intros pre v post Hv. rewrite varint_ok by (unfold u64; apply Z.mod_pos_bound; lia). do 2 f_equal.
    unfold s64, wrap_s, u64. rewrite Zplus_mod_idemp_l, Z.mod_small by lia. lia.
  - intros d off Hl. unfold varint. zlen_pos. rewrite (proj2 (Z.ltb_ge _ _)) by lia.
    rewrite drop_ge by (unfold zlen in *; lia). done.
  - done.
Qed.

(** ** Memory, cipher, types *)

#[export] Instance heap : SqliterkAlloc := {| os_malloc := fun _ n => Some (zeros n) |}.
#[export] Instance heap_laws : SqliterkAllocLaws heap.
Proof. split. by intros k n blk [= <-]. Qed.
Lemma heap_grants : ~ refused.
Proof. by intros (k & n & H). Qed.

#[export] Instance codec : SqliterkCodec := {|
  sqliterk_codec := Empty_set; sqliterkCryptoDecode := fun c _ _ => match c with end |}.
#[export] Instance crypto : SqliterkCrypto := {| sqliterkCryptoSetCipher := fun p _ => (SQLITERK_MISUSE, p) |}.
#[export] Instance no_atof : CAtof := {| atof := fun _ => zeros 8 |}.
#[export] Instance types : SqliterkBtreeTypes := {|
  sqliterk_btree_type_system_begin := 1; sqliterk_btree_type_system_end := 5 |}.
#[export] Instance types_laws : BtreeTypesLaws types.
Proof. by split. Qed.

(** ** Rows *)

Record col := Col { c_rowid : Z; c_values : option sqliterk_values; c_overflow : option sqliterk_values }.

Definition col_alloc : cm nat (Z * option col) :=
  let! (rc, v) := sqliterkValuesAlloc in
  if negb (rc =? SQLITERK_OK) then ret (rc, None)
  else
    let! (rc, o) := sqliterkValuesAlloc in
    if negb (rc =? SQLITERK_OK) then ret (rc, None) else ret (SQLITERK_OK, Some (Col 0 v o)).

Definition col_clear (c : col) : res col :=
  let? (_, v) := sqliterkValuesClear (c_values c) in
  let? (_, o) := sqliterkValuesClear (c_overflow c) in
  Done (Col 0 v o).

#[export] Instance column : SqliterkColumn := {|
  sqliterk_column := col;
  sqliterkColumnAlloc := col_alloc;
  sqliterkColumnClear := col_clear;
  sqliterkColumnGetValues := c_values;
  sqliterkColumnGetOverflowPages := c_overflow;
  sqliterkColumnGetRowId := c_rowid;
  sqliterkColumnSetRowId := fun r c => Col r (c_values c) (c_overflow c);
  put_values := fun v c => Col (c_rowid c) v (c_overflow c);
  put_overflow := fun o c => Col (c_rowid c) (c_values c) o
|}.

#[export] Instance column_laws : ColumnLaws column.
Proof.
  split; try done.
  - intros k Hr. cbn [sqliterkColumnAlloc column]. unfold col_alloc. apply wp_bind.
    eapply wp_mono; [apply values_alloc_spec|]. intros [rc v] k1 [(-> & v' & -> & Hv)|(_ & _ & H)]; [|done].
    change (negb (SQLITERK_OK =? SQLITERK_OK)) with false. cbv iota. apply wp_bind.
    eapply wp_mono; [apply values_alloc_spec|]. intros [rc o] k2 [(-> & o' & -> & Ho)|(_ & _ & H)]; [|done].
    change (negb (SQLITERK_OK =? SQLITERK_OK)) with false. cbv iota. apply wp_ret. split; [done|].
    by exists (Col 0 (Some v') (Some o')), v', o'.
  - intros c v o l lo Hv Hvl Ho Hol. cbn [sqliterkColumnGetValues sqliterkColumnGetOverflowPages column] in *.
    destruct (values_clear_spec v l Hvl) as (v' & Hv1 & Hv2). destruct (values_clear_spec o lo Hol) as (o' & Ho1 & Ho2).
    exists (Col 0 (Some v') (Some o')), v', o'. cbn [sqliterkColumnClear column]. unfold col_clear.
    by rewrite Hv, Ho, Hv1, Ho1.
Qed.

(** ** Files *)

Definition file (d : list Z) : SqliterkFile := {|
  os_open := SQLITERK_OK;
  os_read := fun off n =>
    if off + n <=? zlen d then (SQLITERK_OK, slice off n d) else (SQLITERK_SHORT_READ, drop (Z.to_nat off) d);
  os_file_size := (SQLITERK_OK, zlen d)
|}.

Lemma file_laws d : FileLaws (file d) d.
Proof.
  split; cbn [os_open os_read os_file_size file]; try done.
  - intros off n _ _ H. by rewrite (proj2 (Z.leb_le _ _)).
  - intros off n _ _ H. by rewrite (proj2 (Z.leb_gt _ _)).
Qed.

(** ** Images of pages of 512 bytes *)

Definition be (n : nat) (v : Z) : list Z := rev (le_bytes n v).

Definition at_end (front back : list Z) : list Z := front ++ zeros (512 - zlen front - zlen back) ++ back.

Fixpoint pointers (start : Z) (cells : list (list Z)) : list Z :=
  match cells with
  | [] => []
  | c :: cells => be 2 start ++ pointers (start + zlen c) cells
  end.

Definition page_image (lead head : list Z) (cells : list (list Z)) : list Z :=
  let content := concat cells in
  at_end (lead ++ head ++ pointers (512 - zlen content) cells) content.

Definition leaf_page (lead : list Z) (cells : list (list Z)) : list Z :=
  page_image lead ([13; 0; 0] ++ be 2 (zlen cells) ++ [0; 0; 0]) cells.

Definition inner_page (lead : list Z) (kids : list Z) (right : Z) : list Z :=
  page_image lead ([5; 0; 0] ++ be 2 (zlen kids) ++ [0; 0; 0] ++ be 4 right)
    (map (fun k => be 4 k ++ [k]) kids).

Definition overflow_page (next : Z) (chunk : list Z) : list Z := at_end (be 4 next ++ chunk) [].

(** The header of the file, with the field of the page size. *)
Definition file_header (pagesize : Z) : list Z :=
  MAGIC ++ be 2 pagesize ++ [1; 1; 0; 64; 32; 32] ++ zeros 76.

(** A cell that is on the leaf as a whole, and one whose payload goes on in overflow pages. *)
Definition cell (r : row) : list Z :=
  sqlite_varint (zlen (row_payload r)) ++ sqlite_varint (u64 (rw_id r)) ++ row_payload r.
Definition spilling_cell (r : row) (first : Z) : list Z :=
  sqlite_varint (zlen (row_payload r)) ++ sqlite_varint (u64 (rw_id r)) ++
  take (Z.to_nat (local_ref 512 (zlen (row_payload r)))) (row_payload r) ++ be 4 first.
Definition spilled (r : row) : list Z := drop (Z.to_nat (local_ref 512 (zlen (row_payload r)))) (row_payload r).

(** The state after a file was opened. *)
Definition start (p : sqliterk_pager) : rkstate := RkState (PState p 3) true [].

Definition listener (answer : list rk_event -> Z) : sqliterk_notify :=
  {| onBeginParseTable := None; onParseColumn := Some answer; onEndParseTable := false; didParsePage := false |}.
Definition yes (_ : list rk_event) : Z := SQLITERK_OK.

(** The pager of a file of [n] pages of 512 bytes that has just been opened. *)
Definition pager_of (n : Z) : sqliterk_pager := Pager_ (Some (zeros (n + 1))) 512 0 0 n 512 5 0 0 None.

Definition byteb (b : Z) : bool := (0 <=? b) && (b <? 256).
Lemma bytes_by l : forallb byteb l = true -> Forall is_byte l.
Proof.
  rewrite forallb_forall, List.Forall_forall. intros H b Hb. specialize (H b Hb). unfold byteb, is_byte in *. lia.
Qed.

(** Closed facts about an image. *)
Ltac evaluated :=
  lazymatch goal with
  | |- _ /\ _ => split; evaluated
  | |- _ \/ _ => first [left; evaluated | right; evaluated]
  | |- Forall _ [] => constructor
  | |- Forall _ (_ :: _) => constructor; [evaluated|evaluated]
  | |- Forall2 _ _ _ => constructor; evaluated
  | |- _ => first [reflexivity | discriminate | exact I]
  end.

Ltac computed :=
  lazymatch goal with
  | |- _ /\ _ => split; computed
  | |- Forall2 _ [] [] => constructor
  | |- Forall2 _ (_ :: _) _ => constructor; computed
  | |- Forall is_byte _ => apply bytes_by; vm_compute; reflexivity
  | |- record_ok _ _ => split; [|split; [|split]]; computed
  | |- Forall field_ok _ => once constructor; computed
  | |- field_ok _ => split; [|split]; computed
  | |- _ => vm_compute; evaluated
  end.

Ltac by_index :=
  let i := fresh "i" in
  intros i ? Hi; repeat (destruct i as [|i]; [injection Hi as <-; computed|]); discriminate Hi.

(** ** A table of two leaves and an overflow page

    Page 1: an empty [sqlite_master]; page 2: the root; pages 3 and 4: leaves; page 5: the end
    of the second row. *)
Definition row1 : row := Row 1 3 [(0, []); (1, [42])] [].
Definition row2 : row := Row 2 4 [(8, []); (1212, repeat 7 600)] [5].
Definition row3 : row := Row (-3) 3 [(15, str "a"); (7, repeat 64 8)] [].

Definition table_file : list Z :=
  leaf_page (file_header 512) [] ++
  inner_page [] [3] 4 ++
  leaf_page [] [cell row1; spilling_cell row2 5] ++
  leaf_page [] [cell row3] ++
  overflow_page 0 (spilled row2).

Definition table_tree : subtree := Subtree 2 [2; 3; 4] [5] [row1; row2; row3].

Lemma whole_split {A} (l : list A) i n : 0 <= i -> 0 <= n -> i + n <= zlen l ->
  l = take (Z.to_nat i) l ++ slice i n l ++ drop (Z.to_nat (i + n)) l.
Proof.
  intros. unfold slice. rewrite <- (take_drop (Z.to_nat i) l) at 1. f_equal.
  rewrite <- (take_drop (Z.to_nat n) (drop (Z.to_nat i) l)) at 1. f_equal. rewrite drop_drop. f_equal. lia.
Qed.

Lemma cell_at_intro d p data off r :
  let head := sqlite_varint (zlen (row_payload r)) ++ sqlite_varint (u64 (rw_id r)) in
  - 2 ^ 63 <= rw_id r < 2 ^ 63 -> record_ok (rw_header r) (rw_fields r) ->
  0 <= off -> off + zlen head <= zlen data -> slice off (zlen head) data = head ->
  payload_at d p data (off + zlen head) (row_payload r) (rw_overflow r) -> cell_at d p data off r.
Proof.
  intros head Hid Hrec Hoff Hlen Hsl Hpay. split; [done|]. split; [done|]. split.
  - exists (take (Z.to_nat off) data), (drop (Z.to_nat (off + zlen head)) data).
    split; [unfold zlen in *; rewrite length_take; lia|].
    rewrite (app_assoc (sqlite_varint _)). fold head.
    pose proof (whole_split data off (zlen head)) as Hs. rewrite Hsl in Hs. apply Hs; zlen_pos; lia.
  - rewrite <- Z.add_assoc, <- zlen_app. exact Hpay.
Qed.

(** A leaf of an image, up to its rows; a row that is on the leaf, one with an overflow page. *)
Ltac leaf_image offs :=
  split; [computed|]; split; [computed|]; exists offs; split;
  [split; [computed|]; split; [computed|]; split; [computed|]; by_index|].

Ltac row_rest b :=
  apply cell_at_intro; [computed..|split; [computed..|]];
  cbv zeta; match goal with |- if ?c then _ else _ => replace c with b by (vm_compute; reflexivity) end.

Ltac row_on_leaf := row_rest false; reflexivity.

Ltac row_spills first next0 :=
  row_rest true; split; [computed|]; exists first; split; [computed|]; split; [computed|];
  rewrite <- (app_nil_r (drop _ _)); apply ov_page with (next := next0); [computed..|constructor; vm_compute; intros [H1 H2]; first [apply H1; reflexivity|apply H2; reflexivity]].

Ltac inner_image offs ks right :=
  split; [discriminate|]; split; [computed|]; split; [computed|]; exists offs, ks, right; split;
  [split; [computed|]; split; [computed|]; split; [computed|]; by_index|computed].

(** The table in a file that has its four pages. *)
Ltac table_image :=
  exists [Subtree 3 [3] [5] [row1; row2]; Subtree 4 [4] [] [row3]];
  split; [inner_image [507] [3] 4|]; split; [|done]; constructor; [|constructor; [|constructor]];
  [ split; [|done]; leaf_image [512 - zlen (cell row1) - zlen (spilling_cell row2 5); 512 - zlen (spilling_cell row2 5)];
    constructor; [row_on_leaf|]; constructor; [row_spills 5 0|constructor]
  | split; [|done]; leaf_image [512 - zlen (cell row3)]; constructor; [row_on_leaf|constructor] ].

Lemma table_stored : stored table_file 1 (pager_of 5) table_tree.
Proof. table_image. Qed.

Lemma pager_of_good n : 0 <= n < 2 ^ 20 -> good_pager (pager_of n).
Proof.
  intros Hn. split; [done|..]; cbn [pager_of pagesize usableSize pagecount]; try lia.
  eexists. split; [done|]. apply zeros_length. lia.
Qed.

(** Opening a small file. *)
Ltac small_header := split; [vm_compute; discriminate|]; split; [computed|]; split; [|split]; vm_compute; reflexivity.

Lemma sqliterkPagerOpen_plain_witness :
  plain_geometry table_file = Geometry 512 0 0 5 true /\
  match @sqliterkPagerOpen heap (file table_file) codec crypto util None 0%nat with
  | Done (rc, Some p, _) => rc = SQLITERK_OK /\ opened_as (plain_geometry table_file) p
  | _ => False
  end.
Proof.
  split; [vm_compute; reflexivity|].
  apply (@sqliterkPagerOpen_plain heap heap_laws (file table_file) codec crypto util util_laws table_file
           (file_laws table_file) heap_grants 0%nat).
  - small_header.
  - vm_compute. reflexivity.
Defined.

(** A file with pages of 65536 bytes, cut short. *)
Definition large_pages : list Z := file_header 1 ++ zeros 12.

Lemma page_size_65536_misread_witness :
  match @sqliterkPagerOpen heap (file large_pages) codec crypto util None 0%nat with
  | Done (rc, Some p, _) =>
    rc = SQLITERK_OK /\ sqliterkPagerGetSize p = 4096 /\
    Z.land (sqliterkPagerGetIntegrity p) SQLITERK_INTEGRITY_HEADER = 0
  | _ => False
  end.
Proof.
  apply (@page_size_65536_misread heap heap_laws (file large_pages) codec crypto util util_laws large_pages
           (file_laws large_pages) heap_grants 0%nat).
  - small_header.
  - vm_compute. reflexivity.
  - vm_compute. reflexivity.
  - vm_compute. reflexivity.
Defined.

Lemma set_status_correct_witness :
  match sqliterkPagerSetStatus 3 sqliterk_status_checked (PState (pager_of 5) 0%nat) with
  | Done (_, s') =>
    sqliterkPagerGetStatus (pg s') 3 = Done sqliterk_status_checked /\
    sqliterkPagerGetStatus (pg s') 4 = Done sqliterk_status_unchecked /\
    sqliterkPagerGetParsedPageCount (pg s') = 1
  | Stuck _ => False
  end.
Proof.
  pose proof (set_status_correct 3 sqliterk_status_checked (PState (pager_of 5) 0%nat)
                (pager_of_good 5 ltac:(lia)) ltac:(repeat split; vm_compute; congruence)) as H.
  destruct (sqliterkPagerSetStatus 3 sqliterk_status_checked (PState (pager_of 5) 0%nat)) as [[u s']|]; [|exact H].
  destruct H as (H1 & H2 & _). split; [|split].
  - rewrite H1; [reflexivity|]. split; vm_compute; congruence.
  - rewrite H1; [reflexivity|]. split; vm_compute; congruence.
  - rewrite H2. vm_compute. reflexivity.
Defined.

Lemma table_bytes : Forall is_byte table_file.
Proof. computed. Qed.

Lemma sqliterkPageAcquire_correct_witness :
  match @sqliterkPageAcquire heap (file table_file) codec util 4 (PState (pager_of 5) 0%nat) with
  | Done (rc, page, s') =>
    rc = SQLITERK_OK /\ sqliterkPageGetPageno page = 4 /\ sqliterkPageGetType page = sqliterk_page_type_leaf_table /\
    sqliterkPageGetData page = Some (leaf_page [] [cell row3])
  | Stuck _ => False
  end.
Proof.
  pose proof (@sqliterkPageAcquire_correct heap heap_laws (file table_file) codec util util_laws table_file
                (file_laws table_file) heap_grants table_bytes 4 (PState (pager_of 5) 0%nat)
                (pager_of_good 5 ltac:(lia)) ltac:(split; vm_compute; congruence) ltac:(vm_compute; reflexivity)) as H.
  destruct (sqliterkPageAcquire 4 (PState (pager_of 5) 0%nat)) as [[[rc page] s']|]; [|exact H].
  destruct H as (_ & H). replace (4 * pagesize (pg (PState (pager_of 5) 0%nat)) <=? zlen table_file) with true in H
    by (vm_compute; reflexivity). destruct H as (H1 & H2 & H3 & H4). split; [exact H1|]. split; [exact H2|].
  split; [rewrite H4; vm_compute; reflexivity|rewrite H3; vm_compute; reflexivity].
Defined.

(** A pager on a file of 4 GiB. *)
Definition big_pager : sqliterk_pager := Pager_ None 4096 0 0 (2 ^ 20) 4096 5 0 0 None.

Lemma sqliterkPageAcquire_2GiB_witness :
  @sqliterkPageAcquire heap (file []) codec util (2 ^ 20) (PState big_pager 0%nat) = Stuck IntOverflow.
Proof.
  apply (@sqliterkPageAcquire_2GiB heap heap_laws (file []) codec util heap_grants (2 ^ 20) (PState big_pager 0%nat)).
  - split; vm_compute; reflexivity.
  - split; vm_compute; discriminate.
  - vm_compute. discriminate.
Defined.

(** The walk over the table, in numbers: the rows arrive in the order of the tree. *)
Lemma sqliterkParsePage_table_witness :
  match @sqliterkParsePage heap (file table_file) codec util column types (listener yes) 2 2 (start (pager_of 5)) with
  | Done (rc, s') =>
    rc = SQLITERK_OK /\
    (exists bt evs, heard s' = rev evs /\ Forall2 row_is (rows_of evs)
       [(bt, 1, [RNull; RInteger 42]); (bt, 2, [RInteger 0; RBinary (repeat 7 600)]);
        (bt, -3, [RText (str "a"); RNumber (repeat 64 8)])]) /\
    status_at (pgr s') 5 = sqliterk_status_checked /\ status_at (pgr s') 1 = sqliterk_status_unchecked
  | Stuck _ => False
  end.
Proof.
  pose proof (@sqliterkParsePage_table heap heap_laws (file table_file) codec util util_laws column column_laws types
    types_laws heap_grants table_file (file_laws table_file) table_bytes (listener yes) yes eq_refl (fun _ _ _ H => ltac:(discriminate H))
    1 2 table_tree (start (pager_of 5)) table_stored) as H.
  specialize (H ltac:(apply (bool_decide_unpack _); vm_compute; exact I) (pager_of_good 5 ltac:(lia))).
  specialize (H ltac:(repeat (constructor; [computed|]); constructor) ltac:(computed) ltac:(discriminate) ltac:(lia) (fun _ _ _ _ => eq_refl)).
  change (t_root table_tree) with 2 in H.
  destruct (sqliterkParsePage (listener yes) 2 2 (start (pager_of 5))) as [[rc s']|]; [|exact H].
  destruct H as (H1 & (bt & evs & H2 & H3 & _) & H4 & _). split; [exact H1|]. split; [|split].
  - exists bt, evs. rewrite app_nil_r in H2. split; [exact H2|]. exact H3.
  - rewrite H4; [vm_compute; reflexivity|computed].
  - rewrite H4; [vm_compute; reflexivity|computed].
Defined.

(** ** A walk that does not end

    Page 2 lists page 3 and itself; the row of page 3 goes on in page 2. *)
Definition loop_page : list Z := inner_page [] [3] 2.
Definition loop_row : row := Row 1 4 [(8, []); (1212, repeat 7 92 ++ drop 4 loop_page)] [2].
Definition loop_file : list Z := leaf_page (file_header 512) [] ++ loop_page ++ leaf_page [] [spilling_cell loop_row 2].
Definition loop_leaf : subtree := Subtree 3 [3] [2] [loop_row].
Definition loop_tree : sqliterk_btree := Btree_ None sqliterk_btree_type_table (Some (Page 2 None 5)) 102 39 477 39 true.

Lemma loop_interior : interior_at loop_file (pager_of 3) 2 [3; 2].
Proof. inner_image [507] [3] 2. Qed.

Lemma loop_stored : stored loop_file 0 (pager_of 3) loop_leaf.
Proof.
  split; [|done]. leaf_image [512 - zlen (spilling_cell loop_row 2)].
  constructor; [row_spills 2 83886080|constructor].
Qed.

Lemma sqliterkBtreeParsePage_diverges_witness :
  @sqliterkBtreeParsePage heap (file loop_file) codec util column types (listener yes) 1000 loop_tree 2
    (start (pager_of 3)) = Stuck OutOfFuel.
Proof.
  apply (@sqliterkBtreeParsePage_diverges heap heap_laws (file loop_file) codec util util_laws column column_laws types
    heap_grants loop_file (file_laws loop_file) ltac:(computed) (listener yes) yes eq_refl
    1000 loop_tree 2 loop_leaf (start (pager_of 3))).
  - exact loop_interior.
  - exact loop_stored.
  - apply elem_of_cons. left. reflexivity.
  - discriminate.
  - apply pager_of_good. lia.
  - repeat split; computed.
  - computed.
  - computed.
  - computed.
Defined.

(** ** Behaviours on damaged and on large files *)

(** A [sqlite_master] of two leaves: page 1 lists page 2, its right-most child is page 3. *)
Definition master_row (id : Z) : row := Row id 2 [(1, [id])] [].
Definition master_file : list Z :=
  inner_page (file_header 512) [2] 3 ++ leaf_page [] [cell (master_row 1)] ++ leaf_page [] [cell (master_row 2)].

Definition rowids_told (s : rkstate) : list Z := map (fun bc => c_rowid bc.2) (rows_of (rev (heard s))).

(** In a database whose [sqlite_master] has grown to more than one page, the right-most part of
    it is missed: the number of the right-most child of page 1 is read without the 100 bytes
    of the file header in front of it.  Walking page 1 of the small file reports success and
    one of the two rows, and the page with the other row is not visited. *)
Theorem master_rightmost_missed :
  leaf_at master_file (pager_of 3) 3 [master_row 2] /\
  be_val (slice 108 4 master_file) = 3 /\
  match @sqliterkParsePage heap (file master_file) codec util column types (listener yes) 3 1
          (RkState (PState (pager_of 3) 0%nat) false []) with
  | Done (rc, s') =>
    rc = SQLITERK_OK /\ rowids_told s' = [1] /\
    sqliterkPagerGetStatus (pgr s') 1 = Done sqliterk_status_checked /\
    sqliterkPagerGetStatus (pgr s') 3 = Done sqliterk_status_unchecked
  | Stuck _ => False
  end.
Proof.
  split; [|computed]. leaf_image [512 - zlen (cell (master_row 2))]. constructor; [row_on_leaf|constructor].
Qed.

(** A user who cancels is not heard: the walk over an inner page stops, but it counts as a success,
    so that [sqliterkParse] goes on with the next page that is not checked and hands
    another row to the user. *)
Theorem cancel_not_propagated :
  match @sqliterkParse heap (file table_file) codec util column types (listener (fun _ => SQLITERK_CANCELLED)) 3
          (start (pager_of 5)) with
  | Done (rc, s') =>
    rc = SQLITERK_OK /\ rowids_told s' = [1; -3] /\
    sqliterkPagerGetStatus (pgr s') 2 = Done sqliterk_status_checked
  | Stuck _ => False
  end.
Proof. computed. Qed.

(** The table without its last page, the overflow page of the second row. *)
Definition cut_file : list Z := take 2048 table_file.

(** A row whose overflow page is gone is made up: its missing bytes become zeros and the row is
    handed to the user like any other, the leaf counts as checked and no page as damaged. *)
Theorem missing_overflow_reads_zeros :
  match @sqliterkParsePage heap (file cut_file) codec util column types (listener yes) 3 2 (start (pager_of 4)) with
  | Done (rc, s') =>
    rc = SQLITERK_OK /\
    (exists e1 bt c e3, heard s' = [e3; EvColumn bt c; e1] /\ sqliterkColumnGetRowId c = 2 /\
       sqliterkValuesGetBinary (sqliterkColumnGetValues c) 1 = Done (Some (repeat 7 92 ++ zeros 508))) /\
    sqliterkPagerGetStatus (pgr s') 3 = Done sqliterk_status_checked /\
    sqliterkPagerGetDamagedPageCount (pgr s') = 0
  | Stuck _ => False
  end.
Proof.
  vm_compute. split; [reflexivity|]. split; [|split; reflexivity].
  do 4 eexists. split; [reflexivity|]. split; reflexivity.
Qed.

(** A leaf with a cell of one byte that claims a header of five. *)
Definition short_page : list Z := leaf_page [] [[1; 1; 5]].

Lemma record_header_unchecked_witness :
  exists c, @sqliterkBtreeParsePayload heap (file []) codec util column types (listener yes)
    (fun _ _ => ret SQLITERK_OK) loop_tree (Some (Page 2 (Some short_page) 13)) 511 1 c (start (pager_of 3)) = Stuck OutOfBounds.
Proof.
  destruct (@sqliterkColumnAlloc column 0%nat) as [[[rc [c|]] k]|] eqn:E; [|discriminate E..].
  exists c. apply (@record_header_unchecked heap heap_laws (file []) codec util util_laws column column_laws types
    heap_grants [] (file_laws []) ltac:(constructor) (listener yes) (fun _ _ => ret SQLITERK_OK) loop_tree 2 13
    short_page 511 5 c 0 [] (start (pager_of 3))).
  - apply pager_of_good. lia.
  - vm_compute. reflexivity.
  - computed.
  - computed.
  - reflexivity.
  - pose proof (column_alloc 0%nat heap_grants) as Ha. unfold wp in Ha. rewrite E in Ha.
    destruct Ha as (_ & c' & v & o & [= <-] & Hv & Hv' & Ho & Ho').
    split; [injection E as <- <-; reflexivity|]. split; [exists v; split; [exact Hv|exact Hv']|exists o; split; [exact Ho|exact Ho']].
  - computed.
  - computed.
  - vm_compute. reflexivity.
  - lia.
Defined.
End RkToy.
