(* ===== verification/StdMap.v ===== *)
(** * Ordered maps keyed by strings ([std::map<std::string, T>])

    The output of the repair kit keeps its tables in such maps and goes through them in the
    order of their keys.  A map is the list of its entries in that order; [find], assignment
    through [operator[]] and [emplace] are the operations the source uses.  Each map stands
    for a finite map from keys to values ([abs]), which is how theorems speak about it. *)

From stdpp Require Import gmap sorting.
From S2P Require Import Prelude CLib.

Section std_map.
Context {A : Type}.

Definition std_map : Type := list (list Z * A).

(** ** Operations *)

Fixpoint find (k : list Z) (m : std_map) : option A :=
  match m with
  | [] => None
  | (k', v) :: m => if strcmp k k' =? 0 then Some v else find k m
  end.

(** [m[k] = v] *)
Fixpoint assign (k : list Z) (v : A) (m : std_map) : std_map :=
  match m with
  | [] => [(k, v)]
  | (k', v') :: m' =>
    if strcmp k k' =? 0 then (k', v) :: m'
    else if strcmp k k' <? 0 then (k, v) :: m
    else (k', v') :: assign k v m'
  end.

(** [m.emplace(k, v)]: an entry that is there stays. *)
Definition emplace (k : list Z) (v : A) (m : std_map) : std_map :=
  match find k m with Some _ => m | None => assign k v m end.

(** ** What a map stands for *)

Definition key_lt (a b : list Z * A) : Prop := strcmp a.1 b.1 < 0.

(** The keys are in order and no key is there twice. *)
Definition ordered (m : std_map) : Prop := StronglySorted key_lt m.

Definition abs (m : std_map) : gmap (list Z) A := list_to_map m.

Lemma strcmp_lt_lt a b c : strcmp a b < 0 -> strcmp b c < 0 -> strcmp a c < 0.
Proof.
  revert b c. induction a as [|x a IH]; intros [|y b] [|z c]; simpl; try lia.
  destruct (x <? y) eqn:E1, (y <? x) eqn:E2, (y <? z) eqn:E3, (z <? y) eqn:E4,
    (x <? z) eqn:E5, (z <? x) eqn:E6; try lia. apply IH.
Qed.

Lemma strcmp_refl a : strcmp a a = 0.
Proof. by apply strcmp_eq. Qed.

Lemma strcmp_eqb a b : (strcmp a b =? 0) = bool_decide (a = b).
Proof.
  case_bool_decide as H; [apply Z.eqb_eq; by apply strcmp_eq|].
  apply Z.eqb_neq. by rewrite strcmp_eq.
Qed.

#[export] Instance key_lt_trans : Transitive key_lt.
Proof. intros a b c. unfold key_lt. apply strcmp_lt_lt. Qed.

Lemma ordered_nil : ordered [].
Proof. constructor. Qed.

Lemma assign_head (P : list Z * A -> Prop) k v m :
  P (k, v) -> Forall P m -> (forall k' v', P (k', v') -> P (k', v)) -> Forall P (assign k v m).
Proof.
  intros Hk Hm Hv. induction Hm as [|[k' v'] m Hp Hm IH]; cbn; [by constructor|].
  repeat case_match; constructor; eauto.
Qed.

(** Assignment keeps the order. *)
Lemma ordered_assign k v m : ordered m -> ordered (assign k v m).
Proof.
  intros Hm. induction Hm as [|[k' v'] m Hm IH Hall]; cbn.
  - repeat constructor.
  - destruct (strcmp k k' =? 0) eqn:E.
    + constructor; [done|]. eapply Forall_impl; [exact Hall|]. by intros [].
    + destruct (strcmp k k' <? 0) eqn:El.
      * constructor; [by constructor|]. constructor; [unfold key_lt; cbn; lia|].
        eapply Forall_impl; [exact Hall|]. intros [k2 v2]. unfold key_lt. cbn. intros.
        eapply strcmp_lt_lt; [|done]. lia.
      * constructor; [done|]. apply assign_head; [|done|done].
        unfold key_lt. cbn. rewrite strcmp_opp. lia.
Qed.

Lemma ordered_emplace k v m : ordered m -> ordered (emplace k v m).
Proof. intros. unfold emplace. destruct (find k m); [done|by apply ordered_assign]. Qed.

Lemma abs_cons k v m : abs ((k, v) :: m) = <[k := v]> (abs m).
Proof. done. Qed.

(** Looking a key up is looking it up in the finite map. *)
Lemma find_abs k m : find k m = abs m !! k.
Proof.
  induction m as [|[k' v'] m IH]; [symmetry; apply lookup_empty|]. cbn [find]. rewrite abs_cons, strcmp_eqb.
  case_bool_decide; subst; [by rewrite lookup_insert_eq|by rewrite lookup_insert_ne].
Qed.

(** A key below all the keys of a map is not in it. *)
Lemma abs_below k (m : std_map) : Forall (fun e => strcmp k e.1 < 0) m -> abs m !! k = None.
Proof.
  intros Hm. rewrite <- find_abs. induction Hm as [|[k' v'] m Hk Hm IH]; [done|]. cbn in *.
  by rewrite (proj2 (Z.eqb_neq _ _)) by lia.
Qed.

(** Assignment is insertion. *)
Lemma abs_assign k v m : ordered m -> abs (assign k v m) = <[k := v]> (abs m).
Proof.
  intros Hm. induction Hm as [|[k' v'] m Hm IH Hall]; [done|]. cbn [assign]. rewrite strcmp_eqb, abs_cons.
  case_bool_decide as E; subst.
  - by rewrite abs_cons, insert_insert_eq.
  - destruct (strcmp k k' <? 0); rewrite !abs_cons; [done|]. rewrite IH. by rewrite insert_insert_ne.
Qed.

Lemma abs_emplace k v m :
  ordered m -> abs (emplace k v m) = match abs m !! k with Some _ => abs m | None => <[k := v]> (abs m) end.
Proof. intros. unfold emplace. rewrite find_abs. destruct (abs m !! k); [done|by apply abs_assign]. Qed.

(** The order leaves one list for each finite map. *)
Lemma ordered_unique m m' : ordered m -> ordered m' -> abs m = abs m' -> m = m'.
Proof.
  intros Hm. revert m'. induction Hm as [|[k v] m Hm IH Hall]; intros m' Hm' Heq.
  - destruct m' as [|[k' v'] m']; [done|]. by destruct (insert_non_empty (abs m') k' v').
  - destruct Hm' as [|[k' v'] m' Hm' Hall'].
    { by destruct (insert_non_empty (abs m) k v). }
    assert (Hmin : forall k1 v1 (m1 : std_map) k2 v2 (m2 : std_map),
      Forall (key_lt (k1, v1)) m1 -> abs ((k1, v1) :: m1) = abs ((k2, v2) :: m2) -> strcmp k1 k2 <= 0).
    { intros k1 v1 m1 k2 v2 m2 Ha He. assert (H2 : abs ((k1, v1) :: m1) !! k2 = Some v2).
      { rewrite He, abs_cons. by rewrite lookup_insert_eq. }
      destruct (Z_le_gt_dec (strcmp k1 k2) 0); [done|]. rewrite abs_below in H2; [done|].
      pose proof (strcmp_opp k1 k2). constructor; [cbn; lia|]. eapply Forall_impl; [exact Ha|].
      intros [k3 v3] H3. unfold key_lt in H3. cbn in *. eapply strcmp_lt_lt; [|done]. lia. }
    assert (strcmp k k' <= 0) by (eapply Hmin; [exact Hall|done]).
    assert (strcmp k' k <= 0) by (eapply Hmin; [exact Hall'|done]).
    assert (k = k') as <- by (apply strcmp_eq; pose proof (strcmp_opp k k'); lia).
    rewrite !abs_cons in Heq. assert (v = v') as <-.
    { assert (H1 : (<[k:=v]> (abs m) : gmap _ _) !! k = Some v') by (rewrite Heq; apply lookup_insert_eq).
      rewrite lookup_insert_eq in H1. congruence. }
    f_equal. apply IH; [done|].
    rewrite <- (delete_insert_id (abs m) k v) by (by apply abs_below).
    rewrite <- (delete_insert_id (abs m') k v) by (by apply abs_below). by rewrite Heq.
Qed.
End std_map.
Arguments std_map A : clear implicits.
