(* ===== verification/SqliteColumn.v ===== *)
(** * Columns of a result row, read as text or as a number

    The accessors of SQLite convert what a row holds; the conversions between types are code
    of SQLite and a parameter here, the values read without conversion are its laws. *)

From S2P Require Import Prelude CLib Backup.

Class SqliteColumn := {
  (** the text and its terminator, or null *)
  sqlite3_column_text : sqlite_value -> option (list Z);
  (** the length of the text, without the terminator *)
  sqlite3_column_bytes : sqlite_value -> Z;
  sqlite3_column_int : sqlite_value -> Z
}.

Class SqliteColumnLaws (S : SqliteColumn) : Prop := {
  column_text_text : forall b, sqlite3_column_text (SV_Text b) = Some (b ++ [0]);
  column_text_null : sqlite3_column_text SV_Null = None;
  column_bytes_text : forall b, sqlite3_column_bytes (SV_Text b) = zlen b;
  column_bytes_null : sqlite3_column_bytes SV_Null = 0;
  column_int_integer : forall v, sqlite3_column_int (SV_Integer v) = s32 v
}.

(** The [i]-th column of a row; beyond the last one it is null. *)
Definition column (row : list sqlite_value) (i : nat) : sqlite_value := nth i row SV_Null.

(** An instance in which a value of another type has no text and no number. *)
Module PlainColumns.
#[export] Instance columns : SqliteColumn := {|
  sqlite3_column_text v := match v with SV_Text b => Some (b ++ [0]) | _ => None end;
  sqlite3_column_bytes v := match v with SV_Text b => zlen b | _ => 0 end;
  sqlite3_column_int v := match v with SV_Integer n => s32 n | _ => 0 end
|}.

#[export] Instance columns_laws : SqliteColumnLaws columns.
Proof. done. Qed.
End PlainColumns.
