(* ===== verification/LeafFile.v ===== *)
(** * The repair kit: lists of leaf pages (sqliterk_output.cpp)

    [sqliterk_scan_leaf] asks a healthy database which leaf pages each of its tables has,
    [sqliterk_save_leaf] writes the answer to a file and [sqliterk_load_leaf] reads it again
    when the database is to be repaired.

    A file that is opened is a [FILE]; [None] is a failure of [fopen].  SQLite is given by what
    its calls answer.  Memory for C++ objects is always granted. *)

From S2P Require Import Prelude CLib Values Backup SqliteColumn StdMap.

Definition sqliterk_leaf_map : Type := std_map (list Z).

(** ** Saving *)

(** "dBleaF\0\0" *)
Definition LEAF_HEADER : list Z := [100; 66; 108; 101; 97; 70; 0; 0].

(** [false] is the jump to [bail]. *)
Fixpoint save_pages (pages : list Z) (fp : FILE) : bool * FILE :=
  match pages with
  | [] => (true, fp)
  | pageNo :: pages =>
    let '(n, fp) := fwrite1 fp (le_bytes 4 (u32 pageNo)) in
    if negb (n =? 1) then (false, fp) else save_pages pages fp
  end.

Fixpoint save_tables (tables : sqliterk_leaf_map) (fp : FILE) : bool * FILE :=
  match tables with
  | [] => (true, fp)
  | (name, pages) :: tables =>
    let strlen_buf := u16 (zlen name) in
    let '(n, fp) := fwrite1 fp (le_bytes 2 strlen_buf) in
    if negb (n =? 1) then (false, fp)
    else
      let '(n, fp) := fwrite1 fp (take (Z.to_nat strlen_buf) name) in
      if negb (n =? 1) then (false, fp)
      else
        let '(n, fp) := fwrite1 fp (le_bytes 4 (u32 (zlen pages))) in
        if negb (n =? 1) then (false, fp)
        else
          let '(ok, fp) := save_pages pages fp in
          if negb ok then (false, fp) else save_tables tables fp
  end.

(** The result code, and the file as it was closed. *)
Definition sqliterk_save_leaf (li : sqliterk_leaf_map) (opened : option FILE) : Z * option FILE :=
  match opened with
  | None => (SQLITERK_IOERR, None)
  | Some fp =>
    let '(n, fp) := fwrite1 fp LEAF_HEADER in
    if negb (n =? 1) then (SQLITERK_IOERR, Some fp)
    else
      let '(n, fp) := fwrite1 fp (le_bytes 4 (u32 (zlen li))) in
      if negb (n =? 1) then (SQLITERK_IOERR, Some fp)
      else
        let '(ok, fp) := save_tables li fp in
        (if ok then SQLITERK_OK else SQLITERK_IOERR, Some fp)
  end.

(** ** Loading *)

Fixpoint load_pages (page_count : nat) (pages : list Z) (fp : FILE) : option (list Z) * FILE :=
  match page_count with
  | O => (Some pages, fp)
  | S page_count =>
    let '(b, fp) := fread1 fp 4 in
    match b with
    | None => (None, fp)
    | Some b => load_pages page_count (pages ++ [s32 (le_val b)]) fp
    end
  end.

(** The vector is made with [page_count] elements, and the pages are appended to it. *)
Fixpoint load_tables (table_count : nat) (result : sqliterk_leaf_map) (fp : FILE)
  : option sqliterk_leaf_map * FILE :=
  match table_count with
  | O => (Some result, fp)
  | S table_count =>
    let '(b, fp) := fread1 fp 2 in
    match b with
    | None => (None, fp)
    | Some strlen_buf =>
      let '(name, fp) := fread1 fp (le_val strlen_buf) in
      match name with
      | None => (None, fp)
      | Some name =>
        let '(b, fp) := fread1 fp 4 in
        match b with
        | None => (None, fp)
        | Some page_count =>
          let pages := zeros (le_val page_count) in
          let '(pages, fp) := load_pages (Z.to_nat (le_val page_count)) pages fp in
          match pages with
          | None => (None, fp)
          | Some pages => load_tables table_count (emplace name pages result) fp
          end
        end
      end
    end
  end.

(** The result code, and [*out] when it is set. *)
Definition sqliterk_load_leaf (opened : option FILE) : Z * option sqliterk_leaf_map :=
  match opened with
  | None => (SQLITERK_IOERR, None)
  | Some fp =>
    let '(header, fp) := fread1 fp 8 in
    match header with
    | None => (SQLITERK_IOERR, None)
    | Some header =>
      if negb (bool_decide (header = LEAF_HEADER)) then (SQLITERK_IOERR, None)
      else
        let '(b, fp) := fread1 fp 4 in
        match b with
        | None => (SQLITERK_IOERR, None)
        | Some table_count =>
          let '(result, _) := load_tables (Z.to_nat (le_val table_count)) [] fp in
          match result with
          | None => (SQLITERK_IOERR, None)
          | Some result => (SQLITERK_OK, Some result)
          end
        end
    end
  end.

(** ** Scanning *)

Section scan.
Context `{Sq : SqliteRead} `{Sc : SqliteColumn}.

Definition leaf_query (tables : option (list (list Z))) : list Z :=
  str "SELECT name, pageno FROM dbstat WHERE pagetype = 'leaf'" ++
  match tables with
  | None | Some [] => []
  | Some tables => str " AND name IN (" ++ removelast (tables ≫= fun t => str "'" ++ t ++ str "',") ++ str ")"
  end.

(** One row: the list of the table is found or made, and the page appended.  [lastRecord] is the
    key the iterator is at, if it is not [end()]. *)
Definition scan_row (lastRecord : option (list Z)) (result : sqliterk_leaf_map) (name : list Z) (pageNo : Z)
  : sqliterk_leaf_map :=
  let result := if bool_decide (lastRecord = Some name) then result else emplace name [] result in
  assign name (default [] (find name result) ++ [pageNo]) result.

Fixpoint scan_rows (rows : list (list sqlite_value)) (lastRecord : option (list Z)) (result : sqliterk_leaf_map)
  : res sqliterk_leaf_map :=
  match rows with
  | [] => Done result
  | row :: rows =>
    match sqlite3_column_text (column row 0) with
    | None => Stuck NullDeref
    | Some name =>
      let name := cstr name in
      scan_rows rows (Some name) (scan_row lastRecord result name (sqlite3_column_int (column row 1)))
    end
  end.

(** The result code, which may be one of SQLite, and [*out] when it is set. *)
Definition sqliterk_scan_leaf (tables : option (list (list Z))) : res (Z * option sqliterk_leaf_map) :=
  let q := sqlite3_query (leaf_query tables) in
  if negb (prepare_rc q =? SQLITE_OK) then Done (prepare_rc q, None)
  else
    let? result := scan_rows (stmt_rows q) None [] in
    if negb (finalize_rc q =? SQLITE_OK) then Done (finalize_rc q, None)
    else Done (SQLITERK_OK, Some result).
End scan.
