(* ===== verification/LeafProps.v ===== *)
(** * Lists of leaf pages: theorems

    What a saved list is when it is loaded again, and what a scan collects. *)

From stdpp Require Import gmap sorting.
From S2P Require Import Prelude CLib Values Backup SqliteColumn StdMap LeafFile.

(** ** Files *)

Definition pages_bytes (pages : list Z) : list Z := pages ≫= (fun p => le_bytes 4 (u32 p)).
Definition table_bytes (t : list Z * list Z) : list Z :=
  le_bytes 2 (zlen t.1) ++ t.1 ++ le_bytes 4 (zlen t.2) ++ pages_bytes t.2.
Definition leaf_bytes (li : sqliterk_leaf_map) : list Z :=
  LEAF_HEADER ++ le_bytes 4 (zlen li) ++ (li ≫= table_bytes).

(** A loop that writes: all is written, or it stops early, which an unlimited file does not do. *)
Definition wrote (u : bool) (f : FILE) (x : list Z) (r : bool * FILE) : Prop :=
  (at_end u r.2 /\ r.1 = true /\ f_data r.2 = f_data f ++ x) \/ (u = false /\ r.1 = false).

Lemma save_pages_wrote u pages f : at_end u f -> wrote u f (pages_bytes pages) (save_pages pages f).
Proof.
  revert f. induction pages as [|p pages IH]; intros f Hf; cbn [save_pages].
  { left. split; [done|]. split; [done|]. by rewrite app_nil_r. }
  pose proof (fwrite1_end u f (le_bytes 4 (u32 p)) Hf ltac:(done)) as H.
  destruct (fwrite1 f _) as [n f']. destruct H as [(Hf' & -> & Hd)|[-> ->]]; [|by right].
  change (negb (1 =? 1)) with false. cbv iota.
  destruct (IH f' Hf') as [(H1 & H2 & H3)|H]; [|by right].
  left. split; [done|]. split; [done|]. rewrite H3, Hd. by rewrite <- app_assoc.
Qed.

Definition table_ok (t : list Z * list Z) : Prop :=
  0 < zlen t.1 < 65536 /\ zlen t.2 < 2 ^ 32 /\ Forall (fun p => - 2 ^ 31 <= p < 2 ^ 31) t.2.

(** Writing an object and going on. *)
Lemma wrote_then u f x y (k : FILE -> bool * FILE) :
  at_end u f -> x <> [] -> (forall f', at_end u f' -> wrote u f' y (k f')) ->
  wrote u f (x ++ y) (let '(n, f') := fwrite1 f x in if negb (n =? 1) then (false, f') else k f').
Proof.
  intros Hf Hx Hk. pose proof (fwrite1_end u f x Hf Hx) as H. destruct (fwrite1 f x) as [n f'].
  destruct H as [(Hf' & -> & Hd)|[-> ->]]; [|by right]. change (negb (1 =? 1)) with false. cbv iota.
  destruct (Hk f' Hf') as [(H1 & H2 & H3)|H]; [|by right].
  left. split; [done|]. split; [done|]. rewrite H3, Hd. by rewrite <- app_assoc.
Qed.

Lemma save_tables_wrote u li f :
  Forall table_ok li -> at_end u f -> wrote u f (li ≫= table_bytes) (save_tables li f).
Proof.
  intros Hok. revert f. induction Hok as [|[name pages] li (Hn & Hp & _) Hok IH]; intros f Hf; cbn [save_tables].
  { left. split; [done|]. split; [done|]. by rewrite app_nil_r. }
  cbn [fst snd] in *. rewrite u16_small by lia. rewrite to_nat_zlen, firstn_all. rewrite u32_small by (zlen_pos; lia).
  rewrite bind_cons. unfold table_bytes. cbn [fst snd]. rewrite <- !app_assoc.
  apply wrote_then; [done|done|]. intros f1 Hf1.
  apply wrote_then; [done|intros ->; by destruct Hn|]. intros f2 Hf2.
  apply wrote_then; [done|done|]. intros f3 Hf3.
  destruct (save_pages_wrote u pages f3 Hf3) as [(H1 & H2 & H3)|[-> H]].
  2: { right. destruct (save_pages pages f3) as [ok f4]. cbn in H. by subst. }
  destruct (save_pages pages f3) as [ok f4]. cbn [fst snd] in *. subst ok. cbn [negb].
  destruct (IH f4 H1) as [(H4 & H5 & H6)|H]; [|by right].
  left. split; [done|]. split; [done|]. rewrite H6, H3. by rewrite <- app_assoc.
Qed.

Lemma load_pages_next pages : forall f done rest acc,
  reading f done (pages_bytes pages ++ rest) -> Forall (fun p => - 2 ^ 31 <= p < 2 ^ 31) pages ->
  exists f', load_pages (length pages) acc f = (Some (acc ++ pages), f') /\
             reading f' (done ++ pages_bytes pages) rest.
Proof.
  induction pages as [|p pages IH]; intros f done rest acc Hf Hp; cbn [load_pages length].
  { exists f. rewrite !app_nil_r. done. }
  apply Forall_cons in Hp as [Hp1 Hp]. unfold pages_bytes in Hf. rewrite bind_cons, <- app_assoc in Hf.
  destruct (fread1_next f done (le_bytes 4 (u32 p)) _ 4 Hf ltac:(done) ltac:(done)) as (f1 & -> & Hf1).
  destruct (IH f1 _ rest (acc ++ [s32 (le_val (le_bytes 4 (u32 p)))]) Hf1 Hp) as (f2 & -> & Hf2).
  exists f2. split.
  - rewrite <- app_assoc. cbn [app]. do 3 f_equal. rewrite le_val_bytes by (apply u32_range).
    unfold s32, wrap_s, u32. change (2 ^ (32 - 1)) with (2 ^ 31). rewrite Zplus_mod_idemp_l.
    rewrite Z.mod_small by lia. f_equal. lia.
  - unfold pages_bytes. rewrite bind_cons, app_assoc. done.
Qed.

(** What a table is after it went through a file: as many zeros as it has pages, then the pages. *)
Definition padded (t : list Z * list Z) : list Z * list Z := (t.1, zeros (zlen t.2) ++ t.2).

Lemma load_tables_next li : forall f done acc,
  reading f done (li ≫= table_bytes) -> Forall table_ok li ->
  exists f', load_tables (length li) acc f = (Some (foldl (fun m t => emplace t.1 t.2 m) acc (map padded li)), f').
Proof.
  induction li as [|[name pages] li IH]; intros f done acc Hf Hok; cbn [load_tables length map foldl].
  { by exists f. }
  apply Forall_cons in Hok as [(Hn & Hp & Hr) Hok]. cbn [fst snd] in *.
  rewrite bind_cons in Hf. unfold table_bytes in Hf. cbn [fst snd] in Hf. rewrite <- !app_assoc in Hf.
  destruct (fread1_next f done (le_bytes 2 (zlen name)) _ 2 Hf ltac:(done) ltac:(done)) as (f1 & -> & Hf1).
  rewrite le_val_bytes by (change (256 ^ Z.of_nat 2) with 65536; lia).
  destruct (fread1_next f1 _ name _ _ Hf1 ltac:(intros ->; by destruct Hn) eq_refl) as (f2 & -> & Hf2).
  destruct (fread1_next f2 _ (le_bytes 4 (zlen pages)) _ 4 Hf2 ltac:(done) ltac:(done)) as (f3 & -> & Hf3).
  rewrite le_val_bytes by (change (256 ^ Z.of_nat 4) with (2 ^ 32); zlen_pos; lia). rewrite to_nat_zlen.
  destruct (load_pages_next pages f3 _ _ (zeros (zlen pages)) Hf3 Hr) as (f4 & -> & Hf4).
  exact (IH f4 _ _ Hf4 Hok).
Qed.

(** Building an ordered map entry by entry gives its list of entries. *)
Lemma foldl_emplace_ordered {A} (l acc : std_map A) :
  ordered (acc ++ l) -> foldl (fun m t => emplace t.1 t.2 m) acc l = acc ++ l.
Proof.
  revert acc. induction l as [|[k v] l IH]; intros acc Ho; cbn [foldl fst snd]; [by rewrite app_nil_r|].
  assert (Hlt : Forall (fun e => strcmp k e.1 > 0) acc).
  { apply Forall_forall. intros e He. pose proof (strcmp_opp e.1 k).
    pose proof (StronglySorted_app_1_elem_of _ _ _ e (k, v) Ho He ltac:(apply elem_of_cons; by left)) as H1.
    unfold key_lt in H1. cbn in H1. lia. }
  assert (He : emplace k v acc = acc ++ [(k, v)]).
  { assert (Hfind : find k acc = None).
    { clear -Hlt. induction Hlt as [|[k' v'] acc H Hl IHl]; [done|]. cbn in *.
      by rewrite (proj2 (Z.eqb_neq _ _)) by lia. }
    unfold emplace. rewrite Hfind. clear -Hlt. induction Hlt as [|[k' v'] acc H Hl IHl]; [done|]. cbn in *.
    rewrite (proj2 (Z.eqb_neq _ _)), (proj2 (Z.ltb_ge _ _)) by lia. by rewrite IHl. }
  rewrite He, IH by (by rewrite <- app_assoc). by rewrite <- app_assoc.
Qed.

Lemma ordered_padded li : ordered li -> ordered (map padded li).
Proof.
  intros H. induction H as [|t li H IH Hall]; [constructor|]. constructor; [done|].
  apply Forall_map. exact Hall.
Qed.

(** C26: saving and loading a list of leaf pages.  If the names have 1 to 65535 bytes and the lists
    fit their counters, [sqliterk_save_leaf] on a file that takes all writes returns OK;
    whenever it returns OK, [sqliterk_load_leaf] on that file returns OK and a map with the
    same tables in the same order.  The list of a table is not the one saved: it has one zero
    for each of its pages in front. *)
Theorem save_load_leaf (li : sqliterk_leaf_map) (lims : list Z) :
  ordered li -> Forall table_ok li -> zlen li < 2 ^ 32 ->
  match sqliterk_save_leaf li (Some (File [] 0 false lims)) with
  | (rc, Some f) =>
    (lims = [] -> rc = SQLITERK_OK) /\
    (rc = SQLITERK_OK ->
     sqliterk_load_leaf (Some (File (f_data f) 0 false [])) = (SQLITERK_OK, Some (map padded li)))
  | (_, None) => False
  end.
Proof.
  intros Ho Hok Hlen. set (u := bool_decide (lims = [])).
  assert (Hf0 : at_end u (File [] 0 false lims)) by (split; [done|by intros ?%bool_decide_eq_true]).
  assert (Hw : wrote u (File [] 0 false lims) (leaf_bytes li)
    (match sqliterk_save_leaf li (Some (File [] 0 false lims)) with
     | (rc, Some f) => (rc =? SQLITERK_OK, f) | (rc, None) => (false, File [] 0 false lims) end)).
  { unfold sqliterk_save_leaf, leaf_bytes.
    pose proof (wrote_then u _ LEAF_HEADER (le_bytes 4 (zlen li) ++ (li ≫= table_bytes))
      (fun fp => let '(n, fp) := fwrite1 fp (le_bytes 4 (u32 (zlen li))) in
                 if negb (n =? 1) then (false, fp) else save_tables li fp) Hf0 ltac:(done)) as H.
    specialize (H ltac:(intros f1 Hf1; rewrite u32_small by (zlen_pos; lia); apply wrote_then; [done|done|];
                        intros; by apply save_tables_wrote)).
    repeat (case_match; simplify_eq; cbn in *; try done). }
  destruct (sqliterk_save_leaf li (Some (File [] 0 false lims))) as [rc [f|]] eqn:E.
  2: { unfold sqliterk_save_leaf in E. by repeat case_match; simplify_eq. }
  destruct Hw as [(_ & Hrc & Hd)|[Hu Hrc]]; cbn [fst snd] in *.
  2: { split; [|intros ->; discriminate Hrc]. by apply bool_decide_eq_false in Hu. }
  split; [intros; lia|]. intros _. cbn in Hd. rewrite Hd. unfold sqliterk_load_leaf, leaf_bytes.
  set (f0 := File _ 0 false []). assert (Hf : reading f0 [] (leaf_bytes li)) by done.
  destruct (fread1_next f0 [] LEAF_HEADER _ 8 Hf ltac:(done) eq_refl) as (f1 & -> & Hf1).
  rewrite bool_decide_eq_true_2 by done. cbn [negb].
  destruct (fread1_next f1 _ (le_bytes 4 (zlen li)) _ 4 Hf1 ltac:(done) eq_refl) as (f2 & -> & Hf2).
  rewrite le_val_bytes by (change (256 ^ Z.of_nat 4) with (2 ^ 32); zlen_pos; lia). rewrite to_nat_zlen.
  destruct (load_tables_next li f2 _ [] Hf2 Hok) as (f3 & ->).
  by rewrite (foldl_emplace_ordered (map padded li) []) by (by apply ordered_padded).
Qed.

(** The witness: one table with two pages; what is loaded has four. *)
Lemma save_load_leaf_witness :
  match sqliterk_save_leaf [(str "a", [3; 7])] (Some (File [] 0 false [])) with
  | (rc, Some f) =>
    rc = SQLITERK_OK /\
    sqliterk_load_leaf (Some (File (f_data f) 0 false [])) = (SQLITERK_OK, Some [(str "a", [0; 0; 3; 7])])
  | (_, None) => False
  end.
Proof.
  pose proof (save_load_leaf [(str "a", [3; 7])] []) as H.
  specialize (H ltac:(repeat constructor) ltac:(repeat constructor; vm_compute; intuition discriminate) ltac:(done)).
  destruct (sqliterk_save_leaf _ _) as [rc [f|]]; [|exact H]. destruct H as [H1 H2].
  split; [exact (H1 eq_refl)|exact (H2 (H1 eq_refl))].
Defined.

(** ** Scanning *)

Section scan.
Context `{Sq : SqliteRead} `{Sc : SqliteColumn}.

(** The rows of the query as tables and pages. *)
Definition scanned (rows : list (list sqlite_value)) : list (list Z * Z) :=
  omap (fun row => (fun name => (cstr name, sqlite3_column_int (column row 1))) <$> sqlite3_column_text (column row 0)) rows.

(** The pages of a table, in the order of the rows. *)
Definition pages_in (name : list Z) (l : list (list Z * Z)) : list Z :=
  map snd (filter (fun e => e.1 = name) l).

Definition named (row : list sqlite_value) : Prop := sqlite3_column_text (column row 0) <> None.

(** The map holds the pages of the rows so far. *)
Definition collected (l : list (list Z * Z)) (m : sqliterk_leaf_map) : Prop :=
  ordered m /\ forall name, find name m = match pages_in name l with [] => None | ps => Some ps end.

Lemma pages_in_app name a b : pages_in name (a ++ b) = pages_in name a ++ pages_in name b.
Proof. unfold pages_in. by rewrite filter_app, map_app. Qed.

Lemma find_assign {A} k k' (v : A) m : ordered m -> find k (assign k' v m) = if bool_decide (k = k') then Some v else find k m.
Proof.
  intros Hm. rewrite !find_abs, abs_assign by done.
  case_bool_decide; subst; [by rewrite lookup_insert_eq|by rewrite lookup_insert_ne].
Qed.

Lemma scan_row_collects last m name p l :
  collected l m -> (forall k, last = Some k -> find k m <> None) ->
  collected (l ++ [(name, p)]) (scan_row last m name p).
Proof.
  intros [Ho Hm] Hlast. unfold scan_row.
  set (m' := if bool_decide (last = Some name) then m else emplace name [] m).
  assert (Ho' : ordered m') by (unfold m'; case_bool_decide; [done|by apply ordered_emplace]).
  assert (Hd : default [] (find name m') = pages_in name l).
  { unfold m'. case_bool_decide as E.
    - specialize (Hlast name E). specialize (Hm name). by destruct (pages_in name l); rewrite Hm in *.
    - unfold emplace. specialize (Hm name). destruct (find name m) eqn:Ef.
      + rewrite Ef. by destruct (pages_in name l); simplify_eq.
      + rewrite find_assign, bool_decide_eq_true_2 by done. by destruct (pages_in name l). }
  assert (Hne : forall k, k <> name -> find k m' = find k m).
  { intros k Hk. unfold m'. case_bool_decide; [done|]. unfold emplace. destruct (find name m) eqn:Ef; [done|].
    by rewrite find_assign, bool_decide_eq_false_2 by done. }
  split; [by apply ordered_assign|]. intros k. rewrite find_assign by done. rewrite pages_in_app, Hd.
  unfold pages_in at 3. case_bool_decide as E.
  - subst k. rewrite filter_cons_True, filter_nil by done. cbn. by destruct (pages_in name l).
  - rewrite filter_cons_False, filter_nil by (intros ?; by apply E). cbn. rewrite app_nil_r. by rewrite Hne, Hm.
Qed.

Lemma scan_rows_collects rows : forall last m l,
  Forall named rows -> collected l m -> (forall k, last = Some k -> find k m <> None) ->
  exists m', scan_rows rows last m = Done m' /\ collected (l ++ scanned rows) m'.
Proof.
  induction rows as [|row rows IH]; intros last m l Hn Hm Hlast; cbn [scan_rows].
  { exists m. by rewrite app_nil_r. }
  apply Forall_cons in Hn as [Hrow Hn]. unfold named in Hrow.
  unfold scanned. cbn [omap list_omap]. destruct (sqlite3_column_text (column row 0)) as [name|] eqn:E; [|done]. cbn [fmap option_fmap option_map].
  pose proof (scan_row_collects last m (cstr name) (sqlite3_column_int (column row 1)) l Hm Hlast) as Hc.
  destruct (IH (Some (cstr name)) _ _ Hn Hc) as (m' & -> & Hm').
  - intros k [= <-]. rewrite (proj2 Hc). rewrite pages_in_app. unfold pages_in at 2.
    rewrite filter_cons_True, filter_nil by done. cbn. by destruct (pages_in _ l).
  - exists m'. split; [done|]. by rewrite <- app_assoc in Hm'.
Qed.

(** scanning.  When the query of [dbstat] runs to its end and its rows have names,
    [sqliterk_scan_leaf] returns OK and an ordered map in which each table that occurs has
    its leaf pages in the order of the rows, however the rows of the tables are mixed, and no
    other table is there. *)
Theorem scan_leaf_collects tables :
  let q := sqlite3_query (leaf_query tables) in
  prepare_rc q = SQLITE_OK -> finalize_rc q = SQLITE_OK -> Forall named (stmt_rows q) ->
  exists m, sqliterk_scan_leaf tables = Done (SQLITERK_OK, Some m) /\ ordered m /\
    forall name, find name m = match pages_in name (scanned (stmt_rows q)) with [] => None | ps => Some ps end.
Proof.
  intros q Hp Hf Hn. unfold sqliterk_scan_leaf. fold q. rewrite Hp, Hf.
  destruct (scan_rows_collects (stmt_rows q) None [] [] Hn) as (m & -> & Hm); [split; [apply ordered_nil|done]|done|].
  by exists m.
Qed.
End scan.

(** Two tables whose rows are mixed. *)
Module LeafToy.
Import PlainColumns.
Definition row_of (name : list Z) (p : Z) : list sqlite_value := [SV_Text name; SV_Integer p].
#[export] Instance sqlite : SqliteRead := {|
  sqlite3_query _ := StmtResult 0 [row_of (str "t") 4; row_of (str "a") 5; row_of (str "t") 9] 0;
  sqlite3_exec_rows _ := ([], 0);
  sqlite3_exec_rc _ := 0;
  sqlite3_strglob _ _ := 0;
  mprintf_q s := s
|}.

Lemma scan_leaf_collects_witness :
  exists m, sqliterk_scan_leaf None = Done (SQLITERK_OK, Some m) /\
    find (str "t") m = Some [4; 9] /\ find (str "a") m = Some [5] /\ find (str "x") m = None.
Proof.
  destruct (scan_leaf_collects None) as (m & H1 & _ & H2); [done|done|by repeat constructor|].
  exists m. split; [exact H1|]. rewrite !H2. vm_compute. auto.
Defined.
End LeafToy.
