(* ===== verification/MasterFile.v ===== *)
(** * The repair kit: backups of the table of tables (sqliterk_output.cpp)

    [sqliterk_save_master] writes the rows of [sqlite_master] of a healthy database to a file,
    compressed and optionally encrypted; [sqliterk_load_master] reads them back, all of them
    or those of some tables, when the database is to be repaired.

    SQLite, zlib and the cipher are parameters.  A file that is opened is a [FILE]; [None] is a
    failure of [fopen].  Memory for C++ objects is always granted, [malloc] is not.  Of the
    class [CipherContext] the variant for OpenSSL is modelled. *)

From S2P Require Import Prelude CLib Streams Values Btree Backup SqliteColumn StdMap.

Definition Z_STREAM_ERROR : Z := -2.

(** ** Data *)

(** The public enumeration [sqliterk_type]. *)
Definition sqliterk_type_index : Z := -2.
Definition sqliterk_type_table : Z := -1.
Definition sqliterk_type_unknown : Z := 0.
Definition sqliterk_type_master : Z := 4.

Record sqliterk_master_entity := Entity { e_type : Z; e_sql : list Z; e_root_page : Z }.

Definition sqliterk_master_map : Type := std_map sqliterk_master_entity.

Definition SQLITERK_SM_TYPE_TABLE : Z := 1.
Definition SQLITERK_SM_TYPE_INDEX : Z := 2.
Definition SQLITERK_SM_MAGIC : list Z := 0 :: str "dBmSt".
Definition SQLITERK_SM_VERSION : Z := 1.

(** [master_file_header] *)
Definition master_header_bytes (magic : list Z) (version entities : Z) (kdf_salt : list Z) : list Z :=
  magic ++ le_bytes 2 version ++ le_bytes 4 entities ++ kdf_salt.
Definition sizeof_master_header : Z := 28.

(** [master_file_entity], without the names *)
Definition master_entity_bytes (root_page type name_len tbl_name_len sql_len : Z) : list Z :=
  le_bytes 4 (u32 root_page) ++ [type; u8 name_len; u8 tbl_name_len; 0] ++ le_bytes 2 (u16 sql_len).
Definition sizeof_master_entity : Z := 10.

(** [sqliterk_make_master]; [None] for no tables, the null pointer. *)
Definition sqliterk_make_master (tables : option (list (list Z))) : Z * option sqliterk_master_map :=
  match tables with
  | None | Some [] => (SQLITERK_OK, None)
  | Some tables =>
    (SQLITERK_OK, Some (foldl (fun m t => assign t (Entity sqliterk_type_unknown [] 0) m) [] tables))
  end.

(** ** Saving *)

(** The file of the database, as [sqlite3_file_control] gives it. *)
Class SqliteFileHead := {
  file_control_rc : Z;
  (** [xRead] of a number of bytes from an offset: its code, the bytes *)
  xRead : Z -> Z -> Z * list Z
}.

Section save.
Context `{Zl : Zlib} `{Rc : Rc4} `{Sq : SqliteRead} `{Sc : SqliteColumn} `{Fh : SqliteFileHead}.

Record save_state := Save {
  sv_zst : dstate;              (* zstrm *)
  sv_key : option rc4_key;      (* cipherContext; [None] when key is null *)
  sv_fp : FILE;
  sv_in : list Z;               (* in_buf *)
  sv_entities : Z
}.

Definition set_stream z k f : cm save_state unit := modify (fun s => Save z k f (sv_in s) (sv_entities s)).

Definition OUT_BUF_SIZE : Z := 2048.

(** [cipherContext.cipher(data, length)], when there is a key. *)
Definition cipher (k : option rc4_key) (data : list Z) : list Z * option rc4_key :=
  match k with
  | None => (data, None)
  | Some k => let '(d, k) := rc4 k data in (d, Some k)
  end.

(** The loop around [deflate]; [Some rc] is a jump to the end of the function with that code. *)
Fixpoint deflate_loop (fuel : nat) (inp : list Z) (finish : bool) : cm save_state (option Z) :=
  match fuel with
  | O => fail OutOfFuel
  | S fuel =>
    let! s := gets (fun s => s) in
    let r := deflate (sv_zst s) inp OUT_BUF_SIZE finish in
    if zc_ret r =? Z_STREAM_ERROR then ret (Some (zc_ret r))
    else
      let '(out, k) := cipher (sv_key s) (zc_out r) in
      let '(n, f) := fwrite (sv_fp s) out in
      set_stream (zc_state r) k f ;;;
      if negb (n =? zlen out) then ret (Some (zc_ret r))
      else if zlen (zc_out r) =? OUT_BUF_SIZE
      then deflate_loop fuel (drop (Z.to_nat (zc_used r)) inp) finish
      else ret None
  end.

(** One row that has all its texts: [Some rc] jumps to the end. *)
Definition save_entity (fuel : nat) (type name_len tbl_name_len root_page sql_len : Z)
    (name tbl_name sql : list Z) : cm save_state (option Z) :=
  if (255 <? name_len) || (255 <? tbl_name_len) || (65535 <? sql_len) then ret (Some SQLITE_ROW)
  else
    let! b := gets sv_in in
    let! b := lift_res (zwrite_n b 0 (master_entity_bytes root_page type name_len tbl_name_len sql_len)) in
    let! x := lift_res (zread_n name 0 (name_len + 1)) in
    let! b := lift_res (zwrite_n b sizeof_master_entity x) in
    let p_data := sizeof_master_entity + name_len + 1 in
    let! x := lift_res (zread_n tbl_name 0 (tbl_name_len + 1)) in
    let! b := lift_res (zwrite_n b p_data x) in
    let p_data := p_data + tbl_name_len + 1 in
    modify (fun s => Save (sv_zst s) (sv_key s) (sv_fp s) b (sv_entities s)) ;;;
    let! inp := lift_res (zread_n b 0 p_data) in
    let! e := deflate_loop fuel inp false in
    match e with
    | Some rc => ret (Some rc)
    | None =>
      let! inp := lift_res (zread_n sql 0 (sql_len + 1)) in
      let! e := deflate_loop fuel inp false in
      match e with
      | Some rc => ret (Some rc)
      | None =>
        modify (fun s => Save (sv_zst s) (sv_key s) (sv_fp s) (sv_in s) (u32 (sv_entities s + 1))) ;;;
        ret None
      end
    end.

Definition save_row (fuel : nat) (row : list sqlite_value) : cm save_state (option Z) :=
  let name_len := sqlite3_column_bytes (column row 1) in
  let tbl_name_len := sqlite3_column_bytes (column row 2) in
  let root_page := sqlite3_column_int (column row 3) in
  let sql_len := sqlite3_column_bytes (column row 4) in
  match sqlite3_column_text (column row 0), sqlite3_column_text (column row 1),
        sqlite3_column_text (column row 2), sqlite3_column_text (column row 4) with
  | Some typestr, Some name, Some tbl_name, Some sql =>
    if strncmp (cstr name) (str "sqlite_") 7 =? 0 then ret None
    else if strcmp (cstr typestr) (str "table") =? 0 then
      save_entity fuel SQLITERK_SM_TYPE_TABLE name_len tbl_name_len root_page sql_len name tbl_name sql
    else if strcmp (cstr typestr) (str "index") =? 0 then
      save_entity fuel SQLITERK_SM_TYPE_INDEX name_len tbl_name_len root_page sql_len name tbl_name sql
    else ret None
  | _, _, _, _ => ret None
  end.

Fixpoint save_rows (fuel : nat) (rows : list (list sqlite_value)) : cm save_state (option Z) :=
  match rows with
  | [] => ret None
  | row :: rows =>
    let! e := save_row fuel row in
    match e with Some rc => ret (Some rc) | None => save_rows fuel rows end
  end.

(** The salt and the header, once the stream is written: the return code. *)
Definition save_header : cm save_state Z :=
  if negb (file_control_rc =? SQLITE_OK) then ret file_control_rc
  else
    let '(rc, kdf_salt) := xRead 16 0 in
    if negb (rc =? SQLITE_OK) then ret rc
    else
      let! s := gets (fun s => s) in
      let '(_, f) := fwrite1 (fseek_to (sv_fp s) 0)
                       (master_header_bytes SQLITERK_SM_MAGIC SQLITERK_SM_VERSION (sv_entities s) kdf_salt) in
      set_stream (sv_zst s) (sv_key s) f ;;;
      ret SQLITERK_OK.

Definition save_body (fuel : nat) : cm save_state Z :=
  let q := sqlite3_query (str "SELECT * FROM sqlite_master;") in
  if negb (prepare_rc q =? SQLITE_OK) then ret (prepare_rc q)
  else
    let! s := gets (fun s => s) in
    let '(n, f) := fwrite1 (sv_fp s) (zeros sizeof_master_header) in
    set_stream (sv_zst s) (sv_key s) f ;;;
    if negb (n =? 1) then ret (prepare_rc q)
    else
      let! e := save_rows fuel (stmt_rows q) in
      match e with
      | Some rc => ret rc
      | None =>
        if negb (finalize_rc q =? SQLITE_OK) then ret (finalize_rc q)
        else
          let! e := deflate_loop fuel [] true in
          match e with
          | Some rc => ret rc
          | None => save_header
          end
      end.

(** [cipherContext.setKey]: [key] is null, or [key_len] bytes. *)
Definition init_cipher (key : option (list Z)) : option rc4_key :=
  match key with
  | None | Some [] => None
  | Some key => Some (rc4_set_key key)
  end.

(** The return code and the file as it was closed.  [init_rc] is the code of [deflateInit] when it
    fails; [rc] is [Z_OK] when [fopen] does.  [in_buf] is as the stack had it. *)
Definition sqliterk_save_master (fuel : nat) (init_rc : Z) (stack : list Z) (opened : option FILE)
    (key : option (list Z)) : res (Z * option FILE) :=
  match deflateInit (-1) with
  | None => Done (init_rc, None)
  | Some z =>
    match opened with
    | None => Done (Z_OK, None)
    | Some f =>
      let? r := save_body fuel (Save z (init_cipher key) f stack 0) in
      Done (r.1, Some (sv_fp r.2))
    end
  end.
End save.

(** ** Loading *)

Section load.
Context `{Zl : Zlib} `{Rc : Rc4}.

(** The stream that is read: [zstrm] with its pointer into [in_buf], the file and whether its end
    was met, the cipher. *)
Record load_state := Load {
  ld_ist : istate;
  ld_next : Z;                  (* zstrm.next_in - in_buf *)
  ld_avail : Z;                 (* zstrm.avail_in *)
  ld_total : Z;                 (* zstrm.total_in *)
  ld_buf : list Z;              (* in_buf *)
  ld_fp : FILE;
  ld_eof : bool;                (* feof(fp) *)
  ld_key : option rc4_key
}.

Definition IN_BUF_SIZE : Z := 4096.

(** The block [if (strm->avail_in == 0 && !feof(fp))]; [false] is the return of an I/O error. *)
Definition inflate_refill : cm load_state bool :=
  let! s := gets (fun s => s) in
  if (ld_avail s =? 0) && negb (ld_eof s) then
    let in_buf := ld_next s - ld_total s in
    let '(got, f) := fread (ld_fp s) IN_BUF_SIZE in
    let eof := (zlen got <? IN_BUF_SIZE) && (f_pos f =? zlen (f_data f)) in
    let! b := lift_res (zwrite_n (ld_buf s) in_buf got) in
    if (zlen got =? 0) && f_err f then
      modify (fun s => Load (ld_ist s) (ld_next s) (ld_avail s) 0 b f eof (ld_key s)) ;;; ret false
    else if 0 <? zlen got then
      let '(plain, k) := cipher (ld_key s) got in
      let! b := lift_res (zwrite_n b in_buf plain) in
      modify (fun s => Load (ld_ist s) in_buf (zlen got) 0 b f eof k) ;;; ret true
    else
      modify (fun s => Load (ld_ist s) (ld_next s) (ld_avail s) 0 b f eof (ld_key s)) ;;; ret true
  else ret true.

(** The loop; [out] is what is in the buffer of the caller and [avail_out] the rest of it. *)
Fixpoint inflate_loop (fuel : nat) (out : list Z) (avail_out : Z) : cm load_state (Z * list Z) :=
  match fuel with
  | O => fail OutOfFuel
  | S fuel =>
    let! ok := inflate_refill in
    if negb ok then ret (SQLITERK_IOERR, out)
    else
      let! s := gets (fun s => s) in
      let! inp := lift_res (zread_n (ld_buf s) (ld_next s) (ld_avail s)) in
      let r := inflate (ld_ist s) inp avail_out in
      modify (fun s => Load (zc_state r) (ld_next s + zc_used r) (ld_avail s - zc_used r) (ld_total s + zc_used r)
                         (ld_buf s) (ld_fp s) (ld_eof s) (ld_key s)) ;;;
      let out := out ++ zc_out r in
      let avail_out := avail_out - zlen (zc_out r) in
      if negb (zc_ret r =? Z_OK) && negb (zc_ret r =? Z_STREAM_END) then ret (SQLITERK_DAMAGED, out)
      else if (0 <? avail_out) && negb (zc_ret r =? Z_STREAM_END) then inflate_loop fuel out avail_out
      else ret (if avail_out =? 0 then SQLITERK_OK else SQLITERK_DAMAGED, out)
  end.

(** The return code and the bytes put into the buffer.  Each turn that asks for another one uses
    up input or room, so the rest of the file and the size bound the turns. *)
Definition inflate_read (size : Z) : cm load_state (Z * list Z) :=
  if size =? 0 then ret (SQLITERK_OK, [])
  else
    let! s := gets (fun s => s) in
    inflate_loop (Z.to_nat (ld_avail s + zlen (f_data (ld_fp s)) - f_pos (ld_fp s) + size + 3)) [] size.

(** The string that starts at [str_buf + i]. *)
Definition string_from (b : list Z) (i : Z) : list Z := cstr (drop (Z.to_nat i) b).

Definition STR_BUF_SIZE : Z := 65536 + 512.

(** One entity, into the map.  [None] is the jump to [bail]. *)
Definition load_entity (filter : option (list (list Z))) (str_buf : list Z) (master : sqliterk_master_map)
  : cm load_state (option (list Z * sqliterk_master_map)) :=
  let! (rc, e) := inflate_read sizeof_master_entity in
  if (rc =? SQLITERK_IOERR) || (rc =? SQLITERK_DAMAGED) then ret None
  else
    let root_page := le_val (slice 0 4 e) in
    let! type := lift_res (zread e 4) in
    let! name_len := lift_res (zread e 5) in
    let! tbl_name_len := lift_res (zread e 6) in
    let sql_len := le_val (slice 8 2 e) in
    let! (rc, x) := inflate_read (name_len + tbl_name_len + sql_len + 3) in
    let! str_buf := lift_res (zwrite_n str_buf 0 x) in
    if (rc =? SQLITERK_IOERR) || (rc =? SQLITERK_DAMAGED) then ret None
    else
      let tbl_name := name_len + 1 in
      let sql := tbl_name + tbl_name_len + 1 in
      let! end1 := lift_res (zread str_buf name_len) in
      let! end2 := lift_res (zread str_buf (tbl_name + tbl_name_len)) in
      let! end3 := lift_res (zread str_buf (sql + sql_len)) in
      if negb (end1 =? 0) || negb (end2 =? 0) || negb (end3 =? 0) then ret None
      else
        let wanted := match filter with
                      | None => true
                      | Some filter => bool_decide (bsearch id (string_from str_buf tbl_name) filter <> None)
                      end in
        let t := if type =? SQLITERK_SM_TYPE_TABLE then sqliterk_type_table
                 else if type =? SQLITERK_SM_TYPE_INDEX then sqliterk_type_index
                 else sqliterk_type_unknown in
        ret (Some (str_buf,
          if wanted then assign (string_from str_buf 0) (Entity t (string_from str_buf sql) (s32 root_page)) master
          else master)).

Fixpoint load_entities (entities : nat) (filter : option (list (list Z))) (str_buf : list Z)
    (master : sqliterk_master_map) : cm load_state (option sqliterk_master_map) :=
  match entities with
  | O => ret (Some master)
  | S entities =>
    let! r := load_entity filter str_buf master in
    match r with
    | None => ret None
    | Some (str_buf, master) => load_entities entities filter str_buf master
    end
  end.

(** The names to look for: [tables] in order, if there are any. *)
Definition load_filter (tables : option (list (list Z))) : option (list (list Z)) :=
  match tables with
  | None | Some [] => None
  | Some tables => Some (qsort id tables)
  end.

(** The result code, the map and the salt when they are handed out.  [malloc_ok]: which sizes
    [malloc] grants; [stack], [heap]: what [in_buf] and [str_buf] hold at first. *)
Definition sqliterk_load_master (malloc_ok : Z -> bool) (stack heap : list Z) (opened : option FILE)
    (key : option (list Z)) (tables : option (list (list Z)))
  : res (Z * option (sqliterk_master_map * list Z)) :=
  let failed := Done (SQLITERK_DAMAGED, None) in
  if negb (malloc_ok STR_BUF_SIZE) then failed
  else if match load_filter tables with Some l => negb (malloc_ok (8 * zlen l)) | None => false end then failed
  else
    let master := default [] (sqliterk_make_master tables).2 in
    match opened with
    | None => failed
    | Some f =>
      let '(header, f) := fread1 f sizeof_master_header in
      match header with
      | None => failed
      | Some h =>
        if negb (bool_decide (take 6 h = SQLITERK_SM_MAGIC)) || negb (le_val (slice 6 2 h) =? SQLITERK_SM_VERSION)
        then failed
        else
          match inflateInit with
          | None => failed
          | Some z =>
            let? r := load_entities (Z.to_nat (le_val (slice 8 4 h))) (load_filter tables) heap master
                        (Load z 0 0 0 stack f false (init_cipher key)) in
            match r.1 with
            | None => failed
            | Some m => Done (SQLITERK_OK, Some (m, slice 12 16 h))
            end
          end
      end
    end.
End load.
