(* ===== verification/MasterFacts.v ===== *)
(** * Backups of the table of tables: the two streams

    Writing: after each row the file holds what [deflate] made of the rows so far.  Reading:
    each request gives the next bytes of the contents. *)

From S2P Require Import Prelude CLib Streams Values Btree Backup SqliteColumn StdMap MasterFile.

(** ** The cipher *)

Section cipher_facts.
Context `{Rc : Rc4} `{RL : !Rc4Laws Rc}.

Lemma cipher_app k a b :
  cipher k (a ++ b) = ((cipher k a).1 ++ (cipher (cipher k a).2 b).1, (cipher (cipher k a).2 b).2).
Proof.
  destruct k as [k|]; [|done]. cbn. rewrite rc4_app. destruct (rc4 k a) as [x k'].
  cbn. by destruct (rc4 k' b).
Qed.

Lemma cipher_nil k : cipher k [] = ([], k).
Proof. destruct k as [k|]; [|done]. cbn. by rewrite rc4_nil. Qed.

Lemma cipher_length k a : zlen (cipher k a).1 = zlen a.
Proof.
  destruct k as [k|]; [|done]. cbn. pose proof (rc4_length k a). destruct (rc4 k a). cbn in *. unfold zlen. lia.
Qed.

Lemma cipher_undo k a : (cipher k (cipher k a).1).1 = a.
Proof.
  destruct k as [k|]; [|done]. cbn. pose proof (rc4_undo k a). destruct (rc4 k a) as [x k']. cbn in *. by rewrite H.
Qed.
End cipher_facts.

(** ** A row of the table of tables *)

Record mrow := MRow { m_index : bool; m_name : list Z; m_tbl_name : list Z; m_root : Z; m_sql : list Z }.

Definition mrow_bytes (r : mrow) : list Z :=
  master_entity_bytes (m_root r) (if m_index r then SQLITERK_SM_TYPE_INDEX else SQLITERK_SM_TYPE_TABLE)
    (zlen (m_name r)) (zlen (m_tbl_name r)) (zlen (m_sql r)) ++
  (m_name r ++ [0]) ++ (m_tbl_name r ++ [0]) ++ (m_sql r ++ [0]).

(** What the file can hold. *)
Definition mrow_ok (r : mrow) : Prop :=
  (0 ∉ m_name r) /\ (0 ∉ m_tbl_name r) /\ (0 ∉ m_sql r) /\
  zlen (m_name r) <= 255 /\ zlen (m_tbl_name r) <= 255 /\ zlen (m_sql r) <= 65535 /\ - 2 ^ 31 <= m_root r < 2 ^ 31.

Lemma zlen_entity_bytes a b c d e : zlen (master_entity_bytes a b c d e) = sizeof_master_entity.
Proof. done. Qed.

Lemma zlen_mrow_bytes r :
  zlen (mrow_bytes r) = 13 + zlen (m_name r) + zlen (m_tbl_name r) + zlen (m_sql r).
Proof.
  unfold mrow_bytes. rewrite !zlen_app, zlen_entity_bytes. change (zlen [0]) with 1. unfold sizeof_master_entity. lia.
Qed.

(** ** Writing *)

Section save_facts.
Context `{Zl : Zlib} `{ZL : !ZlibLaws Zl} `{ZD : !ZlibDrain Zl ZL} `{Rc : Rc4} `{RL : !Rc4Laws Rc}.
Context `{Sq : SqliteRead} `{Sc : SqliteColumn} `{Fh : SqliteFileHead}.
Context (k0 : option rc4_key).

(** The stream has taken [i] and given [o], which is in the file behind the place of the header. *)
Record saved (i o : list Z) (s : save_state) : Prop := Saved {
  sv_rep : drep (sv_zst s) i o;
  sv_file : f_data (sv_fp s) = zeros sizeof_master_header ++ (cipher k0 o).1;
  sv_cipher : sv_key s = (cipher k0 o).2;
  sv_end : at_end true (sv_fp s)
}.

Definition same_buffers (s s' : save_state) : Prop := sv_in s' = sv_in s /\ sv_entities s' = sv_entities s.

(** One turn of the loop writes what [deflate] gave. *)
Lemma deflate_turn i o s z x :
  saved i o s ->
  let '(out, k) := cipher (sv_key s) x in
  let '(n, f) := fwrite (sv_fp s) out in
  zlen out = zlen x /\ n = zlen out /\
  forall i', drep z i' (o ++ x) -> saved i' (o ++ x) (Save z k f (sv_in s) (sv_entities s)).
Proof.
  intros [Hrep Hf Hk He]. destruct (cipher (sv_key s) x) as [out k] eqn:Ec.
  destruct (fwrite_end (sv_fp s) out He) as (f & -> & He' & Hd & _).
  assert (Hl : zlen out = zlen x) by (by rewrite <- (cipher_length (sv_key s) x), Ec).
  split; [done|]. split; [done|]. intros i' Hz. rewrite Hk in Ec.
  split; cbn [sv_zst sv_fp sv_key]; [done| | |done]; rewrite cipher_app, Ec; cbn [fst snd].
  - rewrite Hd, Hf, <- app_assoc. done.
  - done.
Qed.

(** The bound on the output gives a bound on the turns. *)
Lemma deflate_loop_more B fuel : forall inp i o s,
  saved i o s -> dopen (sv_zst s) ->
  (forall n, 0 <= n <= zlen i + zlen inp -> deflateBound n <= B) -> B < zlen o + OUT_BUF_SIZE * Z.of_nat fuel ->
  wp (deflate_loop fuel inp false) (fun e s' => e = None /\ same_buffers s s' /\
    exists o', saved (i ++ inp) o' s' /\ dopen (sv_zst s')) s.
Proof.
  unfold OUT_BUF_SIZE in *. induction fuel as [|fuel IH]; intros inp i o s Hs Ho HB Hf.
  { pose proof (deflate_bound _ _ _ (sv_rep _ _ _ Hs)). specialize (HB (zlen i) ltac:(zlen_pos; lia)). lia. }
  cbn [deflate_loop]. apply wp_bind_gets. unfold OUT_BUF_SIZE. set (r := deflate (sv_zst s) inp 2048 false).
  pose proof (deflate_rep _ i o inp 2048 false (sv_rep _ _ _ Hs) ltac:(lia)) as (Hu & Hroom & Hrep). fold r in Hu, Hroom, Hrep.
  destruct (deflate_drains _ i o inp 2048 false (sv_rep _ _ _ Hs) ltac:(lia) (fun _ => Ho) ltac:(done)) as (Hret & Hdr).
  fold r in Hret, Hdr. assert (Ho' : dopen (zc_state r)) by (by apply dopen_step).
  rewrite (proj2 (Z.eqb_neq _ _)) by (unfold Z_STREAM_ERROR, Z_OK, Z_STREAM_END, Z_BUF_ERROR in *; lia).
  pose proof (deflate_turn i o s (zc_state r) (zc_out r) Hs) as Ht.
  destruct (cipher (sv_key s) (zc_out r)) as [out k]. destruct (fwrite (sv_fp s) out) as [n f].
  destruct Ht as (Hlen & -> & Hsv). apply wp_bind_modify. rewrite Z.eqb_refl. cbn [negb].
  assert (Hrep' : drep (zc_state r) (i ++ take (Z.to_nat (zc_used r)) inp) (o ++ zc_out r)).
  { destruct Hret as [H|[H|H]]; [by apply Hrep; left|by apply Hrep; right|].
    destruct (deflate_buf_error _ i o inp 2048 false (sv_rep _ _ _ Hs) ltac:(lia) H) as (-> & _ & Hn & Hd).
    fold r in Hn, Hd. rewrite Hn, take_nil, !app_nil_r. exact Hd. }
  specialize (Hsv _ Hrep'). destruct (zlen (zc_out r) =? 2048) eqn:E.
  - assert (Hsplit : i ++ inp = (i ++ take (Z.to_nat (zc_used r)) inp) ++ drop (Z.to_nat (zc_used r)) inp)
      by (by rewrite <- app_assoc, take_drop).
    rewrite Hsplit. apply (IH _ _ _ _ Hsv Ho'); [|rewrite zlen_app; lia].
    intros m Hm. apply HB. rewrite <- zlen_app, <- Hsplit, zlen_app in Hm. lia.
  - apply wp_ret. split; [done|]. split; [done|]. exists (o ++ zc_out r). split; [|done].
    destruct (Hdr ltac:(lia)) as [Hall _]. rewrite Hall, to_nat_zlen, firstn_all in Hsv. exact Hsv.
Qed.

Lemma deflate_loop_finish B fuel : forall i o s,
  saved i o s -> deflateBound (zlen i) <= B -> B < zlen o + OUT_BUF_SIZE * Z.of_nat fuel ->
  wp (deflate_loop fuel [] true) (fun e s' => e = None /\ same_buffers s s' /\
    exists o', saved i o' s' /\ inflates o' i) s.
Proof.
  unfold OUT_BUF_SIZE in *. induction fuel as [|fuel IH]; intros i o s Hs HB Hf.
  { pose proof (deflate_bound _ _ _ (sv_rep _ _ _ Hs)). lia. }
  cbn [deflate_loop]. apply wp_bind_gets. unfold OUT_BUF_SIZE. set (r := deflate (sv_zst s) [] 2048 true).
  pose proof (deflate_rep _ i o [] 2048 true (sv_rep _ _ _ Hs) ltac:(lia)) as (Hu & Hroom & Hrep). fold r in Hu, Hroom, Hrep.
  destruct (deflate_drains _ i o [] 2048 true (sv_rep _ _ _ Hs) ltac:(lia) ltac:(done) ltac:(done)) as (Hret & Hdr).
  fold r in Hret, Hdr.
  rewrite (proj2 (Z.eqb_neq _ _)) by (unfold Z_STREAM_ERROR, Z_OK, Z_STREAM_END, Z_BUF_ERROR in *; lia).
  pose proof (deflate_turn i o s (zc_state r) (zc_out r) Hs) as Ht.
  destruct (cipher (sv_key s) (zc_out r)) as [out k]. destruct (fwrite (sv_fp s) out) as [n f].
  destruct Ht as (Hlen & -> & Hsv). apply wp_bind_modify. rewrite Z.eqb_refl. cbn [negb].
  assert (Hrep' : drep (zc_state r) i (o ++ zc_out r)).
  { rewrite take_nil, app_nil_r in Hrep. destruct Hret as [H|[H|H]]; [by apply Hrep; left|by apply Hrep; right|].
    destruct (deflate_buf_error _ i o [] 2048 true (sv_rep _ _ _ Hs) ltac:(lia) H) as (_ & _ & Hn & Hd).
    fold r in Hn, Hd. by rewrite Hn, app_nil_r. }
  specialize (Hsv _ Hrep'). destruct (zlen (zc_out r) =? 2048) eqn:E.
  - rewrite drop_nil. apply (IH _ _ _ Hsv); [done|rewrite zlen_app; lia].
  - apply wp_ret. split; [done|]. split; [done|]. exists (o ++ zc_out r). split; [done|].
    destruct (Hdr ltac:(lia)) as [_ Hend].
    destruct (deflate_end _ i o [] 2048 true (sv_rep _ _ _ Hs) ltac:(lia) (Hend eq_refl)) as (_ & _ & H).
    rewrite app_nil_r in H. exact H.
Qed.

(** [in_buf] has its size, and the count of the rows fits. *)
Definition buffers_ok (n : Z) (s : save_state) : Prop := zlen (sv_in s) = 520 /\ sv_entities s = n /\ 0 <= n.

(** The buffer of a row has room. *)
Definition row_fits (r : mrow) : Prop := mrow_ok r /\ zlen (m_name r) + zlen (m_tbl_name r) <= 508.

Definition mrow_type (r : mrow) : Z := if m_index r then SQLITERK_SM_TYPE_INDEX else SQLITERK_SM_TYPE_TABLE.

(** The bytes of a row in [in_buf]. *)
Lemma save_entity_buffer b r :
  zlen b = 520 -> row_fits r ->
  let head := master_entity_bytes (m_root r) (mrow_type r) (zlen (m_name r)) (zlen (m_tbl_name r)) (zlen (m_sql r)) in
  exists b1 b2 b3, zwrite_n b 0 head = Done b1 /\
    zwrite_n b1 sizeof_master_entity (m_name r ++ [0]) = Done b2 /\
    zwrite_n b2 (sizeof_master_entity + zlen (m_name r) + 1) (m_tbl_name r ++ [0]) = Done b3 /\ zlen b3 = 520 /\
    zread_n b3 0 (sizeof_master_entity + zlen (m_name r) + 1 + zlen (m_tbl_name r) + 1) =
      Done (head ++ (m_name r ++ [0]) ++ (m_tbl_name r ++ [0])).
Proof.
  intros Hb [_ Hfit] head. assert (Hh : zlen head = 10) by done. zlen_pos.
  eexists _, _, _. split; [apply (zwrite_n_behind [] b head 0); [done|lia]|]. cbn [app].
  assert (Hl1 : zlen (drop (length head) b) = 510) by (unfold zlen in *; rewrite length_drop; lia).
  split; [apply zwrite_n_behind; [done|]; rewrite Hl1, zlen_app; change (zlen [0]) with 1; lia|].
  assert (Hl2 : zlen (drop (length (m_name r ++ [0])) (drop (length head) b)) = 510 - zlen (m_name r) - 1).
  { unfold zlen in *. rewrite !length_drop, length_app. cbn [length]. lia. }
  rewrite (app_assoc head). split.
  { apply zwrite_n_behind; rewrite ?Hl2, !zlen_app, ?Hh; change (zlen [0]) with 1; unfold sizeof_master_entity; lia. }
  rewrite <- !app_assoc. set (rest := drop (length (m_tbl_name r ++ [0])) _). split.
  - unfold rest. unfold zlen in *. rewrite ?length_app, ?length_drop, ?length_app. cbn [length] in *. lia.
  - set (L := head ++ m_name r ++ [0] ++ m_tbl_name r ++ [0]).
    replace (head ++ m_name r ++ [0] ++ m_tbl_name r ++ [0] ++ rest) with (L ++ rest) by (unfold L; by rewrite <- !app_assoc).
    apply (zread_n_app []); [done|]. unfold L. rewrite !zlen_app, Hh. change (zlen [0]) with 1.
    unfold sizeof_master_entity. lia.
Qed.

Lemma save_entity_spec B fuel r i o n s :
  saved i o s -> dopen (sv_zst s) -> buffers_ok n s -> row_fits r -> n + 1 < 2 ^ 32 ->
  (forall n, 0 <= n <= zlen i + zlen (mrow_bytes r) -> deflateBound n <= B) -> B < OUT_BUF_SIZE * Z.of_nat fuel ->
  wp (save_entity fuel (mrow_type r) (zlen (m_name r)) (zlen (m_tbl_name r)) (m_root r) (zlen (m_sql r))
        (m_name r ++ [0]) (m_tbl_name r ++ [0]) (m_sql r ++ [0]))
    (fun e s' => e = None /\ buffers_ok (n + 1) s' /\
       exists o', saved (i ++ mrow_bytes r) o' s' /\ dopen (sv_zst s')) s.
Proof.
  intros Hs Ho (Hb & Hn & Hn0) Hfit Hmax HB Hfuel. pose proof Hfit as [(_ & _ & _ & H1 & H2 & H3 & _) _].
  destruct (save_entity_buffer (sv_in s) r Hb Hfit) as (b1 & b2 & b3 & E1 & E2 & E3 & Hb3 & Er). zlen_pos.
  rewrite zlen_mrow_bytes in HB.
  unfold save_entity. rewrite !(proj2 (Z.ltb_ge _ _)) by lia. cbn [orb]. cbv zeta.
  assert (Hrd : forall l, zread_n (l ++ [0]) 0 (zlen l + 1) = Done (l ++ [0])).
  { intros l. apply (zread_n_tail []); [done|]. by rewrite zlen_app. }
  apply wp_bind_gets. eapply wp_bind_lift_res; [exact E1|]. eapply wp_bind_lift_res; [apply Hrd|].
  eapply wp_bind_lift_res; [exact E2|]. eapply wp_bind_lift_res; [apply Hrd|]. eapply wp_bind_lift_res; [exact E3|].
  apply wp_bind_modify. eapply wp_bind_lift_res; [exact Er|].
  set (head := master_entity_bytes _ _ _ _ _) in *.
  assert (Hlen : zlen (head ++ (m_name r ++ [0]) ++ m_tbl_name r ++ [0]) = 12 + zlen (m_name r) + zlen (m_tbl_name r)).
  { rewrite !zlen_app. change (zlen head) with 10. change (zlen [0]) with 1. lia. }
  apply wp_bind. eapply wp_mono.
  { apply (deflate_loop_more B fuel _ i o); [by destruct Hs; split|done| |zlen_pos; lia].
    intros m Hm. apply HB. lia. }
  intros e s1 (-> & [Hin1 Hen1] & o1 & Hs1 & Ho1). eapply wp_bind_lift_res; [apply Hrd|].
  apply wp_bind. eapply wp_mono.
  { apply (deflate_loop_more B fuel _ _ o1 s1 Hs1 Ho1); [|zlen_pos; lia].
    intros m Hm. apply HB. rewrite zlen_app in Hm. change (zlen (m_sql r ++ [0])) with (zlen (m_sql r ++ [0])) in Hm.
    rewrite (zlen_app (m_sql r)) in Hm. change (zlen [0]) with 1 in Hm. lia. }
  intros e s2 (-> & [Hin2 Hen2] & o2 & Hs2 & Ho2). apply wp_bind_modify, wp_ret. split; [done|].
  cbn [sv_in sv_entities] in *. split.
  - split; [cbn [sv_in]; congruence|]. cbn [sv_entities]. rewrite Hen2, Hen1, Hn. split; [apply u32_small|]; lia.
  - exists o2. split; [|done]. destruct Hs2 as [A1 A2 A3 A4]. split; [|done..]. cbn [sv_zst].
    unfold mrow_bytes. fold (mrow_type r). fold head. by rewrite <- !app_assoc in *.
Qed.

(** A column that holds a text. *)
Definition is_text (v : sqlite_value) (b : list Z) : Prop :=
  sqlite3_column_text v = Some (b ++ [0]) /\ sqlite3_column_bytes v = zlen b.

(** What a row of the query stands for: a table or an index, or nothing that is saved. *)
Definition row_entity (row : list sqlite_value) (e : option mrow) : Prop :=
  match e with
  | Some r =>
    sqlite3_column_text (column row 0) = Some ((if m_index r then str "index" else str "table") ++ [0]) /\
    is_text (column row 1) (m_name r) /\ is_text (column row 2) (m_tbl_name r) /\
    sqlite3_column_int (column row 3) = m_root r /\ is_text (column row 4) (m_sql r) /\
    take 7 (m_name r) <> str "sqlite_"
  | None =>
    (exists i, (i = 0 \/ i = 1 \/ i = 2 \/ i = 4)%nat /\ sqlite3_column_text (column row i) = None) \/
    (exists name, sqlite3_column_text (column row 1) = Some name /\ take 7 (cstr name) = str "sqlite_") \/
    (exists ty, sqlite3_column_text (column row 0) = Some ty /\ cstr ty <> str "table" /\ cstr ty <> str "index")
  end.

Lemma save_row_skips fuel row s :
  row_entity row None -> save_row fuel row s = Done (None, s).
Proof.
  unfold save_row. intros [(i & Hi & Hn)|[(name & Hn & Hs)|(ty & Hn & Ht1 & Ht2)]].
  - destruct Hi as [-> | [-> | [-> | ->]]]; rewrite Hn; by repeat case_match.
  - rewrite Hn. unfold strncmp. rewrite Hs. by repeat case_match.
  - rewrite Hn. repeat case_match; try done; rewrite strcmp_eqb in *; by repeat case_bool_decide.
Qed.

Lemma save_row_saves fuel row r s :
  row_entity row (Some r) -> row_fits r ->
  save_row fuel row s =
    save_entity fuel (mrow_type r) (zlen (m_name r)) (zlen (m_tbl_name r)) (m_root r) (zlen (m_sql r))
      (m_name r ++ [0]) (m_tbl_name r ++ [0]) (m_sql r ++ [0]) s.
Proof.
  intros (Ht & [Hn1 Hn2] & [Hb1 Hb2] & Hr & [Hs1 Hs2] & Hsys) [(H1 & _) _]. unfold save_row.
  rewrite Ht, Hn1, Hn2, Hb1, Hb2, Hr, Hs1, Hs2. rewrite cstr_app_nul by done. unfold strncmp.
  rewrite strcmp_eqb. rewrite bool_decide_eq_false_2 by done. unfold mrow_type.
  by destruct (m_index r).
Qed.

(** The contents of the stream after some rows. *)
Definition rows_bytes (es : list (option mrow)) : list Z := omap id es ≫= mrow_bytes.

Lemma rows_bytes_cons e es :
  rows_bytes (e :: es) = match e with Some r => mrow_bytes r | None => [] end ++ rows_bytes es.
Proof. by destruct e. Qed.

Lemma save_rows_spec B fuel rows es : Forall2 row_entity rows es -> forall i o n s,
  Forall row_fits (omap id es) ->
  saved i o s -> dopen (sv_zst s) -> buffers_ok n s -> n + zlen (omap id es) < 2 ^ 32 ->
  (forall n, 0 <= n <= zlen i + zlen (rows_bytes es) -> deflateBound n <= B) -> B < OUT_BUF_SIZE * Z.of_nat fuel ->
  wp (save_rows fuel rows)
    (fun e s' => e = None /\ buffers_ok (n + zlen (omap id es)) s' /\
       exists o', saved (i ++ rows_bytes es) o' s' /\ dopen (sv_zst s')) s.
Proof.
  induction 1 as [|row e rows es Hrow Hes IH]; intros i o n s Hfit Hs Ho Hb Hmax HB Hfuel; cbn [save_rows].
  { apply wp_ret. split; [done|]. cbn [omap list_omap]. rewrite zlen_nil, Z.add_0_r. split; [done|].
    exists o. by rewrite app_nil_r. }
  rewrite rows_bytes_cons in HB |- *. apply wp_bind. destruct e as [r|].
  - cbn [omap list_omap id] in Hfit, Hmax |- *. apply Forall_cons in Hfit as [Hr Hfit].
    rewrite zlen_cons in Hmax |- *. zlen_pos.
    unfold wp. rewrite (save_row_saves fuel row r s Hrow Hr).
    pose proof (save_entity_spec B fuel r i o n s Hs Ho Hb Hr ltac:(lia)
      ltac:(intros m Hm; apply HB; rewrite zlen_app; zlen_pos; lia) Hfuel) as He.
    unfold wp in He. destruct (save_entity _ _ _ _ _ _ _ _ _ s) as [[e s1]|]; [|done].
    destruct He as (-> & Hb1 & o1 & Hs1 & Ho1). eapply wp_mono.
    { apply (IH _ o1 (n + 1) s1 Hfit Hs1 Ho1 Hb1); [lia| |done]. intros m Hm. apply HB. rewrite zlen_app in *. lia. }
    intros e2 s2 (-> & Hb2 & o2 & Hs2 & Ho2). split; [done|].
    replace (n + (zlen (omap id es) + 1)) with (n + 1 + zlen (omap id es)) by lia.
    split; [done|]. exists o2. by rewrite <- app_assoc in Hs2.
  - unfold wp. rewrite save_row_skips by done. by apply (IH i o n s).
Qed.
(** Overwriting the place of the header. *)
Lemma overwrite_header f h rest :
  f_data f = zeros sizeof_master_header ++ rest -> f_lim f = [] -> zlen h = sizeof_master_header ->
  exists f', fwrite1 (fseek_to f 0) h = (1, f') /\ f_data f' = h ++ rest.
Proof.
  intros Hd Hl Hh. unfold fwrite1, fwrite, f_grant, fseek_to. cbn [f_lim f_data f_pos f_err]. rewrite Hl, Hd, Hh.
  eexists. split; [done|]. cbn [f_data]. rewrite (take_ge h) by (unfold zlen in Hh; lia).
  change (Z.to_nat 0) with 0%nat. rewrite take_0. cbn [app Nat.add]. f_equal.
  apply drop_app_length'. unfold zlen in Hh. unfold zeros. rewrite length_replicate. unfold sizeof_master_header in *. lia.
Qed.

Definition master_query : stmt_result := sqlite3_query (str "SELECT * FROM sqlite_master;").

Lemma save_body_spec fuel es salt z stack :
  prepare_rc master_query = SQLITE_OK -> finalize_rc master_query = SQLITE_OK ->
  Forall2 row_entity (stmt_rows master_query) es -> Forall row_fits (omap id es) -> zlen (omap id es) < 2 ^ 32 ->
  file_control_rc = SQLITE_OK -> xRead 16 0 = (SQLITE_OK, salt) -> zlen salt = 16 ->
  (forall n, 0 <= n <= zlen (rows_bytes es) -> deflateBound n < OUT_BUF_SIZE * Z.of_nat fuel) ->
  drep z [] [] -> dopen z -> zlen stack = 520 ->
  wp (save_body fuel)
    (fun rc s' => rc = SQLITERK_OK /\ exists o, inflates o (rows_bytes es) /\
       f_data (sv_fp s') =
         master_header_bytes SQLITERK_SM_MAGIC SQLITERK_SM_VERSION (zlen (omap id es)) salt ++ (cipher k0 o).1)
    (Save z k0 (File [] 0 false []) stack 0).
Proof.
  intros Hp Hfin Hrows Hfit Hmax Hfc Hx Hsalt HB Hz Hopen Hstack. unfold save_body. fold master_query.
  rewrite Hp, Hfin. change (negb (SQLITE_OK =? SQLITE_OK)) with false. cbv iota. apply wp_bind_gets. cbn [sv_fp].
  destruct (fwrite1 (File [] 0 false []) (zeros sizeof_master_header)) as [n f] eqn:Ef.
  injection Ef as <- <-. apply wp_bind_modify. change (negb (1 =? 1)) with false. cbv iota.
  set (B := OUT_BUF_SIZE * Z.of_nat fuel - 1).
  assert (HB' : forall n, 0 <= n <= zlen (rows_bytes es) -> deflateBound n <= B) by (intros n Hn; specialize (HB n Hn); lia).
  apply wp_bind. eapply wp_mono.
  { apply (save_rows_spec B fuel _ es Hrows [] [] 0); [done| |done|done|lia|done|lia].
    split; cbn [sv_zst sv_fp sv_key f_data]; [done| | |done]; by rewrite cipher_nil. }
  intros e s1 (-> & (_ & Hn1 & _) & o1 & Hs1 & _). cbn [app] in Hs1. apply wp_bind. zlen_pos.
  eapply wp_mono; [apply (deflate_loop_finish B fuel _ o1 s1 Hs1); [apply HB'; zlen_pos; lia|zlen_pos; lia]|].
  intros e s2 (-> & [_ Hn2] & o2 & [_ Hf2 _ [_ Hl2]] & Hinf). unfold save_header.
  rewrite Hfc, Hx. change (negb (SQLITE_OK =? SQLITE_OK)) with false. cbv iota. apply wp_bind_gets.
  destruct (overwrite_header (sv_fp s2)
    (master_header_bytes SQLITERK_SM_MAGIC SQLITERK_SM_VERSION (sv_entities s2) salt) _ Hf2 (Hl2 eq_refl)) as (f & -> & Hf).
  { unfold master_header_bytes. rewrite !zlen_app, Hsalt. done. }
  apply wp_bind_modify, wp_ret. split; [done|]. exists o2. split; [done|]. cbn [sv_fp]. rewrite Hf, Hn2, Hn1. done.
Qed.
End save_facts.

(** ** Reading *)

Section load_facts.
Context `{Zl : Zlib} `{ZL : !ZlibLaws Zl} `{Rc : Rc4} `{RL : !Rc4Laws Rc}.

(** What is left of the file. *)
Definition unread (s : load_state) : list Z := drop (Z.to_nat (f_pos (ld_fp s))) (f_data (ld_fp s)).

(** The window of input in [in_buf]. *)
Definition window (s : load_state) : list Z := slice (ld_next s) (ld_avail s) (ld_buf s).

(** The stream has [p] left to give.  As long as the end of the file was not met, [total_in] is
    the offset of [next_in], so the next block goes to the start of [in_buf]. *)
Record loading (p : list Z) (s : load_state) : Prop := Loading {
  ld_rep : irep (ld_ist s) (window s ++ (cipher (ld_key s) (unread s)).1) p;
  ld_size : zlen (ld_buf s) = IN_BUF_SIZE;
  ld_window : 0 <= ld_next s /\ 0 <= ld_avail s /\ ld_next s + ld_avail s <= IN_BUF_SIZE;
  ld_start : ld_eof s = false -> ld_next s = ld_total s;
  ld_at_eof : ld_eof s = true -> unread s = [];
  ld_file : f_lim (ld_fp s) = [] /\ f_err (ld_fp s) = false /\ 0 <= f_pos (ld_fp s) <= zlen (f_data (ld_fp s))
}.

(** The input that is left, which each turn of the loop that goes on makes smaller. *)
Definition input_left (s : load_state) : Z := ld_avail s + zlen (unread s).

Lemma zlen_window p s : loading p s -> zlen (window s) = ld_avail s.
Proof. intros [_ Hs Hw _ _ _]. apply zlen_slice; lia. Qed.

Lemma fread_next f n :
  f_lim f = [] -> f_err f = false -> 0 <= f_pos f <= zlen (f_data f) -> 0 < n ->
  let raw := drop (Z.to_nat (f_pos f)) (f_data f) in
  exists f', fread f n = (take (Z.to_nat n) raw, f') /\ f_lim f' = [] /\ f_err f' = false /\
    f_data f' = f_data f /\ f_pos f' = f_pos f + Z.min n (zlen raw) /\
    drop (Z.to_nat (f_pos f')) (f_data f') = drop (Z.to_nat n) raw.
Proof.
  intros Hl He Hp Hn raw. unfold fread, f_grant, slice. rewrite Hl. fold raw.
  rewrite to_nat_zlen, firstn_all. eexists. split; [done|]. cbn [f_lim f_err f_data f_pos].
  rewrite He, Z.ltb_irrefl. split; [done|]. split; [done|]. split; [done|].
  assert (Hg : zlen (take (Z.to_nat n) raw) = Z.min n (zlen raw)) by (unfold zlen; rewrite length_take; lia).
  rewrite Hg. split; [done|].
  assert (zlen raw = zlen (f_data f) - f_pos f) by (apply zlen_drop; lia).
  destruct (Z_le_gt_dec n (zlen raw)).
  - rewrite Z.min_l by lia. unfold raw. rewrite drop_drop. f_equal. lia.
  - rewrite Z.min_r by lia. rewrite !drop_ge; [done|unfold zlen in *; lia..].
Qed.

(** Refilling: the window is not empty unless the file is at its end. *)
Lemma inflate_refill_spec p s :
  loading p s ->
  wp inflate_refill (fun ok s' => ok = true /\ loading p s' /\ input_left s' = input_left s /\
    (ld_avail s' = 0 -> unread s' = [])) s.
Proof.
  intros HL. pose proof HL as [Hrep Hsize Hwin Hstart Heof (Hl & He & Hp)]. unfold inflate_refill.
  apply wp_bind_gets. destruct ((ld_avail s =? 0) && negb (ld_eof s)) eqn:E.
  2: { apply wp_ret. split; [done|]. split; [done|]. split; [done|]. intros Ha.
       apply Heof. destruct (ld_eof s); [done|]. rewrite Ha in E. done. }
  apply andb_prop in E as [Ea Ee]. apply Z.eqb_eq in Ea. apply negb_true_iff in Ee.
  assert (Hw0 : window s = []) by (apply zlen_0_inv; rewrite (zlen_window p s HL); done).
  rewrite Hw0 in Hrep. cbn [app] in Hrep.
  destruct (fread_next (ld_fp s) IN_BUF_SIZE Hl He Hp ltac:(done)) as (f & -> & Hl' & He' & Hd' & Hp' & Hrest).
  fold (unread s) in Hp', Hrest |- *. set (got := take (Z.to_nat IN_BUF_SIZE) (unread s)).
  assert (Hg : zlen got = Z.min IN_BUF_SIZE (zlen (unread s))) by (unfold got, zlen; rewrite length_take; unfold IN_BUF_SIZE; lia).
  assert (Hraw : zlen (unread s) = zlen (f_data (ld_fp s)) - f_pos (ld_fp s)) by (apply zlen_drop; lia).
  rewrite (Hstart Ee), Z.sub_diag. zlen_pos.
  eapply wp_bind_lift_res; [apply (zwrite_n_behind [] (ld_buf s)); [done|unfold IN_BUF_SIZE in *; lia]|].
  cbn [app]. rewrite He'. rewrite andb_false_r.
  assert (Hfile : forall i nx av b e k, zlen b = IN_BUF_SIZE ->
    unread (Load i nx av 0 b f e k) = drop (Z.to_nat IN_BUF_SIZE) (unread s)) by (intros; exact Hrest).
  assert (Hblen : zlen (got ++ drop (length got) (ld_buf s)) = IN_BUF_SIZE).
  { unfold zlen, IN_BUF_SIZE in *. rewrite length_app, length_drop. lia. }
  destruct (0 <? zlen got) eqn:Eg.
  - destruct (cipher (ld_key s) got) as [plain k] eqn:Ec.
    assert (Hpl : zlen plain = zlen got) by (by rewrite <- (cipher_length (ld_key s) got), Ec).
    eapply wp_bind_lift_res; [apply (zwrite_n_app [] got); done|]. cbn [app]. apply wp_bind_modify, wp_ret.
    set (s' := Load _ _ _ _ _ _ _ _). split; [done|].
    assert (Hu' : unread s' = drop (Z.to_nat IN_BUF_SIZE) (unread s)) by (exact Hrest).
    assert (Hw' : window s' = plain).
    { unfold window, s'. cbn [ld_next ld_avail ld_buf]. unfold slice. change (Z.to_nat 0) with 0%nat. rewrite drop_0.
      rewrite to_nat_zlen. unfold zlen in Hpl. by rewrite take_app_length' by lia. }
    split; [split|split].
    + rewrite Hw', Hu'. change (ld_key s') with k. change (ld_ist s') with (ld_ist s).
      rewrite <- (take_drop (Z.to_nat IN_BUF_SIZE) (unread s)) in Hrep. fold got in Hrep.
      rewrite cipher_app, Ec in Hrep. exact Hrep.
    + cbn [s' ld_buf]. rewrite zlen_app in *. lia.
    + cbn [s' ld_next ld_avail]. lia.
    + done.
    + intros Hef. cbn [s' ld_eof] in Hef. rewrite Hu'. apply drop_ge. unfold IN_BUF_SIZE, zlen in *. lia.
    + cbn [s' ld_fp]. rewrite Hl', He', Hd', Hp'. unfold IN_BUF_SIZE in *. split; [done|]. split; [done|]. lia.
    + unfold input_left. rewrite Hu'. cbn [s' ld_avail]. rewrite Hg, Ea. unfold zlen, IN_BUF_SIZE. rewrite length_drop. lia.
    + intros Hz. cbn [s' ld_avail] in Hz. lia.
  - apply wp_bind_modify, wp_ret. set (s' := Load _ _ _ _ _ _ _ _). split; [done|].
    assert (Hz : zlen (unread s) = 0) by (unfold IN_BUF_SIZE in *; lia).
    assert (Hu0 : unread s = []) by (apply zlen_0_inv; unfold IN_BUF_SIZE in *; lia).
    assert (Hu' : unread s' = []) by (unfold s'; rewrite Hfile by done; rewrite Hu0; apply drop_nil).
    assert (Hw' : window s' = []) by (unfold window; cbn [s' ld_avail]; rewrite Ea; reflexivity).
    split; [split|split; [|done]].
    + rewrite Hw', Hu'. rewrite Hu0 in Hrep. exact Hrep.
    + done.
    + cbn [s' ld_next ld_avail]. lia.
    + intros Hef. cbn [s' ld_eof] in Hef. apply andb_false_iff in Hef as [Hef|Hef]; unfold IN_BUF_SIZE in *;
        [lia|]. rewrite Hp', Hd' in Hef. lia.
    + done.
    + cbn [s' ld_fp]. rewrite Hl', He', Hd', Hp'. unfold IN_BUF_SIZE in *. split; [done|]. split; [done|]. lia.
    + unfold input_left. rewrite Hu', Hu0. done.
Qed.

(** The loop gives exactly what was asked for, if the contents have that much left. *)
Lemma inflate_loop_spec fuel : forall p s out n,
  loading p s -> 0 < n <= zlen p -> input_left s < Z.of_nat fuel ->
  wp (inflate_loop fuel out n) (fun '(rc, x) s' => rc = SQLITERK_OK /\ x = out ++ take (Z.to_nat n) p /\
    loading (drop (Z.to_nat n) p) s') s.
Proof.
  induction fuel as [|fuel IH]; intros p s out n HL Hn Hf.
  { destruct HL as [_ _ Hw _ _ _]. unfold input_left in Hf. zlen_pos. lia. }
  cbn [inflate_loop]. apply wp_bind. eapply wp_mono; [by apply inflate_refill_spec|].
  intros ok s1 (-> & HL1 & Hleft & Hnone). cbn [negb]. cbv iota. apply wp_bind_gets.
  pose proof (zlen_window p s1 HL1) as Hwl. pose proof HL1 as [Hrep Hsize Hwin Hstart Heof Hfile].
  eapply wp_bind_lift_res; [apply zread_n_slice; lia|]. fold (window s1).
  destruct (inflate_rep _ _ _ _ n Hrep ltac:(lia)) as (left & p' & Hin & Hu & Hp & Hroom & Hrep' & Hret).
  { intros Hw0. rewrite Hw0, zlen_nil in Hwl. rewrite (Hnone (eq_sym Hwl)). by rewrite cipher_nil. }
  set (r := inflate (ld_ist s1) (window s1) n) in *. apply wp_bind_modify. set (s2 := Load _ _ _ _ _ _ _ _).
  assert (Hw2 : window s2 = left).
  { unfold window, s2, slice in *. cbn [ld_next ld_avail ld_buf].
    assert (Hl : left = drop (Z.to_nat (zc_used r)) (take (Z.to_nat (ld_avail s1)) (drop (Z.to_nat (ld_next s1)) (ld_buf s1)))).
    { rewrite Hin at 1. rewrite drop_app_length'; [done|]. rewrite length_take. unfold zlen in Hu. lia. }
    rewrite Hl, skipn_firstn_comm, drop_drop. f_equal; [lia|]. f_equal. lia. }
  assert (HL2 : loading p' s2).
  { split; [by rewrite Hw2|done| | |done|done]; cbn [s2 ld_next ld_avail ld_eof ld_total]; [lia|]. intros H. rewrite (Hstart H). done. }
  assert (Hret' : negb (zc_ret r =? Z_OK) && negb (zc_ret r =? Z_STREAM_END) = false).
  { destruct Hret as [[-> _]|[-> _]]; [done|]. apply andb_false_r. }
  rewrite Hret'. destruct ((0 <? n - zlen (zc_out r)) && negb (zc_ret r =? Z_STREAM_END)) eqn:E.
  - apply andb_prop in E as [En Er]. destruct Hret as [[_ [H|[Hl Hne]]]|[H _]]; [lia| |by rewrite H in Er].
    subst left. rewrite Hp in Hn. rewrite zlen_app in Hn.
    eapply wp_mono; [apply (IH p' s2 (out ++ zc_out r) (n - zlen (zc_out r)) HL2); [lia|]|].
    + assert (0 < zlen (window s1)) by (destruct (window s1); [done|rewrite zlen_cons; zlen_pos; lia]).
      unfold input_left in *. change (unread s2) with (unread s1).
      assert (ld_avail s2 = 0) by (by rewrite <- (zlen_window p' s2 HL2), Hw2). lia.
    + intros [rc x] s3 (-> & -> & HL3). split; [done|]. rewrite Hp.
      assert (Hle : (length (zc_out r) <= Z.to_nat n)%nat) by (unfold zlen in *; lia). split.
      * rewrite <- app_assoc. f_equal. rewrite take_app_ge by done. f_equal. f_equal. unfold zlen. lia.
      * rewrite drop_app_ge by done. by replace (Z.to_nat n - length (zc_out r))%nat with (Z.to_nat (n - zlen (zc_out r))) by (unfold zlen; lia).
  - assert (Hall : zlen (zc_out r) = n).
    { destruct Hret as [[Hr [H|H]]|[_ [H _]]]; [done| |].
      - rewrite Hr in E. change (Z_OK =? Z_STREAM_END) with false in E. rewrite andb_true_r in E. lia.
      - rewrite Hp, H, app_nil_r in Hn. lia. }
    apply wp_ret. rewrite Hall, Z.sub_diag. split; [done|]. rewrite Hp, <- Hall, to_nat_zlen.
    by rewrite take_app_length, drop_app_length.
Qed.

(** A request for bytes that are there. *)
Lemma inflate_read_spec x rest s :
  loading (x ++ rest) s -> x <> [] ->
  wp (inflate_read (zlen x)) (fun '(rc, y) s' => rc = SQLITERK_OK /\ y = x /\ loading rest s') s.
Proof.
  intros HL Hx. assert (0 < zlen x) by (destruct x; [done|rewrite zlen_cons; zlen_pos; lia]).
  unfold inflate_read. rewrite (proj2 (Z.eqb_neq _ _)) by lia. apply wp_bind_gets. pose proof HL as [_ _ Hw _ _ (_ & _ & Hp)].
  eapply wp_mono.
  - apply (inflate_loop_spec _ (x ++ rest) s []); [done|rewrite zlen_app; zlen_pos; lia|].
    unfold input_left, unread. rewrite zlen_drop by lia. lia.
  - intros [rc y] s' (-> & -> & H'). rewrite to_nat_zlen, take_app_length, drop_app_length in *. done.
Qed.

(** What the map keeps of a row. *)
Definition mrow_entity (r : mrow) : sqliterk_master_entity :=
  Entity (if m_index r then sqliterk_type_index else sqliterk_type_table) (m_sql r) (m_root r).

Definition wanted (filter : option (list (list Z))) (r : mrow) : bool :=
  match filter with None => true | Some l => bool_decide (bsearch id (m_tbl_name r) l <> None) end.

Definition load_mrow (filter : option (list (list Z))) (m : sqliterk_master_map) (r : mrow) : sqliterk_master_map :=
  if wanted filter r then assign (m_name r) (mrow_entity r) m else m.

Lemma s32_u32 v : - 2 ^ 31 <= v < 2 ^ 31 -> s32 (u32 v) = v.
Proof.
  intros. unfold s32, wrap_s, u32. change (2 ^ (32 - 1)) with (2 ^ 31). rewrite Zplus_mod_idemp_l.
  rewrite Z.mod_small by lia. lia.
Qed.

(** The fields of an entity. *)
Lemma entity_fields r : mrow_ok r ->
  let e := master_entity_bytes (m_root r) (mrow_type r) (zlen (m_name r)) (zlen (m_tbl_name r)) (zlen (m_sql r)) in
  s32 (le_val (slice 0 4 e)) = m_root r /\ zread e 4 = Done (mrow_type r) /\ zread e 5 = Done (zlen (m_name r)) /\
  zread e 6 = Done (zlen (m_tbl_name r)) /\ le_val (slice 8 2 e) = zlen (m_sql r).
Proof.
  intros (_ & _ & _ & H1 & H2 & H3 & H4) e. zlen_pos.
  assert (Hroot : slice 0 4 e = le_bytes 4 (u32 (m_root r))) by done.
  assert (Hsql : slice 8 2 e = le_bytes 2 (u16 (zlen (m_sql r)))) by done.
  assert (Hname : zread e 5 = Done (u8 (zlen (m_name r)))) by done.
  assert (Htbl : zread e 6 = Done (u8 (zlen (m_tbl_name r)))) by done.
  rewrite Hroot, Hsql, Hname, Htbl. rewrite !le_val_bytes by (apply u32_range || (apply Z.mod_pos_bound; lia)).
  rewrite s32_u32, !u8_small, u16_small by lia. done.
Qed.

(** The three strings behind an entity, in the buffer. *)
Lemma entity_strings r junk : mrow_ok r ->
  let b := ((m_name r ++ [0]) ++ (m_tbl_name r ++ [0]) ++ (m_sql r ++ [0])) ++ junk in
  let tbl := zlen (m_name r) + 1 in
  let sql := tbl + zlen (m_tbl_name r) + 1 in
  zread b (zlen (m_name r)) = Done 0 /\ zread b (tbl + zlen (m_tbl_name r)) = Done 0 /\
  zread b (sql + zlen (m_sql r)) = Done 0 /\
  string_from b 0 = m_name r /\ string_from b tbl = m_tbl_name r /\ string_from b sql = m_sql r.
Proof.
  intros (H1 & H2 & H3 & _) b tbl sql.
  assert (Hb1 : b = m_name r ++ 0 :: (m_tbl_name r ++ 0 :: m_sql r ++ 0 :: junk)) by (unfold b; rewrite <- !app_assoc; done).
  assert (Hb2 : b = (m_name r ++ [0]) ++ m_tbl_name r ++ 0 :: (m_sql r ++ 0 :: junk)) by (rewrite Hb1, <- !app_assoc; done).
  assert (Hb3 : b = (m_name r ++ [0] ++ m_tbl_name r ++ [0]) ++ m_sql r ++ 0 :: junk) by (rewrite Hb1, <- !app_assoc; done).
  assert (Ht : tbl = zlen (m_name r ++ [0])) by (by rewrite zlen_app).
  assert (Hs : sql = zlen (m_name r ++ [0] ++ m_tbl_name r ++ [0])).
  { rewrite !zlen_app. change (zlen [0]) with 1. unfold sql, tbl. lia. }
  split; [rewrite Hb1; by apply zread_app|].
  split; [rewrite Hb2, app_assoc; apply zread_app; by rewrite zlen_app, Ht|].
  split; [rewrite Hb3, app_assoc; apply zread_app; by rewrite zlen_app, Hs|].
  unfold string_from. split; [rewrite Hb1; by apply cstr_app_nul|]. split.
  - rewrite Hb2, Ht, to_nat_zlen, drop_app_length. by apply cstr_app_nul.
  - rewrite Hb3, Hs, to_nat_zlen, drop_app_length. by apply cstr_app_nul.
Qed.

Lemma load_entity_spec filter r rest b m s :
  loading (mrow_bytes r ++ rest) s -> mrow_ok r -> zlen b = STR_BUF_SIZE ->
  wp (load_entity filter b m) (fun x s' => exists b', x = Some (b', load_mrow filter m r) /\ zlen b' = STR_BUF_SIZE /\
    loading rest s') s.
Proof.
  intros HL Hok Hb. pose proof Hok as (_ & _ & _ & H1 & H2 & H3 & _). zlen_pos.
  destruct (entity_fields r Hok) as (F1 & F2 & F3 & F4 & F5).
  unfold mrow_bytes in HL. fold (mrow_type r) in HL. rewrite <- app_assoc in HL.
  set (e := master_entity_bytes _ _ _ _ _) in *. set (x := (m_name r ++ [0]) ++ _) in *.
  assert (Hx : zlen x = zlen (m_name r) + zlen (m_tbl_name r) + zlen (m_sql r) + 3).
  { unfold x. rewrite !zlen_app. change (zlen [0]) with 1. lia. }
  unfold load_entity. apply wp_bind. change sizeof_master_entity with (zlen e).
  eapply wp_mono; [apply (inflate_read_spec e _ s HL); done|]. intros [rc y] s1 (-> & -> & HL1).
  change ((SQLITERK_OK =? SQLITERK_IOERR) || (SQLITERK_OK =? SQLITERK_DAMAGED)) with false. cbv iota.
  eapply wp_bind_lift_res; [exact F2|]. eapply wp_bind_lift_res; [exact F3|]. eapply wp_bind_lift_res; [exact F4|].
  rewrite F5, <- Hx. apply wp_bind. eapply wp_mono; [apply (inflate_read_spec x _ s1 HL1)|].
  { intros Hx0. rewrite Hx0, zlen_nil in Hx. lia. }
  intros [rc y] s2 (-> & -> & HL2).
  eapply wp_bind_lift_res; [apply (zwrite_n_behind [] b x); [done|unfold STR_BUF_SIZE in Hb; lia]|].
  change ((SQLITERK_OK =? SQLITERK_IOERR) || (SQLITERK_OK =? SQLITERK_DAMAGED)) with false. cbv iota. cbn [app].
  destruct (entity_strings r (drop (length x) b) Hok) as (E1 & E2 & E3 & S1 & S2 & S3).
  fold x in E1, E2, E3, S1, S2, S3. eapply wp_bind_lift_res; [exact E1|]. eapply wp_bind_lift_res; [exact E2|]. eapply wp_bind_lift_res; [exact E3|].
  change (negb (0 =? 0) || negb (0 =? 0) || negb (0 =? 0)) with false. cbv iota. apply wp_ret.
  eexists. split; [|split; [|exact HL2]].
  - rewrite S1, S2, S3, F1. unfold load_mrow, wanted, mrow_entity, mrow_type. destruct (m_index r); done.
  - unfold zlen, STR_BUF_SIZE in *. rewrite length_app, length_drop. lia.
Qed.

Lemma load_entities_spec filter rs : forall b m s,
  loading (rs ≫= mrow_bytes) s -> Forall mrow_ok rs -> zlen b = STR_BUF_SIZE ->
  wp (load_entities (length rs) filter b m) (fun x _ => x = Some (foldl (load_mrow filter) m rs)) s.
Proof.
  induction rs as [|r rs IH]; intros b m s HL Hok Hb; cbn [load_entities length foldl]; [by apply wp_ret|].
  apply Forall_cons in Hok as [Hr Hok]. rewrite bind_cons in HL.
  apply wp_bind. eapply wp_mono; [by apply (load_entity_spec filter r)|].
  intros x s1 (b' & -> & Hb' & HL1). by apply IH.
Qed.
End load_facts.
