(* ===== verification/MasterProps.v ===== *)
(** * Backups of the table of tables: theorems

    A backup that is loaded again, loading from a file of any contents, and what saving does
    with rows and files it cannot handle. *)

From S2P Require Import Prelude CLib Streams Values Btree Backup SqliteColumn StdMap MasterFile MasterFacts.

Section roundtrip.
Context `{Zl : Zlib} `{ZL : !ZlibLaws Zl} `{ZD : !ZlibDrain Zl ZL} `{Rc : Rc4} `{RL : !Rc4Laws Rc}.
Context `{Sq : SqliteRead} `{Sc : SqliteColumn} `{Fh : SqliteFileHead}.

(** Whether a row is one of the tables asked for. *)
Definition asked_for (tables : option (list (list Z))) (r : mrow) : bool :=
  match tables with
  | None | Some [] => true
  | Some l => bool_decide (m_tbl_name r ∈ l)
  end.

(** The map that is loaded: an empty entry for each table asked for, then the rows. *)
Definition loaded (tables : option (list (list Z))) (rs : list mrow) : sqliterk_master_map :=
  foldl (fun m r => if asked_for tables r then assign (m_name r) (mrow_entity r) m else m)
    (foldl (fun m t => assign t (Entity sqliterk_type_unknown [] 0) m) [] (default [] tables)) rs.

(** Searching the sorted names is membership. *)
Lemma wanted_asked tables r : wanted (load_filter tables) r = asked_for tables r.
Proof.
  destruct tables as [[|t l]|]; try done. cbn [load_filter wanted asked_for].
  pose proof (bsearch_spec id (m_tbl_name r) (qsort id (t :: l)) (qsort_sorted id _)) as H.
  apply bool_decide_ext. destruct (bsearch id (m_tbl_name r) (qsort id (t :: l))) as [a|].
  - destruct H as [Hin Ha]. cbn in Ha. subst a. rewrite (qsort_perm id (t :: l)) in Hin. done.
  - split; [done|]. intros Hin. rewrite <- (qsort_perm id (t :: l)) in Hin. by apply H in Hin.
Qed.

Lemma made_master tables :
  default [] (sqliterk_make_master tables).2 =
  foldl (fun m t => assign t (Entity sqliterk_type_unknown [] 0) m) [] (default [] tables).
Proof. by destruct tables as [[|t l]|]. Qed.

Lemma foldl_load tables rs m :
  foldl (load_mrow (load_filter tables)) m rs =
  foldl (fun m r => if asked_for tables r then assign (m_name r) (mrow_entity r) m else m) m rs.
Proof.
  revert m. induction rs as [|r rs IH]; intros m; [done|]. cbn [foldl]. rewrite IH. unfold load_mrow.
  by rewrite wanted_asked.
Qed.

(** C15: backup and restore of the table of tables.  From a healthy database, whose rows have texts
    that fit the format, on a file that takes all writes, [sqliterk_save_master] returns OK;
    [sqliterk_load_master] on this file, with the same key, returns OK, the salt, and a map
    with each table and index that is not of the system, under its name with its statement
    and its root page: all of them, or those that belong to the tables asked for, which have
    an empty entry if there is no row for them. *)
Theorem save_load_master fuel init_rc stack key es salt z zi :
  deflateInit (-1) = Some z -> inflateInit = Some zi ->
  prepare_rc master_query = SQLITE_OK -> finalize_rc master_query = SQLITE_OK ->
  Forall2 row_entity (stmt_rows master_query) es -> Forall row_fits (omap id es) -> zlen (omap id es) < 2 ^ 32 ->
  file_control_rc = SQLITE_OK -> xRead 16 0 = (SQLITE_OK, salt) -> zlen salt = 16 -> zlen stack = 520 ->
  (forall n, 0 <= n <= zlen (rows_bytes es) -> deflateBound n < OUT_BUF_SIZE * Z.of_nat fuel) ->
  exists f, sqliterk_save_master fuel init_rc stack (Some (File [] 0 false [])) key = Done (SQLITERK_OK, Some f) /\
    forall tables stack' heap, zlen stack' = IN_BUF_SIZE -> zlen heap = STR_BUF_SIZE ->
      sqliterk_load_master (fun _ => true) stack' heap (Some (File (f_data f) 0 false [])) key tables =
        Done (SQLITERK_OK, Some (loaded tables (omap id es), salt)).
Proof.
  intros Hz Hzi Hp Hfin Hrows Hfit Hmax Hfc Hx Hsalt Hstack Hfuel.
  pose proof (save_body_spec (init_cipher key) fuel es salt z stack Hp Hfin Hrows Hfit Hmax Hfc Hx Hsalt Hfuel
    (deflateInit_rep _ _ Hz) (dopen_init _ _ Hz) Hstack) as H. unfold wp in H.
  unfold sqliterk_save_master. rewrite Hz.
  destruct (save_body fuel _) as [[rc s]|]; [|done]. destruct H as (-> & o & Hinf & Hf). cbn [res_bind fst snd].
  exists (sv_fp s). split; [done|]. intros tables stack' heap Hst Hhp. unfold sqliterk_load_master. cbn [negb].
  set (h := master_header_bytes _ _ _ _) in Hf. set (enc := (cipher (init_cipher key) o).1) in Hf.
  assert (Hh : zlen h = sizeof_master_header) by (unfold h, master_header_bytes; rewrite !zlen_app, Hsalt; done).
  replace (match load_filter tables with Some _ | _ => false end) with false by (by destruct (load_filter tables)).
  rewrite <- Hh. rewrite (fread1_at _ [] h enc); [|exact Hf|done|done|intros E; by rewrite E in Hh].
  assert (Hmagic : take 6 h = SQLITERK_SM_MAGIC) by done. rewrite Hmagic, bool_decide_eq_true_2 by done.
  assert (Hver : le_val (slice 6 2 h) = SQLITERK_SM_VERSION) by done. rewrite Hver, Z.eqb_refl. cbn [negb orb].
  rewrite Hzi, made_master.
  assert (Hcount : slice 8 4 h = le_bytes 4 (zlen (omap id es))) by done.
  rewrite Hcount, le_val_bytes by (change (256 ^ Z.of_nat 4) with (2 ^ 32); zlen_pos; lia). rewrite to_nat_zlen.
  set (s0 := Load _ _ _ _ _ _ _ _).
  assert (HL : loading (rows_bytes es) s0).
  { split; try done.
    - cbn [s0 window ld_next ld_avail ld_buf ld_ist ld_key]. unfold window, slice. cbn [s0 ld_avail]. cbn [Z.to_nat].
      rewrite take_0. cbn [app]. unfold unread. cbn [s0 ld_fp f_pos f_data]. rewrite Hf, Z.add_0_l, to_nat_zlen.
      rewrite drop_app_length. unfold enc. rewrite cipher_undo. by apply inflates_rep.
    - cbn [s0 ld_fp f_lim f_err f_pos f_data]. rewrite Hf, zlen_app. change (zlen (@nil Z)) with 0. zlen_pos. split; [done|]. split; [done|]. lia. }
  pose proof (load_entities_spec (load_filter tables) (omap id es) heap
    (foldl (fun m t => assign t (Entity sqliterk_type_unknown [] 0) m) [] (default [] tables)) s0 HL
    ltac:(eapply Forall_impl; [exact Hfit|]; by intros r [? _]) Hhp) as H. unfold wp in H.
  destruct (load_entities _ _ _ _ s0) as [[x s1]|]; [|done]. subst x. cbn [res_bind fst]. unfold loaded.
  rewrite foldl_load. do 4 f_equal.
  assert (Hs : h = (SQLITERK_SM_MAGIC ++ le_bytes 2 SQLITERK_SM_VERSION ++ le_bytes 4 (zlen (omap id es))) ++ salt)
    by (unfold h, master_header_bytes; by rewrite <- !app_assoc).
  unfold slice. rewrite Hs. rewrite drop_app_length' by done. apply take_ge. unfold zlen in Hsalt. lia.
Qed.
End roundtrip.

Section limits.
Context `{Zl : Zlib} `{Rc : Rc4} `{Sq : SqliteRead} `{Sc : SqliteColumn} `{Fh : SqliteFileHead}.

(** the buffer for a row is too small.  A table whose name and whose table name have at most
    255 bytes each, as the check allows, and more than 508 together, is written beyond the
    520 bytes of [in_buf]. *)
Theorem save_entity_overflows fuel type root name tbl sql (s : save_state) :
  zlen (sv_in s) = 520 -> zlen name <= 255 -> zlen tbl <= 255 -> zlen sql <= 65535 -> 508 < zlen name + zlen tbl ->
  save_entity fuel type (zlen name) (zlen tbl) root (zlen sql) (name ++ [0]) (tbl ++ [0]) (sql ++ [0]) s =
    Stuck OutOfBounds.
Proof.
  intros Hb H1 H2 H3 H4. zlen_pos. unfold save_entity. rewrite !(proj2 (Z.ltb_ge _ _)) by lia. cbn [orb].
  assert (Hrd : forall l, zread_n (l ++ [0]) 0 (zlen l + 1) = Done (l ++ [0])).
  { intros l. apply (zread_n_tail []); [done|]. by rewrite zlen_app. }
  set (head := master_entity_bytes _ _ _ _ _). assert (Hh : zlen head = 10) by done.
  pose proof (zwrite_n_behind [] (sv_in s) head 0 eq_refl ltac:(lia)) as E1. cbn [app] in E1.
  unfold bind, gets, lift_res. rewrite E1, !Hrd. cbv beta iota zeta.
  assert (Hl1 : zlen (drop (length head) (sv_in s)) = 510) by (unfold zlen in *; rewrite length_drop; lia).
  rewrite (zwrite_n_behind head (drop (length head) (sv_in s)) (name ++ [0])).
  2: done.
  2: { rewrite Hl1, zlen_app. change (zlen [0]) with 1. lia. }
  unfold zwrite_n at 1, in_range.
  replace (_ && _) with false; [done|]. symmetry. apply andb_false_iff. right. apply Z.leb_gt.
  rewrite !zlen_app, Hh. change (zlen [0]) with 1. unfold sizeof_master_entity.
  assert (zlen (drop (length (name ++ [0])) (drop (length head) (sv_in s))) = 510 - zlen name - 1).
  { unfold zlen in *. rewrite !length_drop, length_app. cbn [length]. lia. }
  lia.
Qed.

(** Errors that are not reported.  When the file cannot be opened, and when it is opened but not
    a byte of the header can be written, [sqliterk_save_master] returns OK all the same. *)
Theorem save_master_silent fuel init_rc stack key z :
  deflateInit (-1) = Some z -> prepare_rc master_query = SQLITE_OK ->
  sqliterk_save_master fuel init_rc stack None key = Done (SQLITERK_OK, None) /\
  exists f, sqliterk_save_master fuel init_rc stack (Some (File [] 0 false [0])) key = Done (SQLITERK_OK, Some f) /\
    f_data f = [].
Proof.
  intros Hz Hp. unfold sqliterk_save_master. rewrite Hz. split; [done|].
  unfold save_body. fold master_query. rewrite Hp. cbn. eexists. split; [done|]. done.
Qed.
End limits.

(** ** A small database *)
Module MasterToy.
Import PlainColumns Toy.

Definition master_row (type name tbl : string) (root : Z) (sql : option string) : list sqlite_value :=
  [SV_Text (str type); SV_Text (str name); SV_Text (str tbl); SV_Integer root;
   match sql with Some sql => SV_Text (str sql) | None => SV_Null end].

(** A table, its index, the index of a primary key, which has no statement, and a view. *)
Definition rows : list (list sqlite_value) :=
  [master_row "table" "t" "t" 2 (Some "CREATE TABLE t(a)");
   master_row "index" "i" "t" 3 (Some "CREATE INDEX i ON t(a)");
   master_row "index" "sqlite_autoindex_u_1" "u" 4 None;
   master_row "view" "v" "v" 0 (Some "CREATE VIEW v AS SELECT 1")]%string.

#[export] Instance sqlite : SqliteRead := {|
  sqlite3_query _ := StmtResult 0 rows 0;
  sqlite3_exec_rows _ := ([], 0);
  sqlite3_exec_rc _ := 0;
  sqlite3_strglob _ _ := 0;
  mprintf_q s := s
|}.

#[export] Instance file_head : SqliteFileHead := {|
  file_control_rc := 0;
  xRead n _ := (0, repeat 9 (Z.to_nat n))
|}.

Definition row_t : mrow := MRow false (str "t") (str "t") 2 (str "CREATE TABLE t(a)").
Definition row_i : mrow := MRow true (str "i") (str "t") 3 (str "CREATE INDEX i ON t(a)").

Lemma not_in_by (l : list Z) : existsb (Z.eqb 0) l = false -> 0 ∉ l.
Proof.
  intros H Hin. apply list_elem_of_In in Hin. assert (Ht : existsb (Z.eqb 0) l = true) by (apply existsb_exists; by exists 0).
  by rewrite Ht in H.
Qed.

Ltac fits := split; [split_and!; [apply not_in_by; reflexivity..| | | | |]; vm_compute; discriminate || reflexivity |vm_compute; discriminate].

Lemma save_load_master_witness :
  exists f, @sqliterk_save_master zlib cipher sqlite columns file_head 1 0 (zeros 520) (Some (File [] 0 false [])) (Some (str "key")) = Done (SQLITERK_OK, Some f) /\
    @sqliterk_load_master zlib cipher (fun _ => true) (zeros 4096) (zeros 66048) (Some (File (f_data f) 0 false [])) (Some (str "key"))
      (Some [str "x"; str "t"]) =
    Done (SQLITERK_OK, Some ([(str "i", mrow_entity row_i); (str "t", mrow_entity row_t);
                              (str "x", Entity sqliterk_type_unknown [] 0)], repeat 9 16)).
Proof.
  destruct (@save_load_master zlib zlib_laws zlib_drain cipher cipher_laws sqlite columns file_head 1 0 (zeros 520) (Some (str "key")) [Some row_t; Some row_i; None; None] (repeat 9 16)
    (Comp [] [] [] false) DMark) as (f & H1 & H2);
    [reflexivity|reflexivity|reflexivity|reflexivity| | |reflexivity|reflexivity|reflexivity|reflexivity|reflexivity| |].
  - constructor; [repeat split; discriminate|]. constructor; [repeat split; discriminate|].
    constructor; [|constructor; [|constructor]].
    + left. exists 4%nat. split; [auto|reflexivity].
    + right. right. exists (str "view" ++ [0]). split; [reflexivity|]. split; discriminate.
  - constructor; [fits|]. constructor; [fits|constructor].
  - intros n Hn. assert (Hl : zlen (rows_bytes [Some row_t; Some row_i; None; None]) = 69) by (vm_compute; reflexivity).
    rewrite Hl in Hn. cbn [deflateBound zlib_drain]. unfold OUT_BUF_SIZE. lia.
  - exists f. split; [exact H1|]. rewrite (H2 (Some [str "x"; str "t"]) (zeros 4096) (zeros 66048) (zlen_zeros 4096 ltac:(lia)) (zlen_zeros 66048 ltac:(lia))).
    vm_compute. reflexivity.
Defined.

(** The two names have 255 bytes each. *)
Lemma save_entity_overflows_witness :
  let name := repeat 97 255 in
  @save_entity zlib cipher 1 SQLITERK_SM_TYPE_TABLE 255 255 2 1 (name ++ [0]) (name ++ [0]) [32; 0]
    (Save (Comp [] [] [] false) None (File [] 0 false []) (zeros 520) 0) = Stuck OutOfBounds.
Proof.
  exact (@save_entity_overflows zlib cipher 1 SQLITERK_SM_TYPE_TABLE 2 (repeat 97 255) (repeat 97 255) [32]
    (Save (Comp [] [] [] false) None (File [] 0 false []) (zeros 520) 0) eq_refl
    ltac:(vm_compute; discriminate) ltac:(vm_compute; discriminate) ltac:(vm_compute; discriminate) ltac:(vm_compute; reflexivity)).
Defined.

Lemma save_master_silent_witness :
  @sqliterk_save_master zlib cipher sqlite columns file_head 1 0 (zeros 520) None None = Done (SQLITERK_OK, None).
Proof.
  exact (proj1 (@save_master_silent zlib cipher sqlite columns file_head 1 0 (zeros 520) None
    (Comp [] [] [] false) eq_refl eq_refl)).
Defined.
End MasterToy.
