(* ===== verification/MasterSafe.v ===== *)
(** * Loading a backup of the table of tables from any file

    Whatever the file holds and wherever reading it fails, the loader stays within its
    buffers, ends, and returns one of two codes. *)

From S2P Require Import Prelude CLib Streams Values Btree Backup SqliteColumn StdMap MasterFile MasterFacts.

Section safe.
Context `{Zl : Zlib} `{ZS : !ZlibSafe Zl} `{Rc : Rc4} `{RL : !Rc4Laws Rc} `{RB : !Rc4Bytes Rc}.

(** The pointers of the stream are within [in_buf]; the next block goes to its start. *)
Record in_bounds (s : load_state) : Prop := InBounds {
  ib_size : zlen (ld_buf s) = IN_BUF_SIZE;
  ib_bytes : Forall is_byte (ld_buf s);
  ib_window : 0 <= ld_next s /\ 0 <= ld_avail s /\ ld_next s + ld_avail s <= IN_BUF_SIZE;
  ib_start : ld_eof s = false -> ld_next s = ld_total s;
  ib_data : Forall is_byte (f_data (ld_fp s));
  ib_pos : 0 <= f_pos (ld_fp s) <= zlen (f_data (ld_fp s))
}.

Lemma cipher_bytes k a : Forall is_byte a -> Forall is_byte (cipher k a).1.
Proof.
  intros Ha. destruct k as [k|]; [|done]. cbn. pose proof (rc4_bytes k a Ha). by destruct (rc4 k a).
Qed.

(** A read of any kind. *)
Lemma fread_any f n :
  0 <= f_pos f <= zlen (f_data f) -> 0 < n -> Forall is_byte (f_data f) ->
  let '(got, f') := fread f n in
  zlen got <= n /\ Forall is_byte got /\ f_data f' = f_data f /\ f_pos f' = f_pos f + zlen got /\
  f_pos f' <= zlen (f_data f) /\ (zlen got = 0 -> f_err f' = false -> f_pos f' = zlen (f_data f)).
Proof.
  intros Hp Hn Hb. unfold fread. set (avail := slice (f_pos f) n (f_data f)). set (m := f_grant f (zlen avail)).
  cbn [f_data f_pos f_err].
  assert (Ha : zlen avail = Z.min n (zlen (f_data f) - f_pos f)).
  { unfold avail, slice, zlen. rewrite length_take, length_drop. unfold zlen in Hp. lia. }
  assert (Hm : 0 <= m <= zlen avail) by (unfold m, f_grant; destruct (f_lim f); zlen_pos; lia).
  assert (Hg : zlen (take (Z.to_nat m) avail) = m) by (by apply zlen_take_le).
  rewrite Hg. split; [lia|]. split; [by apply Forall_take, Forall_take, Forall_drop|]. split; [done|]. split; [done|].
  split; [lia|]. intros Hz He. apply orb_false_iff in He as [_ He]. lia.
Qed.

Lemma zlen_unread s : in_bounds s -> zlen (unread s) = zlen (f_data (ld_fp s)) - f_pos (ld_fp s).
Proof. intros [_ _ _ _ _ Hp]. by apply zlen_drop. Qed.

Lemma inflate_refill_safe s :
  in_bounds s -> wp inflate_refill (fun ok s' => ok = true -> in_bounds s' /\ input_left s' = input_left s) s.
Proof.
  intros HB. pose proof HB as [Hsize Hbytes Hwin Hstart Hdata Hpos]. unfold inflate_refill. apply wp_bind_gets.
  destruct ((ld_avail s =? 0) && negb (ld_eof s)) eqn:E; [|by apply wp_ret].
  apply andb_prop in E as [Ea Ee]. apply Z.eqb_eq in Ea. apply negb_true_iff in Ee.
  pose proof (fread_any (ld_fp s) IN_BUF_SIZE Hpos ltac:(done) Hdata) as Hf.
  destruct (fread (ld_fp s) IN_BUF_SIZE) as [got f]. destruct Hf as (Hg & Hgb & Hd & Hp & Hpm & Hend).
  rewrite (Hstart Ee), Z.sub_diag. zlen_pos.
  eapply wp_bind_lift_res; [apply (zwrite_n_behind [] (ld_buf s)); [done|lia]|]. cbn [app].
  set (b := got ++ drop (length got) (ld_buf s)).
  assert (Hb : zlen b = IN_BUF_SIZE) by (unfold b, zlen, IN_BUF_SIZE in *; rewrite length_app, length_drop; lia).
  assert (Hbb : Forall is_byte b) by (apply Forall_app; split; [done|by apply Forall_drop]).
  destruct ((zlen got =? 0) && f_err f) eqn:E0; [by apply wp_bind_modify, wp_ret|].
  destruct (0 <? zlen got) eqn:Eg.
  - destruct (cipher (ld_key s) got) as [plain k] eqn:Ec.
    assert (Hpl : zlen plain = zlen got) by (by rewrite <- (cipher_length (ld_key s) got), Ec).
    assert (Hpb : Forall is_byte plain) by (pose proof (cipher_bytes (ld_key s) got Hgb) as H'; by rewrite Ec in H').
    eapply wp_bind_lift_res; [apply (zwrite_n_app [] got); done|]. cbn [app]. apply wp_bind_modify, wp_ret. intros _.
    set (s' := Load _ _ _ _ _ _ _ _). assert (HB' : in_bounds s').
    { split; cbn [s' ld_buf ld_next ld_avail ld_eof ld_total ld_fp]; try done.
      - unfold b in Hb. rewrite zlen_app in *. lia.
      - apply Forall_app. split; [done|by apply Forall_drop].
      - by rewrite Hd.
      - rewrite Hp, Hd. lia. }
    split; [done|]. unfold input_left. rewrite !zlen_unread by done. cbn [s' ld_avail ld_fp]. rewrite Hp, Hd. lia.
  - apply wp_bind_modify, wp_ret. intros _. set (s' := Load _ _ _ _ _ _ _ _).
    assert (Hz : zlen got = 0) by lia. rewrite Hz in E0. cbn [Z.eqb andb] in E0. specialize (Hend Hz E0).
    assert (HB' : in_bounds s').
    { split; cbn [s' ld_buf ld_next ld_avail ld_eof ld_total ld_fp]; try done.
      - intros Hef. rewrite Hz, Hend, Hd, Z.eqb_refl in Hef. done.
      - by rewrite Hd.
      - rewrite Hp, Hd. lia. }
    split; [done|]. unfold input_left. rewrite !zlen_unread by done. cbn [s' ld_avail ld_fp]. rewrite Hp, Hd. lia.
Qed.

(** How a request ends: with all the bytes, or with an error. *)
Definition read_ends (n : Z) (rc : Z) (x : list Z) (s : load_state) : Prop :=
  Forall is_byte x /\ zlen x <= n /\
  ((rc = SQLITERK_OK /\ zlen x = n /\ in_bounds s) \/ rc = SQLITERK_IOERR \/ rc = SQLITERK_DAMAGED).

Lemma inflate_loop_safe fuel : forall s out n,
  in_bounds s -> 0 < n -> input_left s + n < Z.of_nat fuel -> Forall is_byte out ->
  wp (inflate_loop fuel out n) (fun '(rc, x) s' => read_ends (zlen out + n) rc x s') s.
Proof.
  induction fuel as [|fuel IH]; intros s out n HB Hn Hf Ho.
  { pose proof (ib_window _ HB). unfold input_left in Hf. zlen_pos. lia. }
  cbn [inflate_loop]. apply wp_bind. eapply wp_mono; [by apply inflate_refill_safe|].
  intros [] s1 H1; cbn [negb]; cbv iota.
  2: { apply wp_ret. split; [done|]. split; [lia|]. right. by left. }
  destruct (H1 eq_refl) as [HB1 Hleft]. pose proof HB1 as [Hsize Hbytes Hwin Hstart Hdata Hpos].
  apply wp_bind_gets. eapply wp_bind_lift_res; [apply zread_n_slice; lia|]. fold (window s1).
  assert (Hwl : zlen (window s1) = ld_avail s1) by (apply zlen_slice; lia).
  destruct (inflate_safe (ld_ist s1) (window s1) n Hn) as (Hu & Hroom & Hob & Hprog).
  set (r := inflate (ld_ist s1) (window s1) n) in *. specialize (Hob ltac:(by apply Forall_take, Forall_drop)).
  apply wp_bind_modify. set (s2 := Load _ _ _ _ _ _ _ _).
  assert (HB2 : in_bounds s2).
  { split; cbn [s2 ld_buf ld_next ld_avail ld_eof ld_total ld_fp]; try done; [lia|]. intros H. rewrite (Hstart H). done. }
  assert (Hall : Forall is_byte (out ++ zc_out r)) by (by apply Forall_app).
  destruct (negb (zc_ret r =? Z_OK) && negb (zc_ret r =? Z_STREAM_END)) eqn:Er.
  { apply wp_ret. split; [done|]. rewrite zlen_app. split; [lia|]. right. by right. }
  destruct ((0 <? n - zlen (zc_out r)) && negb (zc_ret r =? Z_STREAM_END)) eqn:E.
  - apply andb_prop in E as [En Ee]. assert (Hok : zc_ret r = Z_OK) by (destruct (zc_ret r =? Z_OK) eqn:E'; [lia|by rewrite Ee in Er]).
    assert (Hless : 0 < zc_used r \/ 0 < zlen (zc_out r)).
    { destruct (Hprog Hok) as [H|H]; [by left|right]. destruct (zc_out r); [done|]. rewrite zlen_cons. zlen_pos. lia. }
    eapply wp_mono; [apply (IH s2 (out ++ zc_out r) (n - zlen (zc_out r)) HB2); [lia| |done]|].
    + unfold input_left in *. change (unread s2) with (unread s1). change (ld_avail s2) with (ld_avail s1 - zc_used r). zlen_pos. lia.
    + intros [rc x] s3. rewrite zlen_app. by replace (zlen out + zlen (zc_out r) + (n - zlen (zc_out r))) with (zlen out + n) by lia.
  - apply wp_ret. split; [done|]. rewrite zlen_app. split; [lia|].
    destruct (n - zlen (zc_out r) =? 0) eqn:Ez; [left|by right; right]. split; [done|]. split; [lia|done].
Qed.

Lemma inflate_read_safe s n :
  in_bounds s -> 0 < n -> wp (inflate_read n) (fun '(rc, x) s' => read_ends n rc x s') s.
Proof.
  intros HB Hn. unfold inflate_read. rewrite (proj2 (Z.eqb_neq _ _)) by lia. apply wp_bind_gets.
  apply (inflate_loop_safe _ s [] n HB Hn); [|done]. unfold input_left. rewrite zlen_unread by done.
  pose proof (ib_window _ HB). pose proof (ib_pos _ HB). lia.
Qed.

(** [l[i]] of a list that is long enough. *)
Lemma zread_is_byte l i : 0 <= i < zlen l -> Forall is_byte l -> exists b, zread l i = Done b /\ is_byte b.
Proof.
  intros Hi Hl. unfold zread. rewrite (proj2 (Z.leb_le _ _)) by lia.
  destruct (l !! Z.to_nat i) as [b|] eqn:E.
  - exists b. split; [done|]. by eapply Forall_lookup_1.
  - apply lookup_ge_None in E. unfold zlen in Hi. lia.
Qed.

Lemma le_val_range l : Forall is_byte l -> 0 <= le_val l < 256 ^ zlen l.
Proof.
  induction 1 as [|b l Hb Hl IH]; [done|]. cbn [le_val]. unfold is_byte in Hb. rewrite zlen_cons.
  rewrite Z.pow_add_r by (zlen_pos; lia). lia.
Qed.

Lemma load_entity_safe filter b m s :
  in_bounds s -> zlen b = STR_BUF_SIZE -> Forall is_byte b ->
  wp (load_entity filter b m) (fun x s' =>
    match x with Some (b', _) => in_bounds s' /\ zlen b' = STR_BUF_SIZE /\ Forall is_byte b' | None => True end) s.
Proof.
  intros HB Hb Hbb. unfold load_entity. apply wp_bind. unfold sizeof_master_entity.
  eapply wp_mono; [by apply inflate_read_safe|]. intros [rc e] s1 (Heb & _ & Hrc).
  destruct Hrc as [(-> & He & HB1)|Hrc]; [|by destruct Hrc as [-> | ->]; apply wp_ret].
  change ((SQLITERK_OK =? SQLITERK_IOERR) || (SQLITERK_OK =? SQLITERK_DAMAGED)) with false. cbv iota.
  destruct (zread_is_byte e 4 ltac:(lia) Heb) as (ty & Hty & _). destruct (zread_is_byte e 5 ltac:(lia) Heb) as (nl & Hnl & Bn).
  destruct (zread_is_byte e 6 ltac:(lia) Heb) as (tl & Htl & Bt). unfold is_byte in Bn, Bt.
  eapply wp_bind_lift_res; [exact Hty|]. eapply wp_bind_lift_res; [exact Hnl|]. eapply wp_bind_lift_res; [exact Htl|].
  assert (Hsl : 0 <= le_val (slice 8 2 e) < 65536).
  { pose proof (le_val_range (slice 8 2 e) ltac:(by apply Forall_take, Forall_drop)) as H.
    rewrite zlen_slice in H by lia. exact H. }
  set (sl := le_val (slice 8 2 e)) in *. apply wp_bind.
  eapply wp_mono; [apply (inflate_read_safe s1 (nl + tl + sl + 3) HB1); lia|]. intros [rc x] s2 (Hxb & Hxl & Hrc).
  eapply wp_bind_lift_res; [apply (zwrite_n_behind [] b x); [done|unfold STR_BUF_SIZE in Hb; lia]|]. cbn [app].
  set (b' := x ++ drop (length x) b).
  assert (Hb' : zlen b' = STR_BUF_SIZE) by (unfold b', zlen, STR_BUF_SIZE in *; rewrite length_app, length_drop; lia).
  assert (Hbb' : Forall is_byte b') by (apply Forall_app; split; [done|by apply Forall_drop]).
  destruct Hrc as [(-> & Hx & HB2)|Hrc]; [|by destruct Hrc as [-> | ->]; apply wp_ret].
  change ((SQLITERK_OK =? SQLITERK_IOERR) || (SQLITERK_OK =? SQLITERK_DAMAGED)) with false. cbv iota.
  assert (Hin : forall i, 0 <= i < 66048 -> exists c, zread b' i = Done c /\ is_byte c)
    by (intros i Hi; apply zread_is_byte; [unfold STR_BUF_SIZE in Hb'; lia|done]).
  destruct (Hin nl ltac:(lia)) as (c1 & E1 & _). destruct (Hin (nl + 1 + tl) ltac:(lia)) as (c2 & E2 & _).
  destruct (Hin (nl + 1 + tl + 1 + sl) ltac:(lia)) as (c3 & E3 & _).
  eapply wp_bind_lift_res; [exact E1|]. eapply wp_bind_lift_res; [exact E2|]. eapply wp_bind_lift_res; [exact E3|].
  destruct (negb (c1 =? 0) || negb (c2 =? 0) || negb (c3 =? 0)); by apply wp_ret.
Qed.

Lemma load_entities_safe n filter : forall b m s,
  in_bounds s -> zlen b = STR_BUF_SIZE -> Forall is_byte b ->
  wp (load_entities n filter b m) (fun _ _ => True) s.
Proof.
  induction n as [|n IH]; intros b m s HB Hb Hbb; cbn [load_entities]; [by apply wp_ret|].
  apply wp_bind. eapply wp_mono; [by apply load_entity_safe|]. intros [[b' m']|] s1 H; [|by apply wp_ret].
  destruct H as (H1 & H2 & H3). by apply IH.
Qed.

(** C17: loading a backup of the table of tables is safe.  Whatever bytes the file holds, wherever
    reading it stops or fails, whatever the key and the memory that is granted,
    [sqliterk_load_master] returns without leaving its buffers: OK together with a map and the
    salt, or [SQLITERK_DAMAGED] and nothing. *)
Theorem load_master_safe malloc_ok stack heap data err lims key tables :
  Forall is_byte data -> zlen stack = IN_BUF_SIZE -> Forall is_byte stack ->
  zlen heap = STR_BUF_SIZE -> Forall is_byte heap ->
  exists rc out, sqliterk_load_master malloc_ok stack heap (Some (File data 0 err lims)) key tables = Done (rc, out) /\
    (rc = SQLITERK_OK /\ out <> None \/ rc = SQLITERK_DAMAGED /\ out = None).
Proof.
  intros Hd Hs Hsb Hh Hhb. unfold sqliterk_load_master.
  assert (Hbad : exists rc (out : option (sqliterk_master_map * list Z)), Done (SQLITERK_DAMAGED, None) = Done (rc, out) /\
    (rc = SQLITERK_OK /\ out <> None \/ rc = SQLITERK_DAMAGED /\ out = None)) by (eexists _, _; split; [done|by right]).
  destruct (negb (malloc_ok STR_BUF_SIZE)); [done|]. destruct (match load_filter tables with Some _ => _ | None => _ end); [done|].
  pose proof (fread_any (File data 0 err lims) sizeof_master_header ltac:(cbn; zlen_pos; lia) ltac:(done) Hd) as Hf.
  unfold fread1. destruct (fread (File data 0 err lims) sizeof_master_header) as [got f].
  destruct Hf as (_ & _ & Hfd & Hfp & Hpm & _). cbn [f_data f_pos] in *.
  destruct ((zlen got =? sizeof_master_header) && (0 <? sizeof_master_header)); [|done].
  destruct (negb (bool_decide (take 6 got = _)) || _); [done|]. destruct inflateInit as [z|]; [|done].
  set (s0 := Load _ _ _ _ _ _ _ _). assert (HB : in_bounds s0).
  { split; cbn [s0 ld_buf ld_next ld_avail ld_eof ld_total ld_fp]; try done; [by rewrite Hfd|].
    rewrite Hfd, Hfp in *. zlen_pos. lia. }
  pose proof (load_entities_safe (Z.to_nat (le_val (slice 8 4 got))) (load_filter tables) heap
    (default [] (sqliterk_make_master tables).2) s0 HB Hh Hhb) as H. unfold wp in H.
  destruct (load_entities _ _ _ _ s0) as [[[m|] s1]|]; [|done|done]. cbn [res_bind fst].
  eexists _, _. split; [done|]. by left.
Qed.
End safe.

(** A file that is cut off in the middle of its stream. *)
Module MasterSafeToy.
Import Toy.
Lemma load_master_safe_witness :
  exists rc out, @sqliterk_load_master zlib cipher (fun _ => true) (zeros 4096) (zeros 66048)
    (Some (File (master_header_bytes SQLITERK_SM_MAGIC 1 1 (zeros 16) ++ [1; 7; 1]) 0 false [])) None None = Done (rc, out) /\
    (rc = SQLITERK_OK /\ out <> None \/ rc = SQLITERK_DAMAGED /\ out = None).
Proof.
  apply (@load_master_safe zlib zlib_safe cipher cipher_laws cipher_bytes (fun _ => true) (zeros 4096) (zeros 66048)).
  - apply List.Forall_forall. intros b Hb. unfold is_byte.
    assert (H : forallb (fun b => (0 <=? b) && (b <? 256)) (master_header_bytes SQLITERK_SM_MAGIC 1 1 (zeros 16) ++ [1; 7; 1]) = true)
      by (vm_compute; reflexivity).
    rewrite forallb_forall in H. specialize (H b Hb). lia.
  - exact (zlen_zeros 4096 ltac:(lia)).
  - apply Forall_replicate. split; reflexivity || discriminate.
  - exact (zlen_zeros 66048 ltac:(lia)).
  - apply Forall_replicate. split; reflexivity || discriminate.
Defined.
End MasterSafeToy.
