(* ===== verification/Output.v ===== *)
(** * The repair kit: output to a new database (sqliterk_output.cpp)

    [sqliterk_output_cb_leaf] walks the table of tables of the damaged file, then each table it
    knows, and inserts the rows into another database.  The callbacks it registers work on a
    context that lives during the call.

    The walk is the one of [Btree]: it takes a user who answers each event from what was heard
    so far.  The user here is the context together with the two sets of callbacks; its answer
    is found by running the callbacks on the events in turn ([replay]), and after a walk they
    are run once more to have the context.  Where the callbacks leave defined behaviour, the
    replay stops with the fault, and so does the walk.

    SQLite is given by its answers, which may depend on all the calls made so far.  The flag
    [cancelled], which other threads may set, is given by what each look at it finds. *)

From S2P Require Import Prelude CLib Values Pager Btree Backup SqliteColumn StdMap MasterFile LeafFile.

Definition SQLITERK_IGNORE : Z := 100.
Definition SQLITERK_OUTPUT_NO_CREATE_TABLES : Z := 1.
Definition SQLITERK_OUTPUT_ALL_TABLES : Z := 2.
Definition SQLITERK_OUTPUT_CHECK_TABLE_COLUMNS : Z := 4.

(** ** Affinities *)

Definition SQLITE_AFF_BLOB : Z := chr "A".
Definition SQLITE_AFF_TEXT : Z := chr "B".
Definition SQLITE_AFF_NUMERIC : Z := chr "C".
Definition SQLITE_AFF_INTEGER : Z := chr "D".
Definition SQLITE_AFF_REAL : Z := chr "E".

Definition string_digits (s : list Z) : Z :=
  match s with
  | [] => 0
  | [a] => Z.shiftl a 24
  | [a; b] => Z.lor (Z.shiftl a 24) (Z.shiftl b 16)
  | a :: b :: c :: s => Z.lor (Z.lor (Z.lor (Z.shiftl a 24) (Z.shiftl b 16)) (Z.shiftl c 8)) (nth 0 s 0)
  end.

(** [toupper] in the C locale. *)
Definition toupper (c : Z) : Z := if (97 <=? c) && (c <=? 122) then c - 32 else c.

(** The body of the loop, for one character. *)
Definition affinity_step (h aff c : Z) : Z * Z :=
  let h := u32 (u32 (Z.shiftl h 8) + toupper (Z.land c 255)) in
  (h,
   if u32 (Z.shiftl h 8) =? string_digits (str "INT") then SQLITE_AFF_INTEGER
   else if (h =? string_digits (str "CHAR")) || (h =? string_digits (str "CLOB")) || (h =? string_digits (str "TEXT"))
   then SQLITE_AFF_TEXT
   else if h =? string_digits (str "BLOB") then
     if (aff =? SQLITE_AFF_NUMERIC) || (aff =? SQLITE_AFF_REAL) then SQLITE_AFF_BLOB else aff
   else if (h =? string_digits (str "REAL")) || (h =? string_digits (str "FLOA")) || (h =? string_digits (str "DOUB"))
   then if aff =? SQLITE_AFF_NUMERIC then SQLITE_AFF_REAL else aff
   else aff).

Fixpoint affinity_loop (type : list Z) (h aff : Z) : Z :=
  match type with
  | [] => aff
  | c :: type => let '(h, aff) := affinity_step h aff c in affinity_loop type h aff
  end.

(** [type] is null, or a string. *)
Definition parse_affinity (type : option (list Z)) : Z :=
  match type with
  | None | Some [] => SQLITE_AFF_BLOB
  | Some type => affinity_loop type 0 SQLITE_AFF_NUMERIC
  end.

(** ** The other database *)

(** The calls of SQLite; a statement is the number of statements prepared before it. *)
Inductive out_call :=
| OExec (sql : list Z)
| OPrepare (sql : list Z)
| OStep (stmt : nat)
| OReset (stmt : nat)
| OFinalize (stmt : nat)
| OClear (stmt : nat)
| OBind (stmt : nat) (i : Z) (v : sqlite_value).

(** The answers to the last call of a history, the latest call first. *)
Class SqliteOut := {
  out_rc : list out_call -> Z;
  (** whether [sqlite3_exec] gives a message *)
  out_errmsg : list out_call -> bool;
  (** whether [sqlite3_prepare_v2] gives a statement *)
  out_prepared : list out_call -> bool;
  (** the row [sqlite3_step] stands on *)
  out_row : list out_call -> list sqlite_value;
  (** how many rows a statement may give before this model stops *)
  out_steps : nat
}.

Record sqliterk_output_column_info := ColumnInfo {
  affinity : Z;
  not_null : bool;
  default_value : option sqlite_value
}.

(** The iterator [table_cursor]. *)
Inductive cursor := CUnset | CEnd | CAt (name : list Z).

Record sqliterk_output_ctx := OutCtx {
  o_calls : list out_call;      (* what was done to db, latest first *)
  o_stmt : option nat;
  real_columns : Z;
  column_info : list sqliterk_output_column_info;
  ipk_column : Z;
  tables : sqliterk_master_map;
  table_cursor : cursor;
  o_flags : Z;
  success_count : Z;
  o_fail_count : Z;
  cancelled : bool;
  o_polls : list bool           (* whether the n-th look at cancelled finds it set by then *)
}.

Definition set_calls v (c : sqliterk_output_ctx) : sqliterk_output_ctx :=
  OutCtx v (o_stmt c) (real_columns c) (column_info c) (ipk_column c) (tables c) (table_cursor c) (o_flags c)
    (success_count c) (o_fail_count c) (cancelled c) (o_polls c).
Definition set_insert st n ci ipk (c : sqliterk_output_ctx) : sqliterk_output_ctx :=
  OutCtx (o_calls c) st n ci ipk (tables c) (table_cursor c) (o_flags c)
    (success_count c) (o_fail_count c) (cancelled c) (o_polls c).
Definition set_tables v (c : sqliterk_output_ctx) : sqliterk_output_ctx :=
  OutCtx (o_calls c) (o_stmt c) (real_columns c) (column_info c) (ipk_column c) v (table_cursor c) (o_flags c)
    (success_count c) (o_fail_count c) (cancelled c) (o_polls c).
Definition set_cursor v (c : sqliterk_output_ctx) : sqliterk_output_ctx :=
  OutCtx (o_calls c) (o_stmt c) (real_columns c) (column_info c) (ipk_column c) (tables c) v (o_flags c)
    (success_count c) (o_fail_count c) (cancelled c) (o_polls c).
Definition set_counts ok bad (c : sqliterk_output_ctx) : sqliterk_output_ctx :=
  OutCtx (o_calls c) (o_stmt c) (real_columns c) (column_info c) (ipk_column c) (tables c) (table_cursor c) (o_flags c)
    ok bad (cancelled c) (o_polls c).
Definition set_cancelled v ps (c : sqliterk_output_ctx) : sqliterk_output_ctx :=
  OutCtx (o_calls c) (o_stmt c) (real_columns c) (column_info c) (ipk_column c) (tables c) (table_cursor c) (o_flags c)
    (success_count c) (o_fail_count c) v ps.

Section output.
Context `{So : SqliteOut} `{Sc : SqliteColumn} `{Cl : SqliterkColumn} `{Af : CAtof}.

Definition octx : Type := sqliterk_output_ctx.

(** A call of SQLite and its code. *)
Definition out (c : out_call) : cm octx Z :=
  modify (fun x => set_calls (c :: o_calls x) x) ;;; gets (fun x => out_rc (o_calls x)).

(** [sqlite3_exec] with [errmsg]: whether there is a message. *)
Definition out_exec (sql : list Z) : cm octx bool :=
  let! _ := out (OExec sql) in gets (fun x => out_errmsg (o_calls x)).

Definition is_prepare (c : out_call) : bool := match c with OPrepare _ => true | _ => false end.
Definition next_stmt (h : list out_call) : nat := length (List.filter is_prepare h).

(** [sqlite3_prepare_v2]: the code, the statement. *)
Definition out_prepare (sql : list Z) : cm octx (Z * nat) :=
  let! id := gets (fun x => next_stmt (o_calls x)) in
  let! rc := out (OPrepare sql) in
  ret (rc, id).

Definition fail_one : cm octx unit :=
  modify (fun x => set_counts (success_count x) (u32 (o_fail_count x + 1)) x).
Definition succeed_one : cm octx unit :=
  modify (fun x => set_counts (u32 (success_count x + 1)) (o_fail_count x) x).

(** Reading [ctx->cancelled]. *)
Definition poll_cancelled : cm octx bool :=
  let! ps := gets o_polls in
  match ps with
  | [] => gets cancelled
  | b :: ps => modify (fun x => set_cancelled (cancelled x || b) ps x) ;;; gets cancelled
  end.

(** ** Values of a row (sqliterk_api.c) *)

Definition sqliterk_column_count (c : sqliterk_column) : Z := sqliterkValuesGetCount (sqliterkColumnGetValues c).
Definition sqliterk_column_type (c : sqliterk_column) (i : Z) : res Z := sqliterkValuesGetType (sqliterkColumnGetValues c) i.
Definition sqliterk_column_integer (c : sqliterk_column) (i : Z) : res Z :=
  sqliterkValuesGetInteger (sqliterkColumnGetValues c) i.
Definition sqliterk_column_integer64 (c : sqliterk_column) (i : Z) : res Z :=
  sqliterkValuesGetInteger64 (sqliterkColumnGetValues c) i.
Definition sqliterk_column_number (c : sqliterk_column) (i : Z) : res (list Z) :=
  sqliterkValuesGetNumber (sqliterkColumnGetValues c) i.
Definition sqliterk_column_text (c : sqliterk_column) (i : Z) : res (option (list Z)) :=
  sqliterkValuesGetText (sqliterkColumnGetValues c) i.
Definition sqliterk_column_binary (c : sqliterk_column) (i : Z) : res (option (list Z)) :=
  sqliterkValuesGetBinary (sqliterkColumnGetValues c) i.
Definition sqliterk_column_bytes (c : sqliterk_column) (i : Z) : res Z :=
  sqliterkValuesGetBytes (sqliterkColumnGetValues c) i.
Definition sqliterk_column_rowid (c : sqliterk_column) : Z := sqliterkColumnGetRowId c.
Definition sqliterk_table_type (t : sqliterk_btree) : Z := b_type t.
(** ** The table of tables *)

Definition master_onParseColumn (table : sqliterk_btree) (column : sqliterk_column) : cm octx Z :=
  let! stop := poll_cancelled in
  if stop then ret SQLITERK_CANCELLED
  else if negb (sqliterk_table_type table =? sqliterk_type_master) then ret SQLITERK_MISUSE
  else
    let! typestr := lift_res (sqliterk_column_text column 0) in
    let! name := lift_res (sqliterk_column_text column 1) in
    let! tbl_name := lift_res (sqliterk_column_text column 2) in
    let! root_page := lift_res (sqliterk_column_integer column 3) in
    let! sql := lift_res (sqliterk_column_text column 4) in
    match typestr, name, sql with
    | Some _, Some _, Some _ =>
      if root_page <=? 0 then ret SQLITERK_OK
      else
        let! typestr := lift_res (string_at typestr) in
        let! name := lift_res (string_at name) in
        let! sql := lift_res (string_at sql) in
        let type := if strcmp typestr (str "table") =? 0 then Some sqliterk_type_table
                    else if strcmp typestr (str "index") =? 0 then Some sqliterk_type_index
                    else None in
        match type with
        | None => ret SQLITERK_OK
        | Some type =>
          if strncmp name (str "sqlite_") 7 =? 0 then ret SQLITERK_OK
          else
            let! x := gets (fun x => x) in
            let! skip :=
              (if has_flag (o_flags x) SQLITERK_OUTPUT_ALL_TABLES then ret false
               else let! key := lift_res (string_at tbl_name) in
                    ret (bool_decide (find key (tables x) = None))) in
            if skip : bool then ret SQLITERK_OK
            else if has_flag (o_flags x) SQLITERK_OUTPUT_CHECK_TABLE_COLUMNS &&
                    match find name (tables x) with
                    | None => false
                    | Some e =>
                      (0 <? e_root_page e) && negb (bool_decide (e_sql e = [])) &&
                      ((e_type e =? sqliterk_type_table) || (e_type e =? sqliterk_type_index)) &&
                      negb (bool_decide (e_sql e = sql)) && (zlen sql <? zlen (e_sql e))
                    end
            then ret SQLITERK_OK
            else
              modify (fun x => set_tables (assign name (Entity type sql root_page) (tables x)) x) ;;;
              ret SQLITERK_OK
        end
    | _, _, _ => ret SQLITERK_OK
    end.

(** ** The statement that inserts *)

Definition fini_insert : cm octx unit :=
  let! st := gets o_stmt in
  match st with
  | Some st => let! _ := out (OFinalize st) in ret tt
  | None => ret tt
  end ;;;
  modify (set_insert None 0 [] 0).

Definition eval_value (value : option (list Z)) : cm octx (option sqlite_value) :=
  match value with
  | None | Some [] => ret None
  | Some value =>
    let! (rc, st) := out_prepare (str "SELECT " ++ value ++ str ";") in
    let! given := gets (fun x => out_prepared (o_calls x)) in
    if negb (rc =? SQLITE_OK) || negb given then ret None
    else
      let! rc := out (OStep st) in
      let! row := gets (fun x => out_row (o_calls x)) in
      let result := if rc =? SQLITE_ROW then Some (SqliteColumn.column row 0) else None in
      let! _ := out (OFinalize st) in
      ret result
  end.

(** A text column as a string. *)
Definition column_string (v : sqlite_value) : option (list Z) := cstr <$> sqlite3_column_text v.

Definition strcasecmp_eq (a b : list Z) : bool := bool_decide (map toupper a = map toupper b).

(** The loop over the rows of [table_info]: the statement so far and [ipk_column]. *)
Fixpoint table_info_loop (fuel : nat) (info : nat) (sql : list Z) (ipk : Z) : cm octx (list Z * Z) :=
  match fuel with
  | O => fail OutOfFuel
  | S fuel =>
    let! rc := out (OStep info) in
    if negb (rc =? SQLITE_ROW) then ret (sql, ipk)
    else
      let! row := gets (fun x => out_row (o_calls x)) in
      let! x := gets (fun x => x) in
      let n := real_columns x + 1 in
      modify (set_insert (o_stmt x) n (column_info x) (ipk_column x)) ;;;
      let! dflt := eval_value (column_string (SqliteColumn.column row 4)) in
      let aff := parse_affinity (column_string (SqliteColumn.column row 2)) in
      let nn := negb (sqlite3_column_int (SqliteColumn.column row 3) =? 0) in
      modify (fun x => set_insert (o_stmt x) n (column_info x ++ [ColumnInfo aff nn dflt]) (ipk_column x) x) ;;;
      let! ipk :=
        (if 0 <=? ipk then
           let pk_idx := sqlite3_column_int (SqliteColumn.column row 5) in
           if pk_idx =? 1 then
             match column_string (SqliteColumn.column row 2) with
             | None => fail NullDeref
             | Some column_type => ret (if strcasecmp_eq column_type (str "INTEGER") then n else ipk)
             end
           else if negb (pk_idx =? 0) then ret (-1) else ret ipk
         else ret ipk) in
      table_info_loop fuel info (sql ++ str "?,") ipk
  end.

(** The result: the number of columns, or -1. *)
Definition init_insert (table : list Z) : cm octx Z :=
  let! (rc, info) := out_prepare (str "PRAGMA table_info(" ++ table ++ str ");") in
  if negb (rc =? SQLITE_OK) then fini_insert ;;; ret (-1)
  else
    let! x := gets (fun x => x) in
    modify (set_insert (o_stmt x) 0 (column_info x) (ipk_column x)) ;;;
    let! (sql, ipk) := table_info_loop out_steps info (str "REPLACE INTO " ++ table ++ str " VALUES(") 0 in
    let! rc := out (OFinalize info) in
    let! n := gets real_columns in
    if negb (rc =? SQLITE_OK) || (n =? 0) then fini_insert ;;; ret (-1)
    else
      let! (rc, st) := out_prepare (removelast sql ++ str ");") in
      if negb (rc =? SQLITE_OK) then fini_insert ;;; ret (-1)
      else
        modify (fun x => set_insert (Some st) (real_columns x) (column_info x) (if 0 <? ipk then ipk else 0) x) ;;;
        gets real_columns.

(** ** The rows of a table *)

(** What a pointer and a length bind: a null pointer binds NULL. *)
Definition bound_bytes (make : list Z -> sqlite_value) (p : option (list Z)) (n : Z) : res sqlite_value :=
  match p with
  | None => Done SV_Null
  | Some obj => let? b := zread_n obj 0 n in Done (make b)
  end.

(** Binding the values of the row from index [i] on; [false] when the row is given up. *)
Fixpoint bind_values (n : nat) (i : Z) (st : nat) (column : sqliterk_column) : cm octx bool :=
  match n with
  | O => ret true
  | S n =>
    let! type := lift_res (sqliterk_column_type column i) in
    let! info := gets (fun x => nth_error (column_info x) (Z.to_nat i)) in
    let bind_and_go (v : sqlite_value) : cm octx bool :=
      let! _ := out (OBind st (i + 1) v) in bind_values n (i + 1) st column in
    let with_info (f : sqliterk_output_column_info -> cm octx bool) : cm octx bool :=
      match info with None => fail OutOfBounds | Some ci => f ci end in
    if type =? sqliterk_value_type_binary then
      let! p := lift_res (sqliterk_column_binary column i) in
      let! len := lift_res (sqliterk_column_bytes column i) in
      let! v := lift_res (bound_bytes SV_Blob p len) in
      bind_and_go v
    else if type =? sqliterk_value_type_integer then
      with_info (fun ci =>
        if affinity ci =? SQLITE_AFF_TEXT then fail_one ;;; ret false
        else let! v := lift_res (sqliterk_column_integer64 column i) in bind_and_go (SV_Integer v))
    else if type =? sqliterk_value_type_null then
      with_info (fun ci =>
        if not_null ci then fail_one ;;; ret false
        else
          let! ipk := gets ipk_column in
          if ipk =? i + 1 then bind_and_go (SV_Integer (sqliterk_column_rowid column)) else bind_and_go SV_Null)
    else if type =? sqliterk_value_type_number then
      with_info (fun ci =>
        if affinity ci =? SQLITE_AFF_TEXT then fail_one ;;; ret false
        else let! v := lift_res (sqliterk_column_number column i) in bind_and_go (SV_Float v))
    else if type =? sqliterk_value_type_text then
      let! p := lift_res (sqliterk_column_text column i) in
      let! len := lift_res (sqliterk_column_bytes column i) in
      let! v := lift_res (bound_bytes SV_Text p len) in
      bind_and_go v
    else bind_values n (i + 1) st column
  end.

(** Defaults for the columns the row does not have, bound at the index [i]. *)
Fixpoint bind_defaults (n : nat) (i : Z) (st : nat) : cm octx unit :=
  match n with
  | O => ret tt
  | S n =>
    let! info := gets (fun x => nth_error (column_info x) (Z.to_nat i)) in
    match info with
    | None => fail OutOfBounds
    | Some ci =>
      match default_value ci with
      | Some v => let! _ := out (OBind st i v) in ret tt
      | None => ret tt
      end ;;;
      bind_defaults n (i + 1) st
    end
  end.

(** [while (sqlite3_step(stmt) == SQLITE_ROW)] *)
Fixpoint step_all (fuel : nat) (st : nat) : cm octx unit :=
  match fuel with
  | O => fail OutOfFuel
  | S fuel =>
    let! rc := out (OStep st) in
    if rc =? SQLITE_ROW then step_all fuel st else ret tt
  end.

(** The statement of the table, prepared on its first row; [None] when the row is given up. *)
Definition table_stmt : cm octx (option nat) :=
  let! x := gets (fun x => x) in
  match o_stmt x with
  | Some st => ret (Some st)
  | None =>
    match table_cursor x with
    | CUnset => fail Uninit
    | CEnd => fail_one ;;; ret None
    | CAt table =>
      let! rc := init_insert table in
      if rc <=? 0 then modify (set_cursor CEnd) ;;; fail_one ;;; ret None
      else
        let! _ := out_exec (str "BEGIN;") in
        gets o_stmt
    end
  end.

(** Inserting the row that is bound. *)
Definition run_insert (st : nat) : cm octx Z :=
  step_all out_steps st ;;;
  let! rc := out (OReset st) in
  if negb (rc =? SQLITE_OK) then fail_one ;;; ret SQLITERK_OK
  else
    succeed_one ;;;
    let! n := gets success_count in
    (if n mod 256 =? 0 then let! _ := out_exec (str "COMMIT; BEGIN;") in ret tt else ret tt) ;;;
    ret SQLITERK_OK.

Context (callback : option (list rk_event -> Z)).

(** [heard]: the events up to this row, which the user of the callback may remember. *)
Definition table_onParseColumn (heard : list rk_event) (table : sqliterk_btree) (column : sqliterk_column)
  : cm octx Z :=
  let! stop := poll_cancelled in
  if stop then ret SQLITERK_CANCELLED
  else
    let rc := match callback with None => SQLITERK_OK | Some f => f heard end in
    if negb (rc =? SQLITERK_OK) then ret (if rc =? SQLITERK_IGNORE then SQLITERK_OK else rc)
    else
      let columns := sqliterk_column_count column in
      let! st := table_stmt in
      match st with
      | None => ret SQLITERK_OK
      | Some st =>
        let! x := gets (fun x => x) in
        if (real_columns x <? columns) || (zlen (column_info x) <? columns) then fail_one ;;; ret SQLITERK_OK
        else
          let! _ := out (OClear st) in
          let! bound := bind_values (Z.to_nat columns) 0 st column in
          if negb bound then ret SQLITERK_OK
          else
            bind_defaults (Z.to_nat (real_columns x - columns)) columns st ;;;
            run_insert st
      end.

(** [table_onBeginParseTable]: the name and the type the tree is given. *)
Definition table_onBeginParseTable : cm octx (list Z * Z) :=
  let! c := gets table_cursor in
  match c with
  | CUnset => fail Uninit
  | CEnd => fail OutOfBounds
  | CAt name => ret (name ++ [0], sqliterk_btree_type_table)
  end.

(** ** Callbacks and walks *)

(** The two sets of callbacks. *)
Inductive client := ForMaster | ForTables.

(** What the callback of an event does; [heard] ends with the event. *)
Definition on_event (cl : client) (heard : list rk_event) (e : rk_event) : cm octx Z :=
  match cl, e with
  | ForMaster, EvColumn table column => master_onParseColumn table column
  | ForTables, EvColumn table column => table_onParseColumn heard table column
  | ForTables, EvBeginTable _ => let! _ := table_onBeginParseTable in ret SQLITERK_OK
  | _, _ => ret SQLITERK_OK
  end.

(** The callbacks of all events heard, the latest first: the answer to the last one. *)
Fixpoint replay (cl : client) (heard : list rk_event) : cm octx Z :=
  match heard with
  | [] => ret SQLITERK_OK
  | e :: before => let! _ := replay cl before in on_event cl heard e
  end.

(** The user of a walk that starts with the context [x]. *)
Definition notify_of (cl : client) (x : octx) : sqliterk_notify := {|
  onBeginParseTable := Some (fun heard =>
    match cl with
    | ForMaster => None
    | ForTables =>
      match (let! _ := replay cl (tail heard) in table_onBeginParseTable) x with
      | Done (meta, _) => Some meta
      | Stuck _ => None
      end
    end);
  onParseColumn := Some (fun heard => match replay cl heard x with Done (rc, _) => rc | Stuck _ => SQLITERK_OK end);
  onEndParseTable := true;
  didParsePage := false
|}.

Context `{Al : SqliterkAlloc} `{Fi : SqliterkFile} `{Co : SqliterkCodec} `{Ut : SqliterkUtil} `{Bt : SqliterkBtreeTypes}.

(** Where [userInfo] of the kit points: to nothing, to the context of a call that runs, to one of
    a call that has returned. *)
Inductive user_info := UserNone | UserLive | UserDead.

Record ostate := OState { rk : rkstate; octx_of : octx; userInfo : user_info }.

Definition in_ctx {A} (c : cm octx A) : cm ostate A := zoom octx_of (fun x s => OState (rk s) x (userInfo s)) c.

(** A walk from a page with the callbacks of [cl]; the events of a walk are counted from its start. *)
Definition sqliterk_parse_page (cl : client) (depth : nat) (pageno : Z) : cm ostate Z := fun s =>
  match sqliterkParsePage (notify_of cl (octx_of s)) depth pageno (RkState (pst (rk s)) (recursive (rk s)) []) with
  | Stuck f => Stuck f
  | Done (rc, k) =>
    match replay cl (heard k) (octx_of s) with
    | Stuck f => Stuck f
    | Done (_, x) => Done (rc, OState k x (userInfo s))
    end
  end.

(** ** The whole output *)

(** The leaf pages of a table that are known from a scan: the last result code. *)
Fixpoint parse_leaves (depth : nat) (pages : list Z) (rc : Z) : cm ostate Z :=
  match pages with
  | [] => ret rc
  | pgno :: pages =>
    let! rc := sqliterk_parse_page ForTables depth pgno in
    if rc =? SQLITERK_CANCELLED then ret rc else parse_leaves depth pages rc
  end.

(** Running a statement that creates something. *)
Definition create (sql : list Z) : cm ostate unit :=
  let! failed := in_ctx (out_exec sql) in
  if failed : bool then in_ctx fail_one else in_ctx succeed_one.

(** The rows of a table; [true] jumps to [cancelled]. *)
Definition output_rows (depth : nat) (leaf : option sqliterk_leaf_map) (name : list Z) (root_page : Z) : cm ostate bool :=
  in_ctx (modify (set_cursor (CAt name))) ;;;
  let! rc := sqliterk_parse_page ForTables depth root_page in
  let! rc :=
    (match leaf with
     | Some leaf =>
       if negb (rc =? SQLITERK_CANCELLED) then
         match find name leaf with Some pages => parse_leaves depth pages rc | None => ret rc end
       else ret rc
     | None => ret rc
     end) in
  let! st := in_ctx (gets o_stmt) in
  match st with
  | Some _ =>
    let! _ := in_ctx (out_exec (if rc =? SQLITERK_CANCELLED then str "ROLLBACK;" else str "COMMIT;")) in
    in_ctx fini_insert
  | None => ret tt
  end ;;;
  ret (rc =? SQLITERK_CANCELLED).

(** The loop over the tables; [true] jumps to [cancelled]. *)
Fixpoint output_tables (depth : nat) (leaf : option sqliterk_leaf_map) (entries : sqliterk_master_map) : cm ostate bool :=
  match entries with
  | [] => ret false
  | (name, e) :: entries =>
    let! stop := in_ctx poll_cancelled in
    if stop : bool then ret true
    else if negb (e_type e =? sqliterk_type_table) then output_tables depth leaf entries
    else
      let! flags := in_ctx (gets o_flags) in
      (if negb (has_flag flags SQLITERK_OUTPUT_NO_CREATE_TABLES) && negb (bool_decide (e_sql e = []))
       then create (e_sql e) else ret tt) ;;;
      let! stop := (if negb (e_root_page e =? 0) then output_rows depth leaf name (e_root_page e) else ret false) in
      if stop : bool then ret true else output_tables depth leaf entries
  end.

Fixpoint output_indices (entries : sqliterk_master_map) : cm ostate bool :=
  match entries with
  | [] => ret false
  | (name, e) :: entries =>
    let! stop := in_ctx poll_cancelled in
    if stop : bool then ret true
    else if negb (e_type e =? sqliterk_type_index) then output_indices entries
    else create (e_sql e) ;;; output_indices entries
  end.

(** After [sqlite_master] was walked. *)
Definition output_all (depth : nat) (leaf : option sqliterk_leaf_map) : cm ostate Z :=
  let! entries := in_ctx (gets tables) in
  let! stop := output_tables depth leaf entries in
  if stop : bool then ret SQLITERK_CANCELLED
  else
    let! flags := in_ctx (gets o_flags) in
    let! stop := (if has_flag flags SQLITERK_OUTPUT_NO_CREATE_TABLES then ret false else output_indices entries) in
    if stop : bool then ret SQLITERK_CANCELLED
    else
      let! n := in_ctx (gets success_count) in
      ret (if n =? 0 then SQLITERK_DAMAGED else SQLITERK_OK).

(** The context a call starts with; [h]: what was done to the database before, [polls]: what the
    looks at [cancelled] will find. *)
Definition start_ctx (h : list out_call) (master : option sqliterk_master_map) (flags : Z) (polls : list bool) : octx :=
  OutCtx h None 0 [] 0 (default [] master) CUnset
    (match master with None => Z.lor flags SQLITERK_OUTPUT_ALL_TABLES | Some _ => flags end) 0 0 false polls.

(** The kit and the database are null or not; [userInfo] outlives the context. *)
Definition sqliterk_output_cb_leaf (depth : nat) (k : option rkstate) (db : option (list out_call))
    (master : option sqliterk_master_map) (leaf : option sqliterk_leaf_map) (flags : Z) (polls : list bool)
  : res (Z * option ostate) :=
  match k, db with
  | Some k, Some h =>
    let body : cm ostate Z :=
      let! rc := sqliterk_parse_page ForMaster depth 1 in
      if rc =? SQLITERK_CANCELLED then ret SQLITERK_CANCELLED else output_all depth leaf in
    let? r := body (OState (RkState (pst k) false (heard k)) (start_ctx h master flags polls) UserLive) in
    Done (r.1, Some (OState (rk r.2) (octx_of r.2) UserDead))
  | _, _ => Done (SQLITERK_MISUSE, None)
  end.

(** Setting the flag of the call [userInfo] points to. *)
Definition sqliterk_cancel : cm ostate unit :=
  let! u := gets userInfo in
  match u with
  | UserNone => ret tt
  | UserLive => in_ctx (modify (fun x => set_cancelled true (o_polls x) x))
  | UserDead => fail UseAfterFree
  end.
End output.

(** The two shorter forms. *)
Definition sqliterk_output_cb `{So : SqliteOut} `{Sc : SqliteColumn} `{Cl : SqliterkColumn} `{Af : CAtof}
    `{Al : SqliterkAlloc} `{Fi : SqliterkFile} `{Co : SqliterkCodec} `{Ut : SqliterkUtil} `{Bt : SqliterkBtreeTypes}
    (callback : option (list rk_event -> Z)) (depth : nat) (k : option rkstate) (db : option (list out_call))
    (master : option sqliterk_master_map) (flags : Z) (polls : list bool) : res (Z * option ostate) :=
  sqliterk_output_cb_leaf callback depth k db master None flags polls.

Definition sqliterk_output `{So : SqliteOut} `{Sc : SqliteColumn} `{Cl : SqliterkColumn} `{Af : CAtof}
    `{Al : SqliterkAlloc} `{Fi : SqliterkFile} `{Co : SqliterkCodec} `{Ut : SqliterkUtil} `{Bt : SqliterkBtreeTypes}
    (depth : nat) (k : option rkstate) (db : option (list out_call)) (master : option sqliterk_master_map)
    (flags : Z) (polls : list bool) : res (Z * option ostate) :=
  sqliterk_output_cb_leaf None depth k db master None flags polls.
