(* ===== verification/OutputAffinity.v ===== *)
(** * Column affinities

    [parse_affinity] against the rules SQLite documents for declared types. *)

From S2P Require Import Prelude CLib Values Output.

(** ** The documented rules *)

(** The declared type is compared without case. *)
Definition upper (t : list Z) : list Z := map toupper t.

(** Where the last of some words ends in a text, counted from 1; 0 when none occurs. *)
Definition word_ends (w p : list Z) : bool := bool_decide (take (length w) (rev p) = rev w).
Fixpoint last_end (ws : list (list Z)) (rp : list Z) : nat :=
  match rp with
  | [] => 0
  | _ :: rp' => if existsb (fun w => bool_decide (take (length w) rp = rev w)) ws then length rp else last_end ws rp'
  end.
Definition last_in (ws : list (list Z)) (t : list Z) : nat := last_end ws (rev t).
Definition occurs (ws : list (list Z)) (t : list Z) : bool := negb (last_in ws t =? 0)%nat.

Definition int_words : list (list Z) := [str "INT"].
Definition text_words : list (list Z) := [str "CHAR"; str "CLOB"; str "TEXT"].
Definition blob_words : list (list Z) := [str "BLOB"].
Definition real_words : list (list Z) := [str "REAL"; str "FLOA"; str "DOUB"].

(** The first rule that applies, in the order of the documentation. *)
Definition sqlite_affinity (t : list Z) : Z :=
  if occurs int_words (upper t) then SQLITE_AFF_INTEGER
  else if occurs text_words (upper t) then SQLITE_AFF_TEXT
  else if occurs blob_words (upper t) then SQLITE_AFF_BLOB
  else if occurs real_words (upper t) then SQLITE_AFF_REAL
  else SQLITE_AFF_NUMERIC.

(** ** The hash of the last four characters *)

Definition tail_hash (rp : list Z) : Z :=
  match rp with
  | [] => 0
  | [d] => d
  | [d; c] => c * 2 ^ 8 + d
  | [d; c; b] => b * 2 ^ 16 + c * 2 ^ 8 + d
  | d :: c :: b :: a :: _ => a * 2 ^ 24 + b * 2 ^ 16 + c * 2 ^ 8 + d
  end.

Definition letter (c : Z) : Prop := 0 < c < 256.

Lemma tail_hash_step rp c : Forall letter rp -> letter c ->
  u32 (u32 (Z.shiftl (tail_hash rp) 8) + c) = tail_hash (c :: rp).
Proof.
  unfold letter. intros Hrp Hc. rewrite Z.shiftl_mul_pow2 by lia. unfold u32. rewrite Zplus_mod_idemp_l.
  assert (Hsmall : forall z, 0 <= z < 2 ^ 32 -> z mod 2 ^ 32 = z) by (intros; by apply Z.mod_small).
  destruct rp as [|d [|d2 [|d3 [|d4 rp]]]]; repeat match goal with H : Forall _ (_ :: _) |- _ => apply Forall_cons in H as [? H] end;
    cbn [tail_hash]; try (rewrite Hsmall by lia; lia).
  replace ((d4 * 2 ^ 24 + d3 * 2 ^ 16 + d2 * 2 ^ 8 + d) * 2 ^ 8 + c)
    with (d3 * 2 ^ 24 + d2 * 2 ^ 16 + d * 2 ^ 8 + c + d4 * 2 ^ 32) by lia.
  rewrite Z.mod_add by lia. apply Hsmall. lia.
Qed.

(** The order of the parts of a word does not matter. *)
Lemma lor_rev a b c d : Z.lor (Z.lor (Z.lor a b) c) d = Z.lor (Z.lor (Z.lor d c) b) a.
Proof.
  apply Z.bits_inj'. intros n _. rewrite !Z.lor_spec.
  by destruct (Z.testbit a n), (Z.testbit b n), (Z.testbit c n), (Z.testbit d n).
Qed.

(** Four letters are found by their hash. *)
Lemma tail_hash_four rp a b c d : Forall letter rp -> letter a -> letter b -> letter c -> letter d ->
  (tail_hash rp =? string_digits [a; b; c; d]) = bool_decide (take 4 rp = [d; c; b; a]).
Proof.
  unfold letter. intros Hrp Ha Hb Hc Hd.
  assert (Hs : string_digits [a; b; c; d] = a * 2 ^ 24 + b * 2 ^ 16 + c * 2 ^ 8 + d).
  { unfold string_digits. cbn [nth]. rewrite lor_rev.
    rewrite (lor_shift d c 8), (lor_shift _ b 16), (lor_shift _ a 24) by lia. lia. }
  rewrite Hs. destruct rp as [|x1 [|x2 [|x3 [|x4 rp]]]];
    repeat match goal with H : Forall _ (_ :: _) |- _ => apply Forall_cons in H as [? H] end; cbn [tail_hash take];
    rewrite ?take_0; case_bool_decide as E; try discriminate E; try (apply Z.eqb_neq; lia).
  - injection E as -> -> -> ->. apply Z.eqb_refl.
  - apply Z.eqb_neq. intros He. apply E. assert (x1 = d /\ x2 = c /\ x3 = b /\ x4 = a) as (-> & -> & -> & ->) by lia. done.
Qed.

(** Three letters are found in the hash that is shifted once more. *)
Lemma tail_hash_three rp a b c : Forall letter rp -> letter a -> letter b -> letter c ->
  (u32 (Z.shiftl (tail_hash rp) 8) =? string_digits [a; b; c]) = bool_decide (take 3 rp = [c; b; a]).
Proof.
  unfold letter. intros Hrp Ha Hb Hc. rewrite Z.shiftl_mul_pow2 by lia. unfold u32.
  assert (Hs : string_digits [a; b; c] = a * 2 ^ 24 + b * 2 ^ 16 + c * 2 ^ 8).
  { unfold string_digits. cbn [nth]. rewrite lor_rev.
    rewrite (lor_shift 0 c 8), (lor_shift _ b 16), (lor_shift _ a 24) by lia. lia. }
  rewrite Hs. assert (Hsmall : forall z, 0 <= z < 2 ^ 32 -> z mod 2 ^ 32 = z) by (intros; by apply Z.mod_small).
  destruct rp as [|x1 [|x2 [|x3 [|x4 rp]]]];
    repeat match goal with H : Forall _ (_ :: _) |- _ => apply Forall_cons in H as [? H] end; cbn [tail_hash take];
    rewrite ?take_0.
  1-3: rewrite Hsmall by lia; case_bool_decide as E; [discriminate E|]; apply Z.eqb_neq; lia.
  1: rewrite Hsmall by lia.
  2: replace ((x4 * 2 ^ 24 + x3 * 2 ^ 16 + x2 * 2 ^ 8 + x1) * 2 ^ 8)
       with (x3 * 2 ^ 24 + x2 * 2 ^ 16 + x1 * 2 ^ 8 + x4 * 2 ^ 32) by lia; rewrite Z.mod_add, Hsmall by lia.
  all: case_bool_decide as E; [injection E as -> -> ->; apply Z.eqb_eq; lia|];
    apply Z.eqb_neq; intros He; apply E; assert (x1 = c /\ x2 = b /\ x3 = a) as (-> & -> & ->) by lia; done.
Qed.

(** ** The loop *)

(** The affinity after the characters whose reverse is [rp]. *)
Definition affinity_of (rp : list Z) : Z :=
  if (last_end int_words rp <? last_end text_words rp)%nat then SQLITE_AFF_TEXT
  else if negb (last_end int_words rp =? 0)%nat then SQLITE_AFF_INTEGER
  else if negb (last_end blob_words rp =? 0)%nat then SQLITE_AFF_BLOB
  else if negb (last_end real_words rp =? 0)%nat then SQLITE_AFF_REAL
  else SQLITE_AFF_NUMERIC.

Lemma last_end_le ws rp : (last_end ws rp <= length rp)%nat.
Proof. induction rp as [|c rp IH]; [done|]. cbn [last_end]. destruct (existsb _ ws); cbn; lia. Qed.

Definition found (ws : list (list Z)) (rp : list Z) : bool :=
  existsb (fun w => bool_decide (take (length w) rp = rev w)) ws.

Lemma last_end_cons ws c rp :
  last_end ws (c :: rp) = if found ws (c :: rp) then S (length rp) else last_end ws rp.
Proof. done. Qed.

(** The affinity after one more character, in terms of the words that end with it. *)
Lemma affinity_of_cons c rp :
  affinity_of (c :: rp) =
  if found int_words (c :: rp) then SQLITE_AFF_INTEGER
  else if found text_words (c :: rp) then SQLITE_AFF_TEXT
  else if found blob_words (c :: rp) then
    if (affinity_of rp =? SQLITE_AFF_NUMERIC) || (affinity_of rp =? SQLITE_AFF_REAL) then SQLITE_AFF_BLOB else affinity_of rp
  else if found real_words (c :: rp) then
    if affinity_of rp =? SQLITE_AFF_NUMERIC then SQLITE_AFF_REAL else affinity_of rp
  else affinity_of rp.
Proof.
  unfold affinity_of. rewrite !last_end_cons.
  pose proof (last_end_le int_words rp). pose proof (last_end_le text_words rp).
  destruct (found int_words (c :: rp)).
  { rewrite (proj2 (Nat.ltb_ge _ _)) by (destruct (found text_words (c :: rp)); lia). done. }
  destruct (found text_words (c :: rp)).
  { by rewrite (proj2 (Nat.ltb_lt _ _)) by lia. }
  destruct (last_end int_words rp <? last_end text_words rp)%nat eqn:E1.
  { by destruct (found blob_words (c :: rp)), (found real_words (c :: rp)). }
  destruct (last_end int_words rp =? 0)%nat; cbn [negb];
    destruct (found blob_words (c :: rp)), (found real_words (c :: rp)), (last_end blob_words rp =? 0)%nat,
      (last_end real_words rp =? 0)%nat; done.
Qed.

Lemma toupper_letter c : letter c -> letter (toupper c).
Proof. unfold letter, toupper. intros. destruct ((97 <=? c) && (c <=? 122)) eqn:E; lia. Qed.

Lemma affinity_step_of rp c : Forall letter rp -> letter c ->
  affinity_step (tail_hash rp) (affinity_of rp) c = (tail_hash (toupper c :: rp), affinity_of (toupper c :: rp)).
Proof.
  intros Hrp Hc. unfold affinity_step.
  assert (Hl : Z.land c 255 = c).
  { change 255 with (Z.ones 8). rewrite Z.land_ones by lia. apply Z.mod_small. unfold letter in Hc. lia. }
  pose proof (toupper_letter c Hc) as Hu. rewrite Hl, tail_hash_step by done. f_equal.
  assert (Hall : Forall letter (toupper c :: rp)) by (by constructor).
  assert (Hw : forall w, (exists x y z t, w = [x; y; z; t] /\ letter x /\ letter y /\ letter z /\ letter t) ->
    (tail_hash (toupper c :: rp) =? string_digits w) = bool_decide (take (length w) (toupper c :: rp) = rev w)).
  { intros w (x & y & z & t & -> & ? & ? & ? & ?). by rewrite tail_hash_four. }
  rewrite affinity_of_cons. unfold found, int_words, text_words, blob_words, real_words. cbn [existsb]. rewrite !orb_false_r.
  rewrite !Hw by (eexists _, _, _, _; split; [reflexivity|]; repeat split).
  change (string_digits (str "INT")) with (string_digits [73; 78; 84]).
  rewrite tail_hash_three by (done || by split). rewrite orb_assoc, orb_assoc. done.
Qed.

Lemma affinity_loop_of t rp : Forall letter rp -> Forall letter t ->
  affinity_loop t (tail_hash rp) (affinity_of rp) = affinity_of (rev (upper t) ++ rp).
Proof.
  intros Hrp Ht. revert rp Hrp. induction Ht as [|c t Hc Ht IH]; intros rp Hrp; [done|]. cbn [affinity_loop].
  rewrite affinity_step_of by done. rewrite IH by (constructor; [by apply toupper_letter|done]).
  f_equal. unfold upper. cbn [map rev]. by rewrite <- app_assoc.
Qed.

(** No type is the same as an empty one. *)
Definition declared_affinity (type : option (list Z)) : Z :=
  match type with None | Some [] => SQLITE_AFF_BLOB | Some t => sqlite_affinity t end.

(** One of the words CHAR, CLOB and TEXT ends behind the last INT. *)
Definition text_after_int (t : list Z) : bool := occurs int_words (upper t) && (last_in int_words (upper t) <? last_in text_words (upper t))%nat.

(** C25: affinities.  For any declared type, or none, [parse_affinity] with its rolling hash gives the affinity of the
    substring rules that SQLite documents, with one exception: when one of the words CHAR, CLOB and TEXT ends
    behind the last INT, as in INTEGER TEXT, the code has TEXT where the documented rules have INTEGER. *)
Theorem parse_affinity_rules type :
  Forall letter (default [] type) ->
  parse_affinity type = if text_after_int (default [] type) then SQLITE_AFF_TEXT else declared_affinity type.
Proof.
  intros Ht. destruct type as [[|c t]|]; [done| |done]. cbn [parse_affinity default declared_affinity] in *.
  pose proof (affinity_loop_of (c :: t) [] ltac:(constructor) Ht) as H. rewrite app_nil_r in H.
  change (tail_hash []) with 0 in H. change (affinity_of []) with SQLITE_AFF_NUMERIC in H. rewrite H.
  unfold text_after_int, sqlite_affinity, affinity_of, occurs, last_in. cbn [id]. set (rp := rev (upper (c :: t))).
  destruct (last_end int_words rp =? 0)%nat eqn:E1; cbn [negb andb].
  - apply Nat.eqb_eq in E1. rewrite E1. by destruct (last_end text_words rp).
  - by destruct (last_end int_words rp <? last_end text_words rp)%nat.
Qed.

(** [UNSIGNED BIG INT] and no type are as documented; a type with both words is not. *)
Lemma parse_affinity_rules_witness :
  parse_affinity (Some (str "unsigned big int")) = SQLITE_AFF_INTEGER /\ parse_affinity None = SQLITE_AFF_BLOB /\
  parse_affinity (Some (str "INTEGER TEXT")) = SQLITE_AFF_TEXT /\ declared_affinity (Some (str "INTEGER TEXT")) = SQLITE_AFF_INTEGER.
Proof.
  split; [|split; [|split; [|vm_compute; reflexivity]]].
  - rewrite (parse_affinity_rules (Some (str "unsigned big int"))); [vm_compute; reflexivity|repeat constructor].
  - rewrite (parse_affinity_rules None); [vm_compute; reflexivity|constructor].
  - rewrite (parse_affinity_rules (Some (str "INTEGER TEXT"))); [vm_compute; reflexivity|repeat constructor].
Defined.
