(* ===== verification/OutputFacts.v ===== *)
(** * Output to a new database: the callbacks

    What the callbacks of [Output] do with one row and with the rows of a walk. *)

From S2P Require Import Prelude CLib Backup Values ValuesFacts Pager PagerFacts Btree BtreeFacts StdMap SqliteColumn LeafFile MasterFile Output.

Section callbacks.
Context `{Al : SqliterkAlloc} `{AL : !SqliterkAllocLaws Al} `{Fi : SqliterkFile} `{Co : SqliterkCodec}.
Context `{Ut : SqliterkUtil} `{Bt : SqliterkBtreeTypes}.
Context `{So : SqliteOut} `{Sc : SqliteColumn} `{Cl : SqliterkColumn} `{CL : !ColumnLaws Cl} `{Af : CAtof}.

(** ** Reading a row *)

(** The value at an index; beyond the last one it is null. *)
Definition val (l : list rkval) (i : nat) : rkval := default RNull (l !! i).

Lemma column_reads c rowid l lo i : col_rep c rowid l lo -> reads (sqliterkColumnGetValues c) (Z.of_nat i) (val l i).
Proof.
  intros (_ & (v & -> & Hv) & _). unfold val. destruct (l !! i) as [r|] eqn:E; [by eapply values_read|].
  apply lookup_ge_None in E. destruct Hv as [_ Hc _].
  assert (Hlt : (Z.of_nat i <? vs_count v) = false) by (rewrite Hc; unfold zlen; lia).
  unfold reads, sqliterkValuesGetType, sqliterkValuesGetInteger64, sqliterkValuesGetNumber, sqliterkValuesGetText,
    sqliterkValuesGetBinary, sqliterkValuesGetBytes. rewrite Hlt. done.
Qed.

Lemma column_count c rowid l lo : col_rep c rowid l lo -> sqliterk_column_count c = zlen l.
Proof. intros (_ & (v & Hv & [_ Hc _]) & _). unfold sqliterk_column_count. by rewrite Hv. Qed.

(** ** Contexts that nobody cancels *)

Record calm (C : cursor -> Prop) (x : octx) : Prop := Calm {
  calm_flag : cancelled x = false;
  calm_polls : o_polls x = [];
  calm_cursor : C (table_cursor x)
}.

(** A computation that, when it returns, leaves such a context and a result with [R]. *)
Definition keeps (C : cursor -> Prop) {A} (R : A -> Prop) (c : cm octx A) : Prop :=
  forall x, calm C x -> pwp (fun _ => True) c (fun a x' => R a /\ calm C x') x.

Lemma keeps_bind C {A B} R R' (c : cm octx A) (k : A -> cm octx B) :
  keeps C R c -> (forall a, R a -> keeps C R' (k a)) -> keeps C R' (bind c k).
Proof.
  intros Hc Hk x Hx. apply pwp_bind. eapply pwp_mono; [by apply Hc|]. intros a x' [Ha Hx']. by apply Hk.
Qed.

Lemma keeps_ret C {A} (R : A -> Prop) a : R a -> keeps C R (ret a).
Proof. intros Ha x Hx. by apply pwp_ret. Qed.

Lemma keeps_fail C {A} (R : A -> Prop) f : keeps C R (fail f : cm octx A).
Proof. intros x Hx. done. Qed.

Lemma keeps_gets C {A} (f : octx -> A) : keeps C (fun _ => True) (gets f).
Proof. intros x Hx. by apply pwp_gets. Qed.

Lemma keeps_modify C f : (forall x, calm C x -> calm C (f x)) -> keeps C (fun _ => True) (modify f).
Proof. intros Hf x Hx. apply pwp_modify. split; [done|auto]. Qed.

Lemma keeps_lift C {A} (r : res A) : keeps C (fun _ => True) (lift_res r).
Proof. intros x Hx. by destruct r. Qed.

Lemma keeps_any C {A} R (c : cm octx A) : keeps C R c -> keeps C (fun _ => True) c.
Proof. intros Hc x Hx. eapply pwp_mono; [by apply Hc|]. by intros a x' [_ ?]. Qed.

Create HintDb keeps.
Hint Resolve keeps_fail keeps_gets keeps_lift : keeps.

(** The shape of the code decides. *)
Ltac keeps :=
  repeat (intros; first
    [ apply keeps_fail | apply keeps_gets | apply keeps_lift
    | apply keeps_ret; solve [done | intuition]
    | solve [eauto with keeps]
    | apply keeps_modify; intros [] []; split; solve [done]
    | eapply keeps_bind; [|intros]
    | match goal with |- keeps _ _ (match ?e with _ => _ end) => destruct e end
    | match goal with |- keeps _ _ (let '_ := ?e in _) => destruct e end ]).

Lemma out_keeps C c : keeps C (fun _ => True) (out c).
Proof. unfold out. eapply keeps_bind; [apply keeps_modify; by intros [] []|]. intros _ _. apply keeps_gets. Qed.
Hint Resolve out_keeps : keeps.

Lemma out_exec_keeps C sql : keeps C (fun _ => True) (out_exec sql).
Proof. unfold out_exec. eapply keeps_bind; [apply out_keeps|]. intros _ _. apply keeps_gets. Qed.

Lemma out_prepare_keeps C sql : keeps C (fun _ => True) (out_prepare sql).
Proof.
  unfold out_prepare. eapply keeps_bind; [apply keeps_gets|]. intros id _.
  eapply keeps_bind; [apply out_keeps|]. intros rc _. by apply keeps_ret.
Qed.

Lemma fail_one_keeps C : keeps C (fun _ => True) fail_one.
Proof. apply keeps_modify. by intros [] []. Qed.
Lemma succeed_one_keeps C : keeps C (fun _ => True) succeed_one.
Proof. apply keeps_modify. by intros [] []. Qed.
Hint Resolve out_exec_keeps out_prepare_keeps fail_one_keeps succeed_one_keeps : keeps.

Lemma poll_keeps C : keeps C (fun b => b = false) poll_cancelled.
Proof.
  intros x Hx. pose proof Hx as [H1 H2 H3]. unfold poll_cancelled. apply pwp_bind_gets. rewrite H2.
  by apply pwp_gets.
Qed.
Hint Resolve poll_keeps : keeps.

Lemma fini_insert_keeps C : keeps C (fun _ => True) fini_insert.
Proof. unfold fini_insert. keeps. Qed.

Lemma eval_value_keeps C v : keeps C (fun _ => True) (eval_value v).
Proof. unfold eval_value. keeps. Qed.
Hint Resolve fini_insert_keeps eval_value_keeps : keeps.

Lemma table_info_loop_keeps C fuel info : forall sql ipk, keeps C (fun _ => True) (table_info_loop fuel info sql ipk).
Proof. induction fuel as [|fuel IH]; intros sql ipk; cbn [table_info_loop]; keeps. Qed.
Hint Resolve table_info_loop_keeps : keeps.

Lemma init_insert_keeps C t : keeps C (fun _ => True) (init_insert t).
Proof. unfold init_insert. keeps. Qed.
Hint Resolve init_insert_keeps : keeps.

Lemma bind_values_keeps C n st c : forall i, keeps C (fun _ => True) (bind_values n i st c).
Proof. induction n as [|n IH]; intros i; cbn [bind_values]; cbv zeta; keeps. Qed.

Lemma bind_defaults_keeps C n st : forall i, keeps C (fun _ => True) (bind_defaults n i st).
Proof. induction n as [|n IH]; intros i; cbn [bind_defaults]; keeps. Qed.

Lemma step_all_keeps C fuel st : keeps C (fun _ => True) (step_all fuel st).
Proof. induction fuel as [|fuel IH]; cbn [step_all]; keeps. Qed.

Lemma table_stmt_keeps (C : cursor -> Prop) : C CEnd -> keeps C (fun _ => True) table_stmt.
Proof. intros HC. unfold table_stmt. keeps. Qed.
Hint Resolve bind_values_keeps bind_defaults_keeps step_all_keeps table_stmt_keeps : keeps.

Lemma run_insert_keeps C st : keeps C (fun rc => rc = SQLITERK_OK) (run_insert st).
Proof. unfold run_insert. keeps. Qed.
Hint Resolve run_insert_keeps : keeps.

(** A row of a table is always answered with OK. *)
Lemma table_row_keeps (C : cursor -> Prop) h t c :
  C CEnd -> keeps C (fun rc => rc = SQLITERK_OK) (table_onParseColumn None h t c).
Proof.
  intros HC. unfold table_onParseColumn. eapply keeps_bind; [apply poll_keeps|]. intros b ->.
  change (negb (SQLITERK_OK =? SQLITERK_OK)) with false. cbv iota zeta. keeps.
Qed.

(** And a row of the table of tables. *)
Lemma master_row_keeps C t c :
  b_type t = sqliterk_type_master -> keeps C (fun rc => rc = SQLITERK_OK) (master_onParseColumn t c).
Proof.
  intros Ht. unfold master_onParseColumn. eapply keeps_bind; [apply poll_keeps|]. intros b ->.
  unfold sqliterk_table_type. rewrite Ht, Z.eqb_refl. cbn [negb]. cbv iota. keeps.
Qed.

Lemma replay_keeps (C : cursor -> Prop) cl h : C CEnd -> keeps C (fun _ => True) (replay None cl h).
Proof.
  intros HC. induction h as [|e h IH]; cbn [replay]; [by apply keeps_ret|].
  eapply keeps_bind; [exact IH|]. intros _ _. destruct cl, e as [b|b c|b|p]; cbn [on_event]; try by apply keeps_ret.
  - destruct (decide (b_type b = sqliterk_type_master)) as [Hb|Hb].
    + eapply keeps_any. by apply master_row_keeps.
    + unfold master_onParseColumn. eapply keeps_bind; [apply poll_keeps|]. intros ? ->. unfold sqliterk_table_type.
      rewrite (proj2 (Z.eqb_neq _ _)) by done. by apply keeps_ret.
  - unfold table_onBeginParseTable. keeps.
  - eapply keeps_any. by apply table_row_keeps.
Qed.

(** The user of a walk accepts every row. *)
Lemma user_accepts (C : cursor -> Prop) cl x bt c h :
  C CEnd -> calm C x ->
  b_type bt = (if match cl with ForMaster => true | ForTables => false end then sqliterk_btree_type_master
               else sqliterk_btree_type_table) ->
  match replay None cl (EvColumn bt c :: h) x with Done (rc, _) => rc | Stuck _ => SQLITERK_OK end = SQLITERK_OK.
Proof.
  intros HC Hx Hb. cbn [replay]. unfold bind. pose proof (replay_keeps C cl h HC x Hx) as H. unfold pwp in H.
  destruct (replay None cl h x) as [[rc x']|]; [|done]. destruct H as [_ Hx'].
  assert (Hk : keeps C (fun rc => rc = SQLITERK_OK) (on_event None cl (EvColumn bt c :: h) (EvColumn bt c))).
  { destruct cl; cbn [on_event]; [by apply master_row_keeps|by apply table_row_keeps]. }
  specialize (Hk x' Hx'). unfold pwp in Hk. destruct (on_event _ _ _ _ x') as [[rc' x'']|]; [apply Hk|done].
Qed.

(** The name it gives to a tree is the one of the table. *)
Lemma user_names cl name x h meta :
  calm (fun c => c = CAt name \/ c = CEnd) x ->
  match onBeginParseTable (notify_of None cl x) with Some begun => begun h = Some meta | None => False end ->
  meta = (name ++ [0], sqliterk_btree_type_table).
Proof.
  intros Hx. cbn [notify_of onBeginParseTable]. destruct cl; [done|].
  pose proof (replay_keeps _ ForTables (tail h) (or_intror eq_refl) x Hx) as H. unfold pwp in H.
  unfold bind. destruct (replay None ForTables (tail h) x) as [[rc x']|]; [|done]. destruct H as [_ [_ _ Hc]].
  unfold table_onBeginParseTable, bind, gets. destruct (table_cursor x') as [| |name']; [done..|].
  intros [= <-]. destruct Hc as [[= ->]|?]; done.
Qed.

(** ** What a row does, exactly *)

(** Calls in the order they are made, added to a context. *)
Definition logged (cs : list out_call) (x : octx) : octx := set_calls (rev cs ++ o_calls x) x.

Lemma logged_nil x : logged [] x = x.
Proof. by destruct x. Qed.
Lemma logged_app a b x : logged b (logged a x) = logged (a ++ b) x.
Proof. unfold logged. destruct x; cbn. by rewrite rev_app_distr, <- app_assoc. Qed.
Lemma out_logged c x : out c x = Done (out_rc (c :: o_calls x), logged [c] x).
Proof. done. Qed.

(** The value a column is bound to, and whether it may be. *)
Definition bound_value (ipk rowid i : Z) (v : rkval) : sqlite_value :=
  match v with
  | RNull => if ipk =? i + 1 then SV_Integer rowid else SV_Null
  | RInteger n => SV_Integer n
  | RNumber b => SV_Float b
  | RText b => SV_Text b
  | RBinary b => SV_Blob b
  end.

Definition value_fits (ci : sqliterk_output_column_info) (v : rkval) : bool :=
  match v with
  | RInteger _ | RNumber _ => negb (affinity ci =? SQLITE_AFF_TEXT)
  | RNull => negb (not_null ci)
  | _ => true
  end.

(** The values of a row, as they are bound: up to the first that does not fit. *)
Fixpoint row_binds (cis : list sqliterk_output_column_info) (ipk rowid : Z) (st : nat) (i : Z) (l : list rkval)
  {struct l} : list out_call * bool :=
  match l, cis with
  | [], _ => ([], true)
  | v :: l, ci :: cis =>
    if value_fits ci v then
      let '(cs, ok) := row_binds cis ipk rowid st (i + 1) l in
      (OBind st (i + 1) (bound_value ipk rowid i v) :: cs, ok)
    else ([], false)
  | _ :: _, [] => ([], false)
  end.

Lemma nth_error_lookup {A} (l : list A) i : nth_error l i = l !! i.
Proof. revert i. induction l as [|a l IH]; intros [|i]; cbn; auto. Qed.

Lemma bound_text (b : list Z) : bound_bytes SV_Text (Some (b ++ [0])) (zlen b) = Done (SV_Text b).
Proof. unfold bound_bytes. by rewrite (zread_n_app [] b [0]) by done. Qed.
Lemma bound_blob (b : list Z) : bound_bytes SV_Blob (Some b) (zlen b) = Done (SV_Blob b).
Proof. unfold bound_bytes. by rewrite (zread_n_tail [] b) by done. Qed.

Lemma bind_values_exact c rowid l lo st : col_rep c rowid l lo -> forall l1 l2 x,
  l = l1 ++ l2 -> (length l <= length (column_info x))%nat ->
  bind_values (length l2) (zlen l1) st c x =
    let '(cs, ok) := row_binds (drop (length l1) (column_info x)) (ipk_column x) rowid st (zlen l1) l2 in
    Done (ok, let x' := logged cs x in if ok then x' else set_counts (success_count x') (u32 (o_fail_count x' + 1)) x').
Proof.
  intros Hc l1 l2. revert l1. induction l2 as [|v l2 IH]; intros l1 x Hl Hn.
  { cbn [length bind_values row_binds]. cbv beta iota zeta. by rewrite logged_nil. }
  cbn [length bind_values]. cbv zeta. pose proof Hc as [Hr _].
  assert (Hv : val l (length l1) = v).
  { unfold val. rewrite Hl, lookup_app_r by lia. by rewrite Nat.sub_diag. }
  pose proof (column_reads c rowid l lo (length l1) Hc) as Hreads. rewrite Hv in Hreads.
  destruct Hreads as (R1 & R2 & R3 & R4 & R5 & R6). fold (zlen l1) in R1, R2, R3, R4, R5, R6.
  unfold sqliterk_column_type, sqliterk_column_integer64, sqliterk_column_number, sqliterk_column_text,
    sqliterk_column_binary, sqliterk_column_bytes, sqliterk_column_rowid. rewrite R1, R2, R3, R4, R5, R6, Hr.
  assert (Hdrop : exists ci, nth_error (column_info x) (length l1) = Some ci /\
    drop (length l1) (column_info x) = ci :: drop (S (length l1)) (column_info x)).
  { rewrite Hl, length_app in Hn. cbn [length] in Hn.
    destruct (nth_error (column_info x) (length l1)) as [ci|] eqn:E; [|apply nth_error_None in E; lia].
    exists ci. split; [done|]. apply drop_S. by rewrite <- nth_error_lookup. }
  destruct Hdrop as (ci & Hci & Hdrop). rewrite Hdrop. cbn [row_binds].
  assert (Hgo : forall w, (let! _ := out (OBind st (zlen l1 + 1) w) in bind_values (length l2) (zlen l1 + 1) st c) x =
    let '(cs, ok) := row_binds (drop (S (length l1)) (column_info x)) (ipk_column x) rowid st (zlen l1 + 1) l2 in
    Done (ok, let x' := logged (OBind st (zlen l1 + 1) w :: cs) x in
              if ok then x' else set_counts (success_count x') (u32 (o_fail_count x' + 1)) x')).
  { intros w. unfold bind at 1. rewrite out_logged.
    assert (Hz : zlen l1 + 1 = zlen (l1 ++ [v])) by (by rewrite zlen_app).
    assert (Hs : S (length l1) = length (l1 ++ [v])) by (rewrite length_app; cbn; lia).
    rewrite Hz, Hs. pose proof (IH (l1 ++ [v]) (logged [OBind st (zlen (l1 ++ [v])) w] x)) as IH'.
    rewrite IH'; [|by rewrite Hl, <- app_assoc|done]. cbn [column_info ipk_column logged set_calls].
    destruct (row_binds _ _ _ _ _ l2) as [cs ok]. fold (logged [OBind st (zlen (l1 ++ [v])) w] x).
    rewrite logged_app. done. }
  unfold bind at 1, lift_res at 1. unfold bind at 1, gets at 1. rewrite to_nat_zlen, Hci.
  destruct v; cbn [type_of value_fits bound_value].
  all: cbn [Z.eqb Pos.eqb sqliterk_value_type_binary sqliterk_value_type_integer sqliterk_value_type_null
      sqliterk_value_type_number sqliterk_value_type_text text_of binary_of bytes_of int64_of number_of].
  - destruct (not_null ci); cbn [negb].
    + by rewrite logged_nil.
    + unfold bind at 1, gets at 1. destruct (ipk_column x =? zlen l1 + 1); rewrite Hgo; by destruct (row_binds _ _ _ _ _ l2).
  - destruct (affinity ci =? SQLITE_AFF_TEXT); cbn [negb]; [by rewrite logged_nil|].
    unfold bind at 1, lift_res at 1. rewrite Hgo. by destruct (row_binds _ _ _ _ _ l2).
  - destruct (affinity ci =? SQLITE_AFF_TEXT); cbn [negb]; [by rewrite logged_nil|].
    unfold bind at 1, lift_res at 1. rewrite Hgo. by destruct (row_binds _ _ _ _ _ l2).
  - unfold bind at 1, lift_res at 1. unfold bind at 1, lift_res at 1. unfold bind at 1, lift_res at 1.
    rewrite bound_text, Hgo. by destruct (row_binds _ _ _ _ _ l2).
  - unfold bind at 1, lift_res at 1. unfold bind at 1, lift_res at 1. unfold bind at 1, lift_res at 1.
    rewrite bound_blob, Hgo. by destruct (row_binds _ _ _ _ _ l2).
Qed.

(** The defaults of the columns a row does not have, bound from index [i] on. *)
Fixpoint default_binds (cis : list sqliterk_output_column_info) (st : nat) (i : Z) : list out_call :=
  match cis with
  | [] => []
  | ci :: cis => match default_value ci with Some v => [OBind st i v] | None => [] end ++ default_binds cis st (i + 1)
  end.

Lemma bind_defaults_exact st cis2 : forall cis1 x,
  column_info x = cis1 ++ cis2 ->
  bind_defaults (length cis2) (zlen cis1) st x = Done (tt, logged (default_binds cis2 st (zlen cis1)) x).
Proof.
  induction cis2 as [|ci cis2 IH]; intros cis1 x Hx; cbn [length bind_defaults default_binds]; [by rewrite logged_nil|].
  unfold bind at 1, gets at 1. rewrite to_nat_zlen, nth_error_lookup, Hx, lookup_app_r, Nat.sub_diag by lia. cbn [lookup list_lookup].
  assert (Hz : zlen cis1 + 1 = zlen (cis1 ++ [ci])) by (by rewrite zlen_app). rewrite Hz.
  destruct (default_value ci) as [v|].
  - unfold bind at 1. unfold bind at 1. rewrite out_logged. cbn [ret].
    rewrite IH by (cbn [column_info logged set_calls]; by rewrite Hx, <- app_assoc). by rewrite logged_app.
  - unfold bind at 1. cbn [ret]. rewrite IH by (by rewrite Hx, <- app_assoc). done.
Qed.

Definition rejected (x : octx) : octx := set_counts (success_count x) (u32 (o_fail_count x + 1)) x.

(** A row that is in the database; every 256th ends a transaction. *)
Definition counted (x : octx) : octx :=
  let n := u32 (success_count x + 1) in
  let x := set_counts n (o_fail_count x) x in
  if n mod 256 =? 0 then logged [OExec (str "COMMIT; BEGIN;")] x else x.

Definition row_effect (st : nat) (x : octx) (r : Z * list rkval) : octx :=
  let '(rowid, l) := r in
  if real_columns x <? zlen l then rejected x
  else
    let '(cs, ok) := row_binds (column_info x) (ipk_column x) rowid st 0 l in
    let x := logged (OClear st :: cs) x in
    if ok then
      counted (logged (default_binds (drop (length l) (column_info x)) st (zlen l) ++ [OStep st; OReset st]) x)
    else rejected x.

(** Calls that leave tables and statements alone. *)
Definition harmless (c : out_call) : Prop :=
  match c with
  | OExec sql => sql = str "BEGIN;" \/ sql = str "COMMIT; BEGIN;"
  | OFinalize _ => False
  | _ => True
  end.

(** A statement that inserts without complaint after the history [h]. *)
Record insert_works (st : nat) (h : list out_call) : Prop := InsertWorks {
  step_done : forall cs, Forall harmless cs -> out_rc (OStep st :: cs ++ h) <> SQLITE_ROW;
  reset_ok : forall cs, Forall harmless cs -> out_rc (OReset st :: cs ++ h) = SQLITE_OK;
  steps_allowed : (0 < out_steps)%nat
}.

Lemma insert_works_later st h cs : Forall harmless cs -> insert_works st h -> insert_works st (cs ++ h).
Proof.
  intros Hcs [Hs Hr Hn]. split; [| |done]; intros cs' Hcs'; rewrite app_assoc; [apply Hs|apply Hr]; by apply Forall_app.
Qed.

Lemma insert_works_logged st cs x :
  Forall harmless cs -> insert_works st (o_calls x) -> insert_works st (o_calls (logged cs x)).
Proof. intros Hcs. apply insert_works_later. by apply Forall_rev. Qed.

Lemma row_binds_harmless cis ipk rowid st l : forall i, Forall harmless (row_binds cis ipk rowid st i l).1.
Proof.
  revert cis. induction l as [|v l IH]; intros [|ci cis] i; cbn [row_binds]; try constructor.
  destruct (value_fits ci v); [|constructor]. specialize (IH cis (i + 1)).
  destruct (row_binds cis ipk rowid st (i + 1) l). by constructor.
Qed.

Lemma default_binds_harmless cis st : forall i, Forall harmless (default_binds cis st i).
Proof.
  induction cis as [|ci cis IH]; intros i; cbn [default_binds]; [constructor|].
  apply Forall_app. split; [|apply IH]. destruct (default_value ci); by repeat constructor.
Qed.

Lemma run_insert_exact st x :
  insert_works st (o_calls x) -> run_insert st x = Done (SQLITERK_OK, counted (logged [OStep st; OReset st] x)).
Proof.
  intros [Hs Hr Hn]. unfold run_insert. destruct out_steps as [|n]; [lia|]. cbn [step_all].
  unfold bind at 1. unfold bind at 1. rewrite out_logged. rewrite (proj2 (Z.eqb_neq _ _)) by (apply (Hs []); constructor). cbn [ret].
  unfold bind at 1. rewrite out_logged.
  change (o_calls (logged [OStep st] x)) with ([OStep st] ++ o_calls x). rewrite Hr by by repeat constructor. change (negb (SQLITE_OK =? SQLITE_OK)) with false. cbv iota.
  unfold bind at 1, succeed_one, modify. unfold bind at 1, gets. unfold counted. cbn [success_count set_counts logged set_calls].
  destruct (_ mod 256 =? 0); reflexivity.
Qed.

Lemma fini_insert_exact st x :
  o_stmt x = Some st -> fini_insert x = Done (tt, set_insert None 0 [] 0 (logged [OFinalize st] x)).
Proof. intros Hst. unfold fini_insert, bind, gets, modify. by rewrite Hst. Qed.

(** A prepared statement and what is known of its columns. *)
Record prepared (st : nat) (x : octx) : Prop := Prepared {
  pr_stmt : o_stmt x = Some st;
  pr_columns : real_columns x = zlen (column_info x)
}.

Lemma insert_row_exact st x c rowid l lo :
  prepared st x -> insert_works st (o_calls x) -> col_rep c rowid l lo ->
  (let! x := gets (fun x => x) in
   if (real_columns x <? sqliterk_column_count c) || (zlen (column_info x) <? sqliterk_column_count c)
   then fail_one ;;; ret SQLITERK_OK
   else
     let! _ := out (OClear st) in
     let! bound := bind_values (Z.to_nat (sqliterk_column_count c)) 0 st c in
     if negb bound then ret SQLITERK_OK
     else
       bind_defaults (Z.to_nat (real_columns x - sqliterk_column_count c)) (sqliterk_column_count c) st ;;;
       run_insert st) x = Done (SQLITERK_OK, row_effect st x (rowid, l)).
Proof.
  intros [Hst Hcols] Hw Hc. rewrite (column_count c rowid l lo Hc). unfold bind at 1, gets at 1. unfold row_effect.
  rewrite <- Hcols, orb_diag. destruct (real_columns x <? zlen l) eqn:E; [done|].
  assert (Hle : (length l <= length (column_info x))%nat) by (unfold zlen in *; lia).
  unfold bind at 1. rewrite out_logged. unfold bind at 1. rewrite to_nat_zlen.
  pose proof (bind_values_exact c rowid l lo st Hc [] l (logged [OClear st] x) eq_refl Hle) as Hb.
  change (zlen []) with 0 in Hb. rewrite Hb. cbn [length]. rewrite drop_0.
  change (column_info (logged [OClear st] x)) with (column_info x).
  change (ipk_column (logged [OClear st] x)) with (ipk_column x).
  pose proof (row_binds_harmless (column_info x) (ipk_column x) rowid st l 0) as Hcsok.
  destruct (row_binds (column_info x) (ipk_column x) rowid st 0 l) as [cs ok]. cbn [fst] in Hcsok.
  destruct ok; cbn [negb]; cbv zeta; rewrite logged_app; cbn [app]; [|done].
  set (x1 := logged (OClear st :: cs) x).
  assert (Hlen : Z.to_nat (real_columns x - zlen l) = length (drop (length l) (column_info x))).
  { rewrite length_drop. unfold zlen in *. lia. }
  assert (Hz : zlen l = zlen (take (length l) (column_info x1))).
  { unfold zlen. rewrite length_take. change (column_info x1) with (column_info x). f_equal. lia. }
  unfold bind at 1. rewrite Hlen. rewrite Hz at 1.
  rewrite (bind_defaults_exact st (drop (length l) (column_info x)) (take (length l) (column_info x1)) x1)
    by (symmetry; apply take_drop).
  rewrite <- Hz. rewrite run_insert_exact.
  2: { apply insert_works_logged; [apply default_binds_harmless|]. apply insert_works_logged; [|done].
       constructor; [done|exact Hcsok]. }
  rewrite logged_app. done.
Qed.

Lemma poll_calm C x : calm C x -> poll_cancelled x = Done (false, x).
Proof. intros [H1 H2 _]. unfold poll_cancelled, bind, gets. by rewrite H2, H1. Qed.

(** A row of a table whose statement is prepared. *)
Lemma table_row_exact C h t c rowid l lo st x :
  calm C x -> prepared st x -> insert_works st (o_calls x) -> col_rep c rowid l lo ->
  table_onParseColumn None h t c x = Done (SQLITERK_OK, row_effect st x (rowid, l)).
Proof.
  intros Hx Hp Hw Hc. unfold table_onParseColumn. unfold bind at 1. rewrite (poll_calm C) by done.
  change (negb (SQLITERK_OK =? SQLITERK_OK)) with false. cbv iota zeta.
  pose proof Hp as [Hst _]. unfold bind at 1, table_stmt. unfold bind at 1, gets at 1. rewrite Hst. cbn [ret].
  by apply insert_row_exact with (lo := lo).
Qed.

(** The statement can be prepared: the context just behind [BEGIN]. *)
Record table_opens (name : list Z) (x : octx) (st : nat) (xb : octx) : Prop := TableOpens {
  to_idle : o_stmt x = None;
  to_cursor : table_cursor x = CAt name;
  to_init : exists n x1, init_insert name x = Done (n, x1) /\ 0 < n /\ xb = logged [OExec (str "BEGIN;")] x1;
  to_prepared : prepared st xb;
  to_works : insert_works st (o_calls xb)
}.

(** The first row of a table. *)
Lemma first_row_exact C h t c rowid l lo name st x xb :
  calm C x -> table_opens name x st xb -> col_rep c rowid l lo ->
  table_onParseColumn None h t c x = Done (SQLITERK_OK, row_effect st xb (rowid, l)).
Proof.
  intros Hx [Hidle Hcur (n & x1 & Hinit & Hn & Hxb) Hp Hw] Hc. unfold table_onParseColumn.
  unfold bind at 1. rewrite (poll_calm C) by done.
  change (negb (SQLITERK_OK =? SQLITERK_OK)) with false. cbv iota zeta.
  assert (Hts : table_stmt x = Done (Some st, xb)).
  { unfold table_stmt, bind at 1, gets at 1. rewrite Hidle, Hcur. unfold bind at 1. rewrite Hinit.
    rewrite (proj2 (Z.leb_gt _ _)) by lia. unfold bind at 1, out_exec. unfold bind at 1. rewrite out_logged.
    unfold gets. rewrite <- Hxb. by rewrite (pr_stmt _ _ Hp). }
  unfold bind at 1. rewrite Hts. by apply insert_row_exact with (lo := lo).
Qed.

(** A row changes the log and the counters. *)
Lemma row_effect_frame C st x r :
  calm C x -> prepared st x -> calm C (row_effect st x r) /\ prepared st (row_effect st x r) /\
  column_info (row_effect st x r) = column_info x /\ ipk_column (row_effect st x r) = ipk_column x /\
  table_cursor (row_effect st x r) = table_cursor x /\ tables (row_effect st x r) = tables x /\
  o_flags (row_effect st x r) = o_flags x.
Proof.
  intros [H1 H2 H3] [H4 H5]. destruct r as [rowid l]. unfold row_effect, rejected, counted.
  destruct (real_columns x <? zlen l); [done|]. destruct (row_binds _ _ _ _ _ l) as [cs []]; [|done].
  by destruct (_ mod 256 =? 0).
Qed.

Lemma row_effect_works st x r : insert_works st (o_calls x) -> insert_works st (o_calls (row_effect st x r)).
Proof.
  intros Hw. destruct r as [rowid l]. unfold row_effect, rejected, counted. destruct (real_columns x <? zlen l); [done|].
  pose proof (row_binds_harmless (column_info x) (ipk_column x) rowid st l 0) as Hb.
  destruct (row_binds _ _ _ _ _ l) as [cs ok]. cbn [fst] in Hb.
  assert (H1 : insert_works st (o_calls (logged (OClear st :: cs) x))) by (apply insert_works_logged; [by constructor|done]).
  destruct ok; [|exact H1]. set (x1 := logged (OClear st :: cs) x) in *.
  assert (H2 : insert_works st (o_calls (logged (default_binds (drop (length l) (column_info x1)) st (zlen l) ++ [OStep st; OReset st]) x1))).
  { apply insert_works_logged; [|done]. apply Forall_app. split; [apply default_binds_harmless|by repeat constructor]. }
  destruct (_ mod 256 =? 0); [|exact H2]. apply (insert_works_later st _ [OExec (str "COMMIT; BEGIN;")]); [|exact H2].
  constructor; [by right|constructor].
Qed.

Definition rows_effect (st : nat) (x : octx) (rs : list (Z * list rkval)) : octx := foldl (row_effect st) x rs.

Lemma rows_effect_frame C st rs : forall x,
  calm C x -> prepared st x -> calm C (rows_effect st x rs) /\ prepared st (rows_effect st x rs) /\
  column_info (rows_effect st x rs) = column_info x /\ ipk_column (rows_effect st x rs) = ipk_column x /\
  table_cursor (rows_effect st x rs) = table_cursor x /\ tables (rows_effect st x rs) = tables x /\
  o_flags (rows_effect st x rs) = o_flags x.
Proof.
  induction rs as [|r rs IH]; intros x Hx Hp; [done|]. cbn [rows_effect foldl].
  destruct (row_effect_frame C st x r Hx Hp) as (A & B & E1 & E2 & E3 & E4 & E5).
  destruct (IH _ A B) as (A' & B' & F1 & F2 & F3 & F4 & F5). unfold rows_effect in *.
  split; [exact A'|]. split; [exact B'|]. by rewrite F1, F2, F3, F4, F5.
Qed.

Lemma rows_effect_works st rs : forall x, insert_works st (o_calls x) -> insert_works st (o_calls (rows_effect st x rs)).
Proof. induction rs as [|r rs IH]; intros x Hw; [done|]. by apply IH, row_effect_works. Qed.

Lemma table_opens_calm C name x st xb : calm C x -> table_opens name x st xb -> calm C xb.
Proof.
  intros Hx [_ _ (n & x1 & Hi & _ & ->) _ _]. pose proof (init_insert_keeps C name x Hx) as H. unfold pwp in H.
  rewrite Hi in H. by destruct H as [_ [? ? ?]].
Qed.

(** The context after some rows of a table: nothing is done before the first one. *)
Definition after_rows (st : nat) (x xb : octx) (rs : list (Z * list rkval)) : octx :=
  match rs with [] => x | _ => rows_effect st xb rs end.

(** The events of a walk, in order, leave the rows in the context. *)
Lemma replay_rows name st x xb evs : forall rs,
  calm (fun c => c = CAt name) x -> (rs <> [] -> table_opens name x st xb) -> Forall2 row_is (rows_of evs) rs ->
  exists rc, replay None ForTables (rev evs) x = Done (rc, after_rows st x xb (map (fun r => (r.1.2, r.2)) rs)).
Proof.
  intros rs Hx. revert rs. induction evs as [|e evs IH] using rev_ind; intros rs Ho Hrs.
  { inversion Hrs; subst. by eexists. }
  rewrite rev_app_distr. cbn [rev app replay]. unfold rows_of in Hrs. rewrite omap_app in Hrs.
  apply Forall2_app_inv_l in Hrs as (rs1 & rs2 & Hrs1 & Hrs2 & ->).
  assert (Ho1 : rs1 <> [] -> table_opens name x st xb) by (intros H; apply Ho; by destruct rs1).
  destruct (IH rs1 Ho1 Hrs1) as [rc Hrc].
  unfold bind. rewrite Hrc. rewrite map_app. set (x1 := after_rows st x xb _).
  assert (Hx1 : calm (fun c => c = CAt name) x1).
  { unfold x1, after_rows. destruct rs1 as [|r0 rs0]; [done|]. pose proof (Ho1 ltac:(done)) as Hop.
    apply rows_effect_frame; [by eapply table_opens_calm|apply Hop]. }
  destruct e as [b|b c|b|p]; cbn [on_event omap list_omap] in Hrs2 |- *.
  - inversion Hrs2; subst. rewrite app_nil_r. unfold table_onBeginParseTable, bind, gets.
    rewrite (calm_cursor _ _ Hx1). by eexists.
  - apply Forall2_cons_inv_l in Hrs2 as (r & rs3 & [Hb (lo & Hc)] & Hnil & ->). inversion Hnil; subst.
    destruct r as [[b' rowid] l]. cbn [fst snd map] in *. exists SQLITERK_OK. unfold x1, after_rows in *.
    pose proof (Ho ltac:(by destruct rs1)) as Hop.
    destruct (map (fun r => (r.1.2, r.2)) rs1) as [|r0 rs0] eqn:Em; cbn [app].
    + by apply first_row_exact with (C := fun c => c = CAt name) (lo := lo) (name := name).
    + rewrite (table_row_exact (fun c => c = CAt name) _ _ _ rowid l lo st); [|done| |apply rows_effect_works, Hop|done].
      * unfold rows_effect. by rewrite (app_comm_cons rs0 _ r0), foldl_app.
      * apply (rows_effect_frame (fun c => c = CAt name)); [exact (table_opens_calm _ name x st xb Hx Hop)|apply Hop].
  - inversion Hrs2; subst. rewrite app_nil_r. by eexists.
  - inversion Hrs2; subst. rewrite app_nil_r. by eexists.
Qed.

(** ** The table of tables *)

(** What a row of it says: the name, the table, the entry; [None] for rows that are passed over. *)
Definition definition_of (l : list rkval) : option (list Z * sqliterk_master_entity) :=
  match val l 0, val l 1, val l 4, int64_of (val l 3) with
  | RText ty, RText name, RText sql, Done root =>
    let type := if bool_decide (cstr ty = str "table") then Some sqliterk_type_table
                else if bool_decide (cstr ty = str "index") then Some sqliterk_type_index else None in
    match type with
    | Some type =>
      if (0 <? s32 root) && negb (bool_decide (take 7 (cstr name) = str "sqlite_"))
      then Some (cstr name, Entity type (cstr sql) (s32 root)) else None
    | None => None
    end
  | _, _, _, _ => None
  end.

(** An entry that is known and better than a new one with another statement. *)
Definition keeps_old (old : option sqliterk_master_entity) (sql : list Z) : bool :=
  match old with
  | None => false
  | Some e =>
    (0 <? e_root_page e) && negb (bool_decide (e_sql e = [])) &&
    ((e_type e =? sqliterk_type_table) || (e_type e =? sqliterk_type_index)) &&
    negb (bool_decide (e_sql e = sql)) && (zlen sql <? zlen (e_sql e))
  end.

(** Whether the tables asked for include the one of the row. *)
Definition interesting (flags : Z) (m : sqliterk_master_map) (l : list rkval) : bool :=
  has_flag flags SQLITERK_OUTPUT_ALL_TABLES ||
  match val l 2 with RText tbl => bool_decide (find (cstr tbl) m <> None) | _ => false end.

Definition master_step (flags : Z) (m : sqliterk_master_map) (l : list rkval) : sqliterk_master_map :=
  match definition_of l with
  | None => m
  | Some (name, e) =>
    if interesting flags m l && negb (has_flag flags SQLITERK_OUTPUT_CHECK_TABLE_COLUMNS && keeps_old (find name m) (e_sql e))
    then assign name e m else m
  end.

(** The values the callback may rely on: a number where there is one, and a table name unless all
    tables are wanted. *)
Definition master_row_ok (flags : Z) (l : list rkval) : Prop :=
  (exists root, int64_of (val l 3) = Done root) /\
  (has_flag flags SQLITERK_OUTPUT_ALL_TABLES = true \/ exists tbl, val l 2 = RText tbl).

Lemma text_of_inv v o : text_of v = o -> match v with RText b => o = Some (b ++ [0]) | _ => o = None end.
Proof. by destruct v; intros <-. Qed.

Lemma master_row_exact C t c rowid l lo x :
  calm C x -> b_type t = sqliterk_type_master -> col_rep c rowid l lo -> master_row_ok (o_flags x) l ->
  master_onParseColumn t c x = Done (SQLITERK_OK, set_tables (master_step (o_flags x) (tables x) l) x).
Proof.
  intros Hx Ht Hc [[root Hroot] Htbl]. unfold master_onParseColumn. unfold bind at 1. rewrite (poll_calm C) by done.
  unfold sqliterk_table_type. rewrite Ht, Z.eqb_refl. cbn [negb]. cbv iota.
  assert (R : forall i, reads (sqliterkColumnGetValues c) (Z.of_nat i) (val l i)) by (intros i; by eapply column_reads).
  assert (Rt : forall i, sqliterk_column_text c (Z.of_nat i) = Done (text_of (val l i))) by (intros i; apply R).
  assert (Ri : sqliterk_column_integer c 3 = Done (s32 root)).
  { unfold sqliterk_column_integer, sqliterkValuesGetInteger. destruct (R 3%nat) as (_ & R3 & _). change (Z.of_nat 3) with 3 in R3. by rewrite R3, Hroot. }
  pose proof (Rt 0%nat) as T0. pose proof (Rt 1%nat) as T1. pose proof (Rt 2%nat) as T2. pose proof (Rt 4%nat) as T4.
  change (Z.of_nat 0) with 0 in T0. change (Z.of_nat 1) with 1 in T1. change (Z.of_nat 2) with 2 in T2.
  change (Z.of_nat 4) with 4 in T4. rewrite T0, T1, T2, T4, Ri.
  unfold bind at 1, lift_res at 1. unfold bind at 1, lift_res at 1. unfold bind at 1, lift_res at 1.
  unfold bind at 1, lift_res at 1. unfold bind at 1, lift_res at 1.
  assert (Hid : set_tables (tables x) x = x) by (by destruct x).
  unfold master_step, definition_of. rewrite Hroot.
  destruct (val l 0) as [| | |ty|] eqn:E0; try (cbn [text_of]; by rewrite Hid).
  destruct (val l 1) as [| | |name|] eqn:E1; try (cbn [text_of]; by rewrite Hid).
  destruct (val l 4) as [| | |sql|] eqn:E4; try (cbn [text_of]; by rewrite Hid).
  cbn [text_of]. destruct (s32 root <=? 0) eqn:Er.
  { rewrite (proj2 (Z.ltb_ge 0 (s32 root))) by lia. cbn [andb]. repeat case_match; by rewrite ?Hid. }
  rewrite (proj2 (Z.ltb_lt 0 (s32 root))) by lia. cbn [andb].
  unfold bind at 1, lift_res at 1. rewrite string_at_text. unfold bind at 1, lift_res at 1. rewrite string_at_text.
  unfold bind at 1, lift_res at 1. rewrite string_at_text. rewrite !strcmp_eqb.
  set (type := if bool_decide (cstr ty = str "table") then _ else _). destruct type as [type|]; [|by rewrite Hid].
  unfold strncmp. rewrite strcmp_eqb. change (take 7 (str "sqlite_")) with (str "sqlite_").
  destruct (bool_decide (take 7 (cstr name) = str "sqlite_")); cbn [negb]; [by rewrite Hid|].
  unfold bind at 1, gets at 1. unfold interesting.
  assert (Hskip : (if has_flag (o_flags x) SQLITERK_OUTPUT_ALL_TABLES then ret false
     else let! key := lift_res (string_at (text_of (val l 2))) in ret (bool_decide (find key (tables x) = None))) x =
     Done (negb (has_flag (o_flags x) SQLITERK_OUTPUT_ALL_TABLES ||
       match val l 2 with RText tbl => bool_decide (find (cstr tbl) (tables x) <> None) | _ => false end), x)).
  { destruct (has_flag (o_flags x) SQLITERK_OUTPUT_ALL_TABLES); [done|]. destruct Htbl as [?|[tbl E2]]; [done|]. rewrite E2.
    cbn [text_of orb]. unfold bind, lift_res. rewrite string_at_text. unfold ret. do 2 f_equal.
    by destruct (find (cstr tbl) (tables x)). }
  unfold octx in Hskip. unfold bind at 1. rewrite Hskip.
  destruct (has_flag (o_flags x) SQLITERK_OUTPUT_ALL_TABLES || _); cbn [negb andb]; [|by rewrite Hid].
  fold (keeps_old (find (cstr name) (tables x)) (cstr sql)). cbn [e_sql].
  destruct (has_flag (o_flags x) SQLITERK_OUTPUT_CHECK_TABLE_COLUMNS && _); cbn [negb]; [by rewrite Hid|]. done.
Qed.

(** The events of a walk of the table of tables leave its rows in the map. *)
Lemma replay_master x evs : forall rs,
  calm (fun _ => True) x -> Forall2 row_is (rows_of evs) rs ->
  Forall (fun r => b_type r.1.1 = sqliterk_type_master /\ master_row_ok (o_flags x) r.2) rs ->
  exists rc, replay None ForMaster (rev evs) x =
    Done (rc, set_tables (foldl (master_step (o_flags x)) (tables x) (map snd rs)) x).
Proof.
  intros rs Hx. revert rs. induction evs as [|e evs IH] using rev_ind; intros rs Hrs Hok.
  { inversion Hrs; subst. eexists. cbn. by destruct x. }
  rewrite rev_app_distr. cbn [rev app replay]. unfold rows_of in Hrs. rewrite omap_app in Hrs.
  apply Forall2_app_inv_l in Hrs as (rs1 & rs2 & Hrs1 & Hrs2 & ->). apply Forall_app in Hok as [Hok1 Hok2].
  destruct (IH rs1 Hrs1 Hok1) as [rc Hrc]. unfold bind. rewrite Hrc. rewrite map_app, foldl_app. set (x1 := set_tables _ x).
  destruct e as [b|b c|b|p]; cbn [on_event omap list_omap] in Hrs2 |- *.
  - inversion Hrs2; subst. by eexists.
  - apply Forall2_cons_inv_l in Hrs2 as (r & rs3 & [Hb (lo & Hc)] & Hnil & ->). inversion Hnil; subst.
    destruct r as [[b' rowid] l]. cbn [fst snd map] in *. apply Forall_cons in Hok2 as [[Hty Hrow] _]. cbn [fst snd] in *. subst b'.
    exists SQLITERK_OK. rewrite (master_row_exact (fun _ => True) b c rowid l lo x1); [done|destruct Hx; by split|done|exact Hc|exact Hrow].
  - inversion Hrs2; subst. by eexists.
  - inversion Hrs2; subst. by eexists.
Qed.
End callbacks.

(** * Output to a new database: the rows that are inserted

    The calls made on a prepared statement as an abstract machine, and what the rows of a
    table are after the output. *)

(** ** A prepared insertion *)

(** The parameters that are bound, and the rows that were inserted. *)
Record insertion := Insertion { ins_bound : list sqlite_value; ins_rows : list (list sqlite_value) }.

(** A call of SQLite on the statement [st] with [n] parameters; a bind outside them has no effect. *)
Definition ins_call (st n : nat) (s : insertion) (c : out_call) : insertion :=
  match c with
  | OClear st' => if (st' =? st)%nat then Insertion (replicate n SV_Null) (ins_rows s) else s
  | OBind st' i v =>
    if (st' =? st)%nat && (1 <=? i) && (i <=? Z.of_nat n)
    then Insertion (<[Z.to_nat (i - 1) := v]> (ins_bound s)) (ins_rows s) else s
  | OStep st' => if (st' =? st)%nat then Insertion (ins_bound s) (ins_rows s ++ [ins_bound s]) else s
  | _ => s
  end.

Definition ins_run (st n : nat) (s : insertion) (cs : list out_call) : insertion := foldl (ins_call st n) s cs.

(** The rows some calls insert, in order. *)
Definition inserted (st n : nat) (cs : list out_call) : list (list sqlite_value) :=
  ins_rows (ins_run st n (Insertion (replicate n SV_Null) []) cs).

(** ** What becomes of a row *)

(** The values of a row as parameters. *)
Fixpoint bound_values (ipk rowid i : Z) (l : list rkval) : list sqlite_value :=
  match l with [] => [] | v :: l => bound_value ipk rowid i v :: bound_values ipk rowid (i + 1) l end.

(** The defaults, each one parameter to the left of its column. *)
Fixpoint put_defaults (cis : list sqliterk_output_column_info) (i : Z) (b : list sqlite_value) : list sqlite_value :=
  match cis with
  | [] => b
  | ci :: cis =>
    put_defaults cis (i + 1)
      (match default_value ci with
       | Some v => if 1 <=? i then <[Z.to_nat (i - 1) := v]> b else b
       | None => b
       end)
  end.

Definition accepted (cis : list sqliterk_output_column_info) (l : list rkval) : bool :=
  (length l <=? length cis)%nat && forallb (fun p => value_fits p.1 p.2) (zip cis l).

Definition row_vector (cis : list sqliterk_output_column_info) (ipk rowid : Z) (l : list rkval) : list sqlite_value :=
  put_defaults (drop (length l) cis) (zlen l)
    (bound_values ipk rowid 0 l ++ replicate (length cis - length l) SV_Null).

(** The row that is inserted, if any. *)
Definition row_result (cis : list sqliterk_output_column_info) (ipk : Z) (r : Z * list rkval) : list (list sqlite_value) :=
  if accepted cis r.2 then [row_vector cis ipk r.1 r.2] else [].

Lemma ins_run_app st n s a b : ins_run st n s (a ++ b) = ins_run st n (ins_run st n s a) b.
Proof. apply foldl_app. Qed.

Lemma length_bound_values ipk rowid l : forall i, length (bound_values ipk rowid i l) = length l.
Proof. induction l as [|v l IH]; intros i; cbn; [done|by rewrite IH]. Qed.

(** Binding the values from parameter [i] on. *)
Lemma row_binds_run st n ipk rowid l : forall cis i pre rest rows,
  i = zlen pre -> (length pre + length rest = n)%nat -> (length l <= length cis)%nat -> (length l <= length rest)%nat ->
  let '(cs, ok) := row_binds cis ipk rowid st i l in
  ok = forallb (fun p => value_fits p.1 p.2) (zip cis l) /\
  let s := ins_run st n (Insertion (pre ++ rest) rows) cs in
  ins_rows s = rows /\ length (ins_bound s) = n /\
  (ok = true -> ins_bound s = pre ++ bound_values ipk rowid i l ++ drop (length l) rest).
Proof.
  induction l as [|v l IH]; intros cis i pre rest rows Hi Hn Hc Hr.
  { cbn. rewrite zip_with_nil_r. split; [done|]. split; [done|]. split; [by rewrite length_app|done]. }
  destruct cis as [|ci cis]; [cbn in Hc; lia|]. destruct rest as [|r0 rest]; [cbn in Hr; lia|]. cbn [length] in *.
  cbn [row_binds zip zip_with forallb fst snd]. destruct (value_fits ci v) eqn:Ef; cbn [andb].
  2: { cbn. split; [done|]. split; [done|]. split; [rewrite length_app; cbn; lia|done]. }
  specialize (IH cis (i + 1) (pre ++ [bound_value ipk rowid i v]) rest rows).
  destruct (row_binds cis ipk rowid st (i + 1) l) as [cs ok].
  destruct IH as (Hok & Hrows & Hlen & Hb); [rewrite zlen_app; change (zlen [_]) with 1; lia|rewrite length_app; cbn; lia|lia|lia|].
  split; [done|]. zlen_pos.
  assert (Hcall : ins_call st n (Insertion (pre ++ r0 :: rest) rows) (OBind st (i + 1) (bound_value ipk rowid i v)) =
                  Insertion ((pre ++ [bound_value ipk rowid i v]) ++ rest) rows).
  { cbn [ins_call]. rewrite Nat.eqb_refl, (proj2 (Z.leb_le 1 _)), (proj2 (Z.leb_le _ (Z.of_nat n))) by (unfold zlen in *; lia).
    cbn [andb ins_bound ins_rows]. f_equal. replace (Z.to_nat (i + 1 - 1)) with (length pre + 0)%nat by (unfold zlen in *; lia).
    rewrite insert_app_r. cbn. by rewrite <- app_assoc. }
  unfold ins_run in *. cbn [foldl]. rewrite Hcall. split; [done|]. split; [done|]. intros Ht. rewrite (Hb Ht).
  cbn [bound_values drop]. by rewrite <- app_assoc.
Qed.

(** Binding the defaults. *)
Lemma default_binds_run st n cis : forall i b rows,
  0 <= i -> i + zlen cis = Z.of_nat n -> length b = n ->
  ins_run st n (Insertion b rows) (default_binds cis st i) = Insertion (put_defaults cis i b) rows /\
  length (put_defaults cis i b) = n.
Proof.
  induction cis as [|ci cis IH]; intros i b rows Hi Hn Hb; [done|]. cbn [default_binds put_defaults].
  rewrite zlen_cons in Hn. zlen_pos. unfold ins_run. rewrite foldl_app.
  destruct (default_value ci) as [v|]; [|by apply IH; lia]. cbn [foldl ins_call].
  rewrite Nat.eqb_refl, (proj2 (Z.leb_le i (Z.of_nat n))) by lia. cbn [andb]. rewrite andb_true_r.
  destruct (1 <=? i); cbn [ins_bound ins_rows]; apply IH; try lia. by rewrite length_insert.
Qed.

Section rows.
Context `{Al : SqliterkAlloc} `{AL : !SqliterkAllocLaws Al} `{Fi : SqliterkFile} `{Co : SqliterkCodec}.
Context `{Ut : SqliterkUtil} `{Bt : SqliterkBtreeTypes}.
Context `{So : SqliteOut} `{Sc : SqliteColumn} `{Cl : SqliterkColumn} `{CL : !ColumnLaws Cl} `{Af : CAtof}.

(** How a row changes a context: the calls it makes, what they insert, the counters. *)
Lemma row_effect_inserts st x r n :
  prepared st x -> n = length (column_info x) ->
  exists cs, o_calls (row_effect st x r) = rev cs ++ o_calls x /\
    (forall s, length (ins_bound s) = n ->
       length (ins_bound (ins_run st n s cs)) = n /\
       ins_rows (ins_run st n s cs) = ins_rows s ++ row_result (column_info x) (ipk_column x) r) /\
    (if accepted (column_info x) r.2
     then success_count (row_effect st x r) = u32 (success_count x + 1) /\ o_fail_count (row_effect st x r) = o_fail_count x
     else success_count (row_effect st x r) = success_count x /\ o_fail_count (row_effect st x r) = u32 (o_fail_count x + 1)).
Proof.
  intros [_ Hcols] Hn. destruct r as [rowid l]. unfold row_effect, row_result, accepted. cbn [fst snd].
  destruct (real_columns x <? zlen l) eqn:E.
  { assert (Hgt : (length l <=? length (column_info x))%nat = false) by (apply Nat.leb_gt; unfold zlen in *; lia).
    rewrite Hgt. cbn [andb]. exists []. split; [done|]. split; [|done]. intros s Hs. by rewrite app_nil_r. }
  assert (Hle : (length l <= length (column_info x))%nat) by (unfold zlen in *; lia).
  rewrite (proj2 (Nat.leb_le _ _) Hle). cbn [andb].
  pose proof (row_binds_run st n (ipk_column x) rowid l (column_info x) 0 [] (replicate n SV_Null)) as Hrun.
  destruct (row_binds (column_info x) (ipk_column x) rowid st 0 l) as [cs ok].
  assert (Hclear : forall s, ins_call st n s (OClear st) = Insertion (replicate n SV_Null) (ins_rows s))
    by (intros s; cbn [ins_call]; by rewrite Nat.eqb_refl).
  destruct ok.
  2: { exists (OClear st :: cs). split; [done|].
       destruct (Hrun [] eq_refl) as (<- & _); [by rewrite length_replicate|done|rewrite length_replicate; lia|]. split; [|done].
       intros s Hs. unfold ins_run in *. cbn [foldl]. rewrite Hclear.
       destruct (Hrun (ins_rows s) eq_refl) as (_ & H1 & H2 & _); [by rewrite length_replicate|done|rewrite length_replicate; lia|].
       cbn [app] in H1, H2. by rewrite H1, H2, app_nil_r. }
  set (dc := default_binds (drop (length l) (column_info (logged (OClear st :: cs) x))) st (zlen l)).
  set (x1 := logged (dc ++ [OStep st; OReset st]) (logged (OClear st :: cs) x)).
  assert (Hcounted : exists tail, (forall s, ins_run st n s tail = s) /\
    o_calls (counted x1) = rev tail ++ o_calls x1 /\ success_count (counted x1) = u32 (success_count x + 1) /\
    o_fail_count (counted x1) = o_fail_count x).
  { unfold counted. destruct (_ mod 256 =? 0); [by exists [OExec (str "COMMIT; BEGIN;")]|by exists []]. }
  destruct Hcounted as (tail & Htail & Hc1 & Hc2 & Hc3).
  exists ((OClear st :: cs) ++ (dc ++ [OStep st; OReset st]) ++ tail). split.
  { rewrite Hc1. unfold x1. rewrite logged_app. unfold logged. cbn [o_calls set_calls]. rewrite !rev_app_distr, <- !app_assoc. done. }
  destruct (Hrun [] eq_refl) as (Hall & _); [by rewrite length_replicate|done|rewrite length_replicate; lia|].
  rewrite <- Hall. split; [|done]. intros s Hs. rewrite !ins_run_app, Htail.
  unfold ins_run at 3 6. cbn [foldl]. rewrite Hclear. fold (ins_run st n (Insertion (replicate n SV_Null) (ins_rows s)) cs).
  destruct (Hrun (ins_rows s) eq_refl) as (_ & H1 & H2 & H3); [by rewrite length_replicate|done|rewrite length_replicate; lia|].
  cbn [app] in H1, H2, H3. set (s1 := ins_run st n (Insertion (replicate n SV_Null) (ins_rows s)) cs) in *.
  specialize (H3 eq_refl).
  assert (Hs1 : s1 = Insertion (bound_values (ipk_column x) rowid 0 l ++ replicate (length (column_info x) - length l) SV_Null) (ins_rows s)).
  { destruct s1 as [b rws]. cbn [ins_bound ins_rows] in *. subst. by rewrite drop_replicate. }
  rewrite Hs1. unfold dc. change (column_info (logged (OClear st :: cs) x)) with (column_info x).
  destruct (default_binds_run st n (drop (length l) (column_info x)) (zlen l)
    (bound_values (ipk_column x) rowid 0 l ++ replicate (length (column_info x) - length l) SV_Null) (ins_rows s)) as [-> Hlen].
  { zlen_pos. lia. }
  { unfold zlen. rewrite length_drop. lia. }
  { rewrite length_app, length_bound_values, length_replicate. lia. }
  unfold ins_run. cbn [foldl ins_call ins_bound ins_rows]. rewrite Nat.eqb_refl. cbn [ins_bound ins_rows].
  split; [exact Hlen|done].
Qed.

(** How many of some rows are accepted. *)
Definition accepted_count (cis : list sqliterk_output_column_info) (rs : list (Z * list rkval)) : Z :=
  zlen (List.filter (fun r => accepted cis r.2) rs).

Lemma u32_u32 a b : u32 (u32 a + b) = u32 (a + b).
Proof. unfold u32. by rewrite Zplus_mod_idemp_l. Qed.

Lemma rows_effect_inserts C st n rs : forall x,
  calm C x -> prepared st x -> n = length (column_info x) ->
  exists cs, o_calls (rows_effect st x rs) = rev cs ++ o_calls x /\
    (forall s, length (ins_bound s) = n ->
       length (ins_bound (ins_run st n s cs)) = n /\
       ins_rows (ins_run st n s cs) = ins_rows s ++ (rs ≫= row_result (column_info x) (ipk_column x))) /\
    u32 (success_count (rows_effect st x rs)) = u32 (success_count x + accepted_count (column_info x) rs) /\
    u32 (o_fail_count (rows_effect st x rs)) = u32 (o_fail_count x + (zlen rs - accepted_count (column_info x) rs)).
Proof.
  induction rs as [|r rs IH]; intros x Hx Hp Hn.
  { exists []. split; [done|]. split; [intros s Hs; by rewrite app_nil_r|]. cbn. by rewrite !Z.add_0_r. }
  destruct (row_effect_frame C st x r Hx Hp) as (Hx1 & Hp1 & Eci & Eipk & _).
  destruct (row_effect_inserts st x r n Hp Hn) as (cs1 & Hc1 & Hi1 & Hk1).
  destruct (IH (row_effect st x r) Hx1 Hp1 ltac:(by rewrite Eci)) as (cs2 & Hc2 & Hi2 & Hs2 & Hf2).
  rewrite Eci, ?Eipk in *. unfold rows_effect in *. cbn [foldl]. exists (cs1 ++ cs2).
  split; [rewrite Hc2, Hc1, rev_app_distr; by rewrite <- app_assoc|]. split.
  - intros s Hs. rewrite ins_run_app. destruct (Hi1 s Hs) as [Hl1 Hr1]. destruct (Hi2 _ Hl1) as [Hl2 Hr2].
    split; [done|]. rewrite Hr2, Hr1, bind_cons. by rewrite <- app_assoc.
  - rewrite Hs2, Hf2. unfold accepted_count in *. cbn [List.filter]. rewrite (zlen_cons r rs).
    destruct (accepted (column_info x) r.2); destruct Hk1 as [-> ->]; rewrite u32_u32, ?zlen_cons; split; f_equal; lia.
Qed.

(** A row with a value for every column keeps all of them; a null in the column of the rowid is
    replaced by it. *)

(** ** What should become of a row *)

(** A null in the column of the rowid always fits. *)
Definition fits_column (ipk i : Z) (ci : sqliterk_output_column_info) (v : rkval) : bool :=
  match v with RNull => (ipk =? i + 1) || negb (not_null ci) | _ => value_fits ci v end.
Fixpoint fits_columns (ipk i : Z) (cis : list sqliterk_output_column_info) (l : list rkval) : bool :=
  match l, cis with
  | [], _ => true
  | v :: l, ci :: cis => fits_column ipk i ci v && fits_columns ipk (i + 1) cis l
  | _ :: _, [] => false
  end.

(** The row of its values, and of the defaults of the columns it does not have; it is not inserted if a value does not fit. *)
Definition row_inserted (cis : list sqliterk_output_column_info) (ipk : Z) (r : Z * list rkval) : list (list sqlite_value) :=
  if fits_columns ipk 0 cis r.2 then [bound_values ipk r.1 0 r.2 ++ map (fun ci => default SV_Null (default_value ci)) (drop (length r.2) cis)] else [].
Definition fitting_count (cis : list sqliterk_output_column_info) (ipk : Z) (rs : list (Z * list rkval)) : Z :=
  zlen (List.filter (fun r => fits_columns ipk 0 cis r.2) rs).

(** A table whose rows the code treats so: the column of the rowid is not declared NOT NULL, and a row that is shorter than the table lacks
    only columns without a default. *)
Definition recoverable (cis : list sqliterk_output_column_info) (ipk : Z) (rs : list (Z * list rkval)) : Prop :=
  (forall i ci, cis !! i = Some ci -> ipk = Z.of_nat i + 1 -> not_null ci = false) /\
  Forall (fun r => Forall (fun ci => default_value ci = None) (drop (length r.2) cis)) rs.

Lemma fits_accepted ipk l : forall cis i, (forall j ci, cis !! j = Some ci -> ipk = i + Z.of_nat j + 1 -> not_null ci = false) ->
  fits_columns ipk i cis l = accepted cis l.
Proof.
  induction l as [|v l IH]; intros cis i Hn; [by destruct cis|]. destruct cis as [|ci cis]; [done|]. cbn [fits_columns].
  rewrite IH by (intros j c Hj E; apply (Hn (S j) c Hj); lia). unfold accepted. cbn [length zip zip_with forallb fst snd Nat.leb].
  assert (Hv : fits_column ipk i ci v = value_fits ci v).
  { unfold fits_column. destruct v; try done. destruct (Z.eqb_spec ipk (i + 1)) as [E|]; [|done]. cbn. by rewrite (Hn 0%nat ci eq_refl) by lia. }
  rewrite Hv. by rewrite !andb_assoc, (andb_comm (value_fits ci v)).
Qed.

Lemma no_defaults cis : Forall (fun ci => default_value ci = None) cis -> forall i b, put_defaults cis i b = b.
Proof. induction 1 as [|ci cis Hc _ IH]; intros i b; [done|]. cbn [put_defaults]. by rewrite Hc, IH. Qed.

Lemma recoverable_row cis ipk rs r : recoverable cis ipk rs -> r ∈ rs -> row_result cis ipk r = row_inserted cis ipk r /\ fits_columns ipk 0 cis r.2 = accepted cis r.2.
Proof.
  intros [Hn Hd] Hr. assert (Hf : fits_columns ipk 0 cis r.2 = accepted cis r.2) by (apply fits_accepted; intros j ci Hj E; apply (Hn j ci Hj); lia).
  split; [|done]. rewrite Forall_forall in Hd. specialize (Hd r Hr). unfold row_result, row_inserted, row_vector. rewrite Hf, no_defaults by done. destruct (accepted cis r.2); [|done].
  do 2 f_equal. rewrite <- length_drop. induction Hd as [|ci l Hc _ IH]; [done|]. cbn. by rewrite Hc, IH.
Qed.

Lemma recoverable_rows cis ipk rs : recoverable cis ipk rs ->
  rs ≫= row_result cis ipk = rs ≫= row_inserted cis ipk /\ accepted_count cis rs = fitting_count cis ipk rs.
Proof.
  intros H. assert (Hrow : forall r, r ∈ rs -> _) by (intros r; exact (recoverable_row cis ipk rs r H)). clear H. unfold accepted_count, fitting_count.
  induction rs as [|r rs IH]; [done|]. destruct (Hrow r ltac:(constructor)) as [E1 E2]. destruct IH as [IH1 IH2]; [intros r' Hr'; apply Hrow; by constructor|].
  rewrite !bind_cons, E1, IH1. split; [done|]. cbn [List.filter]. rewrite E2. destruct (accepted cis r.2); [|done]. rewrite !zlen_cons. lia.
Qed.

Lemma row_vector_full cis ipk rowid l :
  length l = length cis -> row_vector cis ipk rowid l = bound_values ipk rowid 0 l.
Proof.
  intros Hl. unfold row_vector. rewrite drop_ge by lia. cbn [put_defaults]. rewrite Hl, Nat.sub_diag. cbn [replicate]. apply app_nil_r.
Qed.
End rows.
