(* ===== verification/OutputSchema.v ===== *)
(** * Output to a new database: preparing a table

    What [init_insert] finds out about a table from a database that answers as SQLite does:
    [PRAGMA table_info] gives a row for each column, [SELECT] evaluates a default. *)

From S2P Require Import Prelude CLib Values Btree Backup SqliteColumn StdMap MasterFile LeafFile Output OutputFacts.

(** ** Texts of statements *)

Definition info_sql (name : list Z) : list Z := str "PRAGMA table_info(" ++ name ++ str ");".
Definition value_sql (e : list Z) : list Z := str "SELECT " ++ e ++ str ";".

(** [n] parameters with commas between them. *)
Fixpoint parameters (n : nat) : list Z :=
  match n with
  | O => []
  | S O => str "?"
  | S n => str "?," ++ parameters n
  end.

Definition replace_sql (name : list Z) (n : nat) : list Z :=
  str "REPLACE INTO " ++ name ++ str " VALUES(" ++ parameters n ++ str ");".

Lemma parameters_comma n : (0 < n)%nat -> parameters n ++ str "," = concat (replicate n (str "?,")).
Proof.
  induction n as [|[|n] IH]; intros Hn; [lia|done|].
  change (parameters (S (S n))) with (str "?," ++ parameters (S n)).
  rewrite <- app_assoc, IH by lia. done.
Qed.

(** The text the loop leaves, without its last character. *)
Lemma replace_sql_text name n : (0 < n)%nat ->
  removelast ((str "REPLACE INTO " ++ name ++ str " VALUES(") ++ concat (replicate n (str "?,"))) ++ str ");" =
  replace_sql name n.
Proof.
  intros Hn. rewrite <- parameters_comma by done. change (str ",") with [44].
  rewrite (app_assoc _ (parameters n)), removelast_last. unfold replace_sql. by rewrite <- !app_assoc.
Qed.

(** ** Calls between two others *)

Definition is_step (st : nat) (c : out_call) : bool := match c with OStep st' => (st' =? st)%nat | _ => false end.
Definition stepped (st : nat) (cs : list out_call) : nat := length (List.filter (is_step st) cs).

Definition no_exec (c : out_call) : Prop := match c with OExec _ => False | _ => True end.

(** Calls that leave the statement [st] where it stands, stepping aside. *)
Definition reading (st : nat) (c : out_call) : Prop :=
  match c with OExec _ => False | OFinalize st' | OReset st' => st' <> st | _ => True end.

Lemma reading_no_exec st cs : Forall (reading st) cs -> Forall no_exec cs.
Proof. intros H. eapply Forall_impl; [exact H|]. by intros []. Qed.

Lemma stepped_app st a b : stepped st (a ++ b) = (stepped st a + stepped st b)%nat.
Proof. unfold stepped. by rewrite List.filter_app, length_app. Qed.

Lemma next_stmt_app a b : next_stmt (a ++ b) = (next_stmt a + next_stmt b)%nat.
Proof. unfold next_stmt. by rewrite List.filter_app, length_app. Qed.

Lemma next_stmt_rev a : next_stmt (rev a) = next_stmt a.
Proof. induction a as [|c a IH]; [done|]. cbn [rev]. rewrite next_stmt_app, IH. unfold next_stmt. cbn. destruct (is_prepare c); cbn; lia. Qed.

Section schema.
Context `{So : SqliteOut} `{Sc : SqliteColumn}.
Context (evaluate : list Z -> option sqlite_value).

(** ** What a row of [table_info] says *)

Definition default_text (row : list sqlite_value) : option (list Z) :=
  match column_string (SqliteColumn.column row 4) with Some [] => None | e => e end.
Definition type_text (row : list sqlite_value) : option (list Z) := column_string (SqliteColumn.column row 2).
Definition pk_index (row : list sqlite_value) : Z := sqlite3_column_int (SqliteColumn.column row 5).

Definition column_of (row : list sqlite_value) : sqliterk_output_column_info :=
  ColumnInfo (parse_affinity (type_text row)) (negb (sqlite3_column_int (SqliteColumn.column row 3) =? 0))
    (default_text row ≫= evaluate).

(** A column that may be the rowid: the first of the primary key, of type INTEGER. *)
Definition is_rowid (row : list sqlite_value) : bool :=
  (pk_index row =? 1) && match type_text row with Some t => strcasecmp_eq t (str "INTEGER") | None => false end.

(** A column that is in the key but not its first one. *)
Definition in_composite (row : list sqlite_value) : bool := negb (pk_index row =? 0) && negb (pk_index row =? 1).

(** The rowid of a table: its number from one, or zero. *)
Fixpoint rowids (n : Z) (rows : list (list sqlite_value)) : list Z :=
  match rows with
  | [] => []
  | row :: rows => (if is_rowid row then [n + 1] else []) ++ rowids (n + 1) rows
  end.
Definition rowid_column (rows : list (list sqlite_value)) : Z :=
  if existsb in_composite rows then 0 else default 0 (last (rowids 0 rows)).

(** Rows that can be read: the first column of a key has a type; defaults always have the same value. *)
Definition evaluates (e : list Z) : Prop :=
  forall h, let c := OPrepare (value_sql e) in
  match evaluate e with
  | Some v => out_rc (c :: h) = SQLITE_OK /\ out_prepared (c :: h) = true /\
              out_rc (OStep (next_stmt h) :: c :: h) = SQLITE_ROW /\
              SqliteColumn.column (out_row (OStep (next_stmt h) :: c :: h)) 0 = v
  | None => out_rc (c :: h) <> SQLITE_OK
  end.

Definition readable (row : list sqlite_value) : Prop :=
  (pk_index row = 1 -> type_text row <> None) /\
  match default_text row with Some e => evaluates e | None => True end.

(** ** A database that describes a table *)

Record describes (name : list Z) (rows : list (list sqlite_value)) (h : list out_call) : Prop := Describes {
  d_prepare : out_rc (OPrepare (info_sql name) :: h) = SQLITE_OK;
  d_row : forall cs row, Forall (reading (next_stmt h)) cs -> rows !! stepped (next_stmt h) cs = Some row ->
    out_rc (OStep (next_stmt h) :: cs ++ OPrepare (info_sql name) :: h) = SQLITE_ROW /\
    out_row (OStep (next_stmt h) :: cs ++ OPrepare (info_sql name) :: h) = row;
  d_end : forall cs, Forall (reading (next_stmt h)) cs -> stepped (next_stmt h) cs = length rows ->
    out_rc (OStep (next_stmt h) :: cs ++ OPrepare (info_sql name) :: h) <> SQLITE_ROW;
  d_final : forall cs, Forall (reading (next_stmt h)) cs ->
    out_rc (OFinalize (next_stmt h) :: cs ++ OPrepare (info_sql name) :: h) = SQLITE_OK;
  d_insert : forall cs, Forall no_exec cs -> out_rc (OPrepare (replace_sql name (length rows)) :: cs ++ h) = SQLITE_OK;
  d_works : forall cs, Forall no_exec cs ->
    insert_works (next_stmt (cs ++ h)) (OPrepare (replace_sql name (length rows)) :: cs ++ h);
  d_columns : rows <> [];
  d_steps : (length rows < out_steps)%nat;
  d_readable : Forall readable rows
}.

(** ** The calls *)

Definition eval_calls (row : list sqlite_value) (id : nat) : list out_call :=
  match default_text row with
  | None => []
  | Some e => OPrepare (value_sql e) :: match evaluate e with Some _ => [OStep id; OFinalize id] | None => [] end
  end.

Fixpoint loop_calls (info id : nat) (rows : list (list sqlite_value)) : list out_call :=
  match rows with
  | [] => [OStep info]
  | row :: rows =>
    let cs := eval_calls row id in OStep info :: cs ++ loop_calls info (next_stmt cs + id) rows
  end.

(** All calls of a preparation that starts with [id] statements. *)
Definition opening (name : list Z) (rows : list (list sqlite_value)) (id : nat) : list out_call :=
  OPrepare (info_sql name) :: loop_calls id (S id) rows ++ [OFinalize id; OPrepare (replace_sql name (length rows))].

(** The statement that inserts. *)
Definition insert_id (rows : list (list sqlite_value)) (id : nat) : nat := S (next_stmt (loop_calls id (S id) rows) + id).

(** ** The proof *)

Lemma eval_value_exact row x :
  match default_text row with Some e => evaluates e | None => True end ->
  eval_value (column_string (SqliteColumn.column row 4)) x =
    Done (default_text row ≫= evaluate, logged (eval_calls row (next_stmt (o_calls x))) x).
Proof.
  intros He. unfold eval_value, eval_calls, default_text in *.
  destruct (column_string (SqliteColumn.column row 4)) as [[|e0 e]|]; [by rewrite logged_nil| |by rewrite logged_nil].
  specialize (He (o_calls x)). cbv zeta in He. set (e1 := e0 :: e) in *. cbn [mbind option_bind].
  unfold bind at 1, out_prepare. unfold bind at 1, gets at 1. unfold bind at 1. rewrite out_logged. cbn [ret].
  unfold bind at 1, gets at 1. fold (value_sql e1).
  change (o_calls (logged [OPrepare (value_sql e1)] x)) with (OPrepare (value_sql e1) :: o_calls x).
  destruct (evaluate e1) as [v|].
  - destruct He as (-> & -> & Hrow & Hv). change (negb (SQLITE_OK =? SQLITE_OK) || negb true) with false. cbv iota.
    unfold bind at 1. rewrite out_logged. unfold bind at 1, gets at 1.
    change (o_calls (logged [OStep (next_stmt (o_calls x))] (logged [OPrepare (value_sql e1)] x))) with
      (OStep (next_stmt (o_calls x)) :: OPrepare (value_sql e1) :: o_calls x).
    change (o_calls (logged [OPrepare (value_sql e1)] x)) with (OPrepare (value_sql e1) :: o_calls x).
    rewrite Hrow, Hv. change (SQLITE_ROW =? SQLITE_ROW) with true. cbv iota. unfold bind. rewrite out_logged. cbn [ret].
    by rewrite !logged_app.
  - rewrite (proj2 (Z.eqb_neq _ _)) by done. done.
Qed.

(** Evaluating a default does not touch the statement that is read. *)
Lemma eval_calls_reading row st id : (st < id)%nat -> Forall (reading st) (eval_calls row id) /\ stepped st (eval_calls row id) = 0%nat.
Proof.
  intros Hid. unfold eval_calls. destruct (default_text row) as [e|]; [|by split; [constructor|]].
  destruct (evaluate e) as [v|]; [|by split; [repeat constructor|]].
  split; [repeat (constructor; [cbn; lia|]); constructor|]. unfold stepped. cbn.
  by rewrite (proj2 (Nat.eqb_neq _ _)) by lia.
Qed.

(** How the number of the rowid develops. *)
Definition ipk_step (n ipk : Z) (row : list sqlite_value) : Z :=
  if 0 <=? ipk then
    if pk_index row =? 1 then if is_rowid row then n else ipk
    else if negb (pk_index row =? 0) then -1 else ipk
  else ipk.

Fixpoint ipk_loop (rows : list (list sqlite_value)) (n ipk : Z) : Z :=
  match rows with [] => ipk | row :: rows => ipk_loop rows (n + 1) (ipk_step (n + 1) ipk row) end.

Lemma table_info_loop_exact name rows h : describes name rows h -> forall todo before fuel cs sql ipk x,
  o_calls x = cs ++ OPrepare (info_sql name) :: h -> Forall (reading (next_stmt h)) cs ->
  stepped (next_stmt h) cs = length before -> rows = before ++ todo -> (length todo < fuel)%nat ->
  table_info_loop fuel (next_stmt h) sql ipk x =
    Done ((sql ++ concat (replicate (length todo) (str "?,")), ipk_loop todo (real_columns x) ipk),
          set_insert (o_stmt x) (real_columns x + zlen todo) (column_info x ++ map column_of todo) (ipk_column x)
            (logged (loop_calls (next_stmt h) (next_stmt (o_calls x)) todo) x)).
Proof.
  intros Hd. set (id := next_stmt h). induction todo as [|row todo IH]; intros before fuel cs sql ipk x Hx Hcs Hst Hrows Hfuel.
  { destruct fuel as [|fuel]; [cbn in Hfuel; lia|]. cbn [table_info_loop]. unfold bind at 1. rewrite out_logged.
    rewrite (proj2 (Z.eqb_neq _ _)).
    - cbn [negb ret]. cbn. rewrite !app_nil_r, Z.add_0_r. by destruct x.
    - rewrite Hx. apply (d_end _ _ _ Hd cs Hcs). fold id. rewrite Hst, Hrows, app_nil_r. done. }
  destruct fuel as [|fuel]; [cbn in Hfuel; lia|]. cbn [table_info_loop]. unfold bind at 1. rewrite out_logged.
  destruct (d_row _ _ _ Hd cs row Hcs) as [Hrc Hrow].
  { fold id. by rewrite Hst, Hrows, lookup_app_r, Nat.sub_diag by lia. }
  fold id in Hrc, Hrow. rewrite <- Hx in Hrc, Hrow. rewrite Hrc. change (negb (SQLITE_ROW =? SQLITE_ROW)) with false. cbv iota.
  assert (Hread : readable row).
  { pose proof (d_readable _ _ _ Hd) as Hr. rewrite Hrows in Hr. apply Forall_app in Hr as [_ Hr]. by apply Forall_cons in Hr as [? _]. }
  destruct Hread as [Htype Hdef].
  unfold bind at 1, gets at 1. unfold bind at 1, gets at 1. cbn [o_calls logged set_calls rev app]. rewrite Hrow.
  unfold bind at 1, modify at 1. unfold bind at 1. rewrite eval_value_exact by done.
  unfold bind at 1, modify at 1. fold (type_text row). fold (column_of row). fold (pk_index row).
  set (ev := eval_calls row (next_stmt (o_calls x))).
  match goal with |- (let! _ := _ in _) ?s = _ =>
    change s with (set_insert (o_stmt x) (real_columns x + 1) (column_info x ++ [column_of row]) (ipk_column x)
      (logged ev (logged [OStep id] x))) end.
  rewrite logged_app. cbn [app]. set (y := set_insert _ _ _ _ _).
  match goal with |- bind ?c _ _ = _ => assert (Hipk : c y = Done (ipk_step (real_columns x + 1) ipk row, y)) end.
  { unfold ipk_step, is_rowid. cbn [real_columns logged set_calls]. destruct (0 <=? ipk); [|done].
    destruct (pk_index row =? 1) eqn:Epk; [|by destruct (negb (pk_index row =? 0))].
    destruct (type_text row); [done|]. by destruct (Htype (proj1 (Z.eqb_eq _ _) Epk)). }
  unfold bind at 1. rewrite Hipk.
  assert (Hid : (id < next_stmt (o_calls x))%nat) by (rewrite Hx, next_stmt_app; unfold next_stmt at 2; cbn; fold (next_stmt h); unfold id; lia).
  destruct (eval_calls_reading row id (next_stmt (o_calls x)) Hid) as [Hev1 Hev2].
  rewrite (IH (before ++ [row]) fuel (rev (OStep id :: ev) ++ cs)).
  - unfold y. cbn [o_stmt real_columns column_info ipk_column set_insert o_calls logged set_calls length replicate concat ipk_loop].
    assert (Hn : next_stmt (rev (OStep id :: ev) ++ o_calls x) = (next_stmt ev + next_stmt (o_calls x))%nat)
      by (rewrite next_stmt_app, next_stmt_rev; done).
    rewrite Hn, zlen_cons. cbn [loop_calls map]. fold ev. rewrite <- !app_assoc. cbn [app].
    replace (real_columns x + 1 + zlen todo) with (real_columns x + (zlen todo + 1)) by lia.
    rewrite (app_comm_cons ev), <- (logged_app (OStep id :: ev)). done.
  - cbn [y o_calls set_insert logged set_calls]. by rewrite Hx, app_assoc.
  - apply Forall_app. split; [|done]. apply Forall_rev. by constructor.
  - rewrite stepped_app, length_app, Hst. cbn [rev]. rewrite stepped_app.
    assert (Hrev : stepped id (rev ev) = 0%nat).
    { unfold stepped in *. rewrite filter_rev, length_rev. exact Hev2. }
    rewrite Hrev. unfold stepped. cbn. rewrite Nat.eqb_refl. cbn. lia.
  - by rewrite Hrows, <- app_assoc.
  - cbn in Hfuel. lia.
Qed.

Lemma ipk_loop_lost rows : forall n ipk, ipk < 0 -> ipk_loop rows n ipk = ipk.
Proof.
  induction rows as [|row rows IH]; intros n ipk Hi; [done|]. cbn [ipk_loop]. unfold ipk_step.
  rewrite (proj2 (Z.leb_gt _ _)) by lia. by apply IH.
Qed.

Lemma ipk_loop_spec rows : forall n ipk, 0 <= n -> 0 <= ipk ->
  ipk_loop rows n ipk = if existsb in_composite rows then -1 else default ipk (last (rowids n rows)).
Proof.
  induction rows as [|row rows IH]; intros n ipk Hn Hi; [done|]. cbn [ipk_loop existsb rowids].
  unfold ipk_step. rewrite (proj2 (Z.leb_le _ _)) by lia. unfold in_composite at 1.
  destruct (pk_index row =? 1) eqn:E1.
  - cbn [negb]. rewrite andb_false_r. cbn [orb]. destruct (is_rowid row); rewrite IH by lia; [|done].
    destruct (existsb in_composite rows); [done|]. rewrite last_app. by destruct (last (rowids (n + 1) rows)).
  - assert (Hr : is_rowid row = false) by (unfold is_rowid; by rewrite E1). rewrite Hr. cbn [app negb].
    rewrite andb_true_r. destruct (pk_index row =? 0); cbn [negb orb]; [by apply IH; lia|]. by apply ipk_loop_lost.
Qed.

Lemma rowids_positive rows : forall n, 0 <= n -> Forall (fun i => 0 < i) (rowids n rows).
Proof.
  induction rows as [|row rows IH]; intros n Hn; cbn [rowids]; [constructor|].
  apply Forall_app. split; [|by apply IH; lia]. destruct (is_rowid row); [|constructor]. constructor; [lia|constructor].
Qed.

Lemma rowid_column_loop rows : (if 0 <? ipk_loop rows 0 0 then ipk_loop rows 0 0 else 0) = rowid_column rows.
Proof.
  rewrite ipk_loop_spec by lia. unfold rowid_column. destruct (existsb in_composite rows); [done|].
  destruct (last (rowids 0 rows)) as [i|] eqn:E; [|done]. cbn [default].
  apply last_Some in E as [l El]. pose proof (rowids_positive rows 0 ltac:(lia)) as Hp. rewrite El in Hp.
  apply Forall_app in Hp as [_ Hp]. apply Forall_cons in Hp as [Hp _]. by rewrite (proj2 (Z.ltb_lt _ _)).
Qed.

Lemma loop_calls_reading info rows : forall id, (info < id)%nat -> Forall (reading info) (loop_calls info id rows).
Proof.
  induction rows as [|row rows IH]; intros id Hid; cbn [loop_calls]; [by repeat constructor|].
  constructor; [done|]. apply Forall_app. split; [by apply eval_calls_reading|]. apply IH. lia.
Qed.

(** Preparing a table, exactly. *)
Lemma init_insert_exact name rows x :
  describes name rows (o_calls x) -> column_info x = [] -> o_stmt x = None ->
  let st := insert_id rows (next_stmt (o_calls x)) in
  exists x1,
    init_insert name x = Done (zlen rows, x1) /\
    x1 = set_insert (Some st) (zlen rows) (map column_of rows) (rowid_column rows)
           (logged (opening name rows (next_stmt (o_calls x))) x) /\
    insert_works st (o_calls x1).
Proof.
  intros Hd Hci Hst st. set (id := next_stmt (o_calls x)) in *. set (lc := loop_calls id (S id) rows).
  assert (Hlc : Forall (reading id) (rev lc)) by (apply Forall_rev, loop_calls_reading; lia).
  set (past := OFinalize id :: rev lc ++ [OPrepare (info_sql name)]).
  assert (Hquiet : Forall no_exec past).
  { constructor; [done|]. apply Forall_app. split; [by eapply reading_no_exec|by repeat constructor]. }
  assert (Hid : next_stmt (past ++ o_calls x) = st).
  { unfold past, st, insert_id. rewrite next_stmt_app. cbn [app]. unfold next_stmt at 1. cbn [List.filter is_prepare].
    fold (next_stmt (rev lc ++ [OPrepare (info_sql name)])). rewrite next_stmt_app, next_stmt_rev. fold lc. fold id. cbn. lia. }
  assert (Hlog : o_calls (logged (opening name rows id) x) = OPrepare (replace_sql name (length rows)) :: past ++ o_calls x).
  { unfold opening, past. fold lc. cbn [o_calls logged set_calls rev]. rewrite rev_app_distr. cbn [rev app].
    by rewrite <- !app_assoc. }
  eexists. split; [|split; [reflexivity|]].
  - unfold init_insert. fold (info_sql name). unfold bind at 1, out_prepare at 1. unfold bind at 1, gets at 1. unfold bind at 1.
    rewrite out_logged. cbn [ret]. rewrite (d_prepare _ _ _ Hd). change (negb (SQLITE_OK =? SQLITE_OK)) with false. cbv iota.
    unfold bind at 1, gets at 1. unfold bind at 1, modify at 1. set (x0 := set_insert _ 0 _ _ _).
    assert (H0 : o_calls x0 = [] ++ OPrepare (info_sql name) :: o_calls x) by done.
    unfold bind at 1. rewrite (table_info_loop_exact name rows (o_calls x) Hd rows [] out_steps [] _ 0 x0 H0);
      [|constructor|done|done|exact (d_steps _ _ _ Hd)].
    fold id. change (next_stmt (o_calls x0)) with (S id). fold lc.
    change (column_info x0) with (column_info x). change (real_columns x0) with 0. change (ipk_column x0) with (ipk_column x).
    assert (Hpos : (0 < length rows)%nat) by (destruct rows; [by destruct (d_columns _ _ _ Hd)|cbn; lia]).
    rewrite Hci, rowid_column_loop, replace_sql_text by done.
    set (x2 := set_insert (o_stmt x0) _ _ _ _). unfold bind at 1. rewrite out_logged.
    change (o_calls x2) with (rev lc ++ OPrepare (info_sql name) :: o_calls x). unfold id at 1. rewrite (d_final _ _ _ Hd _ Hlc).
    unfold bind at 1, gets at 1. change (real_columns (logged [OFinalize id] x2)) with (zlen rows).
    rewrite (proj2 (Z.eqb_neq (zlen rows) 0)) by (unfold zlen; lia).
    change (negb (SQLITE_OK =? SQLITE_OK) || false) with false. cbv iota.
    unfold bind at 1, out_prepare at 1. unfold bind at 1, gets at 1. unfold bind at 1. rewrite out_logged. cbn [ret].
    assert (Hpast : o_calls (logged [OFinalize id] x2) = past ++ o_calls x) by (cbn; by rewrite <- app_assoc).
    rewrite Hpast, (d_insert _ _ _ Hd past Hquiet). change (negb (SQLITE_OK =? SQLITE_OK)) with false. cbv iota.
    rewrite Hid. unfold bind at 1, modify at 1, gets at 1. f_equal. f_equal.
    assert (Hl : logged [OPrepare (replace_sql name (length rows))] (logged [OFinalize id] (logged lc (logged [OPrepare (info_sql name)] x))) =
                 logged (opening name rows id) x) by (rewrite !logged_app; unfold opening; fold lc; f_equal; cbn [app]; by rewrite <- ?app_assoc).
    rewrite <- Hl. done.
  - change (o_calls (set_insert (Some st) (zlen rows) (map column_of rows) (rowid_column rows) (logged (opening name rows id) x)))
      with (o_calls (logged (opening name rows id) x)).
    rewrite Hlog, <- Hid. by apply (d_works _ _ _ Hd).
Qed.

(** The context behind [BEGIN]. *)
Definition opened (name : list Z) (rows : list (list sqlite_value)) (x : octx) : octx :=
  set_insert (Some (insert_id rows (next_stmt (o_calls x)))) (zlen rows) (map column_of rows) (rowid_column rows)
    (logged (opening name rows (next_stmt (o_calls x)) ++ [OExec (str "BEGIN;")]) x).

Lemma describes_opens name rows x :
  describes name rows (o_calls x) -> column_info x = [] -> o_stmt x = None -> table_cursor x = CAt name ->
  table_opens name x (insert_id rows (next_stmt (o_calls x))) (opened name rows x).
Proof.
  intros Hd Hci Hst Hcur. destruct (init_insert_exact name rows x Hd Hci Hst) as (x1 & Hi & Hx1 & Hw).
  assert (Ho : opened name rows x = logged [OExec (str "BEGIN;")] x1)
    by (rewrite Hx1; unfold opened; rewrite <- logged_app; done).
  split; [done|done| | |].
  - exists (zlen rows), x1. split; [exact Hi|]. split; [|exact Ho]. destruct rows; [by destruct (d_columns _ _ _ Hd)|].
    rewrite zlen_cons. zlen_pos. lia.
  - split; [done|]. cbn [opened real_columns column_info set_insert]. unfold zlen. by rewrite length_map.
  - rewrite Ho. apply insert_works_logged; [|exact Hw]. constructor; [by left|constructor].
Qed.

Lemma rowids_app a b : forall n, rowids n (a ++ b) = rowids n a ++ rowids (n + zlen a) b.
Proof.
  induction a as [|row a IH]; intros n; cbn [app rowids]; [by rewrite Z.add_0_r|].
  rewrite IH, zlen_cons, <- app_assoc. do 2 f_equal. f_equal. lia.
Qed.

(** Columns outside the primary key. *)
Lemma rowids_plain rows : Forall (fun row => pk_index row = 0) rows ->
  existsb in_composite rows = false /\ forall n, rowids n rows = [].
Proof.
  induction 1 as [|row rows Hrow _ [IH1 IH2]]; [done|]. cbn [existsb rowids]. unfold in_composite, is_rowid.
  rewrite Hrow. cbn. split; [done|]. intros n. by rewrite IH2.
Qed.

Lemma rowid_column_single l1 row l2 :
  is_rowid row = true -> Forall (fun row => pk_index row = 0) (l1 ++ l2) -> rowid_column (l1 ++ row :: l2) = zlen l1 + 1.
Proof.
  intros Hrow Hrest. apply Forall_app in Hrest as [[H1 H1']%rowids_plain [H2 H2']%rowids_plain].
  unfold rowid_column. rewrite existsb_app, H1. cbn [existsb orb]. rewrite H2, orb_false_r.
  assert (Hc : in_composite row = false).
  { unfold is_rowid, in_composite in *. destruct (pk_index row =? 1); [by rewrite andb_false_r|done]. }
  rewrite Hc, rowids_app, H1'. cbn [rowids app]. by rewrite Hrow, H2'.
Qed.

(** preparing a table.  On a database that describes the table and takes rows for it, [init_insert]
    returns the number of its columns and leaves a statement with a parameter for each of
    them, the last one it prepares.  What it keeps of a column are the affinity of its type,
    whether it may be null and the value of its default.  The rowid is the column that is
    alone in the primary key and has the type INTEGER; with a key of several columns there is
    none.  Apart from the calls it makes nothing else changes. *)
Theorem init_insert_columns name rows x :
  describes name rows (o_calls x) -> column_info x = [] -> o_stmt x = None ->
  exists st cs x1,
    init_insert name x = Done (zlen rows, x1) /\
    x1 = set_insert (Some st) (zlen rows) (map column_of rows) (ipk_column x1) (set_calls (o_calls x1) x) /\
    o_calls x1 = OPrepare (replace_sql name (length rows)) :: cs ++ o_calls x /\ st = next_stmt (cs ++ o_calls x) /\
    (forall l1 row l2, rows = l1 ++ row :: l2 -> is_rowid row = true ->
       Forall (fun row => pk_index row = 0) (l1 ++ l2) -> ipk_column x1 = zlen l1 + 1) /\
    (existsb in_composite rows = true -> ipk_column x1 = 0).
Proof.
  intros Hd Hci Hst. destruct (init_insert_exact name rows x Hd Hci Hst) as (x1 & Hi & Hx1 & _).
  set (id := next_stmt (o_calls x)) in *. set (lc := loop_calls id (S id) rows).
  exists (insert_id rows id), (OFinalize id :: rev lc ++ [OPrepare (info_sql name)]), x1. rewrite Hi, Hx1.
  split; [done|]. split; [done|]. split.
  { unfold opening. fold lc. cbn [o_calls logged set_insert set_calls rev]. rewrite rev_app_distr. cbn [rev app].
    by rewrite <- !app_assoc. }
  split.
  { cbn [app]. unfold next_stmt. cbn [List.filter is_prepare]. fold (next_stmt ((rev lc ++ [OPrepare (info_sql name)]) ++ o_calls x)).
    rewrite !next_stmt_app, next_stmt_rev. fold id. unfold insert_id. fold lc. cbn. lia. }
  cbn [ipk_column set_insert]. split; [|by intros H; unfold rowid_column; rewrite H].
  intros l1 row l2 -> Hrow Hrest. by apply rowid_column_single.
Qed.
End schema.
