(* ===== verification/OutputSafe.v ===== *)
(** * Output to a new database: the context is sound

    Whatever SQLite answers and whatever rows arrive, the callbacks keep the columns they know
    in step with the statement they prepared, and never read beyond them. *)

From S2P Require Import Prelude CLib Values ValuesFacts Pager PagerFacts Btree BtreeFacts.
From S2P Require Import Backup SqliteColumn StdMap MasterFile LeafFile Output OutputFacts.

(** What the context is while a table is written. *)
Record sound (x : octx) : Prop := Sound {
  so_cursor : table_cursor x <> CUnset;
  so_insert : match o_stmt x with
              | Some _ => 0 < real_columns x /\ real_columns x = zlen (column_info x) /\ 0 <= ipk_column x <= real_columns x
              | None => column_info x = []
              end
}.

(** The faults that depend on SQLite: a statement that gives rows for ever, a column of a primary
    key without a type. *)
Definition of_sqlite (f : fault) : Prop := f = OutOfFuel \/ f = NullDeref.

(** The part of the context the invariant is about. *)
Definition shape (x : octx) := (o_stmt x, real_columns x, column_info x, ipk_column x, table_cursor x).

Lemma sound_shape x y : shape y = shape x -> sound x -> sound y.
Proof. unfold shape. intros [= H1 H2 H3 H4 H5] [Hc Hi]. split; congruence || by rewrite H1, H2, H3, H4. Qed.

Section safe.
Context `{Al : SqliterkAlloc}.
Context `{So : SqliteOut} `{Sc : SqliteColumn} `{Cl : SqliterkColumn} `{CL : !ColumnLaws Cl} `{Af : CAtof}.

Definition stays {A} (c : cm octx A) : Prop := forall x, pwp of_sqlite c (fun _ y => shape y = shape x) x.

Lemma stays_bind {A B} (c : cm octx A) (k : A -> cm octx B) : stays c -> (forall a, stays (k a)) -> stays (bind c k).
Proof.
  intros Hc Hk x. apply pwp_bind. eapply pwp_mono; [apply Hc|]. intros a y Hy.
  eapply pwp_mono; [apply Hk|]. intros b z Hz. congruence.
Qed.
Lemma stays_ret {A} (a : A) : stays (ret a).
Proof. intros x. by apply pwp_ret. Qed.
Lemma stays_gets {A} (f : octx -> A) : stays (gets f).
Proof. intros x. by apply pwp_gets. Qed.
Lemma stays_modify f : (forall x, shape (f x) = shape x) -> stays (modify f).
Proof. intros Hf x. apply pwp_modify, Hf. Qed.
Lemma stays_fuel {A} : stays (fail OutOfFuel : cm octx A).
Proof. intros x. apply pwp_fail. by left. Qed.

Create HintDb stays.
Hint Resolve stays_ret stays_gets stays_fuel : stays.

Ltac stays :=
  repeat (intros; first
    [ solve [eauto with stays]
    | apply stays_modify; by intros []
    | eapply stays_bind; [|intros]
    | match goal with |- stays (match ?e with _ => _ end) => destruct e end ]).

Lemma out_stays c : stays (out c).
Proof. unfold out. stays. Qed.
Lemma fail_one_stays : stays fail_one.
Proof. unfold fail_one. stays. Qed.
Lemma succeed_one_stays : stays succeed_one.
Proof. unfold succeed_one. stays. Qed.
Hint Resolve out_stays fail_one_stays succeed_one_stays : stays.

Lemma out_exec_stays sql : stays (out_exec sql).
Proof. unfold out_exec. stays. Qed.
Lemma out_prepare_stays sql : stays (out_prepare sql).
Proof. unfold out_prepare. stays. Qed.
Lemma poll_stays : stays poll_cancelled.
Proof. unfold poll_cancelled. stays. Qed.
Lemma step_all_stays fuel st : stays (step_all fuel st).
Proof. induction fuel as [|fuel IH]; cbn [step_all]; stays. Qed.
Hint Resolve out_exec_stays out_prepare_stays poll_stays step_all_stays : stays.

Lemma eval_value_stays v : stays (eval_value v).
Proof. unfold eval_value. stays. Qed.
Lemma run_insert_stays st : stays (run_insert st).
Proof. unfold run_insert. stays. Qed.
Hint Resolve eval_value_stays run_insert_stays : stays.

Lemma stays_pwp {A} (c : cm octx A) x Q : stays c -> (forall a y, shape y = shape x -> Q a y) -> pwp of_sqlite c Q x.
Proof. intros Hc HQ. eapply pwp_mono; [apply Hc|]. exact HQ. Qed.

(** ** Preparing a table *)

Lemma fini_insert_idle x : table_cursor x <> CUnset -> pwp of_sqlite fini_insert (fun _ y => sound y /\ o_stmt y = None /\ table_cursor y = table_cursor x) x.
Proof.
  intros Hc. unfold fini_insert. apply pwp_bind_gets. apply pwp_bind, stays_pwp.
  { destruct (o_stmt x); stays. }
  intros _ y [= _ _ _ _ Hy]. apply pwp_modify. cbn [set_insert table_cursor o_stmt]. rewrite Hy. split; [|done]. split; [by cbn; rewrite Hy|done].
Qed.

(** The loop over the columns: as many are known as were counted. *)
Lemma table_info_loop_sound fuel info : forall sql ipk x,
  real_columns x = zlen (column_info x) -> ipk <= real_columns x ->
  pwp of_sqlite (table_info_loop fuel info sql ipk)
    (fun r y => real_columns y = zlen (column_info y) /\ r.2 <= real_columns y /\ table_cursor y = table_cursor x) x.
Proof.
  induction fuel as [|fuel IH]; intros sql ipk x Hn Hipk; cbn [table_info_loop]; [apply pwp_fail; by left|].
  apply pwp_bind, stays_pwp; [stays|]. intros rc y [= _ H2 H3 _ H5].
  destruct (negb (rc =? SQLITE_ROW)); [apply pwp_ret; cbn; by rewrite H2, H3|].
  apply pwp_bind_gets, pwp_bind_gets, pwp_bind_modify, pwp_bind, stays_pwp; [stays|].
  intros v z [= Z1 Z2 Z3 Z4 Z5]. cbn [set_insert o_stmt real_columns column_info ipk_column table_cursor] in *.
  apply pwp_bind_modify, pwp_bind.
  set (w := set_insert _ _ _ _ z).
  assert (Hw : real_columns w = zlen (column_info w) /\ real_columns w = real_columns y + 1 /\ table_cursor w = table_cursor x).
  { cbn [w set_insert real_columns column_info table_cursor]. rewrite zlen_app, Z3, H3, <- Hn, H2, Z5, H5. done. }
  destruct Hw as (Hw1 & Hw2 & Hw3).
  assert (Hgo : forall ipk', ipk' <= real_columns w ->
    pwp of_sqlite (table_info_loop fuel info (sql ++ str "?,") ipk')
      (fun r y => real_columns y = zlen (column_info y) /\ r.2 <= real_columns y /\ table_cursor y = table_cursor x) w).
  { intros ipk' Hle. eapply pwp_mono; [by apply IH|]. intros r u. by rewrite Hw3. }
  rewrite H2 in Hw2. zlen_pos. pose proof (zlen_nonneg (column_info x)).
  destruct (0 <=? ipk); [|apply pwp_ret, Hgo; lia].
  match goal with |- pwp _ (if ?b then _ else _) _ _ => destruct b end.
  - destruct (column_string _); [|apply pwp_fail; by right]. apply pwp_ret, Hgo. destruct (strcasecmp_eq _ _); lia.
  - match goal with |- pwp _ (if ?b then _ else _) _ _ => destruct b end; apply pwp_ret, Hgo; lia.
Qed.

Lemma init_insert_sound t x :
  o_stmt x = None -> column_info x = [] -> table_cursor x <> CUnset ->
  pwp of_sqlite (init_insert t) (fun rc y => sound y /\ table_cursor y = table_cursor x /\ (0 < rc <-> o_stmt y <> None)) x.
Proof.
  intros Hst Hci Hcur. unfold init_insert.
  assert (Hfail : forall y, table_cursor y = table_cursor x ->
    pwp of_sqlite (fini_insert ;;; ret (-1)) (fun rc y => sound y /\ table_cursor y = table_cursor x /\ (0 < rc <-> o_stmt y <> None)) y).
  { intros y Hy. apply pwp_bind. eapply pwp_mono; [apply fini_insert_idle; congruence|]. intros _ z (H1 & H2 & H3).
    apply pwp_ret. split; [done|]. split; [congruence|]. rewrite H2. split; [lia|done]. }
  apply pwp_bind, stays_pwp; [stays|]. intros [rc info] y [= H1 _ H3 _ H5].
  destruct (negb (rc =? SQLITE_OK)); [by apply Hfail|].
  apply pwp_bind_gets, pwp_bind_modify, pwp_bind. eapply pwp_mono.
  { apply table_info_loop_sound; cbn [set_insert real_columns column_info]; [by rewrite H3, Hci|done]. }
  cbn [set_insert table_cursor]. intros [sql ipk] z (Z1 & Z2 & Z3). cbn [snd] in Z2. rewrite H5 in Z3.
  apply pwp_bind, stays_pwp; [stays|]. intros rc2 u [= U1 U2 U3 _ U5]. apply pwp_bind_gets.
  destruct (_ || _) eqn:En; [apply Hfail; congruence|]. apply orb_false_iff in En as [_ En].
  apply pwp_bind, stays_pwp; [stays|]. intros [rc3 st] w [= W1 W2 W3 _ W5].
  destruct (negb (rc3 =? SQLITE_OK)); [apply Hfail; congruence|].
  apply pwp_bind_modify, pwp_gets. cbn [set_insert real_columns o_stmt table_cursor column_info].
  pose proof (zlen_nonneg (column_info z)).
  assert (Hpos : 0 < real_columns w) by lia.
  split; [|split; [congruence|done]]. split; [cbn; congruence|]. cbn [set_insert real_columns o_stmt ipk_column column_info].
  split; [done|]. split; [congruence|]. destruct (0 <? ipk) eqn:Ei; lia.
Qed.

Lemma table_stmt_sound x :
  sound x -> pwp of_sqlite table_stmt (fun st y => sound y /\ (forall st', st = Some st' -> o_stmt y = Some st')) x.
Proof.
  intros Hx. pose proof Hx as [Hcur Hins]. unfold table_stmt. apply pwp_bind_gets.
  destruct (o_stmt x) as [st|] eqn:Hst; [apply pwp_ret; split; [done|congruence]|].
  destruct (table_cursor x) as [| |table] eqn:Ec; [done| |].
  - apply pwp_bind, stays_pwp; [stays|]. intros _ y Hy. apply pwp_ret. split; [by eapply sound_shape|done].
  - apply pwp_bind. eapply pwp_mono; [apply init_insert_sound; congruence|]. intros rc y (Hy & Hcy & Hrc).
    destruct (rc <=? 0) eqn:E.
    + apply pwp_bind_modify, pwp_bind, stays_pwp; [stays|]. intros _ z Hz. apply pwp_ret. split; [|done].
      eapply sound_shape; [exact Hz|]. destruct Hy as [_ Hy]. split; [done|exact Hy].
    + apply pwp_bind, stays_pwp; [stays|]. intros _ z Hz. apply pwp_gets. split; [by eapply sound_shape|done].
Qed.

(** C24: the context stays sound.  From a sound context, [table_onParseColumn] on a row with any number of
    values of any type, with any callback and any answers of SQLite, returns with a sound
    context: a prepared statement has as many columns as are known, the rowid is one of them,
    and without a statement none are known.  It never reads beyond the known columns; what may
    stop it is a statement that gives rows for ever and a key column without a type. *)
Theorem table_row_sound callback heard t c rowid l lo x :
  sound x -> col_rep c rowid l lo ->
  match table_onParseColumn callback heard t c x with
  | Done (_, y) => sound y
  | Stuck f => f = OutOfFuel \/ f = NullDeref
  end.
Proof.
  intros Hx Hc. change (pwp of_sqlite (table_onParseColumn callback heard t c) (fun _ y => sound y) x).
  unfold table_onParseColumn. apply pwp_bind, stays_pwp; [stays|]. intros stop x1 H1. apply (sound_shape _ x1) in Hx; [|done]. clear H1.
  destruct stop; [by apply pwp_ret|]. destruct (negb _); [by apply pwp_ret|].
  apply pwp_bind. eapply pwp_mono; [by apply table_stmt_sound|]. intros [st|] y [Hy Hst]; [|by apply pwp_ret].
  specialize (Hst st eq_refl). apply pwp_bind_gets. pose proof Hy as [_ Hi]. rewrite Hst in Hi. destruct Hi as (Hp & Hn & _).
  rewrite (column_count c rowid l lo Hc).
  destruct (_ || _) eqn:Eb; [apply pwp_bind, stays_pwp; [stays|]; intros _ z Hz; apply pwp_ret; by eapply sound_shape|].
  apply orb_false_iff in Eb as [Eb _].
  apply pwp_bind. unfold pwp at 1. rewrite out_logged. apply pwp_bind. unfold pwp at 1. rewrite to_nat_zlen.
  pose proof (bind_values_exact c rowid l lo st Hc [] l (logged [OClear st] y) eq_refl) as Hb.
  cbn [length drop] in Hb. change (zlen []) with 0 in Hb. rewrite Hb by (cbn [column_info logged set_calls]; unfold zlen in *; lia). clear Hb.
  destruct (row_binds _ _ _ _ _ _) as [cs ok]. cbv zeta. rewrite logged_app.
  destruct ok; cbn [negb]; [|apply pwp_ret; eapply sound_shape; [|exact Hy]; done].
  set (z := logged _ y). assert (Hz : shape z = shape y) by done.
  apply pwp_bind. unfold pwp at 1.
  assert (Hlen : Z.to_nat (real_columns y - zlen l) = length (drop (length l) (column_info z))).
  { rewrite length_drop. change (column_info z) with (column_info y). unfold zlen in *. lia. }
  assert (Hl : zlen l = zlen (take (length l) (column_info z))).
  { unfold zlen. rewrite length_take. change (column_info z) with (column_info y). unfold zlen in *. lia. }
  pose proof (bind_defaults_exact st (drop (length l) (column_info z)) (take (length l) (column_info z)) z) as Hd.
  rewrite <- Hl, <- Hlen in Hd. rewrite Hd by (symmetry; apply take_drop).
  apply stays_pwp; [stays|]. intros _ w Hw. eapply sound_shape; [|exact Hy]. rewrite Hw. done.
Qed.
End safe.
