(* ===== verification/OutputProps.v ===== *)
(** * Output to a new database: theorems on walks

    The walk of [Btree] with the callbacks of [Output]: what arrives in the other database,
    and what the table of tables becomes. *)

From stdpp Require Import gmap.
From S2P Require Import Prelude CLib Values ValuesFacts Pager PagerFacts Btree BtreeFacts RkProps.
From S2P Require Import Backup SqliteColumn StdMap MasterFile LeafFile Output OutputFacts OutputSchema.

Section walks.
Context `{Al : SqliterkAlloc} `{AL : !SqliterkAllocLaws Al} `{Fi : SqliterkFile} `{Co : SqliterkCodec}.
Context `{Ut : SqliterkUtil} `{UL : !UtilLaws Ut} `{Cl : SqliterkColumn} `{CL : !ColumnLaws Cl}.
Context `{Bt : SqliterkBtreeTypes} `{BL : !BtreeTypesLaws Bt} `{Af : CAtof} (memory : ~ refused).
Context (d : list Z) `{FL : !FileLaws Fi d} (bytes : Forall is_byte d).
Context `{So : SqliteOut} `{Sc : SqliteColumn}.

(** A table that is stored at its root and has not been walked. *)
Record unwalked (h depth : nat) (t : subtree) (k : rkstate) : Prop := Unwalked {
  uw_stored : stored d h (pgr k) t;
  uw_once : NoDup (t_pages t);
  uw_pager : good_pager (pgr k);
  uw_fresh : Forall (fun q => valid_page (pgr k) q /\ status_at (pgr k) q = sqliterk_status_unchecked) (t_pages t);
  uw_counts : counts_room (pgr k) (zlen (t_pages t) + zlen (t_overflow t));
  uw_depth : (h < depth)%nat
}.

(** The rows of a table: rowids and values. *)
Definition table_rows (t : subtree) : list (Z * list rkval) := map (fun r => (rw_id r, row_values r)) (t_rows t).

(** A name that is not taken for the one of a system table. *)
Definition plain_name (name : list Z) : Prop := plain_meta (name ++ [0], sqliterk_btree_type_table).

Lemma told_rows bt t : map (fun r => (r.1.2, r.2)) (rows_told bt (t_rows t)) = table_rows t.
Proof. unfold rows_told, table_rows. rewrite map_map. done. Qed.

(** A walk with the callbacks of the context: the rows are told, the pages are done, the context is
    the one of the callbacks on all rows. *)
Lemma parse_page_client cl h depth t s :
  unwalked h depth t (rk s) ->
  (match cl with ForMaster => t_root t = 1 /\ recursive (rk s) = false | ForTables => t_root t <> 1 end) ->
  (match cl with
   | ForMaster => calm (fun _ => True) (octx_of s)
   | ForTables => exists name, plain_name name /\ calm (fun c => c = CAt name) (octx_of s)
   end) ->
  match sqliterkParsePage (notify_of None cl (octx_of s)) depth (t_root t) (RkState (pst (rk s)) (recursive (rk s)) []) with
  | Done (rc, k) => rc = SQLITERK_OK /\ exists bt evs, heard k = rev evs /\
      b_type bt = (if t_root t =? 1 then sqliterk_btree_type_master else sqliterk_btree_type_table) /\
      Forall2 row_is (rows_of evs) (rows_told bt (t_rows t)) /\
      moved (t_pages t ++ t_overflow t) (rows_told bt (t_rows t)) (RkState (pst (rk s)) (recursive (rk s)) []) k
  | Stuck _ => False
  end.
Proof.
  intros [Hst Hnd Hg Hun Hroom Hdep] Hcl Hcalm.
  set (k0 := RkState (pst (rk s)) (recursive (rk s)) []). set (x := octx_of s).
  pose proof (parse_page_walk memory d bytes (notify_of None cl x)
    (fun heard => match replay None cl heard x with Done (rc, _) => rc | Stuck _ => SQLITERK_OK end) eq_refl) as Hw.
  assert (Hbegin : forall begun h meta, onBeginParseTable (notify_of None cl x) = Some begun -> begun h = Some meta -> plain_meta meta).
  { intros begun h' meta Hb Hm. destruct cl; [injection Hb as <-; discriminate Hm|].
    destruct Hcalm as (name & Hname & Hcalm).
    assert (Hc2 : calm (fun c => c = CAt name \/ c = CEnd) x) by (destruct Hcalm; split; auto).
    rewrite (user_names ForTables name x h' meta Hc2); [done|]. rewrite Hb. exact Hm. }
  specialize (Hw Hbegin h depth t k0 Hst Hnd Hg Hun Hroom).
  assert (Hrec : t_root t = 1 -> recursive k0 = false) by (destruct cl; [by intros _; apply Hcl|done]).
  specialize (Hw Hrec Hdep).
  assert (Hans : forall bt c h, b_type bt = (if t_root t =? 1 then sqliterk_btree_type_master else sqliterk_btree_type_table) ->
    match replay None cl (EvColumn bt c :: h) x with Done (rc, _) => rc | Stuck _ => SQLITERK_OK end = SQLITERK_OK).
  { intros bt c h' Hb. destruct cl.
    - apply (user_accepts (fun _ => True) ForMaster x); [done|exact Hcalm|]. destruct Hcl as [Hr _]. by rewrite Hr in Hb.
    - destruct Hcalm as (name & _ & Hcalm). apply (user_accepts (fun c => c = CAt name \/ c = CEnd) ForTables x); [by right| |].
      + destruct Hcalm; split; auto.
      + by rewrite (proj2 (Z.eqb_neq _ _)) in Hb. }
  specialize (Hw Hans). unfold wp in Hw.
  destruct (sqliterkParsePage _ depth (t_root t) k0) as [[rc k]|]; [|done].
  destruct Hw as (-> & bt & _ & Hty & Hm). split; [done|]. pose proof Hm as [_ _ _ _ _ (evs & Hev & Hrows)].
  exists bt, evs. cbn [heard k0] in Hev. rewrite app_nil_r in Hev. done.
Qed.

(** The context after the rows of a table: the statement is released. *)
Definition closed (st : nat) (x xb : octx) (rs : list (Z * list rkval)) : octx :=
  match rs with
  | [] => x
  | _ => set_insert None 0 [] 0 (logged [OExec (str "COMMIT;"); OFinalize st] (rows_effect st xb rs))
  end.

(** The state of the walk with nothing heard yet. *)
Definition unheard (k : rkstate) : rkstate := RkState (pst k) (recursive k) [].

(** The output of a stored table, exactly. *)
Lemma output_rows_exact h depth t name s st xb :
  unwalked h depth t (rk s) -> t_root t <> 1 -> plain_name name ->
  cancelled (octx_of s) = false -> o_polls (octx_of s) = [] -> o_stmt (octx_of s) = None ->
  (t_rows t <> [] -> table_opens name (set_cursor (CAt name) (octx_of s)) st xb) ->
  match output_rows None depth None name (t_root t) s with
  | Stuck _ => False
  | Done (stop, s') =>
    stop = false /\ userInfo s' = userInfo s /\
    octx_of s' = closed st (set_cursor (CAt name) (octx_of s)) xb (table_rows t) /\
    exists rs, moved (t_pages t ++ t_overflow t) rs (unheard (rk s)) (rk s')
  end.
Proof.
  intros Huw Hroot Hname Hcan Hpolls Hidle Hopen. set (x := set_cursor (CAt name) (octx_of s)) in *.
  assert (Hx : calm (fun c => c = CAt name) x) by done.
  set (s0 := OState (rk s) x (userInfo s)).
  pose proof (parse_page_client ForTables h depth t s0 Huw Hroot (ex_intro _ name (conj Hname Hx))) as Hw.
  unfold output_rows, sqliterk_parse_page. unfold bind at 1. cbn [in_ctx zoom modify]. fold x. fold s0.
  unfold bind at 1. cbn [octx_of s0 rk] in Hw |- *.
  destruct (sqliterkParsePage _ depth (t_root t) _) as [[rc k]|]; [|done].
  destruct Hw as (-> & bt & evs & Hev & _ & Hrows & Hm). rewrite Hev.
  destruct (replay_rows name st x xb evs (rows_told bt (t_rows t)) Hx) as (rc & ->);
    [by intros H; apply Hopen; destruct (t_rows t)|exact Hrows|].
  rewrite told_rows. unfold bind at 1. cbn [ret]. unfold bind at 1. cbn [in_ctx zoom gets octx_of].
  assert (Htr : t_rows t = [] -> table_rows t = []) by (unfold table_rows; by intros ->).
  destruct (t_rows t) as [|r rs] eqn:Et.
  { rewrite Htr by done. cbn [after_rows closed].
    change (o_stmt x) with (o_stmt (octx_of s)). rewrite Hidle. unfold bind. cbn [ret octx_of rk userInfo]. by eauto. }
  specialize (Hopen ltac:(done)).
  pose proof (table_opens_calm _ name x st xb Hx Hopen) as Hxb. pose proof (to_prepared _ _ _ _ Hopen) as Hpb.
  assert (Hx1 : after_rows st x xb (table_rows t) = rows_effect st xb (table_rows t) /\
    closed st x xb (table_rows t) = set_insert None 0 [] 0 (logged [OExec (str "COMMIT;"); OFinalize st] (rows_effect st xb (table_rows t))))
    by (unfold table_rows; by rewrite Et).
  destruct Hx1 as [-> ->]. destruct (rows_effect_frame _ st (table_rows t) xb Hxb Hpb) as (_ & [Hst _] & _). rewrite Hst.
  set (y := rows_effect st xb (table_rows t)) in *.
  change (SQLITERK_OK =? SQLITERK_CANCELLED) with false. cbv iota. unfold bind. cbn [in_ctx zoom out_exec octx_of].
  unfold in_ctx, zoom. cbn [octx_of]. unfold out_exec, bind. rewrite out_logged. cbn [gets octx_of].
  rewrite (fini_insert_exact st) by exact Hst. cbn [ret]. rewrite logged_app. cbn [rk octx_of userInfo]. by eauto.
Qed.

(** The same in terms of what is inserted. *)
Lemma closed_inserts name st x xb rs n :
  calm (fun c => c = CAt name) x -> table_opens name x st xb -> n = length (column_info xb) -> rs <> [] ->
  exists cs,
    o_calls (closed st x xb rs) = OFinalize st :: OExec (str "COMMIT;") :: rev cs ++ o_calls xb /\
    inserted st n cs = rs ≫= row_result (column_info xb) (ipk_column xb) /\
    u32 (success_count (closed st x xb rs)) = u32 (success_count xb + accepted_count (column_info xb) rs) /\
    u32 (o_fail_count (closed st x xb rs)) = u32 (o_fail_count xb + (zlen rs - accepted_count (column_info xb) rs)).
Proof.
  intros Hx Hopen Hn Hrs. pose proof (table_opens_calm _ name x st xb Hx Hopen) as Hxb.
  destruct (rows_effect_inserts _ st n rs xb Hxb (to_prepared _ _ _ _ Hopen) Hn) as (cs & Hcs & Hins & Hok & Hbad).
  exists cs. unfold closed. destruct rs as [|r rs]; [done|]. split; [cbn [o_calls set_insert logged set_calls rev app]; by rewrite Hcs|]. split; [|done].
  destruct (Hins (Insertion (replicate n SV_Null) []) (length_replicate n SV_Null)) as [_ H]. exact H.
Qed.

(** C16: the output of a table.  On a database that describes the table and on which insertions work, when nothing is cancelled and
    no callback is set, [output_rows] on a stored table walks it and returns; the calls on the
    new database prepare the table and insert, in one statement, exactly the rows whose values
    fit their columns, in the order of the tree, a null in the column of the rowid replaced by
    the rowid; the other rows are counted as failures.  The transaction is committed and the
    statement released; a table without rows is not even opened.  This holds for tables that are
    [recoverable]: not for one whose rowid column is declared NOT NULL, whose rows are all
    refused ([not_null_rowid_lost]), nor for rows that lack a column with a default, which
    is put in the wrong place ([short_row_shifts_default]). *)
Theorem output_rows_inserts evaluate h depth t name rows s :
  unwalked h depth t (rk s) -> t_root t <> 1 -> plain_name name ->
  cancelled (octx_of s) = false -> o_polls (octx_of s) = [] -> o_stmt (octx_of s) = None -> column_info (octx_of s) = [] ->
  (t_rows t <> [] -> describes evaluate name rows (o_calls (octx_of s))) ->
  recoverable (map (column_of evaluate) rows) (rowid_column rows) (table_rows t) ->
  let id := next_stmt (o_calls (octx_of s)) in let st := insert_id evaluate rows id in
  let cis := map (column_of evaluate) rows in let ipk := rowid_column rows in
  match output_rows None depth None name (t_root t) s with
  | Stuck _ => False
  | Done (stop, s') =>
    stop = false /\ o_stmt (octx_of s') = None /\
    match t_rows t with
    | [] => octx_of s' = set_cursor (CAt name) (octx_of s)
    | _ => exists cs,
        o_calls (octx_of s') = rev (opening evaluate name rows id ++ OExec (str "BEGIN;") :: cs ++
                                    [OExec (str "COMMIT;"); OFinalize st]) ++ o_calls (octx_of s) /\
        inserted st (length rows) cs = table_rows t ≫= row_inserted cis ipk /\
        u32 (success_count (octx_of s')) = u32 (success_count (octx_of s) + fitting_count cis ipk (table_rows t)) /\
        u32 (o_fail_count (octx_of s')) =
          u32 (o_fail_count (octx_of s) + (zlen (t_rows t) - fitting_count cis ipk (table_rows t)))
    end
  end.
Proof.
  intros Huw Hroot Hname Hcan Hpolls Hidle Hci Hd Hrec id st cis ipk. destruct (recoverable_rows _ _ _ Hrec) as [Hplain Hcount]. unfold table_rows in Hplain, Hcount. set (x := set_cursor (CAt name) (octx_of s)).
  assert (Hopen : t_rows t <> [] -> table_opens name x st (opened evaluate name rows x))
    by (intros H; apply describes_opens; [by apply Hd|done..]).
  pose proof (output_rows_exact h depth t name s st _ Huw Hroot Hname Hcan Hpolls Hidle Hopen) as H.
  destruct (output_rows None depth None name (t_root t) s) as [[stop s']|]; [|done].
  destruct H as (-> & _ & -> & _). fold x. split; [done|]. unfold table_rows.
  destruct (t_rows t) as [|r rs] eqn:Et; [done|]. split; [done|]. specialize (Hopen ltac:(done)). unfold cis, ipk. rewrite <- Hplain, <- Hcount.
  destruct (closed_inserts name st x _ (map (fun r => (rw_id r, row_values r)) (r :: rs)) (length rows)
    ltac:(done) Hopen ltac:(cbn; by rewrite length_map) ltac:(done)) as (cs & Hcs & Hins & Hok & Hbad).
  exists cs. split.
  { rewrite Hcs. cbn [opened o_calls set_insert logged set_calls]. rewrite !rev_app_distr. cbn [rev]. rewrite !rev_app_distr.
    cbn [rev app]. rewrite <- !app_assoc. done. }
  split; [exact Hins|]. split; [exact Hok|]. unfold zlen in Hbad at 1. rewrite length_map in Hbad. exact Hbad.
Qed.







(** A default in the wrong place.  A row that has one value less than its table has columns, as
    rows written before a column was added do, is inserted with the default of the last column
    in place of its own last value, and with NULL in the last column. *)
Theorem short_row_shifts_default ev bt c rowid l v0 lo st x ci v :
  calm (fun _ => True) x -> prepared st x -> insert_works st (o_calls x) -> col_rep c rowid (l ++ [v0]) lo ->
  accepted (column_info x) (l ++ [v0]) = true ->
  drop (length (l ++ [v0])) (column_info x) = [ci] -> default_value ci = Some v ->
  exists cs x', table_onParseColumn None ev bt c x = Done (SQLITERK_OK, x') /\ o_calls x' = rev cs ++ o_calls x /\
    inserted st (length (column_info x)) cs = [bound_values (ipk_column x) rowid 0 l ++ [v; SV_Null]].
Proof.
  intros Hx Hp Hw Hc Hacc Hdrop Hv. set (n := length (column_info x)).
  destruct (row_effect_inserts st x (rowid, l ++ [v0]) n Hp eq_refl) as (cs & Hcs & Hins & _).
  exists cs, (row_effect st x (rowid, l ++ [v0])).
  split; [by apply (table_row_exact (fun _ => True)) with (lo := lo)|]. split; [exact Hcs|].
  destruct (Hins (Insertion (replicate n SV_Null) []) (length_replicate n SV_Null)) as [_ Hr].
  unfold inserted. rewrite Hr. unfold row_result. cbn [fst snd ins_rows]. rewrite Hacc. cbn [app]. f_equal.
  assert (Hn : n = S (S (length l))).
  { pose proof (f_equal length Hdrop) as Hl. rewrite length_drop, length_app in Hl. cbn [length] in Hl. unfold n. lia. }
  unfold row_vector. rewrite Hdrop. cbn [put_defaults]. rewrite Hv. fold n. rewrite zlen_app. change (zlen [v0]) with 1.
  zlen_pos. rewrite (proj2 (Z.leb_le 1 _)) by lia. rewrite length_app, Hn. cbn [length].
  replace (S (S (length l)) - (length l + 1))%nat with 1%nat by lia. cbn [replicate].
  assert (Hb : forall i, bound_values (ipk_column x) rowid i (l ++ [v0]) =
    bound_values (ipk_column x) rowid i l ++ [bound_value (ipk_column x) rowid (i + zlen l) v0]).
  { clear. induction l as [|v l IH]; intros i; cbn [bound_values app]; [by rewrite Z.add_0_r|].
    rewrite IH. rewrite zlen_cons. by replace (i + 1 + zlen l) with (i + (zlen l + 1)) by lia. }
  rewrite Hb. set (b := bound_values (ipk_column x) rowid 0 l).
  replace (Z.to_nat (zlen l + 1 - 1)) with (length b + 0)%nat by (unfold b; rewrite length_bound_values; unfold zlen; lia).
  by rewrite <- app_assoc, insert_app_r.
Qed.

(** Rows that are lost.  SQLite stores NULL for the column that is the rowid; when this column is
    also declared NOT NULL, the row is counted as a failure and nothing is inserted. *)
Theorem not_null_rowid_lost ev bt c rowid l lo st x i ci :
  calm (fun _ => True) x -> prepared st x -> insert_works st (o_calls x) -> col_rep c rowid l lo ->
  ipk_column x = Z.of_nat i + 1 -> column_info x !! i = Some ci -> not_null ci = true -> l !! i = Some RNull ->
  exists cs x', table_onParseColumn None ev bt c x = Done (SQLITERK_OK, x') /\ o_calls x' = rev cs ++ o_calls x /\
    inserted st (length (column_info x)) cs = [] /\
    success_count x' = success_count x /\ o_fail_count x' = u32 (o_fail_count x + 1).
Proof.
  intros Hx Hp Hw Hc _ Hci Hnn Hl. set (n := length (column_info x)).
  destruct (row_effect_inserts st x (rowid, l) n Hp eq_refl) as (cs & Hcs & Hins & Hcnt).
  assert (Hacc : accepted (column_info x) l = false).
  { unfold accepted. apply andb_false_iff. right. apply not_true_iff_false. rewrite forallb_forall. intros H.
    assert (Hz : zip (column_info x) l !! i = Some (ci, RNull)) by (by rewrite lookup_zip_with, Hci, Hl).
    specialize (H (ci, RNull) ltac:(apply list_elem_of_In; by eapply list_elem_of_lookup_2)). cbn in H. by rewrite Hnn in H. }
  exists cs, (row_effect st x (rowid, l)).
  split; [by apply (table_row_exact (fun _ => True)) with (lo := lo)|]. split; [exact Hcs|].
  cbn [snd] in Hcnt. rewrite Hacc in Hcnt. split; [|done].
  destruct (Hins (Insertion (replicate n SV_Null) []) (length_replicate n SV_Null)) as [_ Hr].
  unfold inserted. rewrite Hr. unfold row_result. cbn [fst snd ins_rows]. by rewrite Hacc.
Qed.
End walks.
