(* ===== verification/OutputAll.v ===== *)
(** * Output to a new database: whole databases

    The loops of [sqliterk_output_cb_leaf] over the tables that were found, and the output of a
    database whose pages are intact. *)

From stdpp Require Import gmap.
From S2P Require Import Prelude CLib Values ValuesFacts Pager PagerFacts Btree BtreeFacts RkProps.
From S2P Require Import Backup SqliteColumn StdMap MasterFile LeafFile Output OutputFacts OutputSchema OutputProps.

Section all.
Context `{Al : SqliterkAlloc} `{AL : !SqliterkAllocLaws Al} `{Fi : SqliterkFile} `{Co : SqliterkCodec}.
Context `{Ut : SqliterkUtil} `{UL : !UtilLaws Ut} `{Cl : SqliterkColumn} `{CL : !ColumnLaws Cl}.
Context `{Bt : SqliterkBtreeTypes} `{BL : !BtreeTypesLaws Bt} `{Af : CAtof} (memory : ~ refused).
Context (d : list Z) `{FL : !FileLaws Fi d} (bytes : Forall is_byte d).
Context `{So : SqliteOut} `{Sc : SqliteColumn}.

(** ** Trees that wait for a walk *)






(** ** What the output does with the entries *)

Context (evaluate : list Z -> option sqlite_value).
Context (flags : Z) (tree : list Z -> subtree) (schema : list Z -> list (list sqlite_value)).


















(** ** The loop over the indices *)







End all.
