(* ===== verification/OutputSmall.v ===== *)
(** * Output to a new database: small databases

    A concrete SQLite on the side of the output, the theorems applied to files of a few pages,
    and behaviours of the code that show on them. *)

From S2P Require Import Prelude CLib Values ValuesFacts Pager PagerFacts Btree BtreeFacts RkProps RkSmall.
From S2P Require Import Backup SqliteColumn StdMap MasterFile LeafFile Output OutputFacts OutputSchema OutputSafe OutputProps OutputAll.

Module OutToy.
Import RkToy PlainColumns.

(** ** A database that knows one table *)

(** The text of a statement and how often it was stepped, by the calls made so far. *)
Fixpoint statement (st : nat) (h : list out_call) : option (list Z * nat) :=
  match h with
  | [] => None
  | OPrepare sql :: h => if (next_stmt h =? st)%nat then Some (sql, O) else statement st h
  | c :: h => (fun p => (p.1, ((if is_step st c then 1 else 0) + p.2)%nat)) <$> statement st h
  end.

Definition starts (p l : list Z) : bool := bool_decide (take (length p) l = p).

(** What stepping a statement that was stepped [n] times before gives: [schema] has the rows of
    [table_info], and every expression is 7. *)
Definition answer_of (schema : list (list sqlite_value)) (sql : list Z) (n : nat) : option (list sqlite_value) :=
  if starts (str "PRAGMA table_info(") sql then schema !! n
  else if starts (str "SELECT ") sql then if (n =? 0)%nat then Some [SV_Integer 7] else None
  else None.

Definition answer (schema : list (list sqlite_value)) (h : list out_call) : option (list sqlite_value) :=
  match h with
  | OStep st :: h => statement st h ≫= fun p => answer_of schema p.1 p.2
  | _ => None
  end.

Definition database (schema : list (list sqlite_value)) : SqliteOut := {|
  out_rc h := match h with
              | OStep _ :: _ => if answer schema h is Some _ then SQLITE_ROW else 101
              | _ => SQLITE_OK
              end;
  out_errmsg _ := false;
  out_prepared _ := true;
  out_row h := default [] (answer schema h);
  out_steps := 20
|}.

Definition seven (_ : list Z) : option sqlite_value := Some (SV_Integer 7).

(** A statement is found by its number. *)
Lemma statement_later sql h cs :
  statement (next_stmt h) (cs ++ OPrepare sql :: h) = Some (sql, stepped (next_stmt h) cs).
Proof.
  induction cs as [|c cs IH]; cbn [app statement]; [by rewrite Nat.eqb_refl|].
  destruct c; try (rewrite IH; reflexivity).
  - rewrite (proj2 (Nat.eqb_neq _ _)); [exact IH|]. rewrite next_stmt_app. unfold next_stmt at 2. cbn. fold (next_stmt h). lia.
  - rewrite IH. unfold stepped. cbn [List.filter is_step fmap option_fmap option_map]. by destruct (_ =? _)%nat.
Qed.

Lemma starts_app p l : starts p (p ++ l) = true.
Proof. unfold starts. apply bool_decide_eq_true. by rewrite take_app_length. Qed.

(** Texts that begin with different letters. *)
Lemma starts_other p q l : head p <> head q -> p <> [] -> q <> [] -> starts p (q ++ l) = false.
Proof. intros H Hp Hq. apply bool_decide_eq_false. destruct p, q; [done..|]. cbn in *. congruence. Qed.

Lemma database_evaluates schema e : @evaluates (database schema) seven e.
Proof.
  intros h. cbn [seven]. cbn [out_rc out_prepared out_row database answer].
  pose proof (statement_later (value_sql e) h []) as Hs. cbn [app] in Hs. rewrite Hs.
  assert (Ha : answer_of schema (value_sql e) (stepped (next_stmt h) []) = Some [SV_Integer 7]).
  { unfold answer_of. unfold value_sql. rewrite starts_other by discriminate. by rewrite starts_app. }
  cbn [mbind option_bind fst snd]. rewrite Ha. done.
Qed.

Lemma database_describes schema name h :
  schema <> [] -> (length schema < 20)%nat -> Forall (fun row => @pk_index columns row = 1 -> @type_text columns row <> None) schema ->
  @describes (database schema) columns seven name schema h.
Proof.
  intros Hne Hlen Hty.
  assert (Hinfo : forall n, answer_of schema (info_sql name) n = schema !! n)
    by (intros n; unfold answer_of, info_sql; by rewrite starts_app).
  assert (Hins : forall n k, answer_of schema (replace_sql name k) n = None).
  { intros n k. unfold answer_of, replace_sql. by rewrite !starts_other by discriminate. }
  split; try done.
  - intros cs row _ Hrow. cbn [out_rc out_row database answer]. rewrite statement_later. cbn [mbind option_bind fst snd].
    by rewrite Hinfo, Hrow.
  - intros cs _ Hrow. cbn [out_rc database answer]. rewrite statement_later. cbn [mbind option_bind fst snd].
    rewrite Hinfo, lookup_ge_None_2 by lia. done.
  - intros cs _. split; [|done|cbn; lia]. intros cs' _. cbn [out_rc database answer]. rewrite statement_later.
    cbn [mbind option_bind fst snd]. by rewrite Hins.
  - eapply Forall_impl; [exact Hty|]. intros row Hrow. split; [exact Hrow|].
    destruct (default_text row); [apply database_evaluates|done].
Qed.

(** ** The table of three rows

    [CREATE TABLE t(a INTEGER PRIMARY KEY, b)]: the first row has a null in place of its rowid. *)
Definition info_row (name type : list Z) (nn : Z) (dflt : sqlite_value) (pk : Z) : list sqlite_value :=
  [SV_Integer 0; SV_Text name; SV_Text type; SV_Integer nn; dflt; SV_Integer pk].

Definition schema_t : list (list sqlite_value) :=
  [info_row (str "a") (str "INTEGER") 0 SV_Null 1; info_row (str "b") [] 0 SV_Null 0].

Definition kit (n : Z) : rkstate := RkState (PState (pager_of n) 3) false [].
Definition before (n : Z) : ostate := OState (kit n) (start_ctx [] (Some []) 0 []) UserLive.

Lemma table_unwalked : unwalked table_file 1 2 table_tree (kit 5).
Proof.
  split; [exact table_stored|apply (bool_decide_unpack _); vm_compute; exact I|apply pager_of_good; lia| |computed|lia].
  repeat (constructor; [computed|]). constructor.
Qed.

Lemma plain_t : @plain_name types (str "t").
Proof.
  exists (str "t"). split; [reflexivity|]. split; [|split; vm_compute; reflexivity].
  intros H%(bool_decide_pack _). vm_compute in H. exact H.
Qed.

Lemma describes_t h : @describes (database schema_t) columns seven (str "t") schema_t h.
Proof. apply database_describes; [done|cbn; lia|]. repeat (constructor; [done|]). constructor. Qed.

Lemma init_insert_columns_witness :
  exists x1, @init_insert (database schema_t) columns (str "t") (octx_of (before 5)) = Done (2, x1) /\
    ipk_column x1 = 1 /\ head (o_calls x1) = Some (OPrepare (str "REPLACE INTO t VALUES(?,?);")).
Proof.
  destruct (@init_insert_columns (database schema_t) columns seven (str "t") schema_t (octx_of (before 5)) (describes_t _) eq_refl eq_refl)
    as (st & cs & x1 & H1 & _ & H2 & _ & H3 & _).
  exists x1. split; [exact H1|]. split.
  - apply (H3 [] _ _ eq_refl); [vm_compute; reflexivity|]. repeat (constructor; [vm_compute; reflexivity|]). constructor.
  - rewrite H2. vm_compute. reflexivity.
Defined.

(** The columns of the toy table have no constraint, and its rows have all of them. *)
Lemma recoverable_t : recoverable (map (column_of seven) schema_t) (rowid_column schema_t) (table_rows table_tree).
Proof.
  split.
  - intros [|i] ci Hi E; [by injection Hi as <-|]. change (rowid_column schema_t) with 1 in E. lia.
  - repeat (apply Forall_cons; split; [vm_compute; constructor|]). constructor.
Qed.

Lemma output_rows_inserts_witness :
  match @output_rows (database schema_t) columns column no_atof None heap (file table_file) codec util types 2 None
          (str "t") 2 (before 5) with
  | Stuck _ => False
  | Done (stop, s') =>
    stop = false /\ exists pre cs, rev (o_calls (octx_of s')) = pre ++ cs ++ [OExec (str "COMMIT;"); OFinalize 1] /\
      inserted 1 2 cs = [[SV_Integer 1; SV_Integer 42]; [SV_Integer 0; SV_Blob (repeat 7 600)];
                         [SV_Text (str "a"); SV_Float (repeat 64 8)]]
  end.
Proof.
  pose proof (@output_rows_inserts heap heap_laws (file table_file) codec util util_laws column column_laws types types_laws
    no_atof heap_grants table_file (file_laws table_file) table_bytes (database schema_t) columns seven
    1 2 table_tree (str "t") schema_t (before 5) table_unwalked ltac:(discriminate) plain_t eq_refl eq_refl eq_refl eq_refl
    (fun _ => describes_t _) recoverable_t) as H.
  cbv zeta in H. change (t_root table_tree) with 2 in H.
  destruct (output_rows None 2 None (str "t") 2 (before 5)) as [[stop s']|]; [|exact H].
  destruct H as (H1 & _ & cs & H2 & H3 & _). split; [exact H1|].
  exists (opening seven (str "t") schema_t 0 ++ [OExec (str "BEGIN;")]), cs. split.
  - rewrite H2. change (o_calls (octx_of (before 5))) with (@nil out_call). rewrite app_nil_r, rev_involutive, <- app_assoc. reflexivity.
  - etransitivity; [exact H3|]. vm_compute. reflexivity.
Defined.

(** ** A whole database: the table with its entry in [sqlite_master] *)

Definition text (s : list Z) : Z * list Z := (13 + 2 * zlen s, s).
Definition sql_t : list Z := str "CREATE TABLE t(a INTEGER PRIMARY KEY,b)".
Definition entry_t : row := Row 1 6 [text (str "table"); text (str "t"); text (str "t"); (1, [2]); text sql_t] [].
Definition database_file : list Z := leaf_page (file_header 512) [cell entry_t] ++ drop 512 table_file.











(** ** Single rows *)

Definition value_of (r : rkval) : sqliterk_value :=
  match r with
  | RNull => Value sqliterk_value_type_null (AnyRaw (zeros 16))
  | RInteger i => Value sqliterk_value_type_integer (AnyInteger i)
  | RNumber b => Value sqliterk_value_type_number (AnyNumber b)
  | RText b => Value sqliterk_value_type_text (AnyText (Some (b ++ [0])) (zlen b))
  | RBinary b => Value sqliterk_value_type_binary (AnyBinary (Some b) (zlen b))
  end.

Definition values_of (l : list rkval) : sqliterk_values :=
  Values_ (zlen l) (zlen l + 1) (Some (map value_of l ++ [value_of RNull; value_of RNull])).

Definition row_of (rowid : Z) (l : list rkval) : col := Col rowid (Some (values_of l)) (Some (values_of [])).

Lemma values_of_rep l : vals_rep (values_of l) l.
Proof.
  split; [|done|cbn; zlen_pos; lia]. eexists. split; [done|]. split.
  - cbn [values_of vs_capacity]. unfold zlen. rewrite length_app, length_map. cbn. lia.
  - rewrite take_app_le by (by rewrite length_map). rewrite take_ge by (by rewrite length_map).
    apply Forall2_fmap_l, Forall_Forall2_diag, List.Forall_forall. by intros [] _.
Qed.

Lemma row_of_rep rowid l : @col_rep column (row_of rowid l) rowid l [].
Proof. split; [done|]. split; eexists; split; [done|apply values_of_rep|done|apply values_of_rep]. Qed.

Definition cursor_at_t : octx := set_cursor (CAt (str "t")) (start_ctx [] (Some []) 0 []).

Lemma table_row_sound_witness :
  match @table_onParseColumn (database schema_t) columns column no_atof None [] loop_tree
          (row_of 5 [RNull; RInteger 42; RText (str "x")]) cursor_at_t with
  | Done (_, y) => sound y
  | Stuck f => f = OutOfFuel \/ f = NullDeref
  end.
Proof.
  apply (@table_row_sound (database schema_t) columns column no_atof None [] loop_tree
    (row_of 5 [RNull; RInteger 42; RText (str "x")]) 5 [RNull; RInteger 42; RText (str "x")] [] cursor_at_t).
  - split; [discriminate|reflexivity].
  - apply row_of_rep.
Defined.

(** A table to which the third column was added later, with the default 7. *)
Definition schema_added : list (list sqlite_value) :=
  [info_row (str "a") (str "INTEGER") 0 SV_Null 0; info_row (str "b") [] 0 SV_Null 0;
   info_row (str "c") (str "INTEGER") 0 (SV_Text (str "7")) 0].

Definition opened_added : octx := @opened columns seven (str "t") schema_added cursor_at_t.

Lemma works_added : @insert_works (database schema_added) 2 (o_calls opened_added).
Proof.
  eapply (@to_works (database schema_added) columns (str "t") cursor_at_t).
  apply (@describes_opens (database schema_added) columns seven (str "t") schema_added cursor_at_t); try done.
  apply database_describes; [done|cbn; lia|]. repeat (constructor; [done|]). constructor.
Qed.

Lemma short_row_shifts_default_witness :
  exists cs x', @table_onParseColumn (database schema_added) columns column no_atof None [] loop_tree
    (row_of 5 [RInteger 1; RInteger 2]) opened_added = Done (SQLITERK_OK, x') /\
    o_calls x' = rev cs ++ o_calls opened_added /\
    inserted 2 3 cs = [[SV_Integer 1; SV_Integer 7; SV_Null]].
Proof.
  apply (@short_row_shifts_default column no_atof (database schema_added) columns [] loop_tree
    (row_of 5 [RInteger 1; RInteger 2]) 5 [RInteger 1] (RInteger 2) [] 2 opened_added
    (ColumnInfo SQLITE_AFF_INTEGER false (Some (SV_Integer 7))) (SV_Integer 7)).
  - vm_compute. split; reflexivity || exact I.
  - vm_compute. split; reflexivity.
  - exact works_added.
  - apply row_of_rep.
  - vm_compute. reflexivity.
  - vm_compute. reflexivity.
  - reflexivity.
Defined.

(** The rowid declared NOT NULL. *)
Definition schema_rowid : list (list sqlite_value) :=
  [info_row (str "a") (str "INTEGER") 1 SV_Null 1; info_row (str "b") [] 0 SV_Null 0].

Definition opened_rowid : octx := @opened columns seven (str "t") schema_rowid cursor_at_t.

Lemma works_rowid : @insert_works (database schema_rowid) 1 (o_calls opened_rowid).
Proof.
  eapply (@to_works (database schema_rowid) columns (str "t") cursor_at_t).
  apply (@describes_opens (database schema_rowid) columns seven (str "t") schema_rowid cursor_at_t); try done.
  apply database_describes; [done|cbn; lia|]. repeat (constructor; [done|]). constructor.
Qed.

Lemma not_null_rowid_lost_witness :
  exists cs x', @table_onParseColumn (database schema_rowid) columns column no_atof None [] loop_tree
    (row_of 5 [RNull; RInteger 42]) opened_rowid = Done (SQLITERK_OK, x') /\
    o_calls x' = rev cs ++ o_calls opened_rowid /\ inserted 1 2 cs = [] /\
    success_count x' = 0 /\ o_fail_count x' = 1.
Proof.
  apply (@not_null_rowid_lost column no_atof (database schema_rowid) columns [] loop_tree
    (row_of 5 [RNull; RInteger 42]) 5 [RNull; RInteger 42] [] 1 opened_rowid 0
    (ColumnInfo SQLITE_AFF_INTEGER true None)).
  - vm_compute. split; reflexivity || exact I.
  - vm_compute. split; reflexivity.
  - exact works_rowid.
  - apply row_of_rep.
  - vm_compute. reflexivity.
  - vm_compute. reflexivity.
  - reflexivity.
  - reflexivity.
Defined.

(** ** Whole runs *)

Definition run (flags : Z) (polls : list bool) : res (Z * option ostate) :=
  @sqliterk_output (database schema_t) columns column no_atof heap (file database_file) codec util types 2
    (Some (kit 5)) (Some []) None flags polls.

(** The result of a run, the statements it executed, the number of rows it inserted. *)
Definition summary (r : res (Z * option ostate)) : option (Z * list (list Z) * Z) :=
  match r with
  | Done (rc, Some s) =>
    Some (rc, omap (fun c => match c with OExec sql => Some sql | _ => None end) (rev (o_calls (octx_of s))),
          success_count (octx_of s))
  | _ => None
  end.

Example whole_run :
  summary (run 0 []) = Some (SQLITERK_OK, [sql_t; str "BEGIN;"; str "COMMIT;"], 4).
Proof. vm_compute. reflexivity. Qed.

(** A user who cancels while the second row of the table is reached: the rows so far are
    committed, not rolled back, since a cancelled walk below an inner page counts as a success;
    and when nothing is to be created, so that no later loop looks at the flag, the result is
    OK. *)
Theorem cancelled_output_commits :
  summary (run 0 [false; false; false; true]) =
    Some (SQLITERK_CANCELLED, [sql_t; str "BEGIN;"; str "COMMIT;"], 2) /\
  summary (run SQLITERK_OUTPUT_NO_CREATE_TABLES [false; false; false; true]) =
    Some (SQLITERK_OK, [str "BEGIN;"; str "COMMIT;"], 1).
Proof. vm_compute. split; reflexivity. Qed.

(** A call of [sqliterk_cancel] after the output has returned writes to its dead context. *)
Example cancel_after_return :
  match run 0 [] with
  | Done (_, Some s) => sqliterk_cancel s = Stuck UseAfterFree
  | _ => False
  end.
Proof. vm_compute. reflexivity. Qed.
End OutToy.
