(* ===== verification/Vfslog.v ===== *)
(** * The logging VFS (vfslog.c)

    A wrapper around the VFS of the platform that writes a line of text for the calls SQLite
    makes on a database file and its journal.  The lines of a database go to two files: a
    plain one that holds what is not yet safely in the other, and a gzip stream.

    A pair of [VLogLog] objects, the first for the database and the second for the journal, is
    one block of memory; the blocks in use form a doubly linked list.  Blocks are numbered in
    the order they were allocated, a block that was released stays in the store as [None], so
    that a pointer to it is recognised.  A thread holds the master mutex while it works on the
    list; the model is of one thread. *)

From stdpp Require Import gmap.
From S2P Require Import Prelude CLib.

(** ** Operations and their names *)

Inductive VLogOp :=
| VLOG_OP_CLOSE | VLOG_OP_READ | VLOG_OP_CHNGCTR_READ | VLOG_OP_WRITE | VLOG_OP_CHNGCTR_WRITE
| VLOG_OP_TRUNCATE | VLOG_OP_SYNC | VLOG_OP_FILESIZE | VLOG_OP_LOCK | VLOG_OP_UNLOCK
| VLOG_OP_CHECKRESERVEDLOCK | VLOG_OP_FILECONTROL | VLOG_OP_SECTORSIZE | VLOG_OP_DEVCHAR
| VLOG_OP_SHMMAP | VLOG_OP_SHMLOCK | VLOG_OP_SHMUNMAP | VLOG_OP_FETCH | VLOG_OP_UNFETCH
| VLOG_OP_OPEN | VLOG_OP_DELETE | VLOG_OP_ACCESS.

(** The value of the enumerator. *)
Definition op_number (op : VLogOp) : Z :=
  match op with
  | VLOG_OP_CLOSE => 0 | VLOG_OP_READ => 1 | VLOG_OP_CHNGCTR_READ => 2 | VLOG_OP_WRITE => 3
  | VLOG_OP_CHNGCTR_WRITE => 4 | VLOG_OP_TRUNCATE => 5 | VLOG_OP_SYNC => 6 | VLOG_OP_FILESIZE => 7
  | VLOG_OP_LOCK => 8 | VLOG_OP_UNLOCK => 9 | VLOG_OP_CHECKRESERVEDLOCK => 10
  | VLOG_OP_FILECONTROL => 11 | VLOG_OP_SECTORSIZE => 12 | VLOG_OP_DEVCHAR => 13 | VLOG_OP_SHMMAP => 14
  | VLOG_OP_SHMLOCK => 15 | VLOG_OP_SHMUNMAP => 16 | VLOG_OP_FETCH => 17 | VLOG_OP_UNFETCH => 18
  | VLOG_OP_OPEN => 19 | VLOG_OP_DELETE => 20 | VLOG_OP_ACCESS => 21
  end.

Definition VLOG_OPNAME : list (list Z) :=
  map str ["CLOSE"; "READ"; "CHNGCTR_READ"; "WRITE"; "CHNGCTR_WRITE"; "TRUNCATE"; "SYNC"; "FILESIZE";
           "LOCK"; "UNLOCK"; "CHECKRESERVEDLOCK"; "FILECONTROL"; "SECTORSIZE"; "DEVCHAR"; "SHMMAP";
           "SHMLOCK"; "SHMUNMAP"; "FETCH"; "UNFETCH"; "OPEN"; "DELETE"; "ACCESS"]%string.

Definition op_bit (op : VLogOp) : Z := Z.shiftl 1 (op_number op).

Definition vlogDefaultLogFlags : Z :=
  foldr (fun op => Z.lor (op_bit op)) 0
    [VLOG_OP_CLOSE; VLOG_OP_READ; VLOG_OP_CHNGCTR_READ; VLOG_OP_WRITE; VLOG_OP_CHNGCTR_WRITE;
     VLOG_OP_TRUNCATE; VLOG_OP_SYNC; VLOG_OP_FILESIZE; VLOG_OP_OPEN; VLOG_OP_DELETE].

Definition VFSLOG_GZIP_BLOCK_SIZE : Z := 65536.
Definition SQLITE_FCNTL_VFSLOG_STAT : Z := 10001.

(** Constants of SQLite. *)
Definition SQLITE_OK : Z := 0.
Definition SQLITE_ERROR : Z := 1.
Definition SQLITE_OPEN_MAIN_DB : Z := 256.
Definition SQLITE_OPEN_MAIN_JOURNAL : Z := 2048.
Definition SQLITE_OPEN_WAL : Z := 524288.
Definition SQLITE_FCNTL_SIZE_HINT : Z := 5.
Definition SQLITE_FCNTL_VFSNAME : Z := 12.
Definition SQLITE_FCNTL_PRAGMA : Z := 14.
Definition SQLITE_FCNTL_TRACE : Z := 19.
Definition SQLITE_SHM_UNLOCK : Z := 1.
Definition SQLITE_SHM_LOCK : Z := 2.
Definition SQLITE_SHM_SHARED : Z := 4.
Definition SQLITE_SHM_EXCLUSIVE : Z := 8.

(** ** The platform *)

Record VLogStat := Stat {
  lastMainReadOffset : Z;
  lastMainWriteOffset : Z;
  lastJournalReadOffset : Z;
  lastJournalWriteOffset : Z
}.

(** What a file control operation is given and may change: nothing of interest, a text, the texts
    of a pragma, a size, or the numbers of [SQLITE_FCNTL_VFSLOG_STAT]. *)
Inductive fcntl_arg :=
| ArgOther
| ArgText (t : list Z)
| ArgPragma (args : list (option (list Z)))
| ArgSize (n : Z)
| ArgStat (st : VLogStat).

(** The VFS below and its files.  [xVersion] is [pMethods->iVersion] of a file, [None] when it has
    no methods because it was not opened. *)
Class RealVfs := {
  real : Type;
  fid : Type;
  xVersion : fid -> real -> option Z;
  xClose : fid -> real -> Z * real;
  xRead : fid -> Z -> Z -> real -> Z * list Z * real;
  xWrite : fid -> list Z -> Z -> real -> Z * real;
  xTruncate : fid -> Z -> real -> Z * real;
  xSync : fid -> Z -> real -> Z * real;
  xFileSize : fid -> real -> Z * Z * real;
  xLock : fid -> Z -> real -> Z * real;
  xUnlock : fid -> Z -> real -> Z * real;
  xCheckReservedLock : fid -> real -> Z * Z * real;
  xFileControl : fid -> Z -> fcntl_arg -> real -> Z * fcntl_arg * real;
  xSectorSize : fid -> real -> Z * real;
  xDeviceCharacteristics : fid -> real -> Z * real;
  xShmMap : fid -> Z -> Z -> Z -> real -> Z * option Z * real;
  xShmLock : fid -> Z -> Z -> Z -> real -> Z * real;
  xShmBarrier : fid -> real -> real;
  xShmUnmap : fid -> Z -> real -> Z * real;
  xFetch : fid -> Z -> Z -> real -> Z * option Z * real;
  xUnfetch : fid -> Z -> option Z -> real -> Z * real;
  xOpen : option (list Z) -> fid -> Z -> real -> Z * Z * real;
  xDelete : list Z -> Z -> real -> Z * real;
  xAccess : list Z -> Z -> real -> Z * Z * real
}.

(** The rest of the platform: the n-th reading of the clock in microseconds, and whether memory,
    the plain log file, the gzip log file and a mutex can be had. *)
Class LogEnv := {
  vlog_clock : nat -> Z;
  vlog_malloc_ok : Z -> bool;
  fopen_ok : list Z -> bool;
  gzopen_ok : list Z -> bool;
  mutex_ok : bool
}.

(** ** Text *)

(** [%.*w] of SQLite: at most so many bytes, quotes doubled. *)
Definition quoted (precision : nat) (t : list Z) : list Z :=
  take precision t ≫= (fun c => if c =? 34 then [34; 34] else [c]).

(** [sqlite3_snprintf] into a buffer of [n] bytes. *)
Definition shown (n : nat) (t : list Z) : list Z := take (n - 1) t.

(** [sqlite3_strglob] for patterns of question marks, each for one UTF-8 character, and other
    ASCII characters, each for itself. *)
Fixpoint skip_cont (s : list Z) : list Z :=
  match s with
  | c :: s' => if (128 <=? c) && (c <? 192) then skip_cont s' else s
  | [] => []
  end.
Fixpoint glob (pat s : list Z) : bool :=
  match pat, s with
  | [], [] => true
  | p :: pat, c :: s =>
    if p =? chr "?" then glob pat (if 192 <=? c then skip_cont s else s) else (p =? c) && glob pat s
  | _, _ => false
  end.

(** ** State *)

(** What [ppPrev] points to. *)
Inductive link := LNull | LAllLogs | LNext (log : nat).

Record VLogLog := Log {
  pNext : option nat;
  ppPrev : link;
  nRef : Z;
  nFilename : Z;
  zFilename : option (list Z);
  log_flags : Z;
  lastReadOfs : Z;
  lastWriteOfs : Z
}.

(** A block: the two logs, and the streams both use.  [gzPending] is what was written to the gzip
    stream and need not be in its file yet. *)
Record VLogPair := Pair {
  log0 : VLogLog;
  log1 : VLogLog;
  tmpName : list Z;
  gzName : list Z;
  gzPending : list Z
}.

(** A [VLogLog *]: a block and which of its two logs. *)
Definition logptr : Type := nat * bool.

Record VLogFile `{Re : RealVfs} := VFile { pReal : fid; pLog : option logptr }.

Section vfslog.
Context `{Re : RealVfs} `{En : LogEnv}.

Record vstate := VState {
  blocks : list (option VLogPair);
  allLogs : option nat;
  ioVersion : Z;                      (* vlog_io_methods.iVersion *)
  tmpDisk : gmap (list Z) (list Z);   (* the plain log files *)
  gzDisk : gmap (list Z) (list Z);    (* what the gzip log files hold *)
  ticks : nat;
  world : real
}.

Definition set_blocks v (s : vstate) : vstate :=
  VState v (allLogs s) (ioVersion s) (tmpDisk s) (gzDisk s) (ticks s) (world s).
Definition set_allLogs v (s : vstate) : vstate :=
  VState (blocks s) v (ioVersion s) (tmpDisk s) (gzDisk s) (ticks s) (world s).
Definition set_ioVersion v (s : vstate) : vstate :=
  VState (blocks s) (allLogs s) v (tmpDisk s) (gzDisk s) (ticks s) (world s).
Definition set_tmpDisk v (s : vstate) : vstate :=
  VState (blocks s) (allLogs s) (ioVersion s) v (gzDisk s) (ticks s) (world s).
Definition set_gzDisk v (s : vstate) : vstate :=
  VState (blocks s) (allLogs s) (ioVersion s) (tmpDisk s) v (ticks s) (world s).
Definition set_ticks v (s : vstate) : vstate :=
  VState (blocks s) (allLogs s) (ioVersion s) (tmpDisk s) (gzDisk s) v (world s).
Definition set_world v (s : vstate) : vstate :=
  VState (blocks s) (allLogs s) (ioVersion s) (tmpDisk s) (gzDisk s) (ticks s) v.

(** A call of the VFS below. *)
Definition call {A} (f : real -> A * real) : cm vstate A :=
  fun s => let '(a, w) := f (world s) in Done (a, set_world w s).

Definition vlog_time : cm vstate Z :=
  fun s => Done (u64 (vlog_clock (ticks s)), set_ticks (S (ticks s)) s).

Definition the_pair (i : nat) : cm vstate VLogPair :=
  fun s => match blocks s !! i with
           | Some (Some p) => Done (p, s)
           | _ => Stuck UseAfterFree
           end.
Definition put_pair (i : nat) (p : VLogPair) : cm vstate unit :=
  modify (fun s => set_blocks (<[i := Some p]> (blocks s)) s).

Definition log_of (p : VLogPair) (j : bool) : VLogLog := if j then log1 p else log0 p.
Definition with_log (j : bool) (l : VLogLog) (p : VLogPair) : VLogPair :=
  if j then Pair (log0 p) l (tmpName p) (gzName p) (gzPending p)
  else Pair l (log1 p) (tmpName p) (gzName p) (gzPending p).
Definition with_pending (t : list Z) (p : VLogPair) : VLogPair :=
  Pair (log0 p) (log1 p) (tmpName p) (gzName p) t.

Definition set_pNext v (l : VLogLog) : VLogLog :=
  Log v (ppPrev l) (nRef l) (nFilename l) (zFilename l) (log_flags l) (lastReadOfs l) (lastWriteOfs l).
Definition set_ppPrev v (l : VLogLog) : VLogLog :=
  Log (pNext l) v (nRef l) (nFilename l) (zFilename l) (log_flags l) (lastReadOfs l) (lastWriteOfs l).
Definition set_nRef v (l : VLogLog) : VLogLog :=
  Log (pNext l) (ppPrev l) v (nFilename l) (zFilename l) (log_flags l) (lastReadOfs l) (lastWriteOfs l).
Definition set_lastReadOfs v (l : VLogLog) : VLogLog :=
  Log (pNext l) (ppPrev l) (nRef l) (nFilename l) (zFilename l) (log_flags l) v (lastWriteOfs l).
Definition set_lastWriteOfs v (l : VLogLog) : VLogLog :=
  Log (pNext l) (ppPrev l) (nRef l) (nFilename l) (zFilename l) (log_flags l) (lastReadOfs l) v.

Definition upd_log (p : logptr) (f : VLogLog -> VLogLog) : cm vstate unit :=
  let! b := the_pair (fst p) in put_pair (fst p) (with_log (snd p) (f (log_of b (snd p))) b).

(** ** Writing a line *)

(** The text of a line. *)
Definition log_line (tStart tElapse : Z) (name : list Z) (journal : bool) (iArg1 iArg2 : Z)
    (zArg3 : option (list Z)) (iRes : Z) : list Z :=
  let z1 := if 0 <=? iArg1 then shown 40 (dec iArg1) else [] in
  let z2 := if 0 <=? iArg2 then shown 40 (dec iArg2) else [] in
  let z3 := match zArg3 with
            | Some t => shown 1024 ([34] ++ quoted 1020 t ++ [34])
            | None => []
            end in
  dec (s64 tStart) ++ [44] ++ dec (s64 tElapse) ++ [44] ++ name ++ [44] ++ dec (if journal then 1 else 0) ++ [44] ++
  z1 ++ [44] ++ z2 ++ [44] ++ z3 ++ [44] ++ dec iRes ++ [10].

(** A line to the two streams of a block; a full plain file is emptied once the gzip stream is
    flushed. *)
Definition log_write (i : nat) (text : list Z) : cm vstate unit :=
  let! (buf, len) := lift_res (snprintf (zeros 2048) text) in
  let! bytes := lift_res (zread_n buf 0 len) in
  let! b := the_pair i in
  let! tmp := gets (fun s => default [] (tmpDisk s !! tmpName b)) in
  let tmp := tmp ++ bytes in
  modify (fun s => set_tmpDisk (<[tmpName b := tmp]> (tmpDisk s)) s) ;;;
  let pending := gzPending b ++ bytes in
  if VFSLOG_GZIP_BLOCK_SIZE <=? zlen tmp then
    modify (fun s => set_gzDisk (<[gzName b := default [] (gzDisk s !! gzName b) ++ pending]> (gzDisk s)) s) ;;;
    put_pair i (with_pending [] b) ;;;
    modify (fun s => set_tmpDisk (<[tmpName b := []]> (tmpDisk s)) s)
  else put_pair i (with_pending pending b).

Definition vlogLogPrint (pLog : option logptr) (tStart tElapse : Z) (iOp : VLogOp) (iArg1 iArg2 : Z)
    (zArg3 : option (list Z)) (iRes : Z) : cm vstate unit :=
  match pLog with
  | None => ret tt
  | Some (i, j) =>
    let! b := the_pair i in
    let l := log_of b j in
    if Z.land (log_flags l) (op_bit iOp) =? 0 then ret tt
    else
      let! name := lift_res (zread VLOG_OPNAME (op_number iOp)) in
      log_write i (log_line tStart tElapse name (bool_decide (zFilename l = None)) iArg1 iArg2 zArg3 iRes)
  end.

(** ** Opening and closing logs *)

(** [*ppPrev = v] *)
Definition store_link (k : link) (v : option nat) : cm vstate unit :=
  match k with
  | LNull => fail NullDeref
  | LAllLogs => modify (set_allLogs v)
  | LNext n => upd_log (n, false) (set_pNext v)
  end.

(** Taking a log out of the list. *)
Definition unlink_log (i : nat) (j : bool) : cm vstate unit :=
  let! b := the_pair i in
  let l := log_of b j in
  store_link (ppPrev l) (pNext l) ;;;
  match pNext l with
  | Some n => upd_log (n, false) (set_ppPrev (ppPrev l))
  | None => ret tt
  end.

Definition vlogLogClose (p : option logptr) : cm vstate unit :=
  match p with
  | None => ret tt
  | Some (i, j) =>
    let! b := the_pair i in
    let! n := lift_res (chk_int (nRef (log_of b j) - 1)) in
    upd_log (i, j) (set_nRef n) ;;;
    if (0 <? n) || bool_decide (zFilename (log_of b j) = None) then ret tt
    else
      unlink_log i j ;;;
      let! b := the_pair i in
      modify (fun s => set_gzDisk (<[gzName b := default [] (gzDisk s !! gzName b) ++ gzPending b]> (gzDisk s)) s) ;;;
      modify (fun s => set_blocks (<[i := None]> (blocks s)) s)
  end.

(** The log of a database name among those in use. *)
Fixpoint find_log (fuel : nat) (at_ : option nat) (name : list Z) : cm vstate (option nat) :=
  match at_ with
  | None => ret None
  | Some i =>
    match fuel with
    | O => fail OutOfFuel
    | S fuel =>
      let! b := the_pair i in
      if nFilename (log0 b) =? zlen name then
        let! z := lift_res (match zFilename (log0 b) with
                            | None => Stuck NullDeref
                            | Some z => zread_n (z ++ [0]) 0 (zlen name)
                            end) in
        if bool_decide (z = name) then ret (Some i) else find_log fuel (pNext (log0 b)) name
      else find_log fuel (pNext (log0 b)) name
    end
  end.

(** Which log a file belongs to: the name of the database and whether it is a journal; [None] for a
    master journal. *)
Definition ends_with (suffix name : list Z) : bool :=
  (zlen suffix <? zlen name) && bool_decide (drop (length name - length suffix) name = suffix).
Definition log_name (zFilename : list Z) : option (list Z * bool) :=
  if ends_with (str "-wal") zFilename then
    (** a name that ends in -wal cannot end in one of the other suffixes as well *)
    Some (take (length zFilename - 4) zFilename, true)
  else if ends_with (str "-journal") zFilename then Some (take (length zFilename - 8) zFilename, true)
  else if (12 <? zlen zFilename) && glob (str "-mj??????9??") (drop (length zFilename - 12) zFilename) then None
  else Some (zFilename, false).

Definition fresh_log : VLogLog := Log None LNull 0 0 None 0 0 0.

(** A new pair at the head of the list. *)
Definition new_log (name : list Z) : cm vstate (option nat) :=
  let zF := shown (length name + 60) (name ++ str "-vfslog") in
  let tmp := shown (length name + 60) (name ++ str "-vfslo1") in
  let o1 := fopen_ok tmp in
  let o2 := gzopen_ok zF in
  (** the modes [ab+] and [ab] create the files *)
  (if o1 then modify (fun s => set_tmpDisk (<[tmp := default [] (tmpDisk s !! tmp)]> (tmpDisk s)) s) else ret tt) ;;;
  (if o2 then modify (fun s => set_gzDisk (<[zF := default [] (gzDisk s !! zF)]> (gzDisk s)) s) else ret tt) ;;;
  if negb o1 || negb o2 || negb mutex_ok then ret None
  else
    (** [fseek] returns 0 or -1, so that what is left in the plain file is never copied *)
    let! first := gets allLogs in
    let! i := gets (fun s => length (blocks s)) in
    let l := Log first LAllLogs 0 (zlen name) (Some zF) vlogDefaultLogFlags 0 0 in
    modify (fun s => set_blocks (blocks s ++ [Some (Pair l fresh_log tmp zF [])]) s) ;;;
    (match first with
     | Some n => upd_log (n, false) (set_ppPrev (LNext i))
     | None => ret tt
     end) ;;;
    modify (set_allLogs (Some i)) ;;;
    ret (Some i).

Definition sizeof_VLogLog : Z := 80.

Definition vlogLogOpen (zFilename : list Z) : cm vstate (option logptr) :=
  match log_name zFilename with
  | None => ret None
  | Some (name, journal) =>
    if negb (vlog_malloc_ok (sizeof_VLogLog * 2 + zlen name + 60)) then ret None
    else
      let! first := gets allLogs in
      let! n := gets (fun s => length (blocks s)) in
      let! found := find_log n first name in
      let! log := match found with Some i => ret (Some i) | None => new_log name end in
      match log with
      | None => ret None
      | Some i =>
        let! b := the_pair i in
        let! n := lift_res (chk_int (nRef (log_of b journal) + 1)) in
        upd_log (i, journal) (set_nRef n) ;;;
        upd_log (i, journal) (set_lastReadOfs (-1)) ;;;
        upd_log (i, journal) (set_lastWriteOfs (-1)) ;;;
        ret (Some (i, journal))
      end
  end.

(** ** Signatures *)

Definition le32 (l : list Z) : Z := le_val (take 4 l).

(** The sums over the first [n] groups of eight bytes. *)
Fixpoint sig_loop (n : nat) (p : list Z) (s0 s1 : Z) : Z * Z :=
  match n with
  | O => (s0, s1)
  | S n =>
    let s0 := u32 (s0 + u32 (le32 p + s1)) in
    let s1 := u32 (s1 + u32 (le32 (drop 4 p) + s0)) in
    sig_loop n (drop 8 p) s0 s1
  end.

(** The text left in [zCksum]; for an empty block nothing is written to it. *)
Definition vlogSignature (p : list Z) : res (list Z) :=
  let n := zlen p in
  if n <=? 0 then Stuck Uninit
  else if n <=? 16 then Done (p ≫= hex 2)
  else
    let '(s0, s1) := sig_loop (Z.to_nat (n / 8)) p 0 0 in
    Done ((take 8 p ≫= hex 2) ++ [45] ++ hex 8 s0 ++ hex 8 s1).

(** [(x[0] << 24) + (x[1] << 16) + (x[2] << 8) + x[3]] on [int] *)
Definition bigToNative (x : list Z) : res Z :=
  match x with
  | x0 :: x1 :: x2 :: x3 :: _ =>
    let? h := chk_int (x0 * 2 ^ 24) in chk_int (h + x1 * 2 ^ 16 + x2 * 2 ^ 8 + x3)
  | _ => Stuck OutOfBounds
  end.

(** ** Methods of a file *)

(** The change counter of the database, when the bytes at [iOfst] cover it: the counter, the number
    of free pages or all ones, and the size of the database as text. *)
Definition change_counter (z : list Z) (iOfst : Z) : res (Z * Z * option (list Z)) :=
  let x := drop (Z.to_nat (24 - iOfst)) z in
  let? iCtr := bigToNative x in
  if 40 <=? iOfst + zlen z then
    let? size := bigToNative (drop 8 x) in
    let? nFree := bigToNative (drop 12 x) in
    Done (u32 iCtr, u32 nFree, Some (shown 12 (dec size)))
  else Done (u32 iCtr, u32 (-1), None).

(** [p->pLog && p->pLog->zFilename]: a log of a database, not of a journal. *)
Definition logs_database (p : option logptr) : cm vstate bool :=
  match p with
  | None => ret false
  | Some (i, j) => let! b := the_pair i in ret (bool_decide (zFilename (log_of b j) <> None))
  end.

(** [p->pLog->...] *)
Definition the_log (p : option logptr) : cm vstate logptr :=
  match p with None => fail NullDeref | Some l => ret l end.

Definition vlogRead (p : VLogFile) (iAmt iOfst : Z) : cm vstate (Z * list Z) :=
  let! tStart := vlog_time in
  let! (rc, zBuf) := call (xRead (pReal p) iAmt iOfst) in
  let! tEnd := vlog_time in
  let tElapse := u64 (tEnd - tStart) in
  let! db := (if rc =? SQLITE_OK then logs_database (pLog p) else ret false) in
  (if db && (iOfst <=? 24) && (28 <=? iOfst + iAmt) then
     let! (iCtr, nFree, zFree) := lift_res (change_counter zBuf iOfst) in
     vlogLogPrint (pLog p) tStart tElapse VLOG_OP_CHNGCTR_READ iCtr nFree zFree 0
   else
     let! zSig := lift_res (if rc =? SQLITE_OK then vlogSignature zBuf else Done []) in
     let! l := the_log (pLog p) in
     upd_log l (set_lastReadOfs iOfst) ;;;
     vlogLogPrint (pLog p) tStart tElapse VLOG_OP_READ iAmt iOfst (Some zSig) rc) ;;;
  ret (rc, zBuf).

Definition vlogWrite (p : VLogFile) (z : list Z) (iOfst : Z) : cm vstate Z :=
  let! tStart := vlog_time in
  let! rc := call (xWrite (pReal p) z iOfst) in
  let! tEnd := vlog_time in
  let tElapse := u64 (tEnd - tStart) in
  let! db := (if rc =? SQLITE_OK then logs_database (pLog p) else ret false) in
  (if db && (iOfst <=? 24) && (28 <=? iOfst + zlen z) then
     let! (iCtr, nFree, zFree) := lift_res (change_counter z iOfst) in
     vlogLogPrint (pLog p) tStart 0 VLOG_OP_CHNGCTR_WRITE iCtr nFree zFree 0
   else
     let! zSig := lift_res (vlogSignature z) in
     let! l := the_log (pLog p) in
     upd_log l (set_lastWriteOfs iOfst) ;;;
     vlogLogPrint (pLog p) tStart tElapse VLOG_OP_WRITE (zlen z) iOfst (Some zSig) rc) ;;;
  ret rc.

(** The shape of most methods: the call between two readings of the clock, then a line that shows
    its result. *)
Definition timed {A} (p : VLogFile) (iOp : VLogOp) (f : real -> A * real)
    (line : A -> Z * Z * option (list Z) * Z) : cm vstate A :=
  let! tStart := vlog_time in
  let! a := call f in
  let! tEnd := vlog_time in
  let '(iArg1, iArg2, zArg3, iRes) := line a in
  vlogLogPrint (pLog p) tStart (u64 (tEnd - tStart)) iOp iArg1 iArg2 zArg3 iRes ;;;
  ret a.

Definition vlogClose (p : VLogFile) : cm vstate Z :=
  let! tStart := vlog_time in
  let! methods := gets (fun s => xVersion (pReal p) (world s)) in
  let! rc := match methods with Some _ => call (xClose (pReal p)) | None => ret SQLITE_OK end in
  let! tEnd := vlog_time in
  vlogLogPrint (pLog p) tStart (u64 (tEnd - tStart)) VLOG_OP_CLOSE (-1) (-1) None rc ;;;
  vlogLogClose (pLog p) ;;;
  ret rc.

Definition vlogTruncate (p : VLogFile) (size : Z) : cm vstate Z :=
  timed p VLOG_OP_TRUNCATE (xTruncate (pReal p) size) (fun rc => (size, -1, None, rc)).
Definition vlogSync (p : VLogFile) (flags : Z) : cm vstate Z :=
  timed p VLOG_OP_SYNC (xSync (pReal p) flags) (fun rc => (flags, -1, None, rc)).
Definition vlogFileSize (p : VLogFile) : cm vstate (Z * Z) :=
  timed p VLOG_OP_FILESIZE (xFileSize (pReal p)) (fun '(rc, size) => (size, -1, None, rc)).
Definition vlogLock (p : VLogFile) (eLock : Z) : cm vstate Z :=
  timed p VLOG_OP_LOCK (xLock (pReal p) eLock) (fun rc => (eLock, -1, None, rc)).

Definition vlogUnlock (p : VLogFile) (eLock : Z) : cm vstate Z :=
  let! tStart := vlog_time in
  vlogLogPrint (pLog p) tStart 0 VLOG_OP_UNLOCK eLock (-1) None 0 ;;;
  call (xUnlock (pReal p) eLock).

Definition vlogCheckReservedLock (p : VLogFile) : cm vstate (Z * Z) :=
  timed p VLOG_OP_CHECKRESERVEDLOCK (xCheckReservedLock (pReal p)) (fun '(rc, r) => (r, -1, Some [], rc)).

Definition vlogFcntlStats (p : VLogFile) : cm vstate (Z * option VLogStat) :=
  let! (i, j) := the_log (pLog p) in
  let! b := the_pair i in
  if nFilename (log_of b j) =? 0 then ret (SQLITE_ERROR, None)
  else if j then fail OutOfBounds (** the log behind the second one of a block *)
  else ret (SQLITE_OK, Some (Stat (lastReadOfs (log0 b)) (lastWriteOfs (log0 b))
                                  (lastReadOfs (log1 b)) (lastWriteOfs (log1 b)))).

(** [azArg[1]] *)
Definition pragma_name (a : fcntl_arg) : res (option (list Z)) :=
  match a with ArgPragma args => zread args 1 | _ => Stuck BadUnion end.

Definition vlogFileControl (p : VLogFile) (op : Z) (pArg : fcntl_arg) : cm vstate (Z * fcntl_arg) :=
  if op =? SQLITE_FCNTL_VFSLOG_STAT then
    let! (rc, st) := vlogFcntlStats p in
    ret (rc, match st with Some st => ArgStat st | None => pArg end)
  else
  let! tStart := vlog_time in
  let! (rc, pArg) := call (xFileControl (pReal p) op pArg) in
  let! pArg := lift_res
    (if (op =? SQLITE_FCNTL_VFSNAME) && (rc =? SQLITE_OK) then
       match pArg with ArgText t => Done (ArgText (str "vlog/" ++ t)) | _ => Stuck BadUnion end
     else Done pArg) in
  let! tEnd := vlog_time in
  let print (iArg2 : Z) (zArg3 : option (list Z)) :=
    vlogLogPrint (pLog p) tStart (u64 (tEnd - tStart)) VLOG_OP_FILECONTROL op iArg2 zArg3 rc in
  (if op =? SQLITE_FCNTL_TRACE then
     let! t := lift_res (match pArg with ArgText t => Done t | _ => Stuck BadUnion end) in print (-1) (Some t)
   else if op =? SQLITE_FCNTL_PRAGMA then
     let! t := lift_res (pragma_name pArg) in print (-1) t
   else if op =? SQLITE_FCNTL_SIZE_HINT then
     let! n := lift_res (match pArg with ArgSize n => Done n | _ => Stuck BadUnion end) in print n None
   else print (-1) None) ;;;
  ret (rc, pArg).

Definition vlogSectorSize (p : VLogFile) : cm vstate Z :=
  timed p VLOG_OP_SECTORSIZE (xSectorSize (pReal p)) (fun rc => (-1, -1, None, rc)).
Definition vlogDeviceCharacteristics (p : VLogFile) : cm vstate Z :=
  timed p VLOG_OP_DEVCHAR (xDeviceCharacteristics (pReal p)) (fun rc => (-1, -1, None, rc)).

Definition vlogShmMap (p : VLogFile) (iRegion szRegion bExtend : Z) : cm vstate (Z * option Z) :=
  timed p VLOG_OP_SHMMAP (xShmMap (pReal p) iRegion szRegion bExtend)
    (fun '(rc, _) => (iRegion, szRegion, None, rc)).

Definition shm_op (flags : Z) : option (list Z) :=
  if flags =? Z.lor SQLITE_SHM_LOCK SQLITE_SHM_SHARED then Some (str "LS")
  else if flags =? Z.lor SQLITE_SHM_LOCK SQLITE_SHM_EXCLUSIVE then Some (str "LE")
  else if flags =? Z.lor SQLITE_SHM_UNLOCK SQLITE_SHM_SHARED then Some (str "US")
  else if flags =? Z.lor SQLITE_SHM_UNLOCK SQLITE_SHM_EXCLUSIVE then Some (str "UE")
  else None.
Definition vlogShmLock (p : VLogFile) (offset n flags : Z) : cm vstate Z :=
  timed p VLOG_OP_SHMLOCK (xShmLock (pReal p) offset n flags) (fun rc => (offset, n, shm_op flags, rc)).

Definition vlogShmBarrier (p : VLogFile) : cm vstate unit :=
  call (fun w => (tt, xShmBarrier (pReal p) w)).
Definition vlogShmUnmap (p : VLogFile) (deleteFlag : Z) : cm vstate Z :=
  timed p VLOG_OP_SHMUNMAP (xShmUnmap (pReal p) deleteFlag) (fun rc => (deleteFlag, -1, None, rc)).

(** [pp] is the address of the result, which is not null. *)
Definition vlogFetch (p : VLogFile) (iOff nAmt : Z) : cm vstate (Z * option Z) :=
  timed p VLOG_OP_FETCH (xFetch (pReal p) iOff nAmt) (fun '(rc, _) => (iOff, nAmt, Some (str "OK"), rc)).
Definition vlogUnfetch (p : VLogFile) (iOff : Z) (pp : option Z) : cm vstate Z :=
  timed p VLOG_OP_UNFETCH (xUnfetch (pReal p) iOff pp) (fun rc => (iOff, -1, None, rc)).

(** ** Methods of the VFS *)

(** [want_flags]: whether [pOutFlags] is not null.  The file is opened on [f]. *)
Definition vlogOpen (zName : option (list Z)) (f : fid) (flags : Z) (want_flags : bool)
  : cm vstate (Z * Z * VLogFile) :=
  let! log :=
    (if negb (Z.land flags (Z.lor SQLITE_OPEN_MAIN_DB (Z.lor SQLITE_OPEN_MAIN_JOURNAL SQLITE_OPEN_WAL)) =? 0) then
       match zName with None => fail NullDeref | Some z => vlogLogOpen z end
     else ret None) in
  let! tStart := vlog_time in
  let! (rc, out) := call (xOpen zName f flags) in
  let! tEnd := vlog_time in
  vlogLogPrint log tStart (u64 (tEnd - tStart)) VLOG_OP_OPEN flags (if want_flags then out else -1) None rc ;;;
  if rc =? SQLITE_OK then
    let! v := gets (fun s => xVersion f (world s)) in
    match v with
    | None => fail NullDeref
    | Some v => modify (set_ioVersion v) ;;; ret (rc, out, VFile _ f log)
    end
  else
    (match log with Some _ => vlogLogClose log | None => ret tt end) ;;;
    ret (rc, out, VFile _ f None).

Definition vlogDelete (zPath : list Z) (dirSync : Z) : cm vstate Z :=
  let! tStart := vlog_time in
  let! rc := call (xDelete zPath dirSync) in
  let! tEnd := vlog_time in
  let! log := vlogLogOpen zPath in
  vlogLogPrint log tStart (u64 (tEnd - tStart)) VLOG_OP_DELETE dirSync (-1) None rc ;;;
  vlogLogClose log ;;;
  ret rc.

Definition vlogAccess (zPath : list Z) (flags : Z) : cm vstate (Z * Z) :=
  let! tStart := vlog_time in
  let! (rc, out) := call (xAccess zPath flags) in
  let! tEnd := vlog_time in
  let! log := vlogLogOpen zPath in
  vlogLogPrint log tStart (u64 (tEnd - tStart)) VLOG_OP_ACCESS flags out None rc ;;;
  vlogLogClose log ;;;
  ret (rc, out).

(** Registering: the version and the file size of the VFS below are taken over, with room for a
    [VLogFile] in front of each file. *)
Definition sizeof_VLogFile : Z := 24.
Definition sqlite3_register_vfslog (vfs_find : option (Z * Z)) (vfs_register : Z * Z -> Z) : res (Z * (Z * Z)) :=
  match vfs_find with
  | None => Stuck NullDeref
  | Some (iVersion, szOsFile) =>
    let? size := chk_int (sizeof_VLogFile + szOsFile) in
    Done (vfs_register (iVersion, size), (iVersion, size))
  end.

Definition start_state (tmp gz : gmap (list Z) (list Z)) (w : real) : vstate := VState [] None 3 tmp gz 0 w.
End vfslog.
