(* ===== verification/VfslogFacts.v ===== *)
(** * The logging VFS: logs, lines and the files below

    The list of logs as a registry of databases with two reference counts each; what writing a
    line keeps; the methods compared with those of the VFS below. *)

From stdpp Require Import gmap.
From S2P Require Import Prelude CLib Vfslog.

(** ** The registry *)

(** A log in use: its block, the name of the database, the references to its two halves. *)
Record entry := Entry { e_id : nat; e_name : list Z; e_main : Z; e_journal : Z }.

Definition gz_file (name : list Z) : list Z := name ++ str "-vfslog".
Definition tmp_file (name : list Z) : list Z := name ++ str "-vfslo1".

(** The block of an entry. *)
Record wf_pair (e : entry) (b : VLogPair) : Prop := WfPair {
  wf_name : nFilename (log0 b) = zlen (e_name e) /\ zFilename (log0 b) = Some (gz_file (e_name e));
  wf_flags : log_flags (log0 b) = vlogDefaultLogFlags;
  wf_main : nRef (log0 b) = e_main e;
  wf_journal : nRef (log1 b) = e_journal e;
  wf_second : nFilename (log1 b) = 0 /\ zFilename (log1 b) = None /\ log_flags (log1 b) = 0;
  wf_files : tmpName b = tmp_file (e_name e) /\ gzName b = gz_file (e_name e)
}.

(** The part of the list from a link on, up to another one. *)
Fixpoint seg (bs : list (option VLogPair)) (prev : link) (at_ : option nat) (l : list entry)
    (prev' : link) (at' : option nat) : Prop :=
  match l with
  | [] => prev' = prev /\ at' = at_
  | e :: l =>
    at_ = Some (e_id e) /\ exists b, bs !! e_id e = Some (Some b) /\ wf_pair e b /\ ppPrev (log0 b) = prev /\
    seg bs (LNext (e_id e)) (pNext (log0 b)) l prev' at'
  end.

Lemma seg_app bs l1 l2 : forall prev at_ prev' at',
  seg bs prev at_ (l1 ++ l2) prev' at' <->
  exists pm am, seg bs prev at_ l1 pm am /\ seg bs pm am l2 prev' at'.
Proof.
  induction l1 as [|e l1 IH]; intros prev at_ prev' at'; simpl.
  - split; [by intros H; exists prev, at_|]. by intros (? & ? & [-> ->] & H).
  - setoid_rewrite IH. split.
    + intros (Ha & b & Hb & Hw & Hp & pm & am & H1 & H2). exists pm, am. split; [|done]. split; [done|]. by exists b.
    + intros (pm & am & (Ha & b & Hb & Hw & Hp & H1) & H2). split; [done|]. exists b. repeat (split; [done|]). by exists pm, am.
Qed.

(** Blocks outside the segment do not matter. *)
Lemma seg_frame bs i x l : forall prev at_ prev' at',
  i ∉ (e_id <$> l) -> seg bs prev at_ l prev' at' -> seg (<[i := x]> bs) prev at_ l prev' at'.
Proof.
  induction l as [|e l IH]; intros prev at_ prev' at' Hi; simpl; [done|].
  intros (Ha & b & Hb & Hw & Hp & H). apply not_elem_of_cons in Hi as [Hne Hi]. split; [done|].
  exists b. rewrite list_lookup_insert_ne by done. repeat (split; [done|]). by apply IH.
Qed.

Lemma seg_extend bs x l : forall prev at_ prev' at',
  seg bs prev at_ l prev' at' -> seg (bs ++ [x]) prev at_ l prev' at'.
Proof.
  induction l as [|e l IH]; intros prev at_ prev' at'; simpl; [done|].
  intros (Ha & b & Hb & Hw & Hp & H). split; [done|].
  exists b. rewrite lookup_app_l by (by eapply lookup_lt_Some). repeat (split; [done|]). by apply IH.
Qed.

Lemma seg_bound bs l : forall prev at_ prev' at' e,
  seg bs prev at_ l prev' at' -> e ∈ l -> (e_id e < length bs)%nat.
Proof.
  induction l as [|x l IH]; intros prev at_ prev' at' e; simpl; [by intros _ ?%elem_of_nil|].
  intros (Ha & b & Hb & Hw & Hp & H) [->|He]%elem_of_cons; [by eapply lookup_lt_Some|]. by eapply IH.
Qed.

(** The block of an entry in the middle. *)
Lemma seg_middle bs l1 e l2 prev at_ prev' at' :
  seg bs prev at_ (l1 ++ e :: l2) prev' at' ->
  exists pm b, seg bs prev at_ l1 pm (Some (e_id e)) /\ bs !! e_id e = Some (Some b) /\ wf_pair e b /\
    ppPrev (log0 b) = pm /\ seg bs (LNext (e_id e)) (pNext (log0 b)) l2 prev' at'.
Proof.
  intros (pm & am & H1 & -> & b & Hb & Hw & Hp & H2)%seg_app. exists pm, b. by repeat (split; [done|]).
Qed.

Section logs.
Context `{Re : RealVfs} `{En : LogEnv}.

Definition logs_ok (s : vstate) (l : list entry) : Prop :=
  (exists prev', seg (blocks s) LAllLogs (allLogs s) l prev' None) /\ NoDup (e_id <$> l) /\ NoDup (e_name <$> l).

(** Same blocks, same list. *)
Lemma logs_ok_ext s s' l :
  blocks s' = blocks s -> allLogs s' = allLogs s -> logs_ok s l -> logs_ok s' l.
Proof. unfold logs_ok. by intros -> ->. Qed.

(** Replacing an entry. *)
Definition replaced (e : entry) (l : list entry) : list entry :=
  map (fun x => if bool_decide (e_id x = e_id e) then e else x) l.

Lemma replaced_other e l : e_id e ∉ (e_id <$> l) -> replaced e l = l.
Proof.
  induction l as [|x l IH]; [done|]. intros [Hne Hi]%not_elem_of_cons. simpl.
  rewrite bool_decide_eq_false_2 by done. f_equal. by apply IH.
Qed.

Lemma split_ids l e : e ∈ l -> NoDup (e_id <$> l) ->
  exists l1 l2, l = l1 ++ e :: l2 /\ (e_id e ∉ (e_id <$> l1)) /\ (e_id e ∉ (e_id <$> l2)).
Proof.
  intros (l1 & l2 & ->)%list_elem_of_split Hnd. exists l1, l2. split; [done|].
  rewrite fmap_app, fmap_cons in Hnd. apply NoDup_app in Hnd as (_ & H1 & H2).
  apply NoDup_cons in H2 as [H2 _]. split; [|done]. intros Hin. eapply H1; [exact Hin|]. apply elem_of_cons. by left.
Qed.

Lemma replaced_split e l1 l2 x :
  e_id x = e_id e -> e_id e ∉ (e_id <$> l1) -> e_id e ∉ (e_id <$> l2) ->
  replaced e (l1 ++ x :: l2) = l1 ++ e :: l2.
Proof.
  intros Hx H1 H2. unfold replaced. rewrite map_app. simpl. rewrite bool_decide_eq_true_2 by done.
  fold (replaced e l1) (replaced e l2). by rewrite !replaced_other.
Qed.

(** A block is changed without touching its links. *)
Lemma logs_ok_update s l e e' b b' :
  logs_ok s l -> e ∈ l -> e_id e' = e_id e -> e_name e' = e_name e ->
  blocks s !! e_id e = Some (Some b) -> wf_pair e' b' ->
  pNext (log0 b') = pNext (log0 b) -> ppPrev (log0 b') = ppPrev (log0 b) ->
  logs_ok (set_blocks (<[e_id e := Some b']> (blocks s)) s) (replaced e' l).
Proof.
  intros ([prev' Hseg] & Hids & Hnames) He Hid Hname Hb Hw Hn Hp.
  destruct (split_ids l e He Hids) as (l1 & l2 & -> & H1 & H2).
  rewrite (replaced_split e' l1 l2 e) by (by rewrite ?Hid).
  split; [|rewrite !fmap_app, !fmap_cons, Hid, Hname in *; by rewrite ?fmap_app, ?fmap_cons in Hids, Hnames].
  exists prev'. cbn [blocks allLogs set_blocks].
  destruct (seg_middle _ _ _ _ _ _ _ _ Hseg) as (pm & b0 & Hs1 & Hb0 & _ & Hpm & Hs2).
  rewrite Hb in Hb0. injection Hb0 as <-.
  apply seg_app. exists pm, (Some (e_id e)). split; [by apply seg_frame|]. simpl. rewrite Hid. split; [done|].
  exists b'. rewrite list_lookup_insert_eq by (by eapply lookup_lt_Some). split; [done|]. split; [done|].
  rewrite Hp, Hn. split; [done|]. by apply seg_frame.
Qed.

Lemma logs_ok_block s l e : logs_ok s l -> e ∈ l -> exists b, blocks s !! e_id e = Some (Some b) /\ wf_pair e b.
Proof.
  intros ([prev' Hseg] & _) (l1 & l2 & ->)%list_elem_of_split.
  destruct (seg_middle _ _ _ _ _ _ _ _ Hseg) as (pm & b & _ & Hb & Hw & _). by exists b.
Qed.

Lemma wp_the_pair {B} i b (k : VLogPair -> cm vstate B) Q (s : vstate) :
  blocks s !! i = Some (Some b) -> wp (k b) Q s -> wp (bind (the_pair i) k) Q s.
Proof. intros Hb H. unfold wp, bind, the_pair. by rewrite Hb. Qed.

Lemma wp_upd_log1 i j b (f : VLogLog -> VLogLog) Q (s : vstate) :
  blocks s !! i = Some (Some b) ->
  Q tt (set_blocks (<[i := Some (with_log j (f (log_of b j)) b)]> (blocks s)) s) -> wp (upd_log (i, j) f) Q s.
Proof. intros Hb H. unfold wp, upd_log, bind, the_pair, put_pair, modify. cbn [fst snd]. by rewrite Hb. Qed.

Lemma wp_upd_log {B} i j b (f : VLogLog -> VLogLog) (k : unit -> cm vstate B) Q (s : vstate) :
  blocks s !! i = Some (Some b) ->
  wp (k tt) Q (set_blocks (<[i := Some (with_log j (f (log_of b j)) b)]> (blocks s)) s) ->
  wp (bind (upd_log (i, j) f) k) Q s.
Proof. intros Hb H. unfold wp, bind, upd_log, bind, the_pair, put_pair, modify. cbn [fst snd]. by rewrite Hb. Qed.

(** ** A line *)

Lemma dec_digits_length n v : (length (dec_digits n v) <= n)%nat.
Proof.
  revert v. induction n as [|n IH]; intros v; simpl; [lia|]. rewrite length_app. simpl.
  destruct (v <? 10); simpl; [lia|]. specialize (IH (v / 10)). lia.
Qed.

Lemma dec_length v : zlen (dec v) <= 21.
Proof.
  unfold dec, zlen. pose proof (dec_digits_length 20 v). pose proof (dec_digits_length 20 (- v)).
  destruct (v <? 0); cbn [length]; lia.
Qed.

Lemma shown_length n t : (0 < n)%nat -> zlen (shown n t) <= Z.of_nat n - 1.
Proof. intros. unfold shown, zlen. rewrite length_take. lia. Qed.

Lemma op_name op : exists name, zread VLOG_OPNAME (op_number op) = Done name /\ zlen name <= 17.
Proof. destruct op; eexists; (split; [reflexivity|vm_compute; discriminate]). Qed.

(** A line is never longer than the buffer it is printed to. *)
Lemma log_line_fits tStart tElapse name journal a1 a2 a3 r :
  zlen name <= 17 -> zlen (log_line tStart tElapse name journal a1 a2 a3 r) < 2048.
Proof.
  intros Hn. unfold log_line. cbv zeta. rewrite !zlen_app. change (zlen [44]) with 1. change (zlen [10]) with 1.
  pose proof (dec_length (s64 tStart)). pose proof (dec_length (s64 tElapse)). pose proof (dec_length r).
  pose proof (dec_length (if journal then 1 else 0)).
  assert (Harg : forall a, zlen (if 0 <=? a then shown 40 (dec a) else []) <= 39).
  { intros a. pose proof (shown_length 40 (dec a) ltac:(lia)). destruct (0 <=? a); [lia|done]. }
  assert (Htext : zlen match a3 with Some t => shown 1024 ([34] ++ quoted 1020 t ++ [34]) | None => [] end <= 1023).
  { destruct a3 as [t|]; [|done]. pose proof (shown_length 1024 ([34] ++ quoted 1020 t ++ [34]) ltac:(lia)). lia. }
  pose proof (Harg a1). pose proof (Harg a2). lia.
Qed.

Lemma snprintf_line text :
  zlen text < 2048 -> exists buf, snprintf (zeros 2048) text = Done (buf, zlen text) /\ zread_n buf 0 (zlen text) = Done text.
Proof.
  intros Ht. unfold snprintf. zlen_pos. assert (Hz : zlen (zeros 2048) = 2048) by (by apply zlen_zeros).
  assert (Hlen : length (zeros 2048) = 2048%nat) by (unfold zeros; by rewrite length_replicate).
  rewrite Hlen. rewrite take_ge by (unfold zlen in *; lia).
  assert (Hw : zwrite_n (zeros 2048) 0 (text ++ [0]) =
    Done ((text ++ [0]) ++ drop (length (text ++ [0])) (zeros 2048))).
  { unfold zwrite_n, in_range. rewrite zlen_app. change (zlen [0]) with 1. by replace (_ && _) with true by lia. }
  rewrite Hw. cbn [res_bind]. eexists. split; [done|].
  rewrite <- app_assoc. by apply (zread_n_app [] text).
Qed.

(** What a line does to the two streams of its block. *)
Record line_written (i : nat) (b : VLogPair) (text : list Z) (s s' : vstate) : Prop := LineWritten {
  lw_rest : allLogs s' = allLogs s /\ ioVersion s' = ioVersion s /\ ticks s' = ticks s /\ world s' = world s;
  lw_other : forall n, n <> tmpName b -> tmpDisk s' !! n = tmpDisk s !! n;
  lw_gz_other : forall n, n <> gzName b -> gzDisk s' !! n = gzDisk s !! n;
  lw_streams : let tmp := default [] (tmpDisk s !! tmpName b) ++ text in
    let full := VFSLOG_GZIP_BLOCK_SIZE <=? zlen tmp in
    blocks s' = <[i := Some (with_pending (if full then [] else gzPending b ++ text) b)]> (blocks s) /\
    tmpDisk s' !! tmpName b = Some (if full then [] else tmp) /\
    gzDisk s' !! gzName b =
      (if full then Some (default [] (gzDisk s !! gzName b) ++ gzPending b ++ text) else gzDisk s !! gzName b)
}.

Lemma log_write_spec i b text (s : vstate) :
  blocks s !! i = Some (Some b) -> zlen text < 2048 ->
  wp (log_write i text) (fun _ s' => line_written i b text s s') s.
Proof.
  intros Hb Ht. destruct (snprintf_line text Ht) as (buf & H1 & H2). unfold log_write.
  eapply wp_bind_lift_res; [exact H1|]. cbv beta iota. eapply wp_bind_lift_res; [exact H2|].
  apply wp_the_pair with (b := b); [done|]. apply wp_bind_gets. cbv zeta. apply wp_bind_modify.
  destruct (VFSLOG_GZIP_BLOCK_SIZE <=? zlen (default [] (tmpDisk s !! tmpName b) ++ text)) eqn:E.
  - apply wp_bind_modify. apply wp_bind. apply wp_modify. apply wp_modify.
    split; [done| | |cbv zeta; rewrite E].
    + intros n Hn. cbn. by rewrite !lookup_insert_ne by done.
    + intros n Hn. cbn. by rewrite lookup_insert_ne by done.
    + cbn. by rewrite !lookup_insert_eq.
  - apply wp_modify. split; [done| | |cbv zeta; rewrite E].
    + intros n Hn. cbn. by rewrite lookup_insert_ne by done.
    + done.
    + cbn. by rewrite lookup_insert_eq.
Qed.

(** A pointer to a log in use, or none. *)
Definition live (l : list entry) (p : option logptr) : Prop :=
  match p with None => True | Some (i, _) => exists e, e ∈ l /\ e_id e = i end.

(** The registry and the files below are as before. *)
Definition steady (l : list entry) (s s' : vstate) : Prop :=
  logs_ok s' l /\ world s' = world s /\ ioVersion s' = ioVersion s.

Lemma replaced_same l e : e ∈ l -> NoDup (e_id <$> l) -> replaced e l = l.
Proof. intros He Hnd. destruct (split_ids l e He Hnd) as (l1 & l2 & -> & H1 & H2). by apply replaced_split. Qed.

Lemma wf_pending e b t : wf_pair e b -> wf_pair e (with_pending t b).
Proof. intros [H1 H2 H3 H4 H5 H6]. by split. Qed.

Lemma line_written_steady l e b text s s' :
  logs_ok s l -> e ∈ l -> blocks s !! e_id e = Some (Some b) -> wf_pair e b ->
  line_written (e_id e) b text s s' -> steady l s s'.
Proof.
  intros Hok He Hb Hw [(Ha & Hv & _ & Hr) _ _ Hst]. cbv zeta in Hst. destruct Hst as (Hbl & _). split; [|done].
  pose proof Hok as (_ & Hnd & _). rewrite <- (replaced_same l e He Hnd).
  set (b' := with_pending _ b) in Hbl.
  apply (logs_ok_ext (set_blocks (<[e_id e := Some b']> (blocks s)) s)); [done|done|].
  apply (logs_ok_update s l e e b b'); try done. by apply wf_pending.
Qed.

Lemma log_print_spec l p tStart tElapse op a1 a2 a3 r (s : vstate) :
  logs_ok s l -> live l p ->
  wp (vlogLogPrint p tStart tElapse op a1 a2 a3 r) (fun _ s' => steady l s s') s.
Proof.
  intros Hok Hl. destruct p as [[i j]|]; [|by apply wp_ret]. destruct Hl as (e & He & <-).
  destruct (logs_ok_block s l e Hok He) as (b & Hb & Hw). simpl. apply wp_the_pair with (b := b); [done|]. cbv zeta.
  destruct (Z.land _ _ =? 0); [by apply wp_ret|].
  destruct (op_name op) as (name & Hn & Hln). eapply wp_bind_lift_res; [exact Hn|].
  eapply wp_mono; [apply log_write_spec; [done|by apply log_line_fits]|].
  intros [] s' Hlw. by eapply line_written_steady.
Qed.

(** ** Finding, making and dropping logs *)

Definition find_name (name : list Z) (l : list entry) : option entry :=
  List.find (fun e => bool_decide (e_name e = name)) l.

Lemma find_log_spec name l : forall fuel prev at_ prev' (s : vstate),
  seg (blocks s) prev at_ l prev' None -> (length l <= fuel)%nat ->
  find_log fuel at_ name s = Done (e_id <$> find_name name l, s).
Proof.
  induction l as [|e l IH]; intros fuel prev at_ prev' s; simpl.
  - by intros [_ <-] _; destruct fuel.
  - intros (-> & b & Hb & [[Hn Hz] _ _ _ _ _] & Hp & Hseg) Hf. destruct fuel as [|fuel]; [lia|]. cbn [find_log].
    assert (Hnext : find_log fuel (pNext (log0 b)) name s = Done (e_id <$> find_name name l, s))
      by (eapply IH; [exact Hseg|lia]).
    unfold bind at 1, the_pair. rewrite Hb, Hn, Hz. destruct (zlen (e_name e) =? zlen name) eqn:El.
    + assert (Hlen : zlen (e_name e) = zlen name) by lia. unfold gz_file.
      assert (Hr : zread_n ((e_name e ++ str "-vfslog") ++ [0]) 0 (zlen name) = Done (e_name e)).
      { rewrite <- app_assoc. by apply (zread_n_app [] (e_name e)). }
      unfold bind, lift_res. rewrite Hr.
      destruct (bool_decide (e_name e = name)); [done|exact Hnext].
    + rewrite bool_decide_eq_false_2; [exact Hnext|]. intros Heq. rewrite Heq in El. lia.
Qed.

Lemma find_name_Some name l e : find_name name l = Some e -> e ∈ l /\ e_name e = name.
Proof.
  intros H. apply find_some in H as [H1 H2]. apply bool_decide_eq_true in H2. by split; [apply list_elem_of_In|].
Qed.

Lemma find_name_None name l : find_name name l = None -> name ∉ (e_name <$> l).
Proof.
  intros H (e & -> & He)%list_elem_of_fmap. apply list_elem_of_In in He.
  apply (find_none _ _ H) in He. by rewrite bool_decide_eq_true_2 in He.
Qed.

(** Segments only look at their own blocks. *)
Lemma seg_agree bs bs' l : forall prev at_ prev' at',
  (forall k, k ∈ (e_id <$> l) -> bs' !! k = bs !! k) -> seg bs prev at_ l prev' at' -> seg bs' prev at_ l prev' at'.
Proof.
  induction l as [|e l IH]; intros prev at_ prev' at' Hk; simpl; [done|].
  intros (Ha & b & Hb & Hw & Hp & H). split; [done|]. exists b.
  rewrite Hk by (apply elem_of_cons; by left). repeat (split; [done|]). apply IH; [|done].
  intros k Hin. apply Hk. apply elem_of_cons. by right.
Qed.

Lemma wf_links e b f : wf_pair e b ->
  (forall x, nRef (f x) = nRef x /\ nFilename (f x) = nFilename x /\ zFilename (f x) = zFilename x /\ log_flags (f x) = log_flags x) ->
  wf_pair e (with_log false (f (log0 b)) b).
Proof.
  intros [[H1 H1'] H2 H3 H4 H5 H6] Hf. destruct (Hf (log0 b)) as (F1 & F2 & F3 & F4).
  split; simpl; [by rewrite F2, F3|by rewrite F4|by rewrite F1|done|done|done].
Qed.

(** Everything but the blocks and the head of the list. *)
Definition same_rest (s s' : vstate) : Prop :=
  world s' = world s /\ ioVersion s' = ioVersion s /\ ticks s' = ticks s /\ tmpDisk s' = tmpDisk s /\ gzDisk s' = gzDisk s.

(** What each block still has to write to its gzip file. *)
Definition pending_at (s : vstate) (i : nat) : option (list Z) :=
  match blocks s !! i with Some (Some b) => Some (gzPending b) | _ => None end.
Definition same_pending (s s' : vstate) : Prop := forall i, pending_at s' i = pending_at s i.

(** The link that leads out of a segment is set. *)
Lemma store_link_spec l1 pm a v (s : vstate) :
  seg (blocks s) LAllLogs (allLogs s) l1 pm a -> NoDup (e_id <$> l1) ->
  wp (store_link pm v) (fun _ s' =>
    seg (blocks s') LAllLogs (allLogs s') l1 pm v /\ same_rest s s' /\
    forall k, k ∉ (e_id <$> l1) -> blocks s' !! k = blocks s !! k) s.
Proof.
  destruct l1 as [|x l1 _] using rev_ind.
  - intros [-> ->] _. simpl. apply wp_modify. by repeat split.
  - intros Hseg Hnd. pose proof Hseg as (pm' & b & Hs1 & Hb & Hw & Hp & -> & Hnx)%seg_middle.
    rewrite fmap_app in Hnd. apply NoDup_app in Hnd as (_ & Hnd & _).
    assert (Hx : e_id x ∉ (e_id <$> l1)).
    { intros Hin. eapply Hnd; [exact Hin|]. simpl. apply elem_of_cons. by left. }
    simpl. apply wp_upd_log1 with (b := b); [done|].
    cbn [blocks allLogs set_blocks]. split; [|split; [done|]].
    + apply seg_app. exists pm', (Some (e_id x)). split; [by apply seg_frame|]. simpl. split; [done|].
      eexists. rewrite list_lookup_insert_eq by (by eapply lookup_lt_Some). split; [done|].
      split; [by apply (wf_links x b (set_pNext v))|done].
    + intros k Hk. rewrite list_lookup_insert_ne; [done|]. intros <-. apply Hk. rewrite fmap_app. apply elem_of_app.
      right. simpl. apply elem_of_cons. by left.
Qed.

(** The link back from a segment is set. *)
Lemma relink_spec l2 prev a prev' pm (s : vstate) :
  seg (blocks s) prev a l2 prev' None -> NoDup (e_id <$> l2) ->
  wp (match a with Some n => upd_log (n, false) (set_ppPrev pm) | None => ret tt end) (fun _ s' =>
    (exists p', seg (blocks s') pm a l2 p' None) /\ allLogs s' = allLogs s /\ same_rest s s' /\
    forall k, k ∉ (e_id <$> l2) -> blocks s' !! k = blocks s !! k) s.
Proof.
  destruct l2 as [|y l2].
  - intros [-> <-] _. apply wp_ret. split; [by exists pm|]. by repeat split.
  - intros (-> & b & Hb & Hw & Hp & Hseg) [Hy Hnd]%NoDup_cons.
    apply wp_upd_log1 with (b := b); [done|].
    cbn [blocks allLogs set_blocks]. split; [|split; [done|split; [done|]]].
    + exists prev'. split; [done|]. eexists. rewrite list_lookup_insert_eq by (by eapply lookup_lt_Some). split; [done|].
      split; [by apply (wf_links y b (set_ppPrev pm))|]. split; [done|]. by apply seg_frame.
    + intros k Hk. rewrite list_lookup_insert_ne; [done|]. intros <-. apply Hk. apply elem_of_cons. by left.
Qed.

(** ** The registry as a list of entries *)

Definition bump (j : bool) (d : Z) (e : entry) : entry :=
  if j then Entry (e_id e) (e_name e) (e_main e) (e_journal e + d)
  else Entry (e_id e) (e_name e) (e_main e + d) (e_journal e).
Definition refs (j : bool) (e : entry) : Z := if j then e_journal e else e_main e.

(** Opening a log counts a reference, in a new entry when the database has none. *)
Definition reg_open (i : nat) (name : list Z) (j : bool) (l : list entry) : list entry :=
  match find_name name l with
  | Some e => replaced (bump j 1 e) l
  | None => bump j 1 (Entry i name 0 0) :: l
  end.

(** Closing it takes the reference back; without references to the database the entry goes. *)
Definition reg_close (e : entry) (j : bool) (l : list entry) : list entry :=
  if negb j && (e_main e <=? 1) then List.filter (fun x => negb (bool_decide (e_id x = e_id e))) l
  else replaced (bump j (-1) e) l.

Lemma wf_bump e b j d f : wf_pair e b ->
  nRef (f (log_of b j)) = nRef (log_of b j) + d ->
  nFilename (f (log_of b j)) = nFilename (log_of b j) -> zFilename (f (log_of b j)) = zFilename (log_of b j) ->
  log_flags (f (log_of b j)) = log_flags (log_of b j) -> wf_pair (bump j d e) (with_log j (f (log_of b j)) b).
Proof.
  intros [[H1 H1'] H2 H3 H4 (H5 & H5' & H5'') H6] F1 F2 F3 F4. destruct j; simpl in *.
  - split; simpl; [done|done|done|by rewrite F1, H4|by rewrite F2, F3, F4|done].
  - split; simpl; [by rewrite F2, F3|by rewrite F4|by rewrite F1, H3|done|done|done].
Qed.

Lemma bump_id j d e : e_id (bump j d e) = e_id e /\ e_name (bump j d e) = e_name e.
Proof. by destruct j. Qed.

(** A change of one log of an entry that keeps the links and counts [d] references. *)
Lemma upd_log_spec l e j d (f : VLogLog -> VLogLog) (s : vstate) :
  logs_ok s l -> e ∈ l ->
  (forall x, nRef (f x) = nRef x + d \/ nRef x <> refs j e) ->
  (forall x, nFilename (f x) = nFilename x /\ zFilename (f x) = zFilename x /\ log_flags (f x) = log_flags x /\
             pNext (f x) = pNext x /\ ppPrev (f x) = ppPrev x) ->
  wp (upd_log (e_id e, j) f) (fun _ s' => logs_ok s' (replaced (bump j d e) l) /\ allLogs s' = allLogs s /\ same_rest s s' /\ same_pending s s') s.
Proof.
  intros Hok He Hn Hf. destruct (logs_ok_block s l e Hok He) as (b & Hb & Hw).
  apply wp_upd_log1 with (b := b); [done|]. split; [|split; [done|split; [done|]]].
  2: { intros k. unfold pending_at. cbn [blocks set_blocks]. destruct (decide (e_id e = k)) as [<-|Hne].
       - rewrite list_lookup_insert_eq by (by eapply lookup_lt_Some). rewrite Hb. by destruct j.
       - by rewrite list_lookup_insert_ne. } destruct (Hf (log_of b j)) as (F1 & F2 & F3 & F4 & F5).
  destruct (bump_id j d e) as [Hi Hna].
  apply (logs_ok_update s l e (bump j d e) b); [done|done|done|done|done| | |].
  - apply wf_bump; [done| |done|done|done]. destruct (Hn (log_of b j)) as [H|H]; [done|].
    destruct Hw as [_ _ H3 H4 _ _]. destruct j; simpl in *; congruence.
  - by destruct j.
  - by destruct j.
Qed.

Lemma replaced_twice e e' l : e_id e' = e_id e -> replaced e' (replaced e l) = replaced e' l.
Proof.
  intros Hid. unfold replaced. rewrite map_map. apply map_ext. intros x. rewrite Hid.
  destruct (bool_decide (e_id x = e_id e)) eqn:E; [by rewrite bool_decide_eq_true_2|by rewrite E].
Qed.

Lemma elem_of_replaced e l : e_id e ∈ (e_id <$> l) -> e ∈ replaced e l.
Proof.
  intros (x & Hx & Hin)%list_elem_of_fmap. unfold replaced. apply list_elem_of_fmap. exists x.
  split; [by rewrite bool_decide_eq_true_2|done].
Qed.

(** ** Closing a log *)

Lemma filter_split l1 e l2 :
  e_id e ∉ (e_id <$> l1) -> e_id e ∉ (e_id <$> l2) ->
  List.filter (fun x => negb (bool_decide (e_id x = e_id e))) (l1 ++ e :: l2) = l1 ++ l2.
Proof.
  intros H1 H2.
  assert (Hkeep : forall l, e_id e ∉ (e_id <$> l) ->
    List.filter (fun x => negb (bool_decide (e_id x = e_id e))) l = l).
  { induction l as [|x l IH]; [done|]. intros [Hne Hi]%not_elem_of_cons. simpl.
    rewrite bool_decide_eq_false_2 by done. simpl. f_equal. by apply IH. }
  rewrite List.filter_app. simpl. rewrite bool_decide_eq_true_2 by done. simpl. by rewrite !Hkeep.
Qed.

Lemma unlink_spec l e (s : vstate) :
  logs_ok s l -> e ∈ l ->
  wp (unlink_log (e_id e) false)
    (fun _ s' => logs_ok (set_blocks (<[e_id e := None]> (blocks s')) s')
                   (List.filter (fun x => negb (bool_decide (e_id x = e_id e))) l) /\
                 blocks s' !! e_id e = blocks s !! e_id e /\ same_rest s s') s.
Proof.
  intros ([prev' Hseg] & Hids & Hnames) He. destruct (split_ids l e He Hids) as (l1 & l2 & -> & H1 & H2).
  rewrite filter_split by done.
  destruct (seg_middle _ _ _ _ _ _ _ _ Hseg) as (pm & b & Hs1 & Hb & Hw & Hpm & Hs2).
  rewrite fmap_app, fmap_cons in Hids. pose proof Hids as (Hn1 & Hn12 & [_ Hn2]%NoDup_cons)%NoDup_app.
  apply wp_the_pair with (b := b); [done|]. cbn [log_of]. cbv zeta. rewrite Hpm. apply wp_bind.
  eapply wp_mono; [by apply (store_link_spec l1 pm (Some (e_id e)))|].
  intros [] s1 (Hs1' & Hr1 & Hk1). eapply wp_mono.
  { apply (relink_spec l2 (LNext (e_id e)) (pNext (log0 b)) prev' pm s1); [|done].
    apply (seg_agree (blocks s)); [|exact Hs2]. intros k Hk. apply Hk1. intros Hin. eapply Hn12; [exact Hin|].
    apply elem_of_cons. by right. }
  intros [] s2 ([p' Hs2'] & Hall & Hr2 & Hk2). split; [|split].
  - split; [|split].
    + exists p'. cbn [blocks allLogs set_blocks]. apply seg_app. exists pm, (pNext (log0 b)). rewrite Hall. split.
      * apply seg_frame; [done|]. apply (seg_agree (blocks s1)); [|exact Hs1']. intros k Hk. apply Hk2.
        intros Hin. eapply Hn12; [exact Hk|]. apply elem_of_cons. by right.
      * by apply seg_frame.
    + rewrite fmap_app. apply NoDup_app. split; [done|]. split; [|done]. intros k Hk Hin.
      eapply Hn12; [exact Hk|]. apply elem_of_cons. by right.
    + rewrite fmap_app, fmap_cons in Hnames. apply NoDup_app in Hnames as (Hm1 & Hm12 & [_ Hm2]%NoDup_cons).
      rewrite fmap_app. apply NoDup_app. split; [done|]. split; [|done]. intros k Hk Hin.
      eapply Hm12; [exact Hk|]. apply elem_of_cons. by right.
  - by rewrite Hk2, Hk1.
  - destruct Hr1 as (?&?&?&?&?), Hr2 as (?&?&?&?&?). repeat split; congruence.
Qed.

(** What closing leaves in the gzip file. *)
Lemma log_close_spec l e j (s : vstate) :
  logs_ok s l -> e ∈ l -> - 2 ^ 31 < refs j e < 2 ^ 31 ->
  wp (vlogLogClose (Some (e_id e, j))) (fun _ s' =>
    logs_ok s' (reg_close e j l) /\ world s' = world s /\ ioVersion s' = ioVersion s /\ tmpDisk s' = tmpDisk s /\
    (negb j && (e_main e <=? 1) = true -> forall b, blocks s' !! e_id e <> Some (Some b)) /\
    exists b, blocks s !! e_id e = Some (Some b) /\
      gzDisk s' = if negb j && (e_main e <=? 1)
                  then <[gz_file (e_name e) := default [] (gzDisk s !! gz_file (e_name e)) ++ gzPending b]> (gzDisk s)
                  else gzDisk s) s.
Proof.
  intros Hok He Hr. destruct (logs_ok_block s l e Hok He) as (b & Hb & Hw).
  pose proof Hw as [[_ Hz] _ H3 H4 (_ & Hz1 & _) [_ Hgz]]. simpl. apply wp_the_pair with (b := b); [done|].
  assert (Hrefs : nRef (log_of b j) = refs j e) by (by destruct j).
  eapply wp_bind_lift_res; [apply chk_int_ok; lia|].
  apply wp_bind.
  eapply wp_mono.
  { apply wp_upd_log1 with (b := b) (Q := fun _ s' => logs_ok s' (replaced (bump j (-1) e) l) /\ same_rest s s' /\
      exists b', blocks s' !! e_id e = Some (Some b') /\ gzPending b' = gzPending b /\ gzName b' = gzName b); [done|].
    destruct (bump_id j (-1) e) as [Hi Hna]. split; [|split; [done|]].
    - apply (logs_ok_update s l e (bump j (-1) e) b); try done; [|by destruct j..].
      apply wf_bump; [done|simpl; lia|done|done|done].
    - cbn [blocks set_blocks]. rewrite list_lookup_insert_eq by (by eapply lookup_lt_Some).
      eexists. split; [done|]. by destruct j. }
  intros [] s1 (Hok1 & (R1 & R2 & R3 & R4 & R5) & b' & Hb' & Hp' & Hg').
  assert (Hcond : (0 <? nRef (log_of b j) - 1) || bool_decide (zFilename (log_of b j) = None)
                  = negb (negb j && (e_main e <=? 1))).
  { rewrite Hrefs. destruct j; simpl.
    - rewrite Hz1. by rewrite orb_true_r.
    - rewrite Hz, orb_false_r. lia. }
  rewrite Hcond. unfold reg_close. destruct (negb j && (e_main e <=? 1)) eqn:Ec; simpl.
  2: { apply wp_ret. split; [done|]. split; [done|]. split; [done|]. split; [done|]. split; [done|]. exists b. by split. }
  destruct j; [done|].
  assert (He1 : bump false (-1) e ∈ replaced (bump false (-1) e) l).
  { apply elem_of_replaced. apply list_elem_of_fmap. by exists e. }
  apply wp_bind. eapply wp_mono; [apply (unlink_spec _ _ s1 Hok1 He1)|].
  intros [] s2 (Hok2 & Hb2 & (Q1 & Q2 & Q3 & Q4 & Q5)). simpl in Hb2, Hok2.
  apply wp_the_pair with (b := b'); [by rewrite Hb2|]. apply wp_bind_modify, wp_modify.
  split; [|cbn; split; [congruence|split; [congruence|split; [congruence|split]]]].
  - eapply logs_ok_ext; [| |].
    3: { replace (List.filter (fun x => negb (bool_decide (e_id x = e_id e))) l)
           with (List.filter (fun x => negb (bool_decide (e_id x = e_id e))) (replaced (bump false (-1) e) l)); [exact Hok2|].
         pose proof Hok as (_ & Hids & _). destruct (split_ids l e He Hids) as (l1 & l2 & -> & H1 & H2).
         rewrite (replaced_split (bump false (-1) e) l1 l2 e) by done.
         pose proof (filter_split l1 (bump false (-1) e) l2 H1 H2) as Hf.
         change (e_id (bump false (-1) e)) with (e_id e) in Hf. by rewrite Hf, filter_split. }
    + done.
    + done.
  - intros _ b0. rewrite list_lookup_insert_eq; [done|]. rewrite <- Hb2 in Hb'. by eapply lookup_lt_Some.
  - exists b. split; [done|]. rewrite Hg', Hp', Hgz, Q5, R5. done.
Qed.

(** ** Opening a log *)

Lemma shown_name name suffix : zlen suffix <= 58 -> shown (length name + 60) (name ++ suffix) = name ++ suffix.
Proof. intros Hs. unfold shown. apply take_ge. rewrite length_app. unfold zlen in Hs. lia. Qed.

Definition can_make (name : list Z) : bool := fopen_ok (tmp_file name) && gzopen_ok (gz_file name) && mutex_ok.

(** What is in a log file before it is opened, if it exists. *)
Definition contents (m : gmap (list Z) (list Z)) (n : list Z) : list Z := default [] (m !! n).

Lemma contents_touch m n k : contents (<[n := contents m n]> m) k = contents m k.
Proof.
  unfold contents. destruct (decide (n = k)) as [->|Hne]; [by rewrite lookup_insert_eq|by rewrite lookup_insert_ne].
Qed.

(** No contents are changed. *)
Definition same_files (s s' : vstate) : Prop :=
  (forall k, contents (tmpDisk s') k = contents (tmpDisk s) k) /\ (forall k, contents (gzDisk s') k = contents (gzDisk s) k).

Lemma new_log_spec l name (s : vstate) :
  logs_ok s l -> name ∉ (e_name <$> l) ->
  wp (new_log name) (fun r s' =>
    world s' = world s /\ ioVersion s' = ioVersion s /\ ticks s' = ticks s /\ same_files s s' /\
    if can_make name then
      r = Some (length (blocks s)) /\ logs_ok s' (Entry (length (blocks s)) name 0 0 :: l) /\
      exists b, blocks s' !! length (blocks s) = Some (Some b) /\ gzPending b = []
    else r = None /\ logs_ok s' l) s.
Proof.
  intros Hok Hnew. unfold new_log. cbv zeta.
  rewrite !shown_name by (vm_compute; discriminate). fold (gz_file name) (tmp_file name).
  assert (H1 : wp (if fopen_ok (tmp_file name) then modify (fun s => set_tmpDisk (<[tmp_file name := default [] (tmpDisk s !! tmp_file name)]> (tmpDisk s)) s) else ret tt)
    (fun _ s' => blocks s' = blocks s /\ allLogs s' = allLogs s /\ world s' = world s /\ ioVersion s' = ioVersion s /\
                 ticks s' = ticks s /\ same_files s s') s).
  { destruct (fopen_ok _); [apply wp_modify|by apply wp_ret]. repeat (split; [done|]).
    split; [intros k; apply (contents_touch (tmpDisk s))|done]. }
  apply wp_bind. eapply wp_mono; [exact H1|]. intros [] s1 (B1 & A1 & W1 & V1 & T1 & F1 & G1).
  assert (H2 : wp (if gzopen_ok (gz_file name) then modify (fun s => set_gzDisk (<[gz_file name := default [] (gzDisk s !! gz_file name)]> (gzDisk s)) s) else ret tt)
    (fun _ s' => blocks s' = blocks s /\ allLogs s' = allLogs s /\ world s' = world s /\ ioVersion s' = ioVersion s /\
                 ticks s' = ticks s /\ same_files s s') s1).
  { destruct (gzopen_ok _); [apply wp_modify|apply wp_ret]; cbn; do 5 (split; [congruence|]); [|by split].
    split; [exact F1|]. intros k. etransitivity; [apply (contents_touch (gzDisk s1))|apply G1]. }
  apply wp_bind. eapply wp_mono; [exact H2|]. intros [] s2 (B2 & A2 & W2 & V2 & T2 & F2).
  assert (Hc : negb (fopen_ok (tmp_file name)) || negb (gzopen_ok (gz_file name)) || negb mutex_ok = negb (can_make name)).
  { unfold can_make. by destruct (fopen_ok _), (gzopen_ok _), mutex_ok. }
  rewrite Hc. destruct (can_make name); simpl.
  2: { apply wp_ret. repeat (split; [done|]). eapply logs_ok_ext; [exact B2|exact A2|exact Hok]. }
  apply wp_bind_gets, wp_bind_gets. rewrite A2, B2. apply wp_bind_modify. cbn [blocks set_blocks].
  destruct Hok as ([prev' Hseg] & Hids & Hnames).
  set (i := length (blocks s)). set (b := Pair _ _ _ _ _).
  assert (Hi : i ∉ (e_id <$> l)).
  { intros (e & Hie & He)%list_elem_of_fmap. pose proof (seg_bound _ _ _ _ _ _ e Hseg He). lia. }
  assert (Hbi : (blocks s ++ [Some b]) !! i = Some (Some b)).
  { rewrite lookup_app_r by done. by rewrite Nat.sub_diag. }
  apply wp_bind. eapply wp_mono.
  { apply (relink_spec l LAllLogs (allLogs s) prev' (LNext i)); [|exact Hids]. cbn [blocks set_blocks].
    rewrite B2. by apply seg_extend. }
  intros [] s3 ([p' Hs3] & A3 & (W3 & V3 & T3 & D3 & E3) & K3). cbn [blocks set_blocks world ioVersion ticks tmpDisk gzDisk] in *.
  rewrite B2 in K3.
  apply wp_bind_modify, wp_ret. cbn [world ioVersion ticks set_allLogs tmpDisk gzDisk blocks].
  split; [congruence|]. split; [congruence|]. split; [congruence|].
  split; [unfold same_files; cbn; by rewrite D3, E3|]. split; [done|].
  split; [|exists b; by rewrite K3].
  split; [|split; [by constructor|by constructor]].
  exists p'. cbn [blocks allLogs set_allLogs]. split; [done|]. exists b. split; [by rewrite K3|]. split; [by split|done].
Qed.

Definition has_name (name : list Z) (l : list entry) : bool :=
  match find_name name l with Some _ => true | None => false end.

(** Whether a file gets a log. *)
Definition gets_log (z : list Z) (l : list entry) : bool :=
  match log_name z with
  | None => false
  | Some (name, _) =>
    vlog_malloc_ok (sizeof_VLogLog * 2 + zlen name + 60) && (has_name name l || can_make name)
  end.

(** Room for one more reference. *)
Definition refs_room (l : list entry) : Prop :=
  Forall (fun e => - 2 ^ 31 < e_main e < 2 ^ 31 - 1 /\ - 2 ^ 31 < e_journal e < 2 ^ 31 - 1) l.

Lemma seg_length bs l : forall prev at_ prev' at',
  seg bs prev at_ l prev' at' -> NoDup (e_id <$> l) -> (length l <= length bs)%nat.
Proof.
  intros prev at_ prev' at' Hseg Hnd. rewrite <- (length_fmap e_id), <- (length_seq (length bs) 0).
  apply submseteq_length, NoDup_submseteq; [done|]. intros k (e & -> & He)%list_elem_of_fmap.
  apply list_elem_of_In, in_seq. pose proof (seg_bound _ _ _ _ _ _ e Hseg He). lia.
Qed.

(** The last steps of opening: a reference more, and no offsets yet. *)
Lemma count_open_spec l e j (s : vstate) :
  logs_ok s l -> e ∈ l -> - 2 ^ 31 < refs j e < 2 ^ 31 - 1 ->
  wp (let! b := the_pair (e_id e) in
      let! n := lift_res (chk_int (nRef (log_of b j) + 1)) in
      upd_log (e_id e, j) (set_nRef n) ;;;
      upd_log (e_id e, j) (set_lastReadOfs (-1)) ;;;
      upd_log (e_id e, j) (set_lastWriteOfs (-1)) ;;;
      ret (Some (e_id e, j)))
    (fun r s' => r = Some (e_id e, j) /\ logs_ok s' (replaced (bump j 1 e) l) /\ same_rest s s' /\ same_pending s s') s.
Proof.
  intros Hok He Hr. destruct (logs_ok_block s l e Hok He) as (b & Hb & Hw).
  apply wp_the_pair with (b := b); [done|].
  assert (Hn : nRef (log_of b j) = refs j e) by (destruct Hw as [_ _ H3 H4 _ _]; by destruct j).
  eapply wp_bind_lift_res; [apply chk_int_ok; lia|]. rewrite Hn.
  destruct (bump_id j 1 e) as [Hi Hna].
  assert (Hin : e_id e ∈ (e_id <$> l)) by (apply list_elem_of_fmap; by exists e).
  assert (He1 : bump j 1 e ∈ replaced (bump j 1 e) l) by (apply elem_of_replaced; by rewrite Hi).
  apply wp_bind. eapply wp_mono.
  { apply (upd_log_spec l e j 1 (set_nRef (refs j e + 1)) s Hok He); [|by intros x].
    intros x. destruct (decide (nRef x = refs j e)); [left; simpl; lia|by right]. }
  assert (Hsame : forall f (s1 : vstate), logs_ok s1 (replaced (bump j 1 e) l) ->
    (forall x, nRef (f x) = nRef x /\ nFilename (f x) = nFilename x /\ zFilename (f x) = zFilename x /\
               log_flags (f x) = log_flags x /\ pNext (f x) = pNext x /\ ppPrev (f x) = ppPrev x) ->
    wp (upd_log (e_id e, j) f) (fun _ s2 => logs_ok s2 (replaced (bump j 1 e) l) /\ same_rest s1 s2 /\ same_pending s1 s2) s1).
  { intros f s1 Hok1 Hf. rewrite <- Hi. eapply wp_mono.
    - apply (upd_log_spec _ (bump j 1 e) j 0 f s1 Hok1 He1).
      + intros x. left. rewrite (proj1 (Hf x)). lia.
      + intros x. apply Hf.
    - intros [] s2 (H1 & _ & H2 & P2). split; [|by split]. rewrite replaced_twice in H1 by (by destruct j).
      destruct (bump j 1 e) as [a1 a2 a3 a4] eqn:Eb. destruct j; simpl in *; by rewrite Z.add_0_r in H1. }
  intros [] s1 (H1 & _ & R1 & P1). apply wp_bind. eapply wp_mono; [by apply Hsame|]. intros [] s2 (H2 & R2 & P2).
  apply wp_bind. eapply wp_mono; [by apply Hsame|]. intros [] s3 (H3 & R3 & P3). apply wp_ret. split; [done|]. split; [done|].
  split; [destruct R1 as (?&?&?&?&?), R2 as (?&?&?&?&?), R3 as (?&?&?&?&?); repeat split; congruence|].
  intros k. by rewrite P3, P2, P1.
Qed.

Lemma log_open_spec l z (s : vstate) :
  logs_ok s l -> refs_room l ->
  wp (vlogLogOpen z) (fun r s' =>
    world s' = world s /\ ioVersion s' = ioVersion s /\ ticks s' = ticks s /\ same_files s s' /\
    if gets_log z l then
      exists name i j, log_name z = Some (name, j) /\ r = Some (i, j) /\
        (has_name name l = false -> i = length (blocks s) /\ pending_at s' i = Some []) /\
        logs_ok s' (reg_open i name j l) /\
        exists e, e ∈ reg_open i name j l /\ e_id e = i /\ e_name e = name
    else r = None /\ logs_ok s' l) s.
Proof.
  intros Hok Hroom. unfold vlogLogOpen, gets_log. destruct (log_name z) as [[name j]|].
  2: { apply wp_ret. do 4 (split; [done|]). by split. }
  destruct (vlog_malloc_ok _); cbn [negb andb].
  2: { apply wp_ret. do 4 (split; [done|]). by split. }
  apply wp_bind_gets, wp_bind_gets. pose proof Hok as ([prev' Hseg] & Hids & _).
  apply wp_bind. unfold wp at 1. rewrite (find_log_spec name l _ _ _ _ _ Hseg) by (by eapply seg_length).
  unfold has_name. destruct (find_name name l) as [e|] eqn:Ef; cbn [fmap option_fmap option_map orb].
  - destruct (find_name_Some _ _ _ Ef) as [He <-]. apply wp_bind_ret.
    assert (Hr : - 2 ^ 31 < refs j e < 2 ^ 31 - 1).
    { unfold refs_room in Hroom. rewrite Forall_forall in Hroom. destruct (Hroom e He). by destruct j. }
    eapply wp_mono; [by apply (count_open_spec l e j s)|]. intros r s' (-> & Hok' & (R1 & R2 & R3 & R4 & R5) & P').
    repeat (split; [done|]). split; [split; by rewrite ?R4, ?R5|].
    exists (e_name e), (e_id e), j. split; [done|]. split; [done|]. split; [by rewrite Ef|]. unfold reg_open. rewrite Ef. split; [done|].
    exists (bump j 1 e). split; [|apply bump_id]. apply elem_of_replaced.
    rewrite (proj1 (bump_id j 1 e)). apply list_elem_of_fmap. by exists e.
  - apply wp_bind. eapply wp_mono; [apply new_log_spec; [exact Hok|by apply find_name_None]|].
    intros r s1 (W1 & V1 & T1 & F1 & Hr). destruct (can_make name).
    2: { destruct Hr as [-> Hok1]. apply wp_ret. do 4 (split; [done|]). by split. }
    destruct Hr as (-> & Hok1 & b & Hb & Hp).
    eapply wp_mono; [apply (count_open_spec _ (Entry (length (blocks s)) name 0 0) j s1 Hok1)|].
    { apply elem_of_cons. by left. }
    { destruct j; simpl; lia. }
    intros r s' (-> & Hok' & (R1 & R2 & R3 & R4 & R5) & P').
    split; [congruence|]. split; [congruence|]. split; [congruence|].
    split; [unfold same_files in *; by rewrite R4, R5|].
    exists name, (length (blocks s)), j. split; [done|]. split; [done|].
    split; [intros _; split; [done|]; rewrite P'; unfold pending_at; by rewrite Hb, Hp|].
    unfold reg_open. rewrite Ef. cbn [replaced map e_id] in Hok'.
    assert (Hne : length (blocks s) ∉ (e_id <$> l)).
    { intros (e & Hie & He)%list_elem_of_fmap. pose proof (seg_bound _ _ _ _ _ _ e Hseg He). lia. }
    assert (Hrep : replaced (bump j 1 (Entry (length (blocks s)) name 0 0)) l = l)
      by (apply replaced_other; by destruct j).
    unfold replaced in Hok'. simpl map in Hok'. fold (replaced (bump j 1 (Entry (length (blocks s)) name 0 0)) l) in Hok'.
    rewrite Hrep, bool_decide_eq_true_2 in Hok' by (by destruct j). split; [done|].
    exists (bump j 1 (Entry (length (blocks s)) name 0 0)). split; [apply elem_of_cons; by left|by destruct j].
Qed.
End logs.
