(* ===== verification/VfslogProps.v ===== *)
(** * The logging VFS: theorems

    The methods of a file against those of the VFS below, the registry of logs against a list
    of entries, the log files, and what goes wrong. *)

From stdpp Require Import gmap.
From S2P Require Import Prelude CLib Vfslog VfslogFacts.

Section methods.
Context `{Re : RealVfs} `{En : LogEnv}.

(** ** The methods of a file, as one operation *)

Inductive file_op :=
| OpRead (iAmt iOfst : Z)
| OpWrite (z : list Z) (iOfst : Z)
| OpTruncate (size : Z)
| OpSync (flags : Z)
| OpFileSize
| OpLock (eLock : Z)
| OpUnlock (eLock : Z)
| OpCheckReservedLock
| OpFileControl (op : Z) (pArg : fcntl_arg)
| OpSectorSize
| OpDeviceCharacteristics
| OpShmMap (iRegion szRegion bExtend : Z)
| OpShmLock (offset n flags : Z)
| OpShmBarrier
| OpShmUnmap (deleteFlag : Z)
| OpFetch (iOff nAmt : Z)
| OpUnfetch (iOff : Z) (pp : option Z).

Inductive answer :=
| AUnit
| AInt (rc : Z)
| AInts (a : Z * Z)
| ABytes (a : Z * list Z)
| AArg (a : Z * fcntl_arg)
| APtr (a : Z * option Z).

Definition answered {A} (f : A -> answer) (c : cm vstate A) : cm vstate answer := let! a := c in ret (f a).

(** The wrapper. *)
Definition vlog_op (p : VLogFile) (o : file_op) : cm vstate answer :=
  match o with
  | OpRead n ofs => answered ABytes (vlogRead p n ofs)
  | OpWrite z ofs => answered AInt (vlogWrite p z ofs)
  | OpTruncate n => answered AInt (vlogTruncate p n)
  | OpSync f => answered AInt (vlogSync p f)
  | OpFileSize => answered AInts (vlogFileSize p)
  | OpLock k => answered AInt (vlogLock p k)
  | OpUnlock k => answered AInt (vlogUnlock p k)
  | OpCheckReservedLock => answered AInts (vlogCheckReservedLock p)
  | OpFileControl op a => answered AArg (vlogFileControl p op a)
  | OpSectorSize => answered AInt (vlogSectorSize p)
  | OpDeviceCharacteristics => answered AInt (vlogDeviceCharacteristics p)
  | OpShmMap a b c => answered APtr (vlogShmMap p a b c)
  | OpShmLock a b c => answered AInt (vlogShmLock p a b c)
  | OpShmBarrier => answered (fun _ => AUnit) (vlogShmBarrier p)
  | OpShmUnmap f => answered AInt (vlogShmUnmap p f)
  | OpFetch a b => answered APtr (vlogFetch p a b)
  | OpUnfetch a pp => answered AInt (vlogUnfetch p a pp)
  end.

Definition first {A B} (f : A -> B) (x : A * real) : B * real := (f (fst x), snd x).

(** The VFS below. *)
Definition real_op (p : fid) (o : file_op) (w : real) : answer * real :=
  match o with
  | OpRead n ofs => first ABytes (xRead p n ofs w)
  | OpWrite z ofs => first AInt (xWrite p z ofs w)
  | OpTruncate n => first AInt (xTruncate p n w)
  | OpSync f => first AInt (xSync p f w)
  | OpFileSize => first AInts (xFileSize p w)
  | OpLock k => first AInt (xLock p k w)
  | OpUnlock k => first AInt (xUnlock p k w)
  | OpCheckReservedLock => first AInts (xCheckReservedLock p w)
  | OpFileControl op a => first AArg (xFileControl p op a w)
  | OpSectorSize => first AInt (xSectorSize p w)
  | OpDeviceCharacteristics => first AInt (xDeviceCharacteristics p w)
  | OpShmMap a b c => first APtr (xShmMap p a b c w)
  | OpShmLock a b c => first AInt (xShmLock p a b c w)
  | OpShmBarrier => (AUnit, xShmBarrier p w)
  | OpShmUnmap f => first AInt (xShmUnmap p f w)
  | OpFetch a b => first APtr (xFetch p a b w)
  | OpUnfetch a pp => first AInt (xUnfetch p a pp w)
  end.

(** The change counter can be shown when it is in the bytes: the fields are less than 2^31. *)
Definition counter_ok (z : list Z) (iOfst : Z) : Prop :=
  iOfst <= 24 -> 28 <= iOfst + zlen z -> exists r, change_counter z iOfst = Done r.

(** What the operations rely on: reading and writing have a log and are not empty, and the change counter
    in the first page can be shown; file controls the wrapper looks into have an argument of their kind,
    and are neither [VFSLOG_STAT], which is its own, nor [VFSNAME], to whose answer it adds its name. *)
Definition op_ok (p : VLogFile) (o : file_op) (w : real) : Prop :=
  match o with
  | OpRead n ofs =>
    pLog p <> None /\
    let '(rc, z, _) := xRead (pReal p) n ofs w in
    rc = SQLITE_OK -> 0 < zlen z /\ zlen z = n /\ counter_ok z ofs
  | OpWrite z ofs => pLog p <> None /\ 0 < zlen z /\ counter_ok z ofs
  | OpFileControl op a =>
    op <> SQLITE_FCNTL_VFSLOG_STAT /\ op <> SQLITE_FCNTL_VFSNAME /\
    let '(rc, a, _) := xFileControl (pReal p) op a w in
    (op = SQLITE_FCNTL_TRACE -> exists t, a = ArgText t) /\
    (op = SQLITE_FCNTL_PRAGMA -> exists x y t, a = ArgPragma (x :: y :: t)) /\
    (op = SQLITE_FCNTL_SIZE_HINT -> exists n, a = ArgSize n)
  | _ => True
  end.

(** ** Steps of the methods *)

Lemma wp_time {B} (k : Z -> cm vstate B) Q (s : vstate) :
  wp (k (u64 (vlog_clock (ticks s)))) Q (set_ticks (S (ticks s)) s) -> wp (bind vlog_time k) Q s.
Proof. done. Qed.

Lemma wp_call {A B} (f : real -> A * real) (k : A -> cm vstate B) Q (s : vstate) :
  wp (k (fst (f (world s)))) Q (set_world (snd (f (world s))) s) -> wp (bind (call f) k) Q s.
Proof. unfold wp, bind, call. by destruct (f (world s)). Qed.

Lemma timed_spec {A} l p iOp (f : real -> A * real) line (s : vstate) :
  logs_ok s l -> live l (pLog p) ->
  wp (timed p iOp f line) (fun a s' => (a, world s') = f (world s) /\ logs_ok s' l) s.
Proof.
  intros Hok Hl. unfold timed. apply wp_time, wp_call, wp_time. cbn [world set_ticks].
  destruct (f (world s)) as [a w]. cbn [fst snd]. destruct (line a) as [[[a1 a2] a3] r]. apply wp_bind.
  eapply wp_mono; [apply (log_print_spec l); [|done]|].
  - by apply (logs_ok_ext s).
  - intros [] s' (Hok' & Hw & _). apply wp_ret. by rewrite Hw.
Qed.

Lemma answered_spec {A} (g : A -> answer) (c : cm vstate A) (f : real -> A * real) l (s : vstate) :
  wp c (fun a s' => (a, world s') = f (world s) /\ logs_ok s' l) s ->
  wp (answered g c) (fun a s' => (a, world s') = first g (f (world s)) /\ logs_ok s' l) s.
Proof.
  intros H. apply wp_bind. eapply wp_mono; [exact H|]. intros a s' [Ha Hok]. apply wp_ret. by rewrite <- Ha.
Qed.

Lemma signature_ok z : 0 < zlen z -> exists sig, vlogSignature z = Done sig.
Proof.
  intros Hz. unfold vlogSignature. rewrite (proj2 (Z.leb_gt _ _)) by done.
  destruct (zlen z <=? 16); [eauto|]. destruct (sig_loop _ _ _ _). eauto.
Qed.

Lemma logs_database_spec l p (s : vstate) (Q : bool -> vstate -> Prop) :
  logs_ok s l -> live l p -> (forall b, Q b s) -> wp (logs_database p) Q s.
Proof.
  intros Hok Hl HQ. destruct p as [[i j]|]; [|apply HQ]. destruct Hl as (e & He & <-).
  destruct (logs_ok_block s l e Hok He) as (b & Hb & _). simpl. apply wp_the_pair with (b := b); [done|].
  apply wp_ret, HQ.
Qed.

(** A mark in a log and a line. *)
Lemma mark_print_spec l p (f : VLogLog -> VLogLog) tStart tElapse op a1 a2 a3 r (s : vstate) :
  logs_ok s l -> live l p -> p <> None ->
  (forall x, nRef (f x) = nRef x /\ nFilename (f x) = nFilename x /\ zFilename (f x) = zFilename x /\
             log_flags (f x) = log_flags x /\ pNext (f x) = pNext x /\ ppPrev (f x) = ppPrev x) ->
  wp (let! q := the_log p in upd_log q f ;;; vlogLogPrint p tStart tElapse op a1 a2 a3 r)
    (fun _ s' => logs_ok s' l /\ world s' = world s) s.
Proof.
  intros Hok Hl Hne Hf. destruct p as [[i j]|]; [|done]. destruct Hl as (e & He & <-). cbn [the_log].
  apply wp_bind_ret, wp_bind. eapply wp_mono.
  { apply (upd_log_spec l e j 0 f s Hok He); [|intros x; apply Hf]. intros x. left. rewrite (proj1 (Hf x)). lia. }
  intros [] s1 (Hok1 & _ & (W1 & _) & _). pose proof Hok as (_ & Hids & _).
  assert (Hb : bump j 0 e = e) by (destruct e; destruct j; simpl; by rewrite Z.add_0_r).
  rewrite Hb, replaced_same in Hok1 by done.
  eapply wp_mono; [apply (log_print_spec l); [exact Hok1|by exists e]|].
  intros [] s2 (Hok2 & W2 & _). split; [done|]. congruence.
Qed.

(** The line of a read or a write. *)
Lemma data_line_spec l p (f : VLogLog -> VLogLog) z rc iOfst n (sig : res (list Z)) tStart e1 e2 op1 op2 (s : vstate) :
  logs_ok s l -> live l p -> p <> None -> zlen z = n \/ rc <> SQLITE_OK ->
  (rc = SQLITE_OK -> counter_ok z iOfst) -> (exists t, sig = Done t) ->
  (forall x, nRef (f x) = nRef x /\ nFilename (f x) = nFilename x /\ zFilename (f x) = zFilename x /\
             log_flags (f x) = log_flags x /\ pNext (f x) = pNext x /\ ppPrev (f x) = ppPrev x) ->
  wp (let! db := (if rc =? SQLITE_OK then logs_database p else ret false) in
      if db && (iOfst <=? 24) && (28 <=? iOfst + n) then
        let! (iCtr, nFree, zFree) := lift_res (change_counter z iOfst) in
        vlogLogPrint p tStart e1 op1 iCtr nFree zFree 0
      else
        let! zSig := lift_res sig in
        let! q := the_log p in
        upd_log q f ;;; vlogLogPrint p tStart e2 op2 n iOfst (Some zSig) rc)
    (fun _ s' => logs_ok s' l /\ world s' = world s) s.
Proof.
  intros Hok Hl Hne Hlen Hc [t ->] Hf. apply wp_bind.
  assert (Hdb : wp (if rc =? SQLITE_OK then logs_database p else ret false)
                  (fun b s' => s' = s /\ (b = true -> rc = SQLITE_OK)) s).
  { destruct (rc =? SQLITE_OK) eqn:E; [|by apply wp_ret]. apply (logs_database_spec l); [done|done|].
    intros b. split; [done|]. intros _. lia. }
  eapply wp_mono; [exact Hdb|]. intros b s' [-> Hb].
  destruct (b && (iOfst <=? 24) && (28 <=? iOfst + n)) eqn:E.
  - assert (Hrc : rc = SQLITE_OK) by (apply Hb; by destruct b). destruct Hlen as [Hlen|]; [|done].
    destruct (Hc Hrc ltac:(lia) ltac:(lia)) as [[[iCtr nFree] zFree] Hcc].
    eapply wp_bind_lift_res; [exact Hcc|]. cbv beta iota.
    eapply wp_mono; [by apply (log_print_spec l)|]. intros [] s' (H1 & H2 & _). by split.
  - eapply wp_bind_lift_res; [reflexivity|]. by apply mark_print_spec.
Qed.

Lemma vlog_read_spec l p n ofs (s : vstate) :
  logs_ok s l -> live l (pLog p) -> op_ok p (OpRead n ofs) (world s) ->
  wp (vlogRead p n ofs) (fun a s' => (a, world s') = xRead (pReal p) n ofs (world s) /\ logs_ok s' l) s.
Proof.
  intros Hok Hl Hop. cbn [op_ok] in Hop. destruct Hop as [Hne Hop]. unfold vlogRead.
  apply wp_time, wp_call. cbn [world set_ticks].
  destruct (xRead (pReal p) n ofs (world s)) as [[rc z] w]. cbn [fst snd]. apply wp_time. cbv zeta.
  apply wp_bind_assoc, wp_bind. eapply wp_mono.
  - apply (data_line_spec l); [by apply (logs_ok_ext s)|done|done| | | |done].
    + destruct (decide (rc = SQLITE_OK)); [left; by apply Hop|by right].
    + intros Hrc. by apply Hop.
    + destruct (rc =? SQLITE_OK) eqn:E; [|by eexists]. apply signature_ok, Hop. lia.
  - intros [] s2 [Hok2 Hw]. apply wp_ret. by rewrite Hw.
Qed.

Lemma vlog_write_spec l p z ofs (s : vstate) :
  logs_ok s l -> live l (pLog p) -> op_ok p (OpWrite z ofs) (world s) ->
  wp (vlogWrite p z ofs) (fun a s' => (a, world s') = xWrite (pReal p) z ofs (world s) /\ logs_ok s' l) s.
Proof.
  intros Hok Hl (Hne & Hz & Hco). unfold vlogWrite. apply wp_time, wp_call. cbn [world set_ticks].
  destruct (xWrite (pReal p) z ofs (world s)) as [rc w]. cbn [fst snd]. apply wp_time. cbv zeta.
  apply wp_bind_assoc, wp_bind. eapply wp_mono.
  - apply (data_line_spec l); [by apply (logs_ok_ext s)|done|done|by left|done|by apply signature_ok|done].
  - intros [] s2 [Hok2 Hw]. apply wp_ret. by rewrite Hw.
Qed.

Lemma unlock_spec l p k (s : vstate) :
  logs_ok s l -> live l (pLog p) ->
  wp (vlogUnlock p k) (fun a s' => (a, world s') = xUnlock (pReal p) k (world s) /\ logs_ok s' l) s.
Proof.
  intros Hok Hl. unfold vlogUnlock. apply wp_time, wp_bind.
  eapply wp_mono; [apply (log_print_spec l); [by apply (logs_ok_ext s)|done]|].
  intros [] s1 (Hok1 & W1 & _). cbn [world set_ticks] in W1. unfold wp, call. rewrite W1.
  destruct (xUnlock (pReal p) k (world s)) as [rc w]. split; [done|]. by apply (logs_ok_ext s1).
Qed.

Lemma file_control_spec l p op arg (s : vstate) :
  logs_ok s l -> live l (pLog p) -> op_ok p (OpFileControl op arg) (world s) ->
  wp (vlogFileControl p op arg) (fun a s' => (a, world s') = xFileControl (pReal p) op arg (world s) /\ logs_ok s' l) s.
Proof.
  intros Hok Hl Hop. cbn [op_ok] in Hop. destruct Hop as (Hst & Hvn & Hop). unfold vlogFileControl.
  rewrite (proj2 (Z.eqb_neq _ _) Hst). apply wp_time, wp_call. cbn [world set_ticks].
  destruct (xFileControl (pReal p) op arg (world s)) as [[rc a] w]. cbn [fst snd].
  rewrite (proj2 (Z.eqb_neq _ _) Hvn). cbn [andb]. eapply wp_bind_lift_res; [reflexivity|]. apply wp_time. cbv zeta.
  destruct Hop as (Ht & Hp & Hn).
  assert (Hfin : forall a2 a3 (s1 : vstate) tE, logs_ok s1 l -> world s1 = w ->
    wp (vlogLogPrint (pLog p) (u64 (vlog_clock (ticks s))) tE VLOG_OP_FILECONTROL op a2 a3 rc)
      (fun _ s' => logs_ok s' l /\ world s' = w) s1).
  { intros a2 a3 s1 tE H1 H2. eapply wp_mono; [by apply (log_print_spec l)|]. intros [] s2 (? & ? & _). split; [done|congruence]. }
  apply wp_bind, wp_mono with (P := fun _ s' => logs_ok s' l /\ world s' = w);
    [|intros [] s2 [H1 H2]; apply wp_ret; by rewrite H2].
  assert (Hok1 : logs_ok (set_ticks (S (S (ticks s))) (set_world w (set_ticks (S (ticks s)) s))) l)
    by (by apply (logs_ok_ext s)).
  destruct (op =? SQLITE_FCNTL_TRACE) eqn:E1.
  { destruct (Ht ltac:(lia)) as [t ->]. eapply wp_bind_lift_res; [reflexivity|]. by apply Hfin. }
  destruct (op =? SQLITE_FCNTL_PRAGMA) eqn:E2.
  { destruct (Hp ltac:(lia)) as (x & y & t & ->). eapply wp_bind_lift_res; [reflexivity|]. by apply Hfin. }
  destruct (op =? SQLITE_FCNTL_SIZE_HINT) eqn:E3.
  { destruct (Hn ltac:(lia)) as [n ->]. eapply wp_bind_lift_res; [reflexivity|]. by apply Hfin. }
  by apply Hfin.
Qed.

(** C29: the logging VFS is transparent: with the logs in order, each of the seventeen methods of a file
    gives the answer and leaves the files below in the state that the method of the VFS below
    gives and leaves, and the registry of logs stays as it was.  Left out ([op_ok]) are the two file
    controls the wrapper answers itself or changes, [SQLITE_FCNTL_VFSLOG_STAT] and
    [SQLITE_FCNTL_VFSNAME]; reads and writes of no bytes, reads that return another number of
    bytes than was asked for, or on a file without a log; and reads and writes
    of the first page in which one of the fields that are shown with the change counter is 2^31 or
    more, which the code computes as signed numbers.  The arguments of traces, pragmas and size
    hints are of the kind SQLite documents. *)
Theorem vlog_transparent l p o (s : vstate) :
  logs_ok s l -> live l (pLog p) -> op_ok p o (world s) ->
  match vlog_op p o s with
  | Done (a, s') => (a, world s') = real_op (pReal p) o (world s) /\ logs_ok s' l
  | Stuck _ => False
  end.
Proof.
  intros Hok Hl Hop. change (wp (vlog_op p o) (fun a s' => (a, world s') = real_op (pReal p) o (world s) /\ logs_ok s' l) s).
  destruct o; try (apply answered_spec; first [by apply timed_spec | by apply vlog_read_spec | by apply vlog_write_spec
    | by apply unlock_spec | by apply file_control_spec]).
  unfold wp, vlog_op, answered, bind, vlogShmBarrier, call. split; [done|]. by apply (logs_ok_ext s).
Qed.

(** ** The registry *)

Inductive log_call := CallOpen (zFilename : list Z) | CallClose (p : logptr).

Definition do_call (c : log_call) : cm vstate (option logptr) :=
  match c with
  | CallOpen z => vlogLogOpen z
  | CallClose p => vlogLogClose (Some p) ;;; ret None
  end.

(** What a call does to the registry, and the log it gives. *)
Inductive reg_step (l : list entry) : log_call -> option logptr -> list entry -> Prop :=
| step_none z : gets_log z l = false -> reg_step l (CallOpen z) None l
| step_open z name j i : gets_log z l = true -> log_name z = Some (name, j) ->
    (forall e, find_name name l = Some e -> i = e_id e) -> (find_name name l = None -> i ∉ (e_id <$> l)) ->
    reg_step l (CallOpen z) (Some (i, j)) (reg_open i name j l)
| step_close e j : e ∈ l -> 0 < refs j e -> reg_step l (CallClose (e_id e, j)) None (reg_close e j l).

(** A log may be closed as often as it was opened. *)
Definition call_ok (l : list entry) (c : log_call) : Prop :=
  match c with
  | CallOpen _ => True
  | CallClose (i, j) => exists e, e ∈ l /\ e_id e = i /\ 0 < refs j e
  end.

Lemma inj_names l e1 e2 : NoDup (e_name <$> l) -> e1 ∈ l -> e2 ∈ l -> e_name e1 = e_name e2 -> e1 = e2.
Proof.
  induction l as [|x l IH]; [by intros _ ?%elem_of_nil|]. intros [Hx Hnd]%NoDup_cons H1 H2 Heq.
  apply elem_of_cons in H1 as [->|H1]; apply elem_of_cons in H2 as [->|H2]; [done| | |by apply IH].
  - destruct Hx. rewrite Heq. apply list_elem_of_fmap. by exists e2.
  - destruct Hx. rewrite <- Heq. apply list_elem_of_fmap. by exists e1.
Qed.

(** C30: the doubly linked list of logs with its counters implements a registry: every call to open a
    log or to close one that is open ends and does one step of the registry, in which a
    database has at most one entry, shared by its journal and its write-ahead log, that
    exists from the first opening until the database itself is closed for the last time. *)
Theorem log_registry_refines l c (s : vstate) :
  logs_ok s l -> refs_room l -> call_ok l c ->
  match do_call c s with
  | Done (r, s') => exists l', reg_step l c r l' /\ logs_ok s' l' /\ world s' = world s
  | Stuck _ => False
  end.
Proof.
  intros Hok Hroom Hc. change (wp (do_call c) (fun r s' => exists l', reg_step l c r l' /\ logs_ok s' l' /\ world s' = world s) s).
  destruct c as [z|[i j]]; simpl.
  - eapply wp_mono; [by apply log_open_spec|]. intros r s' (Hw & _ & _ & _ & Hr).
    destruct (gets_log z l) eqn:Eg.
    + destruct Hr as (name & i & j & Hn & -> & Hnew & Hok' & e & He & Hid & Hname).
      exists (reg_open i name j l). split; [|done]. apply step_open; [done|done| |].
      * intros e' Hf. unfold reg_open in He. rewrite Hf in He. destruct (find_name_Some _ _ _ Hf) as [He' Hn'].
        pose proof Hok as (_ & _ & Hnames).
        assert (Hin : e_name e ∈ (e_name <$> replaced (bump j 1 e') l)) by (apply list_elem_of_fmap; by exists e).
        apply list_elem_of_fmap in He as (x & -> & Hx).
        destruct (bool_decide (e_id x = e_id (bump j 1 e'))) eqn:Ex.
        -- rewrite <- Hid. apply bump_id.
        -- apply bool_decide_eq_false in Ex. destruct (bump_id j 1 e') as [Hb1 _].
           assert (x = e') as ->; [|congruence].
           apply (inj_names l); [done|done|done|congruence].
      * intros Hf. unfold has_name in Hnew. rewrite Hf in Hnew. destruct (Hnew eq_refl) as [-> _].
        pose proof Hok as ([p' Hseg] & _). intros (e' & Hie & He')%list_elem_of_fmap.
        pose proof (seg_bound _ _ _ _ _ _ e' Hseg He'). lia.
    + destruct Hr as [-> Hok']. exists l. split; [by constructor|done].
  - destruct Hc as (e & He & <- & Hr). apply wp_bind.
    assert (Hb : - 2 ^ 31 < refs j e < 2 ^ 31).
    { unfold refs_room in Hroom. rewrite Forall_forall in Hroom. destruct (Hroom e He). destruct j; simpl in *; lia. }
    eapply wp_mono; [by apply log_close_spec|]. intros [] s' (Hok' & Hw & _). apply wp_ret.
    exists (reg_close e j l). split; [by constructor|done].
Qed.

(** ** The log files *)

Record line_args := Line {
  la_start : Z; la_elapse : Z; la_op : VLogOp; la_1 : Z; la_2 : Z; la_3 : option (list Z); la_res : Z
}.

Definition print_line (p : option logptr) (a : line_args) : cm vstate unit :=
  vlogLogPrint p (la_start a) (la_elapse a) (la_op a) (la_1 a) (la_2 a) (la_3 a) (la_res a).

Fixpoint print_lines (p : option logptr) (ls : list line_args) : cm vstate unit :=
  match ls with [] => ret tt | a :: ls => print_line p a ;;; print_lines p ls end.

(** The text of a line of the database, nothing for a call that is not logged. *)
Definition line_text (a : line_args) : list Z :=
  if Z.land vlogDefaultLogFlags (op_bit (la_op a)) =? 0 then []
  else match zread VLOG_OPNAME (op_number (la_op a)) with
       | Done name => log_line (la_start a) (la_elapse a) name false (la_1 a) (la_2 a) (la_3 a) (la_res a)
       | Stuck _ => []
       end.

(** The text [t] written since the gzip file held [g0] is in the two files: a part that is flushed,
    and a rest at the end of the plain file, behind [c0] or whatever was there. *)
Definition kept (s : vstate) (e : entry) (g0 t : list Z) : Prop :=
  exists flushed pending c0, t = flushed ++ pending /\ pending_at s (e_id e) = Some pending /\
    contents (gzDisk s) (gz_file (e_name e)) = g0 ++ flushed /\
    contents (tmpDisk s) (tmp_file (e_name e)) = c0 ++ pending.

Lemma print_line_spec l e a g0 t (s : vstate) :
  logs_ok s l -> e ∈ l -> kept s e g0 t ->
  wp (print_line (Some (e_id e, false)) a) (fun _ s' => logs_ok s' l /\ kept s' e g0 (t ++ line_text a)) s.
Proof.
  intros Hok He (fl & pe & c0 & -> & Hp & Hg & Ht). unfold print_line, line_text.
  destruct (logs_ok_block s l e Hok He) as (b & Hb & Hw). pose proof Hw as [[_ Hz] Hfl _ _ _ [Htn Hgn]]. simpl.
  apply wp_the_pair with (b := b); [done|]. cbv zeta. cbn [log_of]. rewrite Hfl.
  destruct (Z.land vlogDefaultLogFlags (op_bit (la_op a)) =? 0).
  { apply wp_ret. split; [done|]. exists fl, pe, c0. by rewrite app_nil_r. }
  destruct (op_name (la_op a)) as (name & Hn & Hln). eapply wp_bind_lift_res; [exact Hn|]. rewrite Hn, Hz.
  change (bool_decide (Some (gz_file (e_name e)) = None)) with false. set (text := log_line _ _ _ _ _ _ _ _).
  eapply wp_mono; [apply log_write_spec; [done|by apply log_line_fits]|]. fold text.
  intros [] s' Hlw. split; [by eapply line_written_steady|].
  destruct Hlw as [_ _ _ (Hbl & Htm & Hgz)]. rewrite Htn, Hgn in *. unfold contents in Ht, Hg.
  unfold pending_at in Hp. rewrite Hb in Hp. injection Hp as Hp. rewrite Ht, Hg, Hp in *.
  assert (Hpe : forall x, pending_at s' (e_id e) = Some x <->
    x = if VFSLOG_GZIP_BLOCK_SIZE <=? zlen ((c0 ++ pe) ++ text) then [] else pe ++ text).
  { intros x. unfold pending_at. rewrite Hbl, list_lookup_insert_eq by (by eapply lookup_lt_Some). simpl.
    split; [by intros [= <-]|by intros ->]. }
  unfold kept, contents. rewrite Htm, Hgz. destruct (VFSLOG_GZIP_BLOCK_SIZE <=? zlen ((c0 ++ pe) ++ text)); cbn [default].
  - exists (fl ++ pe ++ text), [], []. rewrite !app_nil_r. split; [by rewrite <- app_assoc|].
    split; [by apply Hpe|]. split; [by rewrite <- app_assoc|done].
  - exists fl, (pe ++ text), c0. split; [by rewrite <- app_assoc|]. split; [by apply Hpe|]. split; [done|].
    by rewrite <- app_assoc.
Qed.

Lemma print_lines_spec l e ls : forall g0 t (s : vstate),
  logs_ok s l -> e ∈ l -> kept s e g0 t ->
  wp (print_lines (Some (e_id e, false)) ls) (fun _ s' => logs_ok s' l /\ kept s' e g0 (t ++ (ls ≫= line_text))) s.
Proof.
  induction ls as [|a ls IH]; intros g0 t s Hok He Hk; cbn [print_lines].
  - apply wp_ret. by rewrite app_nil_r.
  - apply wp_bind. eapply wp_mono; [by apply (print_line_spec l e a g0 t)|]. intros [] s1 [Hok1 Hk1].
    eapply wp_mono; [by apply (IH g0 (t ++ line_text a))|]. intros [] s2 [Hok2 Hk2]. split; [done|].
    rewrite <- app_assoc in Hk2. exact Hk2.
Qed.

(** C31: no line is lost: at any time the lines printed since a log was opened are, in order and without
    gaps, in the gzip file followed by the end of the plain file, so that they survive when the
    process dies; and once the database is closed, all of them are in the gzip file behind
    what was there before. *)
Theorem log_lines_kept l e ls (s : vstate) :
  logs_ok s l -> e ∈ l -> e_main e = 1 -> pending_at s (e_id e) = Some [] ->
  let g0 := contents (gzDisk s) (gz_file (e_name e)) in
  match print_lines (Some (e_id e, false)) ls s with
  | Done (_, s1) =>
    (exists flushed pending c0, ls ≫= line_text = flushed ++ pending /\
       contents (gzDisk s1) (gz_file (e_name e)) = g0 ++ flushed /\
       contents (tmpDisk s1) (tmp_file (e_name e)) = c0 ++ pending) /\
    match vlogLogClose (Some (e_id e, false)) s1 with
    | Done (_, s2) => contents (gzDisk s2) (gz_file (e_name e)) = g0 ++ (ls ≫= line_text)
    | Stuck _ => False
    end
  | Stuck _ => False
  end.
Proof.
  intros Hok He Hm Hp g0.
  assert (Hk : kept s e g0 []).
  { exists [], [], (contents (tmpDisk s) (tmp_file (e_name e))). by rewrite !app_nil_r. }
  pose proof (print_lines_spec l e ls g0 [] s Hok He Hk) as H. unfold wp in H.
  destruct (print_lines (Some (e_id e, false)) ls s) as [[[] s1]|]; [|done].
  destruct H as [Hok1 (fl & pe & c0 & Ht & Hpe & Hg & Htm)]. cbn [app] in Ht. split; [by exists fl, pe, c0|].
  pose proof (log_close_spec l e false s1 Hok1 He) as Hcl. unfold wp in Hcl.
  destruct (vlogLogClose (Some (e_id e, false)) s1) as [[[] s2]|]; [|apply Hcl; simpl; lia].
  destruct Hcl as (_ & _ & _ & _ & _ & b & Hb & Hgz); [simpl; lia|]. rewrite Hm in Hgz. simpl in Hgz.
  unfold pending_at in Hpe. rewrite Hb in Hpe. injection Hpe as <-.
  unfold contents in *. rewrite Hgz, lookup_insert_eq. simpl. by rewrite Hg, Ht, app_assoc.
Qed.

(** ** What goes wrong *)

(** What is left of an earlier process is thrown away: when the plain log file still holds 64 KiB or
    more of lines that never reached the gzip file, opening the database and logging one line
    empties the plain file, while the gzip file only gains the new line. *)
Theorem leftover_lost l z name a (s : vstate) :
  logs_ok s l -> refs_room l -> log_name z = Some (name, false) -> has_name name l = false ->
  gets_log z l = true -> line_text a <> [] ->
  VFSLOG_GZIP_BLOCK_SIZE <= zlen (contents (tmpDisk s) (tmp_file name)) ->
  match (let! p := vlogLogOpen z in print_line p a) s with
  | Done (_, s') =>
    contents (tmpDisk s') (tmp_file name) = [] /\
    contents (gzDisk s') (gz_file name) = contents (gzDisk s) (gz_file name) ++ line_text a
  | Stuck _ => False
  end.
Proof.
  intros Hok Hroom Hn Hnew Hg Ha Hlong.
  change (wp (let! p := vlogLogOpen z in print_line p a) (fun _ s' => contents (tmpDisk s') (tmp_file name) = [] /\
    contents (gzDisk s') (gz_file name) = contents (gzDisk s) (gz_file name) ++ line_text a) s).
  apply wp_bind. eapply wp_mono; [by apply (log_open_spec l z)|]. intros r s1 (_ & _ & _ & [Ft Fg] & Hr).
  rewrite Hg in Hr. destruct Hr as (name' & i & j & Hn' & -> & Hp & Hok1 & e & He & <- & Hen).
  rewrite Hn in Hn'. injection Hn' as <- <-. destruct (Hp Hnew) as [_ Hpe]. rewrite <- Hen in *.
  destruct (logs_ok_block s1 _ e Hok1 He) as (b & Hb & Hw). pose proof Hw as [[_ Hz] Hfl _ _ _ [Htn Hgn]].
  unfold pending_at in Hpe. rewrite Hb in Hpe. injection Hpe as Hpe.
  unfold print_line, line_text in *. simpl. apply wp_the_pair with (b := b); [done|]. cbv zeta. cbn [log_of]. rewrite Hfl.
  destruct (Z.land vlogDefaultLogFlags (op_bit (la_op a)) =? 0); [done|].
  destruct (op_name (la_op a)) as (opn & Hopn & Hln). eapply wp_bind_lift_res; [exact Hopn|]. rewrite Hopn, Hz.
  change (bool_decide (Some (gz_file (e_name e)) = None)) with false. set (text := log_line _ _ _ _ _ _ _ _).
  eapply wp_mono; [apply log_write_spec; [done|by apply log_line_fits]|]. fold text.
  intros [] s' [_ _ _ (_ & Htm & Hgz)]. rewrite Htn, Hgn, Hpe in *. fold (contents (tmpDisk s1) (tmp_file (e_name e))) in Htm, Hgz.
  rewrite Ft, zlen_app in Htm, Hgz. zlen_pos. rewrite (proj2 (Z.leb_le _ _)) in Htm, Hgz by lia.
  fold (contents (gzDisk s1) (gz_file (e_name e))) in Hgz. rewrite Fg in Hgz.
  unfold contents at 1 2. by rewrite Htm, Hgz.
Qed.

(** Nothing about journals is logged: the second log of a pair is created without flags and never
    gets any, so that printing to it does nothing, although it is there to record the I/O of
    the journal. *)
Theorem journal_not_logged l e a (s : vstate) :
  logs_ok s l -> e ∈ l -> print_line (Some (e_id e, true)) a s = Done (tt, s).
Proof.
  intros Hok He. destruct (logs_ok_block s l e Hok He) as (b & Hb & [_ _ _ _ (_ & _ & Hfl) _]).
  unfold print_line, vlogLogPrint, bind, the_pair. rewrite Hb. cbn [log_of]. rewrite Hfl. done.
Qed.

(** The journal must be closed first: both logs of a pair are one block of memory, which goes with
    the last reference to the database, so that a journal that is still open then holds a
    pointer to memory that was released and the next read through it uses it. *)
Theorem journal_outlives_log l e (s : vstate) :
  logs_ok s l -> e ∈ l -> e_main e = 1 ->
  match vlogLogClose (Some (e_id e, false)) s with
  | Done (_, s') => forall p n ofs, pLog p = Some (e_id e, true) -> vlogRead p n ofs s' = Stuck UseAfterFree
  | Stuck _ => False
  end.
Proof.
  intros Hok He Hm. pose proof (log_close_spec l e false s Hok He ltac:(simpl; lia)) as H. unfold wp in H.
  destruct (vlogLogClose (Some (e_id e, false)) s) as [[[] s']|]; [|done].
  destruct H as (_ & _ & _ & _ & Hfree & _). rewrite Hm in Hfree. specialize (Hfree eq_refl).
  intros p n ofs Hp.
  assert (Hg : forall s2 : vstate, blocks s2 = blocks s' -> the_pair (e_id e) s2 = Stuck UseAfterFree).
  { intros s2 Hs. unfold the_pair. rewrite Hs. destruct (blocks s' !! e_id e) as [[b|]|] eqn:E; [by destruct (Hfree b)|done..]. }
  unfold vlogRead, bind, vlog_time, call. cbn [world set_ticks].
  destruct (xRead (pReal p) n ofs (world s')) as [[rc z] w]. rewrite Hp. destruct (rc =? SQLITE_OK) eqn:Erc.
  - unfold logs_database, bind. rewrite Hg by done. reflexivity.
  - unfold ret, lift_res, the_log, upd_log, bind, ret. cbn [andb fst]. rewrite Hg by done. reflexivity.
Qed.

(** A file without a log cannot be used: temporary files, which get no log, are given the same
    methods, and the first read or write of one goes through a null pointer. *)
Theorem temp_file_crashes zName f flags want (s : vstate) :
  Z.land flags (Z.lor SQLITE_OPEN_MAIN_DB (Z.lor SQLITE_OPEN_MAIN_JOURNAL SQLITE_OPEN_WAL)) = 0 ->
  fst (fst (xOpen zName f flags (world s))) = SQLITE_OK -> xVersion f (snd (xOpen zName f flags (world s))) <> None ->
  match vlogOpen zName f flags want s with
  | Done (rc, _, p, s') =>
    rc = SQLITE_OK /\
    (forall z ofs, 0 < zlen z -> vlogWrite p z ofs s' = Stuck NullDeref) /\
    (forall n ofs, (forall rc z w, xRead f n ofs (world s') = (rc, z, w) -> 0 < zlen z) -> vlogRead p n ofs s' = Stuck NullDeref)
  | Stuck _ => False
  end.
Proof.
  intros Hfl Hrc Hv. unfold vlogOpen. rewrite Hfl. change (negb (0 =? 0)) with false. cbv iota.
  unfold bind at 1, ret at 1. unfold bind at 1, vlog_time at 1. unfold bind at 1, call at 1. cbn [world set_ticks].
  destruct (xOpen zName f flags (world s)) as [[rc out] w] eqn:Eo. cbn [fst snd] in *. subst rc.
  unfold bind, vlog_time, vlogLogPrint, ret, gets, modify. change (SQLITE_OK =? SQLITE_OK) with true. cbn.
  destruct (xVersion f w) as [v|]; [|done]. split; [done|]. cbn. split.
  - intros z ofs Hz. unfold vlogWrite, bind, vlog_time, call. cbn. destruct (xWrite f z ofs w) as [rc w'].
    destruct (signature_ok z Hz) as [sig Hsig].
    destruct (rc =? SQLITE_OK); unfold logs_database, ret, lift_res; cbn [andb]; by rewrite Hsig.
  - intros n ofs Hz. unfold vlogRead, bind, vlog_time, call. cbn. destruct (xRead f n ofs w) as [[rc z] w'] eqn:Er.
    destruct (signature_ok z (Hz _ _ _ eq_refl)) as [sig Hsig].
    destruct (rc =? SQLITE_OK); unfold logs_database, ret, lift_res; cbn [andb]; by rewrite ?Hsig.
Qed.
End methods.
