(* ===== verification/VfslogSmall.v ===== *)
(** * The logging VFS on a small file

    A VFS with one file in memory, a log for it, and the theorems of the logging VFS there. *)

From stdpp Require Import gmap.
From S2P Require Import Prelude CLib Vfslog VfslogFacts VfslogProps.

Module VlogToy.

#[export] Instance memory_vfs : RealVfs := {|
  real := list Z;
  fid := unit;
  xVersion := fun _ _ => Some 3;
  xClose := fun _ w => (0, w);
  xRead := fun _ n ofs w => if ofs + n <=? zlen w then (0, slice ofs n w, w) else (522, zeros n, w);
  xWrite := fun _ z ofs w => (0, take (Z.to_nat ofs) w ++ z ++ drop (Z.to_nat ofs + length z) w);
  xTruncate := fun _ n w => (0, take (Z.to_nat n) w);
  xSync := fun _ _ w => (0, w);
  xFileSize := fun _ w => (0, zlen w, w);
  xLock := fun _ _ w => (0, w);
  xUnlock := fun _ _ w => (0, w);
  xCheckReservedLock := fun _ w => (0, 0, w);
  xFileControl := fun _ _ a w => (12, a, w);
  xSectorSize := fun _ w => (4096, w);
  xDeviceCharacteristics := fun _ w => (0, w);
  xShmMap := fun _ _ _ _ w => (10, None, w);
  xShmLock := fun _ _ _ _ w => (10, w);
  xShmBarrier := fun _ w => w;
  xShmUnmap := fun _ _ w => (0, w);
  xFetch := fun _ _ _ w => (0, None, w);
  xUnfetch := fun _ _ _ w => (0, w);
  xOpen := fun _ _ f w => (0, f, w);
  xDelete := fun _ _ w => (0, []);
  xAccess := fun _ _ w => (0, 1, w)
|}.

#[export] Instance env : LogEnv := {|
  vlog_clock := fun n => 1000 * Z.of_nat n;
  vlog_malloc_ok := fun _ => true;
  fopen_ok := fun _ => true;
  gzopen_ok := fun _ => true;
  mutex_ok := true
|}.

Definition db : list Z := str "a.db".
Definition log_entry : entry := Entry 0 db 1 1.

(** The database and its journal are open. *)
Definition opened : vstate :=
  VState [Some (Pair (Log None LAllLogs 1 4 (Some (gz_file db)) vlogDefaultLogFlags (-1) (-1))
                     (Log None LNull 1 0 None 0 (-1) (-1)) (tmp_file db) (gz_file db) [])]
    (Some 0%nat) 3 {[tmp_file db := []]} {[gz_file db := str "old"]} 0 (str "SQLite format 3").

Lemma opened_ok : logs_ok opened [log_entry].
Proof.
  split; [|split; [apply NoDup_singleton|apply NoDup_singleton]].
  exists (LNext 0). split; [reflexivity|]. eexists. split; [reflexivity|]. split; [by split|by split].
Qed.

Definition handle : VLogFile := VFile _ tt (Some (0%nat, false)).

Lemma handle_live : live [log_entry] (pLog handle).
Proof. exists log_entry. split; [apply elem_of_cons; by left|done]. Qed.

Lemma entry_in : log_entry ∈ [log_entry].
Proof. apply elem_of_cons. by left. Qed.

Lemma vlog_transparent_witness :
  match vlog_op handle (OpRead 6 0) opened with
  | Done (a, s') => (a, world s') = (ABytes (0, str "SQLite"), str "SQLite format 3") /\ logs_ok s' [log_entry]
  | Stuck _ => False
  end.
Proof.
  apply (vlog_transparent [log_entry] handle (OpRead 6 0) opened).
  - exact opened_ok.
  - exact handle_live.
  - split; [discriminate|]. intros _. split; [reflexivity|]. split; [reflexivity|].
    intros _ H. exfalso. apply H. reflexivity.
Defined.

Lemma log_registry_refines_witness :
  match do_call (CallOpen (str "a.db-wal")) opened with
  | Done (r, s') => exists l', reg_step [log_entry] (CallOpen (str "a.db-wal")) r l' /\ logs_ok s' l' /\ world s' = world opened
  | Stuck _ => False
  end.
Proof.
  apply (log_registry_refines [log_entry] (CallOpen (str "a.db-wal")) opened).
  - exact opened_ok.
  - constructor; [|constructor]. cbn. lia.
  - exact I.
Defined.

Definition two_lines : list line_args := [Line 5 1 VLOG_OP_SYNC 2 (-1) None 0; Line 7 1 VLOG_OP_LOCK 1 (-1) None 0].

Lemma log_lines_kept_witness :
  match print_lines (Some (0%nat, false)) two_lines opened with
  | Done (_, s1) =>
    match vlogLogClose (Some (0%nat, false)) s1 with
    | Done (_, s2) => contents (gzDisk s2) (gz_file db) = str "old5,1,SYNC,0,2,,,0" ++ [10]
    | Stuck _ => False
    end
  | Stuck _ => False
  end.
Proof.
  pose proof (log_lines_kept [log_entry] log_entry two_lines opened opened_ok entry_in eq_refl eq_refl) as H.
  change (e_id log_entry) with 0%nat in H. change (e_name log_entry) with db in H. cbv zeta in H.
  destruct (print_lines (Some (0%nat, false)) two_lines opened) as [[u s1]|]; [|exact H].
  destruct H as [_ H]. destruct (vlogLogClose (Some (0%nat, false)) s1) as [[u2 s2]|]; [|exact H].
  rewrite H. vm_compute. reflexivity.
Defined.

(** Lines of an earlier process. *)
Definition leftover : vstate := start_state {[tmp_file db := zeros 65536]} ∅ [].

Lemma leftover_length : VFSLOG_GZIP_BLOCK_SIZE <= zlen (contents (tmpDisk leftover) (tmp_file db)).
Proof.
  unfold contents, leftover. cbn [tmpDisk start_state]. rewrite lookup_singleton_eq.
  change (VFSLOG_GZIP_BLOCK_SIZE <= zlen (zeros 65536)).
  rewrite zlen_zeros by lia. unfold VFSLOG_GZIP_BLOCK_SIZE. lia.
Qed.

Lemma leftover_lost_witness :
  match (let! p := vlogLogOpen db in print_line p (Line 5 1 VLOG_OP_SYNC 2 (-1) None 0)) leftover with
  | Done (_, s') => contents (tmpDisk s') (tmp_file db) = [] /\
                    contents (gzDisk s') (gz_file db) = str "5,1,SYNC,0,2,,,0" ++ [10]
  | Stuck _ => False
  end.
Proof.
  apply (leftover_lost [] db db (Line 5 1 VLOG_OP_SYNC 2 (-1) None 0) leftover).
  - split; [by exists LAllLogs|split; constructor].
  - constructor.
  - reflexivity.
  - reflexivity.
  - reflexivity.
  - discriminate.
  - exact leftover_length.
Defined.

Lemma journal_not_logged_witness :
  print_line (Some (0%nat, true)) (Line 5 1 VLOG_OP_WRITE 512 0 None 0) opened = Done (tt, opened).
Proof. apply (journal_not_logged [log_entry] log_entry _ opened opened_ok entry_in). Defined.

Lemma journal_outlives_log_witness :
  match vlogLogClose (Some (0%nat, false)) opened with
  | Done (_, s') => vlogRead (VFile _ tt (Some (0%nat, true))) 4 0 s' = Stuck UseAfterFree
  | Stuck _ => False
  end.
Proof.
  pose proof (journal_outlives_log [log_entry] log_entry opened opened_ok entry_in eq_refl) as H.
  change (e_id log_entry) with 0%nat in H.
  destruct (vlogLogClose (Some (0%nat, false)) opened) as [[u s']|]; [|exact H].
  apply H. reflexivity.
Defined.

Lemma temp_file_crashes_witness :
  match @vlogOpen memory_vfs env None tt 0 false (@start_state memory_vfs ∅ ∅ (str "x")) with
  | Done (rc, _, p, s') => rc = SQLITE_OK /\ vlogWrite p [1] 0 s' = Stuck NullDeref
  | Stuck _ => False
  end.
Proof.
  pose proof (@temp_file_crashes memory_vfs env None tt 0 false (@start_state memory_vfs ∅ ∅ (str "x")) eq_refl eq_refl ltac:(discriminate)) as H.
  destruct (@vlogOpen memory_vfs env None tt 0 false (@start_state memory_vfs ∅ ∅ (str "x"))) as [[[[rc out] p] s']|]; [|exact H].
  destruct H as (H1 & H2 & _). split; [exact H1|]. apply H2. reflexivity.
Defined.
End VlogToy.
