(* ===== verification/Tokenizer.v ===== *)
(** * The ICU tokenizer for full-text search (mm_tokenizer.c, mm_utils.c)

    A text in UTF-8 is turned into UTF-16 with a table that gives the byte offset of each
    UTF-16 unit.  ICU's break iterator cuts it into words; white space is dropped, runs of
    ideographs are cut into single characters, and each token is normalised, case-folded and
    written back in UTF-8.

    ICU itself is a parameter.  The two macros of its headers that the code expands, [U8_NEXT]
    and [U16_APPEND], are modelled. *)

From S2P Require Import Prelude CLib.

Definition SQLITE_OK : Z := 0.
Definition SQLITE_ERROR : Z := 1.
Definition SQLITE_NOMEM : Z := 7.
Definition SQLITE_DONE : Z := 101.

(** ** ICU and memory *)

(** A conversion takes its source, the capacity of the destination and the status so far, and
    gives what it wrote, the length of the whole result and the new status.
    [utf8_nextCharSafeBody s i length c] gives the code point and the new offset. *)
Class Icu := {
  utf8_nextCharSafeBody : list Z -> Z -> Z -> Z -> Z * Z;
  ubrk : Type;
  ubrk_open : list Z -> list Z -> ubrk * Z;
  ubrk_first : ubrk -> ubrk;
  ubrk_current : ubrk -> Z;
  ubrk_next : ubrk -> Z * ubrk;
  ubrk_getRuleStatus : ubrk -> Z;
  ubrk_isBoundary : ubrk -> Z -> ubrk;
  unorm_normalize : list Z -> Z -> Z -> list Z * Z * Z;
  u_strFoldCase : list Z -> Z -> Z -> list Z * Z * Z;
  u_strToUTF8 : list Z -> Z -> Z -> list Z * Z * Z;
  u_isspace : Z -> bool;
  tok_malloc_ok : Z -> bool
}.

Definition U_ZERO_ERROR : Z := 0.
Definition U_FAILURE (status : Z) : bool := U_ZERO_ERROR <? status.
Definition U_SENTINEL : Z := -1.
Definition UBRK_DONE : Z := -1.
Definition UBRK_WORD_NONE : Z := 0.
Definition UBRK_WORD_NONE_LIMIT : Z := 100.
Definition UBRK_WORD_IDEO : Z := 400.
Definition UBRK_WORD_IDEO_LIMIT : Z := 500.

(** Memory of which a part was not written yet. *)
Definition raw (n : Z) : list (option Z) := replicate (Z.to_nat n) None.

Fixpoint written (l : list (option Z)) : res (list Z) :=
  match l with
  | [] => Done []
  | None :: _ => Stuck Uninit
  | Some x :: l => let? xs := written l in Done (x :: xs)
  end.

Definition read_raw (l : list (option Z)) (i n : Z) : res (list Z) :=
  let? xs := zread_n l i n in written xs.
Definition read_one (l : list (option Z)) (i : Z) : res Z :=
  let? x := zread l i in match x with Some v => Done v | None => Stuck Uninit end.

(** ** The macros *)

Definition U8_IS_LEAD (c : Z) : bool := u8 (c - 192) <? 62.
Definition U16_IS_LEAD (c : Z) : bool := Z.land c 4294966272 =? 55296.

(** [(t = (uint8_t)(s[i] - 0x80)) <= 0x3f] *)
Definition u8_trail (s : list Z) (i : Z) : res (option Z) :=
  let? b := zread s i in
  let t := u8 (b - 128) in
  Done (if t <=? 63 then Some t else None).

(** The code point, negative for an ill-formed sequence, and the new offset. *)
Definition U8_NEXT `{Icu} (s : list Z) (i length : Z) : res (Z * Z) :=
  let? c := zread s i in
  let i := i + 1 in
  if 128 <=? c then
    let? three :=
      if (224 <? c) && (c <=? 236) && (i + 1 <? length) then
        let? t1 := u8_trail s i in
        match t1 with
        | None => Done None
        | Some t1 => let? t2 := u8_trail s (i + 1) in Done (option_map (fun t2 => (t1, t2)) t2)
        end
      else Done None in
    match three with
    | Some (t1, t2) => Done (u16 (Z.lor (Z.lor (Z.shiftl c 12) (Z.shiftl t1 6)) t2), i + 2)
    | None =>
      let? two := if (c <? 224) && (194 <=? c) && (i <? length) then u8_trail s i else Done None in
      match two with
      | Some t1 => Done (u16 (Z.lor (Z.shiftl (Z.land c 31) 6) t1), i + 1)
      | None => if U8_IS_LEAD c then Done (utf8_nextCharSafeBody s i length c) else Done (U_SENTINEL, i)
      end
    end
  else Done (c, i).

(** ** Cursors *)

Record mm_cursor_t `{Icu} := Cursor {
  iter : ubrk;
  in_buffer : list (option Z);
  in_offset : list (option Z);
  in_length : Z;
  out_buffer : option (list (option Z));
  out_length : Z;
  token_count : Z;
  ideo_start : Z;
  ideo_end : Z;
  ideo_state : Z
}.

Definition MINIMAL_OUT_BUFFER_LENGTH : Z := 512.
Definition ROUND4 (n : Z) : res Z := let? m := chk_int (n + 3) in Done (Z.land m (Z.lnot 3)).

(** The sizes on a 64-bit platform. *)
Definition sizeof_mm_cursor_t : Z := 72.
Definition sizeof_mm_tokenizer_t : Z := 24.

Section tokenizer.
Context `{Ic : Icu}.

(** [sqlite3_malloc(n)] of an [int]. *)
Definition sqlite3_malloc (n : Z) : bool := (0 <? n) && tok_malloc_ok n.

(** ** Opening *)

(** The cursor, its UTF-16 text and its offsets are one block of [size] bytes. *)
Definition put_unit (size : Z) (buf : list (option Z)) (i v : Z) : res (list (option Z)) :=
  if sizeof_mm_cursor_t + 2 * (i + 1) <=? size then zwrite_n buf i [Some (u16 v)] else Stuck OutOfBounds.
Definition put_offset (size dst_len : Z) (ofs : list (option Z)) (i v : Z) : res (list (option Z)) :=
  if sizeof_mm_cursor_t + 2 * dst_len + 4 * (i + 1) <=? size then zwrite_n ofs i [Some v] else Stuck OutOfBounds.

(** The buffer and the new offset, [None] for an error. *)
Definition U16_APPEND (size : Z) (s : list (option Z)) (i capacity c : Z) : res (option (list (option Z) * Z)) :=
  if u32 c <=? 65535 then
    let? s := put_unit size s i c in
    Done (Some (s, i + 1))
  else if (u32 c <=? 1114111) && (i + 1 <? capacity) then
    let? s := put_unit size s i (Z.shiftr c 10 + 55232) in
    let? s := put_unit size s (i + 1) (Z.lor (Z.land c 1023) 56320) in
    Done (Some (s, i + 2))
  else Done None.

(** The text, the offsets and the number of units, or the code point that could not be written.
    Each turn takes at least one byte. *)
Fixpoint open_loop (fuel : nat) (zInput : list Z) (nInput dst_len size i_input : Z) (buf ofs : list (option Z))
    (i_output : Z) : res (list (option Z) * list (option Z) * Z + Z) :=
  if nInput <=? i_input then Done (inl (buf, ofs, i_output))
  else
    match fuel with
    | O => Stuck OutOfFuel
    | S fuel =>
      let? (c, i_input) := U8_NEXT zInput i_input nInput in
      if c =? 0 then Done (inl (buf, ofs, i_output))
      else
        let c := if c <? 0 then 32 else c in
        let? out := U16_APPEND size buf i_output dst_len c in
        match out with
        | None => Done (inr c)
        | Some (buf, i_output) =>
          let? ofs := put_offset size dst_len ofs i_output i_input in
          open_loop fuel zInput nInput dst_len size i_input buf ofs i_output
        end
    end.

(** The message buffer of mm_utils.c has 1024 bytes. *)
Definition sqlite3_mm_set_last_error (text : list Z) : cm (list Z) unit := modify (fun _ => take 1023 text).
Definition sqlite3_mm_clear_error : cm (list Z) unit := modify (fun _ => []).

(** The code and the locale of the new tokenizer. *)
Definition mmtok_create (argv : list (list Z)) : Z * option (list Z) :=
  if negb (sqlite3_malloc sizeof_mm_tokenizer_t) then (SQLITE_NOMEM, None)
  else (SQLITE_OK, Some (match argv with a :: _ => take 15 a | [] => [] end)).

(** The size of the block, which is passed as an [int]. *)
Definition cursor_block (dst_len : Z) : Z :=
  s32 (u64 (sizeof_mm_cursor_t + u64 dst_len * 2 + u64 (dst_len + 1) * 4)).

Definition mmtok_open (locale zInput : list Z) (nInput : Z) : cm (list Z) (Z * option mm_cursor_t) :=
  let! nInput := lift_res (if nInput <? 0 then let? n := strlen zInput in Done (s32 n) else Done nInput) in
  let! n1 := lift_res (chk_int (nInput + 1)) in
  let! dst_len := lift_res (ROUND4 n1) in
  let size := cursor_block dst_len in
  if negb (sqlite3_malloc size) then ret (SQLITE_NOMEM, None)
  else
    if size <? sizeof_mm_cursor_t then fail OutOfBounds
    else
      let! ofs := lift_res (put_offset size dst_len (raw (dst_len + 1)) 0 0) in
      let! out := lift_res (open_loop (Z.to_nat nInput) zInput nInput dst_len size 0 (raw dst_len) ofs 0) in
      match out with
      | inr c =>
        sqlite3_mm_set_last_error (str "Writing UTF-16 character failed. Code point: 0x" ++ hex_short 8 (u32 c)) ;;;
        ret (SQLITE_ERROR, None)
      | inl (buf, ofs, i_output) =>
        let! text := lift_res (read_raw buf 0 i_output) in
        let '(it, status) := ubrk_open locale text in
        if U_FAILURE status then
          sqlite3_mm_set_last_error (str "Open UBreakIterator failed. ICU error code: " ++ dec status) ;;;
          ret (SQLITE_ERROR, None)
        else ret (SQLITE_OK, Some (Cursor _ (ubrk_first it) buf ofs i_output None 0 0 (-1) (-1) (-1)))
      end.

(** ** Tokens *)

Record mmstate := MM {
  cur : mm_cursor_t;
  last_error : list Z
}.
Definition set_cur v (s : mmstate) : mmstate := MM v (last_error s).
Definition on_error (c : cm (list Z) unit) : cm mmstate unit := zoom last_error (fun e s => MM (cur s) e) c.

Definition set_iter v (c : mm_cursor_t) : mm_cursor_t :=
  Cursor _ v (in_buffer c) (in_offset c) (in_length c) (out_buffer c) (out_length c) (token_count c)
    (ideo_start c) (ideo_end c) (ideo_state c).
Definition set_out b n (c : mm_cursor_t) : mm_cursor_t :=
  Cursor _ (iter c) (in_buffer c) (in_offset c) (in_length c) b n (token_count c)
    (ideo_start c) (ideo_end c) (ideo_state c).
Definition set_token_count v (c : mm_cursor_t) : mm_cursor_t :=
  Cursor _ (iter c) (in_buffer c) (in_offset c) (in_length c) (out_buffer c) (out_length c) v
    (ideo_start c) (ideo_end c) (ideo_state c).
Definition set_ideo s e st (c : mm_cursor_t) : mm_cursor_t :=
  Cursor _ (iter c) (in_buffer c) (in_offset c) (in_length c) (out_buffer c) (out_length c) (token_count c) s e st.

(** What a call gives the caller: the text, the two byte offsets and the position. *)
Record token := Token { tk_text : list Z; tk_start : Z; tk_end : Z; tk_pos : Z }.

(** The text, and whether it is allocated; without memory it is a literal.  Nothing is written for
    no units, not even the terminator. *)
Definition generate_token_printable_code (buf : list Z) : res (list Z * bool) :=
  if tok_malloc_ok (zlen buf * 5 + 1) then
    match buf with
    | [] => Stuck Uninit
    | _ => Done (buf ≫= (fun u => HEX 4 u ++ [32]), true)
    end
  else Done ([], false).

(** The three error exits of [output_token]. *)
Definition token_failed (what : list Z) (status : Z) (units : list Z) : cm mmstate (Z * option token) :=
  let! (seq, allocated) := lift_res (generate_token_printable_code units) in
  on_error (sqlite3_mm_set_last_error (what ++ str " ICU status: " ++ dec status ++ str ", input: " ++ seq)) ;;;
  if allocated then ret (SQLITE_ERROR, None) else fail BadFree.

(** [u_strToUTF8] into the output buffer. *)
Definition to_utf8 (units : list Z) (status : Z) : cm mmstate (Z * Z) :=
  let! c := gets cur in
  let '(bytes, result, status) := u_strToUTF8 units (out_length c) status in
  match out_buffer c with
  | None => fail NullDeref
  | Some b =>
    let! b := lift_res (zwrite_n b 0 (Some <$> bytes)) in
    modify (set_cur (set_out (Some b) (out_length c) c)) ;;;
    ret (result, status)
  end.

(** The first allocation of the output buffer; whether there is one now. *)
Definition ensure_out : cm mmstate bool :=
  let! c := gets cur in
  match out_buffer c with
  | Some _ => ret true
  | None =>
    if sqlite3_malloc MINIMAL_OUT_BUFFER_LENGTH then
      modify (set_cur (set_out (Some (raw MINIMAL_OUT_BUFFER_LENGTH)) MINIMAL_OUT_BUFFER_LENGTH c)) ;;;
      ret true
    else ret false
  end.

(** [sqlite3_realloc] of the output buffer to [n] bytes. *)
Definition grow_out (n : Z) : cm mmstate bool :=
  if sqlite3_malloc (s32 (u64 n)) then
    modify (fun s => set_cur (set_out (option_map (fun b => take (Z.to_nat n) b ++ raw (n - zlen b)) (out_buffer (cur s))) n
                                (cur s)) s) ;;;
    ret true
  else ret false.

(** The end of [output_token]: the bytes, the offsets and the position of the token. *)
Definition deliver (start end_ result : Z) : cm mmstate (Z * option token) :=
  let! c := gets cur in
  let! text := lift_res (match out_buffer c with Some b => read_raw b 0 result | None => Stuck NullDeref end) in
  let! so := lift_res (read_one (in_offset c) start) in
  let! eo := lift_res (read_one (in_offset c) end_) in
  let! next := lift_res (chk_int (token_count c + 1)) in
  modify (set_cur (set_token_count next c)) ;;;
  ret (SQLITE_OK, Some (Token text so eo (token_count c))).

Definition output_token (start end_ : Z) : cm mmstate (Z * option token) :=
  let! c := gets cur in
  let! length := lift_res (chk_int (end_ - start)) in
  let length := if 256 <? length then 256 else length in
  let! src := lift_res (read_raw (in_buffer c) start length) in
  let '(buf1, result, status) := unorm_normalize src 256 U_ZERO_ERROR in
  if U_FAILURE status || (256 <? u64 result) then
    token_failed (str "Normalize token failed.") status src
  else
    let! src := lift_res (zread_n buf1 0 result) in
    let '(buf2, result, status) := u_strFoldCase src 256 status in
    if U_FAILURE status || (256 <? u64 result) then token_failed (str "FoldCase token failed.") status src
    else
      let! ok := ensure_out in
      if negb ok then ret (SQLITE_NOMEM, None)
      else
        let! src := lift_res (zread_n buf2 0 result) in
        let! (result, status) := to_utf8 src status in
        let! n := gets (fun s => out_length (cur s)) in
        let! again :=
          if n <? result then
            let! ok := grow_out result in
            if ok then let! r := to_utf8 src U_ZERO_ERROR in ret (Some r) else ret None
          else ret (Some (result, status)) in
        match again with
        | None => ret (SQLITE_NOMEM, None)
        | Some (result, status) =>
          let! n := gets (fun s => out_length (cur s)) in
          if U_FAILURE status || (n <? result) then
            token_failed (str "Transform token to UTF-8 failed.") status src
          else deliver start end_ result
        end.

(** The bounds of the next pending ideograph. *)
Definition find_splited_ideo_token : cm mmstate (option (Z * Z)) :=
  let! c := gets cur in
  if ideo_state c <? 0 then ret None
  else if ideo_start c =? ideo_end c then
    modify (set_cur (set_ideo (ideo_start c) (ideo_end c) (-1) c)) ;;;
    ret None
  else
    let s := ideo_start c in
    let! e := lift_res (chk_int (s + 1)) in
    let! u := lift_res (read_one (in_buffer c) s) in
    let! d := lift_res (if U16_IS_LEAD u then chk_int (ideo_end c - s) else Done 0) in
    let e := if U16_IS_LEAD u && (2 <=? d) then e + 1 else e in
    modify (set_cur (set_ideo e (ideo_end c) (ideo_state c) c)) ;;;
    ret (Some (s, e)).

Definition next_break : cm mmstate Z :=
  let! c := gets cur in
  let '(e, it) := ubrk_next (iter c) in
  modify (set_cur (set_iter it c)) ;;;
  ret e.

Definition is_none (token_type : Z) : bool := (UBRK_WORD_NONE <=? token_type) && (token_type <? UBRK_WORD_NONE_LIMIT).
Definition is_ideo (token_type : Z) : bool := (UBRK_WORD_IDEO <=? token_type) && (token_type <? UBRK_WORD_IDEO_LIMIT).
Definition ignored (c : Z) : bool := (c =? chr "*") || (c =? 8203) || u_isspace c.

(** The first segment that is not white space: its bounds and type, [None] at the end. *)
Fixpoint skip_loop (fuel : nat) (start : Z) : cm mmstate (option (Z * Z * Z)) :=
  match fuel with
  | O => fail OutOfFuel
  | S fuel =>
    let! e := next_break in
    if e =? UBRK_DONE then
      on_error sqlite3_mm_clear_error ;;;
      ret None
    else
      let! c := gets cur in
      let token_type := ubrk_getRuleStatus (iter c) in
      if is_none token_type then
        let! u := lift_res (read_one (in_buffer c) start) in
        if ignored u then skip_loop fuel e else ret (Some (start, e, token_type))
      else ret (Some (start, e, token_type))
  end.

(** The end of the run of ideographs. *)
Fixpoint ideo_loop (fuel : nat) (end_ : Z) : cm mmstate Z :=
  match fuel with
  | O => fail OutOfFuel
  | S fuel =>
    let! e := next_break in
    if e =? UBRK_DONE then ret end_
    else
      let! token_type := gets (fun s => ubrk_getRuleStatus (iter (cur s))) in
      if negb (is_ideo token_type) then ret end_ else ideo_loop fuel e
  end.

(** A segment is at least one unit long, so that the units bound the turns of both loops. *)
Definition mmtok_next : cm mmstate (Z * option token) :=
  let! t := find_splited_ideo_token in
  match t with
  | Some (s, e) => output_token s e
  | None =>
    let! c := gets cur in
    let fuel := S (Z.to_nat (in_length c)) in
    let! seg := skip_loop fuel (ubrk_current (iter c)) in
    match seg with
    | None => ret (SQLITE_DONE, None)
    | Some (start, end_, token_type) =>
      if negb (is_ideo token_type) then output_token start end_
      else
        let! end_ := ideo_loop fuel end_ in
        modify (fun s => set_cur (set_ideo start end_ 0 (set_iter (ubrk_isBoundary (iter (cur s)) end_) (cur s))) s) ;;;
        let! t := find_splited_ideo_token in
        match t with
        | Some (s, e) => output_token s e
        | None =>
          on_error (sqlite3_mm_set_last_error (str "IDEO token found but can't output token.")) ;;;
          ret (SQLITE_ERROR, None)
        end
    end
  end.
End tokenizer.

#[global] Arguments mm_cursor_t {_}.
#[global] Arguments mmstate {_}.
