(* ===== verification/TokenizerFacts.v ===== *)
(** * Facts about the tokenizer

    UTF-8 and UTF-16 as the Unicode standard defines them, what the documentation of ICU
    promises, and the loops of [mmtok_open] and [mmtok_next] against them. *)

From S2P Require Import Prelude CLib Tokenizer.

(** ** Encodings *)

Definition scalar (c : Z) : Prop := 0 <= c <= 1114111 /\ ~ (55296 <= c <= 57343).

Definition utf8 (c : Z) : list Z :=
  if c <? 128 then [c]
  else if c <? 2048 then [192 + c / 64; 128 + c mod 64]
  else if c <? 65536 then [224 + c / 4096; 128 + c / 64 mod 64; 128 + c mod 64]
  else [240 + c / 262144; 128 + c / 4096 mod 64; 128 + c / 64 mod 64; 128 + c mod 64].

Definition utf16 (c : Z) : list Z :=
  if c <=? 65535 then [c] else [55232 + c / 1024; 56320 + c mod 1024].

(** At offset [i] of the first [n] bytes of [s] there is the encoding of [c]. *)
Definition starts (s : list Z) (i n c : Z) : Prop :=
  scalar c /\ i + zlen (utf8 c) <= n /\ slice i (zlen (utf8 c)) s = utf8 c.

(** A lead unit in front of [b] and a trail unit behind it. *)
Definition inside_pair (text : list Z) (b : Z) : Prop :=
  exists x y, zread text (b - 1) = Done x /\ zread text b = Done y /\ 55296 <= x <= 56319 /\ 56320 <= y <= 57343.

(** ** What ICU promises *)

(** A conversion to [f src]: with enough room all of it is written, otherwise a failure is
    reported together with the length that is needed; a source that has no result fails. *)
Definition converts (conv : list Z -> Z -> Z -> list Z * Z * Z) (f : list Z -> option (list Z)) : Prop :=
  forall src cap status, U_FAILURE status = false -> 0 <= cap ->
  let '(dst, len, status') := conv src cap status in
  match f src with
  | Some r => zlen r < 2 ^ 31 /\ len = zlen r /\ dst = take (Z.to_nat cap) r /\ U_FAILURE status' = (cap <? len)
  | None => U_FAILURE status' = true /\ zlen dst <= cap /\ len <= cap
  end.

(** The boundaries of a text with the type of the segment in front of each: from 0 to the end,
    rising, never inside a character. *)
Definition breaks_ok (text : list Z) (bs : list (Z * Z)) : Prop :=
  (exists st r, bs = (0, st) :: r) /\ (exists st, last bs = Some (zlen text, st)) /\
  (forall k b b' st st', bs !! k = Some (b, st) -> bs !! S k = Some (b', st') -> b < b') /\
  (forall b st, (b, st) ∈ bs -> ~ inside_pair text b).

Class IcuLaws `{Icu} := {
  nfkd : list Z -> option (list Z);
  fold_case : list Z -> option (list Z);
  to_bytes : list Z -> option (list Z);
  (* an iterator over these boundaries, at this one of them *)
  ubrk_at : ubrk -> list (Z * Z) -> nat -> Prop;
  (* the boundaries of a text in a locale *)
  word_breaks : list Z -> list Z -> list (Z * Z);

  body_range s i n c c' i' :
    0 < i <= n -> n <= zlen s -> zread s (i - 1) = Done c -> U8_IS_LEAD c = true ->
    utf8_nextCharSafeBody s i n c = (c', i') -> i <= i' <= n;
  body_sound s i n c c' i' :
    0 < i <= n -> n <= zlen s -> zread s (i - 1) = Done c -> U8_IS_LEAD c = true ->
    utf8_nextCharSafeBody s i n c = (c', i') -> 0 <= c' -> starts s (i - 1) n c' /\ i' = i - 1 + zlen (utf8 c');
  body_complete s i n c d :
    0 < i <= n -> n <= zlen s -> zread s (i - 1) = Done c -> U8_IS_LEAD c = true ->
    starts s (i - 1) n d -> fst (utf8_nextCharSafeBody s i n c) = d;

  ubrk_open_law locale text :
    U_FAILURE (snd (ubrk_open locale text)) = false ->
    breaks_ok text (word_breaks locale text) /\
    ubrk_at (ubrk_first (fst (ubrk_open locale text))) (word_breaks locale text) 0;
  ubrk_current_law it bs k b st : ubrk_at it bs k -> bs !! k = Some (b, st) -> ubrk_current it = b;
  ubrk_status_law it bs k b st : ubrk_at it bs k -> bs !! k = Some (b, st) -> ubrk_getRuleStatus it = st;
  ubrk_next_law it bs k :
    ubrk_at it bs k ->
    match bs !! S k with
    | Some (b, st) => fst (ubrk_next it) = b /\ ubrk_at (snd (ubrk_next it)) bs (S k)
    | None => fst (ubrk_next it) = UBRK_DONE /\ ubrk_at (snd (ubrk_next it)) bs k
    end;
  ubrk_isBoundary_law it bs k j b st :
    ubrk_at it bs k -> bs !! j = Some (b, st) -> ubrk_at (ubrk_isBoundary it b) bs j;

  nfkd_law : converts unorm_normalize nfkd;
  fold_law : converts u_strFoldCase fold_case;
  utf8_law : converts u_strToUTF8 to_bytes;
  nfkd_nonempty s r : s <> [] -> nfkd s = Some r -> r <> [];
  fold_nonempty s r : s <> [] -> fold_case s = Some r -> r <> [];
  to_bytes_length s r : to_bytes s = Some r -> zlen r <= 3 * zlen s
}.

(** Enough memory for every request. *)
Definition memory_ok `{Icu} : Prop := forall n, tok_malloc_ok n = true.

(** ** Encodings: lemmas *)

Lemma zlen_utf8 c : 1 <= zlen (utf8 c) <= 4.
Proof. unfold utf8. repeat case_match; unfold zlen; simpl; lia. Qed.

Lemma zlen_utf16 c : 1 <= zlen (utf16 c) <= 2.
Proof. unfold utf16. repeat case_match; unfold zlen; simpl; lia. Qed.

(** A character takes no more units than bytes. *)
Lemma utf16_le_utf8 c : zlen (utf16 c) <= zlen (utf8 c).
Proof. unfold utf16, utf8. repeat case_match; unfold zlen; simpl; lia. Qed.

Lemma utf8_first c : scalar c -> exists b r, utf8 c = b :: r /\ 0 <= b < 248 /\ ~ (128 <= b < 192).
Proof.
  intros [H _]. unfold utf8.
  repeat case_match; eexists _, _; (split; [reflexivity|]).
  - lia.
  - pose proof (Z.div_le_lower_bound c 64 2). pose proof (Z.div_lt_upper_bound c 64 32). lia.
  - pose proof (Z.div_pos c 4096). pose proof (Z.div_lt_upper_bound c 4096 16). lia.
  - pose proof (Z.div_pos c 262144). pose proof (Z.div_lt_upper_bound c 262144 5). lia.
Qed.

Lemma zread_lookup {A} (l : list A) i x : zread l i = Done x -> 0 <= i < zlen l /\ l !! Z.to_nat i = Some x.
Proof.
  unfold zread. destruct (0 <=? i) eqn:E; [|done]. destruct (l !! Z.to_nat i) eqn:El; [|done].
  intros [= ->]. apply lookup_lt_Some in El as Hl. unfold zlen. split; [lia|done].
Qed.

Lemma zread_ok {A} (l : list A) i : 0 <= i < zlen l -> exists x, zread l i = Done x /\ l !! Z.to_nat i = Some x.
Proof.
  intros Hi. unfold zread. rewrite (proj2 (Z.leb_le _ _)) by lia.
  destruct (l !! Z.to_nat i) eqn:E; [by eexists|]. apply lookup_ge_None in E. unfold zlen in Hi. lia.
Qed.

Lemma slice_cons {A} (l : list A) i n x : zread l i = Done x -> 1 <= n -> slice i n l = x :: slice (i + 1) (n - 1) l.
Proof.
  intros [Hi Hx]%zread_lookup Hn. unfold slice.
  rewrite (drop_S l x (Z.to_nat i)) by done.
  replace (Z.to_nat n) with (S (Z.to_nat (n - 1))) by lia. cbn [take]. by replace (Z.to_nat (i + 1)) with (S (Z.to_nat i)) by lia.
Qed.

Lemma slice_none {A} (l : list A) i n : n <= 0 -> slice i n l = [].
Proof. intros. unfold slice. by replace (Z.to_nat n) with 0%nat by lia. Qed.

Lemma zread_byte s i b : Forall is_byte s -> zread s i = Done b -> is_byte b.
Proof. intros Hs [_ H]%zread_lookup. by apply (proj1 (Forall_lookup is_byte s) Hs (Z.to_nat i)). Qed.

Lemma starts_first s i n c b : zread s i = Done b -> starts s i n c -> exists r, utf8 c = b :: r.
Proof.
  intros Hb (Hc & Hn & Hs). destruct (utf8_first c Hc) as (b' & r & Hu & _).
  pose proof (zlen_utf8 c). rewrite (slice_cons s i _ b) in Hs by (done || lia). rewrite Hu in Hs. injection Hs as -> _.
  by exists r.
Qed.

(** A trail byte. *)
Lemma u8_trail_spec s i b : Forall is_byte s -> zread s i = Done b ->
  u8_trail s i = Done (if (128 <=? b) && (b <? 192) then Some (b - 128) else None).
Proof.
  intros Hs Hb. pose proof (zread_byte _ _ _ Hs Hb) as Hr. unfold is_byte in Hr.
  unfold u8_trail. rewrite Hb. cbn [res_bind]. f_equal.
  destruct (128 <=? b) eqn:E; cbn [andb].
  - rewrite u8_small by lia. replace (b - 128 <=? 63) with (b <? 192) by lia. done.
  - replace (u8 (b - 128)) with (b + 128); [by case_match; [lia|]|].
    unfold u8. symmetry. rewrite <- (Z_mod_plus_full (b - 128) 1). rewrite Z.mod_small by lia. lia.
Qed.

(** The code points of two and three bytes. *)
Lemma utf8_two b t : 194 <= b < 224 -> 0 <= t < 64 ->
  let c := u16 (Z.lor (Z.shiftl (Z.land b 31) 6) t) in scalar c /\ utf8 c = [b; 128 + t].
Proof.
  intros Hb Ht. cbv zeta. change 31 with (Z.ones 5). rewrite Z.land_ones by lia.
  change (2 ^ 5) with 32.
  assert (Hm : b mod 32 = b - 192) by (rewrite <- (Z_mod_plus_full b (-6)), Z.mod_small by lia; lia).
  rewrite Hm, Z.lor_comm, lor_shift by lia. change (2 ^ 6) with 64. rewrite u16_small by lia.
  split; [split; lia|]. unfold utf8.
  rewrite (proj2 (Z.ltb_ge _ 128)), (proj2 (Z.ltb_lt _ 2048)) by lia.
  rewrite Z.div_add, Z.div_small, Z_mod_plus_full, Z.mod_small by lia. repeat f_equal; lia.
Qed.

Lemma utf8_three b t1 t2 : 224 < b <= 236 -> 0 <= t1 < 64 -> 0 <= t2 < 64 ->
  let c := u16 (Z.lor (Z.lor (Z.shiftl b 12) (Z.shiftl t1 6)) t2) in scalar c /\ utf8 c = [b; 128 + t1; 128 + t2].
Proof.
  intros Hb H1 H2. cbv zeta.
  assert (E : Z.lor (Z.lor (Z.shiftl b 12) (Z.shiftl t1 6)) t2 = t2 + t1 * 64 + b * 4096).
  { rewrite (Z.lor_comm _ t2), (Z.lor_comm (Z.shiftl b 12)), Z.lor_assoc, (lor_shift t2 t1) by lia.
    change (2 ^ 6) with 64. rewrite lor_shift by lia. done. }
  rewrite E. unfold u16. change (2 ^ 16) with 65536.
  assert (Hm : (t2 + t1 * 64 + b * 4096) mod 65536 = t2 + t1 * 64 + (b - 224) * 4096)
    by (rewrite <- (Z_mod_plus_full _ (-14)), Z.mod_small by lia; lia).
  rewrite Hm. split; [split; lia|]. unfold utf8.
  rewrite (proj2 (Z.ltb_ge _ 128)), (proj2 (Z.ltb_ge _ 2048)), (proj2 (Z.ltb_lt _ 65536)) by lia.
  assert (Hd : (t2 + t1 * 64 + (b - 224) * 4096) / 64 = t1 + (b - 224) * 64)
    by (replace (t2 + t1 * 64 + (b - 224) * 4096) with (t2 + (t1 + (b - 224) * 64) * 64) by lia;
        rewrite Z.div_add, Z.div_small by lia; lia).
  rewrite Hd, Z_mod_plus_full, Z.mod_small by lia.
  rewrite Z.div_add, Z.div_small by lia.
  replace (t2 + t1 * 64 + (b - 224) * 4096) with (t2 + (t1 + (b - 224) * 64) * 64) by lia.
  rewrite Z_mod_plus_full, Z.mod_small by lia. repeat f_equal; lia.
Qed.

Section facts.
Context `{Ic : Icu} {La : IcuLaws}.

(** ** [U8_NEXT] *)

Lemma starts_intro s i n c : scalar c -> i + zlen (utf8 c) <= n -> slice i (zlen (utf8 c)) s = utf8 c -> starts s i n c.
Proof. by split. Qed.

(** The step of the decoder: ill-formed bytes or the character that is there. *)
Definition decoded (s : list Z) (i n c i' : Z) : Prop :=
  i < i' <= n /\
  ((c < 0 /\ forall d, ~ starts s i n d) \/ (starts s i n c /\ i' = i + zlen (utf8 c))).

Lemma next_body s i n b : Forall is_byte s -> 0 <= i < n -> n <= zlen s -> zread s i = Done b -> 128 <= b ->
  exists c i', (if U8_IS_LEAD b then Done (utf8_nextCharSafeBody s (i + 1) n b) else Done (U_SENTINEL, i + 1)) = Done (c, i') /\
    decoded s i n c i'.
Proof.
  intros Hs Hi Hn Hb H128. pose proof (zread_byte _ _ _ Hs Hb) as Hr. unfold is_byte in Hr.
  destruct (U8_IS_LEAD b) eqn:El.
  - destruct (utf8_nextCharSafeBody s (i + 1) n b) as [c i'] eqn:E. exists c, i'. split; [done|].
    replace (zread s i) with (zread s (i + 1 - 1)) in Hb by (f_equal; lia).
    pose proof (body_range s (i + 1) n b c i' ltac:(lia) Hn Hb El E) as R.
    split; [lia|]. destruct (Z_lt_dec c 0) as [Hc|Hc].
    + left. split; [done|]. intros d Hd.
      replace i with (i + 1 - 1) in Hd by lia.
      pose proof (body_complete s (i + 1) n b d ltac:(lia) Hn Hb El Hd) as C. rewrite E in C. simpl in C.
      destruct Hd as ((? & _) & _). lia.
    + right. destruct (body_sound s (i + 1) n b c i' ltac:(lia) Hn Hb El E ltac:(lia)) as [S1 S2].
      replace (i + 1 - 1) with i in * by lia. done.
  - exists U_SENTINEL, (i + 1). split; [done|]. split; [lia|]. left. split; [unfold U_SENTINEL; lia|].
    intros d Hd. destruct (starts_first s i n d b Hb Hd) as [r Hu].
    destruct Hd as (Hd & _). destruct (utf8_first d Hd) as (b' & r' & Hu' & ? & ?). rewrite Hu in Hu'.
    injection Hu' as <- <-. unfold U8_IS_LEAD in El. rewrite u8_small in El by lia. lia.
Qed.

Lemma U8_NEXT_spec s i n : Forall is_byte s -> 0 <= i < n -> n <= zlen s ->
  exists c i', U8_NEXT s i n = Done (c, i') /\ decoded s i n c i'.
Proof.
  intros Hs Hi Hn. destruct (zread_ok s i ltac:(lia)) as (b & Hb & _).
  pose proof (zread_byte _ _ _ Hs Hb) as Hr. unfold is_byte in Hr.
  unfold U8_NEXT. rewrite Hb. cbn [res_bind].
  destruct (128 <=? b) eqn:E1.
  2: { exists b, (i + 1). split; [done|]. split; [lia|]. right.
       assert (Hu : utf8 b = [b]) by (unfold utf8; by rewrite (proj2 (Z.ltb_lt _ _)) by lia).
       rewrite Hu. split; [|done]. split; [split; lia|]. rewrite Hu. split; [unfold zlen; simpl; lia|].
       rewrite (slice_cons s i _ b) by (done || (unfold zlen; simpl; lia)). by rewrite slice_none. }
  pose proof (next_body s i n b Hs Hi Hn Hb ltac:(lia)) as Hbody.
  destruct ((224 <? b) && (b <=? 236) && (i + 1 + 1 <? n)) eqn:E3.
  - destruct (zread_ok s (i + 1) ltac:(lia)) as (b1 & Hb1 & _).
    destruct (zread_ok s (i + 1 + 1) ltac:(lia)) as (b2 & Hb2 & _).
    rewrite (u8_trail_spec _ _ _ Hs Hb1), (u8_trail_spec _ _ _ Hs Hb2). cbn [res_bind].
    rewrite (proj2 (Z.ltb_ge b 224)) by lia. cbn [andb].
    destruct ((128 <=? b1) && (b1 <? 192)) eqn:T1; cbn [res_bind option_map]; [|exact Hbody].
    destruct ((128 <=? b2) && (b2 <? 192)) eqn:T2; cbn [res_bind option_map]; [|exact Hbody].
    eexists _, _. split; [reflexivity|].
    destruct (utf8_three b (b1 - 128) (b2 - 128) ltac:(lia) ltac:(lia) ltac:(lia)) as [Hc Hu].
    split; [lia|]. right. split; [apply starts_intro; [done|..]; rewrite Hu|rewrite Hu; unfold zlen; simpl; lia].
    + unfold zlen; simpl; lia.
    + change (zlen [b; 128 + (b1 - 128); 128 + (b2 - 128)]) with 3.
      rewrite (slice_cons s i _ b), (slice_cons s (i + 1) _ b1), (slice_cons s (i + 1 + 1) _ b2), slice_none by (done || lia).
      repeat f_equal; lia.
  - cbn [res_bind].
    destruct ((b <? 224) && (194 <=? b) && (i + 1 <? n)) eqn:E2; [|exact Hbody].
    destruct (zread_ok s (i + 1) ltac:(lia)) as (b1 & Hb1 & _).
    rewrite (u8_trail_spec _ _ _ Hs Hb1). cbn [res_bind].
    destruct ((128 <=? b1) && (b1 <? 192)) eqn:T1; [|exact Hbody].
    eexists _, _. split; [reflexivity|].
    destruct (utf8_two b (b1 - 128) ltac:(lia) ltac:(lia)) as [Hc Hu].
    split; [lia|]. right. split; [apply starts_intro; [done|..]; rewrite Hu|rewrite Hu; unfold zlen; simpl; lia].
    + unfold zlen; simpl; lia.
    + change (zlen [b; 128 + (b1 - 128)]) with 2.
      rewrite (slice_cons s i _ b), (slice_cons s (i + 1) _ b1), slice_none by (done || lia).
      repeat f_equal; lia.
Qed.

(** ** The text in UTF-16 *)

(** A text cut into characters, each with the bytes it takes: it ends at the end or at a zero, and
    bytes that are no character count as a space. *)
Inductive pieces (s : list Z) (n : Z) : Z -> list (Z * Z) -> Prop :=
| pieces_end i : n <= i -> pieces s n i []
| pieces_nul i : i < n -> starts s i n 0 -> pieces s n i []
| pieces_char i c r : i < n -> starts s i n c -> c <> 0 -> pieces s n (i + zlen (utf8 c)) r ->
    pieces s n i ((c, zlen (utf8 c)) :: r)
| pieces_bad i k r : (forall d, ~ starts s i n d) -> 0 < k -> i + k <= n -> pieces s n (i + k) r ->
    pieces s n i ((32, k) :: r).

Definition units (ps : list (Z * Z)) : list Z := ps ≫= (fun p => utf16 (fst p)).
Definition nbytes (ps : list (Z * Z)) : Z := foldr (fun p => Z.add (snd p)) 0 ps.

Lemma units_app a b : units (a ++ b) = units a ++ units b.
Proof. unfold units. by rewrite bind_app. Qed.

Lemma units_one p : units [p] = utf16 (fst p).
Proof. unfold units. simpl. by rewrite app_nil_r. Qed.

Lemma nbytes_app a b : nbytes (a ++ b) = nbytes a + nbytes b.
Proof. induction a as [|p a IH]; simpl; [done|]. rewrite IH. lia. Qed.

(** The offset of every character, and of the end, is in the table. *)
Definition table (ps : list (Z * Z)) (ofs : list (option Z)) : Prop :=
  forall k, (k <= length ps)%nat -> zread ofs (zlen (units (take k ps))) = Done (Some (nbytes (take k ps))).

Lemma zwrite_one {A} (l : list A) i x : 0 <= i < zlen l ->
  exists l', zwrite_n l i [x] = Done l' /\ zlen l' = zlen l /\ zread l' i = Done x /\ (forall j, j <> i -> zread l' j = zread l j).
Proof.
  intros Hi. exists (<[Z.to_nat i := x]> l). unfold zlen in Hi.
  assert (Hlt : (Z.to_nat i < length l)%nat) by lia. split_and!.
  - unfold zwrite_n, in_range, zlen. change (Z.of_nat (length [x])) with 1.
    replace ((0 <=? i) && (0 <=? 1) && (i + 1 <=? Z.of_nat (length l))) with true by lia.
    rewrite insert_take_drop by done. simpl length. by replace (Z.to_nat i + 1)%nat with (S (Z.to_nat i)) by lia.
  - unfold zlen. by rewrite length_insert.
  - unfold zread. rewrite (proj2 (Z.leb_le _ _)) by lia. by rewrite list_lookup_insert_eq.
  - intros j Hj. unfold zread. destruct (0 <=? j) eqn:E; [|done]. by rewrite list_lookup_insert_ne by lia.
Qed.

Lemma raw_cons m : 1 <= m -> raw m = None :: raw (m - 1).
Proof. intros. unfold raw. by replace (Z.to_nat m) with (S (Z.to_nat (m - 1))) by lia. Qed.

Lemma zlen_raw m : 0 <= m -> zlen (raw m) = m.
Proof. intros. unfold zlen, raw. rewrite length_replicate. lia. Qed.

Lemma zlen_fmap {A B} (f : A -> B) l : zlen (f <$> l) = zlen l.
Proof. unfold zlen. by rewrite length_fmap. Qed.

Lemma written_some l : written (Some <$> l) = Done l.
Proof. induction l as [|x l IH]; [done|]. rewrite fmap_cons. cbn [written]. by rewrite IH. Qed.

Definition block (dst_len : Z) : Z := sizeof_mm_cursor_t + dst_len * 2 + (dst_len + 1) * 4.

Lemma put_unit_spec dst_len u m v : 0 <= v < 65536 -> 1 <= m -> zlen u + m = dst_len ->
  put_unit (block dst_len) ((Some <$> u) ++ raw m) (zlen u) v = Done ((Some <$> (u ++ [v])) ++ raw (m - 1)).
Proof.
  intros Hv Hm Hd. unfold put_unit. unfold block. zlen_pos.
  rewrite (proj2 (Z.leb_le _ _)) by lia. rewrite raw_cons by lia.
  change (None :: raw (m - 1)) with ([None] ++ raw (m - 1)).
  rewrite (zwrite_n_app (Some <$> u) [None] (raw (m - 1))); [|by rewrite zlen_fmap|done].
  rewrite fmap_app, <- app_assoc. by rewrite u16_small.
Qed.

Lemma U16_APPEND_spec dst_len u m c : scalar c -> zlen (utf16 c) <= m -> zlen u + m = dst_len ->
  U16_APPEND (block dst_len) ((Some <$> u) ++ raw m) (zlen u) dst_len c =
  Done (Some ((Some <$> (u ++ utf16 c)) ++ raw (m - zlen (utf16 c)), zlen u + zlen (utf16 c))).
Proof.
  intros [Hc _] Hm Hd. unfold U16_APPEND, utf16 in *. rewrite u32_small by lia.
  destruct (c <=? 65535) eqn:E.
  - change (zlen [c]) with 1 in *. rewrite put_unit_spec by lia. done.
  - change (zlen [_; _]) with 2 in *. rewrite (proj2 (Z.leb_le c 1114111)), (proj2 (Z.ltb_lt _ dst_len)) by lia.
    cbn [andb]. rewrite Z.shiftr_div_pow2 by lia. change (2 ^ 10) with 1024.
    assert (0 <= c / 1024 < 1088) by (split; [apply Z.div_pos; lia|apply Z.div_lt_upper_bound; lia]).
    pose proof (Z.mod_pos_bound c 1024 ltac:(lia)).
    rewrite put_unit_spec by lia. cbn [res_bind].
    change 1023 with (Z.ones 10). rewrite Z.land_ones by lia. change (2 ^ 10) with 1024.
    change 56320 with (Z.shiftl 55 10) at 1. rewrite lor_shift by lia. change (55 * 2 ^ 10) with 56320.
    replace (zlen u + 1) with (zlen (u ++ [c / 1024 + 55232])) by (zl; lia).
    rewrite put_unit_spec by (zl; lia). cbn [res_bind]. rewrite <- app_assoc. cbn [app].
    rewrite !(Z.add_comm (c / 1024)), (Z.add_comm (c mod 1024)). do 2 f_equal.
    by replace (m - 1 - 1) with (m - 2) by lia.
Qed.

Lemma put_offset_spec dst_len ps p ofs v :
  table ps ofs -> zlen ofs = dst_len + 1 -> zlen (units (ps ++ [p])) <= dst_len -> v = nbytes (ps ++ [p]) ->
  exists ofs', put_offset (block dst_len) dst_len ofs (zlen (units (ps ++ [p]))) v = Done ofs' /\
    table (ps ++ [p]) ofs' /\ zlen ofs' = dst_len + 1.
Proof.
  intros Ht Ho Hd ->. unfold put_offset, block. zlen_pos. rewrite (proj2 (Z.leb_le _ _)) by lia.
  destruct (zwrite_one ofs (zlen (units (ps ++ [p]))) (Some (nbytes (ps ++ [p])))) as (ofs' & Hw & Hl & H1 & H2); [lia|].
  exists ofs'. split; [done|]. split; [|lia]. intros k Hk. rewrite length_app in Hk. simpl in Hk.
  destruct (decide (k <= length ps)%nat) as [Hle|Hgt].
  - rewrite take_app_le by done. rewrite H2; [by apply Ht|].
    rewrite units_app, zlen_app, units_one. pose proof (zlen_utf16 (fst p)).
    rewrite <- (take_drop k ps) at 2. rewrite units_app, zlen_app. zlen_pos. lia.
  - rewrite take_ge by (rewrite length_app; simpl; lia). done.
Qed.

(** ** [mmtok_open] *)

Lemma decoded_piece s i n c i' : decoded s i n c i' -> c <> 0 ->
  let c' := if c <? 0 then 32 else c in
  scalar c' /\ zlen (utf16 c') <= i' - i /\ i < i' <= n /\
  (forall r, pieces s n i' r -> pieces s n i ((c', i' - i) :: r)).
Proof.
  intros [Hi [[Hc Hno]|[Hs ->]]] H0; cbv zeta.
  - rewrite (proj2 (Z.ltb_lt c 0)) by done. split; [split; lia|]. change (zlen (utf16 32)) with 1.
    split; [lia|]. split; [lia|]. intros r Hr. apply pieces_bad; [done|lia|lia|]. by replace (i + (i' - i)) with i' by lia.
  - destruct Hs as (Hc & Hn & Hsl). assert (0 <= c) by apply Hc. rewrite (proj2 (Z.ltb_ge c 0)) by done.
    pose proof (utf16_le_utf8 c). replace (i + zlen (utf8 c) - i) with (zlen (utf8 c)) by lia.
    split_and!; try done; try lia. intros r Hr. apply pieces_char; [lia|done|done|done].
Qed.

(** From the text [ps] read so far the loop reads the rest. *)
Lemma open_loop_spec fuel s n dst_len ps ofs : Forall is_byte s -> n <= zlen s -> n < dst_len ->
  (Z.to_nat (n - nbytes ps) <= fuel)%nat -> 0 <= nbytes ps -> zlen (units ps) <= nbytes ps -> nbytes ps <= n ->
  table ps ofs -> zlen ofs = dst_len + 1 ->
  exists r ofs', pieces s n (nbytes ps) r /\ zlen (units (ps ++ r)) <= n /\ table (ps ++ r) ofs' /\
    open_loop fuel s n dst_len (block dst_len) (nbytes ps) ((Some <$> units ps) ++ raw (dst_len - zlen (units ps))) ofs
      (zlen (units ps)) =
    Done (inl ((Some <$> units (ps ++ r)) ++ raw (dst_len - zlen (units (ps ++ r))), ofs', zlen (units (ps ++ r)))).
Proof.
  intros Hs Hn Hd. revert ps ofs. induction fuel as [|fuel IH]; intros ps ofs Hf H0 Hu Hle Ht Ho.
  { exists [], ofs. rewrite app_nil_r. split; [apply pieces_end; lia|]. split; [lia|]. split; [done|].
    simpl. by rewrite (proj2 (Z.leb_le _ _)) by lia. }
  cbn [open_loop]. destruct (n <=? nbytes ps) eqn:E.
  { exists [], ofs. rewrite app_nil_r. split; [apply pieces_end; lia|]. split_and!; [lia|done|done]. }
  destruct (U8_NEXT_spec s (nbytes ps) n Hs ltac:(lia) Hn) as (c & i' & -> & Hdec). cbn [res_bind].
  destruct (c =? 0) eqn:Ec.
  { exists [], ofs. rewrite app_nil_r. split; [|split_and!; [lia|done|done]].
    apply Z.eqb_eq in Ec as ->. destruct Hdec as [_ [[? _]|[Hst _]]]; [lia|]. apply pieces_nul; [lia|done]. }
  destruct (decoded_piece s _ n c i' Hdec ltac:(lia)) as (Hsc & Hlen & Hi & Hp).
  set (c' := if c <? 0 then 32 else c) in *. cbv zeta in Hsc, Hlen, Hp.
  set (p := (c', i' - nbytes ps)) in *.
  assert (Hup : units (ps ++ [p]) = units ps ++ utf16 c') by (by rewrite units_app, units_one).
  assert (Hbp : nbytes (ps ++ [p]) = i') by (rewrite nbytes_app; simpl; lia).
  rewrite U16_APPEND_spec by (done || lia). cbn [res_bind].
  rewrite <- Hup. replace (zlen (units ps) + zlen (utf16 c')) with (zlen (units (ps ++ [p]))) by (rewrite Hup; zl).
  assert (Hroom : zlen (units (ps ++ [p])) <= i') by (rewrite Hup; zl).
  destruct (put_offset_spec dst_len ps p ofs i' Ht Ho ltac:(lia) ltac:(done)) as (ofs' & -> & Ht' & Ho'). cbn [res_bind].
  destruct (IH (ps ++ [p]) ofs') as (r & ofs2 & Hr & Hrn & Hrt & Heq); rewrite ?Hbp; try (done || lia).
  exists (p :: r), ofs2. rewrite <- app_assoc in *. cbn [app] in *. rewrite Hbp in Hr, Heq.
  split; [by apply Hp|]. split; [done|]. split; [done|].
  replace (dst_len - zlen (units ps) - zlen (utf16 c')) with (dst_len - zlen (units (ps ++ [p]))) by (rewrite Hup; zl).
  exact Heq.
Qed.

Lemma round4 n : 0 <= n < 2 ^ 30 -> exists d, ROUND4 (n + 1) = Done d /\ n < d <= n + 4.
Proof.
  intros Hn. unfold ROUND4. rewrite chk_int_ok by lia. cbn [res_bind]. eexists. split; [reflexivity|].
  rewrite <- Z.ldiff_land. change (Z.ldiff (n + 1 + 3) 3) with (Z.ldiff (n + 1 + 3) (Z.ones 2)). rewrite Z.ldiff_ones_r by lia.
  rewrite Z.shiftl_mul_pow2, Z.shiftr_div_pow2 by lia. change (2 ^ 2) with 4.
  pose proof (Z.div_mod (n + 1 + 3) 4). pose proof (Z.mod_pos_bound (n + 1 + 3) 4). lia.
Qed.

Lemma cursor_block_small d : 0 <= d < 2 ^ 28 -> cursor_block d = block d /\ sizeof_mm_cursor_t < block d.
Proof.
  intros Hd. unfold cursor_block, block, sizeof_mm_cursor_t.
  unfold s32, u64. rewrite !(u_small 64 d), (u_small 64 (d + 1)) by lia. rewrite (Z.mod_small _ (2 ^ 64)) by lia.
  rewrite wrap_s_small by lia. lia.
Qed.

(** A cursor over the text [ps] at the boundary [k]. *)
Definition cursor_ok (ps : list (Z * Z)) (bs : list (Z * Z)) (k : nat) (c : mm_cursor_t) : Prop :=
  (exists m, in_buffer c = (Some <$> units ps) ++ raw m) /\ table ps (in_offset c) /\ in_length c = zlen (units ps) /\
  ubrk_at (iter c) bs k /\ match out_buffer c with Some b => zlen b = out_length c | None => True end.

Lemma pieces_scalar s n i ps : pieces s n i ps -> Forall (fun p => scalar (fst p)) ps.
Proof.
  induction 1 as [| |i c r _ [Hc _] _ _ IH|i k r _ _ _ _ IH]; constructor; simpl; try done. split; lia.
Qed.

Lemma pieces_units s n i ps : pieces s n i ps -> zlen (units ps) <= Z.max 0 (n - i).
Proof.
  induction 1 as [| |i c r Hi (_ & Hle & _) _ _ IH|i k r _ Hk Hle _ IH]; cbn [units mbind list_bind]; try (change (zlen []) with 0; lia).
  - rewrite zlen_app. pose proof (utf16_le_utf8 c). pose proof (zlen_utf8 c). cbn [fst]. unfold units in IH. lia.
  - rewrite zlen_app. cbn [fst]. change (zlen (utf16 32)) with 1. unfold units in IH. lia.
Qed.

Lemma read_raw_text u m i n : 0 <= i -> 0 <= n -> i + n <= zlen u ->
  read_raw ((Some <$> u) ++ raw m) i n = Done (slice i n u).
Proof.
  intros Hi Hn Hle. unfold read_raw. rewrite zread_n_slice by (rewrite ?zlen_app, ?zlen_fmap; zlen_pos; lia).
  cbn [res_bind]. unfold slice. unfold zlen in Hle.
  rewrite drop_app_le by (rewrite length_fmap; lia).
  rewrite take_app_le by (rewrite length_drop, length_fmap; lia).
  rewrite <- fmap_drop, <- fmap_take. apply written_some.
Qed.

Lemma read_one_text u m i x : zread u i = Done x -> read_one ((Some <$> u) ++ raw m) i = Done x.
Proof.
  intros [Hi Hx]%zread_lookup. unfold read_one, zread. rewrite (proj2 (Z.leb_le _ _)) by lia.
  rewrite lookup_app_l by (rewrite length_fmap; unfold zlen in Hi; lia).
  rewrite list_lookup_fmap, Hx. done.
Qed.

(** The length of the input: given, or up to the zero byte. *)
Definition input_length (zInput : list Z) (nInput n : Z) : Prop :=
  nInput = n \/ (nInput < 0 /\ strlen zInput = Done n).

Lemma mmtok_open_spec locale s nInput n err : Forall is_byte s -> input_length s nInput n -> 0 <= n <= zlen s -> n < 2 ^ 28 - 4 ->
  memory_ok -> (forall text, U_FAILURE (snd (ubrk_open locale text)) = false) ->
  exists ps c, mmtok_open locale s nInput err = Done ((SQLITE_OK, Some c), err) /\ pieces s n 0 ps /\
    zlen (units ps) <= n /\ breaks_ok (units ps) (word_breaks locale (units ps)) /\
    cursor_ok ps (word_breaks locale (units ps)) 0 c /\ token_count c = 0 /\ ideo_state c = -1.
Proof.
  intros Hs Hin Hn Hsmall Hmem Hicu. unfold mmtok_open.
  rewrite (bind_lift_res _ _ _ n).
  2: { destruct Hin as [->|[Hneg ->]]; [by rewrite (proj2 (Z.ltb_ge _ _)) by lia|].
       rewrite (proj2 (Z.ltb_lt _ _)) by lia. cbn [res_bind]. unfold s32. by rewrite wrap_s_small by lia. }
  rewrite (bind_lift_res _ _ _ (n + 1)) by (apply chk_int_ok; lia).
  destruct (round4 n ltac:(lia)) as (d & Hd & Hdn). rewrite (bind_lift_res _ _ _ _ Hd).
  destruct (cursor_block_small d ltac:(lia)) as [-> Hb]. unfold sizeof_mm_cursor_t in Hb.
  unfold sqlite3_malloc. rewrite Hmem, (proj2 (Z.ltb_lt 0 _)), (proj2 (Z.ltb_ge _ sizeof_mm_cursor_t)) by (unfold sizeof_mm_cursor_t; lia).
  cbn [andb negb].
  destruct (zwrite_one (raw (d + 1)) 0 (Some 0)) as (ofs & Hw & Hl & Ho & _); [rewrite zlen_raw; lia|].
  rewrite (bind_lift_res _ _ _ ofs) by (unfold put_offset, block; by rewrite (proj2 (Z.leb_le _ _)) by lia).
  destruct (open_loop_spec (Z.to_nat n) s n d [] ofs) as (ps & ofs' & Hp & Hu & Ht & Heq); try (done || (simpl; lia)).
  { intros k Hk. simpl in Hk. by replace k with 0%nat by lia. }
  { rewrite Hl, zlen_raw; lia. }
  change (units []) with (@nil Z) in Heq. cbn [app nbytes foldr fmap list_fmap] in Heq. change (zlen []) with 0 in Heq.
  rewrite Z.sub_0_r in Heq. rewrite (bind_lift_res _ _ _ _ Heq). cbv beta iota.
  rewrite (bind_lift_res _ _ _ _ (read_raw_text (units ps) (d - zlen (units ps)) 0 (zlen (units ps)) ltac:(lia) (zlen_nonneg _) ltac:(lia))).
  unfold slice. rewrite to_nat_zlen. rewrite drop_0, take_ge by lia.
  pose proof (ubrk_open_law locale (units ps) (Hicu _)) as [Hbr Hat]. specialize (Hicu (units ps)).
  cbn [app] in *. destruct (ubrk_open locale (units ps)) as [it st]. simpl in Hicu, Hat. rewrite Hicu.
  eexists ps, _. split; [reflexivity|]. split; [done|]. split; [done|]. split; [done|]. split; [|done].
  split; [by eexists|]. done.
Qed.
End facts.

(** * The tokens of a text

    The tokens as the words of ICU determine them, and that [mmtok_next] delivers them. *)

(** ** The specification *)

(** The segments between boundaries: start, end and type. *)
Fixpoint segments (b : Z) (bs : list (Z * Z)) : list (Z * Z * Z) :=
  match bs with
  | [] => []
  | (e, st) :: r => (b, e, st) :: segments e r
  end.

(** The characters of the units [u], which are at offset [s]. *)
Fixpoint chars (u : list Z) (s : Z) : list (Z * Z) :=
  match u with
  | [] => []
  | x :: r =>
    if U16_IS_LEAD x then
      match r with
      | [] => [(s, s + 1)]
      | _ :: r => (s, s + 2) :: chars r (s + 2)
      end
    else (s, s + 1) :: chars r (s + 1)
  end.

(** The byte offset of a unit. *)
Fixpoint byte_offset (ps : list (Z * Z)) (u : Z) : Z :=
  if u <=? 0 then 0
  else match ps with
       | [] => 0
       | (c, n) :: ps => n + byte_offset ps (u - zlen (utf16 c))
       end.

Section spec.
Context `{Ic : Icu} {La : IcuLaws}.

(** The tokens of a segment: none for white space, each character of an ideographic one, the
    segment itself otherwise. *)
Definition seg_tokens (text : list Z) (g : Z * Z * Z) : list (Z * Z) :=
  let '(s, e, st) := g in
  if is_none st && ignored (nth (Z.to_nat s) text 0) then []
  else if is_ideo st then chars (slice s (e - s) text) s
  else [(s, e)].

(** The text of a token: its units normalised and case-folded, if there is room for 256 units after
    each step. *)
Definition token_text (u : list Z) : option (list Z) :=
  match nfkd u with
  | None => None
  | Some n =>
    if 256 <? zlen n then None
    else match fold_case n with
         | None => None
         | Some f => if 256 <? zlen f then None else to_bytes f
         end
  end.

(** What the code makes of a word: a longer one is cut to 256 units first. *)
Definition cut_text (u : list Z) : option (list Z) := token_text (take 256 u).

(** A token of at most 256 units. *)
Definition short_token (t : Z * Z) : Prop := t.2 - t.1 <= 256.

(** What the caller gets for a list of tokens with the texts [f]: them, up to the first that has no
    text. *)
Fixpoint expected_by (f : list Z -> option (list Z)) (ps : list (Z * Z)) (l : list (Z * Z)) (pos : Z) : list token * Z :=
  match l with
  | [] => ([], SQLITE_DONE)
  | (s, e) :: l =>
    match f (slice s (e - s) (units ps)) with
    | None => ([], SQLITE_ERROR)
    | Some t =>
      let '(ts, rc) := expected_by f ps l (pos + 1) in
      (Token t (byte_offset ps s) (byte_offset ps e) pos :: ts, rc)
    end
  end.

Definition expected := expected_by token_text.

Lemma expected_short ps l pos : Forall short_token l -> expected_by cut_text ps l pos = expected ps l pos.
Proof.
  intros H. revert pos. unfold expected. induction H as [|[s e] l Ht _ IH]; intros pos; [done|]. cbn [expected_by].
  unfold cut_text at 1. unfold short_token in Ht. cbn [fst snd] in Ht. rewrite take_ge.
  - destruct (token_text _); [|done]. by rewrite IH.
  - unfold slice. rewrite length_take. lia.
Qed.

(** All tokens of a text with these boundaries. *)
Definition all_tokens (text : list Z) (bs : list (Z * Z)) : list (Z * Z) :=
  match bs with
  | [] => []
  | (b, _) :: r => segments b r ≫= seg_tokens text
  end.
End spec.

(** The caller: tokens until there is none. *)
Fixpoint drain `{Icu} (fuel : nat) : cm mmstate (list token * Z) :=
  match fuel with
  | O => fail OutOfFuel
  | S fuel =>
    let! (rc, t) := mmtok_next in
    match t with
    | None => ret ([], rc)
    | Some t => let! (ts, rc) := drain fuel in ret (t :: ts, rc)
    end
  end.

(** ** Characters and offsets *)

Lemma lead_not c : 0 <= c <= 65535 -> ~ (55296 <= c <= 57343) -> U16_IS_LEAD c = false.
Proof.
  intros Hc Hs. unfold U16_IS_LEAD. apply Z.eqb_neq. intros E.
  assert (Hd : Z.shiftr c 10 = 54).
  { replace 54 with (Z.shiftr (Z.land c 4294966272) 10) by (by rewrite E).
    rewrite Z.shiftr_land. change (Z.shiftr 4294966272 10) with (Z.ones 22). rewrite Z.land_ones by lia.
    rewrite Z.shiftr_div_pow2 by lia. rewrite Z.mod_small; [done|].
    split; [apply Z.div_pos; lia|]. apply Z.div_lt_upper_bound; lia. }
  rewrite Z.shiftr_div_pow2 in Hd by lia. change (2 ^ 10) with 1024 in Hd.
  pose proof (Z.div_mod c 1024 ltac:(lia)). pose proof (Z.mod_pos_bound c 1024 ltac:(lia)). lia.
Qed.

Lemma lead_high c : 65535 < c <= 1114111 -> U16_IS_LEAD (55232 + c / 1024) = true /\ 55296 <= 55232 + c / 1024 <= 56319.
Proof.
  intros Hc. assert (H : 64 <= c / 1024 < 1088) by (split; [apply Z.div_le_lower_bound|apply Z.div_lt_upper_bound]; lia).
  split; [|lia]. unfold U16_IS_LEAD. apply Z.eqb_eq.
  change 4294966272 with (Z.shiftl (Z.ones 22) 10).
  set (x := 55232 + c / 1024) in *. assert (Hx : x / 1024 = 54) by (subst x; symmetry; apply Z.div_unique with (c / 1024 - 64); lia).
  replace x with (Z.lor (x mod 1024) (Z.shiftl 54 10)).
  2: { rewrite lor_shift by (pose proof (Z.mod_pos_bound x 1024); lia). change (2 ^ 10) with 1024.
       pose proof (Z.div_mod x 1024). lia. }
  rewrite Z.land_lor_distr_l, <- Z.shiftl_land. change (Z.shiftl (Z.land 54 (Z.ones 22)) 10) with 55296.
  replace (Z.land (x mod 1024) (Z.shiftl (Z.ones 22) 10)) with 0; [done|].
  symmetry. apply Z.bits_inj'. intros k Hk. rewrite Z.land_spec, Z.bits_0, Z.shiftl_spec by lia.
  destruct (Z_lt_dec k 10).
  - rewrite (Z.testbit_neg_r _ (k - 10)) by lia. apply andb_false_r.
  - change 1024 with (2 ^ 10). by rewrite Z.mod_pow2_bits_high by lia.
Qed.

Lemma utf16_cases c : scalar c ->
  (utf16 c = [c] /\ U16_IS_LEAD c = false /\ ~ (55296 <= c <= 57343)) \/
  (exists h t, utf16 c = [h; t] /\ U16_IS_LEAD h = true /\ 55296 <= h <= 56319 /\ 56320 <= t <= 57343).
Proof.
  intros [Hc Hs]. unfold utf16. destruct (c <=? 65535) eqn:E.
  - left. split; [done|]. split; [apply lead_not; lia|done].
  - right. destruct (lead_high c ltac:(lia)) as [H1 H2]. eexists _, _. split; [done|]. split; [done|]. split; [done|].
    pose proof (Z.mod_pos_bound c 1024). lia.
Qed.

(** Cutting a text of whole characters. *)
Lemma chars_app ps u s : Forall (fun p => scalar (fst p)) ps ->
  chars (units ps ++ u) s = chars (units ps) s ++ chars u (s + zlen (units ps)).
Proof.
  intros Hps. revert s. induction Hps as [|p ps Hp Hps IH]; intros s.
  { change (units []) with (@nil Z). change (zlen []) with 0. by rewrite Z.add_0_r. }
  change (p :: ps) with ([p] ++ ps). rewrite units_app, units_one.
  destruct (utf16_cases (fst p) Hp) as [(-> & Hl & _)|(h & t & -> & Hl & _)]; cbn [app chars]; rewrite Hl.
  - rewrite IH. cbn [app]. do 3 f_equal. zl.
  - rewrite IH. cbn [app]. do 3 f_equal. zl.
Qed.

Lemma byte_offset_table ps k : (k <= length ps)%nat -> byte_offset ps (zlen (units (take k ps))) = nbytes (take k ps).
Proof.
  revert k. induction ps as [|[c n] ps IH]; intros [|k] Hk; simpl in Hk; try (done || lia).
  cbn [take]. change ((c, n) :: take k ps) with ([(c, n)] ++ take k ps). rewrite units_app, units_one. cbn [fst].
  cbn [byte_offset app nbytes foldr snd]. pose proof (zlen_utf16 c).
  rewrite (proj2 (Z.leb_gt _ _)) by zl. rewrite zlen_app.
  replace (zlen (utf16 c) + zlen (units (take k ps)) - zlen (utf16 c)) with (zlen (units (take k ps))) by lia.
  rewrite IH by lia. done.
Qed.

(** An offset between two characters. *)
Definition between (ps : list (Z * Z)) (u : Z) : Prop := exists k, (k <= length ps)%nat /\ u = zlen (units (take k ps)).

Lemma zread_shift {A} (x : A) l i : 1 <= i -> zread (x :: l) i = zread l (i - 1).
Proof.
  intros Hi. unfold zread. rewrite !(proj2 (Z.leb_le _ _)) by lia.
  by replace (Z.to_nat i) with (S (Z.to_nat (i - 1))) by lia.
Qed.

Lemma inside_pair_shift x l b : 1 <= b -> inside_pair l (b - 1) -> inside_pair (x :: l) b.
Proof.
  intros Hb (y & z & H1 & H2 & Hr). exists y, z. apply zread_lookup in H1 as Hge.
  rewrite !zread_shift by lia. done.
Qed.

Lemma not_inside_between ps b : Forall (fun p => scalar (fst p)) ps -> 0 <= b <= zlen (units ps) ->
  ~ inside_pair (units ps) b -> between ps b.
Proof.
  intros Hps. revert b. induction Hps as [|p ps Hp Hps IH]; intros b Hb Hno.
  { exists 0%nat. change (zlen (units [])) with 0 in Hb. split; [done|]. change (zlen (units (take 0 []))) with 0. lia. }
  destruct (decide (b = 0)) as [->|Hb0]; [by exists 0%nat; split; [lia|]|].
  change (p :: ps) with ([p] ++ ps) in Hb, Hno. rewrite units_app, units_one in Hb, Hno.
  assert (Hs : forall k, zlen (units (take (S k) (p :: ps))) = zlen (utf16 (fst p)) + zlen (units (take k ps))).
  { intros k. cbn [take]. change (p :: take k ps) with ([p] ++ take k ps). by rewrite units_app, units_one, zlen_app. }
  destruct (utf16_cases (fst p) Hp) as [(E & _)|(h & t & E & _ & Hh & Ht)]; rewrite E in *; cbn [app] in *.
  - destruct (IH (b - 1)) as (k & Hk & He); [zl|by intros Hi; apply Hno, inside_pair_shift; [lia|]|].
    exists (S k). split; [simpl; lia|]. rewrite Hs. change (zlen [fst p]) with 1. lia.
  - destruct (decide (b = 1)) as [->|Hb1].
    { destruct Hno. exists h, t. done. }
    destruct (IH (b - 2)) as (k & Hk & He); [zl| |].
    + intros Hi. apply Hno, inside_pair_shift; [lia|]. apply inside_pair_shift; [lia|]. by replace (b - 1 - 1) with (b - 2) by lia.
    + exists (S k). split; [simpl; lia|]. rewrite Hs. change (zlen [h; t]) with 2. lia.
Qed.

(** ** [output_token] *)

Section tokens.
Context `{Ic : Icu} {La : IcuLaws}.
Context (ps : list (Z * Z)) (bs : list (Z * Z)).
Context (Hps : Forall (fun p => scalar (fst p)) ps) (Hbs : breaks_ok (units ps) bs).
Context (Hmem : memory_ok) (Hlen : zlen (units ps) < 2 ^ 28).
Let text := units ps.

(** Two cursors that differ in the output buffer and the counter only. *)
Definition same_but_out (c c' : mm_cursor_t) : Prop :=
  iter c' = iter c /\ in_buffer c' = in_buffer c /\ in_offset c' = in_offset c /\ in_length c' = in_length c /\
  ideo_start c' = ideo_start c /\ ideo_end c' = ideo_end c /\ ideo_state c' = ideo_state c.

Lemma token_failed_spec what status u s (Q : Z * option token -> mmstate -> Prop) :
  u <> [] -> (forall s', Q (SQLITE_ERROR, None) s') -> wp (token_failed what status u) Q s.
Proof.
  intros Hu HQ. unfold token_failed, generate_token_printable_code. rewrite Hmem. destruct u; [done|]. simpl.
  eapply wp_bind_lift_res; [reflexivity|]. cbv beta iota. apply wp_bind, wp_zoom. simpl. apply wp_ret, HQ.
Qed.

(** The output buffer [b] has its length and, with enough room, begins with [r]. *)
Definition holds (c : mm_cursor_t) (r : list Z) : Prop :=
  exists b, out_buffer c = Some b /\ zlen b = out_length c /\ (zlen r <= out_length c -> read_raw b 0 (zlen r) = Done r).

Lemma to_utf8_spec u status s b : out_buffer (cur s) = Some b -> zlen b = out_length (cur s) -> U_FAILURE status = false ->
  wp (to_utf8 u status) (fun '(result, status') s' =>
    last_error s' = last_error s /\ same_but_out (cur s) (cur s') /\ token_count (cur s') = token_count (cur s) /\
    out_length (cur s') = out_length (cur s) /\
    match to_bytes u with
    | Some r => result = zlen r /\ U_FAILURE status' = (out_length (cur s) <? result) /\ holds (cur s') r
    | None => U_FAILURE status' = true /\ result <= out_length (cur s)
    end) s.
Proof.
  intros Hb Hl Hst. unfold to_utf8. apply wp_bind_gets.
  pose proof (utf8_law u (out_length (cur s)) status Hst ltac:(zl)) as Hc.
  destruct (u_strToUTF8 u (out_length (cur s)) status) as [[bytes result] status'].
  rewrite Hb. assert (Hbytes : zlen bytes <= zlen b).
  { rewrite Hl. destruct (to_bytes u); [destruct Hc as (_ & _ & -> & _)|by apply Hc].
    unfold zlen. rewrite length_take. rewrite <- Hl. unfold zlen. lia. }
  assert (Hw : zwrite_n b 0 (Some <$> bytes) = Done ((Some <$> bytes) ++ drop (length bytes) b)).
  { rewrite <- (take_drop (length bytes) b) at 1. apply (zwrite_n_app []); [done|].
    rewrite zlen_fmap. unfold zlen in *. rewrite length_take. lia. }
  eapply wp_bind_lift_res; [exact Hw|].
  apply wp_bind_modify. apply wp_ret. cbn [app]. simpl. split_and!; try done.
  destruct (to_bytes u) as [r|]; [|destruct Hc as (? & _ & ?); done].
  destruct Hc as (_ & -> & -> & ->). split; [done|]. split; [done|].
  eexists. split; [reflexivity|]. simpl.
  assert (Hz : zlen ((Some <$> take (Z.to_nat (out_length (cur s))) r) ++ drop (length (take (Z.to_nat (out_length (cur s))) r)) b)
               = out_length (cur s)).
  { rewrite zlen_app, zlen_fmap. rewrite <- Hl at 3. rewrite <- Hl in Hbytes. unfold zlen in *.
    rewrite length_drop. rewrite length_take in *. lia. }
  split; [exact Hz|]. intros Hr.
  unfold read_raw. rewrite take_ge by (unfold zlen in Hr; lia).
  rewrite <- (app_nil_l ((Some <$> r) ++ _)). rewrite (zread_n_app [] (Some <$> r)) by (done || by rewrite zlen_fmap).
  apply written_some.
Qed.

Lemma read_offset ofs u : table ps ofs -> between ps u -> read_one ofs u = Done (byte_offset ps u).
Proof.
  intros Ht (k & Hk & ->). unfold read_one. rewrite (Ht k Hk). cbn [res_bind]. by rewrite byte_offset_table.
Qed.

Lemma between_range u : between ps u -> 0 <= u <= zlen text.
Proof.
  intros (k & Hk & ->). split; [zl|]. subst text. rewrite <- (take_drop k ps) at 2. rewrite units_app. zl.
Qed.

Lemma deliver_spec start end_ r s : holds (cur s) r -> zlen r <= out_length (cur s) -> table ps (in_offset (cur s)) ->
  between ps start -> between ps end_ -> 0 <= token_count (cur s) < 2 ^ 30 ->
  wp (deliver start end_ (zlen r)) (fun '(rc, t) s' =>
    rc = SQLITE_OK /\ t = Some (Token r (byte_offset ps start) (byte_offset ps end_) (token_count (cur s))) /\
    same_but_out (cur s) (cur s') /\ token_count (cur s') = token_count (cur s) + 1 /\
    exists b, out_buffer (cur s') = Some b /\ zlen b = out_length (cur s')) s.
Proof.
  intros (b & Hb & Hl & Hr) Hle Ht Hs He Hc. unfold deliver. apply wp_bind_gets. rewrite Hb.
  eapply wp_bind_lift_res; [by apply Hr|]. eapply wp_bind_lift_res; [by apply read_offset|].
  eapply wp_bind_lift_res; [by apply read_offset|]. eapply wp_bind_lift_res; [apply chk_int_ok; lia|].
  apply wp_bind_modify, wp_ret. simpl. split_and!; try done. by exists b.
Qed.

Definition out_ok (c : mm_cursor_t) : Prop := match out_buffer c with Some b => zlen b = out_length c | None => True end.

Lemma ensure_out_spec s : out_ok (cur s) ->
  wp ensure_out (fun ok s' => ok = true /\ same_but_out (cur s) (cur s') /\ token_count (cur s') = token_count (cur s) /\
    exists b, out_buffer (cur s') = Some b /\ zlen b = out_length (cur s')) s.
Proof.
  intros Ho. unfold ensure_out, out_ok in *. apply wp_bind_gets. destruct (out_buffer (cur s)) as [b|] eqn:E.
  - apply wp_ret. split_and!; try done. by exists b.
  - unfold sqlite3_malloc. rewrite Hmem. simpl. apply wp_bind_modify, wp_ret. simpl. split_and!; try done. by eexists.
Qed.

Lemma grow_out_spec n s b : out_buffer (cur s) = Some b -> zlen b = out_length (cur s) -> out_length (cur s) < n < 2 ^ 31 ->
  wp (grow_out n) (fun ok s' => ok = true /\ same_but_out (cur s) (cur s') /\ token_count (cur s') = token_count (cur s) /\
    out_length (cur s') = n /\ exists b, out_buffer (cur s') = Some b /\ zlen b = n) s.
Proof.
  intros Hb Hl Hn. unfold grow_out, sqlite3_malloc. zlen_pos.
  assert (s32 (u64 n) = n) as -> by (unfold s32, u64; rewrite u_small, wrap_s_small by lia; done).
  rewrite Hmem, (proj2 (Z.ltb_lt 0 n)) by lia. cbn [andb]. apply wp_bind_modify, wp_ret. simpl. rewrite Hb.
  split_and!; try done. eexists. split; [reflexivity|]. rewrite zlen_app, zlen_raw by lia.
  rewrite take_ge by (unfold zlen in *; lia). lia.
Qed.

(** The last conversion, with a larger buffer when the first is too small. *)
Lemma convert_spec u status s b start end_ :
  out_buffer (cur s) = Some b -> zlen b = out_length (cur s) -> U_FAILURE status = false -> u <> [] -> zlen u <= 256 ->
  table ps (in_offset (cur s)) -> between ps start -> between ps end_ -> 0 <= token_count (cur s) < 2 ^ 30 ->
  wp (let! (result, status) := to_utf8 u status in
      let! n := gets (fun s => out_length (cur s)) in
      let! again :=
        if n <? result then
          let! ok := grow_out result in
          if ok then let! r := to_utf8 u U_ZERO_ERROR in ret (Some r) else ret None
        else ret (Some (result, status)) in
      match again with
      | None => ret (SQLITE_NOMEM, None)
      | Some (result, status) =>
        let! n := gets (fun s => out_length (cur s)) in
        if U_FAILURE status || (n <? result) then
          token_failed (str "Transform token to UTF-8 failed.") status u
        else deliver start end_ result
      end)
    (fun '(rc, t) s' =>
      match to_bytes u with
      | Some r => rc = SQLITE_OK /\ t = Some (Token r (byte_offset ps start) (byte_offset ps end_) (token_count (cur s))) /\
          same_but_out (cur s) (cur s') /\ token_count (cur s') = token_count (cur s) + 1 /\ out_ok (cur s')
      | None => rc = SQLITE_ERROR /\ t = None
      end) s.
Proof.
  intros Hb Hl Hst Hu Hlen_u Ht Hs He Hc. apply wp_bind. eapply wp_mono; [by apply (to_utf8_spec u status s b)|].
  intros [result status'] s1 (_ & Hsame & Htc & Hol & Hr). apply wp_bind_gets. apply wp_bind.
  rewrite Hol. destruct (to_bytes u) as [r|] eqn:Er.
  2: { destruct Hr as [Hf Hle]. rewrite (proj2 (Z.ltb_ge _ _)) by done. apply wp_ret, wp_bind_gets. rewrite Hf. by apply token_failed_spec. }
  destruct Hr as (-> & Hf & Hh). pose proof (to_bytes_length u r Er) as Hrl.
  assert (Hend : forall s2, same_but_out (cur s) (cur s2) -> token_count (cur s2) = token_count (cur s) -> holds (cur s2) r ->
            zlen r <= out_length (cur s2) ->
            wp (deliver start end_ (zlen r)) (fun '(rc, t) s' => rc = SQLITE_OK /\
              t = Some (Token r (byte_offset ps start) (byte_offset ps end_) (token_count (cur s))) /\
              same_but_out (cur s) (cur s') /\ token_count (cur s') = token_count (cur s) + 1 /\ out_ok (cur s')) s2).
  { intros s2 Hs2 Ht2 Hh2 Hle2. pose proof Hs2 as (E1 & E2 & E3 & E4 & E5 & E6 & E7).
    eapply wp_mono; [apply deliver_spec; try done; [by rewrite E3|by rewrite Ht2]|].
    intros [rc t] s3 (-> & -> & (F1 & F2 & F3 & F4 & F5 & F6 & F7) & Htc3 & b3 & Hb3 & Hl3).
    rewrite Ht2. split_and!; try done; [split_and!; congruence|by rewrite Htc3, Ht2|by unfold out_ok; rewrite Hb3]. }
  destruct (out_length (cur s) <? zlen r) eqn:E.
  - destruct Hh as (b1 & Hb1 & Hl1 & _). apply wp_bind. eapply wp_mono; [apply (grow_out_spec _ s1 b1); [done|done|lia]|].
    intros ok s2 (-> & Hs2 & Ht2 & Ho2 & b2 & Hb2 & Hl2). apply wp_bind.
    eapply wp_mono; [apply (to_utf8_spec u U_ZERO_ERROR s2 b2); [done|congruence|done]|].
    intros [result st3] s3 (_ & Hs3 & Ht3 & Ho3 & Hr3). rewrite Er in Hr3. destruct Hr3 as (-> & Hf3 & Hh3).
    apply wp_ret, wp_bind_gets. rewrite Hf3, Ho3, Ho2, Z.ltb_irrefl. cbn [orb]. apply Hend; try done; [|congruence|lia].
    destruct Hsame as (?&?&?&?&?&?&?), Hs2 as (?&?&?&?&?&?&?), Hs3 as (?&?&?&?&?&?&?). split_and!; congruence.
  - apply wp_ret, wp_bind_gets. rewrite Hf, Hol, E. cbn [orb]. apply Hend; try done. lia.
Qed.

Lemma output_token_spec s e st : (exists m, in_buffer (cur st) = (Some <$> units ps) ++ raw m) ->
  table ps (in_offset (cur st)) -> out_ok (cur st) -> between ps s -> between ps e -> s < e -> 0 <= token_count (cur st) < 2 ^ 30 ->
  wp (output_token s e) (fun '(rc, t) st' =>
    match cut_text (slice s (e - s) text) with
    | Some r => rc = SQLITE_OK /\ t = Some (Token r (byte_offset ps s) (byte_offset ps e) (token_count (cur st))) /\
        same_but_out (cur st) (cur st') /\ token_count (cur st') = token_count (cur st) + 1 /\ out_ok (cur st')
    | None => rc = SQLITE_ERROR /\ t = None
    end) st.
Proof.
  intros [m Hin] Ht Ho Hs He Hlt Hc. pose proof (between_range _ Hs). pose proof (between_range _ He). subst text.
  unfold output_token. apply wp_bind_gets. eapply wp_bind_lift_res; [apply chk_int_ok; lia|].
  set (len := if 256 <? e - s then 256 else e - s). assert (Hlen' : 1 <= len <= 256 /\ s + len <= zlen (units ps)) by (subst len; case_match; lia).
  eapply wp_bind_lift_res; [rewrite Hin; apply read_raw_text; lia|].
  assert (Hsrc : slice s len (units ps) = take 256 (slice s (e - s) (units ps))).
  { unfold slice. rewrite take_take. f_equal. subst len. case_match; lia. }
  assert (Hne : slice s len (units ps) <> []) by (intros E; pose proof (zlen_slice (units ps) s len); rewrite E in *; change (zlen []) with 0 in *; lia).
  unfold cut_text, token_text. rewrite <- Hsrc. pose proof (nfkd_law (slice s len (units ps)) 256 U_ZERO_ERROR eq_refl ltac:(lia)) as Hn.
  destruct (unorm_normalize (slice s len (units ps)) 256 U_ZERO_ERROR) as [[buf1 r1] st1].
  destruct (nfkd (slice s len (units ps))) as [n|] eqn:En.
  2: { destruct Hn as (-> & _). cbn [orb]. by apply token_failed_spec. }
  destruct Hn as (Hn31 & -> & -> & Hst1). zlen_pos.
  assert (u64 (zlen n) = zlen n) as -> by (unfold u64; rewrite u_small; lia). rewrite Hst1.
  destruct (256 <? zlen n) eqn:E256; cbn [orb]; [by apply token_failed_spec|].
  rewrite take_ge by (unfold zlen in E256; lia).
  eapply wp_bind_lift_res; [by apply (zread_n_tail [] n)|].
  pose proof (nfkd_nonempty _ _ Hne En) as Hn0.
  pose proof (fold_law n 256 st1 Hst1 ltac:(lia)) as Hf. destruct (u_strFoldCase n 256 st1) as [[buf2 r2] st2].
  destruct (fold_case n) as [f|] eqn:Ef.
  2: { destruct Hf as (-> & _). cbn [orb]. by apply token_failed_spec. }
  destruct Hf as (Hf31 & -> & -> & Hst2). zlen_pos.
  assert (u64 (zlen f) = zlen f) as -> by (unfold u64; rewrite u_small; lia). rewrite Hst2.
  destruct (256 <? zlen f) eqn:E256f; cbn [orb]; [by apply token_failed_spec|].
  rewrite take_ge by (unfold zlen in E256f; lia).
  apply wp_bind. eapply wp_mono; [by apply ensure_out_spec|]. intros ok s1 (-> & Hsame & Htc & b & Hb & Hl). cbn [negb].
  eapply wp_bind_lift_res; [by apply (zread_n_tail [] f)|].
  pose proof Hsame as (E1 & E2 & E3 & E4 & E5 & E6 & E7).
  eapply wp_mono; [eapply (convert_spec f st2 s1 b s e); try done; [by eapply fold_nonempty|lia|by rewrite E3|by rewrite Htc]|].
  intros [rc t] s2. destruct (to_bytes f) as [r|]; [|done]. rewrite Htc.
  intros (-> & -> & (F1 & F2 & F3 & F4 & F5 & F6 & F7) & ? & ?). split_and!; try done. split_and!; congruence.
Qed.

(** ** Boundaries *)

Lemma breaks_lt i j b b' st st' : bs !! i = Some (b, st) -> bs !! j = Some (b', st') -> (i < j)%nat -> b < b'.
Proof.
  destruct Hbs as (_ & _ & Hup & _). intros Hi Hj Hij. revert b' st' Hj. induction Hij as [|j Hij IH]; intros b' st' Hj.
  - by eapply Hup.
  - destruct (bs !! j) as [[c stc]|] eqn:E.
    + specialize (IH c stc eq_refl). specialize (Hup j c b' stc st' E Hj). lia.
    + apply lookup_ge_None in E. apply lookup_lt_Some in Hj. lia.
Qed.

Lemma break_between k b st : bs !! k = Some (b, st) -> between ps b.
Proof.
  intros Hk. pose proof breaks_lt as Hlt. destruct Hbs as ((st0 & r & Hb0) & (stn & Hlast) & _ & Hno).
  apply not_inside_between; [done| |by apply Hno with st, list_elem_of_lookup_2 with k].
  assert (H0 : bs !! 0%nat = Some (0, st0)) by (by rewrite Hb0).
  rewrite last_lookup in Hlast. apply lookup_lt_Some in Hk as Hkl.
  split.
  - destruct k as [|k]; [rewrite H0 in Hk; injection Hk; lia|]. pose proof (Hlt 0%nat (S k) 0 b st0 st H0 Hk). lia.
  - destruct (decide (k = pred (length bs))) as [->|]; [rewrite Hlast in Hk; injection Hk; lia|].
    pose proof (Hlt k (pred (length bs)) b _ st _ Hk Hlast). lia.
Qed.

Lemma break_ge k b st : bs !! k = Some (b, st) -> Z.of_nat k <= b.
Proof.
  revert b st. induction k as [|k IH]; intros b st Hk.
  - pose proof (between_range _ (break_between _ _ _ Hk)). lia.
  - destruct (bs !! k) as [[c stc]|] eqn:E; [|apply lookup_ge_None in E; apply lookup_lt_Some in Hk; lia].
    specialize (IH _ _ eq_refl). pose proof (breaks_lt k (S k) c b stc st E Hk). lia.
Qed.

Lemma breaks_count : Z.of_nat (length bs) <= zlen text + 1.
Proof.
  destruct (decide (length bs = 0)%nat) as [->|]; [zl|].
  destruct (lookup_lt_is_Some_2 bs (pred (length bs))) as [[b st] Hb]; [lia|].
  pose proof (break_ge _ _ _ Hb). pose proof (between_range _ (break_between _ _ _ Hb)). lia.
Qed.

(** ** The tokens that are left *)

Definition rest_tokens (k : nat) : list (Z * Z) :=
  match bs !! k with
  | Some (b, _) => segments b (drop (S k) bs) ≫= seg_tokens text
  | None => []
  end.

Lemma rest_tokens_step k b st e st' : bs !! k = Some (b, st) -> bs !! S k = Some (e, st') ->
  rest_tokens k = seg_tokens text (b, e, st') ++ rest_tokens (S k).
Proof.
  intros Hk Hk'. unfold rest_tokens. rewrite Hk, Hk'. rewrite (drop_S bs (e, st') (S k)) by done. done.
Qed.

Lemma rest_tokens_end k b st : bs !! k = Some (b, st) -> bs !! S k = None -> rest_tokens k = [].
Proof.
  intros Hk Hk'. unfold rest_tokens. rewrite Hk. apply lookup_ge_None in Hk'. by rewrite drop_ge.
Qed.

Definition ideo_part (c : mm_cursor_t) : list (Z * Z) :=
  if ideo_state c <? 0 then [] else chars (slice (ideo_start c) (ideo_end c - ideo_start c) text) (ideo_start c).

Definition pending (c : mm_cursor_t) (k : nat) : list (Z * Z) := ideo_part c ++ rest_tokens k.

Definition zu (k : nat) : Z := zlen (units (take k ps)).

Definition ideo_ok (c : mm_cursor_t) : Prop :=
  ideo_state c < 0 \/
  exists i j, (i <= j <= length ps)%nat /\ ideo_start c = zu i /\ ideo_end c = zu j.

Lemma zu_S i p : ps !! i = Some p -> zu (S i) = zu i + zlen (utf16 (fst p)).
Proof. intros Hp. unfold zu. rewrite (take_S_r _ _ p) by done. by rewrite units_app, units_one, zlen_app. Qed.

Lemma slice_units i j : (i <= j <= length ps)%nat -> slice (zu i) (zu j - zu i) text = units (take (j - i) (drop i ps)).
Proof.
  intros Hij. unfold zu, text.
  assert (Hj : take j ps = take i ps ++ take (j - i) (drop i ps)).
  { rewrite take_drop_commute. replace (i + (j - i))%nat with j by lia. rewrite <- (take_drop i (take j ps)) at 1.
    by rewrite take_take, Nat.min_l by lia. }
  assert (Ht : units ps = units (take i ps) ++ units (take (j - i) (drop i ps)) ++ units (drop j ps))
    by (by rewrite app_assoc, <- units_app, <- Hj, <- units_app, take_drop).
  rewrite Hj, units_app, zlen_app, Ht. unfold slice.
  rewrite to_nat_zlen, drop_app_length.
  replace (Z.to_nat _) with (length (units (take (j - i) (drop i ps)))) by (unfold zlen; lia).
  by rewrite take_app_length.
Qed.

Lemma zu_mono i j : (i <= j)%nat -> zu i <= zu j.
Proof.
  intros Hij. unfold zu. replace (take i ps) with (take i (take j ps)) by (by rewrite take_take, Nat.min_l by lia).
  rewrite <- (take_drop i (take j ps)) at 2. rewrite units_app. zl.
Qed.

Lemma between_zu i : (i <= length ps)%nat -> between ps (zu i).
Proof. intros Hi. by exists i. Qed.

Definition good (k : nat) (s : mmstate) : Prop := cursor_ok ps bs k (cur s) /\ (k < length bs)%nat /\ ideo_ok (cur s).

Lemma cursor_ok_eq k c c' : cursor_ok ps bs k c -> same_but_out c c' -> out_ok c' -> cursor_ok ps bs k c'.
Proof.
  intros (H1 & H2 & H3 & H4 & _) (E1 & E2 & E3 & E4 & _) Ho. unfold cursor_ok. rewrite E1, E2, E3, E4. done.
Qed.

Lemma take_drop_cons i j p : (i < j)%nat -> ps !! i = Some p -> take (j - i) (drop i ps) = p :: take (j - S i) (drop (S i) ps).
Proof. intros Hij Hp. rewrite (drop_S ps p i) by done. by replace (j - i)%nat with (S (j - S i)) by lia. Qed.

(** The next pending ideograph. *)
Lemma find_splited_spec k s : good k s ->
  wp find_splited_ideo_token (fun r s' =>
    match ideo_part (cur s) with
    | [] => r = None /\ ideo_state (cur s') < 0 /\ cursor_ok ps bs k (cur s') /\ token_count (cur s') = token_count (cur s)
    | (b, e) :: l => r = Some (b, e) /\ between ps b /\ between ps e /\ b < e /\ good k s' /\ ideo_part (cur s') = l /\
        token_count (cur s') = token_count (cur s)
    end) s.
Proof.
  intros (Hok & Hk & Hid). unfold find_splited_ideo_token, ideo_part. apply wp_bind_gets.
  destruct (ideo_state (cur s) <? 0) eqn:Es; [apply wp_ret; split_and!; (done || lia)|].
  destruct Hid as [?|(i & j & Hij & Hi & Hj)]; [lia|]. rewrite Hi, Hj, slice_units by done.
  destruct (decide (i = j)) as [<-|Hne].
  { rewrite Nat.sub_diag, Z.eqb_refl. apply wp_bind_modify, wp_ret. done. }
  destruct (lookup_lt_is_Some_2 ps i) as [p Hp]; [lia|]. pose proof (zu_S i p Hp) as HS.
  assert (Hsc : scalar (fst p)) by (by apply (proj1 (Forall_lookup _ ps) Hps i)).
  pose proof (zu_mono (S i) j ltac:(lia)) as Hm. pose proof (zlen_utf16 (fst p)).
  pose proof (between_range _ (between_zu i ltac:(lia))). pose proof (between_range _ (between_zu j ltac:(lia))).
  pose proof (slice_units i j Hij) as Hsl. rewrite (take_drop_cons i j p) in * by (done || lia).
  change (p :: ?r) with ([p] ++ r) in *. rewrite units_app, units_one in *.
  rewrite (proj2 (Z.eqb_neq _ _)) by lia. eapply wp_bind_lift_res; [apply chk_int_ok; subst text; lia|].
  assert (Hread : forall x u, utf16 (fst p) = x :: u -> read_one (in_buffer (cur s)) (zu i) = Done x).
  { intros x u Hx. destruct Hok as ((m & ->) & _). apply read_one_text.
    destruct (zread_ok text (zu i)) as (y & Hy & _); [subst text; lia|]. rewrite (slice_cons text _ _ y) in Hsl by (done || lia).
    rewrite Hx in Hsl. injection Hsl as -> _. exact Hy. }
  assert (Hgood : forall s', cur s' = set_ideo (zu (S i)) (zu j) (ideo_state (cur s)) (cur s) ->
            good k s' /\ (if ideo_state (cur s') <? 0 then []
              else chars (slice (ideo_start (cur s')) (ideo_end (cur s') - ideo_start (cur s')) text) (ideo_start (cur s'))) =
              chars (units (take (j - S i) (drop (S i) ps))) (zu (S i)) /\ token_count (cur s') = token_count (cur s)).
  { intros s' Hs'. unfold good. rewrite Hs'. cbn [ideo_state ideo_start ideo_end set_ideo]. rewrite Es, slice_units by lia.
    split; [|done]. split; [exact Hok|]. split; [done|]. right. exists (S i), j. split; [lia|done]. }
  pose proof (between_zu i ltac:(lia)). pose proof (between_zu (S i) ltac:(lia)).
  destruct (utf16_cases (fst p) Hsc) as [(E & Hl & _)|(h & t & E & Hl & _)]; rewrite E in *; cbn [app chars]; rewrite Hl.
  - eapply wp_bind_lift_res; [by eapply Hread|]. rewrite Hl. eapply wp_bind_lift_res; [reflexivity|]. cbn [andb].
    change (zlen [fst p]) with 1 in HS. rewrite <- HS. apply wp_bind_modify, wp_ret.
    destruct (Hgood (set_cur (set_ideo (zu (S i)) (zu j) (ideo_state (cur s)) (cur s)) s) eq_refl) as (G1 & G2 & G3). split_and!; (done || lia).
  - eapply wp_bind_lift_res; [by eapply Hread|]. rewrite Hl. change (zlen [h; t]) with 2 in HS.
    eapply wp_bind_lift_res; [apply chk_int_ok; subst text; lia|]. rewrite (proj2 (Z.leb_le 2 _)) by lia. cbn [andb].
    replace (zu i + 1 + 1) with (zu (S i)) by lia. replace (zu i + 2) with (zu (S i)) by lia. apply wp_bind_modify, wp_ret.
    destruct (Hgood (set_cur (set_ideo (zu (S i)) (zu j) (ideo_state (cur s)) (cur s)) s) eq_refl) as (G1 & G2 & G3). split_and!; (done || lia).
Qed.

(** One call of the iterator. *)
Lemma next_break_spec k s : cursor_ok ps bs k (cur s) ->
  wp next_break (fun e s' => exists it, cur s' = set_iter it (cur s) /\ last_error s' = last_error s /\
    match bs !! S k with
    | Some (b, _) => e = b /\ ubrk_at it bs (S k)
    | None => e = UBRK_DONE /\ ubrk_at it bs k
    end) s.
Proof.
  intros (_ & _ & _ & Hat & _). unfold next_break. apply wp_bind_gets. pose proof (ubrk_next_law _ _ _ Hat) as Hn.
  destruct (ubrk_next (iter (cur s))) as [e it]. apply wp_bind_modify, wp_ret. exists it. split; [done|]. split; [done|].
  by destruct (bs !! S k) as [[b st]|].
Qed.

Lemma cursor_ok_iter k k' it c : cursor_ok ps bs k c -> ubrk_at it bs k' -> cursor_ok ps bs k' (set_iter it c).
Proof. by intros (H1 & H2 & H3 & _ & H5) Hat. Qed.

Lemma set_iter_twice a b c : set_iter a (set_iter b c) = set_iter a c.
Proof. done. Qed.

(** The first segment with a token. *)
Lemma skip_loop_spec fuel k b st s : cursor_ok ps bs k (cur s) -> bs !! k = Some (b, st) -> (length bs - S k < fuel)%nat ->
  wp (skip_loop fuel b) (fun r s' => exists it, cur s' = set_iter it (cur s) /\
    match r with
    | None => rest_tokens k = []
    | Some (b', e, ty) => exists k' st', bs !! k' = Some (b', st') /\ bs !! S k' = Some (e, ty) /\ ubrk_at it bs (S k') /\
        is_none ty && ignored (nth (Z.to_nat b') text 0) = false /\
        rest_tokens k = seg_tokens text (b', e, ty) ++ rest_tokens (S k')
    end) s.
Proof.
  revert k b st s. induction fuel as [|fuel IH]; intros k b st s Hok Hb Hf; [lia|].
  cbn [skip_loop]. apply wp_bind. eapply wp_mono; [by apply next_break_spec|].
  intros e s1 (it & Hs1 & _ & He). destruct (bs !! S k) as [[b1 st1]|] eqn:Hn.
  2: { destruct He as [-> Hat]. rewrite Z.eqb_refl. apply wp_bind, wp_zoom, wp_modify, wp_ret. simpl.
       exists it. split; [done|]. by apply (rest_tokens_end k b st). }
  destruct He as [-> Hat]. pose proof (between_range _ (break_between _ _ _ Hb)). pose proof (between_range _ (break_between _ _ _ Hn)).
  pose proof (breaks_lt k (S k) _ _ _ _ Hb Hn ltac:(lia)).
  rewrite (proj2 (Z.eqb_neq b1 UBRK_DONE)) by (unfold UBRK_DONE; lia). apply wp_bind_gets.
  rewrite Hs1. cbn [iter set_iter]. rewrite (ubrk_status_law it bs (S k) b1 st1 Hat Hn).
  pose proof (rest_tokens_step k _ _ _ _ Hb Hn) as Hrest.
  assert (Hhit : is_none st1 && ignored (nth (Z.to_nat b) text 0) = false ->
    exists it0, cur s1 = set_iter it0 (cur s) /\ exists k' st', bs !! k' = Some (b, st') /\ bs !! S k' = Some (b1, st1) /\ ubrk_at it0 bs (S k') /\
        is_none st1 && ignored (nth (Z.to_nat b) text 0) = false /\ rest_tokens k = seg_tokens text (b, b1, st1) ++ rest_tokens (S k'))
    by (intros Hi; exists it; split; [done|]; exists k, st; done).
  assert (is_none st1 = false \/ is_none st1 = true) as [En|En] by (by destruct (is_none st1); [right|left]); rewrite En.
  { apply wp_ret, Hhit. by rewrite En. }
  destruct (zread_ok text b) as (x & Hx & Hlk); [lia|].
  eapply wp_bind_lift_res; [cbn [in_buffer set_iter]; destruct Hok as ((m & ->) & _); by apply read_one_text|].
  assert (nth (Z.to_nat b) text 0 = x) as Hnth by (by apply nth_lookup_Some).
  destruct (ignored x) eqn:Ei; [|by apply wp_ret, Hhit; rewrite Hnth, Ei, andb_false_r].
  eapply wp_mono; [eapply (IH (S k) b1 st1); [by rewrite Hs1; eapply cursor_ok_iter|done|apply lookup_lt_Some in Hn; lia]|].
  intros r s2 (it2 & Hs2 & Hr). exists it2. rewrite Hs2, Hs1. split; [done|].
  assert (Hskip : rest_tokens k = rest_tokens (S k)) by (rewrite Hrest; unfold seg_tokens; rewrite Hnth, En, Ei; done).
  rewrite Hskip. exact Hr.
Qed.

Lemma zu_le_inv x y : (x <= length ps)%nat -> zu x <= zu y -> (x <= y)%nat.
Proof.
  intros Hx Hxy. destruct (decide (x <= y)%nat) as [|Hn]; [done|].
  destruct (lookup_lt_is_Some_2 ps y) as [p Hp]; [lia|].
  pose proof (zu_S y p Hp). pose proof (zlen_utf16 (fst p)). pose proof (zu_mono (S y) x ltac:(lia)). lia.
Qed.

(** Cutting two neighbouring stretches of whole characters is cutting them together. *)
Lemma chars_slices a b e : between ps a -> between ps b -> between ps e -> a <= b <= e ->
  chars (slice a (e - a) text) a = chars (slice a (b - a) text) a ++ chars (slice b (e - b) text) b.
Proof.
  intros (i & Hi & ->) (m & Hm & ->) (n & Hn & ->) Hle. fold (zu i) (zu m) (zu n) in *.
  pose proof (zu_le_inv i m Hi ltac:(lia)). pose proof (zu_le_inv m n Hm ltac:(lia)).
  rewrite !slice_units by lia.
  assert (Hsplit : take (n - i) (drop i ps) = take (m - i) (drop i ps) ++ take (n - m) (drop m ps)).
  { rewrite <- (take_drop (m - i) (take (n - i) (drop i ps))), take_take, Nat.min_l by lia. f_equal.
    rewrite skipn_firstn_comm, drop_drop. f_equal; [lia|]. f_equal. lia. }
  rewrite Hsplit, units_app, chars_app by (by apply Forall_take, Forall_drop). f_equal. f_equal.
  assert (Hz : zu m = zu i + zlen (units (take (m - i) (drop i ps)))); [|lia].
  rewrite <- slice_units by lia. pose proof (between_range _ (between_zu i Hi)). pose proof (between_range _ (between_zu m Hm)).
  rewrite zlen_slice; lia.
Qed.

(** The end of a run of ideographs: [j] is its last boundary. *)
Lemma ideo_loop_spec fuel k e st s : cursor_ok ps bs k (cur s) -> bs !! k = Some (e, st) -> (length bs - S k < fuel)%nat ->
  wp (ideo_loop fuel e) (fun e' s' => exists it j k' st', cur s' = set_iter it (cur s) /\ ubrk_at it bs k' /\
    bs !! j = Some (e', st') /\ e <= e' /\
    rest_tokens k = chars (slice e (e' - e) text) e ++ rest_tokens j) s.
Proof.
  revert k e st s. induction fuel as [|fuel IH]; intros k e st s Hok He Hf; [lia|].
  cbn [ideo_loop]. apply wp_bind. eapply wp_mono; [by apply next_break_spec|].
  intros b1 s1 (it & Hs1 & _ & Hb1).
  assert (Hstop : forall k', ubrk_at it bs k' -> exists it0 j k' st', cur s1 = set_iter it0 (cur s) /\ ubrk_at it0 bs k' /\
    bs !! j = Some (e, st') /\ e <= e /\ rest_tokens k = chars (slice e (e - e) text) e ++ rest_tokens j).
  { intros k' Hat. exists it, k, k', st. rewrite Z.sub_diag, slice_none by lia. split_and!; (done || lia). }
  destruct (bs !! S k) as [[b2 st2]|] eqn:Hn; destruct Hb1 as [-> Hat].
  2: { rewrite Z.eqb_refl. by eapply wp_ret, Hstop. }
  pose proof (break_between _ _ _ He) as Hbe. pose proof (break_between _ _ _ Hn) as Hb2.
  pose proof (between_range _ Hbe). pose proof (between_range _ Hb2).
  pose proof (breaks_lt k (S k) _ _ _ _ He Hn ltac:(lia)).
  rewrite (proj2 (Z.eqb_neq b2 UBRK_DONE)) by (unfold UBRK_DONE; lia). apply wp_bind_gets.
  rewrite Hs1. cbn [iter set_iter]. rewrite (ubrk_status_law it bs (S k) b2 st2 Hat Hn).
  destruct (is_ideo st2) eqn:Ei; cbn [negb]; [|by eapply wp_ret, Hstop].
  eapply wp_mono; [eapply (IH (S k) b2 st2); [by rewrite Hs1; eapply cursor_ok_iter|done|apply lookup_lt_Some in Hn; lia]|].
  intros e' s2 (it2 & j & k' & st' & Hs2 & Hat2 & Hj & Hle & Hrest). exists it2, j, k', st'.
  rewrite Hs2, Hs1. split; [done|]. split; [done|]. split; [done|]. split; [lia|].
  rewrite (rest_tokens_step k _ _ _ _ He Hn), Hrest. unfold seg_tokens.
  replace (is_none st2) with false by (unfold is_none, is_ideo in *; symmetry; unfold UBRK_WORD_NONE, UBRK_WORD_NONE_LIMIT, UBRK_WORD_IDEO in *; lia).
  cbn [andb]. rewrite Ei, app_assoc. f_equal. symmetry. apply chars_slices; [done|done|by eapply break_between|lia].
Qed.

(** ** [mmtok_next] *)

(** What a call does with the next pending token. *)
Definition step_ok (l : list (Z * Z)) (s : mmstate) (r : Z * option token) (s' : mmstate) : Prop :=
  match l with
  | [] => r = (SQLITE_DONE, None)
  | (b, e) :: l =>
    match cut_text (slice b (e - b) text) with
    | None => r = (SQLITE_ERROR, None)
    | Some t => r = (SQLITE_OK, Some (Token t (byte_offset ps b) (byte_offset ps e) (token_count (cur s)))) /\
        token_count (cur s') = token_count (cur s) + 1 /\ exists k, good k s' /\ pending (cur s') k = l
    end
  end.

Lemma output_step k b e l s s0 : good k s -> between ps b -> between ps e -> b < e -> pending (cur s) k = l ->
  token_count (cur s) = token_count (cur s0) -> 0 <= token_count (cur s) < 2 ^ 30 ->
  wp (output_token b e) (step_ok ((b, e) :: l) s0) s.
Proof.
  intros (Hok & Hk & Hid) Hb He Hlt Hl Htc Hc. pose proof Hok as (Hin & Ht & _ & _ & Ho).
  eapply wp_mono; [by apply output_token_spec|]. intros [rc t] s' Hr. unfold step_ok. rewrite <- Htc.
  destruct (cut_text _) as [r|]; [|by destruct Hr as [-> ->]].
  destruct Hr as (-> & -> & Hsame & Hc' & Ho'). split; [done|]. split; [done|]. exists k.
  pose proof Hsame as (E1 & E2 & E3 & E4 & E5 & E6 & E7). split.
  - split; [by eapply cursor_ok_eq|]. split; [done|]. unfold ideo_ok. by rewrite E5, E6, E7.
  - unfold pending, ideo_part. by rewrite E5, E6, E7.
Qed.

(** The segment that was found is delivered whole, or split when it is ideographic. *)
Lemma ideo_pending s b e j it st k : cursor_ok ps bs k (cur s) -> between ps b -> bs !! j = Some (e, st) -> b <= e -> ubrk_at it bs j ->
  let s' := set_cur (set_ideo b e 0 (set_iter it (cur s))) s in
  good j s' /\ pending (cur s') j = chars (slice b (e - b) text) b ++ rest_tokens j.
Proof.
  intros Hok (x & Hx & ->) He Hbe Hat. cbv zeta. destruct (break_between _ _ _ He) as (y & Hy & ->).
  fold (zu x) (zu y) in *. split; [|done]. split; [by apply cursor_ok_iter with k|]. split; [by apply lookup_lt_Some in He|].
  right. exists x, y. pose proof (zu_le_inv x y Hx Hbe). split; [lia|done].
Qed.

Lemma mmtok_next_spec k s : good k s -> 0 <= token_count (cur s) < 2 ^ 30 -> wp mmtok_next (step_ok (pending (cur s) k) s) s.
Proof.
  intros Hg Hc. unfold mmtok_next. apply wp_bind. eapply wp_mono; [by apply find_splited_spec|]. intros t s1 Ht.
  unfold pending at 1. destruct (ideo_part (cur s)) as [|[b e] l] eqn:Ep; cbn [app].
  2: { destruct Ht as (-> & Hb & He & Hlt & Hg1 & Hp1 & Htc1). rewrite <- Htc1 in Hc.
       apply (output_step k); try done. unfold pending. by rewrite Hp1. }
  destruct Ht as (-> & Hst1 & Hok1 & Htc1). destruct Hg as (_ & Hk & _). apply wp_bind_gets.
  destruct (lookup_lt_is_Some_2 bs k Hk) as [[b0 st0] Hb0].
  pose proof Hok1 as (_ & _ & -> & Hat1 & _). rewrite (ubrk_current_law _ _ _ _ _ Hat1 Hb0).
  assert (Hfuel : (length bs - 1 <= Z.to_nat (zlen (units ps)))%nat) by (pose proof breaks_count as Hbc; change text with (units ps) in Hbc; lia).
  apply wp_bind. eapply wp_mono; [eapply (skip_loop_spec _ k b0 st0); [done|done|lia]|].
  intros [[[b e] ty]|] s2 (it & Hs2 & Hr); [|rewrite Hr; by apply wp_ret].
  destruct Hr as (k' & st' & Hb & He & Hat & Hvis & ->). pose proof (breaks_lt k' (S k') _ _ _ _ Hb He ltac:(lia)).
  pose proof (break_between _ _ _ Hb) as Hbb. pose proof (break_between _ _ _ He) as Hbe.
  pose proof (cursor_ok_iter _ _ _ _ Hok1 Hat) as Hok2. rewrite <- Hs2 in Hok2.
  assert (Htc2 : token_count (cur s2) = token_count (cur s)) by (by rewrite Hs2).
  unfold seg_tokens. rewrite Hvis. destruct (is_ideo ty) eqn:Ei; cbn [negb].
  2: { cbn [app]. apply (output_step (S k')); try done; [|by unfold pending, ideo_part; rewrite Hs2; cbn [ideo_state set_iter]; rewrite (proj2 (Z.ltb_lt _ _))|lia].
       split; [done|]. split; [by apply lookup_lt_Some in He|]. left. by rewrite Hs2. }
  apply wp_bind. eapply wp_mono; [eapply (ideo_loop_spec _ (S k') e ty); [done|done|lia]|].
  intros e' s3 (it3 & j & k3 & st3 & Hs3 & Hat3 & Hj & Hle & ->). apply wp_bind_modify.
  rewrite app_assoc, <- chars_slices; [|done|done|by eapply break_between|lia].
  pose proof (cursor_ok_iter _ _ _ _ Hok2 Hat3) as Hok3. rewrite <- Hs3 in Hok3.
  destruct (ideo_pending s3 b e' j (ubrk_isBoundary (iter (cur s3)) e') st3 k3 Hok3 Hbb Hj ltac:(lia)) as [Hg4 Hp4].
  { eapply ubrk_isBoundary_law; [|done]. rewrite Hs3. exact Hat3. }
  set (s4 := set_cur _ s3) in *. apply wp_bind. eapply wp_mono; [by apply find_splited_spec|]. intros t s5 Ht.
  unfold pending in Hp4. apply app_inv_tail in Hp4. rewrite Hp4 in Ht.
  assert (Htc4 : token_count (cur s4) = token_count (cur s)) by (by rewrite <- Htc2; subst s4; rewrite Hs3).
  destruct (chars (slice b (e' - b) text) b) as [|[b5 e5] l] eqn:Ec.
  { exfalso. pose proof (between_range _ (break_between _ _ _ Hj)). pose proof (between_range _ Hbb).
    destruct (zread_ok text b) as (x & Hx & _); [lia|]. rewrite (slice_cons text b _ x) in Ec by (done || lia).
    cbn [chars] in Ec. destruct (U16_IS_LEAD x); [|done]. by destruct (slice (b + 1) (e' - b - 1) text). }
  destruct Ht as (-> & Hb5 & He5 & Hlt5 & Hg5 & Hp5 & Htc5). cbn [app].
  apply (output_step j); try done; [by unfold pending; rewrite Hp5|congruence|congruence].
Qed.

(** ** All tokens *)

Lemma drain_spec fuel k s : good k s -> 0 <= token_count (cur s) -> token_count (cur s) + zlen (pending (cur s) k) < 2 ^ 30 ->
  (length (pending (cur s) k) < fuel)%nat ->
  wp (drain fuel) (fun r _ => r = expected_by cut_text ps (pending (cur s) k) (token_count (cur s))) s.
Proof.
  revert k s. induction fuel as [|fuel IH]; intros k s Hg H0 Hc Hf; [lia|].
  cbn [drain]. apply wp_bind. zlen_pos. eapply wp_mono; [by apply mmtok_next_spec; [|lia]|].
  intros r s' Hr. destruct (pending (cur s) k) as [|[b e] l] eqn:Ep; cbn [step_ok expected_by] in *.
  { rewrite Hr. by apply wp_ret. }
  change text with (units ps) in Hr. destruct (cut_text (slice b (e - b) (units ps))) as [t|]; [|rewrite Hr; by apply wp_ret].
  destruct Hr as (-> & Htc & k' & Hg' & Hp'). apply wp_bind. rewrite zlen_cons in Hc. simpl in Hf.
  eapply wp_mono; [apply (IH k'); rewrite ?Hp', ?Htc; (done || lia)|]. intros [ts rc] s2 Hr. rewrite Hp', Htc in Hr.
  apply wp_ret. by rewrite <- Hr.
Qed.

Lemma length_chars u s : (length (chars u s) <= length u)%nat.
Proof.
  assert (H : forall n u s, (length u <= n)%nat -> (length (chars u s) <= length u)%nat).
  { clear. intros n. induction n as [|n IH]; intros [|x u] s Hn; simpl in *; try lia.
    destruct (U16_IS_LEAD x); [|simpl; specialize (IH u (s + 1)); lia].
    destruct u as [|y u]; simpl in *; [lia|]. specialize (IH u (s + 2)). lia. }
  by apply (H (length u)).
Qed.

Lemma chars_short u s : Forall short_token (chars u s).
Proof.
  assert (H : forall n u s, (length u <= n)%nat -> Forall short_token (chars u s)).
  { clear. intros n. induction n as [|n IH]; intros [|x u] s Hn; simpl in *; try (constructor; lia); [lia|].
    unfold short_token in *. destruct (U16_IS_LEAD x); [destruct u as [|y u]|]; simpl in *; constructor; simpl; try lia; [constructor|apply IH; lia..]. }
  by apply (H (length u)).
Qed.

(** Words of a short text are short. *)
Lemma rest_tokens_short k b st : zlen text <= 256 -> bs !! k = Some (b, st) -> Forall short_token (rest_tokens k).
Proof.
  intros Hshort. remember (length bs - k)%nat as d eqn:Hd. revert k b st Hd. induction d as [|d IH]; intros k b st Hd Hk.
  { apply lookup_lt_Some in Hk. lia. }
  destruct (bs !! S k) as [[e st']|] eqn:Hn; [|rewrite (rest_tokens_end k b st) by done; constructor].
  rewrite (rest_tokens_step k _ _ _ _ Hk Hn). apply Forall_app. split; [|apply (IH (S k) e st'); [lia|done]].
  pose proof (between_range _ (break_between _ _ _ Hk)). pose proof (between_range _ (break_between _ _ _ Hn)).
  unfold seg_tokens. case_match; [constructor|]. case_match; [apply chars_short|]. constructor; [unfold short_token; simpl; lia|constructor].
Qed.

Lemma rest_tokens_count k b st : bs !! k = Some (b, st) -> zlen (rest_tokens k) <= zlen text - b.
Proof.
  remember (length bs - k)%nat as d eqn:Hd. revert k b st Hd. induction d as [|d IH]; intros k b st Hd Hk.
  { apply lookup_lt_Some in Hk. lia. }
  pose proof (between_range _ (break_between _ _ _ Hk)).
  destruct (bs !! S k) as [[e st']|] eqn:Hn; [|rewrite (rest_tokens_end k b st) by done; change (zlen []) with 0; lia].
  rewrite (rest_tokens_step k _ _ _ _ Hk Hn), zlen_app. specialize (IH (S k) e st' ltac:(lia) Hn).
  pose proof (breaks_lt k (S k) _ _ _ _ Hk Hn ltac:(lia)). pose proof (between_range _ (break_between _ _ _ Hn)).
  enough (zlen (seg_tokens text (b, e, st')) <= e - b) by lia. unfold seg_tokens.
  case_match; [change (zlen []) with 0; lia|]. case_match; [|change (zlen [_]) with 1; lia].
  pose proof (length_chars (slice b (e - b) text) b). pose proof (zlen_slice text b (e - b)). unfold zlen in *. lia.
Qed.
End tokens.
