(* ===== verification/TokenizerProps.v ===== *)
(** * What the tokenizer guarantees

    UTF-8 as a prefix code; the text and the offsets of a new cursor; all tokens of a text; a
    text that is too long for the size computation. *)

From S2P Require Import Prelude CLib Tokenizer TokenizerFacts.

(** ** UTF-8 is a prefix code *)

Lemma utf8_unique c d x y : scalar c -> scalar d -> utf8 c ++ x = utf8 d ++ y -> c = d.
Proof.
  intros [Hc _] [Hd _]. unfold utf8.
  pose proof (Z.div_mod c 64). pose proof (Z.mod_pos_bound c 64). pose proof (Z.div_mod d 64). pose proof (Z.mod_pos_bound d 64).
  pose proof (Z.div_mod (c / 64) 64). pose proof (Z.mod_pos_bound (c / 64) 64).
  pose proof (Z.div_mod (d / 64) 64). pose proof (Z.mod_pos_bound (d / 64) 64).
  pose proof (Z.div_mod (c / 4096) 64). pose proof (Z.mod_pos_bound (c / 4096) 64).
  pose proof (Z.div_mod (d / 4096) 64). pose proof (Z.mod_pos_bound (d / 4096) 64).
  change 262144 with (4096 * 64). change 4096 with (64 * 64) in *. rewrite <- !Z.div_div in * by lia.
  repeat case_match; cbn [app]; intros [= ]; lia.
Qed.

Lemma starts_unique s i n c d : starts s i n c -> starts s i n d -> c = d.
Proof.
  intros (Hc & Hcn & Hcs) (Hd & Hdn & Hds). unfold slice in *.
  set (t := drop (Z.to_nat i) s) in *.
  apply (utf8_unique c d (drop (Z.to_nat (zlen (utf8 c))) t) (drop (Z.to_nat (zlen (utf8 d))) t)); [done|done|].
  rewrite <- Hcs at 1. rewrite <- Hds at 1. by rewrite !take_drop.
Qed.

Section props.
Context `{Ic : Icu} {La : IcuLaws}.

(** Well-formed text is cut into its characters. *)
Lemma pieces_text cs pre rest n i ps : Forall scalar cs -> 0 ∉ cs -> n = zlen pre + zlen (cs ≫= utf8) -> i = zlen pre ->
  pieces (pre ++ (cs ≫= utf8) ++ rest) n i ps -> ps = map (fun c => (c, zlen (utf8 c))) cs.
Proof.
  intros Hcs. revert pre i ps. induction Hcs as [|c cs Hc Hcs IH]; intros pre i ps H0 Hn Hi Hp.
  - change (zlen (@nil Z ≫= utf8)) with 0 in Hn. cbn [map].
    inversion Hp as [|? Hlt|? ? ? Hlt|? ? ? ? Hk Hle]; subst; try done; lia.
  - apply not_elem_of_cons in H0 as [Hc0 H0]. cbn [mbind list_bind] in Hp, Hn. rewrite <- app_assoc in Hp.
    rewrite zlen_app in Hn. zlen_pos. pose proof (zlen_utf8 c).
    assert (Hst : starts (pre ++ utf8 c ++ (cs ≫= utf8) ++ rest) i n c).
    { split; [done|]. split; [lia|]. unfold slice. by rewrite Hi, !to_nat_zlen, drop_app_length, take_app_length. }
    inversion Hp as [|? Hlt Hz|? d r Hlt Hd Hd0 Hr|? k r Hno Hk Hle Hr]; subst; try lia.
    + pose proof (starts_unique _ _ _ _ _ Hst Hz). congruence.
    + pose proof (starts_unique _ _ _ _ _ Hst Hd). subst d. cbn [map]. f_equal.
      apply (IH (pre ++ utf8 c) (zlen pre + zlen (utf8 c))); [done|by rewrite zlen_app; lia|by rewrite zlen_app|].
      by rewrite <- app_assoc.
    + by destruct (Hno c).
Qed.

Lemma units_chars cs : units (map (fun c => (c, zlen (utf8 c))) cs) = cs ≫= utf16.
Proof. induction cs as [|c cs IH]; [done|]. cbn [map mbind list_bind]. rewrite <- IH. done. Qed.

Lemma nbytes_chars cs : nbytes (map (fun c => (c, zlen (utf8 c))) cs) = zlen (cs ≫= utf8).
Proof. induction cs as [|c cs IH]; [done|]. cbn [map nbytes foldr snd mbind list_bind]. rewrite zlen_app. unfold nbytes in IH. by rewrite IH. Qed.

(** C33: [mmtok_open] on well-formed text, its length given or found by its terminator, builds the
    same text in UTF-16 and a table that holds, for every character and for the end, the byte
    offset in the original at the index of its first UTF-16 unit. *)
Theorem mmtok_open_text locale cs rest nInput err :
  Forall scalar cs -> 0 ∉ cs -> let s := (cs ≫= utf8) ++ rest in
  Forall is_byte s -> input_length s nInput (zlen (cs ≫= utf8)) -> zlen (cs ≫= utf8) < 2 ^ 28 - 4 ->
  memory_ok -> (forall text, U_FAILURE (snd (ubrk_open locale text)) = false) ->
  match mmtok_open locale s nInput err with
  | Done ((rc, Some c), err') =>
    rc = SQLITE_OK /\ err' = err /\ in_length c = zlen (cs ≫= utf16) /\
    read_raw (in_buffer c) 0 (in_length c) = Done (cs ≫= utf16) /\
    forall k, (k <= length cs)%nat ->
      read_one (in_offset c) (zlen (take k cs ≫= utf16)) = Done (zlen (take k cs ≫= utf8))
  | _ => False
  end.
Proof.
  intros Hcs H0 s Hs Hin Hn Hmem Hicu. zlen_pos.
  destruct (mmtok_open_spec locale s nInput (zlen (cs ≫= utf8)) err Hs Hin) as (ps & c & -> & Hp & Hu & _ & Hok & _); try done.
  { subst s. rewrite zlen_app. zlen_pos. lia. }
  apply (pieces_text cs [] rest) in Hp; try done. subst ps. rewrite units_chars in *.
  destruct Hok as ((m & ->) & Ht & -> & _). rewrite units_chars. split_and!; try done.
  - rewrite read_raw_text by lia. unfold slice. rewrite to_nat_zlen. by rewrite drop_0, take_ge.
  - intros k Hk. unfold read_one. specialize (Ht k). rewrite length_map in Ht. rewrite firstn_map in Ht.
    rewrite units_chars, nbytes_chars in Ht. by rewrite Ht.
Qed.

(** The first boundary is that of the text. *)
Lemma tokens_from_start ps bs : breaks_ok (units ps) bs ->
  all_tokens (units ps) bs = rest_tokens ps bs 0 /\ exists st, bs !! 0%nat = Some (0, st).
Proof. intros ((st & r & ->) & _). split; [done|]. by exists st. Qed.

(** In a text of at most 256 bytes every word is short. *)
Lemma short_text_tokens locale s n ps : pieces s n 0 ps -> n <= 256 -> U_FAILURE (snd (ubrk_open locale (units ps))) = false ->
  Forall short_token (all_tokens (units ps) (word_breaks locale (units ps))).
Proof.
  intros Hp Hn Hok. destruct (ubrk_open_law locale (units ps) Hok) as [Hbr _]. pose proof (pieces_units _ _ _ _ Hp).
  destruct (tokens_from_start ps _ Hbr) as (-> & st & H0). eapply rest_tokens_short; [by eapply pieces_scalar|done|lia|done].
Qed.

(** C32: tokenizing: for any bytes of a text shorter than 2^28 - 4 bytes, when memory is not refused and ICU
    opens its iterator, [mmtok_open] and then calls of [mmtok_next] until one gives no token end
    without a fault; and if no word is longer than 256 units of UTF-16 they deliver exactly the
    tokens that the words of ICU determine, with their byte offsets and consecutive positions:
    white space and the prefix operator are left out, ideographic text is cut into characters
    wherever ICU cuts it, other words are kept whole; the last call reports the end, or the first
    token that ICU cannot convert or that needs more than 256 units.  Longer words are cut by the
    code, and longer texts make it write outside its block ([mmtok_open_size_wraps]). *)
Theorem mmtok_tokens locale s nInput n err fuel :
  Forall is_byte s -> input_length s nInput n -> 0 <= n <= zlen s -> n < 2 ^ 28 - 4 -> memory_ok ->
  (forall text, U_FAILURE (snd (ubrk_open locale text)) = false) -> (Z.to_nat n < fuel)%nat ->
  exists ps, pieces s n 0 ps /\
  match mmtok_open locale s nInput err with
  | Done ((rc, Some c), err') =>
    rc = SQLITE_OK /\
    match drain fuel (MM c err') with
    | Done (r, _) =>
      let ts := all_tokens (units ps) (word_breaks locale (units ps)) in
      Forall short_token ts -> r = expected ps ts 0
    | Stuck _ => False
    end
  | _ => False
  end.
Proof.
  intros Hs Hin Hn Hsmall Hmem Hicu Hf.
  destruct (mmtok_open_spec locale s nInput n err Hs Hin Hn Hsmall Hmem Hicu) as (ps & c & -> & Hp & Hu & Hbr & Hok & Htc & Hid).
  exists ps. split; [done|]. split; [done|]. set (bs := word_breaks locale (units ps)) in *.
  pose proof Hbr as ((st & r & Hb0) & _). assert (H0 : bs !! 0%nat = Some (0, st)) by (by rewrite Hb0).
  pose proof (rest_tokens_count ps bs (pieces_scalar _ _ _ _ Hp) Hbr 0%nat 0 st H0) as Hcount.
  assert (Hpend : pending ps bs c 0 = all_tokens (units ps) bs).
  { unfold pending, ideo_part. rewrite Hid. cbn [Z.ltb Z.compare app]. unfold rest_tokens, all_tokens. rewrite H0, Hb0. done. }
  assert (Hpc : zlen (pending ps bs c 0) <= n) by (unfold pending, ideo_part; rewrite Hid; simpl; lia).
  pose proof (drain_spec ps bs (pieces_scalar _ _ _ _ Hp) Hbr Hmem ltac:(lia) fuel 0%nat (MM c err)) as H.
  unfold wp in H. cbn [cur] in H. rewrite Hpend, Htc in *.
  assert (Hg : good ps bs 0 (MM c err)) by (split; [done|]; split; [by apply lookup_lt_Some in H0|]; left; simpl; lia).
  specialize (H Hg ltac:(lia) ltac:(lia) ltac:(unfold zlen in Hpc; lia)).
  destruct (drain fuel (MM c err)) as [[ts ?]|]; [|done]. intros l Hl. rewrite H. by apply expected_short.
Qed.

(** The size of the cursor is computed without regard to overflow: for a text between 715827870
    bytes and the billion SQLite allows, the request wraps around to a small number, and
    [mmtok_open] writes outside the block it got. *)
Theorem mmtok_open_size_wraps locale s nInput err :
  715827870 <= nInput <= 1000000000 -> memory_ok -> mmtok_open locale s nInput err = Stuck OutOfBounds.
Proof.
  intros Hn Hmem. unfold mmtok_open.
  rewrite (bind_lift_res _ _ _ nInput) by (by rewrite (proj2 (Z.ltb_ge _ _)) by lia).
  rewrite (bind_lift_res _ _ _ (nInput + 1)) by (apply chk_int_ok; lia).
  destruct (round4 nInput ltac:(lia)) as (d & Hd & Hdn). rewrite (bind_lift_res _ _ _ _ Hd).
  assert (Hsize : cursor_block d = 76 + 6 * d - 2 ^ 32).
  { unfold cursor_block, sizeof_mm_cursor_t, s32, u64. rewrite !(u_small 64 d), (u_small 64 (d + 1)), (u_small 64) by lia.
    unfold wrap_s. rewrite <- (Z_mod_plus_full _ (-1)), Z.mod_small by lia. lia. }
  rewrite Hsize. unfold sqlite3_malloc. rewrite Hmem, (proj2 (Z.ltb_lt 0 _)) by lia. cbn [andb negb].
  destruct (_ <? sizeof_mm_cursor_t) eqn:E; [done|].
  unfold put_offset. rewrite (proj2 (Z.leb_gt _ _)); [done|]. unfold sizeof_mm_cursor_t. lia.
Qed.
End props.
