(* ===== verification/TokenizerSmall.v ===== *)
(** * The tokenizer with a small ICU

    A decoder for UTF-8, breaks after every character, and case folding for ASCII; its laws, and
    the theorems of the tokenizer there. *)

From S2P Require Import Prelude CLib Tokenizer TokenizerFacts TokenizerProps.

Module TokToy.

(** ** Decoding by trial *)

#[export] Instance starts_dec s i n c : Decision (starts s i n c).
Proof. unfold starts, scalar. apply _. Defined.

Definition at_ (s : list Z) (i : Z) : Z := nth (Z.to_nat i) s 0.

Definition candidates (s : list Z) (i : Z) : list Z :=
  [at_ s i;
   (at_ s i - 192) * 64 + (at_ s (i + 1) - 128);
   (at_ s i - 224) * 4096 + (at_ s (i + 1) - 128) * 64 + (at_ s (i + 2) - 128);
   (at_ s i - 240) * 262144 + (at_ s (i + 1) - 128) * 4096 + (at_ s (i + 2) - 128) * 64 + (at_ s (i + 3) - 128)].

Definition body (s : list Z) (i n c : Z) : Z * Z :=
  match filter (starts s (i - 1) n) (candidates s (i - 1)) with
  | d :: _ => (d, i - 1 + zlen (utf8 d))
  | [] => (-1, i)
  end.

Lemma at_utf8 s i k x : 0 <= i -> 0 <= k -> slice i (zlen x) s = x -> (Z.to_nat k < length x)%nat ->
  at_ s (i + k) = nth (Z.to_nat k) x 0.
Proof.
  intros Hi Hk Hs Hx. unfold at_. destruct (lookup_lt_is_Some_2 x _ Hx) as [v Hv].
  rewrite (nth_lookup_Some _ _ _ _ Hv). apply nth_lookup_Some.
  rewrite <- Hs in Hv. unfold slice in Hv. apply lookup_take_Some in Hv as [Hv _]. rewrite lookup_drop in Hv.
  rewrite <- Hv. f_equal. lia.
Qed.

Lemma candidates_complete s i n c : 0 <= i -> starts s i n c -> c ∈ candidates s i.
Proof.
  intros Hi ([Hc _] & _ & Hs). unfold candidates.
  pose proof (fun k => at_utf8 s i k (utf8 c) Hi) as Hat.
  pose proof (Hat 0 ltac:(lia) Hs) as H0. pose proof (Hat 1 ltac:(lia) Hs) as H1.
  pose proof (Hat 2 ltac:(lia) Hs) as H2. pose proof (Hat 3 ltac:(lia) Hs) as H3.
  rewrite Z.add_0_r in H0. clear Hat Hs.
  change (Z.to_nat 0) with 0%nat in H0. change (Z.to_nat 1) with 1%nat in H1. change (Z.to_nat 2) with 2%nat in H2.
  change (Z.to_nat 3) with 3%nat in H3. rewrite !elem_of_cons. unfold utf8 in *.
  pose proof (Z.div_mod c 64). pose proof (Z.div_mod (c / 64) 64). pose proof (Z.div_mod (c / 4096) 64).
  rewrite !Z.div_div in * by lia. change (64 * 64) with 4096 in *. change (4096 * 64) with 262144 in *.
  repeat case_match; cbn [length nth] in *.
  - left. rewrite H0 by lia. done.
  - right. left. rewrite H0, H1 by lia. lia.
  - right. right. left. rewrite H0, H1, H2 by lia. lia.
  - right. right. right. left. rewrite H0, H1, H2, H3 by lia. lia.
Qed.

Lemma body_starts s i n c d i' : body s i n c = (d, i') -> 0 <= d -> starts s (i - 1) n d /\ i' = i - 1 + zlen (utf8 d).
Proof.
  unfold body. destruct (filter _ _) as [|e l] eqn:E; intros [= <- <-] Hd; [lia|].
  assert (He : e ∈ filter (starts s (i - 1) n) (candidates s (i - 1))) by (rewrite E; apply elem_of_cons; by left).
  by apply list_elem_of_filter in He as [He _].
Qed.

Lemma body_finds s i n c d : 0 < i -> starts s (i - 1) n d -> fst (body s i n c) = d.
Proof.
  intros Hi Hd. unfold body. destruct (filter _ _) as [|e l] eqn:E.
  - assert (Hin : d ∈ filter (starts s (i - 1) n) (candidates s (i - 1)))
      by (apply list_elem_of_filter; split; [done|by apply candidates_complete with n; [lia|]]).
    rewrite E in Hin. by apply elem_of_nil in Hin.
  - assert (He : e ∈ filter (starts s (i - 1) n) (candidates s (i - 1))) by (rewrite E; apply elem_of_cons; by left).
    apply list_elem_of_filter in He as [He _]. simpl. by eapply starts_unique.
Qed.

(** ** Breaks *)

Definition is_trail (x : Z) : bool := (56320 <=? x) && (x <=? 57343).
Definition is_lead (x : Z) : bool := (55296 <=? x) && (x <=? 56319).
Definition kind (x : Z) : Z := if x =? 32 then 0 else if 19968 <=? x then 400 else 200.

Fixpoint breaks_from (pos : Z) (u : list Z) : list (Z * Z) :=
  match u with
  | [] => []
  | x :: r =>
    match r with
    | y :: _ => if is_lead x && is_trail y then breaks_from (pos + 1) r else (pos + 1, kind x) :: breaks_from (pos + 1) r
    | [] => [(pos + 1, kind x)]
    end
  end.

Lemma breaks_from_cons pos x y u : breaks_from pos (x :: y :: u) =
  if is_lead x && is_trail y then breaks_from (pos + 1) (y :: u) else (pos + 1, kind x) :: breaks_from (pos + 1) (y :: u).
Proof. done. Qed.

Definition breaks (u : list Z) : list (Z * Z) := (0, 0) :: breaks_from 0 u.

Lemma breaks_from_gt pos u k b st : breaks_from pos u !! k = Some (b, st) -> pos < b.
Proof.
  revert pos k. induction u as [|x [|y u] IH]; intros pos k H; [done| |].
  - destruct k; simpl in H; [injection H as <- _; lia|done].
  - rewrite breaks_from_cons in H.
    destruct (is_lead x && is_trail y); [apply IH in H; lia|].
    destruct k; simpl in H; [injection H as <- _; lia|]. apply IH in H. lia.
Qed.

Lemma breaks_from_up pos u k b b' st st' : breaks_from pos u !! k = Some (b, st) -> breaks_from pos u !! S k = Some (b', st') -> b < b'.
Proof.
  revert pos k. induction u as [|x [|y u] IH]; intros pos k H H'; [done|done|].
  rewrite breaks_from_cons in H, H'.
  destruct (is_lead x && is_trail y); [by eapply IH|].
  destruct k as [|k]; [|by eapply IH]. injection H as <- _.
  change (breaks_from (pos + 1) (y :: u) !! 0%nat = Some (b', st')) in H'. by eapply breaks_from_gt.
Qed.

Lemma breaks_from_last pos u : u <> [] -> exists st, last (breaks_from pos u) = Some (pos + zlen u, st).
Proof.
  revert pos. induction u as [|x [|y u] IH]; intros pos Hu; [done|by exists (kind x)|].
  destruct (IH (pos + 1)) as [st Hst]; [done|]. exists st. rewrite breaks_from_cons.
  replace (pos + zlen (x :: y :: u)) with (pos + 1 + zlen (y :: u)) by zl.
  destruct (is_lead x && is_trail y); [done|]. rewrite last_cons, Hst. done.
Qed.

Lemma breaks_from_outside pos pre u b st : pos = zlen pre -> (b, st) ∈ breaks_from pos u -> ~ inside_pair (pre ++ u) b.
Proof.
  revert pos pre. induction u as [|x [|y u] IH]; intros pos pre Hp Hin (v & w & H1 & H2 & Hv & Hw); [by apply elem_of_nil in Hin| |].
  - apply list_elem_of_singleton in Hin as [= -> ->]. apply zread_lookup in H2 as [Hr _]. zl.
  - rewrite breaks_from_cons in Hin.
    assert (Hrec : (b, st) ∈ breaks_from (pos + 1) (y :: u) -> False).
    { intros Hb. apply (IH (pos + 1) (pre ++ [x])) in Hb; [|zl]. apply Hb. rewrite <- app_assoc. by exists v, w. }
    destruct (is_lead x && is_trail y) eqn:E; [done|]. apply elem_of_cons in Hin as [[= -> ->]|Hin]; [|done].
    rewrite zread_app in H1 by lia. injection H1 as <-.
    change (pre ++ x :: y :: u) with (pre ++ [x] ++ y :: u) in H2. rewrite app_assoc, zread_app in H2 by zl. injection H2 as <-.
    unfold is_lead, is_trail in E. lia.
Qed.

Lemma breaks_fine u : breaks_ok u (breaks u).
Proof.
  unfold breaks. split_and!.
  - by eexists _, _.
  - destruct u as [|x u]; [by eexists|]. destruct (breaks_from_last 0 (x :: u)) as [st Hst]; [done|].
    exists st. rewrite last_cons, Hst. by rewrite Z.add_0_l.
  - intros [|k] b b' st st' H H'; simpl in H, H'; [injection H as <- _; by eapply breaks_from_gt|by eapply breaks_from_up].
  - intros b st [[= -> ->]|Hin]%elem_of_cons.
    + intros (v & w & H1 & _). apply zread_lookup in H1. lia.
    + by eapply (breaks_from_outside 0 []).
Qed.

Lemma breaks_from_nodup pos u : NoDup (fst <$> breaks_from pos u).
Proof.
  revert pos. induction u as [|x [|y u] IH]; intros pos; [constructor|apply NoDup_singleton|].
  rewrite breaks_from_cons. destruct (is_lead x && is_trail y); [apply IH|]. rewrite fmap_cons. apply NoDup_cons. split; [|apply IH].
  intros ([b st] & Hb & (k & Hk)%list_elem_of_lookup)%list_elem_of_fmap. apply breaks_from_gt in Hk. simpl in Hb. lia.
Qed.

Lemma breaks_nodup u : NoDup (fst <$> breaks u).
Proof.
  unfold breaks. rewrite fmap_cons. apply NoDup_cons. split; [|apply breaks_from_nodup].
  intros ([b st] & Hb & (k & Hk)%list_elem_of_lookup)%list_elem_of_fmap. apply breaks_from_gt in Hk. simpl in Hb. lia.
Qed.

Definition find_break (bs : list (Z * Z)) (b : Z) : nat :=
  match list_find (fun p => fst p = b) bs with Some (k, _) => k | None => 0%nat end.

Lemma find_break_spec bs k b st : NoDup (fst <$> bs) -> bs !! k = Some (b, st) -> find_break bs b = k.
Proof.
  intros Hnd Hk. unfold find_break. destruct (list_find (fun p => fst p = b) bs) as [[j p]|] eqn:E.
  - apply list_find_Some in E as (Hj & Hp & _). apply (NoDup_lookup (fst <$> bs) j k b Hnd).
    + by rewrite list_lookup_fmap, Hj, <- Hp.
    + by rewrite list_lookup_fmap, Hk.
  - apply list_find_None in E. rewrite Forall_lookup in E. by destruct (E k _ Hk).
Qed.

(** ** Conversions *)

Definition conv (f : list Z -> option (list Z)) (src : list Z) (cap status : Z) : list Z * Z * Z :=
  match f src with
  | Some r => (take (Z.to_nat cap) r, zlen r, if cap <? zlen r then 15 else 0)
  | None => ([], 0, 1)
  end.

Definition short (f : list Z -> list Z) (src : list Z) : option (list Z) :=
  if zlen src <? 2 ^ 28 then Some (f src) else None.
Definition lower (x : Z) : Z := if (65 <=? x) && (x <=? 90) then x + 32 else x.
Definition unit_bytes (x : Z) : list Z := if x <? 128 then [x] else [224 + x / 4096; 128 + x / 64 mod 64; 128 + x mod 64].

Lemma conv_converts f : (forall s r, f s = Some r -> zlen r < 2 ^ 31) -> converts (conv f) f.
Proof.
  intros Hf src cap status _ Hcap. unfold conv. destruct (f src) as [r|] eqn:E; [|split_and!; try done; simpl; lia].
  split; [by eapply Hf|]. split; [done|]. split; [done|]. by case_match.
Qed.

Lemma zlen_unit_bytes l : zlen (l ≫= unit_bytes) <= 3 * zlen l.
Proof.
  induction l as [|x l IH]; [done|]. cbn [mbind list_bind]. rewrite zlen_app, zlen_cons.
  enough (zlen (unit_bytes x) <= 3) by lia. unfold unit_bytes. by case_match.
Qed.

Lemma short_Some f s r : short f s = Some r -> r = f s /\ zlen s < 2 ^ 28.
Proof. unfold short. case_match; intros [= <-]. split; [done|lia]. Qed.

#[export] Instance icu : Icu := {|
  utf8_nextCharSafeBody := body;
  ubrk := list (Z * Z) * nat;
  ubrk_open := fun _ text => ((breaks text, 0%nat), 0);
  ubrk_first := fun it => (fst it, 0%nat);
  ubrk_current := fun it => match fst it !! snd it with Some (b, _) => b | None => 0 end;
  ubrk_next := fun it => match fst it !! S (snd it) with
                         | Some (b, _) => (b, (fst it, S (snd it)))
                         | None => (UBRK_DONE, it)
                         end;
  ubrk_getRuleStatus := fun it => match fst it !! snd it with Some (_, st) => st | None => 0 end;
  ubrk_isBoundary := fun it b => (fst it, find_break (fst it) b);
  unorm_normalize := conv (short (fun s => s));
  u_strFoldCase := conv (short (map lower));
  u_strToUTF8 := conv (short (fun s => s ≫= unit_bytes));
  u_isspace := fun c => c =? 32;
  tok_malloc_ok := fun _ => true
|}.

#[export] Instance laws : IcuLaws.
Proof.
  refine {| nfkd := short (fun s => s); fold_case := short (map lower); to_bytes := short (fun s => s ≫= unit_bytes);
            ubrk_at := fun it bs k => it = (bs, k) /\ NoDup (fst <$> bs); word_breaks := fun _ text => breaks text |}.
  - intros s i n c c' i' Hi Hn Hc Hl H. destruct (Z_lt_dec c' 0).
    + simpl in H. unfold body in H. destruct (filter _ _) as [|e l'] eqn:E; injection H as <- <-; [lia|].
      assert (He : e ∈ filter (starts s (i - 1) n) (candidates s (i - 1))) by (rewrite E; apply elem_of_cons; by left).
      apply list_elem_of_filter in He as [((? & _) & _) _]. lia.
    + destruct (body_starts s i n c c' i' H ltac:(lia)) as [(_ & Hle & _) ->]. pose proof (zlen_utf8 c'). lia.
  - intros s i n c c' i' _ _ _ _ H. exact (body_starts s i n c c' i' H).
  - intros s i n c d [Hi _] _ _ _ Hd. by apply body_finds.
  - intros locale text _. split; [apply breaks_fine|]. split; [done|apply breaks_nodup].
  - intros it bs k b st [-> _] H. simpl. by rewrite H.
  - intros it bs k b st [-> _] H. simpl. by rewrite H.
  - intros it bs k [-> Hnd]. simpl. destruct (bs !! S k) as [[b st]|]; done.
  - intros it bs k j b st [-> Hnd] H. simpl. split; [|done]. f_equal. by eapply find_break_spec.
  - apply conv_converts. intros s r [-> H]%short_Some. lia.
  - apply conv_converts. intros s r [-> H]%short_Some. unfold zlen in *. rewrite length_map. lia.
  - apply conv_converts. intros s r [-> H]%short_Some. pose proof (zlen_unit_bytes s). lia.
  - intros s r Hs [-> _]%short_Some. done.
  - intros s r Hs [-> _]%short_Some. by destruct s.
  - intros s r [-> _]%short_Some. apply zlen_unit_bytes.
Defined.

Lemma memory : memory_ok.
Proof. done. Qed.

(** ** A text: two words, two ideographs and a character outside the basic plane *)

Definition hello : list Z := [72; 105; 32; 66; 32; 20013; 25991; 32; 128512].
Definition hello_bytes : list Z := hello ≫= utf8.

Lemma hello_scalar : Forall scalar hello.
Proof. repeat constructor; unfold scalar; lia. Qed.

Lemma hello_is_byte : Forall is_byte (hello_bytes ++ [0]).
Proof. vm_compute. repeat constructor; discriminate. Qed.

Lemma mmtok_open_text_witness :
  match mmtok_open [] (hello_bytes ++ [0]) (-1) [] with
  | Done ((rc, Some c), err') =>
    rc = SQLITE_OK /\ err' = [] /\ in_length c = 10 /\
    read_one (in_offset c) (zlen (take 8 hello ≫= utf16)) = Done 12
  | _ => False
  end.
Proof.
  pose proof (mmtok_open_text [] hello [0] (-1) [] hello_scalar) as H. cbv zeta in H.
  specialize (H (bool_decide_unpack (0 ∉ hello) I) hello_is_byte).
  specialize (H ltac:(right; split; [lia|vm_compute; reflexivity]) ltac:(vm_compute; reflexivity) memory ltac:(reflexivity)).
  change (hello ≫= utf8) with hello_bytes in H. destruct (mmtok_open [] (hello_bytes ++ [0]) (-1) []) as [[[rc [c|]] err']|]; [|exact H|exact H].
  destruct H as (H1 & H2 & H3 & _ & H4). split; [exact H1|]. split; [exact H2|]. split; [exact H3|].
  exact (H4 8%nat ltac:(vm_compute; lia)).
Defined.

Lemma mmtok_tokens_witness :
  exists ps, pieces hello_bytes 16 0 ps /\
  match mmtok_open [] hello_bytes 16 [] with
  | Done ((rc, Some c), err') =>
    rc = SQLITE_OK /\
    match drain 17 (MM c err') with
    | Done (r, _) => r = expected ps (all_tokens (units ps) (word_breaks [] (units ps))) 0
    | Stuck _ => False
    end
  | _ => False
  end.
Proof.
  destruct (mmtok_tokens [] hello_bytes 16 16 [] 17) as (ps & Hp & H).
  - vm_compute. repeat constructor; discriminate.
  - by left.
  - vm_compute. split; discriminate.
  - reflexivity.
  - exact memory.
  - reflexivity.
  - vm_compute. lia.
  - exists ps. split; [exact Hp|]. pose proof (short_text_tokens [] hello_bytes 16 ps Hp ltac:(lia) eq_refl) as Hs.
    destruct (mmtok_open [] hello_bytes 16 []) as [[[rc [c|]] err']|]; [|exact H|exact H]. destruct H as [H1 H2]. split; [exact H1|].
    destruct (drain 17 (MM c err')) as [[r ?]|]; [exact (H2 Hs)|exact H2].
Defined.

(** What these tokens are. *)
Example hello_tokens :
  match mmtok_open [] hello_bytes 16 [] with
  | Done ((_, Some c), err) =>
    match drain 17 (MM c err) with
    | Done ((ts, rc), _) => map (fun t => (tk_start t, tk_end t, tk_pos t)) ts =
        [(0, 1, 0); (1, 2, 1); (3, 4, 2); (5, 8, 3); (8, 11, 4); (12, 16, 5)] /\ rc = SQLITE_DONE /\
        map tk_text ts !! 2%nat = Some [98]
    | Stuck _ => False
    end
  | _ => False
  end.
Proof. vm_compute. done. Qed.

Lemma mmtok_open_size_wraps_witness : mmtok_open [] [] 800000000 [] = Stuck OutOfBounds.
Proof. apply mmtok_open_size_wraps; [lia|exact memory]. Defined.
End TokToy.
