(* ===== verification/Cipher.v ===== *)
(** * The SQL functions that hide text (mm_cipher.c)

    [mmenc] turns a text into BOCU-1 and encrypts it with RC4, [mmdec] does the reverse, and
    [mm_cipher_key] changes the key.  The three functions share a context that is counted; a
    released context is [None].  RC4, ICU's converter, SQLite's registration of functions and
    memory are parameters. *)

From S2P Require Import Prelude CLib Tokenizer.

Definition SQLITE_MISUSE : Z := 21.
Definition U_BUFFER_OVERFLOW_ERROR : Z := 15.
Definition U_STRING_NOT_TERMINATED_WARNING : Z := -124.

(** A converter takes whether there is a destination, the source, the capacity and the status, and
    gives what it writes, the terminator included, the length of the result and the status. *)
Class CipherEnv := {
  RC4 : list Z -> list Z -> list Z;
  ucnv_fromUChars : bool -> list Z -> Z -> Z -> list Z * Z * Z;
  ucnv_toUChars : bool -> list Z -> Z -> Z -> list Z * Z * Z;
  ucnv_loaded : bool;
  ucnv_openCCSID_ok : bool;
  cipher_malloc_ok : Z -> bool
}.

Inductive sql_value :=
| VNull
| VInteger (i : Z)
| VFloat (bits : Z)
| VText (units : list Z)
| VBlob (bytes : list Z).

(** What a function gives back. *)
Inductive sql_result :=
| RValue (v : sql_value)
| RBlob (bytes : list Z)
| RText16 (units : list Z)
| RNull
| RError (code : Z).

Inductive sql_function := fn_mmenc | fn_mmdec | fn_mm_cipher_key.
#[export] Instance sql_function_eq_dec : EqDecision sql_function.
Proof. solve_decision. Defined.

Record mm_cipher_context_t := Ctx { ref_count : Z; key : list Z }.

(** The context, which of the functions hold a pointer to it, and the last error message. *)
Record cipher_state := CS {
  ctx : option mm_cipher_context_t;
  functions : list sql_function;
  errmsg : list Z
}.
Definition set_ctx v (s : cipher_state) : cipher_state := CS v (functions s) (errmsg s).
Definition add_function f (s : cipher_state) : cipher_state := CS (ctx s) (f :: functions s) (errmsg s).
Definition cipher_error (c : cm (list Z) unit) : cm cipher_state unit := zoom errmsg (fun e s => CS (ctx s) (functions s) e) c.

Definition sizeof_mm_cipher_context_t : Z := 32.
Definition sizeof_UChar : Z := 2.

Section cipher.
Context `{En : CipherEnv}.

Definition alloc (n : Z) : bool := (0 <? n) && cipher_malloc_ok n.

Definition the_ctx : cm cipher_state mm_cipher_context_t :=
  fun s => match ctx s with Some c => Done (c, s) | None => Stuck UseAfterFree end.

Definition do_rc4 (buf : list Z) : cm cipher_state (list Z) :=
  let! c := the_ctx in ret (RC4 (key c) buf).

(** A conversion into a buffer of [size] elements, told that it has room for [cap]. *)
Definition convert_into (conv : bool -> list Z -> Z -> Z -> list Z * Z * Z) (dest : bool) (size : Z) (src : list Z) (cap : Z)
    : cm cipher_state (list (option Z) * Z * Z) :=
  let '(w, len, status) := conv dest src cap U_ZERO_ERROR in
  let! b := lift_res (zwrite_n (raw size) 0 (Some <$> w)) in
  ret (b, len, status).

(** The second try with a buffer of its own. *)
Definition try_again (conv : bool -> list Z -> Z -> Z -> list Z * Z * Z) (src : list Z) (bytes : Z)
    (first : list (option Z) * Z * Z) : cm cipher_state (list (option Z) * Z * Z) :=
  let '(_, len, status) := first in
  if status =? U_BUFFER_OVERFLOW_ERROR then
    let ok := alloc (s32 (u64 (u64 len * bytes))) in
    convert_into conv ok (if ok then len else 0) src len
  else ret first.

Definition failed (status : Z) : bool := U_FAILURE status && negb (status =? U_STRING_NOT_TERMINATED_WARNING).

Definition mmenc_func (argv : list sql_value) : cm cipher_state sql_result :=
  match argv with
  | [VBlob _] => ret (RError SQLITE_MISUSE)
  | [VText src] =>
    the_ctx ;;;
    let! first := convert_into ucnv_fromUChars true 1024 src 1024 in
    let! (dst, dst_len, status) := try_again ucnv_fromUChars src 1 first in
    if failed status then
      cipher_error (sqlite3_mm_set_last_error (str "Failed transforming text to internal encoding.")) ;;;
      ret (RError SQLITE_ERROR)
    else
      let! text := lift_res (read_raw dst 0 dst_len) in
      let! bytes := do_rc4 text in
      ret (RBlob bytes)
  | [v] => ret (RValue v)
  | _ => ret (RError SQLITE_MISUSE)
  end.

(** [sizeof(buf)] is 1024 for the 512 units of [buf]. *)
Definition mmdec_func (argv : list sql_value) : cm cipher_state sql_result :=
  match argv with
  | [VBlob blob] =>
    the_ctx ;;;
    if (1024 <? zlen blob) && negb (alloc (zlen blob)) then ret (RError SQLITE_ERROR)
    else
      let! src := do_rc4 blob in
      let! first := convert_into ucnv_toUChars true 512 src (512 * sizeof_UChar) in
      let! (dst, dst_len, status) := try_again ucnv_toUChars src sizeof_UChar first in
      if failed status then
        cipher_error (sqlite3_mm_set_last_error (str "Failed transforming text from internal encoding.")) ;;;
        ret (RError SQLITE_ERROR)
      else
        let! text := lift_res (read_raw dst 0 dst_len) in
        ret (RText16 text)
  | [v] => ret (RValue v)
  | _ => ret (RError SQLITE_MISUSE)
  end.

Definition mm_cipher_key_func (argv : list sql_value) : cm cipher_state sql_result :=
  match argv with
  | [VBlob b] =>
    if negb (zlen b =? 16) then ret (RError SQLITE_MISUSE)
    else
      let! c := the_ctx in
      modify (set_ctx (Some (Ctx (ref_count c) b))) ;;;
      ret RNull
  | _ => ret (RError SQLITE_MISUSE)
  end.

Definition mm_func_destroy : cm cipher_state unit :=
  let! c := the_ctx in
  let! n := lift_res (chk_int (ref_count c - 1)) in
  modify (set_ctx (if n =? 0 then None else Some (Ctx n (key c)))).

(** [sqlite3_create_function_v2] with the result [rc]: it calls the destructor when it fails. *)
Definition create_function (rc : sql_function -> Z) (f : sql_function) : cm cipher_state Z :=
  if rc f =? SQLITE_OK then modify (add_function f) ;;; ret SQLITE_OK
  else mm_func_destroy ;;; ret (rc f).

Definition free_ctx : cm cipher_state unit :=
  the_ctx ;;; modify (set_ctx None).

Definition sqlite3_register_mm_cipher (rc : sql_function -> Z) (k : list Z) : cm cipher_state Z :=
  if negb ucnv_loaded then ret SQLITE_OK
  else if negb (alloc sizeof_mm_cipher_context_t) then ret SQLITE_NOMEM
  else if negb ucnv_openCCSID_ok then ret SQLITE_ERROR
  else
    let! k16 := lift_res (zread_n k 0 16) in
    modify (set_ctx (Some (Ctx 3 k16))) ;;;
    let! r := create_function rc fn_mmenc in
    if negb (r =? SQLITE_OK) then free_ctx ;;; ret r
    else
      let! r := create_function rc fn_mmdec in
      if negb (r =? SQLITE_OK) then free_ctx ;;; ret r
      else
        let! r := create_function rc fn_mm_cipher_key in
        if negb (r =? SQLITE_OK) then free_ctx ;;; ret r
        else ret SQLITE_OK.
End cipher.

(** ** What the parameters promise *)

(** A conversion to [f src]: as much of it as there is room for, with a terminator when one fits; a
    result that does not fit is reported with its length. *)
Definition ucnv_law (conv : bool -> list Z -> Z -> Z -> list Z * Z * Z) (f : list Z -> option (list Z)) : Prop :=
  forall src cap r, 0 <= cap -> f src = Some r ->
  exists status, conv true src cap U_ZERO_ERROR = (take (Z.to_nat cap) (r ++ [0]), zlen r, status) /\
    if zlen r <=? cap then U_FAILURE status = false else status = U_BUFFER_OVERFLOW_ERROR.

Class CipherLaws `{CipherEnv} := {
  to_bocu : list Z -> option (list Z);
  of_bocu : list Z -> option (list Z);
  from_law : ucnv_law ucnv_fromUChars to_bocu;
  to_law : ucnv_law ucnv_toUChars of_bocu;
  bocu_inverse u b : to_bocu u = Some b -> of_bocu b = Some u;
  rc4_involutive k b : RC4 k (RC4 k b) = b;
  rc4_length k b : zlen (RC4 k b) = zlen b
}.

Definition cipher_memory_ok `{CipherEnv} : Prop := forall n, cipher_malloc_ok n = true.
