(* ===== verification/CipherProps.v ===== *)
(** * What the text functions guarantee

    Hiding a text and showing it again, the buffer of [mmdec] that is too small for what it
    claims, a registration that fails half-way, and a small instance of the parameters. *)

From S2P Require Import Prelude CLib Tokenizer TokenizerFacts Cipher.

Section props.
Context `{En : CipherEnv} {La : CipherLaws}.

(** A conversion into a buffer that has the room it claims, or at least what is written. *)
Lemma convert_into_spec conv f size src cap r (s : cipher_state) :
  ucnv_law conv f -> f src = Some r -> 0 <= cap -> Z.min cap (zlen r + 1) <= size ->
  wp (convert_into conv true size src cap) (fun '(b, len, status) s' => s' = s /\ len = zlen r /\
    if zlen r <=? cap then U_FAILURE status = false /\ read_raw b 0 (zlen r) = Done r else status = U_BUFFER_OVERFLOW_ERROR) s.
Proof.
  intros Hlaw Hf Hcap Hsize. destruct (Hlaw src cap r Hcap Hf) as (status & Hc & Hst). unfold convert_into. rewrite Hc.
  zlen_pos. set (w := take (Z.to_nat cap) (r ++ [0])).
  assert (Hw : zlen w <= size) by (subst w; unfold zlen in *; rewrite length_take, length_app; simpl; lia).
  assert (Hzw : zwrite_n (raw size) 0 (Some <$> w) = Done ((Some <$> w) ++ drop (length w) (raw size))).
  { rewrite <- (take_drop (length w) (raw size)) at 1. apply (zwrite_n_app []); [done|].
    zlen_pos. pose proof (zlen_raw size ltac:(lia)) as Hr. rewrite zlen_fmap. unfold zlen in *. rewrite length_take. lia. }
  eapply wp_bind_lift_res; [exact Hzw|]. apply wp_ret. split; [done|]. split; [done|].
  destruct (zlen r <=? cap) eqn:E; [|done]. split; [done|].
  assert (Hpre : w = r ++ take (Z.to_nat cap - length r) [0]) by (subst w; unfold zlen in E; rewrite take_app, take_ge by lia; done).
  rewrite Hpre, fmap_app, <- app_assoc. unfold read_raw.
  replace (zread_n _ 0 (zlen r)) with (Done (Some <$> r)); [apply written_some|].
  symmetry. apply (zread_n_app []); [done|by rewrite zlen_fmap].
Qed.

(** With the second try the whole result is there. *)
Lemma try_again_spec conv f size src cap bytes r (s : cipher_state) : cipher_memory_ok ->
  ucnv_law conv f -> f src = Some r -> 0 < cap -> Z.min cap (zlen r + 1) <= size -> 0 < bytes <= 2 -> zlen r < 2 ^ 29 ->
  wp (let! first := convert_into conv true size src cap in try_again conv src bytes first)
    (fun '(b, len, status) s' => s' = s /\ len = zlen r /\ failed status = false /\ read_raw b 0 (zlen r) = Done r) s.
Proof.
  intros Hmem Hlaw Hf Hcap Hsize Hby Hr. apply wp_bind. eapply wp_mono; [by apply (convert_into_spec conv f size src cap r); (done || lia)|].
  intros [[b len] status] s1 (-> & -> & H). cbn [try_again].
  destruct (zlen r <=? cap) eqn:E.
  - destruct H as [Hst Hb]. replace (status =? U_BUFFER_OVERFLOW_ERROR) with false.
    2: { symmetry. apply Z.eqb_neq. unfold U_FAILURE, U_ZERO_ERROR, U_BUFFER_OVERFLOW_ERROR in *. lia. }
    apply wp_ret. unfold failed. by rewrite Hst.
  - rewrite H, Z.eqb_refl. zlen_pos. unfold alloc.
    assert (Hn : s32 (u64 (u64 (zlen r) * bytes)) = zlen r * bytes).
    { unfold s32, u64. rewrite (u_small 64 (zlen r)), u_small, wrap_s_small by nia. done. }
    rewrite Hn, Hmem, (proj2 (Z.ltb_lt 0 _)) by nia. cbn [andb].
    eapply wp_mono; [by apply (convert_into_spec conv f (zlen r) src (zlen r) r); (done || lia)|].
    intros [[b2 len2] st2] s2 (-> & -> & H2). rewrite Z.leb_refl in H2. destruct H2 as [Hst2 Hb2].
    unfold failed. by rewrite Hst2.
Qed.

Lemma mmenc_spec u b c (s : cipher_state) : cipher_memory_ok -> ctx s = Some c -> to_bocu u = Some b -> zlen b < 2 ^ 29 ->
  mmenc_func [VText u] s = Done (RBlob (RC4 (key c) b), s).
Proof.
  intros Hmem Hc Hu Hb. enough (H : wp (mmenc_func [VText u]) (fun r s' => r = RBlob (RC4 (key c) b) /\ s' = s) s).
  { unfold wp in H. destruct (mmenc_func [VText u] s) as [[r s']|]; [|done]. by destruct H as [-> ->]. }
  unfold mmenc_func. apply wp_bind. unfold the_ctx at 1, wp at 1. rewrite Hc.
  apply wp_bind_assoc, wp_bind. eapply wp_mono; [apply (try_again_spec _ to_bocu 1024 u 1024 1 b); (done || apply from_law || lia)|].
  intros [[d len] st] s1 (-> & -> & -> & Hd). eapply wp_bind_lift_res; [exact Hd|].
  apply wp_bind. unfold do_rc4, the_ctx, bind, wp at 1, ret. rewrite Hc. by apply wp_ret.
Qed.

(** C37: what [mmenc] hides [mmdec] shows: a text of fewer than 512 UTF-16 units that has a BOCU-1 form
    comes back as it was, with the same context and whatever its key is. *)
Theorem mm_cipher_roundtrip u b c (s : cipher_state) :
  cipher_memory_ok -> ctx s = Some c -> to_bocu u = Some b -> zlen b < 2 ^ 29 -> zlen u < 512 ->
  match mmenc_func [VText u] s with
  | Done (RBlob e, s') => s' = s /\ mmdec_func [VBlob e] s' = Done (RText16 u, s)
  | _ => False
  end.
Proof.
  intros Hmem Hc Hu Hb H512. rewrite (mmenc_spec u b c) by done. split; [done|].
  enough (H : wp (mmdec_func [VBlob (RC4 (key c) b)]) (fun r s' => r = RText16 u /\ s' = s) s).
  { unfold wp in H. destruct (mmdec_func [VBlob (RC4 (key c) b)] s) as [[r s']|]; [|done]. by destruct H as [-> ->]. }
  unfold mmdec_func. apply wp_bind. unfold the_ctx at 1, wp at 1. rewrite Hc.
  unfold alloc. rewrite Hmem, rc4_length, andb_true_r.
  replace ((1024 <? zlen b) && negb (0 <? zlen b)) with false by lia.
  apply wp_bind. unfold do_rc4, the_ctx, bind, wp at 1, ret. rewrite Hc, rc4_involutive. zlen_pos.
  apply wp_bind_assoc, wp_bind. unfold sizeof_UChar.
  eapply wp_mono; [apply (try_again_spec _ of_bocu 512 b (512 * 2) 2 u); (done || apply to_law || lia || by apply bocu_inverse)|].
  intros [[d len] st] s1 (-> & -> & -> & Hd). eapply wp_bind_lift_res; [exact Hd|]. by apply wp_ret.
Qed.

(** [mmdec] tells ICU the size of its buffer in bytes where units are expected: for every text of 512
    units or more that [mmenc] accepts, reading it back writes behind the buffer on the stack. *)
Theorem mmdec_overflows u b c (s : cipher_state) :
  cipher_memory_ok -> ctx s = Some c -> to_bocu u = Some b -> zlen b < 2 ^ 29 -> 512 <= zlen u ->
  match mmenc_func [VText u] s with
  | Done (RBlob e, s') => mmdec_func [VBlob e] s' = Stuck OutOfBounds
  | _ => False
  end.
Proof.
  intros Hmem Hc Hu Hb H512. rewrite (mmenc_spec u b c) by done.
  unfold mmdec_func, bind at 1, the_ctx at 1. rewrite Hc. unfold alloc. rewrite Hmem, rc4_length, andb_true_r. zlen_pos.
  replace ((1024 <? zlen b) && negb (0 <? zlen b)) with false by lia.
  unfold bind at 1, do_rc4, bind at 1, the_ctx, ret at 1. rewrite Hc, rc4_involutive.
  unfold bind at 1, convert_into, sizeof_UChar.
  destruct (to_law b (512 * 2) u ltac:(lia) (bocu_inverse _ _ Hu)) as (status & -> & _).
  unfold bind at 1, lift_res, zwrite_n, in_range. rewrite zlen_fmap.
  replace (zlen (raw 512)) with 512 by done.
  assert (512 < zlen (take (Z.to_nat (512 * 2)) (u ++ [0]))) by (unfold zlen in *; rewrite length_take, length_app; change (length [0]) with 1%nat; lia).
  rewrite (proj2 (Z.leb_gt (0 + _) 512)) by lia. by rewrite andb_false_r.
Qed.

(** When SQLite refuses the second function, the context is released although the first function is
    registered: the error is returned, [mmenc] stays callable, and calling it on a text uses
    the released context. *)
Theorem register_leaves_dangling rc k u (s : cipher_state) :
  cipher_memory_ok -> ucnv_loaded = true -> ucnv_openCCSID_ok = true -> 16 <= zlen k ->
  rc fn_mmenc = SQLITE_OK -> rc fn_mmdec <> SQLITE_OK ->
  match sqlite3_register_mm_cipher rc k s with
  | Done (r, s') => r = rc fn_mmdec /\ fn_mmenc ∈ functions s' /\ mmenc_func [VText u] s' = Stuck UseAfterFree
  | Stuck _ => False
  end.
Proof.
  intros Hmem Hl Ho Hk H1 H2. unfold sqlite3_register_mm_cipher, alloc. rewrite Hl, Ho, Hmem. cbn [negb andb Z.ltb].
  change (0 <? sizeof_mm_cipher_context_t) with true. cbn [negb andb].
  rewrite (bind_lift_res _ _ _ _ (zread_n_slice k 0 16 ltac:(lia) ltac:(lia) Hk)). rewrite bind_modify.
  unfold create_function. rewrite H1, Z.eqb_refl. rewrite (proj2 (Z.eqb_neq (rc fn_mmdec) SQLITE_OK)) by done.
  cbn. erewrite bind_Done; [|reflexivity]. rewrite (proj2 (Z.eqb_neq (rc fn_mmdec) SQLITE_OK)) by done.
  cbn. split; [done|]. split; [|done]. apply elem_of_cons. by left.
Qed.
End props.

(** ** A small instance: one byte per unit and a key stream of one byte *)

Module CipherToy.

Definition narrow (u : list Z) : option (list Z) := if forallb (fun x => (0 <=? x) && (x <? 256)) u then Some u else None.

Definition conv (f : list Z -> option (list Z)) (dest : bool) (src : list Z) (cap status : Z) : list Z * Z * Z :=
  match f src with
  | Some r => (take (Z.to_nat cap) (r ++ [0]), zlen r, if zlen r <=? cap then 0 else 15)
  | None => ([], 0, 10)
  end.

#[export] Instance toy_env : CipherEnv := {|
  RC4 := fun k b => map (fun x => Z.lxor x (hd 0 k)) b;
  ucnv_fromUChars := conv narrow;
  ucnv_toUChars := conv Some;
  ucnv_loaded := true;
  ucnv_openCCSID_ok := true;
  cipher_malloc_ok := fun _ => true
|}.

Lemma conv_law f : ucnv_law (conv f) f.
Proof. intros src cap r Hcap Hf. eexists. unfold conv. rewrite Hf. split; [reflexivity|]. by case_match. Qed.

#[export] Instance toy_laws : CipherLaws.
Proof.
  refine {| to_bocu := narrow; of_bocu := Some |}.
  - apply conv_law.
  - apply conv_law.
  - unfold narrow. intros u b. case_match; intros [= <-]; done.
  - intros k b. simpl. rewrite map_map. rewrite <- (map_id b) at 2. apply map_ext. intros x.
    by rewrite Z.lxor_assoc, Z.lxor_nilpotent, Z.lxor_0_r.
  - intros k b. unfold zlen. simpl. by rewrite length_map.
Defined.

Definition ready : cipher_state := CS (Some (Ctx 3 (replicate 16 7))) [fn_mm_cipher_key; fn_mmdec; fn_mmenc] [].

Lemma mm_cipher_roundtrip_witness :
  match mmenc_func [VText (str "hello")] ready with
  | Done (RBlob e, s') => s' = ready /\ mmdec_func [VBlob e] s' = Done (RText16 (str "hello"), ready)
  | _ => False
  end.
Proof. apply (mm_cipher_roundtrip (str "hello") (str "hello") (Ctx 3 (replicate 16 7)));
    [intros n; reflexivity|reflexivity|reflexivity|reflexivity|reflexivity]. Defined.

Lemma mmdec_overflows_witness :
  match mmenc_func [VText (replicate 600 65)] ready with
  | Done (RBlob e, s') => mmdec_func [VBlob e] s' = Stuck OutOfBounds
  | _ => False
  end.
Proof.
  apply (mmdec_overflows (replicate 600 65) (replicate 600 65) (Ctx 3 (replicate 16 7)));
    [intros n; reflexivity|reflexivity|reflexivity|reflexivity|discriminate].
Defined.

(** SQLite takes the first function only. *)
Definition first_only (f : sql_function) : Z := match f with fn_mmenc => 0 | _ => 21 end.

Lemma register_leaves_dangling_witness :
  match sqlite3_register_mm_cipher first_only (zeros 16) (CS None [] []) with
  | Done (r, s') => r = first_only fn_mmdec /\ fn_mmenc ∈ functions s' /\ mmenc_func [VText [65]] s' = Stuck UseAfterFree
  | Stuck _ => False
  end.
Proof.
  apply (register_leaves_dangling first_only (zeros 16) [65] (CS None [] []));
    [intros n; reflexivity|reflexivity|reflexivity|discriminate|reflexivity|discriminate].
Defined.
End CipherToy.
