(* ===== verification/Serial.v ===== *)
(** * Serialization (base/Serialization.cpp)

    The growing buffer that numbers and strings are put into, and the cursor over bytes that
    reads them back.  [Serialization] and [Deserialization] share the cursor of
    [SerializeIteration].

    [size_t] has 64 bits and [offset_t] is signed with 64 bits; sums of [size_t] wrap around.  A
    [Data] is the list of its bytes; memory is asked for through a parameter.  In a build without
    WCDB_DEBUG, [WCTAssert] has no effect, and a read outside the data is a fault here. *)

From S2P Require Import Prelude CLib.

(** [malloc]: the answer to the [n]-th request; the bytes are what the block holds. *)
Class DataAlloc := { data_malloc : nat -> Z -> option (list Z) }.

Class DataAllocLaws (A : DataAlloc) : Prop := {
  data_malloc_size : forall k n blk, data_malloc k n = Some blk -> 0 <= n -> zlen blk = n
}.

(** ** The cursor *)

(** The new cursor for data of [capacity] bytes. *)
Definition seek_to (capacity position : Z) : Z :=
  if position <? 0 then Z.max 0 (capacity + position + 1) else Z.min capacity position.

(** ** Serialization *)

Record Serialization := Ser { s_data : list Z; s_cursor : Z; s_allocs : nat }.

Definition empty_serialization (k : nat) : Serialization := Ser [] 0 k.

Section put.
Context `{DA : DataAlloc}.

Definition ser_seek (position : Z) : cm Serialization unit :=
  modify (fun s => Ser (s_data s) (seek_to (zlen (s_data s)) position) (s_allocs s)).
Definition ser_advance (offset : Z) : cm Serialization unit :=
  let! c := gets s_cursor in ser_seek (c + offset).

(** [Data::resize] for a buffer that is as large as its block: a larger one is allocated and the
    content copied. *)
Definition data_resize (size : Z) : cm Serialization bool :=
  let! s := gets (fun s => s) in
  if (0 <? zlen (s_data s)) && (size <=? zlen (s_data s)) then
    modify (fun s => Ser (take (Z.to_nat size) (s_data s)) (s_cursor s) (s_allocs s)) ;;; ret true
  else if size =? 0 then ret true
  else
    modify (fun s => Ser (s_data s) (s_cursor s) (S (s_allocs s))) ;;;
    match data_malloc (s_allocs s) size with
    | None => ret false
    | Some blk =>
      modify (fun s => Ser (s_data s ++ drop (length (s_data s)) blk) (s_cursor s) (s_allocs s)) ;;; ret true
    end.

Definition resize (size : Z) : cm Serialization bool :=
  let! n := gets (fun s => zlen (s_data s)) in
  if size <? n then ret true else data_resize (Z.max size (u64 (n * 2))).

Definition expand (n : Z) : cm Serialization bool :=
  let! c := gets s_cursor in resize (u64 (c + n)).

(** Bytes stored from [pointee()] on. *)
Definition store (b : list Z) : cm Serialization unit :=
  let! s := gets (fun s => s) in
  let! d := lift_res (zwrite_n (s_data s) (s_cursor s) b) in
  modify (fun s => Ser d (s_cursor s) (s_allocs s)).

Definition put4BytesUInt (value : Z) : cm Serialization bool :=
  let! ok := expand 4 in
  if negb ok then ret false
  else
    store [u8 (Z.shiftr value 24); u8 (Z.shiftr value 16); u8 (Z.shiftr value 8); u8 value] ;;;
    ser_advance 4 ;;;
    ret true.

Definition put8BytesUInt (value : Z) : cm Serialization bool :=
  let! cursor := gets s_cursor in
  let! ok := put4BytesUInt (u32 (Z.shiftr value 32)) in
  let! ok := (if ok : bool then put4BytesUInt (u32 value) else ret false) in
  if ok then ret true else ser_seek cursor ;;; ret false.

(** The terminator is stored too; the cursor stays where it is. *)
Definition putString (string : list Z) : cm Serialization bool :=
  let! ok := expand (u64 (zlen string + 1)) in
  if negb ok then ret false else store (string ++ [0]) ;;; ret true.

(** The loop for nine bytes: [n] bytes from the last to the first, behind [rest]. *)
Fixpoint high_groups (n : nat) (value : Z) (rest : list Z) : list Z :=
  match n with
  | O => rest
  | S n => high_groups n (Z.shiftr value 7) (u8 (Z.lor (Z.land value 127) 128) :: rest)
  end.

(** The loop [do ... while (value != 0)]: the bytes of [buf], from [buf[0]] on. *)
Fixpoint low_groups (fuel : nat) (value : Z) : list Z :=
  match fuel with
  | O => []
  | S fuel =>
    let b := u8 (Z.lor (Z.land value 127) 128) in
    let value := Z.shiftr value 7 in
    if value =? 0 then [b] else b :: low_groups fuel value
  end.

(** [buf[0] &= 0x7f] and the copy in reverse. *)
Definition reversed (buf : list Z) : list Z :=
  match buf with [] => [] | b :: buf => rev (Z.land b 127 :: buf) end.

(** The bytes of a varint; ten groups of seven bits hold 64 bits. *)
Definition varint_of (value : Z) : list Z :=
  if value <=? 127 then [Z.land value 127]
  else if value <=? 16383 then [Z.lor (Z.land (Z.shiftr value 7) 127) 128; Z.land value 127]
  else if negb (Z.land value (Z.shiftl 4278190080 32) =? 0)
  then high_groups 8 (Z.shiftr value 8) [u8 value]
  else reversed (low_groups 10 value).

(** The number of bytes, zero for failure. *)
Definition putVarint (value : Z) : cm Serialization Z :=
  let! ok := expand 9 in
  if negb ok then ret 0
  else
    let b := varint_of value in
    store b ;;;
    ser_advance (zlen b) ;;;
    ret (zlen b).

(** [putSizedString] and [putSizedData]: the cursor is put back on failure, but the result is [true]. *)
Definition putSized (b : list Z) : cm Serialization bool :=
  let! cursor := gets s_cursor in
  let! lengthOfSize := putVarint (zlen b) in
  let! succeed :=
    (if lengthOfSize =? 0 then ret false
     else
       let! ok := expand (zlen b) in
       if negb ok then ret false else store b ;;; ser_advance (zlen b) ;;; ret true) in
  (if succeed : bool then ret tt else ser_seek cursor) ;;;
  ret true.

Definition putSizedString (string : list Z) : cm Serialization bool := putSized string.
Definition putSizedData (data : list Z) : cm Serialization bool := putSized data.

(** [m_data.subdata(m_cursor)] *)
Definition finalize : cm Serialization (list Z) := gets (fun s => take (Z.to_nat (s_cursor s)) (s_data s)).
End put.

(** ** Deserialization *)

Record Deserialization := Deser { d_data : list Z; d_cursor : Z; d_version : Z }.

(** [Deserialization(data)] *)
Definition new_deserialization (data : list Z) : Deserialization := Deser data 0 0.

Definition setDataVersion (version : Z) : cm Deserialization unit :=
  modify (fun s => Deser (d_data s) (d_cursor s) version).
(** [reset(data)]: the version stays. *)
Definition de_reset (data : list Z) : cm Deserialization unit := modify (fun s => Deser data 0 (d_version s)).
Definition de_seek (position : Z) : cm Deserialization unit :=
  modify (fun s => Deser (d_data s) (seek_to (zlen (d_data s)) position) (d_version s)).
Definition de_advance (offset : Z) : cm Deserialization unit :=
  let! c := gets d_cursor in de_seek (c + offset).

(** [size_t] arguments: sums wrap around. *)
Definition isEnough (d : list Z) (size : Z) : bool := u64 size <=? zlen d.
Definition canAdvance (s : Deserialization) (size : Z) : bool := isEnough (d_data s) (d_cursor s + size).
Definition ended (s : Deserialization) : bool := d_cursor s =? zlen (d_data s).

(** *** Numbers of fixed width *)

Definition s8 (z : Z) : Z := wrap_s 8 z.

Definition get1ByteInt (d : list Z) (offset : Z) : res Z := let? b := zread d offset in Done (s8 b).
Definition get2BytesInt (d : list Z) (offset : Z) : res Z :=
  let? p0 := zread d offset in
  let? p1 := zread d (offset + 1) in
  Done (Z.lor (256 * s8 p0) p1).
Definition get3BytesInt (d : list Z) (offset : Z) : res Z :=
  let? p0 := zread d offset in
  let? p1 := zread d (offset + 1) in
  let? p2 := zread d (offset + 2) in
  Done (Z.lor (Z.lor (65536 * s8 p0) (Z.shiftl p1 8)) p2).
Definition get4BytesInt (d : list Z) (offset : Z) : res Z :=
  let? p0 := zread d offset in
  let? p1 := zread d (offset + 1) in
  let? p2 := zread d (offset + 2) in
  let? p3 := zread d (offset + 3) in
  Done (Z.lor (Z.lor (Z.lor (16777216 * s8 p0) (Z.shiftl p1 16)) (Z.shiftl p2 8)) p3).
Definition get4BytesUInt (d : list Z) (offset : Z) : res Z :=
  let? p0 := zread d offset in
  let? p1 := zread d (offset + 1) in
  let? p2 := zread d (offset + 2) in
  let? p3 := zread d (offset + 3) in
  Done (Z.lor (Z.lor (Z.lor (Z.shiftl p0 24) (Z.shiftl p1 16)) (Z.shiftl p2 8)) p3).
Definition get6BytesInt (d : list Z) (offset : Z) : res Z :=
  let? lo := get4BytesUInt d (offset + 2) in
  let? hi := get2BytesInt d offset in
  Done (lo + 2 ^ 32 * hi).
Definition get8BytesInt (d : list Z) (offset : Z) : res Z :=
  let? x := get4BytesUInt d offset in
  let? y := get4BytesUInt d (offset + 4) in
  Done (s64 (u64 (Z.shiftl x 32 + y))).
(** The eight bytes of the [double], in the order of a little-endian machine. *)
Definition get8BytesDouble (d : list Z) (offset : Z) : res (list Z) :=
  let? x := get4BytesUInt d offset in
  let? y := get4BytesUInt d (offset + 4) in
  Done (le_bytes 8 (u64 (Z.shiftl x 32 + y))).

(** *** Varints *)

Definition slot_2_0 : Z := 2080895.      (* 0x001fc07f *)
Definition slot_4_2_0 : Z := 4028612735. (* 0xf01fc07f *)

Definition clear7 (a : Z) : bool := Z.land a 128 =? 0.

(** The value [((uint64_t) s) << 32 | a]. *)
Definition joined64 (s a : Z) : Z := Z.lor (u64 (Z.shiftl s 32)) a.

(** The length and the value; length zero for failure. *)
Definition getVarint (d : list Z) (offset : Z) : res (Z * Z) :=
  if negb (isEnough d (offset + 1)) then Done (0, 0) else
  let? a := zread d offset in
  if clear7 a then Done (1, a) else
  if negb (isEnough d (offset + 2)) then Done (0, 0) else
  let? b := zread d (offset + 1) in
  if clear7 b then Done (2, Z.lor (u32 (Z.shiftl (Z.land a 127) 7)) b) else
  if negb (isEnough d (offset + 3)) then Done (0, 0) else
  let? p := zread d (offset + 2) in
  let a := Z.lor (u32 (Z.shiftl a 14)) p in
  if clear7 a then Done (3, Z.lor (Z.land a slot_2_0) (u32 (Z.shiftl (Z.land b 127) 7))) else
  let a := Z.land a slot_2_0 in
  if negb (isEnough d (offset + 4)) then Done (0, 0) else
  let? p := zread d (offset + 3) in
  let b := Z.lor (u32 (Z.shiftl b 14)) p in
  if clear7 b then Done (4, Z.lor (u32 (Z.shiftl a 7)) (Z.land b slot_2_0)) else
  let b := Z.land b slot_2_0 in
  let s := a in
  if negb (isEnough d (offset + 5)) then Done (0, 0) else
  let? p := zread d (offset + 4) in
  let a := Z.lor (u32 (Z.shiftl a 14)) p in
  if clear7 a then Done (5, joined64 (Z.shiftr s 18) (Z.lor a (u32 (Z.shiftl b 7)))) else
  let s := Z.lor (u64 (Z.shiftl s 7)) b in
  if negb (isEnough d (offset + 6)) then Done (0, 0) else
  let? p := zread d (offset + 5) in
  let b := Z.lor (u32 (Z.shiftl b 14)) p in
  if clear7 b then Done (6, joined64 (Z.shiftr s 18) (Z.lor (u32 (Z.shiftl (Z.land a slot_2_0) 7)) b)) else
  if negb (isEnough d (offset + 7)) then Done (0, 0) else
  let? p := zread d (offset + 6) in
  let a := Z.lor (u32 (Z.shiftl a 14)) p in
  if clear7 a
  then Done (7, joined64 (Z.shiftr s 11) (Z.lor (Z.land a slot_4_2_0) (u32 (Z.shiftl (Z.land b slot_2_0) 7)))) else
  let a := Z.land a slot_2_0 in
  if negb (isEnough d (offset + 8)) then Done (0, 0) else
  let? p := zread d (offset + 7) in
  let b := Z.lor (u32 (Z.shiftl b 14)) p in
  if clear7 b then Done (8, joined64 (Z.shiftr s 4) (Z.lor (u32 (Z.shiftl a 7)) (Z.land b slot_4_2_0))) else
  if negb (isEnough d (offset + 9)) then Done (0, 0) else
  let? p := zread d (offset + 8) in
  let a := Z.lor (u32 (Z.shiftl a 15)) p in
  let a := Z.lor a (u32 (Z.shiftl (Z.land b slot_2_0) 8)) in
  let s := u64 (Z.shiftl s 4) in
  let? p4 := zread d (offset + 4) in
  let s := Z.lor s (Z.shiftr (Z.land p4 127) 3) in
  Done (9, joined64 s a).

(** *** Strings and data *)

(** [getString] copies the bytes; [getData] is a view of them. *)
Definition getString (d : list Z) (offset size : Z) : res (list Z) :=
  if size =? 0 then Done [] else zread_n d offset size.

Definition getSizedString (d : list Z) (offset : Z) : res (Z * list Z) :=
  let? (lengthOfSize, size) := getVarint d offset in
  if (lengthOfSize =? 0) || negb (isEnough d (offset + lengthOfSize + size)) then Done (0, [])
  else let? s := getString d (offset + lengthOfSize) size in Done (u64 (lengthOfSize + size), s).

(** The result is the offset and the size of the view. *)
Definition getSizedData (d : list Z) (offset : Z) : res (Z * (Z * Z)) :=
  let? (lengthOfSize, size) := getVarint d offset in
  if (lengthOfSize =? 0) || negb (isEnough d (offset + lengthOfSize + size)) then Done (0, (0, 0))
  else Done (u64 (lengthOfSize + size), (offset + lengthOfSize, size)).

(** *** Reading at the cursor *)

(** A number of [n] bytes; the caller has asked [canAdvance]. *)
Definition advance_fixed {A} (get : list Z -> Z -> res A) (n : Z) : cm Deserialization A :=
  let! s := gets (fun s => s) in
  let! v := lift_res (get (d_data s) (d_cursor s)) in
  de_advance n ;;;
  ret v.

Definition advance1ByteInt : cm Deserialization Z := advance_fixed get1ByteInt 1.
Definition advance2BytesInt : cm Deserialization Z := advance_fixed get2BytesInt 2.
Definition advance3BytesInt : cm Deserialization Z := advance_fixed get3BytesInt 3.
Definition advance4BytesInt : cm Deserialization Z := advance_fixed get4BytesInt 4.
Definition advance4BytesUInt : cm Deserialization Z := advance_fixed get4BytesUInt 4.
Definition advance6BytesInt : cm Deserialization Z := advance_fixed get6BytesInt 6.
Definition advance8BytesInt : cm Deserialization Z := advance_fixed get8BytesInt 8.
Definition advance8BytesDouble : cm Deserialization (list Z) := advance_fixed get8BytesDouble 8.

(** A length and something of that length; the length is an [offset_t] for [advance]. *)
Definition advance_sized {A} (get : list Z -> Z -> res (Z * A)) : cm Deserialization (Z * A) :=
  let! s := gets (fun s => s) in
  let! r := lift_res (get (d_data s) (d_cursor s)) in
  (if 0 <? r.1 then de_advance (s64 r.1) else ret tt) ;;;
  ret r.

Definition advanceVarint : cm Deserialization (Z * Z) := advance_sized getVarint.
Definition advanceSizedString : cm Deserialization (Z * list Z) := advance_sized getSizedString.
Definition advanceSizedData : cm Deserialization (Z * (Z * Z)) := advance_sized getSizedData.
