(* ===== verification/SerialVarint.v ===== *)
(** * Serialization: varints

    The unrolled decoder [getVarint] against the decoder that reads a byte at a time, and the
    encoder against the format of SQLite. *)

From Stdlib Require Import Btauto.
From S2P Require Import Prelude CLib Varint Serial.

(** ** Fields of bits *)

Lemma u32_land x : u32 x = Z.land x 4294967295.
Proof. unfold u32. change 4294967295 with (Z.ones 32). by rewrite Z.land_ones. Qed.
Lemma u64_land x : u64 x = Z.land x 18446744073709551615.
Proof. unfold u64. change 18446744073709551615 with (Z.ones 64). by rewrite Z.land_ones. Qed.

Lemma land_shiftl l k m : 0 <= k -> Z.land (Z.shiftl l k) m = Z.shiftl (Z.land l (Z.shiftr m k)) k.
Proof.
  intros Hk. apply Z.bits_inj'. intros n Hn. rewrite Z.land_spec, !Z.shiftl_spec by done.
  destruct (Z.lt_ge_cases n k) as [H|H].
  - rewrite !(Z.testbit_neg_r _ (n - k)) by lia. done.
  - rewrite Z.land_spec, Z.shiftr_spec by lia. by replace (n - k + k) with n by lia.
Qed.

(** Seven bits of a field are kept by a mask that has them. *)
Lemma land_seven l m : 0 <= l < 128 -> Z.land l m = Z.land l (Z.land m 127).
Proof.
  intros Hl. rewrite (Z.land_comm m), Z.land_assoc. f_equal. change 127 with (Z.ones 7). rewrite Z.land_ones, Z.mod_small by lia. done.
Qed.
Lemma land_all l : 0 <= l < 128 -> Z.land l 127 = l.
Proof. intros Hl. change 127 with (Z.ones 7). rewrite Z.land_ones, Z.mod_small by lia. done. Qed.

(** A byte with bit 7 set and one without. *)
Lemma byte_high p : 128 <= p < 256 -> exists l, 0 <= l < 128 /\ p = Z.lor l 128 /\ p - 128 = l.
Proof.
  intros Hp. exists (p - 128). split; [lia|]. split; [|done].
  pose proof (Z.add_lor_land (p - 128) 128) as H.
  assert (Z.land (p - 128) 128 = 0); [|lia]. rewrite land_seven by lia. apply Z.land_0_r.
Qed.

(** A decoder step as an operation on bits. *)
Lemma step_lor acc l : 0 <= l < 128 -> acc * 128 + l = Z.lor (Z.shiftl acc 7) l.
Proof.
  intros Hl. rewrite Z.shiftl_mul_pow2 by lia. change (2 ^ 7) with 128.
  pose proof (Z.add_lor_land (acc * 128) l) as H. assert (Z.land (acc * 128) l = 0); [|lia].
  replace (acc * 128) with (Z.shiftl acc 7) by (rewrite Z.shiftl_mul_pow2; lia).
  rewrite land_shiftl by lia. rewrite Z.shiftr_div_pow2 by lia. rewrite (Z.div_small l) by lia.
  by rewrite Z.land_0_r.
Qed.
Lemma last_lor acc l : 0 <= l < 256 -> acc * 256 + l = Z.lor (Z.shiftl acc 8) l.
Proof.
  intros Hl. rewrite Z.shiftl_mul_pow2 by lia. change (2 ^ 8) with 256.
  pose proof (Z.add_lor_land (acc * 256) l) as H. assert (Z.land (acc * 256) l = 0); [|lia].
  replace (acc * 256) with (Z.shiftl acc 8) by (rewrite Z.shiftl_mul_pow2; lia).
  rewrite land_shiftl by lia. rewrite Z.shiftr_div_pow2 by lia. rewrite (Z.div_small l) by lia.
  by rewrite Z.land_0_r.
Qed.

Lemma shiftr_shiftl a n m : 0 <= n -> Z.shiftr (Z.shiftl a n) m = Z.shiftl a (n - m).
Proof. apply Z.shiftr_shiftl_l. Qed.
Lemma shiftr_gone l k : 0 <= l < 128 -> 7 <= k -> Z.shiftr l k = 0.
Proof.
  intros Hl Hk. rewrite Z.shiftr_div_pow2 by lia. apply Z.div_small. split; [lia|].
  apply Z.lt_le_trans with (2 ^ 7); [lia|]. apply Z.pow_le_mono_r; lia.
Qed.
Lemma shiftl_right a p : Z.shiftl a (Zneg p) = Z.shiftr a (Zpos p).
Proof. done. Qed.
Lemma land_shiftr l k m : 0 <= k -> Z.land (Z.shiftr l k) m = Z.shiftr (Z.land l (Z.shiftl m k)) k.
Proof. intros Hk. rewrite Z.shiftr_land, Z.shiftr_shiftl_l by done. by rewrite Z.sub_diag, Z.shiftl_0_r. Qed.

(** The bits above bit [k] are all that a shift keeps. *)
Lemma shiftr_kept l k m : 0 <= l < 128 -> 0 <= k <= 7 -> Z.shiftr m k = Z.ones (7 - k) -> Z.shiftr (Z.land l m) k = Z.shiftr l k.
Proof.
  intros Hl Hk Hm. rewrite Z.shiftr_land, Hm, Z.land_ones by lia. apply Z.mod_small.
  rewrite Z.shiftr_div_pow2 by lia. split; [apply Z.div_pos; lia|]. apply Z.div_lt_upper_bound; [lia|].
  rewrite <- Z.pow_add_r by lia. replace (k + (7 - k)) with 7 by lia. lia.
Qed.

(** A field in two parts. *)
Lemma field_parts l j k : 0 <= j -> 0 <= k ->
  Z.shiftl l k = Z.lor (Z.shiftl (Z.land l (Z.ones j)) k) (Z.shiftl (Z.shiftr l j) (j + k)).
Proof.
  intros Hj Hk. rewrite <- Z.shiftl_shiftl by done. rewrite <- Z.shiftl_lor. f_equal.
  rewrite <- Z.ldiff_ones_r by done. apply Z.bits_inj'. intros n Hn.
  rewrite Z.lor_spec, Z.land_spec, Z.ldiff_spec. btauto.
Qed.

(** Constants are folded, fields are collected. *)
Ltac fold_constants :=
  repeat match goal with
  | |- context [Z.shiftr (Zpos ?a) ?k] =>
    let v := eval vm_compute in (Z.shiftr (Zpos a) k) in change (Z.shiftr (Zpos a) k) with v
  | |- context [Z.shiftl (Zpos ?a) ?k] =>
    let v := eval vm_compute in (Z.shiftl (Zpos a) k) in change (Z.shiftl (Zpos a) k) with v
  | |- context [Z.land (Zpos ?a) (Zpos ?b)] =>
    let v := eval vm_compute in (Z.land (Zpos a) (Zpos b)) in change (Z.land (Zpos a) (Zpos b)) with v
  | |- context [(Zpos ?a + Zpos ?b)%Z] =>
    let v := eval vm_compute in (Zpos a + Zpos b) in change (Zpos a + Zpos b) with v
  | |- context [(Zpos ?a - Zpos ?b)%Z] =>
    let v := eval vm_compute in (Zpos a - Zpos b) in change (Zpos a - Zpos b) with v
  end.

Ltac field_step :=
  first
    [ rewrite Z.land_lor_distr_l | rewrite Z.shiftl_lor | rewrite Z.shiftr_lor
    | rewrite <- Z.land_assoc
    | rewrite Z.shiftl_shiftl by lia
    | rewrite shiftr_shiftl by lia
    | rewrite shiftl_right
    | rewrite land_shiftl by lia
    | rewrite land_shiftr by lia
    | rewrite Z.shiftl_0_l | rewrite Z.shiftl_0_r | rewrite Z.shiftr_0_l
    | rewrite Z.land_0_l | rewrite Z.land_0_r | rewrite Z.lor_0_r | rewrite Z.lor_0_l
    | match goal with
      | H : 0 <= ?l < 128 |- context [Z.land ?l 127] => rewrite (land_all l) by exact H
      | H : 0 <= ?l < 128 |- context [Z.shiftr ?l ?k] =>
        lazymatch eval vm_compute in (7 <=? k) with true => rewrite (shiftr_gone l k) by (exact H || lia) end
      | H : 0 <= ?l < 128 |- context [Z.shiftr (Z.land ?l ?m) ?k] => rewrite (shiftr_kept l k m) by (exact H || lia || reflexivity)
      | H : 0 <= ?l < 128 |- context [Z.land ?l (Zpos ?m)] =>
        lazymatch eval vm_compute in (127 <? Zpos m) with
        | true => rewrite (land_seven l (Zpos m)) by exact H
        end
      end ].
Ltac fields := rewrite ?u32_land, ?u64_land; fold_constants; repeat (field_step; fold_constants).

(** A [let] whose value is normalised; a test of bit 7. *)
Ltac norm_let :=
  lazymatch goal with
  | |- (let a := ?X in @?F a) = ?R =>
    let H := fresh in
    eassert (X = _) as H by (unfold slot_2_0, slot_4_2_0; fields; reflexivity);
    change (F X = R); rewrite H; clear H; cbv beta
  end.

Lemma clear7_low l : 0 <= l < 128 -> clear7 l = true.
Proof. intros H. unfold clear7. fields. done. Qed.

(** ** Reading a byte after another *)

Lemma read_suffix {A} (pre l : list A) off i x :
  l !! i = Some x -> off = zlen pre + Z.of_nat i -> zread (pre ++ l) off = Done x.
Proof.
  intros Hx ->. unfold zread. zlen_pos. rewrite (proj2 (Z.leb_le _ _)) by lia.
  unfold zlen. rewrite Z2Nat.inj_add, !Nat2Z.id, lookup_app_r, Nat.add_comm, Nat.add_sub by lia. by rewrite Hx.
Qed.

Lemma dec_high n p l acc len : 128 <= p ->
  dec_varint (S n) (p :: l) acc len = dec_varint n l (acc * 128 + (p - 128)) (len + 1).
Proof. intros H. cbn [dec_varint]. by rewrite (proj2 (Z.ltb_ge _ _)). Qed.
Lemma dec_low n p l acc len : p < 128 -> dec_varint (S n) (p :: l) acc len = Some (acc * 128 + p, len + 1).
Proof. intros H. cbn [dec_varint]. by rewrite (proj2 (Z.ltb_lt _ _)). Qed.

Lemma bind_done {A B} (x : A) (k : A -> res B) : res_bind (Done x) k = k x.
Proof. done. Qed.

(** The result of a decoder as [getVarint] gives it. *)
Definition varint_result (r : option (Z * Z)) : Z * Z := match r with Some (v, len) => (len, v) | None => (0, 0) end.

Section varint.
Context (pre : list Z).

Lemma enough l k : zlen (pre ++ l) < 2 ^ 63 -> 0 <= k <= 9 -> isEnough (pre ++ l) (zlen pre + k) = (k <=? zlen l).
Proof.
  rewrite zlen_app. intros H Hk. unfold isEnough. zlen_pos. rewrite zlen_app. unfold u64. rewrite Z.mod_small by lia.
  apply eq_true_iff_eq. rewrite !Z.leb_le. lia.
Qed.

(** The next byte: there is none, or it is read. *)
Ltac next_byte l p i :=
  destruct l as [|p l];
  [ rewrite enough by (done || lia); repeat rewrite dec_high by assumption; reflexivity
  | rewrite enough by (done || lia);
    rewrite (proj2 (Z.leb_le _ _)) by (rewrite ?zlen_cons; zlen_pos; lia); cbv beta iota delta [negb];
    rewrite (read_suffix _ _ _ i p) by (reflexivity || lia); rewrite bind_done;
    let Hp := fresh in
    match goal with H : Forall is_byte _ |- _ => inversion H as [|? ? Hp ?]; subst; clear H end;
    unfold is_byte in Hp ].
Ltac bit7 b := lazymatch goal with |- (if clear7 ?X then _ else _) = _ =>
  replace (clear7 X) with b by (unfold clear7; fields; reflexivity) end; cbv beta iota delta [negb].
(** The value of a branch and the value of the decoder: the same fields. *)
Ltac same_fields :=
  repeat match goal with H : Z.lor ?l 128 - 128 = ?l |- _ => rewrite ?H; clear H end;
  rewrite ?Z.mul_0_l, ?Z.add_0_l; repeat rewrite step_lor by assumption; rewrite ?last_lor by assumption;
  unfold joined64, slot_2_0, slot_4_2_0; fields;
  repeat match goal with
  | |- context [Z.shiftl (Z.land ?l 15) 28] => rewrite (field_parts l 4 28) by lia; change (Z.ones 4) with 15; change (4 + 28) with 32
  | |- context [Z.shiftl (Z.land ?l 7) 29] => rewrite (field_parts l 3 29) by lia; change (Z.ones 3) with 7; change (3 + 29) with 32
  end;
  apply Z.bits_inj'; intros; rewrite ?Z.lor_spec; btauto.
Ltac finish :=
  repeat rewrite dec_high by assumption; rewrite dec_low by lia; cbn [varint_result];
  apply f_equal, f_equal2; [reflexivity|same_fields].
Ltac byte_case p l :=
  destruct (Z.lt_ge_cases p 128);
  [ match goal with H : 0 <= p < 256 |- _ => assert (0 <= p < 128) by lia; clear H end; bit7 true
  | let H := fresh in let H1 := fresh in let H2 := fresh in
    destruct (byte_high p) as (l & H & H1 & H2); [lia|]; subst p; bit7 false ].

Lemma getVarint_dec l :
  zlen (pre ++ l) < 2 ^ 63 -> Forall is_byte l ->
  getVarint (pre ++ l) (zlen pre) = Done (varint_result (dec_varint 8 l 0 0)).
Proof.
  intros Hl Hb. cbv beta delta [getVarint].
  next_byte l p0 0%nat.
  byte_case p0 l0. { finish. }
  next_byte l p1 1%nat.
  byte_case p1 l1. { finish. }
  next_byte l p2 2%nat. norm_let.
  byte_case p2 l2. { finish. }
  norm_let. next_byte l p3 3%nat. norm_let.
  byte_case p3 l3. { finish. }
  norm_let. norm_let. next_byte l p4 4%nat. norm_let.
  byte_case p4 l4. { finish. }
  norm_let. next_byte l p5 5%nat. norm_let.
  byte_case p5 l5. { finish. }
  next_byte l p6 6%nat. norm_let.
  byte_case p6 l6. { finish. }
  norm_let. next_byte l p7 7%nat. norm_let.
  byte_case p7 l7. { finish. }
  next_byte l p8 8%nat. norm_let. norm_let. norm_let.
  rewrite bind_done. norm_let.
  repeat rewrite dec_high by assumption. cbn [dec_varint varint_result].
  apply f_equal, f_equal2; [reflexivity|].
  same_fields.
Qed.
End varint.

(** ** The encoder *)

Lemma seven_high l : 0 <= l < 128 -> 0 <= Z.lor l 128 < 256.
Proof.
  intros Hl. pose proof (Z.add_lor_land l 128) as H.
  assert (Z.land l 128 = 0) by (rewrite land_seven by done; apply Z.land_0_r). lia.
Qed.
Lemma group_byte v : u8 (Z.lor (Z.land v 127) 128) = 128 + v mod 128.
Proof.
  change 127 with (Z.ones 7). rewrite Z.land_ones by lia. change (2 ^ 7) with 128.
  pose proof (Z.mod_pos_bound v 128 ltac:(lia)) as Hm. pose proof (Z.add_lor_land (v mod 128) 128) as H.
  assert (Z.land (v mod 128) 128 = 0) by (rewrite land_seven by done; apply Z.land_0_r).
  replace (Z.lor (v mod 128) 128) with (128 + v mod 128) by lia. apply Z.mod_small. lia.
Qed.
Lemma shiftr_seven v : Z.shiftr v 7 = v / 128.
Proof. by rewrite Z.shiftr_div_pow2. Qed.

Lemma high_groups_cont n : forall v rest, high_groups n v rest = cont_bytes n v ++ rest.
Proof.
  induction n as [|n IH]; intros v rest; [done|]. cbn [high_groups cont_bytes].
  by rewrite IH, group_byte, shiftr_seven, <- app_assoc.
Qed.

Lemma log2_group v : 128 <= v -> Z.to_nat (Z.log2 v / 7) = S (Z.to_nat (Z.log2 (v / 128) / 7)).
Proof.
  intros Hv. rewrite <- shiftr_seven, Z.log2_shiftr by lia.
  assert (7 <= Z.log2 v) by (apply Z.log2_le_pow2; lia). rewrite Z.max_r by lia.
  replace (Z.log2 v) with (Z.log2 v - 7 + 1 * 7) at 1 by lia. rewrite Z.div_add by lia.
  pose proof (Z.div_pos (Z.log2 v - 7) 7). lia.
Qed.
Lemma log2_small v : v < 128 -> Z.to_nat (Z.log2 v / 7) = 0%nat.
Proof.
  intros Hv. rewrite Z.div_small; [done|]. split; [apply Z.log2_nonneg|].
  destruct (Z.le_gt_cases v 0); [by rewrite Z.log2_nonpos by lia|]. apply Z.log2_lt_pow2; lia.
Qed.

Lemma low_groups_cont n : forall v, 0 <= v < 128 ^ Z.of_nat n -> (0 < n)%nat ->
  low_groups n v = (128 + v mod 128) :: rev (cont_bytes (Z.to_nat (Z.log2 v / 7)) (v / 128)).
Proof.
  induction n as [|n IH]; intros v Hv Hn; [lia|]. cbn [low_groups]. rewrite group_byte, shiftr_seven.
  destruct (v / 128 =? 0) eqn:E.
  - rewrite log2_small; [done|]. pose proof (Z.div_mod v 128 ltac:(lia)). pose proof (Z.mod_pos_bound v 128 ltac:(lia)). lia.
  - assert (128 <= v) by (destruct (Z.lt_ge_cases v 128); [rewrite Z.div_small in E by lia; lia|done]).
    rewrite Nat2Z.inj_succ, Z.pow_succ_r in Hv by lia.
    assert (0 <= v / 128 < 128 ^ Z.of_nat n) by (split; [apply Z.div_pos; lia|apply Z.div_lt_upper_bound; lia]).
    rewrite IH; [|done|destruct n; [|lia]; change (128 ^ Z.of_nat 0) with 1 in *; lia].
    rewrite (log2_group v) by done. cbn [cont_bytes]. by rewrite rev_app_distr.
Qed.

Lemma nine_bytes v : 0 <= v < 2 ^ 64 -> (Z.land v (Z.shiftl 4278190080 32) =? 0) = (v <? 2 ^ 56).
Proof.
  intros Hv. change (Z.shiftl 4278190080 32) with (Z.shiftl (Z.ones 8) 56).
  rewrite (Z.land_comm v), land_shiftl, Z.land_comm, Z.land_ones, Z.shiftr_div_pow2 by lia.
  rewrite Z.shiftl_mul_pow2 by lia. rewrite Z.mod_small by (split; [apply Z.div_pos; lia|apply Z.div_lt_upper_bound; lia]).
  apply eq_true_iff_eq. rewrite Z.eqb_eq, Z.ltb_lt. split; intros H.
  - destruct (Z.lt_ge_cases v (2 ^ 56)); [done|]. pose proof (Z.div_le_lower_bound v (2 ^ 56) 1). lia.
  - rewrite Z.div_small by lia. done.
Qed.

Lemma varint_of_sqlite v : 0 <= v < 2 ^ 64 -> varint_of v = sqlite_varint v.
Proof.
  intros Hv. unfold varint_of, sqlite_varint. 
  assert (Hl : Z.land v 127 = v mod 128) by (change 127 with (Z.ones 7); by rewrite Z.land_ones).
  destruct (v <=? 127) eqn:E1.
  { rewrite (proj2 (Z.ltb_lt _ _)) by lia. by rewrite log2_small, Hl by lia. }
  destruct (v <=? 16383) eqn:E2.
  { rewrite (proj2 (Z.ltb_lt _ _)) by lia. 
    assert (v / 128 < 128) by (apply Z.div_lt_upper_bound; lia).
    rewrite log2_group, log2_small, Hl by lia. cbn [cont_bytes app].
    rewrite <- group_byte, shiftr_seven. f_equal. symmetry. apply Z.mod_small.
    pose proof (Z.div_pos v 128). rewrite land_all by lia. apply seven_high. lia. }
  rewrite nine_bytes by done. destruct (v <? 2 ^ 56) eqn:E3; cbn [negb].
  - rewrite low_groups_cont by (change (128 ^ Z.of_nat 10) with (2 ^ 70); lia). cbn [reversed rev].
    rewrite rev_involutive. do 2 f_equal. rewrite Z.add_comm. change 127 with (Z.ones 7). rewrite Z.land_ones by lia.
    change (2 ^ 7) with 128. rewrite <- (Zplus_mod_idemp_r 128), Z.mod_same, Z.add_0_r by lia. apply Z.mod_mod. lia.
  - rewrite high_groups_cont. rewrite Z.shiftr_div_pow2 by lia. done.
Qed.

(** ** The codec *)

(** C22: Varints: on any bytes the unrolled decoder, which works on two numbers of 32 bits and a
    saved one of 64, gives the value and the length that decoding a byte at a time gives, and
    no value where the data ends too early; where the bytes at the offset are what the encoder
    puts for a number of 64 bits, it gives that number and their length. *)
Theorem getVarint_reference d off :
  0 <= off <= zlen d -> zlen d < 2 ^ 63 -> Forall is_byte d ->
  getVarint d off = Done (varint_result (dec_varint 8 (drop (Z.to_nat off) d) 0 0)) /\
  forall v rest, 0 <= v < 2 ^ 64 -> drop (Z.to_nat off) d = varint_of v ++ rest ->
    getVarint d off = Done (zlen (varint_of v), v).
Proof.
  intros Ho Hd Hb. set (r := drop (Z.to_nat off) d).
  assert (He : getVarint d off = Done (varint_result (dec_varint 8 r 0 0))).
  { replace d with (take (Z.to_nat off) d ++ r) at 1 by apply take_drop.
    replace off with (zlen (take (Z.to_nat off) d)) at 2 by (by apply zlen_take_le).
    apply getVarint_dec; [by unfold r; rewrite take_drop|]. by apply Forall_drop. }
  split; [done|]. intros v rest Hv Hr. rewrite He, Hr, varint_of_sqlite by done. by rewrite dec_varint_sqlite.
Qed.

(** Two bytes, then a number of nine bytes. *)
Lemma getVarint_reference_witness :
  let d := [7; 9] ++ varint_of 18446744073709551615 ++ [1] in
  getVarint d 2 = Done (varint_result (dec_varint 8 (drop 2 d) 0 0)) /\
  forall v rest, 0 <= v < 2 ^ 64 -> drop 2 d = varint_of v ++ rest -> getVarint d 2 = Done (zlen (varint_of v), v).
Proof.
  apply (getVarint_reference ([7; 9] ++ varint_of 18446744073709551615 ++ [1]) 2);
    [by vm_compute|by vm_compute|].
  change (Forall is_byte [7; 9; 255; 255; 255; 255; 255; 255; 255; 255; 255; 1]).
  rewrite !Forall_cons. unfold is_byte. split_and!; first [lia|constructor].
Defined.
