(* ===== verification/SerialFacts.v ===== *)
(** * Serialization: putting and reading back

    A buffer that holds the bytes put so far, and a cursor with what is behind it still to be
    read.  Each [put] appends the encoding of its argument, and each [advance] reads one. *)

From S2P Require Import Prelude CLib Varint Serial SerialVarint.

(** ** Bytes put so far *)

(** Four bytes, the highest first. *)
Definition be4 (v : Z) : list Z := [u8 (Z.shiftr v 24); u8 (Z.shiftr v 16); u8 (Z.shiftr v 8); u8 v].

(** A size and the bytes. *)
Definition sized (b : list Z) : list Z := sqlite_varint (zlen b) ++ b.

Lemma zlen_be4 v : zlen (be4 v) = 4.
Proof. done. Qed.

(** Steps that need no case analysis. *)
Ltac straight :=
  repeat (lazymatch goal with
  | |- wp (bind (gets _) _) _ _ => apply wp_bind_gets
  | |- wp (bind (modify _) _) _ _ => apply wp_bind_modify
  | |- wp (bind (ret _) _) _ _ => apply wp_bind_ret
  | |- wp (bind (bind _ _) _) _ _ => apply wp_bind_bind
  | |- wp (ret _) _ _ => apply wp_ret
  | |- wp (modify _) _ _ => apply wp_modify
  end; cbn [s_data s_cursor s_allocs d_data d_cursor d_version negb]).

Section put.
Context `{DA : DataAlloc} {DL : DataAllocLaws DA}.

(** [B] bounds what is put; blocks of twice that size are given. *)
Variable B : Z.
Hypothesis B_small : 0 <= B <= 2 ^ 61.
Hypothesis memory : forall k n, 0 <= n <= 2 * B -> is_Some (data_malloc k n).

Definition written (w : list Z) (s : Serialization) : Prop :=
  exists junk, s_data s = w ++ junk /\ s_cursor s = zlen w /\ zlen (s_data s) <= 2 * B.

Lemma written_empty k : written [] (empty_serialization k).
Proof. exists []. cbn. repeat split. change (zlen (@nil Z)) with 0. lia. Qed.

Lemma wp_data_resize w s n Q :
  written w s -> zlen (s_data s) <= n <= 2 * B ->
  (forall s', written w s' -> zlen (s_data s') = n -> Q true s') -> wp (data_resize n) Q s.
Proof.
  intros (junk & Hd & Hc & Hb) Hn HQ. unfold data_resize. straight.
  case_match.
  - straight. assert (Hf : take (Z.to_nat n) (s_data s) = s_data s) by (apply firstn_all2; unfold zlen in *; lia).
    rewrite Hf. apply HQ; cbn; [by exists junk|lia].
  - case_match.
    + straight. apply HQ; [by exists junk|]. zlen_pos. lia.
    + straight. destruct (memory (s_allocs s) n) as [blk Eb]; [zlen_pos; lia|]. rewrite Eb. straight.
      pose proof (data_malloc_size _ _ _ Eb ltac:(zlen_pos; lia)) as Hs.
      assert (Hl : zlen (s_data s ++ drop (length (s_data s)) blk) = n).
      { rewrite zlen_app. unfold zlen in *. rewrite length_drop. lia. }
      apply HQ; [|done]. exists (junk ++ drop (length (s_data s)) blk). cbn [s_data s_cursor]. rewrite Hl.
      rewrite Hd at 1. rewrite <- app_assoc. repeat split; [done|lia].
Qed.

Lemma wp_expand w s n Q :
  written w s -> 0 <= n -> zlen w + n <= B ->
  (forall s', written w s' -> zlen w + n <= zlen (s_data s') -> Q true s') -> wp (expand n) Q s.
Proof.
  intros W Hn HB HQ. pose proof W as (junk & Hd & Hc & Hb). unfold expand, resize. straight.
  zlen_pos. rewrite Hc. unfold u64. rewrite !Z.mod_small by lia. case_match.
  - straight. apply HQ; [done|]. lia.
  - apply (wp_data_resize w); [done|lia|]. intros s' W' Hs. apply HQ; [done|]. lia.
Qed.

(** Bytes behind the cursor, then the cursor behind them. *)
Lemma wp_store w s b Q :
  written w s -> zlen w + zlen b <= zlen (s_data s) ->
  (forall s', (forall Q', (forall s'', written (w ++ b) s'' -> Q' tt s'') -> wp (ser_advance (zlen b)) Q' s') -> Q tt s') ->
  wp (store b) Q s.
Proof.
  intros (junk & Hd & Hc & Hb) Hl HQ. unfold store.
  assert (Hj : zlen b <= zlen junk) by (rewrite Hd, zlen_app in Hl; lia). straight.
  apply (wp_bind_lift_res _ (w ++ b ++ drop (length b) junk)); [by rewrite Hd; apply zwrite_n_behind|].
  straight. apply HQ. intros Q' HQ'. unfold ser_advance, ser_seek. straight. apply HQ'.
  assert (Hz : zlen (w ++ b ++ drop (length b) junk) = zlen (s_data s)).
  { rewrite Hd, !zlen_app. unfold zlen in *. rewrite length_drop. lia. }
  exists (drop (length b) junk). cbn. rewrite Hz, <- app_assoc, Hc.
  repeat split; [|done]. unfold seek_to. zlen_pos. case_match; [lia|]. rewrite zlen_app. lia.
Qed.

Lemma wp_put4 w s v Q :
  written w s -> zlen w + 4 <= B -> (forall s', written (w ++ be4 v) s' -> Q true s') -> wp (put4BytesUInt v) Q s.
Proof.
  intros W HB HQ. unfold put4BytesUInt. apply wp_bind, (wp_expand w); [done..|]. intros s' W' Hs. cbn [negb].
  apply wp_bind, (wp_store w _ (be4 v)); [done..|]. intros s2 H2. apply wp_bind, H2. intros s3 W3. straight. by apply HQ.
Qed.

Lemma wp_putVarint w s v Q :
  written w s -> 0 <= v < 2 ^ 64 -> zlen w + 9 <= B ->
  (forall s', written (w ++ sqlite_varint v) s' -> Q (zlen (sqlite_varint v)) s') -> wp (putVarint v) Q s.
Proof.
  intros W Hv HB HQ. unfold putVarint. apply wp_bind, (wp_expand w); [done..|]. intros s' W' Hs. cbn [negb].
  rewrite varint_of_sqlite by done. pose proof (varint_short v Hv). apply wp_bind, (wp_store w); [done|lia|].
  intros s2 H2. apply wp_bind, H2. intros s3 W3. straight. by apply HQ.
Qed.

Lemma wp_putSized w s b Q :
  written w s -> zlen w + 9 + zlen b <= B ->
  (forall s', written (w ++ sized b) s' -> Q true s') -> wp (putSized b) Q s.
Proof.
  intros W HB HQ. unfold putSized, sized in *. zlen_pos. straight.
  apply wp_bind, (wp_putVarint w); [done|lia..|]. intros s1 W1.
  pose proof (varint_length (zlen b)). pose proof (varint_short (zlen b) ltac:(lia)).
  destruct (_ =? 0) eqn:E; [lia|]. straight.
  apply wp_bind, (wp_expand _ _ _ _ W1); [done|rewrite zlen_app; lia|]. intros s2 W2 Hs. cbn [negb]. straight.
  apply wp_bind, (wp_store _ _ _ _ W2 Hs). intros s3 H3. straight. apply wp_bind, H3. intros s4 W4. straight. apply HQ. by rewrite app_assoc.
Qed.

Lemma finalize_written w s : written w s -> finalize s = Done (w, s).
Proof.
  intros (junk & Hd & Hc & _). unfold finalize, gets. rewrite Hd, Hc, to_nat_zlen. by rewrite take_app_length.
Qed.
End put.

(** ** Bytes still to be read *)

Section advance.

(** The cursor is behind [w] and before [l]. *)
Definition reads (ver : Z) (w l : list Z) (s : Deserialization) : Prop :=
  s = Deser (w ++ l) (zlen w) ver /\ zlen (w ++ l) < 2 ^ 63.

Lemma reads_new d : zlen d < 2 ^ 63 -> reads 0 [] d (new_deserialization d).
Proof. done. Qed.

Lemma wp_de_advance ver w b l s n Q :
  reads ver w (b ++ l) s -> n = zlen b -> (forall s', reads ver (w ++ b) l s' -> Q tt s') -> wp (de_advance n) Q s.
Proof.
  intros [-> Hl] -> HQ. unfold de_advance, de_seek. straight. apply wp_modify, HQ. cbn.
  split; [|by rewrite <- app_assoc]. rewrite <- app_assoc. f_equal. unfold seek_to. zl.
  destruct (_ <? 0) eqn:E; lia.
Qed.

Lemma canAdvance_reads ver w l s n : reads ver w l s -> 0 <= n < 2 ^ 62 -> canAdvance s n = (n <=? zlen l).
Proof.
  intros [-> Hl] Hn. unfold canAdvance, isEnough. cbn [d_data d_cursor]. rewrite zlen_app in *. zlen_pos.
  unfold u64. rewrite Z.mod_small by lia. apply eq_true_iff_eq. rewrite !Z.leb_le. lia.
Qed.
Lemma ended_reads ver w l s : reads ver w l s -> ended s = bool_decide (l = []).
Proof.
  intros [-> _]. unfold ended. cbn. apply eq_true_iff_eq. rewrite Z.eqb_eq, bool_decide_eq_true.
  destruct l; [by rewrite app_nil_r|]. rewrite zlen_app, zlen_cons. zlen_pos. split; [lia|done].
Qed.

(** The number in four bytes. *)
Definition be_value (p0 p1 p2 p3 : Z) : Z := ((p0 * 256 + p1) * 256 + p2) * 256 + p3.

Lemma be_lor p0 p1 p2 p3 : is_byte p1 -> is_byte p2 -> is_byte p3 ->
  Z.lor (Z.lor (Z.lor (Z.shiftl p0 24) (Z.shiftl p1 16)) (Z.shiftl p2 8)) p3 = be_value p0 p1 p2 p3.
Proof.
  intros H1 H2 H3. unfold be_value. rewrite !last_lor by assumption. rewrite !Z.shiftl_lor, !Z.shiftl_shiftl by lia.
  by rewrite <- !Z.lor_assoc.
Qed.
Lemma be4_value v : 0 <= v < 2 ^ 32 -> be_value (u8 (Z.shiftr v 24)) (u8 (Z.shiftr v 16)) (u8 (Z.shiftr v 8)) (u8 v) = v.
Proof.
  intros Hv. rewrite !Z.shiftr_div_pow2 by lia. unfold be_value, u8. change (2 ^ 24) with (256 * 256 * 256).
  change (2 ^ 16) with (256 * 256). change (2 ^ 8) with 256. rewrite <- !Zdiv_Zdiv by lia. Z.to_euclidean_division_equations. lia.
Qed.
Lemma be4_bytes v : Forall is_byte (be4 v).
Proof. repeat (constructor; [apply Z.mod_pos_bound; lia|]). constructor. Qed.

Lemma wp_advance4 ver w p0 p1 p2 p3 l s Q :
  reads ver w (p0 :: p1 :: p2 :: p3 :: l) s -> Forall is_byte [p0; p1; p2; p3] ->
  (forall s', reads ver (w ++ [p0; p1; p2; p3]) l s' -> Q (be_value p0 p1 p2 p3) s') -> wp advance4BytesUInt Q s.
Proof.
  intros R Hb HQ. rewrite !Forall_cons in Hb. destruct Hb as (H0 & H1 & H2 & H3 & _).
  unfold advance4BytesUInt, advance_fixed. straight.
  apply (wp_bind_lift_res _ (be_value p0 p1 p2 p3)).
  - destruct R as [-> _]. unfold get4BytesUInt. cbn [d_data d_cursor].
    rewrite (read_suffix _ _ _ 0 p0), (read_suffix _ _ _ 1 p1), (read_suffix _ _ _ 2 p2), (read_suffix _ _ _ 3 p3) by (reflexivity || lia).
    cbn [res_bind]. by rewrite be_lor.
  - apply wp_bind, (wp_de_advance ver w [p0; p1; p2; p3] l); [done..|]. intros s' R'. straight. by apply HQ.
Qed.

Lemma wp_advance_be4 ver w v l s Q :
  reads ver w (be4 v ++ l) s -> 0 <= v < 2 ^ 32 ->
  (forall s', reads ver (w ++ be4 v) l s' -> Q v s') -> wp advance4BytesUInt Q s.
Proof.
  intros R Hv HQ. apply (wp_advance4 _ _ _ _ _ _ _ _ _ R (be4_bytes v)). intros s' R'. rewrite be4_value by done. by apply HQ.
Qed.

(** Arbitrary bytes: a number is decoded, or there is none and the cursor stays. *)
Lemma wp_advanceVarint_any ver w l s Q :
  reads ver w l s -> Forall is_byte l ->
  (dec_varint 8 l 0 0 = None -> Q (0, 0) s) ->
  (forall b r v s', l = b ++ r -> dec_varint 8 l 0 0 = Some (v, zlen b) -> b <> [] -> 0 <= v < 2 ^ 64 ->
    reads ver (w ++ b) r s' -> Q (zlen b, v) s') -> wp advanceVarint Q s.
Proof.
  intros R Hb HN HQ. unfold advanceVarint, advance_sized. straight. pose proof R as [-> Hl]. cbn [d_data d_cursor].
  eapply wp_bind_lift_res; [by apply getVarint_dec|].
  destruct (dec_varint 8 l 0 0) as [[v len]|] eqn:E; cbn [varint_result fst]; [|straight; by apply HN].
  pose proof (dec_varint_bounds _ _ _ _ _ _ Hb ltac:(done) E) as (H1 & H2 & H3). 
  change ((0 + 1) * 128 ^ Z.of_nat 8 * 256) with (2 ^ 64) in H3.
  destruct (0 <? len) eqn:E'; [|lia].
  assert (Hz : zlen (take (Z.to_nat len) l) = len) by (unfold zlen in *; rewrite length_take; lia).
  assert (R1 : reads ver w (take (Z.to_nat len) l ++ drop (Z.to_nat len) l) (Deser (w ++ l) (zlen w) ver)) by (by rewrite take_drop).
  apply wp_bind, (wp_de_advance _ _ _ _ _ _ _ R1).
  { rewrite Hz. apply wrap_s_small; lia. }
  intros s' R'. straight. rewrite <- Hz at 1. apply (HQ _ _ _ _ (eq_sym (take_drop (Z.to_nat len) l))); [by rewrite Hz| |done..].
  intros Hn. rewrite Hn, zlen_nil in Hz. lia.
Qed.

Lemma wp_advanceVarint ver w v l s Q :
  reads ver w (sqlite_varint v ++ l) s -> 0 <= v < 2 ^ 64 -> Forall is_byte l ->
  (forall s', reads ver (w ++ sqlite_varint v) l s' -> Q (zlen (sqlite_varint v), v) s') -> wp advanceVarint Q s.
Proof.
  intros R Hv Hb HQ. apply (wp_advanceVarint_any _ _ _ _ _ R).
  - apply Forall_app. split; [apply varint_bytes|done].
  - by rewrite dec_varint_sqlite.
  - intros b r v' s' Heq Hd _ _ R'. rewrite dec_varint_sqlite in Hd by done. injection Hd as <- Hz.
    apply app_inj_1 in Heq as [<- <-]; [by apply HQ|]. unfold zlen in Hz. lia.
Qed.

(** A size that is not near 2^64 and what it announces. *)
Lemma enough_behind w h r v : zlen (w ++ h ++ r) < 2 ^ 63 -> 0 <= v < 2 ^ 62 ->
  isEnough (w ++ h ++ r) (zlen w + zlen h + v) = (v <=? zlen r).
Proof.
  intros Hl Hv. unfold isEnough. rewrite !zlen_app in *. zlen_pos. unfold u64. rewrite Z.mod_small by lia.
  apply eq_true_iff_eq. rewrite !Z.leb_le. lia.
Qed.

(** Less than a size announces, or no size. *)
Definition short (l : list Z) : Prop :=
  match dec_varint 8 l 0 0 with Some (v, k) => zlen l < k + v | None => True end.

(** [advanceSizedString] and [advanceSizedData]: [value] is what they give for the [b] behind [w]. *)
Lemma wp_advance_sized {A} (get : list Z -> Z -> res (Z * A)) (value : list Z -> list Z -> A) (none : A) :
  (forall w l, zlen (w ++ l) < 2 ^ 63 -> Forall is_byte l -> dec_varint 8 l 0 0 = None -> get (w ++ l) (zlen w) = Done (0, none)) ->
  (forall w h r v, zlen (w ++ h ++ r) < 2 ^ 63 -> Forall is_byte (h ++ r) -> dec_varint 8 (h ++ r) 0 0 = Some (v, zlen h) ->
    0 <= v < 2 ^ 62 -> h <> [] ->
    get (w ++ h ++ r) (zlen w) =
      Done (if v <=? zlen r then (zlen h + v, value (w ++ h) (take (Z.to_nat v) r)) else (0, none))) ->
  forall ver w l s Q, reads ver w l s -> Forall is_byte l ->
  (forall v k, dec_varint 8 l 0 0 = Some (v, k) -> v < 2 ^ 62) ->
  (short l -> Q (0, none) s) ->
  (forall h b r s', l = h ++ b ++ r -> dec_varint 8 l 0 0 = Some (zlen b, zlen h) -> h <> [] ->
    reads ver (w ++ h ++ b) r s' -> Q (zlen (h ++ b), value (w ++ h) b) s') -> wp (advance_sized get) Q s.
Proof.
  intros GN GS ver w l s Q R Hb Hsmall HN HQ. unfold advance_sized. straight. pose proof R as [-> Hl]. cbn [d_data d_cursor].
  unfold short in HN.
  destruct (dec_varint 8 l 0 0) as [[v len]|] eqn:E; [|eapply wp_bind_lift_res; [by apply GN|]; cbn [fst]; straight; by apply HN].
  pose proof (dec_varint_bounds _ _ _ _ _ _ Hb ltac:(done) E) as (H1 & H2 & H3). pose proof (Hsmall _ _ eq_refl) as Hv.
  set (h := take (Z.to_nat len) l) in *. set (r := drop (Z.to_nat len) l) in *.
  assert (Hl' : l = h ++ r) by (symmetry; apply take_drop).
  assert (Hz : zlen h = len) by (unfold h, zlen in *; rewrite length_take; lia).
  assert (Hh : h <> []) by (intros Hn; rewrite Hn, zlen_nil in Hz; lia).
  eapply wp_bind_lift_res.
  { rewrite Hl'. apply (GS w h r v); [by rewrite <- Hl'|by rewrite <- Hl'|by rewrite <- Hl', E, Hz|lia|done]. }
  destruct (v <=? zlen r) eqn:Ev; cbn [fst]; [|straight; apply HN; rewrite Hl', zlen_app; lia].
  set (b := take (Z.to_nat v) r). set (r' := drop (Z.to_nat v) r).
  assert (Hr : r = b ++ r') by (symmetry; apply take_drop).
  assert (Hbz : zlen b = v) by (unfold b, zlen in *; rewrite length_take; lia).
  assert (Hl2 : l = (h ++ b) ++ r') by (by rewrite <- app_assoc, <- Hr).
  rewrite <- Hbz, <- zlen_app. 
  assert (Hs : zlen (h ++ b) <= zlen l) by (rewrite Hl2, (zlen_app (h ++ b)); zlen_pos; lia).
  rewrite zlen_app in Hl. zlen_pos.
  destruct (0 <? zlen (h ++ b)) eqn:E0; [|rewrite zlen_app in *; lia].
  rewrite Hl2 in R. apply wp_bind. rewrite Hl2. eapply (wp_de_advance _ _ (h ++ b) r'); [exact R|apply wrap_s_small; change (2 ^ (64 - 1)) with (2 ^ 63); lia|].
  intros s' R'. straight. apply (HQ h b r'); [by rewrite <- app_assoc in Hl2|by rewrite Hbz, Hz|done..].
Qed.

Lemma getString_behind w h r v : 0 <= v <= zlen r -> getString (w ++ h ++ r) (zlen w + zlen h) v = Done (take (Z.to_nat v) r).
Proof.
  intros Hv. unfold getString. destruct (v =? 0) eqn:E0; [by replace v with 0 by lia|].
  rewrite <- (take_drop (Z.to_nat v) r) at 1. rewrite app_assoc. apply zread_n_app; [by rewrite zlen_app|].
  unfold zlen in *. rewrite length_take. lia.
Qed.

Lemma getSizedString_none w l : zlen (w ++ l) < 2 ^ 63 -> Forall is_byte l -> dec_varint 8 l 0 0 = None ->
  getSizedString (w ++ l) (zlen w) = Done (0, []).
Proof. intros Hl Hb E. unfold getSizedString. by rewrite getVarint_dec, E. Qed.
Lemma getSizedString_some w h r v : zlen (w ++ h ++ r) < 2 ^ 63 -> Forall is_byte (h ++ r) ->
  dec_varint 8 (h ++ r) 0 0 = Some (v, zlen h) -> 0 <= v < 2 ^ 62 -> h <> [] ->
  getSizedString (w ++ h ++ r) (zlen w) = Done (if v <=? zlen r then (zlen h + v, take (Z.to_nat v) r) else (0, [])).
Proof.
  intros Hl Hb E Hv Hh. unfold getSizedString. rewrite getVarint_dec, E by done. cbn [varint_result res_bind].
  assert (Hp : zlen h <> 0) by (intros Hz; apply Hh; by apply zlen_0_inv). rewrite (proj2 (Z.eqb_neq _ _)) by done.
  rewrite enough_behind by done. destruct (v <=? zlen r) eqn:Ev; [|done]. cbn [negb orb].
  rewrite getString_behind by (done || lia). cbn [res_bind]. unfold u64. rewrite Z.mod_small; [done|].
  rewrite !zlen_app in Hl. zlen_pos. lia.
Qed.

Lemma getSizedData_none w l : zlen (w ++ l) < 2 ^ 63 -> Forall is_byte l -> dec_varint 8 l 0 0 = None ->
  getSizedData (w ++ l) (zlen w) = Done (0, (0, 0)).
Proof. intros Hl Hb E. unfold getSizedData. by rewrite getVarint_dec, E. Qed.
Lemma getSizedData_some w h r v : zlen (w ++ h ++ r) < 2 ^ 63 -> Forall is_byte (h ++ r) ->
  dec_varint 8 (h ++ r) 0 0 = Some (v, zlen h) -> 0 <= v < 2 ^ 62 -> h <> [] ->
  getSizedData (w ++ h ++ r) (zlen w) =
    Done (if v <=? zlen r then (zlen h + v, (zlen (w ++ h), zlen (take (Z.to_nat v) r))) else (0, (0, 0))).
Proof.
  intros Hl Hb E Hv Hh. unfold getSizedData. rewrite getVarint_dec, E by done. cbn [varint_result res_bind].
  assert (Hp : zlen h <> 0) by (intros Hz; apply Hh; by apply zlen_0_inv). rewrite (proj2 (Z.eqb_neq _ _)) by done.
  rewrite enough_behind by done. destruct (v <=? zlen r) eqn:Ev; [|done]. cbn [negb orb].
  rewrite !zlen_app in *. unfold u64. rewrite Z.mod_small by (zlen_pos; lia).
  do 3 f_equal. unfold zlen in *. rewrite length_take. lia.
Qed.

(** What a sized string or data is made of. *)

Section sized.
Context (ver : Z) (w : list Z).

Lemma wp_advanceSizedString_any l s Q : reads ver w l s -> Forall is_byte l ->
  (forall v k, dec_varint 8 l 0 0 = Some (v, k) -> v < 2 ^ 62) -> (short l -> Q (0, []) s) ->
  (forall h b r s', l = h ++ b ++ r -> dec_varint 8 l 0 0 = Some (zlen b, zlen h) -> h <> [] ->
    reads ver (w ++ h ++ b) r s' -> Q (zlen (h ++ b), b) s') -> wp advanceSizedString Q s.
Proof. apply (wp_advance_sized getSizedString (fun _ b => b) []); [apply getSizedString_none|apply getSizedString_some]. Qed.

Lemma wp_advanceSizedData_any l s Q : reads ver w l s -> Forall is_byte l ->
  (forall v k, dec_varint 8 l 0 0 = Some (v, k) -> v < 2 ^ 62) -> (short l -> Q (0, (0, 0)) s) ->
  (forall h b r s', l = h ++ b ++ r -> dec_varint 8 l 0 0 = Some (zlen b, zlen h) -> h <> [] ->
    reads ver (w ++ h ++ b) r s' -> Q (zlen (h ++ b), (zlen (w ++ h), zlen b)) s') -> wp advanceSizedData Q s.
Proof. apply (wp_advance_sized getSizedData (fun w b => (zlen w, zlen b)) (0, 0)); [apply getSizedData_none|apply getSizedData_some]. Qed.

Lemma dec_sized b l : zlen b < 2 ^ 62 -> dec_varint 8 (sized b ++ l) 0 0 = Some (zlen b, zlen (sqlite_varint (zlen b))).
Proof. intros Hb. unfold sized. rewrite <- app_assoc. apply dec_varint_sqlite. zlen_pos. lia. Qed.

Lemma sized_unique b l h b' r : zlen b < 2 ^ 62 -> sized b ++ l = h ++ b' ++ r ->
  dec_varint 8 (sized b ++ l) 0 0 = Some (zlen b', zlen h) -> h = sqlite_varint (zlen b) /\ b' = b /\ r = l.
Proof.
  intros Hb Heq Hd. rewrite dec_sized in Hd by done. injection Hd as Hz Hh. unfold sized in Heq. rewrite <- app_assoc in Heq.
  apply app_inj_1 in Heq as [<- Heq]; [|by apply Nat2Z.inj]. apply app_inj_1 in Heq as [<- <-]; [done|by apply Nat2Z.inj].
Qed.

Lemma sized_not_short b l : zlen b < 2 ^ 62 -> ~ short (sized b ++ l).
Proof. intros Hb. unfold short. rewrite dec_sized by done. unfold sized. rewrite !zlen_app. zlen_pos. lia. Qed.
Lemma sized_bytes b l : Forall is_byte b -> Forall is_byte l -> Forall is_byte (sized b ++ l).
Proof. intros Hb Hl. unfold sized. rewrite !Forall_app. auto using varint_bytes. Qed.

Lemma wp_advanceSizedString b l s Q : reads ver w (sized b ++ l) s -> zlen b < 2 ^ 62 -> Forall is_byte b -> Forall is_byte l ->
  (forall s', reads ver (w ++ sized b) l s' -> Q (zlen (sized b), b) s') -> wp advanceSizedString Q s.
Proof.
  intros R Hb Fb Fl HQ. apply (wp_advanceSizedString_any _ _ _ R).
  - by apply sized_bytes.
  - intros v k. rewrite dec_sized by done. by intros [= <- _].
  - by intros []%sized_not_short.
  - intros h b' r s' Heq Hd _ R'. destruct (sized_unique _ _ _ _ _ Hb Heq Hd) as (-> & -> & ->). by apply HQ.
Qed.

Lemma wp_advanceSizedData b l s Q : reads ver w (sized b ++ l) s -> zlen b < 2 ^ 62 -> Forall is_byte b -> Forall is_byte l ->
  (forall s', reads ver (w ++ sized b) l s' ->
    Q (zlen (sized b), (zlen (w ++ sqlite_varint (zlen b)), zlen b)) s') -> wp advanceSizedData Q s.
Proof.
  intros R Hb Fb Fl HQ. apply (wp_advanceSizedData_any _ _ _ R).
  - by apply sized_bytes.
  - intros v k. rewrite dec_sized by done. by intros [= <- _].
  - by intros []%sized_not_short.
  - intros h b' r s' Heq Hd _ R'. destruct (sized_unique _ _ _ _ _ Hb Heq Hd) as (-> & -> & ->). by apply HQ.
Qed.
End sized.
End advance.

(** Where there is no memory, [putSizedString] and [putSizedData] put nothing and report
    success. *)
Lemma put_lost_without_memory `{DA : DataAlloc} b k : (forall n, data_malloc k n = None) ->
  putSizedString b (empty_serialization k) = Done (true, Ser [] 0 (S k)).
Proof.
  intros Hk. assert (He : expand 9 (empty_serialization k) = Done (false, Ser [] 0 (S k))).
  { transitivity (data_resize 9 (empty_serialization k)); [done|].
    transitivity (match data_malloc k 9 with
                  | None => Done (false, Ser [] 0 (S k))
                  | Some blk => Done (true, Ser ([] ++ drop 0 blk) 0 (S k))
                  end); [unfold data_resize, bind, gets, modify; cbn; by destruct (data_malloc k 9)|by rewrite Hk]. }
  unfold putSizedString, putSized, putVarint, bind at 1, gets at 1. cbn [s_cursor empty_serialization]. unfold bind. fold (empty_serialization k).
  by rewrite He.
Qed.
