(* ===== verification/SerialSafe.v ===== *)
(** * Serialization: reading arbitrary bytes

    What the readers do with data that nothing is known about.  The only fault comes from a size
    so large that the end of what it announces wraps around, and there is then a varint of at
    least 2^62 somewhere in the data. *)

From S2P Require Import Prelude CLib Varint Serial SerialVarint SerialFacts.

Lemma dec_varint_app n : forall l acc len r x, dec_varint n l acc len = Some r -> dec_varint n (l ++ x) acc len = Some r.
Proof.
  induction n as [|n IH]; intros [|b l] acc len r x H; cbn [dec_varint app] in *; try done.
  destruct (b <? 128); [done|]. by apply IH.
Qed.

Section data.
Variable d : list Z.

(** Some varint of the data is at least [z]. *)
Definition has_varint (P : Z -> Prop) : Prop := exists i v n, dec_varint 8 (drop i d) 0 0 = Some (v, n) /\ P v.

(** [l] is in the data. *)
Definition part (l : list Z) : Prop := exists x y, d = x ++ l ++ y.

Lemma part_all : part d.
Proof. exists [], []. by rewrite app_nil_r. Qed.
Lemma part_trans l b x y : part b -> b = x ++ l ++ y -> part l.
Proof. intros (x' & y' & Hd) ->. exists (x' ++ x), (y ++ y'). by rewrite Hd, <- !app_assoc. Qed.
Lemma part_varint l P v n : part l -> dec_varint 8 l 0 0 = Some (v, n) -> P v -> has_varint P.
Proof.
  intros (x & y & Hd) E HP. exists (length x), v, n. split; [|done]. rewrite Hd, drop_app_length. by apply dec_varint_app.
Qed.

(** The faults of reading. *)
Variable E : fault -> Prop.
Hypothesis E_huge : has_varint (fun v => 2 ^ 62 <= v) -> E OutOfBounds.

(** The data [b] that is read is [d] or a part of it. *)
Variable b : list Z.
Hypothesis b_part : part b.
Hypothesis b_bytes : Forall is_byte b.
Hypothesis b_small : zlen b < 2 ^ 61.

Lemma suffix_part w l : b = w ++ l -> part l.
Proof. intros Hb. apply (part_trans l b w []); [done|]. by rewrite app_nil_r. Qed.
Lemma suffix_bytes w l : b = w ++ l -> Forall is_byte l.
Proof. intros Hb. rewrite Hb, Forall_app in b_bytes. apply b_bytes. Qed.

(** Between [lo] and [hi] bytes are left. *)
Definition left_ (ver lo hi : Z) (s : Deserialization) : Prop :=
  exists w l, reads ver w l s /\ b = w ++ l /\ lo <= zlen l <= hi.

Lemma left_new ver : left_ ver 0 (zlen b) (Deser b 0 ver).
Proof. exists [], b. split_and!; try done; [split; [done|cbn [app]; lia]|zlen_pos; lia]. Qed.
Lemma left_weaken ver lo hi lo' hi' s : left_ ver lo hi s -> lo' <= lo -> hi <= hi' -> left_ ver lo' hi' s.
Proof. intros (w & l & H1 & H2 & H3) ? ?. exists w, l. split_and!; (done || lia). Qed.
Lemma left_state ver lo hi s : left_ ver lo hi s -> d_version s = ver /\ d_data s = b.
Proof. intros (w & l & [-> _] & Hw & _). cbn. by rewrite Hw. Qed.
Lemma left_nonneg ver lo hi s : left_ ver lo hi s -> 0 <= hi.
Proof. intros (w & l & _ & _ & H). zlen_pos. lia. Qed.
Lemma left_check ver lo hi s n : left_ ver lo hi s -> 0 <= n < 2 ^ 62 -> canAdvance s n = true -> left_ ver n hi s.
Proof.
  intros (w & l & R & H2 & H3) Hn. rewrite (canAdvance_reads _ _ _ _ _ R Hn). intros. exists w, l. split_and!; (done || lia).
Qed.
Lemma left_behind ver w h r lo hi s : b = w ++ h ++ r -> lo <= zlen (h ++ r) <= hi -> h <> [] ->
  reads ver (w ++ h) r s -> left_ ver 0 (hi - 1) s.
Proof.
  intros Hb Hlo Hne R. assert (0 < zlen h) by (destruct h; [done|rewrite zlen_cons; zlen_pos; lia]).
  rewrite zlen_app in Hlo. zlen_pos. exists (w ++ h), r. split_and!; [done| |lia..]. by rewrite Hb, app_assoc.
Qed.

Lemma pwp_advance4 ver lo hi s Q : left_ ver lo hi s -> 4 <= lo ->
  (forall v s', 0 <= v < 2 ^ 32 -> left_ ver (lo - 4) (hi - 4) s' -> Q v s') -> pwp E advance4BytesUInt Q s.
Proof.
  intros (w & l & R & Hb & Hlo) H4 HQ. apply wp_pwp. pose proof (suffix_bytes _ _ Hb) as Hb'.
  destruct l as [|p0 [|p1 [|p2 [|p3 l]]]]; try (rewrite ?zlen_cons, zlen_nil in Hlo; lia).
  rewrite !Forall_cons in Hb'. destruct Hb' as (B0 & B1 & B2 & B3 & Hb').
  apply (wp_advance4 _ _ _ _ _ _ _ _ _ R); [by rewrite !Forall_cons|]. intros s' R'. apply HQ.
  - unfold is_byte, be_value in *. lia.
  - rewrite !zlen_cons in Hlo. exists (w ++ [p0; p1; p2; p3]), l. split_and!; [done| |lia..]. by rewrite <- app_assoc.
Qed.

Lemma pwp_advanceVarint ver lo hi s Q : left_ ver lo hi s ->
  Q (0, 0) s ->
  (forall n v s', 0 < n -> 0 <= v < 2 ^ 64 -> has_varint (fun u => u = v) -> left_ ver 0 (hi - 1) s' -> Q (n, v) s') -> pwp E advanceVarint Q s.
Proof.
  intros (w & l & R & Hb & Hlo) HN HQ. apply wp_pwp, (wp_advanceVarint_any _ _ _ _ _ R (suffix_bytes _ _ Hb)); [done|].
  intros h r v s' -> Hd Hne Hv R'.
  apply HQ; [destruct h; [done|rewrite zlen_cons; zlen_pos; lia]|done| |by eapply left_behind].
  eapply part_varint; [by eapply suffix_part|done..].
Qed.

(** A size of at least 2^62 is more than there is; the end it announces may wrap around. *)
Lemma huge_string w l v k : zlen (w ++ l) < 2 ^ 61 -> Forall is_byte l -> dec_varint 8 l 0 0 = Some (v, k) -> 2 ^ 62 <= v ->
  getSizedString (w ++ l) (zlen w) = Done (0, []) \/ getSizedString (w ++ l) (zlen w) = Stuck OutOfBounds.
Proof.
  intros Hl Hb E0 Hv. unfold getSizedString. rewrite getVarint_dec, E0 by (done || lia). cbn [varint_result res_bind].
  destruct ((k =? 0) || negb _); [by left|]. right. unfold getString. rewrite (proj2 (Z.eqb_neq v 0)) by lia.
  unfold zread_n, in_range. pose proof (dec_varint_bounds _ _ _ _ _ _ Hb ltac:(done) E0) as (H1 & _). zlen_pos.
  rewrite (proj2 (Z.leb_gt (zlen w + k + v) (zlen (w ++ l)))), andb_false_r by lia. done.
Qed.
Lemma huge_data w l v k : zlen (w ++ l) < 2 ^ 61 -> Forall is_byte l -> dec_varint 8 l 0 0 = Some (v, k) -> 2 ^ 62 <= v ->
  exists n, getSizedData (w ++ l) (zlen w) = Done (0, (0, 0)) \/ getSizedData (w ++ l) (zlen w) = Done (n, (zlen w + k, v)).
Proof.
  intros Hl Hb E0 Hv. exists (u64 (k + v)). unfold getSizedData. rewrite getVarint_dec, E0 by (done || lia). cbn [varint_result res_bind].
  destruct ((k =? 0) || negb _); [by left|by right].
Qed.

Lemma pwp_advanceSizedString ver lo hi s Q : left_ ver lo hi s -> Q (0, []) s ->
  (forall n x s', 0 < n -> left_ ver 0 (hi - 1) s' -> Q (n, x) s') -> pwp E advanceSizedString Q s.
Proof.
  intros (w & l & R & Hb & Hlo) HN HQ. pose proof (suffix_bytes _ _ Hb) as Hl. pose proof (suffix_part _ _ Hb) as Hp.
  destruct (dec_varint 8 l 0 0) as [[v k]|] eqn:E0; [destruct (Z.lt_ge_cases v (2 ^ 62)) as [Hv|Hv]|].
  2: { unfold advanceSizedString, advance_sized. apply pwp_bind_gets. destruct R as [-> Hr]. cbn [d_data d_cursor].
    destruct (huge_string w l v k) as [-> | ->]; [by rewrite <- Hb|done..|]. apply E_huge. by eapply part_varint. }
  all: apply wp_pwp, (wp_advanceSizedString_any _ _ _ _ _ R Hl); rewrite ?E0;
    [by intros ? ? [= <- <-]|done|]; intros h x r s' -> Hd Hne R'; apply HQ;
    [rewrite zlen_app; destruct h; [done|rewrite zlen_cons; zlen_pos; lia]
    |apply (left_behind _ w (h ++ x) r lo); [by rewrite <- app_assoc|by rewrite <- app_assoc|by destruct h|done]].
Qed.

(** A view is in the data, or a later read of it is a fault. *)
Lemma pwp_advanceSizedData ver lo hi s Q : left_ ver lo hi s -> Q (0, (0, 0)) s ->
  (forall n w x r s', 0 < n -> b = w ++ x ++ r -> Q (n, (zlen w, zlen x)) s') ->
  (forall n off size s', E OutOfBounds -> zlen b < size -> Q (n, (off, size)) s') -> pwp E advanceSizedData Q s.
Proof.
  intros (w & l & R & Hb & Hlo) HN HQ HH. pose proof (suffix_bytes _ _ Hb) as Hl. pose proof (suffix_part _ _ Hb) as Hp.
  destruct (dec_varint 8 l 0 0) as [[v k]|] eqn:E0; [destruct (Z.lt_ge_cases v (2 ^ 62)) as [Hv|Hv]|].
  2: { unfold advanceSizedData, advance_sized. apply pwp_bind_gets. destruct R as [-> Hr]. cbn [d_data d_cursor].
    assert (HE : E OutOfBounds) by (apply E_huge; by eapply part_varint).
    destruct (huge_data w l v k) as [n [-> | ->]]; [by rewrite <- Hb|done..|].
    eapply pwp_bind_lift_res; [done|]. apply pwp_bind. cbn [fst].
    destruct (0 <? n); [apply pwp_bind_gets, pwp_modify|apply pwp_ret]; apply pwp_ret, HH; (done || lia). }
  all: apply wp_pwp, (wp_advanceSizedData_any _ _ _ _ _ R Hl); rewrite ?E0;
    [by intros ? ? [= <- <-]|done|]; intros h x r s' -> Hd Hne R'; apply (HQ _ (w ++ h) x r);
    [rewrite zlen_app; destruct h; [done|rewrite zlen_cons; zlen_pos; lia]|by rewrite <- app_assoc].
Qed.
End data.
