(* ===== verification/Material.v ===== *)
(** * Backup material (repair/mechanic/Material.cpp)

    What a backup of the current version keeps of a database: a header, the parameters of the
    file, and for each table its name, its SQL and the leaf pages of its B-tree with their
    checksums.  A list of contents is serialized into a buffer of its own, which the file holds
    as sized data behind a checksum.

    [crc32] is zlib's.  [std::sort] may put equal elements in any order, so it is a parameter
    with the law of its specification.  Memory for strings and vectors is given; memory for
    buffers may be refused. *)

From stdpp Require Import gmap sorting.
From S2P Require Import Prelude CLib Serial.

(** ** Library code *)

Class Crc := { crc32 : list Z -> Z }.
Class CrcLaws (C : Crc) : Prop := { crc32_range : forall b, 0 <= crc32 b < 2 ^ 32 }.

(** [UnsafeData::hash]: the size is passed as 32 bits. *)
Definition data_hash `{Crc} (d : list Z) : Z := crc32 (take (Z.to_nat (u32 (zlen d))) d).

(** ** The parts of a material *)

Definition UnknownPageNo : Z := 4294967295.

Record Info := MkInfo {
  pageSize : Z;
  reservedBytes : Z;
  walSalt : Z * Z;
  nBackFill : Z;
  seqTableRootPage : Z
}.
Definition new_info : Info := MkInfo 0 0 (0, 0) 0 UnknownPageNo.

Record VPage := MkVPage { number : Z; hash : Z }.

#[global] Instance VPage_eq_dec : EqDecision VPage.
Proof. solve_decision. Defined.

Record Content := MkContent {
  tableName : list Z;
  sql : list Z;
  associatedSQLs : list (list Z);
  rootPage : Z;
  sequence : Z;
  verifiedPagenos : list VPage
}.
Definition new_content : Content := MkContent [] [] [] UnknownPageNo 0 [].

(** [contentsMap] holds pointers to elements of [contentsList]: their positions. *)
Record Material := MkMaterial {
  info : Info;
  contentsList : list Content;
  contentsMap : gmap (list Z) nat
}.
Definition new_material : Material := MkMaterial new_info [] ∅.

(** [std::sort] by page number. *)
Class StdSort := { std_sort : list VPage -> list VPage }.
Class StdSortLaws (S : StdSort) : Prop := {
  std_sort_perm : forall l, Permutation (std_sort l) l;
  std_sort_sorted : forall l, StronglySorted (fun a b => number a <= number b) (std_sort l)
}.

Definition magic : Z := 1464026178.    (* 0x57434442 *)
Definition version : Z := 16777217.    (* 0x01000001 *)
Definition version_0 : Z := 16777216.  (* 0x01000000 *)
Definition headerSize : Z := 8.
Definition Info_size : Z := 24.

(** ** Serialization *)

Section serialize.
Context `{DA : DataAlloc} `{ZL : Crc} `{SS : StdSort}.

Definition Info_serialize (i : Info) : cm Serialization bool :=
  let! ok := expand Info_size in
  if negb ok then ret false
  else
    put4BytesUInt (pageSize i) ;;;
    put4BytesUInt (reservedBytes i) ;;;
    put4BytesUInt (walSalt i).1 ;;;
    put4BytesUInt (walSalt i).2 ;;;
    put4BytesUInt (nBackFill i) ;;;
    put4BytesUInt (seqTableRootPage i) ;;;
    ret true.

(** [!putVarint(...)] is failure. *)
Definition put_varint_ok (v : Z) : cm Serialization bool := let! n := putVarint v in ret (negb (n =? 0)).

(** [a && b]: [b] runs if [a] succeeds. *)
Definition andb_m {S} (a b : cm S bool) : cm S bool := let! ok := a in if ok : bool then b else ret false.

Fixpoint put_sqls (l : list (list Z)) : cm Serialization bool :=
  match l with
  | [] => ret true
  | x :: l => andb_m (putSizedString x) (put_sqls l)
  end.

(** The loop over the sorted pages; [size() - i] is the length of what is left.  The result has
    [prePageNo]. *)
Fixpoint put_pages (l : list VPage) (prePageNo : Z) : cm Serialization (option Z) :=
  match l with
  | [] => ret (Some prePageNo)
  | page :: l' =>
    if number page =? 0 then put_pages l' prePageNo
    else
      let! ok :=
        (if prePageNo =? 0 then andb_m (put_varint_ok (zlen l)) (put_varint_ok (number page))
         else put_varint_ok (u32 (number page - prePageNo))) in
      let! ok := andb_m (ret ok) (put4BytesUInt (hash page)) in
      if ok then put_pages l' (number page) else ret None
  end.

(** The pages of the content are sorted in place before they are put. *)
Definition Content_serialize (c : Content) : cm Serialization (bool * Content) :=
  let! ok :=
    andb_m (putSizedString (tableName c))
      (andb_m (put_varint_ok (rootPage c))
         (andb_m (put_varint_ok (u64 (sequence c)))
            (andb_m (putSizedString (sql c))
               (andb_m (put_varint_ok (zlen (associatedSQLs c))) (put_sqls (associatedSQLs c)))))) in
  if negb ok then ret (false, c)
  else
    let pages := std_sort (verifiedPagenos c) in
    let c := MkContent (tableName c) (sql c) (associatedSQLs c) (rootPage c) (sequence c) pages in
    let! r := put_pages pages 0 in
    match r with
    | None => ret (false, c)
    | Some prePageNo =>
      if prePageNo =? 0 then let! ok := put_varint_ok 0 in ret (ok, c) else ret (true, c)
    end.

Definition serializeData (data : list Z) : cm Serialization bool :=
  let checksum := match data with [] => 0 | _ => data_hash data end in
  andb_m (put4BytesUInt checksum) (putSizedData data).

(** The loop over the contents; the list after it. *)
Fixpoint serialize_contents (l : list Content) : cm Serialization (bool * list Content) :=
  match l with
  | [] => ret (true, [])
  | c :: l' =>
    if zlen (tableName c) =? 0 then ret (false, l)
    else if zlen (sql c) =? 0 then ret (false, l)
    else
      let! (ok, c) := Content_serialize c in
      if negb ok then ret (false, c :: l')
      else let! (ok, l') := serialize_contents l' in ret (ok, c :: l')
  end.

Definition Material_serialize (m : Material) : cm Serialization (bool * Material) :=
  let! ok := expand headerSize in
  if negb ok then ret (false, m)
  else
    put4BytesUInt magic ;;;
    put4BytesUInt version ;;;
    let! ok := Info_serialize (info m) in
    if negb ok then ret (false, m)
    else
      let! k := gets s_allocs in
      let! (ok, cs, encoder) :=
        lift_res (serialize_contents (contentsList m) (empty_serialization k)) in
      let m := MkMaterial (info m) cs (contentsMap m) in
      modify (fun s => Ser (s_data s) (s_cursor s) (s_allocs encoder)) ;;;
      if negb ok then ret (false, m)
      else
        let! (data, _) := lift_res (finalize encoder) in
        let! ok := serializeData data in
        ret (ok, m).

(** [Serializable::serialize()]: empty data for failure. *)
Definition serialized (m : Material) (k : nat) : res (list Z * Material) :=
  let? (ok, m, s) := Material_serialize m (empty_serialization k) in
  if ok : bool then let? (data, _) := finalize s in Done (data, m) else Done ([], m).
End serialize.

(** ** Deserialization *)

Section deserialize.
Context `{DA : DataAlloc} `{ZL : Crc}.

Definition Info_deserialize (i : Info) : cm Deserialization (bool * Info) :=
  let! s := gets (fun s => s) in
  if negb (canAdvance s (Info_size - 4)) then ret (false, i)
  else
    let! a := advance4BytesUInt in
    let! b := advance4BytesUInt in
    let! c := advance4BytesUInt in
    let! d := advance4BytesUInt in
    let! e := advance4BytesUInt in
    let i := MkInfo a b (c, d) e (seqTableRootPage i) in
    let! s := gets (fun s => s) in
    if version <=? d_version s then
      if negb (canAdvance s 4) then ret (false, i)
      else let! f := advance4BytesUInt in ret (true, MkInfo a b (c, d) e f)
    else ret (true, i).

(** The loop over the associated SQLs: the list is filled at its end. *)
Fixpoint get_sqls (n : nat) (l : list (list Z)) : cm Deserialization (bool * list (list Z)) :=
  match n with
  | O => ret (true, l)
  | S n =>
    let! (len, buffer) := advanceSizedString in
    if (len =? 0) || (zlen buffer =? 0) then ret (false, l) else get_sqls n (l ++ [buffer])
  end.

(** The loop over the pages; [prePageNo] has 64 bits. *)
Fixpoint get_pages (n : nat) (prePageNo : Z) (l : list VPage) : cm Deserialization (bool * list VPage) :=
  match n with
  | O => ret (true, l)
  | S n =>
    let! (len, varint) := advanceVarint in
    if len =? 0 then ret (false, l)
    else
      let! s := gets (fun s => s) in
      if negb (canAdvance s 4) then ret (false, l)
      else
        let! checksum := advance4BytesUInt in
        if version <=? d_version s
        then get_pages n (u64 (prePageNo + varint)) (l ++ [MkVPage (u32 (varint + prePageNo)) checksum])
        else get_pages n prePageNo (l ++ [MkVPage (u32 varint) checksum])
  end.

(** [reserve] of a negative [int], which is a huge [size_t], throws. *)
Definition Content_deserialize (c : Content) : cm Deserialization (bool * Content) :=
  let! (len, table) := advanceSizedString in
  if (len =? 0) || (zlen table =? 0) then ret (false, c)
  else
    let c := MkContent table (sql c) (associatedSQLs c) (rootPage c) (sequence c) (verifiedPagenos c) in
    let! s := gets (fun s => s) in
    let! (ok, c) :=
      (if version <=? d_version s then
         let! (len, pageNo) := advanceVarint in
         if len =? 0 then ret (false, c)
         else ret (true, MkContent table (sql c) (associatedSQLs c) (u32 pageNo) (sequence c) (verifiedPagenos c))
       else ret (true, c)) in
    if negb ok then ret (false, c)
    else
      let! (len, varint) := advanceVarint in
      if len =? 0 then ret (false, c)
      else
        let c := MkContent table (sql c) (associatedSQLs c) (rootPage c) (s64 varint) (verifiedPagenos c) in
        let! (len, sql) := advanceSizedString in
        let c := MkContent table sql (associatedSQLs c) (rootPage c) (sequence c) (verifiedPagenos c) in
        if (len =? 0) || (zlen sql =? 0) then ret (false, c)
        else
          let! (len, varint) := advanceVarint in
          if len =? 0 then ret (false, c)
          else
            let! (ok, sqls) := get_sqls (Z.to_nat (s32 varint)) [] in
            let c := MkContent table sql sqls (rootPage c) (sequence c) (verifiedPagenos c) in
            if negb ok then ret (false, c)
            else
              let! (len, varint) := advanceVarint in
              if len =? 0 then ret (false, c)
              else
                let numberOfPages := s32 varint in
                if numberOfPages <? 0 then fail Uncaught
                else
                  let! (ok, pages) := get_pages (Z.to_nat numberOfPages) 0 (verifiedPagenos c) in
                  ret (ok, MkContent table sql sqls (rootPage c) (sequence c) pages).

(** The view of the sized data is copied ([Data::operator=]); [k] numbers the request for
    memory.  Without memory the copy is empty. *)
Definition deserializeData (k : nat) : cm Deserialization (option (list Z)) :=
  let! s := gets (fun s => s) in
  if negb (canAdvance s 4) then ret None
  else
    let! checksum := advance4BytesUInt in
    let! (len, (offset, size)) := advanceSizedData in
    if len =? 0 then ret None
    else if negb (size =? 0) then
      let! data :=
        lift_res (match data_malloc k size with Some _ => zread_n (d_data s) offset size | None => Done [] end) in
      if negb (checksum =? data_hash data) then ret None else ret (Some data)
    else if negb (checksum =? 0) then ret None
    else ret (Some []).

(** The loop over the contents, of a decoder of its own. *)
Fixpoint deserialize_contents (fuel : nat) (cs : list Content) (map : gmap (list Z) nat) :
    cm Deserialization (bool * list Content * gmap (list Z) nat) :=
  match fuel with
  | O => fail OutOfFuel
  | S fuel =>
    let! s := gets (fun s => s) in
    if ended s then ret (true, cs, map)
    else
      let! (ok, content) := Content_deserialize new_content in
      let cs' := cs ++ [content] in
      if negb ok then ret (false, cs', map)
      else deserialize_contents fuel cs' (<[tableName content := length cs]> map)
  end.

Definition Material_deserialize (k : nat) (m : Material) : cm Deserialization (bool * Material) :=
  let! s := gets (fun s => s) in
  if negb (canAdvance s headerSize) then ret (false, m)
  else
    let! magicValue := advance4BytesUInt in
    let! versionValue := advance4BytesUInt in
    if negb (magicValue =? magic) then ret (false, m)
    else if negb (versionValue =? version_0) && negb (versionValue =? version) then ret (false, m)
    else
      setDataVersion versionValue ;;;
      let! (ok, i) := Info_deserialize (info m) in
      let m := MkMaterial i (contentsList m) (contentsMap m) in
      if negb ok then ret (false, m)
      else
        let! data := deserializeData k in
        match data with
        | None => ret (false, m)
        | Some data =>
          let decoder := Deser data 0 versionValue in
          let! (ok, cs, map, _) :=
            lift_res (deserialize_contents (S (length data)) (contentsList m) (contentsMap m) decoder) in
          ret (ok, MkMaterial i cs map)
        end.

(** [Deserializable::deserialize(data)] *)
Definition deserialized (k : nat) (data : list Z) (m : Material) : res (bool * Material) :=
  let? (r, _) := Material_deserialize k m (new_deserialization data) in Done r.
End deserialize.
