(* ===== verification/MaterialFacts.v ===== *)
(** * Backup material: what is put and what is read

    The bytes of a material, and the operations on both sides of them: [puts c e] says that [c]
    appends [e], [gives c e v] that [c] reads [e] as [v]. *)

From stdpp Require Import gmap sorting.
From S2P Require Import Prelude CLib Varint Serial SerialVarint SerialFacts Material.

(** ** The format *)

Definition enc_info (i : Info) : list Z :=
  be4 (pageSize i) ++ be4 (reservedBytes i) ++ be4 (walSalt i).1 ++ be4 (walSalt i).2 ++
  be4 (nBackFill i) ++ be4 (seqTableRootPage i).

(** Each page number as its distance from the one before. *)
Fixpoint enc_deltas (prev : Z) (l : list VPage) : list Z :=
  match l with
  | [] => []
  | p :: l => sqlite_varint (number p - prev) ++ be4 (hash p) ++ enc_deltas (number p) l
  end.
Definition enc_pages (l : list VPage) : list Z := sqlite_varint (zlen l) ++ enc_deltas 0 l.

(** Pages with number zero have been deleted. *)
Definition is_page (p : VPage) : bool := negb (number p =? 0).
Definition live_pages (l : list VPage) : list VPage := List.filter is_page l.

Definition enc_content (c : Content) : list Z :=
  sized (tableName c) ++ sqlite_varint (rootPage c) ++ sqlite_varint (u64 (sequence c)) ++ sized (sql c) ++
  sqlite_varint (zlen (associatedSQLs c)) ++ concat (map sized (associatedSQLs c)) ++ enc_pages (verifiedPagenos c).

Section format.
Context `{DA : DataAlloc} {DL : DataAllocLaws DA} `{ZL : Crc} {ZLL : CrcLaws ZL} `{SS : StdSort} {SSL : StdSortLaws SS}.

Definition checksum (b : list Z) : Z := match b with [] => 0 | _ => data_hash b end.
Definition enc_data (b : list Z) : list Z := be4 (checksum b) ++ sized b.
Definition enc_material (m : Material) : list Z :=
  be4 magic ++ be4 version ++ enc_info (info m) ++ enc_data (concat (map enc_content (contentsList m))).

(** A content as it is saved: its pages sorted, without the deleted ones. *)
Definition saved_content (c : Content) : Content :=
  MkContent (tableName c) (sql c) (associatedSQLs c) (rootPage c) (sequence c) (live_pages (std_sort (verifiedPagenos c))).

(** ** Well-formed materials *)

Definition is_u32 (v : Z) : Prop := 0 <= v < 2 ^ 32.
Definition is_text (b : list Z) : Prop := Forall is_byte b /\ b <> [].

Definition info_wf (i : Info) : Prop :=
  is_u32 (pageSize i) /\ is_u32 (reservedBytes i) /\ is_u32 (walSalt i).1 /\ is_u32 (walSalt i).2 /\
  is_u32 (nBackFill i) /\ is_u32 (seqTableRootPage i).
Definition page_wf (p : VPage) : Prop := is_u32 (number p) /\ is_u32 (hash p).
Definition content_wf (c : Content) : Prop :=
  is_text (tableName c) /\ is_text (sql c) /\ Forall is_text (associatedSQLs c) /\ zlen (associatedSQLs c) < 2 ^ 31 /\
  is_u32 (rootPage c) /\ - 2 ^ 63 <= sequence c < 2 ^ 63 /\
  Forall page_wf (verifiedPagenos c) /\ zlen (verifiedPagenos c) < 2 ^ 31.

(** ** Putting *)

Section put.
Variable B : Z.
Hypothesis B_small : 0 <= B <= 2 ^ 61.
Hypothesis memory : forall k n, 0 <= n <= 2 * B -> is_Some (data_malloc k n).

(** [c] appends [e] and gives [a]; nine bytes more fit. *)
Definition puts {A} (c : cm Serialization A) (e : list Z) (a : A) : Prop :=
  forall w s Q, written B w s -> zlen (w ++ e) + 9 <= B -> (forall s', written B (w ++ e) s' -> Q a s') -> wp c Q s.

Lemma puts_ret {A} (a : A) : puts (ret a) [] a.
Proof. intros w s Q W _ HQ. apply wp_ret, HQ. by rewrite app_nil_r. Qed.
Lemma puts_bind {A A'} (c : cm Serialization A) (k : A -> cm Serialization A') e1 a e2 a' :
  puts c e1 a -> puts (k a) e2 a' -> puts (bind c k) (e1 ++ e2) a'.
Proof.
  intros H1 H2 w s Q W HB HQ. rewrite app_assoc in HB. apply wp_bind, (H1 w); [done|rewrite zlen_app in HB; zlen_pos; lia|].
  intros s1 W1. apply (H2 (w ++ e1)); [done..|]. intros s2 W2. apply HQ. by rewrite app_assoc.
Qed.
Lemma puts_andb c1 e1 c2 e2 a : puts c1 e1 true -> puts c2 e2 a -> puts (andb_m c1 c2) (e1 ++ e2) a.
Proof. intros H1 H2. by eapply puts_bind. Qed.
(** A step that appends nothing. *)
Lemma puts_then {A A'} (c : cm Serialization A) (k : A -> cm Serialization A') e a a' :
  puts c e a -> puts (k a) [] a' -> puts (bind c k) e a'.
Proof. intros H1 H2. rewrite <- (app_nil_r e). by eapply puts_bind. Qed.

Lemma puts_put4 v : puts (put4BytesUInt v) (be4 v) true.
Proof. intros w s Q W HB HQ. apply (wp_put4 B B_small memory w); [done| |done]. rewrite zlen_app, zlen_be4 in HB. lia. Qed.
Lemma puts_varint v : 0 <= v < 2 ^ 64 -> puts (put_varint_ok v) (sqlite_varint v) true.
Proof.
  intros Hv w s Q W HB HQ. unfold put_varint_ok. apply wp_bind, (wp_putVarint B B_small memory w); [done..| |].
  { rewrite zlen_app in HB. zlen_pos. lia. }
  intros s1 W1. pose proof (varint_length v). destruct (_ =? 0) eqn:E; [lia|]. apply wp_ret. by apply HQ.
Qed.
Lemma puts_sized b : puts (putSized b) (sized b) true.
Proof.
  intros w s Q W HB HQ. apply (wp_putSized B B_small memory w); [done| |done].
  unfold sized in HB. rewrite !zlen_app in HB. pose proof (varint_length (zlen b)). lia.
Qed.
Lemma puts_expand n : 0 <= n <= 9 -> puts (expand n) [] true.
Proof.
  intros Hn w s Q W HB HQ. rewrite app_nil_r in *. apply (wp_expand B B_small memory w); [done|lia..|]. intros s1 W1 _. by apply HQ.
Qed.

Lemma puts_sqls l : puts (put_sqls l) (concat (map sized l)) true.
Proof. induction l as [|x l IH]; [apply puts_ret|]. apply puts_andb; [apply puts_sized|done]. Qed.

Lemma puts_expand_first {A} n (k : bool -> cm Serialization A) e a :
  0 <= n <= zlen e -> puts (k true) e a -> puts (bind (expand n) k) e a.
Proof.
  intros Hn Hk w s Q W HB HQ. rewrite zlen_app in HB. apply wp_bind, (wp_expand B B_small memory w); [done|lia..|].
  intros s1 W1 _. apply (Hk w); [done|by rewrite zlen_app|done].
Qed.

Lemma puts_info i : puts (Info_serialize i) (enc_info i) true.
Proof.
  apply puts_expand_first; [done|]. unfold enc_info. cbn [negb].
  do 5 (eapply puts_bind; [apply puts_put4|]). eapply puts_then; [apply puts_put4|apply puts_ret].
Qed.

(** Pages behind one that is not deleted. *)
Lemma puts_deltas l : forall pre, 0 < pre -> StronglySorted (fun a b => number a <= number b) l ->
  Forall (fun p => pre <= number p) l -> Forall page_wf l ->
  exists z, 0 < z /\ puts (put_pages l pre) (enc_deltas pre l) (Some z).
Proof.
  induction l as [|p l IH]; intros pre Hpre Hs Hge Hwf; cbn [put_pages enc_deltas].
  { exists pre. split; [done|]. apply puts_ret. }
  apply Forall_cons in Hge as [Hp _]. apply StronglySorted_inv in Hs as [Hs Hl]. apply Forall_cons in Hwf as [[Hn Hh] Hwf].
  destruct (IH (number p)) as (z & Hz & Hput); [lia|done..|]. exists z. split; [done|]. unfold is_u32 in *.
  rewrite (proj2 (Z.eqb_neq (number p) 0)), (proj2 (Z.eqb_neq pre 0)) by lia.
  unfold u32. rewrite Z.mod_small by lia.
  eapply puts_bind; [apply puts_varint; lia|]. eapply (puts_bind _ _ _ true); [|exact Hput].
  change (be4 (hash p)) with ([] ++ be4 (hash p)). apply puts_andb; [apply puts_ret|apply puts_put4].
Qed.

Lemma live_cons p l : live_pages (p :: l) = if number p =? 0 then live_pages l else p :: live_pages l.
Proof. unfold live_pages, is_page. cbn [List.filter]. by destruct (number p =? 0). Qed.
Lemma live_all l : Forall (fun p => 0 < number p) l -> live_pages l = l.
Proof.
  induction 1 as [|p l Hp _ IH]; [done|]. by rewrite live_cons, (proj2 (Z.eqb_neq _ _)), IH by lia.
Qed.
Lemma puts_pages l : StronglySorted (fun a b => number a <= number b) l -> Forall page_wf l -> zlen l < 2 ^ 31 ->
  if decide (live_pages l = []) then puts (put_pages l 0) [] (Some 0)
  else exists z, 0 < z /\ puts (put_pages l 0) (enc_pages (live_pages l)) (Some z).
Proof.
  induction l as [|p l IH]; intros Hs Hwf Hlen.
  { rewrite decide_True by done. apply puts_ret. }
  apply StronglySorted_inv in Hs as [Hs Hl]. apply Forall_cons in Hwf as [[Hn Hh] Hwf]. unfold is_u32 in *.
  rewrite live_cons. cbn [put_pages]. rewrite zlen_cons in Hlen. destruct (number p =? 0) eqn:E; cbn [negb].
  { apply IH; [done..|]. zlen_pos. lia. }
  rewrite decide_False by done.
  assert (Hlive : live_pages l = l) by (apply live_all; eapply Forall_impl; [exact Hl|]; cbn; intros; lia).
  rewrite Hlive.
  destruct (puts_deltas l (number p)) as (z & Hz & Hput); [lia|done..|]. exists z. split; [done|].
  unfold enc_pages. cbn [enc_deltas]. rewrite Z.sub_0_r, app_assoc. zlen_pos.
  eapply puts_bind; [apply puts_andb; apply puts_varint; rewrite ?zlen_cons; lia|]. eapply (puts_bind _ _ _ true); [|exact Hput].
  change (be4 (hash p)) with ([] ++ be4 (hash p)). apply puts_andb; [apply puts_ret|apply puts_put4].
Qed.

(** The content after its pages have been sorted. *)
Definition sorted_content (c : Content) : Content :=
  MkContent (tableName c) (sql c) (associatedSQLs c) (rootPage c) (sequence c) (std_sort (verifiedPagenos c)).

Lemma puts_content c : content_wf c -> puts (Content_serialize c) (enc_content (saved_content c)) (true, sorted_content c).
Proof.
  intros (Ht & Hq & Ha & Han & Hr & Hsq & Hp & Hpn). unfold Content_serialize, enc_content.
  cbn [tableName sql associatedSQLs rootPage sequence verifiedPagenos saved_content]. unfold is_u32 in Hr. zlen_pos.
  rewrite !app_assoc. eapply puts_bind.
  { rewrite <- !app_assoc. repeat apply puts_andb; first [apply puts_sized|apply puts_sqls|apply puts_varint].
    - lia.
    - apply Z.mod_pos_bound. lia.
    - lia. }
  cbn [negb]. fold (sorted_content c).
  assert (HP : Forall page_wf (std_sort (verifiedPagenos c))) by (by rewrite std_sort_perm).
  assert (HN : zlen (std_sort (verifiedPagenos c)) < 2 ^ 31) by (unfold zlen; by rewrite std_sort_perm).
  pose proof (puts_pages _ (std_sort_sorted _) HP HN) as Hput.
  destruct (decide _) as [E|E].
  - rewrite E. unfold enc_pages. cbn [enc_deltas]. rewrite app_nil_r. change (sqlite_varint (zlen [])) with ([] ++ sqlite_varint 0).
    eapply puts_bind; [exact Hput|]. cbn [Z.eqb]. eapply puts_then; [by apply puts_varint|apply puts_ret].
  - destruct Hput as (z & Hz & Hput). eapply puts_then; [exact Hput|]. cbv beta iota. rewrite (proj2 (Z.eqb_neq z 0)) by lia. apply puts_ret.
Qed.

Lemma puts_contents l : Forall content_wf l ->
  puts (serialize_contents l) (concat (map enc_content (map saved_content l))) (true, map sorted_content l).
Proof.
  induction 1 as [|c l Hc _ IH]; [apply puts_ret|]. cbn [map concat serialize_contents].
  assert (forall b, is_text b -> (zlen b =? 0) = false) as Hz.
  { intros b [_ Hb]. apply Z.eqb_neq. intros Hz. by apply Hb, zlen_0_inv. }
  rewrite !Hz by apply Hc. eapply puts_bind; [by apply puts_content|]. cbn [negb].
  eapply puts_then; [exact IH|apply puts_ret].
Qed.

Lemma puts_data b : puts (serializeData b) (enc_data b) true.
Proof. apply puts_andb; [apply puts_put4|apply puts_sized]. Qed.
End put.

(** ** Reading *)

(** [c] reads [e] as [a]; what is behind [e] stays. *)
Definition gives {A} (ver : Z) (c : cm Deserialization A) (e : list Z) (a : A) : Prop :=
  forall w l s Q, reads ver w (e ++ l) s -> Forall is_byte (e ++ l) -> zlen (e ++ l) < 2 ^ 62 ->
  (forall s', reads ver (w ++ e) l s' -> Q a s') -> wp c Q s.

Lemma gives_ret {A} ver (a : A) : gives ver (ret a) [] a.
Proof. intros w l s Q R _ _ HQ. apply wp_ret, HQ. by rewrite app_nil_r. Qed.
Lemma gives_bind {A A'} ver (c : cm Deserialization A) (k : A -> cm Deserialization A') e1 a e2 a' :
  gives ver c e1 a -> gives ver (k a) e2 a' -> gives ver (bind c k) (e1 ++ e2) a'.
Proof.
  intros H1 H2 w l s Q R Hb Hl HQ. rewrite <- app_assoc in *. apply wp_bind, (H1 _ _ _ _ R Hb Hl). intros s1 R1.
  apply (H2 _ _ _ _ R1).
  - by apply Forall_app in Hb as [_ Hb].
  - rewrite zlen_app in Hl. zlen_pos. lia.
  - intros s2 R2. apply HQ. by rewrite app_assoc.
Qed.
Lemma gives_then {A A'} ver (c : cm Deserialization A) (k : A -> cm Deserialization A') e a a' :
  gives ver c e a -> gives ver (k a) [] a' -> gives ver (bind c k) e a'.
Proof. intros H1 H2. rewrite <- (app_nil_r e). by eapply gives_bind. Qed.

Lemma gives_check {A} ver n (no : Deserialization -> cm Deserialization A) (yes : Deserialization -> cm Deserialization A) e a :
  0 <= n <= zlen e -> (forall s, d_version s = ver -> gives ver (yes s) e a) ->
  gives ver (let! s := gets (fun s => s) in if negb (canAdvance s n) then no s else yes s) e a.
Proof.
  intros Hn Hy w l s Q R Hb Hl HQ. apply wp_bind_gets. rewrite zlen_app in Hl. zlen_pos.
  rewrite (canAdvance_reads _ _ _ _ _ R) by lia. rewrite zlen_app, (proj2 (Z.leb_le _ _)) by lia. cbn [negb].
  assert (Hv : d_version s = ver) by (by destruct R as [-> _]).
  apply (Hy s Hv w l); [done..|by rewrite zlen_app|done].
Qed.

Lemma gives_version {A} ver (k : Deserialization -> cm Deserialization A) e a :
  (forall s, d_version s = ver -> gives ver (k s) e a) -> gives ver (let! s := gets (fun s => s) in k s) e a.
Proof. intros Hk w l s Q R Hb Hl HQ. apply wp_bind_gets. assert (Hv : d_version s = ver) by (by destruct R as [-> _]). by apply (Hk s Hv w l). Qed.

Lemma gives_4 ver v : is_u32 v -> gives ver advance4BytesUInt (be4 v) v.
Proof. intros Hv w l s Q R _ _ HQ. by apply (wp_advance_be4 _ _ _ _ _ _ R). Qed.
Lemma gives_varint ver v : 0 <= v < 2 ^ 64 -> gives ver advanceVarint (sqlite_varint v) (zlen (sqlite_varint v), v).
Proof. intros Hv w l s Q R Hb _ HQ. apply (wp_advanceVarint _ _ _ _ _ _ R Hv); [by apply Forall_app in Hb as [_ Hb]|done]. Qed.

Lemma sized_split b l : Forall is_byte (sized b ++ l) -> zlen (sized b ++ l) < 2 ^ 62 ->
  zlen b < 2 ^ 62 /\ Forall is_byte b /\ Forall is_byte l.
Proof. unfold sized. rewrite !Forall_app, !zlen_app. intros [[_ ?] ?] ?. zlen_pos. split; [lia|done]. Qed.
Lemma gives_string ver b : gives ver advanceSizedString (sized b) (zlen (sized b), b).
Proof.
  intros w l s Q R Hb Hl HQ. destruct (sized_split _ _ Hb Hl) as (? & ? & ?). by apply (wp_advanceSizedString _ _ _ _ _ _ R).
Qed.

Lemma sized_some b : (zlen (sized b) =? 0) = false.
Proof. unfold sized. rewrite zlen_app. pose proof (varint_length (zlen b)). zlen_pos. lia. Qed.
Lemma varint_some v : (zlen (sqlite_varint v) =? 0) = false.
Proof. pose proof (varint_length v). lia. Qed.
Lemma text_some b : is_text b -> (zlen b =? 0) = false.
Proof. intros [_ Hb]. apply Z.eqb_neq. intros Hz. by apply Hb, zlen_0_inv. Qed.

Lemma gives_sqls ver x : forall acc, Forall is_text x -> gives ver (get_sqls (length x) acc) (concat (map sized x)) (true, acc ++ x).
Proof.
  induction x as [|b x IH]; intros acc Hx; cbn [length get_sqls map concat].
  { rewrite app_nil_r. apply gives_ret. }
  apply Forall_cons in Hx as [Hb Hx]. eapply gives_bind; [apply gives_string|]. cbv beta iota.
  rewrite sized_some, text_some by done. cbn [orb]. replace (acc ++ b :: x) with ((acc ++ [b]) ++ x) by (by rewrite <- app_assoc).
  by apply IH.
Qed.

Lemma gives_pages l : forall pre acc, 0 <= pre -> StronglySorted (fun a b => number a <= number b) l ->
  Forall (fun p => pre <= number p) l -> Forall page_wf l ->
  gives version (get_pages (length l) pre acc) (enc_deltas pre l) (true, acc ++ l).
Proof.
  induction l as [|p l IH]; intros pre acc Hpre Hs Hge Hwf; cbn [length get_pages enc_deltas].
  { rewrite app_nil_r. apply gives_ret. }
  apply Forall_cons in Hge as [Hp _]. apply StronglySorted_inv in Hs as [Hs Hl]. apply Forall_cons in Hwf as [[Hn Hh] Hwf].
  unfold is_u32 in Hn. eapply gives_bind; [apply gives_varint; lia|]. cbv beta iota. rewrite varint_some.
  apply gives_check; [rewrite zlen_app, zlen_be4; zlen_pos; lia|]. intros s Hv.
  eapply gives_bind; [by apply gives_4|]. cbv beta. rewrite Hv, Z.leb_refl.
  replace (number p - pre + pre) with (number p) by lia. replace (pre + (number p - pre)) with (number p) by lia.
  unfold u32, u64. rewrite !Z.mod_small by lia.
  replace (acc ++ p :: l) with ((acc ++ [MkVPage (number p) (hash p)]) ++ l) by (rewrite <- app_assoc; by destruct p).
  apply IH; [lia|done..].
Qed.

(** A content as a file holds it. *)
Definition content_saved (c : Content) : Prop :=
  content_wf c /\ StronglySorted (fun a b => number a <= number b) (verifiedPagenos c).

Lemma gives_content c : content_saved c -> gives version (Content_deserialize new_content) (enc_content c) (true, c).
Proof.
  intros [(Ht & Hq & Ha & Han & Hr & Hsq & Hp & Hpn) Hs]. unfold is_u32 in Hr. unfold Content_deserialize, enc_content. zlen_pos.
  eapply gives_bind; [apply gives_string|]. cbv beta iota. rewrite sized_some, text_some by done. cbn [orb].
  apply gives_version. intros s Hv. rewrite Hv, Z.leb_refl.
  eapply gives_bind; [eapply gives_then; [apply gives_varint; lia|]; cbv beta iota; rewrite varint_some; apply gives_ret|].
  cbn [negb]. eapply gives_bind; [apply gives_varint, Z.mod_pos_bound; lia|]. cbv beta iota. rewrite varint_some.
  eapply gives_bind; [apply gives_string|]. cbv beta iota. rewrite sized_some, text_some by done. cbn [orb].
  eapply gives_bind; [apply gives_varint; lia|]. cbv beta iota. rewrite varint_some.
  assert (Hw : forall n : Z, 0 <= n < 2 ^ 31 -> s32 n = n) by (intros n Hn; apply wrap_s_small; lia).
  rewrite Hw, to_nat_zlen by lia. eapply gives_bind; [by apply gives_sqls|]. cbn [negb].
  eapply gives_bind; [apply gives_varint; lia|]. cbv beta iota. rewrite varint_some. cbv zeta. rewrite Hw by lia.
  rewrite (proj2 (Z.ltb_ge _ _)), to_nat_zlen by lia.
  eapply gives_then; [apply gives_pages; [done|done| |done]|].
  { eapply Forall_impl; [exact Hp|]. intros p [Hn _]. unfold is_u32 in Hn. lia. }
  cbn. unfold u32. rewrite Z.mod_small by lia.
  replace (s64 (u64 (sequence c))) with (sequence c); [destruct c; apply gives_ret|].
  unfold s64, wrap_s, u64. rewrite Zplus_mod_idemp_l, Z.mod_small; lia.
Qed.

(** The positions of the contents by name, from [n] on. *)
Fixpoint names_from (n : nat) (l : list Content) (map : gmap (list Z) nat) : gmap (list Z) nat :=
  match l with
  | [] => map
  | c :: l => names_from (S n) l (<[tableName c := n]> map)
  end.

Lemma enc_content_nonempty c : enc_content c <> [].
Proof.
  intros E. apply (f_equal zlen) in E. unfold enc_content, sized in E. rewrite !zlen_app, zlen_nil in E.
  pose proof (varint_length (zlen (tableName c))). zlen_pos. lia.
Qed.

Lemma gives_contents l : forall fuel cs map w s Q, (length (concat (List.map enc_content l)) < fuel)%nat -> Forall content_saved l ->
  reads version w (concat (List.map enc_content l)) s -> Forall is_byte (concat (List.map enc_content l)) ->
  zlen (concat (List.map enc_content l)) < 2 ^ 62 ->
  (forall s', Q (true, cs ++ l, names_from (length cs) l map) s') -> wp (deserialize_contents fuel cs map) Q s.
Proof.
  induction l as [|c l IH]; intros [|fuel] cs map w s Q Hf Hl R Hb Hz HQ; try lia; cbn [deserialize_contents];
    apply wp_bind_gets; rewrite (ended_reads _ _ _ _ R).
  { rewrite bool_decide_true by done. apply wp_ret. specialize (HQ s). by rewrite app_nil_r in HQ. }
  cbn [List.map concat] in *. apply Forall_cons in Hl as [Hc Hl].
  rewrite bool_decide_false by (intros [E _]%app_nil; by apply (enc_content_nonempty c)).
  apply wp_bind, (gives_content c Hc w _ s _ R Hb Hz). intros s1 R1. cbn [negb].
  eapply (IH fuel (cs ++ [c])); [|done|exact R1| | |].
  - rewrite length_app in Hf. pose proof (enc_content_nonempty c). destruct (enc_content c); [done|]. cbn in Hf. lia.
  - by apply Forall_app in Hb as [_ Hb].
  - rewrite zlen_app in Hz. zlen_pos. lia.
  - intros s'. rewrite length_app, <- app_assoc. cbn [app length]. rewrite Nat.add_1_r. apply HQ.
Qed.

Lemma checksum_range b : is_u32 (checksum b).
Proof. unfold checksum, is_u32. destruct b; [lia|apply crc32_range]. Qed.

Lemma gives_data ver k b : is_Some (data_malloc k (zlen b)) -> gives ver (deserializeData k) (enc_data b) (Some b).
Proof.
  intros [blk Hk] w l s Q R Hb Hl HQ. unfold deserializeData. apply wp_bind_gets. rewrite (canAdvance_reads _ _ _ _ _ R) by lia.
  unfold enc_data in *. rewrite <- app_assoc in *. rewrite (zlen_app (be4 _)), zlen_be4, (proj2 (Z.leb_le _ _)) by (zlen_pos; lia). cbn [negb].
  apply wp_bind, (gives_4 _ _ (checksum_range b) _ _ _ _ R Hb Hl). intros s1 R1.
  apply Forall_app in Hb as [_ Hb]. rewrite zlen_app, zlen_be4 in Hl. assert (Hl' : zlen (sized b ++ l) < 2 ^ 62) by lia.
  destruct (sized_split _ _ Hb Hl') as (Hbz & Fb & Fl).
  apply wp_bind, (wp_advanceSizedData _ _ _ _ _ _ R1 Hbz Fb Fl). intros s2 R2. cbv beta iota. rewrite sized_some.
  destruct (zlen b =? 0) eqn:E; cbn [negb].
  - assert (b = []) as -> by (apply zlen_0_inv; lia). cbn [checksum Z.eqb negb]. apply wp_ret, HQ. by rewrite app_assoc.
  - destruct R as [-> Hr]. cbn [d_data]. eapply wp_bind_lift_res.
    { rewrite Hk. unfold sized. rewrite <- app_assoc. rewrite !(app_assoc w), app_assoc. by apply zread_n_app. }
    replace (checksum b) with (data_hash b) by (unfold checksum; by destruct b). rewrite Z.eqb_refl. cbn [negb].
    apply wp_ret, HQ. by rewrite app_assoc.
Qed.

Lemma gives_info i i' : info_wf i -> gives version (Info_deserialize i') (enc_info i) (true, i).
Proof.
  intros (H1 & H2 & H3 & H4 & H5 & H6). unfold Info_deserialize, enc_info.
  apply gives_check; [done|]. intros s _.
  do 4 (eapply gives_bind; [by apply gives_4|]). eapply gives_bind; [by apply gives_4|]. cbv beta zeta.
  intros w l s0 Q R Hb Hl HQ. apply wp_bind_gets. rewrite (canAdvance_reads _ _ _ _ _ R) by lia.
  replace (d_version s0) with version by (by destruct R as [-> _]).
  rewrite Z.leb_refl, zlen_app, zlen_be4, (proj2 (Z.leb_le _ _)) by (zlen_pos; lia). cbn [negb].
  apply wp_bind, (gives_4 _ _ H6 _ _ _ _ R Hb Hl). intros s1 R1. apply wp_ret.
  specialize (HQ s1 R1). by destruct i as [? ? [? ?] ? ?].
Qed.

(** ** A material *)

Lemma zlen_tail {A} (a b : list A) n : zlen (a ++ b) < n -> zlen b < n.
Proof. rewrite zlen_app. zlen_pos. lia. Qed.

Lemma run_contents l cs map : Forall content_saved l ->
  Forall is_byte (concat (List.map enc_content l)) -> zlen (concat (List.map enc_content l)) < 2 ^ 62 ->
  exists s, deserialize_contents (S (length (concat (List.map enc_content l)))) cs map (Deser (concat (List.map enc_content l)) 0 version) =
    Done (true, cs ++ l, names_from (length cs) l map, s).
Proof.
  intros Hl Hb Hz. destruct (wp_run (deserialize_contents (S (length (concat (List.map enc_content l)))) cs map)
    (fun r _ => r = (true, cs ++ l, names_from (length cs) l map)) (Deser (concat (List.map enc_content l)) 0 version)) as (r & s & Er & ->); [|by exists s].
  apply (gives_contents l _ cs map []); [apply Nat.lt_succ_diag_r|done|split; [done|cbn [app]; lia]|done..].
Qed.

Lemma gives_material k m m' :
  info_wf (info m) -> Forall content_saved (contentsList m) ->
  is_Some (data_malloc k (zlen (concat (map enc_content (contentsList m))))) ->
  forall l Q, zlen (enc_material m ++ l) < 2 ^ 62 -> Forall is_byte (enc_material m ++ l) ->
  (forall s', Q (true, MkMaterial (info m) (contentsList m' ++ contentsList m)
                 (names_from (length (contentsList m')) (contentsList m) (contentsMap m'))) s') ->
  wp (Material_deserialize k m') Q (new_deserialization (enc_material m ++ l)).
Proof.
  intros Hi Hc Hk l Q Hl Hb HQ.
  assert (R : reads 0 [] (enc_material m ++ l) (new_deserialization (enc_material m ++ l))) by (split; [done|cbn [app]; lia]).
  revert R. generalize (new_deserialization (enc_material m ++ l)). unfold enc_material in *. rewrite <- !app_assoc in *.
  intros s R. unfold Material_deserialize. apply wp_bind_gets. rewrite (canAdvance_reads _ _ _ _ _ R) by done.
  rewrite !zlen_app, !zlen_be4, (proj2 (Z.leb_le _ _)) by (unfold headerSize; zlen_pos; lia). cbn [negb].
  apply wp_bind, (gives_4 _ magic ltac:(done) _ _ _ _ R Hb Hl). intros s1 R1. apply zlen_tail in Hl. apply Forall_app in Hb as [_ Hb].
  apply wp_bind, (gives_4 _ version ltac:(done) _ _ _ _ R1 Hb Hl). intros s2 R2. apply zlen_tail in Hl. apply Forall_app in Hb as [_ Hb].
  rewrite !Z.eqb_refl, andb_false_r. cbn [negb]. apply wp_bind_modify. destruct R2 as [-> Hr]. cbn [d_data d_cursor].
  match goal with |- wp _ _ (Deser (?w ++ ?l) _ _) => assert (R2 : reads version w l (Deser (w ++ l) (zlen w) version)) by done end.
  apply wp_bind, (gives_info _ (info m') Hi _ _ _ _ R2 Hb Hl). intros s3 R3. apply zlen_tail in Hl. apply Forall_app in Hb as [_ Hb].
  cbn [negb contentsList contentsMap]. apply wp_bind, (gives_data _ _ _ Hk _ _ _ _ R3 Hb Hl). intros s4 _.
  apply Forall_app in Hb as [Hb _]. unfold enc_data, sized in Hb. rewrite !Forall_app in Hb. destruct Hb as (_ & _ & Hb).
  unfold enc_data, sized in Hl. rewrite <- !app_assoc in Hl. do 2 apply zlen_tail in Hl. rewrite zlen_app in Hl.
  assert (Hz : zlen (concat (map enc_content (contentsList m))) < 2 ^ 62) by (zlen_pos; lia).
  destruct (run_contents (contentsList m) (contentsList m') (contentsMap m') Hc Hb Hz) as [sd Er].
  eapply wp_bind_lift_res; [exact Er|]. apply wp_ret, HQ.
Qed.
End format.
