(* ===== verification/MaterialProps.v ===== *)
(** * Backup material: properties

    A material that is written can be read back, also with bytes behind it as the pages of an
    encrypted file leave them. *)

From stdpp Require Import gmap sorting.
From S2P Require Import Prelude CLib Varint Serial SerialVarint SerialFacts Material MaterialFacts.

Section material.
Context `{DA : DataAlloc} {DL : DataAllocLaws DA} `{ZL : Crc} {ZLL : CrcLaws ZL} `{SS : StdSort} {SSL : StdSortLaws SS}.

(** A material as the file holds it. *)
Definition saved_material (m : Material) : Material := MkMaterial (info m) (map saved_content (contentsList m)) (contentsMap m).

Definition material_wf (m : Material) : Prop := info_wf (info m) /\ Forall content_wf (contentsList m).

(** ** What is saved is well-formed *)

Lemma filter_sorted (R : VPage -> VPage -> Prop) f l : StronglySorted R l -> StronglySorted R (List.filter f l).
Proof.
  induction 1 as [|p l _ IH Hp]; [constructor|]. cbn. destruct (f p); [|done]. constructor; [done|].
  rewrite List.Forall_forall in *. intros q [Hq _]%List.filter_In. by apply Hp.
Qed.
Lemma filter_forall {A} (P : A -> Prop) f (l : list A) : Forall P l -> Forall P (List.filter f l).
Proof. rewrite !List.Forall_forall. intros H x [Hx _]%List.filter_In. by apply H. Qed.
Lemma filter_short {A} f (l : list A) : zlen (List.filter f l) <= zlen l.
Proof. unfold zlen. pose proof (List.filter_length_le f l). lia. Qed.

Lemma saved_wf c : content_wf c -> content_saved (saved_content c).
Proof.
  intros (Ht & Hq & Ha & Han & Hr & Hsq & Hp & Hpn). split; [|apply filter_sorted, std_sort_sorted].
  repeat (split; [done|]). cbn [saved_content verifiedPagenos]. split.
  - apply filter_forall. by rewrite std_sort_perm.
  - eapply Z.le_lt_trans; [apply filter_short|]. unfold zlen. by rewrite std_sort_perm.
Qed.

Lemma deltas_bytes l : forall prev, Forall is_byte (enc_deltas prev l).
Proof. induction l as [|p l IH]; intros prev; cbn [enc_deltas]; [constructor|]. rewrite !Forall_app. auto using varint_bytes, be4_bytes. Qed.
Lemma text_sized b : is_text b -> Forall is_byte (sized b).
Proof. intros [Hb _]. unfold sized. rewrite Forall_app. auto using varint_bytes. Qed.
Lemma content_bytes c : content_wf c -> Forall is_byte (enc_content c).
Proof.
  intros (Ht & Hq & Ha & _). unfold enc_content, enc_pages. rewrite !Forall_app.
  split_and!; [by apply text_sized|apply varint_bytes|apply varint_bytes|by apply text_sized|apply varint_bytes| |apply varint_bytes|apply deltas_bytes].
  induction Ha as [|b l Hb _ IH]; [constructor|]. cbn. rewrite Forall_app. split; [by apply text_sized|done].
Qed.
Lemma material_bytes m : Forall content_wf (contentsList m) -> Forall is_byte (enc_material m).
Proof.
  intros Hc. unfold enc_material, enc_info, enc_data, sized. rewrite !Forall_app.
  repeat split; try apply be4_bytes; try apply varint_bytes.
  induction Hc as [|c l H _ IH]; [constructor|]. cbn. rewrite Forall_app. split; [by apply content_bytes|done].
Qed.

(** ** Writing *)

Section write.
Variable B : Z.
Hypothesis B_small : 0 <= B <= 2 ^ 61.
Hypothesis memory : forall k n, 0 <= n <= 2 * B -> is_Some (data_malloc k n).

Lemma puts_material m : material_wf m ->
  puts B (Material_serialize m) (enc_material (saved_material m))
    (true, MkMaterial (info m) (map sorted_content (contentsList m)) (contentsMap m)).
Proof.
  intros [Hi Hc]. unfold Material_serialize, enc_material. cbn [info contentsList contentsMap saved_material].
  apply puts_expand_first; [done..| |].
  { rewrite !zlen_app, !zlen_be4. unfold headerSize. zlen_pos. lia. }
  cbn [negb]. do 2 (eapply puts_bind; [by apply puts_put4|]). eapply puts_bind; [by apply puts_info|]. cbn [negb].
  intros w s Q W HB HQ. apply wp_bind_gets.
  set (e := concat (map enc_content (map saved_content (contentsList m)))) in *.
  assert (HB' : zlen e + 9 <= B).
  { unfold enc_data, sized in HB. rewrite !zlen_app in HB. zlen_pos. lia. }
  destruct (wp_run (serialize_contents (contentsList m)) (fun r s' => r = (true, map sorted_content (contentsList m)) /\ written B e s')
    (empty_serialization (s_allocs s))) as (r & se & Er & -> & We).
  { by apply (puts_contents B B_small memory _ Hc []); [apply written_empty; lia| |]. }
  eapply wp_bind_lift_res; [exact Er|]. apply wp_bind_modify. cbn [negb].
  rewrite (finalize_written _ _ _ We). eapply wp_bind_lift_res; [done|].
  apply wp_bind, (puts_data B B_small memory e w); [|done|].
  - destruct W as (junk & Hd & Hcur & Hz). by exists junk.
  - intros s2 W2. apply wp_ret. by apply HQ.
Qed.
End write.

(** ** Names *)

Lemma names_other t l : forall n m, t ∉ map tableName l -> names_from n l m !! t = m !! t.
Proof.
  induction l as [|c l IH]; intros n m Ht; [done|]. cbn in *. rewrite not_elem_of_cons in Ht. destruct Ht as [Hne Ht].
  rewrite IH by done. by apply lookup_insert_ne.
Qed.
Lemma names_found l : forall n m i c, NoDup (map tableName l) -> l !! i = Some c -> names_from n l m !! tableName c = Some (n + i)%nat.
Proof.
  induction l as [|c0 l IH]; intros n m i c Hd Hi; [done|]. cbn in Hd. apply NoDup_cons in Hd as [Hn Hd].
  destruct i as [|i]; cbn in Hi.
  - injection Hi as ->. cbn [names_from]. rewrite names_other by done. rewrite lookup_insert_eq. f_equal. lia.
  - cbn [names_from]. rewrite (IH (S n) _ i c) by done. f_equal. lia.
Qed.

(** ** Round trip *)

(** Every block of up to 2^62 bytes is given. *)
Definition memory_given : Prop := forall k n, 0 <= n <= 2 ^ 62 -> is_Some (data_malloc k n).

Lemma serialized_exact m k : material_wf m -> memory_given -> zlen (enc_material (saved_material m)) + 9 <= 2 ^ 61 ->
  serialized m k = Done (enc_material (saved_material m), MkMaterial (info m) (map sorted_content (contentsList m)) (contentsMap m)).
Proof.
  intros Hm Hmem Hz. unfold serialized.
  destruct (wp_run (Material_serialize m)
    (fun r s => r = (true, MkMaterial (info m) (map sorted_content (contentsList m)) (contentsMap m)) /\
                written (2 ^ 61) (enc_material (saved_material m)) s) (empty_serialization k)) as (r & s & Er & -> & W).
  { apply (puts_material (2 ^ 61) ltac:(lia) Hmem m Hm []); [by apply written_empty|done|done]. }
  rewrite Er. cbn [res_bind]. by rewrite (finalize_written _ _ _ W).
Qed.

Lemma saved_contents_wf m : Forall content_wf (contentsList m) -> Forall content_saved (contentsList (saved_material m)).
Proof. intros H. cbn [saved_material contentsList]. apply Forall_map. eapply Forall_impl; [exact H|]. apply saved_wf. Qed.

Lemma deserialized_exact m k pad : material_wf m -> memory_given -> Forall is_byte pad ->
  zlen (enc_material (saved_material m) ++ pad) <= 2 ^ 61 ->
  deserialized k (enc_material (saved_material m) ++ pad) new_material =
    Done (true, MkMaterial (info m) (map saved_content (contentsList m)) (names_from 0 (map saved_content (contentsList m)) ∅)).
Proof.
  intros [Hi Hc] Hmem Hb Hz. pose proof (saved_contents_wf m Hc) as Hs. unfold deserialized.
  assert (Hw : Forall is_byte (enc_material (saved_material m))).
  { apply material_bytes. eapply Forall_impl; [exact Hs|]. by intros c [? _]. }
  destruct (wp_run (Material_deserialize k new_material)
    (fun r _ => r = (true, MkMaterial (info m) (map saved_content (contentsList m)) (names_from 0 (map saved_content (contentsList m)) ∅)))
    (new_deserialization (enc_material (saved_material m) ++ pad))) as (r & s & Er & ->); [|by rewrite Er].
  apply gives_material; [done|done| |lia|by apply Forall_app|done].
  apply Hmem. unfold enc_material, enc_data, sized in Hz. rewrite !zlen_app in Hz. zlen_pos. cbn [saved_material contentsList] in *. lia.
Qed.

(** C18: Round trip of a backup: a well-formed material whose table names are distinct is
    written without error, and reading the file back, with any bytes behind what was written
    (the padding of an encrypted file), gives its parameters and its contents in their order,
    each with its pages sorted by number and without the deleted ones; each table is found by
    its name. *)
Theorem material_roundtrip m k k' pad :
  material_wf m -> NoDup (map tableName (contentsList m)) -> memory_given -> Forall is_byte pad ->
  zlen (enc_material (saved_material m) ++ pad) + 9 <= 2 ^ 61 ->
  exists data m1 m2,
    serialized m k = Done (data, m1) /\
    deserialized k' (data ++ pad) new_material = Done (true, m2) /\
    info m2 = info m /\ contentsList m2 = map saved_content (contentsList m) /\
    forall i c, contentsList m2 !! i = Some c -> contentsMap m2 !! tableName c = Some i.
Proof.
  intros Hm Hd Hmem Hb Hz. do 3 eexists. split.
  { apply serialized_exact; [done..|]. rewrite zlen_app in Hz. zlen_pos. lia. }
  split; [apply deserialized_exact; [done..|lia]|]. cbn [info contentsList contentsMap]. split; [done|]. split; [done|].
  intros i c Hi. apply (names_found _ 0); [|done]. by rewrite List.map_map.
Qed.
End material.
