(* ===== verification/MaterialSafe.v ===== *)
(** * Backup material: reading arbitrary bytes

    The loader ends on every input, and the only faults it can meet come from a size or a count
    in the data that is too large. *)

From stdpp Require Import gmap sorting.
From S2P Require Import Prelude CLib Varint Serial SerialVarint SerialFacts SerialSafe Material.

Section safe.
Context `{DA : DataAlloc} `{ZL : Crc} (d : list Z) (Hd : Forall is_byte d).

(** A size that wraps around, or a number of pages that is negative as an [int]. *)
Definition bad_size (f : fault) : Prop :=
  (f = OutOfBounds /\ has_varint d (fun v => 2 ^ 62 <= v)) \/ (f = Uncaught /\ has_varint d (fun v => s32 v < 0)).

Lemma bad_huge : has_varint d (fun v => 2 ^ 62 <= v) -> bad_size OutOfBounds.
Proof. by left. Qed.

Lemma part_bytes l : part d l -> Forall is_byte l.
Proof. intros (x & y & E). rewrite E, !Forall_app in Hd. apply Hd. Qed.

Section part.
Context (b : list Z) (Hpart : part d b) (Hsmall : zlen b < 2 ^ 61).
Let Hbytes : Forall is_byte b := part_bytes b Hpart.
Ltac weaken H := eapply left_weaken; [exact H|unfold Info_size in *; lia..].

(** Steps of reading. *)
Lemma safe_4 ver lo hi s Q : left_ b ver lo hi s -> 4 <= lo -> (forall v s', left_ b ver (lo - 4) hi s' -> Q v s') ->
  pwp bad_size advance4BytesUInt Q s.
Proof. intros L H HQ. apply (pwp_advance4 _ b Hbytes _ _ _ _ _ L H). intros v s' _ L'. apply HQ. weaken L'. Qed.
Lemma safe_varint ver lo hi s Q : left_ b ver lo hi s -> Q (0, 0) s ->
  (forall n v s', 0 < n -> has_varint d (fun u => u = v) -> left_ b ver 0 (hi - 1) s' -> Q (n, v) s') -> pwp bad_size advanceVarint Q s.
Proof. intros L HN HQ. apply (pwp_advanceVarint d _ b Hpart Hbytes _ _ _ _ _ L HN). intros n v s' Hn _ Hv L'. by apply HQ. Qed.
Lemma safe_string ver lo hi s Q : left_ b ver lo hi s -> Q (0, []) s ->
  (forall n x s', 0 < n -> left_ b ver 0 (hi - 1) s' -> Q (n, x) s') -> pwp bad_size advanceSizedString Q s.
Proof. by apply (pwp_advanceSizedString d _ bad_huge). Qed.

Lemma safe_info ver hi s i : left_ b ver 0 hi s -> pwp bad_size (Info_deserialize i) (fun _ s' => left_ b ver 0 hi s') s.
Proof.
  intros L. unfold Info_deserialize. apply pwp_bind_gets. destruct (canAdvance s _) eqn:E; cbn [negb]; [|by apply pwp_ret].
  apply (left_check b _ _ _ _ _ L) in E; [|done].
  apply pwp_bind, (safe_4 _ _ _ _ _ E); [done|]. intros v1 s1 L1. apply pwp_bind, (safe_4 _ _ _ _ _ L1); [done|]. intros v2 s2 L2.
  apply pwp_bind, (safe_4 _ _ _ _ _ L2); [done|]. intros v3 s3 L3. apply pwp_bind, (safe_4 _ _ _ _ _ L3); [done|]. intros v4 s4 L4.
  apply pwp_bind, (safe_4 _ _ _ _ _ L4); [done|]. intros v5 s5 L5. apply pwp_bind_gets. 
  assert (L5' : left_ b ver 0 hi s5) by (weaken L5).
  destruct (version <=? _); [|by apply pwp_ret]. destruct (canAdvance s5 _) eqn:E5; cbn [negb]; [|by apply pwp_ret].
  apply (left_check b _ _ _ _ _ L5') in E5; [|done]. apply pwp_bind, (safe_4 _ _ _ _ _ E5); [done|]. intros v6 s6 L6.
  apply pwp_ret. weaken L6.
Qed.

Lemma safe_sqls ver n : forall hi acc s, left_ b ver 0 hi s -> pwp bad_size (get_sqls n acc) (fun _ s' => left_ b ver 0 hi s') s.
Proof.
  induction n as [|n IH]; intros hi acc s L; cbn [get_sqls]; [by apply pwp_ret|].
  apply pwp_bind, (safe_string _ _ _ _ _ L); [by apply pwp_ret|]. intros k x s' Hk L'. cbv beta iota.
  assert (L2 : left_ b ver 0 hi s') by (weaken L'). destruct (_ || _); [by apply pwp_ret|]. by apply IH.
Qed.

Lemma safe_pages ver n : forall hi pre acc s, left_ b ver 0 hi s -> pwp bad_size (get_pages n pre acc) (fun _ s' => left_ b ver 0 hi s') s.
Proof.
  induction n as [|n IH]; intros hi pre acc s L; cbn [get_pages]; [by apply pwp_ret|].
  apply pwp_bind, (safe_varint _ _ _ _ _ L); [by apply pwp_ret|]. intros k v s' Hk _ L'. cbv beta iota.
  assert (L2 : left_ b ver 0 hi s') by (weaken L'). destruct (k =? 0); [by apply pwp_ret|].
  apply pwp_bind_gets. destruct (canAdvance s' 4) eqn:E; cbn [negb]; [|by apply pwp_ret].
  apply (left_check b _ _ _ _ _ L2) in E; [|done]. apply pwp_bind, (safe_4 _ _ _ _ _ E); [done|]. intros v4 s4 L4.
  destruct (version <=? _); apply IH; weaken L4.
Qed.

Lemma safe_content ver hi s c : left_ b ver 0 hi s ->
  pwp bad_size (Content_deserialize c) (fun r s' => r.1 = true -> left_ b ver 0 (hi - 1) s') s.
Proof.
  intros L. unfold Content_deserialize. apply pwp_bind, (safe_string _ _ _ _ _ L); [by apply pwp_ret|].
  intros n1 table s1 Hn1 L1. cbv beta iota. destruct (_ || _); [by apply pwp_ret|]. apply pwp_bind_gets.
  apply pwp_bind. apply (pwp_mono _ _ (fun r s' => r.1 = true -> left_ b ver 0 (hi - 1) s')).
  { destruct (version <=? _); [|by apply pwp_ret]. apply pwp_bind, (safe_varint _ _ _ _ _ L1); [by apply pwp_ret|].
    intros n v s2 Hn _ L2. cbv beta iota. destruct (n =? 0); [by apply pwp_ret|]. apply pwp_ret. intros _. weaken L2. }
  intros [ok c1] s2 L2. cbn [fst] in L2. destruct ok; cbn [negb]; [|by apply pwp_ret]. specialize (L2 eq_refl).
  apply pwp_bind, (safe_varint _ _ _ _ _ L2); [by apply pwp_ret|]. intros n3 v3 s3 Hn3 _ L3. cbv beta iota.
  destruct (n3 =? 0); [by apply pwp_ret|].
  apply pwp_bind, (safe_string _ _ _ _ _ L3); [by apply pwp_ret|]. intros n4 q s4 Hn4 L4. cbv beta iota.
  destruct (_ || _); [by apply pwp_ret|].
  apply pwp_bind, (safe_varint _ _ _ _ _ L4); [by apply pwp_ret|]. intros n5 v5 s5 Hn5 _ L5. cbv beta iota.
  destruct (n5 =? 0); [by apply pwp_ret|].
  apply pwp_bind. eapply pwp_mono; [by apply safe_sqls|]. intros [ok sqls] s6 L6. cbn beta iota.
  destruct ok; cbn [negb]; [|by apply pwp_ret].
  apply pwp_bind, (safe_varint _ _ _ _ _ L6); [by apply pwp_ret|]. intros n7 v7 s7 Hn7 Hv7 L7. cbv beta iota.
  destruct (n7 =? 0); [by apply pwp_ret|]. cbv zeta. destruct (s32 v7 <? 0) eqn:E.
  { apply pwp_fail. right. split; [done|]. destruct Hv7 as (i & v & n & Hv & ->). exists i, v7, n. split; [done|lia]. }
  apply pwp_bind. eapply pwp_mono; [by apply safe_pages|]. intros [ok pages] s8 L8. apply pwp_ret. intros _. weaken L8.
Qed.

Lemma safe_contents ver fuel : forall hi cs map s, left_ b ver 0 hi s -> hi < Z.of_nat fuel ->
  pwp bad_size (deserialize_contents fuel cs map) (fun _ _ => True) s.
Proof.
  induction fuel as [|fuel IH]; intros hi cs map s L Hf; cbn [deserialize_contents].
  { pose proof (left_nonneg _ _ _ _ _ L). lia. }
  apply pwp_bind_gets. destruct (ended s); [by apply pwp_ret|].
  apply pwp_bind. eapply pwp_mono; [by apply safe_content|]. intros [ok c] s' L'. cbn [fst] in L'. cbv beta iota.
  destruct ok; cbn [negb]; [|by apply pwp_ret]. specialize (L' eq_refl). apply (IH (hi - 1)); [done|lia].
Qed.

(** The data that is copied is in the file. *)
Lemma safe_data ver hi s k : left_ b ver 0 hi s ->
  pwp bad_size (deserializeData k) (fun r _ => forall x, r = Some x -> part d x /\ zlen x <= zlen b) s.
Proof.
  intros L. unfold deserializeData. apply pwp_bind_gets. destruct (canAdvance s 4) eqn:E; cbn [negb]; [|by apply pwp_ret].
  apply (left_check b _ _ _ _ _ L) in E; [|done]. destruct (left_state b _ _ _ _ L) as [_ Hs].
  apply pwp_bind, (safe_4 _ _ _ _ _ E); [done|]. intros sum s1 L1.
  assert (Hnil : part d [] /\ zlen (@nil Z) <= zlen b) by (split; [exists [], d; done|rewrite zlen_nil; zlen_pos; lia]).
  apply pwp_bind, (pwp_advanceSizedData d _ bad_huge b Hpart Hbytes Hsmall _ _ _ _ _ L1); [by apply pwp_ret|..].
  - intros n w x r s2 Hn Hb. cbv beta iota. destruct (n =? 0); [by apply pwp_ret|]. destruct (zlen x =? 0); cbn [negb].
    { destruct (negb _); apply pwp_ret; [done|]. by intros y [= <-]. }
    assert (Hx : part d x /\ zlen x <= zlen b).
    { split; [by apply (part_trans d x b w r)|]. rewrite Hb, !zlen_app. zlen_pos. lia. }
    destruct (data_malloc k _).
    + rewrite Hs. eapply pwp_bind_lift_res; [rewrite Hb; by apply zread_n_app|].
      destruct (negb _); apply pwp_ret; [done|]. by intros y [= <-].
    + eapply pwp_bind_lift_res; [done|]. destruct (negb _); apply pwp_ret; [done|]. by intros y [= <-].
  - intros n off size s2 HE Hz. cbv beta iota. destruct (n =? 0); [by apply pwp_ret|]. zlen_pos.
    rewrite (proj2 (Z.eqb_neq size 0)) by lia. cbn [negb]. destruct (data_malloc k _).
    + rewrite Hs. replace (zread_n b off size) with (@Stuck (list Z) OutOfBounds); [done|].
      unfold zread_n, in_range. destruct (0 <=? off) eqn:Eo; [|done].
      by rewrite (proj2 (Z.leb_gt (off + size) (zlen b))), andb_false_r by lia.
    + eapply pwp_bind_lift_res; [done|]. destruct (negb _); apply pwp_ret; [done|]. by intros y [= <-].
Qed.
End part.

Lemma safe_material k m : zlen d < 2 ^ 61 -> pwp bad_size (Material_deserialize k m) (fun _ _ => True) (new_deserialization d).
Proof.
  intros Hz. unfold Material_deserialize. pose proof (part_all d) as Hp. apply pwp_bind_gets.
  pose proof (left_new d Hz 0 : left_ d 0 0 (zlen d) (new_deserialization d)) as L.
  destruct (canAdvance _ _) eqn:E; cbn [negb]; [|by apply pwp_ret]. apply (left_check d _ _ _ _ _ L) in E; [|done].
  apply pwp_bind, (safe_4 d Hp _ _ _ _ _ E); [done|]. intros v1 s1 L1.
  apply pwp_bind, (safe_4 d Hp _ _ _ _ _ L1); [done|]. intros ver s2 L2.
  destruct (negb (v1 =? magic)); [by apply pwp_ret|]. destruct (_ && _); [by apply pwp_ret|]. apply pwp_bind_modify.
  assert (L3 : left_ d ver 0 (zlen d) (Deser (d_data s2) (d_cursor s2) ver)).
  { destruct L2 as (w & l & [-> Hr] & Hd2 & Hl). exists w, l. unfold headerSize in Hl. split_and!; (done || lia). }
  apply pwp_bind. eapply pwp_mono; [by eapply (safe_info d Hp)|]. intros [ok i] s4 L4. cbv beta iota.
  destruct ok; cbn [negb]; [|by apply pwp_ret]. apply pwp_bind. eapply pwp_mono; [by eapply (safe_data d Hp Hz)|].
  intros [x|] s5 Hx; [|by apply pwp_ret]. destruct (Hx x eq_refl) as [Hpx Hzx]. clear Hx. assert (Hzx' : zlen x < 2 ^ 61) by lia.
  pose proof (safe_contents x Hpx Hzx' ver (S (length x)) (zlen x) (contentsList m) (contentsMap m) _ (left_new x Hzx' ver)) as HC.
  unfold pwp, bind, lift_res in *. cbn [contentsList contentsMap]. 
  destruct (deserialize_contents _ _ _ _) as [[[[ok' cs] mp] sx]|f]; [done|]. apply HC. unfold zlen. lia.
Qed.
End safe.

(** C20: Reading arbitrary bytes: the loader of a backup ends on every input and never runs out
    of turns.  It meets a fault only if some varint of the data is at least 2^62, so that the
    end of what a size announces may wrap around, or has bit 31 set, so that a number of pages
    is negative as an [int] and [reserve] throws. *)
Theorem material_load_safe `{DA : DataAlloc} `{ZL : Crc} d k m :
  Forall is_byte d -> zlen d < 2 ^ 61 ->
  match deserialized k d m with
  | Done _ => True
  | Stuck f =>
    (f = OutOfBounds /\ has_varint d (fun v => 2 ^ 62 <= v)) \/ (f = Uncaught /\ has_varint d (fun v => s32 v < 0))
  end.
Proof.
  intros Hb Hz. pose proof (safe_material d Hb k m Hz) as H. unfold deserialized, pwp in *.
  by destruct (Material_deserialize k m _) as [[r s]|f].
Qed.

(** Sizes and counts are not checked before they are used.  A name whose size is 2^64-1: the end
    of it wraps around and passes the check, and the copy reads outside the data.  A number of
    pages of 2^31 is negative as an [int], and [reserve] throws. *)
Lemma content_sizes_unchecked `{DA : DataAlloc} `{ZL : Crc} c :
  Content_deserialize c (Deser (replicate 9 255) 0 version) = Stuck OutOfBounds /\
  Content_deserialize c (Deser ([1; 97; 1; 0; 1; 115; 0] ++ sqlite_varint (2 ^ 31)) 0 version) = Stuck Uncaught.
Proof. done. Qed.
