(* ===== verification/IncMaterial.v ===== *)
(** * Incremental backup material (repair/mechanic/IncrementalMaterial.cpp)

    What changed since the last backup: the pages a checkpoint has written, each with its type
    and, where it was computed, its checksum, and the state of the write-ahead log.

    The pages are a [std::unordered_map]; the order in which it is walked is a parameter.
    [char] is signed.  Reading goes on after two of the checks that data is left, so those reads
    are faults where nothing is left. *)

From stdpp Require Import gmap.
From S2P Require Import Prelude CLib Serial Material.

Record IncInfo := MkIncInfo {
  lastWalSalt : Z * Z;
  currentWalSalt : Z * Z;
  lastNBackFill : Z;
  currentNBackFill : Z;
  lastSchemaCookie : Z;
  lastCheckPointFinish : bool;
  lastBackupTime : Z;
  incrementalBackupTimes : Z
}.
(** The constructor leaves [lastNBackFill] as it finds it. *)
Definition new_inc_info (garbage : Z) : IncInfo := MkIncInfo (0, 0) (0, 0) garbage 0 0 false 0 0.

(** [type] is an [enum] over [char]. *)
Record IncPage := MkIncPage { pnumber : Z; ptype : Z; phash : Z }.
Definition new_inc_page : IncPage := MkIncPage 0 0 0.

Record IncMaterial := MkIncMaterial { inc_info : IncInfo; inc_pages : gmap Z IncPage }.

(** The order of an [unordered_map]. *)
Class HashOrder := { walk : gmap Z IncPage -> list (Z * IncPage) }.
Class HashOrderLaws (H : HashOrder) : Prop := { walk_all : forall m, Permutation (walk m) (map_to_list m) }.

Definition inc_magic : Z := 1464026177.  (* 0x57434441 *)
Definition inc_version : Z := 16777216.  (* 0x01000000 *)
Definition inc_headerSize : Z := 8.
Definition saltSize : Z := 16.

(** ** Serialization *)

Section serialize.
Context `{DA : DataAlloc} `{ZL : Crc} `{HO : HashOrder}.

(** The results of the [put]s are not looked at. *)
Definition IncInfo_serialize (i : IncInfo) : cm Serialization bool :=
  let! ok := expand saltSize in
  if negb ok then ret false
  else
    put4BytesUInt (lastWalSalt i).1 ;;;
    put4BytesUInt (lastWalSalt i).2 ;;;
    put4BytesUInt (currentWalSalt i).1 ;;;
    put4BytesUInt (currentWalSalt i).2 ;;;
    putVarint (lastNBackFill i) ;;;
    putVarint (currentNBackFill i) ;;;
    put4BytesUInt (lastSchemaCookie i) ;;;
    putVarint (if lastCheckPointFinish i then 1 else 0) ;;;
    put4BytesUInt (lastBackupTime i) ;;;
    putVarint (u64 (incrementalBackupTimes i)) ;;;
    ret true.

Definition IncPage_serialize (p : IncPage) : cm Serialization bool :=
  andb_m (put_varint_ok (pnumber p))
    (if negb (phash p =? 0)
     then andb_m (put_varint_ok (u64 (2 * ptype p + 1))) (put4BytesUInt (phash p))
     else put_varint_ok (u64 (2 * ptype p))).

Fixpoint serialize_inc_pages (l : list (Z * IncPage)) : cm Serialization bool :=
  match l with
  | [] => ret true
  | (_, p) :: l => if pnumber p =? 0 then ret false else andb_m (IncPage_serialize p) (serialize_inc_pages l)
  end.

(** The same code as that of a full backup. *)
Definition inc_serializeData (data : list Z) : cm Serialization bool := serializeData data.

Definition IncMaterial_serialize (m : IncMaterial) : cm Serialization bool :=
  let! ok := expand inc_headerSize in
  if negb ok then ret false
  else
    put4BytesUInt inc_magic ;;;
    put4BytesUInt inc_version ;;;
    let! ok := IncInfo_serialize (inc_info m) in
    if negb ok then ret false
    else
      let! k := gets s_allocs in
      let! (ok, encoder) := lift_res (serialize_inc_pages (walk (inc_pages m)) (empty_serialization k)) in
      modify (fun s => Ser (s_data s) (s_cursor s) (s_allocs encoder)) ;;;
      if negb ok then ret false
      else
        let! (data, _) := lift_res (finalize encoder) in
        inc_serializeData data.

Definition inc_serialized (m : IncMaterial) (k : nat) : res (list Z) :=
  let? (ok, s) := IncMaterial_serialize m (empty_serialization k) in
  if ok : bool then let? (data, _) := finalize s in Done data else Done [].
End serialize.

(** ** Deserialization *)

Section deserialize.
Context `{DA : DataAlloc} `{ZL : Crc}.

(** Where a step fails, the fields read before it are set. *)
Definition IncInfo_deserialize (i : IncInfo) : cm Deserialization (bool * IncInfo) :=
  let! s := gets (fun s => s) in
  if negb (canAdvance s saltSize) then ret (false, i)
  else
    let! a := advance4BytesUInt in
    let! b := advance4BytesUInt in
    let! c := advance4BytesUInt in
    let! d := advance4BytesUInt in
    let i := MkIncInfo (a, b) (c, d) (lastNBackFill i) (currentNBackFill i) (lastSchemaCookie i)
      (lastCheckPointFinish i) (lastBackupTime i) (incrementalBackupTimes i) in
    let! (len, v) := advanceVarint in
    if len =? 0 then ret (false, i)
    else
      let i := MkIncInfo (a, b) (c, d) (u32 v) (currentNBackFill i) (lastSchemaCookie i)
        (lastCheckPointFinish i) (lastBackupTime i) (incrementalBackupTimes i) in
      let! (len, v) := advanceVarint in
      if len =? 0 then ret (false, i)
      else
        let i := MkIncInfo (a, b) (c, d) (lastNBackFill i) (u32 v) (lastSchemaCookie i)
          (lastCheckPointFinish i) (lastBackupTime i) (incrementalBackupTimes i) in
        (* a failed check only reports *)
        let! v := advance4BytesUInt in
        let i := MkIncInfo (a, b) (c, d) (lastNBackFill i) (currentNBackFill i) v
          (lastCheckPointFinish i) (lastBackupTime i) (incrementalBackupTimes i) in
        let! (len, v) := advanceVarint in
        if len =? 0 then ret (false, i)
        else
          let i := MkIncInfo (a, b) (c, d) (lastNBackFill i) (currentNBackFill i) (lastSchemaCookie i)
            (negb (v =? 0)) (lastBackupTime i) (incrementalBackupTimes i) in
          (* a failed check only reports *)
          let! v := advance4BytesUInt in
          let i := MkIncInfo (a, b) (c, d) (lastNBackFill i) (currentNBackFill i) (lastSchemaCookie i)
            (lastCheckPointFinish i) v (incrementalBackupTimes i) in
          let! (len, v) := advanceVarint in
          if len =? 0 then ret (false, i)
          else
            ret (true, MkIncInfo (a, b) (c, d) (lastNBackFill i) (currentNBackFill i) (lastSchemaCookie i)
              (lastCheckPointFinish i) (lastBackupTime i) (s32 v)).

Definition IncPage_deserialize (p : IncPage) : cm Deserialization (bool * IncPage) :=
  let! (len, no) := advanceVarint in
  if len =? 0 then ret (false, p)
  else
    let p := MkIncPage (u32 no) (ptype p) (phash p) in
    let! (len, v) := advanceVarint in
    if len =? 0 then ret (false, p)
    else
      let p := MkIncPage (pnumber p) (s8 (v / 2)) (phash p) in
      if v mod 2 =? 1 then
        let! s := gets (fun s => s) in
        if negb (canAdvance s 4) then ret (false, p)
        else let! h := advance4BytesInt in ret (true, MkIncPage (pnumber p) (ptype p) (u32 h))
      else ret (true, p).

Fixpoint deserialize_inc_pages (fuel : nat) (pages : gmap Z IncPage) : cm Deserialization (bool * gmap Z IncPage) :=
  match fuel with
  | O => fail OutOfFuel
  | S fuel =>
    let! s := gets (fun s => s) in
    if ended s then ret (true, pages)
    else
      let! (ok, page) := IncPage_deserialize new_inc_page in
      if negb ok then ret (false, pages)
      else deserialize_inc_pages fuel (<[pnumber page := page]> pages)
  end.

(** The same code as that of a full backup. *)
Definition inc_deserializeData (k : nat) : cm Deserialization (option (list Z)) := deserializeData k.

Definition IncMaterial_deserialize (k : nat) (m : IncMaterial) : cm Deserialization (bool * IncMaterial) :=
  let! s := gets (fun s => s) in
  if negb (canAdvance s inc_headerSize) then ret (false, m)
  else
    let! magicValue := advance4BytesUInt in
    let! versionValue := advance4BytesUInt in
    if negb (magicValue =? inc_magic) then ret (false, m)
    else if negb (versionValue =? 16777216) then ret (false, m)
    else
      setDataVersion versionValue ;;;
      let! (ok, i) := IncInfo_deserialize (inc_info m) in
      let m := MkIncMaterial i (inc_pages m) in
      if negb ok then ret (false, m)
      else
        let! data := inc_deserializeData k in
        match data with
        | None => ret (false, m)
        | Some data =>
          let! (ok, pages, _) :=
            lift_res (deserialize_inc_pages (S (length data)) (inc_pages m) (Deser data 0 versionValue)) in
          ret (ok, MkIncMaterial i pages)
        end.

Definition inc_deserialized (k : nat) (data : list Z) (m : IncMaterial) : res (bool * IncMaterial) :=
  let? (r, _) := IncMaterial_deserialize k m (new_deserialization data) in Done r.
End deserialize.
