(* ===== verification/IncProps.v ===== *)
(** * Incremental backup material: properties *)

From stdpp Require Import gmap sorting.
From S2P Require Import Prelude CLib Varint Serial SerialVarint SerialFacts Material MaterialFacts MaterialProps IncMaterial.

(** ** The format *)

Definition enc_inc_info (i : IncInfo) : list Z :=
  be4 (lastWalSalt i).1 ++ be4 (lastWalSalt i).2 ++ be4 (currentWalSalt i).1 ++ be4 (currentWalSalt i).2 ++
  sqlite_varint (lastNBackFill i) ++ sqlite_varint (currentNBackFill i) ++ be4 (lastSchemaCookie i) ++
  sqlite_varint (if lastCheckPointFinish i then 1 else 0) ++ be4 (lastBackupTime i) ++
  sqlite_varint (u64 (incrementalBackupTimes i)).

(** The lowest bit of the type says whether a checksum follows. *)
Definition enc_inc_page (p : IncPage) : list Z :=
  sqlite_varint (pnumber p) ++
  (if negb (phash p =? 0) then sqlite_varint (2 * ptype p + 1) ++ be4 (phash p) else sqlite_varint (2 * ptype p)).

Definition enc_inc_pages (l : list (Z * IncPage)) : list Z := concat (map (fun kp => enc_inc_page kp.2) l).

Definition inc_info_wf (i : IncInfo) : Prop :=
  is_u32 (lastWalSalt i).1 /\ is_u32 (lastWalSalt i).2 /\ is_u32 (currentWalSalt i).1 /\ is_u32 (currentWalSalt i).2 /\
  is_u32 (lastNBackFill i) /\ is_u32 (currentNBackFill i) /\ is_u32 (lastSchemaCookie i) /\ is_u32 (lastBackupTime i) /\
  - 2 ^ 31 <= incrementalBackupTimes i < 2 ^ 31.
Definition inc_page_wf (k : Z) (p : IncPage) : Prop :=
  pnumber p = k /\ 0 < k < 2 ^ 32 /\ 0 <= ptype p < 128 /\ is_u32 (phash p).
Definition inc_wf (m : IncMaterial) : Prop := inc_info_wf (inc_info m) /\ map_Forall inc_page_wf (inc_pages m).

Section inc.
Context `{DA : DataAlloc} {DL : DataAllocLaws DA} `{ZL : Crc} {ZLL : CrcLaws ZL} `{HO : HashOrder} {HOL : HashOrderLaws HO}.

Definition enc_inc (m : IncMaterial) : list Z :=
  be4 inc_magic ++ be4 inc_version ++ enc_inc_info (inc_info m) ++ enc_data (enc_inc_pages (walk (inc_pages m))).

Definition page_list_wf (l : list (Z * IncPage)) : Prop := Forall (fun kp => inc_page_wf kp.1 kp.2) l.

Lemma walk_wf m : inc_wf m -> page_list_wf (walk (inc_pages m)).
Proof.
  intros [_ Hm]. unfold page_list_wf. rewrite walk_all. apply Forall_forall. intros [k p] Hk%elem_of_map_to_list. by apply Hm.
Qed.

(** ** Writing *)

Section write.
Variable B : Z.
Hypothesis B_small : 0 <= B <= 2 ^ 61.
Hypothesis memory : forall k n, 0 <= n <= 2 * B -> is_Some (data_malloc k n).

Lemma puts_raw_varint v : 0 <= v < 2 ^ 64 -> puts B (putVarint v) (sqlite_varint v) (zlen (sqlite_varint v)).
Proof.
  intros Hv w s Q W HB HQ. apply (wp_putVarint B B_small memory w); [done..| |done]. rewrite zlen_app in HB. zlen_pos. lia.
Qed.

Lemma puts_inc_info i : inc_info_wf i -> puts B (IncInfo_serialize i) (enc_inc_info i) true.
Proof.
  intros (H1 & H2 & H3 & H4 & H5 & H6 & H7 & H8 & H9). unfold is_u32 in *.
  apply puts_expand_first; [done..| |]. { unfold enc_inc_info. rewrite !zlen_app, !zlen_be4. unfold saltSize. zlen_pos. lia. }
  cbn [negb]. unfold enc_inc_info. do 4 (eapply puts_bind; [by apply puts_put4|]).
  do 2 (eapply puts_bind; [apply puts_raw_varint; lia|]). eapply puts_bind; [by apply puts_put4|].
  eapply puts_bind; [apply puts_raw_varint; destruct (lastCheckPointFinish i); lia|]. eapply puts_bind; [by apply puts_put4|].
  eapply puts_then; [apply puts_raw_varint, Z.mod_pos_bound; lia|apply puts_ret].
Qed.

Lemma puts_inc_page k p : inc_page_wf k p -> puts B (IncPage_serialize p) (enc_inc_page p) true.
Proof.
  intros (H1 & H2 & H3 & H4). unfold IncPage_serialize, enc_inc_page, is_u32 in *. unfold u64.
  rewrite !Z.mod_small by lia.
  apply puts_andb; [apply puts_varint; (done || lia)|].
  destruct (negb _); [apply puts_andb; [apply puts_varint; (done || lia)|by apply puts_put4]|apply puts_varint; (done || lia)].
Qed.

Lemma puts_inc_pages l : page_list_wf l -> puts B (serialize_inc_pages l) (enc_inc_pages l) true.
Proof.
  induction 1 as [|[k p] l Hp _ IH]; [apply puts_ret|]. cbn [serialize_inc_pages]. pose proof Hp as (H1 & H2 & _). cbn [fst snd] in *.
  rewrite (proj2 (Z.eqb_neq _ _)) by lia. apply puts_andb; [by apply (puts_inc_page k)|done].
Qed.

Lemma puts_inc m : inc_wf m -> puts B (IncMaterial_serialize m) (enc_inc m) true.
Proof.
  intros Hm. pose proof Hm as [Hi _]. unfold IncMaterial_serialize, enc_inc.
  apply puts_expand_first; [done..| |]. { rewrite !zlen_app, !zlen_be4. unfold inc_headerSize. zlen_pos. lia. }
  cbn [negb]. do 2 (eapply puts_bind; [by apply puts_put4|]). eapply puts_bind; [by apply puts_inc_info|]. cbn [negb].
  set (e := enc_inc_pages (walk (inc_pages m))). intros w s Q W HB HQ. apply wp_bind_gets.
  assert (HB' : zlen e + 9 <= B) by (unfold enc_data, sized in HB; rewrite !zlen_app in HB; zlen_pos; lia).
  destruct (wp_run (serialize_inc_pages (walk (inc_pages m))) (fun r s' => r = true /\ written B e s')
    (empty_serialization (s_allocs s))) as (r & se & Er & -> & We).
  { by apply (puts_inc_pages _ (walk_wf m Hm) []); [apply written_empty; lia| |]. }
  eapply wp_bind_lift_res; [exact Er|]. apply wp_bind_modify. cbn [negb].
  rewrite (finalize_written _ _ _ We). eapply wp_bind_lift_res; [done|].
  apply (puts_data B B_small memory e w); [|done..].
  destruct W as (junk & Hd & Hcur & Hz). by exists junk.
Qed.
End write.

(** ** Reading *)

Lemma s8_byte p : is_byte p -> (s8 p) mod 256 = p.
Proof.
  intros Hp. unfold is_byte in Hp. unfold s8, wrap_s. change (2 ^ (8 - 1)) with 128. change (2 ^ 8) with 256.
  rewrite Zminus_mod_idemp_l. replace (p + 128 - 128) with p by lia. by apply Z.mod_small.
Qed.
Lemma signed_value p0 p1 p2 p3 : Forall is_byte [p0; p1; p2; p3] ->
  u32 (Z.lor (Z.lor (Z.lor (16777216 * s8 p0) (Z.shiftl p1 16)) (Z.shiftl p2 8)) p3) = be_value p0 p1 p2 p3.
Proof.
  rewrite !Forall_cons. intros (H0 & H1 & H2 & H3 & _).
  replace (16777216 * s8 p0) with (Z.shiftl (s8 p0) 24) by (rewrite Z.shiftl_mul_pow2; lia). rewrite be_lor by done.
  pose proof (s8_byte p0 H0) as Hs. pose proof (Z.div_mod (s8 p0) 256 ltac:(lia)) as Hd. unfold be_value, is_byte, u32 in *.
  symmetry. apply Z.mod_unique with (s8 p0 / 256); lia.
Qed.

Lemma gives_signed ver v : is_u32 v -> forall w l s Q, reads ver w (be4 v ++ l) s ->
  (forall s' h, u32 h = v -> reads ver (w ++ be4 v) l s' -> Q h s') -> wp advance4BytesInt Q s.
Proof.
  intros Hv w l s Q R HQ. unfold advance4BytesInt, advance_fixed. apply wp_bind_gets. eapply wp_bind_lift_res.
  { destruct R as [-> _]. unfold get4BytesInt, be4. cbn [d_data d_cursor app].
    rewrite (read_suffix _ _ _ 0 (u8 (Z.shiftr v 24))), (read_suffix _ _ _ 1 (u8 (Z.shiftr v 16))),
      (read_suffix _ _ _ 2 (u8 (Z.shiftr v 8))), (read_suffix _ _ _ 3 (u8 v)) by (reflexivity || lia). reflexivity. }
  apply wp_bind, (wp_de_advance _ _ _ _ _ _ _ R); [done|]. intros s' R'. apply wp_ret, HQ; [|done].
  rewrite signed_value by apply (be4_bytes v). by apply be4_value.
Qed.

Lemma gives_inc_info i i' : inc_info_wf i -> gives inc_version (IncInfo_deserialize i') (enc_inc_info i) (true, i).
Proof.
  intros (H1 & H2 & H3 & H4 & H5 & H6 & H7 & H8 & H9). unfold IncInfo_deserialize, enc_inc_info.
  assert (H5' := H5). assert (H6' := H6). unfold is_u32 in H5', H6'.
  apply gives_check. { rewrite !zlen_app, !zlen_be4. unfold saltSize. zlen_pos. lia. } intros s _.
  do 4 (eapply gives_bind; [by apply gives_4|]).
  do 2 (eapply gives_bind; [apply gives_varint; lia|]; cbv beta iota; rewrite varint_some).
  eapply gives_bind; [by apply gives_4|].
  eapply gives_bind; [apply gives_varint; destruct (lastCheckPointFinish i); lia|]. cbv beta iota. rewrite varint_some.
  eapply gives_bind; [by apply gives_4|].
  eapply gives_then; [apply gives_varint, Z.mod_pos_bound; lia|]. cbv beta iota. rewrite varint_some. cbn.
  unfold u32. rewrite !Z.mod_small by lia.
  replace (s32 (u64 (incrementalBackupTimes i))) with (incrementalBackupTimes i).
  - replace (negb ((if lastCheckPointFinish i then 1 else 0) =? 0)) with (lastCheckPointFinish i) by (by destruct (lastCheckPointFinish i)).
    destruct i as [[? ?] [? ?] ? ? ? ? ? ?]. apply gives_ret.
  - unfold s32, wrap_s, u64. rewrite Zplus_mod, Z.mod_mod_divide by (exists (2 ^ 32); done). rewrite <- Zplus_mod, Z.mod_small; lia.
Qed.

Lemma gives_inc_page k p : inc_page_wf k p -> gives inc_version (IncPage_deserialize new_inc_page) (enc_inc_page p) (true, p).
Proof.
  intros (H1 & H2 & H3 & H4). unfold IncPage_deserialize, enc_inc_page.
  eapply gives_bind; [apply gives_varint; lia|]. cbv beta iota. rewrite varint_some. cbv zeta.
  assert (Hn : u32 (pnumber p) = pnumber p) by (apply Z.mod_small; lia). rewrite Hn.
  assert (Ht : s8 (ptype p) = ptype p) by (apply wrap_s_small; lia).
  destruct (phash p =? 0) eqn:E; cbn [negb].
  - eapply gives_then; [apply gives_varint; lia|]. cbv beta iota. rewrite varint_some.
    rewrite (Z.mul_comm 2), Z.div_mul, Ht, Z.mod_mul by lia. cbn. 
    replace 0 with (phash p) by lia. destruct p. apply gives_ret.
  - eapply gives_bind; [apply gives_varint; lia|]. cbv beta iota. rewrite varint_some.
    replace ((2 * ptype p + 1) / 2) with (ptype p) by (apply Z.div_unique with 1; lia).
    replace ((2 * ptype p + 1) mod 2) with 1 by (apply Z.mod_unique with (ptype p); lia). rewrite Ht. cbn [Z.eqb Pos.eqb pnumber ptype phash new_inc_page].
    rewrite <- (app_nil_r (be4 _)). apply gives_check; [done|]. intros s _. rewrite app_nil_r.
    intros w l s0 Q R Hb Hl HQ. apply wp_bind, (gives_signed _ _ H4 _ _ _ _ R). intros s' h Hh R'. apply wp_ret. rewrite Hh.
    destruct p. by apply HQ.
Qed.

(** The pages that are read go into the map one after the other. *)
Definition add_pages (l : list (Z * IncPage)) (m : gmap Z IncPage) : gmap Z IncPage :=
  fold_left (fun m kp => <[pnumber kp.2 := kp.2]> m) l m.

Lemma enc_inc_page_nonempty p : enc_inc_page p <> [].
Proof.
  intros [E _]%app_nil. pose proof (varint_length (pnumber p)) as H. by rewrite E in H.
Qed.

Lemma gives_inc_pages l : forall fuel m w s Q, (length (enc_inc_pages l) < fuel)%nat -> page_list_wf l ->
  reads inc_version w (enc_inc_pages l) s -> Forall is_byte (enc_inc_pages l) -> zlen (enc_inc_pages l) < 2 ^ 62 ->
  (forall s', Q (true, add_pages l m) s') -> wp (deserialize_inc_pages fuel m) Q s.
Proof.
  induction l as [|[k p] l IH]; intros [|fuel] m w s Q Hf Hl R Hb Hz HQ; try lia; cbn [deserialize_inc_pages];
    apply wp_bind_gets; rewrite (ended_reads _ _ _ _ R).
  { rewrite bool_decide_true by done. by apply wp_ret. }
  unfold enc_inc_pages in *. cbn [map concat snd] in *. apply Forall_cons in Hl as [Hp Hl].
  rewrite bool_decide_false by (intros [E _]%app_nil; by apply (enc_inc_page_nonempty p)).
  apply wp_bind, (gives_inc_page k p Hp w _ s _ R Hb Hz). intros s1 R1. cbn [negb].
  eapply (IH fuel); [|done|exact R1| | |done].
  - rewrite length_app in Hf. pose proof (enc_inc_page_nonempty p). destruct (enc_inc_page p); [done|]. cbn in Hf. lia.
  - by apply Forall_app in Hb as [_ Hb].
  - rewrite zlen_app in Hz. zlen_pos. lia.
Qed.

Lemma add_pages_other k l : forall m, page_list_wf l -> k ∉ l.*1 -> add_pages l m !! k = m !! k.
Proof.
  induction l as [|[k' p] l IH]; intros m Hl Hk; [done|]. apply Forall_cons in Hl as [[Hp _] Hl]. cbn [fst snd] in *.
  rewrite fmap_cons, not_elem_of_cons in Hk. destruct Hk as [Hne Hk]. cbn [add_pages fold_left snd].
  rewrite (IH _ Hl Hk), Hp. by apply lookup_insert_ne.
Qed.
Lemma add_pages_found k p l : forall m, page_list_wf l -> NoDup l.*1 -> (k, p) ∈ l -> add_pages l m !! k = Some p.
Proof.
  induction l as [|[k' p'] l IH]; intros m Hl Hd Hk; [by apply elem_of_nil in Hk|].
  rewrite fmap_cons in Hd. apply NoDup_cons in Hd as [Hn Hd]. apply Forall_cons in Hl as [[Hp _] Hl]. cbn [fst snd] in *.
  cbn [add_pages fold_left snd]. apply elem_of_cons in Hk as [[= -> ->]|Hk]; [|by apply IH].
  rewrite (add_pages_other _ _ _ Hl Hn), Hp. apply lookup_insert_eq.
Qed.

Lemma add_walk m : inc_wf m -> add_pages (walk (inc_pages m)) ∅ = inc_pages m.
Proof.
  intros Hm. pose proof (walk_wf m Hm) as Hl. pose proof (walk_all (inc_pages m)) as Hw. apply map_eq. intros k.
  destruct (inc_pages m !! k) as [p|] eqn:E.
  - apply add_pages_found; [done| |].
    + rewrite Hw. apply NoDup_fst_map_to_list.
    + rewrite Hw. by apply elem_of_map_to_list.
  - rewrite add_pages_other, lookup_empty; [done..|]. rewrite Hw. intros ([k' p] & -> & Hin)%list_elem_of_fmap.
    apply elem_of_map_to_list in Hin. cbn in *. congruence.
Qed.

Lemma run_inc_pages l m : page_list_wf l -> Forall is_byte (enc_inc_pages l) -> zlen (enc_inc_pages l) < 2 ^ 62 ->
  exists s, deserialize_inc_pages (S (length (enc_inc_pages l))) m (Deser (enc_inc_pages l) 0 inc_version) = Done (true, add_pages l m, s).
Proof.
  intros Hl Hb Hz. destruct (wp_run (deserialize_inc_pages (S (length (enc_inc_pages l))) m)
    (fun r _ => r = (true, add_pages l m)) (Deser (enc_inc_pages l) 0 inc_version)) as (r & s & Er & ->); [|by exists s].
  apply (gives_inc_pages l _ m []); [apply Nat.lt_succ_diag_r|done|split; [done|cbn [app]; lia]|done..].
Qed.

Lemma gives_inc k m m' l Q : inc_wf m -> is_Some (data_malloc k (zlen (enc_inc_pages (walk (inc_pages m))))) ->
  zlen (enc_inc m ++ l) < 2 ^ 62 -> Forall is_byte (enc_inc m ++ l) ->
  (forall s', Q (true, MkIncMaterial (inc_info m) (add_pages (walk (inc_pages m)) (inc_pages m'))) s') ->
  wp (IncMaterial_deserialize k m') Q (new_deserialization (enc_inc m ++ l)).
Proof.
  intros Hm Hk Hl Hb HQ. pose proof Hm as [Hi _].
  assert (R : reads 0 [] (enc_inc m ++ l) (new_deserialization (enc_inc m ++ l))) by (split; [done|cbn [app]; lia]).
  revert R. generalize (new_deserialization (enc_inc m ++ l)). unfold enc_inc in *. rewrite <- !app_assoc in *.
  intros s R. unfold IncMaterial_deserialize. apply wp_bind_gets. rewrite (canAdvance_reads _ _ _ _ _ R) by done.
  rewrite !zlen_app, !zlen_be4, (proj2 (Z.leb_le _ _)) by (unfold inc_headerSize; zlen_pos; lia). cbn [negb].
  apply wp_bind, (gives_4 _ inc_magic ltac:(done) _ _ _ _ R Hb Hl). intros s1 R1. apply zlen_tail in Hl. apply Forall_app in Hb as [_ Hb].
  apply wp_bind, (gives_4 _ inc_version ltac:(done) _ _ _ _ R1 Hb Hl). intros s2 R2. apply zlen_tail in Hl. apply Forall_app in Hb as [_ Hb].
  rewrite Z.eqb_refl. cbn [negb]. change (inc_version =? 16777216) with true. cbn [negb]. apply wp_bind_modify. destruct R2 as [-> Hr]. cbn [d_data d_cursor].
  match goal with |- wp _ _ (Deser (?w ++ ?l) _ _) => assert (R2 : reads inc_version w l (Deser (w ++ l) (zlen w) inc_version)) by done end.
  apply wp_bind, (gives_inc_info _ (inc_info m') Hi _ _ _ _ R2 Hb Hl). intros s3 R3. apply zlen_tail in Hl. apply Forall_app in Hb as [_ Hb].
  cbn [negb inc_pages]. apply wp_bind, (gives_data _ _ _ Hk _ _ _ _ R3 Hb Hl). intros s4 _.
  apply Forall_app in Hb as [Hb _]. unfold enc_data, sized in Hb. rewrite !Forall_app in Hb. destruct Hb as (_ & _ & Hb).
  unfold enc_data, sized in Hl. rewrite <- !app_assoc in Hl. do 2 apply zlen_tail in Hl. rewrite zlen_app in Hl.
  assert (Hz : zlen (enc_inc_pages (walk (inc_pages m))) < 2 ^ 62) by (zlen_pos; lia).
  destruct (run_inc_pages _ (inc_pages m') (walk_wf m Hm) Hb Hz) as [sd Er].
  eapply wp_bind_lift_res; [exact Er|]. apply wp_ret, HQ.
Qed.

Lemma inc_bytes m : Forall is_byte (enc_inc m).
Proof.
  unfold enc_inc, enc_inc_info, enc_data, sized. rewrite !Forall_app. split_and!; try apply be4_bytes; try apply varint_bytes.
  unfold enc_inc_pages. induction (walk (inc_pages m)) as [|[k p] l IH]; [constructor|]. cbn. rewrite Forall_app. split; [|done].
  unfold enc_inc_page. rewrite Forall_app. split; [apply varint_bytes|].
  destruct (negb _); [rewrite Forall_app; split; [apply varint_bytes|apply be4_bytes]|apply varint_bytes].
Qed.

(** C21: Round trip of an incremental backup: whatever the order in which the map of pages is
    walked, a well-formed material is written, and reading it back, with any bytes behind it,
    gives the same state of the log and the same pages, those without a checksum among them. *)
Theorem inc_roundtrip m k k' pad g :
  inc_wf m -> memory_given -> Forall is_byte pad -> zlen (enc_inc m ++ pad) + 9 <= 2 ^ 61 ->
  exists data,
    inc_serialized m k = Done data /\
    inc_deserialized k' (data ++ pad) (MkIncMaterial (new_inc_info g) ∅) = Done (true, m).
Proof.
  intros Hm Hmem Hb Hz. exists (enc_inc m). split.
  - unfold inc_serialized. destruct (wp_run (IncMaterial_serialize m) (fun r s => r = true /\ written (2 ^ 61) (enc_inc m) s)
      (empty_serialization k)) as (r & s & Er & -> & W).
    { apply (puts_inc (2 ^ 61) ltac:(lia) Hmem m Hm []); [by apply written_empty| |done]. rewrite zlen_app in Hz. cbn [app]. zlen_pos. lia. }
    rewrite Er. cbn [res_bind]. by rewrite (finalize_written _ _ _ W).
  - unfold inc_deserialized. destruct (wp_run (IncMaterial_deserialize k' (MkIncMaterial (new_inc_info g) ∅)) (fun r _ => r = (true, m))
      (new_deserialization (enc_inc m ++ pad))) as (r & s & Er & ->); [|by rewrite Er].
    apply gives_inc; [done| |lia|apply Forall_app; auto using inc_bytes|].
    + apply Hmem. unfold enc_inc, enc_data, sized in Hz. rewrite !zlen_app in Hz. zlen_pos. lia.
    + intros _. cbn [inc_pages]. rewrite add_walk by done. by destruct m.
Qed.
End inc.

(** C40: A truncated incremental backup: after the check that four bytes are left for the schema
    cookie fails, the loader only reports it and goes on, so that a file that ends there, with
    any salts and any map of pages before, makes it read outside the data. *)
Theorem inc_truncated_overreads `{DA : DataAlloc} `{ZL : Crc} k m salts tail :
  zlen salts = 16 -> Forall is_byte salts -> zlen tail <= 3 ->
  inc_deserialized k (be4 inc_magic ++ be4 inc_version ++ salts ++ [0; 0] ++ tail) m = Stuck OutOfBounds.
Proof.
  intros Hs Hb Ht. unfold zlen in *.
  do 16 (destruct salts as [|? salts]; [cbn in Hs; lia|]). destruct salts; [|cbn in Hs; lia].
  by destruct tail as [|? [|? [|? [|]]]]; [..|cbn in Ht; lia].
Qed.
