(* ===== verification/Encrypted.v ===== *)
(** * Encrypted materials (repair/basic/EncryptedSerialization.cpp)

    A material is encrypted like a database: its bytes are laid out in pages, the first behind
    sixteen bytes for the salt, and each page goes through the codec of SQLCipher, which needs
    the last bytes of the page for itself.

    The codec and the delegate that owns it are parameters.  The salt is given as bytes; the
    source passes it in hexadecimal. *)

From S2P Require Import Prelude CLib Serial.

Class CipherDelegate := {
  cipherPageSize : Z;                                  (* getCipherPageSize *)
  cipherReserve : Z;                                   (* sqlcipher_codec_ctx_get_reservesize *)
  sqlite3Codec : list Z -> Z -> Z -> list Z -> option (list Z);  (* salt, page number, mode, page *)
  switchCipherSalt : list Z -> bool
}.

Definition saltBytes : Z := 16.

(** [*pData == 0 && memcmp(pData, pData + 1, pageSize - 1) == 0] *)
Definition all_zero (page : list Z) : bool := forallb (Z.eqb 0) page.

Section encrypted.
Context `{CD : CipherDelegate} `{DA : DataAlloc}.

(** [Data(size)] *)
Definition new_data (k : nat) (size : Z) : option (list Z) := if size =? 0 then Some [] else data_malloc k size.

Definition usableSize : Z := u64 (cipherPageSize - cipherReserve).

(** The bytes of the data that go into a page. *)
Definition page_length (size pageNo : Z) : Z :=
  if pageNo =? 1 then
    (if usableSize >? size + saltBytes then size else u64 (usableSize - saltBytes))
  else if pageNo * usableSize >? size + saltBytes then u64 (size + saltBytes - (pageNo - 1) * usableSize)
  else usableSize.

(** The loop over the pages, [n] of them left.  [encryptAddr] and [dataAddr] are offsets in the
    buffers. *)
Fixpoint encrypt_pages (n : nat) (salt : list Z) (pageNo encryptAddr dataAddr : Z) (rawData encryptData : list Z) :
    res (option (list Z)) :=
  match n with
  | O => Done (Some encryptData)
  | S n =>
    let? bytes := zread_n rawData dataAddr (page_length (zlen rawData) pageNo) in
    let? encryptData :=
      zwrite_n encryptData (if pageNo =? 1 then encryptAddr + saltBytes else encryptAddr) bytes in
    let? page := zread_n encryptData encryptAddr cipherPageSize in
    match sqlite3Codec salt pageNo 6 page with
    | None => Stuck NullDeref
    | Some pData =>
      let? pData := zread_n pData 0 cipherPageSize in
      if all_zero pData then Done None
      else
        let? encryptData := zwrite_n encryptData encryptAddr pData in
        encrypt_pages n salt (pageNo + 1) (encryptAddr + cipherPageSize)
          (dataAddr + (if pageNo =? 1 then usableSize - saltBytes else usableSize)) rawData encryptData
    end
  end.

(** Empty data for failure; [k] numbers the request for memory. *)
Definition encryptedSerialize (k : nat) (salt rawData : list Z) : res (list Z) :=
  if zlen rawData =? 0 then Done []
  else if cipherPageSize =? 0 then Done []
  else if usableSize =? 0 then Stuck DivByZero
  else
    let pageCount := s32 ((zlen rawData + saltBytes - 1) / usableSize) + 1 in
    let totalSize := u64 (pageCount * cipherPageSize) in
    match new_data k totalSize with
    | None => Done []
    | Some blk =>
      let? r := encrypt_pages (Z.to_nat pageCount) salt 1 0 0 rawData (replicate (length blk) 0) in
      Done (match r with Some d => d | None => [] end)
    end.

(** The loop that decrypts; the result is the buffer, or nothing where the codec refuses a page. *)
Fixpoint decrypt_pages (n : nat) (salt : list Z) (pageNo rawAdder dataAdder : Z) (rawData decryptData : list Z) :
    res (option (list Z)) :=
  match n with
  | O => Done (Some decryptData)
  | S n =>
    let? page := zread_n rawData rawAdder cipherPageSize in
    match sqlite3Codec salt pageNo 4 page with
    | None => Done None
    | Some pData =>
      let from := if pageNo =? 1 then saltBytes else 0 in
      let len := if pageNo =? 1 then u64 (usableSize - saltBytes) else usableSize in
      let? bytes := zread_n pData from len in
      let? decryptData := zwrite_n decryptData dataAdder bytes in
      decrypt_pages n salt (pageNo + 1) (rawAdder + cipherPageSize) (dataAdder + len) rawData decryptData
    end
  end.

(** What is deserialized in the end, if the data gets so far.  [salt] is the salt of the
    context; it is taken from the data if [reloadSalt]. *)
Definition decrypted (k : nat) (salt rawData : list Z) (reloadSalt : bool) : res (option (list Z)) :=
  if cipherPageSize =? 0 then Done None
  else if negb (zlen rawData mod cipherPageSize =? 0) then Done None
  else
    let fileSalt := take (Z.to_nat saltBytes) rawData in
    if reloadSalt && negb (switchCipherSalt fileSalt) then Done None
    else
      let salt := if reloadSalt then fileSalt else salt in
      let pageCount := s32 (zlen rawData / cipherPageSize) in
      let totalSize := u64 (pageCount * usableSize - saltBytes) in
      match new_data k totalSize with
      | None => Done None
      | Some blk => decrypt_pages (Z.to_nat pageCount) salt 1 0 0 rawData blk
      end.

Definition decryptedDeserialize {A} (deserialize : list Z -> A -> res (bool * A))
    (k : nat) (salt rawData : list Z) (reloadSalt : bool) (a : A) : res (bool * A) :=
  let? d := decrypted k salt rawData reloadSalt in
  match d with
  | None => Done (false, a)
  | Some d => deserialize d a
  end.
End encrypted.
