(* ===== verification/EncryptedProps.v ===== *)
(** * Encrypted materials: properties

    Encrypting and decrypting a material gives its bytes with zeros behind them; a material
    that is written encrypted can be read back. *)

From stdpp Require Import gmap sorting.
From S2P Require Import Prelude CLib Varint Serial SerialVarint SerialFacts Material MaterialFacts MaterialProps Encrypted.

(** What the documentation of SQLCipher says of its codec: a page keeps its size, the first one
    starts with the salt, and decrypting gives back the usable bytes of a page, on the first one
    those behind the salt.  An encrypted page is not all zeros. *)
Class CodecLaws (CD : CipherDelegate) : Prop := {
  codec_sizes : 0 < cipherReserve /\ 16 < cipherPageSize - cipherReserve /\ cipherPageSize <= 65536;
  codec_encrypt : forall salt no page, zlen salt = 16 -> zlen page = cipherPageSize ->
    exists q, sqlite3Codec salt no 6 page = Some q /\ zlen q = cipherPageSize /\ all_zero q = false /\
              (no = 1 -> take 16 q = salt);
  codec_decrypt : forall salt no page q, zlen salt = 16 -> zlen page = cipherPageSize ->
    sqlite3Codec salt no 6 page = Some q ->
    exists r, sqlite3Codec salt no 4 q = Some r /\ zlen r = cipherPageSize /\
              if no =? 1 then slice 16 (cipherPageSize - cipherReserve - 16) r = slice 16 (cipherPageSize - cipherReserve - 16) page
              else take (Z.to_nat (cipherPageSize - cipherReserve)) r = take (Z.to_nat (cipherPageSize - cipherReserve)) page
}.

Lemma zeros_app a b : 0 <= a -> 0 <= b -> zeros (a + b) = zeros a ++ zeros b.
Proof. intros Ha Hb. unfold zeros. by rewrite Z2Nat.inj_add, replicate_add. Qed.
Lemma drop_zeros n (l : list Z) : zlen l <= n -> drop (length l) (zeros n) = zeros (n - zlen l).
Proof. intros Hl. unfold zeros. rewrite drop_replicate. f_equal. unfold zlen in *. lia. Qed.

Section layout.
Context `{CD : CipherDelegate} {CL : CodecLaws CD} `{DA : DataAlloc} {DL : DataAllocLaws DA}.

Let P := cipherPageSize.
Let U := cipherPageSize - cipherReserve.

Lemma usable_exact : usableSize = U.
Proof. destruct codec_sizes as (H1 & H2 & H3). apply Z.mod_small. unfold U. lia. Qed.

Definition encrypted_page (salt : list Z) (no : Z) (page : list Z) : list Z := default [] (sqlite3Codec salt no 6 page).

(** The encrypted pages of the bytes [t], behind the first page. *)
Fixpoint encrypted_pages (m : nat) (salt : list Z) (no : Z) (t : list Z) : list Z :=
  match m with
  | O => []
  | S m =>
    encrypted_page salt no (take (Z.to_nat U) t ++ zeros cipherReserve) ++
    encrypted_pages m salt (no + 1) (drop (Z.to_nat U) t)
  end.
(** All pages. *)
Definition encrypted_file (m : nat) (salt t : list Z) : list Z :=
  encrypted_page salt 1 (zeros 16 ++ take (Z.to_nat (U - 16)) t ++ zeros cipherReserve) ++
  encrypted_pages m salt 2 (drop (Z.to_nat (U - 16)) t).

(** Writing a page of [n] bytes of the data and encrypting it. *)
Lemma take_padded (r : list Z) z n : 0 <= z -> 0 <= n <= zlen r + z ->
  take (Z.to_nat n) (r ++ zeros z) = take (Z.to_nat (Z.min n (zlen r))) r ++ zeros (n - Z.min n (zlen r)).
Proof.
  intros Hz Hn. unfold zeros, zlen in *. rewrite take_app, take_replicate. 
  destruct (Z.le_ge_cases n (Z.of_nat (length r))).
  - rewrite Z.min_l by lia. do 2 f_equal. lia.
  - rewrite Z.min_r by lia. rewrite !take_ge by lia. do 2 f_equal. lia.
Qed.

Lemma write_page (e bytes : list Z) o n rest : 0 <= o -> o + zlen bytes <= n -> 0 <= rest ->
  zwrite_n (e ++ zeros (n + rest)) (zlen e + o) bytes =
    Done (e ++ (zeros o ++ bytes ++ zeros (n - o - zlen bytes)) ++ zeros rest).
Proof.
  intros Ho Hb Hr. zlen_pos. replace (n + rest) with (o + (zlen bytes + ((n - o - zlen bytes) + rest))) by lia.
  rewrite !(zeros_app o), (zeros_app (zlen bytes)), (zeros_app (n - o - zlen bytes)), app_assoc by lia.
  rewrite zwrite_n_app; [|rewrite zlen_app, zlen_zeros; lia|rewrite zlen_zeros; lia]. by rewrite <- !app_assoc.
Qed.

(** One turn of the loop, with the bytes of the page. *)
Lemma encrypt_turn m salt no e x (r : list Z) rest o z :
  zlen salt = 16 -> o = (if no =? 1 then 16 else 0) -> 0 <= z -> 0 <= rest -> U - o <= zlen r + z ->
  page_length (zlen (x ++ r)) no = Z.min (U - o) (zlen r) ->
  encrypt_pages (S m) salt no (zlen e) (zlen x) (x ++ r) (e ++ zeros (P + rest)) =
  encrypt_pages m salt (no + 1) (zlen e + P) (zlen x + (U - o)) (x ++ r)
    (e ++ encrypted_page salt no (zeros o ++ take (Z.to_nat (U - o)) (r ++ zeros z) ++ zeros cipherReserve) ++ zeros rest).
Proof.
  intros Hs Ho Hz Hr HU Hlen. destruct codec_sizes as (H1 & H2 & H3). zlen_pos.
  assert (Ho' : o = 16 \/ o = 0) by (destruct (no =? 1); lia).
  assert (HU16 : 16 < U) by exact H2.
  assert (HUP : U + cipherReserve = P) by (unfold U, P; lia).
  remember (Z.min (U - o) (zlen r)) as len eqn:El.
  assert (Hb : zlen (take (Z.to_nat len) r) = len) by (rewrite zlen_take_le; lia).
  cbn [encrypt_pages]. rewrite Hlen.
  assert (Hread : zread_n (x ++ r) (zlen x) len = Done (take (Z.to_nat len) r)).
  { rewrite <- (take_drop (Z.to_nat len) r) at 1. by apply zread_n_app. }
  rewrite Hread. cbn [res_bind].
  replace (if no =? 1 then zlen e + saltBytes else zlen e) with (zlen e + o) by (subst o; unfold saltBytes; destruct (no =? 1); lia).
  rewrite write_page by lia. cbn [res_bind]. rewrite Hb.
  set (page := zeros o ++ take (Z.to_nat len) r ++ zeros (P - o - len)).
  assert (Hpz : zlen page = P) by (unfold page; rewrite !zlen_app, Hb, !zlen_zeros; lia).
  fold P. rewrite zread_n_app by done. cbn [res_bind].
  assert (Hpage : zeros o ++ take (Z.to_nat (U - o)) (r ++ zeros z) ++ zeros cipherReserve = page).
  { rewrite take_padded, <- El by lia. unfold page. rewrite <- app_assoc, <- zeros_app by lia. do 3 f_equal. lia. }
  rewrite Hpage. destruct (codec_encrypt salt no page Hs Hpz) as (q & Hq & Hqz & Hnz & _).
  unfold encrypted_page. rewrite Hq. cbn [default]. 
  assert (Hr0 : zread_n q 0 P = Done q).
  { rewrite <- (app_nil_r q) at 1. by apply (zread_n_app [] q []). }
  rewrite Hr0. cbn [res_bind]. rewrite Hnz. rewrite zwrite_n_app by (done || lia). cbn [res_bind].
  f_equal. rewrite usable_exact. subst o. unfold saltBytes. destruct (no =? 1); lia.
Qed.

Lemma encrypted_page_zlen salt no page : zlen salt = 16 -> zlen page = P -> zlen (encrypted_page salt no page) = P.
Proof. intros Hs Hp. unfold encrypted_page. by destruct (codec_encrypt salt no page Hs Hp) as (q & -> & Hq & _). Qed.

Lemma page_length_rest no size r : 2 <= no -> 0 <= r < 2 ^ 62 -> size = (no - 1) * U - 16 + r -> page_length size no = Z.min U r.
Proof.
  intros Hno Hr Hs. unfold page_length. rewrite usable_exact, (proj2 (Z.eqb_neq no 1)) by lia. unfold saltBytes.
  replace (no * U) with ((no - 1) * U + U) by ring. rewrite Z.gtb_ltb. destruct (_ <? _) eqn:E; [|lia].
  unfold u64. replace (size + 16 - (no - 1) * U) with r by lia. rewrite Z.mod_small; lia.
Qed.
Lemma page_length_first size : 0 <= size -> page_length size 1 = Z.min (U - 16) size.
Proof.
  intros Hs. destruct codec_sizes as (H1 & H2 & H3). assert (HU : 16 < U <= 65536) by (unfold U; lia).
  unfold page_length. rewrite usable_exact. cbn [Z.eqb Pos.eqb]. unfold saltBytes. rewrite Z.gtb_ltb.
  destruct (_ <? _) eqn:E; [lia|]. unfold u64. rewrite Z.mod_small; lia.
Qed.

(** The pages behind the first. *)
Lemma encrypt_rest m : forall salt no e x (r : list Z) z,
  zlen salt = 16 -> 2 <= no -> 0 <= z < U -> zlen r + z = Z.of_nat m * U -> zlen (x ++ r) < 2 ^ 62 ->
  zlen x = (no - 1) * U - 16 ->
  encrypt_pages m salt no (zlen e) (zlen x) (x ++ r) (e ++ zeros (Z.of_nat m * P)) =
    Done (Some (e ++ encrypted_pages m salt no (r ++ zeros z))).
Proof.
  induction m as [|m IH]; intros salt no e x r z Hs Hno Hz Hr Hsz Hx.
  { cbn [encrypt_pages encrypted_pages]. change (zeros (Z.of_nat 0 * P)) with (@nil Z). by rewrite app_nil_r. }
  destruct codec_sizes as (H1 & H2 & H3). assert (HU : 16 < U) by exact H2. assert (HP : 0 < P) by (unfold P; lia).
  rewrite zlen_app in Hsz. zlen_pos. assert (Hno1 : (no =? 1) = false) by lia.
  replace (Z.of_nat (S m) * P) with (P + Z.of_nat m * P) by lia.
  rewrite (encrypt_turn m salt no e x r (Z.of_nat m * P) 0 z); [|done|by rewrite Hno1|lia|lia|lia|].
  2: { rewrite Z.sub_0_r. apply page_length_rest; [done|lia|rewrite zlen_app; lia]. }
  rewrite Z.sub_0_r. cbn [encrypted_pages]. change (zeros 0) with (@nil Z). cbn [app].
  set (q := encrypted_page salt no _).
  assert (Hq : zlen q = P) by (apply encrypted_page_zlen; [done|]; rewrite zlen_app, zlen_take_le, zlen_zeros by (rewrite ?zlen_app, ?zlen_zeros; lia); unfold U, P; lia).
  destruct m as [|m]. { cbn [encrypt_pages encrypted_pages]. change (zeros (Z.of_nat 0 * P)) with (@nil Z). by rewrite app_nil_r. }
  assert (HrU : U <= zlen r) by lia.
  replace (zlen e + P) with (zlen (e ++ q)) by (rewrite zlen_app; lia).
  assert (Hxb : zlen (x ++ take (Z.to_nat U) r) = zlen x + U) by (rewrite zlen_app, zlen_take_le; lia).
  rewrite <- Hxb, (app_assoc e). rewrite <- (take_drop (Z.to_nat U) r) at 2. rewrite (app_assoc x).
  rewrite (IH salt (no + 1) (e ++ q) _ (drop (Z.to_nat U) r) z); [|done|lia|lia| | |].
  - rewrite <- app_assoc, drop_app_le; [done|]. unfold zlen in *. lia.
  - rewrite zlen_drop by lia. lia.
  - rewrite <- app_assoc, take_drop, zlen_app. lia.
  - rewrite Hxb. lia.
Qed.

Lemma encrypt_all m salt (r : list Z) z :
  zlen salt = 16 -> 0 <= z < U -> zlen r + z = (Z.of_nat m + 1) * U - 16 -> zlen r < 2 ^ 62 ->
  encrypt_pages (S m) salt 1 0 0 r (zeros ((Z.of_nat m + 1) * P)) = Done (Some (encrypted_file m salt (r ++ zeros z))).
Proof.
  intros Hs Hz Hr Hsz. destruct codec_sizes as (H1 & H2 & H3). assert (HU : 16 < U) by exact H2. assert (HP : 0 < P) by (unfold P; lia). zlen_pos.
  replace ((Z.of_nat m + 1) * P) with (P + Z.of_nat m * P) by lia.
  pose proof (encrypt_turn m salt 1 [] [] r (Z.of_nat m * P) 16 z) as Ht. cbn [app] in Ht. change (zlen (@nil Z)) with 0 in Ht.
  rewrite Ht; [|done|done|lia|lia|lia|by apply page_length_first]. clear Ht. cbn [Z.add]. unfold encrypted_file.
  set (q := encrypted_page salt 1 _). set (c := U - 16) in *.
  assert (Hq : zlen q = P).
  { apply encrypted_page_zlen; [done|]. rewrite !zlen_app, zlen_take_le, !zlen_zeros by (rewrite ?zlen_app, ?zlen_zeros; lia). unfold c, U, P. lia. }
  destruct m as [|m]. { cbn [encrypt_pages encrypted_pages]. change (zeros (Z.of_nat 0 * P)) with (@nil Z). by rewrite !app_nil_r. }
  assert (HrU : c <= zlen r) by lia. 
  assert (Hx : zlen (take (Z.to_nat c) r) = c) by (rewrite zlen_take_le; lia).
  pose proof (encrypt_rest (S m) salt 2 q (take (Z.to_nat c) r) (drop (Z.to_nat c) r) z) as He.
  rewrite Hx, Hq, take_drop in He. rewrite drop_app_le by (unfold zlen in *; lia).
  apply He; [done|lia|lia|rewrite zlen_drop by lia; lia|done|unfold c; lia].
Qed.

(** ** Decryption *)

(** What the codec gives back of a page with [o] bytes in front. *)
Lemma decrypt_page salt no o (b : list Z) : zlen salt = 16 -> o = (if no =? 1 then 16 else 0) -> zlen b = U - o ->
  exists r, sqlite3Codec salt no 4 (encrypted_page salt no (zeros o ++ b ++ zeros cipherReserve)) = Some r /\
            zread_n r o (U - o) = Done b.
Proof.
  intros Hs Ho Hb. destruct codec_sizes as (H1 & H2 & H3). assert (HU : 16 < U) by exact H2.
  assert (Ho' : o = 16 \/ o = 0) by (destruct (no =? 1); lia).
  set (page := zeros o ++ b ++ zeros cipherReserve).
  assert (Hpz : zlen page = P) by (unfold page; rewrite !zlen_app, Hb, !zlen_zeros by lia; unfold U, P; lia).
  destruct (codec_encrypt salt no page Hs Hpz) as (q & Hq & _). unfold encrypted_page. rewrite Hq. cbn [default].
  destruct (codec_decrypt salt no page q Hs Hpz Hq) as (r & Hr & Hrz & Hsame). exists r. split; [done|].
  fold P in Hrz. assert (HUP : U <= P) by (unfold U, P; lia).
  rewrite zread_n_slice by lia. f_equal. transitivity (slice o (U - o) page).
  - subst o. fold U in Hsame. destruct (no =? 1); [done|]. unfold slice. rewrite Z.sub_0_r. exact Hsame.
  - unfold slice, page. rewrite drop_app_length'; [|unfold zeros; by rewrite length_replicate].
    rewrite take_app_length'; [done|]. unfold zlen in Hb. lia.
Qed.

Lemma decrypt_turn m salt no e (b rest w blk : list Z) o :
  zlen salt = 16 -> o = (if no =? 1 then 16 else 0) -> zlen b = U - o -> zlen b <= zlen blk ->
  decrypt_pages (S m) salt no (zlen e) (zlen w) (e ++ encrypted_page salt no (zeros o ++ b ++ zeros cipherReserve) ++ rest) (w ++ blk) =
  decrypt_pages m salt (no + 1) (zlen e + P) (zlen w + (U - o))
    (e ++ encrypted_page salt no (zeros o ++ b ++ zeros cipherReserve) ++ rest) (w ++ b ++ drop (length b) blk).
Proof.
  intros Hs Ho Hb Hblk. destruct codec_sizes as (H1 & H2 & H3). assert (HU : 16 < U <= 65536) by (unfold U; lia).
  assert (Ho' : o = 16 \/ o = 0) by (destruct (no =? 1); lia).
  destruct (decrypt_page salt no o b Hs Ho Hb) as (r & Hr & Hread).
  assert (Hq : zlen (encrypted_page salt no (zeros o ++ b ++ zeros cipherReserve)) = P).
  { apply encrypted_page_zlen; [done|]. rewrite !zlen_app, Hb, !zlen_zeros by lia. unfold U, P. lia. }
  cbn [decrypt_pages]. rewrite zread_n_app by done. cbn [res_bind]. rewrite Hr, usable_exact. unfold saltBytes.
  replace (u64 (U - 16)) with (U - 16) by (symmetry; apply Z.mod_small; lia).
  replace (if no =? 1 then U - 16 else U) with (U - o) by (subst o; destruct (no =? 1); lia).
  rewrite <- Ho, Hread. cbn [res_bind]. by rewrite zwrite_n_behind.
Qed.

Lemma decrypt_rest m : forall salt no e (t w blk : list Z),
  zlen salt = 16 -> 2 <= no -> zlen t = Z.of_nat m * U -> zlen blk = Z.of_nat m * U ->
  decrypt_pages m salt no (zlen e) (zlen w) (e ++ encrypted_pages m salt no t) (w ++ blk) = Done (Some (w ++ t)).
Proof.
  induction m as [|m IH]; intros salt no e t w blk Hs Hno Ht Hblk.
  { cbn [decrypt_pages]. by rewrite (zlen_0_inv t), (zlen_0_inv blk). }
  destruct codec_sizes as (H1 & H2 & H3). assert (HU : 16 < U) by exact H2. 
  assert (Hno1 : (no =? 1) = false) by lia. cbn [encrypted_pages].
  set (b := take (Z.to_nat U) t). assert (Hb : zlen b = U) by (apply zlen_take_le; lia).
  change (b ++ zeros cipherReserve) with (zeros 0 ++ b ++ zeros cipherReserve).
  rewrite (decrypt_turn m salt no e b _ w blk 0); [|done|by rewrite Hno1|lia|lia].
  set (q := encrypted_page salt no _).
  assert (Hq : zlen q = P).
  { apply encrypted_page_zlen; [done|]. rewrite !zlen_app, Hb, !zlen_zeros by lia. unfold U, P. lia. }
  rewrite (app_assoc e), (app_assoc w), Z.sub_0_r. replace (zlen e + P) with (zlen (e ++ q)) by (rewrite zlen_app; lia).
  replace (zlen w + U) with (zlen (w ++ b)) by (rewrite zlen_app; lia).
  rewrite (IH salt (no + 1) (e ++ q) (drop (Z.to_nat U) t) (w ++ b)); [|done|lia| |].
  - rewrite <- app_assoc. unfold b. by rewrite take_drop.
  - rewrite zlen_drop by lia. lia.
  - unfold zlen in *. rewrite length_drop. lia.
Qed.

Lemma decrypt_all m salt (t blk : list Z) : zlen salt = 16 -> zlen t = (Z.of_nat m + 1) * U - 16 -> zlen blk = zlen t ->
  decrypt_pages (S m) salt 1 0 0 (encrypted_file m salt t) blk = Done (Some t).
Proof.
  intros Hs Ht Hblk. destruct codec_sizes as (H1 & H2 & H3). assert (HU : 16 < U) by exact H2. unfold encrypted_file.
  set (b := take (Z.to_nat (U - 16)) t). assert (Hb : zlen b = U - 16) by (apply zlen_take_le; lia).
  pose proof (decrypt_turn m salt 1 [] b (encrypted_pages m salt 2 (drop (Z.to_nat (U - 16)) t)) [] blk 16 Hs eq_refl Hb) as Ht1.
  cbn [app] in Ht1. change (zlen (@nil Z)) with 0 in Ht1. rewrite Ht1 by lia. cbn [Z.add].
  set (q := encrypted_page salt 1 _).
  assert (Hq : zlen q = P).
  { apply encrypted_page_zlen; [done|]. rewrite !zlen_app, Hb, !zlen_zeros by lia. unfold U, P. lia. }
  pose proof (decrypt_rest m salt 2 q (drop (Z.to_nat (U - 16)) t) b (drop (length b) blk)) as Hd. rewrite Hq, Hb in Hd.
  replace (b ++ drop (Z.to_nat (U - 16)) t) with t in Hd by (unfold b; by rewrite take_drop).
  apply Hd; [done|lia|rewrite zlen_drop by lia; lia|]. unfold zlen in *. rewrite length_drop. lia.
Qed.

(** ** Round trip *)

(** The number of pages and of zeros behind the bytes. *)
Definition pages_for (n : Z) : Z := (n + 15) / U + 1.
Definition padding (n : Z) : Z := pages_for n * U - 16 - n.

Lemma padding_range n : 0 <= n -> 0 <= padding n < U /\ 1 <= pages_for n.
Proof.
  intros Hn. destruct codec_sizes as (H1 & H2 & H3). assert (HU : 16 < U) by exact H2. unfold padding, pages_for.
  pose proof (Z.div_mod (n + 15) U ltac:(lia)). pose proof (Z.mod_pos_bound (n + 15) U ltac:(lia)).
  pose proof (Z.div_pos (n + 15) U). lia.
Qed.

Lemma encryptedSerialize_exact k salt (r : list Z) : zlen salt = 16 -> memory_given -> 0 < zlen r < 2 ^ 31 ->
  encryptedSerialize k salt r = Done (encrypted_file (Z.to_nat (pages_for (zlen r) - 1)) salt (r ++ zeros (padding (zlen r)))).
Proof.
  intros Hs Hmem Hr. destruct codec_sizes as (H1 & H2 & H3). assert (HU : 16 < U <= 65536) by (unfold U; lia).
  destruct (padding_range (zlen r) ltac:(lia)) as [Hpad Hp].
  assert (Hpc : pages_for (zlen r) <= 2 ^ 31).
  { unfold pages_for. assert ((zlen r + 15) / U < 2 ^ 31); [|lia]. apply Z.div_lt_upper_bound; lia. }
  unfold encryptedSerialize. rewrite (proj2 (Z.eqb_neq _ _)), (proj2 (Z.eqb_neq cipherPageSize 0)) by lia.
  rewrite usable_exact, (proj2 (Z.eqb_neq U 0)) by lia. unfold saltBytes. replace (zlen r + 16 - 1) with (zlen r + 15) by lia.
  replace (s32 ((zlen r + 15) / U) + 1) with (pages_for (zlen r)).
  2: { unfold pages_for in *. f_equal. symmetry. apply wrap_s_small; [done|]. pose proof (Z.div_pos (zlen r + 15) U). lia. }
  assert (Hts : 0 < pages_for (zlen r) * cipherPageSize <= 2 ^ 31 * 65536).
  { split; [apply Z.mul_pos_pos; lia|apply Z.mul_le_mono_nonneg; lia]. }
  unfold u64. rewrite Z.mod_small by lia. unfold new_data. rewrite (proj2 (Z.eqb_neq _ _)) by lia.
  assert (Hn : 0 <= pages_for (zlen r) * cipherPageSize <= 2 ^ 62) by (clear - Hts; lia).
  destruct (Hmem k (pages_for (zlen r) * cipherPageSize) Hn) as [blk Hblk]. rewrite Hblk.
  pose proof (data_malloc_size _ _ _ Hblk ltac:(lia)) as Hz.
  replace (replicate (length blk) 0) with (zeros (pages_for (zlen r) * P)) by (unfold zeros, P; by rewrite <- Hz, to_nat_zlen).
  pose proof (encrypt_all (Z.to_nat (pages_for (zlen r) - 1)) salt r (padding (zlen r)) Hs Hpad) as He.
  rewrite Z2Nat.id in He by lia. replace (pages_for (zlen r) - 1 + 1) with (pages_for (zlen r)) in He by lia.
  replace (Z.to_nat (pages_for (zlen r))) with (S (Z.to_nat (pages_for (zlen r) - 1))) by lia.
  rewrite He; [done|unfold padding; lia|lia].
Qed.

Lemma encrypted_file_salt m salt (t : list Z) : zlen salt = 16 -> zlen t = (Z.of_nat m + 1) * U - 16 ->
  take 16 (encrypted_file m salt t) = salt.
Proof.
  intros Hs Ht. destruct codec_sizes as (H1 & H2 & H3). assert (HU : 16 < U) by exact H2. unfold encrypted_file.
  set (page := zeros 16 ++ _). assert (Hp : zlen page = P).
  { unfold page. rewrite !zlen_app, zlen_take_le, !zlen_zeros by lia. unfold U, P. lia. }
  unfold encrypted_page. destruct (codec_encrypt salt 1 page Hs Hp) as (q & -> & Hq & _ & Hsalt). cbn [default].
  rewrite take_app_le; [by apply Hsalt|]. fold P in Hq. assert (HP : 16 < P) by (unfold P; lia). apply Nat2Z.inj_le. change (16 <= zlen q). lia.
Qed.

Lemma encrypted_pages_zlen m : forall salt no (t : list Z), zlen salt = 16 -> zlen t = Z.of_nat m * U ->
  zlen (encrypted_pages m salt no t) = Z.of_nat m * P.
Proof.
  induction m as [|m IH]; intros salt no t Hs Ht; [done|]. destruct codec_sizes as (H1 & H2 & H3). assert (HU : 16 < U) by exact H2.
  cbn [encrypted_pages]. rewrite zlen_app, IH, encrypted_page_zlen; [lia|done| |done|rewrite zlen_drop by lia; lia].
  rewrite zlen_app, zlen_take_le, zlen_zeros by lia. unfold U, P. lia.
Qed.
Lemma encrypted_file_zlen m salt (t : list Z) : zlen salt = 16 -> zlen t = (Z.of_nat m + 1) * U - 16 ->
  zlen (encrypted_file m salt t) = (Z.of_nat m + 1) * P.
Proof.
  intros Hs Ht. destruct codec_sizes as (H1 & H2 & H3). assert (HU : 16 < U) by exact H2. unfold encrypted_file.
  rewrite zlen_app, encrypted_pages_zlen, encrypted_page_zlen; [lia|done| |done|rewrite zlen_drop by lia; lia].
  rewrite !zlen_app, zlen_take_le, !zlen_zeros by lia. unfold U, P. lia.
Qed.

Lemma decrypted_exact k m salt salt' (t : list Z) reload :
  zlen salt = 16 -> memory_given -> zlen t = (Z.of_nat m + 1) * U - 16 -> Z.of_nat m < 2 ^ 31 - 1 ->
  (if reload : bool then switchCipherSalt salt = true else salt' = salt) ->
  decrypted k salt' (encrypted_file m salt t) reload = Done (Some t).
Proof.
  intros Hs Hmem Ht Hm Hsalt. destruct codec_sizes as (H1 & H2 & H3). assert (HU : 16 < U <= 65536) by (unfold U; lia).
  assert (HP : 0 < P) by (unfold P; lia). unfold decrypted. fold P. rewrite (proj2 (Z.eqb_neq P 0)) by lia.
  rewrite encrypted_file_zlen, Z.mod_mul, Z.div_mul by (done || lia). cbn [Z.eqb negb].
  change (Z.to_nat saltBytes) with 16%nat. rewrite encrypted_file_salt by done.
  assert (Hsw : reload && negb (switchCipherSalt salt) = false) by (destruct reload; [by rewrite Hsalt|done]). rewrite Hsw.
  replace (if reload then salt else salt') with salt by (by destruct reload).
  replace (s32 (Z.of_nat m + 1)) with (Z.of_nat m + 1) by (symmetry; apply wrap_s_small; lia).
  rewrite usable_exact. unfold saltBytes. rewrite <- Ht. assert (Htz : 0 < zlen t <= 2 ^ 48) by nia.
  unfold u64. rewrite Z.mod_small by lia. unfold new_data. rewrite (proj2 (Z.eqb_neq _ _)) by lia.
  destruct (Hmem k (zlen t) ltac:(lia)) as [blk Hblk]. rewrite Hblk. pose proof (data_malloc_size _ _ _ Hblk ltac:(lia)) as Hz.
  replace (Z.to_nat (Z.of_nat m + 1)) with (S m) by lia. by apply decrypt_all.
Qed.

(** Encrypting and decrypting gives the bytes with fewer zeros behind them than a page holds. *)
Lemma encrypted_roundtrip_exact k k' salt salt' (r : list Z) reload :
  zlen salt = 16 -> memory_given -> 0 < zlen r < 2 ^ 31 - 2 ^ 17 ->
  (if reload : bool then switchCipherSalt salt = true else salt' = salt) ->
  exists e, encryptedSerialize k salt r = Done e /\ decrypted k' salt' e reload = Done (Some (r ++ zeros (padding (zlen r)))).
Proof.
  intros Hs Hmem Hr Hsalt. eexists. split; [apply encryptedSerialize_exact; [done..|lia]|].
  destruct codec_sizes as (H1 & H2 & H3). assert (HU : 16 < U <= 65536) by (unfold U; lia).
  destruct (padding_range (zlen r) ltac:(lia)) as [Hpad Hp].
  apply decrypted_exact; [done..| | |done].
  - rewrite zlen_app, zlen_zeros, Z2Nat.id by lia. unfold padding. lia.
  - rewrite Z2Nat.id by lia. unfold pages_for. assert ((zlen r + 15) / U < 2 ^ 31 - 1); [|lia]. apply Z.div_lt_upper_bound; lia.
Qed.
End layout.

Section composed.
Context `{CD : CipherDelegate} {CL : CodecLaws CD} `{DA : DataAlloc} {DL : DataAllocLaws DA} `{ZL : Crc} {ZLL : CrcLaws ZL}
  `{SS : StdSort} {SSL : StdSortLaws SS}.

(** C19: Round trip of an encrypted backup: a well-formed material is serialized, laid out in
    pages and encrypted; decrypting the file, with the salt of the open database or with the
    one the file starts with, and deserializing it gives the parameters and the contents back. *)
Theorem encrypted_material_roundtrip m k k1 k2 k3 salt salt' reload :
  material_wf m -> memory_given -> zlen salt = 16 ->
  zlen (enc_material (saved_material m)) < 2 ^ 30 ->
  (if reload : bool then switchCipherSalt salt = true else salt' = salt) ->
  exists data m1 file m2,
    serialized m k = Done (data, m1) /\
    encryptedSerialize k1 salt data = Done file /\
    decryptedDeserialize (deserialized k2) k3 salt' file reload new_material = Done (true, m2) /\
    info m2 = info m /\ contentsList m2 = map saved_content (contentsList m).
Proof.
  intros Hm Hmem Hs Hz Hsalt. set (d := enc_material (saved_material m)) in *.
  assert (Hd : 0 < zlen d) by (unfold d, enc_material; rewrite !zlen_app, !zlen_be4; zlen_pos; lia).
  destruct (encrypted_roundtrip_exact k1 k3 salt salt' d reload Hs Hmem ltac:(lia) Hsalt) as (e & He & Hdec).
  destruct (padding_range (zlen d) ltac:(lia)) as [Hpad _]. destruct codec_sizes as (H1 & H2 & H3).
  do 4 eexists. split; [apply serialized_exact; [done..|fold d; lia]|]. split; [exact He|]. split; [|split].
  - unfold decryptedDeserialize. rewrite Hdec. cbn [res_bind]. apply deserialized_exact; [done..| |].
    + unfold zeros. apply Forall_replicate. unfold is_byte. lia.
    + fold d. rewrite zlen_app, zlen_zeros by lia. lia.
  - done.
  - done.
Qed.
End composed.
