(* ===== verification/MaterialSmall.v ===== *)
(** * Backup material: small inputs

    Concrete library code for the parameters, and the theorems at concrete materials. *)

From stdpp Require Import gmap sorting.
From S2P Require Import Prelude CLib Varint Serial SerialVarint SerialFacts SerialSafe Material MaterialFacts MaterialProps MaterialSafe IncMaterial IncProps Encrypted EncryptedProps.

(** ** Library code *)

(** Blocks of zeros. *)
Definition zeros_malloc (k : nat) (n : Z) : option (list Z) := Some (replicate (Z.to_nat n) 0).
#[local] Instance toy_alloc : DataAlloc := {| data_malloc := zeros_malloc |}.
#[local] Instance toy_alloc_laws : DataAllocLaws toy_alloc.
Proof. split. intros k n blk [= <-] Hn. unfold zlen. rewrite length_replicate. lia. Qed.

(** A checksum: the sum of the bytes. *)
Definition sum_bytes (b : list Z) : Z := fold_right Z.add 7 b mod 2 ^ 32.
#[local] Instance toy_zlib : Crc := {| crc32 := sum_bytes |}.
#[local] Instance toy_zlib_laws : CrcLaws toy_zlib.
Proof. split. intros b. apply Z.mod_pos_bound. lia. Qed.

Definition page_le (a b : VPage) : Prop := number a <= number b.
#[local] Instance page_le_dec a b : Decision (page_le a b).
Proof. unfold page_le. apply _. Defined.
#[local] Instance page_le_trans : Transitive page_le.
Proof. intros a b c. unfold page_le. lia. Qed.
#[local] Instance page_le_total : Total page_le.
Proof. intros a b. unfold page_le. lia. Qed.
#[local] Instance toy_sort : StdSort := {| std_sort := merge_sort page_le |}.
#[local] Instance toy_sort_laws : StdSortLaws toy_sort.
Proof. split; intros l; [apply merge_sort_Permutation|apply (StronglySorted_merge_sort page_le)]. Qed.

#[local] Instance toy_order : HashOrder := {| walk := map_to_list |}.
#[local] Instance toy_order_laws : HashOrderLaws toy_order.
Proof. by split. Qed.

(** A codec for pages of 64 bytes that flips the bits of the first 56 and fills the rest with
    ones; the first page starts with the salt. *)
Definition flip (b : Z) : Z := 255 - b.
Definition toy_codec (salt : list Z) (no mode : Z) (page : list Z) : option (list Z) :=
  Some ((if no =? 1 then (if mode =? 6 then salt else take 16 page) else map flip (take 16 page)) ++
        map flip (slice 16 40 page) ++ replicate 8 1).
#[local] Instance toy_cipher : CipherDelegate :=
  {| cipherPageSize := 64; cipherReserve := 8; sqlite3Codec := toy_codec; switchCipherSalt := fun _ => true |}.

Lemma flip_flip l : map flip (map flip l) = l.
Proof. rewrite List.map_map. rewrite <- (List.map_id l) at 2. apply List.map_ext. intros b. unfold flip. lia. Qed.
Lemma page_parts (page : list Z) : zlen page = 64 -> exists a b c, page = a ++ b ++ c /\ length a = 16%nat /\ length b = 40%nat /\ length c = 8%nat.
Proof.
  intros H. assert (Hl : length page = 64%nat) by (unfold zlen in H; lia).
  exists (take 16 page), (take 40 (drop 16 page)), (drop 40 (drop 16 page)).
  rewrite !take_drop, ?length_take, ?length_drop, Hl. done.
Qed.
Lemma slice_mid (a b c : list Z) : length a = 16%nat -> length b = 40%nat -> slice 16 40 (a ++ b ++ c) = b.
Proof. intros Ha Hb. unfold slice. rewrite drop_app_length' by done. by rewrite take_app_length'. Qed.
Lemma take_first (a b c : list Z) : length a = 16%nat -> take 16 (a ++ b ++ c) = a.
Proof. intros Ha. by rewrite take_app_length'. Qed.

#[local] Instance toy_cipher_laws : CodecLaws toy_cipher.
Proof.
  split.
  - done.
  - intros salt no page Hs Hp. destruct (page_parts page Hp) as (a & b & c & -> & Ha & Hb & Hc). eexists. split; [done|].
    rewrite slice_mid, take_first by done. assert (Hsl : length salt = 16%nat) by (unfold zlen in Hs; lia). split; [|split].
    + unfold zlen. cbn [Z.eqb Pos.eqb]. rewrite !length_app. destruct (no =? 1); rewrite ?List.length_map, ?Hsl, ?Ha, ?Hb; done.
    + unfold all_zero. rewrite !forallb_app. cbn. by rewrite !andb_false_r.
    + intros ->. cbn [Z.eqb Pos.eqb]. by rewrite take_first.
  - intros salt no page q Hs Hp [= <-]. destruct (page_parts page Hp) as (a & b & c & -> & Ha & Hb & Hc). eexists. split; [done|].
    assert (Hsl : length salt = 16%nat) by (unfold zlen in Hs; lia). rewrite (slice_mid a), (take_first a) by done. cbn [Z.eqb Pos.eqb].
    destruct (no =? 1) eqn:E.
    + rewrite slice_mid, take_first by (rewrite ?List.length_map; done). rewrite flip_flip. split.
      * unfold zlen. by rewrite !length_app, Hsl, Hb.
      * cbn [cipherPageSize cipherReserve toy_cipher]. change (64 - 8 - 16) with 40. by rewrite !slice_mid.
    + rewrite slice_mid, take_first by (rewrite ?List.length_map; done). rewrite !flip_flip. split.
      * unfold zlen. by rewrite !length_app, Ha, Hb.
      * cbn [cipherPageSize cipherReserve toy_cipher]. change (Z.to_nat (64 - 8)) with 56%nat.
        rewrite !app_assoc. rewrite !take_app_length'; [done|rewrite length_app; lia..].
Qed.

Lemma toy_memory : memory_given.
Proof. intros k n _. by eexists. Qed.

(** ** Materials *)

(** Two tables; the pages of the first are not in order and one is deleted. *)
Definition two_tables : Material :=
  MkMaterial (MkInfo 4096 0 (305419896, 4294967295) 7 3)
    [MkContent (str "a") (str "CREATE TABLE a(x)") [str "CREATE INDEX i ON a(x)"] 2 (-5)
       [MkVPage 300 17; MkVPage 0 99; MkVPage 4 4294967295];
     MkContent (str "b") (str "CREATE TABLE b(y)") [] 5 0 []] ∅.

Lemma two_tables_wf : material_wf two_tables.
Proof.
  unfold material_wf, two_tables, info_wf, content_wf, is_text, page_wf, is_u32. cbn [info contentsList].
  split; [cbn; lia|]. repeat constructor; try done; cbn; try lia.
Qed.

Lemma material_roundtrip_witness :
  exists data m1 m2,
    serialized two_tables 0 = Done (data, m1) /\
    deserialized 0 (data ++ [0; 0; 0]) new_material = Done (true, m2) /\
    info m2 = info two_tables /\ contentsList m2 = map saved_content (contentsList two_tables) /\
    forall i c, contentsList m2 !! i = Some c -> contentsMap m2 !! tableName c = Some i.
Proof.
  apply (material_roundtrip two_tables 0 0 [0; 0; 0]).
  - apply two_tables_wf.
  - cbn. apply NoDup_cons. split; [|apply NoDup_singleton]. by intros ?%list_elem_of_singleton.
  - apply toy_memory.
  - repeat constructor; done.
  - by vm_compute.
Defined.

Lemma encrypted_material_roundtrip_witness :
  exists data m1 file m2,
    serialized two_tables 0 = Done (data, m1) /\
    encryptedSerialize 0 (replicate 16 5) data = Done file /\
    decryptedDeserialize (deserialized 0) 0 [] file true new_material = Done (true, m2) /\
    info m2 = info two_tables /\ contentsList m2 = map saved_content (contentsList two_tables).
Proof.
  apply (encrypted_material_roundtrip two_tables 0 0 0 0 (replicate 16 5) [] true).
  - apply two_tables_wf.
  - apply toy_memory.
  - done.
  - by vm_compute.
  - done.
Defined.

(** A file with a checksum that is none: reading ends without a fault. *)
Lemma material_load_safe_witness :
  match deserialized 0 (str "BDCW") new_material with
  | Done _ => True
  | Stuck f =>
    (f = OutOfBounds /\ has_varint (str "BDCW") (fun v => 2 ^ 62 <= v)) \/ (f = Uncaught /\ has_varint (str "BDCW") (fun v => s32 v < 0))
  end.
Proof. apply (material_load_safe (str "BDCW") 0 new_material); [repeat constructor; done|by vm_compute]. Defined.

(** ** Incremental backups *)

Definition three_pages : IncMaterial :=
  MkIncMaterial (MkIncInfo (1, 2) (3, 4294967295) 5 300 77 true 1700000000 (-1))
    {[ 2 := MkIncPage 2 13 0; 9 := MkIncPage 9 5 4000000000; 300 := MkIncPage 300 127 1 ]}.

Lemma three_pages_wf : inc_wf three_pages.
Proof.
  split; [unfold inc_info_wf, is_u32; cbn; lia|]. unfold three_pages. cbn [inc_pages].
  repeat (apply map_Forall_insert_2; [unfold inc_page_wf, is_u32; cbn; lia|]). apply map_Forall_empty.
Qed.

Lemma inc_roundtrip_witness :
  exists data,
    inc_serialized three_pages 0 = Done data /\
    inc_deserialized 0 (data ++ []) (MkIncMaterial (new_inc_info 99) ∅) = Done (true, three_pages).
Proof.
  apply (inc_roundtrip three_pages 0 0 [] 99).
  - apply three_pages_wf.
  - apply toy_memory.
  - constructor.
  - by vm_compute.
Defined.

(** A file of 26 bytes. *)
Lemma inc_truncated_witness :
  inc_deserialized 0 (be4 inc_magic ++ be4 inc_version ++ replicate 16 200 ++ [0; 0] ++ []) (MkIncMaterial (new_inc_info 0) ∅) = Stuck OutOfBounds.
Proof.
  apply (inc_truncated_overreads 0 (MkIncMaterial (new_inc_info 0) ∅) (replicate 16 200) []); [done| |done].
  apply Forall_replicate. unfold is_byte. lia.
Defined.

(** ** What is written and not read *)

(** An empty associated statement is written, and the file is refused. *)
Definition empty_sql : Material :=
  MkMaterial new_info [MkContent (str "a") (str "CREATE TABLE a(x)") [[]] 2 0 []] ∅.

Example empty_sql_refused :
  exists data m1 m2, serialized empty_sql 0 = Done (data, m1) /\ data <> [] /\ deserialized 0 data new_material = Done (false, m2).
Proof. do 3 eexists. split; [vm_compute; reflexivity|]. split; [done|vm_compute; reflexivity]. Qed.
