(* ===== verification/MappedFile.v ===== *)
(** * Files that are read through memory (base/FileHandle.cpp, base/UnsafeData.cpp)

    The current version reads databases, write-ahead logs and materials through [FileHandle], which
    maps a part of a file into memory or reads the file from its start.  A [MappedData] is the list of the bytes it
    shows.  What the operating system answers is part of the file: the [k]-th request may be
    refused.  The model is that of POSIX systems, with a file that does not change while it is open. *)

From S2P Require Import Prelude CLib.

(** ** Views of data *)

(** [UnsafeData::subdata(offset, size)]: a view that is not inside the data is a fault. *)
Definition subdata (d : list Z) (offset size : Z) : res (list Z) :=
  if u64 size =? 0 then Done []
  else if u64 (offset + size) <=? zlen d then zread_n d offset (u64 size)
  else Done [].

(** [UnsafeData::subdata(size)] *)
Definition subdata_first (d : list Z) (size : Z) : res (list Z) :=
  if u64 size <=? zlen d then subdata d 0 size else Done [].

(** ** Files *)

(** The values of [errno] that are looked at. *)
Inductive Errno := EINTR | EDEVERR | EILSEQ | EINVAL | EOTHER.
#[export] Instance Errno_eq_dec : EqDecision Errno.
Proof. solve_decision. Defined.

(** How many of the first requests may be interrupted; it bounds the loop around [read]. *)
Class Interrupts := { read_turns : nat }.

(** A file and how the [k]-th request is answered: whether [stat], [open], [lseek], [malloc] and [mmap]
    succeed, and how many bytes [read] offers, with the value of [errno] after it. *)
Record Disk := MkDisk {
  dk_bytes : list Z;
  dk_pagesize : Z;
  dk_stat : nat -> bool;
  dk_open : nat -> bool;
  dk_lseek : nat -> bool;
  dk_malloc : nat -> bool;
  dk_mmap : nat -> bool;
  dk_read : nat -> Z -> Z * Errno
}.

(** [fh_opened] is [m_mode == ReadOnly] with a descriptor; [fh_size] is -1 until it is known. *)
Record FileHandle := FH {
  fh_disk : Disk;
  fh_opened : bool;
  fh_size : Z;
  fh_calls : nat
}.

Definition new_handle (d : Disk) : FileHandle := FH d false (-1) 0.

(** The next request. *)
Definition request : cm FileHandle nat :=
  let! k := gets fh_calls in
  modify (fun h => FH (fh_disk h) (fh_opened h) (fh_size h) (S (fh_calls h))) ;;;
  ret k.

(** [FileManager::getFileSize]: a file that does not exist is empty. *)
Definition getFileSize : cm FileHandle (option Z) :=
  let! k := request in
  let! d := gets fh_disk in
  ret (if dk_stat d k then Some (zlen (dk_bytes d)) else None).

(** [open(Mode::ReadOnly)] *)
Definition fh_open : cm FileHandle bool :=
  let! k := request in
  let! d := gets fh_disk in
  if dk_open d k
  then modify (fun h => FH (fh_disk h) true (fh_size h) (fh_calls h)) ;;; ret true
  else ret false.

Definition fh_getSize : cm FileHandle Z :=
  let! h := gets (fun h => h) in
  if fh_opened h && (0 <=? fh_size h) then ret (fh_size h)
  else
    let! size := getFileSize in
    match size with
    | Some n => modify (fun h => FH (fh_disk h) (fh_opened h) n (fh_calls h)) ;;; ret n
    | None => gets fh_size
    end.

(** *** Reading from the start *)

(** [::read(m_fd, buffer, n)] at some position: what was got, [errno] and the bytes. *)
Definition os_read (position n : Z) : cm FileHandle (Z * Errno * list Z) :=
  let! k := request in
  let! d := gets fh_disk in
  let (offered, err) := dk_read d k n in
  let got := if 0 <? offered then Z.min offered (Z.min n (zlen (dk_bytes d) - position)) else offered in
  ret (got, err, slice position got (dk_bytes d)).

(** The loop of [read]: [acc] has been read and [readSize] bytes are wanted.  The result is the
    last [got], and [prior] with the bytes of the buffer. *)
Fixpoint fh_read_loop (fuel : nat) (acc : list Z) (readSize : Z) : cm FileHandle (Z * Z * list Z) :=
  match fuel with
  | O => fail OutOfFuel
  | S fuel =>
    let! r := os_read (zlen acc) readSize in
    let '(got, err, bytes) := r in
    if got =? readSize then ret (got, zlen acc, acc ++ bytes)
    else if (got <=? 0) && bool_decide (err ∈ [EDEVERR; EILSEQ; EINVAL]) then ret (got, 0, acc)
    else if got <? 0 then
      if bool_decide (err = EINTR) then fh_read_loop fuel acc readSize else ret (got, 0, acc)
    else if 0 <? got then fh_read_loop fuel (acc ++ bytes) (readSize - got)
    else ret (got, zlen acc, acc)
  end.

Section read.
Context `{I : Interrupts}.

(** [FileHandle::read(size)].  What has been read is at the start of the buffer. *)
Definition fh_read (size : Z) : cm FileHandle (list Z) :=
  if size =? 0 then ret []
  else
    let! k := request in
    let! d := gets fh_disk in
    if negb (dk_malloc d k) then ret []
    else
      let! k := request in
      if negb (dk_lseek d k) then ret []
      else
        let! r := fh_read_loop (read_turns + Z.to_nat size + 1) [] size in
        let '(got, prior, data) := r in
        if u64 (got + prior) =? size then ret data
        else if u64 (got + prior) <=? size then ret (take (Z.to_nat (u64 (got + prior))) data)
        else ret [].

(** *** Mapping *)

(** [mmap]: sizes of zero and above the address space, and negative offsets, are refused; touching
    what is beyond the end of the file is an error. *)
Definition mmap (offset size : Z) : cm FileHandle (option (list Z)) :=
  let! k := request in
  let! d := gets fh_disk in
  if negb (dk_mmap d k) || (size =? 0) || (2 ^ 47 <=? size) || (offset <? 0) then ret None
  else if offset + size <=? zlen (dk_bytes d) then ret (Some (slice offset size (dk_bytes d)))
  else fail OutOfBounds.

(** [FileHandle::map(offset, length)]; four bytes are read first if the file is mapped from its start. *)
Definition fh_map (offset length : Z) : cm FileHandle (list Z) :=
  let! h := gets (fun h => h) in
  if negb (fh_opened h) then ret []
  else
    let! size := fh_getSize in
    let fileSize := u64 size in
    let pageSize := dk_pagesize (fh_disk h) in
    let offsetAlignment := u64 offset mod pageSize in
    let roundedOffset := s64 (offset - offsetAlignment) in
    let roundedSize := u64 (length + offsetAlignment) in
    let sizeAlignment := roundedSize mod pageSize in
    let roundedSize :=
      if sizeAlignment =? 0 then roundedSize else u64 (roundedSize + (pageSize - sizeAlignment)) in
    let roundedSize :=
      if fileSize <? u64 (roundedSize + roundedOffset) then u64 (fileSize - roundedOffset) else roundedSize in
    let! readable :=
      (if offset =? 0 then let! testData := fh_read 4 in ret (0 <? zlen testData) else ret true) in
    if negb readable then ret []
    else
      let! mapped := mmap roundedOffset roundedSize in
      match mapped with
      | None => ret []
      | Some m => lift_res (subdata m offsetAlignment (Z.min (u64 length) roundedSize))
      end.
End read.

(** ** What reading and mapping give *)

(** Only the first requests are interrupted, the size of the file is known, and memory pages have a
    size that is a power of two. *)
Class DiskLaws `{I : Interrupts} (d : Disk) : Prop := {
  disk_interrupts : forall k n m, dk_read d k n = (m, EINTR) -> (k < read_turns)%nat;
  disk_read_range : forall k n, -1 <= (dk_read d k n).1;
  disk_size : zlen (dk_bytes d) < 2 ^ 46;
  disk_stat : forall k, dk_stat d k = true;
  disk_page : exists i, 0 <= i <= 20 /\ dk_pagesize d = 2 ^ i
}.

(** Every request is granted. *)
Definition reliable (d : Disk) : Prop :=
  forall k, dk_open d k = true /\ dk_lseek d k = true /\ dk_malloc d k = true /\ dk_mmap d k = true
            /\ forall n, 0 < n -> (dk_read d k n).1 = n.

(** The handle after requests that only read. *)
Definition same_file (h h' : FileHandle) : Prop :=
  fh_disk h' = fh_disk h /\ fh_opened h' = fh_opened h /\ (fh_size h' = fh_size h \/ fh_size h' = zlen (dk_bytes (fh_disk h))).

#[export] Instance same_file_refl : Reflexive same_file.
Proof. intros h. repeat split. by left. Qed.
#[export] Instance same_file_trans : Transitive same_file.
Proof.
  intros [] [] [] (? & ? & ?) (? & ? & ?). unfold same_file in *. cbn in *. subst. repeat split. destruct_or!; subst; auto.
Qed.

Section facts.
Context `{I : Interrupts}.

Lemma wp_request h Q : (forall h', same_file h h' -> fh_size h' = fh_size h -> fh_calls h' = S (fh_calls h) -> Q (fh_calls h) h') -> wp request Q h.
Proof. intros HQ. unfold request. apply wp_bind_gets, wp_bind_modify, wp_ret, HQ; [|done..]. repeat split. by left. Qed.

(** What the loop around [read] returns: a failure, or the first bytes of the file. *)
Definition read_result (bytes : list Z) (size : Z) (r : Z * Z * list Z) : Prop :=
  let '(got, prior, data) := r in
  (got = -1 /\ prior = 0)
  \/ (0 <= got + prior <= size /\ got + prior <= zlen bytes
      /\ take (Z.to_nat (got + prior)) data = take (Z.to_nat (got + prior)) bytes
      /\ (got + prior = size -> data = take (Z.to_nat size) bytes)).

Lemma take_slice (l : list Z) (n m : nat) : take n l ++ slice (Z.of_nat n) (Z.of_nat m) l = take (n + m) l.
Proof. unfold slice. rewrite !Nat2Z.id. apply take_take_drop. Qed.

Lemma prefix_slice (l : list Z) acc got : acc = take (length acc) l -> 0 <= got ->
  acc ++ slice (zlen acc) got l = take (Z.to_nat (zlen acc + got)) l.
Proof.
  intros Ha Hg. unfold zlen. rewrite Ha at 1. rewrite <- (Z2Nat.id got) at 1 by done. rewrite take_slice. f_equal. lia.
Qed.

Lemma fh_read_loop_result d size fuel : forall acc n h Q,
  DiskLaws d -> fh_disk h = d -> acc = take (length acc) (dk_bytes d) -> 0 < n -> zlen acc + n = size -> zlen acc <= zlen (dk_bytes d) ->
  (read_turns - fh_calls h + Z.to_nat n < fuel)%nat ->
  (forall r h', same_file h h' -> read_result (dk_bytes d) size r ->
    (reliable d -> size <= zlen (dk_bytes d) -> r.1.1 + r.1.2 = size) -> Q r h') ->
  wp (fh_read_loop fuel acc n) Q h.
Proof.
  induction fuel as [|fuel IH]; intros acc n h Q L Hd Ha Hn Hs Hz Hf HQ; [lia|]. cbn [fh_read_loop].
  apply wp_bind. unfold os_read. apply wp_bind, wp_request. intros h' Hh Hsz Hc. apply wp_bind_gets. 
  assert (Hd' : fh_disk h' = d) by (destruct Hh; congruence). rewrite Hd'.
  destruct (dk_read d (fh_calls h) n) as [m err] eqn:Er. apply wp_ret.
  pose proof (disk_read_range (fh_calls h) n) as Hm. rewrite Er in Hm. cbn [fst] in Hm.
  set (got := if 0 <? m then Z.min m (Z.min n (zlen (dk_bytes d) - zlen acc)) else m).
  assert (Hg : -1 <= got <= n /\ zlen acc + got <= zlen (dk_bytes d)) by (unfold got; case_match; lia).
  assert (Hrel : reliable d -> size <= zlen (dk_bytes d) -> got = n).
  { intros R Hl. destruct (R (fh_calls h)) as (_ & _ & _ & _ & Hr). specialize (Hr n Hn). rewrite Er in Hr. cbn in Hr. unfold got. case_match; lia. }
  assert (Hbuf : 0 <= got -> acc ++ slice (zlen acc) got (dk_bytes d) = take (Z.to_nat (zlen acc + got)) (dk_bytes d)) by (by apply prefix_slice).
  clearbody got. zlen_pos. case_match.
  { apply wp_ret, HQ; [done| |intros; cbn; lia]. right. rewrite Hbuf by lia. rewrite take_take. replace (Z.to_nat (got + zlen acc)) with (Z.to_nat (zlen acc + got)) by lia.
    rewrite Nat.min_id. split_and!; [lia..|done|intros; f_equal; lia]. }
  assert (Hrel' : forall P : Prop, reliable d -> size <= zlen (dk_bytes d) -> P) by (intros P R Hl; specialize (Hrel R Hl); lia).
  case_match eqn:Ee.
  { apply wp_ret, HQ; [done| |apply Hrel']. destruct (decide (got = -1)) as [->|]; [by left|right]. assert (got = 0) as -> by lia. split_and!; (done || lia). }
  case_match.
  { destruct (bool_decide (err = EINTR)) eqn:E1; [apply bool_decide_eq_true in E1|].
    - apply (IH acc n h'); try done; [|intros; apply HQ; [by etrans|done..]].
      subst err. pose proof (disk_interrupts _ _ _ Er). lia.
    - apply wp_ret, HQ; [done| |apply Hrel']. left. lia. }
  case_match.
  { assert (Hl : zlen (acc ++ slice (zlen acc) got (dk_bytes d)) = zlen acc + got).
    { rewrite Hbuf by lia. unfold zlen in *. rewrite length_take. lia. }
    apply (IH _ (n - got) h'); try done; [| lia.. | |].
    - rewrite Hbuf at 1 by lia. f_equal. unfold zlen in *. lia.
    - unfold zlen in *. lia.
    - intros. apply HQ; [by etrans|done..]. }
  apply wp_ret, HQ; [done| |apply Hrel']. right. assert (got = 0) as -> by lia. split_and!; [lia..| |lia].
  replace (0 + zlen acc) with (zlen acc) by lia. rewrite to_nat_zlen, firstn_all. done.
Qed.

Lemma reliable_not d (P : Prop) k : dk_open d k && dk_lseek d k && dk_malloc d k && dk_mmap d k = false -> reliable d -> P.
Proof. intros Hk R. destruct (R k) as (H1 & H2 & H3 & H4 & _). by rewrite H1, H2, H3, H4 in Hk. Qed.

(** Reading gives the first bytes of the file, and all that are wanted if nothing is refused. *)
Lemma wp_fh_read d size h Q :
  DiskLaws d -> fh_disk h = d -> 0 < size < 2 ^ 62 ->
  (forall r h', same_file h h' -> zlen r <= size -> (exists n, r = take n (dk_bytes d)) ->
    (reliable d -> size <= zlen (dk_bytes d) -> r = take (Z.to_nat size) (dk_bytes d)) -> Q r h') ->
  wp (fh_read size) Q h.
Proof.
  intros L Hd Hs HQ. unfold fh_read. rewrite (proj2 (Z.eqb_neq size 0)) by lia.
  assert (Hnil : forall h' : FileHandle, same_file h h' -> (reliable d -> size <= zlen (dk_bytes d) -> False) -> Q [] h').
  { intros h' Hh Hr. apply HQ; [done|rewrite zlen_nil; lia|by exists 0%nat|intros R Hl; by destruct (Hr R Hl)]. }
  apply wp_bind, wp_request. intros h1 S1 _ C1. apply wp_bind_gets. assert (Hd1 : fh_disk h1 = d) by (destruct S1; congruence). rewrite Hd1.
  destruct (dk_malloc d _) eqn:Em; cbn [negb].
  2: { apply wp_ret, Hnil; [done|]. intros R _. revert R. apply (reliable_not _ _ (fh_calls h)). rewrite Em. by destruct (dk_open d _), (dk_lseek d _). }
  apply wp_bind, wp_request. intros h2 S2 _ C2. assert (Hd2 : fh_disk h2 = d) by (destruct S2; congruence).
  destruct (dk_lseek d _) eqn:El; cbn [negb].
  2: { apply wp_ret, Hnil; [by etrans|]. intros R _. revert R. apply (reliable_not _ _ (fh_calls h1)). rewrite El. by destruct (dk_open d _). }
  apply wp_bind. apply (fh_read_loop_result d size); rewrite ?zlen_nil; try (done || lia); [apply zlen_nonneg|].
  intros [[got prior] data] h3 S3 HR Hrel. assert (S : same_file h h3) by (by etrans; [etrans|]). cbn in Hrel.
  destruct HR as [[-> ->]|(H1 & H2 & H3 & H4)].
  - change (u64 (-1 + 0)) with (2 ^ 64 - 1). rewrite (proj2 (Z.eqb_neq _ _)), (proj2 (Z.leb_gt _ _)) by lia. apply wp_ret, Hnil; [done|].
    intros R Hl. specialize (Hrel R Hl). lia.
  - unfold u64. rewrite Z.mod_small by lia. case_match.
    + apply wp_ret. rewrite H4 by lia. apply HQ; [done|unfold zlen; rewrite length_take; lia|by eexists|done].
    + rewrite (proj2 (Z.leb_le _ _)) by lia. apply wp_ret. rewrite H3.
      apply HQ; [done|unfold zlen; rewrite length_take; lia|by eexists|intros R Hl; specialize (Hrel R Hl); lia].
Qed.

(** The size is unknown or right. *)
Definition sound_handle (d : Disk) (h : FileHandle) : Prop :=
  fh_disk h = d /\ fh_opened h = true /\ (fh_size h = -1 \/ fh_size h = zlen (dk_bytes d)).

Lemma sound_same d h h' : sound_handle d h -> same_file h h' -> sound_handle d h'.
Proof. intros (H1 & H2 & H3) (S1 & S2 & S3). unfold sound_handle. rewrite S1, S2. rewrite H1 in S3. repeat split; [done..|]. destruct S3 as [-> | ->]; auto. Qed.

Lemma wp_fh_getSize d h Q : DiskLaws d -> sound_handle d h ->
  (forall h', same_file h h' -> Q (zlen (dk_bytes d)) h') -> wp fh_getSize Q h.
Proof.
  intros L (Hd & Ho & Hs) HQ. unfold fh_getSize. apply wp_bind_gets. rewrite Ho. cbn [andb].
  destruct (0 <=? fh_size h) eqn:E.
  - apply wp_ret. destruct Hs as [Hs|Hs]; rewrite Hs in *; [done|]. by apply HQ.
  - apply wp_bind. unfold getFileSize. apply wp_bind, wp_request. intros h' S' Hz _. apply wp_bind_gets, wp_ret.
    assert (Hd' : fh_disk h' = d) by (destruct S'; congruence). rewrite Hd', disk_stat. apply wp_bind_modify, wp_ret, HQ.
    destruct S' as (S1 & S2 & S3). repeat split; cbn; [congruence..|]. right. by rewrite Hd.
Qed.

(** The alignment of an offset, for a page size that is a power of two. *)
Lemma align_bounds d offset : DiskLaws d -> 0 <= offset < 2 ^ 47 ->
  0 < dk_pagesize d <= 2 ^ 20 /\ u64 offset mod dk_pagesize d = offset mod dk_pagesize d /\ 0 <= offset mod dk_pagesize d < dk_pagesize d
  /\ offset mod dk_pagesize d <= offset.
Proof.
  intros L Ho. destruct (disk_page (d := d)) as (i & Hi & Hp).
  assert (0 < dk_pagesize d <= 2 ^ 20) by (rewrite Hp; split; [apply Z.pow_pos_nonneg; lia|apply Z.pow_le_mono_r; lia]).
  unfold u64. rewrite (Z.mod_small offset (2 ^ 64)) by lia. pose proof (Z.mod_pos_bound offset (dk_pagesize d)). pose proof (Z.mod_le offset (dk_pagesize d)). lia.
Qed.

Lemma slice_within {A} (l : list A) i n j m : 0 <= i -> 0 <= j -> 0 <= m -> j + m <= n -> slice j m (slice i n l) = slice (i + j) m l.
Proof.
  intros. unfold slice. rewrite skipn_firstn_comm, take_take, drop_drop. f_equal; [lia|f_equal; lia].
Qed.


(** Mapping a part of the file gives its bytes, or nothing when a request is refused. *)
Lemma wp_fh_map d offset len h Q :
  DiskLaws d -> sound_handle d h -> 0 <= offset -> 0 < len -> offset + len <= zlen (dk_bytes d) ->
  (forall r h', same_file h h' -> r = [] \/ r = slice offset len (dk_bytes d) ->
    (reliable d -> 4 <= zlen (dk_bytes d) -> r = slice offset len (dk_bytes d)) -> Q r h') ->
  wp (fh_map offset len) Q h.
Proof.
  intros L Hh Ho Hl Hfit HQ. pose proof (disk_size (d := d)) as Hsize. pose proof Hh as (Hd & Hop & _).
  unfold fh_map. apply wp_bind_gets. rewrite Hop. cbn [negb]. apply wp_bind, (wp_fh_getSize d); [done..|]. intros h1 S1. cbn zeta. rewrite Hd.
  destruct (align_bounds d offset L ltac:(lia)) as (Hp & -> & Ha & Hle). set (ps := dk_pagesize d) in *. set (a := offset mod ps) in *.
  assert (Hro : s64 (offset - a) = offset - a) by (apply wrap_s_small; lia). rewrite Hro.
  assert (E1 : u64 (len + a) = len + a) by (unfold u64; apply Z.mod_small; lia). rewrite E1.
  set (rs := if (len + a) mod ps =? 0 then _ else _). assert (Hrs : len + a <= rs < len + a + ps).
  { unfold rs. pose proof (Z.mod_pos_bound (len + a) ps ltac:(lia)). case_match; [lia|]. unfold u64. rewrite Z.mod_small by lia. lia. }
  assert (E2 : u64 (rs + (offset - a)) = rs + (offset - a)) by (unfold u64; apply Z.mod_small; lia).
  assert (E3 : u64 (zlen (dk_bytes d)) = zlen (dk_bytes d)) by (unfold u64; apply Z.mod_small; zlen_pos; lia). rewrite E2, E3.
  set (size := if zlen (dk_bytes d) <? _ then _ else _).
  assert (Hz : len + a <= size /\ offset - a + size <= zlen (dk_bytes d)).
  { unfold size. case_match; [|lia]. unfold u64. rewrite Z.mod_small by lia. lia. }
  clearbody size. clear rs Hrs E2. zlen_pos.
  apply wp_bind.
  assert (Hmap : forall (readable : bool) h2, same_file h h2 -> (reliable d -> 4 <= zlen (dk_bytes d) -> readable = true) ->
    wp (if negb readable then ret []
        else let! mapped := mmap (offset - a) size in
             match mapped with None => ret [] | Some m => lift_res (subdata m a (Z.min (u64 len) size)) end) Q h2).
  { intros readable h2 S2 Hr. destruct readable; cbn [negb].
    2: { apply wp_ret, HQ; [done|by left|intros R H4; by specialize (Hr R H4)]. }
    apply wp_bind. unfold mmap. apply wp_bind, wp_request. intros h3 S3 _ _. apply wp_bind_gets.
    assert (Hd3 : fh_disk h3 = d) by (destruct S2 as (? & _), S3 as (? & _); congruence). rewrite Hd3.
    destruct (dk_mmap d _) eqn:Em; cbn [negb orb].
    2: { apply wp_ret, wp_ret, HQ; [by etrans|by left|]. intros R _. revert R. apply (reliable_not _ _ (fh_calls h2)).
      rewrite Em. by rewrite andb_false_r. }
    rewrite (proj2 (Z.eqb_neq size 0)), (proj2 (Z.leb_gt (2 ^ 47) size)), (proj2 (Z.ltb_ge (offset - a) 0)), (proj2 (Z.leb_le _ _)) by lia. cbn [orb].
    apply wp_ret. assert (Hs : subdata (slice (offset - a) size (dk_bytes d)) a (Z.min (u64 len) size) = Done (slice offset len (dk_bytes d))).
    { unfold u64 at 1. rewrite Z.mod_small, Z.min_l by lia. unfold subdata, u64. rewrite !(Z.mod_small) by lia.
      rewrite (proj2 (Z.eqb_neq len 0)), zlen_slice, (proj2 (Z.leb_le _ _)) by lia. rewrite zread_n_slice by (rewrite ?zlen_slice; lia).
      f_equal. rewrite slice_within by lia. f_equal; lia. }
    eapply wp_lift_res; [exact Hs|]. apply HQ; [by etrans|by right|done]. }
  destruct (offset =? 0) eqn:E0.
  - apply wp_bind, (wp_fh_read d); [done|destruct S1; congruence|lia|]. intros r h2 S2 _ _ Hr. apply wp_ret, Hmap; [by etrans|].
    intros R H4. rewrite (Hr R H4). apply Z.ltb_lt. unfold zlen in *. rewrite length_take. lia.
  - by apply wp_ret, Hmap.
Qed.

(** Mapping more than the file has, from its start, gives the whole file. *)
Lemma wp_fh_map_short d len h Q :
  DiskLaws d -> sound_handle d h -> 0 < zlen (dk_bytes d) < len -> len < 2 ^ 46 ->
  (forall r h', same_file h h' -> r = [] \/ r = dk_bytes d -> Q r h') -> wp (fh_map 0 len) Q h.
Proof.
  intros L Hh Hl Hlen HQ. pose proof Hh as (Hd & Hop & _).
  unfold fh_map. apply wp_bind_gets. rewrite Hop. cbn [negb]. apply wp_bind, (wp_fh_getSize d); [done..|]. intros h1 S1. cbn zeta. rewrite Hd.
  destruct (align_bounds d 0 L ltac:(lia)) as (Hp & -> & _ & _). set (ps := dk_pagesize d) in *. rewrite Z.mod_0_l, Z.sub_0_r by lia.
  change (s64 0) with 0. rewrite ?Z.add_0_r. assert (E1 : u64 len = len) by (unfold u64; apply Z.mod_small; lia). rewrite E1.
  set (rs := if len mod ps =? 0 then _ else _). assert (Hrs : len <= rs < len + ps).
  { unfold rs. pose proof (Z.mod_pos_bound len ps ltac:(lia)). case_match; [lia|]. unfold u64. rewrite Z.mod_small by lia. lia. }
  assert (E2 : u64 rs = rs) by (unfold u64; apply Z.mod_small; lia).
  assert (E3 : u64 (zlen (dk_bytes d)) = zlen (dk_bytes d)) by (unfold u64; apply Z.mod_small; lia).
  rewrite E2, E3, Z.sub_0_r, E3, (proj2 (Z.ltb_lt _ _)) by lia. cbn [Z.eqb].
  apply wp_bind, wp_bind, (wp_fh_read d); [done|destruct S1; congruence|lia|]. intros r h2 S2 _ _ _. apply wp_ret.
  assert (S2' : same_file h h2) by (by etrans).
  destruct (0 <? zlen r); cbn [negb]; [|apply wp_ret, HQ; [done|by left]].
  apply wp_bind. unfold mmap. apply wp_bind, wp_request. intros h3 S3 _ _. apply wp_bind_gets.
  assert (Hd3 : fh_disk h3 = d) by (destruct S2' as (? & _), S3 as (? & _); congruence). rewrite Hd3.
  rewrite (proj2 (Z.eqb_neq (zlen (dk_bytes d)) 0)), (proj2 (Z.leb_gt (2 ^ 47) (zlen (dk_bytes d)))), Z.add_0_l, Z.leb_refl by lia. cbn [Z.ltb Z.compare].
  rewrite !orb_false_r. destruct (negb (dk_mmap d _)); apply wp_ret; [apply wp_ret, HQ; [by etrans|by left]|].
  assert (Hs : slice 0 (zlen (dk_bytes d)) (dk_bytes d) = dk_bytes d) by (unfold slice; rewrite to_nat_zlen; apply firstn_all).
  rewrite Hs, Z.min_r by lia. unfold subdata. rewrite Z.add_0_l, E3, (proj2 (Z.eqb_neq _ _)), Z.leb_refl by lia.
  rewrite zread_n_slice, Hs by lia. eapply wp_lift_res; [done|]. apply HQ; [by etrans|by right].
Qed.
End facts.
