(* ===== verification/WalLog.v ===== *)
(** * The write-ahead log (repair/parse/Shm.cpp, Frame.cpp, Wal.cpp)

    The repair of the current version reads the write-ahead log of a database without SQLite: the
    header and the checkpoint information of the -shm file, the header of the -wal file, and its
    frames with their running checksum.  The result is the map from pages to the frames that hold
    their committed content.

    The machine is little-endian.  [int] arithmetic on offsets and sizes is checked; conversions
    between [uint32_t], [size_t] and [int] wrap around.  The error that [Wal] sets in its pager is the last
    component of the state; what messages say is left out. *)

From stdpp Require Import gmap.
From S2P Require Import Prelude CLib Serial MappedFile.

(** The kinds of [Error] the repair sets: [Threaded] is what the last failed request left behind for
    the thread. *)
Inductive RepairError :=
| NoError
| Threaded
| Corrupt (number : Z)
| NotADatabase
| EmptyFile
| Interrupted.

#[export] Instance RepairError_eq_dec : EqDecision RepairError.
Proof. solve_decision. Defined.

Definition isCorruption (e : RepairError) : bool :=
  match e with Corrupt _ | NotADatabase => true | _ => false end.

(** [Initializeable] *)
Inductive InitState := NotInitialized | Initializing | Initialized | Failed.
#[export] Instance InitState_eq_dec : EqDecision InitState.
Proof. solve_decision. Defined.

(** [Initializeable::initialize], for an object whose state is read and set by the first two. *)
Definition initialize {S} (get : S -> InitState) (set : InitState -> S -> S) (doInitialize : cm S bool) : cm S bool :=
  let! st := gets get in
  match st with
  | NotInitialized =>
    modify (set Initializing) ;;;
    let! ok := doInitialize in
    modify (set (if ok : bool then Initialized else Failed)) ;;;
    ret ok
  | _ => ret (bool_decide (st = Initialized))
  end.

(** ** State *)

Definition Salt : Type := Z * Z.

(** The 48 bytes of [m_header] and the 40 bytes of [m_checkpointInfo]. *)
Record Shm := MkShm {
  shm_file : FileHandle;
  shm_header : list Z;
  shm_info : list Z;
  shm_init : InitState
}.

Record Wal := MkWal {
  w_file : FileHandle;
  w_pageSize : Z;
  w_fileSize : Z;
  w_truncate : Z;
  w_nbackfill : Z;
  w_maxFrame : Z;
  w_native : bool;
  w_salt : Salt;
  w_shmLegality : bool;
  w_shm : Shm;
  w_pages : gmap Z Z;
  w_disposed : gset Z;
  w_init : InitState;
  w_error : RepairError
}.

Definition shmHeaderSize : Z := 48.
Definition shmInfoSize : Z := 40.
Definition walHeaderSize : Z := 32.
Definition frameHeaderSize : Z := 24.
Definition shmVersion : Z := 3007000.

(** [Shm::Header::Header()]: only two fields are set, [junk] is what the memory held. *)
Definition new_header (junk : list Z) : list Z :=
  le_bytes 4 shmVersion ++ slice 4 12 junk ++ le_bytes 4 (2 ^ 32 - 1) ++ slice 20 28 junk.

Definition new_shm (d : Disk) (junk : list Z) : Shm :=
  MkShm (new_handle d) (new_header junk) (zeros shmInfoSize) NotInitialized.

(** [Wal::Wal]; [m_nbackfill] is not set. *)
Definition new_wal (wal shm : Disk) (pageSize : Z) (junk : list Z) (nbackfill : Z) : Wal :=
  MkWal (new_handle wal) pageSize 0 (2 ^ 32 - 1) nbackfill 0 false (0, 0) true (new_shm shm junk) ∅ ∅ NotInitialized NoError.

(** *** Updates *)

Definition set_w_file (v : FileHandle) (w : Wal) : Wal :=
  MkWal v (w_pageSize w) (w_fileSize w) (w_truncate w) (w_nbackfill w) (w_maxFrame w) (w_native w) (w_salt w)
    (w_shmLegality w) (w_shm w) (w_pages w) (w_disposed w) (w_init w) (w_error w).
Definition set_w_fileSize (v : Z) (w : Wal) : Wal :=
  MkWal (w_file w) (w_pageSize w) v (w_truncate w) (w_nbackfill w) (w_maxFrame w) (w_native w) (w_salt w)
    (w_shmLegality w) (w_shm w) (w_pages w) (w_disposed w) (w_init w) (w_error w).
Definition set_w_nbackfill (v : Z) (w : Wal) : Wal :=
  MkWal (w_file w) (w_pageSize w) (w_fileSize w) (w_truncate w) v (w_maxFrame w) (w_native w) (w_salt w)
    (w_shmLegality w) (w_shm w) (w_pages w) (w_disposed w) (w_init w) (w_error w).
Definition set_w_native (v : bool) (w : Wal) : Wal :=
  MkWal (w_file w) (w_pageSize w) (w_fileSize w) (w_truncate w) (w_nbackfill w) (w_maxFrame w) v (w_salt w)
    (w_shmLegality w) (w_shm w) (w_pages w) (w_disposed w) (w_init w) (w_error w).
Definition set_w_salt (v : Salt) (w : Wal) : Wal :=
  MkWal (w_file w) (w_pageSize w) (w_fileSize w) (w_truncate w) (w_nbackfill w) (w_maxFrame w) (w_native w) v
    (w_shmLegality w) (w_shm w) (w_pages w) (w_disposed w) (w_init w) (w_error w).
Definition set_w_legality (v : bool) (w : Wal) : Wal :=
  MkWal (w_file w) (w_pageSize w) (w_fileSize w) (w_truncate w) (w_nbackfill w) (w_maxFrame w) (w_native w) (w_salt w)
    v (w_shm w) (w_pages w) (w_disposed w) (w_init w) (w_error w).
Definition set_w_shm (v : Shm) (w : Wal) : Wal :=
  MkWal (w_file w) (w_pageSize w) (w_fileSize w) (w_truncate w) (w_nbackfill w) (w_maxFrame w) (w_native w) (w_salt w)
    (w_shmLegality w) v (w_pages w) (w_disposed w) (w_init w) (w_error w).
Definition set_w_index (truncate maxFrame : Z) (pages : gmap Z Z) (w : Wal) : Wal :=
  MkWal (w_file w) (w_pageSize w) (w_fileSize w) truncate (w_nbackfill w) maxFrame (w_native w) (w_salt w)
    (w_shmLegality w) (w_shm w) pages (w_disposed w) (w_init w) (w_error w).
Definition set_w_disposed (v : gset Z) (w : Wal) : Wal :=
  MkWal (w_file w) (w_pageSize w) (w_fileSize w) (w_truncate w) (w_nbackfill w) (w_maxFrame w) (w_native w) (w_salt w)
    (w_shmLegality w) (w_shm w) (w_pages w) v (w_init w) (w_error w).
Definition set_w_init (v : InitState) (w : Wal) : Wal :=
  MkWal (w_file w) (w_pageSize w) (w_fileSize w) (w_truncate w) (w_nbackfill w) (w_maxFrame w) (w_native w) (w_salt w)
    (w_shmLegality w) (w_shm w) (w_pages w) (w_disposed w) v (w_error w).
Definition set_w_error (v : RepairError) (w : Wal) : Wal :=
  MkWal (w_file w) (w_pageSize w) (w_fileSize w) (w_truncate w) (w_nbackfill w) (w_maxFrame w) (w_native w) (w_salt w)
    (w_shmLegality w) (w_shm w) (w_pages w) (w_disposed w) (w_init w) v.

Definition wal_markAsCorrupted (frame : Z) : cm Wal unit := modify (set_w_error (Corrupt frame)).
(** [assignWithSharedThreadedError] *)
Definition wal_threaded : cm Wal unit := modify (set_w_error Threaded).

(** Requests on the two files. *)
Definition on_wal_file {A} (c : cm FileHandle A) : cm Wal A := zoom w_file set_w_file c.
Definition on_shm_file {A} (c : cm FileHandle A) : cm Wal A :=
  zoom (fun w => shm_file (w_shm w))
    (fun h w => set_w_shm (MkShm h (shm_header (w_shm w)) (shm_info (w_shm w)) (shm_init (w_shm w))) w) c.

(** Reading the fields of some data. *)
Definition parse {S A} (c : cm Deserialization A) (data : list Z) : cm S A :=
  lift_res (match c (new_deserialization data) with Done (a, _) => Done a | Stuck f => Stuck f end).

(** ** The -shm file *)

Definition shm_maxFrame (s : Shm) : Z := le_val (slice 16 4 (shm_header s)).
Definition shm_backfill (s : Shm) : Z := le_val (slice 0 4 (shm_info s)).

(** The four bytes [p] with the first as the highest. *)
Definition salt_of (p : list Z) : Z :=
  match p with
  | [p0; p1; p2; p3] => Z.lor (Z.lor (Z.lor (Z.shiftl p0 24) (Z.shiftl p1 16)) (Z.shiftl p2 8)) p3
  | _ => 0
  end.
Definition shm_salt (s : Shm) : Salt := (salt_of (slice 32 4 (shm_header s)), salt_of (slice 36 4 (shm_header s))).

Section wal.
Context `{I : Interrupts}.

Definition shm_doInitialize : cm Wal bool :=
  let! size := on_shm_file getFileSize in
  match size with
  | None => wal_threaded ;;; ret false
  | Some fileSize =>
    if fileSize =? 0 then ret true
    else
      let! opened := on_shm_file fh_open in
      if negb opened then wal_threaded ;;; ret false
      else if fileSize <? shmHeaderSize then modify (set_w_error (Corrupt 0)) ;;; ret false
      else
        let size := shmHeaderSize * 2 + shmInfoSize in
        let! data := on_shm_file (fh_map 0 size) in
        if negb (zlen data =? size) then
          (if 0 <? zlen data then modify (set_w_error (Corrupt 0)) else wal_threaded) ;;;
          ret false
        else
          modify (fun w => set_w_shm (MkShm (shm_file (w_shm w)) (slice 0 shmHeaderSize data) (shm_info (w_shm w)) (shm_init (w_shm w))) w) ;;;
          let! s := gets w_shm in
          if negb (le_val (slice 0 4 (shm_header s)) =? shmVersion) then modify (set_w_error (Corrupt 0)) ;;; ret false
          else
            modify (fun w => set_w_shm (MkShm (shm_file (w_shm w)) (shm_header (w_shm w))
              (slice (shmHeaderSize * 2) shmInfoSize data) (shm_init (w_shm w))) w) ;;;
            ret true
  end.

Definition shm_initialize : cm Wal bool :=
  initialize (fun w => shm_init (w_shm w))
    (fun st w => set_w_shm (MkShm (shm_file (w_shm w)) (shm_header (w_shm w)) (shm_info (w_shm w)) st) w)
    shm_doInitialize.

(** ** The -wal file *)

Definition getFrameSize (w : Wal) : Z := frameHeaderSize + w_pageSize w.

Definition acquireData (offset size : Z) : cm Wal (list Z) :=
  let! data := on_wal_file (fh_map offset size) in
  if zlen data =? u64 size then ret data
  else
    (if 0 <? zlen data then
       let! w := gets (fun w => w) in
       wal_markAsCorrupted (s32 (Z.quot (offset - walHeaderSize) (getFrameSize w) + 1))
     else wal_threaded) ;;;
    ret [].

(** The offset of a frame, an [int]. *)
Definition frame_offset (w : Wal) (frameno : Z) : res Z :=
  let? before := chk_int (frameno - 1) in
  let? size := chk_int (getFrameSize w * before) in
  chk_int (walHeaderSize + size).

Definition containsPage (w : Wal) (pageno : Z) : bool := bool_decide (is_Some (w_pages w !! pageno)).

(** [acquirePageData(pageno, offset, size)]; [operator[]] makes an entry when there is none. *)
Definition wal_acquirePageData (pageno offset size : Z) : cm Wal (list Z) :=
  (let! w := gets (fun w => w) in
   match w_pages w !! pageno with
   | Some _ => ret tt
   | None => modify (fun w => set_w_index (w_truncate w) (w_maxFrame w) (<[pageno := 0]> (w_pages w)) w)
   end) ;;;
  let! w := gets (fun w => w) in
  let! base := lift_res (frame_offset w (default 0 (w_pages w !! pageno))) in
  let! base := lift_res (chk_int (base + frameHeaderSize)) in
  acquireData (base + offset) size.

Definition getMaxPageno (w : Wal) : Z :=
  match map_to_list (w_pages w) with
  | [] => 0
  | (k, _) :: l => foldr Z.max k (map fst l)
  end.

Definition isCheckpointIncreasedSalt (before after : Salt) : bool :=
  (u32 (before.1 + 1) =? after.1) && negb (before.2 =? after.2).

Definition setShmLegality (flag : bool) : cm Wal unit := modify (set_w_legality flag).
Definition wal_getNBackFill (w : Wal) : Z := s32 (shm_backfill (w_shm w)).
Definition wal_setNBackFill (n : Z) : cm Wal unit := modify (set_w_nbackfill n).
Definition getNumberOfFrames (w : Wal) : Z := Z.of_nat (size (w_pages w)).
Definition setSalt (s : Salt) : cm Wal unit := modify (set_w_salt s).
Definition getDisposedPages (w : Wal) : Z := Z.of_nat (size (w_disposed w)).

Definition acquireFrameData (frameno : Z) : cm Wal (list Z) :=
  let! w := gets (fun w => w) in
  let! offset := lift_res (frame_offset w frameno) in
  acquireData offset (getFrameSize w).

(** *** Checksums *)

Definition BYTESWAP32 (x : Z) : Z :=
  Z.shiftl (Z.land x 255) 24 + Z.shiftl (Z.land x 65280) 8 + Z.shiftr (Z.land x 16711680) 8 + Z.shiftr (Z.land x 4278190080) 24.

(** [Wal::calculateChecksum]: two words at a time. *)
Fixpoint checksum_loop (native : bool) (data : list Z) (c : Z * Z) : res (Z * Z) :=
  match data with
  | b0 :: b1 :: b2 :: b3 :: b4 :: b5 :: b6 :: b7 :: rest =>
    let w0 := le_val [b0; b1; b2; b3] in
    let w1 := le_val [b4; b5; b6; b7] in
    let x0 := if native then w0 else BYTESWAP32 w0 in
    let x1 := if native then w1 else BYTESWAP32 w1 in
    let first := u32 (c.1 + x0 + c.2) in
    let second := u32 (c.2 + x1 + first) in
    match rest with
    | [] => Done (first, second)
    | _ => checksum_loop native rest (first, second)
    end
  | _ => Stuck OutOfBounds
  end.

Definition wal_calculateChecksum (data : list Z) (c : Z * Z) : cm Wal (Z * Z) :=
  let! native := gets w_native in lift_res (checksum_loop native data c).

(** *** Frames *)

Record Frame := MkFrame {
  fr_no : Z;
  fr_pageno : Z;
  fr_truncate : Z;
  fr_checksum : Z * Z;
  fr_data : list Z
}.

(** The six numbers of a frame header. *)
Definition frame_fields : cm Deserialization (Z * Z * Salt * (Z * Z)) :=
  let! pageno := advance4BytesUInt in
  let! truncate := advance4BytesUInt in
  let! s1 := advance4BytesUInt in
  let! s2 := advance4BytesUInt in
  let! c1 := advance4BytesUInt in
  let! c2 := advance4BytesUInt in
  ret (s32 pageno, truncate, (s1, s2), (c1, c2)).

(** [Frame::doInitialize] on a new frame. *)
Definition frame_initialize (frameno : Z) : cm Wal (option Frame) :=
  let! data := acquireFrameData frameno in
  match data with
  | [] => ret None
  | _ =>
    let! (pageno, truncate, salt, checksum) := parse frame_fields data in
    let! w := gets (fun w => w) in
    if negb (bool_decide (salt = w_salt w)) then wal_markAsCorrupted frameno ;;; ret None
    else ret (Some (MkFrame frameno pageno truncate checksum data))
  end.

Definition frame_calculateChecksum (f : Frame) (source : Z * Z) : cm Wal (Z * Z) :=
  let! d := lift_res (subdata (fr_data f) 0 8) in
  let! c := wal_calculateChecksum d source in
  let! w := gets (fun w => w) in
  let! d := lift_res (subdata (fr_data f) frameHeaderSize (w_pageSize w)) in
  wal_calculateChecksum d c.

(** *** Initialization *)

Definition dispose : cm Wal unit :=
  modify (fun w =>
    MkWal (w_file w) (w_pageSize w) 0 (2 ^ 32 - 1) (w_nbackfill w) 0 (w_native w) (0, 0)
      (w_shmLegality w) (w_shm w) ∅ (dom (w_pages w) ∪ w_disposed w) (w_init w) (w_error w)).

(** The loop over [n] frames from [frameno] on.  [None]: the function returns [false]; otherwise the
    records that are not committed yet. *)
Fixpoint frames_loop (n : nat) (frameno : Z) (checksum : Z * Z) (committedRecords : gmap Z Z) : cm Wal (option (gmap Z Z)) :=
  match n with
  | O => ret (Some committedRecords)
  | S n =>
    let! frame := frame_initialize frameno in
    match frame with
    | None => dispose ;;; ret None
    | Some f =>
      let! checksum := frame_calculateChecksum f checksum in
      if negb (bool_decide (checksum = fr_checksum f)) then
        let! legal := gets w_shmLegality in
        if legal : bool then wal_markAsCorrupted frameno ;;; ret None
        else ret (Some committedRecords)
      else
        let committedRecords := <[fr_pageno f := frameno]> committedRecords in
        if negb (fr_truncate f =? 0) then
          modify (fun w => set_w_index (fr_truncate f) frameno (committedRecords ∪ w_pages w) w) ;;;
          frames_loop n (frameno + 1) (fr_checksum f) ∅
        else frames_loop n (frameno + 1) (fr_checksum f) committedRecords
    end
  end.

Definition INT_MAX : Z := 2 ^ 31 - 1.

(** What the -shm file says: [None] for failure, otherwise the last valid frame. *)
Definition load_shm : cm Wal (option Z) :=
  let! legal := gets w_shmLegality in
  if negb legal then ret (Some INT_MAX)
  else
    let! ok := shm_initialize in
    if negb ok then ret None
    else
      let! s := gets w_shm in
      modify (set_w_nbackfill (s32 (shm_backfill s))) ;;;
      modify (set_w_salt (shm_salt s)) ;;;
      ret (Some (s32 (shm_maxFrame s))).

(** The part of [doInitialize] behind the decision which frames are read. *)
Definition read_frames (data : list Z) (maxWalFrame : Z) (stored : Z * Z) : cm Wal bool :=
  let! head := lift_res (subdata_first data (walHeaderSize - 8)) in
  let! checksum := wal_calculateChecksum head (0, 0) in
  if negb (bool_decide (checksum = stored)) then wal_markAsCorrupted 0 ;;; ret false
  else
    let! w := gets (fun w => w) in
    let! start :=
      (if 0 <? w_nbackfill w then
         let! frame := frame_initialize (w_nbackfill w) in
         match frame with
         | None => dispose ;;; ret None
         | Some f => ret (Some (fr_checksum f))
         end
       else ret (Some checksum)) in
    match start with
    | None => ret false
    | Some checksum =>
      let! committedRecords := frames_loop (Z.to_nat (maxWalFrame - w_nbackfill w)) (w_nbackfill w + 1) checksum ∅ in
      match committedRecords with
      | None => ret false
      | Some m => modify (fun w => set_w_disposed (dom m ∪ w_disposed w) w) ;;; ret true
      end
    end.

(** Magic, salt and checksum of the header. *)
Definition wal_header_fields : cm Deserialization (Z * Salt * (Z * Z)) :=
  let! magic := advance4BytesUInt in
  de_seek 16 ;;;
  let! s1 := advance4BytesUInt in
  let! s2 := advance4BytesUInt in
  let! c1 := advance4BytesUInt in
  let! c2 := advance4BytesUInt in
  ret (magic, (s1, s2), (c1, c2)).

(** The part of [doInitialize] behind the -shm file. *)
Definition load_log (maxWalFrame : Z) : cm Wal bool :=
  let! fileSize := on_wal_file getFileSize in
  match fileSize with
  | None => wal_threaded ;;; ret false
  | Some fileSize =>
    modify (set_w_fileSize fileSize) ;;;
    if fileSize =? 0 then ret true
    else
      let! opened := on_wal_file fh_open in
      if negb opened then wal_threaded ;;; ret false
      else
        let! data := acquireData 0 walHeaderSize in
        match data with
        | [] => ret false
        | _ =>
          let! (magic, salt, stored) := parse wal_header_fields data in
          if negb (Z.land magic 4294967294 =? 931071618) then wal_markAsCorrupted 0 ;;; ret false
          else
            modify (set_w_native (Z.land magic 1 =? 0)) ;;;
            let! w := gets (fun w => w) in
            let restarted := negb (bool_decide (w_salt w = (0, 0))) && negb (bool_decide (w_salt w = salt))
                             && negb (isCheckpointIncreasedSalt (w_salt w) salt && (0 <? w_nbackfill w)) in
            (if restarted then modify (set_w_nbackfill 0) else ret tt) ;;;
            let maxWalFrame := if restarted then INT_MAX else maxWalFrame in
            modify (set_w_salt salt) ;;;
            let! w := gets (fun w => w) in
            let! room := lift_res (chk_int (s32 (w_fileSize w) - walHeaderSize)) in
            let maxWalFrame := Z.min (Z.quot room (getFrameSize w)) maxWalFrame in
            if maxWalFrame <=? w_nbackfill w then ret true
            else read_frames data maxWalFrame stored
        end
  end.

Definition wal_doInitialize : cm Wal bool :=
  let! shm := load_shm in
  match shm with
  | None => ret false
  | Some maxWalFrame => load_log maxWalFrame
  end.

Definition wal_initialize : cm Wal bool := initialize w_init set_w_init wal_doInitialize.
End wal.
