(* ===== verification/WalProps.v ===== *)
(** * The write-ahead log: its format and its frames

    The format as a function from a list of frames to bytes, with the running checksum on words, and what the model
    of Wal.cpp does with one frame and with a sequence of frames. *)

From stdpp Require Import gmap.
From S2P Require Import Prelude CLib Serial SerialVarint SerialFacts MappedFile WalLog.

(** ** Checksums on words *)

(** The bytes as words of 32 bits: little-endian if [native], otherwise big-endian. *)
Fixpoint words (native : bool) (l : list Z) : list Z :=
  match l with
  | b0 :: b1 :: b2 :: b3 :: l => (if native then le_val [b0; b1; b2; b3] else be_value b0 b1 b2 b3) :: words native l
  | _ => []
  end.

(** The checksum of the format: both sums go over pairs of words. *)
Fixpoint wal_sum (ws : list Z) (c : Z * Z) : Z * Z :=
  match ws with
  | x0 :: x1 :: ws => let s0 := u32 (c.1 + x0 + c.2) in wal_sum ws (s0, u32 (c.2 + x1 + s0))
  | _ => c
  end.

Lemma land_field x k : 0 <= k -> Z.land x (Z.shiftl 255 k) = Z.shiftl ((x / 2 ^ k) mod 256) k.
Proof.
  intros Hk. rewrite Z.land_comm, land_shiftl by done. f_equal. rewrite Z.land_comm, Z.shiftr_div_pow2 by done.
  change 255 with (Z.ones 8). by rewrite Z.land_ones.
Qed.

Lemma le_field a b : is_byte a -> (a + 256 * b) mod 256 = a /\ (a + 256 * b) / 256 = b.
Proof. unfold is_byte. intros. Z.to_euclidean_division_equations. lia. Qed.

Lemma byteswap b0 b1 b2 b3 : Forall is_byte [b0; b1; b2; b3] -> BYTESWAP32 (le_val [b0; b1; b2; b3]) = be_value b0 b1 b2 b3.
Proof.
  rewrite !Forall_cons. intros (H0 & H1 & H2 & H3 & _). unfold BYTESWAP32, be_value. cbn [le_val].
  change 255 with (Z.shiftl 255 0). change 65280 with (Z.shiftl 255 8). change 16711680 with (Z.shiftl 255 16).
  change 4278190080 with (Z.shiftl 255 24). rewrite !land_field by lia.
  change (2 ^ 0) with 1. change (2 ^ 8) with 256. change (2 ^ 16) with (256 * 256). change (2 ^ 24) with (256 * 256 * 256).
  rewrite Z.div_1_r, <- !Zdiv_Zdiv by lia.
  rewrite !(fun a b H => proj2 (le_field a b H)) by done. rewrite !(fun a b H => proj1 (le_field a b H)) by done.
  rewrite !Z.shiftl_shiftl, !Z.shiftr_shiftl_l by lia. rewrite !Z.shiftl_mul_pow2 by lia. cbn. lia.
Qed.

Lemma checksum_words native l : forall c, l <> [] -> Forall is_byte l -> (8 | length l)%nat ->
  checksum_loop native l c = Done (wal_sum (words native l) c).
Proof.
  induction l as [l IH] using (well_founded_ind (Wf_nat.well_founded_ltof _ length)). intros c Hne Hb [k Hk].
  destruct k as [|k]; [by destruct l|].
  do 8 (destruct l as [|? l]; [cbn in Hk; lia|]). cbn [length] in Hk. cbn [words wal_sum checksum_loop]. cbn zeta.
  repeat (apply Forall_cons in Hb as [? Hb]).
  assert (E : forall b0 b1 b2 b3, Forall is_byte [b0; b1; b2; b3] ->
    (if native then le_val [b0; b1; b2; b3] else BYTESWAP32 (le_val [b0; b1; b2; b3])) = (if native then le_val [b0; b1; b2; b3] else be_value b0 b1 b2 b3)).
  { intros. destruct native; [done|]. by apply byteswap. }
  rewrite !E by (repeat (apply Forall_cons; split; [done|]); constructor).
  destruct l as [|x l]; [done|]. apply IH; [unfold Wf_nat.ltof; cbn; lia|done|done|]. exists k. cbn [length] in *. lia.
Qed.

(** ** The format *)

Record WalFrame := MkWalFrame { wf_page : Z; wf_truncate : Z; wf_content : list Z }.

Section format.
Variables (native : bool) (salt : Salt).

(** The first 24 bytes of the file; [mid] holds the version, the page size and a counter. *)
Definition wal_head (mid : list Z) : list Z :=
  be4 (if native then 931071618 else 931071619) ++ mid ++ be4 salt.1 ++ be4 salt.2.
Definition head_sum (mid : list Z) : Z * Z := wal_sum (words native (wal_head mid)) (0, 0).
Definition wal_header (mid : list Z) : list Z := wal_head mid ++ be4 (head_sum mid).1 ++ be4 (head_sum mid).2.

(** The checksum behind a frame, and the frame with it. *)
Definition frame_sum (c : Z * Z) (f : WalFrame) : Z * Z :=
  wal_sum (words native (wf_content f)) (wal_sum (words native (be4 (wf_page f) ++ be4 (wf_truncate f))) c).
Definition frame_bytes (sum : Z * Z) (f : WalFrame) : list Z :=
  be4 (wf_page f) ++ be4 (wf_truncate f) ++ be4 salt.1 ++ be4 salt.2 ++ be4 sum.1 ++ be4 sum.2 ++ wf_content f.

Fixpoint frames_bytes (c : Z * Z) (fs : list WalFrame) : list Z :=
  match fs with
  | [] => []
  | f :: fs => frame_bytes (frame_sum c f) f ++ frames_bytes (frame_sum c f) fs
  end.

(** The checksum behind all frames. *)
Definition frames_sum (c : Z * Z) (fs : list WalFrame) : Z * Z := fold_left frame_sum fs c.

Lemma frames_bytes_app fs1 fs2 : forall c,
  frames_bytes c (fs1 ++ fs2) = frames_bytes c fs1 ++ frames_bytes (frames_sum c fs1) fs2.
Proof. induction fs1 as [|f fs1 IH]; intros c; [done|]. cbn. rewrite IH. by rewrite app_assoc. Qed.
End format.

Definition is_sum (c : Z * Z) : Prop := 0 <= c.1 < 2 ^ 32 /\ 0 <= c.2 < 2 ^ 32.

Lemma wal_sum_range ws : forall c, is_sum c -> is_sum (wal_sum ws c).
Proof.
  induction ws as [ws IH] using (well_founded_ind (Wf_nat.well_founded_ltof _ length)). intros c Hc.
  destruct ws as [|x0 [|x1 ws]]; [done..|]. cbn. apply IH; [unfold Wf_nat.ltof; cbn; lia|]. split; apply Z.mod_pos_bound; lia.
Qed.

Lemma frame_sum_range native c f : is_sum c -> is_sum (frame_sum native c f).
Proof. intros. by apply wal_sum_range, wal_sum_range. Qed.

Lemma frames_sum_range native fs : forall c, is_sum c -> is_sum (frames_sum native c fs).
Proof. induction fs as [|f fs IH]; intros c Hc; [done|]. cbn. by apply IH, frame_sum_range. Qed.

(** A frame of a database with pages of [ps] bytes. *)
Definition good_frame (ps : Z) (f : WalFrame) : Prop :=
  0 < wf_page f < 2 ^ 31 /\ 0 <= wf_truncate f < 2 ^ 32 /\ zlen (wf_content f) = ps /\ Forall is_byte (wf_content f).

Lemma zlen_frame_bytes salt ps sum f : good_frame ps f -> zlen (frame_bytes salt sum f) = 24 + ps.
Proof. intros (_ & _ & H & _). unfold frame_bytes. rewrite !zlen_app, H, !zlen_be4. lia. Qed.

Lemma zlen_frames_bytes native salt ps fs : forall c, Forall (good_frame ps) fs ->
  zlen (frames_bytes native salt c fs) = (24 + ps) * zlen fs.
Proof.
  induction fs as [|f fs IH]; intros c Hf; [change (0 = (24 + ps) * 0); lia|]. apply Forall_cons in Hf as [Hf Hfs]. cbn [frames_bytes].
  rewrite zlen_app, (zlen_frame_bytes _ ps), IH, zlen_cons by done. lia.
Qed.

(** ** Which frames count *)

(** The number of frames up to the last one that ends a transaction. *)
Fixpoint commit_length (fs : list WalFrame) : nat :=
  match fs with
  | [] => 0
  | f :: fs => match commit_length fs with
               | O => if wf_truncate f =? 0 then 0 else 1
               | S n => S (S n)
               end
  end.

(** The number of the last frame of a page, counting from [k]. *)
Fixpoint last_frame (k : Z) (fs : list WalFrame) (p : Z) : option Z :=
  match fs with
  | [] => None
  | f :: fs => match last_frame (k + 1) fs p with
               | Some i => Some i
               | None => if wf_page f =? p then Some k else None
               end
  end.

(** The last content of a page. *)
Fixpoint last_content (fs : list WalFrame) (p : Z) : option (list Z) :=
  match fs with
  | [] => None
  | f :: fs => match last_content fs p with
               | Some c => Some c
               | None => if wf_page f =? p then Some (wf_content f) else None
               end
  end.

Definition committed (fs : list WalFrame) : list WalFrame := take (commit_length fs) fs.
Definition uncommitted (fs : list WalFrame) : list WalFrame := drop (commit_length fs) fs.

Lemma last_frame_is_Some fs p : forall k, is_Some (last_frame k fs p) <-> is_Some (last_content fs p).
Proof.
  induction fs as [|f fs IH]; intros k; [by split; intros []|]. cbn. specialize (IH (k + 1)).
  destruct (last_frame (k + 1) fs p), (last_content fs p); destruct IH as [H1 H2]; rewrite ?is_Some_alt in *; cbn in *; destruct (wf_page f =? p); cbn; tauto.
Qed.

Lemma last_frame_Some fs p i : forall k, last_frame k fs p = Some i ->
  exists n f, i = k + Z.of_nat n /\ fs !! n = Some f /\ last_content fs p = Some (wf_content f).
Proof.
  induction fs as [|f fs IH]; intros k; [done|]. cbn [last_frame last_content].
  destruct (last_frame (k + 1) fs p) as [j|] eqn:E.
  - intros [= ->]. destruct (IH _ E) as (n & g & -> & Hg & ->). exists (S n), g. split_and!; [lia|done..].
  - assert (Hn : last_content fs p = None).
    { apply eq_None_not_Some. rewrite <- (last_frame_is_Some fs p (k + 1)), E. by intros []. }
    rewrite Hn. destruct (wf_page f =? p); [|done]. intros [= ->]. exists 0%nat, f. split_and!; [lia|done..].
Qed.

(** What the loop over frames keeps: the size and number of the last commit, the pages that are
    committed and those that are not yet. *)
Record Replay := MkReplay { rp_truncate : Z; rp_maxFrame : Z; rp_pages : gmap Z Z; rp_pending : gmap Z Z }.

Fixpoint replay (k : Z) (fs : list WalFrame) (r : Replay) : Replay :=
  match fs with
  | [] => r
  | f :: fs =>
    let pending := <[wf_page f := k]> (rp_pending r) in
    replay (k + 1) fs
      (if wf_truncate f =? 0 then MkReplay (rp_truncate r) (rp_maxFrame r) (rp_pages r) pending
       else MkReplay (wf_truncate f) k (pending ∪ rp_pages r) ∅)
  end.

(** The loop keeps for each page its last frame up to the last commit, and its last frame behind it. *)
Lemma replay_pages fs : forall k r p,
  rp_pages (replay k fs r) !! p =
    match commit_length fs with
    | O => rp_pages r !! p
    | n => match last_frame k (take n fs) p with
           | Some i => Some i
           | None => match rp_pending r !! p with Some i => Some i | None => rp_pages r !! p end
           end
    end.
Proof.
  induction fs as [|f fs IH]; intros k r p; [done|]. cbn [replay commit_length]. rewrite IH.
  destruct (commit_length fs) as [|n].
  - destruct (wf_truncate f =? 0); [done|]. cbn [rp_pages take last_frame]. rewrite lookup_union.
    destruct (Z.eqb_spec (wf_page f) p) as [->|Hne]; [rewrite lookup_insert_eq|rewrite lookup_insert_ne by done];
      destruct (rp_pending r !! p), (rp_pages r !! p); done.
  - rewrite firstn_cons. cbn [last_frame]. destruct (last_frame (k + 1) (take (S n) fs) p); [done|].
    destruct (wf_truncate f =? 0); cbn [rp_pages rp_pending]; rewrite ?lookup_union, ?lookup_empty;
      destruct (Z.eqb_spec (wf_page f) p) as [->|Hne]; rewrite ?lookup_insert_eq, ?lookup_insert_ne by done; try done;
      destruct (rp_pending r !! p), (rp_pages r !! p); done.
Qed.

Lemma replay_pending fs : forall k r p,
  rp_pending (replay k fs r) !! p =
    match last_frame (k + Z.of_nat (commit_length fs)) (drop (commit_length fs) fs) p with
    | Some i => Some i
    | None => match commit_length fs with O => rp_pending r !! p | _ => None end
    end.
Proof.
  induction fs as [|f fs IH]; intros k r p; [done|]. cbn [replay commit_length]. rewrite IH.
  destruct (commit_length fs) as [|n].
  - destruct (wf_truncate f =? 0); cbn [rp_pending last_frame]; rewrite ?drop_0; change (Z.of_nat 0) with 0; cbn [last_frame].
    + rewrite !Z.add_0_r. destruct (last_frame (k + 1) fs p); [done|].
      destruct (Z.eqb_spec (wf_page f) p) as [->|Hne]; [by rewrite lookup_insert_eq|by rewrite lookup_insert_ne].
    + rewrite lookup_empty, Z.add_0_r, skipn_cons, drop_0. done.
  - rewrite skipn_cons. by replace (k + Z.of_nat (S (S n))) with (k + 1 + Z.of_nat (S n)) by lia.
Qed.

(** ** One frame *)

Lemma wp_parse {S A} (c : cm Deserialization A) data (Q : A -> S -> Prop) s :
  wp c (fun a _ => Q a s) (new_deserialization data) -> wp (parse c data) Q s.
Proof. unfold wp, parse, lift_res. by destruct (c _) as [[a ?]|]. Qed.

Lemma wp_nonempty {S A B} (l : list A) (x y : cm S B) Q s : 0 < zlen l -> wp y Q s -> wp (match l with [] => x | _ => y end) Q s.
Proof. by destruct l. Qed.

Lemma slice_app_at {A} (l1 l2 l3 : list A) i n : i = zlen l1 -> n = zlen l2 -> slice i n (l1 ++ l2 ++ l3) = l2.
Proof. intros -> ->. unfold slice. rewrite !to_nat_zlen, drop_app_length, take_app_length. done. Qed.

Lemma slice_app_head {A} (l1 l2 : list A) n : n = zlen l1 -> slice 0 n (l1 ++ l2) = l1.
Proof. intros ->. by apply (slice_app_at []). Qed.

Lemma subdata_at (l1 l2 l3 : list Z) i n : i = zlen l1 -> n = zlen l2 -> 0 < n -> zlen (l1 ++ l2 ++ l3) < 2 ^ 63 ->
  subdata (l1 ++ l2 ++ l3) i n = Done l2.
Proof.
  intros -> -> Hn Hl. rewrite !zlen_app in Hl. zlen_pos. unfold subdata, u64. rewrite !Z.mod_small by lia.
  rewrite (proj2 (Z.eqb_neq _ _)), (proj2 (Z.leb_le _ _)) by (rewrite ?zlen_app; lia). by apply zread_n_app.
Qed.

Lemma frame_split salt sum f :
  frame_bytes salt sum f = (be4 (wf_page f) ++ be4 (wf_truncate f) ++ be4 salt.1 ++ be4 salt.2 ++ be4 sum.1 ++ be4 sum.2) ++ wf_content f ++ [].
Proof. unfold frame_bytes. by rewrite app_nil_r, <- !app_assoc. Qed.

Lemma be4_byte v w : Forall is_byte (be4 v ++ be4 w).
Proof. apply Forall_app. split; apply be4_bytes. Qed.

Section run.
Context `{I : Interrupts} (d : Disk) {L : DiskLaws d}.
Hypothesis granted : reliable d.
Variables (native : bool) (salt : Salt) (ps : Z).
Hypothesis salt_range : is_sum salt.
Hypothesis ps_range : 512 <= ps <= 65536 /\ (8 | ps).
Hypothesis small : 32 <= zlen (dk_bytes d) < 2 ^ 31.

(** The file is open and the header has been read. *)
Definition ready (w : Wal) : Prop :=
  sound_handle d (w_file w) /\ w_pageSize w = ps /\ w_native w = native /\ w_salt w = salt.

(** Only requests to the file happened. *)
Definition same_wal (w w' : Wal) : Prop := exists h, w' = set_w_file h w /\ same_file (w_file w) h.

Lemma same_wal_refl w : same_wal w w.
Proof. exists (w_file w). split; [by destruct w|done]. Qed.
Lemma same_wal_trans w1 w2 w3 : same_wal w1 w2 -> same_wal w2 w3 -> same_wal w1 w3.
Proof. intros (h1 & -> & S1) (h2 & -> & S2). exists h2. split; [done|]. by etrans. Qed.
Lemma ready_same w w' : ready w -> same_wal w w' -> ready w'.
Proof. intros (H1 & H2 & H3 & H4) (h & -> & S). repeat split; try done; by eapply (sound_same d _ _ H1). Qed.

Lemma wp_acquireData offset n w Q :
  sound_handle d (w_file w) -> 0 <= offset -> 0 < n -> offset + n <= zlen (dk_bytes d) ->
  (forall w', same_wal w w' -> Q (slice offset n (dk_bytes d)) w') -> wp (acquireData offset n) Q w.
Proof.
  intros Hh Ho Hn Hfit HQ. unfold acquireData, on_wal_file. apply wp_bind, wp_zoom, (wp_fh_map d); [done..|].
  intros r h' S' _ Hr. rewrite (Hr granted ltac:(lia)). rewrite zlen_slice by lia. unfold u64. rewrite Z.mod_small, Z.eqb_refl by lia.
  apply wp_ret, HQ. by exists h'.
Qed.

Lemma frame_offset_ok w k : w_pageSize w = ps -> 1 <= k -> 32 + (24 + ps) * (k - 1) < 2 ^ 31 ->
  frame_offset w k = Done (32 + (24 + ps) * (k - 1)).
Proof.
  intros Hp Hk Hl. unfold frame_offset, getFrameSize, walHeaderSize, frameHeaderSize. rewrite Hp. unfold chk_int.
  assert (k - 1 < 2 ^ 31) by nia. assert (0 <= (24 + ps) * (k - 1)) by nia.
  repeat (rewrite (proj2 (Z.leb_le _ _)), (proj2 (Z.ltb_lt _ _)) by lia; cbn [andb res_bind]). done.
Qed.

(** Frame [k] of a file that has it at its place. *)
Definition frame_at (k : Z) (pre post : list Z) (sum : Z * Z) (f : WalFrame) : Prop :=
  dk_bytes d = pre ++ frame_bytes salt sum f ++ post /\ zlen pre = 32 + (24 + ps) * (k - 1) /\ 1 <= k.

(** Any frame, with a salt that may be another. *)
Lemma wp_frame_any s k pre post sum f w Q :
  ready w -> is_sum s -> dk_bytes d = pre ++ frame_bytes s sum f ++ post -> zlen pre = 32 + (24 + ps) * (k - 1) -> 1 <= k ->
  good_frame ps f -> is_sum sum ->
  (forall w', same_wal w w' ->
    if bool_decide (s = salt) then Q (Some (MkFrame k (wf_page f) (wf_truncate f) sum (frame_bytes s sum f))) w'
    else Q None (set_w_error (Corrupt k) w')) ->
  wp (frame_initialize k) Q w.
Proof.
  intros (Hh & Hp & Hn & Hs) Hsr Hd Hz Hk Hf Hsum HQ. pose proof (zlen_frame_bytes s ps sum f Hf) as Hl.
  assert (Hfit : zlen pre + (24 + ps) <= zlen (dk_bytes d)) by (rewrite Hd, !zlen_app, Hl; zlen_pos; lia).
  unfold frame_initialize. apply wp_bind. unfold acquireFrameData. apply wp_bind_gets.
  rewrite (frame_offset_ok w k) by (done || lia). eapply wp_bind_lift_res; [done|].
  unfold getFrameSize, frameHeaderSize. rewrite Hp, <- Hz. zlen_pos.
  apply wp_acquireData; [done|lia..|]. intros w' S'. rewrite Hd, slice_app_at by (rewrite ?Hl; done).
  apply wp_nonempty; [lia|].
  destruct Hf as (Hpage & Htr & Hc & Hbytes).
  apply wp_bind, wp_parse. unfold frame_fields.
  assert (R : reads 0 [] (frame_bytes s sum f) (new_deserialization (frame_bytes s sum f))) by (apply reads_new; rewrite Hl; lia).
  unfold frame_bytes in R at 1. destruct Hsr, Hsum.
  do 6 (apply wp_bind; eapply wp_advance_be4; [exact R|lia|]; clear R; intros ? R). apply wp_ret.
  apply wp_bind_gets. assert (Hs' : w_salt w' = salt) by (destruct S' as (? & -> & _); done). rewrite Hs', <- surjective_pairing.
  specialize (HQ _ S'). destruct (decide (s = salt)) as [E|E];
    [rewrite bool_decide_eq_true_2 in HQ by done; rewrite bool_decide_eq_true_2 by done
    |rewrite bool_decide_eq_false_2 in HQ by done; rewrite bool_decide_eq_false_2 by done]; cbn [negb].
  - apply wp_ret. unfold s32. rewrite wrap_s_small by lia. destruct sum. exact HQ.
  - by apply wp_bind_modify, wp_ret.
Qed.

Lemma wp_frame_initialize k pre post sum f w Q :
  ready w -> frame_at k pre post sum f -> good_frame ps f -> is_sum sum ->
  (forall w', same_wal w w' -> Q (Some (MkFrame k (wf_page f) (wf_truncate f) sum (frame_bytes salt sum f))) w') ->
  wp (frame_initialize k) Q w.
Proof.
  intros R (Hd & Hz & Hk) Hf Hsum HQ. apply (wp_frame_any salt k pre post sum f); [done..|]. intros. rewrite bool_decide_eq_true_2 by done. by apply HQ.
Qed.

Lemma wp_calculateChecksum l c w Q : ready w -> l <> [] -> Forall is_byte l -> (8 | length l)%nat ->
  Q (wal_sum (words native l) c) w -> wp (wal_calculateChecksum l c) Q w.
Proof.
  intros (_ & _ & Hn & _) Hne Hb Hd HQ. unfold wal_calculateChecksum. apply wp_bind_gets. rewrite Hn.
  eapply wp_lift_res; [by apply checksum_words|done].
Qed.

Lemma wp_frame_checksum k sum f c w Q :
  ready w -> good_frame ps f -> Q (frame_sum native c f) w ->
  wp (frame_calculateChecksum (MkFrame k (wf_page f) (wf_truncate f) sum (frame_bytes salt sum f)) c) Q w.
Proof.
  intros R Hf HQ. pose proof (zlen_frame_bytes salt ps sum f Hf) as Hl. destruct Hf as (Hpage & Htr & Hc & Hbytes).
  unfold frame_calculateChecksum. cbn [fr_data].
  eapply wp_bind_lift_res.
  { unfold frame_bytes. rewrite (app_assoc (be4 (wf_page f))). apply (subdata_at []); [done..|].
    rewrite app_nil_l, <- app_assoc. fold (frame_bytes salt sum f). lia. }
  apply wp_bind, wp_calculateChecksum; [done|done|apply be4_byte|by exists 1%nat|]. apply wp_bind_gets.
  pose proof R as (_ & Hp & _). rewrite Hp. unfold frameHeaderSize. eapply wp_bind_lift_res.
  { rewrite (frame_split salt sum f). apply subdata_at; [done|by rewrite Hc|lia|]. rewrite <- frame_split. lia. }
  apply wp_calculateChecksum; [done|intros E; rewrite E, zlen_nil in Hc; lia|done| |done].
  destruct ps_range as [_ [q Hq]]. exists (Z.to_nat q). unfold zlen in Hc. lia.
Qed.

(** ** The loop *)

(** The index after some frames. *)
Definition set_replay (r : Replay) (w : Wal) : Wal := set_w_index (rp_truncate r) (rp_maxFrame r) (rp_pages r) w.

Lemma ready_set_index w tr mx pages : ready w -> ready (set_w_index tr mx pages w).
Proof. done. Qed.

(** The frames [fs] from frame [k] on, with the checksum [c] before them. *)
Definition frames_at (k : Z) (pre post : list Z) (c : Z * Z) (fs : list WalFrame) : Prop :=
  dk_bytes d = pre ++ frames_bytes native salt c fs ++ post /\ zlen pre = 32 + (24 + ps) * (k - 1) /\ 1 <= k.

(** Good frames are replayed; [n] may be larger than their number. *)
Lemma wp_frames_loop fs : forall n k pre post c pending w Q,
  ready w -> frames_at k pre post c fs -> Forall (good_frame ps) fs -> is_sum c ->
  (forall w', let r := replay k fs (MkReplay (w_truncate w) (w_maxFrame w) (w_pages w) pending) in
    same_wal (set_replay r w) w' -> wp (frames_loop n (k + zlen fs) (frames_sum native c fs) (rp_pending r)) Q w') ->
  wp (frames_loop (length fs + n) k c pending) Q w.
Proof.
  induction fs as [|f fs IH]; intros n k pre post c pending w Q R F Hg Hc HQ.
  { rewrite Z.add_0_r in HQ. apply (HQ w). unfold set_replay. cbn. destruct w. apply same_wal_refl. }
  apply Forall_cons in Hg as [Hf Hg]. destruct F as (Hd & Hz & Hk). cbn [frames_bytes] in Hd.
  set (s := frame_sum native c f) in *. assert (Hs : is_sum s) by (by apply frame_sum_range).
  assert (Hd' : dk_bytes d = pre ++ frame_bytes salt s f ++ frames_bytes native salt s fs ++ post) by (by rewrite Hd, <- app_assoc).
  cbn [Nat.add length frames_loop]. apply wp_bind, (wp_frame_initialize k pre (frames_bytes native salt s fs ++ post) s f); [done|by split_and!|done..|].
  intros w1 S1. pose proof (ready_same _ _ R S1) as R1. cbn beta iota. apply wp_bind, wp_frame_checksum; [done..|]. fold s.
  cbn [fr_checksum]. rewrite bool_decide_eq_true_2 by done. cbn [negb fr_pageno fr_truncate].
  assert (F' : frames_at (k + 1) (pre ++ frame_bytes salt s f) post s fs).
  { split_and!; [by rewrite Hd', <- !app_assoc|rewrite zlen_app, (zlen_frame_bytes _ ps) by done; lia|lia]. }
  rewrite zlen_cons in HQ. cbn [replay rp_pending] in HQ. replace (k + (zlen fs + 1)) with (k + 1 + zlen fs) in HQ by lia.
  destruct S1 as (h1 & -> & S1). destruct (wf_truncate f =? 0); cbn [negb].
  - eapply IH; [done..|]. intros w' r (h2 & -> & S2). apply HQ. exists h2. split; [by destruct w|by etrans].
  - apply wp_bind_modify. eapply IH; [done..|]. intros w' r (h2 & -> & S2). apply HQ. exists h2. split; [by destruct w|by etrans].
Qed.
End run.

(** * The write-ahead log: what is read from a log

    The pages of the committed transactions of a log that SQLite has written, the frames that are
    dropped, and what goes wrong: a log without its -shm file, a log of more than 2 GiB, and frames of an
    earlier generation behind the valid ones. *)

(** ** The -shm file *)

(** The fields of the header and of the checkpoint information that are used; the others are arbitrary. *)
Record ShmFile := MkShmFile {
  sf_change : list Z; sf_maxFrame : Z; sf_page : list Z; sf_salt : Salt; sf_sum : list Z;
  sf_second : list Z; sf_backfill : Z; sf_marks : list Z; sf_rest : list Z
}.

Definition shm_bytes (s : ShmFile) : list Z :=
  (le_bytes 4 shmVersion ++ sf_change s ++ le_bytes 4 (sf_maxFrame s) ++ sf_page s ++ be4 (sf_salt s).1 ++ be4 (sf_salt s).2 ++ sf_sum s)
  ++ sf_second s ++ (le_bytes 4 (sf_backfill s) ++ sf_marks s) ++ sf_rest s.

Definition good_shm (s : ShmFile) : Prop :=
  zlen (sf_change s) = 12 /\ zlen (sf_page s) = 12 /\ zlen (sf_sum s) = 8 /\ zlen (sf_second s) = 48 /\ zlen (sf_marks s) = 36
  /\ 0 <= sf_maxFrame s < 2 ^ 31 /\ 0 <= sf_backfill s < 2 ^ 31 /\ is_sum (sf_salt s).

Lemma salt_of_be4 v : 0 <= v < 2 ^ 32 -> salt_of (be4 v) = v.
Proof.
  intros Hv. unfold salt_of, be4. pose proof (be4_bytes v) as Hb. unfold be4 in Hb. rewrite !Forall_cons in Hb. destruct Hb as (? & ? & ? & ? & _).
  rewrite be_lor by done. by apply be4_value.
Qed.

Section open.
Context `{I : Interrupts}.

Lemma wp_getFileSize d h Q : DiskLaws d -> fh_disk h = d ->
  (forall h', same_file h h' -> Q (Some (zlen (dk_bytes d))) h') -> wp getFileSize Q h.
Proof.
  intros L Hd HQ. unfold getFileSize. apply wp_bind, wp_request. intros h' S' _ _. apply wp_bind_gets, wp_ret.
  assert (Hd' : fh_disk h' = d) by (destruct S'; congruence). rewrite Hd', disk_stat. by apply HQ.
Qed.

(** Opening a file for the first time. *)
Lemma wp_fh_open d h Q : reliable d -> fh_disk h = d -> fh_size h = -1 \/ fh_size h = zlen (dk_bytes d) ->
  (forall h', sound_handle d h' -> Q true h') -> wp fh_open Q h.
Proof.
  intros R Hd Hs HQ. unfold fh_open. apply wp_bind, wp_request. intros h' (S1 & S2 & S3) Hz _. apply wp_bind_gets.
  rewrite S1, Hd. destruct (R (fh_calls h)) as (-> & _). apply wp_bind_modify, wp_ret, HQ. split_and!; cbn; [congruence|done|congruence].
Qed.
End open.

(** A header that has the fields of [s]. *)
Definition shm_loaded (s : ShmFile) (m : Shm) : Prop :=
  shm_maxFrame m = sf_maxFrame s /\ shm_backfill m = sf_backfill s /\ shm_salt m = sf_salt s /\ shm_init m = Initialized.

Section shm.
Context `{I : Interrupts} (d : Disk) {L : DiskLaws d}.
Hypothesis granted : reliable d.
Variable s : ShmFile.
Hypothesis s_good : good_shm s.
Hypothesis s_bytes : dk_bytes d = shm_bytes s.

Definition shm_head : list Z :=
  le_bytes 4 shmVersion ++ sf_change s ++ le_bytes 4 (sf_maxFrame s) ++ sf_page s ++ be4 (sf_salt s).1 ++ be4 (sf_salt s).2 ++ sf_sum s.

Lemma zlen_shm_head : zlen shm_head = 48.
Proof. destruct s_good as (H1 & H2 & H3 & _). unfold shm_head. rewrite !zlen_app, H1, H2, H3. done. Qed.

Lemma zlen_shm_bytes : 136 <= zlen (dk_bytes d).
Proof.
  rewrite s_bytes. unfold shm_bytes. fold shm_head. rewrite !zlen_app, zlen_shm_head. destruct s_good as (_ & _ & _ & -> & -> & _).
  change (zlen (le_bytes 4 (sf_backfill s))) with 4. zlen_pos. lia.
Qed.

Lemma shm_slices file : shm_loaded s (MkShm file shm_head (le_bytes 4 (sf_backfill s) ++ sf_marks s) Initialized)
  /\ le_val (slice 0 4 shm_head) = shmVersion.
Proof.
  destruct s_good as (H1 & H2 & H3 & H4 & H5 & H6 & H7 & [Hs1 Hs2]). unfold shm_loaded, shm_maxFrame, shm_backfill, shm_salt. cbn [shm_header shm_info shm_init].
  assert (E16 : slice 16 4 shm_head = le_bytes 4 (sf_maxFrame s)).
  { unfold shm_head. rewrite (app_assoc (le_bytes 4 shmVersion)). apply slice_app_at; [by rewrite zlen_app, H1|done]. }
  assert (E32 : slice 32 4 shm_head = be4 (sf_salt s).1).
  { unfold shm_head. rewrite 3!app_assoc. apply slice_app_at; [|done]. rewrite !zlen_app, H1, H2. done. }
  assert (E36 : slice 36 4 shm_head = be4 (sf_salt s).2).
  { unfold shm_head. rewrite 4!app_assoc. apply slice_app_at; [|done]. rewrite !zlen_app, H1, H2. done. }
  rewrite E16, E32, E36, !salt_of_be4 by done. rewrite slice_app_head by done.
  unfold shm_head. rewrite slice_app_head by done.
  rewrite !le_val_bytes by (done || (cbn; lia)). split_and!; try done. by destruct (sf_salt s).
Qed.

Lemma wp_shm_initialize w Q :
  fh_disk (shm_file (w_shm w)) = d -> fh_size (shm_file (w_shm w)) = -1 -> shm_init (w_shm w) = NotInitialized ->
  (forall m, shm_loaded s m -> Q true (set_w_shm m w)) -> wp shm_initialize Q w.
Proof.
  intros Hd Hz Hi HQ. pose proof zlen_shm_bytes as Hl. unfold shm_initialize, initialize. apply wp_bind_gets. rewrite Hi. apply wp_bind_modify.
  apply wp_bind. unfold shm_doInitialize, on_shm_file. apply wp_bind, wp_zoom, (wp_getFileSize d); [done..|]. intros h1 S1.
  rewrite (proj2 (Z.eqb_neq _ _)) by lia. cbn [w_shm set_w_shm shm_file shm_header shm_info shm_init].
  apply wp_bind, wp_zoom. cbn [w_shm set_w_shm shm_file shm_header shm_info shm_init]. destruct S1 as (S1 & _ & S3). cbn in S1, S3.
  apply (wp_fh_open d); [done|congruence|rewrite Hd, Hz in S3; done|]. intros h2 O2. cbn [negb].
  unfold shmHeaderSize, shmInfoSize. change (48 * 2 + 40) with 136. change (48 * 2) with 96. rewrite (proj2 (Z.ltb_ge _ _)) by lia. apply wp_bind, wp_zoom. cbn [w_shm set_w_shm shm_file shm_header shm_info shm_init].
  apply (wp_fh_map d); [done..|lia|]. intros r h3 S3' _ Hr. rewrite (Hr granted) by lia. clear r Hr.
  rewrite zlen_slice by lia. change (136 =? 136) with true. cbn [negb]. apply wp_bind_modify, wp_bind_gets. cbn [w_shm set_w_shm shm_file shm_header shm_info shm_init].
  assert (E1 : slice 0 48 (slice 0 136 (dk_bytes d)) = shm_head).
  { rewrite slice_within by lia. rewrite s_bytes. unfold shm_bytes. fold shm_head. apply slice_app_head. by rewrite zlen_shm_head. }
  assert (E2 : slice 96 40 (slice 0 136 (dk_bytes d)) = le_bytes 4 (sf_backfill s) ++ sf_marks s).
  { rewrite slice_within by lia. rewrite s_bytes. unfold shm_bytes. fold shm_head. rewrite (app_assoc shm_head). pose proof zlen_shm_head as Hh.
    destruct s_good as (H1 & H2 & H3 & H4 & H5 & _). apply slice_app_at; rewrite zlen_app; [by rewrite Hh, H4|by rewrite H5]. }
  rewrite E1, E2. destruct (shm_slices h3) as [Hload ->]. rewrite Z.eqb_refl. cbn [negb].
  apply wp_bind_modify, wp_ret, wp_bind_modify, wp_ret. cbn [w_shm set_w_shm shm_file shm_header shm_info shm_init].
  specialize (HQ _ Hload). destruct w. exact HQ.
Qed.
End shm.

(** ** The header of the log *)

Definition magic_of (native : bool) : Z := if native then 931071618 else 931071619.

Lemma zlen_wal_head native salt mid : zlen mid = 12 -> zlen (wal_head native salt mid) = 24.
Proof. intros H. unfold wal_head. rewrite !zlen_app, H. done. Qed.
Lemma zlen_wal_header native salt mid : zlen mid = 12 -> zlen (wal_header native salt mid) = 32.
Proof. intros H. unfold wal_header. rewrite !zlen_app, zlen_wal_head by done. done. Qed.

Lemma head_sum_range native salt mid : is_sum (head_sum native salt mid).
Proof. apply wal_sum_range. done. Qed.

Lemma wp_wal_header_fields {S} native salt mid (Q : Z * Salt * (Z * Z) -> S -> Prop) s : zlen mid = 12 -> is_sum salt ->
  Q (magic_of native, salt, head_sum native salt mid) s -> wp (parse wal_header_fields (wal_header native salt mid)) Q s.
Proof.
  intros Hm [Hs1 Hs2] HQ. apply wp_parse. unfold wal_header_fields. pose proof (zlen_wal_header native salt mid Hm) as Hl.
  destruct (head_sum_range native salt mid) as [Hc1 Hc2]. set (sum := head_sum native salt mid) in *.
  assert (Hd : wal_header native salt mid = (be4 (magic_of native) ++ mid) ++ be4 salt.1 ++ be4 salt.2 ++ be4 sum.1 ++ be4 sum.2).
  { unfold wal_header, wal_head, magic_of. by rewrite <- !app_assoc. }
  assert (R : reads 0 [] (be4 (magic_of native) ++ mid ++ be4 salt.1 ++ be4 salt.2 ++ be4 sum.1 ++ be4 sum.2) (new_deserialization (wal_header native salt mid))).
  { rewrite app_assoc, <- Hd. apply reads_new. lia. }
  apply wp_bind, (wp_advance_be4 _ _ _ _ _ _ R); [destruct native; done|]. intros s1 [-> R1].
  apply wp_bind. unfold de_seek. apply wp_modify. cbn [d_data d_cursor d_version].
  assert (R2 : reads 0 (be4 (magic_of native) ++ mid) (be4 salt.1 ++ be4 salt.2 ++ be4 sum.1 ++ be4 sum.2 ++ [])
    (Deser (([] ++ be4 (magic_of native)) ++ mid ++ be4 salt.1 ++ be4 salt.2 ++ be4 sum.1 ++ be4 sum.2)
      (seek_to (zlen (([] ++ be4 (magic_of native)) ++ mid ++ be4 salt.1 ++ be4 salt.2 ++ be4 sum.1 ++ be4 sum.2)) 16) 0)).
  { rewrite app_nil_r, app_nil_l. split; [|by rewrite <- Hd, Hl]. rewrite (app_assoc (be4 (magic_of native))), <- Hd, Hl, zlen_app, Hm. done. }
  do 4 (apply wp_bind; eapply wp_advance_be4; [exact R2|lia|]; clear R2; intros ? R2). apply wp_ret. by destruct salt, sum.
Qed.

(** The number of frames in the file. *)
Lemma room_frames n ps rest : 0 < ps -> 0 <= n -> 0 <= rest -> n <= Z.quot ((24 + ps) * n + rest) (24 + ps).
Proof. intros. rewrite Z.quot_div_nonneg by nia. apply Z.div_le_lower_bound; nia. Qed.

Lemma magic_bits native : Z.land (magic_of native) 4294967294 = 931071618 /\ (Z.land (magic_of native) 1 =? 0) = native.
Proof. by destruct native. Qed.

(** The log counts as restarted if its salt is not the one that is known. *)
Definition restarted (known salt : Salt) (nbackfill : Z) : bool :=
  negb (bool_decide (known = (0, 0))) && negb (bool_decide (known = salt)) && negb (isCheckpointIncreasedSalt known salt && (0 <? nbackfill)).

Section header.
Context `{I : Interrupts} (d : Disk) {L : DiskLaws d}.
Hypothesis granted : reliable d.
Variables (native : bool) (salt : Salt) (ps : Z) (mid tail : list Z).
Hypothesis salt_range : is_sum salt.
Hypothesis ps_range : 512 <= ps <= 65536.
Hypothesis mid_size : zlen mid = 12.
Hypothesis log_bytes : dk_bytes d = wal_header native salt mid ++ tail.

(** A log that has not been opened, and one whose header has been read. *)
Definition unopened (w : Wal) : Prop := fh_disk (w_file w) = d /\ fh_size (w_file w) = -1 /\ w_pageSize w = ps.
Definition opened_from (w w' : Wal) : Prop :=
  ready d native salt ps w' /\ w_nbackfill w' = (if restarted (w_salt w) salt (w_nbackfill w) then 0 else w_nbackfill w)
  /\ w_pages w' = w_pages w /\ w_disposed w' = w_disposed w /\ w_shmLegality w' = w_shmLegality w /\ w_error w' = w_error w.

(** The header is read; the rest depends on the size of the file, cut to an [int]. *)
Lemma wp_load_log w m room Q :
  unopened w -> chk_int (s32 (zlen (dk_bytes d)) - 32) = Done room ->
  (forall w', opened_from w w' ->
    let max := Z.min (Z.quot room (24 + ps)) (if restarted (w_salt w) salt (w_nbackfill w) then INT_MAX else m) in
    wp (if max <=? w_nbackfill w' then ret true
        else read_frames (wal_header native salt mid) max (head_sum native salt mid)) Q w') ->
  wp (load_log m) Q w.
Proof.
  intros (Hd & Hz & Hp) Hroom HQ. pose proof (zlen_wal_header native salt mid mid_size) as Hh.
  assert (Hl : 32 <= zlen (dk_bytes d)) by (rewrite log_bytes, zlen_app, Hh; zlen_pos; lia).
  unfold load_log, on_wal_file. apply wp_bind, wp_zoom, (wp_getFileSize d); [done..|]. intros h1 (S1 & _ & S3). apply wp_bind_modify.
  rewrite (proj2 (Z.eqb_neq _ _)) by lia. apply wp_bind, wp_zoom, (wp_fh_open d); [done|by rewrite <- Hd|by rewrite Hd, Hz in S3|].
  intros h2 O2. cbn [negb]. apply wp_bind. unfold acquireData at 1, on_wal_file. apply wp_bind, wp_zoom, (wp_fh_map d); [done..|unfold walHeaderSize; lia|].
  intros r h3 S3' _ Hr. rewrite (Hr granted) by lia. clear r Hr. unfold walHeaderSize. rewrite zlen_slice by lia. change (32 =? u64 32) with true.
  apply wp_ret. apply wp_nonempty; [rewrite zlen_slice; lia|].
  assert (E : slice 0 32 (dk_bytes d) = wal_header native salt mid) by (rewrite log_bytes; apply slice_app_head; done). rewrite E.
  apply wp_bind, wp_wal_header_fields; [done..|]. destruct (magic_bits native) as [-> ->]. change (931071618 =? 931071618) with true. cbn [negb].
  apply wp_bind_modify, wp_bind_gets. cbn [w_salt w_nbackfill set_w_native set_w_file set_w_fileSize]. fold (restarted (w_salt w) salt (w_nbackfill w)).
  assert (O3 : sound_handle d h3) by (by eapply sound_same).
  apply wp_bind. destruct (restarted (w_salt w) salt (w_nbackfill w)) eqn:Er; [apply wp_modify|apply wp_ret]; apply wp_bind_modify, wp_bind_gets;
    cbn [w_fileSize w_nbackfill w_pageSize set_w_salt set_w_nbackfill set_w_native set_w_file set_w_fileSize getFrameSize];
    (eapply wp_bind_lift_res; [exact Hroom|]); unfold getFrameSize, frameHeaderSize; cbn [w_pageSize set_w_salt set_w_nbackfill set_w_native set_w_file set_w_fileSize];
    rewrite Hp; lazymatch goal with |- wp _ _ ?s => apply (HQ s) end; unfold opened_from; rewrite Er; split_and!; try done; by destruct O3.
Qed.
End header.

Section log.
Context `{I : Interrupts} (d : Disk) {L : DiskLaws d}.
Hypothesis granted : reliable d.
Variables (native : bool) (salt : Salt) (ps : Z) (mid : list Z).
Hypothesis salt_range : is_sum salt.
Hypothesis ps_range : 512 <= ps <= 65536 /\ (8 | ps).
Hypothesis mid_size : zlen mid = 12.
Hypothesis mid_bytes : Forall is_byte mid.
Hypothesis small : zlen (dk_bytes d) < 2 ^ 31.

(** The frames that are in the database already, those that are not, and what is behind them. *)
Variables (backfilled live : list WalFrame) (rest : list Z).
Hypothesis frames_good : Forall (good_frame ps) (backfilled ++ live).
Hypothesis log_bytes :
  dk_bytes d = wal_header native salt mid ++ frames_bytes native salt (head_sum native salt mid) (backfilled ++ live) ++ rest.

#[local] Abbreviation seed := (head_sum native salt mid).

Lemma log_size : zlen (dk_bytes d) = 32 + (24 + ps) * (zlen backfilled + zlen live) + zlen rest.
Proof. rewrite log_bytes, !zlen_app, zlen_wal_header, (zlen_frames_bytes _ _ ps), zlen_app by done. lia. Qed.

Lemma live_at : frames_at d native salt ps (zlen backfilled + 1) (wal_header native salt mid ++ frames_bytes native salt seed backfilled) rest
  (frames_sum native seed backfilled) live.
Proof.
  apply Forall_app in frames_good as [Hb _].
  split_and!; [|rewrite zlen_app, zlen_wal_header, (zlen_frames_bytes _ _ ps) by done; lia|zlen_pos; lia].
  rewrite log_bytes, frames_bytes_app, <- !app_assoc. done.
Qed.

(** The last frame that is in the database already. *)
Lemma backfilled_at fs f : backfilled = fs ++ [f] ->
  frame_at d salt ps (zlen backfilled) (wal_header native salt mid ++ frames_bytes native salt seed fs)
    (frames_bytes native salt (frames_sum native seed backfilled) live ++ rest) (frames_sum native seed backfilled) f.
Proof.
  intros Hb. pose proof frames_good as Hg. rewrite Hb, !Forall_app in Hg. destruct Hg as [[Hg _] _].
  assert (Hs : frames_sum native seed backfilled = frame_sum native (frames_sum native seed fs) f) by (unfold frames_sum; by rewrite Hb, fold_left_app).
  split_and!.
  - rewrite log_bytes, frames_bytes_app, Hs. rewrite Hb at 1. rewrite frames_bytes_app. cbn [frames_bytes].
    rewrite <- Hs, app_nil_r, <- !app_assoc. done.
  - rewrite zlen_app, zlen_wal_header, (zlen_frames_bytes _ _ ps), Hb, zlen_app by done. change (zlen [f]) with 1. lia.
  - rewrite Hb, zlen_app. change (zlen [f]) with 1. zlen_pos. lia.
Qed.

(** The state before the frames are read. *)
Definition before_frames (w : Wal) : Prop :=
  ready d native salt ps w /\ w_nbackfill w = zlen backfilled /\ w_pages w = ∅ /\ w_disposed w = ∅.

(** The end of the initialization: records that are not committed are dropped. *)
Definition finish (m : option (gmap Z Z)) : cm Wal bool :=
  match m with
  | None => ret false
  | Some m => modify (fun w => set_w_disposed (dom m ∪ w_disposed w) w) ;;; ret true
  end.

(** The frames up to [maxWalFrame]: those of the log, and [n] more. *)
Lemma wp_read_frames maxWalFrame n w Q :
  before_frames w -> Z.of_nat n = maxWalFrame - zlen backfilled - zlen live ->
  (forall w', let r := replay (zlen backfilled + 1) live (MkReplay (w_truncate w) (w_maxFrame w) ∅ ∅) in
    same_wal (set_replay r w) w' ->
    wp (frames_loop n (zlen backfilled + 1 + zlen live) (frames_sum native (frames_sum native seed backfilled) live) (rp_pending r))
      (fun m => wp (finish m) Q) w') ->
  wp (read_frames (wal_header native salt mid) maxWalFrame seed) Q w.
Proof.
  intros (R & Hn & Hp & Hd) Hmax HQ. pose proof log_size as Hz. pose proof frames_good as Hg. apply Forall_app in Hg as [Hgb Hgl]. unfold read_frames.
  assert (E : subdata_first (wal_header native salt mid) (walHeaderSize - 8) = Done (wal_head native salt mid)).
  { unfold subdata_first, walHeaderSize. change (u64 (32 - 8)) with 24. rewrite zlen_wal_header by done. cbn [Z.leb Z.compare Pos.compare Pos.compare_cont].
    apply (subdata_at []); [done|by rewrite zlen_wal_head|done|]. rewrite app_nil_l. fold (wal_header native salt mid). by rewrite zlen_wal_header. }
  eapply wp_bind_lift_res; [exact E|]. apply wp_bind, (wp_calculateChecksum d native salt ps); [done| | | |].
  { intros E'. pose proof (zlen_wal_head native salt mid mid_size) as Hl. by rewrite E' in Hl. }
  { unfold wal_head. rewrite !Forall_app. split_and!; try apply be4_bytes. done. }
  { exists 3%nat. pose proof (zlen_wal_head native salt mid mid_size) as Hl. unfold zlen in Hl. lia. }
  fold seed. rewrite bool_decide_eq_true_2 by done. cbn [negb]. apply wp_bind_gets. rewrite Hn.
  assert (Hsmall : 32 <= zlen (dk_bytes d) < 2 ^ 31) by (zlen_pos; nia).
  assert (Hloop : forall w1, same_wal w w1 ->
    wp (frames_loop (Z.to_nat (maxWalFrame - zlen backfilled)) (zlen backfilled + 1) (frames_sum native seed backfilled) ∅) (fun m => wp (finish m) Q) w1).
  { intros w1 S1. pose proof (ready_same d _ _ _ _ _ R S1) as R1.
    replace (Z.to_nat (maxWalFrame - zlen backfilled)) with (length live + n)%nat by (unfold zlen in *; lia).
    eapply (wp_frames_loop d); try done; [apply live_at|apply frames_sum_range, head_sum_range|].
    intros w2 r. destruct S1 as (h1 & -> & S1). unfold r. clear r. cbn [w_truncate w_maxFrame w_pages set_w_file]. rewrite Hp.
    intros (h2 & -> & S2). apply HQ. exists h2. split; [done|by etrans]. }
  apply wp_bind. destruct (0 <? zlen backfilled) eqn:E0.
  - destruct (exists_last (l := backfilled)) as (fs & f & Hb); [by intros ->|].
    pose proof (backfilled_at fs f Hb) as F. apply wp_bind.
    assert (Hf : good_frame ps f) by (rewrite Hb, Forall_app, Forall_cons in Hgb; tauto).
    eapply (wp_frame_initialize d); try done; [apply frames_sum_range, head_sum_range|].
    intros w1 S1. apply wp_ret, wp_bind. by apply Hloop.
  - apply wp_ret, wp_bind. assert (Hb : backfilled = []) by (destruct backfilled; [done|rewrite zlen_cons in E0; zlen_pos; lia]).
    replace seed with (frames_sum native seed backfilled) by (by rewrite Hb). apply Hloop, same_wal_refl.
Qed.

(** Where the content of a frame is. *)
Lemma content_at n f : live !! n = Some f ->
  exists pre post, dk_bytes d = pre ++ wf_content f ++ post /\ zlen pre = 32 + (24 + ps) * (zlen backfilled + Z.of_nat n) + 24.
Proof.
  intros Hn. destruct live_at as (Hd & Hz & _). pose proof frames_good as Hg. apply Forall_app in Hg as [_ Hg].
  rewrite <- (take_drop_middle _ _ _ Hn), Forall_app, Forall_cons in Hg. destruct Hg as (Hg1 & _ & _).
  set (c1 := frames_sum native seed backfilled) in *. set (c2 := frames_sum native c1 (take n live)). set (c3 := frame_sum native c2 f).
  exists ((wal_header native salt mid ++ frames_bytes native salt seed backfilled) ++ frames_bytes native salt c1 (take n live)
    ++ be4 (wf_page f) ++ be4 (wf_truncate f) ++ be4 salt.1 ++ be4 salt.2 ++ be4 c3.1 ++ be4 c3.2), (frames_bytes native salt c3 (drop (S n) live) ++ rest).
  split.
  - rewrite Hd. rewrite <- (take_drop_middle _ _ _ Hn) at 1. rewrite frames_bytes_app. fold c2. cbn [frames_bytes]. fold c3.
    unfold frame_bytes. rewrite <- !app_assoc. done.
  - pose proof (lookup_lt_Some _ _ _ Hn). rewrite zlen_app, Hz, zlen_app, (zlen_frames_bytes _ _ ps), !zlen_app, !zlen_be4 by done.
    unfold zlen in *. rewrite length_take. lia.
Qed.

(** The pages of the index that the replay of the log gives. *)
Lemma index_pages tr mx p :
  rp_pages (replay (zlen backfilled + 1) live (MkReplay tr mx ∅ ∅)) !! p = last_frame (zlen backfilled + 1) (committed live) p.
Proof.
  rewrite replay_pages. cbn [rp_pages rp_pending]. rewrite lookup_empty. unfold committed. destruct (commit_length live); [by rewrite take_0|].
  by destruct (last_frame _ _ _).
Qed.
Lemma index_pending tr mx p : let r := replay (zlen backfilled + 1) live (MkReplay tr mx ∅ ∅) in
  p ∈ dom (rp_pending r) <-> is_Some (last_content (uncommitted live) p).
Proof.
  cbn zeta. rewrite elem_of_dom, replay_pending. cbn [rp_pages rp_pending]. rewrite lookup_empty. unfold uncommitted.
  rewrite <- (last_frame_is_Some _ _ (zlen backfilled + 1 + Z.of_nat (commit_length live))). destruct (last_frame _ _ _); [reflexivity|]. by destruct (commit_length live).
Qed.

(** An index with the committed pages gives their content. *)
Lemma wp_acquirePage w p c :
  ready d native salt ps w -> (forall q, w_pages w !! q = last_frame (zlen backfilled + 1) (committed live) q) ->
  last_content (committed live) p = Some c ->
  wp (wal_acquirePageData p 0 ps) (fun data _ => data = c) w.
Proof.
  intros (Hh & Hp & _) Hw Hc. pose proof log_size as Hz. unfold wal_acquirePageData.
  destruct (last_frame (zlen backfilled + 1) (committed live) p) as [i|] eqn:E.
  2: { assert (Hn : is_Some (last_frame (zlen backfilled + 1) (committed live) p)) by (apply last_frame_is_Some; by exists c). rewrite E in Hn. by destruct Hn. }
  destruct (last_frame_Some _ _ _ _ E) as (n & f & Hi & Hf & Hc'). rewrite Hc in Hc'. injection Hc' as ->.
  unfold committed in Hf. apply lookup_take_Some in Hf as [Hf _].
  apply wp_bind, wp_bind_gets. rewrite Hw, E. apply wp_ret, wp_bind_gets. rewrite Hw, E. cbn [default from_option id].
  destruct (content_at n f Hf) as (pre & post & Hd & Hpre). pose proof (lookup_lt_Some _ _ _ Hf) as Hlt.
  assert (Hg : good_frame ps f).
  { apply Forall_app in frames_good as [_ Hg]. by eapply Forall_lookup_1. }
  destruct Hg as (_ & _ & Hcl & _). assert (Hfit : zlen pre + ps <= zlen (dk_bytes d)) by (rewrite Hd, !zlen_app, Hcl; zlen_pos; lia).
  zlen_pos. assert (Hoff : 0 <= (24 + ps) * (zlen backfilled + Z.of_nat n)) by nia.
  assert (Hbase : 32 + (24 + ps) * (i - 1) = zlen pre - 24) by (rewrite Hpre, Hi; replace (zlen backfilled + 1 + Z.of_nat n - 1) with (zlen backfilled + Z.of_nat n) by lia; lia).
  eapply wp_bind_lift_res; [apply (frame_offset_ok ps); try done; lia|]. rewrite Hbase. unfold frameHeaderSize. rewrite Z.sub_add.
  eapply wp_bind_lift_res; [unfold chk_int; rewrite (proj2 (Z.leb_le _ _)), (proj2 (Z.ltb_lt _ _)) by lia; reflexivity|]. rewrite Z.add_0_r.
  eapply (wp_acquireData d); try done; [lia..|]. intros w' _. rewrite Hd. apply slice_app_at; [done|by rewrite Hcl].
Qed.
End log.

(** ** Logs *)

(** A log: the frames that a checkpoint has copied into the database, the frames behind them, and what is
    behind these. *)
Record LogFile := MkLogFile {
  lf_native : bool; lf_salt : Salt; lf_mid : list Z; lf_backfilled : list WalFrame; lf_live : list WalFrame; lf_rest : list Z
}.

Definition log_content (l : LogFile) : list Z :=
  wal_header (lf_native l) (lf_salt l) (lf_mid l)
  ++ frames_bytes (lf_native l) (lf_salt l) (head_sum (lf_native l) (lf_salt l) (lf_mid l)) (lf_backfilled l ++ lf_live l) ++ lf_rest l.

Definition good_log (ps : Z) (l : LogFile) : Prop :=
  is_sum (lf_salt l) /\ zlen (lf_mid l) = 12 /\ Forall is_byte (lf_mid l) /\ Forall (good_frame ps) (lf_backfilled l ++ lf_live l)
  /\ zlen (log_content l) < 2 ^ 31.

Definition good_pageSize (ps : Z) : Prop := 512 <= ps <= 65536 /\ (8 | ps).

(** What is promised of a log that has been read: the pages of the committed transactions that are not in
    the database yet have their last content, and the pages of the frames behind the last commit are dropped. *)
Definition presents `{I : Interrupts} (ps : Z) (live : list WalFrame) (w : Wal) : Prop :=
  (forall p, containsPage w p = bool_decide (is_Some (last_content (committed live) p)))
  /\ (forall p c, last_content (committed live) p = Some c -> wp (wal_acquirePageData p 0 ps) (fun data _ => data = c) w)
  /\ (forall p, p ∈ w_disposed w <-> is_Some (last_content (uncommitted live) p)).

Section committed.
Context `{I : Interrupts} (d : Disk) {L : DiskLaws d}.
Hypothesis granted : reliable d.
Variables (ps : Z) (l : LogFile).
Hypothesis ps_good : good_pageSize ps.
Hypothesis l_good : good_log ps l.
Hypothesis l_bytes : dk_bytes d = log_content l.

(** The index after the live frames, with pending records that are dropped. *)
Lemma presents_replay w w' m st : before_frames d (lf_native l) (lf_salt l) ps (lf_backfilled l) w ->
  let r := replay (zlen (lf_backfilled l) + 1) (lf_live l) (MkReplay (w_truncate w) (w_maxFrame w) ∅ ∅) in
  same_wal (set_replay r w) w' -> m = rp_pending r -> presents ps (lf_live l) (set_w_init st (set_w_disposed (dom m ∪ w_disposed w') w')).
Proof.
  intros (R & _ & _ & Hd). cbn zeta. intros (h & -> & S) ->. destruct l_good as (Hs & Hm & Hmb & Hf & Hsmall).
  assert (Hp : forall p, w_pages (set_w_file h (set_replay (replay (zlen (lf_backfilled l) + 1) (lf_live l) (MkReplay (w_truncate w) (w_maxFrame w) ∅ ∅)) w)) !! p
    = last_frame (zlen (lf_backfilled l) + 1) (committed (lf_live l)) p) by (intros; apply index_pages).
  split_and!.
  - intros p. unfold containsPage. cbn [w_pages set_w_disposed set_w_init]. rewrite Hp. apply bool_decide_ext, last_frame_is_Some.
  - intros p c Hc. eapply (wp_acquirePage d); try done; try (by rewrite l_bytes).
    destruct R as (R1 & R2 & R3 & R4). split_and!; try done. by eapply (sound_same d _ _ R1).
  - intros p. cbn [w_disposed set_w_disposed set_w_file set_replay set_w_index set_w_init]. rewrite Hd, union_empty_r_L. apply index_pending.
Qed.

Lemma presents_empty w : w_pages w = ∅ -> w_disposed w = ∅ -> presents ps [] w.
Proof.
  intros Hp Hd. split_and!; [|done|].
  - intros p. unfold containsPage. by rewrite Hp, lookup_empty.
  - intros p. rewrite Hd. split; [by intros ?%elem_of_empty|by intros []].
Qed.
End committed.

(** The index that the live frames give. *)
Definition log_index (l : LogFile) : gmap Z Z := rp_pages (replay (zlen (lf_backfilled l) + 1) (lf_live l) (MkReplay 0 0 ∅ ∅)).

Lemma log_index_frame l p : log_index l !! p = last_frame (zlen (lf_backfilled l) + 1) (committed (lf_live l)) p.
Proof. apply index_pages. Qed.

(** The log as it is after its initialization. *)
Definition loaded `{I : Interrupts} (dw : Disk) (ps : Z) (l : LogFile) (w : Wal) : Prop :=
  presents ps (lf_live l) w /\ w_pages w = log_index l /\ sound_handle dw (w_file w) /\ w_pageSize w = ps /\ w_error w = NoError.

Lemma wp_wal_committed `{I : Interrupts} (dw ds : Disk) (Lw : DiskLaws dw) (Ls : DiskLaws ds) ps l s junk nbackfill (Q : bool -> Wal -> Prop) :
  reliable dw -> reliable ds -> good_pageSize ps -> good_log ps l -> good_shm s ->
  dk_bytes dw = log_content l -> dk_bytes ds = shm_bytes s ->
  sf_salt s = lf_salt l -> sf_backfill s = zlen (lf_backfilled l) -> sf_maxFrame s = zlen (lf_backfilled l ++ lf_live l) ->
  (forall w, loaded dw ps l w -> Q true w) -> wp wal_initialize Q (new_wal dw ds ps junk nbackfill).
Proof.
  intros Rw Rs Hps Hl Hs Hwb Hsb Esalt Eback Emax HQ. pose proof Hl as (Hsalt & Hmid & Hmb & Hf & Hsmall).
  pose proof Hs as (_ & _ & _ & _ & _ & Hmax & Hback & _). pose proof Hps as [Hps1 _].
  unfold wal_initialize, initialize. apply wp_bind_gets. cbn [w_init new_wal]. apply wp_bind_modify, wp_bind.
  unfold wal_doInitialize. apply wp_bind. unfold load_shm. apply wp_bind_gets. cbn [w_shmLegality set_w_init new_wal negb].
  apply wp_bind, (wp_shm_initialize ds Rs s Hs Hsb); [done..|]. intros m (E1 & E2 & E3 & _). cbn [negb].
  apply wp_bind_gets, wp_bind_modify, wp_bind_modify, wp_ret. cbn [w_shm set_w_shm set_w_init].
  rewrite E1, E2, E3, Esalt. unfold s32. rewrite !wrap_s_small by lia.
  pose proof (log_size dw (lf_native l) (lf_salt l) ps (lf_mid l) Hmid (lf_backfilled l) (lf_live l) (lf_rest l) Hf Hwb) as Hz.
  rewrite <- Hwb in Hsmall. zlen_pos. assert (0 <= (24 + ps) * (zlen (lf_backfilled l) + zlen (lf_live l))) by nia.
  eapply (wp_load_log dw Rw) with (ps := ps); try done; [unfold s32; rewrite wrap_s_small by lia; unfold chk_int; rewrite (proj2 (Z.leb_le _ _)), (proj2 (Z.ltb_lt _ _)) by lia; reflexivity|].
  intros w' (R & Hn & Hp & Hd & _ & He). cbn [w_salt w_nbackfill w_pages w_disposed w_error set_w_salt set_w_nbackfill set_w_shm set_w_init new_wal] in *.
  assert (Hr : restarted (lf_salt l) (lf_salt l) (sf_backfill s) = false) by (unfold restarted; rewrite (bool_decide_eq_true_2 (lf_salt l = lf_salt l)) by done; by rewrite andb_false_r).
  rewrite Hr in *. cbn zeta. rewrite Hn, Emax, Eback, zlen_app. replace (zlen (dk_bytes dw) - 32) with ((24 + ps) * (zlen (lf_backfilled l) + zlen (lf_live l)) + zlen (lf_rest l)) by lia.
  rewrite Z.min_r by (apply room_frames; lia). case_match eqn:Ele.
  - assert (Hlive : lf_live l = []) by (apply zlen_0_inv; lia). pose proof R as (R1 & R2 & _). apply wp_ret, wp_bind_modify, wp_ret, HQ. unfold loaded, log_index. rewrite Hlive. cbn [replay rp_pages].
    split_and!; try done; [by apply presents_empty|by destruct R1 as (? & ? & ?)..].
  - assert (B : before_frames dw (lf_native l) (lf_salt l) ps (lf_backfilled l) w') by (split_and!; (done || congruence)).
    eapply (wp_read_frames dw) with (n := 0%nat); try done; [lia|]. intros w2 r S2. apply wp_ret, wp_bind_modify, wp_ret, wp_bind_modify, wp_ret, HQ.
    split; [by apply (presents_replay dw Rw ps l Hps Hl Hwb w')|]. destruct S2 as (h & -> & S2). pose proof R as (R1 & R2 & _). split_and!; try done; [|by eapply (sound_same dw _ _ R1)].
    apply map_eq. intros p. rewrite log_index_frame. apply index_pages.
Qed.

(** C10: A write-ahead log with its -shm file is read as SQLite has written it: whatever the log holds behind
    the valid frames, exactly the pages of committed transactions that no checkpoint has copied are
    presented, each with its last content, and the pages of frames behind the last commit are dropped. *)
Theorem wal_committed_pages `{I : Interrupts} (dw ds : Disk) (Lw : DiskLaws dw) (Ls : DiskLaws ds) ps l s junk nbackfill :
  reliable dw -> reliable ds -> good_pageSize ps -> good_log ps l -> good_shm s ->
  dk_bytes dw = log_content l -> dk_bytes ds = shm_bytes s ->
  sf_salt s = lf_salt l -> sf_backfill s = zlen (lf_backfilled l) -> sf_maxFrame s = zlen (lf_backfilled l ++ lf_live l) ->
  wp wal_initialize (fun ok w => ok = true /\ presents ps (lf_live l) w) (new_wal dw ds ps junk nbackfill).
Proof. intros Rw Rs Hps Hl Hs Hwb Hsb Esalt Eback Emax. eapply (wp_wal_committed dw ds Lw Ls ps l s); try done. by intros w (Hw & _). Qed.

(** ** Without the -shm file *)

(** The log that is read with the number of backfilled frames and the salt that a material has kept. *)
Definition read_with `{I : Interrupts} (nbackfill : Z) (salt : Salt) : cm Wal bool :=
  setShmLegality false ;;; wal_setNBackFill nbackfill ;;; setSalt salt ;;; wal_initialize.

(** What is behind the valid frames: less than a frame, or a frame of the same generation, with the salt of
    the log, whose checksum is not the running one. *)
Definition log_ends (ps : Z) (l : LogFile) : Prop :=
  let c := frames_sum (lf_native l) (head_sum (lf_native l) (lf_salt l) (lf_mid l)) (lf_backfilled l ++ lf_live l) in
  zlen (lf_rest l) < 24 + ps
  \/ exists sum f more, lf_rest l = frame_bytes (lf_salt l) sum f ++ more /\ good_frame ps f /\ is_sum sum /\ sum <> frame_sum (lf_native l) c f.

Section without.
Context `{I : Interrupts} (dw ds : Disk) {Lw : DiskLaws dw}.
Hypothesis granted : reliable dw.
Variables (ps : Z) (l : LogFile).
Hypothesis ps_good : good_pageSize ps.
Hypothesis l_good : good_log ps l.
Hypothesis l_bytes : dk_bytes dw = log_content l.

(** The number of whole frames in the file. *)
Definition frames_in_file : Z := Z.quot (zlen (log_content l) - 32) (24 + ps).

Lemma log_room : chk_int (s32 (zlen (dk_bytes dw)) - 32) = Done (zlen (log_content l) - 32)
  /\ zlen (log_content l) - 32 = (24 + ps) * (zlen (lf_backfilled l) + zlen (lf_live l)) + zlen (lf_rest l)
  /\ zlen (lf_backfilled l) + zlen (lf_live l) <= frames_in_file < 2 ^ 31.
Proof.
  destruct l_good as (Hs & Hm & Hmb & Hf & Hsmall), ps_good as [Hps _].
  pose proof (log_size dw (lf_native l) (lf_salt l) ps (lf_mid l) Hm (lf_backfilled l) (lf_live l) (lf_rest l) Hf l_bytes) as Hz. rewrite l_bytes in *.
  zlen_pos. assert (0 <= (24 + ps) * (zlen (lf_backfilled l) + zlen (lf_live l))) by nia.
  assert (E : zlen (log_content l) - 32 = (24 + ps) * (zlen (lf_backfilled l) + zlen (lf_live l)) + zlen (lf_rest l)) by lia.
  split_and!; [|done| |].
  - unfold s32. rewrite wrap_s_small by lia. unfold chk_int. rewrite (proj2 (Z.leb_le _ _)), (proj2 (Z.ltb_lt _ _)) by lia. done.
  - unfold frames_in_file. rewrite E. apply room_frames; lia.
  - unfold frames_in_file. rewrite Z.quot_div_nonneg by lia. apply Z.div_lt_upper_bound; nia.
Qed.

(** The header has been read, the -shm file is not trusted, and nothing has gone wrong. *)
Definition trusted_nothing (w : Wal) : Prop :=
  before_frames dw (lf_native l) (lf_salt l) ps (lf_backfilled l) w /\ w_shmLegality w = false /\ w_error w = NoError.

Lemma wp_read_with known junk nb Q :
  known = (0, 0) \/ known = lf_salt l ->
  (forall w, trusted_nothing w ->
    wp (if frames_in_file <=? zlen (lf_backfilled l) then ret true
        else read_frames (wal_header (lf_native l) (lf_salt l) (lf_mid l)) frames_in_file (head_sum (lf_native l) (lf_salt l) (lf_mid l)))
      (fun ok w => Q ok (set_w_init (if ok then Initialized else Failed) w)) w) ->
  wp (read_with (zlen (lf_backfilled l)) known) Q (new_wal dw ds ps junk nb).
Proof.
  intros Hk HQ. destruct log_room as (Hroom & _ & _ & Hmax). pose proof ps_good as [Hps _]. pose proof l_good as (Hs & Hm & _).
  unfold read_with. do 3 apply wp_bind_modify. unfold wal_initialize, initialize. apply wp_bind_gets. cbn [w_init set_w_salt set_w_nbackfill set_w_legality new_wal].
  apply wp_bind_modify, wp_bind. unfold wal_doInitialize. apply wp_bind. unfold load_shm. apply wp_bind_gets.
  cbn [w_shmLegality set_w_init set_w_salt set_w_nbackfill set_w_legality new_wal negb]. apply wp_ret.
  assert (Hr : restarted known (lf_salt l) (zlen (lf_backfilled l)) = false).
  { unfold restarted. destruct Hk as [-> | ->]; [by rewrite bool_decide_eq_true_2 by done|].
    rewrite (bool_decide_eq_true_2 (lf_salt l = lf_salt l)) by done. by rewrite andb_false_r. }
  eapply (wp_load_log dw granted) with (ps := ps); try done. intros w (R & Hn & Hp & Hd & Hl & He).
  cbn [w_salt w_nbackfill w_pages w_disposed w_shmLegality w_error set_w_salt set_w_nbackfill set_w_legality set_w_init new_wal] in *. cbn zeta. rewrite Hr in *.
  fold frames_in_file. rewrite Z.min_l by (unfold INT_MAX; lia). rewrite Hn. eapply wp_mono; [apply HQ; split_and!; done|].
  intros ok w' HQ'. by apply wp_bind_modify, wp_ret.
Qed.

(** The first byte behind the valid frames. *)
Lemma after_live : exists pre, dk_bytes dw = pre ++ lf_rest l
  /\ zlen pre = 32 + (24 + ps) * (zlen (lf_backfilled l) + 1 + zlen (lf_live l) - 1).
Proof.
  destruct log_room as (_ & E & _). exists (wal_header (lf_native l) (lf_salt l) (lf_mid l)
    ++ frames_bytes (lf_native l) (lf_salt l) (head_sum (lf_native l) (lf_salt l) (lf_mid l)) (lf_backfilled l ++ lf_live l)).
  split; [by rewrite l_bytes, <- app_assoc|]. unfold log_content in E. rewrite app_assoc, zlen_app in E. lia.
Qed.

(** A whole frame behind the valid ones is looked at. *)
Lemma frames_more : 24 + ps <= zlen (lf_rest l) -> zlen (lf_backfilled l) + zlen (lf_live l) + 1 <= frames_in_file.
Proof.
  intros Hrest. destruct log_room as (_ & E & _), ps_good as [Hps _]. unfold frames_in_file. rewrite E.
  replace ((24 + ps) * (zlen (lf_backfilled l) + zlen (lf_live l)) + zlen (lf_rest l))
    with ((24 + ps) * (zlen (lf_backfilled l) + zlen (lf_live l) + 1) + (zlen (lf_rest l) - (24 + ps))) by lia.
  zlen_pos. apply room_frames; lia.
Qed.

(** Reading the valid frames, and then [n] others. *)
Lemma wp_read_more n w Q :
  trusted_nothing w -> Z.of_nat n = frames_in_file - zlen (lf_backfilled l) - zlen (lf_live l) ->
  (forall w', let r := replay (zlen (lf_backfilled l) + 1) (lf_live l) (MkReplay (w_truncate w) (w_maxFrame w) ∅ ∅) in
    same_wal (set_replay r w) w' ->
    wp (frames_loop n (zlen (lf_backfilled l) + 1 + zlen (lf_live l))
         (frames_sum (lf_native l) (head_sum (lf_native l) (lf_salt l) (lf_mid l)) (lf_backfilled l ++ lf_live l)) (rp_pending r))
      (fun m => wp (finish m) Q) w') ->
  wp (read_frames (wal_header (lf_native l) (lf_salt l) (lf_mid l)) frames_in_file (head_sum (lf_native l) (lf_salt l) (lf_mid l))) Q w.
Proof.
  intros (B & _) Hn HQ. destruct l_good as (Hs & Hm & Hmb & Hf & Hsmall). unfold frames_sum in HQ. rewrite fold_left_app in HQ.
  eapply (wp_read_frames dw) with (n := n); try done. by rewrite l_bytes.
Qed.
End without.

(** C14: A log that is read without its -shm file, with the number of backfilled frames and the salt that
    were kept, ends behind its last whole frame, or before the first frame that has the salt of the
    log and a checksum that is not the running one: the reading succeeds and the pages of the
    transactions before it are presented.  A frame with another salt, as an earlier generation of the log
    leaves it, is not covered: there the code gives the whole log up
    ([wal_old_frames_drop_all]). *)
Theorem wal_ends_at_mismatch `{I : Interrupts} (dw ds : Disk) (Lw : DiskLaws dw) ps l known junk nbackfill :
  reliable dw -> good_pageSize ps -> good_log ps l -> dk_bytes dw = log_content l -> log_ends ps l ->
  known = (0, 0) \/ known = lf_salt l ->
  wp (read_with (zlen (lf_backfilled l)) known) (fun ok w => ok = true /\ presents ps (lf_live l) w) (new_wal dw ds ps junk nbackfill).
Proof.
  intros Rw Hps Hl Hb Hends Hk. destruct (log_room dw ps l Hps Hl Hb) as (_ & E & Hmin & _). pose proof Hps as [Hps1 _].
  apply (wp_read_with dw ds Rw ps l Hps Hl Hb); [done|]. intros w T. case_match eqn:Ele.
  { apply wp_ret. split; [done|]. assert (Hlive : lf_live l = []) by (apply zlen_0_inv; zlen_pos; lia). rewrite Hlive.
    destruct T as ((_ & _ & Hp & Hd) & _). by apply presents_empty. }
  pose proof Hl as (Hs & Hm & Hmb & Hf & Hsmall).
  assert (Hfin : forall w' m, same_wal (set_replay (replay (zlen (lf_backfilled l) + 1) (lf_live l) (MkReplay (w_truncate w) (w_maxFrame w) ∅ ∅)) w) w' ->
    m = rp_pending (replay (zlen (lf_backfilled l) + 1) (lf_live l) (MkReplay (w_truncate w) (w_maxFrame w) ∅ ∅)) ->
    wp (finish (Some m)) (fun ok w => ok = true /\ presents ps (lf_live l) (set_w_init (if ok then Initialized else Failed) w)) w').
  { intros w' m S' ->. apply wp_bind_modify, wp_ret. split; [done|]. destruct T as (B & _). by apply (presents_replay dw Rw ps l Hps Hl Hb w). }
  destruct Hends as [Hshort|(sum & f & more & Hrest & Hgf & Hsum & Hne)].
  - apply (wp_read_more dw Rw ps l Hps Hl Hb 0); [done| |].
    + unfold frames_in_file. rewrite E, Z.quot_div_nonneg by (zlen_pos; nia). rewrite Z.mul_comm, Z.div_add_l, Z.div_small by (zlen_pos; lia). lia.
    + intros w' r S'. by apply wp_ret, Hfin.
  - assert (Hr : 24 + ps <= zlen (lf_rest l)) by (rewrite Hrest, zlen_app, (zlen_frame_bytes _ ps) by done; zlen_pos; lia).
    pose proof (frames_more dw ps l Hps Hl Hb Hr) as Hmore.
    apply (wp_read_more dw Rw ps l Hps Hl Hb (S (Z.to_nat (frames_in_file ps l - zlen (lf_backfilled l) - zlen (lf_live l) - 1)))); [done|lia|].
    intros w' r S'. cbn [frames_loop]. destruct (after_live dw ps l Hps Hl Hb) as (pre & Hd & Hz). rewrite Hrest in Hd.
    pose proof T as ((R & _) & Hleg & _). assert (R' : ready dw (lf_native l) (lf_salt l) ps w') by (eapply (ready_same dw); [|exact S']; exact R).
    assert (Hsize : 32 <= zlen (dk_bytes dw) < 2 ^ 31) by (rewrite Hb in *; zlen_pos; nia).
    apply wp_bind. eapply (wp_frame_any dw Rw); try done; [zlen_pos; lia|]. intros w2 S2. rewrite bool_decide_eq_true_2 by done.
    apply wp_bind. eapply (wp_frame_checksum dw) with (salt := lf_salt l); try done; [by eapply (ready_same dw)|]. cbn [fr_checksum].
    rewrite bool_decide_eq_false_2 by (by intros <-). cbn [negb]. apply wp_bind_gets.
    assert (Hleg2 : w_shmLegality w2 = false) by (destruct S2 as (? & -> & _), S' as (? & -> & _); done). rewrite Hleg2. apply wp_ret.
    apply Hfin; [by eapply same_wal_trans|done].
Qed.
