(* ===== verification/WalSafe.v ===== *)
(** * The write-ahead log: arbitrary files

    Whatever the -wal and -shm files hold and whichever requests are refused, reading the log ends
    without a fault, and every page it then contains can be acquired. *)

From stdpp Require Import gmap.
From S2P Require Import Prelude CLib Serial SerialVarint SerialFacts MappedFile WalLog WalProps.

Section any.
Context `{I : Interrupts} (d : Disk) {L : DiskLaws d}.
Variable ps : Z.
Hypothesis ps_good : good_pageSize ps.
Hypothesis bytes : Forall is_byte (dk_bytes d).
Hypothesis small : zlen (dk_bytes d) < 2 ^ 31.

(** The number of whole frames. *)
Definition whole_frames : Z := Z.quot (zlen (dk_bytes d) - 32) (24 + ps).

(** Every page of the index is in a frame of the file, and its number is an [int]. *)
Definition index_sound (m : gmap Z Z) : Prop := forall p i, m !! p = Some i -> p < 2 ^ 31 /\ 1 <= i <= whole_frames.

(** The file is open and the index is sound. *)
Definition log_sound (w : Wal) : Prop := sound_handle d (w_file w) /\ w_pageSize w = ps /\ index_sound (w_pages w).

Lemma index_sound_insert m p k : index_sound m -> p < 2 ^ 31 -> 1 <= k <= whole_frames -> index_sound (<[p := k]> m).
Proof. intros Hm Hp Hk q i. rewrite lookup_insert_Some. intros [[<- <-]|[_ H]]; [done|by eapply Hm]. Qed.
Lemma index_sound_union m1 m2 : index_sound m1 -> index_sound m2 -> index_sound (m1 ∪ m2).
Proof. intros H1 H2 p i. rewrite lookup_union_Some_raw. intros [H|[_ H]]; [by eapply H1|by eapply H2]. Qed.
Lemma index_sound_empty : index_sound ∅.
Proof. intros p i. by rewrite lookup_empty. Qed.

Lemma whole_frame_fits k : 1 <= k <= whole_frames -> 0 <= (24 + ps) * (k - 1) /\ 32 + (24 + ps) * (k - 1) + (24 + ps) <= zlen (dk_bytes d).
Proof.
  intros Hk. destruct ps_good as [Hps _]. unfold whole_frames in Hk. zlen_pos.
  destruct (Z.lt_ge_cases (zlen (dk_bytes d)) 32) as [Hs|Hs].
  - replace (zlen (dk_bytes d) - 32) with (- (32 - zlen (dk_bytes d))) in Hk by lia. rewrite Z.quot_opp_l in Hk by lia.
    pose proof (Z.quot_pos (32 - zlen (dk_bytes d)) (24 + ps)). lia.
  - rewrite Z.quot_div_nonneg in Hk by lia. pose proof (Z.mul_div_le (zlen (dk_bytes d) - 32) (24 + ps)). nia.
Qed.

Lemma log_sound_file w h : log_sound w -> same_file (w_file w) h -> log_sound (set_w_file h w).
Proof. intros (H1 & H2 & H3) S. split_and!; [|done..]. by eapply (sound_same d _ _ H1). Qed.

Lemma wp_acquireData_any offset n w Q :
  log_sound w -> 0 <= offset -> 0 < n -> offset + n <= zlen (dk_bytes d) ->
  (forall w' r, log_sound w' -> w_nbackfill w' = w_nbackfill w -> r = [] \/ r = slice offset n (dk_bytes d) -> Q r w') -> wp (acquireData offset n) Q w.
Proof.
  intros Hw Ho Hn Hfit HQ. pose proof Hw as (Hh & _). unfold acquireData, on_wal_file. apply wp_bind, wp_zoom, (wp_fh_map d); [done..|].
  intros r h' S' Hr _. pose proof (log_sound_file _ _ Hw S') as Hw'. case_match; [apply wp_ret, HQ; done|]. apply wp_bind.
  case_match; [apply wp_bind_gets|]; apply wp_modify, wp_ret, HQ; try done; by left.
Qed.

Lemma Forall_part {A} (P : A -> Prop) (l : list A) i n : Forall P l -> Forall P (slice i n l).
Proof. intros. by apply Forall_take, Forall_drop. Qed.

(** Four bytes at the cursor. *)
Lemma wp_advance4_any w l s Q : reads 0 w l s -> Forall is_byte l -> 4 <= zlen l ->
  (forall v w' l' s', 0 <= v < 2 ^ 32 -> l = w' ++ l' -> zlen l' = zlen l - 4 -> reads 0 (w ++ w') l' s' -> Q v s') -> wp advance4BytesUInt Q s.
Proof.
  intros R Hb Hl HQ. destruct l as [|p0 [|p1 [|p2 [|p3 l]]]]; try (rewrite ?zlen_cons, zlen_nil in Hl; lia).
  rewrite !Forall_cons in Hb. destruct Hb as (B0 & B1 & B2 & B3 & Hb).
  apply (wp_advance4 _ _ _ _ _ _ _ _ _ R); [by rewrite !Forall_cons|]. intros s' R'. apply (HQ _ [p0; p1; p2; p3] l); [|done| |done].
  - unfold is_byte, be_value in *. lia.
  - rewrite !zlen_cons. lia.
Qed.

(** Numbers of four bytes, one behind the other. *)
Ltac advance R Hb :=
  apply wp_bind; eapply wp_advance4_any; [exact R|exact Hb|rewrite ?zlen_slice in *; lia|];
  let v := fresh "v" in let Hv := fresh "Hv" in let w' := fresh in let l' := fresh "l" in let s' := fresh in let E := fresh in let Hz := fresh "Hz" in
  intros v w' l' s' Hv E Hz; clear R; intros R; rewrite E in Hb; apply Forall_app in Hb as [_ Hb].

Lemma frame_fields_any data (Q : Z * Z * Salt * (Z * Z) -> Deserialization -> Prop) :
  Forall is_byte data -> 24 <= zlen data < 2 ^ 62 -> (forall n t salt c s, n < 2 ^ 31 -> Q (n, t, salt, c) s) -> wp frame_fields Q (new_deserialization data).
Proof.
  intros Hb Hl HQ. assert (R : reads 0 [] data (new_deserialization data)) by (apply reads_new; lia). unfold frame_fields.
  do 6 (advance R Hb). apply wp_ret, HQ. unfold s32, wrap_s. pose proof (Z.mod_pos_bound (v + 2 ^ (32 - 1)) (2 ^ 32) ltac:(lia)). lia.
Qed.

Lemma wp_frame_initialize_any k w Q :
  log_sound w -> 1 <= k <= whole_frames ->
  (forall w' r, log_sound w' -> match r with Some f => fr_pageno f < 2 ^ 31 /\ zlen (fr_data f) = 24 + ps /\ Forall is_byte (fr_data f) | None => True end -> Q r w') ->
  wp (frame_initialize k) Q w.
Proof.
  intros Hw Hk HQ. destruct (whole_frame_fits k Hk) as [H0 Hfit], ps_good as [Hps _]. unfold frame_initialize. apply wp_bind. unfold acquireFrameData. apply wp_bind_gets.
  pose proof Hw as (_ & Hp & _). eapply wp_bind_lift_res; [apply (frame_offset_ok ps); try done; lia|].
  unfold getFrameSize, frameHeaderSize. rewrite Hp. apply wp_acquireData_any; [done|lia..|]. intros w' r Hw' _ [-> | ->]; [by apply wp_ret, HQ|].
  assert (Hz : zlen (slice (32 + (24 + ps) * (k - 1)) (24 + ps) (dk_bytes d)) = 24 + ps) by (apply zlen_slice; lia).
  assert (Hb : Forall is_byte (slice (32 + (24 + ps) * (k - 1)) (24 + ps) (dk_bytes d))) by (by apply Forall_part).
  apply wp_nonempty; [lia|]. apply wp_bind, wp_parse, frame_fields_any; [done|lia|]. intros pageno truncate s c _ Hpn. apply wp_bind_gets.
  case_match; [by apply wp_bind_modify, wp_ret, HQ|]. by apply wp_ret, HQ.
Qed.

Lemma wp_checksum_any l c w Q : l <> [] -> Forall is_byte l -> (8 | length l)%nat -> (forall c', Q c' w) -> wp (wal_calculateChecksum l c) Q w.
Proof. intros. unfold wal_calculateChecksum. apply wp_bind_gets. eapply wp_lift_res; [by apply checksum_words|done]. Qed.

Lemma wp_frame_checksum_any f c w Q :
  log_sound w -> zlen (fr_data f) = 24 + ps -> Forall is_byte (fr_data f) -> (forall c', Q c' w) -> wp (frame_calculateChecksum f c) Q w.
Proof.
  intros (_ & Hp & _) Hz Hb HQ. destruct ps_good as [Hps [q Hq]]. unfold frame_calculateChecksum.
  assert (E : forall i n, 0 <= i -> 0 < n -> i + n <= 24 + ps -> subdata (fr_data f) i n = Done (slice i n (fr_data f))).
  { intros i n Hi Hn Hin. unfold subdata, u64. rewrite !Z.mod_small by lia. rewrite (proj2 (Z.eqb_neq _ _)), (proj2 (Z.leb_le _ _)) by lia. apply zread_n_slice; lia. }
  assert (Hsum : forall i n c Q, 0 <= i -> 0 < n -> i + n <= 24 + ps -> (exists k, n = 8 * k) -> (forall c', Q c' w) ->
    wp (wal_calculateChecksum (slice i n (fr_data f)) c) Q w).
  { intros i n c' Q' Hi Hn Hin [k Hk] HQ'. assert (Hl : zlen (slice i n (fr_data f)) = n) by (apply zlen_slice; lia).
    apply wp_checksum_any; [intros E'; rewrite E', zlen_nil in Hl; lia|by apply Forall_part|exists (Z.to_nat k); unfold zlen in Hl; lia|done]. }
  eapply wp_bind_lift_res; [apply E; lia|]. apply wp_bind, Hsum; [lia..|by exists 1|]. intros c1. apply wp_bind_gets. rewrite Hp.
  eapply wp_bind_lift_res; [apply E; unfold frameHeaderSize; lia|]. apply Hsum; try (unfold frameHeaderSize; lia); [exists q; lia|]. done.
Qed.

Lemma log_sound_dispose w Q : log_sound w -> (forall w', log_sound w' -> Q tt w') -> wp dispose Q w.
Proof. intros (H1 & H2 & _) HQ. apply wp_modify, HQ. split_and!; [done..|apply index_sound_empty]. Qed.

Lemma wp_frames_loop_any n : forall k c m w Q,
  log_sound w -> index_sound m -> 1 <= k -> k + Z.of_nat n <= whole_frames + 1 ->
  (forall r w', log_sound w' -> Q r w') -> wp (frames_loop n k c m) Q w.
Proof.
  induction n as [|n IH]; intros k c m w Q Hw Hm Hk Hn HQ; cbn [frames_loop]; [by apply wp_ret, HQ|].
  apply wp_bind, wp_frame_initialize_any; [done|lia|]. intros w1 [f|] Hw1 Hf.
  2: { apply wp_bind, log_sound_dispose; [done|]. intros w2 Hw2. by apply wp_ret, HQ. }
  destruct Hf as (Hpn & Hz & Hb). apply wp_bind, wp_frame_checksum_any; [done..|]. intros c1. case_match.
  { apply wp_bind_gets. case_match; [apply wp_bind_modify|]; by apply wp_ret, HQ. }
  assert (Hm' : index_sound (<[fr_pageno f := k]> m)) by (apply index_sound_insert; [done..|lia]).
  case_match.
  - apply wp_bind_modify, IH; [|apply index_sound_empty|lia..|done]. destruct Hw1 as (H1 & H2 & H3). split_and!; [done..|]. by apply index_sound_union.
  - apply IH; [done..|lia|lia|done].
Qed.

Lemma wp_read_frames_any data max stored w Q :
  log_sound w -> zlen data = 32 -> Forall is_byte data -> 0 <= w_nbackfill w < max -> max <= whole_frames ->
  (forall r w', log_sound w' -> Q r w') -> wp (read_frames data max stored) Q w.
Proof.
  intros Hw Hz Hb Hn Hmax HQ. unfold read_frames.
  assert (E : subdata_first data (walHeaderSize - 8) = Done (slice 0 24 data)).
  { unfold subdata_first, walHeaderSize. change (u64 (32 - 8)) with 24. rewrite Hz. cbn [Z.leb Z.compare Pos.compare Pos.compare_cont].
    unfold subdata. change (u64 (32 - 8)) with 24. change (u64 (0 + (32 - 8))) with 24. rewrite Hz. cbn [Z.leb Z.compare Pos.compare Pos.compare_cont Z.eqb]. apply zread_n_slice; lia. }
  assert (Hl : zlen (slice 0 24 data) = 24) by (apply zlen_slice; lia).
  eapply wp_bind_lift_res; [exact E|]. apply wp_bind, wp_checksum_any; [intros E'; by rewrite E' in Hl|by apply Forall_part|exists 3%nat; unfold zlen in Hl; lia|].
  intros c. case_match; [by apply wp_bind_modify, wp_ret, HQ|]. apply wp_bind_gets, wp_bind.
  assert (Hloop : forall c w1, log_sound w1 ->
    wp (let! m := frames_loop (Z.to_nat (max - w_nbackfill w)) (w_nbackfill w + 1) c ∅ in
        match m with None => ret false | Some m => modify (fun w => set_w_disposed (dom m ∪ w_disposed w) w) ;;; ret true end) Q w1).
  { intros c1 w1 Hw1. apply wp_bind, wp_frames_loop_any; [done|apply index_sound_empty|lia..|]. intros [m|] w2 Hw2; [|by apply wp_ret, HQ].
    by apply wp_bind_modify, wp_ret, HQ. }
  case_match; [|apply wp_ret; by apply Hloop].
  apply wp_bind, wp_frame_initialize_any; [done|lia|]. intros w1 [f|] Hw1 _; [apply wp_ret; by apply Hloop|].
  apply wp_bind, log_sound_dispose; [done|]. intros w2 Hw2. by apply wp_ret, wp_ret, HQ.
Qed.

Lemma wal_header_fields_any data (Q : Z * Salt * (Z * Z) -> Deserialization -> Prop) :
  Forall is_byte data -> zlen data = 32 -> (forall r s, Q r s) -> wp wal_header_fields Q (new_deserialization data).
Proof.
  intros Hb Hl HQ. assert (R : reads 0 [] data (new_deserialization data)) by (apply reads_new; lia). unfold wal_header_fields.
  apply wp_bind. eapply wp_advance4_any; [exact R|done|lia|]. clear R. intros v w' l' s' _ E _ [-> _].
  apply wp_bind. unfold de_seek. apply wp_modify. cbn [d_data d_cursor d_version app]. rewrite <- E. clear E. rewrite Hl. change (seek_to 32 16) with 16.
  assert (R : reads 0 (slice 0 16 data) (slice 16 16 data) (Deser data 16 0)).
  { unfold slice. change (Z.to_nat 0) with 0%nat. rewrite drop_0. split; [|rewrite zlen_app; unfold zlen in *; rewrite !length_take, length_drop; lia].
    f_equal; [|unfold zlen in *; rewrite length_take; lia]. rewrite <- (take_drop 16 data) at 1. f_equal. symmetry. apply firstn_all2. unfold zlen in Hl. rewrite length_drop. lia. }
  assert (Hz : zlen (slice 16 16 data) = 16) by (apply zlen_slice; lia). apply (Forall_part _ _ 16 16) in Hb.
  do 4 (advance R Hb). apply wp_ret, HQ.
Qed.

(** What reading the log leaves: an empty index, or a sound one. *)
Definition log_loaded (w : Wal) : Prop := w_pages w = ∅ \/ log_sound w.

Lemma wp_load_log_any m w Q :
  unopened d ps w -> w_pages w = ∅ -> 0 <= w_nbackfill w -> (forall r w', log_loaded w' -> Q r w') -> wp (load_log m) Q w.
Proof.
  intros (Hd & Hz & Hp) Hpages Hn HQ. pose proof ps_good as [Hps _]. unfold load_log, on_wal_file.
  apply wp_bind, wp_zoom, (wp_getFileSize d); [done..|]. intros h1 (S1 & _ & S3). apply wp_bind_modify. zlen_pos.
  case_match eqn:E0; [apply wp_ret, HQ; by left|].
  apply wp_bind, wp_zoom. unfold fh_open. apply wp_bind, wp_request. intros h2 (T1 & T2 & T3) Tz _. apply wp_bind_gets.
  destruct (dk_open (fh_disk h2) _); cbn [negb].
  2: { apply wp_ret, wp_bind_modify, wp_ret, HQ. by left. }
  apply wp_bind_modify, wp_ret. set (w2 := set_w_file _ _).
  assert (Hw2 : log_sound w2).
  { split_and!; [|done|intros p i; cbn; by rewrite Hpages]. cbn in T1, Tz. split_and!; cbn; [congruence|done|rewrite Tz; rewrite Hd, Hz in S3; done]. }
  assert (Hn2 : w_nbackfill w2 = w_nbackfill w) by done. assert (Hf2 : w_fileSize w2 = zlen (dk_bytes d)) by done. clearbody w2.
  assert (Hdata : forall w3 r, log_sound w3 -> w_nbackfill w3 = w_nbackfill w -> w_fileSize w3 = zlen (dk_bytes d) -> r = [] \/ (zlen r = 32 /\ Forall is_byte r /\ 32 <= zlen (dk_bytes d)) ->
    wp (match r with
        | [] => ret false
        | _ =>
          let! (magic, salt, stored) := parse wal_header_fields r in
          if negb (Z.land magic 4294967294 =? 931071618) then wal_markAsCorrupted 0 ;;; ret false
          else
            modify (set_w_native (Z.land magic 1 =? 0)) ;;;
            let! w := gets (fun w => w) in
            let restarted := negb (bool_decide (w_salt w = (0, 0))) && negb (bool_decide (w_salt w = salt))
                             && negb (isCheckpointIncreasedSalt (w_salt w) salt && (0 <? w_nbackfill w)) in
            (if restarted then modify (set_w_nbackfill 0) else ret tt) ;;;
            let maxWalFrame := if restarted then INT_MAX else m in
            modify (set_w_salt salt) ;;;
            let! w := gets (fun w => w) in
            let! room := lift_res (chk_int (s32 (w_fileSize w) - walHeaderSize)) in
            let maxWalFrame := Z.min (Z.quot room (getFrameSize w)) maxWalFrame in
            if maxWalFrame <=? w_nbackfill w then ret true
            else read_frames r maxWalFrame stored
        end) Q w3).
  { intros w3 r Hw3 Hn3 Hf3 [->|(Hr & Hrb & Hbig)]; [apply wp_ret, HQ; by right|]. apply wp_nonempty; [lia|].
    apply wp_bind, wp_parse, wal_header_fields_any; [done..|]. intros [[magic salt] stored] _. case_match; [apply wp_bind_modify, wp_ret, HQ; by right|].
    apply wp_bind_modify, wp_bind_gets. cbn zeta. set (rst := _ && _). clearbody rst. apply wp_bind.
    assert (Hlast : forall w4, log_sound w4 -> 0 <= w_nbackfill w4 -> w_fileSize w4 = zlen (dk_bytes d) ->
      wp (let! room := lift_res (chk_int (s32 (w_fileSize w4) - walHeaderSize)) in
          if Z.min (Z.quot room (getFrameSize w4)) (if rst then INT_MAX else m) <=? w_nbackfill w4 then ret true
          else read_frames r (Z.min (Z.quot room (getFrameSize w4)) (if rst then INT_MAX else m)) stored) Q w4).
    { intros w4 Hw4 Hn4 Hf4. rewrite Hf4. unfold s32. rewrite wrap_s_small by lia.
      eapply wp_bind_lift_res; [unfold chk_int, walHeaderSize; rewrite (proj2 (Z.leb_le _ _)), (proj2 (Z.ltb_lt _ _)) by lia; reflexivity|].
      pose proof Hw4 as (_ & Hp4 & _). unfold getFrameSize, frameHeaderSize. rewrite Hp4. fold whole_frames. case_match; [apply wp_ret, HQ; by right|].
      apply wp_read_frames_any; [done..|lia|lia|]. intros. apply HQ. by right. }
    destruct rst; [apply wp_modify|apply wp_ret]; apply wp_bind_modify, wp_bind_gets; (apply Hlast; [done|cbn; lia|done]). }
  apply wp_bind. destruct (Z.lt_ge_cases (zlen (dk_bytes d)) 32) as [Hs|Hs].
  - unfold acquireData, on_wal_file. pose proof Hw2 as (Hh & _). apply wp_bind, wp_zoom, (wp_fh_map_short d); [done..|unfold walHeaderSize; lia|done|].
    intros r h' S' Hr. pose proof (log_sound_file _ _ Hw2 S') as Hw'. unfold walHeaderSize. change (u64 32) with 32.
    rewrite (proj2 (Z.eqb_neq _ _)) by (destruct Hr as [-> | ->]; [done|lia]). apply wp_bind.
    case_match; [apply wp_bind_gets|]; apply wp_modify, wp_ret, (Hdata _ []); try done; by left.
  - unfold acquireData, on_wal_file. pose proof Hw2 as (Hh & _). apply wp_bind, wp_zoom, (wp_fh_map d); [done..|unfold walHeaderSize; lia|].
    intros r h' S' Hr _. pose proof (log_sound_file _ _ Hw2 S') as Hw'. unfold walHeaderSize in *. change (u64 32) with 32. case_match eqn:El.
    + apply wp_ret, Hdata; try done. destruct Hr as [-> | ->]; [by left|right]. split_and!; [lia|by apply Forall_part|lia].
    + apply wp_bind. case_match; [apply wp_bind_gets|]; apply wp_modify, wp_ret, (Hdata _ []); try done; by left.
Qed.
End any.

(** *** The -shm file *)

Lemma le_val_nonneg l : Forall is_byte l -> 0 <= le_val l.
Proof. induction 1 as [|b l Hb _ IH]; cbn; [lia|]. unfold is_byte in Hb. lia. Qed.

(** The bytes of the number of backfilled frames. *)
Definition backfill_field (d : Disk) : Z := le_val (slice 96 4 (dk_bytes d)).

Lemma wp_shm_any `{I : Interrupts} d (L : DiskLaws d) w Q :
  Forall is_byte (dk_bytes d) -> backfill_field d < 2 ^ 31 ->
  fh_disk (shm_file (w_shm w)) = d -> fh_size (shm_file (w_shm w)) = -1 -> shm_init (w_shm w) = NotInitialized ->
  shm_backfill (w_shm w) = 0 ->
  (forall w' ok, w_file w' = w_file w -> w_pageSize w' = w_pageSize w -> w_pages w' = w_pages w ->
    (ok = true -> 0 <= shm_backfill (w_shm w') < 2 ^ 31) -> Q ok w') ->
  wp shm_initialize Q w.
Proof.
  intros Hb Hfield Hd Hz Hi H0 HQ. unfold shm_initialize, initialize. apply wp_bind_gets. rewrite Hi. apply wp_bind_modify.
  apply wp_bind. unfold shm_doInitialize, on_shm_file. apply wp_bind, wp_zoom, (wp_getFileSize d); [done..|]. intros h1 (S1 & _ & S3). zlen_pos.
  assert (Hend : forall ok w', w_file w' = w_file w -> w_pageSize w' = w_pageSize w -> w_pages w' = w_pages w ->
    (ok = true -> 0 <= shm_backfill (w_shm w') < 2 ^ 31) ->
    wp (modify (fun w => set_w_shm (MkShm (shm_file (w_shm w)) (shm_header (w_shm w)) (shm_info (w_shm w)) (if ok then Initialized else Failed)) w) ;;; ret ok) Q w').
  { intros ok w' E1 E2 E3 E4. apply wp_bind_modify, wp_ret, HQ; done. }
  case_match eqn:E0.
  { apply wp_ret, Hend; try done. intros _. change (0 <= shm_backfill (w_shm w) < 2 ^ 31). rewrite H0. lia. }
  apply wp_bind, wp_zoom. unfold fh_open. apply wp_bind, wp_request. intros h2 (T1 & T2 & T3) Tz _. apply wp_bind_gets.
  destruct (dk_open (fh_disk h2) _); cbn [negb]; [|by apply wp_ret, wp_bind_modify, wp_ret, Hend].
  apply wp_bind_modify, wp_ret. cbn [negb]. set (w2 := set_w_shm _ _).
  assert (O2 : sound_handle d (shm_file (w_shm w2))).
  { cbn in T1, Tz, S1, S3. split_and!; cbn; [congruence|done|rewrite Tz; rewrite Hd, Hz in S3; done]. }
  assert (Hw2 : w_file w2 = w_file w /\ w_pageSize w2 = w_pageSize w /\ w_pages w2 = w_pages w) by done. destruct Hw2 as (W1 & W2 & W3). clearbody w2.
  case_match; [by apply wp_bind_modify, wp_ret, Hend|]. unfold shmHeaderSize, shmInfoSize. change (48 * 2 + 40) with 136. change (48 * 2) with 96.
  cbn zeta. apply wp_bind, wp_zoom.
  assert (Hmap : forall Q', (forall r h', r = [] \/ r = slice 0 136 (dk_bytes d) -> Q' r h') -> wp (fh_map 0 136) Q' (shm_file (w_shm w2))).
  { intros Q' HQ'. destruct (Z.lt_ge_cases (zlen (dk_bytes d)) 136) as [Hs|Hs].
    - apply (wp_fh_map_short d); [done..|lia|lia|]. intros r h' _ Hr. apply HQ'. destruct Hr as [-> | ->]; [by left|right].
      unfold slice. rewrite drop_0. symmetry. apply firstn_all2. unfold zlen in Hs. lia.
    - apply (wp_fh_map d); [done..|lia|]. intros r h' _ Hr _. by apply HQ'. }
  apply Hmap. intros r h3 Hr. case_match eqn:E3.
  { apply wp_bind. case_match; by apply wp_modify, wp_ret, Hend. }
  apply wp_bind_modify, wp_bind_gets. case_match; [by apply wp_bind_modify, wp_ret, Hend|]. apply wp_bind_modify, wp_ret, Hend; try done.
  intros _. unfold shm_backfill. cbn [w_shm set_w_shm shm_info]. destruct Hr as [-> | ->]; [done|].
  rewrite !slice_within by lia. change (0 + (96 + 0)) with 96. fold (backfill_field d). split; [apply le_val_nonneg; by apply Forall_part|done].
Qed.

(** Whatever the files hold, the index is empty afterwards, or sound. *)
Lemma wp_wal_initialize_any `{I : Interrupts} (dw ds : Disk) (Lw : DiskLaws dw) (Ls : DiskLaws ds) ps junk nbackfill (Q : bool -> Wal -> Prop) :
  good_pageSize ps -> Forall is_byte (dk_bytes dw) -> Forall is_byte (dk_bytes ds) -> zlen (dk_bytes dw) < 2 ^ 31 -> backfill_field ds < 2 ^ 31 ->
  (forall ok w, log_loaded dw ps w -> Q ok w) -> wp wal_initialize Q (new_wal dw ds ps junk nbackfill).
Proof.
  intros Hps Hb Hbs Hsmall Hfield HQ.
  unfold wal_initialize, initialize. apply wp_bind_gets. cbn [w_init new_wal]. apply wp_bind_modify, wp_bind. unfold wal_doInitialize. apply wp_bind.
  unfold load_shm. apply wp_bind_gets. cbn [w_shmLegality set_w_init new_wal negb]. apply wp_bind, (wp_shm_any ds Ls); try done.
  intros w1 ok E1 E2 E3 Hok. destruct ok; cbn [negb].
  2: { apply wp_ret, wp_ret, wp_bind_modify, wp_ret, HQ. left. cbn. by rewrite E3. }
  apply wp_bind_gets, wp_bind_modify, wp_bind_modify, wp_ret. apply (wp_load_log_any dw ps Hps Hb Hsmall).
  - unfold unopened. cbn. rewrite E1, E2. done.
  - cbn. by rewrite E3.
  - cbn. specialize (Hok eq_refl). unfold s32. rewrite wrap_s_small by lia. lia.
  - intros r w' Hw'. by apply wp_bind_modify, wp_ret, HQ.
Qed.

(** Reading a write-ahead log is safe: whatever the two files hold and whichever requests are refused, it
    ends without a fault, and afterwards each page that the log contains is acquired from a whole frame
    inside the file, or not at all. *)
Theorem wal_any_files `{I : Interrupts} (dw ds : Disk) (Lw : DiskLaws dw) (Ls : DiskLaws ds) ps junk nbackfill :
  good_pageSize ps -> Forall is_byte (dk_bytes dw) -> Forall is_byte (dk_bytes ds) -> zlen (dk_bytes dw) < 2 ^ 31 -> backfill_field ds < 2 ^ 31 ->
  wp wal_initialize (fun _ w => forall p, containsPage w p = true ->
      wp (wal_acquirePageData p 0 ps) (fun data _ => data = [] \/ exists i, 1 <= i <= whole_frames dw ps /\ data = slice (32 + (24 + ps) * (i - 1) + 24) ps (dk_bytes dw)) w)
    (new_wal dw ds ps junk nbackfill).
Proof.
  intros Hps Hb Hbs Hsmall Hfield.
  assert (Hacq : forall w p, log_loaded dw ps w -> containsPage w p = true ->
    wp (wal_acquirePageData p 0 ps) (fun data _ => data = [] \/ exists i, 1 <= i <= whole_frames dw ps /\ data = slice (32 + (24 + ps) * (i - 1) + 24) ps (dk_bytes dw)) w).
  { intros w p Hw Hp. apply bool_decide_eq_true in Hp as [i Hi]. destruct Hw as [Hw|Hw]; [by rewrite Hw in Hi|]. pose proof Hw as (Hh & Hsz & Hix).
    apply Hix in Hi as Hix1. destruct Hix1 as [_ Hix1]. clear Hix. rename Hix1 into Hix. destruct (whole_frame_fits dw ps Hps i Hix) as [H1 H2]. pose proof Hps as [Hps1 _].
    unfold wal_acquirePageData. apply wp_bind, wp_bind_gets. rewrite Hi. apply wp_ret, wp_bind_gets. rewrite Hi. cbn [default from_option id].
    eapply wp_bind_lift_res; [apply (frame_offset_ok ps); try done; lia|]. unfold frameHeaderSize.
    eapply wp_bind_lift_res; [unfold chk_int; rewrite (proj2 (Z.leb_le _ _)), (proj2 (Z.ltb_lt _ _)) by lia; reflexivity|]. rewrite Z.add_0_r.
    eapply (wp_acquireData_any dw ps); [done|lia..|]. intros w' r _ _ [-> | ->]; [by left|right]. by exists i. }
  apply (wp_wal_initialize_any dw ds Lw Ls ps); [done..|]. intros ok w Hw p Hp. by apply Hacq.
Qed.

(** * The write-ahead log: frames that are lost

    Three situations in which committed frames of a sound log are not used: frames of an earlier
    generation behind them, a log without its -shm file, and a log of more than 2 GiB. *)

Lemma no_pages w p : w_pages w = ∅ -> containsPage w p = false.
Proof. intros Hp. unfold containsPage. by rewrite Hp, lookup_empty. Qed.

(** After a checkpoint SQLite writes a log again from its start, and frames with the old salt stay behind
    the new ones.  A log that is read without its -shm file is then refused as corrupted, and no
    page of it is used, although all frames before the old one are valid. *)
Theorem wal_old_frames_drop_all `{I : Interrupts} (dw ds : Disk) (Lw : DiskLaws dw) ps l known junk nbackfill old sum f more :
  reliable dw -> good_pageSize ps -> good_log ps l -> dk_bytes dw = log_content l ->
  known = (0, 0) \/ known = lf_salt l ->
  lf_rest l = frame_bytes old sum f ++ more -> old <> lf_salt l -> is_sum old -> is_sum sum -> good_frame ps f ->
  wp (read_with (zlen (lf_backfilled l)) known)
    (fun ok w => ok = false /\ isCorruption (w_error w) = true /\ forall p, containsPage w p = false) (new_wal dw ds ps junk nbackfill).
Proof.
  intros Rw Hps Hl Hb Hk Hrest Hne Hold Hsum Hf. destruct (log_room dw ps l Hps Hl Hb) as (_ & E & Hmin & _). pose proof Hps as [Hps1 _].
  assert (Hr : 24 + ps <= zlen (lf_rest l)) by (rewrite Hrest, zlen_app, (zlen_frame_bytes _ ps) by done; zlen_pos; lia).
  pose proof (frames_more dw ps l Hps Hl Hb Hr) as Hmore.
  apply (wp_read_with dw ds Rw ps l Hps Hl Hb); [done|]. intros w T. rewrite (proj2 (Z.leb_gt _ _)) by (zlen_pos; lia).
  pose proof Hl as (Hs & Hm & Hmb & Hfs & Hsmall).
  apply (wp_read_more dw Rw ps l Hps Hl Hb (S (Z.to_nat (frames_in_file ps l - zlen (lf_backfilled l) - zlen (lf_live l) - 1)))); [done|lia|].
  intros w' r S'. cbn [frames_loop]. destruct (after_live dw ps l Hps Hl Hb) as (pre & Hd & Hz). rewrite Hrest in Hd.
  destruct T as ((R & _) & _ & _). assert (R' : ready dw (lf_native l) (lf_salt l) ps w') by (eapply (ready_same dw); [|exact S']; exact R).
  assert (Hsize : 32 <= zlen (dk_bytes dw) < 2 ^ 31) by (rewrite Hb in *; zlen_pos; nia).
  apply wp_bind. eapply (wp_frame_any dw Rw) with (s := old) (sum := sum) (f := f); try done; [zlen_pos; lia|]. intros w2 S2. rewrite bool_decide_eq_false_2 by done.
  apply wp_bind_modify, wp_ret, wp_ret. split_and!; [done..|]. intros p. by apply no_pages.
Qed.

(** What the memory of [m_header] held where the salt is. *)
Definition junk_salt (junk : list Z) : Salt := (salt_of (slice 32 4 junk), salt_of (slice 36 4 junk)).

Lemma new_header_fields junk : zlen junk = 48 ->
  slice 16 4 (new_header junk) = le_bytes 4 (2 ^ 32 - 1)
  /\ slice 32 4 (new_header junk) = slice 32 4 junk /\ slice 36 4 (new_header junk) = slice 36 4 junk.
Proof.
  intros Hj. unfold zlen in Hj. do 48 (destruct junk as [|? junk]; [cbn in Hj; lia|]). destruct junk; [|cbn in Hj; lia]. split_and!; reflexivity.
Qed.

(** A log without a -shm file: the header that is not read keeps the largest frame number, which is -1 as an
    [int], and a salt that nothing has written.  If that salt is zero or that of the log, no
    frame is used, and if it is another one, all committed frames are. *)
Theorem wal_without_shm `{I : Interrupts} (dw ds : Disk) (Lw : DiskLaws dw) (Ls : DiskLaws ds) ps l junk nbackfill :
  reliable dw -> good_pageSize ps -> good_log ps l -> dk_bytes dw = log_content l -> dk_bytes ds = [] ->
  lf_backfilled l = [] -> zlen (lf_rest l) < 24 + ps -> zlen junk = 48 ->
  wp wal_initialize (fun ok w => ok = true /\
      if bool_decide (junk_salt junk = (0, 0) \/ junk_salt junk = lf_salt l) then forall p, containsPage w p = false
      else presents ps (lf_live l) w)
    (new_wal dw ds ps junk nbackfill).
Proof.
  intros Rw Hps Hl Hb Hds Hback Hrest Hj. pose proof Hl as (Hs & Hm & Hmb & Hf & Hsmall). pose proof Hps as [Hps1 _].
  destruct (log_room dw ps l Hps Hl Hb) as (Hroom & E & Hmin & Hmax). destruct (new_header_fields junk Hj) as (J1 & J2 & J3).
  unfold wal_initialize, initialize. apply wp_bind_gets. cbn [w_init new_wal]. apply wp_bind_modify, wp_bind.
  unfold wal_doInitialize. apply wp_bind. unfold load_shm. apply wp_bind_gets. cbn [w_shmLegality set_w_init new_wal negb].
  apply wp_bind. unfold shm_initialize, initialize. apply wp_bind_gets. cbn [w_shm shm_init set_w_init new_wal new_shm]. apply wp_bind_modify, wp_bind.
  unfold shm_doInitialize, on_shm_file. apply wp_bind, wp_zoom, (wp_getFileSize ds); [done..|]. intros h1 S1. rewrite Hds. cbn [zlen length Z.of_nat Z.eqb].
  apply wp_ret, wp_bind_modify, wp_ret. cbn [negb]. apply wp_bind_gets, wp_bind_modify, wp_bind_modify, wp_ret.
  set (w1 := set_w_salt _ _). assert (Hsalt : w_salt w1 = junk_salt junk) by (unfold junk_salt; rewrite <- J2, <- J3; reflexivity).
  assert (Hnb : w_nbackfill w1 = 0) by done. assert (Hrec : unopened dw ps w1 /\ w_pages w1 = ∅ /\ w_disposed w1 = ∅ ) by done. destruct Hrec as (U1 & P1 & D1).
  unfold shm_maxFrame. cbn [w_shm shm_header set_w_shm set_w_init new_wal new_shm]. rewrite J1. change (s32 (le_val (le_bytes 4 (2 ^ 32 - 1)))) with (-1).
  clearbody w1. eapply (wp_load_log dw Rw) with (ps := ps); try done. intros w' (R & Hn & Hp & Hd & _ & _). cbn zeta. fold (frames_in_file ps l).
  rewrite Hsalt, Hnb in *. unfold restarted in *. rewrite andb_false_r in *. cbn [negb] in *. rewrite andb_true_r in *.
  destruct (decide (junk_salt junk = (0, 0) \/ junk_salt junk = lf_salt l)) as [Hz|Hz].
  - rewrite (bool_decide_eq_true_2 (_ \/ _)) by done.
    assert (Hr : negb (bool_decide (junk_salt junk = (0, 0))) && negb (bool_decide (junk_salt junk = lf_salt l)) = false).
    { destruct Hz; [by rewrite bool_decide_eq_true_2|]. by rewrite (bool_decide_eq_true_2 (junk_salt junk = lf_salt l)), andb_false_r by done. }
    rewrite Hr in *. rewrite (proj2 (Z.leb_le _ _)) by lia. apply wp_ret, wp_bind_modify, wp_ret. split; [done|]. intros p. apply no_pages. cbn. by rewrite Hp.
  - rewrite (bool_decide_eq_false_2 (_ \/ _)) by done. rewrite (bool_decide_eq_false_2 (junk_salt junk = (0, 0))), (bool_decide_eq_false_2 (junk_salt junk = lf_salt l)) in * by tauto.
    cbn [negb andb] in *. rewrite Z.min_l, Hn by (unfold INT_MAX; lia). case_match eqn:Ele.
    + apply wp_ret, wp_bind_modify, wp_ret. split; [done|]. rewrite Hback in Hmin. change (zlen (@nil WalFrame)) with 0 in Hmin.
      assert (Hlive : lf_live l = []) by (apply zlen_0_inv; zlen_pos; lia). rewrite Hlive. apply presents_empty; cbn; congruence.
    + assert (B : before_frames dw (lf_native l) (lf_salt l) ps (lf_backfilled l) w') by (rewrite Hback; split_and!; (done || congruence)).
      eapply (wp_read_frames dw) with (n := 0%nat) (backfilled := lf_backfilled l) (live := lf_live l) (rest := lf_rest l); try done.
      * by rewrite Hb.
      * unfold frames_in_file. rewrite E, Z.quot_div_nonneg by (zlen_pos; nia). rewrite Z.mul_comm, Z.div_add_l, Z.div_small by (zlen_pos; lia). lia.
      * intros w2 r S2. apply wp_ret, wp_bind_modify, wp_ret, wp_bind_modify, wp_ret. split; [done|]. by apply (presents_replay dw Rw ps l Hps Hl Hb w').
Qed.

(** A log of more than 2 GiB: its size as an [int] is negative, no frame is read, and the log
    counts as read without an error. *)
Theorem wal_large_ignored `{I : Interrupts} (dw ds : Disk) (Lw : DiskLaws dw) ps native salt mid tail known junk n nbackfill :
  reliable dw -> good_pageSize ps -> is_sum salt -> zlen mid = 12 -> dk_bytes dw = wal_header native salt mid ++ tail ->
  2 ^ 31 + 32 <= zlen (dk_bytes dw) < 2 ^ 32 -> 0 <= n < 2 ^ 31 ->
  wp (read_with n known) (fun ok w => ok = true /\ w_error w = NoError /\ forall p, containsPage w p = false) (new_wal dw ds ps junk nbackfill).
Proof.
  intros Rw [Hps _] Hs Hm Hb Hbig Hn. unfold read_with. do 3 apply wp_bind_modify. unfold wal_initialize, initialize. apply wp_bind_gets.
  cbn [w_init set_w_salt set_w_nbackfill set_w_legality new_wal].
  apply wp_bind_modify, wp_bind. unfold wal_doInitialize. apply wp_bind. unfold load_shm. apply wp_bind_gets.
  cbn [w_shmLegality set_w_init set_w_salt set_w_nbackfill set_w_legality new_wal negb]. apply wp_ret.
  assert (Hw : s32 (zlen (dk_bytes dw)) = zlen (dk_bytes dw) - 2 ^ 32).
  { unfold s32, wrap_s. change (32 - 1) with 31. rewrite (Z.mod_eq _ (2 ^ 32)) by lia. replace ((zlen (dk_bytes dw) + 2 ^ 31) / 2 ^ 32) with 1; [lia|].
    apply (Z.div_unique_pos _ _ _ (zlen (dk_bytes dw) - 2 ^ 31)); lia. }
  eapply (wp_load_log dw Rw) with (ps := ps); try done.
  { rewrite Hw. unfold chk_int. rewrite (proj2 (Z.leb_le _ _)), (proj2 (Z.ltb_lt _ _)) by lia. reflexivity. }
  intros w (_ & Hnb & Hp & _ & _ & He). cbn [w_salt w_nbackfill w_pages w_error set_w_salt set_w_nbackfill set_w_legality set_w_init new_wal] in *. cbn zeta.
  assert (Hq : Z.quot (zlen (dk_bytes dw) - 2 ^ 32 - 32) (24 + ps) <= 0).
  { replace (zlen (dk_bytes dw) - 2 ^ 32 - 32) with (- (2 ^ 32 + 32 - zlen (dk_bytes dw))) by lia. rewrite Z.quot_opp_l by lia.
    pose proof (Z.quot_pos (2 ^ 32 + 32 - zlen (dk_bytes dw)) (24 + ps)). lia. }
  rewrite (proj2 (Z.leb_le _ _)) by (rewrite Hnb; case_match; lia).
  apply wp_ret, wp_bind_modify, wp_ret. split_and!; [done..|]. intros p. apply no_pages. cbn. by rewrite Hp.
Qed.
