(* ===== verification/WalSmall.v ===== *)
(** * The write-ahead log: concrete files

    A file system that grants everything, and small logs on which the theorems are applied. *)

From stdpp Require Import gmap.
From S2P Require Import Prelude CLib Serial SerialVarint SerialFacts MappedFile WalLog WalProps WalSafe.

Module WalToy.

#[export] Instance no_interrupts : Interrupts := { read_turns := 0 }.

(** Every request is granted. *)
Definition disk_of (b : list Z) : Disk :=
  MkDisk b 4096 (fun _ => true) (fun _ => true) (fun _ => true) (fun _ => true) (fun _ => true) (fun _ n => (Z.max 0 n, EOTHER)).

(** A file system that grants no mapping but the first two. *)
Definition poor_disk (b : list Z) : Disk :=
  MkDisk b 4096 (fun _ => true) (fun _ => true) (fun _ => true) (fun _ => true) (fun k => (k <? 8)%nat) (fun _ n => (Z.max 0 n, EOTHER)).

Lemma disk_of_laws b : zlen b < 2 ^ 46 -> DiskLaws (disk_of b).
Proof. intros Hb. constructor; [by intros ? ? ?|intros; cbn; lia|done|done|]. exists 12. split; [lia|done]. Qed.
Lemma poor_disk_laws b : zlen b < 2 ^ 46 -> DiskLaws (poor_disk b).
Proof. intros Hb. constructor; [by intros ? ? ?|intros; cbn; lia|done|done|]. exists 12. split; [lia|done]. Qed.
Lemma disk_of_reliable b : reliable (disk_of b).
Proof. intros k. repeat split. intros n Hn. cbn. lia. Qed.

Lemma pageSize_512 : good_pageSize 512.
Proof. split; [lia|]. by exists 64. Qed.

(** A page with the same byte everywhere. *)
Definition page_frame (p truncate v : Z) : WalFrame := MkWalFrame p truncate (replicate 512 v).

Lemma page_frame_good p truncate v : 0 < p < 2 ^ 31 -> 0 <= truncate < 2 ^ 32 -> is_byte v -> good_frame 512 (page_frame p truncate v).
Proof. intros. unfold good_frame, page_frame. cbn [wf_page wf_truncate wf_content]. split_and!; try lia; [done|]. by apply Forall_replicate. Qed.

(** Frame 1 is in the database already; page 2 is written twice in a transaction with page 3, and page 4 is in a
    transaction that has no end. *)
Definition toy_log (rest : list Z) : LogFile :=
  MkLogFile true (7, 9) (zeros 12) [page_frame 1 3 5] [page_frame 2 0 6; page_frame 3 0 7; page_frame 2 4 8; page_frame 4 0 9] rest.
(** The same without the frame that is in the database. *)
Definition toy_log0 : LogFile := MkLogFile false (7, 9) (zeros 12) [] [page_frame 2 0 6; page_frame 2 4 8; page_frame 4 0 9] [1; 2; 3].

Lemma zeros_bytes n : Forall is_byte (zeros n).
Proof. by apply Forall_replicate. Qed.

Ltac good_frames :=
  repeat (apply Forall_cons; split; [apply page_frame_good; (done || lia)|]); constructor.

Lemma toy_log_good rest : zlen rest < 10000 -> good_log 512 (toy_log rest).
Proof.
  intros Hr. assert (Hg : Forall (good_frame 512) (lf_backfilled (toy_log rest) ++ lf_live (toy_log rest))) by good_frames.
  split_and!; [split; cbn; lia|done|apply zeros_bytes|done|]. unfold log_content.
  rewrite !zlen_app, zlen_wal_header, (zlen_frames_bytes _ _ 512) by done. cbn [toy_log lf_rest]. change (zlen (lf_backfilled (toy_log rest) ++ lf_live (toy_log rest))) with 5. lia.
Qed.
Lemma toy_log0_good : good_log 512 toy_log0.
Proof.
  assert (Hg : Forall (good_frame 512) (lf_backfilled toy_log0 ++ lf_live toy_log0)) by good_frames.
  split_and!; [split; cbn; lia|done|apply zeros_bytes|done|]. unfold log_content.
  rewrite !zlen_app, zlen_wal_header, (zlen_frames_bytes _ _ 512) by done. done.
Qed.

Definition toy_shm (maxFrame backfill : Z) : ShmFile :=
  MkShmFile (zeros 12) maxFrame (zeros 12) (7, 9) (zeros 8) (zeros 48) backfill (zeros 36) [].

Lemma toy_shm_good m b : 0 <= m < 2 ^ 31 -> 0 <= b < 2 ^ 31 -> good_shm (toy_shm m b).
Proof. intros. split_and!; try done; cbn; lia. Qed.

(** A frame of an earlier generation. *)
Definition old_frame : list Z := frame_bytes (6, 9) (1, 2) (page_frame 5 1 3).

Lemma small_list (b : list Z) n : zlen b < n -> n <= 2 ^ 46 -> zlen b < 2 ^ 46.
Proof. lia. Qed.

Lemma wal_committed_pages_witness : let d := disk_of (log_content (toy_log [1; 2; 3])) in let s := disk_of (shm_bytes (toy_shm 5 1)) in
  wp wal_initialize (fun ok w => ok = true /\ presents 512 (lf_live (toy_log [1; 2; 3])) w) (new_wal d s 512 (zeros 48) 77).
Proof.
  intros d s. destruct (toy_log_good [1; 2; 3]) as (G1 & G2 & G3 & G4 & G5); [done|].
  apply (wal_committed_pages d s (disk_of_laws (log_content (toy_log [1; 2; 3])) ltac:(lia)) (disk_of_laws (shm_bytes (toy_shm 5 1)) ltac:(done)) 512 (toy_log [1; 2; 3]) (toy_shm 5 1));
    [apply disk_of_reliable|apply disk_of_reliable|apply pageSize_512|done|apply toy_shm_good; lia|done..].
Defined.

(** A frame of this generation whose checksum is wrong, and a rest that is no frame. *)
Definition bad_frame : list Z := frame_bytes (7, 9) (1, 2) (page_frame 5 1 3).

Lemma bad_frame_ends rest : log_ends 512 (toy_log (bad_frame ++ rest)).
Proof.
  right. exists (1, 2), (page_frame 5 1 3), rest. split_and!; [done|apply page_frame_good; (done || lia)|split; cbn; lia|]. vm_compute. discriminate.
Qed.

Lemma wal_ends_at_mismatch_witness :
  (let d := disk_of (log_content (toy_log (bad_frame ++ [1; 2; 3]))) in
   wp (read_with 1 (7, 9)) (fun ok w => ok = true /\ presents 512 (lf_live (toy_log (bad_frame ++ [1; 2; 3]))) w) (new_wal d (disk_of []) 512 (zeros 48) 0))
  /\ (let d := disk_of (log_content (toy_log [1; 2; 3])) in
   wp (read_with 1 (7, 9)) (fun ok w => ok = true /\ presents 512 (lf_live (toy_log [1; 2; 3])) w) (new_wal d (disk_of []) 512 (zeros 48) 0)).
Proof.
  split; intros d.
  - destruct (toy_log_good (bad_frame ++ [1; 2; 3])) as (G1 & G2 & G3 & G4 & G5); [done|].
    apply (wal_ends_at_mismatch d (disk_of []) (disk_of_laws (log_content (toy_log (bad_frame ++ [1; 2; 3]))) ltac:(lia)) 512 (toy_log (bad_frame ++ [1; 2; 3])));
      [apply disk_of_reliable|apply pageSize_512|done|done|apply bad_frame_ends|by right].
  - destruct (toy_log_good [1; 2; 3]) as (G1 & G2 & G3 & G4 & G5); [done|].
    apply (wal_ends_at_mismatch d (disk_of []) (disk_of_laws (log_content (toy_log [1; 2; 3])) ltac:(lia)) 512 (toy_log [1; 2; 3]));
      [apply disk_of_reliable|apply pageSize_512|done|done|left; done|by right].
Defined.

Lemma wal_any_files_witness : let d := poor_disk (zeros 1104) in let s := disk_of (shm_bytes (toy_shm 5 1)) in
  wp wal_initialize (fun _ w => forall p, containsPage w p = true ->
      wp (wal_acquirePageData p 0 512) (fun data _ => data = [] \/ exists i, 1 <= i <= whole_frames d 512 /\ data = slice (32 + (24 + 512) * (i - 1) + 24) 512 (dk_bytes d)) w)
    (new_wal d s 512 (zeros 48) 0).
Proof.
  intros d s. apply (wal_any_files d s (poor_disk_laws (zeros 1104) ltac:(done)) (disk_of_laws (shm_bytes (toy_shm 5 1)) ltac:(done)));
    [apply pageSize_512|apply zeros_bytes| |done|done].
  cbn [s disk_of dk_bytes]. unfold shm_bytes, toy_shm. cbn [sf_change sf_maxFrame sf_page sf_salt sf_sum sf_second sf_backfill sf_marks sf_rest].
  repeat (apply Forall_app; split); try apply zeros_bytes; try apply be4_bytes; repeat (apply Forall_cons; split; [done|]); constructor.
Defined.

Lemma wal_old_frames_drop_all_witness : let l := toy_log old_frame in let d := disk_of (log_content l) in
  wp (read_with 1 (7, 9)) (fun ok w => ok = false /\ isCorruption (w_error w) = true /\ forall p, containsPage w p = false)
    (new_wal d (disk_of []) 512 (zeros 48) 0).
Proof.
  intros l d. destruct (toy_log_good old_frame) as (G1 & G2 & G3 & G4 & G5); [done|].
  apply (wal_old_frames_drop_all d (disk_of []) (disk_of_laws (log_content (toy_log old_frame)) ltac:(lia)) 512 l (7, 9) (zeros 48) 0 (6, 9) (1, 2) (page_frame 5 1 3) []);
    [apply disk_of_reliable|apply pageSize_512|done|done|by right|unfold old_frame; by rewrite app_nil_r|done|split; cbn; lia|split; cbn; lia|apply page_frame_good; (done || lia)].
Defined.

Lemma wal_without_shm_witness : let d := disk_of (log_content toy_log0) in
  wp wal_initialize (fun ok w => ok = true /\ forall p, containsPage w p = false) (new_wal d (disk_of []) 512 (zeros 48) 0)
  /\ wp wal_initialize (fun ok w => ok = true /\ presents 512 (lf_live toy_log0) w) (new_wal d (disk_of []) 512 (replicate 48 1) 0).
Proof.
  intros d. destruct toy_log0_good as (G1 & G2 & G3 & G4 & G5).
  split; [apply (wal_without_shm d (disk_of []) (disk_of_laws (log_content toy_log0) ltac:(lia)) (disk_of_laws [] ltac:(done)) 512 toy_log0 (zeros 48) 0)
         |apply (wal_without_shm d (disk_of []) (disk_of_laws (log_content toy_log0) ltac:(lia)) (disk_of_laws [] ltac:(done)) 512 toy_log0 (replicate 48 1) 0)];
    (apply disk_of_reliable || apply pageSize_512 || done).
Defined.

(** Zero bytes of some number that is not written out. *)
Lemma zlen_replicate_Z n : 0 <= n -> zlen (replicate (Z.to_nat n) 0) = n.
Proof. intros. unfold zlen. rewrite length_replicate. lia. Qed.

Lemma wal_large_ignored_witness : let d := disk_of (wal_header true (7, 9) (zeros 12) ++ replicate (Z.to_nat (2 ^ 31)) 0) in
  wp (read_with 0 (7, 9)) (fun ok w => ok = true /\ w_error w = NoError /\ forall p, containsPage w p = false) (new_wal d (disk_of []) 512 (zeros 48) 0).
Proof.
  intros d. assert (Hz : zlen (dk_bytes d) = 2 ^ 31 + 32).
  { unfold d. cbn [disk_of dk_bytes]. rewrite zlen_app, zlen_wal_header, zlen_replicate_Z by (done || lia). lia. }
  apply (wal_large_ignored d (disk_of []) (disk_of_laws (dk_bytes d) ltac:(lia)) 512 true (7, 9) (zeros 12) (replicate (Z.to_nat (2 ^ 31)) 0));
    [apply disk_of_reliable|apply pageSize_512|split; cbn; lia|done|done|lia|lia].
Defined.

(** The log of the first theorem evaluates to its two pages, with the frames that hold them. *)
Example toy_log_pages :
  match wal_initialize (new_wal (disk_of (log_content (toy_log [1; 2; 3]))) (disk_of (shm_bytes (toy_shm 5 1))) 512 (zeros 48) 0) with
  | Done (ok, w) => ok = true /\ map_to_list (w_pages w) = [(3, 3); (2, 4)] /\ elements (w_disposed w) = [4]
  | Stuck _ => False
  end.
Proof. vm_compute. split_and!; reflexivity. Qed.

(** A number of backfilled frames that is negative as an [int] overflows the offset of a frame. *)
Example toy_negative_backfill :
  match wal_initialize (new_wal (disk_of (log_content (toy_log []))) (disk_of (shm_bytes (toy_shm 5 (2 ^ 31)))) 512 (zeros 48) 0) with
  | Done _ => False
  | Stuck f => f = IntOverflow
  end.
Proof. lazy. reflexivity. Qed.
End WalToy.
