(* ===== verification/PageParse.v ===== *)
(** * Pages and cells (repair/parse/Page.cpp, Cell.cpp)

    The repair of the current version parses the pages of a database itself: the type of a page, its cell
    pointers and the numbers of its subpages, and the payload of a cell, over overflow
    pages, with the types and offsets of its columns.

    Pages come from a pager, which is an interface here: what [Page] and [Cell] ask of it are the
    operations of [PagerOps], and what they may rely on are the laws of [PagerView]. *)

From stdpp Require Import gmap.
From S2P Require Import Prelude CLib Serial MappedFile WalLog.

(** ** The pager *)

(** [acquirePageData(number, offset, size)], the sizes, memory for a payload, the error, and whether the
    last error of the thread is OK. *)
Class PagerOps (St : Type) := {
  pg_acquire : Z -> Z -> Z -> cm St (list Z);
  pg_numberOfPages : St -> Z;
  pg_pageSize : St -> Z;
  pg_usableSize : St -> Z;
  pg_malloc : Z -> cm St (option (list Z));
  pg_setError : RepairError -> cm St unit;
  pg_error : St -> RepairError;
  pg_threadOK : St -> bool
}.

(** ** Pages *)

Inductive PageType := Unknown | InteriorIndex | InteriorTable | LeafIndex | LeafTable.
#[export] Instance PageType_eq_dec : EqDecision PageType.
Proof. solve_decision. Defined.

Definition convertToPageType (type : Z) : PageType :=
  if type =? 2 then InteriorIndex
  else if type =? 5 then InteriorTable
  else if type =? 10 then LeafIndex
  else if type =? 13 then LeafTable
  else Unknown.

Definition isInteriorPage (t : PageType) : bool := match t with InteriorTable | InteriorIndex => true | _ => false end.
Definition isLeafPage (t : PageType) : bool := match t with LeafTable | LeafIndex => true | _ => false end.
Definition isTablePage (t : PageType) : bool := match t with InteriorTable | LeafTable => true | _ => false end.
Definition isIndexPage (t : PageType) : bool := match t with InteriorIndex | LeafIndex => true | _ => false end.

(** A page that has been initialized. *)
Record Page := MkPage {
  p_number : Z;
  p_type : PageType;
  p_data : list Z;
  p_cellPointers : list Z;
  p_subpagenos : list Z
}.

Definition getOffsetOfHeader (number : Z) : Z := if number =? 1 then 100 else 0.
Definition getOffsetOfCellPointer (t : PageType) : Z := if isInteriorPage t then 12 else 8.
Definition hasRightMostPageNo (t : PageType) : bool := isInteriorPage t.

Definition getMaxLocal (t : PageType) (usable : Z) : Z :=
  match t with
  | LeafTable => usable - 35
  | _ => Z.quot ((usable - 12) * 64) 255 - 23
  end.
Definition getMinLocal (usable : Z) : Z := Z.quot ((usable - 12) * 32) 255 - 23.

(** The loop over cell pointers, from pointer [i] on; [None]: the data is too short. *)
Fixpoint cell_pointers (n : nat) (number : Z) (t : PageType) (d : list Z) (i : Z) : res (option (list Z)) :=
  match n with
  | O => Done (Some [])
  | S n =>
    let offset := getOffsetOfHeader number + getOffsetOfCellPointer t + i * 2 in
    if negb (isEnough d (offset + 2)) then Done None
    else
      let? p := get2BytesInt d offset in
      let? ps := cell_pointers n number t d (i + 1) in
      Done (option_map (cons p) ps)
  end.

(** The loop over subpages: their numbers are at [offsets]; [None]: one cannot be read or is not a page. *)
Fixpoint subpagenos (count : Z) (d : list Z) (offsets : list Z) : res (option (list Z)) :=
  match offsets with
  | [] => Done (Some [])
  | offset :: offsets =>
    if negb (isEnough d (offset + 4)) then Done None
    else
      let? pageno := get4BytesInt d offset in
      if (count <? pageno) || (pageno <=? 0) then Done None
      else
        let? ps := subpagenos count d offsets in
        Done (option_map (cons pageno) ps)
  end.

Section page.
Context {St : Type} `{P : PagerOps St}.

Definition markPagerAsCorrupted (page : Z) : cm St unit := pg_setError (Corrupt page).

(** [Page::acquireType] of a page without its data, [None] if the data cannot be acquired. *)
Definition acquireType (number : Z) : cm St (option PageType) :=
  let! data := pg_acquire number (getOffsetOfHeader number) 1 in
  match data with
  | [] => ret None
  | _ => let! type := parse advance1ByteInt data in ret (Some (convertToPageType type))
  end.

(** The same for a page with its data: the cursor is moved to the header, the byte at 0 is read. *)
Definition acquireType_data (number : Z) (data : list Z) : res PageType :=
  let? type := get1ByteInt data 0 in Done (convertToPageType type).

(** The type and, behind two bytes, the number of cells. *)
Definition page_header (number : Z) : cm Deserialization (PageType * Z) :=
  de_seek (getOffsetOfHeader number) ;;;
  let! type := advance1ByteInt in
  match convertToPageType type with
  | Unknown => ret (Unknown, 0)
  | t => de_advance 2 ;;; let! n := advance2BytesInt in ret (t, n)
  end.

(** [Page::doInitialize]; [None] for failure. *)
Definition page_initialize (number : Z) : cm St (option Page) :=
  let! size := gets pg_pageSize in
  let! data := pg_acquire number 0 size in
  match data with
  | [] => ret None
  | _ =>
    let! (t, numberOfCells) := parse (page_header number) data in
    match t with
    | Unknown => ret (Some (MkPage number Unknown data [] []))
    | _ =>
      if numberOfCells <? 0 then markPagerAsCorrupted number ;;; ret None
      else
        let! pointers := lift_res (cell_pointers (Z.to_nat numberOfCells) number t data 0) in
        match pointers with
        | None => markPagerAsCorrupted number ;;; ret None
        | Some pointers =>
          if isInteriorPage t then
            let! count := gets pg_numberOfPages in
            let! subs := lift_res (subpagenos count data (pointers ++ [8 + getOffsetOfHeader number])) in
            match subs with
            | None => markPagerAsCorrupted number ;;; ret None
            | Some subs => ret (Some (MkPage number t data pointers subs))
            end
          else ret (Some (MkPage number t data pointers []))
        end
    end
  end.
End page.

(** ** Cells *)

Record Cell := MkCell {
  c_page : Page;
  c_leftChild : Z;
  c_rowid : Z;
  c_payload : list Z;
  c_columns : list (Z * Z)
}.

Inductive CellType := CNull | CInteger | CReal | CText | CBLOB.
#[export] Instance CellType_eq_dec : EqDecision CellType.
Proof. solve_decision. Defined.

Definition isSerialTypeSanity (serialType : Z) : bool :=
  (0 <=? serialType) && negb (serialType =? 10) && negb (serialType =? 11).

(** The array has ten entries. *)
Definition getLengthOfSerialType (serialType : Z) : res Z :=
  if serialType <=? 10 then zread [0; 1; 2; 3; 4; 6; 8; 8; 0; 0] serialType
  else Done (Z.quot (serialType - 12 - Z.rem serialType 2) 2).

(** The loop over serial types: the columns, each with its type and offset; [None] for a malformed payload.
    A turn moves the cursor of the types by a byte at least, and [fuel] is their number. *)
Fixpoint serial_types (fuel : nat) (payload : list Z) (cursorOfSerialTypes cursorOfValues endOfSerialTypes endOfValues : Z) : res (option (list (Z * Z))) :=
  if negb (cursorOfSerialTypes <? endOfSerialTypes) then
    if negb (cursorOfSerialTypes =? endOfSerialTypes) || negb (cursorOfValues =? endOfValues) then Done None else Done (Some [])
  else
  match fuel with
  | O => Stuck OutOfFuel
  | S fuel =>
    let? (lengthOfSerialType, v) := getVarint payload (seek_to (zlen payload) cursorOfSerialTypes) in
    if lengthOfSerialType =? 0 then Done None
    else
      let serialType := s32 v in
      if negb (isSerialTypeSanity serialType) then Done None
      else
        let? len := getLengthOfSerialType serialType in
        let? next := chk_int (cursorOfValues + len) in
        if endOfValues <? next then Done None
        else
          let? cols := serial_types fuel payload (cursorOfSerialTypes + lengthOfSerialType) next endOfSerialTypes endOfValues in
          Done (option_map (cons (serialType, cursorOfValues)) cols)
  end.

(** The end of [doInitialize]: the size of the header, then the types. *)
Definition parse_columns (payload : list Z) (payloadSize : Z) : res (option (list (Z * Z))) :=
  let? (lengthOfOffsetOfValues, v) := getVarint payload 0 in
  if lengthOfOffsetOfValues =? 0 then Done None
  else serial_types (length payload) payload lengthOfOffsetOfValues (s32 v) (s32 v) payloadSize.

(** The numbers before the payload, for a page that is not an interior page of a table: left child, payload size,
    rowid and [offsetOfPayload].  [None]: one is missing. *)
Definition cell_header (t : PageType) (pointer : Z) : cm Deserialization (option (Z * Z * Z * Z)) :=
  de_seek pointer ;;;
  let! s := gets (fun s => s) in
  if negb (isLeafPage t) && negb (canAdvance s 4) then ret None
  else
    let! leftChild := (if negb (isLeafPage t) then advance4BytesInt else ret 0) in
    let offsetOfPayload := pointer + (if negb (isLeafPage t) then 4 else 0) in
    let! (lengthOfPayloadSize, payloadSize) := advanceVarint in
    if lengthOfPayloadSize =? 0 then ret None
    else
      let offsetOfPayload := offsetOfPayload + lengthOfPayloadSize in
      if isTablePage t then
        let! (lengthOfRowid, rowid) := advanceVarint in
        if lengthOfRowid =? 0 then ret None
        else ret (Some (u32 leftChild, s32 payloadSize, s64 rowid, offsetOfPayload + lengthOfRowid))
      else ret (Some (u32 leftChild, s32 payloadSize, 0, offsetOfPayload)).

(** How much of a payload is in the page itself. *)
Definition localPayloadSize_of (t : PageType) (usable payloadSize : Z) : Z :=
  if payloadSize <? getMaxLocal t usable then payloadSize
  else
    let k := getMinLocal usable + Z.rem (payloadSize - getMinLocal usable) (usable - 4) in
    if k <=? getMaxLocal t usable then k else getMinLocal usable.

Section cell.
Context {St : Type} `{P : PagerOps St}.

(** The loop over overflow pages; [None] for failure, otherwise the payload, the next page and the cursor.  A turn
    moves the cursor by a byte at least, and [fuel] bounds the number of bytes. *)
Fixpoint fill_overflow (fuel : nat) (page : Z) (overflowPageno cursor payloadSize : Z) (seen : gset Z) (holder : list Z)
  : cm St (option (list Z * Z * Z)) :=
  if negb ((0 <? overflowPageno) && (cursor <? payloadSize)) then ret (Some (holder, overflowPageno, cursor))
  else
  match fuel with
  | O => fail OutOfFuel
  | S fuel =>
    if bool_decide (overflowPageno ∈ seen) then markPagerAsCorrupted page ;;; ret None
    else
      let! count := gets pg_numberOfPages in
      if count <? overflowPageno then markPagerAsCorrupted page ;;; ret None
      else
        let! size := gets pg_pageSize in
        let! overflow := pg_acquire overflowPageno 0 size in
        match overflow with
        | [] => ret None
        | _ =>
          let! usable := gets pg_usableSize in
          let overflowSize := Z.min (payloadSize - cursor) (usable - 4) in
          let! bytes := lift_res (zread_n overflow 4 overflowSize) in
          let! holder := lift_res (zwrite_n holder cursor bytes) in
          let! next := parse advance4BytesInt overflow in
          fill_overflow fuel page next (cursor + overflowSize) payloadSize ({[overflowPageno]} ∪ seen) holder
        end
  end.

(** The payload of a cell, with the cursor behind the numbers; [None] for failure. *)
Definition cell_payload (page : Page) (cursor payloadSize offsetOfPayload : Z) : cm St (option (list Z)) :=
  let! usable := gets pg_usableSize in
  let localPayloadSize := localPayloadSize_of (p_type page) usable payloadSize in
  let d := p_data page in
  if negb (isEnough d (cursor + localPayloadSize)) then markPagerAsCorrupted (p_number page) ;;; ret None
  else if localPayloadSize <? payloadSize then
    let cursor := seek_to (zlen d) (offsetOfPayload + localPayloadSize) in
    if negb (isEnough d (cursor + 4)) then markPagerAsCorrupted (p_number page) ;;; ret None
    else
      let! overflowPageno := lift_res (get4BytesInt d cursor) in
      let! holder := pg_malloc payloadSize in
      match holder with
      | None => pg_setError Threaded ;;; ret None
      | Some holder =>
        let! local := lift_res (zread_n d offsetOfPayload localPayloadSize) in
        let! holder := lift_res (zwrite_n holder 0 local) in
        let! r := fill_overflow (Z.to_nat payloadSize) (p_number page) overflowPageno localPayloadSize payloadSize ∅ holder in
        match r with
        | None => ret None
        | Some (holder, overflowPageno, cursor) =>
          if negb (overflowPageno =? 0) || negb (cursor =? payloadSize) then markPagerAsCorrupted (p_number page) ;;; ret None
          else ret (Some holder)
        end
      end
  else
    let! payload := lift_res (subdata d offsetOfPayload localPayloadSize) in
    ret (Some payload).

(** [Cell::doInitialize] of the cell [pointer] points to; [None] for failure. *)
Definition cell_initialize (page : Page) (pointer : Z) : cm St (option Cell) :=
  let! (header, cursor) := parse (let! h := cell_header (p_type page) pointer in let! c := gets d_cursor in ret (h, c)) (p_data page) in
  match header with
  | None => markPagerAsCorrupted (p_number page) ;;; ret None
  | Some (leftChild, payloadSize, rowid, offsetOfPayload) =>
    let! payload := cell_payload page cursor payloadSize offsetOfPayload in
    match payload with
    | None => ret None
    | Some payload =>
      let! columns := lift_res (parse_columns payload payloadSize) in
      match columns with
      | None => markPagerAsCorrupted (p_number page) ;;; ret None
      | Some columns => ret (Some (MkCell page leftChild rowid payload columns))
      end
    end
  end.

(** [Page::getCell(index)] and [initialize] *)
Definition getCell (page : Page) (index : Z) : cm St (option Cell) :=
  let! pointer := lift_res (zread (p_cellPointers page) index) in cell_initialize page pointer.
End cell.

(** *** Values *)

Definition getValueType (c : Cell) (index : Z) : res CellType :=
  let? (serialType, _) := zread (c_columns c) index in
  Done (if serialType =? 0 then CNull
        else if serialType =? 7 then CReal
        else if serialType <=? 10 then CInteger
        else if Z.rem serialType 2 =? 0 then CBLOB else CText).

Definition integerValue (c : Cell) (index : Z) : res Z :=
  let? (serialType, offset) := zread (c_columns c) index in
  if serialType =? 8 then Done 0
  else if serialType =? 9 then Done 1
  else
    let? length := getLengthOfSerialType serialType in
    let d := c_payload c in
    if length =? 1 then get1ByteInt d offset
    else if length =? 2 then get2BytesInt d offset
    else if length =? 3 then get3BytesInt d offset
    else if length =? 4 then get4BytesInt d offset
    else if length =? 6 then get6BytesInt d offset
    else if length =? 8 then get8BytesInt d offset
    else Done 0.

Definition doubleValue (c : Cell) (index : Z) : res (list Z) :=
  let? (_, offset) := zread (c_columns c) index in get8BytesDouble (c_payload c) offset.

Definition stringValue (c : Cell) (index : Z) : res (list Z) :=
  let? (serialType, offset) := zread (c_columns c) index in
  let? length := getLengthOfSerialType serialType in
  getString (c_payload c) offset length.

(** [textValue] and [blobValue] are views of the payload. *)
Definition textValue (c : Cell) (index : Z) : res (list Z) :=
  let? (serialType, offset) := zread (c_columns c) index in
  let? length := getLengthOfSerialType serialType in
  zread_n (c_payload c) offset length.
Definition blobValue (c : Cell) (index : Z) : res (list Z) :=
  let? (serialType, offset) := zread (c_columns c) index in
  let? length := getLengthOfSerialType serialType in
  subdata (c_payload c) offset length.
