(* ===== verification/PageFacts.v ===== *)
(** * Pages and cells: records

    The columns of a record that is stored in the format of SQLite have its values.  The format is that of
    BtreeFacts, so that both repair kits are related to the same description of a record. *)

From stdpp Require Import gmap.
From S2P Require Import Prelude CLib Varint Values ValuesFacts Pager PagerFacts Btree BtreeFacts Serial SerialVarint SerialFacts MappedFile WalLog.
From S2P Require Import WalProps PageParse.

(** ** Integers *)

Lemma wrap_s_cases w x : 1 <= w -> 0 <= x < 2 ^ w -> wrap_s w x = if x <? 2 ^ (w - 1) then x else x - 2 ^ w.
Proof.
  intros Hw Hx. assert (E : 2 ^ w = 2 * 2 ^ (w - 1)) by (rewrite <- (Z.pow_succ_r 2) by lia; f_equal; lia). unfold wrap_s.
  destruct (Z.ltb_spec x (2 ^ (w - 1))).
  - rewrite Z.mod_small by lia. lia.
  - replace (x + 2 ^ (w - 1)) with (x - 2 ^ (w - 1) + 1 * 2 ^ w) by lia. rewrite Z.mod_add by lia. rewrite Z.mod_small by lia. lia.
Qed.

(** A high byte with its sign in front of low bytes. *)
Lemma sign_byte p n rest : is_byte p -> 0 <= n -> 0 <= rest < 2 ^ n -> s8 p * 2 ^ n + rest = wrap_s (8 + n) (p * 2 ^ n + rest).
Proof.
  intros Hp Hn Hr. unfold is_byte in Hp. assert (E : 2 ^ (8 + n) = 256 * 2 ^ n) by (rewrite Z.pow_add_r by lia; done).
  assert (E' : 2 ^ (8 + n - 1) = 128 * 2 ^ n) by (replace (8 + n - 1) with (7 + n) by lia; rewrite Z.pow_add_r by lia; done).
  unfold s8. rewrite (wrap_s_cases 8) by (cbn; lia). rewrite (wrap_s_cases (8 + n)) by (rewrite ?E; nia). rewrite E, E'.
  change (2 ^ (8 - 1)) with 128. change (2 ^ 8) with 256. destruct (Z.ltb_spec p 128), (Z.ltb_spec (p * 2 ^ n + rest) (128 * 2 ^ n)); nia.
Qed.

(** Big-endian integers of the sizes that records use. *)
Definition get_int (n : Z) : list Z -> Z -> res Z :=
  if n =? 1 then get1ByteInt else if n =? 2 then get2BytesInt else if n =? 3 then get3BytesInt
  else if n =? 4 then get4BytesInt else if n =? 6 then get6BytesInt else get8BytesInt.

Lemma lor_low a l : is_byte l -> Z.lor (256 * a) l = a * 256 + l.
Proof. intros Hl. rewrite last_lor by exact Hl. by rewrite Z.shiftl_mul_pow2, Z.mul_comm by lia. Qed.
Lemma lor3 a p1 p2 : is_byte p1 -> is_byte p2 -> Z.lor (Z.lor (65536 * a) (Z.shiftl p1 8)) p2 = (a * 256 + p1) * 256 + p2.
Proof.
  intros H1 H2. rewrite last_lor by exact H2. rewrite last_lor by exact H1. f_equal. rewrite Z.shiftl_lor, Z.shiftl_shiftl by lia.
  f_equal. by rewrite Z.shiftl_mul_pow2, Z.mul_comm by lia.
Qed.
Lemma lor4 a p1 p2 p3 : is_byte p1 -> is_byte p2 -> is_byte p3 ->
  Z.lor (Z.lor (Z.lor (16777216 * a) (Z.shiftl p1 16)) (Z.shiftl p2 8)) p3 = ((a * 256 + p1) * 256 + p2) * 256 + p3.
Proof.
  intros H1 H2 H3. replace (16777216 * a) with (Z.shiftl a 24) by (rewrite Z.shiftl_mul_pow2 by lia; lia). rewrite be_lor by done. done.
Qed.

Ltac read_bytes :=
  repeat match goal with
  | |- context [zread (?pre ++ ?l) (zlen ?pre)] => rewrite (read_suffix pre l (zlen pre) 0 _ eq_refl) by lia
  | |- context [zread (?pre ++ ?l) (zlen ?pre + ?k)] =>
    let n := eval vm_compute in (Z.to_nat k) in rewrite (read_suffix pre l (zlen pre + k) n _ eq_refl) by lia
  end; cbn [res_bind].

Definition int_size (n : Z) : bool := (n =? 1) || (n =? 2) || (n =? 3) || (n =? 4) || (n =? 6) || (n =? 8).

Ltac kill_len Hz := repeat rewrite zlen_cons in Hz; rewrite ?zlen_nil in Hz; zlen_pos; exfalso; lia.
Ltac bytes_in H := repeat (let Hx := fresh "B" in apply Forall_cons in H as [Hx H]).

Lemma get_int_ok n b pre post : int_size n = true -> zlen b = n -> Forall is_byte b ->
  get_int n (pre ++ b ++ post) (zlen pre) = Done (wrap_s (8 * n) (be_val b)).
Proof.
  intros Hn Hz Hb. unfold int_size in Hn.
  assert (Hc : n = 1 \/ n = 2 \/ n = 3 \/ n = 4 \/ n = 6 \/ n = 8) by lia. clear Hn.
  destruct Hc as [->|[->|[->|[->|[->| ->]]]]]; unfold get_int; cbn [Z.eqb Pos.eqb].
  - destruct b as [|b0 [|? b]]; try kill_len Hz. bytes_in Hb. unfold get1ByteInt. cbn [app]. read_bytes. unfold be_val. cbn [foldl]. done.
  - destruct b as [|b0 [|b1 [|? b]]]; try kill_len Hz. bytes_in Hb. unfold get2BytesInt. cbn [app]. read_bytes.
    rewrite lor_low by done. unfold be_val. cbn [foldl]. f_equal. apply (sign_byte b0 8 b1); [done|lia|done].
  - destruct b as [|b0 [|b1 [|b2 [|? b]]]]; try kill_len Hz. bytes_in Hb. unfold get3BytesInt. cbn [app]. read_bytes.
    rewrite lor3 by done. unfold be_val. cbn [foldl]. f_equal. unfold is_byte in *.
    pose proof (sign_byte b0 16 (b1 * 256 + b2)) as E. change (2 ^ 16) with 65536 in E. change (8 + 16) with (8 * 3) in E.
    replace ((s8 b0 * 256 + b1) * 256 + b2) with (s8 b0 * 65536 + (b1 * 256 + b2)) by lia. rewrite E by (done || lia). f_equal. lia.
  - destruct b as [|b0 [|b1 [|b2 [|b3 [|? b]]]]]; try kill_len Hz. bytes_in Hb. unfold get4BytesInt. cbn [app]. read_bytes.
    rewrite lor4 by done. unfold be_val. cbn [foldl]. f_equal. unfold is_byte in *.
    pose proof (sign_byte b0 24 ((b1 * 256 + b2) * 256 + b3)) as E. change (2 ^ 24) with 16777216 in E. change (8 + 24) with (8 * 4) in E.
    replace (((s8 b0 * 256 + b1) * 256 + b2) * 256 + b3) with (s8 b0 * 16777216 + ((b1 * 256 + b2) * 256 + b3)) by lia. rewrite E by (done || lia). f_equal. lia.
  - destruct b as [|b0 [|b1 [|b2 [|b3 [|b4 [|b5 [|? b]]]]]]]; try kill_len Hz. bytes_in Hb. unfold get6BytesInt, get4BytesUInt, get2BytesInt. cbn [app].
    rewrite <- !Z.add_assoc. cbn [Z.add Pos.add Pos.succ Pos.add_carry]. read_bytes. rewrite lor_low, be_lor by done. unfold be_value, be_val. cbn [foldl]. f_equal. unfold is_byte in *.
    pose proof (sign_byte b0 40 ((((b1 * 256 + b2) * 256 + b3) * 256 + b4) * 256 + b5)) as E. change (2 ^ 40) with 1099511627776 in E. change (8 + 40) with (8 * 6) in E.
    replace (((b2 * 256 + b3) * 256 + b4) * 256 + b5 + 2 ^ 32 * (s8 b0 * 256 + b1)) with (s8 b0 * 1099511627776 + ((((b1 * 256 + b2) * 256 + b3) * 256 + b4) * 256 + b5)) by lia.
    rewrite E by (done || lia). f_equal. lia.
  - destruct b as [|b0 [|b1 [|b2 [|b3 [|b4 [|b5 [|b6 [|b7 [|? b]]]]]]]]]; try kill_len Hz. bytes_in Hb. unfold get8BytesInt, get4BytesUInt. cbn [app].
    rewrite <- !Z.add_assoc. cbn [Z.add Pos.add Pos.succ Pos.add_carry]. read_bytes. rewrite !be_lor by done. unfold be_value, be_val. cbn [foldl]. f_equal. unfold is_byte in *.
    unfold s64, u64. rewrite Z.shiftl_mul_pow2, Z.mod_small by lia. change (8 * 8) with 64. f_equal. lia.
Qed.

(** The eight bytes of a floating-point number. *)
Lemma get_double_ok b pre post : zlen b = 8 -> Forall is_byte b -> get8BytesDouble (pre ++ b ++ post) (zlen pre) = Done (rev b).
Proof.
  intros Hz Hb. destruct b as [|b0 [|b1 [|b2 [|b3 [|b4 [|b5 [|b6 [|b7 [|? b]]]]]]]]]; try kill_len Hz. bytes_in Hb. unfold get8BytesDouble, get4BytesUInt. cbn [app].
  rewrite <- !Z.add_assoc. cbn [Z.add Pos.add Pos.succ Pos.add_carry]. read_bytes. rewrite !be_lor by done. unfold be_value. unfold is_byte in *.
  unfold u64. rewrite Z.shiftl_mul_pow2, Z.mod_small by lia. f_equal. cbn [rev app].
  assert (E : forall p z, 0 <= p < 256 -> (z * 256 + p) mod 256 = p /\ (z * 256 + p) / 256 = z) by (intros; Z.to_euclidean_division_equations; lia).
  assert (E' : forall n p z, 0 <= p < 256 -> le_bytes (S n) (z * 256 + p) = p :: le_bytes n z) by (intros n p z Hp; cbn [le_bytes]; destruct (E p z Hp) as [-> ->]; done).
  replace ((((b0 * 256 + b1) * 256 + b2) * 256 + b3) * 2 ^ 32 + (((b4 * 256 + b5) * 256 + b6) * 256 + b7))
    with ((((((((0 * 256 + b0) * 256 + b1) * 256 + b2) * 256 + b3) * 256 + b4) * 256 + b5) * 256 + b6) * 256 + b7) by lia.
  rewrite !E' by done. done.
Qed.

(** ** The columns of a record *)

(** The serial type and the offset of each field, from offset [off] on. *)
Fixpoint columns_from (off : Z) (r : list field) : list (Z * Z) :=
  match r with
  | [] => []
  | f :: r => (f.1, off) :: columns_from (off + serial_width f.1) r
  end.

(** A record in the format of SQLite. *)
Definition stored_record (h : Z) (r : list field) : Prop :=
  h = zlen (sqlite_varint h) + zlen (serials r) /\ 0 <= h /\ Forall field_ok r /\ zlen (record_bytes h r) < 2 ^ 31.

Lemma getLength_ok s : serial_ok s -> getLengthOfSerialType s = Done (serial_width s) /\ isSerialTypeSanity s = true.
Proof.
  intros [Hs Hmax]. unfold getLengthOfSerialType, isSerialTypeSanity, serial_width. destruct (s <? 12) eqn:E.
  - assert (Hc : s = 0 \/ s = 1 \/ s = 2 \/ s = 3 \/ s = 4 \/ s = 5 \/ s = 6 \/ s = 7 \/ s = 8 \/ s = 9) by lia.
    repeat destruct Hc as [->|Hc]; try done. by subst s.
  - assert (H12 : 12 <= s) by lia. split; [|lia].
    rewrite (proj2 (Z.leb_gt s 10)), (proj2 (Z.eqb_neq s 5)), (proj2 (Z.eqb_neq s 6)), (proj2 (Z.eqb_neq s 7)), (proj2 (Z.leb_gt s 4)) by lia.
    cbn [orb]. rewrite Z.rem_mod_nonneg, Zmod_even by lia. destruct (Z.even s) eqn:Ev.
    + rewrite Z.quot_div_nonneg by lia. do 2 f_equal. lia.
    + assert (s <> 12) by (intros ->; discriminate Ev). rewrite Z.quot_div_nonneg by lia. do 2 f_equal. lia.
Qed.

Lemma getVarint_at w v l : 0 <= v < 2 ^ 64 -> zlen (w ++ sqlite_varint v ++ l) < 2 ^ 63 -> Forall is_byte l ->
  getVarint (w ++ sqlite_varint v ++ l) (zlen w) = Done (zlen (sqlite_varint v), v).
Proof.
  intros Hv Hl Hb. rewrite getVarint_dec; [by rewrite dec_varint_sqlite|done|]. apply Forall_app. split; [apply varint_bytes|done].
Qed.

(** The width of all fields. *)
Lemma zlen_bodies r : Forall field_ok r -> zlen (bodies r) = foldr (fun f n => serial_width f.1 + n) 0 r.
Proof.
  induction 1 as [|f r Hf _ IH]; [done|]. rewrite bodies_cons, zlen_app, IH. cbn. destruct Hf as (_ & -> & _). done.
Qed.

Lemma bodies_bytes r : Forall field_ok r -> Forall is_byte (bodies r).
Proof. induction 1 as [|f r (_ & _ & Hb) _ IH]; [constructor|]. rewrite bodies_cons. by apply Forall_app. Qed.
Lemma serials_bytes r : Forall is_byte (serials r).
Proof. induction r as [|f r IH]; [constructor|]. rewrite serials_cons. apply Forall_app. split; [apply varint_bytes|done]. Qed.

Lemma serial_types_ok r : forall w rest off ends fuel,
  Forall field_ok r -> Forall is_byte rest -> zlen (w ++ serials r ++ rest) < 2 ^ 31 -> 0 <= off -> off + zlen (bodies r) = ends -> ends < 2 ^ 31 ->
  (length (serials r) <= fuel)%nat ->
  serial_types fuel (w ++ serials r ++ rest) (zlen w) off (zlen w + zlen (serials r)) ends = Done (Some (columns_from off r)).
Proof.
  induction r as [|f r IH]; intros w rest off ends fuel Hr Hrest Hl Ho He Hends Hfuel.
  - change (serials []) with (@nil Z). change (zlen (@nil Z)) with 0. rewrite Z.add_0_r. change (zlen (bodies [])) with 0 in He.
    assert (E : forall fuel, serial_types fuel (w ++ [] ++ rest) (zlen w) off (zlen w) ends = Done (Some [])).
    { intros fuel'. destruct fuel'; cbn [serial_types]; rewrite Z.ltb_irrefl, Z.eqb_refl, (proj2 (Z.eqb_eq off ends)) by lia; done. }
    apply E.
  - apply Forall_cons in Hr as [Hf Hr]. rewrite serials_cons in *. rewrite bodies_cons, zlen_app in He. pose proof (varint_length f.1) as Hv.
    pose proof Hf as (Hs & Hw & _). pose proof (serial_width_range _ Hs) as Hwr. pose proof (zlen_nonneg rest). zlen_pos.
    destruct fuel as [|fuel]; [rewrite length_app in Hfuel; unfold zlen in Hv; lia|]. cbn [serial_types].
    rewrite !zlen_app in Hl. rewrite (proj2 (Z.ltb_lt _ _)) by (rewrite zlen_app; lia). cbn [negb].
    assert (Eseek : seek_to (zlen (w ++ (sqlite_varint f.1 ++ serials r) ++ rest)) (zlen w) = zlen w).
    { unfold seek_to. rewrite (proj2 (Z.ltb_ge _ _)) by lia. rewrite !zlen_app. lia. }
    assert (Hs64 : 0 <= f.1 < 2 ^ 64) by (destruct Hs as [? ?]; lia).
    rewrite Eseek, <- app_assoc. rewrite getVarint_at; [|lia|rewrite !zlen_app; lia|apply Forall_app; split; [apply serials_bytes|done]]. cbn [res_bind].
    rewrite (proj2 (Z.eqb_neq _ 0)) by lia. assert (Es : s32 f.1 = f.1) by (destruct Hs as [? ?]; apply wrap_s_small; lia). rewrite Es.
    destruct (getLength_ok _ Hs) as [-> ->]. cbn [negb res_bind]. unfold chk_int. rewrite (proj2 (Z.leb_le _ _)), (proj2 (Z.ltb_lt _ _)) by lia. cbn [andb res_bind].
    rewrite (proj2 (Z.ltb_ge _ _)) by lia.
    specialize (IH (w ++ sqlite_varint f.1) rest (off + serial_width f.1) ends fuel Hr Hrest).
    rewrite (zlen_app w (sqlite_varint f.1)), <- app_assoc in IH. rewrite zlen_app, Z.add_assoc. rewrite IH; [done|rewrite !zlen_app; lia|lia|lia|done|].
    rewrite length_app in Hfuel. unfold zlen in Hv. lia.
Qed.

(** The columns of a stored record. *)
Lemma parse_columns_ok h r : stored_record h r ->
  parse_columns (record_bytes h r) (zlen (record_bytes h r)) = Done (Some (columns_from h r)).
Proof.
  intros (Hh & Hh0 & Hr & Hl). unfold parse_columns, record_bytes in *. pose proof (varint_length h) as Hv. pose proof (zlen_nonneg (bodies r)). pose proof (zlen_nonneg (serials r)). zlen_pos.
  assert (Hl' : zlen ([] ++ sqlite_varint h ++ serials r ++ bodies r) < 2 ^ 63) by (rewrite app_nil_l; lia).
  rewrite !zlen_app in Hl.
  change (getVarint (sqlite_varint h ++ serials r ++ bodies r) 0) with (getVarint ([] ++ sqlite_varint h ++ serials r ++ bodies r) (zlen (@nil Z))).
  rewrite getVarint_at; [|lia|done|apply Forall_app; split; [apply serials_bytes|by apply bodies_bytes]]. cbn [res_bind].
  rewrite (proj2 (Z.eqb_neq _ 0)) by lia. assert (Es : s32 h = h) by (apply wrap_s_small; lia). rewrite Es.
  pose proof (serial_types_ok r (sqlite_varint h) (bodies r) h (zlen (sqlite_varint h ++ serials r ++ bodies r)) (length (sqlite_varint h ++ serials r ++ bodies r))) as E.
  rewrite <- Hh in E. apply E; try done; [by apply bodies_bytes|rewrite !zlen_app; lia|rewrite !zlen_app; lia|rewrite !zlen_app; lia|rewrite !length_app; lia].
Qed.

(** *** Values *)

(** What a column holds, by the getter for its type. *)
Definition column_value (c : Cell) (i : Z) : res rkval :=
  let? t := getValueType c i in
  match t with
  | CNull => Done RNull
  | CInteger => let? v := integerValue c i in Done (RInteger v)
  | CReal => let? b := doubleValue c i in Done (RNumber b)
  | CText => let? b := stringValue c i in Done (RText b)
  | CBLOB => let? b := blobValue c i in Done (RBinary b)
  end.

Lemma columns_lookup r : forall off n f, r !! n = Some f ->
  columns_from off r !! n = Some (f.1, off + foldr (fun f n => serial_width f.1 + n) 0 (take n r)).
Proof.
  induction r as [|g r IH]; intros off n f Hn; [done|]. destruct n as [|n]; cbn in *.
  - injection Hn as ->. by rewrite Z.add_0_r.
  - rewrite (IH _ _ _ Hn). do 2 f_equal. lia.
Qed.

(** Every column of a stored record has the value of its field. *)
Lemma column_value_ok h r page left rowid n f : stored_record h r -> r !! n = Some f ->
  column_value (MkCell page left rowid (record_bytes h r) (columns_from h r)) (Z.of_nat n) = Done (field_value f).
Proof.
  intros (Hh & Hh0 & Hr & Hl) Hn. pose proof (columns_lookup r h n f Hn) as Hc.
  pose proof (proj1 (Forall_lookup _ _) Hr n f Hn) as (Hs & Hw & Hb).
  assert (Hsplit : r = take n r ++ f :: drop (S n) r) by (symmetry; by apply take_drop_middle).
  assert (Hrt : Forall field_ok (take n r)) by (by apply Forall_take).
  set (off := h + _) in Hc.
  set (pre := sqlite_varint h ++ serials r ++ bodies (take n r)). set (post := bodies (drop (S n) r)).
  assert (Hp : record_bytes h r = pre ++ f.2 ++ post).
  { unfold record_bytes, pre, post. rewrite Hsplit at 2. rewrite bodies_app, bodies_cons, <- !app_assoc. done. }
  assert (Hoff : off = zlen pre).
  { unfold off, pre. rewrite !zlen_app, zlen_bodies by done. rewrite Hh at 1. lia. }
  assert (Hread : forall A (g : Z * Z -> res A), res_bind (zread (columns_from h r) (Z.of_nat n)) g = g (f.1, zlen pre)).
  { intros A g. unfold zread. rewrite (proj2 (Z.leb_le _ _)), Nat2Z.id, Hc, Hoff by lia. done. }
  assert (Hlen : zlen (pre ++ f.2 ++ post) < 2 ^ 31) by (by rewrite <- Hp).
  unfold column_value, getValueType, integerValue, doubleValue, stringValue, blobValue. cbn [c_columns c_payload]. rewrite Hp, !Hread.
  destruct (getLength_ok _ Hs) as [Hgl _]. rewrite Hgl. destruct f as [s b]. cbn [fst snd] in *. unfold field_value.
  assert (Hint : 1 <= s <= 6 -> (if serial_width s =? 1 then get1ByteInt (pre ++ b ++ post) (zlen pre) else if serial_width s =? 2 then get2BytesInt (pre ++ b ++ post) (zlen pre)
      else if serial_width s =? 3 then get3BytesInt (pre ++ b ++ post) (zlen pre) else if serial_width s =? 4 then get4BytesInt (pre ++ b ++ post) (zlen pre)
      else if serial_width s =? 6 then get6BytesInt (pre ++ b ++ post) (zlen pre) else if serial_width s =? 8 then get8BytesInt (pre ++ b ++ post) (zlen pre) else Done 0)
      = Done (wrap_s (8 * serial_width s) (be_val b))).
  { intros Hs6. assert (Hi : int_size (serial_width s) = true) by (assert (Hc6 : s = 1 \/ s = 2 \/ s = 3 \/ s = 4 \/ s = 5 \/ s = 6) by lia; by repeat destruct Hc6 as [->|Hc6]; try subst s).
    pose proof (get_int_ok _ _ pre post Hi Hw Hb) as E. unfold get_int, int_size in *. repeat (case_match; [exact E|]). lia. }
  destruct Hs as [Hs Hmax]. destruct (s =? 0) eqn:E0; [done|]. destruct (s =? 7) eqn:E7.
  { assert (s = 7) as -> by lia. cbn [res_bind]. rewrite get_double_ok by done. done. }
  destruct (s <=? 10) eqn:E10; cbn [res_bind].
  { destruct (s <=? 6) eqn:E6.
    - rewrite (proj2 (Z.eqb_neq s 8)), (proj2 (Z.eqb_neq s 9)) by lia. rewrite Hint by lia. done.
    - assert (Hc9 : s = 8 \/ s = 9) by lia. by destruct Hc9 as [-> | ->]. }
  rewrite (proj2 (Z.leb_gt s 6)), (proj2 (Z.eqb_neq s 8)), (proj2 (Z.eqb_neq s 9)) by lia. rewrite Z.rem_mod_nonneg, Zmod_even by lia. zlen_pos.
  destruct (Z.even s); cbn [Z.eqb res_bind].
  - unfold subdata, u64. rewrite !zlen_app in Hlen. zlen_pos. rewrite !Z.mod_small by lia. destruct (serial_width s =? 0) eqn:Ez.
    + assert (b = []) as -> by (apply zlen_0_inv; lia). done.
    + rewrite (proj2 (Z.leb_le _ _)) by (rewrite !zlen_app; lia). rewrite zread_n_app by done. done.
  - unfold getString. destruct (serial_width s =? 0) eqn:Ez.
    + assert (b = []) as -> by (apply zlen_0_inv; lia). done.
    + rewrite zread_n_app by done. done.
Qed.

(** * Pages and cells: what is stored in pages

    The laws of a pager that gives the pages of a database, and what parsing a page, a cell and a chain of overflow
    pages gives for pages in the format of SQLite. *)

(** ** The promise of a pager *)

(** The pages of a database, their number and their size, and how many bytes of a page hold content. *)
Record Database := MkDatabase { db_page : Z -> option (list Z); db_count : Z; db_size : Z; db_usable : Z }.

(** A pager shows a database.
    A page that is acquired is the one that is shown; it is refused only if there is none, or if the
    pager does not grant everything.  [pv_other] is the rest of the state, which a pager leaves alone. *)
Class PagerView (St : Type) `{P : PagerOps St} := {
  pv_inv : St -> Prop;
  pv_db : Database;
  pv_grants : Prop;
  pv_rest : Type;
  pv_other : St -> pv_rest;
  pv_geometry : 512 <= (db_size pv_db) <= 65536 /\ 256 <= (db_usable pv_db) <= (db_size pv_db);
  pv_sizes : forall s, pv_inv s -> pg_pageSize s = (db_size pv_db) /\ pg_usableSize s = (db_usable pv_db) /\ pg_numberOfPages s = (db_count pv_db);
  pv_page_data : forall n p, (db_page pv_db) n = Some p -> 1 <= n <= (db_count pv_db) /\ zlen p = (db_size pv_db) /\ Forall is_byte p;
  pv_acquire : forall n off size s Q, pv_inv s -> 1 <= n -> 0 <= off -> 0 < size -> off + size <= (db_size pv_db) ->
    (forall r s', pv_inv s' -> pv_other s' = pv_other s -> r = [] \/ (exists p, (db_page pv_db) n = Some p /\ r = slice off size p) ->
      (pv_grants -> forall p, (db_page pv_db) n = Some p -> r = slice off size p /\ pg_error s' = pg_error s) -> Q r s') ->
    wp (pg_acquire n off size) Q s;
  pv_malloc : forall n s Q, pv_inv s -> 0 < n ->
    (forall r s', pv_inv s' -> pv_other s' = pv_other s -> pg_error s' = pg_error s -> match r with Some b => zlen b = n | None => ~ pv_grants end -> Q r s') ->
    wp (pg_malloc n) Q s;
  pv_setError : forall e s Q, pv_inv s -> (forall s', pv_inv s' -> pv_other s' = pv_other s -> pg_error s' = e -> Q tt s') -> wp (pg_setError e) Q s
}.

(** Only requests happened, and they were granted. *)
Definition same_pager {St} `{P : PagerOps St} `{V : !PagerView St} (s s' : St) : Prop :=
  pv_inv s' /\ pv_other s' = pv_other s /\ pg_error s' = pg_error s.

Lemma same_pager_trans {St} `{P : PagerOps St} `{V : !PagerView St} (s s' s'' : St) : same_pager s s' -> same_pager s' s'' -> same_pager s s''.
Proof. intros (_ & H1 & H2) (H3 & H4 & H5). split_and!; congruence. Qed.

Section view.
Context {St : Type} `{P : PagerOps St} `{V : !PagerView St}.
Hypothesis granted : pv_grants.

(** The whole of a page that is there. *)
Lemma wp_acquire_page n p s Q : pv_inv s -> (db_page pv_db) n = Some p ->
  (forall s', same_pager s s' -> Q p s') -> wp (pg_acquire n 0 (db_size pv_db)) Q s.
Proof.
  intros Hs Hp HQ. destruct (pv_page_data n p Hp) as (Hn & Hz & _). pose proof pv_geometry.
  apply pv_acquire; [done|lia..|]. intros r s' Hs' Ho _ Hr. destruct (Hr granted p Hp) as [-> He].
  assert (E : slice 0 (db_size pv_db) p = p) by (unfold slice; rewrite <- Hz, to_nat_zlen; apply firstn_all). rewrite E. by apply HQ.
Qed.

(** ** Overflow pages *)

(** The pages [ps] from [n] on hold [rest]: each has the number of the next page and a part. *)
Inductive chain (db : Database) : Z -> list Z -> list Z -> Prop :=
| chain_end : chain db 0 [] []
| chain_page n next ps part rest junk :
    0 < n < 2 ^ 31 -> (db_page db) n = Some (be4 next ++ part ++ junk) -> 0 < zlen part ->
    zlen part = Z.min (zlen (part ++ rest)) ((db_usable db) - 4) -> n ∉ ps -> 0 <= next < 2 ^ 31 ->
    chain db next ps rest -> chain db n (n :: ps) (part ++ rest).

Lemma get4_be4 pre v post : 0 <= v < 2 ^ 31 -> get4BytesInt (pre ++ be4 v ++ post) (zlen pre) = Done v.
Proof.
  intros Hv. pose proof (get_int_ok 4 (be4 v) pre post eq_refl eq_refl (be4_bytes v)) as E. unfold get_int in E. cbn [Z.eqb Pos.eqb] in E. rewrite E. f_equal.
  assert (Hbe : be_val (be4 v) = be_value (u8 (Z.shiftr v 24)) (u8 (Z.shiftr v 16)) (u8 (Z.shiftr v 8)) (u8 v)) by done.
  rewrite Hbe, be4_value by lia. apply wrap_s_small; lia.
Qed.

Lemma chain_pos n ps rest : chain pv_db n ps rest -> rest <> [] -> 0 < n.
Proof. intros H Hr. destruct H; [done|lia]. Qed.

(** A chain of overflow pages fills the rest of a payload. *)
Lemma wp_fill_overflow page n ps rest : chain pv_db n ps rest -> forall fuel done_ junk seen s Q,
  pv_inv s -> zlen junk = zlen rest -> (length rest <= fuel)%nat -> (forall q, q ∈ ps -> q ∉ seen) ->
  (forall s', same_pager s s' -> Q (Some (done_ ++ rest, 0, zlen (done_ ++ rest))) s') ->
  wp (fill_overflow fuel page n (zlen done_) (zlen (done_ ++ rest)) seen (done_ ++ junk)) Q s.
Proof.
  induction 1 as [|n next ps part rest junk' Hn Hp Hpart Hsize Hnew Hnext Hc IH]; intros fuel done_ junk seen s Q Hs Hj Hf Hseen HQ.
  - rewrite app_nil_r in *. assert (junk = []) as -> by (by apply zlen_0_inv). rewrite app_nil_r.
    assert (E : forall fuel, fill_overflow fuel page 0 (zlen done_) (zlen done_) seen done_ = ret (Some (done_, 0, zlen done_))) by (intros []; done).
    rewrite E. apply wp_ret, HQ. by split.
  - destruct fuel as [|fuel]; [rewrite length_app in Hf; unfold zlen in Hpart; lia|]. cbn [fill_overflow].
    destruct (pv_page_data _ _ Hp) as (Hnc & Hz & Hb). pose proof pv_geometry as [Hg1 Hg2].
    rewrite !zlen_app in *. zlen_pos. rewrite (proj2 (Z.ltb_lt 0 n)), (proj2 (Z.ltb_lt (zlen done_) _)) by lia. cbn [andb negb].
    rewrite bool_decide_eq_false_2 by (apply Hseen; constructor). destruct (pv_sizes s Hs) as (E1 & E2 & E3). apply wp_bind_gets. rewrite E3, (proj2 (Z.ltb_ge _ _)) by lia.
    apply wp_bind_gets. rewrite E1. apply wp_bind, (wp_acquire_page _ _ _ _ Hs Hp). intros s1 S1. pose proof S1 as (Hs1 & _). apply wp_nonempty; [rewrite !zlen_app, zlen_be4; lia|].
    destruct (pv_sizes s1 Hs1) as (F1 & F2 & F3). apply wp_bind_gets. rewrite F2. replace (zlen done_ + (zlen part + zlen rest) - zlen done_) with (zlen part + zlen rest) by lia.
    rewrite <- Hsize. eapply wp_bind_lift_res; [by apply (zread_n_app (be4 next) part junk')|].
    eapply wp_bind_lift_res; [apply zwrite_n_behind; [done|lia]|].
    apply wp_bind, wp_parse. unfold advance4BytesInt, advance_fixed. apply wp_bind_gets. cbn [d_data d_cursor new_deserialization].
    eapply wp_bind_lift_res; [by apply (get4_be4 [] next)|]. apply wp_bind. unfold de_advance, de_seek. apply wp_bind_gets, wp_modify, wp_ret.
    specialize (IH fuel (done_ ++ part) (drop (length part) junk) ({[n]} ∪ seen) s1 Q Hs1). rewrite !zlen_app, <- !app_assoc in IH.
    replace (zlen done_ + (zlen part + zlen rest)) with (zlen done_ + zlen part + zlen rest) by lia. apply IH.
    + unfold zlen in *. rewrite length_drop. lia.
    + rewrite length_app in Hf. unfold zlen in Hpart. lia.
    + intros q Hq. apply not_elem_of_union. split; [intros ->%elem_of_singleton; done|]. apply Hseen. by constructor.
    + intros s' S'. specialize (HQ s'). rewrite !Z.add_assoc in HQ. by apply HQ, (same_pager_trans _ s1).
Qed.

(** ** How much of a payload is in its page *)

(** The formulas of the file format: the largest payload that is not split, the least part that stays, and what stays
    of a payload of [n] bytes. *)
Definition max_local (t : PageType) (u : Z) : Z := match t with LeafTable => u - 35 | _ => (u - 12) * 64 / 255 - 23 end.
Definition local_part (t : PageType) (u n : Z) : Z :=
  if n <=? max_local t u then n
  else let k := min_local u + (n - min_local u) mod (u - 4) in if k <=? max_local t u then k else min_local u.

Lemma local_ranges t u : 256 <= u <= 65536 -> 7 <= min_local u <= max_local t u /\ max_local t u - min_local u < u - 4 /\ max_local t u <= u - 35.
Proof.
  intros Hu. unfold min_local, max_local. pose proof (Z.div_mod ((u - 12) * 32) 255 ltac:(lia)). pose proof (Z.mod_pos_bound ((u - 12) * 32) 255 ltac:(lia)).
  pose proof (Z.div_mod ((u - 12) * 64) 255 ltac:(lia)). pose proof (Z.mod_pos_bound ((u - 12) * 64) 255 ltac:(lia)).
  destruct t; lia.
Qed.

Lemma local_part_range t u n : 256 <= u <= 65536 -> 0 < n -> 0 < local_part t u n <= n /\ local_part t u n <= u - 35.
Proof.
  intros Hu Hn. destruct (local_ranges t u Hu) as (H1 & H2 & H3). unfold local_part. destruct (Z.leb_spec n (max_local t u)); [lia|]. cbn zeta.
  pose proof (Z.mod_pos_bound (n - min_local u) (u - 4) ltac:(lia)). pose proof (Z.mod_le (n - min_local u) (u - 4) ltac:(lia) ltac:(lia)).
  destruct (Z.leb_spec (min_local u + (n - min_local u) mod (u - 4)) (max_local t u)); lia.
Qed.

(** The code compares with [<] where the format has [<=]; the result is the same. *)
Lemma localPayloadSize_ok t u n : 256 <= u <= 65536 -> 0 < n -> localPayloadSize_of t u n = local_part t u n.
Proof.
  intros Hu Hn. destruct (local_ranges t u Hu) as (H1 & H2 & _).
  assert (Emin : getMinLocal u = min_local u) by (unfold getMinLocal, min_local; rewrite Z.quot_div_nonneg by lia; done).
  assert (Emax : getMaxLocal t u = max_local t u) by (unfold getMaxLocal, max_local; destruct t; rewrite ?Z.quot_div_nonneg by lia; done).
  unfold localPayloadSize_of, local_part. rewrite Emin, Emax. destruct (Z.ltb_spec n (max_local t u)) as [H|H].
  - rewrite (proj2 (Z.leb_le _ _)) by lia. done.
  - cbn zeta. rewrite Z.rem_mod_nonneg by lia. destruct (Z.leb_spec n (max_local t u)) as [H'|H']; [|done].
    assert (n = max_local t u) as -> by lia. rewrite Z.mod_small by lia. rewrite (proj2 (Z.leb_le _ _)) by lia. lia.
Qed.

(** ** Cells *)

(** A cell: the left child (of an inner page of an index), the rowid (of a table), a record and its overflow pages. *)
Record StoredCell := MkStored { sc_left : Z; sc_rowid : Z; sc_header : Z; sc_fields : list field; sc_overflow : list Z }.

Definition sc_payload (c : StoredCell) : list Z := record_bytes (sc_header c) (sc_fields c).

(** The numbers before the payload. *)
Definition cell_head (t : PageType) (c : StoredCell) : list Z :=
  (if isLeafPage t then [] else be4 (sc_left c)) ++ sqlite_varint (zlen (sc_payload c))
  ++ (if isTablePage t then sqlite_varint (u64 (sc_rowid c)) else []).

Definition good_cell (t : PageType) (c : StoredCell) : Prop :=
  stored_record (sc_header c) (sc_fields c) /\ 0 <= sc_left c < 2 ^ 31 /\ - 2 ^ 63 <= sc_rowid c < 2 ^ 63
  /\ match t with Unknown | InteriorTable => False | _ => True end.

(** The cell in a page of type [t], at [pointer]. *)
Definition cell_stored (db : Database) (t : PageType) (data : list Z) (pointer : Z) (c : StoredCell) : Prop :=
  exists pre local rest first post,
    data = pre ++ cell_head t c ++ local ++ (match rest with [] => [] | _ => be4 first end) ++ post
    /\ zlen pre = pointer /\ sc_payload c = local ++ rest /\ zlen local = local_part t (db_usable db) (zlen (sc_payload c))
    /\ 0 <= first < 2 ^ 31 /\ chain db first (sc_overflow c) rest.

(** What parsing gives. *)
Definition cell_of (page : Page) (c : StoredCell) : Cell :=
  MkCell page (if isLeafPage (p_type page) then 0 else sc_left c) (if isTablePage (p_type page) then sc_rowid c else 0)
    (sc_payload c) (columns_from (sc_header c) (sc_fields c)).

Lemma payload_pos h r : stored_record h r -> 0 < zlen (record_bytes h r) < 2 ^ 31.
Proof. intros (_ & _ & _ & Hl). pose proof (varint_length h). unfold record_bytes in *. rewrite !zlen_app in *. zlen_pos. lia. Qed.

Lemma wrap_u64 r : - 2 ^ 63 <= r < 2 ^ 63 -> s64 (u64 r) = r /\ 0 <= u64 r < 2 ^ 64.
Proof.
  intros Hr. assert (H : 0 <= u64 r < 2 ^ 64) by (apply Z.mod_pos_bound; lia). split; [|done].
  unfold s64, u64 in *. rewrite (wrap_s_cases 64) by (cbn; lia). change (2 ^ (64 - 1)) with (2 ^ 63).
  destruct (Z.lt_ge_cases r 0) as [Hn|Hn].
  - replace (r mod 2 ^ 64) with (r + 2 ^ 64) by (apply (Z.mod_unique_pos _ _ (-1)); lia). rewrite (proj2 (Z.ltb_ge _ _)) by lia. lia.
  - rewrite Z.mod_small by lia. rewrite (proj2 (Z.ltb_lt _ _)) by lia. done.
Qed.

Lemma wp_cell_header t c pre l Q :
  good_cell t c -> zlen (pre ++ cell_head t c ++ l) < 2 ^ 31 -> Forall is_byte l ->
  (forall s', reads 0 (pre ++ cell_head t c) l s' ->
    Q (Some ((if isLeafPage t then 0 else sc_left c), zlen (sc_payload c), (if isTablePage t then sc_rowid c else 0), zlen (pre ++ cell_head t c))) s') ->
  wp (cell_header t (zlen pre)) Q (new_deserialization (pre ++ cell_head t c ++ l)).
Proof.
  intros (Hr & Hleft & Hrow & Ht) Hl Hb HQ. pose proof (payload_pos _ _ Hr) as Hn. fold (sc_payload c) in Hn. destruct (wrap_u64 _ Hrow) as [Hw Hu].
  unfold cell_header. apply wp_bind. unfold de_seek. apply wp_modify. cbn [d_data d_cursor d_version new_deserialization].
  assert (Eseek : seek_to (zlen (pre ++ cell_head t c ++ l)) (zlen pre) = zlen pre).
  { unfold seek_to. zlen_pos. rewrite (proj2 (Z.ltb_ge _ _)) by lia. rewrite zlen_app. zlen_pos. lia. }
  rewrite Eseek. assert (R : reads 0 pre (cell_head t c ++ l) (Deser (pre ++ cell_head t c ++ l) (zlen pre) 0)) by (split; [done|lia]).
  set (s0 := Deser _ _ _) in *. clearbody s0. apply wp_bind_gets.
  assert (Es : s32 (zlen (sc_payload c)) = zlen (sc_payload c)) by (apply wrap_s_small; lia).
  assert (El : u32 (sc_left c) = sc_left c) by (apply Z.mod_small; lia).
  unfold cell_head in *. destruct t; try done; cbn [isLeafPage isTablePage negb andb app] in *; rewrite ?app_nil_r, <- ?app_assoc in *.
  - rewrite (canAdvance_reads _ _ _ _ _ R), (proj2 (Z.leb_le _ _)) by (rewrite ?zlen_app, ?zlen_be4; zlen_pos; lia). cbn [negb andb].
    apply wp_bind. unfold advance4BytesInt, advance_fixed. apply wp_bind_gets. pose proof R as [-> _]. cbn [d_data d_cursor].
    eapply wp_bind_lift_res; [by apply get4_be4|]. apply wp_bind. eapply wp_de_advance; [exact R|done|]. clear R. intros s1 R. apply wp_ret.
    apply wp_bind, (wp_advanceVarint _ _ _ _ _ _ R); [lia|done|]. clear R. intros s2 R. pose proof (varint_length (zlen (sc_payload c))) as Hv.
    rewrite (proj2 (Z.eqb_neq _ 0)) by lia. apply wp_ret. rewrite Es, El. rewrite <- app_assoc in R. specialize (HQ _ R). rewrite !zlen_app, zlen_be4 in HQ.
    replace (zlen pre + (4 + zlen (sqlite_varint (zlen (sc_payload c))))) with (zlen pre + 4 + zlen (sqlite_varint (zlen (sc_payload c)))) in HQ by lia. exact HQ.
  - apply wp_bind, wp_ret. apply wp_bind, (wp_advanceVarint _ _ _ _ _ _ R); [lia|done|]. clear R. intros s2 R. pose proof (varint_length (zlen (sc_payload c))) as Hv.
    rewrite (proj2 (Z.eqb_neq _ 0)) by lia. apply wp_ret. rewrite Es. specialize (HQ _ R). rewrite !zlen_app in HQ. rewrite Z.add_0_r. exact HQ.
  - apply wp_bind, wp_ret. apply wp_bind, (wp_advanceVarint _ _ _ _ _ _ R); [lia|apply Forall_app; split; [apply varint_bytes|done]|]. clear R. intros s2 R.
    pose proof (varint_length (zlen (sc_payload c))) as Hv. pose proof (varint_length (u64 (sc_rowid c))) as Hv2.
    rewrite (proj2 (Z.eqb_neq _ 0)) by lia. apply wp_bind, (wp_advanceVarint _ _ _ _ _ _ R); [done..|]. clear R. intros s3 R. rewrite (proj2 (Z.eqb_neq _ 0)) by lia. apply wp_ret.
    rewrite Es, Hw. rewrite <- app_assoc in R. specialize (HQ _ R). rewrite !zlen_app in HQ. rewrite Z.add_0_r, <- Z.add_assoc. exact HQ.
Qed.

Lemma isEnough_ok d n : 0 <= n < 2 ^ 62 -> isEnough d n = (n <=? zlen d).
Proof. intros Hn. unfold isEnough, u64. by rewrite Z.mod_small by lia. Qed.

Lemma seek_to_in cap n : 0 <= n <= cap -> seek_to cap n = n.
Proof. intros Hn. unfold seek_to. rewrite (proj2 (Z.ltb_ge _ _)) by lia. lia. Qed.

Lemma wp_cell_payload page pre local rest first ovs post s Q :
  pv_inv s -> p_data page = pre ++ local ++ (match rest with [] => [] | _ => be4 first end) ++ post -> zlen (p_data page) < 2 ^ 31 ->
  0 < zlen (local ++ rest) < 2 ^ 31 -> zlen local = local_part (p_type page) (db_usable pv_db) (zlen (local ++ rest)) ->
  0 <= first < 2 ^ 31 -> chain pv_db first ovs rest ->
  (forall s', same_pager s s' -> Q (Some (local ++ rest)) s') ->
  wp (cell_payload page (zlen pre) (zlen (local ++ rest)) (zlen pre)) Q s.
Proof.
  intros Hs Hd Hdl Hn Hlocal Hfirst Hc HQ. destruct (pv_sizes s Hs) as (E1 & E2 & E3). pose proof pv_geometry as [Hg1 Hg2].
  unfold cell_payload. apply wp_bind_gets. rewrite E2. cbn zeta. rewrite localPayloadSize_ok by lia. rewrite <- Hlocal.
  assert (Hlr : 0 < zlen local <= zlen (local ++ rest)) by (rewrite Hlocal at 1 2; apply local_part_range; lia).
  assert (Hfit : zlen pre + zlen local + zlen (match rest with [] => [] | _ => be4 first end) <= zlen (p_data page)) by (rewrite Hd, !zlen_app; zlen_pos; lia). zlen_pos.
  rewrite isEnough_ok, (proj2 (Z.leb_le _ _)) by lia. cbn [negb]. rewrite zlen_app in *. destruct (Z.ltb_spec (zlen local) (zlen local + zlen rest)) as [Hov|Hov].
  - assert (Hne : rest <> []) by (intros ->; rewrite zlen_nil in Hov; lia).
    assert (Ef : (match rest with [] => [] | _ => be4 first end) = be4 first) by (by destruct rest). rewrite Ef in *. rewrite zlen_be4 in *.
    rewrite seek_to_in, isEnough_ok, (proj2 (Z.leb_le _ _)) by lia. cbn [negb].
    eapply wp_bind_lift_res; [rewrite Hd, app_assoc, <- zlen_app; by apply get4_be4|].
    apply wp_bind, pv_malloc; [done|lia|]. intros [holder|] s1 Hs1 Ho1 He1 Hm; [|done].
    eapply wp_bind_lift_res; [rewrite Hd; by apply zread_n_app|].
    assert (Ew : zwrite_n holder 0 local = Done (local ++ drop (length local) holder)) by (apply (zwrite_n_behind [] holder); [done|lia]).
    eapply wp_bind_lift_res; [exact Ew|]. apply wp_bind.
    pose proof (wp_fill_overflow (p_number page) first ovs rest Hc (Z.to_nat (zlen local + zlen rest)) local (drop (length local) holder) ∅ s1) as W. rewrite zlen_app in W.
    apply W; [done|unfold zlen in *; rewrite length_drop; lia|unfold zlen in *; lia|by intros q _ ?%elem_of_empty|].
    intros s2 S2. rewrite !Z.eqb_refl. cbn [negb orb]. apply wp_ret, HQ, (same_pager_trans _ s1); done.
  - assert (rest = []) as -> by (apply zlen_0_inv; lia). rewrite app_nil_r in *. eapply wp_bind_lift_res; [|apply wp_ret, HQ; by split].
    rewrite Hd. apply subdata_at; [done..|lia|]. rewrite <- Hd. lia.
Qed.

Lemma wp_cell_initialize page pointer c s Q :
  pv_inv s -> good_cell (p_type page) c -> cell_stored pv_db (p_type page) (p_data page) pointer c -> Forall is_byte (p_data page) -> zlen (p_data page) < 2 ^ 31 ->
  (forall s', same_pager s s' -> Q (Some (cell_of page c)) s') -> wp (cell_initialize page pointer) Q s.
Proof.
  intros Hs Hg (pre & local & rest & first & post & Hd & Hp & Hpl & Hlocal & Hfirst & Hc) Hb Hdl HQ. pose proof Hg as (Hr & _).
  pose proof (payload_pos _ _ Hr) as Hn. fold (sc_payload c) in Hn. unfold cell_initialize. apply wp_bind, wp_parse, wp_bind.
  set (tail := local ++ _ ++ post) in Hd. rewrite Hd, <- Hp. rewrite Hd in Hb, Hdl. apply wp_cell_header; [done..| |].
  { rewrite !Forall_app in Hb. tauto. }
  intros s1 R. apply wp_bind_gets, wp_ret. cbn [fst snd]. assert (Ec : d_cursor s1 = zlen (pre ++ cell_head (p_type page) c)) by (by destruct R as [-> _]). rewrite Ec.
  rewrite Hpl. apply wp_bind. eapply (wp_cell_payload page (pre ++ cell_head (p_type page) c)); try done.
  - rewrite Hd. unfold tail. by rewrite <- app_assoc.
  - rewrite Hd. exact Hdl.
  - by rewrite <- Hpl.
  - by rewrite <- Hpl.
  - intros s2 S2. rewrite <- Hpl. eapply wp_bind_lift_res; [by apply parse_columns_ok|]. apply wp_ret. by apply HQ.
Qed.

(** ** Pages *)

Lemma split_slice {A} (l : list A) i n : 0 <= i -> 0 <= n -> i + n <= zlen l ->
  l = take (Z.to_nat i) l ++ slice i n l ++ drop (Z.to_nat (i + n)) l /\ zlen (take (Z.to_nat i) l) = i.
Proof.
  intros Hi Hn Hl. split; [|unfold zlen in *; rewrite length_take; lia]. unfold slice. rewrite Z2Nat.inj_add, <- drop_drop, take_drop, take_drop by lia. done.
Qed.

Lemma get_int_slice n off d : int_size n = true -> 0 <= off -> off + n <= zlen d -> Forall is_byte d -> be_val (slice off n d) < 2 ^ (8 * n - 1) ->
  get_int n d off = Done (be_val (slice off n d)).
Proof.
  intros Hn Ho Hl Hb Hv. assert (Hn8 : 1 <= n <= 8) by (unfold int_size in Hn; lia). destruct (split_slice d off n ltac:(lia) ltac:(lia) ltac:(lia)) as [E Ez].
  pose proof (get_int_ok n (slice off n d) (take (Z.to_nat off) d) (drop (Z.to_nat (off + n)) d) Hn ltac:(apply zlen_slice; lia) ltac:(by apply Forall_slice)) as G.
  rewrite <- E, Ez in G. rewrite G. f_equal. pose proof (be_val_nonneg (slice off n d) ltac:(by apply Forall_slice)). apply wrap_s_small; lia.
Qed.

Definition type_byte (t : PageType) : Z := match t with Unknown => 0 | InteriorIndex => 2 | InteriorTable => 5 | LeafIndex => 10 | LeafTable => 13 end.

(** A page of type [t] with cells at [pointers] and, for an inner page, the subpages [subs]: one for each cell, at its
    start, and the right-most one. *)
Definition page_stored (db : Database) (n : Z) (t : PageType) (data : list Z) (pointers subs : list Z) : Prop :=
  let h := getOffsetOfHeader n in
  (db_page db) n = Some data /\ t <> Unknown /\ data !! Z.to_nat h = Some (type_byte t)
  /\ be_val (slice (h + 3) 2 data) = zlen pointers /\ zlen pointers < 2 ^ 15
  /\ h + getOffsetOfCellPointer t + 2 * zlen pointers <= (db_size db)
  /\ (forall i p, pointers !! i = Some p -> be_val (slice (h + getOffsetOfCellPointer t + Z.of_nat i * 2) 2 data) = p /\ 0 <= p < 2 ^ 15)
  /\ if isInteriorPage t then
        Forall2 (fun p q => 0 <= p /\ p + 4 <= (db_size db) /\ be_val (slice p 4 data) = q /\ 1 <= q <= (db_count db) /\ q < 2 ^ 31) (pointers ++ [h + 8]) subs
      else subs = [].

Lemma cell_pointers_ok n t d ps : forall i,
  Forall is_byte d -> zlen d < 2 ^ 31 -> 0 <= i -> getOffsetOfHeader n + getOffsetOfCellPointer t + i * 2 + 2 * zlen ps <= zlen d ->
  (forall j p, ps !! j = Some p -> be_val (slice (getOffsetOfHeader n + getOffsetOfCellPointer t + (i + Z.of_nat j) * 2) 2 d) = p /\ 0 <= p < 2 ^ 15) ->
  cell_pointers (length ps) n t d i = Done (Some ps).
Proof.
  induction ps as [|p ps IH]; intros i Hb Hl Hi Hfit Hps; [done|]. cbn [cell_pointers length].
  assert (Ho : 0 <= getOffsetOfHeader n + getOffsetOfCellPointer t) by (unfold getOffsetOfHeader, getOffsetOfCellPointer; repeat case_match; lia).
  rewrite zlen_cons in Hfit. zlen_pos. rewrite isEnough_ok, (proj2 (Z.leb_le _ _)) by lia. cbn [negb].
  destruct (Hps 0%nat p eq_refl) as [Hp Hp2]. rewrite Z.add_0_r in Hp.
  pose proof (get_int_slice 2 (getOffsetOfHeader n + getOffsetOfCellPointer t + i * 2) d eq_refl ltac:(lia) ltac:(lia) Hb ltac:(rewrite Hp; cbn; lia)) as G.
  change (get_int 2) with get2BytesInt in G. rewrite G, Hp. cbn [res_bind]. rewrite (IH (i + 1)); [done..|lia|lia|]. intros j q Hj. specialize (Hps (S j) q Hj).
  replace (i + 1 + Z.of_nat j) with (i + Z.of_nat (S j)) by lia. done.
Qed.

Lemma subpagenos_ok d offs subs : Forall is_byte d -> zlen d = (db_size pv_db) ->
  Forall2 (fun p q => 0 <= p /\ p + 4 <= (db_size pv_db) /\ be_val (slice p 4 d) = q /\ 1 <= q <= (db_count pv_db) /\ q < 2 ^ 31) offs subs ->
  subpagenos (db_count pv_db) d offs = Done (Some subs).
Proof.
  intros Hb Hz H. pose proof pv_geometry as [Hg _]. induction H as [|p q offs subs (H1 & H2 & H3 & H4 & H5) _ IH]; [done|]. cbn [subpagenos].
  rewrite isEnough_ok, (proj2 (Z.leb_le _ _)) by lia. cbn [negb].
  pose proof (get_int_slice 4 p d eq_refl ltac:(lia) ltac:(lia) Hb ltac:(rewrite H3; cbn; lia)) as G. change (get_int 4) with get4BytesInt in G. rewrite G, H3. cbn [res_bind].
  rewrite (proj2 (Z.ltb_ge _ _)), (proj2 (Z.leb_gt _ _)) by lia. cbn [orb]. by rewrite IH.
Qed.

Lemma convert_type t : t <> Unknown -> convertToPageType (s8 (type_byte t)) = t /\ is_byte (type_byte t).
Proof. by destruct t. Qed.

Lemma wp_page_header {S} n t data k (Q : PageType * Z -> S -> Prop) (s : S) :
  t <> Unknown -> data !! Z.to_nat (getOffsetOfHeader n) = Some (type_byte t) -> Forall is_byte data -> 512 <= zlen data < 2 ^ 31 ->
  be_val (slice (getOffsetOfHeader n + 3) 2 data) = k -> k < 2 ^ 15 -> Q (t, k) s -> wp (parse (page_header n) data) Q s.
Proof.
  intros Ht Hbyte Hb Hz Hk Hk2 HQ. apply wp_parse. unfold page_header. set (h := getOffsetOfHeader n) in *.
  assert (Hh : 0 <= h <= 100) by (unfold h, getOffsetOfHeader; case_match; lia). apply wp_bind. unfold de_seek. apply wp_modify. cbn [d_data d_cursor d_version new_deserialization].
  rewrite seek_to_in by lia. apply wp_bind. unfold advance1ByteInt, advance_fixed. apply wp_bind_gets. cbn [d_data d_cursor].
  eapply wp_bind_lift_res; [unfold get1ByteInt, zread; rewrite (proj2 (Z.leb_le _ _)), Hbyte by lia; reflexivity|].
  apply wp_bind. unfold de_advance, de_seek. apply wp_bind_gets, wp_modify, wp_ret. cbn [d_data d_cursor d_version]. rewrite seek_to_in by lia.
  destruct (convert_type t Ht) as [-> _].
  assert (Hn : wp (let! _ := de_advance 2 in let! n := advance2BytesInt in ret (t, n)) (fun a _ => Q a s) (Deser data (h + 1) 0)).
  { apply wp_bind. unfold de_advance, de_seek. apply wp_bind_gets, wp_modify. cbn [d_data d_cursor d_version]. rewrite seek_to_in by lia.
    apply wp_bind. unfold advance2BytesInt, advance_fixed. apply wp_bind_gets. cbn [d_data d_cursor]. replace (h + 1 + 2) with (h + 3) by lia.
    pose proof (get_int_slice 2 (h + 3) data eq_refl ltac:(lia) ltac:(lia) Hb ltac:(rewrite Hk; cbn; lia)) as G. change (get_int 2) with get2BytesInt in G.
    eapply wp_bind_lift_res; [exact G|]. apply wp_bind. unfold de_advance, de_seek. apply wp_bind_gets, wp_modify, wp_ret, wp_ret. by rewrite Hk. }
  by destruct t.
Qed.

Lemma wp_page_initialize n t data pointers subs s Q :
  pv_inv s -> page_stored pv_db n t data pointers subs ->
  (forall s', same_pager s s' -> Q (Some (MkPage n t data pointers subs)) s') -> wp (page_initialize n) Q s.
Proof.
  intros Hs (Hp & Ht & Hbyte & Hcount & Hmax & Hfit & Hptr & Hsub) HQ. destruct (pv_page_data _ _ Hp) as (Hn & Hz & Hb). pose proof pv_geometry as [Hg _].
  destruct (pv_sizes s Hs) as (E1 & _ & _). unfold page_initialize. apply wp_bind_gets. rewrite E1. apply wp_bind, (wp_acquire_page _ _ _ _ Hs Hp). intros s1 S1. pose proof S1 as [Hs1 _].
  apply wp_nonempty; [lia|]. apply wp_bind, (wp_page_header n t data (zlen pointers)); [done..|lia|done|done|]. zlen_pos.
  destruct (pv_sizes s1 Hs1) as (_ & _ & E3).
  assert (Hrest : wp (if zlen pointers <? 0 then markPagerAsCorrupted n ;;; ret None
    else let! ps := lift_res (cell_pointers (Z.to_nat (zlen pointers)) n t data 0) in
      match ps with
      | None => markPagerAsCorrupted n ;;; ret None
      | Some ps =>
        if isInteriorPage t then
          let! count := gets pg_numberOfPages in
          let! sb := lift_res (subpagenos count data (ps ++ [8 + getOffsetOfHeader n])) in
          match sb with
          | None => markPagerAsCorrupted n ;;; ret None
          | Some sb => ret (Some (MkPage n t data ps sb))
          end
        else ret (Some (MkPage n t data ps []))
      end) Q s1).
  { rewrite (proj2 (Z.ltb_ge _ _)) by lia. rewrite to_nat_zlen.
    eapply wp_bind_lift_res; [apply cell_pointers_ok; [done|lia..|intros j q Hj; rewrite Z.add_0_l; by apply Hptr]|].
    destruct (isInteriorPage t).
    - apply wp_bind_gets. rewrite E3. replace (8 + getOffsetOfHeader n) with (getOffsetOfHeader n + 8) by lia.
      eapply wp_bind_lift_res; [by apply subpagenos_ok|]. by apply wp_ret, HQ.
    - subst subs. by apply wp_ret, HQ. }
  by destruct t.
Qed.
End view.
