(* ===== verification/Crawl.v ===== *)
(** * Crawlers (repair/basic/Crawlable.cpp, crawl/MasterCrawler.cpp, SequenceCrawler.cpp)

    A crawler walks a B-tree of the database from its root, page by page and cell by cell, and calls
    back its client.  The walk is [Crawlable::safeCrawl]; what a client overrides are the
    operations of the class [Crawlable]. *)

From stdpp Require Import gmap.
From S2P Require Import Prelude CLib Serial MappedFile WalLog PageParse.

(** ** What a client overrides *)

(** [m_suspend] is set by other threads at any time, so that reading it is an operation. *)
Class Crawlable (St : Type) `{P : PagerOps St} := {
  cr_suspended : cm St bool;
  cr_isIndex : St -> bool;
  cr_setIsIndex : bool -> St -> St;
  canCrawlPage : Z -> cm St bool;
  willCrawlPage : Page -> Z -> cm St bool;
  onCellCrawled : Cell -> cm St unit;
  onCrawlerError : cm St unit
}.

Section crawl.
Context {St : Type} `{P : PagerOps St} `{C : !Crawlable St}.

(** [getError().isOK()]: [Threaded] is the last error of the thread, which is OK as long as no request of it has failed. *)
Definition pg_isOK (s : St) : bool := match pg_error s with NoError => true | Threaded => pg_threadOK s | _ => false end.

Definition markAsError : cm St unit := onCrawlerError.
Definition markAsCorrupted (page : Z) : cm St unit := pg_setError (Corrupt page) ;;; markAsError.
Definition markAsInterrupted : cm St unit := pg_setError Interrupted ;;; markAsError.

(** ** The walk *)

Section loops.
Variable safeCrawl : Z -> gset Z -> Z -> cm St (gset Z).

(** The subpages of an interior page of a table. *)
Fixpoint crawl_subpages (subs : list Z) (visited : gset Z) (height : Z) : cm St (gset Z) :=
  match subs with
  | [] => ret visited
  | pageno :: subs =>
    let! stop := cr_suspended in
    if (stop : bool) then ret visited
    else let! visited := safeCrawl pageno visited height in crawl_subpages subs visited height
  end.

(** The cells of an interior page of an index, each behind its left child; [true] if all were seen. *)
Fixpoint crawl_index_cells (page : Page) (pointers : list Z) (visited : gset Z) (height : Z) : cm St (bool * gset Z) :=
  match pointers with
  | [] => ret (true, visited)
  | pointer :: pointers =>
    let! stop := cr_suspended in
    if (stop : bool) then ret (false, visited)
    else
      let! cell := cell_initialize page pointer in
      let! visited :=
        (match cell with
         | Some cell => let! visited := safeCrawl (s32 (c_leftChild cell)) visited height in onCellCrawled cell ;;; ret visited
         | None => markAsError ;;; ret visited
         end) in
      crawl_index_cells page pointers visited height
  end.

(** The cells of a leaf. *)
Fixpoint crawl_cells (page : Page) (pointers : list Z) : cm St unit :=
  match pointers with
  | [] => ret tt
  | pointer :: pointers =>
    let! stop := cr_suspended in
    if (stop : bool) then ret tt
    else
      let! cell := cell_initialize page pointer in
      (match cell with Some cell => onCellCrawled cell | None => markAsError end) ;;;
      crawl_cells page pointers
  end.

(** A page that has been entered, by its type. *)
Definition crawl_page (page : Page) (visited : gset Z) (height : Z) : cm St (gset Z) :=
  match p_type page with
  | InteriorTable => crawl_subpages (p_subpagenos page) visited (height + 1)
  | InteriorIndex =>
    let! (all, visited) := crawl_index_cells page (p_cellPointers page) visited (height + 1) in
    if (all : bool) then
      let! rightMost := lift_res (zread (p_subpagenos page) (zlen (p_subpagenos page) - 1)) in
      safeCrawl rightMost visited (height + 1)
    else ret visited
  | LeafTable | LeafIndex => crawl_cells page (p_cellPointers page) ;;; ret visited
  | Unknown => markAsCorrupted (p_number page) ;;; ret visited
  end.
End loops.

(** [safeCrawl(rootpageno, crawledInteriorPages, height)]; the set is returned.  [fuel] bounds the depth of the recursion. *)
Fixpoint safeCrawl (fuel : nat) (rootpageno : Z) (visited : gset Z) (height : Z) : cm St (gset Z) :=
  match fuel with
  | O => fail OutOfFuel
  | S fuel =>
    let! stop := cr_suspended in
    let! can := (if (stop : bool) then ret false else canCrawlPage (u32 rootpageno)) in
    if negb can then ret visited
    else
      let! rootpage := page_initialize rootpageno in
      match rootpage with
      | None => markAsError ;;; ret visited
      | Some rootpage =>
        let! matched := (if height =? 1 then modify (cr_setIsIndex (isIndexPage (p_type rootpage))) ;;; ret true
                         else let! index := gets cr_isIndex in ret (Bool.eqb index (isIndexPage (p_type rootpage)))) in
        if negb matched then markAsCorrupted rootpageno ;;; ret visited
        else
          let! enter := willCrawlPage rootpage height in
          if negb enter then ret visited
          else if bool_decide (rootpageno ∈ visited) then markAsCorrupted rootpageno ;;; ret visited
          else crawl_page (safeCrawl fuel) rootpage ({[rootpageno]} ∪ visited) height
      end
  end.

(** [crawl(rootpageno)]: whether the pager has no error at the end.  No page is entered twice, so that the depth is at
    most the number of pages and one more. *)
Definition crawl (rootpageno : Z) : cm St bool :=
  let! count := gets pg_numberOfPages in
  safeCrawl (S (Z.to_nat count)) rootpageno ∅ 1 ;;;
  gets pg_isOK.
End crawl.

(** ** The flags of a crawler *)

(** [m_suspend] and [m_isCrawlingIndexTable].  Other threads suspend a crawler by [cf_requests], an answer for each time it looks. *)
Record CrawlerFlags := MkFlags { cf_suspend : bool; cf_isIndex : bool; cf_requests : list bool }.

Definition new_flags (requests : list bool) : CrawlerFlags := MkFlags false false requests.

(** Another thread may have called [suspend]. *)
Definition flags_poll (f : CrawlerFlags) : CrawlerFlags :=
  MkFlags (cf_suspend f || default false (head (cf_requests f))) (cf_isIndex f) (tail (cf_requests f)).

(** The flags of one crawler in a state with several. *)
Class FlagsOf (St : Type) := { fl_get : St -> CrawlerFlags; fl_put : CrawlerFlags -> St -> St }.

Definition poll_suspended {St} (F : FlagsOf St) : cm St bool :=
  modify (fun s => fl_put (flags_poll (fl_get s)) s) ;;; gets (fun s => cf_suspend (fl_get s)).
Definition suspend {St} (F : FlagsOf St) : cm St unit :=
  modify (fun s => fl_put (MkFlags true (cf_isIndex (fl_get s)) (cf_requests (fl_get s))) s).
Definition set_isIndex {St} (F : FlagsOf St) (b : bool) (s : St) : St :=
  fl_put (MkFlags (cf_suspend (fl_get s)) b (cf_requests (fl_get s))) s.

(** ** The crawler of the master table *)

Record MasterItem := MkMasterItem {
  mi_type : list Z;
  mi_name : list Z;
  mi_tableName : list Z;
  mi_sql : list Z;
  mi_rootpage : Z
}.

(** [isReservedTableName]: the names start with "sqlite_". *)
Definition isReservedTableName (name : list Z) : bool := bool_decide (take 7 name = [115; 113; 108; 105; 116; 101; 95]).

(** A text column, or the empty string it was initialized with. *)
Definition text_or_empty (cell : Cell) (index : Z) : res (list Z) :=
  let? t := getValueType cell index in
  if decide (t = CText) then stringValue cell index else Done [].

(** The delegate of a master crawler. *)
Class MasterCrawlerDelegate (St : Type) := {
  onMasterPageCrawled : Page -> cm St unit;
  onMasterCellCrawled : Cell -> MasterItem -> cm St unit;
  onMasterCrawlerError : cm St unit
}.

(** The root page of an item, [None] if it is not positive. *)
Definition master_rootpage (cell : Cell) : res (option Z) :=
  let? t := getValueType cell 3 in
  if decide (t = CInteger) then
    let? v := integerValue cell 3 in
    Done (if s32 v <=? 0 then None else Some (s32 v))
  else Done (Some 0).

Section master.
Context {St : Type} `{P : PagerOps St} `{D : !MasterCrawlerDelegate St}.

(** [MasterCrawler::onCellCrawled] *)
Definition master_onCellCrawled (cell : Cell) : cm St unit :=
  let! type := lift_res (text_or_empty cell 0) in
  let! name := lift_res (text_or_empty cell 1) in
  let! tableName := lift_res (text_or_empty cell 2) in
  let! rootpage := lift_res (master_rootpage cell) in
  match rootpage with
  | None => pg_setError (Corrupt (p_number (c_page cell))) ;;; onMasterCrawlerError
  | Some rootpage =>
    let! sql := lift_res (text_or_empty cell 4) in
    onMasterCellCrawled cell (MkMasterItem type name tableName sql rootpage)
  end.

Definition MasterCrawler (F : FlagsOf St) : Crawlable St := {|
  cr_suspended := poll_suspended F;
  cr_isIndex s := cf_isIndex (fl_get s);
  cr_setIsIndex := set_isIndex F;
  canCrawlPage _ := ret true;
  willCrawlPage page _ := onMasterPageCrawled page ;;; ret true;
  onCellCrawled := master_onCellCrawled;
  onCrawlerError := onMasterCrawlerError
|}.

(** [MasterCrawler::work] *)
Definition master_work (F : FlagsOf St) : cm St bool := crawl (C := MasterCrawler F) 1.
End master.

(** ** The crawler of the sequence table *)

Record SequenceItem := MkSequenceItem { si_name : list Z; si_seq : Z }.

(** The delegate of a sequence crawler. *)
Class SequenceCrawlerDelegate (St : Type) := {
  onSequencePageCrawled : Page -> cm St unit;
  onSequenceCellCrawled : Cell -> SequenceItem -> cm St unit;
  onSequenceCrawlerError : cm St unit
}.

Section sequence.
Context {St : Type} `{P : PagerOps St} `{D : !SequenceCrawlerDelegate St}.

Definition sequence_onCrawlerError (F : FlagsOf St) : cm St unit := onSequenceCrawlerError ;;; suspend F.

(** [SequenceCrawler::onCellCrawled] *)
Definition sequence_onCellCrawled (F : FlagsOf St) (cell : Cell) : cm St unit :=
  let corrupted := pg_setError (Corrupt (p_number (c_page cell))) ;;; sequence_onCrawlerError F in
  let! t0 := lift_res (getValueType cell 0) in
  if negb (bool_decide (t0 = CText)) then corrupted
  else
    let! t1 := lift_res (getValueType cell 1) in
    if negb (bool_decide (t1 = CInteger)) then corrupted
    else
      let! name := lift_res (stringValue cell 0) in
      match name with
      | [] => corrupted
      | _ =>
        let! seq := lift_res (integerValue cell 1) in
        onSequenceCellCrawled cell (MkSequenceItem name seq)
      end.

Definition SequenceCrawler (F : FlagsOf St) : Crawlable St := {|
  cr_suspended := poll_suspended F;
  cr_isIndex s := cf_isIndex (fl_get s);
  cr_setIsIndex := set_isIndex F;
  canCrawlPage _ := ret true;
  willCrawlPage page _ := onSequencePageCrawled page ;;; ret true;
  onCellCrawled := sequence_onCellCrawled F;
  onCrawlerError := sequence_onCrawlerError F
|}.

(** [SequenceCrawler::work] *)
Definition sequence_work (F : FlagsOf St) (rootpage : Z) : cm St bool := crawl (C := SequenceCrawler F) rootpage.
End sequence.
