(* ===== verification/CrawlTree.v ===== *)
(** * Crawlers: they end

    A crawler reaches the end of any database: whatever the pages hold, in whatever circle they
    refer to each other, and whichever requests the pager refuses, the recursion is at most one deeper than
    the database has pages. *)

From stdpp Require Import gmap fin_sets.
From S2P Require Import Prelude CLib Values ValuesFacts Pager PagerFacts Btree BtreeFacts Serial SerialFacts MappedFile WalLog PageParse PageFacts.
From S2P Require Import Crawl.

(** ** Computations that do not run out of turns

    On damaged pages they may access memory outside a page or overflow an int, and nothing else. *)

Definition other_fault (f : fault) : Prop := f = OutOfBounds \/ f = IntOverflow.

(** Such a computation on its own. *)
Definition finishes {A} (r : res A) : Prop := match r with Stuck f => other_fault f | Done _ => True end.

Create HintDb finishes.

Ltac ends := first [done|by left|by right].

Lemma finishes_done {A} (a : A) : finishes (Done a).
Proof. done. Qed.
Lemma finishes_bind {A B} (r : res A) (k : A -> res B) : finishes r -> (forall a, r = Done a -> finishes (k a)) -> finishes (res_bind r k).
Proof. destruct r as [a|f]; cbn; auto. Qed.
Lemma finishes_zread {A} (l : list A) i : finishes (zread l i).
Proof. unfold zread. repeat case_match; ends. Qed.
Lemma finishes_zread_n {A} (l : list A) i n : finishes (zread_n l i n).
Proof. unfold zread_n. case_match; ends. Qed.
Lemma finishes_zwrite_n {A} (l xs : list A) i : finishes (zwrite_n l i xs).
Proof. unfold zwrite_n. case_match; ends. Qed.
Lemma finishes_chk_int z : finishes (chk_int z).
Proof. unfold chk_int. case_match; ends. Qed.
#[export] Hint Resolve finishes_done finishes_zread finishes_zread_n finishes_zwrite_n finishes_chk_int : finishes.

Ltac finish :=
  repeat first
    [ progress eauto with finishes
    | apply finishes_bind; [|intros ? _]
    | lazymatch goal with |- finishes (if ?b then _ else _) => destruct b | |- finishes (let (_, _) := ?p in _) => destruct p end ].

Lemma finishes_get1 d i : finishes (get1ByteInt d i).
Proof. unfold get1ByteInt. finish. Qed.
Lemma finishes_get2 d i : finishes (get2BytesInt d i).
Proof. unfold get2BytesInt. finish. Qed.
Lemma finishes_get4 d i : finishes (get4BytesInt d i).
Proof. unfold get4BytesInt. finish. Qed.
Lemma finishes_getVarint d i : finishes (getVarint d i).
Proof. unfold getVarint. finish. Qed.
Lemma finishes_subdata d i n : finishes (subdata d i n).
Proof. unfold subdata. finish. Qed.
Lemma finishes_length t : finishes (getLengthOfSerialType t).
Proof. unfold getLengthOfSerialType. finish. Qed.
#[export] Hint Resolve finishes_get1 finishes_get2 finishes_get4 finishes_getVarint finishes_subdata finishes_length : finishes.

Lemma pwp_finishes {S A} (r : res A) (Q : A -> S -> Prop) s : finishes r -> (forall a, r = Done a -> Q a s) -> pwp other_fault (lift_res r) Q s.
Proof. unfold pwp, lift_res. destruct r as [a|f]; auto. Qed.
Lemma pwp_parse {S A} E (c : cm Deserialization A) d (Q : A -> S -> Prop) s :
  pwp E c (fun a _ => Q a s) (new_deserialization d) -> pwp E (parse c d) Q s.
Proof. unfold pwp, parse, lift_res. by destruct (c (new_deserialization d)) as [[a s']|f]. Qed.

Lemma pwp_advance_fixed {A} (get : list Z -> Z -> res A) n s Q :
  (forall d i, finishes (get d i)) -> (forall v s', get (d_data s) (d_cursor s) = Done v -> d_data s' = d_data s -> Q v s') -> pwp other_fault (advance_fixed get n) Q s.
Proof.
  intros Hf HQ. unfold advance_fixed. apply pwp_bind_gets, pwp_bind, pwp_finishes; [done|]. intros v Hv. apply pwp_bind. unfold de_advance, de_seek. apply pwp_bind_gets, pwp_modify, pwp_ret. by apply HQ.
Qed.

(** ** Cells *)

(** A varint that is read has bytes, and they are there. *)
Definition varint_fits (d : list Z) (i : Z) (r : res (Z * Z)) : Prop :=
  match r with Done (n, _) => n <> 0 -> 1 <= n /\ i + n <= zlen d | Stuck _ => True end.

Lemma getVarint_fits d i : 0 <= i <= zlen d -> zlen d < 2 ^ 62 -> varint_fits d i (getVarint d i).
Proof.
  intros Hi Hd. assert (Henough : forall k, 0 <= k <= 9 -> isEnough d (i + k) = true -> i + k <= zlen d) by (intros k Hk; unfold isEnough, u64; rewrite Z.mod_small; lia).
  assert (Hbind : forall A (r : res A) k, (forall a, varint_fits d i (k a)) -> varint_fits d i (res_bind r k)) by (by intros A [a|f] k Hk; cbn).
  assert (Hif : forall k r, 0 <= k <= 9 -> (i + k <= zlen d -> varint_fits d i r) -> varint_fits d i (if negb (isEnough d (i + k)) then Done (0, 0) else r)).
  { intros k r Hk Hr. destruct (isEnough d (i + k)) eqn:E; cbn; [by apply Hr, Henough|lia]. }
  unfold getVarint. cbn zeta.
  repeat first [ apply Hif; [lia|intros ?] | apply Hbind; intros ? | match goal with |- varint_fits _ _ (if ?b then _ else _) => destruct b end ]; cbn; lia.
Qed.

(** The loop over the types of columns ends. *)
Lemma finishes_serial_types payload ends endv : zlen payload < 2 ^ 62 -> forall fuel c v,
  0 <= c <= zlen payload -> zlen payload - c < Z.of_nat fuel -> finishes (serial_types fuel payload c v ends endv).
Proof.
  intros Hl fuel. induction fuel as [|fuel IH]; intros c v Hc Hf; [lia|]. cbn [serial_types]. destruct (negb (c <? ends)); [finish|].
  rewrite seek_to_in by done. pose proof (getVarint_fits payload c Hc Hl) as Hn. apply finishes_bind; [finish|intros [n w] E]. rewrite E in Hn. cbn in Hn.
  destruct (Z.eqb_spec n 0) as [->|Hn0]; [done|]. specialize (Hn Hn0). destruct (negb _); [done|].
  apply finishes_bind; [finish|intros len _]. apply finishes_bind; [finish|intros next _]. destruct (endv <? next); [done|].
  apply finishes_bind; [apply IH; lia|intros; finish].
Qed.

Lemma finishes_parse_columns payload n : zlen payload < 2 ^ 62 -> finishes (parse_columns payload n).
Proof.
  intros Hl. unfold parse_columns. zlen_pos. pose proof (getVarint_fits payload 0 ltac:(lia) Hl) as Hn. apply finishes_bind; [finish|intros [k w] E]. rewrite E in Hn. cbn in Hn.
  destruct (Z.eqb_spec k 0) as [->|Hk]; [done|]. specialize (Hn Hk). apply finishes_serial_types; unfold zlen in *; lia.
Qed.

Section any.
Context {St : Type} `{P : PagerOps St} `{V : !PagerView St}.

(** A computation that keeps the pager, whatever it does to the client. *)
Definition keeps {A} (c : cm St A) : Prop := forall s, pv_inv s -> pwp other_fault c (fun _ s' => pv_inv s') s.

Lemma pwp_keeps {A} (c : cm St A) s (Q : A -> St -> Prop) : keeps c -> pv_inv s -> (forall a s', pv_inv s' -> Q a s') -> pwp other_fault c Q s.
Proof. intros Hc Hs HQ. eapply pwp_mono; [by apply Hc|]. intros a s'. apply HQ. Qed.

Lemma keeps_setError e : keeps (pg_setError e).
Proof. intros s Hs. apply wp_pwp, pv_setError; [done|]. by intros. Qed.

Lemma pwp_acquire n off size s (Q : list Z -> St -> Prop) : pv_inv s -> 1 <= n -> 0 <= off -> 0 < size -> off + size <= (db_size pv_db) ->
  (forall r s', pv_inv s' -> r = [] \/ (n <= (db_count pv_db) /\ zlen r = size) -> Q r s') -> pwp other_fault (pg_acquire n off size) Q s.
Proof.
  intros Hs Hn Ho Hsz Hfit HQ. apply wp_pwp, pv_acquire; [done..|]. intros r s' Hs' _ [-> | (p & Hp & ->)] _; apply HQ; [done|by left|done|].
  right. destruct (pv_page_data n p Hp) as (H1 & H2 & _). split; [lia|]. apply zlen_slice; lia.
Qed.

Lemma zwrite_n_zlen {A} (l xs l' : list A) i : zwrite_n l i xs = Done l' -> zlen l' = zlen l.
Proof.
  unfold zwrite_n, in_range. case_match eqn:E; [|done]. intros [= <-]. unfold zlen in *. rewrite !length_app, length_take, length_drop. lia.
Qed.

(** Overflow pages, however they are chained. *)
Lemma pwp_fill_overflow page size : forall fuel n cursor seen holder s (Q : option (list Z * Z * Z) -> St -> Prop),
  pv_inv s -> size - cursor <= Z.of_nat fuel ->
  (forall r s', pv_inv s' -> (match r with Some (h, _, _) => zlen h = zlen holder | None => True end) -> Q r s') ->
  pwp other_fault (fill_overflow fuel page n cursor size seen holder) Q s.
Proof.
  induction fuel as [|fuel IH]; intros n cursor seen holder s Q Hs Hf HQ; cbn [fill_overflow].
  all: destruct ((0 <? n) && (cursor <? size)) eqn:E; cbn [negb]; [apply andb_true_iff in E as [En%Z.ltb_lt Ec%Z.ltb_lt]|by apply pwp_ret, HQ].
  { lia. }
  assert (Hnone : pwp other_fault (markPagerAsCorrupted page ;;; ret None) Q s).
  { apply pwp_bind, pwp_keeps; [apply keeps_setError|done|]. intros _ s' Hs'. by apply pwp_ret, HQ. }
  case_match; [done|]. destruct (pv_sizes s Hs) as (E1 & E2 & E3). pose proof pv_geometry as [Hg1 Hg2]. apply pwp_bind_gets. rewrite E3. case_match; [done|].
  apply pwp_bind_gets. rewrite E1. apply pwp_bind, pwp_acquire; [done|lia..|]. intros r s1 Hs1 [-> | [_ Hr]]; [by apply pwp_ret, HQ|].
  destruct r as [|b r]; [by apply pwp_ret, HQ|]. destruct (pv_sizes s1 Hs1) as (F1 & F2 & F3). apply pwp_bind_gets. rewrite F2.
  apply pwp_bind, pwp_finishes; [finish|]. intros bytes _. apply pwp_bind, pwp_finishes; [finish|]. intros h Hh. apply zwrite_n_zlen in Hh.
  apply pwp_bind, pwp_parse, pwp_advance_fixed; [intros; finish|]. intros next _ _ _. apply IH; [done|lia|]. intros [[[h' n'] c']|] s2 Hs2 Hz; apply HQ; [done|congruence|done..].
Qed.

Lemma local_nonneg t size : getMaxLocal t (db_usable pv_db) <= size -> 0 <= localPayloadSize_of t (db_usable pv_db) size.
Proof.
  intros H. pose proof pv_geometry as [Hg1 Hg2]. assert (Hu : 256 <= (db_usable pv_db) <= 65536) by lia. destruct (local_ranges t (db_usable pv_db) Hu) as (H1 & _).
  assert (Emax : getMaxLocal t (db_usable pv_db) = max_local t (db_usable pv_db)) by (unfold getMaxLocal, max_local; destruct t; rewrite ?Z.quot_div_nonneg by lia; done).
  rewrite localPayloadSize_ok by lia. pose proof (local_part_range t (db_usable pv_db) size Hu ltac:(lia)). lia.
Qed.

Lemma pwp_cell_payload page cursor size off s (Q : option (list Z) -> St -> Prop) :
  pv_inv s -> zlen (p_data page) < 2 ^ 31 -> size < 2 ^ 31 ->
  (forall r s', pv_inv s' -> (match r with Some p => zlen p < 2 ^ 62 | None => True end) -> Q r s') ->
  pwp other_fault (cell_payload page cursor size off) Q s.
Proof.
  intros Hs Hd Hsz HQ. destruct (pv_sizes s Hs) as (E1 & E2 & E3). unfold cell_payload. apply pwp_bind_gets. rewrite E2. cbn zeta. set (local := localPayloadSize_of _ _ _).
  assert (Hnone : forall e s, pv_inv s -> pwp other_fault (pg_setError e ;;; ret None) Q s).
  { intros e s' Hs'. apply pwp_bind, pwp_keeps; [apply keeps_setError|done|]. intros _ s2 Hs2. by apply pwp_ret, HQ. }
  case_match; [by apply Hnone|]. destruct (Z.ltb_spec local size) as [Hl|Hl].
  - assert (Hlocal : 0 <= local).
    { apply local_nonneg. unfold local, localPayloadSize_of in Hl. destruct (Z.ltb_spec size (getMaxLocal (p_type page) (db_usable pv_db))); lia. }
    case_match; [by apply Hnone|]. apply pwp_bind, pwp_finishes; [finish|]. intros no _. apply pwp_bind, wp_pwp, pv_malloc; [done|lia|].
    intros [holder|] s1 Hs1 _ _ Hm; [|by apply Hnone]. apply pwp_bind, pwp_finishes; [finish|]. intros b _. apply pwp_bind, pwp_finishes; [finish|]. intros h Hh.
    apply zwrite_n_zlen in Hh. apply pwp_bind, pwp_fill_overflow; [done|lia|]. intros [[[h' n'] c']|] s2 Hs2 Hz; [|by apply pwp_ret, HQ].
    case_match; [by apply Hnone|]. apply pwp_ret, HQ; [done|lia].
  - apply pwp_bind, pwp_finishes; [finish|]. intros p Hp. apply pwp_ret, HQ; [done|]. unfold subdata in Hp.
    repeat case_match; try (injection Hp as <-; rewrite zlen_nil; lia). unfold zread_n in Hp. case_match; [|done]. injection Hp as <-.
    unfold slice, zlen in *. rewrite length_take, length_drop. lia.
Qed.

(** The numbers before the payload; the left child is the one at the pointer. *)
Definition header_any (t : PageType) (d : list Z) (pointer : Z) (r : option (Z * Z * Z * Z)) : Prop :=
  match r with
  | Some (child, size, _, _) => size < 2 ^ 31 /\ (isLeafPage t = false -> exists v, get4BytesInt d (seek_to (zlen d) pointer) = Done v /\ child = u32 v)
  | None => True
  end.

Lemma s32_below v : s32 v < 2 ^ 31.
Proof. unfold s32, wrap_s. pose proof (Z.mod_pos_bound (v + 2 ^ (32 - 1)) (2 ^ 32) ltac:(lia)). lia. Qed.

Lemma pwp_any_varint s (Q : Z * Z -> Deserialization -> Prop) : (forall r s', Q r s') -> pwp other_fault advanceVarint Q s.
Proof.
  intros HQ. unfold advanceVarint, advance_sized. apply pwp_bind_gets, pwp_bind, pwp_finishes; [finish|]. intros r _. apply pwp_bind.
  case_match; [unfold de_advance, de_seek; apply pwp_bind_gets, pwp_modify|apply pwp_ret]; by apply pwp_ret, HQ.
Qed.

Lemma pwp_cell_header t pointer d (Q : option (Z * Z * Z * Z) -> Deserialization -> Prop) :
  (forall r s, header_any t d pointer r -> Q r s) -> pwp other_fault (cell_header t pointer) Q (new_deserialization d).
Proof.
  intros HQ. unfold cell_header. apply pwp_bind. unfold de_seek. apply pwp_modify. cbn [d_data d_cursor d_version new_deserialization]. apply pwp_bind_gets.
  case_match; [by apply pwp_ret, HQ|]. apply pwp_bind.
  assert (Hrest : forall child s, (isLeafPage t = false -> exists v, get4BytesInt d (seek_to (zlen d) pointer) = Done v /\ child = v) ->
    pwp other_fault (let offsetOfPayload := pointer + (if negb (isLeafPage t) then 4 else 0) in
      let! (n, size) := advanceVarint in
      if n =? 0 then ret None
      else let offsetOfPayload := offsetOfPayload + n in
        if isTablePage t then
          let! (k, rowid) := advanceVarint in
          if k =? 0 then ret None else ret (Some (u32 child, s32 size, s64 rowid, offsetOfPayload + k))
        else ret (Some (u32 child, s32 size, 0, offsetOfPayload))) Q s).
  { intros child s Hc. cbn zeta. apply pwp_bind, pwp_any_varint. intros [n size] s1. case_match; [by apply pwp_ret, HQ|].
    assert (Hok : forall row off, header_any t d pointer (Some (u32 child, s32 size, row, off))).
    { intros row off. split; [apply s32_below|]. intros Hl. destruct (Hc Hl) as (v & Hv & ->). by exists v. }
    case_match; [|by apply pwp_ret, HQ]. apply pwp_bind, pwp_any_varint. intros [k row] s2. case_match; by apply pwp_ret, HQ. }
  destruct (isLeafPage t); cbn [negb] in *; [by apply pwp_ret, Hrest|]. apply pwp_advance_fixed; [intros; finish|]. intros v s' Hv _. apply Hrest. intros _. by exists v.
Qed.

Lemma pwp_cell_initialize page pointer s (Q : option Cell -> St -> Prop) :
  pv_inv s -> zlen (p_data page) < 2 ^ 31 ->
  (forall r s', pv_inv s' -> (match r with
     | Some c => isLeafPage (p_type page) = false -> exists v, get4BytesInt (p_data page) (seek_to (zlen (p_data page)) pointer) = Done v /\ c_leftChild c = u32 v
     | None => True end) -> Q r s') ->
  pwp other_fault (cell_initialize page pointer) Q s.
Proof.
  intros Hs Hd HQ. unfold cell_initialize. apply pwp_bind, pwp_parse, pwp_bind, pwp_cell_header. intros h s1 Hh. apply pwp_bind_gets, pwp_ret.
  assert (Hnone : forall s, pv_inv s -> pwp other_fault (markPagerAsCorrupted (p_number page) ;;; ret None) Q s).
  { intros s' Hs'. apply pwp_bind, pwp_keeps; [apply keeps_setError|done|]. intros _ s2 Hs2. by apply pwp_ret, HQ. }
  destruct h as [[[[child size] rowid] off]|]; [|by apply Hnone]. destruct Hh as [Hsz Hc].
  apply pwp_bind, pwp_cell_payload; [done..|]. intros [payload|] s2 Hs2 Hp; [|by apply pwp_ret, HQ].
  apply pwp_bind, pwp_finishes; [by apply finishes_parse_columns|]. intros [cols|] _; [|by apply Hnone]. by apply pwp_ret, HQ.
Qed.

(** ** Pages *)

Definition in_database (n : Z) : Prop := 1 <= n <= (db_count pv_db).

(** A page that was initialized: the pages it names are pages of the database. *)
Definition page_any (n : Z) (p : Page) : Prop :=
  p_number p = n /\ in_database n /\ zlen (p_data p) < 2 ^ 31 /\ Forall in_database (p_subpagenos p)
  /\ (isInteriorPage (p_type p) = true -> p_subpagenos p <> [] /\ Forall (fun i => exists v, get4BytesInt (p_data p) i = Done v /\ in_database v) (p_cellPointers p)).

Lemma finishes_cell_pointers n number t d i : finishes (cell_pointers n number t d i).
Proof. revert i. induction n as [|n IH]; intros i; cbn [cell_pointers]; finish. Qed.

Lemma subpagenos_any d offs : finishes (subpagenos (db_count pv_db) d offs) /\
  forall subs, subpagenos (db_count pv_db) d offs = Done (Some subs) ->
    length subs = length offs /\ Forall in_database subs /\ Forall (fun i => exists v, get4BytesInt d i = Done v /\ in_database v) offs.
Proof.
  induction offs as [|i offs [IHf IH]]; cbn [subpagenos].
  { split; [done|]. by intros subs [= <-]. }
  split; [finish|]. destruct (negb _); [done|]. pose proof (finishes_get4 d i). destruct (get4BytesInt d i) as [v|f] eqn:Ev; cbn [res_bind]; [|done].
  case_match eqn:Er; [done|]. apply orb_false_iff in Er as [E1%Z.ltb_ge E2%Z.leb_gt]. destruct (subpagenos (db_count pv_db) d offs) as [[l|]|f] eqn:El; cbn [res_bind option_map]; [|done..].
  intros subs [= <-]. destruct (IH l eq_refl) as (H1 & H2 & H3). assert (in_database v) by (unfold in_database; lia). split_and!; [cbn; congruence|by constructor|]. constructor; [by exists v|done].
Qed.

Lemma pwp_page_header n d (Q : PageType * Z -> Deserialization -> Prop) : (forall r s', Q r s') -> pwp other_fault (page_header n) Q (new_deserialization d).
Proof.
  intros HQ. unfold page_header. apply pwp_bind. unfold de_seek. apply pwp_modify, pwp_bind, pwp_advance_fixed; [intros; finish|]. intros v s _ _.
  assert (Hrest : forall t, pwp other_fault (de_advance 2 ;;; let! n := advance2BytesInt in ret (t, n)) Q s).
  { intros t. apply pwp_bind. unfold de_advance, de_seek. apply pwp_bind_gets, pwp_modify, pwp_bind, pwp_advance_fixed; [intros; finish|]. intros; by apply pwp_ret. }
  case_match; [by apply pwp_ret|apply Hrest..].
Qed.

Lemma pwp_page_initialize n s (Q : option Page -> St -> Prop) :
  pv_inv s -> 1 <= n -> (forall r s', pv_inv s' -> (match r with Some p => page_any n p | None => True end) -> Q r s') -> pwp other_fault (page_initialize n) Q s.
Proof.
  intros Hs Hn HQ. destruct (pv_sizes s Hs) as (E1 & E2 & E3). pose proof pv_geometry as [Hg1 Hg2]. unfold page_initialize. apply pwp_bind_gets. rewrite E1.
  assert (Hnone : forall s, pv_inv s -> pwp other_fault (markPagerAsCorrupted n ;;; ret None) Q s).
  { intros s' Hs'. apply pwp_bind, pwp_keeps; [apply keeps_setError|done|]. intros _ s2 Hs2. by apply pwp_ret, HQ. }
  apply pwp_bind, pwp_acquire; [done|lia..|]. intros r s1 Hs1 [-> | [Hc Hr]]; [by apply pwp_ret, HQ|]. destruct r as [|b r]; [by apply pwp_ret, HQ|].
  set (d := b :: r) in *. clearbody d. apply pwp_bind, pwp_parse, pwp_page_header. intros [t k] _.
  assert (Hbase : in_database n /\ zlen d < 2 ^ 31) by (unfold in_database; lia). destruct Hbase as [Hb1 Hb2].
  assert (Hrest : pwp other_fault (if k <? 0 then markPagerAsCorrupted n ;;; ret None
    else let! ps := lift_res (cell_pointers (Z.to_nat k) n t d 0) in
      match ps with
      | None => markPagerAsCorrupted n ;;; ret None
      | Some ps =>
        if isInteriorPage t then
          let! count := gets pg_numberOfPages in
          let! sb := lift_res (subpagenos count d (ps ++ [8 + getOffsetOfHeader n])) in
          match sb with
          | None => markPagerAsCorrupted n ;;; ret None
          | Some sb => ret (Some (MkPage n t d ps sb))
          end
        else ret (Some (MkPage n t d ps []))
      end) Q s1).
  { case_match; [by apply Hnone|]. apply pwp_bind, pwp_finishes; [apply finishes_cell_pointers|]. intros [ps|] _; [|by apply Hnone].
    destruct (isInteriorPage t) eqn:Et; [|apply pwp_ret, HQ; [done|]; split_and!; try done; cbn; congruence].
    destruct (pv_sizes s1 Hs1) as (_ & _ & F3). apply pwp_bind_gets. rewrite F3. destruct (subpagenos_any d (ps ++ [8 + getOffsetOfHeader n])) as [Hf Hsub].
    apply pwp_bind, pwp_finishes; [done|]. intros [sb|] Esb; [|by apply Hnone]. destruct (Hsub sb Esb) as (L1 & L2 & L3). apply pwp_ret, HQ; [done|].
    split_and!; try done. intros _. cbn. split; [intros ->; rewrite length_app in L1; cbn in L1; lia|]. by apply Forall_app in L3 as [L3 _]. }
  destruct t; [|apply Hrest..]. apply pwp_ret, HQ; [done|]. split_and!; try done.
Qed.

(** ** The walk *)

(** What is asked of a client: its callbacks keep the pager, and end. *)
Class ClientKeeps `{C : !Crawlable St} := {
  keeps_suspended : keeps cr_suspended;
  keeps_isIndex : forall b s, pv_inv s -> pv_inv (cr_setIsIndex b s);
  keeps_canCrawlPage : forall n, keeps (canCrawlPage n);
  keeps_willCrawlPage : forall p h, keeps (willCrawlPage p h);
  keeps_onCellCrawled : forall c, keeps (onCellCrawled c);
  keeps_onCrawlerError : keeps onCrawlerError
}.

Context `{C : !Crawlable St} `{K : !ClientKeeps}.

Definition all_pages : gset Z := list_to_set (seqZ 1 (db_count pv_db)).

Lemma elem_of_all_pages n : n ∈ all_pages <-> in_database n.
Proof. unfold all_pages, in_database. rewrite elem_of_list_to_set, elem_of_seqZ. lia. Qed.
Lemma size_all_pages : size all_pages = Z.to_nat (db_count pv_db).
Proof. unfold all_pages. rewrite size_list_to_set by apply NoDup_seqZ. apply length_seqZ. Qed.

Lemma keeps_markAsCorrupted n : keeps (markAsCorrupted n).
Proof. intros s Hs. apply pwp_bind, pwp_keeps; [apply keeps_setError|done|]. intros _ s' Hs'. by apply keeps_onCrawlerError. Qed.

(** What a walk leaves: the pager, and the pages visited before and some more. *)
Definition grown (visited : gset Z) (Q : gset Z -> St -> Prop) : Prop := forall visited' s', pv_inv s' -> visited ⊆ visited' -> visited' ⊆ all_pages -> Q visited' s'.

Definition crawls (crawl : Z -> gset Z -> Z -> cm St (gset Z)) (visited : gset Z) : Prop :=
  forall n visited' h s Q, pv_inv s -> in_database n -> visited ⊆ visited' -> visited' ⊆ all_pages -> grown visited' Q -> pwp other_fault (crawl n visited' h) Q s.

Lemma pwp_crawl_subpages crawl visited subs h : crawls crawl visited -> Forall in_database subs -> forall visited' s Q,
  pv_inv s -> visited ⊆ visited' -> visited' ⊆ all_pages -> grown visited' Q -> pwp other_fault (crawl_subpages crawl subs visited' h) Q s.
Proof.
  intros Hc. induction 1 as [|n subs Hn _ IH]; intros visited' s Q Hs Hv Ha HQ; cbn [crawl_subpages]; [by apply pwp_ret, HQ|].
  apply pwp_bind, pwp_keeps; [apply keeps_suspended|done|]. intros stop s1 Hs1. case_match; [by apply pwp_ret, HQ|].
  apply pwp_bind, Hc; [done..|]. intros v2 s2 Hs2 Hv2 Ha2. apply IH; [done|by etrans|done|]. intros v3 s3 Hs3 Hv3 Ha3. apply HQ; [done|by etrans|done].
Qed.

Lemma pwp_crawl_cells page pointers : zlen (p_data page) < 2 ^ 31 -> forall s (Q : unit -> St -> Prop),
  pv_inv s -> (forall s', pv_inv s' -> Q tt s') -> pwp other_fault (crawl_cells page pointers) Q s.
Proof.
  intros Hd. induction pointers as [|i pointers IH]; intros s Q Hs HQ; cbn [crawl_cells]; [by apply pwp_ret, HQ|].
  apply pwp_bind, pwp_keeps; [apply keeps_suspended|done|]. intros stop s1 Hs1. case_match; [by apply pwp_ret, HQ|].
  apply pwp_bind, pwp_cell_initialize; [done..|]. intros [c|] s2 Hs2 _; (apply pwp_bind, pwp_keeps; [|done|intros _ s3 Hs3; by apply IH]); [apply keeps_onCellCrawled|apply keeps_onCrawlerError].
Qed.

(** The left child of a cell is the page at its pointer, which was looked at when the page was initialized. *)
Lemma left_child d i v w : get4BytesInt d i = Done v -> get4BytesInt d (seek_to (zlen d) i) = Done w -> in_database v -> (db_count pv_db) < 2 ^ 31 -> s32 (u32 w) = v.
Proof.
  intros Hv Hw Hin Hc. assert (Hi : 0 <= i <= zlen d).
  { unfold get4BytesInt, zread in Hv. destruct (Z.leb_spec 0 i); [|done]. destruct (d !! Z.to_nat i) eqn:E; [|done]. apply lookup_lt_Some in E. unfold zlen. lia. }
  rewrite seek_to_in in Hw by done. rewrite Hv in Hw. injection Hw as <-. unfold in_database in Hin. rewrite u32_small by lia. apply wrap_s_small; lia.
Qed.

Lemma pwp_crawl_index_cells crawl visited page h pointers : crawls crawl visited -> zlen (p_data page) < 2 ^ 31 -> isLeafPage (p_type page) = false -> (db_count pv_db) < 2 ^ 31 ->
  Forall (fun i => exists v, get4BytesInt (p_data page) i = Done v /\ in_database v) pointers -> forall visited' s (Q : bool * gset Z -> St -> Prop),
  pv_inv s -> visited ⊆ visited' -> visited' ⊆ all_pages -> (forall b, grown visited' (fun v => Q (b, v))) -> pwp other_fault (crawl_index_cells crawl page pointers visited' h) Q s.
Proof.
  intros Hc Hd Hl Hcount. induction 1 as [|i pointers (v & Hv & Hin) _ IH]; intros visited' s Q Hs Hvis Ha HQ; cbn [crawl_index_cells]; [by apply pwp_ret, HQ|].
  apply pwp_bind, pwp_keeps; [apply keeps_suspended|done|]. intros stop s1 Hs1. case_match; [by apply pwp_ret, HQ|].
  apply pwp_bind, pwp_cell_initialize; [done..|]. intros [c|] s2 Hs2 Hleft; apply pwp_bind.
  - destruct (Hleft Hl) as (w & Hw & ->). rewrite (left_child _ _ _ _ Hv Hw) by done. apply pwp_bind, Hc; [done..|]. intros v3 s3 Hs3 Hv3 Ha3.
    apply pwp_bind, pwp_keeps; [apply keeps_onCellCrawled|done|]. intros _ s4 Hs4. apply pwp_ret, IH; [done|by etrans|done|].
    intros b v5 s5 Hs5 Hv5 Ha5. apply HQ; [done|by etrans|done].
  - apply pwp_bind, pwp_keeps; [apply keeps_onCrawlerError|done|]. intros _ s4 Hs4. by apply pwp_ret, IH.
Qed.

Lemma pwp_crawl_page crawl page n visited h s Q : (db_count pv_db) < 2 ^ 31 ->
  crawls crawl visited -> page_any n page -> pv_inv s -> visited ⊆ all_pages -> grown visited Q -> pwp other_fault (crawl_page crawl page visited h) Q s.
Proof.
  intros Hcount Hc (<- & Hn & Hd & Hsubs & Hint) Hs Ha HQ. unfold crawl_page. destruct (p_type page) eqn:Et; cbn [isInteriorPage] in Hint.
  - apply pwp_bind, pwp_keeps; [apply keeps_markAsCorrupted|done|]. intros _ s1 Hs1. by apply pwp_ret, HQ.
  - destruct (Hint eq_refl) as [Hne Hptr]. apply pwp_bind, (pwp_crawl_index_cells _ visited); try done; [by rewrite Et|].
    intros b v2 s2 Hs2 Hv2 Ha2. destruct b; [|by apply pwp_ret, HQ]. apply pwp_bind, pwp_finishes; [finish|]. intros r Hr.
    apply Hc; [done| |done..|]. 2: { intros v3 s3 Hs3 Hv3 Ha3. apply HQ; [done|by etrans|done]. }
    unfold zread in Hr. case_match; [|done]. destruct (p_subpagenos page !! _) eqn:E; [|done]. injection Hr as <-. by eapply Forall_lookup_1.
  - by apply (pwp_crawl_subpages _ visited).
  - apply pwp_bind, pwp_crawl_cells; [done..|]. intros s1 Hs1. by apply pwp_ret, HQ.
  - apply pwp_bind, pwp_crawl_cells; [done..|]. intros s1 Hs1. by apply pwp_ret, HQ.
Qed.

Lemma pwp_safeCrawl : (db_count pv_db) < 2 ^ 31 -> forall fuel n visited h s Q,
  pv_inv s -> 1 <= n -> visited ⊆ all_pages -> (size all_pages < fuel + size visited)%nat -> grown visited Q -> pwp other_fault (safeCrawl fuel n visited h) Q s.
Proof.
  intros Hcount fuel. induction fuel as [|fuel IH]; intros n visited h s Q Hs Hn Ha Hf HQ.
  { apply subseteq_size in Ha. lia. }
  cbn [safeCrawl]. apply pwp_bind, pwp_keeps; [apply keeps_suspended|done|]. intros stop s1 Hs1. apply pwp_bind.
  assert (Hcan : keeps (if stop then ret false else canCrawlPage (u32 n))) by (destruct stop; [by intros s' Hs'|apply keeps_canCrawlPage]).
  apply pwp_keeps; [done..|]. clear Hcan. intros can s2 Hs2. destruct (negb can); [by apply pwp_ret, HQ|].
  apply pwp_bind, pwp_page_initialize; [done..|]. intros [page|] s3 Hs3 Hp.
  2: { apply pwp_bind, pwp_keeps; [apply keeps_onCrawlerError|done|]. intros _ s4 Hs4. by apply pwp_ret, HQ. }
  assert (Hmark : forall s, pv_inv s -> pwp other_fault (markAsCorrupted n ;;; ret visited) Q s).
  { intros s4 Hs4. apply pwp_bind, pwp_keeps; [apply keeps_markAsCorrupted|done|]. intros _ s5 Hs5. by apply pwp_ret, HQ. }
  apply pwp_bind. set (c := if h =? 1 then _ else _). assert (Hk : keeps c).
  { intros s' Hs'. unfold c. case_match; [by apply pwp_bind_modify, pwp_ret, keeps_isIndex|by apply pwp_bind_gets, pwp_ret]. }
  apply pwp_keeps; [done..|]. clear c Hk. intros matched s4 Hs4. case_match; [by apply Hmark|]. apply pwp_bind, pwp_keeps; [apply keeps_willCrawlPage|done|]. intros enter s5 Hs5.
  case_match; [by apply pwp_ret, HQ|]. case_bool_decide as Hvis; [by apply Hmark|]. pose proof Hp as (_ & Hin & _).
  assert (Ha' : {[n]} ∪ visited ⊆ all_pages) by (intros x [->%elem_of_singleton|Hx]%elem_of_union; [by apply elem_of_all_pages|by apply Ha]).
  assert (Hsize : size ({[n]} ∪ visited) = S (size visited)) by (rewrite size_union, size_singleton by (by apply disjoint_singleton_l); lia).
  eapply pwp_crawl_page; try done.
  - intros n' v' h' s' Q' Hs' Hin' Hv' Ha2 HQ'. apply IH; try done; [unfold in_database in Hin'; lia|]. apply subseteq_size in Hv'. lia.
  - intros v' s' Hs' Hv' Ha2. apply HQ; [done|etrans; [apply union_subseteq_r|done]|done].
Qed.

Lemma pwp_crawl n s (Q : bool -> St -> Prop) : (db_count pv_db) < 2 ^ 31 -> pv_inv s -> 1 <= n ->
  (forall s', pv_inv s' -> Q (pg_isOK s') s') -> pwp other_fault (crawl n) Q s.
Proof.
  intros Hcount Hs Hn HQ. destruct (pv_sizes s Hs) as (_ & _ & E3). unfold crawl. apply pwp_bind_gets. rewrite E3.
  apply pwp_bind, pwp_safeCrawl; [done..|set_solver|rewrite size_all_pages, size_empty; lia|]. intros v' s' Hs' _ _. by apply pwp_gets, HQ.
Qed.
End any.

(** * Crawlers: what they see

    The walk over a B-tree that is stored in the pages of a database calls its client for each page and
    each cell, in the order of the tree, and finds no error. *)

Set Warnings "-register-all".

(** ** Trees *)

(** A page with its cells and its subtrees. *)
Inductive Tree := Node (page : Page) (cells : list StoredCell) (kids : list Tree).

Definition root_page (t : Tree) : Page := match t with Node p _ _ => p end.
Definition root (t : Tree) : Z := p_number (root_page t).

Fixpoint pages (t : Tree) : list Z := match t with Node p _ kids => p_number p :: concat (map pages kids) end.

(** ** What a client is told *)

Inductive Event := EPage (page : Page) (height : Z) | ECell (cell : Cell).

(** Subtrees, each with the cell behind it, and what is left of the subtrees. *)
Definition paired {A} (kids : list (list A)) (cells : list A) : list A := concat (zip_with (fun k c => k ++ [c]) kids cells).
Definition interleave {A} (kids : list (list A)) (cells : list A) : list A := paired kids cells ++ concat (drop (length cells) kids).

(** The events of the walk over a tree; [enters] says into which pages the client goes. *)
Fixpoint events (enters : Page -> Z -> bool) (t : Tree) (h : Z) : list Event :=
  match t with
  | Node p cells kids =>
    EPage p h ::
    if enters p h then
      match p_type p with
      | InteriorTable => concat (map (fun k => events enters k (h + 1)) kids)
      | InteriorIndex => interleave (map (fun k => events enters k (h + 1)) kids) (map (fun c => ECell (cell_of p c)) cells)
      | LeafTable | LeafIndex => map (fun c => ECell (cell_of p c)) cells
      | Unknown => []
      end
    else []
  end.

Lemma grown_twice (v v2 v3 A B : gset Z) : v2 ⊆ v ∪ A -> v3 ⊆ v2 ∪ B -> v3 ⊆ v ∪ (A ∪ B).
Proof. intros H1 H2 x Hx. apply H2 in Hx. specialize (H1 x). rewrite !elem_of_union in *. tauto. Qed.

Lemma paired_prefix {A} (ks : list (list A)) k cs : length cs = length ks -> interleave (ks ++ [k]) cs = paired ks cs ++ k.
Proof.
  intros E. unfold interleave, paired. rewrite E, drop_app_length. cbn. rewrite app_nil_r. f_equal. f_equal. rewrite <- (app_nil_r cs) at 1. rewrite zip_with_app by done. cbn. by rewrite app_nil_r.
Qed.

Lemma prefix_app_l {A} (l1 l2 l : list A) : (l1 ++ l2) `prefix_of` l -> l1 `prefix_of` l.
Proof. intros H. etrans; [|done]. by apply prefix_app_r. Qed.

Definition pages_set (t : Tree) : gset Z := list_to_set (pages t).
Definition kids_set (kids : list Tree) : gset Z := list_to_set (concat (map pages kids)).
Lemma kids_set_cons t kids : kids_set (t :: kids) = pages_set t ∪ kids_set kids.
Proof. unfold kids_set, pages_set. cbn. by rewrite list_to_set_app_L. Qed.

Section tree.
Context {St : Type} `{P : PagerOps St} `{V : !PagerView St}.

(** The tree in the pages of the database. *)
Inductive tree_stored (db : Database) (index : bool) : Tree -> Prop :=
| tree_node p cells kids :
    page_stored db (p_number p) (p_type p) (p_data p) (p_cellPointers p) (p_subpagenos p) ->
    p_subpagenos p = map root kids -> isIndexPage (p_type p) = index ->
    (p_type p <> InteriorTable -> Forall2 (fun i c => good_cell (p_type p) c /\ cell_stored db (p_type p) (p_data p) i c) (p_cellPointers p) cells) ->
    Forall (tree_stored db index) kids -> tree_stored db index (Node p cells kids).

Lemma tree_node_inv index p cells kids : tree_stored pv_db index (Node p cells kids) ->
  page_stored pv_db (p_number p) (p_type p) (p_data p) (p_cellPointers p) (p_subpagenos p) /\ p_subpagenos p = map root kids /\ isIndexPage (p_type p) = index
  /\ (p_type p <> InteriorTable -> Forall2 (fun i c => good_cell (p_type p) c /\ cell_stored pv_db (p_type p) (p_data p) i c) (p_cellPointers p) cells)
  /\ Forall (tree_stored pv_db index) kids.
Proof. inversion 1. done. Qed.

Lemma tree_in_database index t : tree_stored pv_db index t -> 1 <= root t <= (db_count pv_db).
Proof. destruct 1 as [p cells kids (Hp & _)]. apply pv_page_data in Hp. unfold root. cbn. tauto. Qed.

(** The left child of a cell is the subpage its page names. *)
Lemma left_is_subpage t d i c q : isLeafPage t = false -> good_cell t c -> cell_stored pv_db t d i c -> be_val (slice i 4 d) = q -> sc_left c = q.
Proof.
  intros Ht (_ & Hl & _) (pre & local & rest & first & post & -> & <- & _) <-. unfold cell_head. rewrite Ht, <- !app_assoc.
  unfold slice. rewrite to_nat_zlen, drop_app_length. change (Z.to_nat 4) with (length (be4 (sc_left c))). rewrite take_app_length.
  symmetry. assert (E : be_val (be4 (sc_left c)) = be_value (u8 (Z.shiftr (sc_left c) 24)) (u8 (Z.shiftr (sc_left c) 16)) (u8 (Z.shiftr (sc_left c) 8)) (u8 (sc_left c))) by done.
  rewrite E. apply be4_value. lia.
Qed.

(** ** The promise of a client *)

(** [I index seen s]: the client has been told [seen], and the crawler is in a tree of that kind.  The crawler is not
    suspended, and the client does with each event of [total] what [I] says. *)
Class Client `{C : !Crawlable St} (enters : Page -> Z -> bool) (total : list Event) (I : bool -> list Event -> St -> Prop) : Prop := {
  client_inv : forall b l s, I b l s -> pv_inv s /\ cr_isIndex s = b;
  client_same : forall b l s s', I b l s -> same_pager s s' -> I b l s';
  client_isIndex : forall b b' l s, I b l s -> I b' l (cr_setIsIndex b' s);
  client_suspended : forall b l s (Q : bool -> St -> Prop), I b l s -> (forall s', I b l s' -> Q false s') -> wp cr_suspended Q s;
  client_can : forall b l s n (Q : bool -> St -> Prop), I b l s -> (forall s', I b l s' -> Q true s') -> wp (canCrawlPage n) Q s;
  client_page : forall b l s p h (Q : bool -> St -> Prop), (l ++ [EPage p h]) `prefix_of` total -> I b l s ->
    (forall s', I b (l ++ [EPage p h]) s' -> Q (enters p h) s') -> wp (willCrawlPage p h) Q s;
  client_cell : forall b l s c (Q : unit -> St -> Prop), (l ++ [ECell c]) `prefix_of` total -> I b l s ->
    (forall s', I b (l ++ [ECell c]) s' -> Q tt s') -> wp (onCellCrawled c) Q s
}.

Hypothesis granted : pv_grants.
Context `{C : !Crawlable St} (enters : Page -> Z -> bool) (total : list Event) (I : bool -> list Event -> St -> Prop) `{K : !Client enters total I}.
Variable index : bool.

(** The walk over trees whose pages were not visited. *)
Definition walks (crawl : Z -> gset Z -> Z -> cm St (gset Z)) (t : Tree) (h : Z) : Prop :=
  forall l visited s (Q : gset Z -> St -> Prop), I index l s -> pages_set t ## visited -> (l ++ events enters t h) `prefix_of` total ->
    (forall visited' s', visited' ⊆ visited ∪ pages_set t -> I index (l ++ events enters t h) s' -> Q visited' s') -> wp (crawl (root t) visited h) Q s.

Lemma wp_crawl_subpages crawl h kids : Forall (fun t => walks crawl t h) kids -> NoDup (concat (map pages kids)) -> forall l visited s (Q : gset Z -> St -> Prop),
  I index l s -> kids_set kids ## visited -> (l ++ concat (map (fun k => events enters k h) kids)) `prefix_of` total ->
  (forall visited' s', visited' ⊆ visited ∪ kids_set kids -> I index (l ++ concat (map (fun k => events enters k h) kids)) s' -> Q visited' s') ->
  wp (crawl_subpages crawl (map root kids) visited h) Q s.
Proof.
  induction 1 as [|t kids Ht _ IH]; intros Hnd l visited s Q Hs Hd Hpre HQ; cbn [map concat crawl_subpages] in *.
  - rewrite app_nil_r in *. apply wp_ret, HQ; [apply union_subseteq_l|done].
  - rewrite kids_set_cons in *. apply NoDup_app in Hnd as (_ & Hcross & Hnd). rewrite app_assoc in Hpre. rewrite disjoint_union_l in Hd. destruct Hd as [Hd1 Hd2].
    apply wp_bind. eapply client_suspended; [done|]. intros s1 Hs1. apply wp_bind, (Ht l); [done..|by apply prefix_app_l in Hpre|].
    intros v2 s2 Hv2 Hs2. apply (IH Hnd (l ++ events enters t h)); [done| |done|].
    + intros x Hx Hxv. apply Hv2, elem_of_union in Hxv as [Hxv|Hxv]; [by apply (Hd2 x)|]. apply elem_of_list_to_set in Hxv, Hx. by apply (Hcross x).
    + intros v3 s3 Hv3 Hs3. rewrite <- app_assoc in Hs3. apply HQ; [by eapply grown_twice|done].
Qed.

Lemma wp_crawl_cells p cells pointers :
  Forall2 (fun i c => good_cell (p_type p) c /\ cell_stored pv_db (p_type p) (p_data p) i c) pointers cells -> Forall is_byte (p_data p) -> zlen (p_data p) < 2 ^ 31 ->
  forall l s (Q : unit -> St -> Prop), I index l s -> (l ++ map (fun c => ECell (cell_of p c)) cells) `prefix_of` total ->
  (forall s', I index (l ++ map (fun c => ECell (cell_of p c)) cells) s' -> Q tt s') -> wp (crawl_cells p pointers) Q s.
Proof.
  intros H Hb Hz. induction H as [|i c pointers cells [Hg Hc] _ IH]; intros l s Q Hs Hpre HQ; cbn [map crawl_cells] in *.
  - rewrite app_nil_r in *. by apply wp_ret, HQ.
  - rewrite cons_middle, app_assoc in Hpre, HQ. apply wp_bind. eapply client_suspended; [done|]. intros s1 Hs1. destruct (client_inv _ _ _ Hs1) as [Hinv _].
    apply wp_bind, (wp_cell_initialize granted p i c); [done..|]. intros s2 S2. pose proof (client_same _ _ _ _ Hs1 S2) as Hs2.
    apply wp_bind. eapply client_cell; [by apply prefix_app_l in Hpre|done|]. intros s3 Hs3. by apply (IH (l ++ [ECell (cell_of p c)])).
Qed.

Lemma wp_crawl_index_cells crawl p h cells : isLeafPage (p_type p) = false -> Forall is_byte (p_data p) -> zlen (p_data p) < 2 ^ 31 -> forall pointers kids,
  Forall2 (fun i c => good_cell (p_type p) c /\ cell_stored pv_db (p_type p) (p_data p) i c) pointers cells ->
  Forall2 (fun i t => be_val (slice i 4 (p_data p)) = root t) pointers kids ->
  Forall (fun t => walks crawl t h) kids -> NoDup (concat (map pages kids)) ->
  forall l visited s (Q : bool * gset Z -> St -> Prop), I index l s -> kids_set kids ## visited ->
  (l ++ paired (map (fun k => events enters k h) kids) (map (fun c => ECell (cell_of p c)) cells)) `prefix_of` total ->
  (forall visited' s', visited' ⊆ visited ∪ kids_set kids ->
     I index (l ++ paired (map (fun k => events enters k h) kids) (map (fun c => ECell (cell_of p c)) cells)) s' -> Q (true, visited') s') ->
  wp (crawl_index_cells crawl p pointers visited h) Q s.
Proof.
  intros Ht Hb Hz pointers kids Hcells. revert kids.
  induction Hcells as [|i c pointers cells [Hg Hc] _ IH]; intros kids Hkids Hw Hnd l visited s Q Hs Hd Hpre HQ.
  - apply Forall2_nil_inv_l in Hkids as ->. unfold paired in *. cbn [map zip_with concat crawl_index_cells] in *. rewrite app_nil_r in *. apply wp_ret, HQ; [apply union_subseteq_l|done].
  - apply Forall2_cons_inv_l in Hkids as (t & kids' & Hroot & Hkids & ->). unfold paired in *. cbn [map zip_with concat crawl_index_cells] in *. rewrite kids_set_cons in *.
    apply Forall_cons in Hw as [Hw1 Hw]. apply NoDup_app in Hnd as (_ & Hcross & Hnd). rewrite disjoint_union_l in Hd. destruct Hd as [Hd1 Hd2]. rewrite !app_assoc in Hpre.
    apply wp_bind. eapply client_suspended; [done|]. intros s1 Hs1. destruct (client_inv _ _ _ Hs1) as [Hinv _].
    apply wp_bind, (wp_cell_initialize granted p i c); [done..|]. intros s2 S2. pose proof (client_same _ _ _ _ Hs1 S2) as Hs2.
    cbn [c_leftChild cell_of]. rewrite Ht. pose proof (left_is_subpage _ _ _ _ _ Ht Hg Hc Hroot) as El. pose proof Hg as (_ & Hleft & _).
    assert (Es : s32 (sc_left c) = root t) by (rewrite <- El; apply wrap_s_small; lia). rewrite Es. apply wp_bind, wp_bind, (Hw1 l); [done..|by do 2 apply prefix_app_l in Hpre|].
    intros v3 s3 Hv3 Hs3. apply wp_bind. eapply client_cell; [by apply prefix_app_l in Hpre|done|]. intros s4 Hs4. apply wp_ret.
    apply (IH kids' Hkids Hw Hnd ((l ++ events enters t h) ++ [ECell (cell_of p c)])); [done| |done|].
    + intros x Hx Hxv. apply Hv3, elem_of_union in Hxv as [Hxv|Hxv]; [by apply (Hd2 x)|]. apply elem_of_list_to_set in Hxv, Hx. by apply (Hcross x).
    + intros v5 s5 Hv5 Hs5. rewrite <- !app_assoc in Hs5. rewrite <- app_assoc in HQ. apply HQ; [by eapply grown_twice|done].
Qed.

(** The pages of a subtree are fewer. *)
Lemma kid_pages (p : Page) cells kids t : t ∈ kids -> (length (pages t) < length (pages (Node p cells kids)))%nat.
Proof.
  intros Ht. cbn. apply list_elem_of_split in Ht as (l1 & l2 & ->). rewrite map_app, concat_app. cbn. rewrite !length_app. lia.
Qed.

(** The subtrees of an interior page: one for each cell, and the right-most one. *)
Lemma split_kids p kids pointers (Pq : Z -> Z -> Prop) last : Forall2 Pq (pointers ++ [last]) (map root kids) -> (forall i q, Pq i q -> be_val (slice i 4 (p_data p)) = q) ->
  exists kids' t, kids = kids' ++ [t] /\ Forall2 (fun i t => be_val (slice i 4 (p_data p)) = root t) pointers kids'.
Proof.
  intros H HP. apply Forall2_app_inv_l in H as (q1 & q2 & H1 & H2 & E). apply Forall2_cons_inv_l in H2 as (q & q3 & _ & H3 & ->). apply Forall2_nil_inv_l in H3 as ->.
  apply map_eq_app in E as (kids' & rest & -> & <- & E2). destruct rest as [|t [|]]; cbn in E2; try done. exists kids', t. split; [done|]. 
  clear E2. revert pointers H1. induction kids' as [|k kids' IH]; intros [|i pointers] H1; inversion H1; subst; constructor; auto.
Qed.

Lemma kids_set_app kids t : kids_set (kids ++ [t]) = kids_set kids ∪ pages_set t.
Proof. unfold kids_set, pages_set. rewrite map_app, concat_app. cbn. by rewrite app_nil_r, list_to_set_app_L. Qed.

Lemma wp_index_page crawl p cells kids h :
  Forall2 (fun i c => good_cell (p_type p) c /\ cell_stored pv_db (p_type p) (p_data p) i c) (p_cellPointers p) cells -> isLeafPage (p_type p) = false ->
  Forall is_byte (p_data p) -> zlen (p_data p) < 2 ^ 31 -> p_subpagenos p = map root kids ->
  Forall2 (fun i q => 0 <= i /\ i + 4 <= (db_size pv_db) /\ be_val (slice i 4 (p_data p)) = q /\ 1 <= q <= (db_count pv_db) /\ q < 2 ^ 31) (p_cellPointers p ++ [getOffsetOfHeader (p_number p) + 8]) (map root kids) ->
  Forall (fun t => walks crawl t h) kids -> NoDup (concat (map pages kids)) -> forall l visited s (Q : gset Z -> St -> Prop),
  I index l s -> kids_set kids ## visited ->
  (l ++ interleave (map (fun k => events enters k h) kids) (map (fun c => ECell (cell_of p c)) cells)) `prefix_of` total ->
  (forall visited' s', visited' ⊆ visited ∪ kids_set kids -> I index (l ++ interleave (map (fun k => events enters k h) kids) (map (fun c => ECell (cell_of p c)) cells)) s' -> Q visited' s') ->
  wp (let! (all, visited) := crawl_index_cells crawl p (p_cellPointers p) visited h in
      if (all : bool) then
        let! rightMost := lift_res (zread (p_subpagenos p) (zlen (p_subpagenos p) - 1)) in crawl rightMost visited h
      else ret visited) Q s.
Proof.
  intros Hc Ht Hb Hz Hsub Hint Hw Hnd l visited s Q Hs Hd Hpre HQ.
  destruct (split_kids p kids _ _ _ Hint ltac:(cbn; tauto)) as (kids' & t & -> & Hk).
  rewrite map_app, concat_app in Hnd. apply NoDup_app in Hnd as (Hnd1 & Hcross & _). apply Forall_app in Hw as [Hw1 Hw2%Forall_inv].
  assert (Elen : length cells = length kids') by (rewrite <- (Forall2_length _ _ _ Hc); by apply Forall2_length in Hk).
  rewrite map_app in Hpre, HQ. cbn [map] in Hpre, HQ. rewrite paired_prefix, app_assoc in Hpre, HQ by (by rewrite !length_map).
  rewrite kids_set_app in Hd, HQ. rewrite disjoint_union_l in Hd. destruct Hd as [Hd1 Hd2].
  apply wp_bind, (wp_crawl_index_cells crawl p h cells Ht Hb Hz _ kids' Hc Hk Hw1 Hnd1 l); [done..|by apply prefix_app_l in Hpre|].
  intros v2 s2 Hv2 Hs2. eapply wp_bind_lift_res.
  { rewrite Hsub, map_app, zlen_app. cbn [map]. change (zlen [root t]) with 1. replace (zlen (map root kids') + 1 - 1) with (zlen (map root kids')) by lia.
    unfold zread. zlen_pos. rewrite (proj2 (Z.leb_le _ _)) by lia. rewrite to_nat_zlen, list_lookup_middle by done. reflexivity. }
  apply (Hw2 _ v2 _ _ Hs2); [|done|intros v3 s3 Hv3 Hs3; apply HQ; [by eapply grown_twice|done]].
  intros x Hx Hxv. apply Hv2, elem_of_union in Hxv as [Hxv|Hxv]; [by apply (Hd2 x)|]. apply elem_of_list_to_set in Hxv, Hx. apply (Hcross x Hxv). cbn. by rewrite app_nil_r.
Qed.

Lemma wp_crawl_page crawl p cells kids h : tree_stored pv_db index (Node p cells kids) -> NoDup (pages (Node p cells kids)) ->
  Forall (fun t => walks crawl t (h + 1)) kids -> enters p h = true -> forall l visited s (Q : gset Z -> St -> Prop),
  I index (l ++ [EPage p h]) s -> pages_set (Node p cells kids) ## visited -> (l ++ events enters (Node p cells kids) h) `prefix_of` total ->
  (forall visited' s', visited' ⊆ visited ∪ pages_set (Node p cells kids) -> I index (l ++ events enters (Node p cells kids) h) s' -> Q visited' s') ->
  wp (crawl_page crawl p ({[p_number p]} ∪ visited) h) Q s.
Proof.
  intros Hst Hnd Hw He l visited s Q Hs Hd Hpre HQ. destruct (tree_node_inv _ _ _ _ Hst) as (Hp & Hsub & Hidx & Hcells & Hkids). cbn [events] in Hpre, HQ. rewrite He in Hpre, HQ.
  cbn [pages map] in Hnd. apply NoDup_cons in Hnd as [Hroot Hnd]. rewrite (cons_middle (EPage p h)), app_assoc in Hpre, HQ.
  assert (Epages : pages_set (Node p cells kids) = {[p_number p]} ∪ kids_set kids) by done. rewrite Epages in Hd, HQ. rewrite disjoint_union_l in Hd. destruct Hd as [Hd1 Hd2].
  assert (Hd : kids_set kids ## {[p_number p]} ∪ visited).
  { rewrite disjoint_union_r. split; [|done]. rewrite disjoint_singleton_r. unfold kids_set. by rewrite elem_of_list_to_set. }
  assert (Hgrow : forall v, v ⊆ {[p_number p]} ∪ visited ∪ kids_set kids -> v ⊆ visited ∪ ({[p_number p]} ∪ kids_set kids)).
  { intros v Hv x Hx. apply Hv in Hx. rewrite !elem_of_union in *. tauto. }
  pose proof Hp as (Hpage & Hknown & _ & _ & _ & _ & _ & Hint). destruct (pv_page_data _ _ Hpage) as (Hn & Hz & Hb). pose proof pv_geometry as [Hg _].
  assert (Hleaf : p_type p <> InteriorTable -> (l ++ [EPage p h] ++ map (fun c => ECell (cell_of p c)) cells) `prefix_of` total ->
    (forall v s', v ⊆ visited ∪ ({[p_number p]} ∪ kids_set kids) -> I index ((l ++ [EPage p h]) ++ map (fun c => ECell (cell_of p c)) cells) s' -> Q v s') ->
    wp (crawl_cells p (p_cellPointers p) ;;; ret ({[p_number p]} ∪ visited)) Q s).
  { intros Ht Hpre' HQ'. apply wp_bind. eapply (wp_crawl_cells p cells _ (Hcells Ht) Hb); [lia|done|by rewrite <- app_assoc|]. intros s' Hs'. apply wp_ret, HQ'; [apply Hgrow, union_subseteq_l|done]. }
  unfold crawl_page. destruct (p_type p) eqn:Et; cbn [isInteriorPage] in Hint; [done|..]; rewrite <- ?Et in *.
  - rewrite Hsub in Hint. eapply (wp_index_page crawl p cells kids (h + 1)); try done; [apply Hcells; by rewrite Et|by rewrite Et|lia|]. intros v s' Hv. by apply HQ, Hgrow.
  - rewrite Hsub. apply (wp_crawl_subpages crawl (h + 1) kids Hw Hnd (l ++ [EPage p h])); [done..|]. intros v s' Hv. by apply HQ, Hgrow.
  - apply Hleaf; [by rewrite Et|by rewrite app_assoc|done].
  - apply Hleaf; [by rewrite Et|by rewrite app_assoc|done].
Qed.

Lemma wp_safeCrawl fuel : forall t h b, tree_stored pv_db index t -> (length (pages t) <= fuel)%nat -> NoDup (pages t) -> 1 <= h -> (h = 1 \/ b = index) ->
  forall l visited s (Q : gset Z -> St -> Prop), I b l s -> pages_set t ## visited -> (l ++ events enters t h) `prefix_of` total ->
    (forall visited' s', visited' ⊆ visited ∪ pages_set t -> I index (l ++ events enters t h) s' -> Q visited' s') -> wp (safeCrawl fuel (root t) visited h) Q s.
Proof.
  induction fuel as [|fuel IH]; intros t h b Hst Hf Hnd Hh Hb l visited s Q Hs Hd Hpre HQ; [destruct t; cbn in Hf; lia|].
  destruct t as [p cells kids]. destruct (tree_node_inv _ _ _ _ Hst) as (Hp & Hsub & Hidx & Hcells & Hkids). cbn [safeCrawl]. unfold root. cbn [root_page].
  apply wp_bind. eapply client_suspended; [done|]. intros s1 Hs1. apply wp_bind. eapply client_can; [done|]. intros s2 Hs2. cbn [negb].
  destruct (client_inv _ _ _ Hs2) as [Hinv _]. apply wp_bind, (wp_page_initialize granted _ _ _ _ _ _ _ Hinv Hp). intros s3 S3. pose proof (client_same _ _ _ _ Hs2 S3) as Hs3.
  assert (Ep : MkPage (p_number p) (p_type p) (p_data p) (p_cellPointers p) (p_subpagenos p) = p) by (by destruct p). rewrite Ep.
  assert (Hpre1 : (l ++ [EPage p h]) `prefix_of` total) by (cbn [events] in Hpre; rewrite cons_middle, app_assoc in Hpre; by apply prefix_app_l in Hpre).
  assert (Henter : forall s4, I index l s4 ->
    wp (let! enter := willCrawlPage p h in
        if negb enter then ret visited
        else if bool_decide (p_number p ∈ visited) then markAsCorrupted (p_number p) ;;; ret visited
        else crawl_page (safeCrawl fuel) p ({[p_number p]} ∪ visited) h) Q s4).
  { intros s4 Hs4. apply wp_bind. eapply client_page; [done..|]. intros s5 Hs5. destruct (enters p h) eqn:He; cbn [negb].
    - rewrite bool_decide_eq_false_2 by (intros Hin; apply (Hd (p_number p)); [|done]; apply elem_of_list_to_set; constructor).
      apply (wp_crawl_page (safeCrawl fuel) p cells kids h Hst Hnd) with l; try done. apply Forall_forall. intros t Ht. 
      pose proof (kid_pages p cells kids t Ht) as Hlen. intros l' v' s' Q' Hs' Hd' Hpre' HQ'. eapply (IH t (h + 1)); try done; [|lia| |lia|by right].
      + by eapply Forall_forall.
      + cbn [pages] in Hnd. apply NoDup_cons in Hnd as [_ Hnd]. apply list_elem_of_split in Ht as (k1 & k2 & ->). rewrite map_app, concat_app in Hnd. cbn in Hnd.
        apply NoDup_app in Hnd as (_ & _ & Hnd). by apply NoDup_app in Hnd as (Hnd & _).
    - apply wp_ret, HQ; [apply union_subseteq_l|]. cbn [events]. by rewrite He. }
  destruct (client_inv _ _ _ Hs3) as [_ Hflag]. destruct (Z.eqb_spec h 1) as [->|Hne].
  - apply wp_bind, wp_bind_modify, wp_ret. cbn [negb]. rewrite Hidx. by eapply Henter, client_isIndex.
  - destruct Hb as [?| ->]; [lia|]. apply wp_bind, wp_bind_gets, wp_ret. rewrite Hflag, Hidx, eqb_reflx. cbn [negb]. by apply Henter.
Qed.

(** A tree has no more pages than the database. *)
Lemma pages_in_database t : tree_stored pv_db index t -> Forall (fun n => 1 <= n <= (db_count pv_db)) (pages t).
Proof.
  revert t. fix IH 2. intros t Ht. destruct Ht as [p cells kids (Hpage & _) _ _ _ Hkids]. cbn [pages]. constructor; [by apply pv_page_data in Hpage as [? _]|].
  induction Hkids as [|k kids Hk _ IHk]; cbn; [constructor|]. apply Forall_app. split; [by apply IH|done].
Qed.

Lemma pages_count t : tree_stored pv_db index t -> NoDup (pages t) -> (length (pages t) <= Z.to_nat (db_count pv_db))%nat.
Proof.
  intros Ht Hnd. rewrite <- (length_seqZ 1 (db_count pv_db)). apply submseteq_length, NoDup_submseteq; [done|]. intros n Hn. apply elem_of_seqZ.
  pose proof (pages_in_database t Ht) as H. rewrite Forall_forall in H. specialize (H n Hn). lia.
Qed.

Lemma wp_crawl t b s (Q : bool -> St -> Prop) : tree_stored pv_db index t -> NoDup (pages t) -> total = events enters t 1 -> I b [] s ->
  (forall s', I index total s' -> Q (pg_isOK s') s') -> wp (crawl (root t)) Q s.
Proof.
  intros Ht Hnd Htot Hs HQ. unfold crawl. apply wp_bind_gets. destruct (client_inv _ _ _ Hs) as [Hinv _]. destruct (pv_sizes s Hinv) as (_ & _ & E3). rewrite E3.
  pose proof (pages_count t Ht Hnd). apply wp_bind. eapply (wp_safeCrawl _ t 1 b Ht); [lia|done|lia|by left|done|by intros x _ Hx%elem_of_empty|by rewrite Htot|].
  intros v s' _ Hs'. apply wp_gets, HQ. by rewrite Htot.
Qed.
End tree.
