(* ===== verification/FullBackup.v ===== *)
(** * The backup of the current version (repair/mechanic/Backup.cpp)

    A full backup crawls the master table; for each table it crawls the B-tree and keeps the leaves with their
    checksums, for each other item it keeps the SQL, and from the sequence table it keeps the
    sequences.  [Backup] is itself a crawler, and the delegate of the crawlers of the master table
    and of the sequence table.

    The pager is a parameter: [PagerOps] and, for what only a backup asks of it,
    [PagerControl].  The delegates that lock the database and know the cipher are the class [BackupDelegates]. *)

From stdpp Require Import gmap.
From S2P Require Import Prelude CLib Serial Material IncMaterial MappedFile WalLog PageParse Crawl.

(** ** Interfaces *)

(** What a backup asks of its pager beside pages.  A cipher context is a pointer. *)
Class PagerControl (Pg : Type) := {
  pc_initialize : cm Pg bool;
  pc_setCipherContext : Z -> cm Pg unit;
  pc_setPageSize : Z -> cm Pg unit;
  pc_getReservedBytes : Pg -> Z;
  pc_getSchemaCookie : Pg -> Z;
  pc_getWalSalt : Pg -> Z * Z;
  pc_getNBackFill : Pg -> Z;
  pc_getMaxFrame : Pg -> Z
}.

(** The delegates: locks, suspension, the cipher and the clock. *)
Class BackupDelegates (E : Type) := {
  acquireBackupExclusiveLock : cm E bool;
  releaseBackupExclusiveLock : cm E bool;
  backupSuspended : cm E bool;
  isCipherDB : E -> bool;
  getCipherPageSize : cm E Z;
  getCipherContext : cm E Z;
  now_seconds : cm E Z
}.

(** ** Names *)

Definition tolower (c : Z) : Z := if (65 <=? c) && (c <=? 90) then c + 32 else c.

(** [strncasecmp] stops at a terminator. *)
Definition caseInsensitiveEqual (a b : list Z) : bool :=
  (zlen a =? zlen b) && bool_decide (map tolower (cstr a) = map tolower (cstr b)).

Definition sequenceTable : list Z := [115; 113; 108; 105; 116; 101; 95; 115; 101; 113; 117; 101; 110; 99; 101]. (* sqlite_sequence *)
Definition table_word : list Z := [116; 97; 98; 108; 101]. (* table *)

(** ** The state *)

(** [bw_error] is the error of the backup itself; [bw_verifying]: [m_verifyingPagenos] points to the pages of the
    incremental material.  [bw_checked] are the positions of the contents whose member [checked] is set. *)
Record BackupWork (E : Type) := MkWork {
  bw_material : Material;
  bw_checked : gset nat;
  bw_incremental : option IncMaterial;
  bw_verifying : bool;
  bw_verified : list VPage;
  bw_unchanged : list bool;
  bw_flags : CrawlerFlags;
  bw_masterFlags : CrawlerFlags;
  bw_seqFlags : CrawlerFlags;
  bw_error : RepairError;
  bw_env : E
}.
Arguments MkWork {E}.
Arguments bw_material {E}.
Arguments bw_checked {E}.
Arguments bw_incremental {E}.
Arguments bw_verifying {E}.
Arguments bw_verified {E}.
Arguments bw_unchanged {E}.
Arguments bw_flags {E}.
Arguments bw_masterFlags {E}.
Arguments bw_seqFlags {E}.
Arguments bw_error {E}.
Arguments bw_env {E}.

Record Backup (Pg E : Type) := MkBackup { b_pager : Pg; b_work : BackupWork E }.
Arguments MkBackup {Pg E}.
Arguments b_pager {Pg E}.
Arguments b_work {Pg E}.

Section setters.
Context {E : Type}.
Implicit Types w : BackupWork E.

Definition set_material m w := MkWork m (bw_checked w) (bw_incremental w) (bw_verifying w) (bw_verified w) (bw_unchanged w) (bw_flags w) (bw_masterFlags w) (bw_seqFlags w) (bw_error w) (bw_env w).
Definition set_checked c w := MkWork (bw_material w) c (bw_incremental w) (bw_verifying w) (bw_verified w) (bw_unchanged w) (bw_flags w) (bw_masterFlags w) (bw_seqFlags w) (bw_error w) (bw_env w).
Definition set_incremental i w := MkWork (bw_material w) (bw_checked w) i (bw_verifying w) (bw_verified w) (bw_unchanged w) (bw_flags w) (bw_masterFlags w) (bw_seqFlags w) (bw_error w) (bw_env w).
Definition set_verified v w := MkWork (bw_material w) (bw_checked w) (bw_incremental w) (bw_verifying w) v (bw_unchanged w) (bw_flags w) (bw_masterFlags w) (bw_seqFlags w) (bw_error w) (bw_env w).
Definition set_unchanged u w := MkWork (bw_material w) (bw_checked w) (bw_incremental w) (bw_verifying w) (bw_verified w) u (bw_flags w) (bw_masterFlags w) (bw_seqFlags w) (bw_error w) (bw_env w).
Definition set_flags f w := MkWork (bw_material w) (bw_checked w) (bw_incremental w) (bw_verifying w) (bw_verified w) (bw_unchanged w) f (bw_masterFlags w) (bw_seqFlags w) (bw_error w) (bw_env w).
Definition set_masterFlags f w := MkWork (bw_material w) (bw_checked w) (bw_incremental w) (bw_verifying w) (bw_verified w) (bw_unchanged w) (bw_flags w) f (bw_seqFlags w) (bw_error w) (bw_env w).
Definition set_seqFlags f w := MkWork (bw_material w) (bw_checked w) (bw_incremental w) (bw_verifying w) (bw_verified w) (bw_unchanged w) (bw_flags w) (bw_masterFlags w) f (bw_error w) (bw_env w).
Definition set_error e w := MkWork (bw_material w) (bw_checked w) (bw_incremental w) (bw_verifying w) (bw_verified w) (bw_unchanged w) (bw_flags w) (bw_masterFlags w) (bw_seqFlags w) e (bw_env w).
Definition set_env (e : E) w : BackupWork E := MkWork (bw_material w) (bw_checked w) (bw_incremental w) (bw_verifying w) (bw_verified w) (bw_unchanged w) (bw_flags w) (bw_masterFlags w) (bw_seqFlags w) (bw_error w) e.
End setters.

Section backup.
Context {Pg E : Type} `{PO : PagerOps Pg} `{PC : !PagerControl Pg} `{BD : BackupDelegates E} `{ZL : Crc}.
(** [m_filter], if one was set. *)
Variable m_filter : option (list Z -> bool).

Definition on_pager {A} (c : cm Pg A) : cm (Backup Pg E) A := zoom b_pager (fun p s => MkBackup p (b_work s)) c.
Definition on_work {A} (c : cm (BackupWork E) A) : cm (Backup Pg E) A := zoom b_work (fun w s => MkBackup (b_pager s) w) c.
Definition on_env {A} (c : cm E A) : cm (Backup Pg E) A := on_work (zoom bw_env set_env c).
Definition modify_work (f : BackupWork E -> BackupWork E) : cm (Backup Pg E) unit := modify (fun s => MkBackup (b_pager s) (f (b_work s))).

(** The crawlers share the pager. *)
#[export] Instance backup_pager : PagerOps (Backup Pg E) := {|
  pg_acquire n off size := on_pager (pg_acquire n off size);
  pg_numberOfPages s := pg_numberOfPages (b_pager s);
  pg_pageSize s := pg_pageSize (b_pager s);
  pg_usableSize s := pg_usableSize (b_pager s);
  pg_malloc n := on_pager (pg_malloc n);
  pg_setError e := on_pager (pg_setError e);
  pg_error s := pg_error (b_pager s);
  pg_threadOK s := pg_threadOK (b_pager s)
|}.

(** The flags of the three crawlers: the backup, its master crawler and the sequence crawler at work. *)
Definition BackupFlags : FlagsOf (Backup Pg E) := {| fl_get s := bw_flags (b_work s); fl_put f s := MkBackup (b_pager s) (set_flags f (b_work s)) |}.
Definition MasterFlags : FlagsOf (Backup Pg E) := {| fl_get s := bw_masterFlags (b_work s); fl_put f s := MkBackup (b_pager s) (set_masterFlags f (b_work s)) |}.
Definition SequenceFlags : FlagsOf (Backup Pg E) := {| fl_get s := bw_seqFlags (b_work s); fl_put f s := MkBackup (b_pager s) (set_seqFlags f (b_work s)) |}.

(** ** As a crawler *)

Definition backup_onCrawlerError : cm (Backup Pg E) unit := suspend MasterFlags ;;; suspend BackupFlags.
Definition backup_markAsCorrupted (page : Z) : cm (Backup Pg E) unit := pg_setError (Corrupt page) ;;; backup_onCrawlerError.

(** The pages to be verified, if the backup is incremental. *)
Definition verifying (w : BackupWork E) : option (gmap Z IncPage) :=
  if bw_verifying w then option_map inc_pages (bw_incremental w) else None.
Definition set_pages (f : gmap Z IncPage -> gmap Z IncPage) (w : BackupWork E) : BackupWork E :=
  set_incremental (option_map (fun i => MkIncMaterial (inc_info i) (f (inc_pages i))) (bw_incremental w)) w.

Definition backup_canCrawlPage (pageno : Z) : cm (Backup Pg E) bool :=
  let! w := gets b_work in
  match verifying w with
  | None => ret true
  | Some pages =>
    if (zlen (bw_unchanged w) <? pageno) || (pageno =? 0) then backup_markAsCorrupted (s32 pageno) ;;; ret false
    else
      let! unchanged := lift_res (zread (bw_unchanged w) (pageno - 1)) in
      if (unchanged : bool) then
        modify_work (set_unchanged (<[Z.to_nat (pageno - 1) := false]> (bw_unchanged w))) ;;; ret false
      else
        match pages !! pageno with
        | Some page =>
          let isLeaf := ptype page =? 13 in
          (if isLeaf then modify_work (fun w => set_verified (bw_verified w ++ [MkVPage pageno (phash page)]) w) else ret tt) ;;;
          modify_work (set_pages (delete pageno)) ;;;
          ret (negb isLeaf)
        | None => ret true
        end
  end.

(** [WCTAssert(false)] is for debugging. *)
Definition backup_onCellCrawled (cell : Cell) : cm (Backup Pg E) unit := ret tt.

(** The counter [m_unchangedLeavesCount] is only read by the [WCTAssert] before a leaf is added, which a
    release build leaves out; neither is part of the model.  The counter is never decremented, so that
    the assertion says that no leaf of the old material was unchanged, and a debug build stops at a leaf
    that is neither changed nor known while another one is unchanged. *)
Definition backup_willCrawlPage (page : Page) (height : Z) : cm (Backup Pg E) bool :=
  let! stop := on_env backupSuspended in
  if (stop : bool) then pg_setError Interrupted ;;; backup_onCrawlerError ;;; ret false
  else
    match p_type page with
    | InteriorTable => ret true
    | LeafTable =>
      modify_work (fun w => set_verified (bw_verified w ++ [MkVPage (p_number page) (data_hash (p_data page))]) w) ;;; ret false
    | InteriorIndex | LeafIndex => ret false
    | Unknown => backup_markAsCorrupted (p_number page) ;;; ret false
    end.

Definition BackupCrawler : Crawlable (Backup Pg E) := {|
  cr_suspended := poll_suspended BackupFlags;
  cr_isIndex s := cf_isIndex (bw_flags (b_work s));
  cr_setIsIndex := set_isIndex BackupFlags;
  canCrawlPage := backup_canCrawlPage;
  willCrawlPage := backup_willCrawlPage;
  onCellCrawled := backup_onCellCrawled;
  onCrawlerError := backup_onCrawlerError
|}.

(** ** Contents *)

(** [getOrCreateContent]: the position of the content. *)
Definition getOrCreateContent (name : list Z) : cm (Backup Pg E) nat :=
  let! m := gets (fun s => bw_material (b_work s)) in
  match contentsMap m !! name with
  | Some i => ret i
  | None =>
    let i := length (contentsList m) in
    modify_work (set_material (MkMaterial (info m) (contentsList m ++ [MkContent name [] [] UnknownPageNo 0 []]) (<[name := i]> (contentsMap m)))) ;;;
    ret i
  end.

Definition update_content (i : nat) (f : Content -> Content) : cm (Backup Pg E) unit :=
  modify_work (fun w => let m := bw_material w in set_material (MkMaterial (info m) (alter f i (contentsList m)) (contentsMap m)) w).

Definition set_seqTableRootPage (n : Z) (m : Material) : Material :=
  let i := info m in MkMaterial (MkInfo (pageSize i) (reservedBytes i) (walSalt i) (nBackFill i) n) (contentsList m) (contentsMap m).

Definition filter_table (name : list Z) : bool := match m_filter with Some f => f name | None => true end.

(** ** As the delegate of the crawlers *)

(** A page that a crawler has read needs no verification. *)
Definition forget_page (page : Page) : cm (Backup Pg E) unit :=
  let! w := gets b_work in
  match verifying w with Some _ => modify_work (set_pages (delete (p_number page))) | None => ret tt end.

Definition backup_onSequenceCellCrawled (cell : Cell) (sequence : SequenceItem) : cm (Backup Pg E) unit :=
  if si_seq sequence =? 0 then ret tt
  else if negb (isReservedTableName (si_name sequence)) && filter_table (si_name sequence) then
    let! i := getOrCreateContent (si_name sequence) in
    update_content i (fun c => MkContent (tableName c) (sql c) (associatedSQLs c) (rootPage c) (Z.max (Material.sequence c) (si_seq sequence)) (verifiedPagenos c))
  else ret tt.

#[export] Instance backup_sequence_delegate : SequenceCrawlerDelegate (Backup Pg E) := {|
  onSequencePageCrawled := forget_page;
  onSequenceCellCrawled := backup_onSequenceCellCrawled;
  onSequenceCrawlerError := backup_onCrawlerError
|}.

(** A sequence crawler of its own is made for the sequence table; other threads know nothing of it. *)
Definition crawl_sequences (rootpage : Z) : cm (Backup Pg E) bool :=
  modify_work (set_seqFlags (new_flags [])) ;;; sequence_work SequenceFlags rootpage.

Definition backup_onMasterCellCrawled (cell : Cell) (master : MasterItem) : cm (Backup Pg E) unit :=
  if bool_decide (mi_name master = sequenceTable) then
    modify_work (fun w => set_material (set_seqTableRootPage (mi_rootpage master) (bw_material w)) w) ;;;
    crawl_sequences (mi_rootpage master) ;;; ret tt
  else if filter_table (mi_tableName master) && negb (isReservedTableName (mi_tableName master)) && negb (isReservedTableName (mi_name master)) then
    let! i := getOrCreateContent (mi_tableName master) in
    if caseInsensitiveEqual (mi_type master) table_word && caseInsensitiveEqual (mi_name master) (mi_tableName master) then
      update_content i (fun c => MkContent (tableName c) (mi_sql master) [] (mi_rootpage master) (Material.sequence c) (verifiedPagenos c)) ;;;
      modify_work (fun w => set_checked ({[i]} ∪ bw_checked w) w) ;;;
      let! inc := gets (fun s => bw_incremental (b_work s)) in
      match inc with
      | Some _ => ret tt
      | None =>
        let! ok := crawl (C := BackupCrawler) (mi_rootpage master) in
        if negb ok then ret tt
        else
          let! v := gets (fun s => bw_verified (b_work s)) in
          update_content i (fun c => MkContent (tableName c) (sql c) (associatedSQLs c) (rootPage c) (Material.sequence c) v) ;;;
          modify_work (set_verified [])
      end
    else
      match mi_sql master with
      | [] => ret tt
      | _ => update_content i (fun c => MkContent (tableName c) (sql c) (associatedSQLs c ++ [mi_sql master]) (rootPage c) (Material.sequence c) (verifiedPagenos c))
      end
  else ret tt.

#[export] Instance backup_master_delegate : MasterCrawlerDelegate (Backup Pg E) := {|
  onMasterPageCrawled := forget_page;
  onMasterCellCrawled := backup_onMasterCellCrawled;
  onMasterCrawlerError := backup_onCrawlerError
|}.

(** ** A full backup *)

Definition set_backup_error (e : RepairError) : cm (Backup Pg E) unit := modify_work (set_error e).

(** The errors of the delegates are those of the thread. *)
Definition delegate_error : cm (Backup Pg E) unit := set_backup_error Threaded.
Definition pager_error : cm (Backup Pg E) unit := let! e := gets pg_error in set_backup_error e.

(** The cipher of the pager; [false] if there is no page size. *)
Definition set_cipher : cm (Backup Pg E) bool :=
  let! cipher := gets (fun s => isCipherDB (bw_env (b_work s))) in
  if (cipher : bool) then
    let! size := on_env getCipherPageSize in
    if size =? 0 then delegate_error ;;; ret false
    else
      let! ctx := on_env getCipherContext in
      on_pager (pc_setCipherContext ctx) ;;; on_pager (pc_setPageSize (s32 size)) ;;; ret true
  else ret true.

(** The block [do { ... } while (false)]: [exclusive] and [succeed]. *)
Definition full_block : cm (Backup Pg E) (bool * bool) :=
  let! locked := on_env acquireBackupExclusiveLock in
  if negb locked then delegate_error ;;; ret (false, false)
  else
    let! ok := set_cipher in
    if negb ok then ret (true, false)
    else
      let! ok := on_pager pc_initialize in
      if negb ok then pager_error ;;; ret (true, false)
      else
        let! released := on_env releaseBackupExclusiveLock in
        if negb released then delegate_error ;;; ret (true, false)
        else
          let! succeed := master_work MasterFlags in
          (if negb succeed then pager_error else ret tt) ;;;
          modify_work (fun w => if seqTableRootPage (info (bw_material w)) =? UnknownPageNo then set_material (set_seqTableRootPage 0 (bw_material w)) w else w) ;;;
          ret (false, succeed).

Definition fullBackup : cm (Backup Pg E) bool :=
  let! (exclusive, succeed) := full_block in
  if (exclusive : bool) then
    let! released := on_env releaseBackupExclusiveLock in
    if negb released && succeed then delegate_error ;;; ret false else ret succeed
  else ret succeed.

(** [updateMaterial]; an incremental material that is made here has a member [garbage] that its constructor leaves. *)
Definition updateMaterial (isIncremental : bool) (garbage : Z) : cm (Backup Pg E) unit :=
  let! s := gets (fun s => s) in
  let w := b_work s in
  let m := bw_material w in
  let p := b_pager s in
  let '(salt, nback, inc) :=
    match bw_incremental w with
    | Some inc => (currentWalSalt (inc_info inc), currentNBackFill (inc_info inc), inc)
    | None =>
      let i := new_inc_info garbage in
      (pc_getWalSalt p, u32 (pc_getNBackFill p),
       MkIncMaterial (MkIncInfo (lastWalSalt i) (currentWalSalt i) (lastNBackFill i) (currentNBackFill i) (lastSchemaCookie i)
                        (u32 (pc_getNBackFill p) =? u32 (pc_getMaxFrame p)) (lastBackupTime i) (incrementalBackupTimes i)) ∅)
    end in
  let! time := on_env now_seconds in
  let i := inc_info inc in
  let! times := (if isIncremental then lift_res (chk_int (incrementalBackupTimes i + 1)) else ret 0) in
  modify_work (fun w => set_material (MkMaterial (MkInfo (u32 (pg_pageSize p)) (u32 (pc_getReservedBytes p)) salt nback (seqTableRootPage (info m))) (contentsList m) (contentsMap m)) w) ;;;
  modify_work (set_incremental (Some (MkIncMaterial
    (MkIncInfo salt salt nback nback (u32 (pc_getSchemaCookie p)) (lastCheckPointFinish i) (u32 time) times) ∅))).
End backup.
