(* ===== verification/FullProps.v ===== *)
(** * The backup of the current version: what crawling gives

    The items of stored rows of the master table and the sequence table; a pager as part of a backup;
    the leaves that crawling a table keeps. *)

From stdpp Require Import gmap.
From S2P Require Import Prelude CLib Values ValuesFacts Pager PagerFacts Btree BtreeFacts Serial SerialFacts Material IncMaterial MappedFile WalLog.
From S2P Require Import PageParse PageFacts Crawl CrawlTree FullBackup.

(** ** Rows *)

(** Column [i] of a stored row. *)
Definition column (c : StoredCell) (i : nat) : rkval := match sc_fields c !! i with Some f => field_value f | None => RNull end.
Definition text_column (c : StoredCell) (i : nat) : list Z := match column c i with RText b => b | _ => [] end.

Lemma column_stored t c p i : good_cell t c -> (i < length (sc_fields c))%nat -> column_value (cell_of p c) (Z.of_nat i) = Done (column c i).
Proof.
  intros (Hr & _) Hi. apply lookup_lt_is_Some in Hi as [f Hf]. unfold column. rewrite Hf. unfold cell_of, sc_payload. by apply column_value_ok.
Qed.

Lemma text_of_column c i v : column_value c i = Done v -> text_or_empty c i = Done (match v with RText b => b | _ => [] end).
Proof.
  unfold column_value, text_or_empty. destruct (getValueType c i) as [t|f]; cbn [res_bind]; [|done].
  destruct t; try (intros [= <-]; done); case_decide; try done; intros H'.
  - destruct (integerValue c i); cbn in H'; [by injection H' as <-|done].
  - destruct (doubleValue c i); cbn in H'; [by injection H' as <-|done].
  - destruct (stringValue c i); cbn in *; [by injection H' as <-|done].
  - destruct (blobValue c i); cbn in *; [by injection H' as <-|done].
Qed.

(** *** The master table *)

(** A row of the master table: five columns, and a root page that is a positive number, or no number.
    The rows of views, triggers and virtual tables have the root page 0 and are none of these: the
    crawler reports the database as corrupted at such a row. *)
Definition master_row (t : PageType) (c : StoredCell) : Prop :=
  good_cell t c /\ (5 <= length (sc_fields c))%nat /\ match column c 3 with RInteger v => 0 < v < 2 ^ 31 | _ => True end.

Definition master_item (c : StoredCell) : MasterItem :=
  MkMasterItem (text_column c 0) (text_column c 1) (text_column c 2) (text_column c 4) (match column c 3 with RInteger v => v | _ => 0 end).

Lemma rootpage_of_column c v : column_value c 3 = Done v ->
  master_rootpage c = Done (match v with RInteger n => if s32 n <=? 0 then None else Some (s32 n) | _ => Some 0 end).
Proof.
  unfold column_value, master_rootpage. destruct (getValueType c 3) as [t|f]; cbn [res_bind]; [|done].
  destruct t; try (intros [= <-]; done); case_decide; try done; intros H'.
  - destruct (integerValue c 3); cbn in *; [by injection H' as <-|done].
  - destruct (doubleValue c 3); cbn in H'; [by injection H' as <-|done].
  - destruct (stringValue c 3); cbn in H'; [by injection H' as <-|done].
  - destruct (blobValue c 3); cbn in H'; [by injection H' as <-|done].
Qed.

(** The delegate gets the item of the row. *)
Lemma wp_master_cell {St} `{P : PagerOps St} `{D : !MasterCrawlerDelegate St} t p c s (Q : unit -> St -> Prop) :
  master_row t c -> wp (onMasterCellCrawled (cell_of p c) (master_item c)) Q s -> wp (master_onCellCrawled (cell_of p c)) Q s.
Proof.
  intros (Hg & Hl & Hroot) HQ. pose proof (fun i => column_stored t c p i Hg) as Hcol. unfold master_onCellCrawled.
  eapply wp_bind_lift_res; [apply text_of_column, (Hcol 0%nat); lia|]. eapply wp_bind_lift_res; [apply text_of_column, (Hcol 1%nat); lia|].
  eapply wp_bind_lift_res; [apply text_of_column, (Hcol 2%nat); lia|]. eapply wp_bind_lift_res; [apply rootpage_of_column, (Hcol 3%nat); lia|].
  unfold master_item, text_column in HQ. destruct (column c 3) as [|v| | |]; [|assert (Es : s32 v = v) by (apply wrap_s_small; lia); rewrite Es, (proj2 (Z.leb_gt _ _)) by lia|..];
  (eapply wp_bind_lift_res; [apply text_of_column, (Hcol 4%nat); lia|]); exact HQ.
Qed.

(** *** The sequence table *)

Definition sequence_row (t : PageType) (c : StoredCell) : Prop :=
  good_cell t c /\ (2 <= length (sc_fields c))%nat /\ (exists b, column c 0 = RText b /\ b <> []) /\ (exists v, column c 1 = RInteger v).

Definition sequence_item (c : StoredCell) : SequenceItem :=
  MkSequenceItem (text_column c 0) (match column c 1 with RInteger v => v | _ => 0 end).

Lemma text_getters c i b : column_value c i = Done (RText b) -> getValueType c i = Done CText /\ stringValue c i = Done b.
Proof.
  unfold column_value. destruct (getValueType c i) as [t|f]; cbn [res_bind]; [|done]. destruct t; try done; intros H.
  - destruct (integerValue c i); done.
  - destruct (doubleValue c i); done.
  - destruct (stringValue c i); cbn in H; [by injection H as <-|done].
  - destruct (blobValue c i); done.
Qed.
Lemma integer_getters c i v : column_value c i = Done (RInteger v) -> getValueType c i = Done CInteger /\ integerValue c i = Done v.
Proof.
  unfold column_value. destruct (getValueType c i) as [t|f]; cbn [res_bind]; [|done]. destruct t; try done; intros H.
  - destruct (integerValue c i); cbn in H; [by injection H as <-|done].
  - destruct (doubleValue c i); done.
  - destruct (stringValue c i); done.
  - destruct (blobValue c i); done.
Qed.

Lemma wp_sequence_cell {St} `{P : PagerOps St} `{D : !SequenceCrawlerDelegate St} (F : FlagsOf St) t p c s (Q : unit -> St -> Prop) :
  sequence_row t c -> wp (onSequenceCellCrawled (cell_of p c) (sequence_item c)) Q s -> wp (sequence_onCellCrawled F (cell_of p c)) Q s.
Proof.
  intros (Hg & Hl & (b & Hb & Hne) & (v & Hv)) HQ. pose proof (fun i => column_stored t c p i Hg) as Hcol. unfold sequence_onCellCrawled.
  unfold sequence_item, text_column in HQ. rewrite Hb, Hv in HQ.
  destruct (text_getters (cell_of p c) 0 b ltac:(rewrite <- Hb; apply (Hcol 0%nat); lia)) as [T0 V0].
  destruct (integer_getters (cell_of p c) 1 v ltac:(rewrite <- Hv; apply (Hcol 1%nat); lia)) as [T1 V1].
  eapply wp_bind_lift_res; [exact T0|]. cbn [bool_decide negb]. eapply wp_bind_lift_res; [exact T1|]. cbn [bool_decide negb].
  eapply wp_bind_lift_res; [exact V0|]. destruct b; [done|]. eapply wp_bind_lift_res; [exact V1|]. exact HQ.
Qed.

(** ** The pager as part of a backup *)

#[export] Instance backup_view {Pg E : Type} `{PO : PagerOps Pg} `{V : !PagerView Pg} : PagerView (Backup Pg E) (P := backup_pager).
Proof.
  refine {|
    pv_inv := fun s => pv_inv (b_pager s); pv_db := pv_db;
    pv_grants := pv_grants; pv_rest := BackupWork E; pv_other := b_work; pv_geometry := pv_geometry;
    pv_sizes := _; pv_page_data := pv_page_data; pv_acquire := _; pv_malloc := _; pv_setError := _ |}.
  - intros s Hs. exact (pv_sizes (b_pager s) Hs).
  - intros n off size s Q Hs H1 H2 H3 H4 HQ. apply wp_zoom, (pv_acquire (St := Pg)); [done..|]. intros r p Hp _ Hr Hg. by apply HQ.
  - intros n s Q Hs Hn HQ. apply wp_zoom, (pv_malloc (St := Pg)); [done..|]. intros r p Hp _ He Hr. by apply HQ.
  - intros e s Q Hs HQ. apply wp_zoom, (pv_setError (St := Pg)); [done|]. intros p Hp _ He. by apply HQ.
Defined.

(** ** What a material should hold *)

Section spec.
Context `{ZL : Crc} (m_filter : option (list Z -> bool)).

(** A content that is there, or a new one behind the others. *)
Definition created (m : Material) (name : list Z) : Material :=
  match contentsMap m !! name with
  | Some _ => m
  | None => MkMaterial (info m) (contentsList m ++ [MkContent name [] [] UnknownPageNo 0 []]) (<[name := length (contentsList m)]> (contentsMap m))
  end.
Definition position (m : Material) (name : list Z) : nat := default (length (contentsList m)) (contentsMap m !! name).
Definition with_content (f : Content -> Content) (i : nat) (m : Material) : Material := MkMaterial (info m) (alter f i (contentsList m)) (contentsMap m).

(** The content of [name], changed by [f]. *)
Definition at_content (name : list Z) (f : Content -> Content) (m : Material) : Material := with_content f (position m name) (created m name).

(** A row of the sequence table raises the sequence of its table. *)
Definition on_sequence (m : Material) (it : SequenceItem) : Material :=
  if si_seq it =? 0 then m
  else if negb (isReservedTableName (si_name it)) && filter_table m_filter (si_name it) then
    at_content (si_name it) (fun c => MkContent (tableName c) (sql c) (associatedSQLs c) (rootPage c) (Z.max (Material.sequence c) (si_seq it)) (verifiedPagenos c)) m
  else m.

(** The leaves of a table with rowids, with their checksums; the pages of an index are passed over. *)
Fixpoint leaves (t : Tree) : list VPage :=
  match t with
  | Node p _ kids =>
    match p_type p with
    | LeafTable => [MkVPage (p_number p) (data_hash (p_data p))]
    | InteriorTable => concat (map leaves kids)
    | _ => []
    end
  end.

(** The rows of a table, with the pages they are in. *)
Fixpoint rows (t : Tree) : list (Page * StoredCell) :=
  match t with
  | Node p cells kids =>
    match p_type p with
    | LeafTable => map (pair p) cells
    | InteriorTable => concat (map rows kids)
    | _ => []
    end
  end.

(** An item of the master table: the sequence table, a table, or something that belongs to a table. *)
Definition is_table (it : MasterItem) : bool := caseInsensitiveEqual (mi_type it) table_word && caseInsensitiveEqual (mi_name it) (mi_tableName it).
Definition is_kept (it : MasterItem) : bool :=
  filter_table m_filter (mi_tableName it) && negb (isReservedTableName (mi_tableName it)) && negb (isReservedTableName (mi_name it)).

Definition sequence_items (t : Tree) : list SequenceItem := map (fun r => sequence_item r.2) (rows t).
Definition master_items (t : Tree) : list MasterItem := map (fun r => master_item r.2) (rows t).

(** [tree_of n] is the tree with root [n]. *)
Definition on_item (tree_of : Z -> Tree) (m : Material) (it : MasterItem) : Material :=
  if bool_decide (mi_name it = sequenceTable) then
    foldl on_sequence (set_seqTableRootPage (mi_rootpage it) m) (sequence_items (tree_of (mi_rootpage it)))
  else if is_kept it then
    if is_table it then
      at_content (mi_tableName it) (fun c => MkContent (tableName c) (mi_sql it) [] (mi_rootpage it) (Material.sequence c) (leaves (tree_of (mi_rootpage it)))) m
    else
      match mi_sql it with
      | [] => created m (mi_tableName it)
      | _ => at_content (mi_tableName it) (fun c => MkContent (tableName c) (sql c) (associatedSQLs c ++ [mi_sql it]) (rootPage c) (Material.sequence c) (verifiedPagenos c)) m
      end
  else m.
End spec.

(** ** Events *)

Section events.
Context `{ZL : Crc}.

Definition verified_of (l : list Event) : list VPage :=
  l ≫= fun e => match e with EPage p _ => if decide (p_type p = LeafTable) then [MkVPage (p_number p) (data_hash (p_data p))] else [] | ECell _ => [] end.
Definition cells_of (l : list Event) : list Cell := l ≫= fun e => match e with ECell c => [c] | EPage _ _ => [] end.

(** A backup goes into the interior pages of tables. *)
Definition backup_enters (p : Page) (h : Z) : bool := bool_decide (p_type p = InteriorTable).
Definition always (p : Page) (h : Z) : bool := true.

Lemma verified_events : forall t h, verified_of (events backup_enters t h) = leaves t.
Proof.
  fix IH 1. intros [p cells kids] h. cbn [events leaves]. unfold verified_of at 1. cbn [mbind list_bind].
  fold (verified_of (if backup_enters p h then match p_type p with
      | InteriorTable => concat (map (fun k => events backup_enters k (h + 1)) kids)
      | InteriorIndex => interleave (map (fun k => events backup_enters k (h + 1)) kids) (map (fun c => ECell (cell_of p c)) cells)
      | LeafTable | LeafIndex => map (fun c => ECell (cell_of p c)) cells
      | Unknown => [] end else [])).
  unfold backup_enters at 1. destruct (p_type p) eqn:Et; try done. cbn [bool_decide decide_rel decide app].
  assert (E : verified_of (concat (map (fun k => events backup_enters k (h + 1)) kids)) = concat (map leaves kids)); [|exact E].
  induction kids as [|k kids IHk]; [done|]. cbn. unfold verified_of in *. rewrite bind_app, IHk. f_equal. apply IH.
Qed.

Fixpoint is_table_tree (t : Tree) : bool := match t with Node p _ kids => isTablePage (p_type p) && forallb is_table_tree kids end.

Lemma cells_of_app l1 l2 : cells_of (l1 ++ l2) = cells_of l1 ++ cells_of l2.
Proof. apply bind_app. Qed.
Lemma verified_of_app l1 l2 : verified_of (l1 ++ l2) = verified_of l1 ++ verified_of l2.
Proof. apply bind_app. Qed.

Lemma cells_events : forall t h, is_table_tree t = true -> cells_of (events always t h) = map (fun r => cell_of r.1 r.2) (rows t).
Proof.
  fix IH 1. intros [p cells kids] h Ht. cbn [events rows is_table_tree always] in *. apply andb_true_iff in Ht as [Hp Hk].
  change (cells_of (EPage p h :: ?l)) with (cells_of l). destruct (p_type p) eqn:Et; try done.
  - induction kids as [|k kids IHk]; [done|]. cbn [map concat forallb] in *. apply andb_true_iff in Hk as [Hk1 Hk2]. rewrite cells_of_app, map_app, IHk by done. f_equal. by apply IH.
  - induction cells as [|c cells IHc]; [done|]. cbn [map]. change (cells_of (ECell ?c :: ?l)) with (c :: cells_of l). by rewrite IHc.
Qed.

End events.

(** ** Clients *)

(** Delegates that grant everything: locks are given, nobody suspends the backup, and there is no cipher. *)
Class CalmDelegates (E : Type) `{BD : BackupDelegates E} := {
  calm_env : E -> Prop;
  calm_acquire : forall e (Q : bool -> E -> Prop), calm_env e -> (forall e', calm_env e' -> Q true e') -> wp acquireBackupExclusiveLock Q e;
  calm_release : forall e (Q : bool -> E -> Prop), calm_env e -> (forall e', calm_env e' -> Q true e') -> wp releaseBackupExclusiveLock Q e;
  calm_suspended : forall e (Q : bool -> E -> Prop), calm_env e -> (forall e', calm_env e' -> Q false e') -> wp backupSuspended Q e;
  calm_plain : forall e, calm_env e -> isCipherDB e = false
}.

(** Nobody suspends the crawler. *)
Definition undisturbed (f : CrawlerFlags) : Prop := cf_suspend f = false /\ Forall (fun r => r = false) (cf_requests f).

Lemma undisturbed_poll f : undisturbed f -> undisturbed (flags_poll f) /\ cf_isIndex (flags_poll f) = cf_isIndex f.
Proof.
  intros [H1 H2]. unfold undisturbed, flags_poll. cbn. rewrite H1. destruct H2 as [|r l -> Hl]; done.
Qed.

Lemma wp_poll {St} (F : FlagsOf St) s (Q : bool -> St -> Prop) : (forall f, fl_get (fl_put f s) = f) -> undisturbed (fl_get s) ->
  Q false (fl_put (flags_poll (fl_get s)) s) -> wp (poll_suspended F) Q s.
Proof. intros HF Hu HQ. apply wp_bind_modify, wp_gets. rewrite HF. destruct (undisturbed_poll _ Hu) as [[-> _] _]. done. Qed.

Section clients.
Context {Pg E : Type} `{PO : PagerOps Pg} `{V : !PagerView Pg} `{BD : BackupDelegates E} `{CD : !CalmDelegates E} `{ZL : Crc}.
Variable m_filter : option (list Z -> bool).
Hypothesis granted : pv_grants.

(** The backup at work: its pager shows the database without an error, it holds the material [m] and the pages [v], and its master
    crawler is in a tree of kind [k]. *)
Definition working (m : Material) (v : list VPage) (k : bool) (s : Backup Pg E) : Prop :=
  (pv_inv (b_pager s) /\ pg_error (b_pager s) = NoError) /\ bw_material (b_work s) = m /\ bw_verified (b_work s) = v /\ cf_isIndex (bw_masterFlags (b_work s)) = k
  /\ bw_incremental (b_work s) = None /\ bw_verifying (b_work s) = false /\ undisturbed (bw_flags (b_work s)) /\ undisturbed (bw_masterFlags (b_work s))
  /\ calm_env (bw_env (b_work s)).

Lemma working_same m v k s s' : working m v k s -> same_pager s s' -> working m v k s'.
Proof. intros ((H1 & H2) & H3) (S1 & S2 & S3). cbn in *. unfold working. rewrite S2. split; [split; [done|congruence]|done]. Qed.

Ltac rework := unfold working in *; destruct_and?; cbn in *; split_and!; try done.

(** *** The backup as a crawler of tables *)

Definition table_client (m : Material) (v : list VPage) (k b : bool) (seen : list Event) (s : Backup Pg E) : Prop :=
  working m (v ++ verified_of seen) k s /\ cf_isIndex (bw_flags (b_work s)) = b.

#[local] Existing Instance BackupCrawler.

Lemma known_client m v k total : (forall p h, EPage p h ∈ total -> p_type p <> Unknown) -> Client (C := BackupCrawler) backup_enters total (table_client m v k).
Proof.
  intros Hknown. split.
  - intros b l s [((H1 & _) & _) H2]. done.
  - intros b l s s' [H1 H2] S. split; [by eapply working_same|]. destruct S as (_ & S2 & _). cbn in S2. by rewrite S2.
  - intros b b' l s [H1 H2]. done.
  - intros b l s Q [H1 H2] HQ. pose proof H1 as (_ & _ & _ & _ & _ & _ & Hf & _). destruct (undisturbed_poll _ Hf) as [P1 P2].
    apply wp_poll; [done..|]. apply HQ. split; [|cbn; congruence].
    by rework.
  - intros b l s n Q [H1 H2] HQ. apply wp_bind_gets. unfold verifying. pose proof H1 as (_ & _ & _ & _ & _ & A6 & _). rewrite A6. by apply wp_ret, HQ.
  - intros b l s p h Q Hpre [H1 H2] HQ. specialize (Hknown p h).
    assert (Hin : EPage p h ∈ total) by (destruct Hpre as [r ->]; apply elem_of_app; left; apply elem_of_app; right; constructor). specialize (Hknown Hin).
    pose proof H1 as (_ & _ & A3 & _ & _ & _ & _ & _ & A9). apply wp_bind, wp_zoom, wp_zoom. eapply calm_suspended; [done|]. intros e' He'. cbn [b_pager b_work].
    unfold backup_enters in HQ. unfold table_client in HQ. setoid_rewrite verified_of_app in HQ. unfold verified_of at 2 in HQ. cbn [mbind list_bind app] in HQ.
    destruct (p_type p) eqn:Et; [done|..]; cbn in HQ.
    + apply wp_ret, HQ. split; [|done]. rework. by rewrite app_nil_r.
    + apply wp_ret, HQ. split; [|done]. rework. by rewrite app_nil_r.
    + apply wp_ret, HQ. split; [|done]. rework. by rewrite app_nil_r.
    + apply wp_bind_modify, wp_ret, HQ. split; [|done]. rework. by rewrite A3, <- app_assoc.
  - intros b l s c Q _ [H1 H2] HQ. apply wp_ret, HQ. split; [|done]. rewrite verified_of_app. unfold verified_of at 2. cbn. by rewrite app_nil_r.
Qed.

Lemma pages_known index : forall t h p h', tree_stored pv_db index t -> EPage p h' ∈ events backup_enters t h -> p_type p <> Unknown.
Proof.
  fix IH 1. intros [q cells kids] h p h' Ht Hin. destruct (tree_node_inv _ _ _ _ Ht) as (Hq & _ & _ & _ & Hkids). cbn [events] in Hin.
  apply elem_of_cons in Hin as [[= -> ->]|Hin]; [by destruct Hq as (_ & ? & _)|]. unfold backup_enters at 1 in Hin.
  destruct (p_type q); cbn in Hin; try (by apply elem_of_nil in Hin). clear Ht.
  induction kids as [|k kids IHk]; cbn in Hin; [by apply elem_of_nil in Hin|]. apply Forall_cons in Hkids as [Hk Hkids].
  apply elem_of_app in Hin as [H|H]; [by eapply IH|by apply IHk].
Qed.

(** Crawling a table keeps its leaves. *)
Lemma wp_crawl_table index t m k s (Q : bool -> Backup Pg E -> Prop) : tree_stored pv_db index t -> NoDup (pages t) -> working m [] k s ->
  (forall s', working m (leaves t) k s' -> Q true s') -> wp (crawl (C := BackupCrawler) (root t)) Q s.
Proof.
  intros Ht Hnd Hs HQ. pose proof (known_client m [] k (events backup_enters t 1) (fun p h => pages_known index t 1 p h Ht)) as K.
  eapply (wp_crawl (St := Backup Pg E) (V := backup_view) granted (C := BackupCrawler) backup_enters (events backup_enters t 1) (table_client m [] k) index t); [exact Ht|done|done|by split|]. intros s' [Hw _]. cbn in Hw. rewrite verified_events in Hw.
  pose proof Hw as ((_ & He) & _). unfold pg_isOK. change (pg_error s') with (pg_error (b_pager s')). rewrite He. by apply HQ.
Qed.

(** *** Contents *)

Lemma wp_getOrCreateContent name m v k s (Q : nat -> Backup Pg E -> Prop) : working m v k s ->
  (forall s', working (created m name) v k s' -> bw_seqFlags (b_work s') = bw_seqFlags (b_work s) -> Q (position m name) s') -> wp (getOrCreateContent name) Q s.
Proof.
  intros Hs HQ. unfold getOrCreateContent. apply wp_bind_gets. pose proof Hs as (_ & -> & _). unfold created, position in HQ.
  destruct (contentsMap m !! name) as [i|]; [by apply wp_ret, HQ|]. apply wp_bind_modify, wp_ret, HQ; [by rework|done].
Qed.

Lemma wp_update_content i f m v k s (Q : unit -> Backup Pg E -> Prop) : working m v k s ->
  (forall s', working (with_content f i m) v k s' -> bw_seqFlags (b_work s') = bw_seqFlags (b_work s) -> Q tt s') -> wp (update_content i f) Q s.
Proof. intros Hs HQ. apply wp_modify, HQ; [|done]. pose proof Hs as (_ & E1 & _). unfold with_content. rewrite <- E1. by rework. Qed.

Lemma wp_at_content name f m v k s (Q : unit -> Backup Pg E -> Prop) : working m v k s ->
  (forall s', working (at_content name f m) v k s' -> bw_seqFlags (b_work s') = bw_seqFlags (b_work s) -> Q tt s') ->
  wp (let! i := getOrCreateContent name in update_content i f) Q s.
Proof.
  intros Hs HQ. apply wp_bind, (wp_getOrCreateContent _ m v k); [done|]. intros s1 H1 E1. apply (wp_update_content _ _ (created m name) v k); [done|].
  intros s2 H2 E2. apply HQ; [done|congruence].
Qed.

(** *** The sequence crawler *)

(** The item of a cell. *)
Definition cell_column (c : Cell) (i : Z) : rkval := match column_value c i with Done v => v | Stuck _ => RNull end.
Definition cell_text (c : Cell) (i : Z) : list Z := match cell_column c i with RText b => b | _ => [] end.
Definition cell_sequence (c : Cell) : SequenceItem := MkSequenceItem (cell_text c 0) (match cell_column c 1 with RInteger v => v | _ => 0 end).
Definition cell_master (c : Cell) : MasterItem :=
  MkMasterItem (cell_text c 0) (cell_text c 1) (cell_text c 2) (cell_text c 4) (match cell_column c 3 with RInteger v => v | _ => 0 end).

Lemma cell_column_stored t p c n : good_cell t c -> (n < length (sc_fields c))%nat -> cell_column (cell_of p c) (Z.of_nat n) = column c n.
Proof. intros Hg Hn. unfold cell_column. by rewrite (column_stored t). Qed.

Lemma cell_sequence_row t p c : sequence_row t c -> cell_sequence (cell_of p c) = sequence_item c.
Proof.
  intros (Hg & Hl & _). pose proof (fun n => cell_column_stored t p c n Hg) as Ec. unfold cell_sequence, cell_text, sequence_item, text_column.
  rewrite (Ec 0%nat ltac:(lia) : cell_column _ 0 = _), (Ec 1%nat ltac:(lia) : cell_column _ 1 = _). done.
Qed.
Lemma cell_master_row t p c : master_row t c -> cell_master (cell_of p c) = master_item c.
Proof.
  intros (Hg & Hl & _). pose proof (fun n => cell_column_stored t p c n Hg) as Ec. unfold cell_master, cell_text, master_item, text_column.
  rewrite (Ec 0%nat ltac:(lia) : cell_column _ 0 = _), (Ec 1%nat ltac:(lia) : cell_column _ 1 = _), (Ec 2%nat ltac:(lia) : cell_column _ 2 = _),
    (Ec 3%nat ltac:(lia) : cell_column _ 3 = _), (Ec 4%nat ltac:(lia) : cell_column _ 4 = _). done.
Qed.

Definition sequence_client (m : Material) (k b : bool) (seen : list Event) (s : Backup Pg E) : Prop :=
  working (foldl (on_sequence m_filter) m (map cell_sequence (cells_of seen))) [] k s /\ undisturbed (bw_seqFlags (b_work s)) /\ cf_isIndex (bw_seqFlags (b_work s)) = b.

Lemma wp_forget_page p m v k s (Q : unit -> Backup Pg E -> Prop) : working m v k s -> Q tt s -> wp (forget_page p) Q s.
Proof. intros Hs HQ. apply wp_bind_gets. unfold verifying. pose proof Hs as (_ & _ & _ & _ & _ & A6 & _). rewrite A6. by apply wp_ret. Qed.

Lemma fold_last {A B} (f : A -> B -> A) a (g : Cell -> B) l c : foldl f a (map g (cells_of (l ++ [ECell c]))) = f (foldl f a (map g (cells_of l))) (g c).
Proof. rewrite cells_of_app, map_app, foldl_app. done. Qed.
Lemma fold_page {A B} (f : A -> B -> A) a (g : Cell -> B) l p h : foldl f a (map g (cells_of (l ++ [EPage p h]))) = foldl f a (map g (cells_of l)).
Proof. rewrite cells_of_app, app_nil_r. done. Qed.

Lemma wp_onSequence c it m k s (Q : unit -> Backup Pg E -> Prop) : working m [] k s ->
  (forall s', working (on_sequence m_filter m it) [] k s' -> bw_seqFlags (b_work s') = bw_seqFlags (b_work s) -> Q tt s') -> wp (backup_onSequenceCellCrawled m_filter c it) Q s.
Proof.
  intros Hs HQ. unfold backup_onSequenceCellCrawled. unfold on_sequence in HQ. destruct (si_seq it =? 0); [by apply wp_ret, HQ|].
  destruct (negb _ && _); [|by apply wp_ret, HQ]. by apply (wp_at_content _ _ m [] k).
Qed.

Lemma sequence_is_client m k total : (forall c, ECell c ∈ total -> exists p t r, c = cell_of p r /\ sequence_row t r) ->
  Client (C := SequenceCrawler (D := backup_sequence_delegate m_filter) SequenceFlags) always total (sequence_client m k).
Proof.
  intros Hrows. split.
  - intros b l s (((H1 & _) & _) & _ & H2). done.
  - intros b l s s' (H1 & H2 & H3) S. pose proof S as (_ & S2 & _). cbn in S2. split_and!; [by eapply working_same|by rewrite S2..].
  - intros b b' l s (H1 & H2 & H3). done.
  - intros b l s Q (H1 & H2 & H3) HQ. destruct (undisturbed_poll _ H2) as [P1 P2]. apply wp_poll; [done..|]. apply HQ. split_and!; [by rework|done|cbn; congruence].
  - intros b l s n Q H HQ. by apply wp_ret, HQ.
  - intros b l s p h Q _ (H1 & H2 & H3) HQ. apply wp_bind, (wp_forget_page _ _ _ _ _ _ H1), wp_ret, HQ. split_and!; try done. by rewrite fold_page.
  - intros b l s c Q Hpre (H1 & H2 & H3) HQ.
    assert (Hin : ECell c ∈ total) by (destruct Hpre as [r ->]; apply elem_of_app; left; apply elem_of_app; right; constructor).
    destruct (Hrows c Hin) as (p & t & r & -> & Hr). cbn [onCellCrawled]. apply (wp_sequence_cell _ t); [done|]. cbn [onSequenceCellCrawled].
    eapply wp_onSequence; [exact H1|]. intros s' Hs' E'. apply HQ. split_and!; [|by rewrite E'..]. by rewrite fold_last, (cell_sequence_row t).
Qed.

Lemma rows_cells t c h : is_table_tree t = true -> ECell c ∈ events always t h -> exists r, r ∈ rows t /\ c = cell_of r.1 r.2.
Proof.
  intros Ht Hin. assert (H : c ∈ cells_of (events always t h)) by (apply list_elem_of_bind; exists (ECell c); split; [constructor|done]).
  rewrite cells_events in H by done. apply list_elem_of_fmap in H as (r & -> & Hr). by exists r.
Qed.

Lemma stored_table t : tree_stored pv_db false t -> is_table_tree t = true.
Proof.
  revert t. fix IH 1. intros [p cells kids] Ht. destruct (tree_node_inv _ _ _ _ Ht) as ((_ & Hk & _) & _ & Hi & _ & Hkids). cbn [is_table_tree]. apply andb_true_iff. split; [by destruct (p_type p)|].
  clear Ht. induction kids as [|k kids IHk]; [done|]. apply Forall_cons in Hkids as [H1 H2]. cbn. apply andb_true_iff. split; [by apply IH|by apply IHk].
Qed.

Lemma items_of_events {A} (g : Cell -> A) (item : StoredCell -> A) (row : PageType -> StoredCell -> Prop) t h :
  (forall ty p c, row ty c -> g (cell_of p c) = item c) -> is_table_tree t = true -> Forall (fun r => row (p_type r.1) r.2) (rows t) ->
  map g (cells_of (events always t h)) = map (fun r => item r.2) (rows t).
Proof.
  intros Hg Ht Hrows. rewrite cells_events, map_map by done. induction Hrows as [|r l Hr _ IH]; [done|]. cbn. f_equal; [by eapply Hg|done].
Qed.

(** The sequence table, crawled. *)
Lemma wp_crawl_sequences t m k s (Q : bool -> Backup Pg E -> Prop) : tree_stored pv_db false t -> NoDup (pages t) -> Forall (fun r => sequence_row (p_type r.1) r.2) (rows t) ->
  working m [] k s -> (forall s', working (foldl (on_sequence m_filter) m (sequence_items t)) [] k s' -> Q true s') -> wp (crawl_sequences m_filter (root t)) Q s.
Proof.
  intros Ht Hnd Hrows Hs HQ. pose proof (stored_table t Ht) as Htab. unfold crawl_sequences. apply wp_bind_modify.
  assert (K : Client (C := SequenceCrawler (D := backup_sequence_delegate m_filter) SequenceFlags) always (events always t 1) (sequence_client m k)).
  { apply sequence_is_client. intros c Hc. destruct (rows_cells t c 1 Htab Hc) as (r & Hr & ->). rewrite Forall_forall in Hrows. by exists r.1, (p_type r.1), r.2; auto. }
  eapply (wp_crawl (St := Backup Pg E) (V := backup_view) granted (C := SequenceCrawler (D := backup_sequence_delegate m_filter) SequenceFlags) always (events always t 1) (sequence_client m k) false t _ _ _ Ht Hnd eq_refl).
  { split_and!; [|done|done..]. cbn. by rework. }
  intros s' (Hw & _). rewrite (items_of_events _ sequence_item sequence_row) in Hw; [|intros; by eapply cell_sequence_row|done..].
  pose proof Hw as ((_ & He) & _). unfold pg_isOK. change (pg_error s') with (pg_error (b_pager s')). rewrite He. by apply HQ.
Qed.

(** *** The master crawler *)

Variable tree_of : Z -> Tree.

(** What the items of the master table name is in the database: a table that is kept is a table with
    rowids, not a table WITHOUT ROWID, whose B-tree is one of an index and of which a backup keeps no
    leaf. *)
Definition item_stored (db : Database) (it : MasterItem) : Prop :=
  if bool_decide (mi_name it = sequenceTable) then
    root (tree_of (mi_rootpage it)) = mi_rootpage it /\ tree_stored db false (tree_of (mi_rootpage it)) /\ NoDup (pages (tree_of (mi_rootpage it)))
    /\ Forall (fun r => sequence_row (p_type r.1) r.2) (rows (tree_of (mi_rootpage it)))
  else if is_kept m_filter it && is_table it then
    root (tree_of (mi_rootpage it)) = mi_rootpage it /\ tree_stored db false (tree_of (mi_rootpage it)) /\ NoDup (pages (tree_of (mi_rootpage it)))
  else True.

Lemma wp_onMaster c it m k s (Q : unit -> Backup Pg E -> Prop) : item_stored pv_db it -> working m [] k s ->
  (forall s', working (on_item m_filter tree_of m it) [] k s' -> Q tt s') -> wp (backup_onMasterCellCrawled m_filter c it) Q s.
Proof.
  intros Hit Hs HQ. unfold backup_onMasterCellCrawled. unfold on_item in HQ. unfold item_stored in Hit. destruct (bool_decide (mi_name it = sequenceTable)).
  - destruct Hit as (Hroot & Ht & Hnd & Hrows). apply wp_bind_modify, wp_bind.
    pose proof (fun s Q => wp_crawl_sequences (tree_of (mi_rootpage it)) (set_seqTableRootPage (mi_rootpage it) m) k s Q Ht Hnd Hrows) as W. rewrite Hroot in W.
    apply W; [|intros s' Hs'; by apply wp_ret, HQ]. pose proof Hs as (_ & E1 & _). rewrite <- E1. clear HQ W. by rework.
  - fold (is_kept m_filter it). destruct (is_kept m_filter it); [|by apply wp_ret, HQ]. cbn [andb] in Hit. fold (is_table it).
    apply wp_bind, (wp_getOrCreateContent _ m [] k); [done|]. intros s1 H1 _. destruct (is_table it).
    + destruct Hit as (Hroot & Ht & Hnd). apply wp_bind, (wp_update_content _ _ (created m (mi_tableName it)) [] k); [done|]. intros s2 H2 _.
      apply wp_bind_modify. set (m2 := with_content _ _ _) in H2. set (s3 := MkBackup _ _). assert (H3 : working m2 [] k s3) by (clear HQ; by rework). clearbody s3.
      apply wp_bind_gets. pose proof H3 as (_ & _ & _ & _ & E5 & _). rewrite E5. apply wp_bind.
      pose proof (fun s Q => wp_crawl_table false (tree_of (mi_rootpage it)) m2 k s Q Ht Hnd) as W. rewrite Hroot in W. apply W; [done|]. clear W. intros s4 H4. cbn [negb]. apply wp_bind_gets. pose proof H4 as (_ & _ & E3 & _). rewrite E3. apply wp_bind. eapply wp_update_content; [exact H4|]. intros s5 H5 _. apply wp_modify, HQ.
      unfold m2, with_content in H5. cbn [info contentsList contentsMap] in H5. rewrite list_alter_alter_eq in H5.
      unfold at_content, with_content. clear HQ H1 H2 H3 H4 E3 E5. by rework.
    + destruct (mi_sql it); [by apply wp_ret, HQ|]. apply (wp_update_content _ _ (created m (mi_tableName it)) [] k); [done|]. intros s2 H2 _. by apply HQ.
Qed.

Definition master_client (m : Material) (b : bool) (seen : list Event) (s : Backup Pg E) : Prop :=
  working (foldl (on_item m_filter tree_of) m (map cell_master (cells_of seen))) [] b s.

Lemma master_is_client m total : (forall c, ECell c ∈ total -> exists p t r, c = cell_of p r /\ master_row t r /\ item_stored pv_db (master_item r)) ->
  Client (C := MasterCrawler (D := backup_master_delegate m_filter) MasterFlags) always total (master_client m).
Proof.
  intros Hrows. split.
  - intros b l s ((H1 & _) & _ & _ & H2 & _). done.
  - intros b l s s' H1 S. by eapply working_same.
  - intros b b' l s H. unfold master_client in *. by rework.
  - intros b l s Q H1 HQ. pose proof H1 as (_ & _ & _ & E4 & _ & _ & _ & H2 & _). destruct (undisturbed_poll _ H2) as [P1 P2]. apply wp_poll; [done..|]. apply HQ.
    unfold master_client in *. clear HQ. by rework.
  - intros b l s n Q H HQ. by apply wp_ret, HQ.
  - intros b l s p h Q _ H1 HQ. apply wp_bind, (wp_forget_page _ _ _ _ _ _ H1), wp_ret, HQ. unfold master_client. by rewrite fold_page.
  - intros b l s c Q Hpre H1 HQ.
    assert (Hin : ECell c ∈ total) by (destruct Hpre as [r ->]; apply elem_of_app; left; apply elem_of_app; right; constructor).
    destruct (Hrows c Hin) as (p & t & r & -> & Hr & Hi). cbn [onCellCrawled]. apply (wp_master_cell t); [done|]. cbn [onMasterCellCrawled].
    eapply wp_onMaster; [done|exact H1|]. intros s' Hs'. apply HQ. unfold master_client. by rewrite fold_last, (cell_master_row t).
Qed.

Lemma wp_master_work t m k s (Q : bool -> Backup Pg E -> Prop) : root t = 1 -> tree_stored pv_db false t -> NoDup (pages t) ->
  Forall (fun r => master_row (p_type r.1) r.2 /\ item_stored pv_db (master_item r.2)) (rows t) -> working m [] k s ->
  (forall s', working (foldl (on_item m_filter tree_of) m (master_items t)) [] false s' -> Q true s') ->
  wp (master_work (D := backup_master_delegate m_filter) MasterFlags) Q s.
Proof.
  intros Hroot Ht Hnd Hrows Hs HQ. pose proof (stored_table t Ht) as Htab. unfold master_work. rewrite <- Hroot.
  assert (K : Client (C := MasterCrawler (D := backup_master_delegate m_filter) MasterFlags) always (events always t 1) (master_client m)).
  { apply master_is_client. intros c Hc. destruct (rows_cells t c 1 Htab Hc) as (r & Hr & ->). rewrite Forall_forall in Hrows. destruct (Hrows r Hr). by exists r.1, (p_type r.1), r.2. }
  eapply (wp_crawl (St := Backup Pg E) (V := backup_view) granted (C := MasterCrawler (D := backup_master_delegate m_filter) MasterFlags) always (events always t 1) (master_client m) false t _ _ _ Ht Hnd eq_refl).
  { exact Hs. }
  intros s' Hw. unfold master_client in Hw. rewrite (items_of_events _ master_item master_row) in Hw; [|intros; by eapply cell_master_row|done|].
  2: { eapply Forall_impl; [exact Hrows|]. by intros r [? _]. }
  pose proof Hw as ((_ & He) & _). unfold pg_isOK. change (pg_error s') with (pg_error (b_pager s')). rewrite He. by apply HQ.
Qed.
End clients.

(** * The backup of the current version: what a material holds

    A full backup of a database keeps, for every table, its SQL, its root page, the leaves of its B-tree
    with their checksums and the SQL of what belongs to it. *)

(** ** The content of a table *)

Definition content (m : Material) (name : list Z) : option Content := contentsMap m !! name ≫= fun i => contentsList m !! i.
Definition fresh (name : list Z) : Content := MkContent name [] [] UnknownPageNo 0 [].

(** The map leads to the contents with the names. *)
Definition indexed (m : Material) : Prop := forall name i, contentsMap m !! name = Some i -> exists c, contentsList m !! i = Some c /\ tableName c = name.

Lemma indexed_created m name : indexed m -> indexed (created m name).
Proof.
  intros H. unfold created. destruct (contentsMap m !! name) as [i|] eqn:E; [done|]. intros n i. cbn. rewrite lookup_insert_Some. intros [[<- <-]|[Hn Hi]].
  - eexists. split; [apply list_lookup_middle; done|done].
  - destruct (H n i Hi) as (c & Hc & Hname). exists c. split; [|done]. rewrite lookup_app_l; [done|]. by eapply lookup_lt_Some.
Qed.

Lemma content_created m name n : indexed m -> content (created m name) n = if decide (n = name) then Some (default (fresh name) (content m name)) else content m n.
Proof.
  intros H. unfold created, content. destruct (contentsMap m !! name) as [i|] eqn:E.
  - destruct (H name i E) as (c & Hc & _). case_decide as Hn; [subst n|done]. rewrite E. cbn. by rewrite Hc.
  - cbn. case_decide as Hn.
    + subst n. rewrite lookup_insert_eq. cbn. by rewrite list_lookup_middle.
    + rewrite lookup_insert_ne by done. destruct (contentsMap m !! n) as [i|] eqn:En; [|done]. cbn. destruct (H n i En) as (c & Hc & _). rewrite lookup_app_l; [done|]. by eapply lookup_lt_Some.
Qed.

Lemma position_created m name : contentsMap (created m name) !! name = Some (position m name).
Proof. unfold created, position. destruct (contentsMap m !! name) eqn:E; cbn; [done|by rewrite lookup_insert_eq]. Qed.

Definition keeps_name (f : Content -> Content) : Prop := forall c, tableName (f c) = tableName c.

Lemma indexed_at m name f : keeps_name f -> indexed m -> indexed (at_content name f m).
Proof.
  intros Hf H. pose proof (indexed_created m name H) as Hc. unfold at_content, with_content. intros n i Hi. cbn in *. destruct (Hc n i Hi) as (c & Hl & Hn).
  destruct (decide (i = position m name)) as [->|Hne].
  - exists (f c). rewrite list_lookup_alter_eq, Hl. split; [done|]. by rewrite Hf.
  - exists c. by rewrite list_lookup_alter_ne.
Qed.

Lemma content_of_at m name f n : indexed m -> content (at_content name f m) n = if decide (n = name) then Some (f (default (fresh name) (content m name))) else content m n.
Proof.
  intros H. pose proof (content_created m name n H) as Hc. pose proof (indexed_created m name H) as Hi. unfold at_content, with_content, content in *. cbn [contentsMap contentsList] in *.
  pose proof (position_created m name) as Hp. case_decide as Hn.
  - subst n. rewrite Hp in *. cbn in *. by rewrite list_lookup_alter_eq, Hc.
  - rewrite <- Hc. destruct (contentsMap (created m name) !! n) as [i|] eqn:E; [|done]. cbn. rewrite list_lookup_alter_ne; [done|]. intros <-.
    destruct (Hi _ _ E) as (c1 & H1 & N1). destruct (Hi _ _ Hp) as (c2 & H2 & N2). congruence.
Qed.

(** ** Items *)

Section items.
Context `{ZL : Crc} (m_filter : option (list Z -> bool)) (tree_of : Z -> Tree).

(** The same but for the sequence. *)
Definition same_table (c c' : option Content) : Prop :=
  match c, c' with
  | Some c, Some c' => tableName c' = tableName c /\ sql c' = sql c /\ associatedSQLs c' = associatedSQLs c /\ rootPage c' = rootPage c /\ verifiedPagenos c' = verifiedPagenos c
  | None, _ => True
  | Some _, None => False
  end.

Lemma same_table_refl c : same_table c c.
Proof. by destruct c. Qed.
Lemma same_table_trans c1 c2 c3 : same_table c1 c2 -> same_table c2 c3 -> same_table c1 c3.
Proof. destruct c1, c2, c3; cbn; try done. intros; destruct_and!. split_and!; congruence. Qed.

Lemma on_sequence_same m it n : indexed m -> indexed (on_sequence m_filter m it) /\ same_table (content m n) (content (on_sequence m_filter m it) n).
Proof.
  intros H. unfold on_sequence. case_match; [split; [done|apply same_table_refl]|]. case_match; [|split; [done|apply same_table_refl]].
  split; [by apply indexed_at|]. rewrite content_of_at by done. case_decide; [subst n|apply same_table_refl]. by destruct (content m (si_name it)).
Qed.

Lemma sequences_same its : forall m n, indexed m -> indexed (foldl (on_sequence m_filter) m its) /\ same_table (content m n) (content (foldl (on_sequence m_filter) m its) n).
Proof.
  induction its as [|it its IH]; intros m n H; [split; [done|apply same_table_refl]|]. cbn. destruct (on_sequence_same m it n H) as [H1 H2]. destruct (IH _ n H1) as [H3 H4].
  split; [done|by eapply same_table_trans].
Qed.

(** The SQL that an item adds to the table [n]. *)
Definition associated (n : list Z) (it : MasterItem) : list (list Z) :=
  if bool_decide (mi_name it = sequenceTable) then []
  else if is_kept m_filter it && bool_decide (mi_tableName it = n) then match mi_sql it with [] => [] | q => [q] end
  else [].

(** An item that defines the table [n]. *)
Definition defines (n : list Z) (it : MasterItem) : Prop := mi_name it <> sequenceTable /\ is_kept m_filter it = true /\ is_table it = true /\ mi_tableName it = n.

Lemma indexed_on_item m it : indexed m -> indexed (on_item m_filter tree_of m it).
Proof.
  intros H. unfold on_item. case_bool_decide; [apply (sequences_same _ (set_seqTableRootPage (mi_rootpage it) m) [] H)|]. destruct (is_kept m_filter it); [|done]. destruct (is_table it); [by apply indexed_at|].
  destruct (mi_sql it); [by apply indexed_created|by apply indexed_at].
Qed.

(** A table is defined by its item. *)
Lemma on_item_defines m it n : indexed m -> defines n it ->
  exists q, content (on_item m_filter tree_of m it) n = Some (MkContent (tableName (default (fresh n) (content m n))) (mi_sql it) [] (mi_rootpage it) q (leaves (tree_of (mi_rootpage it)))).
Proof.
  intros H (Hn & Hk & Ht & <-). unfold on_item. rewrite bool_decide_eq_false_2, Hk, Ht by done. rewrite content_of_at, decide_True by done. by eexists.
Qed.

(** Other items add their SQL. *)
Lemma on_item_other m it n c : indexed m -> content m n = Some c -> ~ defines n it ->
  exists c', content (on_item m_filter tree_of m it) n = Some c' /\
    tableName c' = tableName c /\ sql c' = sql c /\ associatedSQLs c' = associatedSQLs c ++ associated n it /\ rootPage c' = rootPage c /\ verifiedPagenos c' = verifiedPagenos c.
Proof.
  intros H Hc Hd. unfold on_item, associated. case_bool_decide as Hseq.
  - destruct (sequences_same (sequence_items (tree_of (mi_rootpage it))) (set_seqTableRootPage (mi_rootpage it) m) n H) as [_ Hs].
    change (content (set_seqTableRootPage _ m) n) with (content m n) in Hs. rewrite Hc in Hs. cbn in Hs. destruct (content (foldl _ _ _) n) as [c'|]; [|done]. exists c'. rewrite app_nil_r. tauto.
  - unfold defines in Hd. destruct (is_kept m_filter it) eqn:Hk; cbn [andb]; [|exists c; rewrite app_nil_r; tauto].
    case_bool_decide as Hn.
    + destruct (is_table it); [tauto|]. destruct (mi_sql it) as [|b q].
      * rewrite content_created, decide_True by done. exists c. rewrite Hn, Hc, app_nil_r. tauto.
      * rewrite content_of_at, decide_True, Hn, Hc by done. eexists. split; [done|]. tauto.
    + exists c. rewrite app_nil_r. split; [|tauto]. destruct (is_table it); [by rewrite content_of_at, decide_False by auto|].
      destruct (mi_sql it); [by rewrite content_created, decide_False by auto|by rewrite content_of_at, decide_False by auto].
Qed.

Lemma indexed_items its : forall m, indexed m -> indexed (foldl (on_item m_filter tree_of) m its).
Proof. induction its as [|it its IH]; intros m H; [done|]. cbn. by apply IH, indexed_on_item. Qed.

Lemma items_other n its : forall m c, Forall (fun it => ~ defines n it) its -> indexed m -> content m n = Some c ->
  exists c', content (foldl (on_item m_filter tree_of) m its) n = Some c' /\
    tableName c' = tableName c /\ sql c' = sql c /\ associatedSQLs c' = associatedSQLs c ++ concat (map (associated n) its) /\ rootPage c' = rootPage c /\ verifiedPagenos c' = verifiedPagenos c.
Proof.
  induction its as [|it its IH]; intros m c Hd H Hc; [exists c; rewrite app_nil_r; tauto|]. apply Forall_cons in Hd as [Hd1 Hd2]. cbn.
  destruct (on_item_other m it n c H Hc Hd1) as (c1 & H1 & H2 & H3 & H4 & H5 & H6). destruct (IH _ c1 Hd2 (indexed_on_item m it H) H1) as (c2 & G1 & G2 & G3 & G4 & G5 & G6).
  exists c2. rewrite app_assoc, <- H4. split_and!; congruence.
Qed.

Lemma name_of_content m n c : indexed m -> content m n = Some c -> tableName c = n.
Proof. unfold content. intros H Hc. destruct (contentsMap m !! n) as [i|] eqn:E; [|done]. destruct (H n i E) as (c' & Hc' & Hn). cbn in Hc. congruence. Qed.
End items.

(** ** Full backups *)

Section full.
Context {Pg E : Type} `{PO : PagerOps Pg} `{PC : !PagerControl Pg} `{V : !PagerView Pg} `{BD : BackupDelegates E} `{CD : !CalmDelegates E} `{ZL : Crc}.
Variable m_filter : option (list Z -> bool).

(** A backup before it works, whose pager can be initialized. *)
Definition ready (s : Backup Pg E) : Prop :=
  let w := b_work s in
  wp pc_initialize (fun ok p => ok = true /\ pv_inv p /\ pg_error p = NoError) (b_pager s)
  /\ bw_material w = new_material /\ bw_verified w = [] /\ bw_incremental w = None /\ bw_verifying w = false
  /\ undisturbed (bw_flags w) /\ undisturbed (bw_masterFlags w) /\ calm_env (bw_env w).

(** A database: the master table at page 1, and the trees its items name. *)
Definition database_stored (db : Database) (tree_of : Z -> Tree) (master : Tree) : Prop :=
  root master = 1 /\ tree_stored db false master /\ NoDup (pages master)
  /\ Forall (fun r => master_row (p_type r.1) r.2 /\ item_stored m_filter tree_of db (master_item r.2)) (rows master).

(** Without a sequence table its root is 0. *)
Definition settled (m : Material) : Material := if seqTableRootPage (info m) =? UnknownPageNo then set_seqTableRootPage 0 m else m.

Lemma wp_fullBackup tree_of master s (Q : bool -> Backup Pg E -> Prop) : pv_grants -> ready s -> database_stored pv_db tree_of master ->
  (forall s', bw_material (b_work s') = settled (foldl (on_item m_filter tree_of) new_material (master_items master)) -> Q true s') -> wp (fullBackup m_filter) Q s.
Proof.
  intros granted (Hinit & Hm & Hv & Hinc & Hver & Hf & Hmf & Hcalm) (Hroot & Ht & Hnd & Hrows) HQ. unfold fullBackup, full_block.
  apply wp_bind, wp_bind, wp_zoom, wp_zoom. eapply calm_acquire; [done|]. intros e1 He1. cbn [negb].
  apply wp_bind. unfold set_cipher. apply wp_bind_gets. cbn [b_work bw_env set_env]. rewrite (calm_plain e1 He1). apply wp_ret. cbn [negb].
  apply wp_bind, wp_zoom. cbn [b_pager b_work]. eapply wp_mono; [exact Hinit|]. intros ok p (-> & Hp & Hpe). cbn [negb].
  apply wp_bind, wp_zoom, wp_zoom. eapply calm_release; [done|]. intros e2 He2. cbn [negb]. apply wp_bind.
  eapply (wp_master_work m_filter granted tree_of master new_material); [done..| |].
  { unfold working. cbn. split_and!; done. }
  intros s' Hs'. cbn [negb]. apply wp_bind, wp_ret, wp_bind_modify, wp_ret, wp_ret, HQ. cbn. destruct Hs' as (_ & E1 & _). unfold settled. rewrite E1. case_match; cbn; congruence.
Qed.

(** A full backup of a stored database succeeds, and its material is what the rows of the master table say: for each item, in
    their order, a content with its SQL and leaves, SQL that is added to the content of its table, or sequences. *)
Theorem full_backup_material tree_of master s :
  pv_grants -> ready s -> database_stored pv_db tree_of master ->
  wp (fullBackup m_filter) (fun ok s' => ok = true /\ bw_material (b_work s') = settled (foldl (on_item m_filter tree_of) new_material (master_items master))) s.
Proof. intros Hg Hr Hd. eapply wp_fullBackup; [done..|]. by intros s' Hs'. Qed.

(** Every table of the database is in the material. *)
Lemma wp_full_backup_tables tree_of master s before it after :
  pv_grants -> ready s -> database_stored pv_db tree_of master -> master_items master = before ++ it :: after ->
  defines m_filter (mi_tableName it) it -> Forall (fun it' => ~ defines m_filter (mi_tableName it) it') after ->
  wp (fullBackup m_filter) (fun ok s' => ok = true /\ exists c, content (bw_material (b_work s')) (mi_tableName it) = Some c
      /\ tableName c = mi_tableName it /\ sql c = mi_sql it /\ rootPage c = mi_rootpage it /\ verifiedPagenos c = leaves (tree_of (mi_rootpage it))
      /\ associatedSQLs c = concat (map (associated m_filter (mi_tableName it)) after)) s.
Proof.
  intros Hg Hr Hd Hitems Hdef Hafter. eapply wp_fullBackup; [done..|]. intros s' Hs'. split; [done|]. rewrite Hs', Hitems, foldl_app. cbn [foldl].
  assert (H0 : indexed new_material) by (intros n i Hi; cbn in Hi; by rewrite lookup_empty in Hi).
  pose proof (indexed_items m_filter tree_of before _ H0) as H1. set (m1 := foldl _ new_material before) in *.
  destruct (on_item_defines m_filter tree_of m1 it _ H1 Hdef) as (q & Hq). pose proof (indexed_on_item m_filter tree_of m1 it H1) as H2.
  destruct (items_other m_filter tree_of _ after _ _ Hafter H2 Hq) as (c & Hc & C1 & C2 & C3 & C4 & C5). exists c.
  assert (Hset : forall m n, content (settled m) n = content m n) by (intros m n; unfold settled; by case_match). rewrite Hset.
  split_and!; try done. by eapply name_of_content, Hc; apply indexed_items.
Qed.
End full.
