(* ===== verification/IncBackup.v ===== *)
(** * Incremental backups of the current version (repair/mechanic/Backup.cpp)

    An incremental backup starts from the last material and the pages that have changed since: it crawls the tables of the database again,
    but enters neither the leaves that have not changed nor those whose checksum is known, and updates the lists of leaves. *)

From stdpp Require Import gmap.
From S2P Require Import Prelude CLib Serial Material IncMaterial Encrypted MappedFile WalLog PageParse Crawl FullBackup.

(** What an incremental backup asks of its pager beside [PagerControl]. *)
Class PagerLog (Pg : Type) := {
  pl_setWalSkipped : cm Pg unit;
  pl_setNBackFill : Z -> cm Pg unit;
  pl_setWalSalt : Salt -> cm Pg unit;
  pl_loadWal : cm Pg bool;
  pl_disposeWal : cm Pg unit
}.

(** The materials on disk: [Factory::latestMaterialForDatabase] fails, finds no path, or a path, whose file can be read or not; and
    the salt of the cipher context. *)
Class MaterialStore (E : Type) := {
  latestMaterial : cm E (option (option (option (list Z))));
  cipher_salt : E -> list Z
}.

Definition BackupMaxIncrementalTimes : Z := 1000.

(** ** Lists of leaves *)

(** A page that is not among the changed ones is marked in [unchanged], the others are forgotten. *)
Fixpoint mark_pages (changed : gmap Z IncPage) (count : Z) (pages : list VPage) (unchanged : list bool) : res (list VPage * list bool) :=
  match pages with
  | [] => Done ([], unchanged)
  | page :: pages =>
    let? (page, unchanged) :=
      (match changed !! number page with
       | Some _ => Done (MkVPage 0 (hash page), unchanged)
       | None =>
         if number page <=? count then let? u := zwrite_n unchanged (u32 (number page - 1)) [true] in Done (page, u)
         else Done (page, unchanged)
       end) in
    let? (pages, unchanged) := mark_pages changed count pages unchanged in
    Done (page :: pages, unchanged)
  end.

Definition set_verifiedPagenos (v : list VPage) (c : Content) : Content :=
  MkContent (tableName c) (sql c) (associatedSQLs c) (rootPage c) (Material.sequence c) v.

Fixpoint mark_contents (changed : gmap Z IncPage) (count : Z) (l : list Content) (unchanged : list bool) : res (list Content * list bool) :=
  match l with
  | [] => Done ([], unchanged)
  | c :: l =>
    let? (v, unchanged) := mark_pages changed count (verifiedPagenos c) unchanged in
    let? (l, unchanged) := mark_contents changed count l unchanged in
    Done (set_verifiedPagenos v c :: l, unchanged)
  end.

(** Pages of indices and others are not verified. *)
Definition keep_tables (pages : gmap Z IncPage) : gmap Z IncPage := filter (fun p => ptype p.2 = 13 \/ ptype p.2 = 5) pages.

(** A leaf that is still marked was not found in its tree. *)
Definition still_unchanged (unchanged : list bool) (page : VPage) : bool :=
  (0 <? number page) && (number page <=? zlen unchanged) && default false (unchanged !! Z.to_nat (number page - 1)).
Definition forget_deleted (unchanged : list bool) (pages : list VPage) : list VPage :=
  map (fun page => if still_unchanged unchanged page then MkVPage 0 (hash page) else page) pages.

(** ** Lists of contents *)

(** [splice]: the element at [i] goes to the front, and the pointers in the map stay with their elements. *)
Definition to_front (i : nat) (m : Material) : Material :=
  match contentsList m !! i with
  | None => m
  | Some c => MkMaterial (info m) (c :: take i (contentsList m) ++ drop (S i) (contentsList m))
                ((fun j => if decide (j = i) then O else if decide (j < i)%nat then S j else j) <$> contentsMap m)
  end.

(** The tables that the master table does not have any more are erased from the list, and their names from the map. *)
Definition erase_unchecked (checked : gset nat) (m : Material) : Material :=
  let l := zip (seq 0 (length (contentsList m))) (contentsList m) in
  let kept := List.filter (fun e => bool_decide (e.1 ∈ checked)) l in
  let gone := map (fun e => tableName e.2) (List.filter (fun e => negb (bool_decide (e.1 ∈ checked))) l) in
  MkMaterial (info m) (map snd kept)
    ((fun j => length (List.filter (fun e => bool_decide (e.1 < j)%nat) kept)) <$> filter (fun e => e.1 ∉ gone) (contentsMap m)).

(** ** The backup *)

Section backup.
Context {Pg E : Type} `{PO : PagerOps Pg} `{PC : !PagerControl Pg} `{PL : !PagerLog Pg} `{BD : BackupDelegates E} `{ZL : Crc}.
Variable m_filter : option (list Z -> bool).

Definition set_verifying (b : bool) (w : BackupWork E) : BackupWork E :=
  MkWork (bw_material w) (bw_checked w) (bw_incremental w) b (bw_verified w) (bw_unchanged w) (bw_flags w) (bw_masterFlags w) (bw_seqFlags w) (bw_error w) (bw_env w).
Definition modify_material (f : Material -> Material) : cm (Backup Pg E) unit := modify_work (fun w => set_material (f (bw_material w)) w).

(** [Backup::loadWal] *)
Definition backup_loadWal : cm (Backup Pg E) bool :=
  let! locked := on_env acquireBackupExclusiveLock in
  if negb locked then delegate_error ;;; ret false
  else
    let! inc := gets (fun s => bw_incremental (b_work s)) in
    match inc with
    | None => fail NullDeref
    | Some inc =>
      on_pager (pl_setNBackFill (s32 (currentNBackFill (inc_info inc)))) ;;;
      on_pager (pl_setWalSalt (currentWalSalt (inc_info inc))) ;;;
      let! succeed := on_pager pl_loadWal in
      let! released := on_env releaseBackupExclusiveLock in
      if negb released && succeed then delegate_error ;;; ret false else ret succeed
    end.

(** The schema has changed: the master table is crawled, and tables that it does not have are deleted. *)
Definition reload_schema : cm (Backup Pg E) bool :=
  let! ok := backup_loadWal in
  if negb ok then pager_error ;;; ret false
  else
    let! ok := master_work (D := backup_master_delegate m_filter) MasterFlags in
    if negb ok then pager_error ;;; ret false
    else
      modify_material (fun m => if seqTableRootPage (info m) =? UnknownPageNo then set_seqTableRootPage 0 m else m) ;;;
      on_pager pl_disposeWal ;;;
      let! w := gets b_work in
      modify_material (erase_unchecked (bw_checked w)) ;;;
      ret true.

(** The changed pages, which [m_verifyingPagenos] points to. *)
Definition changed_pages : cm (Backup Pg E) (gmap Z IncPage) :=
  let! w := gets b_work in
  match verifying w with Some pages => ret pages | None => fail NullDeref end.

(** A table: its tree is crawled, leaves that are gone are forgotten, the new ones are added, and the table goes to the front of the list. *)
Definition inc_content (i : nat) : cm (Backup Pg E) bool :=
  let! m := gets (fun s => bw_material (b_work s)) in
  match contentsList m !! i with
  | None => fail OutOfBounds
  | Some c =>
    let! ok := crawl (C := BackupCrawler) (s32 (rootPage c)) in
    if negb ok then pager_error ;;; ret false
    else
      let! w := gets b_work in
      update_content i (fun c => set_verifiedPagenos (forget_deleted (bw_unchanged w) (verifiedPagenos c)) c) ;;;
      match bw_verified w with
      | [] => ret true
      | v =>
        update_content i (fun c => set_verifiedPagenos (verifiedPagenos c ++ v) c) ;;;
        modify_work (set_verified []) ;;;
        modify_material (to_front i) ;;;
        ret true
      end
  end.

(** The loop over the contents, [n] of them from position [i] on; it ends when no changed page is left. *)
Fixpoint inc_contents (n i : nat) : cm (Backup Pg E) bool :=
  match n with
  | O => ret true
  | S n =>
    let! ok := inc_content i in
    if negb ok then ret false
    else
      let! pages := changed_pages in
      if bool_decide (pages = ∅) then ret true else inc_contents n (S i)
  end.

(** What follows when the schema is known. *)
Definition verify_changes : cm (Backup Pg E) bool :=
  let! pages := changed_pages in
  if bool_decide (pages = ∅) then ret true
  else
    let! s := gets (fun s => s) in
    let count := u32 (pg_numberOfPages s) in
    let w := b_work s in
    let unchanged := take (Z.to_nat count) (bw_unchanged w) ++ replicate (Z.to_nat count - length (bw_unchanged w)) false in
    let! (contents, unchanged) := lift_res (mark_contents pages count (contentsList (bw_material w)) unchanged) in
    modify_material (fun m => MkMaterial (info m) contents (contentsMap m)) ;;;
    modify_work (set_unchanged unchanged) ;;;
    modify_work (set_pages keep_tables) ;;;
    let! pages := changed_pages in
    if bool_decide (pages = ∅) then ret true
    else inc_contents (length contents) 0.

Definition incrementalBackup : cm (Backup Pg E) bool :=
  let! ok := set_cipher in
  if negb ok then ret false
  else
    on_pager pl_setWalSkipped ;;;
    let! ok := on_pager pc_initialize in
    if negb ok then pager_error ;;; ret false
    else
      modify_work (set_verifying true) ;;;
      let! s := gets (fun s => s) in
      match bw_incremental (b_work s) with
      | None => fail NullDeref
      | Some inc =>
        let root := seqTableRootPage (info (bw_material (b_work s))) in
        let! ok :=
          (if negb (u32 (pc_getSchemaCookie (b_pager s)) =? lastSchemaCookie (inc_info inc)) || (root =? UnknownPageNo) then reload_schema
           else if negb (root =? 0) then
             let! ok := crawl_sequences m_filter (s32 root) in
             if negb ok then pager_error ;;; ret false else ret true
           else ret true) in
        if negb ok then ret false else verify_changes
      end.

(** ** The choice *)

Context `{MS : !MaterialStore E} `{CI : CipherDelegate} `{DA : DataAlloc}.

(** [tryLoadLatestMaterial]: [None] is an error.  [k] is the number of blocks that were allocated before. *)
Definition tryLoadLatestMaterial (k : nat) (incrementalMaterial : option IncMaterial) : cm (Backup Pg E) (option bool) :=
  match incrementalMaterial with
  | None => ret (Some false)
  | Some inc =>
    if BackupMaxIncrementalTimes <=? incrementalBackupTimes (inc_info inc) then ret (Some false)
    else
      let! found := on_env latestMaterial in
      match found with
      | None => ret None
      | Some None => ret (Some false)
      | Some (Some file) =>
        let! w := gets b_work in
        let! (useMaterial, m) :=
          (match file with
           | None | Some [] => ret (false, bw_material w)
           | Some bytes =>
             lift_res (if isCipherDB (bw_env w) then decryptedDeserialize (deserialized k) k (cipher_salt (bw_env w)) bytes false (bw_material w)
                       else deserialized k bytes (bw_material w))
           end) in
        modify_work (set_material m) ;;;
        if negb useMaterial then modify_work (set_material new_material) ;;; ret None
        else if negb (bool_decide (walSalt (info m) = lastWalSalt (inc_info inc))) || negb (nBackFill (info m) =? lastNBackFill (inc_info inc)) then
          modify_work (set_material new_material) ;;; ret (Some false)
        else ret (Some true)
      end
  end.

(** [work]; the incremental material is copied. *)
Definition work (k : nat) (garbage : Z) (incrementalMaterial : option IncMaterial) : cm (Backup Pg E) bool :=
  let! materialLoad := tryLoadLatestMaterial k incrementalMaterial in
  match materialLoad with
  | None => ret false
  | Some false =>
    let! ok := fullBackup m_filter in
    if negb ok then ret false
    else
      (match incrementalMaterial with Some inc => modify_work (set_incremental (Some inc)) | None => ret tt end) ;;;
      updateMaterial false garbage ;;; ret true
  | Some true =>
    (match incrementalMaterial with Some inc => modify_work (set_incremental (Some inc)) | None => ret tt end) ;;;
    let! ok := incrementalBackup in
    if negb ok then ret false
    else updateMaterial true garbage ;;; ret true
  end.
End backup.
