(* ===== verification/IncBackupProps.v ===== *)
(** * Incremental backups of the current version: the leaves they find

    An incremental backup of a database whose schema has not changed leaves every table with the leaves of its
    tree, although it enters none of the leaves that have not changed. *)

From stdpp Require Import gmap.
From S2P Require Import Prelude CLib Serial SerialFacts Material IncMaterial MappedFile WalLog PageParse PageFacts.
From S2P Require Import Crawl CrawlTree FullBackup FullProps IncBackup.

(** ** What the walk does *)

Section visit.
Context `{ZL : Crc}.

(** The changed pages, the marks and the pages that were verified. *)
Record Search := MkSearch { s_changed : gmap Z IncPage; s_marks : list bool; s_verified : list VPage }.

Definition mark_at (n : Z) : nat := Z.to_nat (n - 1).
Definition marked (marks : list bool) (n : Z) : bool := default false (marks !! mark_at n).

(** Whether page [n] is entered, and what is left to be searched: a marked page is only unmarked, and a changed leaf has the
    checksum that is known. *)
Definition admitted (n : Z) (x : Search) : bool * Search :=
  if marked (s_marks x) n then (false, MkSearch (s_changed x) (<[mark_at n := false]> (s_marks x)) (s_verified x))
  else
    match s_changed x !! n with
    | Some page =>
      if ptype page =? 13 then (false, MkSearch (delete n (s_changed x)) (s_marks x) (s_verified x ++ [MkVPage n (phash page)]))
      else (true, MkSearch (delete n (s_changed x)) (s_marks x) (s_verified x))
    | None => (true, x)
    end.

(** Other leaves are read. *)
Fixpoint visit (t : Tree) (x : Search) : Search :=
  match t with
  | Node p cells kids =>
    let '(can, x) := admitted (p_number p) x in
    if (can : bool) then
      match p_type p with
      | LeafTable => MkSearch (s_changed x) (s_marks x) (s_verified x ++ [MkVPage (p_number p) (data_hash (p_data p))])
      | InteriorTable => fold_left (fun x k => visit k x) kids x
      | _ => x
      end
    else x
  end.

Lemma visit_length : forall t x, length (s_marks (visit t x)) = length (s_marks x).
Proof.
  fix IH 1. intros [p cells kids] x. cbn [visit]. unfold admitted.
  assert (Hk : forall x, length (s_marks (fold_left (fun x k => visit k x) kids x)) = length (s_marks x)).
  { induction kids as [|k kids IHk]; intros y; [done|]. cbn [fold_left]. by rewrite IHk, IH. }
  destruct (marked _ _); cbn; [by rewrite length_insert|]. destruct (s_changed x !! p_number p) as [page|]; [destruct (ptype page =? 13); [done|]|]; by destruct (p_type p); rewrite ?Hk.
Qed.

(** ** What a visit finds *)

(** The pages of a tree. *)
Fixpoint nodes (t : Tree) : list Page := match t with Node p _ kids => p :: concat (map nodes kids) end.

Lemma nodes_pages : forall t, map p_number (nodes t) = pages t.
Proof.
  fix IH 1. intros [p cells kids]. cbn [nodes pages map]. f_equal. induction kids as [|k kids IHk]; [done|]. cbn. by rewrite map_app, IHk, IH.
Qed.

Lemma kids_nodes kids p : p ∈ concat (map nodes kids) -> p_number p ∈ concat (map pages kids).
Proof.
  induction kids as [|k kids IH]; [by intros ?%elem_of_nil|]. cbn. rewrite !elem_of_app, <- nodes_pages. intros [H|H]; [left; by apply list_elem_of_fmap_2|right; by apply IH].
Qed.

(** Marks are on leaves that have not changed, and what is known of changed pages is right. *)
Definition node_ok (x : Search) (p : Page) : Prop :=
  match s_marks x !! mark_at (p_number p) with
  | Some true => p_type p = LeafTable /\ s_changed x !! p_number p = None
  | Some false => forall page, s_changed x !! p_number p = Some page -> if decide (p_type p = LeafTable) then ptype page = 13 /\ phash page = data_hash (p_data p) else ptype page <> 13
  | None => False
  end.

(** After a visit to pages [ns]: they are not marked and not among the changed pages. *)
Definition visited_pages (ns : list Z) (x x' : Search) : Prop :=
  (forall n, s_changed x' !! n = if decide (n ∈ ns) then None else s_changed x !! n)
  /\ (forall n, 1 <= n -> s_marks x' !! mark_at n = if decide (n ∈ ns) then Some false else s_marks x !! mark_at n).

Definition new_leaves (marks : list bool) (l : list VPage) : list VPage := List.filter (fun e => negb (marked marks (number e))) l.

Lemma mark_at_inj n n' : 1 <= n -> 1 <= n' -> mark_at n = mark_at n' -> n = n'.
Proof. unfold mark_at. lia. Qed.

Lemma visited_trans ns1 ns2 x1 x2 x3 : visited_pages ns1 x1 x2 -> visited_pages ns2 x2 x3 -> visited_pages (ns1 ++ ns2) x1 x3.
Proof.
  intros [A1 A2] [B1 B2]. split.
  - intros n. rewrite B1, A1. rewrite (decide_ext _ _ _ _ (elem_of_app ns1 ns2 n)). repeat case_decide; tauto.
  - intros n Hn. rewrite B2, A2 by done. rewrite (decide_ext _ _ _ _ (elem_of_app ns1 ns2 n)). repeat case_decide; tauto.
Qed.

Lemma node_ok_other ns x x' p : visited_pages ns x x' -> 1 <= p_number p -> p_number p ∉ ns -> node_ok x p -> node_ok x' p.
Proof. intros [H1 H2] Hp Hn. unfold node_ok. by rewrite H1, H2, decide_False, decide_False by done. Qed.

Lemma leaves_pages : forall t e, e ∈ leaves t -> number e ∈ pages t.
Proof.
  fix IH 1. intros [p cells kids] e He. cbn [leaves pages] in *. destruct (p_type p); try (by apply elem_of_nil in He).
  - apply list_elem_of_further. induction kids as [|k kids IHk]; cbn in *; [by apply elem_of_nil in He|].
    apply elem_of_app in He as [He|He]; apply elem_of_app; [left; by apply IH|right; by apply IHk].
  - apply list_elem_of_singleton in He as ->. constructor.
Qed.

Lemma new_leaves_other ns x x' l : visited_pages ns x x' -> (forall e, e ∈ l -> 1 <= number e /\ number e ∉ ns) -> new_leaves (s_marks x') l = new_leaves (s_marks x) l.
Proof.
  intros [_ H]. unfold new_leaves, marked. induction l as [|e l IH]; intros Hl; [done|]. cbn [List.filter]. destruct (Hl e ltac:(constructor)) as [H1 H2].
  rewrite H, decide_False by done. rewrite IH by (intros e' He'; apply Hl; by constructor). done.
Qed.

Lemma new_leaves_app marks l l' : new_leaves marks (l ++ l') = new_leaves marks l ++ new_leaves marks l'.
Proof. apply List.filter_app. Qed.

(** What [visit] promises of a tree. *)
Definition visit_finds (t : Tree) : Prop := forall x, Forall (node_ok x) (nodes t) ->
  visited_pages (pages t) x (visit t x) /\ s_verified (visit t x) = s_verified x ++ new_leaves (s_marks x) (leaves t).

Lemma visit_kids kids : Forall visit_finds kids -> NoDup (concat (map pages kids)) -> Forall (fun n => 1 <= n) (concat (map pages kids)) ->
  forall x, Forall (node_ok x) (concat (map nodes kids)) ->
  let x' := fold_left (fun x k => visit k x) kids x in
  visited_pages (concat (map pages kids)) x x' /\ s_verified x' = s_verified x ++ new_leaves (s_marks x) (concat (map leaves kids)).
Proof.
  induction 1 as [|k kids Hk _ IH]; intros Hnd Hpos x Hok; cbn [map concat fold_left] in *.
  - split; [by split|]. by rewrite app_nil_r.
  - apply NoDup_app in Hnd as (_ & Hcross & Hnd). apply Forall_app in Hok as [Hok1 Hok2], Hpos as [Hpos1 Hpos2]. destruct (Hk x Hok1) as [V1 E1].
    assert (Hok' : Forall (node_ok (visit k x)) (concat (map nodes kids))).
    { apply Forall_forall. intros p Hp. rewrite Forall_forall in Hok2. rewrite Forall_forall in Hpos2. assert (Hin : p_number p ∈ concat (map pages kids)) by (by apply kids_nodes).
      eapply node_ok_other; [exact V1|by apply Hpos2|by intros ?%Hcross|by apply Hok2]. }
    destruct (IH Hnd Hpos2 _ Hok') as [V2 E2]. split; [by eapply visited_trans|]. rewrite E2, E1, new_leaves_app, <- app_assoc. do 2 f_equal. apply (new_leaves_other _ _ _ _ V1).
    intros e He. rewrite Forall_forall in Hpos2. assert (Hin : number e ∈ concat (map pages kids)).
    { clear -He. induction kids as [|k' kids IH]; cbn in *; [by apply elem_of_nil in He|]. apply elem_of_app in He as [He|He]; apply elem_of_app; [left; by apply leaves_pages|right; by apply IH]. }
    split; [by apply Hpos2|by intros ?%Hcross].
Qed.

Lemma visit_ok db : forall t, tree_stored db false t -> NoDup (pages t) -> Forall (fun n => 1 <= n) (pages t) -> visit_finds t.
Proof.
  fix IH 1. intros [p cells kids] Ht Hnd Hpos [changed marks v] Hok. inversion Ht as [? ? ? Hp Hsub Hidx _ Hkids]; subst. pose proof Hp as (_ & Hknown & _ & _ & _ & _ & _ & Hleaf).
  cbn [nodes] in Hok. apply Forall_cons in Hok as [Hok Hoks]. cbn [pages] in Hnd, Hpos. apply NoDup_cons in Hnd as [Hnew Hnd]. apply Forall_cons in Hpos as [Hp1 Hpos].
  assert (Hk : Forall visit_finds kids).
  { clear Ht Hsub Hleaf Hok Hoks Hp Hnew. induction kids as [|k kids IHk]; [constructor|]. cbn [map concat] in *. apply Forall_cons in Hkids as [K1 K2]. apply NoDup_app in Hnd as (N1 & _ & N2). apply Forall_app in Hpos as [O1 O2].
    constructor; [by apply IH|by apply IHk]. }
  assert (Hentered : forall changed', (forall n, changed' !! n = if decide (n = p_number p) then None else changed !! n) -> marks !! mark_at (p_number p) = Some false ->
    visited_pages [p_number p] (MkSearch changed marks v) (MkSearch changed' marks v)).
  { intros changed' E M. split; cbn.
    - intros n. rewrite E, (decide_ext _ _ _ _ (list_elem_of_singleton n (p_number p))). by case_decide.
    - intros n Hn. case_decide as Hin; [|done]. apply list_elem_of_singleton in Hin as ->. done. }
  unfold node_ok in Hok. cbn [s_marks s_changed] in Hok. cbn [visit pages s_verified s_marks leaves]. unfold admitted. cbn [s_changed s_marks s_verified]. assert (Em : marked marks (p_number p) = default false (marks !! mark_at (p_number p))) by done.
  destruct (marks !! mark_at (p_number p)) as [[]|] eqn:M; [..|done]; cbn in Em; rewrite !Em.
  - destruct Hok as [Et Hc]. rewrite Et in *. cbn [isInteriorPage] in Hleaf. rewrite Hsub in Hleaf. destruct kids; [|done]. cbn [map concat].
    unfold new_leaves. cbn [List.filter number]. rewrite Em. cbn. rewrite app_nil_r. split; [|done]. split; cbn.
    + intros n. case_decide as Hin; [|done]. by apply list_elem_of_singleton in Hin as ->.
    + intros n Hn. case_decide as Hin.
      * apply list_elem_of_singleton in Hin as ->. apply list_lookup_insert_eq. by eapply lookup_lt_Some.
      * apply list_lookup_insert_ne. intros E. apply Hin, list_elem_of_singleton. by apply mark_at_inj.
  - assert (Henter : forall changed', (forall n, changed' !! n = if decide (n = p_number p) then None else changed !! n) ->
      let x' := match p_type p with
                | LeafTable => MkSearch changed' marks (v ++ [MkVPage (p_number p) (data_hash (p_data p))])
                | InteriorTable => fold_left (fun x k => visit k x) kids (MkSearch changed' marks v)
                | _ => MkSearch changed' marks v
                end in
      visited_pages (p_number p :: concat (map pages kids)) (MkSearch changed marks v) x'
      /\ s_verified x' = v ++ new_leaves marks match p_type p with LeafTable => [MkVPage (p_number p) (data_hash (p_data p))] | InteriorTable => concat (map leaves kids) | _ => [] end).
    { intros changed' E. pose proof (Hentered changed' E eq_refl) as V. change (p_number p :: concat (map pages kids)) with ([p_number p] ++ concat (map pages kids)). destruct (p_type p) eqn:Et; try done.
      - pose proof (visit_kids kids Hk Hnd Hpos (MkSearch changed' marks v)) as W. cbn in W. destruct W as [W1 W2].
        { apply Forall_forall. intros q Hq. rewrite Forall_forall in Hoks. eapply node_ok_other; [exact V| | |by apply Hoks].
          - rewrite Forall_forall in Hpos. by apply Hpos, kids_nodes.
          - intros En%list_elem_of_singleton. apply Hnew. rewrite <- En. by apply kids_nodes. }
        split; [by eapply visited_trans|done].
      - cbn [isInteriorPage] in Hleaf. rewrite Hsub in Hleaf. destruct kids; [|done]. cbn [map concat]. rewrite app_nil_r. split; [exact V|].
        unfold new_leaves. cbn [List.filter number]. by rewrite Em. }
    destruct (changed !! p_number p) as [page|] eqn:Ec.
    + specialize (Hok page eq_refl). assert (Ed : forall n, delete (p_number p) changed !! n = if decide (n = p_number p) then None else changed !! n).
      { intros n. destruct (decide (n = p_number p)) as [->|En]; [by rewrite lookup_delete_eq|by rewrite lookup_delete_ne]. }
      specialize (Henter _ Ed). case_decide as Et.
      * destruct Hok as [-> ->]. rewrite Et in Henter. by rewrite Et.
      * rewrite (proj2 (Z.eqb_neq _ _) Hok). exact Henter.
    + apply Henter. intros n. destruct (decide (n = p_number p)) as [->|]; done.
Qed.
End visit.

(** ** The crawler visits *)

Section crawler.
Context {Pg E : Type} `{PO : PagerOps Pg} `{V : !PagerView Pg} `{BD : BackupDelegates E} `{CD : !CalmDelegates E} `{ZL : Crc}.
Hypothesis granted : pv_grants.
Hypothesis few : db_count pv_db < 2 ^ 31.

(** An incremental backup at work with the material [m]. *)
Definition searching (m : Material) (inc : IncInfo) (x : Search) (s : Backup Pg E) : Prop :=
  (pv_inv (b_pager s) /\ pg_error (b_pager s) = NoError) /\ bw_material (b_work s) = m
  /\ bw_incremental (b_work s) = Some (MkIncMaterial inc (s_changed x)) /\ bw_verifying (b_work s) = true
  /\ bw_unchanged (b_work s) = s_marks x /\ bw_verified (b_work s) = s_verified x
  /\ undisturbed (bw_flags (b_work s)) /\ calm_env (bw_env (b_work s)).

Lemma searching_same m inc x s s' : searching m inc x s -> same_pager s s' -> searching m inc x s'.
Proof. intros ((H1 & H2) & H3) (S1 & S2 & S3). cbn in *. unfold searching. rewrite S2. split; [split; [done|congruence]|done]. Qed.

Ltac research := unfold searching in *; destruct_and?; cbn in *; split_and!; try done.

#[local] Existing Instance BackupCrawler.

Lemma wp_canCrawlPage n m inc x s (Q : bool -> Backup Pg E -> Prop) : 1 <= n <= zlen (s_marks x) -> searching m inc x s ->
  (forall s', searching m inc (admitted n x).2 s' -> cf_isIndex (bw_flags (b_work s')) = cf_isIndex (bw_flags (b_work s)) -> Q (admitted n x).1 s') -> wp (backup_canCrawlPage n) Q s.
Proof.
  intros Hn Hs HQ. unfold backup_canCrawlPage. apply wp_bind_gets. pose proof Hs as (_ & _ & E1 & E2 & E3 & E4 & _). unfold verifying. rewrite E2, E1, E3. cbn [option_map inc_pages].
  rewrite (proj2 (Z.ltb_ge _ _)), (proj2 (Z.eqb_neq _ _)) by lia. cbn [orb].
  destruct (lookup_lt_is_Some_2 (s_marks x) (mark_at n)) as [b Hb]; [unfold mark_at, zlen in *; lia|].
  eapply wp_bind_lift_res; [unfold zread; fold (mark_at n); rewrite (proj2 (Z.leb_le _ _)), Hb by lia; reflexivity|].
  unfold admitted, marked in HQ. rewrite Hb in HQ. cbn in HQ. destruct b.
  - apply wp_bind_modify, wp_ret, HQ; [clear HQ|done]. fold (mark_at n). by research.
  - destruct (s_changed x !! n) as [page|]; [|by apply wp_ret, HQ]. destruct (ptype page =? 13).
    + apply wp_bind, wp_modify, wp_bind_modify, wp_ret, HQ; [clear HQ|done]. unfold set_pages. cbn [bw_incremental b_work set_verified]. rewrite E1. cbn [option_map inc_info inc_pages]. research. by rewrite E4.
    + apply wp_bind, wp_ret, wp_bind_modify, wp_ret, HQ; [clear HQ|done]. unfold set_pages. rewrite E1. cbn [option_map inc_info inc_pages]. by research.
Qed.

Definition in_index (s : Backup Pg E) : bool := cf_isIndex (bw_flags (b_work s)).

Lemma wp_not_suspended m inc x s (Q : bool -> Backup Pg E -> Prop) : searching m inc x s ->
  (forall s', searching m inc x s' -> in_index s' = in_index s -> Q false s') -> wp (poll_suspended BackupFlags) Q s.
Proof.
  intros Hs HQ. pose proof Hs as (_ & _ & _ & _ & _ & _ & Hf & _). destruct (undisturbed_poll _ Hf) as [P1 P2]. apply wp_poll; [done..|]. apply HQ; [clear HQ|done]. by research.
Qed.

Lemma wp_willCrawlPage p h m inc x s (Q : bool -> Backup Pg E -> Prop) : searching m inc x s -> p_type p = InteriorTable \/ p_type p = LeafTable ->
  (forall s', searching m inc (if decide (p_type p = LeafTable) then MkSearch (s_changed x) (s_marks x) (s_verified x ++ [MkVPage (p_number p) (data_hash (p_data p))]) else x) s' ->
     in_index s' = in_index s -> Q (bool_decide (p_type p = InteriorTable)) s') -> wp (backup_willCrawlPage p h) Q s.
Proof.
  intros Hs Ht HQ. pose proof Hs as (_ & _ & _ & _ & _ & E4 & _ & Hc). apply wp_bind, wp_zoom, wp_zoom. eapply calm_suspended; [done|]. intros e' He'. cbn [b_pager b_work].
  destruct Ht as [Et|Et]; rewrite Et in *; cbn in HQ.
  - apply wp_ret, HQ; [|done]. clear HQ. by research.
  - apply wp_bind_modify, wp_ret, HQ; [|done]. clear HQ. research. by rewrite E4.
Qed.

(** A crawl of a tree, none of whose pages was visited. *)
Definition visits (crawl : Z -> gset Z -> Z -> cm (Backup Pg E) (gset Z)) (t : Tree) (h : Z) : Prop :=
  forall m inc x visited s (Q : gset Z -> Backup Pg E -> Prop), searching m inc x s -> (h = 1 \/ in_index s = false) -> zlen (s_marks x) = db_count pv_db -> pages_set t ## visited ->
    (forall visited' s', visited' ⊆ visited ∪ pages_set t -> searching m inc (visit t x) s' -> (h = 1 \/ in_index s' = false) -> Q visited' s') -> wp (crawl (root t) visited h) Q s.

Lemma wp_visit_kids crawl h kids : h <> 1 -> Forall (fun t => visits crawl t h) kids -> NoDup (concat (map pages kids)) ->
  forall m inc x visited s (Q : gset Z -> Backup Pg E -> Prop), searching m inc x s -> in_index s = false -> zlen (s_marks x) = db_count pv_db -> kids_set kids ## visited ->
    (forall visited' s', visited' ⊆ visited ∪ kids_set kids -> searching m inc (fold_left (fun x k => visit k x) kids x) s' -> in_index s' = false -> Q visited' s') ->
    wp (crawl_subpages crawl (map root kids) visited h) Q s.
Proof.
  intros Hh. induction 1 as [|t kids Ht _ IH]; intros Hnd m inc x visited s Q Hs Hi Hl Hd HQ; cbn [map concat crawl_subpages fold_left] in *.
  - apply wp_ret, HQ; [apply union_subseteq_l|done..].
  - rewrite kids_set_cons in *. apply NoDup_app in Hnd as (_ & Hcross & Hnd). rewrite disjoint_union_l in Hd. destruct Hd as [Hd1 Hd2].
    apply wp_bind, (wp_not_suspended m inc x); [done|]. intros s1 Hs1 E1. apply wp_bind, (Ht m inc x); [done|right; congruence|done..|].
    intros v2 s2 Hv2 Hs2 [?|E2]; [done|]. eapply (IH Hnd m inc (visit t x)); [done..|unfold zlen in *; by rewrite visit_length| |].
    + intros y Hy Hyv. apply Hv2, elem_of_union in Hyv as [Hyv|Hyv]; [by apply (Hd2 y)|]. apply elem_of_list_to_set in Hyv, Hy. by apply (Hcross y).
    + intros v3 s3 Hv3 Hs3 E3. apply HQ; [by eapply grown_twice|done..].
Qed.

Lemma admitted_length n x : length (s_marks (admitted n x).2) = length (s_marks x).
Proof. unfold admitted. repeat case_match; cbn; rewrite ?length_insert; done. Qed.

Lemma wp_visit fuel : forall t h, tree_stored pv_db false t -> (length (pages t) <= fuel)%nat -> NoDup (pages t) -> 1 <= h -> visits (safeCrawl fuel) t h.
Proof.
  induction fuel as [|fuel IH]; intros t h Hst Hf Hnd Hh m inc x visited s Q Hs Hi Hl Hd HQ; [destruct t; cbn in Hf; lia|].
  pose proof (tree_in_database _ _ Hst) as Hin. destruct t as [p cells kids]. destruct (tree_node_inv _ _ _ _ Hst) as (Hp & Hsub & Hidx & _ & Hkids). pose proof Hp as (_ & Hknown & _).
  cbn [safeCrawl]. unfold root in Hin |- *. cbn [root_page] in *. cbn [visit] in HQ.
  apply wp_bind, (wp_not_suspended m inc x); [done|]. intros s1 Hs1 E1. assert (En : u32 (p_number p) = p_number p) by (apply Z.mod_small; lia). rewrite En.
  apply wp_bind, (wp_canCrawlPage _ m inc x); [lia|done|]. intros s2 Hs2 E2. change (in_index s2 = in_index s1) in E2.
  pose proof (admitted_length (p_number p) x) as Hl2. destruct (admitted (p_number p) x) as [can x2]. cbn [fst snd] in *. destruct can; cbn [negb].
  2: { apply wp_ret, HQ; [apply union_subseteq_l|done|]. destruct Hi; [by left|right; congruence]. }
  pose proof Hs2 as ((Hinv & _) & _). apply wp_bind, (wp_page_initialize (V := backup_view) granted _ _ _ _ _ _ _ Hinv Hp). intros s3 S3. pose proof (searching_same _ _ _ _ _ Hs2 S3) as Hs3.
  assert (E3 : in_index s3 = in_index s2) by (destruct S3 as (_ & S3 & _); cbn in S3; unfold in_index; by rewrite S3).
  assert (Ep : MkPage (p_number p) (p_type p) (p_data p) (p_cellPointers p) (p_subpagenos p) = p) by (by destruct p). rewrite Ep.
  assert (Henter : forall s4, searching m inc x2 s4 -> in_index s4 = false ->
    wp (let! enter := willCrawlPage p h in
        if negb enter then ret visited
        else if bool_decide (p_number p ∈ visited) then markAsCorrupted (p_number p) ;;; ret visited
        else crawl_page (safeCrawl fuel) p ({[p_number p]} ∪ visited) h) Q s4).
  { intros s4 Hs4 E4. apply wp_bind. eapply (wp_willCrawlPage p h m inc x2 s4); [done|by destruct (p_type p); auto|]. intros s5 Hs5 E5.
    destruct (p_type p) eqn:Et; try done.
    - rewrite (bool_decide_eq_true_2 (InteriorTable = InteriorTable)) by done. rewrite decide_False in Hs5 by done. cbn [negb]. rewrite bool_decide_eq_false_2 by (intros Hv; apply (Hd (p_number p)); [apply elem_of_list_to_set; constructor|done]). cbn [negb].
      unfold crawl_page. rewrite Et, Hsub. cbn [pages] in Hnd. apply NoDup_cons in Hnd as [Hroot Hnd].
      apply (wp_visit_kids (safeCrawl fuel) (h + 1) kids ltac:(lia)) with m inc x2; [|done|done|congruence|unfold zlen in *; lia| |].
      + apply Forall_forall. intros t Ht. pose proof (kid_pages p cells kids t Ht) as Hlen. apply IH; [by eapply Forall_forall|lia| |lia].
        apply list_elem_of_split in Ht as (k1 & k2 & ->). rewrite map_app, concat_app in Hnd. cbn in Hnd. apply NoDup_app in Hnd as (_ & _ & Hnd). by apply NoDup_app in Hnd as (Hnd & _).
      + rewrite disjoint_union_r. split; [rewrite disjoint_singleton_r; unfold kids_set; by rewrite elem_of_list_to_set|]. intros y Hy. apply Hd. apply elem_of_list_to_set in Hy. apply elem_of_list_to_set. by constructor.
      + intros v s' Hv Hs' E'. apply HQ; [|done|by right]. change (pages_set (Node p cells kids)) with ({[p_number p]} ∪ kids_set kids). intros y Hy. apply Hv in Hy. rewrite !elem_of_union in *. tauto.
    - rewrite (bool_decide_eq_false_2 (LeafTable = InteriorTable)) by done. apply wp_ret, HQ; [apply union_subseteq_l|done|right; congruence]. }
  destruct (Z.eqb_spec h 1) as [->|Hne].
  - apply wp_bind, wp_bind_modify, wp_ret. cbn [negb]. rewrite Hidx. apply Henter; [|done]. clear HQ Henter. by research.
  - destruct Hi as [?|Hi]; [done|]. apply wp_bind, wp_bind_gets, wp_ret. change (cr_isIndex s3) with (in_index s3). rewrite E3, E2, E1, Hi, Hidx. cbn [eqb negb]. apply Henter; congruence.
Qed.
(** Crawling a table visits its tree. *)
Lemma wp_crawl_visit t m inc x s (Q : bool -> Backup Pg E -> Prop) : tree_stored pv_db false t -> NoDup (pages t) -> searching m inc x s -> zlen (s_marks x) = db_count pv_db ->
  (forall s', searching m inc (visit t x) s' -> Q true s') -> wp (crawl (root t)) Q s.
Proof.
  intros Ht Hnd Hs Hl HQ. unfold crawl. apply wp_bind_gets. pose proof Hs as ((Hinv & _) & _). destruct (pv_sizes _ Hinv) as (_ & _ & E3).
  change (pg_numberOfPages s) with (pg_numberOfPages (b_pager s)). rewrite E3. pose proof (pages_count (V := V) false t Ht Hnd). apply wp_bind.
  eapply (wp_visit _ t 1 Ht); [lia|done|lia|done|by left|done|by intros y _ Hy%elem_of_empty|]. intros v s' _ Hs' _. apply wp_gets.
  pose proof Hs' as ((_ & He) & _). unfold pg_isOK. change (pg_error s') with (pg_error (b_pager s')). rewrite He. by apply HQ.
Qed.
End crawler.

(** ** Lists of leaves *)

(** The entries that are not forgotten. *)
Definition live (l : list VPage) : list VPage := List.filter (fun e => negb (number e =? 0)) l.

Lemma live_app l l' : live (l ++ l') = live l ++ live l'.
Proof. apply List.filter_app. Qed.
Lemma elem_of_live e l : e ∈ live l <-> e ∈ l /\ number e <> 0.
Proof. unfold live. rewrite !list_elem_of_In, filter_In. destruct (Z.eqb_spec (number e) 0); cbn; intuition congruence. Qed.
Lemma live_whole l : (forall e, e ∈ l -> 1 <= number e) -> live l = l.
Proof.
  induction l as [|e l IH]; intros H; [done|]. unfold live in *. cbn. rewrite (proj2 (Z.eqb_neq _ _)) by (specialize (H e ltac:(constructor)); lia). cbn. f_equal.
  apply IH. intros e' He'. apply H. by constructor.
Qed.

Section lists.
Context `{ZL : Crc}.

Lemma still_unchanged_marked marks e : number e <> 0 -> 0 <= number e <= zlen marks -> still_unchanged marks e = marked marks (number e).
Proof. intros H0 H. unfold still_unchanged. rewrite (proj2 (Z.ltb_lt _ _)), (proj2 (Z.leb_le _ _)) by lia. done. Qed.

(** The entries of [old] that are still leaves. *)
Definition still_there (ns : list Z) (old : list VPage) : list VPage := List.filter (fun e => negb (number e =? 0) && bool_decide (number e ∈ ns)) old.

Lemma elem_of_still_there ns old e : e ∈ still_there ns old <-> e ∈ old /\ number e <> 0 /\ number e ∈ ns.
Proof. unfold still_there. rewrite (list_elem_of_In (List.filter _ _)), filter_In, <- list_elem_of_In, andb_true_iff, bool_decide_eq_true, negb_true_iff, Z.eqb_neq. done. Qed.

(** Forgetting the marked entries leaves those that were visited. *)
Lemma live_forget ns x x' old : visited_pages ns x x' -> length (s_marks x') = length (s_marks x) ->
  (forall e, e ∈ old -> number e = 0 \/ (1 <= number e <= zlen (s_marks x) /\ marked (s_marks x) (number e) = true)) ->
  live (forget_deleted (s_marks x') old) = still_there ns old.
Proof.
  intros [_ HV] Hlen. unfold live, forget_deleted, still_there. induction old as [|e old IH]; intros Hold; [done|]. cbn [map List.filter].
  rewrite IH by (intros e' He'; apply Hold; by constructor). clear IH. destruct (Hold e ltac:(constructor)) as [E0|(Hn & Hm)].
  - unfold still_unchanged. rewrite E0. cbn. by rewrite E0.
  - rewrite still_unchanged_marked by (unfold zlen in *; lia). unfold marked in *. rewrite HV by lia. case_decide as Hin; cbn [default].
    + rewrite bool_decide_eq_true_2, andb_true_r by done. done.
    + rewrite Hm. cbn [number Z.eqb negb]. rewrite bool_decide_eq_false_2, andb_false_r by done. done.
Qed.

Lemma filter_halves {A} (f : A -> bool) (l : list A) : l ≡ₚ List.filter f l ++ List.filter (fun a => negb (f a)) l.
Proof.
  induction l as [|a l IH]; [done|]. cbn. destruct (f a); cbn; rewrite IH at 1; [done|]. by rewrite Permutation_middle.
Qed.

Lemma NoDup_filter_map {A B} (g : A -> B) (f : A -> bool) l : NoDup (map g l) -> NoDup (map g (List.filter f l)).
Proof.
  induction l as [|a l IH]; cbn; [done|]. intros [Hn Hd]%NoDup_cons. destruct (f a); cbn; [|by apply IH]. apply NoDup_cons. split; [|by apply IH].
  intros (b & Eb & Hb)%list_elem_of_fmap. apply Hn. rewrite Eb. apply list_elem_of_fmap_2. rewrite list_elem_of_In, filter_In in Hb. apply list_elem_of_In. tauto.
Qed.

Lemma leaves_NoDup : forall t, NoDup (pages t) -> NoDup (map number (leaves t)).
Proof.
  fix IH 1. intros [p cells kids] Hnd. cbn [leaves pages] in *. apply NoDup_cons in Hnd as [_ Hnd]. destruct (p_type p); try apply NoDup_nil_2.
  - induction kids as [|k kids IHk]; cbn in *; [apply NoDup_nil_2|]. apply NoDup_app in Hnd as (H1 & H2 & H3). rewrite map_app. apply NoDup_app. split_and!; [by apply IH| |by apply IHk].
    intros n (e & -> & He)%list_elem_of_fmap (e' & E' & He')%list_elem_of_fmap. apply (H2 (number e)); [by apply leaves_pages|]. rewrite E'.
    clear -He'. induction kids as [|k' kids IHk]; cbn in *; [by apply elem_of_nil in He'|]. apply elem_of_app in He' as [H|H]; apply elem_of_app; [left; by apply leaves_pages|right; by apply IHk].
  - cbn. apply NoDup_singleton.
Qed.

(** What the list of a table is after its tree was visited. *)
Lemma list_after_visit t x old : NoDup (pages t) -> Forall (fun n => 1 <= n) (pages t) -> visit_finds t -> Forall (node_ok x) (nodes t) ->
  (forall e, e ∈ old -> number e = 0 \/ (1 <= number e <= zlen (s_marks x) /\ marked (s_marks x) (number e) = true /\ (number e ∈ pages t -> e ∈ leaves t))) ->
  (forall e, e ∈ leaves t -> marked (s_marks x) (number e) = true -> e ∈ old) -> NoDup (map number (live old)) -> s_verified x = [] ->
  live (forget_deleted (s_marks (visit t x)) old ++ s_verified (visit t x)) ≡ₚ leaves t.
Proof.
  intros Hnd Hpos Hv Hok Hold Hmarked Hndo Hx. destruct (Hv x Hok) as [V E]. rewrite live_app, E, Hx. cbn [app].
  assert (Hpos' : forall e, e ∈ leaves t -> 1 <= number e) by (intros e He; rewrite Forall_forall in Hpos; by apply Hpos, leaves_pages).
  rewrite (live_whole (new_leaves _ _)) by (intros e; unfold new_leaves; rewrite list_elem_of_In, filter_In, <- list_elem_of_In; intros [He _]; by apply Hpos').
  rewrite (live_forget (pages t) x) by (first [done|apply visit_length|intros e He; destruct (Hold e He); tauto]).
  etrans; [|symmetry; apply (filter_halves (fun e => marked (s_marks x) (number e)))]. apply Permutation_app; [|done]. apply NoDup_Permutation.
  - apply (NoDup_fmap_1 number). change (number <$> ?l) with (map number l). assert (Es : still_there (pages t) old = List.filter (fun e => bool_decide (number e ∈ pages t)) (live old)).
    { unfold still_there, live. clear. induction old as [|e old IH]; [done|]. cbn. destruct (number e =? 0); cbn; [done|]. by rewrite IH. }
    rewrite Es. by apply NoDup_filter_map.
  - apply (NoDup_fmap_1 number). by apply NoDup_filter_map, leaves_NoDup.
  - intros e. rewrite elem_of_still_there, (list_elem_of_In (List.filter _ _)), filter_In, <- list_elem_of_In. split.
    + intros (He & H0 & Hp). destruct (Hold e He) as [?|(_ & Hm & Hl)]; [done|]. by split; [apply Hl|].
    + intros [He Hm]. split_and!; [by apply Hmarked|specialize (Hpos' e He); lia|by apply leaves_pages].
Qed.
End lists.

(** ** Marks *)

Definition zero (changed : gmap Z IncPage) (e : VPage) : VPage := match changed !! number e with Some _ => MkVPage 0 (hash e) | None => e end.
Definition zeroed (changed : gmap Z IncPage) (c : Content) : Content := set_verifiedPagenos (map (zero changed) (verifiedPagenos c)) c.
Definition same_numbers (changed : gmap Z IncPage) (l : list VPage) : list Z := map number (List.filter (fun e => bool_decide (changed !! number e = None)) l).

Lemma elem_of_same_numbers changed l n : n ∈ same_numbers changed l <-> exists e, e ∈ l /\ number e = n /\ changed !! n = None.
Proof.
  unfold same_numbers. change (map ?f ?l) with (f <$> l). rewrite list_elem_of_fmap. split.
  - intros (e & -> & He). rewrite list_elem_of_In, filter_In, <- list_elem_of_In, bool_decide_eq_true in He. exists e. tauto.
  - intros (e & He & <- & Hc). exists e. split; [done|]. rewrite list_elem_of_In, filter_In, <- list_elem_of_In, bool_decide_eq_true. done.
Qed.

(** The marks on the pages [ns] are set. *)
Definition marks_set (ns : list Z) (u u' : list bool) : Prop :=
  length u' = length u /\ forall n, 1 <= n -> u' !! mark_at n = if decide (n ∈ ns) then Some true else u !! mark_at n.

Lemma marks_set_trans ns1 ns2 u1 u2 u3 : marks_set ns1 u1 u2 -> marks_set ns2 u2 u3 -> marks_set (ns1 ++ ns2) u1 u3.
Proof.
  intros [A1 A2] [B1 B2]. split; [congruence|]. intros n Hn. rewrite B2, A2 by done. rewrite (decide_ext _ _ _ _ (elem_of_app ns1 ns2 n)). repeat case_decide; tauto.
Qed.

Lemma mark_one n u : 1 <= n <= zlen u -> zlen u < 2 ^ 31 -> exists u', zwrite_n u (u32 (n - 1)) [true] = Done u' /\ marks_set [n] u u'.
Proof.
  intros Hn Hu. exists (<[mark_at n := true]> u). unfold u32. rewrite Z.mod_small by lia. unfold zwrite_n, in_range. change (zlen [true]) with 1.
  rewrite !(proj2 (Z.leb_le _ _)) by lia. cbn [andb]. split.
  - f_equal. rewrite insert_take_drop by (unfold mark_at, zlen in *; lia). unfold mark_at. cbn [length]. by rewrite Nat.add_1_r.
  - split; [apply length_insert|]. intros k Hk. case_decide as Hin.
    + apply list_elem_of_singleton in Hin as ->. apply list_lookup_insert_eq. unfold mark_at, zlen in *. lia.
    + apply list_lookup_insert_ne. intros E. apply Hin, list_elem_of_singleton. apply mark_at_inj; [lia..|done].
Qed.

Lemma mark_pages_ok changed count l : count < 2 ^ 31 -> forall u, zlen u = count -> (forall e, e ∈ l -> changed !! number e = None -> 1 <= number e <= count) ->
  exists u', mark_pages changed count l u = Done (map (zero changed) l, u') /\ marks_set (same_numbers changed l) u u'.
Proof.
  intros Hcount. induction l as [|e l IH]; intros u Hu Hl; [by exists u|]. cbn [mark_pages map]. unfold zero at 1. unfold same_numbers. cbn [List.filter].
  destruct (changed !! number e) as [page|] eqn:Ec; cbn [res_bind].
  - destruct (IH u Hu) as (u' & -> & Hs); [intros e' He'; apply Hl; by constructor|]. cbn [res_bind]. by exists u'.
  - pose proof (Hl e ltac:(constructor) Ec) as Hn. rewrite (proj2 (Z.leb_le _ _)) by lia. destruct (mark_one (number e) u) as (u1 & -> & H1); [lia..|]. cbn [res_bind].
    destruct (IH u1) as (u' & -> & Hs); [destruct H1; unfold zlen in *; lia|intros e' He'; apply Hl; by constructor|]. cbn [res_bind]. exists u'. split; [done|]. cbn [bool_decide decide decide_rel map].
    by apply (marks_set_trans [number e]) with u1.
Qed.

Lemma mark_contents_ok changed count l : count < 2 ^ 31 -> forall u, zlen u = count -> (forall c e, c ∈ l -> e ∈ verifiedPagenos c -> changed !! number e = None -> 1 <= number e <= count) ->
  exists u', mark_contents changed count l u = Done (map (zeroed changed) l, u') /\ marks_set (same_numbers changed (concat (map verifiedPagenos l))) u u'.
Proof.
  intros Hcount. induction l as [|c l IH]; intros u Hu Hl; [by exists u|]. cbn [mark_contents map concat].
  destruct (mark_pages_ok changed count (verifiedPagenos c) Hcount u Hu) as (u1 & -> & H1); [intros e; apply Hl; constructor|]. cbn [res_bind].
  destruct (IH u1) as (u2 & -> & H2); [destruct H1; unfold zlen in *; lia|intros c' e Hc'; apply Hl; by constructor|]. cbn [res_bind]. exists u2. split; [done|].
  unfold same_numbers. rewrite List.filter_app, map_app. by eapply marks_set_trans.
Qed.

(** ** What the material and the changes say of the database *)

Section tables.
Context `{ZL : Crc} (db : Database) (tree_of : Z -> Tree).

Definition tree (c : Content) : Tree := tree_of (rootPage c).

(** The tables of the database: the tree of each, and no page in two of them. *)
Definition tables_stored (l : list Content) : Prop :=
  (forall c, c ∈ l -> root (tree c) = rootPage c /\ tree_stored db false (tree c)) /\ NoDup (concat (map (fun c => pages (tree c)) l))
  /\ Forall (fun n => 1 <= n <= db_count db) (concat (map (fun c => pages (tree c)) l)).

(** The leaves in an old material: one that has not changed since still is that leaf of its table, if it is a page of a table at all, and it is in the file; every
    leaf of a table that has not changed is in the material, as [WCTAssert(m_unchangedLeavesCount == 0)] expects; and a table none of whose pages has changed has
    the leaves of the material. *)
Definition material_old (changed : gmap Z IncPage) (l : list Content) : Prop :=
  (forall c, c ∈ l -> NoDup (map number (verifiedPagenos c)))
  /\ (forall c e, c ∈ l -> e ∈ verifiedPagenos c -> changed !! number e = None -> 1 <= number e <= db_count db
       /\ forall c', c' ∈ l -> number e ∈ pages (tree c') -> rootPage c' = rootPage c /\ e ∈ leaves (tree c))
  /\ (forall c e, c ∈ l -> e ∈ leaves (tree c) -> changed !! number e = None -> e ∈ verifiedPagenos c)
  /\ (forall c, c ∈ l -> (forall n, n ∈ pages (tree c) -> changed !! n = None) -> verifiedPagenos c ≡ₚ leaves (tree c)).

(** The changed pages: their types and, for leaves, the checksums are those in the database. *)
Definition changes_known (changed : gmap Z IncPage) (l : list Content) : Prop :=
  forall c p page, c ∈ l -> p ∈ nodes (tree c) -> changed !! p_number p = Some page ->
    if decide (p_type p = LeafTable) then ptype page = 13 /\ phash page = data_hash (p_data p) else ptype page = 5.

(** A table with the leaves of its tree; nothing else has changed. *)
Definition updated (c c' : Content) : Prop := exists v, c' = set_verifiedPagenos v c /\ live v ≡ₚ leaves (tree c).

Lemma leaf_node : forall t e, e ∈ leaves t -> exists p, p ∈ nodes t /\ p_number p = number e /\ p_type p = LeafTable.
Proof.
  fix IH 1. intros [p cells kids] e He. cbn [leaves nodes] in *. destruct (p_type p) eqn:Et; try (by apply elem_of_nil in He).
  - assert (Hk : exists q, q ∈ concat (map nodes kids) /\ p_number q = number e /\ p_type q = LeafTable).
    { clear Et. induction kids as [|k kids IHk]; cbn in *; [by apply elem_of_nil in He|]. apply elem_of_app in He as [He|He].
      - destruct (IH k e He) as (q & Hq & ?). exists q. rewrite elem_of_app. tauto.
      - destruct (IHk He) as (q & Hq & ?). exists q. rewrite elem_of_app. tauto. }
    destruct Hk as (q & Hq & ?). exists q. split; [by constructor|done].
  - apply list_elem_of_singleton in He as ->. exists p. split; [constructor|done].
Qed.

Lemma node_unique t p q : NoDup (pages t) -> p ∈ nodes t -> q ∈ nodes t -> p_number p = p_number q -> p = q.
Proof.
  rewrite <- nodes_pages. intros Hnd Hp Hq E. apply list_elem_of_lookup in Hp as [i Hi], Hq as [j Hj].
  assert (i = j) as <-; [|congruence]. eapply NoDup_lookup; [exact Hnd|by erewrite list_lookup_fmap, Hi|]. erewrite list_lookup_fmap, Hj. cbn. by rewrite E.
Qed.

Lemma concat_elem {A B} (f : A -> list B) l a b : a ∈ l -> b ∈ f a -> b ∈ concat (map f l).
Proof. intros Ha Hb. apply list_elem_of_In, in_concat. exists (f a). split; apply list_elem_of_In; [by apply list_elem_of_fmap_2|done]. Qed.

Lemma NoDup_concat_elem {A B} (f : A -> list B) l a : NoDup (concat (map f l)) -> a ∈ l -> NoDup (f a).
Proof. intros Hnd (l1 & l2 & ->)%list_elem_of_split. rewrite map_app, concat_app in Hnd. cbn in Hnd. apply NoDup_app in Hnd as (_ & _ & Hnd). by apply NoDup_app in Hnd as (Hnd & _). Qed.

Variables (changed : gmap Z IncPage) (l : list Content) (marks : list bool).
Hypothesis stored : tables_stored l.
Hypothesis old : material_old changed l.
Hypothesis known : changes_known changed l.
Hypothesis count_marks : zlen marks = db_count db.
Hypothesis set_marks : marks_set (same_numbers changed (concat (map verifiedPagenos l))) (replicate (Z.to_nat (db_count db)) false) marks.

Definition start : Search := MkSearch (keep_tables changed) marks [].

Lemma tree_pages c : c ∈ l -> NoDup (pages (tree c)) /\ Forall (fun n => 1 <= n <= db_count db) (pages (tree c)).
Proof.
  intros Hc. destruct stored as (_ & Hnd & Hr). split; [by eapply (NoDup_concat_elem (fun c => pages (tree c)))|]. apply Forall_forall. intros n Hn. rewrite Forall_forall in Hr.
  apply Hr. by eapply (concat_elem (fun c => pages (tree c))).
Qed.

Lemma root_unique c c' : c ∈ l -> c' ∈ l -> rootPage c' = rootPage c -> c' = c.
Proof.
  intros Hc Hc' E. destruct stored as (_ & Hnd & _). apply list_elem_of_split in Hc as (l1 & l2 & El). rewrite El, map_app, concat_app in Hnd. cbn in Hnd.
  assert (Hroot : root (tree c) ∈ pages (tree c) /\ tree c' = tree c) by (unfold tree; rewrite E; split; [destruct (tree_of (rootPage c)); constructor|done]). destruct Hroot as [Hroot Et].
  apply NoDup_app in Hnd as (_ & H1 & H2). apply NoDup_app in H2 as (_ & H2 & _). rewrite El, elem_of_app, elem_of_cons in Hc'. destruct Hc' as [Hin|[->|Hin]]; [exfalso|done|exfalso].
  - apply (H1 (root (tree c))); [eapply (concat_elem (fun c => pages (tree c))); [exact Hin|by rewrite Et]|]. apply elem_of_app. by left.
  - apply (H2 (root (tree c)) Hroot). eapply (concat_elem (fun c => pages (tree c))); [exact Hin|by rewrite Et].
Qed.

Lemma start_marked n : 1 <= n <= db_count db ->
  (marked marks n = true /\ marks !! mark_at n = Some true /\ changed !! n = None /\ exists c e, c ∈ l /\ e ∈ verifiedPagenos c /\ number e = n)
  \/ (marked marks n = false /\ marks !! mark_at n = Some false /\ forall c e, c ∈ l -> e ∈ verifiedPagenos c -> number e = n -> is_Some (changed !! n)).
Proof.
  intros Hn. destruct set_marks as [_ H]. specialize (H n ltac:(lia)). unfold marked. case_decide as Hin.
  - left. rewrite H. apply elem_of_same_numbers in Hin as (e & He & <- & Hc). split_and!; [done..|]. apply list_elem_of_In, in_concat in He as (v & Hv & He).
    apply list_elem_of_In in Hv, He. apply list_elem_of_fmap in Hv as (c & -> & Hc'). by exists c, e.
  - right. rewrite lookup_replicate_2 in H by (unfold mark_at; lia). rewrite H. split_and!; [done..|]. intros c e Hc He E. destruct (changed !! n) eqn:Ec; [done|].
    exfalso. apply Hin, elem_of_same_numbers. exists e. split; [|done]. by eapply concat_elem.
Qed.

Lemma keep_tables_Some n page : keep_tables changed !! n = Some page <-> changed !! n = Some page /\ (ptype page = 13 \/ ptype page = 5).
Proof. unfold keep_tables. by rewrite map_lookup_filter_Some. Qed.

Lemma start_node_ok c p : c ∈ l -> p ∈ nodes (tree c) -> node_ok start p.
Proof.
  intros Hc Hp. destruct (tree_pages c Hc) as [Hnd Hr]. assert (Hin : p_number p ∈ pages (tree c)) by (rewrite <- nodes_pages; by apply list_elem_of_fmap_2).
  rewrite Forall_forall in Hr. specialize (Hr _ Hin). unfold node_ok. cbn [s_marks start s_changed].
  destruct (start_marked _ Hr) as [(_ & -> & Ec & c' & e & Hc' & He & En)|(_ & -> & _)].
  - destruct old as (_ & Hold & _). rewrite <- En in Hin, Ec. destruct (Hold c' e Hc' He Ec) as (_ & Hl). destruct (Hl c Hc Hin) as [<-%root_unique Hleaf]; [|done..].
    destruct (leaf_node _ _ Hleaf) as (q & Hq & Eq & Et). rewrite (node_unique _ p q Hnd Hp Hq) by congruence. split; [done|].
    destruct (keep_tables changed !! _) as [page|] eqn:Ek; [|done]. apply keep_tables_Some in Ek as [Ek _]. congruence.
  - intros page [Ek _]%keep_tables_Some. pose proof (known c p page Hc Hp Ek) as H. case_decide; [done|lia].
Qed.
Lemma apart dn rest c n : l = dn ++ rest -> c ∈ rest -> n ∈ pages (tree c) -> n ∉ concat (map (fun c => pages (tree c)) dn).
Proof.
  intros El Hc Hn Hin. destruct stored as (_ & Hnd & _). rewrite El, map_app, concat_app in Hnd. apply NoDup_app in Hnd as (_ & Hcross & _). apply (Hcross n Hin).
  by eapply (concat_elem (fun c => pages (tree c))).
Qed.

(** A table, when those before it were visited. *)
Lemma table_after_visit dn c rest x : l = dn ++ c :: rest -> visited_pages (concat (map (fun c => pages (tree c)) dn)) start x -> length (s_marks x) = length marks -> s_verified x = [] ->
  live (forget_deleted (s_marks (visit (tree c) x)) (map (zero changed) (verifiedPagenos c)) ++ s_verified (visit (tree c) x)) ≡ₚ leaves (tree c)
  /\ visited_pages (concat (map (fun c => pages (tree c)) (dn ++ [c]))) start (visit (tree c) x).
Proof.
  intros El HV Hlen Hx. assert (Hc : c ∈ l) by (rewrite El; apply elem_of_app; right; constructor). destruct (tree_pages c Hc) as [Hnd Hr].
  pose proof (fun n => apart dn (c :: rest) c n El ltac:(constructor)) as Hapart.
  destruct stored as (Hst & _). destruct (Hst c Hc) as [_ Ht]. assert (Hpos : Forall (fun n => 1 <= n) (pages (tree c))) by (eapply Forall_impl; [exact Hr|]; cbn; lia).
  pose proof (visit_ok db (tree c) Ht Hnd Hpos) as Hvisit. pose proof Hr as Hr'. rewrite Forall_forall in Hr'.
  assert (Hok : Forall (node_ok x) (nodes (tree c))).
  { apply Forall_forall. intros p Hp. assert (Hin : p_number p ∈ pages (tree c)) by (rewrite <- nodes_pages; by apply list_elem_of_fmap_2).
    eapply node_ok_other; [exact HV|specialize (Hr' _ Hin); lia|by apply Hapart|by eapply start_node_ok]. }
  assert (Hmark : forall n, 1 <= n -> n ∉ concat (map (fun c => pages (tree c)) dn) -> marked (s_marks x) n = marked marks n).
  { intros n Hn Hin. destruct HV as [_ HV]. unfold marked. rewrite HV by done. by rewrite decide_False. }
  destruct old as (Hdis & Hold & _). split.
  - apply list_after_visit; try done.
    + intros e' (e & -> & He)%list_elem_of_fmap. unfold zero. destruct (changed !! number e) eqn:Ec; [by left|right].
      destruct (Hold c e Hc He Ec) as [Hn Hl]. rewrite Hmark; [|lia|].
      * destruct (start_marked (number e) Hn) as [(-> & _)|(_ & _ & Hs)]; [|destruct (Hs c e Hc He eq_refl) as [? ?]; congruence].
        split_and!; [unfold zlen in *; lia..|done|]. intros Hin. by destruct (Hl c Hc Hin).
      * intros Hin. apply list_elem_of_In, in_concat in Hin as (ns & (c' & <- & Hc')%in_map_iff & Hin). apply list_elem_of_In in Hc', Hin.
        assert (Hc2 : c' ∈ l) by (rewrite El; apply elem_of_app; by left). destruct (Hl c' Hc2 Hin) as [->%root_unique _]; [|done..]. apply (Hapart _ Hin).
        by eapply (concat_elem (fun c => pages (tree c))).
    + intros e He Hm. pose proof (leaves_pages _ _ He) as Hin. rewrite Hmark in Hm; [|specialize (Hr' _ Hin); lia|by apply Hapart].
      destruct (start_marked (number e) (Hr' _ Hin)) as [(_ & _ & Ec & c' & e' & Hc' & He' & En)|(E & _)]; [|congruence].
      rewrite <- En in Hin, Ec. destruct (Hold c' e' Hc' He' Ec) as [_ Hl]. destruct (Hl c Hc Hin) as [<-%root_unique Hleaf]; [|done..]. assert (e' = e) as ->.
      { pose proof (leaves_NoDup _ Hnd) as Hnl. apply list_elem_of_lookup in He as [i Hi], Hleaf as [j Hj]. assert (i = j) as <-; [|congruence].
        eapply NoDup_lookup; [exact Hnl|by erewrite list_lookup_fmap, Hi|]. erewrite list_lookup_fmap, Hj. cbn. by rewrite En. }
      apply list_elem_of_fmap. exists e. split; [|done]. unfold zero. by rewrite Ec.
    + assert (El2 : map number (live (map (zero changed) (verifiedPagenos c))) `sublist_of` map number (verifiedPagenos c)).
      { clear. unfold live. induction (verifiedPagenos c) as [|e v IH]; [done|]. cbn [map List.filter].
        assert (Hz : zero changed e = e \/ number (zero changed e) = 0) by (unfold zero; destruct (changed !! number e); [by right|by left]).
        destruct Hz as [->| ->]; [destruct (negb _)|]; by constructor. }
      eapply sublist_NoDup; [|exact El2]. by apply Hdis.
  - rewrite map_app, concat_app. cbn. rewrite app_nil_r. eapply visited_trans; [exact HV|]. by apply Hvisit.
Qed.

(** A table that was not visited when no changed page is left. *)
Lemma table_untouched dn rest c x : l = dn ++ rest -> c ∈ rest -> visited_pages (concat (map (fun c => pages (tree c)) dn)) start x -> s_changed x = ∅ -> updated c (zeroed changed c).
Proof.
  intros El Hrest HV Hx. assert (Hc : c ∈ l) by (rewrite El; apply elem_of_app; by right). destruct (tree_pages c Hc) as [Hnd Hr]. rewrite Forall_forall in Hr. destruct old as (_ & _ & _ & Hall).
  assert (Hnone : forall n, n ∈ pages (tree c) -> changed !! n = None).
  { intros n Hn. destruct (changed !! n) as [page|] eqn:Ec; [|done]. destruct HV as [HV _]. specialize (HV n). rewrite Hx, lookup_empty, decide_False in HV by (by eapply apart).
    rewrite <- nodes_pages in Hn. apply list_elem_of_fmap in Hn as (p & -> & Hp). pose proof (known c p page Hc Hp Ec) as Hk. cbn in HV. symmetry in HV.
    assert (keep_tables changed !! p_number p = Some page) by (apply keep_tables_Some; split; [done|]; case_decide; tauto). congruence. }
  specialize (Hall c Hc Hnone). eexists. split; [done|].
  assert (Ez : map (zero changed) (verifiedPagenos c) = verifiedPagenos c).
  { clear -Hall Hnone ZL. assert (H : forall e, e ∈ verifiedPagenos c -> zero changed e = e).
    { intros e He. rewrite Hall in He. unfold zero. by rewrite Hnone by (by apply leaves_pages). }
    clear Hall. induction (verifiedPagenos c) as [|e v IH]; [done|]. cbn. rewrite H by constructor. f_equal. apply IH. intros e' He'. apply H. by constructor. }
  rewrite Ez, live_whole; [done|]. intros e He. rewrite Hall in He. specialize (Hr _ (leaves_pages _ _ He)). lia.
Qed.
End tables.

(** ** The list of contents *)

(** The content at [i] has become [c'], and may have gone to the front. *)
Definition moved (i : nat) (c' : Content) (m m' : Material) : Prop :=
  info m' = info m /\ (exists front, contentsList m' = front ++ drop (S i) (contentsList m) /\ front ≡ₚ take i (contentsList m) ++ [c']) /\ (indexed m -> indexed m').

Lemma indexed_names m m' : contentsMap m' = contentsMap m -> map tableName (contentsList m') = map tableName (contentsList m) -> indexed m -> indexed m'.
Proof.
  intros Em El H name i. rewrite Em. intros Hi. destruct (H name i Hi) as (c & Hc & <-). pose proof (f_equal (fun l => l !! i) El) as E.
  change (map tableName ?l) with (tableName <$> l) in E. cbn in E. rewrite !list_lookup_fmap, Hc in E. destruct (contentsList m' !! i) as [c'|]; [|done]. injection E as E. by exists c'.
Qed.

Lemma indexed_to_front i m : indexed m -> indexed (to_front i m).
Proof.
  intros H. unfold to_front. destruct (contentsList m !! i) as [c|] eqn:Ec; [|done]. intros name j. cbn. rewrite lookup_fmap, fmap_Some. intros (k & Hk & ->).
  destruct (H name k Hk) as (d & Hd & Hn). exists d. split; [|done]. pose proof (lookup_lt_Some _ _ _ Ec). destruct (decide (k = i)) as [->|Hne]; [cbn; congruence|].
  set (rest := take i _ ++ drop (S i) _). destruct (decide (k < i)%nat) as [Hlt|Hge].
  - trans (rest !! k); [done|]. unfold rest. rewrite lookup_app_l by (rewrite length_take; lia). by rewrite lookup_take_lt.
  - destruct k as [|k]; [lia|]. trans (rest !! k); [done|]. unfold rest. rewrite lookup_app_r by (rewrite length_take; lia). rewrite length_take, lookup_drop, Nat.min_l by lia. rewrite <- Hd. f_equal. lia.
Qed.

Lemma moved_here i c c' m : contentsList m !! i = Some c -> tableName c' = tableName c -> moved i c' m (with_content (fun _ => c') i m).
Proof.
  intros Hc Hn. pose proof (lookup_lt_Some _ _ _ Hc). assert (Ea : alter (fun _ => c') i (contentsList m) = take i (contentsList m) ++ c' :: drop (S i) (contentsList m)).
  { rewrite <- insert_take_drop by done. apply list_eq. intros j. destruct (decide (j = i)) as [->|].
    - by rewrite list_lookup_alter_eq, list_lookup_insert_eq, Hc.
    - by rewrite list_lookup_alter_ne, list_lookup_insert_ne by done. }
  split_and!; [done| |].
  - exists (take i (contentsList m) ++ [c']). split; [|done]. cbn. by rewrite Ea, <- app_assoc.
  - apply indexed_names; [done|]. cbn. rewrite Ea, map_app. cbn. rewrite Hn. pose proof (f_equal (map tableName) (take_drop_middle _ _ _ Hc)) as E. by rewrite map_app in E.
Qed.

Lemma moved_front i c c' m : contentsList m !! i = Some c -> tableName c' = tableName c -> moved i c' m (to_front i (with_content (fun _ => c') i m)).
Proof.
  intros Hc Hn. destruct (moved_here i c c' m Hc Hn) as (_ & (front & E & P) & Hi). set (m1 := with_content _ i m) in *.
  assert (Hlt : (i < length (contentsList m))%nat) by (by eapply lookup_lt_Some).
  assert (E1 : contentsList m1 !! i = Some c') by (cbn; by rewrite list_lookup_alter_eq, Hc). split_and!.
  - unfold to_front. rewrite E1. done.
  - exists (c' :: take i (contentsList m)). split; [|by rewrite Permutation_app_comm]. unfold to_front. rewrite E1. cbn [contentsList app]. do 2 f_equal.
    + apply list_eq. intros j. destruct (decide (j < i)%nat); [|by rewrite !lookup_take_ge by lia]. rewrite !lookup_take_lt by lia. cbn. apply list_lookup_alter_ne. lia.
    + apply list_eq. intros j. rewrite !lookup_drop. cbn [with_content contentsList m1]. apply list_lookup_alter_ne. lia.
  - intros H. by apply indexed_to_front, Hi.
Qed.

(** ** The loop *)

Section loop.
Context {Pg E : Type} `{PO : PagerOps Pg} `{PC : !PagerControl Pg} `{PL : !PagerLog Pg} `{V : !PagerView Pg} `{BD : BackupDelegates E} `{CD : !CalmDelegates E} `{ZL : Crc}.
Hypothesis granted : pv_grants.
Hypothesis few : db_count pv_db < 2 ^ 31.

Ltac research := unfold searching in *; destruct_and?; cbn in *; split_and!; try done.

(** What is searched next: the pages that were verified are with their table. *)
Definition handed (x : Search) : Search := MkSearch (s_changed x) (s_marks x) [].

Lemma wp_inc_content i c t m inc x s (Q : bool -> Backup Pg E -> Prop) : contentsList m !! i = Some c -> root t = rootPage c -> tree_stored pv_db false t -> NoDup (pages t) ->
  searching m inc x s -> zlen (s_marks x) = db_count pv_db ->
  (forall m' s', moved i (set_verifiedPagenos (forget_deleted (s_marks (visit t x)) (verifiedPagenos c) ++ s_verified (visit t x)) c) m m' -> searching m' inc (handed (visit t x)) s' -> Q true s') ->
  wp (inc_content i) Q s.
Proof.
  intros Hc Hroot Ht Hnd Hs Hl HQ. unfold inc_content. apply wp_bind_gets. pose proof Hs as (_ & Em & _). rewrite Em, Hc. pose proof (tree_in_database _ _ Ht) as Hin.
  assert (Er : s32 (rootPage c) = root t) by (rewrite <- Hroot; apply wrap_s_small; lia). rewrite Er.
  apply wp_bind, (wp_crawl_visit granted few t m inc x); [done..|]. intros s1 Hs1. cbn [negb]. apply wp_bind_gets. pose proof Hs1 as (_ & Em1 & _ & _ & Eu & Ev & _). rewrite Eu, Ev.
  set (l1 := forget_deleted _ _) in *. apply wp_bind, wp_modify. cbn [b_pager b_work set_material bw_material]. rewrite Em1.
  assert (Ea : forall f c', f c = c' -> alter f i (contentsList m) = alter (fun _ => c') i (contentsList m)).
  { intros f c' Hf. apply list_eq. intros j. destruct (decide (j = i)) as [->|]; [|by rewrite !list_lookup_alter_ne]. rewrite !list_lookup_alter_eq, Hc. cbn. by rewrite Hf. }
  destruct (s_verified (visit t x)) as [|e v] eqn:Ex.
  - apply wp_ret, (HQ (with_content (fun _ => set_verifiedPagenos (l1 ++ []) c) i m)); [by eapply moved_here|]. rewrite app_nil_r. clear HQ. unfold handed, with_content.
    rewrite <- (Ea (fun c => set_verifiedPagenos (forget_deleted (s_marks (visit t x)) (verifiedPagenos c)) c)) by done. by research.
  - apply wp_bind, wp_modify, wp_bind_modify, wp_bind, wp_modify, wp_ret. cbn [b_pager b_work set_material bw_material set_verified info contentsList contentsMap].
    apply (HQ (to_front i (with_content (fun _ => set_verifiedPagenos (l1 ++ e :: v) c) i m))); [by eapply moved_front|]. clear HQ. unfold handed, with_content.
    rewrite <- (Ea ((fun c => set_verifiedPagenos (verifiedPagenos c ++ e :: v) c) ∘ (fun c => set_verifiedPagenos (forget_deleted (s_marks (visit t x)) (verifiedPagenos c)) c))) by done.
    rewrite <- list_alter_alter_eq. by research.
Qed.

Lemma wp_changed_pages m inc x s (Q : gmap Z IncPage -> Backup Pg E -> Prop) : searching m inc x s -> Q (s_changed x) s -> wp changed_pages Q s.
Proof. intros (_ & _ & E1 & E2 & _) HQ. apply wp_bind_gets. unfold verifying. rewrite E2, E1. by apply wp_ret. Qed.

(** The contents of [l] with the leaves of their trees, in some order. *)
Definition refreshed (tree_of : Z -> Tree) (l : list Content) (m m' : Material) : Prop :=
  info m' = info m /\ (exists l', contentsList m' ≡ₚ l' /\ Forall2 (updated tree_of) l l') /\ (indexed m -> indexed m').

Section rest.
Variables (tree_of : Z -> Tree) (changed : gmap Z IncPage) (l : list Content) (marks : list bool).
Hypothesis stored : tables_stored pv_db tree_of l.
Hypothesis old : material_old pv_db tree_of changed l.
Hypothesis known : changes_known tree_of changed l.
Hypothesis count_marks : zlen marks = db_count pv_db.
Hypothesis set_marks : marks_set (same_numbers changed (concat (map verifiedPagenos l))) (replicate (Z.to_nat (db_count pv_db)) false) marks.

Definition seen_pages (dn : list Content) : list Z := concat (map (fun c => pages (tree tree_of c)) dn).

(** The tables [dn] are done, in the order of the list [front]; the others are at their places. *)
Definition progress (dn rest : list Content) (m0 m : Material) (x : Search) : Prop :=
  l = dn ++ rest /\ info m = info m0 /\ (indexed m0 -> indexed m) /\ visited_pages (seen_pages dn) (start changed marks) x /\ length (s_marks x) = length marks /\ s_verified x = []
  /\ exists front dn', contentsList m = front ++ map (zeroed changed) rest /\ length front = length dn /\ front ≡ₚ dn' /\ Forall2 (updated tree_of) dn dn'.

(** Nothing is left to be searched. *)
Lemma progress_over dn rest m0 m x : progress dn rest m0 m x -> s_changed x = ∅ \/ rest = [] -> refreshed tree_of l m0 m.
Proof.
  intros (El & Ei & Hi & HV & _ & _ & front & dn' & Ec & _ & Pf & Hdn) Hend. split_and!; [done| |done]. exists (dn' ++ map (zeroed changed) rest). rewrite Ec, Pf. split; [done|].
  rewrite El at 1. apply Forall2_app; [done|]. destruct Hend as [Hx| ->]; [|constructor]. apply Forall2_fmap_r, Forall_Forall2_diag, Forall_forall. intros c Hc.
  by eapply (table_untouched pv_db).
Qed.

Lemma progress_next dn c rest m0 m m' x : progress dn (c :: rest) m0 m x ->
  moved (length dn) (set_verifiedPagenos (forget_deleted (s_marks (visit (tree tree_of c) x)) (verifiedPagenos (zeroed changed c)) ++ s_verified (visit (tree tree_of c) x)) (zeroed changed c)) m m' ->
  progress (dn ++ [c]) rest m0 m' (handed (visit (tree tree_of c) x)).
Proof.
  intros (El & Ei & Hi & HV & Hlen & Hx & front & dn' & Ec & Hf & Pf & Hdn) (Mi & (front' & Ec' & Pf') & Hi').
  destruct (table_after_visit pv_db tree_of changed l marks stored old known count_marks set_marks dn c rest x El HV Hlen Hx) as [Hlive HV'].
  unfold progress. split_and!; [by rewrite <- app_assoc|congruence|tauto|exact HV'|cbn; by rewrite visit_length|done|].
  rewrite Ec in Ec', Pf'. rewrite take_app_length' in Pf' by done. cbn [map] in Ec'. rewrite cons_middle, app_assoc, drop_app_length' in Ec' by (rewrite length_app; cbn; lia).
  exists front', (dn' ++ [set_verifiedPagenos (forget_deleted (s_marks (visit (tree tree_of c) x)) (verifiedPagenos (zeroed changed c)) ++ s_verified (visit (tree tree_of c) x)) (zeroed changed c)]).
  split_and!; [done|apply Permutation_length in Pf'; rewrite Pf', !length_app, Hf; done|by rewrite Pf', Pf|]. apply Forall2_app; [done|]. constructor; [|constructor]. eexists. split; [reflexivity|exact Hlive].
Qed.

Lemma wp_inc_contents : forall rest dn m0 m inc x s (Q : bool -> Backup Pg E -> Prop), progress dn rest m0 m x -> searching m inc x s ->
  (forall s', refreshed tree_of l m0 (bw_material (b_work s')) -> Q true s') -> wp (inc_contents (length rest) (length dn)) Q s.
Proof.
  induction rest as [|c rest IH]; intros dn m0 m inc x s Q Hp Hs HQ; cbn [length inc_contents].
  - apply wp_ret, HQ. destruct Hs as (_ & -> & _). eapply progress_over; [exact Hp|by right].
  - pose proof Hp as (El & _ & _ & _ & Hlen & _ & front & dn' & Ec & Hf & _). assert (Hc : c ∈ l) by (rewrite El; apply elem_of_app; right; constructor).
    destruct stored as (Hst & Hnd & _). destruct (Hst c Hc) as [Hroot Ht].
    apply wp_bind, (wp_inc_content _ (zeroed changed c) (tree tree_of c) m inc x); [rewrite Ec, <- Hf; by apply list_lookup_middle|done|done|by eapply (NoDup_concat_elem (fun c => pages (tree tree_of c)))|done|unfold zlen in *; congruence|].
    intros m' s' Hm Hs'. cbn [negb]. pose proof (progress_next _ _ _ _ _ _ _ Hp Hm) as Hp'. apply wp_bind, (wp_changed_pages m' inc (handed (visit (tree tree_of c) x))); [done|].
    case_bool_decide as Hend.
    + apply wp_ret, HQ. destruct Hs' as (_ & -> & _). eapply progress_over; [exact Hp'|by left].
    + assert (En : S (length dn) = length (dn ++ [c])) by (rewrite length_app; cbn; lia). rewrite En. by eapply IH.
Qed.

End rest.

Hypothesis some : 0 <= db_count pv_db.

Lemma zeroed_nothing c : zeroed ∅ c = c.
Proof.
  unfold zeroed, set_verifiedPagenos. assert (E0 : map (zero ∅) (verifiedPagenos c) = verifiedPagenos c) by (etrans; [|apply map_id]; apply map_ext; intros e; unfold zero; by rewrite lookup_empty).
  rewrite E0. by destruct c.
Qed.

Lemma wp_verify_changes tree_of m inc changed s (Q : bool -> Backup Pg E -> Prop) : searching m inc (MkSearch changed [] []) s ->
  tables_stored pv_db tree_of (contentsList m) -> material_old pv_db tree_of changed (contentsList m) -> changes_known tree_of changed (contentsList m) ->
  (forall s', refreshed tree_of (contentsList m) m (bw_material (b_work s')) -> Q true s') -> wp verify_changes Q s.
Proof.
  intros Hs Hst Hold Hknown HQ. set (l := contentsList m) in *. unfold verify_changes. apply wp_bind, (wp_changed_pages m inc (MkSearch changed [] [])); [done|]. cbn [s_changed].
  set (u0 := replicate (Z.to_nat (db_count pv_db)) false). assert (Hu0 : zlen u0 = db_count pv_db) by (unfold zlen, u0; rewrite length_replicate; lia).
  destruct (mark_contents_ok changed (db_count pv_db) l few u0 Hu0) as (marks & Emark & Hmarks).
  { intros c e Hc He Hn. destruct Hold as (_ & Hold & _). by destruct (Hold c e Hc He Hn). }
  assert (Hcount : zlen marks = db_count pv_db) by (destruct Hmarks as [Hm _]; unfold zlen in *; lia).
  assert (Hstart : forall m', info m' = info m -> contentsMap m' = contentsMap m -> contentsList m' = map (zeroed changed) l -> progress tree_of changed l marks [] l m m' (start changed marks)).
  { intros m' Ei Em El. unfold progress. split_and!; try done; [apply indexed_names; [done|]; rewrite El, map_map; by apply map_ext|by exists [], []]. }
  case_bool_decide as Hend.
  { apply wp_ret, HQ. destruct Hs as (_ & -> & _). subst changed. eapply (progress_over tree_of ∅ l marks Hst Hold Hknown [] l); [apply Hstart; [done..|]|left; apply map_filter_empty].
    rewrite (map_ext _ id) by apply zeroed_nothing. by rewrite map_id. }
  apply wp_bind_gets. pose proof Hs as ((Hinv & _) & Em & Einc & Ever & Eun & Evd & _). destruct (pv_sizes _ Hinv) as (_ & _ & E3).
  change (pg_numberOfPages s) with (pg_numberOfPages (b_pager s)). rewrite E3, Em, Eun. cbn [s_marks]. assert (Ec : u32 (db_count pv_db) = db_count pv_db) by (apply Z.mod_small; lia). rewrite Ec.
  rewrite take_nil, Nat.sub_0_r. cbn [app]. fold u0 l. eapply wp_bind_lift_res; [exact Emark|]. cbn [fst snd]. apply wp_bind, wp_modify, wp_bind_modify, wp_bind_modify.
  set (m' := MkMaterial (info m) (map (zeroed changed) l) (contentsMap m)).
  match goal with |- wp _ _ ?s => set (s' := s) end. assert (Hs' : searching m' inc (start changed marks) s').
  { unfold s', set_pages. cbn. rewrite Einc, Em. clear HQ. by research. }
  clearbody s'. apply wp_bind, (wp_changed_pages m' inc (start changed marks)); [done|]. cbn [s_changed start]. pose proof (Hstart m' eq_refl eq_refl eq_refl) as Hp. case_bool_decide as Hkept.
  - apply wp_ret, HQ. destruct Hs' as (_ & -> & _). eapply (progress_over tree_of changed l marks Hst Hold Hknown [] l); [exact Hp|by left].
  - rewrite length_map. by eapply (wp_inc_contents tree_of changed l marks Hst Hold Hknown Hcount Hmarks l []).
Qed.
End loop.

(** ** Sequences *)

(** The pages of events, and the changed pages without some. *)
Definition pages_of (l : list Event) : list Z := l ≫= fun e => match e with EPage p _ => [p_number p] | ECell _ => [] end.
Definition without (changed : gmap Z IncPage) (ns : list Z) : gmap Z IncPage := foldl (fun m n => delete n m) changed ns.

Lemma without_lookup changed ns n : without changed ns !! n = if decide (n ∈ ns) then None else changed !! n.
Proof.
  unfold without. revert changed. induction ns as [|k ns IH]; intros changed; [done|]. cbn [foldl]. rewrite IH, (decide_ext _ _ _ _ (elem_of_cons ns n k)).
  destruct (decide (n = k)) as [->|Hn].
  - rewrite lookup_delete_eq. by repeat case_decide; try tauto.
  - rewrite lookup_delete_ne by done. repeat case_decide; tauto.
Qed.

Lemma pages_of_app l l' : pages_of (l ++ l') = pages_of l ++ pages_of l'.
Proof. apply bind_app. Qed.

Lemma events_pages : forall t h, is_table_tree t = true -> forall n, n ∈ pages_of (events always t h) -> n ∈ pages t.
Proof.
  fix IH 1. intros [p cells kids] h Ht n Hn. cbn [events pages is_table_tree always] in *. apply andb_true_iff in Ht as [Hp Hk].
  change (pages_of (EPage p h :: ?l)) with (p_number p :: pages_of l) in Hn. apply elem_of_cons in Hn as [->|Hn]; [constructor|].
  apply elem_of_cons. destruct (p_type p); try done.
  - right. induction kids as [|k kids IHk]; cbn [map concat forallb] in *; [by apply elem_of_nil in Hn|]. apply andb_true_iff in Hk as [Hk1 Hk2]. rewrite pages_of_app in Hn.
    apply elem_of_app in Hn as [Hn|Hn]; apply elem_of_app; [left; by eapply IH|right; by apply IHk].
  - exfalso. clear -Hn. induction cells as [|c cells IHc]; cbn in Hn; [by apply elem_of_nil in Hn|by apply IHc].
Qed.

Section sequences.
Context {Pg E : Type} `{PO : PagerOps Pg} `{V : !PagerView Pg} `{BD : BackupDelegates E} `{CD : !CalmDelegates E} `{ZL : Crc}.
Variable m_filter : option (list Z -> bool).
Hypothesis granted : pv_grants.

Ltac research := unfold searching in *; destruct_and?; cbn in *; split_and!; try done.

(** A row of the sequence table changes the material and nothing else. *)
Lemma wp_sequence_row c it (s : Backup Pg E) (Q : unit -> Backup Pg E -> Prop) :
  Q tt (MkBackup (b_pager s) (set_material (on_sequence m_filter (bw_material (b_work s)) it) (b_work s))) -> wp (backup_onSequenceCellCrawled m_filter c it) Q s.
Proof.
  assert (Hsame : forall s : Backup Pg E, MkBackup (b_pager s) (set_material (bw_material (b_work s)) (b_work s)) = s) by (by intros [p []]).
  intros HQ. unfold backup_onSequenceCellCrawled. unfold on_sequence in HQ. destruct (si_seq it =? 0); [rewrite Hsame in HQ; by apply wp_ret|].
  destruct (negb _ && _); [|rewrite Hsame in HQ; by apply wp_ret]. unfold at_content, created, position, with_content in HQ. apply wp_bind. unfold getOrCreateContent. apply wp_bind_gets.
  destruct (contentsMap (bw_material (b_work s)) !! si_name it) as [i|] eqn:Ei; cbn [default info contentsList contentsMap] in HQ.
  - by apply wp_ret, wp_modify.
  - by apply wp_bind_modify, wp_ret, wp_modify.
Qed.

Definition raising (m : Material) (inc : IncInfo) (changed : gmap Z IncPage) (b : bool) (seen : list Event) (s : Backup Pg E) : Prop :=
  searching (foldl (on_sequence m_filter) m (map cell_sequence (cells_of seen))) inc (MkSearch (without changed (pages_of seen)) [] []) s
  /\ undisturbed (bw_seqFlags (b_work s)) /\ cf_isIndex (bw_seqFlags (b_work s)) = b.

Lemma wp_forget_changed p m inc changed marks v (s : Backup Pg E) (Q : unit -> Backup Pg E -> Prop) : searching m inc (MkSearch changed marks v) s ->
  (forall s', searching m inc (MkSearch (delete (p_number p) changed) marks v) s' -> bw_seqFlags (b_work s') = bw_seqFlags (b_work s) -> Q tt s') -> wp (forget_page p) Q s.
Proof.
  intros Hs HQ. apply wp_bind_gets. unfold verifying. pose proof Hs as (_ & _ & E1 & E2 & _). rewrite E2, E1. apply wp_modify, HQ; [clear HQ|done]. unfold set_pages. rewrite E1. cbn. by research.
Qed.

Lemma raising_is_client m inc changed total : (forall c, ECell c ∈ total -> exists p t r, c = cell_of p r /\ sequence_row t r) ->
  Client (C := SequenceCrawler (D := backup_sequence_delegate m_filter) SequenceFlags) always total (raising m inc changed).
Proof.
  intros Hrows. split.
  - intros b l s (((H1 & _) & _) & _ & H2). done.
  - intros b l s s' (H1 & H2 & H3) S. pose proof S as (_ & S2 & _). cbn in S2. split_and!; [by eapply searching_same|by rewrite S2..].
  - intros b b' l s (H1 & H2 & H3). done.
  - intros b l s Q (H1 & H2 & H3) HQ. destruct (undisturbed_poll _ H2) as [P1 P2]. apply wp_poll; [done..|]. apply HQ. split_and!; [by research|done|cbn; congruence].
  - intros b l s n Q H HQ. by apply wp_ret, HQ.
  - intros b l s p h Q _ (H1 & H2 & H3) HQ. apply wp_bind. eapply wp_forget_changed; [exact H1|]. intros s' Hs' E'. apply wp_ret, HQ. split_and!; [|by rewrite E'..].
    rewrite fold_page, pages_of_app. unfold without. rewrite foldl_app. exact Hs'.
  - intros b l s c Q Hpre (H1 & H2 & H3) HQ.
    assert (Hin : ECell c ∈ total) by (destruct Hpre as [r ->]; apply elem_of_app; left; apply elem_of_app; right; constructor).
    destruct (Hrows c Hin) as (p & t & r & -> & Hr). cbn [onCellCrawled]. apply (wp_sequence_cell _ t); [done|]. cbn [onSequenceCellCrawled].
    apply wp_sequence_row, HQ. split_and!; [|done..]. rewrite fold_last, (cell_sequence_row t), pages_of_app, app_nil_r by done. clear HQ. unfold searching in *. destruct H1 as (A1 & A2 & A3). rewrite <- A2. done.
Qed.

(** The sequence table, crawled by an incremental backup. *)
Lemma wp_raise_sequences t m inc changed s (Q : bool -> Backup Pg E -> Prop) : tree_stored pv_db false t -> NoDup (pages t) -> Forall (fun r => sequence_row (p_type r.1) r.2) (rows t) ->
  searching m inc (MkSearch changed [] []) s ->
  (forall ns s', (forall n, n ∈ ns -> n ∈ pages t) -> searching (foldl (on_sequence m_filter) m (sequence_items t)) inc (MkSearch (without changed ns) [] []) s' -> Q true s') ->
  wp (crawl_sequences m_filter (root t)) Q s.
Proof.
  intros Ht Hnd Hrows Hs HQ. pose proof (stored_table t Ht) as Htab. unfold crawl_sequences. apply wp_bind_modify.
  assert (K : Client (C := SequenceCrawler (D := backup_sequence_delegate m_filter) SequenceFlags) always (events always t 1) (raising m inc changed)).
  { apply raising_is_client. intros c Hc. destruct (rows_cells t c 1 Htab Hc) as (r & Hr & ->). rewrite Forall_forall in Hrows. by exists r.1, (p_type r.1), r.2; auto. }
  eapply (wp_crawl (St := Backup Pg E) (V := backup_view) granted (C := SequenceCrawler (D := backup_sequence_delegate m_filter) SequenceFlags) always (events always t 1) (raising m inc changed) false t _ _ _ Ht Hnd eq_refl).
  { split_and!; [|done|done..]. cbn. by research. }
  intros s' (Hw & _). rewrite (items_of_events _ sequence_item sequence_row) in Hw; [|intros; by eapply cell_sequence_row|done..].
  pose proof Hw as ((_ & He) & _). unfold pg_isOK. change (pg_error s') with (pg_error (b_pager s')). rewrite He. eapply HQ; [|exact Hw]. intros n. by apply events_pages.
Qed.
End sequences.

(** ** The backup *)

Section whole.
Context {Pg E : Type} `{PO : PagerOps Pg} `{PC : !PagerControl Pg} `{PL : !PagerLog Pg} `{V : !PagerView Pg} `{BD : BackupDelegates E} `{CD : !CalmDelegates E} `{ZL : Crc}.
Variable m_filter : option (list Z -> bool).
Variable tree_of : Z -> Tree.

Ltac research := unfold searching in *; destruct_and?; cbn in *; split_and!; try done.

(** The material with the sequences of the sequence table. *)
Definition sequence_tree (m : Material) : Tree := tree_of (seqTableRootPage (info m)).
Definition raised (m : Material) : Material := if seqTableRootPage (info m) =? 0 then m else foldl (on_sequence m_filter) m (sequence_items (sequence_tree m)).

(** The sequence table, if there is one: its pages are not those of other tables, and its rows name tables of the material. *)
Definition sequences_stored (db : Database) (m : Material) : Prop :=
  seqTableRootPage (info m) <> 0 ->
  root (sequence_tree m) = seqTableRootPage (info m) /\ tree_stored db false (sequence_tree m) /\ NoDup (pages (sequence_tree m))
  /\ Forall (fun r => sequence_row (p_type r.1) r.2) (rows (sequence_tree m))
  /\ Forall (fun it => is_Some (contentsMap m !! si_name it)) (sequence_items (sequence_tree m))
  /\ (forall c n, c ∈ contentsList m -> n ∈ pages (tree tree_of c) -> n ∉ pages (sequence_tree m)).

(** Contents that are the same but for their sequences. *)
Definition alike (c c' : Content) : Prop := rootPage c' = rootPage c /\ verifiedPagenos c' = verifiedPagenos c.

Lemma on_sequence_alike m it : is_Some (contentsMap m !! si_name it) ->
  Forall2 alike (contentsList m) (contentsList (on_sequence m_filter m it)) /\ contentsMap (on_sequence m_filter m it) = contentsMap m.
Proof.
  intros [i Hi]. assert (Hrefl : Forall2 alike (contentsList m) (contentsList m)) by (apply Forall_Forall2_diag, Forall_forall; done).
  unfold on_sequence. destruct (si_seq it =? 0); [done|]. destruct (negb _ && _); [|done]. unfold at_content, position, created, with_content. rewrite Hi. cbn. split; [|done].
  apply Forall2_alter_r; [done|]. by intros c d _ _ [? ?].
Qed.

Lemma raised_alike items m : Forall (fun it => is_Some (contentsMap m !! si_name it)) items -> Forall2 alike (contentsList m) (contentsList (foldl (on_sequence m_filter) m items)).
Proof.
  revert m. induction items as [|it items IH]; intros m Hn; cbn [foldl]; [apply Forall_Forall2_diag, Forall_forall; done|].
  apply Forall_cons in Hn as [Hit Hn]. destruct (on_sequence_alike m it Hit) as [H1 H2]. eapply Forall2_trans; [|exact H1|apply IH; by rewrite H2]. unfold alike. intros x y z [-> ->] [-> ->]. done.
Qed.

Lemma alike_from l l1 c1 : Forall2 alike l l1 -> c1 ∈ l1 -> exists c, c ∈ l /\ alike c c1.
Proof.
  intros H Hc. apply list_elem_of_lookup in Hc as [i Hi]. destruct (Forall2_lookup_r _ _ _ _ _ H Hi) as (c & Hci & ?). exists c. split; [by eapply list_elem_of_lookup_2|done].
Qed.

Lemma alike_trees l l1 : Forall2 alike l l1 -> map (fun c => pages (tree tree_of c)) l1 = map (fun c => pages (tree tree_of c)) l.
Proof. induction 1 as [|c c1 l l1 [E1 _] _ IH]; [done|]. cbn. rewrite IH. unfold tree. by rewrite E1. Qed.

(** What was known before the sequences were read is known after it. *)
Lemma raised_known db changed ns l l1 : Forall2 alike l l1 -> (forall n, n ∈ ns -> 1 <= n <= db_count db) -> (forall c n, c ∈ l -> n ∈ pages (tree tree_of c) -> n ∉ ns) ->
  tables_stored db tree_of l -> material_old db tree_of changed l -> changes_known tree_of changed l ->
  tables_stored db tree_of l1 /\ material_old db tree_of (without changed ns) l1 /\ changes_known tree_of (without changed ns) l1.
Proof.
  intros Hl Hns Hapart (S1 & S2 & S3) (M1 & M2 & M4 & M3) Hk. pose proof (alike_from l l1) as Hfrom. split_and!.
  - unfold tables_stored. rewrite (alike_trees l l1 Hl). split; [|done]. intros c1 Hc1. destruct (Hfrom c1 Hl Hc1) as (c & Hc & E1 & _). unfold tree. rewrite E1. by apply S1.
  - split_and!.
    + intros c1 Hc1. destruct (Hfrom c1 Hl Hc1) as (c & Hc & _ & E2). rewrite E2. by apply M1.
    + intros c1 e Hc1 He. destruct (Hfrom c1 Hl Hc1) as (c & Hc & E1 & E2). rewrite E2 in He. rewrite without_lookup. case_decide as Hin.
      * intros _. split; [by apply Hns|]. intros c1' Hc1' Hp. destruct (Hfrom c1' Hl Hc1') as (c' & Hc' & E1' & _). unfold tree in Hp. rewrite E1' in Hp. by destruct (Hapart c' _ Hc' Hp).
      * intros Hn. destruct (M2 c e Hc He Hn) as [Hr H]. split; [done|]. intros c1' Hc1' Hp. destruct (Hfrom c1' Hl Hc1') as (c' & Hc' & E1' & _). unfold tree in *. rewrite E1' in Hp. rewrite E1, E1'. by apply H.
    + intros c1 e Hc1 He. destruct (Hfrom c1 Hl Hc1) as (c & Hc & E1 & E2). unfold tree in *. rewrite E1 in He. rewrite E2. rewrite without_lookup. case_decide as Hin; [|by apply M4].
      intros _. destruct (leaf_node _ _ He) as (q & Hq & Eq & _). destruct (Hapart c (number e)); [done| |done]. unfold tree. rewrite <- nodes_pages, <- Eq. by apply list_elem_of_fmap_2.
    + intros c1 Hc1 Hn. destruct (Hfrom c1 Hl Hc1) as (c & Hc & E1 & E2). unfold tree in *. rewrite E1 in *. rewrite E2. apply M3; [done|]. intros n Hin. specialize (Hn n Hin).
      rewrite without_lookup, decide_False in Hn; [done|]. by eapply Hapart.
  - intros c1 p page Hc1 Hp. destruct (Hfrom c1 Hl Hc1) as (c & Hc & E1 & _). unfold tree in Hp. rewrite E1 in Hp. rewrite without_lookup. case_decide; [done|]. by apply (Hk c).
Qed.

(** The backup has its material and the changes; its pager opens the database without the log, and the schema is the old one. *)
Definition incremental_ready (m : Material) (inc : IncInfo) (changed : gmap Z IncPage) (s : Backup Pg E) : Prop :=
  let w := b_work s in
  wp pl_setWalSkipped (fun _ => wp pc_initialize (fun ok p => ok = true /\ pv_inv p /\ pg_error p = NoError /\ u32 (pc_getSchemaCookie p) = lastSchemaCookie inc)) (b_pager s)
  /\ bw_material w = m /\ bw_incremental w = Some (MkIncMaterial inc changed) /\ bw_verified w = [] /\ bw_unchanged w = []
  /\ undisturbed (bw_flags w) /\ calm_env (bw_env w).

Lemma wp_incrementalBackup m inc changed s (Q : bool -> Backup Pg E -> Prop) : pv_grants -> 0 <= db_count pv_db < 2 ^ 31 -> incremental_ready m inc changed s ->
  seqTableRootPage (info m) <> UnknownPageNo -> sequences_stored pv_db m ->
  tables_stored pv_db tree_of (contentsList m) -> material_old pv_db tree_of changed (contentsList m) -> changes_known tree_of changed (contentsList m) ->
  (forall s', refreshed tree_of (contentsList (raised m)) (raised m) (bw_material (b_work s')) -> Q true s') -> wp (incrementalBackup m_filter) Q s.
Proof.
  intros granted [some few] (Hinit & Em & Ei & Ev & Eu & Hf & Hcalm) Hroot Hseq Hst Hold Hknown HQ. unfold incrementalBackup, set_cipher.
  apply wp_bind, wp_bind_gets. rewrite (calm_plain _ Hcalm). apply wp_ret. cbn [negb]. apply wp_bind, wp_zoom. eapply wp_mono; [exact Hinit|]. intros [] p0 Hinit2.
  apply wp_bind, wp_zoom. cbn [b_pager b_work]. eapply wp_mono; [exact Hinit2|]. intros ok p (-> & Hp & Hpe & Hck). cbn [negb]. apply wp_bind_modify, wp_bind_gets. cbn [b_pager b_work bw_incremental set_verifying].
  rewrite Ei. cbn [bw_material b_work set_verifying inc_info]. rewrite Em, Hck, Z.eqb_refl, (proj2 (Z.eqb_neq _ _) Hroot). cbn [negb orb].
  match goal with |- wp _ _ ?s => set (s1 := s) end. assert (H1 : searching m inc (MkSearch changed [] []) s1) by (unfold s1; clear HQ Hinit Hinit2; by research). clearbody s1.
  apply wp_bind. unfold raised in HQ. destruct (Z.eqb_spec (seqTableRootPage (info m)) 0) as [E0|E0]; cbn [negb].
  - apply wp_ret. cbn [negb]. by apply (wp_verify_changes granted few some tree_of m inc changed).
  - destruct (Hseq E0) as (Er & Ht & Hnd & Hrows & Hnames & Hapart). pose proof (tree_in_database _ _ Ht) as Hin.
    assert (Es : s32 (seqTableRootPage (info m)) = root (sequence_tree m)) by (rewrite <- Er; apply wrap_s_small; lia). rewrite Es.
    apply wp_bind, (wp_raise_sequences m_filter granted (sequence_tree m) m inc changed); [done..|]. intros ns s2 Hns Hs2. cbn [negb]. apply wp_ret. cbn [negb].
    assert (Hr : forall n, n ∈ ns -> 1 <= n <= db_count pv_db).
    { intros n Hn. pose proof (pages_in_database (V := V) false _ Ht) as Hall. rewrite Forall_forall in Hall. by apply Hall, Hns. }
    destruct (raised_known pv_db changed ns (contentsList m) _ (raised_alike _ m Hnames) Hr ltac:(by intros c n Hc Hn ?%Hns; apply (Hapart c n)) Hst Hold Hknown) as (Hst' & Hold' & Hknown').
    by eapply (wp_verify_changes granted few some tree_of _ inc (without changed ns)).
Qed.
End whole.
