(* ===== verification/PageCache.v ===== *)
(** * Pages of a file through a cache of ranges (base/Range.cpp, base/LRUCache.hpp, repair/parse/PageBasedFileHandle.cpp)

    A [PageBasedFileHandle] maps ranges of pages and keeps them: the ranges never overlap, a page that is not in a range is
    mapped with its neighbours as far as the gap around it goes, and if the system refuses, shorter ranges are
    tried, and then ranges are given back. *)

From stdpp Require Import sorting.
From S2P Require Import Prelude CLib MappedFile.

(** ** Ranges *)

Record Range := MkRange { r_location : Z; r_length : Z }.
#[export] Instance Range_eq_dec : EqDecision Range.
Proof. solve_decision. Defined.

Definition notFound : Range := MkRange 0 (2 ^ 64 - 1).
Definition r_edge (r : Range) : Z := r_location r + r_length r.
Definition r_contains (r : Range) (location : Z) : bool := (r_location r <=? location) && (location <? r_edge r).

(** An edge before the location is moved to it. *)
Definition expandToEdge (edge : Z) (r : Range) : Range := MkRange (r_location r) (Z.max edge (r_location r) - r_location r).
Definition shiftToLocation (location : Z) (r : Range) : Range := MkRange location (r_length r).
Definition shiftToEdge (edge : Z) (r : Range) : Range := MkRange (edge - r_length r) (r_length r).

(** ** The cache *)

(** [m_list] with the last used first, and [m_map], whose keys are ordered by location. *)
Record RangeCache := MkCache {
  rc_range : Range;
  rc_list : list (Range * list Z);
  rc_map : list Range;
  rc_used : Z
}.

Definition maxAllowedCacheMemory : Z := 16 * 1024 * 1024.
Definition cacheMemoryPerRange : Z := 1 * 1024 * 1024.

Definition new_cache : RangeCache := MkCache notFound [] [] 0.
Definition setRange (r : Range) (c : RangeCache) : RangeCache := MkCache r (rc_list c) (rc_map c) (rc_used c).

(** *** [std::map]: keys with the same location are the same *)

Fixpoint map_insert (r : Range) (l : list Range) : list Range :=
  match l with
  | [] => [r]
  | q :: l => if r_location r <? r_location q then r :: q :: l else if r_location r =? r_location q then q :: l else q :: map_insert r l
  end.
Definition same_key (r q : Range) : bool := r_location r =? r_location q.
Definition map_erase (r : Range) (l : list Range) : list Range := List.filter (fun q => negb (same_key r q)) l.
Definition list_erase (r : Range) (l : list (Range * list Z)) : list (Range * list Z) := List.filter (fun e => negb (same_key r e.1)) l.
Definition list_get (r : Range) (l : list (Range * list Z)) : option (Range * list Z) := List.find (fun e => same_key r e.1) l.

(** [purge]: the entry that was not used for the longest time. *)
Definition purge_one (c : RangeCache) : RangeCache :=
  match last (rc_list c) with
  | None => c
  | Some (r, d) => MkCache (rc_range c) (removelast (rc_list c)) (map_erase r (rc_map c)) (rc_used c - zlen d)
  end.
Definition purge (count : nat) (c : RangeCache) : RangeCache := Nat.iter count purge_one c.

Definition shouldPurge (c : RangeCache) : bool := maxAllowedCacheMemory <? rc_used c.

(** [insert]: the memory is counted, then [put]. *)
Definition put (r : Range) (d : list Z) (c : RangeCache) : RangeCache :=
  let c := MkCache (rc_range c) ((r, d) :: list_erase r (rc_list c)) (map_insert r (map_erase r (rc_map c))) (rc_used c) in
  if shouldPurge c then purge 1 c else c.
Definition cache_insert (r : Range) (d : list Z) (c : RangeCache) : RangeCache :=
  put r d (MkCache (rc_range c) (rc_list c) (rc_map c) (rc_used c + zlen d)).

(** [retain]: the entry becomes the last used one. *)
Definition retain (r : Range) (c : RangeCache) : RangeCache :=
  match list_get r (rc_list c) with
  | None => c
  | Some e => MkCache (rc_range c) (e :: list_erase r (rc_list c)) (rc_map c) (rc_used c)
  end.

(** [findIterator]: the keys before the first whose edge is behind [location], and that key. *)
Fixpoint findIterator (location : Z) (before keys : list Range) : list Range * option Range :=
  match keys with
  | [] => (before, None)
  | r :: keys => if location <? r_edge r then (before, Some r) else findIterator location (before ++ [r]) keys
  end.

(** [find]: the range with its data, or the gap around [location]. *)
Definition cache_find (location : Z) : cm RangeCache (Range * option (list Z)) :=
  let! c := gets (fun c => c) in
  let (before, match_) := findIterator location [] (rc_map c) in
  let start := match last before with Some r => r_edge r | None => r_location (rc_range c) end in
  match match_ with
  | Some r =>
    if r_contains r location then
      match list_get r (rc_list c) with
      | Some (_, d) => modify (retain r) ;;; ret (r, Some d)
      | None => fail UseAfterFree
      end
    else ret (expandToEdge (r_location r) (MkRange start 0), None)
  | None => ret (expandToEdge (r_edge (rc_range c)) (MkRange start 0), None)
  end.

(** ** The file *)

Record PageFile := MkPageFile {
  pf_handle : FileHandle;
  pf_pageSize : Z;
  pf_cachePageSize : Z;
  pf_cache : RangeCache
}.

Definition new_pagefile (d : Disk) : PageFile := MkPageFile (new_handle d) 0 0 new_cache.
Definition set_pf_handle (h : FileHandle) (f : PageFile) : PageFile := MkPageFile h (pf_pageSize f) (pf_cachePageSize f) (pf_cache f).
Definition set_pf_cache (c : RangeCache) (f : PageFile) : PageFile := MkPageFile (pf_handle f) (pf_pageSize f) (pf_cachePageSize f) c.

Definition on_handle {A} (c : cm FileHandle A) : cm PageFile A := zoom pf_handle set_pf_handle c.
Definition on_cache {A} (c : cm RangeCache A) : cm PageFile A := zoom pf_cache set_pf_cache c.

Definition cachePagePerRange (f : PageFile) : res Z := if pf_cachePageSize f =? 0 then Stuck DivByZero else Done (cacheMemoryPerRange / pf_cachePageSize f).

(** [setPageSize] *)
Definition pf_setPageSize (size : Z) : cm PageFile unit :=
  let! f := gets (fun f => f) in
  let memory := dk_pagesize (fh_disk (pf_handle f)) in
  let alignment := size mod memory in
  let cps := if 0 <? alignment then size - alignment + memory else size in
  let cps := Z.max memory cps in
  let! fileSize := on_handle fh_getSize in
  let fileSize := u64 fileSize in
  let count := fileSize / cps + (if 0 <? fileSize mod cps then 1 else 0) in
  modify (fun f => MkPageFile (pf_handle f) size cps (setRange (MkRange 0 count) (pf_cache f))).

Definition restrictedRange (base maxLength : Z) (restrictor : Range) : Range :=
  let length := Z.min maxLength (r_length restrictor) in
  let result := MkRange (base - length / 2) length in
  if r_location result <? r_location restrictor then shiftToLocation (r_location restrictor) result
  else if r_edge restrictor <? r_edge result then shiftToEdge (r_edge restrictor) result
  else result.

Section map.
Context `{I : Interrupts}.

(** The loop of [mapPage]: [offset] is in cache page [cachePageno], which is not cached.  A turn
    shortens the range or gives a range back. *)
Fixpoint map_loop (fuel : nat) (cachePageno offset size : Z) (gap : Range) (maxLength : Z) : cm PageFile (list Z) :=
  match fuel with
  | O => fail OutOfFuel
  | S fuel =>
    let range := restrictedRange cachePageno maxLength gap in
    let cuttable := 1 <? r_length range in
    let! f := gets (fun f => f) in
    let purgeable := match rc_map (pf_cache f) with [] => false | _ => true end in
    let cps := pf_cachePageSize f in
    let! mapped := on_handle (fh_map (r_location range * cps) (r_length range * cps)) in
    match mapped with
    | _ :: _ =>
      on_cache (modify (cache_insert range mapped)) ;;;
      lift_res (subdata mapped (offset - r_location range * cps) size)
    | [] =>
      if cuttable then map_loop fuel cachePageno offset size gap ((r_length range + 1) / 2)
      else if purgeable then
        on_cache (modify (purge 1)) ;;;
        let! (gap, _) := on_cache (cache_find cachePageno) in
        let! maxLength := lift_res (cachePagePerRange f) in
        map_loop fuel cachePageno offset size gap maxLength
      else ret []
    end
  end.

(** [mapPage(pageno, offsetWithinPage, sizeWithinPage)].  Before a range is given back its length is cut to one, at most
    [cachePagePerRange] times. *)
Definition mapPage_at (pageno offsetWithinPage size : Z) : cm PageFile (list Z) :=
  let! f := gets (fun f => f) in
  let offset := s64 (u64 ((pageno - 1) * pf_pageSize f) + offsetWithinPage) in
  let cps := pf_cachePageSize f in
  if cps =? 0 then fail DivByZero
  else
    let cachePageno := u64 offset / cps in
    let! (gap, cached) := on_cache (cache_find cachePageno) in
    match cached with
    | Some d => lift_res (subdata d (offset - r_location gap * cps) size)
    | None =>
      let! f := gets (fun f => f) in
      let! maxLength := lift_res (cachePagePerRange f) in
      map_loop (S (length (rc_list (pf_cache f))) * S (Z.to_nat maxLength)) cachePageno offset size gap maxLength
    end.

Definition mapPage (pageno : Z) : cm PageFile (list Z) :=
  let! f := gets (fun f => f) in mapPage_at pageno 0 (pf_pageSize f).
End map.

Definition pf_purgeAll : cm PageFile unit := on_cache (modify (fun c => purge (length (rc_map c)) c)).
Definition pf_purgeOne : cm PageFile bool :=
  let! c := gets pf_cache in
  match rc_map c with [] => ret false | _ => on_cache (modify (purge 1)) ;;; ret true end.

(** * Pages of a file through a cache of ranges: what they show

    The ranges of the cache never overlap and show the bytes of the file; a page that is mapped is the page of the
    file, or nothing; and mapping ends, however often the system refuses. *)

(** ** Ranges *)

Definition within (r q : Range) : Prop := r_location q <= r_location r /\ r_edge r <= r_edge q.
Definition apart (r q : Range) : Prop := r_edge q <= r_location r \/ r_edge r <= r_location q.
Definition before (r q : Range) : Prop := r_edge r <= r_location q.

Lemma restricted base n gap : r_contains gap base = true -> 0 < n ->
  within (restrictedRange base n gap) gap /\ r_contains (restrictedRange base n gap) base = true /\ 1 <= r_length (restrictedRange base n gap) <= n.
Proof.
  unfold within, r_contains, restrictedRange, r_edge. intros H Hn. cbn [r_location r_length]. set (len := Z.min n (r_length gap)).
  assert (Hl : 1 <= len <= n /\ len <= r_length gap) by lia. clearbody len. assert (Hh : 0 <= len / 2 < len) by (Z.to_euclidean_division_equations; lia).
  unfold shiftToLocation, shiftToEdge. destruct (Z.ltb_spec (base - len / 2) (r_location gap)); cbn [r_location r_length]; [lia|].
  destruct (Z.ltb_spec (r_location gap + r_length gap) (base - len / 2 + len)); cbn [r_location r_length]; lia.
Qed.

(** ** The cache *)

Definition ranged (whole : Range) (r : Range) : Prop := 0 < r_length r /\ within r whole.

(** The keys in order, one behind the other; the entries have these keys, and show the bytes of the file. *)
Definition cache_ok (bytes : list Z) (cps : Z) (c : RangeCache) : Prop :=
  StronglySorted before (rc_map c) /\ Forall (ranged (rc_range c)) (rc_map c) /\ Permutation (map fst (rc_list c)) (rc_map c)
  /\ Forall (fun e => e.2 = slice (r_location e.1 * cps) (r_length e.1 * cps) bytes) (rc_list c).

Lemma sorted_filter {A} (R : A -> A -> Prop) f (l : list A) : StronglySorted R l -> StronglySorted R (List.filter f l).
Proof.
  induction 1 as [|x l Hs IH Hx]; cbn; [constructor|]. case_match; [|done]. constructor; [done|]. rewrite List.Forall_forall in *. intros y Hy. apply filter_In in Hy as [Hy _]. by apply Hx.
Qed.

(** Keys with one location are one. *)
Lemma keys_unique whole l r q : StronglySorted before l -> Forall (ranged whole) l -> r ∈ l -> q ∈ l -> r_location r = r_location q -> r = q.
Proof.
  induction 1 as [|x l Hs IH Hx]; intros Hr H1 H2 E; [by apply elem_of_nil in H1|]. apply Forall_cons in Hr as [[Hx0 _] Hr]. rewrite Forall_forall in Hx.
  apply elem_of_cons in H1 as [->|H1]; apply elem_of_cons in H2 as [->|H2]; [done| | |by apply IH].
  - specialize (Hx _ H2). unfold before, r_edge in Hx. lia.
  - specialize (Hx _ H1). unfold before, r_edge in Hx. lia.
Qed.

Lemma keys_NoDup whole l : StronglySorted before l -> Forall (ranged whole) l -> NoDup (map r_location l).
Proof.
  induction 1 as [|x l Hs IH Hx]; intros Hr; cbn; [constructor|]. apply Forall_cons in Hr as [[Hx0 _] Hr]. constructor; [|by apply IH].
  intros (q & E & Hq)%list_elem_of_fmap. rewrite Forall_forall in Hx. specialize (Hx q Hq). unfold before, r_edge in Hx. lia.
Qed.

(** Removing a key. *)
Lemma filter_key {A} (key : A -> Range) (l1 l2 : list A) e : NoDup (map (fun a => r_location (key a)) (l1 ++ e :: l2)) ->
  List.filter (fun a => negb (same_key (key e) (key a))) (l1 ++ e :: l2) = l1 ++ l2.
Proof.
  intros H. assert (Hid : forall l, r_location (key e) ∉ map (fun a => r_location (key a)) l -> List.filter (fun a => negb (same_key (key e) (key a))) l = l).
  { induction l as [|a l IH]; intros Hn; [done|]. cbn in *. apply not_elem_of_cons in Hn as [Hn1 Hn2]. unfold same_key at 1. rewrite (proj2 (Z.eqb_neq _ _)) by done. cbn. by rewrite IH. }
  rewrite List.filter_app. rewrite map_app in H. cbn in H. apply NoDup_app in H as (_ & H2 & H3). apply NoDup_cons in H3 as [H3 _].
  cbn. unfold same_key at 2. rewrite Z.eqb_refl. cbn. rewrite (Hid l2 H3), (Hid l1); [done|]. intros H. apply (H2 _ H). constructor.
Qed.

Section cache.
Variable bytes : list Z.
Variable cps : Z.

Lemma ok_list_NoDup c : cache_ok bytes cps c -> NoDup (map (fun e => r_location (fst e)) (rc_list c)).
Proof.
  intros (H1 & H2 & H3 & _). pose proof (keys_NoDup _ _ H1 H2) as Hnd. rewrite <- H3 in Hnd. by rewrite map_map in Hnd.
Qed.

Lemma ok_purge_one c : cache_ok bytes cps c -> cache_ok bytes cps (purge_one c) /\ rc_range (purge_one c) = rc_range c /\ length (rc_list (purge_one c)) = pred (length (rc_list c)).
Proof.
  intros Hok. pose proof (ok_list_NoDup c Hok) as Hnd. pose proof Hok as (H1 & H2 & H3 & H4). unfold purge_one. destruct (last (rc_list c)) as [[r d]|] eqn:El.
  2: { apply last_None in El. by rewrite El. }
  apply last_Some in El as (l & El). rewrite El in *. rewrite removelast_last. cbn [rc_range rc_list rc_map]. split_and!; [|done|rewrite length_app; cbn; lia].
  assert (Hp : Permutation (map fst l) (map_erase r (rc_map c))).
  { rewrite map_app in H3. cbn in H3. assert (Hr : r ∈ rc_map c) by (rewrite <- H3; apply elem_of_app; right; constructor).
    apply list_elem_of_split in Hr as (l1 & l2 & Hm). pose proof (keys_NoDup _ _ H1 H2) as Hn. unfold map_erase. rewrite Hm in *. rewrite (filter_key (fun r => r) l1 l2 r Hn).
    apply (Permutation_cons_inv (a := r)). rewrite Permutation_middle, <- H3. apply Permutation_cons_append. }
  split_and!; [by apply sorted_filter| |done|by apply Forall_app in H4 as [H4 _]].
  apply Forall_forall. intros q Hq. rewrite Forall_forall in H2. apply H2. unfold map_erase in Hq. apply list_elem_of_In, filter_In in Hq as [Hq _]. by apply list_elem_of_In.
Qed.

(** A key that is apart from the others. *)
Lemma map_insert_apart r l : 0 < r_length r -> StronglySorted before l -> Forall (fun q => 0 < r_length q) l -> Forall (apart r) l ->
  StronglySorted before (map_insert r l) /\ Permutation (r :: l) (map_insert r l).
Proof.
  intros Hr. induction 1 as [|q l Hs IH Hq]; intros Hpos Hap; cbn; [split; [repeat constructor|done]|].
  apply Forall_cons in Hpos as [Hp Hpos]. apply Forall_cons in Hap as [Ha Hap]. unfold apart, r_edge in Ha.
  destruct (Z.ltb_spec (r_location r) (r_location q)).
  - split; [|done]. constructor; [by constructor|]. constructor; [unfold before, r_edge; lia|]. eapply Forall_impl; [exact Hq|]. intros x Hx. unfold before, r_edge in *. lia.
  - rewrite (proj2 (Z.eqb_neq _ _)) by lia. destruct (IH Hpos Hap) as [IH1 IH2]. split; [|rewrite <- IH2; apply perm_swap].
    constructor; [done|]. rewrite <- IH2. constructor; [unfold before, r_edge; lia|done].
Qed.

Lemma erase_apart {A} (key : A -> Range) r (l : list A) : 0 < r_length r -> Forall (fun a => 0 < r_length (key a)) l -> Forall (fun a => apart r (key a)) l ->
  List.filter (fun a => negb (same_key r (key a))) l = l.
Proof.
  intros Hr. induction 1 as [|a l Hp _ IH]; intros Ha; [done|]. apply Forall_cons in Ha as [Ha1 Ha]. cbn. unfold same_key at 1.
  unfold apart, r_edge in Ha1. rewrite (proj2 (Z.eqb_neq _ _)) by lia. cbn. by rewrite IH.
Qed.

Lemma ok_insert c r : cache_ok bytes cps c -> ranged (rc_range c) r -> Forall (apart r) (rc_map c) ->
  cache_ok bytes cps (cache_insert r (slice (r_location r * cps) (r_length r * cps) bytes) c)
  /\ rc_range (cache_insert r (slice (r_location r * cps) (r_length r * cps) bytes) c) = rc_range c.
Proof.
  intros Hok Hr Hap. pose proof Hok as (H1 & H2 & H3 & H4). pose proof Hr as [Hpos _]. set (d := slice _ _ _). unfold cache_insert, put. cbn [rc_range rc_list rc_map rc_used].
  assert (Hp : Forall (fun q => 0 < r_length q) (rc_map c)) by (eapply Forall_impl; [exact H2|]; by intros q [? _]).
  unfold map_erase, list_erase. rewrite (erase_apart (fun q => q)) by done.
  assert (Hfst : forall P : Range -> Prop, Forall P (rc_map c) -> Forall (fun e => P e.1) (rc_list c)) by (intros P HP; apply Forall_map; by rewrite H3).
  rewrite (erase_apart fst) by (done || by apply (Hfst (apart r)) || by apply (Hfst (fun q => 0 < r_length q))).
  destruct (map_insert_apart r (rc_map c) Hpos H1 Hp Hap) as [S1 S2].
  set (c' := MkCache _ _ _ _). assert (Hc : cache_ok bytes cps c').
  { unfold c'. split_and!; cbn; [done|rewrite <- S2; by constructor|by rewrite H3|by constructor]. }
  assert (Er : rc_range c' = rc_range c) by done. clearbody c'. case_match; [|done]. cbn. destruct (ok_purge_one c' Hc) as (P1 & P2 & _). split; [done|congruence].
Qed.

Lemma findIterator_spec location keys : forall pre, Forall (fun q => r_edge q <= location) pre ->
  exists b rest m, findIterator location pre keys = (b, m) /\ pre ++ keys = b ++ rest /\ Forall (fun q => r_edge q <= location) b
    /\ match m with Some r => location < r_edge r /\ exists rest', rest = r :: rest' | None => rest = [] end.
Proof.
  induction keys as [|r keys IH]; intros pre Hpre; cbn; [by exists pre, [], None|]. destruct (Z.ltb_spec location (r_edge r)).
  - exists pre, (r :: keys), (Some r). split_and!; try done. by eexists.
  - destruct (IH (pre ++ [r])) as (b & rest & m & E1 & E2 & E3 & E4); [apply Forall_app; split; [done|by repeat constructor]|].
    exists b, rest, m. split_and!; try done. by rewrite <- E2, <- app_assoc.
Qed.

(** What is found: the range of a location with its bytes, or the gap around it. *)
Definition found (c : RangeCache) (location : Z) (r : Range * option (list Z)) : Prop :=
  within r.1 (rc_range c) /\ r_contains r.1 location = true
  /\ match r.2 with
     | Some d => r.1 ∈ rc_map c /\ d = slice (r_location r.1 * cps) (r_length r.1 * cps) bytes
     | None => Forall (apart r.1) (rc_map c)
     end.

Lemma list_get_key c r : cache_ok bytes cps c -> r ∈ rc_map c -> exists d l1 l2, list_get r (rc_list c) = Some (r, d) /\ rc_list c = l1 ++ (r, d) :: l2.
Proof.
  intros Hok Hr. pose proof (ok_list_NoDup c Hok) as Hnd. pose proof Hok as (H1 & H2 & H3 & _). rewrite <- H3 in Hr. apply list_elem_of_fmap in Hr as ((r', d) & E & Hr). cbn in E. subst r'.
  apply list_elem_of_split in Hr as (l1 & l2 & E). exists d, l1, l2. split; [|done]. rewrite E in *. unfold list_get. rewrite map_app in Hnd. cbn in Hnd.
  apply NoDup_app in Hnd as (_ & Hn & _). clear E H3 Hok. induction l1 as [|[q e] l1 IH]; cbn; unfold same_key; [by rewrite Z.eqb_refl|].
  cbn in Hn. rewrite (proj2 (Z.eqb_neq _ _)); [apply IH; intros x Hx; apply Hn; by constructor|]. intros E. apply (Hn (r_location q)); [constructor|]. rewrite <- E. constructor.
Qed.

Lemma ok_retain c r : cache_ok bytes cps c -> r ∈ rc_map c -> cache_ok bytes cps (retain r c) /\ rc_range (retain r c) = rc_range c /\ rc_map (retain r c) = rc_map c /\ length (rc_list (retain r c)) = length (rc_list c).
Proof.
  intros Hok Hr. destruct (list_get_key c r Hok Hr) as (d & l1 & l2 & Hg & El). pose proof (ok_list_NoDup c Hok) as Hnd. unfold retain. rewrite Hg. cbn [rc_range rc_list rc_map].
  unfold list_erase. destruct Hok as (H1 & H2 & H3 & H4). rewrite El in *. pose proof (filter_key fst l1 l2 (r, d) Hnd) as F. change (r, d).1 with r in F. rewrite F.
  split; [split_and!; cbn; try done|].
  - rewrite <- H3, map_app, map_app. cbn. apply Permutation_middle.
  - rewrite Forall_app, Forall_cons in H4. constructor; [tauto|]. apply Forall_app. tauto.
  - split_and!; try done. cbn. rewrite !length_app. cbn. lia.
Qed.

Lemma last_edge b location whole : StronglySorted before b -> Forall (ranged whole) b -> Forall (fun q => r_edge q <= location) b -> r_location whole <= location ->
  let start := match last b with Some r => r_edge r | None => r_location whole end in
  r_location whole <= start <= location /\ Forall (fun q => r_edge q <= start) b.
Proof.
  intros Hs Hr He Hw. cbn zeta. destruct (last b) as [r|] eqn:El; [|apply last_None in El as ->; split; [lia|done]]. apply last_Some in El as (l & ->).
  apply Forall_app in Hr as [Hr1 [[Hl Hwi] _]%Forall_cons], He as [_ [He _]%Forall_cons]. unfold within, r_edge in *. split; [lia|]. apply Forall_app. split; [|by repeat constructor].
  clear -Hs Hr1 Hl. induction l as [|q l IH]; [constructor|]. apply Forall_cons in Hr1 as [_ Hr1]. inversion Hs as [|? ? Hs1 Hq]; subst. constructor; [|by apply IH].
  rewrite Forall_forall in Hq. specialize (Hq r). unfold before, r_edge in Hq. etrans; [apply Hq, elem_of_app; right; constructor|lia].
Qed.

Lemma wp_cache_find c location (Q : Range * option (list Z) -> RangeCache -> Prop) : cache_ok bytes cps c -> r_contains (rc_range c) location = true ->
  (forall r c', cache_ok bytes cps c' -> rc_range c' = rc_range c -> length (rc_list c') = length (rc_list c) -> rc_map c' = rc_map c -> found c' location r -> Q r c') -> wp (cache_find location) Q c.
Proof.
  intros Hok Hin HQ. pose proof Hok as (H1 & H2 & H3 & H4). unfold cache_find. apply wp_bind_gets. unfold r_contains in Hin. apply andb_true_iff in Hin as [Hin1%Z.leb_le Hin2%Z.ltb_lt].
  destruct (findIterator_spec location (rc_map c) [] ltac:(constructor)) as (b & rest & m & -> & E2 & E3 & E4). cbn in E2. rewrite E2 in H1, H2.
  assert (Hsb : StronglySorted before b) by (clear -H1; induction b as [|q b IH]; [constructor|]; inversion H1 as [|? ? Hs Hq]; subst; constructor; [by apply IH|by apply Forall_app in Hq as [? _]]).
  apply Forall_app in H2 as [Hrb Hrr]. destruct (last_edge b location (rc_range c) Hsb Hrb E3 Hin1) as [Hst Hsl]. set (start := match last b with Some r => r_edge r | None => r_location (rc_range c) end) in *. clearbody start.
  destruct m as [r|].
  - destruct E4 as (Hl & rest' & ->). apply Forall_cons in Hrr as [[Hlen Hwi] Hrr]. unfold within in Hwi.
    destruct (r_contains r location) eqn:Ec.
    + assert (Hmem : r ∈ rc_map c) by (rewrite E2; apply elem_of_app; right; constructor). destruct (list_get_key c r Hok Hmem) as (d & l1 & l2 & Hg & El). rewrite Hg.
      destruct (ok_retain c r Hok Hmem) as (R1 & R2 & R3 & R4). apply wp_bind_modify, wp_ret, HQ; try done. unfold found. rewrite R2, R3. cbn [fst snd]. split; [done|]. split; [done|]. split; [done|].
      rewrite El, Forall_app, Forall_cons in H4. tauto.
    + unfold r_contains in Ec. apply andb_false_iff in Ec. assert (Hlt : location < r_location r) by (unfold r_edge in *; destruct Ec as [?%Z.leb_gt|?%Z.ltb_ge]; lia).
      apply wp_ret, HQ; try done. unfold found, within, r_contains, expandToEdge, r_edge in *. cbn [fst snd r_location r_length]. split_and!; [lia..| |].
      { apply andb_true_iff. split; [apply Z.leb_le|apply Z.ltb_lt]; lia. }
      rewrite E2. apply Forall_app. split; [eapply Forall_impl; [exact Hsl|]; intros q Hq; unfold apart, r_edge; cbn [r_location r_length]; cbn beta in Hq; lia|]. constructor; [unfold apart, r_edge; cbn; lia|].
      apply Forall_forall. intros q Hq. assert (Hrq : before r q).
      { clear -H1 Hq. induction b as [|x b IH]; cbn in H1; inversion H1 as [|? ? Hs Hx]; subst; [by rewrite Forall_forall in Hx; apply Hx|by apply IH]. }
      unfold apart, before, r_edge in *. cbn. lia.
  - subst rest. apply wp_ret, HQ; try done. unfold found, within, r_contains, expandToEdge, r_edge in *. cbn [fst snd r_location r_length]. split_and!; [lia..| |].
    { apply andb_true_iff. split; [apply Z.leb_le|apply Z.ltb_lt]; lia. }
    rewrite E2, app_nil_r. eapply Forall_impl; [exact Hsl|]. intros q Hq. unfold apart, r_edge. cbn [r_location r_length]. cbn beta in Hq. lia.
Qed.
End cache.

(** ** Mapping *)

Lemma purge_one_keys c q : q ∈ rc_map (purge_one c) -> q ∈ rc_map c.
Proof. unfold purge_one. case_match; [|done]. case_match. cbn. unfold map_erase. rewrite !list_elem_of_In, filter_In. tauto. Qed.

Section file.
Context `{I : Interrupts} (d : Disk) {L : DiskLaws d}.

(** A part of the file from an aligned offset; it ends where the file ends. *)
Lemma wp_fh_map_aligned offset len h (Q : list Z -> FileHandle -> Prop) :
  sound_handle d h -> 0 <= offset < zlen (dk_bytes d) -> offset mod dk_pagesize d = 0 -> 0 < len < 2 ^ 46 -> len mod dk_pagesize d = 0 ->
  (forall r h', same_file h h' -> r = [] \/ r = slice offset len (dk_bytes d) ->
    (reliable d -> 4 <= zlen (dk_bytes d) -> r = slice offset len (dk_bytes d)) -> Q r h') ->
  wp (fh_map offset len) Q h.
Proof.
  intros Hh Ho Halign Hl Hlen HQ. pose proof (disk_size (d := d)) as Hsize. pose proof Hh as (Hd & Hop & _).
  unfold fh_map. apply wp_bind_gets. rewrite Hop. cbn [negb]. apply wp_bind, (wp_fh_getSize d); [done..|]. intros h1 S1. cbn zeta. rewrite Hd.
  destruct (align_bounds d offset L ltac:(lia)) as (Hp & -> & _ & _). rewrite Halign, Z.sub_0_r, Z.add_0_r.
  assert (Hro : s64 offset = offset) by (apply wrap_s_small; lia). rewrite Hro.
  assert (Hu : forall z, 0 <= z < 2 ^ 63 -> u64 z = z) by (intros z Hz; unfold u64; apply Z.mod_small; lia).
  rewrite (Hu len), Hlen by lia. cbn [Z.eqb]. rewrite (Hu (len + offset)), (Hu (zlen (dk_bytes d))), (Hu (zlen (dk_bytes d) - offset)) by lia.
  set (size := if zlen (dk_bytes d) <? len + offset then zlen (dk_bytes d) - offset else len).
  assert (Hz : 0 < size <= len /\ offset + size <= zlen (dk_bytes d) /\ slice offset size (dk_bytes d) = slice offset len (dk_bytes d)).
  { unfold size. destruct (Z.ltb_spec (zlen (dk_bytes d)) (len + offset)); [|split_and!; [lia..|done]]. split_and!; [lia..|].
    unfold slice. rewrite !firstn_all2; [done|rewrite length_drop; unfold zlen in *; lia..]. }
  clearbody size. destruct Hz as (Hz1 & Hz2 & Hz3). apply wp_bind.
  assert (Hmap : forall (readable : bool) h2, same_file h h2 -> (reliable d -> 4 <= zlen (dk_bytes d) -> readable = true) ->
    wp (if negb readable then ret []
        else let! mapped := mmap offset size in
             match mapped with None => ret [] | Some m => lift_res (subdata m 0 (Z.min len size)) end) Q h2).
  { intros readable h2 S2 Hr. destruct readable; cbn [negb].
    2: { apply wp_ret, HQ; [done|by left|intros R H4; by specialize (Hr R H4)]. }
    apply wp_bind. unfold mmap. apply wp_bind, wp_request. intros h3 S3 _ _. apply wp_bind_gets.
    assert (Hd3 : fh_disk h3 = d) by (destruct S2 as (? & _), S3 as (? & _); congruence). rewrite Hd3.
    destruct (dk_mmap d _) eqn:Em; cbn [negb orb].
    2: { apply wp_ret, wp_ret, HQ; [by etrans|by left|]. intros R _. revert R. apply (reliable_not _ _ (fh_calls h2)). rewrite Em. by rewrite andb_false_r. }
    rewrite (proj2 (Z.eqb_neq size 0)), (proj2 (Z.leb_gt (2 ^ 47) size)), (proj2 (Z.ltb_ge offset 0)), (proj2 (Z.leb_le _ _)) by lia. cbn [orb]. apply wp_ret.
    assert (Hs : subdata (slice offset size (dk_bytes d)) 0 (Z.min len size) = Done (slice offset len (dk_bytes d))).
    { rewrite Z.min_r by lia. unfold subdata. rewrite Z.add_0_l, !Hu, (proj2 (Z.eqb_neq size 0)), zlen_slice, Z.leb_refl by lia. rewrite zread_n_slice by (rewrite ?zlen_slice; lia).
      rewrite slice_within by lia. by rewrite Z.add_0_r, Hz3. }
    eapply wp_lift_res; [exact Hs|]. apply HQ; [by etrans|by right|done]. }
  destruct (offset =? 0) eqn:E0.
  - apply wp_bind, (wp_fh_read d); [done|destruct S1; congruence|lia|]. intros r h2 S2 _ _ Hr. apply wp_ret, Hmap; [by etrans|].
    intros R H4. rewrite (Hr R H4). apply Z.ltb_lt. unfold zlen in *. rewrite length_take. lia.
  - by apply wp_ret, Hmap.
Qed.

(** ** Pages *)

(** Cache pages are whole pages and whole memory pages, and a range has one at least. *)
Definition pf_sizes (ps cps : Z) : Prop := 0 < ps /\ (ps | cps) /\ (dk_pagesize d | cps) /\ 0 < cps <= cacheMemoryPerRange.

(** An open file whose cache shows its bytes. *)
Definition pf_ok (ps cps : Z) (f : PageFile) : Prop :=
  sound_handle d (pf_handle f) /\ pf_pageSize f = ps /\ pf_cachePageSize f = cps
  /\ rc_range (pf_cache f) = MkRange 0 ((zlen (dk_bytes d) + cps - 1) / cps) /\ cache_ok (dk_bytes d) cps (pf_cache f).

Lemma cut_slice a n o size : 0 <= a <= o -> 0 <= n -> 0 < size -> o + size <= a + n -> a + n < 2 ^ 62 -> a <= zlen (dk_bytes d) ->
  subdata (slice a n (dk_bytes d)) (o - a) size = Done (if o + size <=? zlen (dk_bytes d) then slice o size (dk_bytes d) else []).
Proof.
  intros Ha Hn Hs Ho Hb Hin. assert (Hu : forall z, 0 <= z < 2 ^ 63 -> u64 z = z) by (intros z Hz; unfold u64; apply Z.mod_small; lia).
  unfold subdata. rewrite !Hu, (proj2 (Z.eqb_neq size 0)) by lia.
  assert (Hz : zlen (slice a n (dk_bytes d)) = Z.min n (zlen (dk_bytes d) - a)) by (unfold slice, zlen in *; rewrite length_take, length_drop; lia). rewrite Hz.
  destruct (Z.leb_spec (o + size) (zlen (dk_bytes d))).
  - rewrite (proj2 (Z.leb_le _ _)) by lia. rewrite zread_n_slice by (rewrite ?Hz; lia). rewrite slice_within by lia. do 2 f_equal. lia.
  - by rewrite (proj2 (Z.leb_gt _ _)) by lia.
Qed.

(** The page at [offset], or nothing. *)
Definition page_shown (offset size : Z) (r : list Z) : Prop := r = [] \/ (offset + size <= zlen (dk_bytes d) /\ r = slice offset size (dk_bytes d)).

Section sizes.
Variables ps cps : Z.
Hypothesis sizes : pf_sizes ps cps.

Lemma whole_cache_pages : zlen (dk_bytes d) <= (zlen (dk_bytes d) + cps - 1) / cps * cps < zlen (dk_bytes d) + cps.
Proof. destruct sizes as (_ & _ & _ & H). pose proof (Z.div_mod (zlen (dk_bytes d) + cps - 1) cps ltac:(lia)). pose proof (Z.mod_pos_bound (zlen (dk_bytes d) + cps - 1) cps ltac:(lia)). lia. Qed.

(** An offset and [size] bytes, all in cache page [no], which starts inside the file. *)
Definition in_cache_page (no offset size : Z) : Prop := 0 <= no /\ no * cps <= offset /\ offset + size <= (no + 1) * cps /\ 0 < size /\ no * cps < zlen (dk_bytes d).

Lemma in_range_of no offset size : in_cache_page no offset size -> r_contains (MkRange 0 ((zlen (dk_bytes d) + cps - 1) / cps)) no = true.
Proof. intros (H1 & H2 & H3 & H4 & H5). pose proof whole_cache_pages. destruct sizes as (_ & _ & _ & Hc). unfold r_contains, r_edge. cbn. apply andb_true_iff. split; [apply Z.leb_le; lia|apply Z.ltb_lt; nia]. Qed.

Lemma range_fits r no offset size : in_cache_page no offset size -> within r (MkRange 0 ((zlen (dk_bytes d) + cps - 1) / cps)) -> r_contains r no = true ->
  0 <= r_location r * cps <= offset /\ offset + size <= r_location r * cps + r_length r * cps /\ r_location r * cps < zlen (dk_bytes d) /\ r_location r * cps + r_length r * cps < zlen (dk_bytes d) + cps.
Proof.
  intros (H1 & H2 & H3 & H4 & H5) [W1 W2] Hc. pose proof whole_cache_pages as Hw. destruct sizes as (_ & _ & _ & Hs). unfold r_contains, r_edge in *. cbn in W1, W2.
  apply andb_true_iff in Hc as [C1%Z.leb_le C2%Z.ltb_lt]. nia.
Qed.

Lemma wp_map_loop no offset size K : in_cache_page no offset size -> 1 <= K -> K * cps <= cacheMemoryPerRange -> forall fuel gap max f (Q : list Z -> PageFile -> Prop),
  pf_ok ps cps f -> cacheMemoryPerRange / cps = K -> 1 <= max <= K -> found (dk_bytes d) cps (pf_cache f) no (gap, None) ->
  (length (rc_list (pf_cache f)) * S (Z.to_nat K) + Z.to_nat max < fuel)%nat ->
  (forall r f', pf_ok ps cps f' -> page_shown offset size r ->
    (reliable d -> 4 <= zlen (dk_bytes d) -> offset + size <= zlen (dk_bytes d) -> r = slice offset size (dk_bytes d)) -> Q r f') ->
  wp (map_loop fuel no offset size gap max) Q f.
Proof.
  intros Hno HK HKm. pose proof Hno as (_ & _ & _ & Hsize & _). pose proof (disk_size (d := d)) as Hdisk. induction fuel as [|fuel IH]; intros gap max f Q Hf EK Hmax Hfound Hfuel HQ; [lia|]. cbn [map_loop].
  destruct Hf as (Hh & Hps & Hcps & Hrange & Hok). destruct Hfound as (Hw & Hc & Hap). cbn [fst snd] in Hw, Hc, Hap. rewrite Hrange in Hw.
  destruct (restricted no max gap Hc ltac:(lia)) as (Rw & Rc & Rl). set (range := restrictedRange no max gap) in *. clearbody range.
  assert (Hwr : within range (MkRange 0 ((zlen (dk_bytes d) + cps - 1) / cps))) by (unfold within in *; lia).
  destruct (range_fits _ _ _ _ Hno Hwr Rc) as (F1 & F2 & F3 & F4). destruct sizes as (S1 & S2 & S3 & S4). apply wp_bind_gets. rewrite Hcps. unfold cacheMemoryPerRange in *.
  apply wp_bind, wp_zoom, wp_fh_map_aligned; [done|lia| |nia| |].
  { apply Z.mod_divide; [|by apply Z.divide_mul_r]. destruct (align_bounds d 0 L ltac:(lia)) as [? _]. lia. }
  { apply Z.mod_divide; [|by apply Z.divide_mul_r]. destruct (align_bounds d 0 L ltac:(lia)) as [? _]. lia. }
  intros r h' Sh Hr Hrel. assert (Hh' : sound_handle d h') by (by eapply sound_same).
  assert (Hf1 : pf_ok ps cps (set_pf_handle h' f)) by (split_and!; done).
  destruct r as [|b r].
  - assert (Hnrel : reliable d -> 4 <= zlen (dk_bytes d) -> offset + size <= zlen (dk_bytes d) -> False).
    { intros R H4 _. specialize (Hrel R H4). assert (E : zlen (slice (r_location range * cps) (r_length range * cps) (dk_bytes d)) = 0) by (by rewrite <- Hrel).
      unfold slice, zlen in *. rewrite length_take, length_drop in E. nia. }
    destruct (Z.ltb_spec 1 (r_length range)) as [Hcut|Hcut].
    + assert (Hhalf : 1 <= (r_length range + 1) / 2 < r_length range) by (Z.to_euclidean_division_equations; lia).
      apply IH; [done..|lia| |cbn; lia|done]. split_and!; cbn [fst snd pf_cache set_pf_handle]; [rewrite Hrange; by destruct Hw..|done|done].
    + destruct (rc_map (pf_cache f)) as [|q qs] eqn:Eq.
      * apply wp_ret, HQ; [done|by left|]. intros. by destruct Hnrel.
      * apply wp_bind, wp_zoom, wp_modify. cbn [pf_cache set_pf_handle]. unfold purge. cbn [Nat.iter]. destruct (ok_purge_one _ _ _ Hok) as (P1 & P2 & P3).
        apply wp_bind, wp_zoom. cbn [pf_cache set_pf_cache set_pf_handle]. eapply (wp_cache_find (dk_bytes d) cps (purge_one (pf_cache f))); [exact P1|rewrite P2, Hrange; by eapply in_range_of|].
        intros [gap' cached] c' Hc' Er El Em Hfd. assert (Hcached : cached = None).
        { destruct cached as [e|]; [|done]. destruct Hfd as (_ & Hg1 & Hg2 & _). cbn [fst] in Hg1, Hg2. rewrite Em in Hg2. apply purge_one_keys in Hg2. rewrite Eq in Hg2. rewrite Forall_forall in Hap. specialize (Hap _ Hg2).
          unfold apart, r_contains in *. apply andb_true_iff in Hc as [C1%Z.leb_le C2%Z.ltb_lt], Hg1 as [G1%Z.leb_le G2%Z.ltb_lt]. lia. }
        subst cached.
        eapply wp_bind_lift_res; [unfold cachePagePerRange; rewrite Hcps, (proj2 (Z.eqb_neq cps 0)) by lia; reflexivity|]. unfold cacheMemoryPerRange in *. rewrite EK.
        apply IH; [|done|lia|done| |done].
        -- split_and!; try done. cbn. congruence.
        -- cbn. rewrite El, P3. assert (length (rc_list (pf_cache f)) <> 0)%nat; [|nia]. destruct Hok as (_ & _ & Hperm & _). apply Permutation_length in Hperm. rewrite length_map, Eq in Hperm. cbn in Hperm. lia.
  - assert (Hr' : b :: r = slice (r_location range * cps) (r_length range * cps) (dk_bytes d)) by (by destruct Hr). rewrite Hr'.
    apply wp_bind, wp_zoom, wp_modify. eapply wp_lift_res; [apply cut_slice; lia|].
    assert (Hap' : Forall (apart range) (rc_map (pf_cache f))) by (eapply Forall_impl; [exact Hap|]; intros q; unfold apart, within in *; lia).
    destruct (ok_insert (dk_bytes d) cps (pf_cache f) range Hok) as [I1 I2]; [rewrite Hrange; split; [lia|done]|done|].
    apply HQ.
    + split_and!; cbn; try done. by rewrite I2.
    + unfold page_shown. destruct (Z.leb_spec (offset + size) (zlen (dk_bytes d))); [by right|by left].
    + intros _ _ H. by rewrite (proj2 (Z.leb_le _ _)) by lia.
Qed.

Lemma page_in_cache_page n : 1 <= n -> (n - 1) * ps < zlen (dk_bytes d) -> in_cache_page ((n - 1) * ps / cps) ((n - 1) * ps) ps.
Proof.
  intros Hn Hin. destruct sizes as (S1 & [k Hk] & _ & S4). set (o := (n - 1) * ps) in *. assert (Ho : 0 <= o) by (unfold o; nia).
  pose proof (Z.div_mod o cps ltac:(lia)) as Hdm. pose proof (Z.mod_pos_bound o cps ltac:(lia)) as Hm. pose proof (Z.div_pos o cps ltac:(lia) ltac:(lia)).
  assert (Hrem : exists j, o mod cps = j * ps) by (exists (n - 1 - o / cps * k); rewrite Z.mod_eq by lia; set (q := o / cps); clearbody q; unfold o; rewrite Hk; ring).
  destruct Hrem as [j Hj]. assert (Hjk : j < k) by (apply (Zmult_lt_reg_r _ _ ps); lia). assert (Hfit : o mod cps + ps <= cps) by (rewrite Hj, Hk; nia). unfold in_cache_page. split_and!; lia.
Qed.

(** A page of the file, or nothing; the page itself if nothing is refused. *)
Lemma wp_mapPage n f (Q : list Z -> PageFile -> Prop) : pf_ok ps cps f -> 1 <= n -> (n - 1) * ps < zlen (dk_bytes d) ->
  (forall r f', pf_ok ps cps f' -> page_shown ((n - 1) * ps) ps r ->
    (reliable d -> 4 <= zlen (dk_bytes d) -> (n - 1) * ps + ps <= zlen (dk_bytes d) -> r = slice ((n - 1) * ps) ps (dk_bytes d)) -> Q r f') ->
  wp (mapPage n) Q f.
Proof.
  intros Hf Hn Hin HQ. pose proof (page_in_cache_page n Hn Hin) as Hno. pose proof sizes as (S1 & S2 & S3 & S4). pose proof (disk_size (d := d)) as Hdisk.
  pose proof Hf as (Hh & Hps & Hcps & Hrange & Hok). unfold mapPage, mapPage_at. apply wp_bind_gets, wp_bind_gets. rewrite Hps, Hcps.
  assert (Hu : u64 ((n - 1) * ps) = (n - 1) * ps) by (unfold u64; apply Z.mod_small; nia). rewrite Hu, Z.add_0_r.
  assert (Hs : s64 ((n - 1) * ps) = (n - 1) * ps) by (apply wrap_s_small; nia). rewrite Hs, Hu, (proj2 (Z.eqb_neq cps 0)) by lia.
  set (o := (n - 1) * ps) in *. apply wp_bind, wp_zoom. eapply wp_cache_find; [exact Hok|rewrite Hrange; by eapply in_range_of|].
  intros [gap cached] c' Hc' Er El Em Hfd. assert (Hf' : pf_ok ps cps (set_pf_cache c' f)) by (split_and!; try done; cbn; congruence).
  destruct cached as [data|].
  - destruct Hfd as (W & C & _ & E). cbn [fst snd] in *. rewrite Er, Hrange in W. destruct (range_fits _ _ _ _ Hno W C) as (F1 & F2 & F3 & F4).
    unfold cacheMemoryPerRange in S4. eapply wp_lift_res; [rewrite E; apply cut_slice; lia|]. apply HQ; [done| |intros _ _ H; by rewrite (proj2 (Z.leb_le _ _)) by lia].
    unfold page_shown. destruct (Z.leb_spec (o + ps) (zlen (dk_bytes d))); [by right|by left].
  - apply wp_bind_gets. cbn [pf_cachePageSize set_pf_cache]. eapply wp_bind_lift_res; [unfold cachePagePerRange; cbn [pf_cachePageSize set_pf_cache]; rewrite Hcps, (proj2 (Z.eqb_neq cps 0)) by lia; reflexivity|].
    assert (HK : 1 <= cacheMemoryPerRange / cps) by (apply Z.div_le_lower_bound; lia).
    assert (HKm : cacheMemoryPerRange / cps * cps <= cacheMemoryPerRange) by (rewrite Z.mul_comm; apply Z.mul_div_le; lia).
    eapply wp_map_loop; [exact Hno|exact HK|exact HKm|exact Hf'|done|lia|exact Hfd| |exact HQ]. cbn [pf_cache set_pf_cache]. nia.
Qed.

(** [setPageSize] of a file that has been opened. *)
Lemma wp_pf_setPageSize f (Q : unit -> PageFile -> Prop) : sound_handle d (pf_handle f) -> pf_cache f = new_cache -> cps = Z.max (dk_pagesize d) ps ->
  (ps mod dk_pagesize d = 0 \/ ps < dk_pagesize d) -> (forall f', pf_ok ps cps f' -> Q tt f') -> wp (pf_setPageSize ps) Q f.
Proof.
  intros Hh Hc Ecps Hps HQ. pose proof Hh as (Hd & _). pose proof sizes as (S1 & S2 & S3 & S4). pose proof (disk_size (d := d)) as Hdisk. destruct (align_bounds d 0 L ltac:(lia)) as (Hp & _).
  unfold pf_setPageSize. apply wp_bind_gets. rewrite Hd.
  assert (E : Z.max (dk_pagesize d) (if 0 <? ps mod dk_pagesize d then ps - ps mod dk_pagesize d + dk_pagesize d else ps) = cps).
  { rewrite Ecps. destruct Hps as [-> | Hlt]; [done|]. rewrite Z.mod_small by lia. rewrite (proj2 (Z.ltb_lt _ _)) by lia. lia. }
  rewrite E. apply wp_bind, wp_zoom, (wp_fh_getSize d); [done..|]. intros h' S'. zlen_pos. assert (Hu : u64 (zlen (dk_bytes d)) = zlen (dk_bytes d)) by (unfold u64; apply Z.mod_small; lia). rewrite Hu.
  apply wp_modify, HQ. split; [by eapply sound_same|]. split; [done|]. split; [done|]. cbn. rewrite Hc. split; [|by repeat constructor].
  cbn. f_equal. pose proof (Z.div_mod (zlen (dk_bytes d)) cps ltac:(lia)) as D1. pose proof (Z.mod_pos_bound (zlen (dk_bytes d)) cps ltac:(lia)) as D2.
  destruct (Z.ltb_spec 0 (zlen (dk_bytes d) mod cps)) as [Hm|Hm].
  - apply Z.div_unique_pos with (r := zlen (dk_bytes d) mod cps - 1); lia.
  - apply Z.div_unique_pos with (r := cps - 1); lia.
Qed.
End sizes.
End file.
