(* ===== verification/RepairPager.v ===== *)
(** * The pager (repair/parse/Pager.cpp)

    The pager of the current version: the header of the database, the file behind its cache of ranges, the write-ahead
    log, a codec, and a cache of pages.  A page comes from the cache, from the log if it is there, or from the
    file.

    The codec is that of SQLCipher.  How much memory is in use depends on who still holds data, so that each look at it
    is answered from outside, as are requests for memory. *)

From stdpp Require Import gmap.
From S2P Require Import Prelude CLib Serial MappedFile WalLog PageParse PageCache.

(** ** Code from outside *)

(** [sqlite3Codec(context, data, number, 4)]: the decoded page, or nothing. *)
Class PageCodec := { sqlite3Codec : Z -> list Z -> Z -> option (list Z) }.
(** [m_highWater->getCurrent()], at the [k]-th look. *)
Class HighWater := { getCurrent : nat -> Z }.

(** ** State *)

(** The error is that of the log, which is the pager's. *)
Record RepairPager := MkRepairPager {
  pgr_file : PageFile;
  pgr_codec : option Z;
  pgr_pageSize : Z;
  pgr_reservedBytes : Z;
  pgr_numberOfPages : Z;
  pgr_fileSize : Z;
  pgr_schemaCookie : Z;
  pgr_wal : Wal;
  pgr_walImportance : bool;
  pgr_skipWal : bool;
  pgr_cache : list (Z * list Z);
  pgr_used : Z;
  pgr_looks : nat;
  pgr_allocs : nat;
  pgr_init : InitState
}.

(** Whether the last error of the thread, at a look at the pager, is OK. *)
Class ThreadErrors := { thread_isOK : RepairPager -> bool }.

Definition new_pager (db wal shm : Disk) (junk : list Z) (nbackfill : Z) : RepairPager :=
  MkRepairPager (new_pagefile db) None (-1) (-1) 0 0 (-1) (new_wal wal shm (-1) junk nbackfill) true false [] 0 0 0 NotInitialized.

Definition set_pgr_file v p := MkRepairPager v (pgr_codec p) (pgr_pageSize p) (pgr_reservedBytes p) (pgr_numberOfPages p) (pgr_fileSize p) (pgr_schemaCookie p) (pgr_wal p) (pgr_walImportance p) (pgr_skipWal p) (pgr_cache p) (pgr_used p) (pgr_looks p) (pgr_allocs p) (pgr_init p).
Definition set_pgr_codec v p := MkRepairPager (pgr_file p) v (pgr_pageSize p) (pgr_reservedBytes p) (pgr_numberOfPages p) (pgr_fileSize p) (pgr_schemaCookie p) (pgr_wal p) (pgr_walImportance p) (pgr_skipWal p) (pgr_cache p) (pgr_used p) (pgr_looks p) (pgr_allocs p) (pgr_init p).
Definition set_pgr_reserved v p := MkRepairPager (pgr_file p) (pgr_codec p) (pgr_pageSize p) v (pgr_numberOfPages p) (pgr_fileSize p) (pgr_schemaCookie p) (pgr_wal p) (pgr_walImportance p) (pgr_skipWal p) (pgr_cache p) (pgr_used p) (pgr_looks p) (pgr_allocs p) (pgr_init p).
Definition set_pgr_count v p := MkRepairPager (pgr_file p) (pgr_codec p) (pgr_pageSize p) (pgr_reservedBytes p) v (pgr_fileSize p) (pgr_schemaCookie p) (pgr_wal p) (pgr_walImportance p) (pgr_skipWal p) (pgr_cache p) (pgr_used p) (pgr_looks p) (pgr_allocs p) (pgr_init p).
Definition set_pgr_fileSize v p := MkRepairPager (pgr_file p) (pgr_codec p) (pgr_pageSize p) (pgr_reservedBytes p) (pgr_numberOfPages p) v (pgr_schemaCookie p) (pgr_wal p) (pgr_walImportance p) (pgr_skipWal p) (pgr_cache p) (pgr_used p) (pgr_looks p) (pgr_allocs p) (pgr_init p).
Definition set_pgr_cookie v p := MkRepairPager (pgr_file p) (pgr_codec p) (pgr_pageSize p) (pgr_reservedBytes p) (pgr_numberOfPages p) (pgr_fileSize p) v (pgr_wal p) (pgr_walImportance p) (pgr_skipWal p) (pgr_cache p) (pgr_used p) (pgr_looks p) (pgr_allocs p) (pgr_init p).
Definition set_pgr_wal v p := MkRepairPager (pgr_file p) (pgr_codec p) (pgr_pageSize p) (pgr_reservedBytes p) (pgr_numberOfPages p) (pgr_fileSize p) (pgr_schemaCookie p) v (pgr_walImportance p) (pgr_skipWal p) (pgr_cache p) (pgr_used p) (pgr_looks p) (pgr_allocs p) (pgr_init p).
Definition set_pgr_importance v p := MkRepairPager (pgr_file p) (pgr_codec p) (pgr_pageSize p) (pgr_reservedBytes p) (pgr_numberOfPages p) (pgr_fileSize p) (pgr_schemaCookie p) (pgr_wal p) v (pgr_skipWal p) (pgr_cache p) (pgr_used p) (pgr_looks p) (pgr_allocs p) (pgr_init p).
Definition set_pgr_skipWal v p := MkRepairPager (pgr_file p) (pgr_codec p) (pgr_pageSize p) (pgr_reservedBytes p) (pgr_numberOfPages p) (pgr_fileSize p) (pgr_schemaCookie p) (pgr_wal p) (pgr_walImportance p) v (pgr_cache p) (pgr_used p) (pgr_looks p) (pgr_allocs p) (pgr_init p).
Definition set_pgr_cache c u p := MkRepairPager (pgr_file p) (pgr_codec p) (pgr_pageSize p) (pgr_reservedBytes p) (pgr_numberOfPages p) (pgr_fileSize p) (pgr_schemaCookie p) (pgr_wal p) (pgr_walImportance p) (pgr_skipWal p) c u (pgr_looks p) (pgr_allocs p) (pgr_init p).
Definition set_pgr_looks v p := MkRepairPager (pgr_file p) (pgr_codec p) (pgr_pageSize p) (pgr_reservedBytes p) (pgr_numberOfPages p) (pgr_fileSize p) (pgr_schemaCookie p) (pgr_wal p) (pgr_walImportance p) (pgr_skipWal p) (pgr_cache p) (pgr_used p) v (pgr_allocs p) (pgr_init p).
Definition set_pgr_allocs v p := MkRepairPager (pgr_file p) (pgr_codec p) (pgr_pageSize p) (pgr_reservedBytes p) (pgr_numberOfPages p) (pgr_fileSize p) (pgr_schemaCookie p) (pgr_wal p) (pgr_walImportance p) (pgr_skipWal p) (pgr_cache p) (pgr_used p) (pgr_looks p) v (pgr_init p).
Definition set_pgr_init v p := MkRepairPager (pgr_file p) (pgr_codec p) (pgr_pageSize p) (pgr_reservedBytes p) (pgr_numberOfPages p) (pgr_fileSize p) (pgr_schemaCookie p) (pgr_wal p) (pgr_walImportance p) (pgr_skipWal p) (pgr_cache p) (pgr_used p) (pgr_looks p) (pgr_allocs p) v.

(** The page size, which the log asks its pager for. *)
Definition set_w_pageSize (v : Z) (w : Wal) : Wal :=
  MkWal (w_file w) v (w_fileSize w) (w_truncate w) (w_nbackfill w) (w_maxFrame w) (w_native w) (w_salt w)
    (w_shmLegality w) (w_shm w) (w_pages w) (w_disposed w) (w_init w) (w_error w).
Definition set_pgr_pageSize (v : Z) (p : RepairPager) : RepairPager :=
  MkRepairPager (pgr_file p) (pgr_codec p) v (pgr_reservedBytes p) (pgr_numberOfPages p) (pgr_fileSize p) (pgr_schemaCookie p)
    (set_w_pageSize v (pgr_wal p)) (pgr_walImportance p) (pgr_skipWal p) (pgr_cache p) (pgr_used p) (pgr_looks p) (pgr_allocs p) (pgr_init p).

Definition on_file {A} (c : cm PageFile A) : cm RepairPager A := zoom pgr_file set_pgr_file c.
Definition on_log {A} (c : cm Wal A) : cm RepairPager A := zoom pgr_wal set_pgr_wal c.

(** ** Getters and setters *)

Definition pgr_getNumberOfPages (p : RepairPager) : Z := Z.max (getMaxPageno (pgr_wal p)) (pgr_numberOfPages p).
Definition pgr_getUsableSize (p : RepairPager) : Z := pgr_pageSize p - pgr_reservedBytes p.
Definition pgr_getError (p : RepairPager) : RepairError := w_error (pgr_wal p).
Definition pgr_setError (e : RepairError) : cm RepairPager unit := on_log (modify (set_w_error e)).
Definition pgr_markAsCorrupted (page : Z) : cm RepairPager unit := pgr_setError (Corrupt page).
Definition pgr_threaded : cm RepairPager unit := pgr_setError Threaded.
Definition setWalImportance (flag : bool) : cm RepairPager unit := modify (set_pgr_importance flag) ;;; on_log (setShmLegality flag).
Definition setWalSkipped : cm RepairPager unit := modify (set_pgr_skipWal true).
Definition disposeWal : cm RepairPager unit := on_log dispose.

Section pager.
Context `{I : Interrupts} `{PCo : PageCodec} `{HW : HighWater} `{DA : DataAlloc}.

Definition loadWal : cm RepairPager bool := on_log wal_initialize.

Definition look : cm RepairPager Z :=
  let! k := gets pgr_looks in
  modify (set_pgr_looks (S k)) ;;;
  ret (getCurrent k).

Definition pgr_malloc (n : Z) : cm RepairPager (option (list Z)) :=
  let! k := gets pgr_allocs in
  modify (set_pgr_allocs (S k)) ;;;
  ret (data_malloc k n).

(** ** The cache of pages *)

Definition pages_purge_one (p : RepairPager) : RepairPager :=
  match last (pgr_cache p) with
  | None => p
  | Some (_, d) => set_pgr_cache (removelast (pgr_cache p)) (pgr_used p - zlen d) p
  end.
Definition pages_purge (n : nat) (p : RepairPager) : RepairPager := Nat.iter n pages_purge_one p.

Definition pages_insert (number : Z) (d : list Z) (p : RepairPager) : RepairPager :=
  let used := pgr_used p + zlen d in
  let p := set_pgr_cache ((number, d) :: List.filter (fun e => negb (e.1 =? number)) (pgr_cache p)) used p in
  if maxAllowedCacheMemory <? used then pages_purge 1 p else p.

Definition pages_find (number : Z) (p : RepairPager) : option (list Z) := option_map snd (List.find (fun e => e.1 =? number) (pgr_cache p)).
(** [get] makes the entry the last used one. *)
Definition pages_retain (number : Z) (d : list Z) (p : RepairPager) : RepairPager :=
  set_pgr_cache ((number, d) :: List.filter (fun e => negb (e.1 =? number)) (pgr_cache p)) (pgr_used p) p.

(** The loops of [tryPurgeCache]; a turn gives an entry back. *)
Fixpoint purge_pages_loop (fuel : nat) (allowed : Z) : cm RepairPager unit :=
  match fuel with
  | O => fail OutOfFuel
  | S fuel =>
    let! c := gets pgr_cache in
    match c with
    | [] => ret tt
    | _ => let! current := look in if allowed <? current then modify (pages_purge 1) ;;; purge_pages_loop fuel allowed else ret tt
    end
  end.
Fixpoint purge_ranges_loop (fuel : nat) (allowed : Z) : cm RepairPager unit :=
  match fuel with
  | O => fail OutOfFuel
  | S fuel =>
    let! current := look in
    if allowed <? current then
      let! more := on_file pf_purgeOne in
      if (more : bool) then purge_ranges_loop fuel allowed else ret tt
    else ret tt
  end.

Definition tryPurgeCache : cm RepairPager unit :=
  let! p := gets (fun p => p) in
  let allowed := match pgr_codec p with Some _ => maxAllowedCacheMemory * 2 * 2 | None => maxAllowedCacheMemory * 2 end in
  let! current := look in
  if current <=? allowed then ret tt
  else
    match pgr_codec p with
    | Some _ => on_file pf_purgeAll ;;; purge_pages_loop (S (length (pgr_cache p))) allowed
    | None =>
      modify (fun p => pages_purge (length (pgr_cache p)) p) ;;;
      purge_ranges_loop (S (length (rc_map (pf_cache (pgr_file p))))) allowed
    end.

(** ** Pages *)

(** [acquirePageData(number, offset, size)] *)
Definition pgr_acquirePageData (number offset size : Z) : cm RepairPager (list Z) :=
  let! p := gets (fun p => p) in
  match pages_find number p with
  | Some d => modify (pages_retain number d) ;;; lift_res (subdata d offset size)
  | None =>
    let! data :=
      (if containsPage (pgr_wal p) number then let! d := on_log (wal_acquirePageData number 0 (pgr_pageSize p)) in ret (Some d)
       else if pgr_numberOfPages p <? number then pgr_markAsCorrupted number ;;; ret None
       else let! d := on_file (mapPage number) in ret (Some d)) in
    match data with
    | None => ret []
    | Some data =>
      if negb (zlen data =? pgr_pageSize p) then
        (if 0 <? zlen data then pgr_markAsCorrupted number else pgr_threaded) ;;; ret []
      else
        let! data :=
          (match pgr_codec p with
           | None => ret (Some data)
           | Some ctx =>
             match sqlite3Codec ctx data number with
             | None => pgr_markAsCorrupted number ;;; ret None
             | Some decoded => let! buf := pgr_malloc (pgr_pageSize p) in ret (Some (match buf with Some _ => decoded | None => [] end))
             end
           end) in
        match data with
        | None => ret []
        | Some data => modify (pages_insert number data) ;;; tryPurgeCache ;;; lift_res (subdata data offset size)
        end
    end
  end.

(** [acquireHeader]: the first 100 bytes, or nothing. *)
Definition acquireHeader : cm RepairPager (list Z) :=
  let! p := gets (fun p => p) in
  let! data :=
    (match pgr_codec p with
     | None =>
       let! data := on_file (on_handle (fh_map 0 100)) in
       (if negb (zlen data =? 100) then pgr_threaded else ret tt) ;;; ret (Some data)
     | Some ctx =>
       let! data := on_file (on_handle (fh_map 0 (pgr_pageSize p))) in
       if zlen data =? pgr_pageSize p then
         match sqlite3Codec ctx data 1 with
         | None => pgr_markAsCorrupted 1 ;;; ret None
         | Some decoded =>
           let! buf := pgr_malloc (pgr_pageSize p) in
           let! d := lift_res (subdata (match buf with Some _ => decoded | None => [] end) 0 100) in
           ret (Some d)
         end
       else pgr_threaded ;;; ret (Some data)
     end) in
  match data with
  | Some data => if zlen data =? 100 then ret data else ret []
  | None => ret []
  end.

(** "SQLite format 3" with its terminator. *)
Definition header_magic : list Z := [83; 81; 76; 105; 116; 101; 32; 102; 111; 114; 109; 97; 116; 32; 51; 0].

(** The numbers of the header that are not known; [false] if there is no header. *)
Definition parse_header : cm RepairPager bool :=
  let! p := gets (fun p => p) in
  if (pgr_pageSize p =? -1) || (pgr_reservedBytes p =? -1) then
    let! data := acquireHeader in
    match data with
    | [] => ret false
    | _ =>
      let! start := lift_res (zread_n data 0 16) in
      if negb (bool_decide (start = header_magic)) then pgr_setError NotADatabase ;;; ret false
      else
        (if pgr_pageSize p =? -1 then let! v := lift_res (get2BytesInt data 16) in modify (set_pgr_pageSize v) else ret tt) ;;;
        (if pgr_reservedBytes p =? -1 then let! v := lift_res (get1ByteInt data 20) in modify (set_pgr_reserved v) else ret tt) ;;;
        (if pgr_schemaCookie p =? -1 then let! v := lift_res (get4BytesInt data 40) in modify (set_pgr_cookie v) else ret tt) ;;;
        ret true
    end
  else ret true.

Definition pgr_doInitialize : cm RepairPager bool :=
  let! fileSize := on_file (on_handle getFileSize) in
  match fileSize with
  | None => pgr_threaded ;;; ret false
  | Some fileSize =>
    modify (set_pgr_fileSize fileSize) ;;;
    if fileSize =? 0 then pgr_setError EmptyFile ;;; ret false
    else
      let! opened := on_file (on_handle fh_open) in
      if negb opened then pgr_threaded ;;; ret false
      else
        let! ok := parse_header in
        if negb ok then ret false
        else
          let! p := gets (fun p => p) in
          let ps := pgr_pageSize p in
          if negb (Z.land (ps - 1) ps =? 0) || (ps <? 512) || (65536 <? ps) then pgr_markAsCorrupted 1 ;;; ret false
          else if (pgr_reservedBytes p <? 0) || (255 <? pgr_reservedBytes p) then pgr_markAsCorrupted 1 ;;; ret false
          else
            on_file (pf_setPageSize ps) ;;;
            modify (fun p => set_pgr_count (s32 ((pgr_fileSize p + ps - 1) / ps)) p) ;;;
            let! p := gets (fun p => p) in
            if pgr_skipWal p then ret true
            else
              let! ok := loadWal in
              if (ok : bool) then ret true
              else
                let! e := gets pgr_getError in
                if pgr_walImportance p || negb (isCorruption e) then ret false
                else disposeWal ;;; ret true
  end.

Definition pgr_initialize : cm RepairPager bool := initialize pgr_init set_pgr_init pgr_doInitialize.

(** What pages and cells ask of the pager. *)
#[export] Instance RepairPager_ops `{TE : ThreadErrors} : PagerOps RepairPager := {|
  pg_acquire := pgr_acquirePageData;
  pg_numberOfPages := pgr_getNumberOfPages;
  pg_pageSize := pgr_pageSize;
  pg_usableSize := pgr_getUsableSize;
  pg_malloc := pgr_malloc;
  pg_setError := pgr_setError;
  pg_error := pgr_getError;
  pg_threadOK := thread_isOK
|}.
End pager.
