(* ===== verification/RepairPagerProps.v ===== *)
(** * The pager: what it shows

    After its initialization a pager shows a database: the page of the log where the log has one, the page of the
    file otherwise.  This is the promise [PagerView] that pages, cells and crawlers rely on. *)

From stdpp Require Import gmap.
From stdpp Require Import gmap sorting.
From S2P Require Import Prelude CLib Serial SerialVarint SerialFacts MappedFile WalLog WalProps WalSafe PageParse PageFacts PageCache RepairPager.

Section view.
Context `{I : Interrupts} `{PCo : PageCodec} `{HW : HighWater} `{DA : DataAlloc} `{DAL : !DataAllocLaws DA} `{TE : ThreadErrors}.
Context (d dw : Disk) {L : DiskLaws d} {Lw : DiskLaws dw}.
Variables ps reserved : Z.
Variable index : gmap Z Z.

(** A page size of the format. *)
Definition page_size : Prop := exists j, 9 <= j <= 16 /\ ps = 2 ^ j.

Definition cache_page_size : Z := Z.max (dk_pagesize d) ps.
Definition file_pages : Z := (zlen (dk_bytes d) + ps - 1) / ps.
Definition max_key : Z := match map_to_list index with [] => 0 | (k, _) :: l => foldr Z.max k (map fst l) end.

(** The latest content of a page. *)
Definition latest (n : Z) : option (list Z) :=
  if n <? 1 then None
  else match index !! n with
       | Some i => Some (slice (32 + (24 + ps) * (i - 1) + 24) ps (dk_bytes dw))
       | None => if n * ps <=? zlen (dk_bytes d) then Some (slice ((n - 1) * ps) ps (dk_bytes d)) else None
       end.

Definition shown_db : Database := MkDatabase latest (Z.max max_key file_pages) ps (ps - reserved).

(** The file and the log are what they should be: bytes, not too large, and the index leads to whole frames. *)
Record shown_ok : Prop := {
  so_size : page_size;
  so_reserved : 0 <= reserved <= 255;
  so_bytes : Forall is_byte (dk_bytes d) /\ Forall is_byte (dk_bytes dw);
  so_small : zlen (dk_bytes d) < 2 ^ 31 * 512 /\ zlen (dk_bytes dw) < 2 ^ 31 /\ file_pages < 2 ^ 31;
  so_index : index_sound dw ps index
}.
Section size.
Hypothesis power : page_size.

Lemma size_bounds_of : 512 <= ps <= 65536 /\ good_pageSize ps.
Proof.
  destruct power as (j & Hj & ->). assert (Hpow : 2 ^ 9 <= 2 ^ j <= 2 ^ 16) by (split; apply Z.pow_le_mono_r; lia). split; [lia|]. split; [lia|].
  exists (2 ^ (j - 3)). replace 8 with (2 ^ 3) by done. rewrite <- Z.pow_add_r by lia. f_equal. lia.
Qed.

Lemma sizes_ok : pf_sizes d ps cache_page_size.
Proof.
  pose proof size_bounds_of as [Hb _]. destruct power as (j & Hj & E). destruct (disk_page (d := d)) as (i & Hi & Ei). unfold pf_sizes, cache_page_size, cacheMemoryPerRange. rewrite Ei, E in *.
  assert (Hpi : 1 <= 2 ^ i <= 2 ^ 20) by (split; [apply (Z.pow_le_mono_r 2 0); lia|apply Z.pow_le_mono_r; lia]).
  assert (Hdiv : forall a b, 0 <= a <= b -> (2 ^ a | 2 ^ b)) by (intros a b Hab; exists (2 ^ (b - a)); rewrite <- Z.pow_add_r by lia; f_equal; lia).
  destruct (Z.le_ge_cases i j) as [Hij|Hij].
  - rewrite Z.max_r by (apply Z.pow_le_mono_r; lia). split_and!; [lia|done|apply Hdiv; lia|lia|lia].
  - rewrite Z.max_l by (apply Z.pow_le_mono_r; lia). split_and!; [lia|apply Hdiv; lia|done|lia|lia].
Qed.

Lemma size_aligned : ps mod dk_pagesize d = 0 \/ ps < dk_pagesize d.
Proof.
  destruct power as (j & Hj & E). destruct (disk_page (d := d)) as (i & Hi & Ei). rewrite E, Ei. destruct (Z.le_gt_cases i j) as [H|H].
  - left. apply Z.mod_divide; [apply Z.pow_nonzero; lia|]. exists (2 ^ (j - i)). rewrite <- Z.pow_add_r by lia. f_equal. lia.
  - right. apply Z.pow_lt_mono_r; lia.
Qed.
End size.

Hypothesis ok : shown_ok.

Lemma size_bounds : 512 <= ps <= 65536 /\ good_pageSize ps.
Proof. apply size_bounds_of, ok. Qed.

Lemma key_max n i : index !! n = Some i -> n <= max_key.
Proof.
  intros H. apply elem_of_map_to_list in H. unfold max_key. destruct (map_to_list index) as [|[k v] l]; [by apply elem_of_nil in H|].
  assert (Hf : forall l, k <= foldr Z.max k l /\ forall x, x ∈ l -> x <= foldr Z.max k l).
  { induction l0 as [|y l0 IH]; cbn; [split; [lia|by intros ? ?%elem_of_nil]|]. destruct IH as [IH1 IH2]. split; [lia|]. intros x [->|Hx]%elem_of_cons; [lia|]. specialize (IH2 x Hx). lia. }
  destruct (Hf (map fst l)) as [H1 H2]. apply elem_of_cons in H as [[= -> _]|H]; [done|]. apply H2. apply list_elem_of_fmap. by exists (n, i).
Qed.

(** The number of pages is an [int]. *)
Lemma count_small : db_count shown_db < 2 ^ 31.
Proof.
  destruct ok as [_ _ _ (_ & _ & S3) Hidx]. cbn. apply Z.max_lub_lt; [|done]. unfold max_key. destruct (map_to_list index) as [|[k v] l] eqn:E; [lia|].
  assert (Hk : forall k' v', (k', v') ∈ (k, v) :: l -> k' < 2 ^ 31) by (intros k' v' H; rewrite <- E in H; apply elem_of_map_to_list in H; by apply (Hidx k' v')).
  assert (Hl : forall l', (forall k', k' ∈ l' -> k' < 2 ^ 31) -> foldr Z.max k l' < 2 ^ 31).
  { induction l' as [|x l' IH]; intros H; cbn; [by apply (Hk k v), elem_of_cons; left|]. apply Z.max_lub_lt; [apply H; left|apply IH; intros; apply H; by right]. }
  apply Hl. intros k' ([k1 v1] & -> & Hx)%list_elem_of_fmap. apply (Hk k1 v1). by right.
Qed.

Lemma latest_data n p : latest n = Some p -> 1 <= n <= Z.max max_key file_pages /\ zlen p = ps /\ Forall is_byte p.
Proof.
  pose proof size_bounds as [Hb Hps]. destruct ok as [_ _ [B1 B2] (S1 & S2 & _) Hidx]. unfold latest. destruct (Z.ltb_spec n 1) as [|Hn]; [done|]. destruct (index !! n) as [i|] eqn:E.
  - intros [= <-]. pose proof (key_max n i E). destruct (whole_frame_fits dw ps Hps i (proj2 (Hidx n i E))) as [W1 W2].
    split_and!; [lia..|apply zlen_slice; lia|by apply Forall_part].
  - destruct (Z.leb_spec (n * ps) (zlen (dk_bytes d))) as [N2|]; [|done]. intros [= <-].
    split_and!; [lia| |apply zlen_slice; nia|by apply Forall_part]. assert (n <= file_pages); [|lia]. unfold file_pages. apply Z.div_le_lower_bound; lia.
Qed.

(** ** The state of an initialized pager *)

Definition pgr_inv (p : RepairPager) : Prop :=
  pf_ok d ps cache_page_size (pgr_file p) /\ pgr_codec p = None /\ pgr_pageSize p = ps /\ pgr_reservedBytes p = reserved /\ pgr_numberOfPages p = file_pages
  /\ w_pages (pgr_wal p) = index /\ (index = ∅ \/ log_sound dw ps (pgr_wal p)) /\ Forall (fun e => latest e.1 = Some e.2) (pgr_cache p).

(** Everything is granted. *)
Definition pgr_grants : Prop := reliable d /\ reliable dw /\ forall k n, 0 <= n -> is_Some (data_malloc k n).

Lemma inv_cache p c u : pgr_inv p -> Forall (fun e => latest e.1 = Some e.2) c -> pgr_inv (set_pgr_cache c u p).
Proof. intros H Hc. unfold pgr_inv in *. destruct_and?. by split_and!. Qed.

Lemma inv_looks p k : pgr_inv p -> pgr_inv (set_pgr_looks k p).
Proof. intros H. unfold pgr_inv in *. destruct_and?. by split_and!. Qed.

Lemma inv_purge_one p : pgr_inv p -> pgr_inv (pages_purge_one p) /\ pgr_getError (pages_purge_one p) = pgr_getError p /\ length (pgr_cache (pages_purge_one p)) = pred (length (pgr_cache p))
  /\ pgr_file (pages_purge_one p) = pgr_file p.
Proof.
  intros H. unfold pages_purge_one. destruct (last (pgr_cache p)) as [[n e]|] eqn:El.
  - apply last_Some in El as (l & El). split_and!; [|done| |done].
    + apply inv_cache; [done|]. destruct H as (_ & _ & _ & _ & _ & _ & _ & Hc). rewrite El in *. rewrite removelast_last. by apply Forall_app in Hc as [Hc _].
    + cbn. rewrite El, removelast_last, length_app. cbn. lia.
  - apply last_None in El. rewrite El. done.
Qed.

Lemma inv_purge k p : pgr_inv p -> pgr_inv (pages_purge k p) /\ pgr_getError (pages_purge k p) = pgr_getError p.
Proof.
  intros H. induction k as [|k [IH1 IH2]]; [done|]. cbn. destruct (inv_purge_one _ IH1) as (H1 & H2 & _). split; [done|by etrans].
Qed.

Lemma inv_file p f : pgr_inv p -> pf_ok d ps cache_page_size f -> pgr_inv (set_pgr_file f p).
Proof. intros H Hf. unfold pgr_inv in *. destruct_and?. by split_and!. Qed.

Lemma pf_purge_one f : pf_ok d ps cache_page_size f -> pf_ok d ps cache_page_size (set_pf_cache (purge 1 (pf_cache f)) f).
Proof.
  intros (H1 & H2 & H3 & H4 & H5). destruct (ok_purge_one _ _ _ H5) as (P1 & P2 & _). split_and!; try done; [by destruct H1 as (? & ? & ?)..|]. cbn. congruence.
Qed.

Lemma wp_look p (Q : Z -> RepairPager -> Prop) : pgr_inv p -> (forall v p', pgr_inv p' -> pgr_getError p' = pgr_getError p -> pgr_cache p' = pgr_cache p -> pgr_file p' = pgr_file p -> Q v p') -> wp look Q p.
Proof. intros H HQ. apply wp_bind_gets, wp_bind_modify, wp_ret, HQ; try done. Qed.

Lemma purge_one_length c : cache_ok (dk_bytes d) cache_page_size c -> length (rc_map (purge_one c)) = pred (length (rc_map c)).
Proof.
  intros H. destruct (ok_purge_one _ _ _ H) as ((_ & _ & H3 & _) & _ & El). destruct H as (_ & _ & H3' & _).
  apply Permutation_length in H3, H3'. rewrite length_map in H3, H3'. lia.
Qed.

(** Giving memory back changes nothing that is shown. *)
Lemma wp_tryPurgeCache p (Q : unit -> RepairPager -> Prop) : pgr_inv p -> (forall p', pgr_inv p' -> pgr_getError p' = pgr_getError p -> Q tt p') -> wp tryPurgeCache Q p.
Proof.
  intros H HQ. unfold tryPurgeCache. apply wp_bind_gets. pose proof H as (_ & Hcodec & _). rewrite Hcodec. apply wp_bind, wp_look; [done|]. intros v p1 H1 E1 C1 F1.
  case_match; [by apply wp_ret, HQ|]. apply wp_bind_modify. destruct (inv_purge (length (pgr_cache p1)) p1 H1) as [H2 E2].
  assert (Hloop : forall fuel p2, pgr_inv p2 -> pgr_getError p2 = pgr_getError p -> (length (rc_map (pf_cache (pgr_file p2))) < fuel)%nat -> wp (purge_ranges_loop fuel (maxAllowedCacheMemory * 2)) Q p2).
  { induction fuel as [|fuel IH]; intros p2 Hp2 Ep2 Hf; [lia|]. cbn [purge_ranges_loop]. apply wp_bind, wp_look; [done|]. intros v3 p3 H3 E3 _ F3. case_match; [|apply wp_ret, HQ; [done|congruence]].
    apply wp_bind, wp_zoom. unfold pf_purgeOne. apply wp_bind_gets. destruct (rc_map (pf_cache (pgr_file p3))) as [|r l] eqn:El.
    - apply wp_ret, wp_ret, HQ; [|change (pgr_getError p3 = pgr_getError p); congruence]. pose proof H3 as (Hfile & _). by apply inv_file.
    - apply wp_bind, wp_zoom, wp_modify, wp_ret. pose proof H3 as (Hfile & _). apply IH; [by apply inv_file, pf_purge_one|change (pgr_getError p3 = pgr_getError p); congruence|].
      change (length (rc_map (purge_one (pf_cache (pgr_file p3)))) < fuel)%nat. destruct Hfile as (_ & _ & _ & _ & Hcok). rewrite (purge_one_length _ Hcok), El. rewrite <- F3, El in Hf. cbn in *. lia. }
  apply Hloop; [done|congruence|]. assert (Ef : forall k q, pgr_file (pages_purge k q) = pgr_file q).
  { induction k as [|k IH]; intros q; [done|]. cbn. unfold pages_purge_one. case_match; [case_match|]; cbn; apply IH. }
  rewrite Ef, F1. lia.
Qed.

(** ** Acquiring a page *)

(** A page of the log. *)
Lemma wp_log_page n i w (Q : list Z -> Wal -> Prop) : log_sound dw ps w -> w_pages w !! n = Some i ->
  (forall r w', log_sound dw ps w' -> w_pages w' = w_pages w -> r = [] \/ r = slice (32 + (24 + ps) * (i - 1) + 24) ps (dk_bytes dw) ->
    (reliable dw -> r = slice (32 + (24 + ps) * (i - 1) + 24) ps (dk_bytes dw) /\ w_error w' = w_error w) -> Q r w') ->
  wp (wal_acquirePageData n 0 ps) Q w.
Proof.
  intros Hw Hi HQ. pose proof size_bounds as [Hb Hps]. pose proof Hw as (Hh & Hsz & Hix). specialize (Hix _ _ Hi). destruct ok as [_ _ _ (_ & S2 & _) _].
  destruct Hix as [_ Hix]. destruct (whole_frame_fits dw ps Hps i Hix) as [H1 H2]. unfold wal_acquirePageData. apply wp_bind, wp_bind_gets. rewrite Hi. apply wp_ret, wp_bind_gets. rewrite Hi. cbn [default from_option id].
  eapply wp_bind_lift_res; [apply (frame_offset_ok ps); try done; lia|]. unfold frameHeaderSize.
  eapply wp_bind_lift_res; [unfold chk_int; rewrite (proj2 (Z.leb_le _ _)), (proj2 (Z.ltb_lt _ _)) by lia; reflexivity|]. rewrite Z.add_0_r.
  unfold acquireData, on_wal_file. apply wp_bind, wp_zoom, (wp_fh_map dw); [done..|lia|lia|lia|]. intros r h' S' Hr Hrel. pose proof (log_sound_file _ _ _ _ Hw S') as Hw'.
  assert (Hu : u64 ps = ps) by (unfold u64; apply Z.mod_small; lia). rewrite Hu.
  assert (Hz : zlen (slice (32 + (24 + ps) * (i - 1) + 24) ps (dk_bytes dw)) = ps) by (apply zlen_slice; lia). case_match eqn:El.
  - apply wp_ret, HQ; try done. intros R. split; [apply Hrel; [done|lia]|done].
  - assert (Hnr : ~ reliable dw) by (intros R; rewrite (Hrel R ltac:(lia)), Hz, Z.eqb_refl in El; done).
    assert (Hend : forall e, Q [] (set_w_error e (set_w_file h' w))) by (intros e; apply HQ; try done; by left).
    apply wp_bind. case_match; [apply wp_bind_gets|]; apply wp_modify, wp_ret, Hend.
Qed.

Lemma inv_wal p w : pgr_inv p -> w_pages w = index -> (index = ∅ \/ log_sound dw ps w) -> pgr_inv (set_pgr_wal w p).
Proof. intros Hp H1 H2. unfold pgr_inv in *. destruct_and?. by split_and!. Qed.

Lemma inv_setError e p : pgr_inv p -> pgr_inv (set_pgr_wal (set_w_error e (pgr_wal p)) p).
Proof. intros Hp. pose proof Hp as (_ & _ & _ & _ & _ & H6 & H7 & _). apply inv_wal; [done..|]. destruct H7 as [?|H7]; [by left|right]. exact H7. Qed.

Lemma latest_cut n data off size : latest n = Some data -> 0 <= off -> 0 < size -> off + size <= ps -> subdata data off size = Done (slice off size data).
Proof.
  intros Hn Ho Hs Hfit. destruct (latest_data _ _ Hn) as (_ & Hz & _). pose proof size_bounds as [Hb _]. unfold subdata, u64. rewrite !Z.mod_small by lia.
  rewrite (proj2 (Z.eqb_neq size 0)), Hz, (proj2 (Z.leb_le _ _)) by lia. apply zread_n_slice; lia.
Qed.

Lemma inv_keep number data p : pgr_inv p -> latest number = Some data -> pgr_inv (pages_retain number data p) /\ pgr_inv (pages_insert number data p) /\ pgr_getError (pages_insert number data p) = pgr_getError p.
Proof.
  intros Hp Hn. assert (Hc : Forall (fun e => latest e.1 = Some e.2) ((number, data) :: List.filter (fun e => negb (e.1 =? number)) (pgr_cache p))).
  { constructor; [done|]. destruct Hp as (_ & _ & _ & _ & _ & _ & _ & Hc). rewrite Forall_forall in *. intros e He. apply list_elem_of_In, filter_In in He as [He _]. by apply Hc, list_elem_of_In. }
  split; [by apply inv_cache|]. unfold pages_insert. set (p' := set_pgr_cache _ _ p). assert (Hp' : pgr_inv p') by (by apply inv_cache).
  case_match; [|done]. by apply (inv_purge 1 p').
Qed.

(** The page is the latest, or nothing; it is the page if all is granted. *)
Lemma wp_pgr_acquire n off size p (Q : list Z -> RepairPager -> Prop) : pgr_inv p -> 1 <= n -> 0 <= off -> 0 < size -> off + size <= ps ->
  (forall r p', pgr_inv p' -> r = [] \/ (exists page, latest n = Some page /\ r = slice off size page) ->
    (pgr_grants -> forall page, latest n = Some page -> r = slice off size page /\ pgr_getError p' = pgr_getError p) -> Q r p') ->
  wp (pgr_acquirePageData n off size) Q p.
Proof.
  intros Hp Hn Ho Hs Hfit HQ. pose proof size_bounds as [Hb Hps]. pose proof Hp as (Hfile & Hcodec & Eps & Eres & Ecount & Eindex & Hlog & Hcache).
  unfold pgr_acquirePageData. apply wp_bind_gets. rewrite Eps, Hcodec.
  destruct (pages_find n p) as [data|] eqn:Ef.
  { assert (Hl : latest n = Some data).
    { unfold pages_find in Ef. destruct (List.find _ _) as [[k e]|] eqn:E; [|done]. injection Ef as <-. apply find_some in E as [E1 E2]. cbn in E2. apply Z.eqb_eq in E2 as ->.
      rewrite Forall_forall in Hcache. apply list_elem_of_In in E1. exact (Hcache _ E1). }
    destruct (inv_keep n data p Hp Hl) as [K1 _]. apply wp_bind_modify. eapply wp_lift_res; [by apply (latest_cut n)|]. apply HQ; [done|right; by eexists|]. intros _ page Hpage. split; [congruence|done]. }
  (* a page that has been read *)
  assert (Hgot : forall r p1, pgr_inv p1 -> (r = [] \/ latest n = Some r) -> (pgr_grants -> forall page, latest n = Some page -> r = page /\ pgr_getError p1 = pgr_getError p) ->
    wp (if negb (zlen r =? ps) then (if 0 <? zlen r then pgr_markAsCorrupted n else pgr_threaded) ;;; ret []
        else let! data := ret (Some r) in
             match data with None => ret [] | Some data => modify (pages_insert n data) ;;; tryPurgeCache ;;; lift_res (subdata data off size) end) Q p1).
  { intros r p1 H1 Hr Hg. destruct Hr as [-> |Hr].
    - rewrite zlen_nil, (proj2 (Z.eqb_neq 0 ps)) by lia. cbn [negb Z.ltb Z.compare]. apply wp_bind, wp_zoom, wp_modify, wp_ret, HQ; [by apply inv_setError|by left|].
      intros G page Hpage. destruct (Hg G page Hpage) as [<- _]. destruct (latest_data _ _ Hpage) as (_ & Hz & _). rewrite zlen_nil in Hz. lia.
    - destruct (latest_data _ _ Hr) as (_ & Hz & _). rewrite Hz, Z.eqb_refl. cbn [negb]. apply wp_bind, wp_ret, wp_bind_modify. destruct (inv_keep n r p1 H1 Hr) as (_ & K2 & K3).
      apply wp_bind, wp_tryPurgeCache; [done|]. intros p2 H2 E2. eapply wp_lift_res; [by apply (latest_cut n)|]. apply HQ; [done|right; by eexists|].
      intros G page Hpage. destruct (Hg G page Hpage) as [-> E1]. split; [done|congruence]. }
  apply wp_bind. unfold containsPage. rewrite Eindex. case_bool_decide as Hin.
  - destruct Hin as [i Hi]. destruct Hlog as [->|Hlog]; [by rewrite lookup_empty in Hi|]. apply wp_bind, wp_zoom. eapply wp_log_page; [done|by rewrite Eindex|].
    intros r w' Hw' Ew Hr Hrel. apply wp_ret. assert (El : latest n = Some (slice (32 + (24 + ps) * (i - 1) + 24) ps (dk_bytes dw))) by (unfold latest; by rewrite (proj2 (Z.ltb_ge n 1)), Hi by lia).
    apply Hgot; [apply inv_wal; [done|congruence|by right]|destruct Hr as [-> | ->]; [by left|by right]|].
    intros (_ & G & _) page Hpage. destruct (Hrel G) as [-> E]. split; [congruence|]. exact E.
  - rewrite <- eq_None_not_Some in Hin. rewrite Ecount. destruct (Z.ltb_spec file_pages n) as [Hlt|Hge].
    + apply wp_bind, wp_zoom, wp_modify, wp_ret, wp_ret, HQ; [by apply inv_setError|by left|]. intros _ page Hpage. unfold latest in Hpage. rewrite (proj2 (Z.ltb_ge n 1)), Hin in Hpage by lia.
      destruct (Z.leb_spec (n * ps) (zlen (dk_bytes d))) as [En|]; [|done]. unfold file_pages in Hlt.
      assert (n <= (zlen (dk_bytes d) + ps - 1) / ps) by (apply Z.div_le_lower_bound; lia). lia.
    + assert (Hin_file : (n - 1) * ps < zlen (dk_bytes d)).
      { unfold file_pages in Hge. pose proof (Z.mul_div_le (zlen (dk_bytes d) + ps - 1) ps ltac:(lia)). nia. }
      apply wp_bind, wp_zoom. eapply (wp_mapPage d ps cache_page_size (sizes_ok (so_size ok))); [done..|]. intros r f' Hf' Hshown Hrel. apply wp_ret.
      apply Hgot; [by apply inv_file| |].
      * destruct Hshown as [->|[Hfull ->]]; [by left|right]. unfold latest. rewrite (proj2 (Z.ltb_ge n 1)), Hin, (proj2 (Z.leb_le (n * ps) _)) by lia. done.
      * intros (G & _) page Hpage. unfold latest in Hpage. rewrite (proj2 (Z.ltb_ge n 1)), Hin in Hpage by lia. destruct (Z.leb_spec (n * ps) (zlen (dk_bytes d))) as [En|]; [|done].
        injection Hpage as <-. split; [|done]. apply Hrel; [done|nia|lia].
Qed.

(** ** The promise *)

#[export] Instance RepairPager_view : PagerView RepairPager.
Proof.
  refine {| pv_inv := pgr_inv; pv_db := shown_db; pv_grants := pgr_grants; pv_rest := unit; pv_other := fun _ => tt;
    pv_geometry := _; pv_sizes := _; pv_page_data := latest_data; pv_acquire := _; pv_malloc := _; pv_setError := _ |}.
  - pose proof size_bounds as [Hb _]. destruct ok as [_ Hr _ _ _]. cbn. lia.
  - intros p (_ & _ & E1 & E2 & E3 & E4 & _). cbn. unfold pgr_getUsableSize, pgr_getNumberOfPages, getMaxPageno. rewrite E4, E1, E2, E3. done.
  - intros n off size p Q Hp H1 H2 H3 H4 HQ. cbn in *. apply wp_pgr_acquire; [done..|]. intros r p' Hp' Hr Hg. by apply HQ.
  - intros n p Q Hp Hn HQ. cbn. apply HQ; try done.
    destruct (data_malloc (pgr_allocs p) n) as [b|] eqn:E; [by eapply data_malloc_size; [|lia]|]. intros (_ & _ & G). destruct (G (pgr_allocs p) n ltac:(lia)). congruence.
  - intros e p Q Hp HQ. cbn. apply HQ; try done.
Defined.
End view.

(** * The pager: initialization

    Whatever the files hold, a pager that is initialized shows the latest pages; a database without a log is opened. *)

(** The test of a power of two. *)
Lemma power_of_two n : Z.land (n - 1) n = 0 -> 512 <= n <= 65536 -> exists j, 9 <= j <= 16 /\ n = 2 ^ j.
Proof.
  intros Hl Hn. set (j := Z.log2 n). pose proof (Z.log2_spec n ltac:(lia)) as Hj. fold j in Hj.
  assert (Hr : 9 <= j <= 16) by (split; [apply (Z.log2_le_mono 512); lia|apply (Z.log2_le_mono _ 65536); lia]). exists j. split; [done|].
  destruct (Z.eq_dec n (2 ^ j)) as [Heq|Hne]; [done|]. exfalso. assert (H1 : Z.testbit n j = true) by (apply Z.bit_log2; lia).
  assert (H2 : Z.testbit (n - 1) j = true).
  { assert (E : Z.log2 (n - 1) = j) by (apply Z.log2_unique; lia). rewrite <- E. apply Z.bit_log2. lia. }
  assert (H3 : Z.testbit (Z.land (n - 1) n) j = true) by (by rewrite Z.land_spec, H1, H2). by rewrite Hl, Z.bits_0 in H3.
Qed.

Section any.
Context `{I : Interrupts} `{PCo : PageCodec} `{HW : HighWater} `{DA : DataAlloc} `{DAL : !DataAllocLaws DA}.
Context (d dw ds : Disk) {L : DiskLaws d} {Lw : DiskLaws dw} {Ls : DiskLaws ds}.
(** [skip]: the log is not read. *)
Variables (junk : list Z) (nbackfill : Z) (skip : bool).

(** The pager while its header is read: the file is open, the log is as it was made. *)
Definition opening (p : RepairPager) : Prop :=
  sound_handle d (pf_handle (pgr_file p)) /\ pf_cache (pgr_file p) = new_cache /\ pgr_codec p = None /\ pgr_fileSize p = zlen (dk_bytes d)
  /\ pgr_cache p = [] /\ pgr_skipWal p = skip /\ pgr_walImportance p = true
  /\ pgr_wal p = new_wal dw ds (pgr_pageSize p) junk nbackfill.

(** The first 100 bytes, or nothing. *)
Lemma wp_acquireHeader p (Q : list Z -> RepairPager -> Prop) : opening p -> 0 < zlen (dk_bytes d) ->
  (forall p', (reliable d -> 100 <= zlen (dk_bytes d) -> False) -> Q [] p') ->
  (forall p', opening p' -> pgr_pageSize p' = pgr_pageSize p -> pgr_reservedBytes p' = pgr_reservedBytes p -> pgr_schemaCookie p' = pgr_schemaCookie p -> pgr_init p' = pgr_init p ->
    100 <= zlen (dk_bytes d) -> Q (slice 0 100 (dk_bytes d)) p') ->
  wp acquireHeader Q p.
Proof.
  intros (Hh & Hc & Hcodec & Hrest) Hpos HN HQ. unfold acquireHeader. apply wp_bind_gets. rewrite Hcodec. apply wp_bind, wp_bind, wp_zoom, wp_zoom.
  destruct (Z.lt_ge_cases (zlen (dk_bytes d)) 100) as [Hs|Hs].
  - apply (wp_fh_map_short d); [done..|lia|]. intros r h' S' Hr. rewrite (proj2 (Z.eqb_neq (zlen r) 100)) by (destruct Hr as [-> | ->]; [rewrite zlen_nil|]; lia). cbn [negb].
    apply wp_bind, wp_zoom, wp_modify, wp_ret. rewrite (proj2 (Z.eqb_neq (zlen r) 100)) by (destruct Hr as [-> | ->]; [rewrite zlen_nil|]; lia). apply wp_ret, HN. lia.
  - apply (wp_fh_map d); [done..|lia|lia|lia|]. intros r h' S' Hr Hrel. destruct Hr as [-> | ->].
    + apply wp_bind, wp_zoom, wp_modify, wp_ret. apply wp_ret, HN. intros R _. specialize (Hrel R ltac:(lia)). apply (f_equal zlen) in Hrel. rewrite zlen_slice, zlen_nil in Hrel by lia. lia.
    + rewrite zlen_slice, Z.eqb_refl by lia. cbn [negb]. apply wp_bind, wp_ret, wp_ret. rewrite zlen_slice, Z.eqb_refl by lia. apply wp_ret, HQ; try done.
      split; [by eapply sound_same|done].
Qed.

(** The numbers of the header. *)
Definition header_size : Z := match get2BytesInt (slice 0 100 (dk_bytes d)) 16 with Done v => v | Stuck _ => 0 end.
Definition header_reserved : Z := match get1ByteInt (slice 0 100 (dk_bytes d)) 20 with Done v => v | Stuck _ => 0 end.

Definition header_cookie : Z := match get4BytesInt (slice 0 100 (dk_bytes d)) 40 with Done v => v | Stuck _ => 0 end.

Lemma header_numbers : 100 <= zlen (dk_bytes d) ->
  get2BytesInt (slice 0 100 (dk_bytes d)) 16 = Done header_size /\ get1ByteInt (slice 0 100 (dk_bytes d)) 20 = Done header_reserved /\ get4BytesInt (slice 0 100 (dk_bytes d)) 40 = Done header_cookie.
Proof.
  intros Hs. assert (Hz : zlen (slice 0 100 (dk_bytes d)) = 100) by (apply zlen_slice; lia).
  assert (Hread : forall i, 0 <= i < 100 -> exists b, zread (slice 0 100 (dk_bytes d)) i = Done b).
  { intros i Hi. unfold zread. rewrite (proj2 (Z.leb_le _ _)) by lia. destruct (slice 0 100 (dk_bytes d) !! Z.to_nat i) as [b|] eqn:E; [by exists b|]. apply lookup_ge_None in E. unfold zlen in Hz. lia. }
  unfold header_size, header_reserved, header_cookie, get2BytesInt, get1ByteInt, get4BytesInt.
  change (16 + 1) with 17. change (40 + 1) with 41. change (40 + 2) with 42. change (40 + 3) with 43.
  destruct (Hread 16 ltac:(lia)) as [b0 ->], (Hread 17 ltac:(lia)) as [b1 ->], (Hread 20 ltac:(lia)) as [b2 ->], (Hread 40 ltac:(lia)) as [b3 ->], (Hread 41 ltac:(lia)) as [b4 ->], (Hread 42 ltac:(lia)) as [b5 ->], (Hread 43 ltac:(lia)) as [b6 ->].
  cbn [res_bind]. done.
Qed.

Definition starts_right : Prop := take 16 (dk_bytes d) = header_magic.

Lemma wp_parse_header p (Q : bool -> RepairPager -> Prop) : opening p -> 0 < zlen (dk_bytes d) -> pgr_pageSize p = -1 -> pgr_reservedBytes p = -1 -> pgr_schemaCookie p = -1 ->
  (forall p', (reliable d -> 100 <= zlen (dk_bytes d) -> starts_right -> False) -> Q false p') ->
  (forall p', opening p' -> pgr_pageSize p' = header_size -> pgr_reservedBytes p' = header_reserved -> pgr_schemaCookie p' = header_cookie -> pgr_init p' = pgr_init p -> 100 <= zlen (dk_bytes d) -> Q true p') ->
  wp parse_header Q p.
Proof.
  intros Ho Hpos Eps Eres Eck HN HQ. unfold parse_header. apply wp_bind_gets. rewrite Eps, Eres. cbn [Z.eqb Pos.eqb orb]. apply wp_bind, wp_acquireHeader; [done..| |].
  { intros p' Hr. apply wp_ret, HN. tauto. }
  intros p1 O1 P1 R1 C1 I1 Hs. assert (Hz : zlen (slice 0 100 (dk_bytes d)) = 100) by (apply zlen_slice; lia). destruct (header_numbers Hs) as (E1 & E2 & E3).
  apply wp_nonempty; [lia|]. eapply wp_bind_lift_res; [apply zread_n_slice; lia|]. rewrite slice_within by lia. case_bool_decide as Hm; cbn [negb].
  2: { apply wp_bind, wp_zoom, wp_modify, wp_ret, HN. intros _ _ Hst. apply Hm. unfold slice. exact Hst. }
  apply wp_bind. eapply wp_bind_lift_res; [exact E1|]. apply wp_modify. apply wp_bind. eapply wp_bind_lift_res; [exact E2|]. apply wp_modify. apply wp_bind.
  assert (Hend : forall p', opening p' -> pgr_pageSize p' = header_size -> pgr_reservedBytes p' = header_reserved -> pgr_schemaCookie p' = header_cookie -> pgr_init p' = pgr_init p1 -> wp (ret true) Q p').
  { intros p' O' S' R' C' I'. apply wp_ret, HQ; try done. congruence. }
  destruct O1 as (A1 & A2 & A3 & A4 & A5 & A6 & A7 & A8).
  assert (Hfin : forall p2, p2 = set_pgr_reserved header_reserved (set_pgr_pageSize header_size p1) -> opening p2).
  { intros p2 ->. split_and!; try done; [by destruct A1 as (? & ? & ?)..|]. cbn. by rewrite A8. }
  rewrite Eck. cbn [Z.eqb Pos.eqb]. eapply wp_bind_lift_res; [exact E3|]. apply wp_modify, Hend; try done. by apply (Hfin _ eq_refl).
Qed.

(** The pager before it reads the log. *)
Definition before_log (p : RepairPager) : Prop :=
  pf_ok d header_size (cache_page_size d header_size) (pgr_file p) /\ pgr_codec p = None /\ pgr_pageSize p = header_size /\ pgr_reservedBytes p = header_reserved /\ pgr_schemaCookie p = header_cookie
  /\ pgr_numberOfPages p = file_pages d header_size /\ pgr_cache p = [] /\ pgr_wal p = new_wal dw ds header_size junk nbackfill.

Hypothesis small : zlen (dk_bytes d) < 2 ^ 39.

(** A header that is accepted. *)
Definition header_good : Prop := page_size header_size /\ 0 <= header_reserved <= 255.

Lemma file_pages_small ps : 512 <= ps -> 0 <= file_pages d ps < 2 ^ 31.
Proof. intros Hps. unfold file_pages. zlen_pos. split; [apply Z.div_pos; lia|apply Z.div_lt_upper_bound; lia]. Qed.

Lemma wp_pgr_initialize (Q : bool -> RepairPager -> Prop) :
  (forall p, (reliable d -> 100 <= zlen (dk_bytes d) -> starts_right -> header_good -> False) -> Q false p) ->
  (forall p, before_log p -> header_good ->
    if skip then Q true (set_pgr_init Initialized p) else wp loadWal (fun ok p' => Q ok (set_pgr_init (if ok : bool then Initialized else Failed) p')) p) ->
  wp pgr_initialize Q (set_pgr_skipWal skip (new_pager d dw ds junk nbackfill)).
Proof.
  intros HN HL. unfold pgr_initialize, initialize. apply wp_bind_gets. cbn [pgr_init new_pager set_pgr_skipWal]. apply wp_bind_modify, wp_bind.
  set (Q' := fun (ok : bool) => wp (modify (set_pgr_init (if ok then Initialized else Failed)) ;;; ret ok) Q).
  assert (HN' : forall p, (reliable d -> 100 <= zlen (dk_bytes d) -> starts_right -> header_good -> False) -> Q' false p) by (intros p Hp; by apply wp_bind_modify, wp_ret, HN).
  set (QL := fun p => if skip then Q' true p else wp loadWal Q' p). assert (HL' : forall p, before_log p -> header_good -> QL p).
  { intros p Hp Hh. specialize (HL p Hp Hh). unfold QL. destruct skip; [by apply wp_bind_modify, wp_ret|]. eapply wp_mono; [exact HL|]. intros ok p' HQ. by apply wp_bind_modify, wp_ret. }
  clearbody Q'. clear HN HL Q. unfold pgr_doInitialize. apply wp_bind, wp_zoom, wp_zoom, (wp_getFileSize d); [done..|]. intros h1 (S1 & S2 & S3). apply wp_bind_modify. zlen_pos.
  case_match eqn:E0; [apply wp_bind, wp_zoom, wp_modify, wp_ret, HN'; lia|]. apply Z.eqb_neq in E0.
  apply wp_bind, wp_zoom, wp_zoom. unfold fh_open. apply wp_bind, wp_request. intros h2 (T1 & T2 & T3) Tz _. apply wp_bind_gets. cbn in S1, S2, S3, T1, T2, T3, Tz.
  destruct (dk_open (fh_disk h2) _) eqn:Eo.
  2: { apply wp_ret. cbn [negb]. apply wp_bind, wp_zoom, wp_modify, wp_ret, HN'. intros R. assert (Ed : fh_disk h2 = d) by congruence. rewrite Ed in Eo. pose proof (fun k => proj1 (R k)) as Ho. by rewrite Ho in Eo. }
  apply wp_bind_modify, wp_ret. cbn [negb]. apply wp_bind. apply wp_parse_header; try done; [|lia|..].
  { split; [|split_and!; done]. split_and!; cbn; [congruence|done|]. rewrite Tz. destruct S3 as [->|S3]; [by left|right; congruence]. }
  { intros p' Hp'. cbn [negb]. apply wp_ret, HN'. tauto. }
  intros p1 (A1 & A2 & A3 & A4 & A5 & A6 & A7 & A8) E1 E2 Ecookie _ Hs. cbn [negb]. apply wp_bind_gets. rewrite E1.
  case_match eqn:Eps.
  { apply wp_bind, wp_zoom, wp_modify, wp_ret, HN'. intros _ _ _ [(j & Hj & Ej) _]. rewrite Ej in Eps.
    assert (Hpow : 2 ^ 9 <= 2 ^ j <= 2 ^ 16) by (split; apply Z.pow_le_mono_r; lia).
    assert (Hland : Z.land (2 ^ j - 1) (2 ^ j) = 0).
    { rewrite Z.land_comm. replace (2 ^ j - 1) with (Z.ones j) by (rewrite Z.ones_equiv; lia). rewrite Z.land_ones by lia. apply Z.mod_same. lia. }
    rewrite Hland, (proj2 (Z.ltb_ge _ _)), (proj2 (Z.ltb_ge _ _)) in Eps by lia. done. }
  apply orb_false_iff in Eps as [[Eps1 Eps2%Z.ltb_ge]%orb_false_iff Eps3%Z.ltb_ge]. apply negb_false_iff, Z.eqb_eq in Eps1.
  pose proof (power_of_two _ Eps1 ltac:(lia)) as Hsize. case_match eqn:Er.
  { apply wp_bind, wp_zoom, wp_modify, wp_ret, HN'. intros _ _ _ [_ Hres]. rewrite E2 in Er. lia. }
  rewrite E2 in Er. assert (Hgood : header_good) by (split; [exact Hsize|lia]).
  apply wp_bind, wp_zoom. eapply (wp_pf_setPageSize d header_size (cache_page_size d header_size)); [by apply sizes_ok|done|done|done|by apply size_aligned|].
  intros f Hf. apply wp_bind_modify, wp_bind_gets. cbn [pgr_skipWal set_pgr_count set_pgr_file]. rewrite A6.
  set (p2 := set_pgr_count _ _). assert (H2 : before_log p2).
  { unfold p2. split_and!; try done; [by destruct Hf as ((? & ? & ?) & ?)..| |cbn; congruence].
    cbn. rewrite A4. fold (file_pages d header_size). pose proof (file_pages_small header_size ltac:(lia)). apply wrap_s_small; lia. }
  assert (Himp : pgr_walImportance p2 = true) by exact A7. clearbody p2. specialize (HL' p2 H2 Hgood). unfold QL in HL'. destruct skip; [by apply wp_ret|]. apply wp_bind. eapply wp_mono; [exact HL'|]. intros ok p' Hok. destruct ok; [by apply wp_ret|]. apply wp_bind_gets. rewrite Himp. cbn [orb]. by apply wp_ret.
Qed.

Hypothesis file_bytes : Forall is_byte (dk_bytes d).

Lemma before_log_shown p : before_log p -> header_good -> Forall is_byte (dk_bytes dw) -> zlen (dk_bytes dw) < 2 ^ 31 -> forall w b, log_loaded dw header_size w ->
  shown_ok d dw header_size header_reserved (w_pages w) /\ pgr_inv d dw header_size header_reserved (w_pages w) (set_pgr_init b (set_pgr_wal w p)).
Proof.
  intros (B1 & B2 & B3 & B4 & _ & B5 & B6 & B7) [Hps Hres] Hbw Hsw w b Hw. destruct (size_bounds_of header_size Hps) as [Hb _]. pose proof (file_pages_small header_size ltac:(lia)).
  split.
  - split; try done; [lia|]. destruct Hw as [->|(_ & _ & Hix)]; [apply index_sound_empty|done].
  - unfold pgr_inv. cbn. rewrite B2, B3, B4, B5, B6. split; [exact B1|]. repeat (split; [done|]). constructor.
Qed.
End any.

(** Pages, one after the other. *)
Fixpoint acquire_pages `{I : Interrupts} `{PCo : PageCodec} `{HW : HighWater} `{DA : DataAlloc} (ns : list Z) : cm RepairPager (list (list Z)) :=
  match ns with
  | [] => ret []
  | n :: ns => let! p := gets (fun p => p) in let! r := pgr_acquirePageData n 0 (pgr_pageSize p) in let! rs := acquire_pages ns in ret (r :: rs)
  end.

Section props.
Context `{I : Interrupts} `{PCo : PageCodec} `{HW : HighWater} `{DA : DataAlloc} `{DAL : !DataAllocLaws DA}.
Context (d dw ds : Disk) {L : DiskLaws d} {Lw : DiskLaws dw} {Ls : DiskLaws ds}.

Lemma wp_acquire_pages ps reserved index ns : shown_ok d dw ps reserved index -> forall p (Q : list (list Z) -> RepairPager -> Prop), pgr_inv d dw ps reserved index p -> Forall (fun n => 1 <= n) ns ->
  (forall rs p', Forall2 (fun n r => r = [] \/ latest d dw ps index n = Some r) ns rs ->
    (pgr_grants d dw -> Forall (fun n => is_Some (latest d dw ps index n)) ns -> Forall2 (fun n r => latest d dw ps index n = Some r) ns rs /\ pgr_getError p' = pgr_getError p) -> Q rs p') ->
  wp (acquire_pages ns) Q p.
Proof.
  intros Hok. assert (Hall : forall n page, latest d dw ps index n = Some page -> slice 0 ps page = page).
  { intros n page Hp. destruct (latest_data d dw ps reserved index Hok n page Hp) as (_ & Hz & _). unfold slice. rewrite drop_0, <- Hz, to_nat_zlen. apply firstn_all. }
  destruct (size_bounds d dw ps reserved index Hok) as [Hb _].
  induction ns as [|n ns IH]; intros p Q Hp Hns HQ; cbn [acquire_pages]; [apply wp_ret, HQ; [constructor|intros _ _; split; [constructor|done]]|].
  apply Forall_cons in Hns as [Hn Hns]. apply wp_bind_gets. pose proof Hp as (_ & _ & Eps & _). rewrite Eps. apply wp_bind, (wp_pgr_acquire d dw ps reserved index Hok); [done|lia..|].
  intros r p1 H1 Hr Hg. apply wp_bind, IH; [done..|]. intros rs p2 Hrs Hgs. apply wp_ret, HQ.
  - constructor; [|done]. destruct Hr as [->|(page & Hpage & ->)]; [by left|right]. by rewrite (Hall n).
  - intros G HF. apply Forall_cons in HF as [[page Hpage] HF]. destruct (Hgs G HF) as [G1 G2]. destruct (Hg G page Hpage) as [-> G3]. split; [constructor; [by rewrite (Hall n)|done]|congruence].
Qed.

(** A pager that is open, whatever the files are. *)
Lemma wp_pgr_any junk nbackfill (Q : bool -> RepairPager -> Prop) :
  Forall is_byte (dk_bytes d) -> Forall is_byte (dk_bytes dw) -> Forall is_byte (dk_bytes ds) ->
  zlen (dk_bytes d) < 2 ^ 39 -> zlen (dk_bytes dw) < 2 ^ 31 -> backfill_field ds < 2 ^ 31 ->
  (forall p, Q false p) ->
  (forall p, shown_ok d dw (header_size d) (header_reserved d) (w_pages (pgr_wal p)) -> pgr_inv d dw (header_size d) (header_reserved d) (w_pages (pgr_wal p)) p -> Q true p) ->
  wp pgr_initialize Q (new_pager d dw ds junk nbackfill).
Proof.
  intros Hb Hbw Hbs Hsmall Hsw Hfield HN HQ. apply (wp_pgr_initialize d dw ds junk nbackfill false Hsmall); [done|]. intros p Hp Hh. unfold loadWal.
  apply wp_zoom. pose proof Hp as (_ & _ & Eps & _ & _ & _ & _ & ->). destruct (size_bounds_of (header_size d) (proj1 Hh)) as [_ Hgood].
  apply (wp_wal_initialize_any dw ds Lw Ls); [done..|]. intros [] w Hw; [|apply HN].
  destruct (before_log_shown d dw ds junk nbackfill Hsmall Hb p Hp Hh Hbw Hsw w Initialized Hw) as [S1 S2]. by apply HQ.
Qed.

(** C11: Whatever the three files hold and whichever opens, reads, mappings and blocks of memory are refused, opening a pager ends without a fault; and if it succeeds, each page
    that is acquired afterwards, in whatever order and however often memory is given back, is its latest content (from the last frame of the log that
    has it, or from the file), or nothing.  The sizes of the files are known (stat is not refused), the database is shorter than 512 GiB and the log than 2 GiB, and the
    number of copied frames in the -shm file, which the code reads as a signed number, is below 2^31 ([toy_negative_backfill] in WalSmall shows the fault that it leads
    to otherwise). *)
Theorem pager_any_files junk nbackfill :
  Forall is_byte (dk_bytes d) -> Forall is_byte (dk_bytes dw) -> Forall is_byte (dk_bytes ds) ->
  zlen (dk_bytes d) < 2 ^ 39 -> zlen (dk_bytes dw) < 2 ^ 31 -> backfill_field ds < 2 ^ 31 ->
  wp pgr_initialize (fun ok p => ok = true -> forall ns, Forall (fun n => 1 <= n) ns ->
      wp (acquire_pages ns) (fun rs _ => Forall2 (fun n r => r = [] \/ latest d dw (pgr_pageSize p) (w_pages (pgr_wal p)) n = Some r) ns rs) p)
    (new_pager d dw ds junk nbackfill).
Proof.
  intros Hb Hbw Hbs Hsmall Hsw Hfield. apply wp_pgr_any; [done..|]. intros p Hok Hp _ ns Hns. pose proof Hp as (_ & _ & Eps & _). rewrite Eps.
  eapply (wp_acquire_pages _ _ _ ns Hok); [exact Hp|done|]. by intros rs p' Hrs _.
Qed.

(** *** Without a log, the index is empty *)

Lemma wp_wal_initialize_empty ps junk nbackfill (Q : bool -> Wal -> Prop) : dk_bytes dw = [] -> dk_bytes ds = [] ->
  (forall w, w_pages w = ∅ -> w_error w = NoError -> Q true w) -> wp wal_initialize Q (new_wal dw ds ps junk nbackfill).
Proof.
  intros Ew Es HQ. unfold wal_initialize, initialize. apply wp_bind_gets. cbn [w_init new_wal]. apply wp_bind_modify, wp_bind. unfold wal_doInitialize. apply wp_bind.
  unfold load_shm. apply wp_bind_gets. cbn [w_shmLegality set_w_init new_wal negb]. apply wp_bind. unfold shm_initialize, initialize. apply wp_bind_gets. cbn [w_shm shm_init new_shm new_wal set_w_init].
  apply wp_bind_modify, wp_bind. unfold shm_doInitialize, on_shm_file. apply wp_bind, wp_zoom, (wp_getFileSize ds); [done..|]. intros h1 S1. rewrite Es. cbn [zlen length Z.of_nat Z.eqb].
  apply wp_ret, wp_bind_modify, wp_ret. cbn [negb]. apply wp_bind_gets, wp_bind_modify, wp_bind_modify, wp_ret. unfold load_log, on_wal_file.
  apply wp_bind, wp_zoom, (wp_getFileSize dw); [done..|]. intros h2 S2. rewrite Ew. cbn [zlen length Z.of_nat Z.eqb]. apply wp_bind_modify, wp_ret, wp_bind_modify, wp_ret, HQ; done.
Qed.

(** *** With or without a log *)

(** There is no log, or one that SQLite has written with its -shm file.  [live] are the frames that no checkpoint has copied, and
    [index] is where they lead. *)
Inductive log_state (ps : Z) : list WalFrame -> gmap Z Z -> Prop :=
| no_log : dk_bytes dw = [] -> dk_bytes ds = [] -> log_state ps [] ∅
| with_log l s : reliable ds -> good_log ps l -> good_shm s -> dk_bytes dw = log_content l -> dk_bytes ds = shm_bytes s -> Forall is_byte (dk_bytes dw) ->
    sf_salt s = lf_salt l -> sf_backfill s = zlen (lf_backfilled l) -> sf_maxFrame s = zlen (lf_backfilled l ++ lf_live l) ->
    log_state ps (lf_live l) (log_index l).

Lemma last_content_page fs p c : last_content fs p = Some c -> exists f, f ∈ fs /\ wf_page f = p.
Proof.
  induction fs as [|f fs IH]; [done|]. cbn. destruct (last_content fs p) as [c'|]; [|destruct (Z.eqb_spec (wf_page f) p) as [E|]; [|done]; intros _; exists f; split; [left|done]].
  intros E. destruct (IH E) as (g & Hg & Hp). exists g. split; [by right|done].
Qed.

(** A frame of the index is in the file, with the last content of its page. *)
Lemma log_index_content ps l p : good_pageSize ps -> good_log ps l -> dk_bytes dw = log_content l ->
  match log_index l !! p with
  | Some i => p < 2 ^ 31 /\ 1 <= i <= whole_frames dw ps /\ last_content (committed (lf_live l)) p = Some (slice (32 + (24 + ps) * (i - 1) + 24) ps (dk_bytes dw))
  | None => last_content (committed (lf_live l)) p = None
  end.
Proof.
  intros Hps (Hs & Hm & Hmb & Hf & Hsmall) Hd. rewrite log_index_frame. set (k := zlen (lf_backfilled l) + 1). destruct (last_frame k (committed (lf_live l)) p) as [i|] eqn:E.
  2: { apply eq_None_not_Some. rewrite <- (last_frame_is_Some _ _ k), E. by intros []. }
  destruct (last_frame_Some _ _ _ _ E) as (n & f & Hi & Hn & Hc). destruct (last_content_page _ _ _ Hc) as (g & Hg & Hp). unfold committed in Hn, Hg. apply lookup_take_Some in Hn as [Hn _].
  pose proof Hf as Hf2. apply Forall_app in Hf2 as [_ Hlive]. assert (Hgl : g ∈ lf_live l) by (apply list_elem_of_lookup in Hg as [j [Hj _]%lookup_take_Some]; by eapply list_elem_of_lookup_2).
  rewrite Forall_forall in Hlive. destruct (Hlive g Hgl) as (Hgp & _). destruct (Hlive f (list_elem_of_lookup_2 _ _ _ Hn)) as (_ & _ & Hlen & _).
  destruct (content_at dw (lf_native l) (lf_salt l) ps (lf_mid l) Hm (lf_backfilled l) (lf_live l) (lf_rest l) Hf Hd n f Hn) as (pre & post & Hb & Hpre).
  pose proof (log_size dw (lf_native l) (lf_salt l) ps (lf_mid l) Hm (lf_backfilled l) (lf_live l) (lf_rest l) Hf Hd) as Hz. pose proof (lookup_lt_Some _ _ _ Hn) as Hlt. destruct Hps as [Hps _]. zlen_pos.
  split_and!; [lia|lia| |].
  - unfold whole_frames. rewrite Z.quot_div_nonneg by nia. apply Z.div_le_lower_bound; [lia|]. unfold zlen in *. nia.
  - rewrite Hc. f_equal. rewrite Hb. symmetry. apply slice_app_at; [|done]. rewrite Hpre, Hi. unfold k. nia.
Qed.

(** A file with a header that is accepted. *)
Definition good_file : Prop := 100 <= zlen (dk_bytes d) < 2 ^ 39 /\ starts_right d /\ header_good d /\ Forall is_byte (dk_bytes d).

(** The page of a database: from the log, or from the file. *)
Definition current_page (live : list WalFrame) (n : Z) : option (list Z) :=
  match last_content (committed live) n with
  | Some c => Some c
  | None => if n * header_size d <=? zlen (dk_bytes d) then Some (slice ((n - 1) * header_size d) (header_size d) (dk_bytes d)) else None
  end.

(** A pager that skips the log shows the file, whatever the log holds. *)
Lemma wp_pgr_skipped junk nbackfill (Q : bool -> RepairPager -> Prop) : good_file -> Forall is_byte (dk_bytes dw) -> zlen (dk_bytes dw) < 2 ^ 31 -> reliable d ->
  shown_ok d dw (header_size d) (header_reserved d) ∅
  /\ ((forall p, pgr_inv d dw (header_size d) (header_reserved d) ∅ p -> pgr_getError p = NoError -> pgr_schemaCookie p = header_cookie d -> Q true p) ->
      wp pgr_initialize Q (set_pgr_skipWal true (new_pager d dw ds junk nbackfill))).
Proof.
  intros (Hs & Hst & Hh & Hb) Hbw Hsw R. destruct (size_bounds_of (header_size d) (proj1 Hh)) as [Hbd _].
  assert (Hf : 0 <= file_pages d (header_size d) < 2 ^ 31) by (apply file_pages_small; lia). split.
  - split; [apply Hh|apply Hh|done|by split_and!; lia|apply index_sound_empty].
  - intros HQ. apply (wp_pgr_initialize d dw ds junk nbackfill true); [lia|intros p Hno; destruct Hno; [done|lia|done..]|]. intros p Hp _.
    pose proof Hp as (_ & _ & _ & _ & Ec & _ & _ & Ew). assert (Hl : log_loaded dw (header_size d) (pgr_wal p)) by (left; by rewrite Ew).
    destruct (before_log_shown d dw ds junk nbackfill ltac:(lia) Hb p Hp Hh Hbw Hsw (pgr_wal p) Initialized Hl) as [_ S2].
    rewrite Ew in S2. assert (Ep : set_pgr_wal (new_wal dw ds (header_size d) junk nbackfill) p = p) by (rewrite <- Ew; by destruct p). rewrite Ep in S2. apply HQ; [exact S2|unfold pgr_getError; change (w_error (pgr_wal p) = NoError); by rewrite Ew|done].
Qed.

Section state.
Variables (live : list WalFrame) (index : gmap Z Z).
Hypothesis file : good_file.
Hypothesis log : log_state (header_size d) live index.

Lemma state_shown : shown_ok d dw (header_size d) (header_reserved d) index.
Proof.
  destruct file as (Hs & _ & [Hps Hres] & Hb). destruct (size_bounds_of (header_size d) Hps) as [Hbd Hgood].
  assert (Hf : 0 <= file_pages d (header_size d) < 2 ^ 31) by (apply file_pages_small; lia).
  destruct log as [Ew Es|l s _ Hl _ Ew _ Hbw _ _ _].
  - split; [done|done|by rewrite Ew|rewrite Ew, zlen_nil; split_and!; lia|apply index_sound_empty].
  - pose proof Hl as (_ & _ & _ & _ & Hsmall). rewrite <- Ew in Hsmall. split; [done..|by split_and!; lia|]. intros p i Hi. pose proof (log_index_content _ l p Hgood Hl Ew) as H. rewrite Hi in H. tauto.
Qed.

Lemma state_latest n : 1 <= n -> latest d dw (header_size d) index n = current_page live n.
Proof.
  intros Hn. unfold latest, current_page. rewrite (proj2 (Z.ltb_ge n 1)) by lia. destruct file as (Hs & _ & [Hps Hres] & Hb). destruct (size_bounds_of (header_size d) Hps) as [Hbd Hgood].
  destruct log as [Ew Es|l s _ Hl _ Ew _ Hbw _ _ _]; [done|]. pose proof (log_index_content _ l n Hgood Hl Ew) as H. destruct (log_index l !! n) as [i|]; [destruct H as (_ & _ & ->)|rewrite H]; done.
Qed.

Lemma wp_pgr_good junk nbackfill (Q : bool -> RepairPager -> Prop) : reliable d -> reliable dw ->
  (forall p, pgr_inv d dw (header_size d) (header_reserved d) index p -> pgr_getError p = NoError -> Q true p) ->
  wp pgr_initialize Q (new_pager d dw ds junk nbackfill).
Proof.
  intros R Rw HQ. pose proof state_shown as Hok. destruct file as (Hs & Hst & Hh & Hb). apply (wp_pgr_initialize d dw ds junk nbackfill false); [lia| |].
  { intros p Hno. destruct Hno; [done|lia|done..]. }
  intros p Hp _. unfold loadWal. apply wp_zoom. pose proof Hp as (_ & _ & Eps & _ & _ & _ & _ & ->). destruct Hok as [_ _ [_ Hbw] (_ & Hsw & _) _].
  assert (Hend : forall w, w_pages w = index -> log_loaded dw (header_size d) w -> w_error w = NoError -> Q true (set_pgr_init Initialized (set_pgr_wal w p))).
  { intros w Hw Hl He. destruct (before_log_shown d dw ds junk nbackfill ltac:(lia) Hb p Hp Hh Hbw Hsw w Initialized Hl) as [_ S2]. rewrite Hw in S2. by apply HQ. }
  destruct log as [Ew Es|l s Rs Hl Hshm Ew Es _ E1 E2 E3].
  - apply wp_wal_initialize_empty; [done..|]. intros w Hw He. apply Hend; [done|by left|done].
  - destruct (size_bounds_of (header_size d) (proj1 Hh)) as [_ Hgood]. eapply (wp_wal_committed dw ds Lw Ls (header_size d) l s); try done. intros w (_ & W1 & W2 & W3 & W4).
    apply Hend; [done| |done]. right. split_and!; [by destruct W2 as (? & ? & ?)..|done|]. rewrite W1. intros q i Hi. pose proof (log_index_content _ l q Hgood Hl Ew) as H. rewrite Hi in H. tauto.
Qed.
End state.

(** C8: A database whose header gives a page size and reserved bytes that the code accepts is opened when no request is
    refused, without an error, be it without a log or with the log and the -shm file of SQLite; and every page is acquired with its current content: that
    of the last committed frame with the page that no checkpoint has copied, or that of the file. *)
Theorem pager_opens_database junk nbackfill live index ns :
  reliable d -> reliable dw -> (forall k n, 0 <= n -> is_Some (data_malloc k n)) -> good_file -> log_state (header_size d) live index ->
  Forall (fun n => 1 <= n /\ is_Some (current_page live n)) ns ->
  wp pgr_initialize (fun ok p => ok = true /\ pgr_getError p = NoError /\ pgr_pageSize p = header_size d /\ pgr_reservedBytes p = header_reserved d
      /\ wp (acquire_pages ns) (fun rs p' => map Some rs = map (current_page live) ns /\ pgr_getError p' = NoError) p)
    (new_pager d dw ds junk nbackfill).
Proof.
  intros R Rw Hm Hf Hlog Hns. apply (wp_pgr_good live index Hf Hlog); [done..|]. intros p Hp He. pose proof (state_shown live index Hf Hlog) as Hok. pose proof Hp as (_ & _ & Eps & Eres & _). split_and!; try done.
  eapply (wp_acquire_pages _ _ _ ns Hok); [exact Hp|eapply Forall_impl; [exact Hns|by intros n [? _]]|]. intros rs p' _ Hg. destruct Hg as [G1 G2]; [done| |].
  { eapply Forall_impl; [exact Hns|]. intros n [Hn Hc]. by rewrite (state_latest live index Hf Hlog n Hn). }
  split; [|congruence]. clear Hok Hp. induction G1 as [|n r ns rs Hr _ IH]; [done|]. apply Forall_cons in Hns as [[Hn _] Hns]. cbn. rewrite (state_latest live index Hf Hlog n Hn) in Hr. rewrite Hr. f_equal. by apply IH.
Qed.
End props.

(** ** The cache of mapped ranges *)

(** What is asked of the file of pages: a page, or memory back. *)
Inductive PageRequest := MapPage (n : Z) | PurgeOne | PurgeAll.

Definition serve `{I : Interrupts} (r : PageRequest) : cm PageFile (list Z) :=
  match r with
  | MapPage n => mapPage n
  | PurgeOne => pf_purgeOne ;;; ret []
  | PurgeAll => pf_purgeAll ;;; ret []
  end.
Fixpoint serve_all `{I : Interrupts} (rs : list PageRequest) : cm PageFile (list (list Z)) :=
  match rs with [] => ret [] | r :: rs => let! a := serve r in let! l := serve_all rs in ret (a :: l) end.

Section ranges.
Context `{I : Interrupts} (d : Disk) {L : DiskLaws d}.
Variable ps : Z.
Hypothesis size : page_size ps.

Definition request_in_file (r : PageRequest) : Prop := match r with MapPage n => 1 <= n /\ (n - 1) * ps < zlen (dk_bytes d) | _ => True end.
Definition answer_shown (r : PageRequest) (a : list Z) : Prop := match r with MapPage n => page_shown d ((n - 1) * ps) ps a | _ => a = [] end.

Lemma pf_ok_purge k f : pf_ok d ps (cache_page_size d ps) f -> pf_ok d ps (cache_page_size d ps) (set_pf_cache (purge k (pf_cache f)) f).
Proof.
  intros (H1 & H2 & H3 & H4 & H5). assert (Hk : cache_ok (dk_bytes d) (cache_page_size d ps) (purge k (pf_cache f)) /\ rc_range (purge k (pf_cache f)) = rc_range (pf_cache f)).
  { unfold purge. induction k as [|k [IH1 IH2]]; [done|]. cbn [Nat.iter nat_rect]. destruct (ok_purge_one _ _ _ IH1) as (P1 & P2 & _). split; [done|]. by rewrite <- IH2. }
  destruct Hk as [K1 K2]. split; [exact H1|]. split_and!; [done..|cbn; congruence|done].
Qed.

Lemma wp_serve r f (Q : list Z -> PageFile -> Prop) : pf_ok d ps (cache_page_size d ps) f -> request_in_file r ->
  (forall a f', pf_ok d ps (cache_page_size d ps) f' -> answer_shown r a -> Q a f') -> wp (serve r) Q f.
Proof.
  intros Hf Hr HQ. destruct r as [n| |]; cbn [serve].
  - destruct Hr as [H1 H2]. apply (wp_mapPage d ps (cache_page_size d ps) (sizes_ok d ps size)); [done..|]. intros a f' Hf' Ha _. by apply HQ.
  - apply wp_bind. unfold pf_purgeOne. apply wp_bind_gets. case_match; [by apply wp_ret, wp_ret, HQ|]. apply wp_bind, wp_zoom, wp_modify, wp_ret, wp_ret, HQ; [by apply pf_ok_purge|done].
  - apply wp_bind, wp_zoom, wp_modify, wp_ret, HQ; [by apply pf_ok_purge|done].
Qed.

(** C13: The cache of a file of pages keeps mapped ranges that are in the file and never overlap, each with the bytes of the file, and knows each range by one entry; so
    that, however pages and memory are asked for, every page is shown as it is in the file, or not at all when a mapping is refused or the file
    ends within it. *)
Theorem mapped_ranges_apart f rs : sound_handle d (pf_handle f) -> pf_cache f = new_cache -> Forall request_in_file rs ->
  wp (pf_setPageSize ps ;;; serve_all rs)
    (fun l f' => Forall2 answer_shown rs l /\ StronglySorted (fun r q => r_edge r <= r_location q) (rc_map (pf_cache f'))
      /\ Permutation (map fst (rc_list (pf_cache f'))) (rc_map (pf_cache f'))
      /\ Forall (fun e => e.2 = slice (r_location e.1 * cache_page_size d ps) (r_length e.1 * cache_page_size d ps) (dk_bytes d)) (rc_list (pf_cache f'))) f.
Proof.
  intros Hh Hc Hrs. apply wp_bind, (wp_pf_setPageSize d ps (cache_page_size d ps) (sizes_ok d ps size)); [done..|by apply size_aligned|]. clear f Hh Hc. intros f Hf.
  enough (H : wp (serve_all rs) (fun l f' => Forall2 answer_shown rs l /\ pf_ok d ps (cache_page_size d ps) f') f).
  { eapply wp_mono; [exact H|]. intros l f' [Hl (_ & _ & _ & _ & H1 & _ & H2 & H3)]. done. }
  revert f Hf. induction Hrs as [|r rs Hr _ IH]; intros f Hf; cbn [serve_all]; [by apply wp_ret|].
  apply wp_bind, wp_serve; [done..|]. intros a f1 Hf1 Ha. apply wp_bind. eapply wp_mono; [by apply IH|]. intros l f2 [Hl Hf2]. apply wp_ret. by split; [constructor|].
Qed.
End ranges.
