(* ===== verification/BackupFile.v ===== *)
(** * The backup of a database file

    The pager of the repair, with the files it reads, under the crawlers, the full and the incremental backup: what the theorems about
    trees and materials say of the bytes of a database, its log and its -shm file. *)

From stdpp Require Import gmap.
From S2P Require Import Prelude CLib Serial SerialFacts Material IncMaterial MappedFile WalLog WalProps WalSafe PageParse PageFacts.
From S2P Require Import Crawl CrawlTree FullBackup FullProps IncBackup IncBackupProps PageCache RepairPager RepairPagerProps.

(** ** What a backup asks of the pager *)

Definition pgr_setCipherContext (ctx : Z) : cm RepairPager unit := modify (set_pgr_codec (Some ctx)).
Definition pgr_setPageSize (size : Z) : cm RepairPager unit := modify (set_pgr_pageSize size).
Definition pgr_getWalSalt (p : RepairPager) : Salt := w_salt (pgr_wal p).
Definition pgr_getNBackFill (p : RepairPager) : Z := wal_getNBackFill (pgr_wal p).
Definition pgr_getMaxFrame (p : RepairPager) : Z := w_maxFrame (pgr_wal p).

#[export] Instance RepairPager_control `{I : Interrupts} `{PCo : PageCodec} `{HW : HighWater} `{DA : DataAlloc} : PagerControl RepairPager := {|
  pc_initialize := pgr_initialize;
  pc_setCipherContext := pgr_setCipherContext;
  pc_setPageSize := pgr_setPageSize;
  pc_getReservedBytes := pgr_reservedBytes;
  pc_getSchemaCookie := pgr_schemaCookie;
  pc_getWalSalt := pgr_getWalSalt;
  pc_getNBackFill := pgr_getNBackFill;
  pc_getMaxFrame := pgr_getMaxFrame
|}.

Definition pgr_setNBackFill (n : Z) : cm RepairPager unit := on_log (wal_setNBackFill n).
Definition pgr_setWalSalt (salt : Salt) : cm RepairPager unit := on_log (setSalt salt).

#[export] Instance RepairPager_log `{I : Interrupts} : PagerLog RepairPager := {|
  pl_setWalSkipped := setWalSkipped;
  pl_setNBackFill := pgr_setNBackFill;
  pl_setWalSalt := pgr_setWalSalt;
  pl_loadWal := loadWal;
  pl_disposeWal := disposeWal
|}.

(** ** Full backups of a file *)

Section file.
Context `{I : Interrupts} `{PCo : PageCodec} `{HW : HighWater} `{DA : DataAlloc} `{DAL : !DataAllocLaws DA} `{TE : ThreadErrors}.
Context (d dw ds : Disk) {L : DiskLaws d} {Lw : DiskLaws dw} {Ls : DiskLaws ds}.
Context {E : Type} `{BD : BackupDelegates E} `{CD : !CalmDelegates E} `{ZL : Crc}.
Variable m_filter : option (list Z -> bool).

(** The work of a backup that has not begun. *)
Definition idle (w : BackupWork E) : Prop :=
  bw_material w = new_material /\ bw_verified w = [] /\ bw_incremental w = None /\ bw_verifying w = false
  /\ undisturbed (bw_flags w) /\ undisturbed (bw_masterFlags w) /\ calm_env (bw_env w).

(** The database in the files. *)
Definition file_db (index : gmap Z Z) : Database := shown_db d dw (header_size d) (header_reserved d) index.

Lemma file_ready junk nbackfill live index w (Hf : good_file d) (Hlog : log_state dw ds (header_size d) live index) : reliable d -> reliable dw -> idle w ->
  ready (V := RepairPager_view d dw (header_size d) (header_reserved d) index (state_shown d dw ds live index Hf Hlog)) (MkBackup (new_pager d dw ds junk nbackfill) w).
Proof.
  intros R Rw Hidle. split; [|exact Hidle]. cbn [b_pager pc_initialize RepairPager_control pv_inv RepairPager_view pg_error RepairPager_ops]. apply (wp_pgr_good d dw ds live index Hf Hlog); [exact R|exact Rw|]. intros p Hp He. split; [reflexivity|]. split; [exact Hp|exact He].
Qed.

(** C6: From the bytes of the files to the material: a full backup of a database file, with the log and the -shm file of SQLite or without, succeeds when
    nothing is refused; and every table has its content, with its SQL and root page, the leaves of its B-tree from left to right with
    their checksums, and the SQL of the later items that belong to it.  The tables are tables with rowids, and every row of the master table
    has a positive root page or none that is a number.  So the database has no WITHOUT ROWID table that is kept, of which the code keeps no leaf
    ([without_rowid_kept_empty] in BackupSmall), and no view, trigger or virtual table, whose root page 0 makes the code report the
    database as corrupted ([view_fails_backup]). *)
Theorem file_backup_tables junk nbackfill live index w tree_of master before it after :
  reliable d -> reliable dw -> (forall k n, 0 <= n -> is_Some (data_malloc k n)) -> good_file d -> log_state dw ds (header_size d) live index -> idle w ->
  database_stored m_filter (file_db index) tree_of master -> master_items master = before ++ it :: after ->
  defines m_filter (mi_tableName it) it -> Forall (fun it' => ~ defines m_filter (mi_tableName it) it') after ->
  wp (fullBackup m_filter) (fun ok s => ok = true /\ exists c, content (bw_material (b_work s)) (mi_tableName it) = Some c
      /\ tableName c = mi_tableName it /\ sql c = mi_sql it /\ rootPage c = mi_rootpage it /\ verifiedPagenos c = leaves (tree_of (mi_rootpage it))
      /\ associatedSQLs c = concat (map (associated m_filter (mi_tableName it)) after))
    (MkBackup (new_pager d dw ds junk nbackfill) w).
Proof.
  intros R Rw Hm Hf Hlog Hidle Hdb Hitems Hdef Hafter.
  eapply (wp_full_backup_tables (V := RepairPager_view d dw (header_size d) (header_reserved d) index (state_shown d dw ds live index Hf Hlog)) m_filter tree_of master); try done.
  by apply (file_ready junk nbackfill live index w Hf Hlog).
Qed.

(** C12: The same, for the whole material of such a database (tables with rowids, no row of the master table with the root page 0, which excludes views, triggers and
    virtual tables): it is what the rows of the master table say, in their order. *)
Theorem file_backup_material junk nbackfill live index w tree_of master :
  reliable d -> reliable dw -> (forall k n, 0 <= n -> is_Some (data_malloc k n)) -> good_file d -> log_state dw ds (header_size d) live index -> idle w ->
  database_stored m_filter (file_db index) tree_of master ->
  wp (fullBackup m_filter) (fun ok s => ok = true /\ bw_material (b_work s) = settled (foldl (on_item m_filter tree_of) new_material (master_items master)))
    (MkBackup (new_pager d dw ds junk nbackfill) w).
Proof.
  intros R Rw Hm Hf Hlog Hidle Hdb.
  eapply (wp_fullBackup (V := RepairPager_view d dw (header_size d) (header_reserved d) index (state_shown d dw ds live index Hf Hlog)) m_filter tree_of master); [done| |done|by intros].
  by apply (file_ready junk nbackfill live index w Hf Hlog).
Qed.

(** *** Incremental backups *)

(** The work of an incremental backup that has its material and the changes, and has not begun. *)
Definition waiting (m : Material) (inc : IncInfo) (changed : gmap Z IncPage) (w : BackupWork E) : Prop :=
  bw_material w = m /\ bw_incremental w = Some (MkIncMaterial inc changed) /\ bw_verified w = [] /\ bw_unchanged w = []
  /\ undisturbed (bw_flags w) /\ calm_env (bw_env w).

(** C7: An incremental backup of a database file whose schema cookie has not changed succeeds when nothing is refused, whatever the log holds: the sequences of the sequence table are
    taken over, and every table of the material ends with the leaves of its B-tree in the file, each once and with its checksum: those that have not changed keep their entries, those that were deleted lose them, and changed ones get the checksum that is known.  Nothing else in the material changes but the
    order of the tables, and names still lead to their tables.  What is needed: the tables have rowids; the changes have the types and checksums of the pages in the file; and the old
    material is one of the same database, that is: an entry of it that has not changed lies in the file (of an entry behind the end of a file that has become shorter the code does not
    notice that it is gone, see [shorter_file_keeps_leaf] in BackupSmall) and is still that leaf of its table or no page of a table; every leaf that has not changed has an entry, as the
    code asserts; and a table without changed pages has the leaves it had. *)
Theorem file_incremental_tables junk nbackfill m inc changed w tree_of :
  reliable d -> reliable dw -> (forall k n, 0 <= n -> is_Some (data_malloc k n)) -> good_file d -> Forall is_byte (dk_bytes dw) -> zlen (dk_bytes dw) < 2 ^ 31 ->
  waiting m inc changed w -> u32 (header_cookie d) = lastSchemaCookie inc -> seqTableRootPage (info m) <> UnknownPageNo -> sequences_stored tree_of (file_db ∅) m ->
  tables_stored (file_db ∅) tree_of (contentsList m) -> material_old (file_db ∅) tree_of changed (contentsList m) -> changes_known tree_of changed (contentsList m) ->
  wp (incrementalBackup m_filter) (fun ok s => ok = true /\ refreshed tree_of (contentsList (raised m_filter tree_of m)) (raised m_filter tree_of m) (bw_material (b_work s)))
    (MkBackup (new_pager d dw ds junk nbackfill) w).
Proof.
  intros R Rw Hm Hf Hbw Hsw (W1 & W2 & W3 & W4 & W5 & W6) Hck Hroot Hseq Hst Hold Hknown.
  destruct (wp_pgr_skipped d dw ds junk nbackfill (fun ok p => ok = true /\ pgr_inv d dw (header_size d) (header_reserved d) ∅ p /\ pgr_getError p = NoError /\ u32 (pgr_schemaCookie p) = lastSchemaCookie inc) Hf Hbw Hsw R) as [Hok Hopen].
  assert (Hcount : 0 <= db_count (file_db ∅) < 2 ^ 31) by (split; [exact (Z.le_max_l 0 _)|by apply count_small]).
  eapply (wp_incrementalBackup (V := RepairPager_view d dw (header_size d) (header_reserved d) ∅ Hok) m_filter tree_of m inc changed); try done.
  split; [|done]. apply wp_modify. apply Hopen. intros p Hp He Hc. split_and!; [done..|]. by rewrite Hc.
Qed.
End file.

(** ** Crawlers end *)

Section ends.
Context {Pg E : Type} `{PO : PagerOps Pg} `{V : !PagerView Pg} `{BD : BackupDelegates E} `{ZL : Crc}.
(** The delegate answers whether the backup is suspended, whatever the answer is. *)
Hypothesis answers : forall e, pwp other_fault backupSuspended (fun (_ : bool) (_ : E) => True) e.

Lemma keeps_error : keeps (St := Backup Pg E) backup_onCrawlerError.
Proof. intros s Hs. apply pwp_bind, pwp_modify, pwp_modify. exact Hs. Qed.
Lemma keeps_corrupted n : keeps (St := Backup Pg E) (backup_markAsCorrupted n).
Proof. intros s Hs. apply pwp_bind, pwp_keeps; [apply keeps_setError|done|]. intros _ s' Hs'. by apply keeps_error. Qed.

Lemma keeps_canCrawl n : keeps (St := Backup Pg E) (backup_canCrawlPage n).
Proof.
  intros s Hs. unfold backup_canCrawlPage. apply pwp_bind_gets. destruct (verifying (b_work s)) as [m|]; [|by apply pwp_ret].
  case_match; [apply pwp_bind, pwp_keeps; [apply keeps_corrupted|done|]; intros; by apply pwp_ret|].
  apply pwp_bind, pwp_finishes; [apply finishes_zread|]. intros unchanged _. destruct unchanged; [apply pwp_bind, pwp_modify; by apply pwp_ret|].
  case_match; [|by apply pwp_ret]. apply pwp_bind. case_match; [apply pwp_modify|apply pwp_ret]; apply pwp_bind, pwp_modify; by apply pwp_ret.
Qed.

Lemma keeps_willCrawl p h : keeps (St := Backup Pg E) (backup_willCrawlPage p h).
Proof.
  intros s Hs. unfold backup_willCrawlPage. apply pwp_bind, pwp_zoom, pwp_zoom. eapply pwp_mono; [apply answers|]. intros stop e _. destruct stop.
  - apply pwp_bind, pwp_keeps; [apply keeps_setError|done|]. intros _ s' Hs'. apply pwp_bind, pwp_keeps; [apply keeps_error|done|]. intros. by apply pwp_ret.
  - destruct (p_type p); try (by apply pwp_ret); [|apply pwp_bind, pwp_modify; by apply pwp_ret]. apply pwp_bind, pwp_keeps; [apply keeps_corrupted|done|]. intros. by apply pwp_ret.
Qed.

#[local] Instance backup_keeps : ClientKeeps (C := BackupCrawler).
Proof.
  split; [|done|apply keeps_canCrawl|apply keeps_willCrawl| |apply keeps_error].
  - intros s Hs. apply pwp_bind, pwp_modify, pwp_gets. exact Hs.
  - intros c s Hs. by apply pwp_ret.
Qed.

Lemma pwp_table_crawl n s : (db_count pv_db) < 2 ^ 31 -> pv_inv s -> 1 <= n -> pwp other_fault (crawl (C := BackupCrawler) n) (fun ok s' => ok = pg_isOK s' /\ pv_inv s') s.
Proof. intros Hc Hs Hn. eapply pwp_crawl; [done..|]. by intros s' Hs'. Qed.
End ends.

Section any.
Context `{I : Interrupts} `{PCo : PageCodec} `{HW : HighWater} `{DA : DataAlloc} `{DAL : !DataAllocLaws DA} `{TE : ThreadErrors}.
Context (d dw ds : Disk) {L : DiskLaws d} {Lw : DiskLaws dw} {Ls : DiskLaws ds}.
Context {E : Type} `{BD : BackupDelegates E} `{ZL : Crc}.

(** C9: Whatever the three files hold, in whatever circle their pages refer to each other, and whichever opens, reads, mappings and blocks of memory are refused: once the pager is
    open, the crawl of a backup over a table does not run for ever; if it returns, it tells whether there was an error, and the pages that it acquired were the latest ones.  The only faults
    that it can meet on damaged pages are an access outside a page, since cell pointers are signed and may lead in front of it ([signed_pointer_faults] in BackupSmall), and an int
    that overflows.  The sizes of the files are known (stat is not refused), the database is shorter than 512 GiB and the log than 2 GiB, and the number of copied frames in the -shm file is
    below 2^31, since the code reads it as a signed number. *)
Theorem table_crawl_ends junk nbackfill w :
  Forall is_byte (dk_bytes d) -> Forall is_byte (dk_bytes dw) -> Forall is_byte (dk_bytes ds) ->
  zlen (dk_bytes d) < 2 ^ 39 -> zlen (dk_bytes dw) < 2 ^ 31 -> backfill_field ds < 2 ^ 31 ->
  (forall e, pwp other_fault backupSuspended (fun (_ : bool) (_ : E) => True) e) ->
  wp pgr_initialize (fun ok p => ok = true -> forall n, 1 <= n ->
      pwp other_fault (crawl (C := BackupCrawler) n) (fun ok' s => ok' = pg_isOK s /\ pgr_inv d dw (header_size d) (header_reserved d) (w_pages (pgr_wal p)) (b_pager s)) (MkBackup p w))
    (new_pager d dw ds junk nbackfill).
Proof.
  intros Hb Hbw Hbs Hs Hsw Hfield Ha. apply wp_pgr_any; [done..|]. intros p Hok Hp _ n Hn.
  by apply (pwp_table_crawl (V := RepairPager_view d dw (header_size d) (header_reserved d) (w_pages (pgr_wal p)) Hok) Ha); [apply count_small| |].
Qed.
End any.
