(* ===== verification/BackupSmall.v ===== *)
(** * The backup of a small database

    A database of six pages with a log, byte by byte, on which the theorems about pagers, crawlers and backups are applied. *)

From stdpp Require Import gmap sorting.
From S2P Require Import Prelude CLib Varint Values ValuesFacts Pager PagerFacts Btree BtreeFacts Serial SerialVarint SerialFacts Material IncMaterial MappedFile WalLog WalProps WalSafe WalSmall PageParse PageFacts.
From S2P Require Import Crawl CrawlTree FullBackup FullProps IncBackup IncBackupProps PageCache RepairPager RepairPagerProps BackupFile.

Module BackupToy.
Import WalToy.

(** ** What is outside *)

#[local] Instance block_alloc : DataAlloc := {| data_malloc := fun _ n => Some (zeros n) |}.
#[local] Instance block_alloc_laws : DataAllocLaws block_alloc.
Proof. constructor. intros k n b [= <-] Hn. unfold zeros, zlen. rewrite length_replicate. lia. Qed.
#[local] Instance toy_crc : Crc := {| crc32 := fun l => foldr Z.add 0 l |}.
#[local] Instance no_codec : PageCodec := {| sqlite3Codec := fun _ _ _ => None |}.
#[local] Instance low_water : HighWater := {| getCurrent := fun _ => 0 |}.
#[local] Instance silent_thread : ThreadErrors := {| thread_isOK := fun _ => true |}.

#[local] Instance toy_delegates : BackupDelegates unit := {|
  acquireBackupExclusiveLock := ret true;
  releaseBackupExclusiveLock := ret true;
  backupSuspended := ret false;
  isCipherDB _ := false;
  getCipherPageSize := ret 0;
  getCipherContext := ret 0;
  now_seconds := ret 0
|}.
#[local] Instance toy_calm : CalmDelegates unit.
Proof. refine {| calm_env := fun _ => True |}; (intros e Q _ HQ; by apply wp_ret, HQ) || done. Defined.

(** ** The database *)

Definition text (b : list Z) : field := (13 + 2 * zlen b, b).
Definition int1 (v : Z) : field := (1, [v]).

Definition row (id : Z) (fields : list field) : StoredCell := MkStored 0 id (1 + zlen (serials fields)) fields [].
Definition cell_bytes (c : StoredCell) : list Z := cell_head LeafTable c ++ sc_payload c.
Fixpoint pointers_from (start : Z) (cells : list StoredCell) : list Z :=
  match cells with [] => [] | c :: cells => start :: pointers_from (start + zlen (cell_bytes c)) cells end.
Definition fill (n : Z) (l : list Z) : list Z := l ++ zeros (n - zlen l).
Definition be2 (v : Z) : list Z := [v / 256; v mod 256].

(** A leaf behind [prefix], with its cells from 300 on. *)
Definition leaf_bytes (prefix : list Z) (cells : list StoredCell) : list Z :=
  fill 512 (fill 300 (prefix ++ [13; 0; 0] ++ be2 (zlen cells) ++ [0; 0; 0] ++ concat (map be2 (pointers_from 300 cells))) ++ concat (map cell_bytes cells)).
Definition leaf (n : Z) (prefix : list Z) (cells : list StoredCell) : Page := MkPage n LeafTable (leaf_bytes prefix cells) (pointers_from 300 cells) [].

Definition file_header : list Z := fill 100 (header_magic ++ be2 512 ++ [1; 1; 0; 64; 32; 32] ++ zeros 16 ++ be4 5).

Definition t_name : list Z := [116].
Definition t_sql : list Z := [67; 82; 69; 65; 84; 69; 32; 84; 65; 66; 76; 69; 32; 116; 40; 97; 41]. (* CREATE TABLE t(a) *)
Definition i_sql : list Z := [67; 82; 69; 65; 84; 69; 32; 73; 78; 68; 69; 88; 32; 105; 32; 79; 78; 32; 116; 40; 97; 41]. (* CREATE INDEX i ON t(a) *)
Definition index_word : list Z := [105; 110; 100; 101; 120].

Definition t_row : StoredCell := row 1 [text table_word; text t_name; text t_name; int1 2; text t_sql].
Definition i_row : StoredCell := row 2 [text index_word; text [105]; text t_name; int1 5; text i_sql].
Definition s_row : StoredCell := row 3 [text table_word; text sequenceTable; text sequenceTable; int1 6; text [67]].
Definition sequence_cell : StoredCell := row 1 [text t_name; int1 7].

Definition page1 : Page := leaf 1 file_header [t_row; i_row; s_row].
Definition page2 : Page := MkPage 2 InteriorTable (fill 512 (fill 400 ([5; 0; 0] ++ be2 1 ++ [0; 0; 0] ++ be4 4 ++ be2 400) ++ be4 3 ++ [1])) [400] [3; 4].
Definition page3 : Page := leaf 3 [] [row 1 [int1 11]].
Definition page4 : Page := leaf 4 [] [row 2 [int1 22]; row 3 [int1 33]].
Definition page6 : Page := leaf 6 [] [sequence_cell].

Definition master : Tree := Node page1 [t_row; i_row; s_row] [].
Definition tree_of (n : Z) : Tree :=
  if n =? 2 then Node page2 [] [Node page3 [row 1 [int1 11]] []; Node page4 [row 2 [int1 22]; row 3 [int1 33]] []] else Node page6 [sequence_cell] [].

(** The file has an old page 4; its new content is in the log. *)
Definition toy_file : list Z := p_data page1 ++ p_data page2 ++ p_data page3 ++ zeros 512 ++ zeros 512 ++ p_data page6.
Definition page4_log : LogFile := MkLogFile true (7, 9) (zeros 12) [] [MkWalFrame 4 6 (p_data page4)] [].
Definition page4_shm : ShmFile := toy_shm 1 0.

Definition toy_d : Disk := disk_of toy_file.
Definition toy_dw : Disk := disk_of (log_content page4_log).
Definition toy_ds : Disk := disk_of (shm_bytes page4_shm).

#[local] Instance toy_d_laws : DiskLaws toy_d.
Proof. apply disk_of_laws. vm_compute. reflexivity. Qed.
#[local] Instance toy_dw_laws : DiskLaws toy_dw.
Proof. apply disk_of_laws. vm_compute. reflexivity. Qed.
#[local] Instance toy_ds_laws : DiskLaws toy_ds.
Proof. apply disk_of_laws. vm_compute. reflexivity. Qed.

Definition toy_work : BackupWork unit := MkWork new_material ∅ None false [] [] (new_flags []) (new_flags []) (new_flags []) NoError tt.
Definition toy_backup : Backup RepairPager unit := MkBackup (new_pager toy_d toy_dw toy_ds (zeros 48) 0) toy_work.

(** The backup evaluates: the table has its SQL, the SQL of its index, its sequence and its two leaves, the second from the log. *)
Example toy_backup_runs :
  match fullBackup None toy_backup with
  | Done (ok, s) => ok = true /\ map (fun c => (tableName c, sql c, associatedSQLs c, rootPage c, Material.sequence c, map number (verifiedPagenos c))) (contentsList (bw_material (b_work s)))
      = [(t_name, t_sql, [i_sql], 2, 7, [3; 4])]
  | Stuck _ => False
  end.
Proof. vm_compute. split; reflexivity. Qed.

(** The same database with a view after the table, whose root page SQLite stores as the constant 0, and with a table WITHOUT ROWID, whose root is the leaf of an index.  The first
    makes the backup fail and the second is kept without a leaf, which is why the theorems about full backups are about tables with rowids and leave such rows out. *)
Definition v_row : StoredCell := row 3 [text [118; 105; 101; 119]; text [118]; text [118]; (8, []); text [67]].
Definition w_row : StoredCell := row 3 [text table_word; text [119]; text [119]; int1 6; text [67]].
Definition index_leaf : list Z := fill 512 [10].

Definition backup_with (r : StoredCell) (last : list Z) : Backup RepairPager unit :=
  MkBackup (new_pager (disk_of (p_data (leaf 1 file_header [t_row; i_row; r]) ++ p_data page2 ++ p_data page3 ++ p_data page4 ++ zeros 512 ++ last)) (disk_of []) (disk_of []) (zeros 48) 0) toy_work.

Example view_fails_backup : match fullBackup None (backup_with v_row (p_data page6)) with Done (ok, s) => ok = false /\ pg_error s <> NoError | Stuck _ => False end.
Proof. vm_compute. split; [reflexivity|discriminate]. Qed.

Example without_rowid_kept_empty :
  match fullBackup None (backup_with w_row index_leaf) with
  | Done (ok, s) => ok = true /\ map (fun c => (tableName c, map number (verifiedPagenos c))) (contentsList (bw_material (b_work s))) = [(t_name, [3; 4]); ([119], [])]
  | Stuck _ => False
  end.
Proof. vm_compute. split; reflexivity. Qed.

(** ** The database is stored *)

Definition toy_index : gmap Z Z := log_index page4_log.
Definition toy_db : Database := file_db toy_d toy_dw toy_index.

Lemma bytes_by_test l : forallb (fun b => (0 <=? b) && (b <? 256)) l = true -> Forall is_byte l.
Proof. intros H. apply Forall_forall. intros x Hx. rewrite forallb_forall in H. apply list_elem_of_In in Hx. specialize (H x Hx). unfold is_byte. lia. Qed.

(** Values that are evaluated. *)
Ltac value := vm_compute; reflexivity.

Lemma toy_good_file : good_file toy_d.
Proof.
  split_and!; [vm_compute; discriminate|value|value| |apply bytes_by_test; value]. split.
  - exists 9. split; [lia|value].
  - vm_compute. split; discriminate.
Qed.

Lemma page4_log_good : good_log 512 page4_log.
Proof.
  split; [split; cbn; lia|]. split; [value|]. split; [apply zeros_bytes|]. split; [|value]. constructor; [|constructor].
  split; [cbn; lia|]. split; [cbn; lia|]. split; [value|apply bytes_by_test; value].
Qed.

Lemma toy_log_state : log_state toy_dw toy_ds 512 (lf_live page4_log) toy_index.
Proof.
  apply (with_log toy_dw toy_ds 512 page4_log page4_shm);
    [apply disk_of_reliable|apply page4_log_good|apply toy_shm_good; lia|reflexivity|reflexivity|apply bytes_by_test; value|reflexivity..].
Qed.

(** A cell without overflow pages. *)
Lemma cell_here db data pointer c : let p := sc_payload c in
  sc_overflow c = [] -> 0 <= pointer <= zlen data -> slice pointer (zlen (cell_bytes c)) data = cell_bytes c -> local_part LeafTable (db_usable db) (zlen p) = zlen p -> cell_stored db LeafTable data pointer c.
Proof.
  intros p Ho Hp Hs Hl. exists (take (Z.to_nat pointer) data), p, [], 0, (drop (Z.to_nat (zlen (cell_bytes c))) (drop (Z.to_nat pointer) data)). split_and!; try lia.
  - rewrite app_nil_l. rewrite (app_assoc (cell_head LeafTable c)). change (cell_head LeafTable c ++ p) with (cell_bytes c).
    trans (take (Z.to_nat pointer) data ++ slice pointer (zlen (cell_bytes c)) data ++ drop (Z.to_nat (zlen (cell_bytes c))) (drop (Z.to_nat pointer) data)); [unfold slice; by rewrite !take_drop|by rewrite Hs].
  - unfold zlen in *. rewrite length_take. lia.
  - by rewrite app_nil_r.
  - done.
  - rewrite Ho. constructor.
Qed.

Lemma row_good id fields : (zlen (serials fields) <? 120) && (zlen (bodies fields) <? 1000) = true -> - 2 ^ 63 <= id < 2 ^ 63 -> Forall field_ok fields -> good_cell LeafTable (row id fields).
Proof.
  intros [H1%Z.ltb_lt H2%Z.ltb_lt]%andb_true_iff Hid Hf. unfold good_cell, row, stored_record, record_bytes. cbn [sc_header sc_fields sc_left sc_rowid]. zlen_pos.
  assert (E : zlen (sqlite_varint (1 + zlen (serials fields))) = 1).
  { unfold sqlite_varint. rewrite (proj2 (Z.ltb_lt _ _)) by lia. replace (Z.log2 (1 + zlen (serials fields)) / 7) with 0; [done|]. symmetry. apply Z.div_small. split; [apply Z.log2_nonneg|].
    apply Z.log2_lt_pow2; lia. }
  split_and!; try done; rewrite ?zlen_app, ?E; lia.
Qed.

Lemma text_ok b : Forall is_byte b -> zlen b < 1000 -> field_ok (text b).
Proof.
  intros Hb Hl. unfold field_ok, text, serial_ok, serial_width. cbn [fst snd]. zlen_pos. split_and!; try done; try lia.
  assert (E5 : (13 + 2 * zlen b =? 5) = false) by lia. assert (E6 : (13 + 2 * zlen b =? 6) || (13 + 2 * zlen b =? 7) = false) by lia. assert (E4 : (13 + 2 * zlen b <=? 4) = false) by lia.
  assert (E12 : (13 + 2 * zlen b <? 12) = false) by lia. assert (Ev : Z.even (13 + 2 * zlen b) = false) by (by rewrite Z.even_add_mul_2). rewrite E5, E6, E4, E12, Ev. replace (13 + 2 * zlen b - 13) with (zlen b * 2) by lia. by rewrite Z.div_mul.
Qed.

Lemma int1_ok v : is_byte v -> field_ok (int1 v).
Proof. intros Hv. split; [split; [left; cbn; lia|cbn; lia]|]. split; [done|]. cbn. constructor; [done|constructor]. Qed.

(** A leaf with its rows. *)
Definition leaf_test (db : Database) (n : Z) (prefix : list Z) (cells : list StoredCell) : bool :=
  let data := leaf_bytes prefix cells in
  let h := getOffsetOfHeader n in
  let ps := pointers_from 300 cells in
  (db_size db =? 512) && (db_usable db =? 512) && bool_decide (db_page db n = Some data) && bool_decide (data !! Z.to_nat h = Some 13) && (be_val (slice (h + 3) 2 data) =? zlen ps)
  && (h + 8 + 2 * zlen ps <=? 512)
  && forallb (fun x => (be_val (slice (h + 8 + x.1 * 2) 2 data) =? x.2) && (0 <=? x.2) && (x.2 <? 2 ^ 15)) (zip (seqZ 0 (zlen ps)) ps)
  && forallb (fun x => bool_decide (sc_overflow x.2 = []) && (0 <=? x.1) && (x.1 <=? zlen data) && bool_decide (slice x.1 (zlen (cell_bytes x.2)) data = cell_bytes x.2)
       && (local_part LeafTable 512 (zlen (sc_payload x.2)) =? zlen (sc_payload x.2))) (zip ps cells).

Lemma pointers_length start cells : length (pointers_from start cells) = length cells.
Proof. revert start. induction cells as [|c cells IH]; intros start; cbn; [done|]. by rewrite IH. Qed.

Lemma leaf_stored db n prefix cells : leaf_test db n prefix cells = true -> Forall (good_cell LeafTable) cells -> tree_stored db false (Node (leaf n prefix cells) cells []).
Proof.
  unfold leaf_test. rewrite !andb_true_iff, !bool_decide_eq_true, !forallb_forall. intros (((((((Hsize%Z.eqb_eq & Hu%Z.eqb_eq) & H1) & H2) & H3%Z.eqb_eq) & H4%Z.leb_le) & H5) & H6) Hg.
  assert (Hlen : length (pointers_from 300 cells) = length cells) by apply pointers_length. set (ps := pointers_from 300 cells) in *. zlen_pos.
  assert (Hptr : forall i p, ps !! i = Some p -> be_val (slice (getOffsetOfHeader n + 8 + Z.of_nat i * 2) 2 (leaf_bytes prefix cells)) = p /\ 0 <= p < 2 ^ 15).
  { intros i p Hp. pose proof (lookup_lt_Some _ _ _ Hp). specialize (H5 (Z.of_nat i, p)). cbn [fst snd] in H5.
    assert (Hin : In (Z.of_nat i, p) (zip (seqZ 0 (zlen ps)) ps)).
    { apply list_elem_of_In, list_elem_of_lookup. exists i. apply lookup_zip_with_Some. exists (Z.of_nat i), p. split_and!; [done| |done]. apply lookup_seqZ. unfold zlen. lia. }
    apply H5 in Hin. lia. }
  assert (Hmax : zlen ps < 2 ^ 15) by (unfold getOffsetOfHeader in H4; destruct (n =? 1); lia).
  constructor; [split_and!; try done; cbn [p_cellPointers leaf getOffsetOfCellPointer]; rewrite Hsize; exact H4|done|done| |constructor]. intros _. apply Forall2_same_length_lookup. split; [done|]. intros i p c Hp Hc. split; [by eapply Forall_lookup_1|].
  assert (Hin : In (p, c) (zip ps cells)) by (apply list_elem_of_In, list_elem_of_lookup; exists i; apply lookup_zip_with_Some; by exists p, c).
  apply H6 in Hin. cbn [fst snd] in Hin. rewrite !andb_true_iff, !bool_decide_eq_true in Hin. destruct Hin as ((((G1 & G2) & G3) & G4) & G5).
  cbn [leaf p_type p_data]. apply cell_here; [done|lia|done|]. rewrite Hu. by apply Z.eqb_eq.
Qed.

Ltac good_rows :=
  repeat (apply Forall_cons; split);
  [apply row_good; [value|lia|repeat (apply Forall_cons; split); try (apply text_ok; [apply bytes_by_test; value|value]); try (apply int1_ok; split; lia); constructor]..|constructor].

Lemma toy_master_stored : tree_stored toy_db false master.
Proof. apply leaf_stored; [value|good_rows]. Qed.
Lemma page3_stored : tree_stored toy_db false (Node page3 [row 1 [int1 11]] []).
Proof. apply leaf_stored; [value|good_rows]. Qed.
Lemma page4_stored : tree_stored toy_db false (Node page4 [row 2 [int1 22]; row 3 [int1 33]] []).
Proof. apply leaf_stored; [value|good_rows]. Qed.
Lemma page6_stored : tree_stored toy_db false (Node page6 [sequence_cell] []).
Proof. apply leaf_stored; [value|good_rows]. Qed.

Lemma toy_table_stored : tree_stored toy_db false (tree_of 2).
Proof.
  constructor; [|done|done|done|].
  - split; [value|]. split; [done|]. split; [value|]. split; [value|]. split; [value|]. split; [vm_compute; discriminate|]. split.
    + intros [|i] p Hp; [|done]. injection Hp as <-. split; [value|lia].
    + repeat constructor; value || (vm_compute; discriminate).
  - apply Forall_cons. split; [apply page3_stored|]. apply Forall_cons. split; [apply page4_stored|constructor].
Qed.

Ltac distinct := match goal with |- NoDup ?l => apply (bool_decide_unpack (NoDup l)); vm_compute; exact Logic.I end.

Lemma toy_database : database_stored None toy_db tree_of master.
Proof.
  split; [done|]. split; [apply toy_master_stored|]. split; [distinct|].
  assert (Hg : Forall (good_cell LeafTable) [t_row; i_row; s_row]) by good_rows. rewrite !Forall_cons in Hg. destruct Hg as (G1 & G2 & G3 & _).
  repeat (apply Forall_cons; split); [..|constructor]; (split; [split; [assumption|split; [vm_compute; lia|vm_compute; split; reflexivity]]|]).
  - change (item_stored None tree_of toy_db (master_item t_row)). split; [value|]. split; [apply toy_table_stored|distinct].
  - exact Logic.I.
  - split; [value|]. split; [apply page6_stored|]. split; [distinct|]. constructor; [|constructor].
    assert (Hs : Forall (good_cell LeafTable) [sequence_cell]) by good_rows. apply Forall_cons in Hs as [Hs _]. split; [exact Hs|]. split; [vm_compute; lia|]. split; [exists t_name; done|by exists 7].
Qed.

Lemma toy_idle : idle toy_work.
Proof. split_and!; done. Qed.

Lemma blocks_granted : forall k n, 0 <= n -> is_Some (data_malloc k n).
Proof. intros k n _. by eexists. Qed.

(** ** The theorems applied *)

Lemma file_backup_tables_witness : wp (fullBackup None) (fun ok s => ok = true /\ exists c, content (bw_material (b_work s)) t_name = Some c
    /\ tableName c = t_name /\ sql c = t_sql /\ rootPage c = 2 /\ verifiedPagenos c = leaves (tree_of 2) /\ associatedSQLs c = [i_sql]) toy_backup.
Proof.
  apply (file_backup_tables toy_d toy_dw toy_ds None (zeros 48) 0 (lf_live page4_log) toy_index toy_work tree_of master [] (master_item t_row) [master_item i_row; master_item s_row]
           (disk_of_reliable _) (disk_of_reliable _) blocks_granted toy_good_file toy_log_state toy_idle toy_database eq_refl).
  - split_and!; done.
  - apply Forall_cons. split; [by intros (_ & _ & H & _)|]. apply Forall_cons. split; [by intros (H & _)|]. apply Forall_nil_2.
Defined.

Lemma file_backup_material_witness : wp (fullBackup None) (fun ok s => ok = true /\ bw_material (b_work s) = settled (foldl (on_item None tree_of) new_material (master_items master))) toy_backup.
Proof.
  apply (file_backup_material toy_d toy_dw toy_ds None (zeros 48) 0 (lf_live page4_log) toy_index toy_work tree_of master
           (disk_of_reliable _) (disk_of_reliable _) blocks_granted toy_good_file toy_log_state toy_idle toy_database).
Defined.

Lemma pager_opens_database_witness : wp pgr_initialize (fun ok p => ok = true /\ pgr_getError p = NoError /\ pgr_pageSize p = 512 /\ pgr_reservedBytes p = 0
    /\ wp (acquire_pages [1; 4; 1]) (fun rs p' => map Some rs = [Some (p_data page1); Some (p_data page4); Some (p_data page1)] /\ pgr_getError p' = NoError) p)
  (new_pager toy_d toy_dw toy_ds (zeros 48) 0).
Proof.
  apply (pager_opens_database toy_d toy_dw toy_ds (zeros 48) 0 (lf_live page4_log) toy_index [1; 4; 1] (disk_of_reliable _) (disk_of_reliable _) blocks_granted toy_good_file toy_log_state).
  repeat (apply Forall_cons; split; [split; [lia|vm_compute; by eexists]|]). constructor.
Defined.

(** *** An incremental backup *)

(** The log was copied into the file, and a new one has begun.  The material is older: it has another page 4 and knows of page 5, which is no page of a table any more. *)
Definition new_d : Disk := disk_of (p_data page1 ++ p_data page2 ++ p_data page3 ++ p_data page4 ++ zeros 512 ++ p_data page6).
Definition new_dw : Disk := disk_of (zeros 700).

#[local] Instance new_d_laws : DiskLaws new_d.
Proof. apply disk_of_laws. vm_compute. reflexivity. Qed.
#[local] Instance new_dw_laws : DiskLaws new_dw.
Proof. apply disk_of_laws. vm_compute. reflexivity. Qed.

Definition old_content : Content := MkContent t_name t_sql [i_sql] 2 5 [MkVPage 3 (data_hash (p_data page3)); MkVPage 4 77; MkVPage 5 88].
Definition old_material : Material := MkMaterial (MkInfo 512 0 (7, 9) 1 6) [old_content] {[t_name := 0%nat]}.
Definition changed_toy : gmap Z IncPage := {[2 := MkIncPage 2 5 0; 4 := MkIncPage 4 13 (data_hash (p_data page4)); 6 := MkIncPage 6 13 0; 1 := MkIncPage 1 13 0]}.
Definition toy_inc : IncInfo := MkIncInfo (7, 9) (7, 10) 1 0 5 true 0 0.
Definition inc_work : BackupWork unit := MkWork old_material ∅ (Some (MkIncMaterial toy_inc changed_toy)) false [] [] (new_flags []) (new_flags []) (new_flags []) NoError tt.
Definition inc_backup : Backup RepairPager unit := MkBackup (new_pager new_d new_dw toy_ds (zeros 48) 0) inc_work.

(** The backup evaluates: page 3 keeps its entry, page 4 gets a new one, page 5 is forgotten, and the sequence is the one in the table. *)
Example incremental_backup_runs :
  match incrementalBackup None inc_backup with
  | Done (ok, s) => ok = true /\ map (fun c => (tableName c, Material.sequence c, map (fun e => (number e, hash e)) (verifiedPagenos c))) (contentsList (bw_material (b_work s)))
      = [(t_name, 7, [(3, data_hash (p_data page3)); (0, 77); (0, 88); (4, data_hash (p_data page4))])]
  | Stuck _ => False
  end.
Proof. vm_compute. split; reflexivity. Qed.

(** With another schema cookie the schema is read again, and a table that is gone is erased. *)
Definition gone_content : Content := MkContent [117] [] [] 5 0 [MkVPage 5 88].
Definition schema_material : Material := MkMaterial (info old_material) [gone_content; set_verifiedPagenos (take 2 (verifiedPagenos old_content)) old_content] {[ [117] := 0%nat; t_name := 1%nat ]}.
Definition schema_inc : IncInfo := MkIncInfo (7, 9) (7, 10) 1 0 4 true 0 0.

Example schema_backup_runs :
  match incrementalBackup None (MkBackup (new_pager new_d (disk_of []) (disk_of []) (zeros 48) 0) (set_incremental (Some (MkIncMaterial schema_inc changed_toy)) (set_material schema_material inc_work))) with
  | Done (ok, s) => ok = true /\ map (fun c => (tableName c, associatedSQLs c, Material.sequence c, map number (verifiedPagenos c))) (contentsList (bw_material (b_work s))) = [(t_name, [i_sql], 7, [3; 0; 4])]
      /\ map_to_list (contentsMap (bw_material (b_work s))) = [(t_name, 0%nat)]
  | Stuck _ => False
  end.
Proof. vm_compute. split_and!; reflexivity. Qed.

(** A leaf behind the end of a file that has become shorter keeps its entry. *)
Example shorter_file_keeps_leaf :
  match incrementalBackup None (MkBackup (b_pager inc_backup) (set_material (MkMaterial (info old_material) [set_verifiedPagenos [MkVPage 3 (data_hash (p_data page3)); MkVPage 9 99] old_content] (contentsMap old_material)) inc_work)) with
  | Done (ok, s) => ok = true /\ map (fun c => map number (verifiedPagenos c)) (contentsList (bw_material (b_work s))) = [[3; 9; 4]]
  | Stuck _ => False
  end.
Proof. vm_compute. split; reflexivity. Qed.

Definition new_db : Database := file_db new_d new_dw ∅.

Lemma new_good_file : good_file new_d.
Proof.
  split_and!; [vm_compute; discriminate|value|value| |apply bytes_by_test; value]. split.
  - exists 9. split; [lia|value].
  - vm_compute. split; discriminate.
Qed.

Lemma new_table_stored : tree_stored new_db false (tree_of 2).
Proof.
  constructor; [|done|done|done|].
  - split; [value|]. split; [done|]. split; [value|]. split; [value|]. split; [value|]. split; [vm_compute; discriminate|]. split.
    + intros [|i] p Hp; [|done]. injection Hp as <-. split; [value|lia].
    + repeat constructor; value || (vm_compute; discriminate).
  - apply Forall_cons. split; [apply leaf_stored; [value|good_rows]|]. apply Forall_cons. split; [apply leaf_stored; [value|good_rows]|constructor].
Qed.

Lemma new_sequences_stored : sequences_stored tree_of new_db old_material.
Proof.
  intros _. split; [value|]. split; [apply leaf_stored; [value|good_rows]|]. split; [distinct|]. split; [|split].
  - constructor; [|constructor]. assert (Hs : Forall (good_cell LeafTable) [sequence_cell]) by good_rows. apply Forall_cons in Hs as [Hs _]. split; [exact Hs|]. split; [vm_compute; lia|].
    split; [exists t_name; done|by exists 7].
  - constructor; [|constructor]. vm_compute. by eexists.
  - intros c n ->%list_elem_of_singleton Hn. change (pages (sequence_tree tree_of old_material)) with [6]. rewrite list_elem_of_singleton. change (pages (tree tree_of old_content)) with [2; 3; 4] in Hn.
    rewrite !elem_of_cons, elem_of_nil in Hn. lia.
Qed.

Lemma old_material_old : material_old new_db tree_of changed_toy [old_content].
Proof.
  split_and!.
  - intros c ->%list_elem_of_singleton. distinct.
  - intros c e ->%list_elem_of_singleton He Hn. assert (He' : e = MkVPage 3 (data_hash (p_data page3)) \/ e = MkVPage 4 77 \/ e = MkVPage 5 88) by (apply elem_of_cons in He as [->|He]; [by left|]; apply elem_of_cons in He as [->|He]; [by right; left|]; apply list_elem_of_singleton in He as ->; by right; right).
    destruct He' as [->|[->| ->]]; [|by vm_compute in Hn|]; (split; [vm_compute; split; discriminate|]); intros c' ->%list_elem_of_singleton Hp; (split; [done|]).
    + apply elem_of_cons. left. reflexivity.
    + change (pages (tree tree_of old_content)) with [2; 3; 4] in Hp. cbn [number] in Hp. rewrite !elem_of_cons, elem_of_nil in Hp. lia.
  - intros c e ->%list_elem_of_singleton He Hn. change (leaves (tree tree_of old_content)) with [MkVPage 3 (data_hash (p_data page3)); MkVPage 4 (data_hash (p_data page4))] in He.
    apply elem_of_cons in He as [->|He]; [constructor|]. apply list_elem_of_singleton in He as ->. by vm_compute in Hn.
  - intros c ->%list_elem_of_singleton Hn. specialize (Hn 2 ltac:(constructor)). by vm_compute in Hn.
Qed.

Lemma changes_toy_known : changes_known tree_of changed_toy [old_content].
Proof.
  intros c p page ->%list_elem_of_singleton Hp Hpage. change (nodes (tree tree_of old_content)) with [page2; page3; page4] in Hp.
  rewrite !elem_of_cons, elem_of_nil in Hp. destruct Hp as [->|[->|[->|[]]]]; vm_compute in Hpage.
  - injection Hpage as <-. reflexivity.
  - discriminate Hpage.
  - injection Hpage as <-. split; value.
Qed.

Lemma file_incremental_tables_witness : wp (incrementalBackup None) (fun ok s => ok = true /\ refreshed tree_of (contentsList (raised None tree_of old_material)) (raised None tree_of old_material) (bw_material (b_work s))) inc_backup.
Proof.
  apply (file_incremental_tables new_d new_dw toy_ds None (zeros 48) 0 old_material toy_inc changed_toy inc_work tree_of (disk_of_reliable _) (disk_of_reliable _) blocks_granted new_good_file).
  - apply zeros_bytes.
  - value.
  - split_and!; done.
  - value.
  - vm_compute. discriminate.
  - apply new_sequences_stored.
  - split; [intros c ->%list_elem_of_singleton; split; [value|apply new_table_stored]|]. split; [distinct|]. change (Forall (fun n => 1 <= n <= 6) [2; 3; 4]). repeat (apply Forall_cons; split; [lia|]). apply Forall_nil_2.
  - apply old_material_old.
  - apply changes_toy_known.
Defined.

(** *** A damaged database *)

(** The second page names itself and the first as its subpages.  It is in the log too, and the file system grants no request for a mapping from its [m]-th on. *)
Definition circle_page : list Z := fill 512 (fill 400 ([5; 0; 0] ++ be2 1 ++ [0; 0; 0] ++ be4 2 ++ be2 400) ++ be4 1 ++ [1]).
Definition circle_bytes : list Z := p_data page1 ++ circle_page.
Definition circle_log : LogFile := MkLogFile true (7, 9) (zeros 12) [] [MkWalFrame 2 2 circle_page] [].
Definition few_disk (m : nat) (b : list Z) : Disk :=
  MkDisk b 4096 (fun _ => true) (fun _ => true) (fun _ => true) (fun _ => true) (fun k => (k <? m)%nat) (fun _ n => (Z.max 0 n, EOTHER)).

Lemma few_disk_laws m b : zlen b < 2 ^ 46 -> DiskLaws (few_disk m b).
Proof. intros Hb. constructor; [by intros ? ? ?|intros; cbn; lia|done|done|]. exists 12. split; [lia|done]. Qed.

Definition circle_d (m : nat) : Disk := few_disk m circle_bytes.
Definition circle_dw (m : nat) : Disk := few_disk m (log_content circle_log).
Definition circle_ds (m : nat) : Disk := few_disk m (shm_bytes (toy_shm 1 0)).
Definition circle_pager (m : nat) : RepairPager := new_pager (circle_d m) (circle_dw m) (circle_ds m) (zeros 48) 0.

#[local] Instance circle_d_laws m : DiskLaws (circle_d m).
Proof. apply few_disk_laws. vm_compute. reflexivity. Qed.
#[local] Instance circle_dw_laws m : DiskLaws (circle_dw m).
Proof. apply few_disk_laws. vm_compute. reflexivity. Qed.
#[local] Instance circle_ds_laws m : DiskLaws (circle_ds m).
Proof. apply few_disk_laws. vm_compute. reflexivity. Qed.

Lemma circle_d_bytes m : Forall is_byte (dk_bytes (circle_d m)).
Proof. apply bytes_by_test. value. Qed.
Lemma circle_dw_bytes m : Forall is_byte (dk_bytes (circle_dw m)).
Proof. apply bytes_by_test. value. Qed.
Lemma circle_ds_bytes m : Forall is_byte (dk_bytes (circle_ds m)).
Proof. apply bytes_by_test. value. Qed.

(** What holds of a pager that is opened, and a test of it. *)
Lemma opened (p0 : RepairPager) (test : RepairPager -> bool) (P : RepairPager -> Prop) :
  match pgr_initialize p0 with Done (true, p) => test p | _ => false end = true -> wp pgr_initialize (fun ok p => ok = true -> P p) p0 ->
  exists p, pgr_initialize p0 = Done (true, p) /\ test p = true /\ P p.
Proof. unfold wp. destruct (pgr_initialize p0) as [[[|] p]|]; try done. intros Ht HP. exists p. split_and!; auto. Qed.

(** The pager opens; then page 2 is found in the log, and the mapping of page 1 is refused. *)
Lemma pager_any_files_witness : exists p, pgr_initialize (circle_pager 9) = Done (true, p)
  /\ match acquire_pages [1; 2] p with Done (rs, _) => bool_decide (rs = [[]; circle_page]) | Stuck _ => false end = true
  /\ forall ns, Forall (fun n => 1 <= n) ns ->
    wp (acquire_pages ns) (fun rs _ => Forall2 (fun n r => r = [] \/ latest (circle_d 9) (circle_dw 9) (pgr_pageSize p) (w_pages (pgr_wal p)) n = Some r) ns rs) p.
Proof.
  apply (opened (circle_pager 9) (fun p => match acquire_pages [1; 2] p with Done (rs, _) => bool_decide (rs = [[]; circle_page]) | Stuck _ => false end)); [value|].
  apply (pager_any_files (circle_d 9) (circle_dw 9) (circle_ds 9) (zeros 48) 0); [apply circle_d_bytes|apply circle_dw_bytes|apply circle_ds_bytes|value..].
Defined.

(** The pager opens, and the crawl over the circle finds it. *)
Lemma table_crawl_ends_witness : exists p, pgr_initialize (circle_pager 11) = Done (true, p)
  /\ match crawl (C := BackupCrawler) 2 (MkBackup p toy_work) with Done (ok, s) => bool_decide (ok = false /\ pgr_getError (b_pager s) = Corrupt 2) | Stuck _ => false end = true
  /\ forall n, 1 <= n -> pwp other_fault (crawl (C := BackupCrawler) n)
    (fun ok s => ok = pg_isOK s /\ pgr_inv (circle_d 11) (circle_dw 11) (header_size (circle_d 11)) (header_reserved (circle_d 11)) (w_pages (pgr_wal p)) (b_pager s)) (MkBackup p toy_work).
Proof.
  apply (opened (circle_pager 11) (fun p => match crawl (C := BackupCrawler) 2 (MkBackup p toy_work) with
    Done (ok, s) => bool_decide (ok = false /\ pgr_getError (b_pager s) = Corrupt 2) | Stuck _ => false end)); [value|].
  apply (table_crawl_ends (circle_d 11) (circle_dw 11) (circle_ds 11) (zeros 48) 0 toy_work); [apply circle_d_bytes|apply circle_dw_bytes|apply circle_ds_bytes|value..|].
  intros e. by apply pwp_ret.
Defined.

(** A cell pointer of 0xFFFF, which is read as -1: the number of the subpage is read in front of the page. *)
Definition pointer_bytes : list Z := p_data page1 ++ fill 512 ([5; 0; 0] ++ be2 1 ++ [0; 0; 0] ++ be4 2 ++ be2 65535).

Example signed_pointer_faults :
  match (let! _ := on_pager pgr_initialize in crawl (C := BackupCrawler) 2) (MkBackup (new_pager (disk_of pointer_bytes) (disk_of []) (disk_of []) (zeros 48) 0) toy_work) with
  | Done _ => False
  | Stuck f => f = OutOfBounds
  end.
Proof. vm_compute. reflexivity. Qed.

(** The crawl of the circle when every mapping is granted: it is told that the page has been seen, and its error is that of a corruption. *)
Example circle_found :
  match (let! _ := on_pager pgr_initialize in crawl (C := BackupCrawler) 2) (MkBackup (new_pager (disk_of circle_bytes) (disk_of []) (disk_of []) (zeros 48) 0) toy_work) with
  | Done (ok, s) => ok = false /\ pgr_getError (b_pager s) = Corrupt 2
  | Stuck _ => False
  end.
Proof. vm_compute. split; reflexivity. Qed.

(** A file that is cut within its last leaf: the data of the page is empty although no request has failed, so that the error is the one that
    the thread has from before, which is OK.  The backup succeeds without the leaf, and without all that follows in the master table. *)
Definition cut_bytes : list Z := p_data page1 ++ p_data page2 ++ p_data page3 ++ take 100 (p_data page4).

Example cut_backup_succeeds :
  match fullBackup None (MkBackup (new_pager (disk_of cut_bytes) (disk_of []) (disk_of []) (zeros 48) 0) toy_work) with
  | Done (ok, s) => ok = true /\ map (fun c => (tableName c, map number (verifiedPagenos c), associatedSQLs c)) (contentsList (bw_material (b_work s))) = [(t_name, [3], [])]
  | Stuck _ => False
  end.
Proof. vm_compute. split; reflexivity. Qed.

(** *** Ranges *)

Lemma mapped_ranges_apart_witness : let f := MkPageFile (FH toy_d true (-1) 0) 0 0 new_cache in
  wp (pf_setPageSize 512 ;;; serve_all [MapPage 2; PurgeOne; MapPage 6; MapPage 1; PurgeAll])
    (fun l f' => Forall2 (answer_shown toy_d 512) [MapPage 2; PurgeOne; MapPage 6; MapPage 1; PurgeAll] l
      /\ StronglySorted (fun r q => r_edge r <= r_location q) (rc_map (pf_cache f')) /\ Permutation (map fst (rc_list (pf_cache f'))) (rc_map (pf_cache f'))
      /\ Forall (fun e => e.2 = slice (r_location e.1 * cache_page_size toy_d 512) (r_length e.1 * cache_page_size toy_d 512) (dk_bytes toy_d)) (rc_list (pf_cache f'))) f.
Proof.
  intros f. apply (mapped_ranges_apart toy_d 512); [exists 9; split; [lia|done]| |done|].
  - split_and!; [done|done|by left].
  - repeat (apply Forall_cons; split; [first [exact Logic.I|split; [lia|value]]|]). apply Forall_nil_2.
Defined.
End BackupToy.
